(* ===== verification/_CoqProject ===== *)
-Q . S2P
Prelude.v
BootMap.v
Pmm.v
Mmu.v
Reclaim.v
Kmem.v
Umem.v
Slab.v
NetUtil.v
NetBuf.v
Net.v
Link.v
Arp.v
Ip.v
Udp.v
Tcp.v
Socket.v
Stack.v
CString.v
Security.v
VfsPath.v
Vfs.v
Sched.v
SchedQueue.v
Fds.v
SchedSpawn.v
SchedRun.v
Syscall.v
SysUser.v
SysFd.v
SysPipe.v
Signal.v
Ipc.v
SysCred.v
SysFile.v
Packet.v
Dns.v
Dhcp.v
Dynlink.v
Elf.v
ElfMap.v
ElfStack.v
ElfLoad.v
Exec.v
Journal.v
Softirq.v
