(* ===== verification/Prelude.v ===== *)
(** * axiomeOS: a verification development of the kernel

    axiomeOS is an x86-64 kernel in C with its own boot loader, drivers,
    network stack, file systems and user programs.  This library models its
    core in Rocq and proves the theorems that make those parts correct.  File
    and function names below are those under src/kernel/.

    ** How code becomes definitions

    A C function is a function of the monad [M St A] of this file: it takes the
    state of its component and returns [Ok (result, state)], [Fault] where the
    C program would have no meaning (null or freed pointer, index outside an
    array, unmapped page) or [NoFuel] when a loop was cut.  Statics of a C file
    are the fields of a record; a struct is a record; a pointer is an index,
    an address or a key of a store, so that sharing and aliasing are those of
    the source.  Unsigned integers are elements of [Z] wrapped by [u8], [u16],
    [u32], [u64] where C wraps; [int] results are read with [i32].  [wp m Q s]
    says that [m] returns from [s] and that [Q] holds of result and state: it
    is total correctness, so every theorem proved with it includes memory
    safety and termination.

    Counted loops are [for_up], [for_ret] and [for_list]; other loops are
    [loop_fuel] with the fuel computed from the state (the number of frames
    left, the length of a chain, the pages of a range), and the theorems show
    that it never runs out.  Only the waits of the network layer, which end
    when other threads or the clock act, take their fuel as an argument.

    ** Parts and files

    Memory.  BootMap: the handoff of the loader and the memory map (axboot.c,
    mmap.h).  Pmm: the frame allocator (pmm.c), a bitmap refining a set of free
    frames.  Mmu: four-level page tables (arch/x86_64/mmu.c, vmm.c), whose
    specification is the walk of the processor; tables are frames of Pmm.
    Reclaim: what freeing an address space gives back.
    Kmem: loads and stores through those tables and the view of the kernel
    window the heap works on.  Slab: [kmalloc] and [kfree] (slab.c), with
    headers and free lists in that memory.  Umem: user memory, written by the
    kernel through the active tables, and the view of one root entry of an
    address space: pages with their frames, permissions and bytes.  The theorems compose: the heap
    keeps its contract because the page tables translate as specified and the
    frame allocator hands no frame out twice.

    Network.  NetUtil: byte order and the Internet checksum (net_util.h).
    NetBuf: the mbuf pool and fragment chains (net_buf.c).  Net: the state of
    the stack and the interface [NetEnv] between its layers.  Link: devices and
    Ethernet (netdev.c, ethernet.c, loopback.c).  Arp (arp.c), Ip (ipv4.c,
    icmp.c), Udp (udp.c), Tcp (tcp.c), Socket (socket.c).  Stack closes
    [NetEnv] with the real handlers and the loopback device, so that whole
    exchanges run through all layers.  Packet: bytes in arrays and packets.
    Dns: the encoding of names and the reader of replies (dns.c).  Dhcp: the
    messages of the client, its reader of options and its thread (dhcp.c).

    Files and users.  CString: string.c.  Security: roles, the user database,
    SHA-256 and logins (security.c, posix.c).  VfsPath: paths, aliases, mounts
    and permissions; Vfs: the ramfs and the generic layer (vfs.c), the other
    file systems entering through the class [VfsEnv].  Journal: the kernel log
    (journal.c) over the class [LogFile], whose law [LogFileSpec] lets writes be
    short.

    Execution.  Sched: threads, the run queue, forking, exiting and switching
    (sched.c, switch.S).  SchedQueue: the run queue as a list, the invariant of
    the scheduler and the rules of the switching operations.  Fds: the
    descriptor tables of all threads against the counts of nodes and pipes: the
    count of a node is exactly its descriptors and the references that parts
    outside of the model hold, a parameter of the class [Others].
    SchedSpawn: new threads and zombies; SchedRun: the theorems on runs of the
    scheduler.  Softirq: deferred interrupt work (softirq.c).

    System calls.  Syscall: user memory, the descriptor table and the calls
    open, close, read, write, dup2 and pipe (syscall.c), composed from the
    scheduler, the page tables and the VFS.  A user buffer is read through a
    function from addresses to bytes, and what a call stores there is part of
    its result; a call that blocks ends with the switch to another thread.
    SysUser: the checks and copies of user memory.  SysFd: descriptors, their
    counts and the calls that move them.  SysPipe: pipes as byte queues.
    Signal: sending, delivery and return of signals (syscall.c), with the words
    that syscall.S and isr.S save.  Ipc: channels and shared memory.  SysCred:
    identities and rights.  SysFile: children, positions, directories and the
    other calls on names.

    Programs.  Dynlink: dynamic sections, symbols and relocations of ELF images
    (dynlink.c, elf.h) over the bytes of the files.  Elf: [elf_load] (elf.c),
    which maps segments and libraries, relocates and protects them, and builds
    the stack of a new program in the memory of Umem.  ElfMap: the pages and
    bytes the mapping adds, the final permissions.  ElfStack: the layout of the
    stack.  ElfLoad: the memory of a program that was loaded, as a whole.
    Exec: fork, exec and spawn with the vectors and commands they copy, and the
    start of init (elf.c, syscall.c, kernel.c).

    ** What the theorems show

    Refinements of abstract specifications: frames (Pmm), address spaces (Mmu),
    the heap (Slab), the log (Journal), the queue of deferred work (Softirq),
    pipes (SysPipe), channels (Ipc), the memory of a program as its file
    describes it (ElfLoad).
    Invariants and safety: no frame is handed out twice, address spaces are
    isolated, over any history of permitted steps of threads the run queue and
    the ownership of memory stay consistent and the counts exact ([sop_ok] says
    which steps are permitted, the code does not check them), a ready thread is not
    starved, the ramfs tree stays well formed, over any history of calls,
    arriving datagrams and reuse of sockets UDP ports stay unique, ARP bindings stay
    unique, clones of packets are deep, no page of a program is both writable
    and executable, the rights of a process stay within
    those of its role.  Equivalences with reference
    definitions: the check of user pointers with what the page tables grant,
    the names [dns_skip_name] accepts
    with a grammar, the resolved symbol with the first definition of its name.
    Whatever bytes a server or an ELF file holds, the readers of DNS, DHCP and
    dynamic sections return without reading outside of them.  Round trips: packets through
    Ethernet, IPv4 and mbufs, files of the ramfs, the password file, the registers around a signal
    handler.  Where the
    code does not do what it means to, a theorem exhibits it (the double free
    of [tcp_close], the target address [arp_handle_rx] reads two bytes early,
    the shifted pages of a split write-combining mapping, the no-execute bit
    lost by a fork, the stale stack of a thread that yields alone, the
    registers permuted by a signal from the timer, the privileges [sys_sigreturn]
    and [sys_setuid] give away).

    ** Not modelled

    The device drivers (pci, ide, xhci, keyboard, mouse, serial, framebuffer,
    gfx, the modules nvme, sata, e1000), interrupt entry (idt, tss, apic,
    ioapic, isr) and assembly are programs over device registers whose
    behaviour is not in the sources.  FAT32, axiomefs, procfs, devfs, the
    module loader and, of the system call layer, print, uname, the wrappers of the
    socket layer, name resolution, passwords, modules, mount and clocks are not
    modelled, nor are the user programs and their libc; the boot loader runs on
    UEFI services.  Diagnostics ([printk], [klog]) have no effect on the
    modelled state and are left out.  Interrupts are disabled or harmless
    inside the modelled functions; concurrency between processors is not
    modelled, the kernel runs on one. *)

From stdpp Require Export base list numbers option gmap.
From Stdlib Require Export ZArith Lia.

#[global] Open Scope Z_scope.

(** ** Machine integers *)

(** The C unsigned types [uint8_t], [uint16_t], [uint32_t], [uint64_t] (and
    [size_t]) are integers of [Z] kept in range by these wrap-arounds. *)
Definition u8 (x : Z) : Z := x mod 2 ^ 8.
Definition u16 (x : Z) : Z := x mod 2 ^ 16.
Definition u32 (x : Z) : Z := x mod 2 ^ 32.
Definition u64 (x : Z) : Z := x mod 2 ^ 64.

(** [(int32_t)x] of a 32-bit pattern: two's complement reading. *)
Definition i32 (x : Z) : Z := let y := u32 x in if y <? 2 ^ 31 then y else y - 2 ^ 32.

Definition is_u8 (x : Z) : Prop := 0 ≤ x < 2 ^ 8.
Definition is_u16 (x : Z) : Prop := 0 ≤ x < 2 ^ 16.
Definition is_u32 (x : Z) : Prop := 0 ≤ x < 2 ^ 32.
Definition is_u64 (x : Z) : Prop := 0 ≤ x < 2 ^ 64.

(** Values that fit are unchanged by the wrap-around. *)
Lemma u8_small x : is_u8 x → u8 x = x.
Proof. apply Z.mod_small. Qed.
Lemma u16_small x : is_u16 x → u16 x = x.
Proof. apply Z.mod_small. Qed.
Lemma u32_small x : is_u32 x → u32 x = x.
Proof. apply Z.mod_small. Qed.
Lemma u64_small x : is_u64 x → u64 x = x.
Proof. apply Z.mod_small. Qed.

Lemma u8_range x : is_u8 (u8 x).
Proof. by apply Z.mod_pos_bound. Qed.
Lemma u16_range x : is_u16 (u16 x).
Proof. by apply Z.mod_pos_bound. Qed.
Lemma u32_range x : is_u32 (u32 x).
Proof. by apply Z.mod_pos_bound. Qed.
Lemma u64_range x : is_u64 (u64 x).
Proof. by apply Z.mod_pos_bound. Qed.

Create HintDb words.
#[export] Hint Resolve u8_range u16_range u32_range u64_range : words.

(** Evaluate the integer comparisons of the goal that [lia] can decide. *)
Ltac decide_cmps :=
  repeat match goal with
  | |- context [?a <=? ?b] =>
    first [rewrite (proj2 (Z.leb_le a b)) by lia | rewrite (proj2 (Z.leb_gt a b)) by lia]
  | |- context [?a <? ?b] =>
    first [rewrite (proj2 (Z.ltb_lt a b)) by lia | rewrite (proj2 (Z.ltb_ge a b)) by lia]
  | |- context [?a =? ?b] =>
    first [rewrite (proj2 (Z.eqb_eq a b)) by lia | rewrite (proj2 (Z.eqb_neq a b)) by lia]
  end.

(** ** Bits *)

Lemma testbit_small x n i : 0 ≤ x < 2 ^ n → 0 ≤ n ≤ i → Z.testbit x i = false.
Proof.
  intros Hx Hi. destruct (Z.eq_dec x 0) as [->|Hne]; [apply Z.bits_0|].
  apply Z.bits_above_log2; [lia|]. apply Z.log2_lt_pow2; [lia|].
  apply Z.lt_le_trans with (2 ^ n); [lia|]. apply Z.pow_le_mono_r; lia.
Qed.

Lemma testbit_range x n : 0 ≤ n → (∀ i, n ≤ i → Z.testbit x i = false) → 0 ≤ x < 2 ^ n.
Proof.
  intros Hn Hb. replace x with (x mod 2 ^ n); [apply Z.mod_pos_bound; lia|].
  apply Z.bits_inj'. intros i Hi. destruct (Z.lt_ge_cases i n).
  - by rewrite Z.mod_pow2_bits_low.
  - rewrite Z.mod_pow2_bits_high by lia. by rewrite Hb.
Qed.

(** A field below bit [n] and one above it do not overlap: [|] is [+]. *)
Lemma lor_low_high x y n : 0 ≤ n → 0 ≤ x < 2 ^ n → Z.lor x (Z.shiftl y n) = x + y * 2 ^ n.
Proof.
  intros Hn Hx. rewrite <-Z.shiftl_mul_pow2 by done.
  assert (Z.land x (Z.shiftl y n) = 0) as Hland.
  { apply Z.bits_inj'. intros i Hi. rewrite Z.land_spec, Z.bits_0.
    destruct (Z.lt_ge_cases i n).
    - by rewrite Z.shiftl_spec_low, andb_false_r.
    - by rewrite (testbit_small x n i) by lia. }
  by rewrite <-Z.lxor_lor, Z.add_nocarry_lxor.
Qed.

Lemma land_ones_mod x n : 0 ≤ n → Z.land x (2 ^ n - 1) = x mod 2 ^ n.
Proof. intros Hn. replace (2 ^ n - 1) with (Z.ones n) by (rewrite Z.ones_equiv; lia).
  by apply Z.land_ones. Qed.

(** ** Lists *)

Lemma exists_elem_snoc {A} (P : A → Prop) (l : list A) x :
  (∃ y, y ∈ l ++ [x] ∧ P y) ↔ (∃ y, y ∈ l ∧ P y) ∨ P x.
Proof.
  split.
  - intros (y & [Hy| ->%list_elem_of_singleton]%elem_of_app & HP); [left; eauto|by right].
  - intros [(y & Hy & HP)|HP]; [exists y|exists x]; (split; [|done]); apply elem_of_app;
      [by left|right; by apply list_elem_of_singleton].
Qed.

(** ** Outcomes and the state monad of C code *)

(** A C function either returns ([Ok]), performs an access the language gives
    no meaning to, such as an index outside an array ([Fault]), or is still
    running when the model's fuel is used up ([NoFuel]). *)
Inductive outcome (A : Type) : Type :=
  | Ok (a : A)
  | Fault
  | NoFuel.
Arguments Ok {A} a.
Arguments Fault {A}.
Arguments NoFuel {A}.

Definition M (St A : Type) : Type := St → outcome (A * St).

#[global] Instance M_ret St : MRet (M St) := λ A a s, Ok (a, s).
#[global] Instance M_bind St : MBind (M St) := λ A B k m s,
  match m s with
  | Ok (a, s') => k a s'
  | Fault => Fault
  | NoFuel => NoFuel
  end.

Definition gets {St A} (f : St → A) : M St A := λ s, Ok (f s, s).
Definition modify {St} (f : St → St) : M St unit := λ s, Ok (tt, f s).
Definition fault {St A} : M St A := λ _, Fault.

(** Read of a C array: an index outside the array faults. *)
Definition load {St A} (l : list A) (i : Z) : M St A :=
  match (if 0 <=? i then l !! Z.to_nat i else None) with
  | Some v => mret v
  | None => fault
  end.

(** [for (i = i0; i < i0 + n; i++) body] *)
Fixpoint for_up {St} (n : nat) (i : Z) (body : Z → M St unit) : M St unit :=
  match n with
  | O => mret tt
  | S n' => body i ;; for_up n' (i + 1) body
  end.

(** The same loop with a [return] in its body: [Some r] leaves the function. *)
Fixpoint for_ret {St R} (n : nat) (i : Z) (body : Z → M St (option R)) : M St (option R) :=
  match n with
  | O => mret None
  | S n' => r ← body i;
            match r with
            | Some v => mret (Some v)
            | None => for_ret n' (i + 1) body
            end
  end.

(** [for (x in l) body] over the elements of an array. *)
Fixpoint for_list {St A} (l : list A) (body : A → M St unit) : M St unit :=
  match l with
  | [] => mret tt
  | x :: l' => body x ;; for_list l' body
  end.

(** A loop over local variables [a]: [inl] goes round again, [inr] leaves. *)
Fixpoint loop_fuel {St A R} (fuel : nat) (step : A → M St (A + R)) (a : A) : M St R :=
  match fuel with
  | O => λ _, NoFuel
  | S fuel' => r ← step a;
               match r with
               | inl a' => loop_fuel fuel' step a'
               | inr v => mret v
               end
  end.

(** A computation on a part of the state, run on the whole. *)
Definition zoom {St C A} (get : St → C) (put : C → St → St) (m : M C A) : M St A := λ s,
  match m (get s) with
  | Ok (a, c) => Ok (a, put c s)
  | Fault => Fault
  | NoFuel => NoFuel
  end.

(** ** Total-correctness weakest preconditions *)

(** [wp m Q s]: run from [s], [m] returns, and [Q] holds of its result and
    final state.  Faults and exhausted fuel falsify it. *)
Definition wp {St A} (m : M St A) (Q : A → St → Prop) (s : St) : Prop :=
  match m s with
  | Ok (a, s') => Q a s'
  | _ => False
  end.

Section wp_rules.
Context {St : Type}.
Implicit Types s : St.

Lemma wp_ok {A} (m : M St A) Q s :
  wp m Q s ↔ ∃ a s', m s = Ok (a, s') ∧ Q a s'.
Proof.
  unfold wp. destruct (m s) as [[a s']| |]; split.
  - intros HQ. by exists a, s'.
  - intros (a' & s'' & [= <- <-] & HQ). done.
  - done.
  - by intros (a' & s'' & [=] & _).
  - done.
  - by intros (a' & s'' & [=] & _).
Qed.

(** A result pinned down by [wp] is the result. *)
Lemma wp_exact {A} (m : M St A) a s s' : wp m (λ b t, b = a ∧ t = s') s → m s = Ok (a, s').
Proof. rewrite wp_ok. by intros (b & t & Hm & -> & ->). Qed.

Lemma wp_ret {A} (a : A) (Q : A → St → Prop) s : Q a s → wp (mret a) Q s.
Proof. done. Qed.

Lemma wp_bind {A B} (m : M St A) (k : A → M St B) Q s :
  wp m (λ a, wp (k a) Q) s → wp (m ≫= k) Q s.
Proof. unfold wp, mbind, M_bind. by destruct (m s) as [[a s']| |]. Qed.

(** Two statements taken as one. *)
Lemma wp_assoc {A B C} (m : M St A) (k : A → M St B) (k' : B → M St C) Q s :
  wp ((m ≫= k) ≫= k') Q s → wp (m ≫= λ a, k a ≫= k') Q s.
Proof. unfold wp, mbind, M_bind. by destruct (m s) as [[a s']| |]. Qed.

Lemma wp_mono {A} (m : M St A) (P Q : A → St → Prop) s :
  wp m P s → (∀ a s', P a s' → Q a s') → wp m Q s.
Proof. unfold wp. destruct (m s) as [[a s']| |]; naive_solver. Qed.

Lemma wp_gets {A} (f : St → A) (Q : A → St → Prop) s : Q (f s) s → wp (gets f) Q s.
Proof. done. Qed.

Lemma wp_modify (f : St → St) (Q : unit → St → Prop) s : Q tt (f s) → wp (modify f) Q s.
Proof. done. Qed.

Lemma wp_load {A} (l : list A) i v (Q : A → St → Prop) s :
  0 ≤ i → l !! Z.to_nat i = Some v → Q v s → wp (load l i) Q s.
Proof.
  intros Hi Hl HQ. unfold load.
  rewrite (proj2 (Z.leb_le _ _) Hi), Hl. by apply wp_ret.
Qed.

(** Loop rule: an invariant indexed by the counter. *)
Lemma wp_for_up (I : Z → St → Prop) n i body (Q : unit → St → Prop) s :
  I i s →
  (∀ j s', i ≤ j < i + Z.of_nat n → I j s' → wp (body j) (λ _, I (j + 1)) s') →
  (∀ s', I (i + Z.of_nat n) s' → Q tt s') →
  wp (for_up n i body) Q s.
Proof.
  revert i s. induction n as [|n IH]; intros i s HI Hstep HQ; simpl.
  - apply wp_ret, HQ. by replace (i + Z.of_nat 0) with i by lia.
  - apply wp_bind. eapply wp_mono; [apply Hstep; [lia|done]|].
    intros [] s' HI'. apply IH; [done| |].
    + intros j s'' Hj. apply Hstep. lia.
    + intros s'' HI''. apply HQ. by replace (i + Z.of_nat (S n)) with (i + 1 + Z.of_nat n) by lia.
Qed.

(** Loop rule with an early return: the body either keeps the invariant and
    goes on, or leaves with a result that satisfies the postcondition. *)
Lemma wp_for_ret {R} (I : Z → St → Prop) n i body (Q : option R → St → Prop) s :
  I i s →
  (∀ j s', i ≤ j < i + Z.of_nat n → I j s' →
    wp (body j) (λ r s'', match r with Some v => Q (Some v) s'' | None => I (j + 1) s'' end) s') →
  (∀ s', I (i + Z.of_nat n) s' → Q None s') →
  wp (for_ret n i body) Q s.
Proof.
  revert i s. induction n as [|n IH]; intros i s HI Hstep HQ; simpl.
  - apply wp_ret, HQ. by replace (i + Z.of_nat 0) with i by lia.
  - apply wp_bind. eapply wp_mono; [apply Hstep; [lia|done]|].
    intros [v|] s' HI'; [by apply wp_ret|]. apply IH; [done| |].
    + intros j s'' Hj. apply Hstep. lia.
    + intros s'' HI''. apply HQ. by replace (i + Z.of_nat (S n)) with (i + 1 + Z.of_nat n) by lia.
Qed.

(** Loop rule over a list: an invariant indexed by the prefix done so far. *)
Lemma wp_for_list {A} (I : list A → St → Prop) l body (Q : unit → St → Prop) s :
  I [] s →
  (∀ pre x s', x ∈ l → I pre s' → wp (body x) (λ _, I (pre ++ [x])) s') →
  (∀ s', I l s' → Q tt s') →
  wp (for_list l body) Q s.
Proof.
  intros HI Hstep HQ.
  enough (∀ pre suf s', (∀ x, x ∈ suf → x ∈ l) → I pre s' →
            wp (for_list suf body) (λ _, I (pre ++ suf)) s') as Hgen.
  { eapply wp_mono; [apply (Hgen []); [done|apply HI]|]. intros []; apply HQ. }
  intros pre suf. revert pre. induction suf as [|x suf IH]; intros pre s' Hin HIp; simpl.
  - apply wp_ret. by rewrite app_nil_r.
  - apply wp_bind. eapply wp_mono; [apply Hstep; [apply Hin; by left|done]|].
    intros [] s'' HI''. replace (pre ++ x :: suf) with ((pre ++ [x]) ++ suf) by (by rewrite <-app_assoc).
    apply IH; [|done]. intros y Hy. apply Hin. by right.
Qed.

(** Loop rule for [loop_fuel]: a measure below the fuel decreases. *)
Lemma wp_loop_fuel {A R} (I : A → St → Prop) (measure : A → Z) fuel step a
    (Q : R → St → Prop) s :
  I a s →
  measure a < Z.of_nat fuel →
  (∀ b s', I b s' → 0 ≤ measure b) →
  (∀ b s', I b s' →
    wp (step b) (λ r s'', match r with
                          | inl b' => I b' s'' ∧ measure b' < measure b
                          | inr v => Q v s''
                          end) s') →
  wp (loop_fuel fuel step a) Q s.
Proof.
  intros HI Hm Hpos Hstep. revert a s HI Hm.
  induction fuel as [|fuel IH]; intros a s HI Hm; simpl.
  - specialize (Hpos a s HI). lia.
  - apply wp_bind. eapply wp_mono; [by apply Hstep|].
    intros [b|v] s' Hr; [|by apply wp_ret].
    destruct Hr as [HI' Hlt]. apply IH; [done|lia].
Qed.

(** The same rule with a ghost measure [n] carried by the invariant, for loops
    whose bound is not a function of the local variables alone. *)
Lemma wp_loop_ghost {A R} (I : nat → A → St → Prop) fuel step n a (Q : R → St → Prop) s :
  I n a s →
  (n < fuel)%nat →
  (∀ m b s', I m b s' →
    wp (step b) (λ r s'', match r with
                          | inl b' => ∃ m', (m' < m)%nat ∧ I m' b' s''
                          | inr v => Q v s''
                          end) s') →
  wp (loop_fuel fuel step a) Q s.
Proof.
  intros HI Hm Hstep. revert n a s HI Hm.
  induction fuel as [|fuel IH]; intros n a s HI Hm; simpl; [lia|].
  apply wp_bind. eapply wp_mono; [by apply (Hstep n)|].
  intros [b|v] s' Hr; [|by apply wp_ret].
  destruct Hr as (m' & Hlt & HI'). apply (IH m'); [done|lia].
Qed.

Lemma wp_zoom {C A} (get : St → C) (put : C → St → St) (m : M C A) (Q : A → St → Prop) s :
  wp m (λ a c, Q a (put c s)) (get s) → wp (zoom get put m) Q s.
Proof. unfold wp, zoom. by destruct (m (get s)) as [[a c]| |]. Qed.

(** [leads m s P]: running [m] from [s] comes down to running some [k] from some
    [s'] with [P k s'], whatever [k] then does. *)
Definition leads {A} (m : M St A) (s : St) (P : M St A → St → Prop) : Prop :=
  ∃ k s', m s = k s' ∧ P k s'.

Lemma leads_here {A} (m : M St A) s P : P m s → leads m s P.
Proof. intros HP. by exists m, s. Qed.

Lemma leads_wp {A} (m : M St A) s P : wp m (λ a s', P (mret a) s') s → leads m s P.
Proof. rewrite wp_ok. intros (a & s' & Hm & HP). exists (mret a : M St A), s'. done. Qed.

Lemma wp_leads {A} (m : M St A) s (Q : A → St → Prop) : leads m s (λ k, wp k Q) → wp m Q s.
Proof. intros (k & s' & Heq & Hk). unfold wp in *. by rewrite Heq. Qed.

Lemma leads_bind {A B} (m : M St A) (k : A → M St B) s P :
  wp m (λ a s', leads (k a) s' P) s → leads (m ≫= k) s P.
Proof.
  unfold wp, leads, mbind, M_bind. destruct (m s) as [[a s']| |]; [|done..].
  intros (k' & s'' & Hk & HP). by exists k', s''.
Qed.
End wp_rules.

#[global] Opaque wp.

(** Symbolic execution: peel binds, returns and state accesses. *)
Ltac wp_step :=
  match goal with
  | |- wp (_ ≫= _) _ _ => apply wp_bind
  | |- wp (mret _) _ _ => apply wp_ret
  | |- wp (gets _) _ _ => apply wp_gets
  | |- wp (modify _) _ _ => apply wp_modify
  | |- wp (if ?b then _ else _) _ _ => destruct b eqn:?
  end; cbn beta iota.
Ltac wp_steps := repeat wp_step.
