(* ===== verification/BootMap.v ===== *)
(** * BootMap: the boot handoff and the kernel's memory map

    Models [axboot_parse] (kernel/axboot.c) and [addr_in_reserved_region]
    (kernel/mmap.h): validation of the loader's [struct axboot_info], the copy
    of its memory map into [kernel_mmap], [mmap_max_addr], and what is
    published through [hal_bootinfo].  The [printk] diagnostics are not
    modelled. *)

From S2P Require Import Prelude.

Definition MAX_MMAP_ENTRIES : Z := 64.
Definition AXIOME_BOOT_MAGIC : Z := 0x41584F4D45.
Definition AXBOOT_VERSION : Z := 1.

(** [struct mmap_entry] (and the first three fields of
    [struct axboot_mmap_entry]). *)
Record mmap_entry := MmapEntry { base : Z; len : Z; type : Z }.

(** [struct mmap_info]: [count] entries of a fixed array of
    [MAX_MMAP_ENTRIES]; the list holds the entries in use. *)
Abbreviation mmap_info := (list mmap_entry).

(** The fields of [struct axboot_info] that [axboot_parse] reads.  [mmap] is
    [None] for a null pointer. *)
Record axboot_info := AxbootInfo {
  magic : Z; version : Z;
  mmap_count : Z; mmap : option (list mmap_entry);
  fb_addr : Z; fb_width : Z; fb_height : Z; fb_pitch : Z; fb_bpp : Z;
  info_rsdp : Z }.

(** [struct hal_bootinfo]. *)
Record hal_bootinfo := HalBootinfo {
  framebuffer_present : bool;
  bi_fb_addr : Z; bi_fb_width : Z; bi_fb_height : Z; bi_fb_pitch : Z;
  bi_fb_bpp : Z; bi_fb_type : Z;
  bi_mmap_max_addr : Z; bi_acpi_rsdp : Z }.

(** The globals [axboot_parse] writes; [fb_request] holds the arguments of its
    call of [fb_init], if it made one. *)
Record boot_state := BootState {
  kernel_mmap : mmap_info;
  mmap_max_addr : Z;
  bootinfo : hal_bootinfo;
  acpi_rsdp_addr : Z;
  fb_request : option (Z * Z * Z * Z * Z * Z) }.

(** One iteration of the copy loop: append the entry, raise
    [mmap_max_addr] to its end when it is usable RAM. *)
Definition mmap_step (acc : mmap_info * Z) (e : mmap_entry) : mmap_info * Z :=
  let '(entries, max_addr) := acc in
  let e_end := u64 (base e + len e) in
  (entries ++ [e],
   if type e =? 1 then (if max_addr <? e_end then e_end else max_addr) else max_addr).

Definition copy_mmap (n : nat) (src : list mmap_entry) : mmap_info * Z :=
  foldl mmap_step ([], 0) (take n src).

(** The memory-map part of [axboot_parse].  The loader's array must hold the
    [n] entries that are read: a shorter one is read out of bounds. *)
Definition parse_mmap (i : axboot_info) : outcome (mmap_info * Z) :=
  match mmap i with
  | Some src =>
    if 0 <? mmap_count i then
      let n := if MAX_MMAP_ENTRIES <? mmap_count i then MAX_MMAP_ENTRIES else mmap_count i in
      if Z.of_nat (length src) <? n then Fault else Ok (copy_mmap (Z.to_nat n) src)
    else Ok ([], 0)
  | None => Ok ([], 0)
  end.

(** The framebuffer part: [hal_bootinfo] and the call of [fb_init]. *)
Definition publish_fb (i : axboot_info) (bi : hal_bootinfo)
    (req : option (Z * Z * Z * Z * Z * Z)) : hal_bootinfo * option (Z * Z * Z * Z * Z * Z) :=
  if negb (fb_addr i =? 0) && (0 <? fb_width i) && (0 <? fb_height i) then
    (HalBootinfo true (fb_addr i) (fb_width i) (fb_height i) (fb_pitch i)
       (u8 (fb_bpp i)) 1 (bi_mmap_max_addr bi) (bi_acpi_rsdp bi),
     Some (fb_addr i, fb_width i, fb_height i, fb_pitch i, u8 (fb_bpp i), 1))
  else (bi, req).

Definition set_mmap_max (bi : hal_bootinfo) (m : Z) : hal_bootinfo :=
  HalBootinfo (framebuffer_present bi) (bi_fb_addr bi) (bi_fb_width bi)
    (bi_fb_height bi) (bi_fb_pitch bi) (bi_fb_bpp bi) (bi_fb_type bi) m (bi_acpi_rsdp bi).

Definition set_acpi_rsdp (bi : hal_bootinfo) (a : Z) : hal_bootinfo :=
  HalBootinfo (framebuffer_present bi) (bi_fb_addr bi) (bi_fb_width bi)
    (bi_fb_height bi) (bi_fb_pitch bi) (bi_fb_bpp bi) (bi_fb_type bi) (bi_mmap_max_addr bi) a.

Definition axboot_parse (info : option axboot_info) (s : boot_state) : outcome boot_state :=
  match info with
  | None => Ok s
  | Some i =>
    if negb (magic i =? AXIOME_BOOT_MAGIC) then Ok s
    else if negb (version i =? AXBOOT_VERSION) then Ok s
    else
      match parse_mmap i with
      | Ok (entries, max_addr) =>
        let '(bi, fb) := publish_fb i (set_mmap_max (bootinfo s) max_addr) (fb_request s) in
        if negb (info_rsdp i =? 0)
        then Ok (BootState entries max_addr (set_acpi_rsdp bi (info_rsdp i)) (info_rsdp i) fb)
        else Ok (BootState entries max_addr bi (acpi_rsdp_addr s) fb)
      | Fault => Fault
      | NoFuel => NoFuel
      end
  end.

(** [addr_in_reserved_region]: the first non-usable entry that contains
    [addr] decides. *)
Definition addr_in_reserved_region (mm : mmap_info) (addr : Z) : bool :=
  existsb (λ e, negb (type e =? 1) && (base e <=? addr) && (addr <? u64 (base e + len e))) mm.

(** ** What the parsed map promises *)

(** An entry lies inside the 64-bit address space. *)
Definition entry_ok (e : mmap_entry) : Prop :=
  0 ≤ base e ∧ 0 ≤ len e ∧ base e + len e < 2 ^ 64.

(** Every usable entry ends at or below [max_addr]. *)
Definition map_below (mm : mmap_info) (max_addr : Z) : Prop :=
  ∀ e, e ∈ mm → type e = 1 → u64 (base e + len e) ≤ max_addr.

Lemma mmap_step_below acc e :
  map_below acc.1 acc.2 → map_below (mmap_step acc e).1 (mmap_step acc e).2.
Proof.
  destruct acc as [mm m]; simpl. intros Hb e' [He'| ->%list_elem_of_singleton]%elem_of_app Ht.
  - specialize (Hb e' He' Ht). simpl in *.
    destruct (type e =? 1); [|done]. destruct (Z.ltb_spec m (u64 (base e + len e))); lia.
  - rewrite Ht. simpl. destruct (Z.ltb_spec m (u64 (base e + len e))); lia.
Qed.

Lemma copy_mmap_below n src : map_below (copy_mmap n src).1 (copy_mmap n src).2.
Proof.
  unfold copy_mmap. generalize (take n src) as l. intros l.
  assert (map_below ([] : mmap_info, 0).1 ([] : mmap_info, 0).2) as H0
    by (intros e He; by apply not_elem_of_nil in He).
  revert H0. generalize ([] : mmap_info, 0) as acc. induction l as [|e l IH]; intros acc Hacc; [done|].
  simpl. apply IH. by apply mmap_step_below.
Qed.

Lemma copy_mmap_entries n src : (copy_mmap n src).1 = take n src.
Proof.
  unfold copy_mmap. generalize (take n src) as l. intros l.
  enough (∀ acc, (foldl mmap_step acc l).1 = acc.1 ++ l) as H by apply H.
  induction l as [|e l IH]; intros acc; simpl; [by rewrite app_nil_r|].
  rewrite IH. destruct acc as [mm m]. simpl. by rewrite <-app_assoc.
Qed.

Lemma copy_mmap_length n src : Z.of_nat (length (copy_mmap n src).1) ≤ Z.of_nat n.
Proof. rewrite copy_mmap_entries, length_take. lia. Qed.

Lemma axboot_parse_map i s s' :
  magic i = AXIOME_BOOT_MAGIC → version i = AXBOOT_VERSION →
  axboot_parse (Some i) s = Ok s' →
  parse_mmap i = Ok (kernel_mmap s', mmap_max_addr s') ∧
  bi_mmap_max_addr (bootinfo s') = mmap_max_addr s'.
Proof.
  intros Hm Hv. unfold axboot_parse. rewrite Hm, Hv, !Z.eqb_refl. simpl.
  destruct (parse_mmap i) as [[mm m]| |]; [|done..].
  destruct (publish_fb _ _ _) as [bi fb] eqn:Hfb.
  assert (bi_mmap_max_addr bi = m) as Hbi.
  { unfold publish_fb in Hfb. destruct (negb (fb_addr i =? 0) && _ && _); by simplify_eq. }
  destruct (negb (info_rsdp i =? 0)); intros [= <-]; simpl; by rewrite Hbi.
Qed.

Lemma parse_mmap_ok i mm m :
  parse_mmap i = Ok (mm, m) →
  Z.of_nat (length mm) ≤ MAX_MMAP_ENTRIES ∧ map_below mm m.
Proof.
  unfold parse_mmap.
  assert (map_below [] 0) as Hnil by (intros e He; by apply not_elem_of_nil in He).
  destruct (mmap i) as [src|]; [|by intros [= <- <-]].
  destruct (Z.ltb_spec 0 (mmap_count i)); [|by intros [= <- <-]].
  set (n := if MAX_MMAP_ENTRIES <? mmap_count i then _ else _).
  assert (0 ≤ n ≤ MAX_MMAP_ENTRIES) as Hn.
  { subst n. unfold MAX_MMAP_ENTRIES. destruct (Z.ltb_spec 64 (mmap_count i)); lia. }
  destruct (_ <? n); [done|]. intros [= Hc].
  pose proof (copy_mmap_below (Z.to_nat n) src) as Hb.
  pose proof (copy_mmap_length (Z.to_nat n) src) as Hl.
  rewrite Hc in Hb, Hl. simpl in *. split; [lia|done].
Qed.

(** After a handoff the kernel accepts (right magic and version),
    [axboot_parse] has stored at most [MAX_MMAP_ENTRIES] entries, every usable
    region ends at or below [mmap_max_addr], and the same bound is published
    to the HAL. *)
Theorem axboot_parse_bounds i s s' :
  magic i = AXIOME_BOOT_MAGIC → version i = AXBOOT_VERSION →
  axboot_parse (Some i) s = Ok s' →
  Z.of_nat (length (kernel_mmap s')) ≤ MAX_MMAP_ENTRIES ∧
  map_below (kernel_mmap s') (mmap_max_addr s') ∧
  bi_mmap_max_addr (bootinfo s') = mmap_max_addr s'.
Proof.
  intros Hm Hv Hp. destruct (axboot_parse_map i s s' Hm Hv Hp) as [Hmm Hbi].
  destruct (parse_mmap_ok _ _ _ Hmm). auto.
Qed.

Definition demo_info : axboot_info :=
  AxbootInfo AXIOME_BOOT_MAGIC AXBOOT_VERSION 2
    (Some [MmapEntry 0 0x9F000 1; MmapEntry 0x100000 0x700000 1]) 0 0 0 0 0 0x7FE000.

Definition demo_boot : boot_state :=
  BootState [] 0 (HalBootinfo false 0 0 0 0 0 0 0 0) 0 None.

Lemma axboot_parse_bounds_witness :
  ∃ s', axboot_parse (Some demo_info) demo_boot = Ok s' ∧
        map_below (kernel_mmap s') (mmap_max_addr s').
Proof.
  eexists. split; [reflexivity|].
  apply (axboot_parse_bounds demo_info demo_boot); reflexivity.
Defined.
