(* ===== verification/Pmm.v ===== *)
(** * Pmm: the physical frame allocator (kernel/pmm.c)

    One bit per 4 KiB frame, set when the frame is in use, with a cached count
    of free frames and a next-fit hint.  The state is the four statics of
    pmm.c; every function of the file is an operation on it.  The abstract
    view is [free_set], the set of free frame numbers. *)

From S2P Require Import Prelude BootMap.

Definition KERNEL_VIRT_BASE : Z := 0xFFFFFFFF80000000.
Definition PAGE_SHIFT : Z := 12.
Definition PAGE_SIZE : Z := 4096.

Record pmm := Pmm {
  bitmap : list Z;
  total_frames : Z;
  free_frames : Z;
  next_hint : Z }.

Definition set_bitmap (b : list Z) (s : pmm) : pmm :=
  Pmm b (total_frames s) (free_frames s) (next_hint s).
Definition set_free (n : Z) (s : pmm) : pmm :=
  Pmm (bitmap s) (total_frames s) n (next_hint s).
Definition set_hint (h : Z) (s : pmm) : pmm :=
  Pmm (bitmap s) (total_frames s) (free_frames s) h.

Definition bm_set (frame : Z) : M pmm unit :=
  b ← gets bitmap;
  v ← load b (Z.shiftr frame 3);
  modify (set_bitmap (<[Z.to_nat (Z.shiftr frame 3) :=
            u8 (Z.lor v (Z.shiftl 1 (Z.land frame 7)))]> b)).

Definition bm_clear (frame : Z) : M pmm unit :=
  b ← gets bitmap;
  v ← load b (Z.shiftr frame 3);
  modify (set_bitmap (<[Z.to_nat (Z.shiftr frame 3) :=
            u8 (Z.land v (Z.lnot (Z.shiftl 1 (Z.land frame 7))))]> b)).

Definition bm_test (frame : Z) : M pmm bool :=
  b ← gets bitmap;
  v ← load b (Z.shiftr frame 3);
  mret (negb (Z.land (Z.shiftr v (Z.land frame 7)) 1 =? 0)).

Definition dec_free : M pmm unit := modify (λ s, set_free (u64 (free_frames s - 1)) s).
Definition inc_free : M pmm unit := modify (λ s, set_free (u64 (free_frames s + 1)) s).

(** [if (!bm_test(i)) { bm_set(i); free_frames--; }] *)
Definition take_one (i : Z) : M pmm unit :=
  t ← bm_test i;
  if t : bool then mret tt else (bm_set i;; dec_free).

(** [if (bm_test(i)) { bm_clear(i); free_frames++; }] *)
Definition give_one (i : Z) : M pmm unit :=
  t ← bm_test i;
  if t : bool then (bm_clear i;; inc_free) else mret tt.

(** The first whole frame of a region, and the one after the last. *)
Definition region_start (b l : Z) : Z := Z.shiftr (u64 (b + PAGE_SIZE - 1)) PAGE_SHIFT.
Definition region_end (b l : Z) : Z := Z.shiftr (u64 (b + l)) PAGE_SHIFT.

Definition mark_used (b l : Z) : M pmm unit :=
  let start := region_start b l in
  let stop := region_end b l in
  for_up (Z.to_nat (stop - start)) start take_one.

Definition mark_free (b l : Z) : M pmm unit :=
  let start := region_start b l in
  let stop := region_end b l in
  for_up (Z.to_nat (stop - start)) start give_one.

(** Where [pmm_init] puts the bitmap: the first page boundary at or after the
    end of the kernel's .bss, as a physical address. *)
Definition bitmap_phys_of (bss_end : Z) : Z :=
  Z.land (u64 (u64 (bss_end - KERNEL_VIRT_BASE) + PAGE_SIZE - 1)) (u64 (Z.lnot (PAGE_SIZE - 1))).

Definition frames_below (max_addr : Z) : Z := Z.shiftr (u64 (max_addr + PAGE_SIZE - 1)) PAGE_SHIFT.
Definition bitmap_bytes_of (frames : Z) : Z := Z.shiftr (u64 (frames + 7)) 3.

(** [pmm_init]: [bss_end] is the linker symbol [_bss_end], [mm] is
    [kernel_mmap] and [max_addr] is [mmap_max_addr].  The last loop visits the
    2 MiB blocks [0x800000 + k * 0x200000] below [max_addr]. *)
Definition pmm_init (bss_end : Z) (mm : mmap_info) (max_addr : Z) : M pmm unit :=
  let frames := frames_below max_addr in
  let bitmap_phys := bitmap_phys_of bss_end in
  let bitmap_bytes := bitmap_bytes_of frames in
  modify (λ _, Pmm (replicate (Z.to_nat bitmap_bytes) 0xFF) frames 0 0);;
  for_list mm (λ e, if type e =? 1 then mark_free (base e) (len e) else mret tt);;
  let kernel_start := 0x200000 in
  let kernel_end := u64 (bitmap_phys + bitmap_bytes) in
  mark_used kernel_start (u64 (kernel_end - kernel_start));;
  bm_set 0;;
  dec_free;;
  for_up (Z.to_nat ((max_addr - 0x800000 + 0x1FFFFF) / 0x200000)) 0
    (λ k, let a := 0x800000 + k * 0x200000 in
          if addr_in_reserved_region mm a then mark_used a 0x200000 else mret tt);;
  modify (set_hint 0).

Definition pmm_alloc_frame : M pmm Z :=
  search_start ← gets next_hint;
  total ← gets total_frames;
  r ← for_ret (Z.to_nat total) 0 (λ i,
        let idx := u64 (search_start + i) mod total in
        t ← bm_test idx;
        if t : bool then mret None
        else (bm_set idx;; dec_free;; modify (set_hint (idx + 1));;
              mret (Some (Z.shiftl idx PAGE_SHIFT))));
  mret (default 0 r).

(** [while (start < total_frames && bm_test(start)) start++;] *)
Definition skip_used (total start : Z) : M pmm Z :=
  loop_fuel (S (Z.to_nat (total - start)))
    (λ i, if i <? total then
            t ← bm_test i;
            if t : bool then mret (inl (i + 1)) else mret (inr i)
          else mret (inr i)) start.

(** [for (j = start; j < total_frames && free_run < count; j++)]: the length of
    the run of free frames at [start], capped at [count]. *)
Definition count_run (total count start : Z) : M pmm Z :=
  loop_fuel (S (Z.to_nat (total - start)))
    (λ '(j, free_run),
       if (j <? total) && (free_run <? count) then
         t ← bm_test j;
         if t : bool then mret (inr free_run) else mret (inl (j + 1, free_run + 1))
       else mret (inr free_run)) (start, 0).

Definition pmm_alloc_frames (count : Z) : M pmm Z :=
  if count =? 0 then mret 0
  else
    total ← gets total_frames;
    loop_fuel (S (Z.to_nat total))
      (λ start,
         if u64 (start + count) <=? total then
           start' ← skip_used total start;
           if total <? u64 (start' + count) then mret (inr 0)
           else
             free_run ← count_run total count start';
             if count <=? free_run then
               for_up (Z.to_nat count) 0 (λ j, bm_set (start' + j));;
               modify (λ s, set_free (u64 (free_frames s - count)) s);;
               mret (inr (Z.shiftl start' PAGE_SHIFT))
             else mret (inl (start' + free_run + 1))
         else mret (inr 0)) 0.

Definition pmm_free_frame (addr : Z) : M pmm unit :=
  let frame := Z.shiftr addr PAGE_SHIFT in
  total ← gets total_frames;
  if frame <? total then give_one frame else mret tt.

Definition pmm_free_frames (addr count : Z) : M pmm unit :=
  let start := Z.shiftr addr PAGE_SHIFT in
  total ← gets total_frames;
  for_up (Z.to_nat count) 0
    (λ i, let f := u64 (start + i) in
          if f <? total then give_one f else mret tt).

Definition pmm_free_count : M pmm Z := gets free_frames.
Definition pmm_total_frames : M pmm Z := gets total_frames.

(** ** The bitmap as a set of frames *)

(** Bit [f] of a bitmap. *)
Definition bit_at (b : list Z) (f : Z) : bool :=
  Z.testbit (b !!! Z.to_nat (f / 8)) (f mod 8).

Definition write_bit (b : list Z) (f : Z) (v : Z → Z → Z) : list Z :=
  <[Z.to_nat (f / 8) := u8 (v (b !!! Z.to_nat (f / 8)) (Z.shiftl 1 (f mod 8)))]> b.

Definition put_bit (b : list Z) (f : Z) : list Z := write_bit b f Z.lor.
Definition drop_bit (b : list Z) (f : Z) : list Z := write_bit b f (λ x m, Z.land x (Z.lnot m)).

Definition in_bitmap (b : list Z) (f : Z) : Prop := 0 ≤ f < 8 * Z.of_nat (length b).

Lemma length_write_bit b f v : length (write_bit b f v) = length b.
Proof. apply length_insert. Qed.

Lemma byte_index f : 0 ≤ f → Z.shiftr f 3 = f / 8 ∧ Z.land f 7 = f mod 8.
Proof.
  intros Hf. rewrite Z.shiftr_div_pow2 by lia.
  change 7 with (Z.ones 3). by rewrite Z.land_ones by lia.
Qed.

Lemma in_bitmap_lookup b f :
  in_bitmap b f → b !! Z.to_nat (f / 8) = Some (b !!! Z.to_nat (f / 8)).
Proof. intros [H0 H1]. apply list_lookup_lookup_total_lt. apply Nat2Z.inj_lt.
  rewrite Z2Nat.id by (apply Z.div_pos; lia). apply Z.div_lt_upper_bound; lia. Qed.

Lemma wp_bm_test f s (Q : bool → pmm → Prop) :
  in_bitmap (bitmap s) f → Q (bit_at (bitmap s) f) s → wp (bm_test f) Q s.
Proof.
  intros Hf HQ. unfold bm_test. destruct (byte_index f) as [-> ->]; [apply Hf|].
  wp_steps. eapply wp_load; [apply Z.div_pos; [apply Hf|lia]|by apply in_bitmap_lookup|].
  apply wp_ret. unfold bit_at in HQ.
  replace (negb _) with (Z.testbit (bitmap s !!! Z.to_nat (f / 8)) (f mod 8)); [done|].
  change 1 with (Z.ones 1). rewrite Z.land_ones by lia. change (2 ^ 1) with 2.
  rewrite <-Z.bit0_mod, Z.shiftr_spec, Z.add_0_l by lia.
  by destruct (Z.testbit _ _).
Qed.

Lemma wp_bm_set f s (Q : unit → pmm → Prop) :
  in_bitmap (bitmap s) f → Q tt (set_bitmap (put_bit (bitmap s) f) s) → wp (bm_set f) Q s.
Proof.
  intros Hf HQ. unfold bm_set. destruct (byte_index f) as [-> ->]; [apply Hf|].
  wp_steps. eapply wp_load; [apply Z.div_pos; [apply Hf|lia]|by apply in_bitmap_lookup|].
  by apply wp_modify.
Qed.

Lemma wp_bm_clear f s (Q : unit → pmm → Prop) :
  in_bitmap (bitmap s) f → Q tt (set_bitmap (drop_bit (bitmap s) f) s) → wp (bm_clear f) Q s.
Proof.
  intros Hf HQ. unfold bm_clear. destruct (byte_index f) as [-> ->]; [apply Hf|].
  wp_steps. eapply wp_load; [apply Z.div_pos; [apply Hf|lia]|by apply in_bitmap_lookup|].
  by apply wp_modify.
Qed.

(** Writing bit [f] leaves every other bit alone, whatever the mask does to
    bit [f mod 8] only. *)
Lemma bit_at_write b f g v x :
  in_bitmap b f → 0 ≤ g →
  (∀ y i, 0 ≤ i < 8 → Z.testbit (v y (Z.shiftl 1 (f mod 8))) i =
                       if decide (i = f mod 8) then x else Z.testbit y i) →
  bit_at (write_bit b f v) g = if decide (f = g) then x else bit_at b g.
Proof.
  intros Hf Hg Hv. unfold bit_at, write_bit.
  assert (0 ≤ g mod 8 < 8) as Hm by (apply Z.mod_pos_bound; lia).
  destruct (decide (Z.to_nat (f / 8) = Z.to_nat (g / 8))) as [Heq|Hne].
  - rewrite Heq, list_lookup_total_insert_eq.
    2:{ rewrite <-Heq. eapply lookup_lt_Some. by apply in_bitmap_lookup. }
    assert (f / 8 = g / 8) as Hd.
    { apply Z2Nat.inj in Heq; [done| |]; apply Z.div_pos; destruct Hf; lia. }
    unfold u8. rewrite Z.mod_pow2_bits_low, Hv by lia.
    destruct (decide (g mod 8 = f mod 8)), (decide (f = g)); try done.
    + exfalso. apply n. rewrite (Z.div_mod f 8), (Z.div_mod g 8) by lia. lia.
    + subst. done.
  - rewrite list_lookup_total_insert_ne by done.
    destruct (decide (f = g)); [by subst|done].
Qed.

Lemma bit_at_put b f g :
  in_bitmap b f → 0 ≤ g → bit_at (put_bit b f) g = if decide (f = g) then true else bit_at b g.
Proof.
  intros Hf Hg. apply bit_at_write; [done..|]. intros y i Hi.
  rewrite Z.lor_spec, Z.shiftl_1_l, Z.pow2_bits_eqb by (apply Z.mod_pos_bound; lia).
  destruct (decide (i = f mod 8)) as [->|Hne].
  - by rewrite Z.eqb_refl, orb_true_r.
  - rewrite (proj2 (Z.eqb_neq _ _)) by lia. by rewrite orb_false_r.
Qed.

Lemma bit_at_drop b f g :
  in_bitmap b f → 0 ≤ g → bit_at (drop_bit b f) g = if decide (f = g) then false else bit_at b g.
Proof.
  intros Hf Hg. apply bit_at_write; [done..|]. intros y i Hi.
  rewrite Z.land_spec, Z.lnot_spec, Z.shiftl_1_l, Z.pow2_bits_eqb
    by (try apply Z.mod_pos_bound; lia).
  destruct (decide (i = f mod 8)) as [->|Hne].
  - by rewrite Z.eqb_refl, andb_false_r.
  - rewrite (proj2 (Z.eqb_neq _ _)) by lia. by rewrite andb_true_r.
Qed.

(** The free frames: the abstract state of the allocator. *)
Definition free_list (b : list Z) (total : Z) : list Z :=
  filter (λ f, bit_at b f = false) (seqZ 0 total).
Definition free_set (s : pmm) : gset Z := list_to_set (free_list (bitmap s) (total_frames s)).

Lemma elem_of_free_set f s :
  f ∈ free_set s ↔ 0 ≤ f < total_frames s ∧ bit_at (bitmap s) f = false.
Proof.
  unfold free_set, free_list. rewrite elem_of_list_to_set, list_elem_of_filter, elem_of_seqZ.
  naive_solver lia.
Qed.

Lemma size_free_set_le s : 0 ≤ total_frames s → Z.of_nat (size (free_set s)) ≤ total_frames s.
Proof.
  intros Ht. unfold free_set. rewrite size_list_to_set.
  - unfold free_list. pose proof (length_filter (λ f, bit_at (bitmap s) f = false) (seqZ 0 (total_frames s))).
    rewrite length_seqZ in *. lia.
  - apply NoDup_filter, NoDup_seqZ.
Qed.

(** ** The invariant *)

(** The bitmap has a bit for every frame, and the cached counter is the number
    of free frames. *)
Record wf (s : pmm) : Prop := Wf {
  wf_len : Z.of_nat (length (bitmap s)) = (total_frames s + 7) / 8;
  wf_total : 0 ≤ total_frames s ≤ 2 ^ 52;
  wf_count : free_frames s = Z.of_nat (size (free_set s));
  wf_hint : 0 ≤ next_hint s ≤ total_frames s }.

Lemma wf_in_bitmap s f : wf s → 0 ≤ f < total_frames s → in_bitmap (bitmap s) f.
Proof.
  intros Hs Hf. unfold in_bitmap. rewrite (wf_len s Hs).
  pose proof (Z.div_mod (total_frames s + 7) 8). pose proof (Z.mod_pos_bound (total_frames s + 7) 8). lia.
Qed.

Create HintDb pmm.
#[export] Hint Resolve wf_in_bitmap wf_total wf_hint : pmm.

(** Marking a free frame used removes it from the set; the reverse for
    releasing a used one. *)
Lemma free_set_put s f n :
  wf s → 0 ≤ f < total_frames s →
  free_set (set_free n (set_bitmap (put_bit (bitmap s) f) s)) = free_set s ∖ {[f]}.
Proof.
  intros Hs Hf. apply set_eq. intros g.
  rewrite elem_of_difference, !elem_of_free_set, elem_of_singleton. simpl.
  split.
  - intros [Hg Hb]. rewrite bit_at_put in Hb by (auto with pmm; lia).
    destruct (decide (f = g)); naive_solver.
  - intros [[Hg Hb] Hne]. split; [done|].
    rewrite bit_at_put by (auto with pmm; lia). by rewrite decide_False by done.
Qed.

Lemma free_set_drop s f n :
  wf s → 0 ≤ f < total_frames s →
  free_set (set_free n (set_bitmap (drop_bit (bitmap s) f) s)) = {[f]} ∪ free_set s.
Proof.
  intros Hs Hf. apply set_eq. intros g.
  rewrite elem_of_union, !elem_of_free_set, elem_of_singleton. simpl.
  split.
  - intros [Hg Hb]. rewrite bit_at_drop in Hb by (auto with pmm; lia).
    destruct (decide (f = g)); [left; done|right; done].
  - intros [->|[Hg Hb]]; (split; [done|]); rewrite bit_at_drop by (auto with pmm; lia);
      case_decide; done.
Qed.

(** [becomes s F s']: from [s] the allocator moves to [s'], still well formed,
    whose free frames are [F]; sizes and hint are as before. *)
Record becomes (s : pmm) (F : gset Z) (s' : pmm) : Prop := Becomes {
  becomes_wf : wf s';
  becomes_total : total_frames s' = total_frames s;
  becomes_hint : next_hint s' = next_hint s;
  becomes_free : free_set s' = F }.

Lemma becomes_refl s : wf s → becomes s (free_set s) s.
Proof. by split. Qed.

Lemma becomes_trans s1 s2 s3 F G : becomes s1 F s2 → becomes s2 G s3 → becomes s1 G s3.
Proof. intros [? ? ? ?] [? ? ? ?]. split; congruence. Qed.

(** The state after the bit of [f] and the counter are both updated. *)
Lemma put_becomes s f :
  wf s → f ∈ free_set s →
  becomes s (free_set s ∖ {[f]})
    (set_free (u64 (free_frames s - 1)) (set_bitmap (put_bit (bitmap s) f) s)).
Proof.
  intros Hs Hf. pose proof (proj1 (elem_of_free_set f s) Hf) as [Hr _].
  pose proof (free_set_put s f (u64 (free_frames s - 1)) Hs Hr) as Hset.
  assert (size (free_set s) ≠ 0%nat) as Hpos.
  { rewrite size_non_empty_iff. set_solver. }
  pose proof (size_free_set_le s (proj1 (wf_total s Hs))).
  split; [|done..|exact Hset]. split; simpl; [|apply Hs| |apply Hs].
  - unfold put_bit. rewrite length_write_bit. apply Hs.
  - rewrite Hset, size_difference by set_solver. rewrite size_singleton.
    rewrite (wf_count s Hs). pose proof (wf_total s Hs).
    unfold u64. rewrite Z.mod_small by lia. lia.
Qed.

Lemma drop_becomes s f :
  wf s → 0 ≤ f < total_frames s → f ∉ free_set s →
  becomes s ({[f]} ∪ free_set s)
    (set_free (u64 (free_frames s + 1)) (set_bitmap (drop_bit (bitmap s) f) s)).
Proof.
  intros Hs Hr Hf.
  pose proof (free_set_drop s f (u64 (free_frames s + 1)) Hs Hr) as Hset.
  pose proof (size_free_set_le s (proj1 (wf_total s Hs))).
  split; [|done..|exact Hset]. split; simpl; [|apply Hs| |apply Hs].
  - unfold drop_bit. rewrite length_write_bit. apply Hs.
  - rewrite Hset, size_union by set_solver. rewrite size_singleton.
    rewrite (wf_count s Hs). pose proof (wf_total s Hs).
    unfold u64. rewrite Z.mod_small by lia. lia.
Qed.

Lemma bit_used s f : 0 ≤ f < total_frames s → bit_at (bitmap s) f = negb (bool_decide (f ∈ free_set s)).
Proof.
  intros Hf. destruct (bit_at (bitmap s) f) eqn:Hb.
  - rewrite bool_decide_eq_false_2; [done|]. rewrite elem_of_free_set. intros [_ ?]. congruence.
  - rewrite bool_decide_eq_true_2; [done|]. by rewrite elem_of_free_set.
Qed.

Lemma wp_test_free s f (Q : bool → pmm → Prop) :
  wf s → 0 ≤ f < total_frames s →
  Q (negb (bool_decide (f ∈ free_set s))) s → wp (bm_test f) Q s.
Proof. intros Hs Hf HQ. apply wp_bm_test; [auto with pmm|]. by rewrite bit_used. Qed.

Lemma wp_take_one s f (Q : unit → pmm → Prop) :
  wf s → 0 ≤ f < total_frames s →
  (∀ s', becomes s (free_set s ∖ {[f]}) s' → Q tt s') → wp (take_one f) Q s.
Proof.
  intros Hs Hf HQ. unfold take_one. wp_step. apply wp_test_free; [done..|].
  case_bool_decide as Hin; simpl.
  - wp_step. apply wp_bm_set; [auto with pmm|]. apply wp_modify. apply HQ. exact (put_becomes s f Hs Hin).
  - apply wp_ret, HQ. replace (free_set s ∖ {[f]}) with (free_set s) by set_solver.
    by apply becomes_refl.
Qed.

Lemma wp_give_one s f (Q : unit → pmm → Prop) :
  wf s → 0 ≤ f < total_frames s →
  (∀ s', becomes s ({[f]} ∪ free_set s) s' → Q tt s') → wp (give_one f) Q s.
Proof.
  intros Hs Hf HQ. unfold give_one. wp_step. apply wp_test_free; [done..|].
  case_bool_decide as Hin; simpl.
  - apply wp_ret, HQ. replace ({[f]} ∪ free_set s) with (free_set s) by set_solver.
    by apply becomes_refl.
  - wp_step. apply wp_bm_clear; [auto with pmm|]. apply wp_modify. apply HQ. exact (drop_becomes s f Hs Hf Hin).
Qed.

(** The frames of an interval, and loops over them. *)
Definition frames (a n : Z) : gset Z := list_to_set (seqZ a n).

Lemma elem_of_frames f a n : f ∈ frames a n ↔ a ≤ f < a + n.
Proof. unfold frames. by rewrite elem_of_list_to_set, elem_of_seqZ. Qed.

Lemma wp_take_range s a n (Q : unit → pmm → Prop) :
  wf s → 0 ≤ a → a + Z.of_nat n ≤ total_frames s →
  (∀ s', becomes s (free_set s ∖ frames a (Z.of_nat n)) s' → Q tt s') →
  wp (for_up n a take_one) Q s.
Proof.
  intros Hs Ha Hn HQ.
  apply (wp_for_up (λ j, becomes s (free_set s ∖ frames a (j - a)))).
  - replace (free_set s ∖ frames a (a - a)) with (free_set s); [by apply becomes_refl|].
    apply set_eq. intros g. rewrite elem_of_difference, elem_of_frames. intuition lia.
  - intros j s' Hj Hb. destruct Hb as [Hwf Ht Hh Hfree].
    apply wp_take_one; [done|lia|]. intros s'' Hb''.
    replace (free_set s ∖ frames a (j + 1 - a)) with (free_set s' ∖ {[j]}).
    { eapply becomes_trans; [|exact Hb'']. by split. }
    rewrite Hfree. apply set_eq. intros g.
    rewrite !elem_of_difference, !elem_of_frames, elem_of_singleton. intuition lia.
  - intros s' Hb. apply HQ. by replace (a + Z.of_nat n - a) with (Z.of_nat n) in Hb by lia.
Qed.

Lemma wp_give_range s a n (Q : unit → pmm → Prop) :
  wf s → 0 ≤ a → a + Z.of_nat n ≤ total_frames s →
  (∀ s', becomes s (free_set s ∪ frames a (Z.of_nat n)) s' → Q tt s') →
  wp (for_up n a give_one) Q s.
Proof.
  intros Hs Ha Hn HQ.
  apply (wp_for_up (λ j, becomes s (free_set s ∪ frames a (j - a)))).
  - replace (free_set s ∪ frames a (a - a)) with (free_set s); [by apply becomes_refl|].
    apply set_eq. intros g. rewrite elem_of_union, elem_of_frames. intuition lia.
  - intros j s' Hj Hb. destruct Hb as [Hwf Ht Hh Hfree].
    apply wp_give_one; [done|lia|]. intros s'' Hb''.
    replace (free_set s ∪ frames a (j + 1 - a)) with ({[j]} ∪ free_set s').
    { eapply becomes_trans; [|exact Hb'']. by split. }
    rewrite Hfree. apply set_eq. intros g.
    rewrite !elem_of_union, !elem_of_frames, elem_of_singleton. intuition lia.
  - intros s' Hb. apply HQ. by replace (a + Z.of_nat n - a) with (Z.of_nat n) in Hb by lia.
Qed.

(** ** Allocation of one frame *)

(** Distance of frame [g] from the hint in the search order of
    [pmm_alloc_frame]. *)
Definition search_dist (s : pmm) (g : Z) : Z := (g - next_hint s) mod total_frames s.

Lemma search_dist_idx s i :
  0 ≤ i < total_frames s → search_dist s ((next_hint s + i) mod total_frames s) = i.
Proof.
  intros Hi. unfold search_dist. rewrite Zminus_mod_idemp_l.
  replace (next_hint s + i - next_hint s) with i by lia. by apply Z.mod_small.
Qed.

Lemma idx_search_dist s g :
  0 ≤ g < total_frames s → (next_hint s + search_dist s g) mod total_frames s = g.
Proof.
  intros Hg. unfold search_dist. rewrite Z.add_mod_idemp_r by lia.
  replace (next_hint s + (g - next_hint s)) with g by lia. by apply Z.mod_small.
Qed.

(** What one call of [pmm_alloc_frame] may do, on the abstract state: hand out
    the first free frame in search order, or report exhaustion. *)
Inductive alloc_spec (s : pmm) : Z → pmm → Prop :=
  | alloc_none : free_set s = ∅ → alloc_spec s 0 s
  | alloc_some f s' :
      f ∈ free_set s →
      (∀ g, g ∈ free_set s → search_dist s f ≤ search_dist s g) →
      wf s' → total_frames s' = total_frames s → next_hint s' = f + 1 →
      free_set s' = free_set s ∖ {[f]} →
      alloc_spec s (Z.shiftl f PAGE_SHIFT) s'.

Lemma set_hint_wf s h : wf s → 0 ≤ h ≤ total_frames s → wf (set_hint h s).
Proof. intros [? ? ? ?] Hh. by split. Qed.

Lemma wp_alloc_frame s : wf s → wp pmm_alloc_frame (alloc_spec s) s.
Proof.
  intros Hs. pose proof (wf_total s Hs) as Ht. pose proof (wf_hint s Hs) as Hh.
  unfold pmm_alloc_frame. wp_steps.
  apply (wp_for_ret (λ i s', s' = s ∧ ∀ g, g ∈ free_set s → i ≤ search_dist s g)).
  - split; [done|]. intros g [Hg _]%elem_of_free_set. apply Z.mod_pos_bound. lia.
  - intros i s' Hi [-> Hmin].
    unfold u64. rewrite (Z.mod_small (next_hint s + i)) by lia.
    set (idx := (next_hint s + i) mod total_frames s).
    assert (0 ≤ idx < total_frames s) as Hidx by (apply Z.mod_pos_bound; lia).
    wp_step. apply wp_test_free; [done..|]. case_bool_decide as Hin; simpl.
    + wp_step. apply wp_bm_set; [auto with pmm|]. unfold dec_free. wp_steps. simpl.
      destruct (put_becomes s idx Hs Hin) as [Hwf' Ht' _ Hf'].
      apply alloc_some; [done| |by apply set_hint_wf; [|simpl; lia]|done..].
      intros g Hg. subst idx. rewrite search_dist_idx by lia. by apply Hmin.
    + wp_step. split; [done|]. intros g Hg. specialize (Hmin g Hg).
      enough (search_dist s g ≠ i) by lia. intros <-. apply Hin. subst idx.
      rewrite idx_search_dist; [done|]. by apply elem_of_free_set in Hg as [? _].
  - intros s' [-> Hmin]. wp_step. simpl. apply alloc_none. apply set_eq. intros g.
    split; [|set_solver]. intros Hg. exfalso. specialize (Hmin g Hg).
    apply elem_of_free_set in Hg as [Hr _].
    pose proof (Z.mod_pos_bound (g - next_hint s) (total_frames s)).
    unfold search_dist in Hmin. lia.
Qed.

(** ** Allocation of a run of frames *)

(** [count] consecutive free frames starting at [a]. *)
Definition free_run_at (s : pmm) (a count : Z) : Prop := 0 ≤ a ∧ frames a count ⊆ free_set s.

Lemma free_run_bound s a n :
  free_run_at s a n → 0 < n → a + n ≤ total_frames s.
Proof.
  intros [Ha Hsub] Hn. assert (a + n - 1 ∈ free_set s) as Hin.
  { apply Hsub, elem_of_frames. lia. }
  apply elem_of_free_set in Hin. lia.
Qed.

Lemma wp_skip_used s start (Q : Z → pmm → Prop) :
  wf s → 0 ≤ start ≤ total_frames s →
  (∀ a, start ≤ a ≤ total_frames s → (∀ g, start ≤ g < a → g ∉ free_set s) →
        (a < total_frames s → a ∈ free_set s) → Q a s) →
  wp (skip_used (total_frames s) start) Q s.
Proof.
  intros Hs Hst HQ. unfold skip_used.
  apply (wp_loop_fuel (λ i s', s' = s ∧ start ≤ i ≤ total_frames s ∧
                        ∀ g, start ≤ g < i → g ∉ free_set s) (λ i, total_frames s - i)).
  - split; [done|]. split; [lia|]. intros g Hg. lia.
  - lia.
  - intros b s' (-> & Hb & _). lia.
  - intros i s' (-> & Hi & Hno). destruct (Z.ltb_spec i (total_frames s)) as [Hlt|Hge].
    + wp_step. apply wp_test_free; [done|lia|]. case_bool_decide as Hin; simpl; wp_step.
      * apply HQ; [lia|done|done].
      * split; [|lia]. split; [done|]. split; [lia|]. intros g Hg.
        destruct (decide (g = i)) as [->|]; [done|]. apply Hno. lia.
    + wp_step. apply HQ; [lia|done|lia].
Qed.

Lemma wp_count_run s count start (Q : Z → pmm → Prop) :
  wf s → 0 ≤ start ≤ total_frames s → 0 < count →
  (∀ n, 0 ≤ n ≤ count → frames start n ⊆ free_set s →
        (n < count → start + n ∉ free_set s) → Q n s) →
  wp (count_run (total_frames s) count start) Q s.
Proof.
  intros Hs Hst Hc HQ. unfold count_run.
  apply (wp_loop_fuel (λ '(j, n) s', s' = s ∧ j = start + n ∧ 0 ≤ n ≤ count ∧
                        j ≤ total_frames s ∧ frames start n ⊆ free_set s)
                      (λ '(j, _), total_frames s - j)).
  - split; [done|]. split; [lia|]. split; [lia|]. split; [lia|].
    intros g Hg%elem_of_frames. lia.
  - lia.
  - intros [j n] s' (-> & Hj & Hb & Ht & _). lia.
  - intros [j n] s' (-> & -> & Hn & Ht & Hsub).
    destruct (Z.ltb_spec (start + n) (total_frames s)); simpl.
    2:{ wp_step. apply HQ; [lia|done|]. rewrite elem_of_free_set. lia. }
    destruct (Z.ltb_spec n count); simpl; [|wp_step; apply HQ; [lia|done|lia]].
    wp_step. apply wp_test_free; [done|lia|]. case_bool_decide as Hin; simpl; wp_step.
    + split; [|lia]. split; [done|]. split; [lia|]. split; [lia|]. split; [lia|].
      intros g Hg%elem_of_frames. destruct (decide (g = start + n)) as [->|]; [done|].
      apply Hsub, elem_of_frames. lia.
    + apply HQ; [lia|done|done].
Qed.

(** [bm_set] over a run followed by one subtraction from the counter. *)
Lemma wp_set_run s a n (Q : unit → pmm → Prop) :
  wf s → free_run_at s a (Z.of_nat n) →
  (∀ s', becomes s (free_set s ∖ frames a (Z.of_nat n)) s' → Q tt s') →
  wp (for_up n 0 (λ j, bm_set (a + j)))
     (λ _ s1, Q tt (set_free (u64 (free_frames s1 - Z.of_nat n)) s1)) s.
Proof.
  intros Hs [Ha Hrun] HQ.
  apply (wp_for_up (λ j s1, total_frames s1 = total_frames s ∧ free_frames s1 = free_frames s ∧
           next_hint s1 = next_hint s ∧
           becomes s (free_set s ∖ frames a j) (set_free (u64 (free_frames s - j)) s1))).
  - split_and!; [done..|].
    replace (free_set s ∖ frames a 0) with (free_set s).
    2:{ apply set_eq. intros g. rewrite elem_of_difference, elem_of_frames. intuition lia. }
    pose proof (size_free_set_le s (proj1 (wf_total s Hs))). pose proof (wf_total s Hs).
    replace (u64 (free_frames s - 0)) with (free_frames s);
      [by destruct s; apply becomes_refl|].
    rewrite (wf_count s Hs). unfold u64. rewrite Z.mod_small by lia. lia.
  - intros j s1 Hj (Ht & Hc & Hh & Hb). destruct Hb as [Hwf1 _ _ Hf1].
    assert (a + j ∈ free_set (set_free (u64 (free_frames s - j)) s1)) as Hin.
    { rewrite Hf1, elem_of_difference, elem_of_frames. split; [|lia].
      apply Hrun, elem_of_frames. lia. }
    pose proof (put_becomes _ _ Hwf1 Hin) as Hput. simpl in Hput.
    apply wp_bm_set.
    { apply (wf_in_bitmap _ _ Hwf1). by apply elem_of_free_set in Hin as [? _]. }
    simpl. split_and!; [done..|].
    replace (u64 (free_frames s - (j + 1))) with (u64 (u64 (free_frames s - j) - 1)).
    2:{ unfold u64. rewrite Zminus_mod_idemp_l. f_equal. lia. }
    destruct Hput as [Hw Ht2 Hh2 Hf2]. split; simpl in *; [done|congruence|congruence|].
    etransitivity; [exact Hf2|]. rewrite Hf1. apply set_eq. intros g.
    rewrite !elem_of_difference, !elem_of_frames, elem_of_singleton. intuition lia.
  - intros s1 (Ht & Hc & Hh & Hb). apply HQ. rewrite Hc. by rewrite Z.add_0_l in Hb.
Qed.

(** What [pmm_alloc_frames count] may do: hand out the lowest run of [count]
    free frames, or report that there is none. *)
Inductive alloc_run_spec (count : Z) (s : pmm) : Z → pmm → Prop :=
  | run_none : (∀ a, ¬ free_run_at s a count) → alloc_run_spec count s 0 s
  | run_some a s' :
      free_run_at s a count →
      (∀ b, free_run_at s b count → a ≤ b) →
      becomes s (free_set s ∖ frames a count) s' →
      alloc_run_spec count s (Z.shiftl a PAGE_SHIFT) s'.

(** No run of [count] free frames starts below [start]. *)
Definition no_run_below (s : pmm) (count start : Z) : Prop :=
  ∀ b, b < start → ¬ free_run_at s b count.

Lemma no_run_skip s count start a :
  0 < count → no_run_below s count start → (∀ g, start ≤ g < a → g ∉ free_set s) →
  no_run_below s count a.
Proof.
  intros Hc Hno Hused b Hb Hrun. destruct (decide (b < start)); [by apply (Hno b)|].
  apply (Hused b); [lia|]. apply Hrun, elem_of_frames. lia.
Qed.

(** A run shorter than [count] blocks every start up to the frame that ends it. *)
Lemma no_run_short s count a n :
  0 ≤ n < count → no_run_below s count a → a + n ∉ free_set s → no_run_below s count (a + n + 1).
Proof.
  intros Hn Hno Hend b Hb Hrun. destruct (decide (b < a)); [by apply (Hno b)|].
  apply Hend, Hrun, elem_of_frames. lia.
Qed.

Lemma no_run_all s count start :
  0 < count → no_run_below s count start → total_frames s < start + count →
  ∀ a, ¬ free_run_at s a count.
Proof.
  intros Hc Hno Hlt a Hrun. apply (Hno a); [|done].
  pose proof (free_run_bound s a count Hrun Hc). lia.
Qed.

Lemma wp_alloc_frames s count :
  wf s → 0 < count < 2 ^ 63 → wp (pmm_alloc_frames count) (alloc_run_spec count s) s.
Proof.
  intros Hs Hc. pose proof (wf_total s Hs) as Ht. unfold pmm_alloc_frames.
  rewrite (proj2 (Z.eqb_neq count 0)) by lia. wp_steps.
  apply (wp_loop_fuel (λ start s', s' = s ∧ 0 ≤ start ≤ total_frames s ∧
                         no_run_below s count start)
                      (λ start, total_frames s - start)).
  - split; [done|]. split; [lia|]. intros b Hb [? _]. lia.
  - lia.
  - intros b s' (_ & ? & _). lia.
  - intros start s' (-> & Hst & Hno). unfold u64. rewrite Z.mod_small by lia.
    destruct (Z.leb_spec (start + count) (total_frames s)) as [Hle|Hgt].
    2:{ wp_step. apply run_none. by apply (no_run_all s count start); [lia|..]. }
    wp_step. apply wp_skip_used; [done|lia|]. intros a Ha Hskip Hfree.
    pose proof (no_run_skip s count start a ltac:(lia) Hno Hskip) as Hno'.
    rewrite Z.mod_small by lia. destruct (Z.ltb_spec (total_frames s) (a + count)).
    { wp_step. apply run_none. by apply (no_run_all s count a); [lia|..]. }
    wp_step. apply wp_count_run; [done|lia|lia|]. intros n Hn Hsub Hend.
    destruct (Z.leb_spec count n) as [Hge|Hlt].
    + assert (n = count) as -> by lia. wp_step.
      rewrite <-(Z2Nat.id count) in Hsub by lia.
      eapply wp_mono; [apply (wp_set_run s a (Z.to_nat count)
        (λ _ s', alloc_run_spec count s (Z.shiftl a PAGE_SHIFT) s')); [done|by split; [lia|]|]|].
      * intros s' Hb. rewrite Z2Nat.id in Hb, Hsub by lia.
        apply run_some; [by split; [lia|]| |done].
        intros b Hrun. destruct (decide (b < a)); [|lia]. by destruct (Hno' b).
      * intros [] s1 HQ. cbn beta in HQ. rewrite Z2Nat.id in HQ by lia. wp_steps. exact HQ.
    + wp_step. split; [|lia]. split; [done|]. split; [lia|].
      apply no_run_short; [lia|done|]. by apply Hend.
Qed.

(** ** Release *)

Lemma wp_free_frame s addr (Q : unit → pmm → Prop) :
  wf s → 0 ≤ addr →
  (∀ s', becomes s (free_set s ∪ (frames (Z.shiftr addr PAGE_SHIFT) 1 ∩ frames 0 (total_frames s))) s' →
         Q tt s') →
  wp (pmm_free_frame addr) Q s.
Proof.
  intros Hs Ha HQ. unfold pmm_free_frame. set (f := Z.shiftr addr PAGE_SHIFT) in *.
  assert (0 ≤ f) by (by apply Z.shiftr_nonneg). wp_step. wp_step.
  destruct (Z.ltb_spec f (total_frames s)).
  - apply wp_give_one; [done|lia|]. intros s' Hb. apply HQ.
    replace (free_set s ∪ _) with ({[f]} ∪ free_set s); [done|]. apply set_eq. intros g.
    rewrite !elem_of_union, elem_of_intersection, !elem_of_frames, elem_of_singleton. intuition lia.
  - wp_step. apply HQ. replace (free_set s ∪ _) with (free_set s); [by apply becomes_refl|].
    apply set_eq. intros g.
    rewrite elem_of_union, elem_of_intersection, !elem_of_frames. intuition lia.
Qed.

Lemma wp_free_frames s addr count (Q : unit → pmm → Prop) :
  wf s → 0 ≤ addr < 2 ^ 64 → 0 ≤ count < 2 ^ 63 →
  (∀ s', becomes s (free_set s ∪ (frames (Z.shiftr addr PAGE_SHIFT) count ∩ frames 0 (total_frames s))) s' →
         Q tt s') →
  wp (pmm_free_frames addr count) Q s.
Proof.
  intros Hs Ha Hc HQ. unfold pmm_free_frames. set (start := Z.shiftr addr PAGE_SHIFT) in *.
  assert (0 ≤ start < 2 ^ 52) as Hst.
  { subst start. rewrite Z.shiftr_div_pow2 by done. unfold PAGE_SHIFT.
    split; [apply Z.div_pos|apply Z.div_lt_upper_bound]; lia. }
  wp_step. wp_step.
  apply (wp_for_up (λ j, becomes s (free_set s ∪ (frames start j ∩ frames 0 (total_frames s))))).
  - replace (free_set s ∪ _) with (free_set s); [by apply becomes_refl|].
    apply set_eq. intros g. rewrite elem_of_union, elem_of_intersection, !elem_of_frames. intuition lia.
  - intros j s' Hj Hb. destruct Hb as [Hw Ht Hh Hf].
    unfold u64. rewrite Z.mod_small by lia. destruct (Z.ltb_spec (start + j) (total_frames s)).
    + apply wp_give_one; [done|lia|]. intros s'' [Hw2 Ht2 Hh2 Hf2].
      split; [done|congruence|congruence|]. rewrite Hf2, Hf. apply set_eq. intros g.
      rewrite !elem_of_union, !elem_of_intersection, !elem_of_frames, elem_of_singleton. intuition lia.
    + wp_step. split; [done..|]. rewrite Hf. apply set_eq. intros g.
      rewrite !elem_of_union, !elem_of_intersection, !elem_of_frames. intuition lia.
  - intros s' Hb. apply HQ. by rewrite Z.add_0_l, Z2Nat.id in Hb by lia.
Qed.

(** ** Initialisation *)

Definition region_frames (b l : Z) : gset Z :=
  frames (region_start b l) (region_end b l - region_start b l).

(** The frames of a region are those that lie entirely inside it. *)
Lemma elem_of_region_frames f b l :
  0 ≤ b → 0 ≤ l → b + l < 2 ^ 64 → b + PAGE_SIZE ≤ 2 ^ 64 →
  f ∈ region_frames b l ↔ b ≤ f * PAGE_SIZE ∧ (f + 1) * PAGE_SIZE ≤ b + l.
Proof.
  intros Hb Hl Hbl Hp. unfold region_frames, region_start, region_end, u64, PAGE_SHIFT, PAGE_SIZE in *.
  rewrite elem_of_frames, !Z.mod_small, !Z.shiftr_div_pow2 by lia. change (2 ^ 12) with 4096.
  pose proof (Z.div_mod (b + 4096 - 1) 4096). pose proof (Z.mod_pos_bound (b + 4096 - 1) 4096).
  pose proof (Z.div_mod (b + l) 4096). pose proof (Z.mod_pos_bound (b + l) 4096). lia.
Qed.

Lemma region_start_nonneg b l : 0 ≤ region_start b l.
Proof. apply Z.shiftr_nonneg, Z.mod_pos_bound. done. Qed.

Lemma wp_mark_free s b l (Q : unit → pmm → Prop) :
  wf s → region_end b l ≤ total_frames s →
  (∀ s', becomes s (free_set s ∪ region_frames b l) s' → Q tt s') → wp (mark_free b l) Q s.
Proof.
  intros Hs Hr HQ. pose proof (region_start_nonneg b l). unfold mark_free.
  destruct (Z.le_gt_cases (region_start b l) (region_end b l)).
  - apply wp_give_range; [done|lia|lia|]. intros s' Hb. apply HQ.
    by rewrite Z2Nat.id in Hb by lia.
  - replace (Z.to_nat _) with 0%nat by lia. simpl. wp_step. apply HQ.
    replace (free_set s ∪ _) with (free_set s); [by apply becomes_refl|].
    apply set_eq. intros g. unfold region_frames. rewrite elem_of_union, elem_of_frames. intuition lia.
Qed.

Lemma wp_mark_used s b l (Q : unit → pmm → Prop) :
  wf s → region_end b l ≤ total_frames s →
  (∀ s', becomes s (free_set s ∖ region_frames b l) s' → Q tt s') → wp (mark_used b l) Q s.
Proof.
  intros Hs Hr HQ. pose proof (region_start_nonneg b l). unfold mark_used.
  destruct (Z.le_gt_cases (region_start b l) (region_end b l)).
  - apply wp_take_range; [done|lia|lia|]. intros s' Hb. apply HQ.
    by rewrite Z2Nat.id in Hb by lia.
  - replace (Z.to_nat _) with 0%nat by lia. simpl. wp_step. apply HQ.
    replace (free_set s ∖ _) with (free_set s); [by apply becomes_refl|].
    apply set_eq. intros g. unfold region_frames. rewrite elem_of_difference, elem_of_frames. intuition lia.
Qed.

(** All bits set: nothing is free. *)
Lemma init_wf n :
  0 ≤ n ≤ 2 ^ 52 →
  wf (Pmm (replicate (Z.to_nat (bitmap_bytes_of n)) 0xFF) n 0 0) ∧
  free_set (Pmm (replicate (Z.to_nat (bitmap_bytes_of n)) 0xFF) n 0 0) = ∅.
Proof.
  intros Hn. set (s := Pmm _ _ _ _).
  assert (bitmap_bytes_of n = (n + 7) / 8) as Hbytes.
  { unfold bitmap_bytes_of, u64. rewrite Z.mod_small by lia. by rewrite Z.shiftr_div_pow2 by lia. }
  assert (free_set s = ∅) as He.
  { apply set_eq. intros f. split; [|set_solver]. intros [Hf Hb]%elem_of_free_set. exfalso.
    simpl in *. unfold bit_at in Hb. rewrite lookup_total_replicate_2 in Hb.
    - assert (0 ≤ f mod 8 < 8) as Hm by (apply Z.mod_pos_bound; lia).
      assert (∀ i, 0 ≤ i < 8 → Z.testbit 0xFF i = true) as Hff.
      { intros i Hi. change 0xFF with (Z.ones 8). by apply Z.ones_spec_low. }
      by rewrite Hff in Hb by done.
    - apply Z2Nat.inj_lt; [apply Z.div_pos; lia|rewrite Hbytes; apply Z.div_pos; lia|].
      rewrite Hbytes. apply Z.div_lt_upper_bound; [lia|].
      pose proof (Z.div_mod (n + 7) 8). pose proof (Z.mod_pos_bound (n + 7) 8). lia. }
  split; [|done]. split; simpl; [|lia| |lia].
  - rewrite length_replicate, Z2Nat.id, Hbytes; [done|]. rewrite Hbytes. apply Z.div_pos; lia.
  - change (Pmm _ _ _ _) with s. by rewrite He, size_empty.
Qed.

(** A region that ends below frame [x] has its last frame below [x]. *)
Lemma region_end_le b l x :
  0 ≤ b → 0 ≤ l → b + l < 2 ^ 64 → b + l ≤ x * PAGE_SIZE → region_end b l ≤ x.
Proof.
  intros Hb Hl Hlt Hx. unfold region_end, u64, PAGE_SHIFT, PAGE_SIZE in *.
  rewrite Z.mod_small, Z.shiftr_div_pow2 by lia. change (2 ^ 12) with 4096.
  pose proof (Z.div_mod (b + l) 4096). pose proof (Z.mod_pos_bound (b + l) 4096). lia.
Qed.

Section init.
Context (bss_end : Z) (mm : mmap_info) (max_addr : Z).

Definition kernel_end_of : Z :=
  u64 (bitmap_phys_of bss_end + bitmap_bytes_of (frames_below max_addr)).

Definition block (k : Z) : Z := 0x800000 + k * 0x200000.

(** Frame [f] lies entirely in a usable region of the memory map. *)
Definition usable (f : Z) : Prop :=
  ∃ e, e ∈ mm ∧ type e = 1 ∧ base e ≤ f * PAGE_SIZE ∧ (f + 1) * PAGE_SIZE ≤ base e + len e.

(** Frame [f] lies entirely in the kernel image or its frame bitmap. *)
Definition in_kernel (f : Z) : Prop :=
  0x200000 ≤ f * PAGE_SIZE ∧ (f + 1) * PAGE_SIZE ≤ kernel_end_of.

(** Frame [f] is in a 2 MiB block above 8 MiB whose base address is reserved. *)
Definition in_reserved_block (f : Z) : Prop :=
  ∃ k, 0 ≤ k ∧ block k < max_addr ∧ addr_in_reserved_region mm (block k) = true ∧
       block k ≤ f * PAGE_SIZE < block (k + 1).

(** The memory maps [pmm_init] can process within its bitmap. *)
Record boot_ok : Prop := BootOk {
  bo_max : 0 ≤ max_addr ≤ 2 ^ 64 - PAGE_SIZE;
  bo_entries : ∀ e, e ∈ mm → entry_ok e;
  bo_below : map_below mm max_addr;
  bo_kernel : 0x200000 ≤ kernel_end_of ≤ max_addr;
  bo_blocks : ∀ k, 0 ≤ k → block k < max_addr → addr_in_reserved_region mm (block k) = true →
              block (k + 1) ≤ frames_below max_addr * PAGE_SIZE }.

Hypothesis Hboot : boot_ok.
Let total := frames_below max_addr.

Lemma frames_below_bounds : 0 ≤ total ≤ 2 ^ 52 ∧ max_addr ≤ total * PAGE_SIZE < max_addr + PAGE_SIZE.
Proof.
  pose proof (bo_max Hboot). subst total.
  unfold frames_below, u64, PAGE_SHIFT, PAGE_SIZE in *.
  rewrite Z.mod_small, Z.shiftr_div_pow2 by lia. change (2 ^ 12) with 4096.
  pose proof (Z.div_mod (max_addr + 4096 - 1) 4096). pose proof (Z.mod_pos_bound (max_addr + 4096 - 1) 4096).
  lia.
Qed.

Lemma usable_entry_end e :
  e ∈ mm → type e = 1 → 0 ≤ base e ∧ 0 ≤ len e ∧ base e + len e ≤ max_addr.
Proof.
  intros He Ht. pose proof (bo_entries Hboot e He) as (H0 & H1 & H2).
  pose proof (bo_below Hboot e He Ht) as Hle. unfold u64 in Hle.
  rewrite Z.mod_small in Hle by lia. lia.
Qed.

(** The loop over the memory map frees exactly the usable frames. *)
Lemma wp_mark_usable s (Q : unit → pmm → Prop) :
  wf s → total_frames s = total → next_hint s = 0 → free_set s = ∅ →
  (∀ s', wf s' → total_frames s' = total → next_hint s' = 0 →
         (∀ f, f ∈ free_set s' ↔ usable f) → Q tt s') →
  wp (for_list mm (λ e, if type e =? 1 then mark_free (base e) (len e) else mret tt)) Q s.
Proof.
  intros Hs Ht Hh Hf HQ. pose proof frames_below_bounds as [Htot Hmax].
  apply (wp_for_list (λ pre s', wf s' ∧ total_frames s' = total ∧ next_hint s' = 0 ∧
    ∀ f, f ∈ free_set s' ↔ ∃ e, e ∈ pre ∧ type e = 1 ∧ base e ≤ f * PAGE_SIZE ∧
                                (f + 1) * PAGE_SIZE ≤ base e + len e)).
  - split_and!; [done..|]. intros f. rewrite Hf. split; [set_solver|].
    intros (e & He & _). by apply not_elem_of_nil in He.
  - intros pre e s' He (Hs' & Ht' & Hh' & Hf').
    destruct (Z.eqb_spec (type e) 1) as [Hty|Hty].
    + destruct (usable_entry_end e He Hty) as (H0 & H1 & H2).
      pose proof (bo_max Hboot). assert (PAGE_SIZE = 4096) as HP by done.
      apply wp_mark_free; [done|rewrite Ht'; apply region_end_le; lia|].
      intros s'' [Hs'' Ht'' Hh'' Hf'']. split_and!; [done|congruence|congruence|].
      intros f. rewrite Hf'', elem_of_union, Hf', elem_of_region_frames by lia.
      rewrite exists_elem_snoc. tauto.
    + wp_step. split_and!; [done..|]. intros f. rewrite Hf'.
      rewrite exists_elem_snoc. tauto.
  - intros s' (Hs' & Ht' & Hh' & Hf'). by apply HQ.
Qed.

(** Frame [f] is in one of the first [j] blocks, and that block is reserved. *)
Definition taken_below (j f : Z) : Prop :=
  ∃ k, 0 ≤ k < j ∧ addr_in_reserved_region mm (block k) = true ∧
       block k ≤ f * PAGE_SIZE < block (k + 1).

Lemma taken_below_succ j f :
  0 ≤ j →
  taken_below (j + 1) f ↔
  taken_below j f ∨ (addr_in_reserved_region mm (block j) = true ∧
                     block j ≤ f * PAGE_SIZE < block (j + 1)).
Proof.
  intros Hj. split.
  - intros (k & Hk & Hr & Hb). destruct (decide (k = j)) as [->|]; [by right|].
    left. exists k. split; [lia|done].
  - intros [(k & Hk & Hrb)|Hrb]; [exists k|exists j]; (split; [lia|done]).
Qed.

(** The frames of block [j], a multiple of the page size. *)
Lemma elem_of_block_frames j f :
  0 ≤ j → block (j + 1) < 2 ^ 64 →
  f ∈ region_frames (block j) 0x200000 ↔ block j ≤ f * PAGE_SIZE < block (j + 1).
Proof.
  intros Hj Hlt. assert (block (j + 1) = block j + 0x200000) as Hnext by (unfold block; lia).
  assert (PAGE_SIZE = 4096) as HP by done.
  assert (0 ≤ block j) by (unfold block; lia).
  rewrite elem_of_region_frames by lia.
  assert (block j = (2048 + j * 512) * 4096) by (unfold block; lia). lia.
Qed.

(** The loop over the 2 MiB blocks takes exactly the reserved ones. *)
Lemma wp_mark_blocks s n (Q : unit → pmm → Prop) :
  wf s → total_frames s = total → next_hint s = 0 →
  (∀ k, 0 ≤ k < Z.of_nat n ↔ 0 ≤ k ∧ block k < max_addr) →
  (∀ s', wf s' → total_frames s' = total → next_hint s' = 0 →
         (∀ f, f ∈ free_set s' ↔ f ∈ free_set s ∧ ¬ in_reserved_block f) → Q tt s') →
  wp (for_up n 0 (λ k, let a := 0x800000 + k * 0x200000 in
        if addr_in_reserved_region mm a then mark_used a 0x200000 else mret tt)) Q s.
Proof.
  intros Hs Ht Hh Hn HQ. pose proof frames_below_bounds as [Htot Hmax].
  pose proof (bo_max Hboot). assert (PAGE_SIZE = 4096) as HP by done.
  apply (wp_for_up (λ j s', wf s' ∧ total_frames s' = total ∧ next_hint s' = 0 ∧
    ∀ f, f ∈ free_set s' ↔ f ∈ free_set s ∧ ¬ taken_below j f)).
  - split_and!; [done..|]. intros f. split; [|tauto]. intros Hf. split; [done|].
    intros (k & Hk & _). lia.
  - intros j s' Hj (Hs' & Ht' & Hh' & Hf'). cbv zeta. fold (block j).
    destruct (proj1 (Hn j)) as [Hj0 Hjm]; [lia|].
    destruct (addr_in_reserved_region mm (block j)) eqn:Hres.
    + pose proof (bo_blocks Hboot j Hj0 Hjm Hres) as Hfit. fold total in Hfit.
      assert (block (j + 1) = block j + 0x200000) by (unfold block; lia).
      assert (0 ≤ block j) by (unfold block; lia).
      apply wp_mark_used; [done|rewrite Ht'; apply region_end_le; lia|].
      intros s'' [Hs'' Ht'' Hh'' Hf'']. split_and!; [done|congruence|congruence|].
      intros f. rewrite Hf'', elem_of_difference, Hf', elem_of_block_frames, taken_below_succ by lia.
      tauto.
    + wp_step. split_and!; [done..|]. intros f. rewrite Hf', taken_below_succ, Hres by lia.
      intuition congruence.
  - intros s' (Hs' & Ht' & Hh' & Hf'). apply HQ; [done..|]. intros f. rewrite Hf'.
    enough (taken_below (0 + Z.of_nat n) f ↔ in_reserved_block f) as Hiff by (by rewrite Hiff).
    split; intros (k & Hk).
    + exists k. destruct Hk as (Hk & Hrb). destruct (proj1 (Hn k)); [lia|tauto].
    + exists k. destruct Hk as (H1 & H2 & Hrb). split; [|done]. rewrite Z.add_0_l. by apply Hn.
Qed.
End init.

Lemma blocks_visited max_addr k :
  0 ≤ max_addr →
  0 ≤ k < Z.of_nat (Z.to_nat ((max_addr - 0x800000 + 0x1FFFFF) / 0x200000)) ↔
  0 ≤ k ∧ block k < max_addr.
Proof.
  intros Hm. unfold block.
  pose proof (Z.div_mod (max_addr - 0x800000 + 0x1FFFFF) 0x200000).
  pose proof (Z.mod_pos_bound (max_addr - 0x800000 + 0x1FFFFF) 0x200000). lia.
Qed.

Lemma kernel_region_end ke : 0x200000 ≤ ke < 2 ^ 64 →
  u64 (0x200000 + u64 (ke - 0x200000)) = ke ∧ u64 (ke - 0x200000) = ke - 0x200000.
Proof. intros Hk. unfold u64. rewrite (Z.mod_small (ke - _)) by lia.
  replace (0x200000 + (ke - 0x200000)) with ke by lia. by rewrite Z.mod_small by lia. Qed.

Lemma wp_pmm_init bss_end mm max_addr s0 (Q : unit → pmm → Prop) :
  boot_ok bss_end mm max_addr → usable mm 0 →
  (∀ s, wf s → total_frames s = frames_below max_addr → next_hint s = 0 →
        (∀ f, f ∈ free_set s ↔ usable mm f ∧ f ≠ 0 ∧ ¬ in_kernel bss_end max_addr f ∧
                               ¬ in_reserved_block mm max_addr f) → Q tt s) →
  wp (pmm_init bss_end mm max_addr) Q s0.
Proof.
  intros Hb H0 HQ. pose proof (frames_below_bounds bss_end mm max_addr Hb) as [Htot Hmax].
  pose proof (bo_kernel _ _ _ Hb) as Hk. pose proof (bo_max _ _ _ Hb).
  assert (PAGE_SIZE = 4096) as HP by done.
  destruct (init_wf (frames_below max_addr) Htot) as [Hwf0 Hfree0].
  unfold pmm_init. wp_step. apply wp_modify.
  wp_step. eapply (wp_mark_usable bss_end mm max_addr Hb); [exact Hwf0|done|done|exact Hfree0|].
  intros s1 Hs1 Ht1 Hh1 Hf1. wp_step.
  fold (kernel_end_of bss_end max_addr). set (ke := kernel_end_of bss_end max_addr) in *.
  destruct (kernel_region_end ke) as [Hke1 Hke2]; [lia|].
  assert (∀ f, f ∈ region_frames 0x200000 (u64 (ke - 0x200000)) ↔ in_kernel bss_end max_addr f) as Hkf.
  { intros f. rewrite Hke2, elem_of_region_frames by lia. unfold in_kernel. fold ke. lia. }
  apply wp_mark_used; [done| |].
  { rewrite Ht1, Hke2. apply region_end_le; lia. }
  intros s2 [Hs2 Ht2 Hh2 Hf2]. rewrite Ht1 in Ht2. rewrite Hh1 in Hh2.
  assert (0 ∈ free_set s2) as Hin0.
  { rewrite Hf2, elem_of_difference, Hf1, Hkf. split; [done|]. unfold in_kernel. lia. }
  wp_step. apply wp_bm_set.
  { apply (wf_in_bitmap _ _ Hs2). by apply elem_of_free_set in Hin0 as [? _]. }
  unfold dec_free. wp_step. apply wp_modify.
  match goal with |- wp _ _ ?t => set (s3 := t) end.
  assert (becomes s2 (free_set s2 ∖ {[0]}) s3) as [Hs3 Ht3 Hh3 Hf3]
    by exact (put_becomes s2 0 Hs2 Hin0).
  wp_step. apply (wp_mark_blocks bss_end mm max_addr Hb);
    [exact Hs3|by rewrite Ht3|by rewrite Hh3|intros k; apply blocks_visited; lia|].
  intros s4 Hs4 Ht4 Hh4 Hf4. apply wp_modify, HQ; [apply set_hint_wf; [done|lia]|done|done|].
  intros f. change (free_set (set_hint 0 s4)) with (free_set s4).
  rewrite Hf4, Hf3, Hf2, !elem_of_difference, Hf1, Hkf, elem_of_singleton. tauto.
Qed.

(** ** Histories of the allocator *)

(** One call made by a client, with the set [o] of frames the clients hold:
    allocations add to it, and only held frames are released. *)
Inductive pmm_step : pmm * gset Z → pmm * gset Z → Prop :=
  | step_alloc s o r s' :
      pmm_alloc_frame s = Ok (r, s') → r ≠ 0 →
      pmm_step (s, o) (s', {[Z.shiftr r PAGE_SHIFT]} ∪ o)
  | step_alloc_fail s o s' :
      pmm_alloc_frame s = Ok (0, s') → pmm_step (s, o) (s', o)
  | step_alloc_run s o n r s' :
      0 < n < 2 ^ 63 → pmm_alloc_frames n s = Ok (r, s') → r ≠ 0 →
      pmm_step (s, o) (s', frames (Z.shiftr r PAGE_SHIFT) n ∪ o)
  | step_alloc_run_fail s o n s' :
      0 < n < 2 ^ 63 → pmm_alloc_frames n s = Ok (0, s') → pmm_step (s, o) (s', o)
  | step_free s o a s' :
      0 ≤ a → Z.shiftr a PAGE_SHIFT ∈ o → pmm_free_frame a s = Ok (tt, s') →
      pmm_step (s, o) (s', o ∖ {[Z.shiftr a PAGE_SHIFT]})
  | step_free_run s o a n s' :
      0 ≤ a < 2 ^ 64 → 0 ≤ n < 2 ^ 63 → frames (Z.shiftr a PAGE_SHIFT) n ⊆ o →
      pmm_free_frames a n s = Ok (tt, s') →
      pmm_step (s, o) (s', o ∖ frames (Z.shiftr a PAGE_SHIFT) n).

(** Between any two calls: the allocator is well formed, frame 0 is not free,
    no held frame is free, and held and free frames together are the frames
    [all] that were available at the start. *)
Record hist_inv (all : gset Z) (s : pmm) (o : gset Z) : Prop := HistInv {
  hi_wf : wf s;
  hi_zero : 0 ∉ all;
  hi_range : ∀ f, f ∈ all → 0 ≤ f < total_frames s;
  hi_disj : o ## free_set s;
  hi_all : o ∪ free_set s = all }.

Lemma wp_run {A} (m : M pmm A) (Q : A → pmm → Prop) s a s' :
  wp m Q s → m s = Ok (a, s') → Q a s'.
Proof. intros (b & t & Hm & HQ)%wp_ok Heq. rewrite Heq in Hm. by injection Hm as -> ->. Qed.

Lemma shiftr_shiftl_page f : Z.shiftr (Z.shiftl f PAGE_SHIFT) PAGE_SHIFT = f.
Proof. rewrite Z.shiftr_shiftl_l by done. by rewrite Z.shiftl_0_r. Qed.

Lemma shiftl_page_nonzero f : f ≠ 0 → Z.shiftl f PAGE_SHIFT ≠ 0.
Proof. intros Hf. rewrite Z.shiftl_mul_pow2 by done. unfold PAGE_SHIFT. lia. Qed.

(** Taking [T] from the free set or giving [T] back keeps the invariant. *)
Lemma hist_inv_take all s o T s' :
  hist_inv all s o → T ⊆ free_set s → wf s' → total_frames s' = total_frames s →
  free_set s' = free_set s ∖ T → hist_inv all s' (T ∪ o).
Proof.
  intros [Hw Hz Hr Hd Ha] HT Hw' Ht Hf.
  split; [done|done|by rewrite Ht|rewrite Hf; set_solver|].
  rewrite <-Ha, Hf. apply set_eq. intros f. destruct (decide (f ∈ T)); set_solver.
Qed.

Lemma hist_inv_give all s o T s' :
  hist_inv all s o → T ⊆ o →
  becomes s (free_set s ∪ (T ∩ frames 0 (total_frames s))) s' → hist_inv all s' (o ∖ T).
Proof.
  intros [Hw Hz Hr Hd Ha] HT [Hw' Ht Hh Hf].
  assert (T ∩ frames 0 (total_frames s) = T) as HTT.
  { apply set_eq. intros f. rewrite elem_of_intersection, elem_of_frames.
    split; [tauto|]. intros Hin. split; [done|]. rewrite Z.add_0_l. apply Hr. set_solver. }
  rewrite HTT in Hf. split; [done|done|by rewrite Ht|rewrite Hf; set_solver|].
  rewrite <-Ha, Hf. apply set_eq. intros f. destruct (decide (f ∈ T)); set_solver.
Qed.

Lemma pmm_step_inv all s o s' o' :
  pmm_step (s, o) (s', o') → hist_inv all s o → hist_inv all s' o'.
Proof.
  intros Hstep Hi. pose proof (hi_wf _ _ _ Hi) as Hw.
  assert (∀ f, f ∈ free_set s → f ≠ 0) as Hnz.
  { pose proof (hi_zero _ _ _ Hi). pose proof (hi_all _ _ _ Hi). set_solver. }
  inversion Hstep as [? ? r ? Hrun Hr Heq1 Heq2|? ? ? Hrun Heq1 Heq2|? ? n r ? Hn Hrun Hr Heq1 Heq2
    |? ? n ? Hn Hrun Heq1 Heq2|? ? a ? Ha Hin Hrun Heq1 Heq2|? ? a n ? Ha Hn Hsub Hrun Heq1 Heq2];
    simplify_eq; clear Hstep.
  - pose proof (wp_run _ _ _ _ _ (wp_alloc_frame s Hw) Hrun) as Hspec.
    destruct Hspec as [|f s' Hf _ Hw' Ht' _ Hf']; [done|].
    rewrite shiftr_shiftl_page. apply (hist_inv_take all s); try done. set_solver.
  - pose proof (wp_run _ _ _ _ _ (wp_alloc_frame s Hw) Hrun) as Hspec.
    inversion Hspec as [|f ? Hf]; subst; [done|].
    exfalso. apply (shiftl_page_nonzero f); [by apply Hnz|done].
  - pose proof (wp_run _ _ _ _ _ (wp_alloc_frames s n Hw Hn) Hrun) as Hspec.
    destruct Hspec as [|a s' [_ Hsub] _ [Hw' Ht' _ Hf']]; [done|].
    rewrite shiftr_shiftl_page. by apply (hist_inv_take all s).
  - pose proof (wp_run _ _ _ _ _ (wp_alloc_frames s n Hw Hn) Hrun) as Hspec.
    inversion Hspec as [|a ? [_ Hsub]]; subst; [done|].
    exfalso. apply (shiftl_page_nonzero a); [|done]. apply Hnz, Hsub, elem_of_frames. lia.
  - pose proof (wp_run _ _ _ _ _ (wp_free_frame s a (λ _, becomes s _) Hw Ha (λ _ Hb, Hb)) Hrun) as Hb.
    replace {[Z.shiftr a PAGE_SHIFT]} with (frames (Z.shiftr a PAGE_SHIFT) 1).
    + apply (hist_inv_give all s); [done| |done]. intros f Hf%elem_of_frames.
      by replace f with (Z.shiftr a PAGE_SHIFT) by lia.
    + apply set_eq. intros f. rewrite elem_of_frames, elem_of_singleton. lia.
  - pose proof (wp_run _ _ _ _ _ (wp_free_frames s a n (λ _, becomes s _) Hw Ha Hn (λ _ Hb, Hb)) Hrun) as Hb.
    by apply (hist_inv_give all s).
Qed.

(** ** Theorems *)

(** [pmm_init] on an acceptable memory map runs to completion inside its
    bitmap, and a frame is free afterwards exactly when it lies in usable
    memory, is not frame 0, is not a whole frame of the kernel image or
    bitmap, and is not in a reserved 2 MiB block; the free counter agrees. *)
Theorem pmm_init_free_set bss_end mm max_addr s0 :
  boot_ok bss_end mm max_addr → usable mm 0 →
  ∃ s, pmm_init bss_end mm max_addr s0 = Ok (tt, s) ∧ wf s ∧
       ∀ f, f ∈ free_set s ↔ usable mm f ∧ f ≠ 0 ∧ ¬ in_kernel bss_end max_addr f ∧
                             ¬ in_reserved_block mm max_addr f.
Proof.
  intros Hb H0.
  destruct (proj1 (wp_ok _ _ _) (wp_pmm_init bss_end mm max_addr s0
    (λ _ s, wf s ∧ ∀ f, f ∈ free_set s ↔ usable mm f ∧ f ≠ 0 ∧
       ¬ in_kernel bss_end max_addr f ∧ ¬ in_reserved_block mm max_addr f)
    Hb H0 (λ s Hs _ _ Hf, conj Hs Hf))) as ([] & s & Hrun & Hw & Hf).
  by exists s.
Qed.

(** C7: [pmm_alloc_frame] always returns; it refines the abstract next-fit
    allocator: it hands out the first free frame in search order and removes
    exactly that frame from the free set, or returns 0 when nothing is free. *)
Theorem pmm_alloc_frame_refines s :
  wf s → ∃ r s', pmm_alloc_frame s = Ok (r, s') ∧ alloc_spec s r s'.
Proof. intros Hs. apply wp_ok. by apply wp_alloc_frame. Qed.

(** [pmm_alloc_frames] always returns; it hands out the lowest run of
    [count] consecutive free frames, and returns 0 only when no such run
    exists (its skip over short runs never misses one). *)
Theorem pmm_alloc_frames_first_fit s count :
  wf s → 0 < count < 2 ^ 63 →
  ∃ r s', pmm_alloc_frames count s = Ok (r, s') ∧ alloc_run_spec count s r s'.
Proof. intros Hs Hc. apply wp_ok. by apply wp_alloc_frames. Qed.

(** Releasing a run that [pmm_alloc_frames] returned restores the free set
    and the free counter. *)
Theorem pmm_alloc_free_roundtrip s count r s1 :
  wf s → 0 ∉ free_set s → 0 < count < 2 ^ 63 → pmm_alloc_frames count s = Ok (r, s1) → r ≠ 0 →
  ∃ s2, pmm_free_frames r count s1 = Ok (tt, s2) ∧ wf s2 ∧
        free_set s2 = free_set s ∧ free_frames s2 = free_frames s.
Proof.
  intros Hs H0 Hc Hrun Hr.
  pose proof (wp_run _ _ _ _ _ (wp_alloc_frames s count Hs Hc) Hrun) as Hspec.
  destruct Hspec as [|a s1 [Ha Hsub] _ [Hw1 Ht1 _ Hf1]]; [done|].
  pose proof (free_run_bound s a count (conj Ha Hsub) (proj1 Hc)) as Hle.
  pose proof (wf_total s Hs). assert (0 ≤ Z.shiftl a PAGE_SHIFT < 2 ^ 64) as Hrange.
  { rewrite Z.shiftl_mul_pow2 by done. unfold PAGE_SHIFT. lia. }
  destruct (proj1 (wp_ok _ _ _) (wp_free_frames s1 (Z.shiftl a PAGE_SHIFT) count (λ _, becomes s1 _) Hw1 Hrange
    ltac:(lia) (λ s2 Hb, Hb))) as ([] & s2 & Hfree & Hb).
  exists s2. split; [done|]. destruct Hb as [Hw2 Ht2 _ Hf2].
  rewrite shiftr_shiftl_page, Hf1 in Hf2.
  assert (free_set s2 = free_set s) as Heq.
  { rewrite Hf2. apply set_eq. intros f.
    rewrite elem_of_union, elem_of_difference, elem_of_intersection, !elem_of_frames.
    destruct (decide (f ∈ frames a count)) as [Hin|Hin].
    - pose proof (Hsub f Hin) as Hfs. rewrite elem_of_frames in Hin.
      split; [done|]. intros _. right. lia.
    - rewrite elem_of_frames in Hin. tauto. }
  split_and!; [done|done|]. by rewrite (wf_count s2 Hw2), (wf_count s Hs), Heq.
Qed.

(** C6: over any history of allocations and releases (of held frames only), the
    held frames and the free frames stay disjoint and together are exactly the
    frames that were free at the start: no frame is handed out twice and none
    is lost. *)
Theorem pmm_no_double_allocation s s' o :
  wf s → 0 ∉ free_set s → rtc pmm_step (s, ∅) (s', o) →
  wf s' ∧ o ## free_set s' ∧ o ∪ free_set s' = free_set s.
Proof.
  intros Hs H0 Hsteps.
  enough (∀ x y, rtc pmm_step x y → hist_inv (free_set s) x.1 x.2 →
                 hist_inv (free_set s) y.1 y.2) as Hgen.
  { destruct (Hgen _ _ Hsteps) as [Hw _ _ Hd Ha]; [|done]. simpl.
    split; [done|done| |set_solver|set_solver]. intros f [? _]%elem_of_free_set. done. }
  induction 1 as [|[s1 o1] [s2 o2] z Hst _ IH]; [done|]. intros Hi. apply IH.
  by apply (pmm_step_inv _ s1 o1).
Qed.

(** When the bitmap does not end on a page boundary, the frame that holds
    its last bytes is not reserved by [pmm_init]: it is free, and can be handed
    out, if it lies in usable memory outside the reserved blocks. *)
Theorem pmm_init_bitmap_tail_free bss_end mm max_addr s0 f :
  boot_ok bss_end mm max_addr → usable mm 0 →
  f * PAGE_SIZE < kernel_end_of bss_end max_addr < (f + 1) * PAGE_SIZE →
  usable mm f → f ≠ 0 → ¬ in_reserved_block mm max_addr f →
  ∃ s, pmm_init bss_end mm max_addr s0 = Ok (tt, s) ∧ f ∈ free_set s.
Proof.
  intros Hb H0 Htail Hu Hf Hnr.
  destruct (proj1 (wp_ok _ _ _) (wp_pmm_init bss_end mm max_addr s0 (λ _ s, f ∈ free_set s) Hb H0
    (λ s _ _ _ Hfs, proj2 (Hfs f) (conj Hu (conj Hf (conj
       (λ Hk, Z.lt_irrefl _ (Z.lt_le_trans _ _ _ (proj2 Htail) (proj2 Hk))) Hnr))))))
    as ([] & s & Hrun & Hin).
  by exists s.
Qed.

(** ** Witnesses *)

(** 16 MiB of usable RAM, and a kernel whose .bss ends 4 KiB past the load
    address. *)
Definition demo_map : mmap_info := [MmapEntry 0 0x1000000 1].
Definition demo_bss : Z := KERNEL_VIRT_BASE + 0x201000.
Definition demo_max : Z := 0x1000000.

Lemma demo_boot_ok : boot_ok demo_bss demo_map demo_max.
Proof.
  split.
  - unfold demo_max, PAGE_SIZE. lia.
  - intros e He%list_elem_of_singleton. subst e. unfold entry_ok. simpl. lia.
  - intros e He%list_elem_of_singleton _. subst e. vm_compute. congruence.
  - vm_compute. split; congruence.
  - intros k Hk _ Hr. done.
Qed.

Lemma demo_usable f : 0 ≤ f < 4096 → usable demo_map f.
Proof.
  intros Hf. exists (MmapEntry 0 0x1000000 1). unfold PAGE_SIZE. simpl.
  split_and!; [by left|done|lia|lia].
Qed.

Definition demo_empty : pmm := Pmm [] 0 0 0.

Lemma pmm_init_free_set_witness :
  ∃ s, pmm_init demo_bss demo_map demo_max demo_empty = Ok (tt, s) ∧ wf s.
Proof.
  destruct (pmm_init_free_set demo_bss demo_map demo_max demo_empty demo_boot_ok
    (demo_usable 0 ltac:(lia))) as (s & Hrun & Hw & _).
  exists s. split; [exact Hrun|exact Hw].
Defined.

(** Eight frames, of which 0, 2 and 5 are in use. *)
Definition demo_pmm : pmm := Pmm [0x25] 8 5 3.

Lemma demo_pmm_wf : wf demo_pmm.
Proof. split; [reflexivity|simpl; lia|reflexivity|simpl; lia]. Qed.

Lemma pmm_alloc_frame_refines_witness :
  ∃ r s', pmm_alloc_frame demo_pmm = Ok (r, s') ∧ r = 0x3000 ∧ alloc_spec demo_pmm r s'.
Proof.
  destruct (pmm_alloc_frame_refines demo_pmm demo_pmm_wf) as (r & s' & Hrun & Hspec).
  exists r, s'. split; [done|]. split; [|done]. vm_compute in Hrun. congruence.
Defined.

Lemma pmm_alloc_frames_first_fit_witness :
  ∃ r s', pmm_alloc_frames 2 demo_pmm = Ok (r, s') ∧ r = 0x3000 ∧ alloc_run_spec 2 demo_pmm r s'.
Proof.
  destruct (pmm_alloc_frames_first_fit demo_pmm 2 demo_pmm_wf ltac:(lia)) as (r & s' & Hrun & Hspec).
  exists r, s'. split; [done|]. split; [|done]. vm_compute in Hrun. congruence.
Defined.

Lemma demo_zero_used : 0 ∉ free_set demo_pmm.
Proof. rewrite elem_of_free_set. intros [_ Hb]. by vm_compute in Hb. Qed.

Lemma pmm_alloc_free_roundtrip_witness :
  ∃ s1 s2, pmm_alloc_frames 2 demo_pmm = Ok (0x3000, s1) ∧
           pmm_free_frames 0x3000 2 s1 = Ok (tt, s2) ∧ free_set s2 = free_set demo_pmm.
Proof.
  destruct (pmm_alloc_free_roundtrip demo_pmm 2 0x3000 (Pmm [0x3D] 8 3 3) demo_pmm_wf
    demo_zero_used ltac:(lia) eq_refl ltac:(lia)) as (s2 & Hrun & _ & Hf & _).
  by exists (Pmm [0x3D] 8 3 3), s2.
Defined.

Lemma pmm_no_double_allocation_witness :
  ∃ s' o, rtc pmm_step (demo_pmm, ∅) (s', o) ∧ o ## free_set s' ∧ o ∪ free_set s' = free_set demo_pmm.
Proof.
  assert (rtc pmm_step (demo_pmm, ∅) (Pmm [0x2D] 8 4 4, {[3]} ∪ ∅)) as Hst.
  { apply rtc_once. by apply (step_alloc demo_pmm ∅ 0x3000 (Pmm [0x2D] 8 4 4)). }
  eexists _, _. split; [exact Hst|].
  apply (pmm_no_double_allocation demo_pmm _ _ demo_pmm_wf demo_zero_used Hst).
Defined.

(** In the demonstration map the bitmap occupies bytes [0x201000, 0x201200):
    frame 0x201 holds it and is left free. *)
Lemma pmm_init_bitmap_tail_free_witness :
  ∃ s, pmm_init demo_bss demo_map demo_max demo_empty = Ok (tt, s) ∧ 0x201 ∈ free_set s.
Proof.
  apply (pmm_init_bitmap_tail_free demo_bss demo_map demo_max demo_empty 0x201 demo_boot_ok
    (demo_usable 0 ltac:(lia))).
  - vm_compute. by split.
  - apply demo_usable. lia.
  - lia.
  - intros (k & _ & _ & Hr & _). done.
Defined.
