(* ===== verification/Mmu.v ===== *)
(** * Mmu: four-level page tables (kernel/arch/x86_64/mmu.c, kernel/vmm.c)

    Physical memory is a map from page addresses to 512 words; page tables are
    pages of it, reached through the identity map, so a pointer to an entry is
    a page address and an index.  The frames of new tables come from the frame
    allocator of Pmm.v.  The specification is the translation the processor
    performs on these tables ([xlate]). *)

From S2P Require Import Prelude BootMap Pmm.

#[local] Arguments for_up : simpl never.
#[local] Arguments for_ret : simpl never.

Definition X86_PTE_PRESENT : Z := 1.
Definition X86_PTE_WRITE : Z := 2.
Definition X86_PTE_USER : Z := 4.
Definition X86_PTE_PWT : Z := 8.
Definition X86_PTE_PCD : Z := 16.
Definition X86_PTE_HUGE : Z := 128.
Definition X86_PTE_PAT : Z := 128.
Definition X86_PTE_PAT_LARGE : Z := 4096.
Definition X86_PTE_GLOBAL : Z := 256.
Definition X86_PTE_NX : Z := 2 ^ 63.
Definition X86_PTE_ADDR_MASK : Z :=
  Z.land (Z.land (2 ^ 52 - 1) (u64 (Z.lnot 0xFFF))) (u64 (Z.lnot X86_PTE_NX)).

Definition MMU_WRITE : Z := 1.
Definition MMU_USER : Z := 2.
Definition MMU_NX : Z := 4.
Definition MMU_HUGE : Z := 8.
Definition MMU_GLOBAL : Z := 16.
Definition MMU_UNCACHED : Z := 32.
Definition MMU_WC : Z := 64.

Definition PAT_WC : Z := 1.
Definition PAT_WC_INDEX : Z := 4.

(** [x & f] as a condition. *)
Definition flag (x f : Z) : bool := negb (Z.land x f =? 0).

(** The statics of mmu.c and vmm.c and the machine they act on: the frame
    allocator, physical memory, [kernel_root], the register CR3 with the
    number of TLB flushes so far, the three PAT variables, the PAT register,
    and [next_offset] of [vmm_mmap_phys]. *)
Record mmu := Mmu {
  mm_pmm : pmm;
  mm_mem : gmap Z (list Z);
  kernel_root : Z;
  mm_cr3 : Z;
  mm_flushes : Z;
  pat_wc_index : Z;
  pat_initialized : bool;
  pat_available : bool;
  mm_pat_msr : Z;
  next_offset : Z }.

Definition set_pmm (p : pmm) (s : mmu) : mmu :=
  Mmu p (mm_mem s) (kernel_root s) (mm_cr3 s) (mm_flushes s) (pat_wc_index s) (pat_initialized s)
    (pat_available s) (mm_pat_msr s) (next_offset s).
Definition set_mem (m : gmap Z (list Z)) (s : mmu) : mmu :=
  Mmu (mm_pmm s) m (kernel_root s) (mm_cr3 s) (mm_flushes s) (pat_wc_index s) (pat_initialized s)
    (pat_available s) (mm_pat_msr s) (next_offset s).
Definition set_root (r : Z) (s : mmu) : mmu :=
  Mmu (mm_pmm s) (mm_mem s) r (mm_cr3 s) (mm_flushes s) (pat_wc_index s) (pat_initialized s)
    (pat_available s) (mm_pat_msr s) (next_offset s).
Definition set_cr3 (r : Z) (s : mmu) : mmu :=
  Mmu (mm_pmm s) (mm_mem s) (kernel_root s) r (mm_flushes s + 1) (pat_wc_index s) (pat_initialized s)
    (pat_available s) (mm_pat_msr s) (next_offset s).
Definition set_pat (idx : Z) (ini avail : bool) (msr : Z) (s : mmu) : mmu :=
  Mmu (mm_pmm s) (mm_mem s) (kernel_root s) (mm_cr3 s) (mm_flushes s) idx ini avail msr (next_offset s).
Definition set_offset (o : Z) (s : mmu) : mmu :=
  Mmu (mm_pmm s) (mm_mem s) (kernel_root s) (mm_cr3 s) (mm_flushes s) (pat_wc_index s)
    (pat_initialized s) (pat_available s) (mm_pat_msr s) o.

(** [page[i]] and [page[i] = v]; a page that is not memory faults. *)
Definition rd (a i : Z) : M mmu Z :=
  m ← gets mm_mem;
  match m !! a with
  | Some l => load l i
  | None => fault
  end.

Definition wr (a i v : Z) : M mmu unit :=
  m ← gets mm_mem;
  match m !! a with
  | Some l => _ ← load l i; modify (set_mem (<[a := <[Z.to_nat i := v]> l]> m))
  | None => fault
  end.

Definition read_cr3 : M mmu Z := gets mm_cr3.
Definition write_cr3 (v : Z) : M mmu unit := modify (set_cr3 v).
Definition flush_tlb : M mmu unit := modify (λ s, set_cr3 (mm_cr3 s) s).

Definition alloc_frame : M mmu Z := zoom mm_pmm set_pmm pmm_alloc_frame.
Definition free_frame (a : Z) : M mmu unit := zoom mm_pmm set_pmm (pmm_free_frame a).

Definition zero_page (a : Z) : M mmu unit := for_up 512 0 (λ i, wr a i 0).

(** [mmu_pat_init]: [edx] is what CPUID leaf 1 reports. *)
Definition mmu_pat_init (edx : Z) : M mmu unit :=
  ini ← gets pat_initialized;
  if ini : bool then mret tt
  else
    modify (λ s, set_pat (pat_wc_index s) true (pat_available s) (mm_pat_msr s) s) ;;
    if negb (flag edx (Z.shiftl 1 16)) then mret tt
    else
      pat ← gets mm_pat_msr;
      r ← for_ret 8 0 (λ i,
            if Z.land (Z.shiftr pat (i * 8)) 0xFF =? PAT_WC
            then modify (set_pat i true true pat) ;; mret (Some tt)
            else mret None);
      match r with
      | Some _ => mret tt
      | None =>
        let pat' := Z.lor (Z.land pat (Z.lnot (Z.shiftl 0xFF (PAT_WC_INDEX * 8))))
                      (Z.shiftl PAT_WC (PAT_WC_INDEX * 8)) in
        flush_tlb ;;
        modify (set_pat PAT_WC_INDEX true true pat')
      end.

Definition to_x86_flags (ini avail : bool) (flags : Z) : Z :=
  let x := X86_PTE_PRESENT in
  let x := if flag flags MMU_WRITE then Z.lor x X86_PTE_WRITE else x in
  let x := if flag flags MMU_USER then Z.lor x X86_PTE_USER else x in
  let x := if flag flags MMU_HUGE then Z.lor x X86_PTE_HUGE else x in
  let x := if flag flags MMU_GLOBAL then Z.lor x X86_PTE_GLOBAL else x in
  let x := if flag flags MMU_WC then
             if avail || negb ini then
               if flag flags MMU_HUGE then Z.lor x X86_PTE_PAT_LARGE else Z.lor x X86_PTE_PAT
             else Z.lor x (Z.lor X86_PTE_PWT X86_PTE_PCD)
           else x in
  let x := if flag flags MMU_UNCACHED then Z.lor x (Z.lor X86_PTE_PWT X86_PTE_PCD) else x in
  if flag flags MMU_NX then Z.lor x X86_PTE_NX else x.

(** The flags of the 4 KiB entries that replace a large page. *)
Definition split_flags (old : Z) : Z :=
  let flags := Z.land old 0x1FF in
  let flags := Z.land flags (Z.lnot X86_PTE_HUGE) in
  let flags := Z.land flags (Z.lnot X86_PTE_GLOBAL) in
  let flags := if flag old X86_PTE_PAT_LARGE then Z.lor flags X86_PTE_PAT else flags in
  if flag old X86_PTE_NX then Z.lor flags X86_PTE_NX else flags.

(** Entry [k] of the table that replaces a large page. *)
Definition split_entry (old k : Z) : Z :=
  let phys := Z.land old X86_PTE_ADDR_MASK in
  Z.lor (u64 (phys + k * PAGE_SIZE)) (split_flags old).

(** [split_huge(&page[i])] *)
Definition split_huge (a i : Z) : M mmu Z :=
  old ← rd a i;
  if negb (flag old X86_PTE_PRESENT) then mret (-1)
  else if negb (flag old X86_PTE_HUGE) then mret 0
  else
    page ← alloc_frame;
    if page =? 0 then mret (-1)
    else
      for_up 512 0 (λ k, wr page k (split_entry old k)) ;;
      wr a i (Z.lor page (Z.land (Z.land old 0x1FF) (Z.lnot X86_PTE_HUGE))) ;;
      flush_tlb ;;
      mret 0.

(** The block of [walk_page] for an entry that is not present: the table it
    should point to is created if asked for; [false] means the walk returns 0. *)
Definition ensure_table (a i : Z) (alloc : bool) : M mmu bool :=
  e ← rd a i;
  if flag e X86_PTE_PRESENT then mret true
  else if negb alloc then mret false
  else
    page ← alloc_frame;
    if page =? 0 then mret false
    else
      zero_page page ;;
      wr a i (Z.lor page (Z.lor (Z.lor X86_PTE_PRESENT X86_PTE_WRITE) X86_PTE_USER)) ;;
      mret true.

(** The block of [walk_page] for an entry that maps a large page. *)
Definition ensure_small (a i : Z) : M mmu bool :=
  e ← rd a i;
  if flag e X86_PTE_HUGE then r ← split_huge a i; mret (negb (r <? 0)) else mret true.

Definition idx_at (shift virt : Z) : Z := Z.land (Z.shiftr virt shift) 0x1FF.

(** One level of the walk below the root table: the page of the next level. *)
Definition next_level (a i : Z) (alloc : bool) : M mmu (option Z) :=
  ok ← ensure_small a i;
  if negb ok then mret None
  else
    ok ← ensure_table a i alloc;
    if negb ok then mret None
    else
      e ← rd a i;
      mret (Some (Z.land e X86_PTE_ADDR_MASK)).

(** [root ? root : kernel_root] *)
Definition or_kernel (root : Z) : M mmu Z :=
  if root =? 0 then gets kernel_root else mret root.

(** The address of the page-table entry of [virt], as page and index. *)
Definition walk_page (root virt : Z) (alloc : bool) : M mmu (option (Z * Z)) :=
  root ← or_kernel root;
  ok ← ensure_table root (idx_at 39 virt) alloc;
  if negb ok then mret None
  else
    e ← rd root (idx_at 39 virt);
    pd ← next_level (Z.land e X86_PTE_ADDR_MASK) (idx_at 30 virt) alloc;
    match pd with
    | None => mret None
    | Some pd =>
      pt ← next_level pd (idx_at 21 virt) alloc;
      match pt with
      | None => mret None
      | Some pt => mret (Some (pt, idx_at 12 virt))
      end
    end.

Definition mmu_current_root : M mmu Z :=
  r ← read_cr3; mret (Z.land r X86_PTE_ADDR_MASK).

Definition flush_if_kernel (root : Z) : M mmu unit :=
  k ← gets kernel_root; if root =? k then flush_tlb else mret tt.

Definition pte_flags (flags : Z) : M mmu Z :=
  gets (λ s, to_x86_flags (pat_initialized s) (pat_available s) flags).

Definition mmu_map (root virt phys flags : Z) : M mmu Z :=
  root ← or_kernel root;
  p ← walk_page root virt true;
  match p with
  | None => mret (-1)
  | Some (a, i) =>
    e ← rd a i;
    if flag e X86_PTE_PRESENT then mret (-1)
    else
      x ← pte_flags flags;
      wr a i (Z.lor (Z.land phys X86_PTE_ADDR_MASK) x) ;;
      flush_if_kernel root ;;
      mret 0
  end.

Definition mmu_unmap (root virt : Z) : M mmu Z :=
  root ← or_kernel root;
  p ← walk_page root virt false;
  match p with
  | None => mret (-1)
  | Some (a, i) =>
    e ← rd a i;
    if negb (flag e X86_PTE_PRESENT) then mret (-1)
    else wr a i 0 ;; flush_if_kernel root ;; mret 0
  end.

Definition mmu_virt_to_phys (root virt : Z) : M mmu Z :=
  root ← or_kernel root;
  p ← walk_page root virt false;
  match p with
  | None => mret 0
  | Some (a, i) =>
    e ← rd a i;
    if negb (flag e X86_PTE_PRESENT) then mret 0
    else mret (Z.lor (Z.land e X86_PTE_ADDR_MASK) (Z.land virt 0xFFF))
  end.

Definition mmu_protect (root virt flags : Z) : M mmu Z :=
  root ← or_kernel root;
  p ← walk_page root virt false;
  match p with
  | None => mret (-1)
  | Some (a, i) =>
    e ← rd a i;
    if negb (flag e X86_PTE_PRESENT) then mret (-1)
    else
      x ← pte_flags flags;
      wr a i (Z.lor (Z.land e X86_PTE_ADDR_MASK) x) ;;
      flush_tlb ;;
      mret 0
  end.

(** [range_pte]: the levels below a table at [a], by the shifts of their
    indices. *)
Fixpoint range_levels (shifts : list Z) (a virt : Z) : M mmu Z :=
  match shifts with
  | [] => mret 0
  | sh :: shifts' =>
    e ← rd a (idx_at sh virt);
    if negb (flag e X86_PTE_PRESENT) then mret 0
    else if bool_decide (shifts' = []) || flag e X86_PTE_HUGE then mret e
    else range_levels shifts' (Z.land e X86_PTE_ADDR_MASK) virt
  end.

Definition range_pte (root virt : Z) : M mmu Z := range_levels [39; 30; 21; 12] root virt.

(** One round of the loop of [mmu_check_user_range]: the page of [virt]. *)
Definition check_page (root stop : Z) (write : bool) (virt : Z) : M mmu (Z + Z) :=
  if virt <? stop then
    flags ← range_pte root virt;
    if negb (flag flags X86_PTE_PRESENT) || negb (flag flags X86_PTE_USER) then mret (inr 0)
    else if write && negb (flag flags X86_PTE_WRITE) then mret (inr 0)
    else
      let step := PAGE_SIZE - Z.land virt (PAGE_SIZE - 1) in
      let remain := u64 (stop - virt) in
      let step := if remain <? step then remain else step in
      mret (inl (u64 (virt + step)))
  else mret (inr 1).

(** The loop ends within [len / PAGE_SIZE + 2] rounds. *)
Definition mmu_check_user_range (root virt len : Z) (write : bool) : M mmu Z :=
  root ← or_kernel root;
  if len =? 0 then mret 1
  else if u64 (2 ^ 64 - 1 - len) <? virt then mret 0
  else
    let stop := u64 (virt + len) in
    loop_fuel (Z.to_nat (len / PAGE_SIZE) + 3) (check_page root stop write) virt.

(** [clone_level]: [None] is the null pointer of a failed allocation.  The
    recursion is on the level. *)
Definition copy_page (dst src : Z) : M mmu unit :=
  m ← gets mm_mem;
  match m !! dst, m !! src with
  | Some _, Some l => modify (set_mem (<[dst := l]> m))
  | _, _ => fault
  end.

Fixpoint clone_level (level : nat) (src : Z) (deep_user : bool) : M mmu (option Z) :=
  dst ← alloc_frame;
  if dst =? 0 then mret None
  else
    zero_page dst ;;
    r ← for_ret 512 0 (λ i,
      e ← rd src i;
      if negb (flag e X86_PTE_PRESENT) then mret None
      else if negb (flag e X86_PTE_USER) then wr dst i e ;; mret None
      else if negb deep_user then wr dst i 0 ;; mret None
      else
        match level with
        | S (S _ as below) =>
          if (Nat.eqb level 2) && flag e X86_PTE_HUGE then wr dst i e ;; mret None
          else
            next ← clone_level below (Z.land e X86_PTE_ADDR_MASK) deep_user;
            match next with
            | None => mret (Some tt)
            | Some n =>
              wr dst i (Z.lor n (Z.land (Z.land e 0x1FF) (Z.lnot X86_PTE_HUGE))) ;; mret None
            end
        | _ =>
          np ← alloc_frame;
          if np =? 0 then mret (Some tt)
          else
            copy_page np (Z.land e X86_PTE_ADDR_MASK) ;;
            wr dst i (Z.lor np (Z.land e 0x1FF)) ;;
            mret None
        end);
    match r with
    | Some _ => mret None
    | None => mret (Some dst)
    end.

Definition mmu_new_user_root : M mmu (option Z) :=
  k ← gets kernel_root; clone_level 4 k false.
Definition mmu_clone_root (src : Z) : M mmu (option Z) := clone_level 4 src true.

Fixpoint free_level (level : nat) (tbl : Z) : M mmu unit :=
  for_up 512 0 (λ i,
    e ← rd tbl i;
    if negb (flag e X86_PTE_PRESENT) then mret tt
    else if negb (flag e X86_PTE_USER) then mret tt
    else
      match level with
      | S (S _ as below) =>
        if (Nat.eqb level 2) && flag e X86_PTE_HUGE then mret tt
        else
          let next := Z.land e X86_PTE_ADDR_MASK in
          free_level below next ;; free_frame next
      | _ => free_frame (Z.land e X86_PTE_ADDR_MASK)
      end).

Definition mmu_free_root (root : Z) : M mmu unit :=
  k ← gets kernel_root;
  if (root =? 0) || (root =? k) then mret tt
  else free_level 4 root ;; free_frame root.

Definition mmu_switch (root : Z) : M mmu unit :=
  root ← or_kernel root; write_cr3 root.

(** The 2 MiB identity entry of [mmu_arch_init] for physical address [addr]. *)
Definition identity_entry (mm : mmap_info) (addr : Z) : Z :=
  if addr_in_reserved_region mm addr
  then Z.lor (Z.lor addr X86_PTE_PRESENT) X86_PTE_HUGE
  else Z.lor (Z.lor (Z.lor addr X86_PTE_PRESENT) X86_PTE_WRITE) X86_PTE_HUGE.

Definition fill_entry (mm : mmap_info) (pd idx addr : Z) : M mmu unit :=
  e ← rd pd idx;
  if flag e X86_PTE_PRESENT then mret tt else wr pd idx (identity_entry mm addr).

(** [mmu_arch_init]: [mm] and [max_addr] are [kernel_mmap] and
    [mmap_max_addr]; [pd1], [pd2], [pd3] are the addresses of the boot tables
    [pd_table], [pd_table2], [pd_table3].  The first loop breaks at index 512,
    so 513 rounds are enough. *)
Definition mmu_arch_init (edx : Z) (mm : mmap_info) (max_addr pd1 pd2 pd3 : Z) : M mmu unit :=
  mmu_pat_init edx ;;
  cr3 ← read_cr3;
  modify (set_root cr3) ;;
  loop_fuel 513 (λ addr,
    if addr <? max_addr then
      let idx := Z.shiftr addr 21 in
      if 512 <=? idx then mret (inr tt)
      else fill_entry mm pd1 idx addr ;; mret (inl (u64 (addr + 0x200000)))
    else mret (inr tt)) 0x800000 ;;
  flush_tlb ;;
  for_up 512 0 (λ idx, fill_entry mm pd2 idx (0x80000000 + idx * 0x200000)) ;;
  for_up 512 0 (λ idx, fill_entry mm pd3 idx (0xC0000000 + idx * 0x200000)) ;;
  flush_tlb ;;
  pdp_page ← alloc_frame;
  if pdp_page =? 0 then mret tt
  else
    zero_page pdp_page ;;
    root ← gets kernel_root;
    wr root 508 (Z.lor (Z.lor pdp_page X86_PTE_PRESENT) X86_PTE_WRITE) ;;
    flush_tlb.

(** [mmu_map_framebuffer]: the loop visits [(end - start) / 2 MiB] pages,
    rounded up. *)
Definition mmu_map_framebuffer (edx pd2 phys size : Z) : M mmu Z :=
  mmu_pat_init edx ;;
  let start := Z.land phys (u64 (Z.lnot 0x1FFFFF)) in
  let stop := u64 (phys + size) in
  for_up (Z.to_nat ((stop - start + 0x1FFFFF) / 0x200000)) 0 (λ k,
    let p := start + k * 0x200000 in
    let entry := Z.lor (Z.lor (Z.lor p X86_PTE_PRESENT) X86_PTE_WRITE) X86_PTE_HUGE in
    avail ← gets pat_available;
    wr pd2 (idx_at 21 p)
      (if avail : bool then Z.lor entry X86_PTE_PAT_LARGE
       else Z.lor entry (Z.lor X86_PTE_PWT X86_PTE_PCD))) ;;
  flush_tlb ;;
  let first_virt := if start <? stop then 0x80000000 + idx_at 21 start * 0x200000 else 0 in
  mret (u64 (first_virt + Z.land phys 0x1FFFFF)).

(** ** kernel/vmm.c *)

Definition vmm_map_page (virt phys flags : Z) : M mmu Z := mmu_map 0 virt phys flags.
Definition vmm_unmap_page (virt : Z) : M mmu Z := mmu_unmap 0 virt.
Definition vmm_virt_to_phys (virt : Z) : M mmu Z := mmu_virt_to_phys 0 virt.

Definition vmm_map_page_in (root virt phys flags : Z) : M mmu Z := mmu_map root virt phys flags.
Definition vmm_protect_page (root virt flags : Z) : M mmu Z := mmu_protect root virt flags.
Definition vmm_check_user_range (root virt len : Z) (write : bool) : M mmu Z :=
  mmu_check_user_range root virt len write.
Definition vmm_virt_to_phys_in (root virt : Z) : M mmu Z := mmu_virt_to_phys root virt.
Definition vmm_kernel_root : M mmu Z := gets kernel_root.
Definition vmm_new_user_root : M mmu (option Z) := mmu_new_user_root.
Definition vmm_clone_root (src : Z) : M mmu (option Z) := mmu_clone_root src.
Definition vmm_free_root (root : Z) : M mmu unit := mmu_free_root root.
Definition vmm_switch (root : Z) : M mmu unit := mmu_switch root.
Definition vmm_current_root : M mmu Z := mmu_current_root.

Definition vmm_map_range (virt phys pages flags : Z) : M mmu Z :=
  r ← for_ret (Z.to_nat pages) 0 (λ i,
        r ← vmm_map_page (u64 (virt + i * PAGE_SIZE)) (u64 (phys + i * PAGE_SIZE)) flags;
        mret (if r <? 0 then Some tt else None));
  mret (match r with Some _ => -1 | None => 0 end).

Definition vmm_mmap_phys (phys pages flags : Z) : M mmu Z :=
  off ← gets next_offset;
  let virt := u64 (0xFFFFFE0000000000 + off) in
  r ← vmm_map_range virt phys pages flags;
  if r <? 0 then mret 0
  else modify (set_offset (u64 (off + u64 (pages * PAGE_SIZE)))) ;; mret virt.

(** ** What the processor makes of the tables *)

(** The permissions collected on the way down: writable and user-accessible
    only if every level says so, not executable if any level says so. *)
Record perm := Perm { p_w : bool; p_u : bool; p_nx : bool }.
Definition ptop : perm := Perm true true false.
Definition pand (π : perm) (e : Z) : perm :=
  Perm (p_w π && flag e X86_PTE_WRITE) (p_u π && flag e X86_PTE_USER) (p_nx π || flag e X86_PTE_NX).

Definition addr_of (e : Z) : Z := Z.land e X86_PTE_ADDR_MASK.
Definition entry (m : gmap Z (list Z)) (a : Z) (i : nat) : option Z := l ← m !! a; l !! i.

(** The table at the end of a path of indices below table [a]. *)
Fixpoint down (m : gmap Z (list Z)) (a : Z) (π : perm) (p : list nat) : option (Z * perm) :=
  match p with
  | [] => Some (a, π)
  | i :: p' =>
    match entry m a i with
    | Some e => if flag e X86_PTE_PRESENT && negb (flag e X86_PTE_HUGE)
                then down m (addr_of e) (pand π e) p' else None
    | None => None
    end
  end.

(** A translation: the physical page, the permissions, and the memory type
    (PAT, PCD and PWT). *)
Record xl := Xl { x_pa : Z; x_perm : perm; x_type : bool * bool * bool }.

Definition leaf_small (π : perm) (e : Z) : xl :=
  Xl (addr_of e) (pand π e) (flag e X86_PTE_PAT, flag e X86_PTE_PCD, flag e X86_PTE_PWT).

(** The page number inside a large page that the remaining indices name. *)
Definition page_no (p : list nat) : Z := foldl (λ n i, n * 512 + Z.of_nat i) 0 p.

(** A large page of [512 ^ length p] pages: its address has no lower bits. *)
Definition leaf_large (π : perm) (e : Z) (p : list nat) : xl :=
  let size := 2 ^ (12 + 9 * Z.of_nat (length p)) in
  Xl (addr_of e / size * size + page_no p * PAGE_SIZE) (pand π e)
    (flag e X86_PTE_PAT_LARGE, flag e X86_PTE_PCD, flag e X86_PTE_PWT).

(** The hardware walk: the translation of the page a path of indices names. *)
Fixpoint xlate (m : gmap Z (list Z)) (a : Z) (π : perm) (p : list nat) : option xl :=
  match p with
  | [] => None
  | i :: p' =>
    match entry m a i with
    | Some e =>
      if negb (flag e X86_PTE_PRESENT) then None
      else match p' with
           | [] => Some (leaf_small π e)
           | _ => if flag e X86_PTE_HUGE then Some (leaf_large π e p')
                  else xlate m (addr_of e) (pand π e) p'
           end
    | None => None
    end
  end.

(** The permissions of the levels above the page-table entry, as far as they
    exist. *)
Fixpoint upper (m : gmap Z (list Z)) (a : Z) (π : perm) (p : list nat) : perm :=
  match p with
  | [] | [_] => π
  | i :: p' =>
    match entry m a i with
    | Some e =>
      if negb (flag e X86_PTE_PRESENT) then π
      else if flag e X86_PTE_HUGE
           then Perm (p_w π && flag e X86_PTE_WRITE) (p_u π && flag e X86_PTE_USER) (p_nx π)
           else upper m (addr_of e) (pand π e) p'
    | None => π
    end
  end.

(** The four indices of a virtual address. *)
Definition vpath (v : Z) : list nat :=
  Z.to_nat <$> [idx_at 39 v; idx_at 30 v; idx_at 21 v; idx_at 12 v].

Definition translate (s : mmu) (r v : Z) : option xl := xlate (mm_mem s) r ptop (vpath v).

(** ** The walk only depends on the entries it visits *)

Section local.
Context (m m' : gmap Z (list Z)).

(** The entries visited on path [p] from [a] are the same in both memories. *)
Definition same_on (a : Z) (π : perm) (p : list nat) : Prop :=
  ∀ p1 j p2 c π1, p = p1 ++ j :: p2 → down m a π p1 = Some (c, π1) → entry m' c j = entry m c j.

Lemma same_on_head a π i p : same_on a π (i :: p) → entry m' a i = entry m a i.
Proof. intros Hs. by apply (Hs [] i p a π). Qed.

Lemma same_on_tail a π i p e :
  same_on a π (i :: p) → entry m a i = Some e → flag e X86_PTE_PRESENT = true →
  flag e X86_PTE_HUGE = false → same_on (addr_of e) (pand π e) p.
Proof.
  intros Hs He Hp Hh p1 j p2 c π1 -> Hd. apply (Hs (i :: p1) j p2 c π1); [done|].
  simpl. by rewrite He, Hp, Hh.
Qed.

Lemma down_local a π p : same_on a π p → down m' a π p = down m a π p.
Proof.
  revert a π. induction p as [|i p IH]; intros a π Hs; [done|]. simpl.
  rewrite (same_on_head _ _ _ _ Hs). destruct (entry m a i) as [e|] eqn:He; [|done].
  destruct (flag e X86_PTE_PRESENT) eqn:Hp, (flag e X86_PTE_HUGE) eqn:Hh; try done.
  simpl. apply IH. by eapply same_on_tail.
Qed.

Lemma xlate_local a π p : same_on a π p → xlate m' a π p = xlate m a π p.
Proof.
  revert a π. induction p as [|i p IH]; intros a π Hs; [done|]. cbn [xlate].
  rewrite (same_on_head _ _ _ _ Hs). destruct (entry m a i) as [e|] eqn:He; [|done].
  destruct (flag e X86_PTE_PRESENT) eqn:Hp; [|done]. simpl.
  destruct p as [|j p]; [done|]. destruct (flag e X86_PTE_HUGE) eqn:Hh; [done|].
  apply IH. by eapply same_on_tail.
Qed.

Lemma upper_local a π p : same_on a π p → upper m' a π p = upper m a π p.
Proof.
  revert a π. induction p as [|i p IH]; intros a π Hs; [done|].
  destruct p as [|j p]; [done|]. cbn [upper].
  rewrite (same_on_head _ _ _ _ Hs). destruct (entry m a i) as [e|] eqn:He; [|done].
  destruct (flag e X86_PTE_PRESENT) eqn:Hp; [|done]. simpl.
  destruct (flag e X86_PTE_HUGE) eqn:Hh; [done|].
  apply IH. by eapply same_on_tail.
Qed.
End local.

(** Going down first. *)
Lemma down_app m a π p q :
  down m a π (p ++ q) = '(b, π1) ← down m a π p; down m b π1 q.
Proof.
  revert a π. induction p as [|i p IH]; intros a π; [done|]. simpl.
  destruct (entry m a i) as [e|]; [|done]. destruct (_ && _); [apply IH|done].
Qed.

Lemma down_prefix m a π p q b π1 :
  down m a π (p ++ q) = Some (b, π1) → ∃ c π2, down m a π p = Some (c, π2) ∧ down m c π2 q = Some (b, π1).
Proof.
  rewrite down_app. destruct (down m a π p) as [[c π2]|] eqn:Hd; [|done]. simpl. eauto.
Qed.

Lemma xlate_down m a π p q b π1 :
  q ≠ [] → down m a π p = Some (b, π1) → xlate m a π (p ++ q) = xlate m b π1 q.
Proof.
  intros Hq. revert a π. induction p as [|i p IH]; intros a π; [by intros [= -> ->]|]. cbn [down xlate app].
  destruct (entry m a i) as [e|]; [|done].
  destruct (flag e X86_PTE_PRESENT), (flag e X86_PTE_HUGE); try done. cbn [andb negb]. intros Hd.
  destruct (p ++ q) eqn:Hpq; [by destruct p, q|]. by apply IH.
Qed.

Lemma upper_down m a π p q b π1 :
  q ≠ [] → down m a π p = Some (b, π1) → upper m a π (p ++ q) = upper m b π1 q.
Proof.
  intros Hq. revert a π. induction p as [|i p IH]; intros a π; [by intros [= -> ->]|]. cbn [down upper app].
  destruct (p ++ q) eqn:Hpq; [by destruct p, q|].
  destruct (entry m a i) as [e|]; [|done].
  destruct (flag e X86_PTE_PRESENT), (flag e X86_PTE_HUGE); try done. cbn [andb negb]. intros Hd.
  by apply IH.
Qed.

(** ** Address spaces *)

(** The boot code points root entries 0, 1 and 511 at one table; the other root
    entries are used by one path only. *)
Definition private (p : list nat) : Prop :=
  match p with
  | [] => True
  | i :: _ => i ≠ 0%nat ∧ i ≠ 1%nat ∧ i ≠ 511%nat
  end.

Definition frame_of (a : Z) : Z := a / PAGE_SIZE.
Definition is_page (m : gmap Z (list Z)) (a : Z) : Prop := ∃ l, m !! a = Some l ∧ length l = 512%nat.

(** The path starts with root index [h]. *)
Definition through (h : nat) (p : list nat) : Prop :=
  match p with
  | [] => True
  | i :: _ => i = h
  end.

(** Table [a] is the root table [r] or below its entry [h]. *)
Definition owned (h : nat) (m : gmap Z (list Z)) (r a : Z) : Prop :=
  ∃ p π, (length p ≤ 3)%nat ∧ through h p ∧ down m r ptop p = Some (a, π).

(** The frame allocator is consistent and hands out pages of memory, whose
    addresses fit an entry. *)
Record ram_ok (s : mmu) : Prop := RamOk {
  ro_pmm : wf (mm_pmm s);
  ro_zero : 0 ∉ free_set (mm_pmm s);
  ro_total : total_frames (mm_pmm s) ≤ 2 ^ 40;
  ro_ram : ∀ f, f ∈ free_set (mm_pmm s) → is_page (mm_mem s) (f * PAGE_SIZE) }.

(** The tables below [r] are pages in use, a table on a private path is on no
    other path, and private paths have no 1 GiB pages and only aligned 2 MiB
    pages. *)
Record aspace (s : mmu) (r : Z) : Prop := ASpace {
  as_ram : ram_ok s;
  as_root : r ≠ 0 ∧ r mod PAGE_SIZE = 0;
  as_table : ∀ p a π, (length p ≤ 3)%nat → down (mm_mem s) r ptop p = Some (a, π) →
    is_page (mm_mem s) a ∧ frame_of a ∉ free_set (mm_pmm s);
  as_own : ∀ p q a π π', (length p ≤ 3)%nat → (length q ≤ 3)%nat → private p →
    down (mm_mem s) r ptop p = Some (a, π) → down (mm_mem s) r ptop q = Some (a, π') → p = q;
  as_huge : ∀ p a π i e, (length p ≤ 1)%nat → private (p ++ [i]) →
    down (mm_mem s) r ptop p = Some (a, π) → entry (mm_mem s) a i = Some e → flag e X86_PTE_HUGE = false;
  as_large : ∀ p a π i e, length p = 2%nat → private (p ++ [i]) →
    down (mm_mem s) r ptop p = Some (a, π) → entry (mm_mem s) a i = Some e → flag e X86_PTE_HUGE = true →
    flag e X86_PTE_PRESENT = true ∧ addr_of e mod 2 ^ 21 = 0 }.

(** ** Entries *)

Lemma flag_0 x : flag 0 x = false.
Proof. done. Qed.

Lemma entry_insert m a l i e b j :
  m !! a = Some l → (i < length l)%nat →
  entry (<[a := <[i := e]> l]> m) b j = if decide (b = a ∧ j = i) then Some e else entry m b j.
Proof.
  intros Ha Hi. unfold entry. destruct (decide (b = a)) as [->|Hb].
  - rewrite lookup_insert_eq, Ha. simpl. destruct (decide (j = i)) as [->|Hj].
    + rewrite decide_True by done. by apply list_lookup_insert_eq.
    + rewrite decide_False by naive_solver. by rewrite list_lookup_insert_ne.
  - rewrite lookup_insert_ne by done. by rewrite decide_False by naive_solver.
Qed.

Lemma entry_page m a i : is_page m a → (i < 512)%nat → ∃ e, entry m a i = Some e.
Proof.
  intros (l & Hl & Hlen) Hi. unfold entry. rewrite Hl. simpl.
  apply lookup_lt_is_Some_2. lia.
Qed.

Lemma wp_rd a i e (Q : Z → mmu → Prop) s :
  entry (mm_mem s) a (Z.to_nat i) = Some e → 0 ≤ i → Q e s → wp (rd a i) Q s.
Proof.
  unfold entry, rd. intros He Hi HQ. apply wp_bind, wp_gets.
  destruct (mm_mem s !! a) as [l|]; [|done]. by eapply wp_load.
Qed.

Lemma wp_wr a i v (Q : unit → mmu → Prop) s :
  is_page (mm_mem s) a → 0 ≤ i < 512 →
  (∀ m, (∀ b j, entry m b j = if decide (b = a ∧ j = Z.to_nat i) then Some v else entry (mm_mem s) b j) →
        (∀ b, b ≠ a → m !! b = mm_mem s !! b) → (∀ b, is_page (mm_mem s) b → is_page m b) →
        Q tt (set_mem m s)) →
  wp (wr a i v) Q s.
Proof.
  intros (l & Hl & Hlen) Hi HQ. unfold wr. apply wp_bind, wp_gets. rewrite Hl.
  destruct (lookup_lt_is_Some_2 l (Z.to_nat i)) as [x Hx]; [lia|].
  apply wp_bind. eapply wp_load; [lia|done|]. apply wp_modify, HQ.
  - intros b j. apply entry_insert; [done|lia].
  - intros b Hb. by apply lookup_insert_ne.
  - intros b Hb. destruct (decide (b = a)) as [->|Hne].
    + exists (<[Z.to_nat i := v]> l). split; [by rewrite lookup_insert_eq|by rewrite length_insert].
    + destruct Hb as (lb & Hlb & ?). exists lb. by rewrite lookup_insert_ne.
Qed.

(** A loop that fills a page. *)
Lemma wp_fill a (g : Z → Z) (Q : unit → mmu → Prop) s :
  is_page (mm_mem s) a →
  (∀ m, (∀ b j, b ≠ a → entry m b j = entry (mm_mem s) b j) →
        (∀ j, (j < 512)%nat → entry m a j = Some (g (Z.of_nat j))) →
        (∀ b, b ≠ a → m !! b = mm_mem s !! b) → (∀ b, is_page (mm_mem s) b → is_page m b) →
        Q tt (set_mem m s)) →
  wp (for_up 512 0 (λ i, wr a i (g i))) Q s.
Proof.
  intros Ha HQ.
  apply (wp_for_up (λ k s', ∃ m, s' = set_mem m s ∧ (∀ b j, b ≠ a → entry m b j = entry (mm_mem s) b j) ∧
    (∀ j, (j < Z.to_nat k)%nat → entry m a j = Some (g (Z.of_nat j))) ∧
    (∀ b, b ≠ a → m !! b = mm_mem s !! b) ∧ (∀ b, is_page (mm_mem s) b → is_page m b))).
  - exists (mm_mem s). split; [by destruct s|]. split_and!; [done| |done|done]. intros j Hj. simpl in Hj. lia.
  - intros k s' Hk (m & -> & Ho & Hf & Hn & Hp). apply wp_wr; [by apply Hp|lia|]. simpl.
    intros m' He Hn' Hp'. exists m'. split; [done|]. split_and!.
    + intros b j Hb. rewrite He, decide_False by naive_solver. by apply Ho.
    + intros j Hj. rewrite He. destruct (decide (j = Z.to_nat k)) as [->|Hne].
      * rewrite decide_True by done. by rewrite Z2Nat.id by lia.
      * rewrite decide_False by naive_solver. apply Hf. lia.
    + intros b Hb. by rewrite Hn', Hn.
    + intros b Hb. by apply Hp', Hp.
  - intros s' (m & -> & Ho & Hf & Hn & Hp). by apply HQ.
Qed.

(** ** A table is added *)

Lemma private_app p q : private (p ++ q) → private p.
Proof. by destruct p. Qed.

Lemma frame_of_mul f : frame_of (f * PAGE_SIZE) = f.
Proof. apply Z.div_mul. done. Qed.

Lemma wp_alloc_page s (Q : Z → mmu → Prop) :
  ram_ok s →
  (free_set (mm_pmm s) = ∅ → Q 0 s) →
  (∀ f p, f ∈ free_set (mm_pmm s) → 0 < f < 2 ^ 40 → wf p → total_frames p = total_frames (mm_pmm s) →
     free_set p = free_set (mm_pmm s) ∖ {[f]} → Q (f * PAGE_SIZE) (set_pmm p s)) →
  wp alloc_frame Q s.
Proof.
  intros [Hw Hz Ht Hr] Hnone Hsome. apply wp_zoom. eapply wp_mono; [by apply wp_alloc_frame|].
  intros a p Hspec. destruct Hspec as [He|f p Hf _ Hp Htot _ Hfree].
  - replace (set_pmm (mm_pmm s) s) with s by (by destruct s). by apply Hnone.
  - rewrite Z.shiftl_mul_pow2 by done. change (2 ^ PAGE_SHIFT) with PAGE_SIZE.
    pose proof Hf as Hf'. apply elem_of_free_set in Hf' as [Hrange _].
    apply Hsome; try done. assert (f ≠ 0) by (intros ->; done). lia.
Qed.

(** A path of four indices, as an address has. *)
Definition is_vpath (q : list nat) : Prop := length q = 4%nat ∧ Forall (λ i, i < 512)%nat q.

(** [evolves h r s T s']: from [s] to [s'] only tables of [r] below entry [h]
    changed or were added; [r] stays an address space, and its translations are now [T]. *)
Record evolves (h : nat) (r : Z) (s : mmu) (T : list nat → option xl) (s' : mmu) : Prop := Evolves {
  ev_as : aspace s' r;
  ev_xl : ∀ q, is_vpath q → xlate (mm_mem s') r ptop q = T q;
  ev_upper : ∀ q, is_vpath q → upper (mm_mem s') r ptop q = upper (mm_mem s) r ptop q;
  ev_kernel : kernel_root s' = kernel_root s;
  ev_pat : pat_initialized s' = pat_initialized s ∧ pat_available s' = pat_available s;
  ev_offset : next_offset s' = next_offset s;
  ev_total : total_frames (mm_pmm s') = total_frames (mm_pmm s);
  ev_free : free_set (mm_pmm s') ⊆ free_set (mm_pmm s);
  ev_mem : ∀ a, ¬ owned h (mm_mem s) r a → frame_of a ∉ free_set (mm_pmm s) →
    mm_mem s' !! a = mm_mem s !! a;
  ev_owned : ∀ a, owned h (mm_mem s') r a → owned h (mm_mem s) r a ∨ frame_of a ∈ free_set (mm_pmm s);
  ev_down : ∀ q, (length q ≤ 3)%nat → ¬ through h q → down (mm_mem s') r ptop q = down (mm_mem s) r ptop q;
  ev_mono : ∀ q x, (length q ≤ 3)%nat → down (mm_mem s) r ptop q = Some x → down (mm_mem s') r ptop q = Some x;
  ev_large : ∀ q a π i e, (length q ≤ 2)%nat → down (mm_mem s') r ptop q = Some (a, π) →
    entry (mm_mem s') a i = Some e → flag e X86_PTE_HUGE = true →
    down (mm_mem s) r ptop q = Some (a, π) ∧ entry (mm_mem s) a i = Some e }.

(** The same translations as in [s]. *)
Definition keeps (h : nat) (r : Z) (s s' : mmu) : Prop := evolves h r s (xlate (mm_mem s) r ptop) s'.

Lemma keeps_refl h r s : aspace s r → keeps h r s s.
Proof. intros Hs. split; try done. intros a Ho. by left. Qed.

Lemma evolves_trans h r s1 T1 s2 T s3 : evolves h r s1 T1 s2 → evolves h r s2 T s3 → evolves h r s1 T s3.
Proof.
  intros [Ha1 Hx1 Hu1 Hk1 [Hp1 Hq1] Ho1 Ht1 Hf1 Hm1 Hw1 Hd1 He1 Hg1]
    [Ha2 Hx2 Hu2 Hk2 [Hp2 Hq2] Ho2 Ht2 Hf2 Hm2 Hw2 Hd2 He2 Hg2].
  split; try congruence; try done.
  - intros q Hq. by rewrite Hu2, Hu1.
  - split; congruence.
  - set_solver.
  - intros a Ho Hf. rewrite Hm2, Hm1; try done.
    + intros [?|?]%Hw1; done.
    + set_solver.
  - intros a [Ho|Hf]%Hw2; [by apply Hw1|right; set_solver].
  - intros q Hq Hn. by rewrite Hd2, Hd1.
  - intros q x Hq Hd. by apply He2, He1.
  - intros q a π i e Hq Hd He Hh. destruct (Hg2 q a π i e Hq Hd He Hh). by apply Hg1.
Qed.

Lemma keeps_trans h r s1 s2 s3 : keeps h r s1 s2 → keeps h r s2 s3 → keeps h r s1 s3.
Proof.
  intros H1 H2. destruct (evolves_trans h r s1 _ s2 _ s3 H1 H2) as [? Hx ? ? ? ? ? ? ? ? ? ? ?]. split; try done.
  intros q Hq. rewrite Hx by done. by apply (ev_xl _ _ _ _ _ H1).
Qed.

Section extend.
Context (s : mmu) (r : Z) (Hs : aspace s r).
Context (p : list nat) (a : Z) (π : perm) (i : nat) (e e' : Z) (f : Z) (m' : gmap Z (list Z)).
Local Abbreviation m := (mm_mem s).
Local Abbreviation F := (f * PAGE_SIZE).
Context (Hlen : (length p ≤ 2)%nat) (Hd : down m r ptop p = Some (a, π)) (Hpriv : private (p ++ [i])).
Context (He : entry m a i = Some e) (Hleaf : flag e X86_PTE_PRESENT && negb (flag e X86_PTE_HUGE) = false).
Context (Hf : f ∈ free_set (mm_pmm s)).
Context (Hm : ∀ b j, b ≠ F → entry m' b j = if decide (b = a ∧ j = i) then Some e' else entry m b j).
Context (He' : flag e' X86_PTE_PRESENT && negb (flag e' X86_PTE_HUGE) = true) (Haddr : addr_of e' = F).
Context (HF : (length p ≤ 1)%nat → ∀ j x, entry m' F j = Some x → x = 0).

Lemma ext_table q b π1 : (length q ≤ 3)%nat → down m r ptop q = Some (b, π1) → b ≠ F.
Proof.
  intros Hq Hdq ->. destruct (as_table s r Hs q F π1 Hq Hdq) as [_ Hn].
  by rewrite frame_of_mul in Hn.
Qed.

Lemma ext_same_on q : (length q ≤ 4)%nat → ¬ (p ++ [i]) `prefix_of` q → same_on m m' r ptop q.
Proof.
  intros Hq Hnp p1 j p2 c π1 -> Hd1. rewrite length_app in Hq. simpl in Hq.
  assert (length p1 ≤ 3)%nat by lia. rewrite Hm by (by eapply ext_table).
  rewrite decide_False; [done|]. intros [-> ->]. apply Hnp.
  assert (p = p1) as ->; [|exists p2; by rewrite <-app_assoc].
  eapply (as_own s r Hs); [| |by eapply private_app|done|done]; lia.
Qed.

Lemma ext_entry : entry m' a i = Some e'.
Proof.
  rewrite Hm by (eapply ext_table, Hd; lia). by rewrite decide_True.
Qed.

Lemma ext_down_p : down m' r ptop p = Some (a, π).
Proof.
  rewrite (down_local m m'); [done|]. apply ext_same_on; [lia|].
  intros [k Hk]. apply (f_equal length) in Hk. rewrite !length_app in Hk. simpl in Hk. lia.
Qed.

Lemma ext_down_new : down m' r ptop (p ++ [i]) = Some (F, pand π e').
Proof. rewrite down_app, ext_down_p. simpl. by rewrite ext_entry, He', Haddr. Qed.

(** The tables afterwards are those of before and the new one. *)
Lemma ext_down_inv q b π1 :
  (length q ≤ 3)%nat → down m' r ptop q = Some (b, π1) →
  (q = p ++ [i] ∧ b = F) ∨ (down m r ptop q = Some (b, π1) ∧ b ≠ F).
Proof.
  intros Hq Hdq. destruct (decide ((p ++ [i]) `prefix_of` q)) as [[k ->]|Hn].
  - left. rewrite down_app, ext_down_new in Hdq. destruct k as [|j k].
    { rewrite app_nil_r. by simplify_eq/=. }
    rewrite !length_app in Hq. simpl in Hq, Hdq.
    destruct (entry m' F j) as [x|] eqn:Hx; [|done].
    rewrite (HF ltac:(lia) j x Hx) in Hdq. done.
  - right. rewrite (down_local m m') in Hdq by (apply ext_same_on; [lia|done]).
    split; [done|]. by eapply ext_table.
Qed.

Lemma ext_down_old q b π1 :
  (length q ≤ 3)%nat → down m r ptop q = Some (b, π1) → down m' r ptop q = Some (b, π1).
Proof.
  intros Hq Hdq. rewrite (down_local m m'); [done|]. apply ext_same_on; [lia|].
  intros [k ->]. rewrite !down_app, Hd in Hdq. simpl in Hdq. by rewrite He, Hleaf in Hdq.
Qed.

(** The state afterwards. *)
Context (s' : mmu) (Hmem : mm_mem s' = m') (Hw : wf (mm_pmm s')).
Context (Htot : total_frames (mm_pmm s') = total_frames (mm_pmm s)).
Context (Hfree : free_set (mm_pmm s') = free_set (mm_pmm s) ∖ {[f]}).
Context (Hpages : ∀ b, is_page m b → is_page m' b) (Hother : ∀ b, b ≠ a → b ≠ F → m' !! b = m !! b).

Lemma ext_ram : ram_ok s'.
Proof.
  destruct (as_ram s r Hs) as [_ Hz Ht Hr]. split; [done|set_solver|lia|].
  intros g Hg. rewrite Hmem. apply Hpages, Hr. set_solver.
Qed.

(** An entry of a table afterwards. *)
Lemma ext_entry_inv q b π1 j x :
  (length q ≤ 2)%nat → down m' r ptop q = Some (b, π1) → entry m' b j = Some x →
  (b = F ∧ x = 0) ∨ (q = p ∧ j = i ∧ x = e') ∨ (down m r ptop q = Some (b, π1) ∧ entry m b j = Some x).
Proof.
  intros Hq Hdq Hx. destruct (ext_down_inv q b π1 ltac:(lia) Hdq) as [[-> ->]|[Hdq' HbF]].
  - left. split; [done|]. rewrite length_app in Hq. simpl in Hq. by apply (HF ltac:(lia) j).
  - right. rewrite Hm in Hx by done. destruct (decide (b = a ∧ j = i)) as [[-> ->]|Hne]; [left|by right].
    simplify_eq. split; [|done]. symmetry. eapply (as_own s r Hs); [| |by eapply private_app|done|done]; lia.
Qed.

Lemma ext_large q b π1 j x :
  (length q ≤ 2)%nat → down m' r ptop q = Some (b, π1) → entry m' b j = Some x →
  flag x X86_PTE_HUGE = true → down m r ptop q = Some (b, π1) ∧ entry m b j = Some x.
Proof.
  destruct (andb_prop _ _ He') as [_ Hnh%negb_true_iff].
  intros Hq Hdq Hx Hh. destruct (ext_entry_inv q b π1 j x Hq Hdq Hx)
    as [[_ ->]|[(_ & _ & ->)|?]]; [done|congruence|done].
Qed.

Lemma ext_aspace : aspace s' r.
Proof.
  split; rewrite ?Hmem.
  - apply ext_ram.
  - apply (as_root s r Hs).
  - intros q b π1 Hq Hdq. rewrite Hfree. destruct (ext_down_inv q b π1 Hq Hdq) as [[-> ->]|[Hdq' HbF]].
    + split; [apply Hpages, (ro_ram s (as_ram s r Hs)), Hf|]. rewrite frame_of_mul. set_solver.
    + destruct (as_table s r Hs q b π1 Hq Hdq'). split; [by apply Hpages|set_solver].
  - intros q1 q2 b π1 π2 Hl1 Hl2 Hp1 Hd1 Hd2.
    destruct (ext_down_inv q1 b π1 Hl1 Hd1) as [[-> ->]|[Hd1' Hb1]],
      (ext_down_inv q2 _ π2 Hl2 Hd2) as [[-> ?]|[Hd2' Hb2]]; try done.
    by eapply (as_own s r Hs).
  - intros q b π1 j x Hq Hpq Hdq Hx. destruct (flag x X86_PTE_HUGE) eqn:Hh; [|done].
    destruct (ext_large q b π1 j x ltac:(lia) Hdq Hx Hh). by rewrite <-Hh, (as_huge s r Hs q b π1 j x).
  - intros q b π1 j x Hq Hpq Hdq Hx Hh. destruct (ext_large q b π1 j x ltac:(lia) Hdq Hx Hh).
    by eapply (as_large s r Hs).
Qed.

(** Below the changed entry translations must agree; elsewhere they do. *)
Context (Hx : ∀ q, is_vpath (p ++ i :: q) → xlate m' F (pand π e') q = xlate m a π (i :: q)).
Context (Hu : ∀ q, is_vpath (p ++ i :: q) → upper m' F (pand π e') q = upper m a π (i :: q)).
Context (Hk : kernel_root s' = kernel_root s) (Ho : next_offset s' = next_offset s).
Context (Hpat : pat_initialized s' = pat_initialized s ∧ pat_available s' = pat_available s).

Lemma ext_path q : is_vpath q → ¬ (p ++ [i]) `prefix_of` q ∨ ∃ k, q = p ++ i :: k ∧ k ≠ [].
Proof.
  intros [Hq _]. destruct (decide ((p ++ [i]) `prefix_of` q)) as [[k ->]|Hn]; [right|by left].
  exists k. split; [by rewrite <-app_assoc|]. intros ->. rewrite !length_app in Hq. simpl in Hq. lia.
Qed.

Context (h : nat) (Hth : through h (p ++ [i])).

Lemma extend_keeps : keeps h r s s'.
Proof.
  split; rewrite ?Hmem; try done.
  - apply ext_aspace.
  - intros q Hq. destruct (ext_path q Hq) as [Hn|(k & -> & Hk0)].
    + apply xlate_local, ext_same_on; [destruct Hq; lia|done].
    + rewrite (xlate_down m r ptop p (i :: k) a π) by done. rewrite <-Hx by done.
      rewrite cons_middle, app_assoc. apply xlate_down; [done|apply ext_down_new].
  - intros q Hq. destruct (ext_path q Hq) as [Hn|(k & -> & Hk0)].
    + apply upper_local, ext_same_on; [destruct Hq; lia|done].
    + rewrite (upper_down m r ptop p (i :: k) a π) by done. rewrite <-Hu by done.
      rewrite cons_middle, app_assoc. apply upper_down; [done|apply ext_down_new].
  - set_solver.
  - intros b Hb Hbf. apply Hother.
    + intros ->. apply Hb. exists p, π. split_and!; [lia|by destruct p|done].
    + intros ->. by rewrite frame_of_mul in Hbf.
  - intros b (q & π1 & Hq & Hpq & Hdq). destruct (ext_down_inv q b π1 Hq Hdq) as [[-> ->]|[Hdq' _]].
    + right. by rewrite frame_of_mul.
    + left. by exists q, π1.
  - intros q Hq Hn. apply down_local, ext_same_on; [lia|]. intros [x ->]. apply Hn. by destruct p.
  - intros q [b π1] Hq Hdq. by apply ext_down_old.
  - intros q b π1 j x. apply ext_large.
Qed.
End extend.

(** ** Bits of entries *)

Lemma addr_mask_shift : X86_PTE_ADDR_MASK = Z.shiftl (Z.ones 40) 12.
Proof. by vm_compute. Qed.

Lemma addr_of_page f : 0 ≤ f < 2 ^ 40 → addr_of (f * PAGE_SIZE) = f * PAGE_SIZE.
Proof.
  intros Hf. unfold addr_of. rewrite addr_mask_shift. change PAGE_SIZE with (2 ^ 12).
  rewrite <-Z.shiftl_mul_pow2, <-Z.shiftl_land, Z.land_ones, Z.mod_small by lia. done.
Qed.

Lemma addr_of_lor x y : addr_of (Z.lor x y) = Z.lor (addr_of x) (addr_of y).
Proof. apply Z.land_lor_distr_l. Qed.

(** The address bits of an entry are a page number below [2 ^ 40]. *)
Lemma addr_of_form e : ∃ f, addr_of e = f * PAGE_SIZE ∧ 0 ≤ f < 2 ^ 40.
Proof.
  exists (Z.land (Z.shiftr e 12) (Z.ones 40)). unfold addr_of.
  split.
  - rewrite addr_mask_shift. change PAGE_SIZE with (2 ^ 12). rewrite <-Z.shiftl_mul_pow2 by lia.
    apply Z.bits_inj'. intros n Hn. rewrite Z.land_spec. destruct (Z.lt_ge_cases n 12).
    + by rewrite !Z.shiftl_spec_low, andb_false_r by done.
    + rewrite !Z.shiftl_spec, Z.land_spec, Z.shiftr_spec by lia. by replace (n - 12 + 12) with n by lia.
  - rewrite Z.land_ones by lia. by apply Z.mod_pos_bound.
Qed.

Lemma addr_of_flags x : 0 ≤ x < 2 ^ 12 → addr_of x = 0.
Proof.
  intros Hx. unfold addr_of. rewrite addr_mask_shift. apply Z.bits_inj'. intros n Hn.
  rewrite Z.land_spec, Z.bits_0. destruct (Z.lt_ge_cases n 12).
  - by rewrite Z.shiftl_spec_low, andb_false_r by done.
  - by rewrite (testbit_small x 12 n) by lia.
Qed.

Lemma flag_lor x y f : flag (Z.lor x y) f = flag x f || flag y f.
Proof.
  unfold flag. rewrite Z.land_lor_distr_l.
  destruct (Z.eqb_spec (Z.lor (Z.land x f) (Z.land y f)) 0) as [H|H].
  - apply Z.lor_eq_0_iff in H as [-> ->]. done.
  - destruct (Z.eqb_spec (Z.land x f) 0) as [Hx|]; [|done].
    destruct (Z.eqb_spec (Z.land y f) 0) as [Hy|]; [|done]. by rewrite Hx, Hy in H.
Qed.

(** Address bits carry no flag. *)
Lemma flag_page f g : 0 ≤ f < 2 ^ 40 → Z.land X86_PTE_ADDR_MASK g = 0 → flag (f * PAGE_SIZE) g = false.
Proof.
  intros Hf Hg. unfold flag. rewrite <-(addr_of_page f Hf). unfold addr_of.
  by rewrite <-Z.land_assoc, Hg, Z.land_0_r.
Qed.

(** An entry made of a page address and some flag bits. *)
Lemma make_entry f x :
  0 ≤ f < 2 ^ 40 → addr_of x = 0 →
  addr_of (Z.lor (f * PAGE_SIZE) x) = f * PAGE_SIZE ∧
  ∀ g, Z.land X86_PTE_ADDR_MASK g = 0 → flag (Z.lor (f * PAGE_SIZE) x) g = flag x g.
Proof.
  intros Hf Hx. split.
  - by rewrite addr_of_lor, addr_of_page, Hx, Z.lor_0_r.
  - intros g Hg. by rewrite flag_lor, flag_page.
Qed.

Lemma flag_mask_in x y g : Z.land y g = g → flag (Z.land x y) g = flag x g.
Proof. intros Hg. unfold flag. by rewrite <-Z.land_assoc, Hg. Qed.

Lemma flag_mask_out x y g : Z.land y g = 0 → flag (Z.land x y) g = false.
Proof. intros Hg. unfold flag. by rewrite <-Z.land_assoc, Hg, Z.land_0_r. Qed.

Lemma addr_of_land x y : addr_of x = 0 → addr_of (Z.land x y) = 0.
Proof.
  unfold addr_of. intros Hx.
  by rewrite <-Z.land_assoc, (Z.land_comm y), Z.land_assoc, Hx.
Qed.

Lemma addr_of_low x : addr_of (Z.land x 0x1FF) = 0.
Proof. apply addr_of_flags. change 0x1FF with (Z.ones 9). rewrite Z.land_ones by lia.
  pose proof (Z.mod_pos_bound x (2 ^ 9)). lia. Qed.

(** Which flags the parts of a split large page have. *)
Lemma split_flags_spec e :
  addr_of (split_flags e) = 0 ∧
  (∀ g, g ∈ [X86_PTE_PRESENT; X86_PTE_WRITE; X86_PTE_USER; X86_PTE_PWT; X86_PTE_PCD; X86_PTE_NX] →
        flag (split_flags e) g = flag e g) ∧
  flag (split_flags e) X86_PTE_PAT = flag e X86_PTE_PAT_LARGE.
Proof.
  unfold split_flags.
  set (x := Z.land (Z.land (Z.land e 0x1FF) (Z.lnot X86_PTE_HUGE)) (Z.lnot X86_PTE_GLOBAL)).
  assert (addr_of x = 0) as Hx by (by apply addr_of_land, addr_of_land, addr_of_low).
  assert (flag x X86_PTE_PAT = false) as Hpat.
  { unfold x. by rewrite flag_mask_in, flag_mask_out. }
  assert (flag x X86_PTE_NX = false) as Hnx.
  { unfold x. by rewrite 2!flag_mask_in, flag_mask_out. }
  split_and!.
  - destruct (flag e X86_PTE_PAT_LARGE), (flag e X86_PTE_NX); by rewrite ?addr_of_lor, Hx.
  - intros g Hg. assert (g = X86_PTE_NX ∨ flag x g = flag e g) as [->|Hxg].
    { set_unfold in Hg. destruct_or! Hg; subst g; [right; unfold x; by rewrite 3!flag_mask_in..|by left]. }
    + destruct (flag e X86_PTE_PAT_LARGE), (flag e X86_PTE_NX) eqn:He;
        rewrite ?flag_lor, Hnx; done.
    + assert (g ≠ X86_PTE_PAT ∧ (g = X86_PTE_NX ∨ Z.land X86_PTE_NX g = 0) ∧ Z.land X86_PTE_PAT g = 0) as (_ & Hn & Hp).
      { set_unfold in Hg. destruct_or! Hg; subst g; by split_and!; auto. }
      assert (flag X86_PTE_PAT g = false) as Hpg by (unfold flag; by rewrite Hp).
      assert (flag e X86_PTE_NX = true → flag X86_PTE_NX g = true → flag e g = true) as Hng.
      { destruct Hn as [->|Hn]; [done|]. unfold flag at 2. by rewrite Hn. }
      destruct (flag e X86_PTE_PAT_LARGE), (flag e X86_PTE_NX) eqn:He;
        rewrite ?flag_lor, Hxg, ?Hpg, ?orb_false_r; try done;
        destruct (flag e g), (flag X86_PTE_NX g); naive_solver.
  - destruct (flag e X86_PTE_PAT_LARGE), (flag e X86_PTE_NX); by rewrite ?flag_lor, Hpat.
Qed.

Lemma split_leaf π e e' k :
  addr_of e mod 2 ^ 21 = 0 → (k < 512)%nat →
  flag e' X86_PTE_WRITE = flag e X86_PTE_WRITE → flag e' X86_PTE_USER = flag e X86_PTE_USER →
  flag e' X86_PTE_NX = false →
  leaf_small (pand π e') (split_entry e (Z.of_nat k)) = leaf_large π e [k].
Proof.
  intros Hal Hk Hw Hu Hnx. destruct (addr_of_form e) as (f & Hf & Hf40).
  destruct (split_flags_spec e) as (Hsa & Hsf & Hsp).
  assert (f mod 512 = 0) as Hf512.
  { rewrite Hf in Hal. change (2 ^ 21) with (512 * PAGE_SIZE) in Hal.
    rewrite Z.mul_mod_distr_r in Hal by done. unfold PAGE_SIZE in Hal. lia. }
  assert (0 ≤ f + Z.of_nat k < 2 ^ 40) as Hfk.
  { change (2 ^ 40) with (2 ^ 31 * 512) in *. Z.to_euclidean_division_equations. lia. }
  assert (split_entry e (Z.of_nat k) = Z.lor ((f + Z.of_nat k) * PAGE_SIZE) (split_flags e)) as ->.
  { unfold split_entry. change (Z.land e X86_PTE_ADDR_MASK) with (addr_of e). rewrite Hf, u64_small; [f_equal; lia|]. unfold is_u64, PAGE_SIZE. lia. }
  destruct (make_entry (f + Z.of_nat k) (split_flags e) Hfk Hsa) as [Hma Hmf].
  unfold leaf_small, leaf_large, pand. simpl. rewrite Hma, !Hmf by done.
  rewrite Hsp, Hw, Hu, Hnx, !Hsf by set_solver.
  f_equal.
  - apply Z.div_exact in Hf512 as Hg; [|done]. set (g := f / 512) in Hg.
    change (2 ^ _) with (512 * PAGE_SIZE). rewrite Hf, Hg, (Z.mul_comm 512 g), <-Z.mul_assoc, Z.div_mul by done.
    unfold page_no. simpl. lia.
  - f_equal; by destruct (p_w π), (p_u π), (p_nx π), (flag e X86_PTE_WRITE), (flag e X86_PTE_USER).
Qed.

(** The flags of the entry that points to the table of a split page. *)
Definition table_flags (old : Z) : Z := Z.land (Z.land old 0x1FF) (Z.lnot X86_PTE_HUGE).

Lemma table_flags_spec e :
  addr_of (table_flags e) = 0 ∧
  (∀ g, g ∈ [X86_PTE_PRESENT; X86_PTE_WRITE; X86_PTE_USER] → flag (table_flags e) g = flag e g) ∧
  flag (table_flags e) X86_PTE_NX = false ∧ flag (table_flags e) X86_PTE_HUGE = false.
Proof.
  unfold table_flags. split_and!.
  - by apply addr_of_land, addr_of_low.
  - intros g Hg. set_unfold in Hg. destruct_or! Hg; subst g; by rewrite 2!flag_mask_in.
  - by rewrite flag_mask_in, flag_mask_out.
  - by rewrite flag_mask_out.
Qed.

(** A split page translates as the large page did. *)
Lemma split_same m m' a i e F e' π k :
  entry m a i = Some e → flag e X86_PTE_PRESENT = true → flag e X86_PTE_HUGE = true → addr_of e mod 2 ^ 21 = 0 →
  flag e' X86_PTE_WRITE = flag e X86_PTE_WRITE → flag e' X86_PTE_USER = flag e X86_PTE_USER →
  flag e' X86_PTE_NX = false →
  (k < 512)%nat → entry m' F k = Some (split_entry e (Z.of_nat k)) →
  xlate m' F (pand π e') [k] = xlate m a π [i; k] ∧ upper m' F (pand π e') [k] = upper m a π [i; k].
Proof.
  intros He Hp Hh Hal Hw Hu Hnx Hk Hek. cbn [xlate upper]. rewrite He, Hp, Hh, Hek. cbn [negb].
  split.
  - assert (flag (split_entry e (Z.of_nat k)) X86_PTE_PRESENT = true) as ->.
    { unfold split_entry. destruct (split_flags_spec e) as (_ & Hsf & _).
      by rewrite flag_lor, Hsf, Hp, orb_true_r by set_solver. }
    cbn [negb]. by rewrite split_leaf.
  - unfold pand. rewrite Hw, Hu, Hnx. by destruct (p_nx π).
Qed.

(** ** The walk *)

Section walk.
Context (h : nat) (r : Z).

(** An entry on a path stays on it when the tables only grow. *)
Definition on_path (s : mmu) (p : list nat) (a : Z) (π : perm) (i : nat) : Prop :=
  (length p ≤ 2)%nat ∧ (i < 512)%nat ∧ private (p ++ [i]) ∧ through h (p ++ [i]) ∧ down (mm_mem s) r ptop p = Some (a, π).

Lemma on_path_entry s p a π i : aspace s r → on_path s p a π i → ∃ e, entry (mm_mem s) a i = Some e.
Proof.
  intros Hs (Hl & Hi & Hp & Hth & Hd). apply entry_page; [|done].
  apply (as_table s r Hs p a π); [lia|done].
Qed.

(** A page [F] is filled and entry [(a, i)] set: the memory afterwards. *)
Record installed (m : gmap Z (list Z)) (F a : Z) (i : nat) (g : Z → Z) (e' : Z) (m' : gmap Z (list Z)) : Prop :=
  Installed {
  in_entry : ∀ b j, b ≠ F → entry m' b j = if decide (b = a ∧ j = i) then Some e' else entry m b j;
  in_fill : ∀ j x, entry m' F j = Some x → x = g (Z.of_nat j) ∧ (j < 512)%nat;
  in_full : ∀ j, (j < 512)%nat → entry m' F j = Some (g (Z.of_nat j));
  in_pages : ∀ b, is_page m b → is_page m' b;
  in_other : ∀ b, b ≠ a → b ≠ F → m' !! b = m !! b }.

Lemma wp_install {B} s F a i g e' (k : M mmu B) (Q : B → mmu → Prop) :
  is_page (mm_mem s) F → is_page (mm_mem s) a → a ≠ F → (i < 512)%nat →
  (∀ m', installed (mm_mem s) F a i g e' m' → wp k Q (set_mem m' s)) →
  wp (for_up 512 0 (λ k, wr F k (g k)) ;; wr a (Z.of_nat i) e' ;; k) Q s.
Proof.
  intros HF Ha HaF Hi HQ. wp_step. apply (wp_fill _ g); [done|]. intros m1 Ho1 Hz1 Hn1 Hp1.
  wp_step. apply wp_wr; simpl; [by apply Hp1|lia|]. intros m2 He2 Hn2 Hp2. rewrite Nat2Z.id in He2.
  assert (∀ j, (j < 512)%nat → entry m2 F j = Some (g (Z.of_nat j))) as Hfull.
  { intros j Hj. rewrite He2, decide_False by naive_solver. by apply Hz1. }
  apply (HQ m2). split; [| |done| |].
  - intros b j Hb. rewrite He2. destruct (decide _); [done|]. by apply Ho1.
  - intros j x Hx. destruct (decide (j < 512)%nat) as [Hj|Hj]; [rewrite Hfull in Hx by done; naive_solver|].
    destruct (Hp2 _ (Hp1 _ HF)) as (l & Hlk & Hln).
    unfold entry in Hx. rewrite Hlk in Hx. simpl in Hx. apply lookup_lt_Some in Hx. lia.
  - intros b Hb. by apply Hp2, Hp1.
  - intros b Hba HbF. by rewrite Hn2, Hn1.
Qed.

(** The state after a frame is taken and installed. *)
Definition took (s : mmu) (f : Z) (s' : mmu) : Prop :=
  wf (mm_pmm s') ∧ total_frames (mm_pmm s') = total_frames (mm_pmm s) ∧
  free_set (mm_pmm s') = free_set (mm_pmm s) ∖ {[f]} ∧ kernel_root s' = kernel_root s ∧
  next_offset s' = next_offset s ∧
  pat_initialized s' = pat_initialized s ∧ pat_available s' = pat_available s.

(** Installing a table that translates as before keeps the address space. *)
Lemma install_keeps s p a π i e e' f g s' :
  aspace s r → on_path s p a π i → entry (mm_mem s) a i = Some e →
  flag e X86_PTE_PRESENT && negb (flag e X86_PTE_HUGE) = false →
  f ∈ free_set (mm_pmm s) → took s f s' →
  installed (mm_mem s) (f * PAGE_SIZE) a i g e' (mm_mem s') →
  flag e' X86_PTE_PRESENT = true → flag e' X86_PTE_HUGE = false → addr_of e' = f * PAGE_SIZE →
  ((length p ≤ 1)%nat → ∀ k, g k = 0) →
  (∀ q, is_vpath (p ++ i :: q) →
     xlate (mm_mem s') (f * PAGE_SIZE) (pand π e') q = xlate (mm_mem s) a π (i :: q) ∧
     upper (mm_mem s') (f * PAGE_SIZE) (pand π e') q = upper (mm_mem s) a π (i :: q)) →
  keeps h r s s' ∧ on_path s' p a π i ∧ entry (mm_mem s') a i = Some e'.
Proof.
  intros Hs (Hl & Hi & Hp & Hth & Hd) He Hleaf Hf (Hw & Ht & Hfr & Hk & Ho & Hpat) [Hie Hif Hiu Hip Hio] Hpe Hhe Hae Hg Hq.
  assert (flag e' X86_PTE_PRESENT && negb (flag e' X86_PTE_HUGE) = true) as Hnew by (by rewrite Hpe, Hhe).
  assert ((length p ≤ 1)%nat → ∀ j x, entry (mm_mem s') (f * PAGE_SIZE) j = Some x → x = 0) as HF.
  { intros Hp1 j x [-> _]%Hif. by apply Hg. }
  split_and!.
  - eapply (extend_keeps s r Hs p a π i e e' f (mm_mem s')); try done.
    + intros q Hq4. by apply Hq.
    + intros q Hq4. by apply Hq.
  - split_and!; [done..|]. eapply (ext_down_p s r Hs p a π i e' f (mm_mem s')); done.
  - rewrite Hie; [by rewrite decide_True|]. by eapply (ext_table s r Hs f Hf p a π); [lia|].
Qed.

(** A fresh zeroed table below an entry that is not present. *)
Lemma wp_ensure_table s p a π i alloc (Q : bool → mmu → Prop) :
  aspace s r → on_path s p a π i →
  (∀ e, entry (mm_mem s) a i = Some e → flag e X86_PTE_HUGE = false) →
  (∀ e, entry (mm_mem s) a i = Some e → flag e X86_PTE_PRESENT = false →
        alloc = false ∨ free_set (mm_pmm s) = ∅ → Q false s) →
  (∀ s' e, keeps h r s s' → on_path s' p a π i → entry (mm_mem s') a i = Some e →
        flag e X86_PTE_PRESENT = true → flag e X86_PTE_HUGE = false → Q true s') →
  wp (ensure_table a (Z.of_nat i) alloc) Q s.
Proof.
  intros Hs Hon Hnh HQf HQt. destruct (on_path_entry s p a π i Hs Hon) as [e He].
  pose proof Hon as (Hl & Hi & Hp & Hth & Hd).
  unfold ensure_table. wp_step. apply (wp_rd _ _ e); [by rewrite Nat2Z.id|lia|].
  destruct (flag e X86_PTE_PRESENT) eqn:Hpres.
  { wp_step. apply (HQt s e); try done; [by apply keeps_refl|by apply Hnh]. }
  destruct alloc; simpl; [|wp_step; eapply HQf; by eauto].
  wp_step. apply wp_alloc_page; [apply (as_ram s r Hs)|intros Hnone|].
  { rewrite Z.eqb_refl. wp_step. eapply HQf; by eauto. }
  intros f pm Hf Hf40 Hw Htot Hfree.
  rewrite (proj2 (Z.eqb_neq _ _)) by (unfold PAGE_SIZE; lia).
  apply (wp_install _ _ _ _ (λ _, 0)); simpl;
    [by apply (ro_ram s (as_ram s r Hs))|by apply (as_table s r Hs p a π); [lia|]
    |by eapply (ext_table s r Hs f Hf p a π); [lia|]|done|].
  intros m' Hin. destruct (make_entry f 7) as [Hma Hmf]; [lia|done|].
  assert (pand π (Z.lor (f * PAGE_SIZE) 7) = π) as Hperm.
  { unfold pand. rewrite !Hmf by done. destruct π as [[] [] []]; done. }
  change (Z.lor (Z.lor X86_PTE_PRESENT X86_PTE_WRITE) X86_PTE_USER) with 7 in Hin.
  edestruct (install_keeps s p a π i e (Z.lor (f * PAGE_SIZE) 7) f (λ _, 0) (set_mem m' (set_pmm pm s)) Hs Hon He) as (Hk & Hon' & He');
    [by rewrite Hpres|done|done|exact Hin|by rewrite Hmf|by rewrite Hmf|done|done| |].
  2:{ wp_step. eapply HQt; [done..|by rewrite Hmf|by rewrite Hmf]. }
  intros q Hq. rewrite Hperm.
  cbn [xlate upper]. rewrite He, Hpres. simpl.
  destruct q as [|j q]; [done|]. cbn [xlate upper].
  destruct (entry m' (f * PAGE_SIZE) j) as [x|] eqn:Hx; [|by destruct q].
  apply (in_fill _ _ _ _ _ _ _ Hin) in Hx as [-> _]. by destruct q.
Qed.

(** A large page on the way is split. *)
Lemma wp_ensure_small s p a π i (Q : bool → mmu → Prop) :
  aspace s r → on_path s p a π i →
  (∀ e, free_set (mm_pmm s) = ∅ → entry (mm_mem s) a i = Some e → flag e X86_PTE_HUGE = true → Q false s) →
  (∀ s', keeps h r s s' → on_path s' p a π i →
         (∀ e, entry (mm_mem s') a i = Some e → flag e X86_PTE_HUGE = false) → Q true s') →
  wp (ensure_small a (Z.of_nat i)) Q s.
Proof.
  intros Hs Hon HQf HQt. destruct (on_path_entry s p a π i Hs Hon) as [e He].
  pose proof Hon as (Hl & Hi & Hp & Hth & Hd).
  unfold ensure_small. wp_step. apply (wp_rd _ _ e); [by rewrite Nat2Z.id|lia|].
  destruct (flag e X86_PTE_HUGE) eqn:Hh.
  2:{ wp_step. apply HQt; [by apply keeps_refl|done|]. naive_solver. }
  assert (length p = 2%nat) as Hlen.
  { destruct (decide (length p ≤ 1)%nat); [|lia]. by rewrite (as_huge s r Hs p a π i e) in Hh. }
  destruct (as_large s r Hs p a π i e) as [Hpres Hal]; [done..|].
  unfold split_huge. wp_step. wp_step. apply (wp_rd _ _ e); [by rewrite Nat2Z.id|lia|]. rewrite Hpres, Hh. simpl.
  wp_step. apply wp_alloc_page; [apply (as_ram s r Hs)|intros Hnone|].
  { rewrite Z.eqb_refl. wp_steps. by eapply HQf. }
  intros f pm Hf Hf40 Hw Htot Hfree.
  rewrite (proj2 (Z.eqb_neq _ _)) by (unfold PAGE_SIZE; lia).
  destruct (table_flags_spec e) as (Hxa & Hxf & Hxn & Hxh). set (x := table_flags e) in *.
  destruct (make_entry f x) as [Hma Hmf]; [lia|done|].
  apply (wp_install (set_pmm pm s) (f * PAGE_SIZE) a i (split_entry e));
    [by apply (ro_ram s (as_ram s r Hs))|by apply (as_table s r Hs p a π); [lia|]
    |by eapply (ext_table s r Hs f Hf p a π); [lia|]|done|].
  intros m' Hin. unfold flush_tlb. wp_steps.
  destruct (install_keeps s p a π i e (Z.lor (f * PAGE_SIZE) x) f (split_entry e)
    (set_cr3 (mm_cr3 s) (set_mem m' (set_pmm pm s))) Hs Hon He) as (Hk & Hon' & He');
    [by rewrite Hpres, Hh|done|done|exact Hin|by rewrite Hmf, Hxf, Hpres by set_solver|by rewrite Hmf|done|lia| |].
  2:{ apply HQt; [done..|]. intros e2 He2. assert (Z.lor (f * PAGE_SIZE) x = e2) as <-.
      { change (mm_mem _) with m' in He2. change (mm_mem _) with m' in He'. congruence. }
      by rewrite Hmf. }
  intros q [Hq Hall]. rewrite length_app in Hq. simpl in Hq.
  destruct q as [|k [|]]; simpl in Hq; try lia. apply Forall_app in Hall as [_ Hall].
  rewrite !Forall_cons in Hall. destruct Hall as (_ & Hk512 & _).
  apply (split_same _ _ a i e); rewrite ?Hmf by done; try done; [apply Hxf; set_solver..|].
  by apply (in_full _ _ _ _ _ _ _ Hin).
Qed.

(** Why a walk may stop: nothing is mapped there and nothing is to be created,
    or a table is needed and memory is exhausted. *)
Definition stopped (alloc : bool) (s : mmu) (q : list nat) : Prop :=
  (alloc = false ∧ xlate (mm_mem s) r ptop q = None) ∨
  (free_set (mm_pmm s) = ∅ ∧ down (mm_mem s) r ptop (take 3 q) = None).

Lemma cut_short s p a π i e q :
  (length p ≤ 2)%nat → down (mm_mem s) r ptop p = Some (a, π) → entry (mm_mem s) a i = Some e →
  flag e X86_PTE_PRESENT && negb (flag e X86_PTE_HUGE) = false →
  down (mm_mem s) r ptop (take 3 (p ++ i :: q)) = None.
Proof.
  intros Hl Hd He Hleaf. rewrite take_app_ge by lia.
  replace (3 - length p)%nat with (S (2 - length p)) by lia. cbn [take].
  rewrite down_app, Hd. simpl. by rewrite He, Hleaf.
Qed.

Lemma absent_stopped s p a π i e q alloc :
  on_path s p a π i → entry (mm_mem s) a i = Some e → flag e X86_PTE_PRESENT = false →
  alloc = false ∨ free_set (mm_pmm s) = ∅ → stopped alloc s (p ++ i :: q).
Proof.
  intros (Hl & _ & _ & _ & Hd) He Hp [->|Hf]; [left|right]; (split; [done|]).
  - rewrite (xlate_down _ _ _ p (i :: q) a π) by done. cbn [xlate]. by rewrite He, Hp.
  - eapply cut_short; [done..|]. by rewrite Hp.
Qed.

Lemma on_path_down s p a π i e :
  on_path s p a π i → entry (mm_mem s) a i = Some e → flag e X86_PTE_PRESENT = true →
  flag e X86_PTE_HUGE = false → down (mm_mem s) r ptop (p ++ [i]) = Some (addr_of e, pand π e).
Proof. intros (_ & _ & _ & _ & Hd) He Hp Hh. rewrite down_app, Hd. simpl. by rewrite He, Hp, Hh. Qed.

Lemma wp_next_level s p a π i q alloc (Q : option Z → mmu → Prop) :
  aspace s r → on_path s p a π i →
  (∀ s', keeps h r s s' → stopped alloc s' (p ++ i :: q) → Q None s') →
  (∀ s' b π', keeps h r s s' → down (mm_mem s') r ptop (p ++ [i]) = Some (b, π') → Q (Some b) s') →
  wp (next_level a (Z.of_nat i) alloc) Q s.
Proof.
  intros Hs Hon HQn HQs. unfold next_level. wp_step. apply (wp_ensure_small s p a π i); [done..| |].
  { intros e Hf He Hh. cbn [negb]. wp_step. apply HQn; [by apply keeps_refl|right]. split; [done|].
    destruct Hon as (Hl & _ & _ & _ & Hd). eapply cut_short; [done..|]. by rewrite Hh, andb_false_r. }
  intros s1 Hk1 Hon1 Hnh. cbn [negb]. wp_step. pose proof (ev_as _ _ _ _ _ Hk1) as Hs1.
  apply (wp_ensure_table s1 p a π i); [done..| |].
  { intros e He Hp Hf. cbn [negb]. wp_step. apply HQn; [done|]. by eapply absent_stopped. }
  intros s2 e Hk2 Hon2 He Hp Hh. cbn [negb]. wp_step. apply (wp_rd _ _ e); [by rewrite Nat2Z.id|lia|].
  wp_step. eapply HQs; [by eapply keeps_trans|by eapply on_path_down].
Qed.

Lemma idx_at_range sh v : 0 ≤ idx_at sh v < 512.
Proof.
  unfold idx_at. change 0x1FF with (Z.ones 9). rewrite Z.land_ones by lia.
  by apply (Z.mod_pos_bound _ 512).
Qed.

Lemma vpath_is_vpath v : is_vpath (vpath v).
Proof.
  split; [done|]. pose proof (idx_at_range 39 v). pose proof (idx_at_range 30 v).
  pose proof (idx_at_range 21 v). pose proof (idx_at_range 12 v).
  unfold vpath. simpl. rewrite !Forall_cons. split_and!; [lia..|constructor].
Qed.

(** The walk ends at the entry of the page, or stops for one of two reasons;
    translations are as before. *)
Lemma wp_walk_page s v alloc (Q : option (Z * Z) → mmu → Prop) :
  aspace s r → private (vpath v) → through h (vpath v) →
  (∀ s', keeps h r s s' → stopped alloc s' (vpath v) → Q None s') →
  (∀ s' a π, keeps h r s s' → down (mm_mem s') r ptop (take 3 (vpath v)) = Some (a, π) →
     Q (Some (a, idx_at 12 v)) s') →
  wp (walk_page r v alloc) Q s.
Proof.
  intros Hs Hv Hth HQn HQs. unfold walk_page, or_kernel.
  rewrite (proj2 (Z.eqb_neq r 0)) by apply (as_root s r Hs). wp_step. wp_step.
  assert (∀ sh, Z.of_nat (Z.to_nat (idx_at sh v)) = idx_at sh v ∧ (Z.to_nat (idx_at sh v) < 512)%nat) as Hidx.
  { intros sh. pose proof (idx_at_range sh v). lia. }
  change (vpath v) with [Z.to_nat (idx_at 39 v); Z.to_nat (idx_at 30 v); Z.to_nat (idx_at 21 v); Z.to_nat (idx_at 12 v)] in *.
  set (i1 := idx_at 12 v) in *.
  destruct (Hidx 39) as [H4 L4], (Hidx 30) as [H3 L3], (Hidx 21) as [H2 L2].
  set (i4 := Z.to_nat (idx_at 39 v)) in *. set (i3 := Z.to_nat (idx_at 30 v)) in *.
  set (i2 := Z.to_nat (idx_at 21 v)) in *. rewrite <-H4, <-H3, <-H2. clearbody i4 i3 i2. simpl in Hv, Hth.
  assert (on_path s [] r ptop i4) as Hon by (split; [simpl; lia|split; [done|split; [done|split; done]]]).
  wp_step. apply (wp_ensure_table s [] r ptop i4); [done..| | |].
  { intros e He. apply (as_huge s r Hs [] r ptop i4 e); [simpl; lia|done..]. }
  { intros e He Hp Hf. cbn [negb]. wp_step. apply HQn; [by apply keeps_refl|].
    by eapply (absent_stopped s [] r ptop i4). }
  intros s1 e Hk1 Hon1 He Hp Hh. pose proof (ev_as _ _ _ _ _ Hk1) as Hs1.
  cbn [negb]. wp_step. apply (wp_rd _ _ e); [by rewrite Nat2Z.id|lia|].
  pose proof (on_path_down _ _ _ _ _ _ Hon1 He Hp Hh) as Hd1. wp_step.
  eapply (wp_next_level s1 [i4] _ _ i3 [i2; Z.to_nat i1]); [done|split; [simpl; lia|split; [done|split; [done|split; done]]]| |].
  { intros s' Hk Hst. wp_step. apply HQn; [by eapply keeps_trans|done]. }
  intros s2 b2 π2 Hk2 Hd2. pose proof (ev_as _ _ _ _ _ Hk2) as Hs2. wp_step.
  eapply (wp_next_level s2 [i4; i3] _ _ i2 [Z.to_nat i1]); [done|split; [simpl; lia|split; [done|split; [done|split; done]]]| |].
  { intros s' Hk Hst. wp_step. apply HQn; [|done]. eapply keeps_trans; [done|by eapply keeps_trans]. }
  intros s3 b3 π3 Hk3 Hd3. wp_step. eapply HQs; [|done].
  eapply keeps_trans; [done|by eapply keeps_trans].
Qed.

(** ** Changing one page-table entry *)

Definition retarget (s : mmu) (q0 : list nat) (x : option xl) (q : list nat) : option xl :=
  if decide (q = q0) then x else xlate (mm_mem s) r ptop q.

Lemma evolves_cr3 s T s' c : evolves h r s T s' → evolves h r s T (set_cr3 c s').
Proof.
  intros [[[? ? ? ?] ? ? ? ? ?] ? ? ? ? ? ? ? ? ? ? ? ?]. by split.
Qed.

Section pte.
Context (s : mmu) (Hs : aspace s r) (p : list nat) (i : nat) (a : Z) (π : perm) (x : Z) (m' : gmap Z (list Z)).
Context (Hlen : length p = 3%nat) (Hp : private p) (Hth : through h p) (Hd : down (mm_mem s) r ptop p = Some (a, π)).
Context (Hm : ∀ b j, entry m' b j = if decide (b = a ∧ j = i) then Some x else entry (mm_mem s) b j).
Context (Hpages : ∀ b, is_page (mm_mem s) b → is_page m' b) (Hother : ∀ b, b ≠ a → m' !! b = mm_mem s !! b).

Lemma pte_table q b π1 : (length q ≤ 3)%nat → down (mm_mem s) r ptop q = Some (b, π1) → b = a → q = p.
Proof. intros Hq Hdq ->. symmetry. eapply (as_own s r Hs); [lia|lia|done..]. Qed.

Lemma pte_same_on q : (length q ≤ 4)%nat → q ≠ p ++ [i] → same_on (mm_mem s) m' r ptop q.
Proof.
  intros Hq Hne p1 j p2 c π1 -> Hd1. rewrite Hm. destruct (decide (c = a ∧ j = i)) as [[-> ->]|]; [|done].
  rewrite length_app in Hq. simpl in Hq.
  assert (p1 = p) as ->; [by eapply pte_table; [lia|..]|].
  destruct p2; [done|]. simpl in Hq. lia.
Qed.

Lemma pte_down q : (length q ≤ 3)%nat → down m' r ptop q = down (mm_mem s) r ptop q.
Proof.
  intros Hq. apply down_local, pte_same_on; [lia|]. intros ->. rewrite length_app in Hq. simpl in Hq. lia.
Qed.

Lemma pte_entry q b π1 j : (length q ≤ 2)%nat → down (mm_mem s) r ptop q = Some (b, π1) →
  entry m' b j = entry (mm_mem s) b j.
Proof.
  intros Hq Hdq. rewrite Hm. destruct (decide (b = a ∧ j = i)) as [[-> _]|]; [|done].
  assert (q = p) as -> by (by eapply pte_table; [lia|..]). lia.
Qed.

Lemma pte_aspace : aspace (set_mem m' s) r.
Proof.
  destruct Hs as [[Hw Hz Ht Hr] Hroot Htb Hown Hhg Hlg].
  split; simpl; [split; simpl; eauto|done|..].
  - intros q b π1 Hq. rewrite pte_down by done. intros Hdq. destruct (Htb q b π1 Hq Hdq). eauto.
  - intros q1 q2 b π1 π2 Hq1 Hq2. rewrite !pte_down by done. by apply Hown.
  - intros q b π1 j e Hq Hpq. rewrite pte_down by lia. intros Hdq. rewrite (pte_entry q b π1) by (done || lia). by eapply Hhg.
  - intros q b π1 j e Hq Hpq. rewrite pte_down by lia. intros Hdq. rewrite (pte_entry q b π1) by (done || lia). by eapply Hlg.
Qed.

Lemma pte_evolves :
  evolves h r s (retarget s (p ++ [i]) (if flag x X86_PTE_PRESENT then Some (leaf_small π x) else None)) (set_mem m' s).
Proof.
  assert (down m' r ptop p = Some (a, π)) as Hd' by (rewrite pte_down by lia; done).
  split; simpl; try done.
  - apply pte_aspace.
  - intros q [Hq _]. unfold retarget. destruct (decide (q = p ++ [i])) as [->|Hne].
    + rewrite (xlate_down _ _ _ p [i] a π) by done. cbn [xlate]. rewrite Hm, decide_True by done.
      by destruct (flag x X86_PTE_PRESENT).
    + apply xlate_local, pte_same_on; [lia|done].
  - intros q [Hq _]. destruct (decide (q = p ++ [i])) as [->|Hne].
    + by rewrite !(upper_down _ _ _ p [i] a π) by done.
    + apply upper_local, pte_same_on; [lia|done].
  - intros b Hb _. apply Hother. intros ->. apply Hb. exists p, π. split_and!; [lia|done..].
  - intros b (q & π1 & Hq & Hpq & Hdq). left. exists q, π1. by rewrite <-pte_down.
  - intros q Hq _. by apply pte_down.
  - intros q y Hq Hdq. by rewrite pte_down.
  - intros q b π1 j y Hq. rewrite pte_down by lia. intros Hdq. by rewrite (pte_entry q b π1) by (done || lia).
Qed.
End pte.

Lemma vpath_split v : vpath v = take 3 (vpath v) ++ [Z.to_nat (idx_at 12 v)].
Proof. done. Qed.

Lemma wp_pte s v a π x (Q : unit → mmu → Prop) :
  aspace s r → private (vpath v) → through h (vpath v) → down (mm_mem s) r ptop (take 3 (vpath v)) = Some (a, π) →
  (∀ s', evolves h r s (retarget s (vpath v) (if flag x X86_PTE_PRESENT then Some (leaf_small π x) else None)) s' → Q tt s') →
  wp (wr a (idx_at 12 v) x) Q s.
Proof.
  intros Hs Hv Hth Hd HQ. apply wp_wr; [by apply (as_table s r Hs (take 3 (vpath v)) a π)|apply idx_at_range|].
  intros m He Hn Hp. apply HQ. rewrite vpath_split.
  by apply (pte_evolves s Hs (take 3 (vpath v)) _ a π x m).
Qed.

(** What the entry found by the walk says about the translation. *)
Lemma leaf_entry s v a π :
  aspace s r → down (mm_mem s) r ptop (take 3 (vpath v)) = Some (a, π) →
  ∃ e, entry (mm_mem s) a (Z.to_nat (idx_at 12 v)) = Some e ∧ π = upper (mm_mem s) r ptop (vpath v) ∧
       translate s r v = if flag e X86_PTE_PRESENT then Some (leaf_small π e) else None.
Proof.
  intros Hs Hd. destruct (entry_page (mm_mem s) a (Z.to_nat (idx_at 12 v))) as [e He].
  { by apply (as_table s r Hs (take 3 (vpath v)) a π). }
  { pose proof (idx_at_range 12 v). lia. }
  exists e. split; [done|]. unfold translate.
  rewrite vpath_split, (xlate_down _ _ _ _ [_] a π), (upper_down _ _ _ _ [_] a π) by done.
  split; [done|]. cbn [xlate]. rewrite He. by destruct (flag e X86_PTE_PRESENT).
Qed.
End walk.

(** ** The abstract address space *)

(** A mapping of 4 KiB page [pa] with portable flags [flags], below levels that
    allow [π]; [wc] tells whether write-combining is to be had. *)
Definition mapping (wc : bool) (π : perm) (pa flags : Z) : xl :=
  let uncached := flag flags MMU_UNCACHED || (flag flags MMU_WC && negb wc) in
  Xl pa (Perm (p_w π && flag flags MMU_WRITE) (p_u π && flag flags MMU_USER) (p_nx π || flag flags MMU_NX))
    (flag flags MMU_WC && wc, uncached, uncached).

Inductive as_op :=
  | OMap (virt phys flags : Z)
  | OUnmap (virt : Z)
  | OProtect (virt flags : Z)
  | OQuery (virt : Z).

Definition op_virt (op : as_op) : Z :=
  match op with OMap v _ _ | OUnmap v | OProtect v _ | OQuery v => v end.
Definition op_small (op : as_op) : Prop :=
  match op with OMap _ _ f | OProtect _ f => flag f MMU_HUGE = false | _ => True end.

Definition run_op (root : Z) (op : as_op) : M mmu Z :=
  match op with
  | OMap v phys flags => mmu_map root v phys flags
  | OUnmap v => mmu_unmap root v
  | OProtect v flags => mmu_protect root v flags
  | OQuery v => mmu_virt_to_phys root v
  end.

(** An address space as a function from pages to mappings: what an operation
    returns and how it changes one page.  The second part is the result when
    no memory is left. *)
Definition a_result (op : as_op) (old : option xl) : Z :=
  match op, old with
  | OMap _ _ _, None => 0
  | OMap _ _ _, Some _ => -1
  | OUnmap _, Some _ | OProtect _ _, Some _ => 0
  | OUnmap _, None | OProtect _ _, None => -1
  | OQuery v, Some x => Z.lor (x_pa x) (Z.land v 0xFFF)
  | OQuery _, None => 0
  end.
Definition a_page (wc : bool) (π : perm) (op : as_op) (old : option xl) : option xl :=
  match op, old with
  | OMap _ phys flags, None => Some (mapping wc π (addr_of phys) flags)
  | OUnmap _, Some _ => None
  | OProtect _ flags, Some x => Some (mapping wc π (x_pa x) flags)
  | _, _ => old
  end.
Definition a_failed (op : as_op) : Z := match op with OQuery _ => 0 | _ => -1 end.

Definition wc_of (s : mmu) : bool := pat_available s || negb (pat_initialized s).
Definition root_of (s : mmu) (root : Z) : Z := if root =? 0 then kernel_root s else root.

(** [to_x86_flags] sets exactly the bits the portable flags stand for. *)
Lemma to_x86_flags_leaf ini avail π pa flags :
  flag flags MMU_HUGE = false →
  flag (Z.lor (addr_of pa) (to_x86_flags ini avail flags)) X86_PTE_PRESENT = true ∧
  leaf_small π (Z.lor (addr_of pa) (to_x86_flags ini avail flags)) =
  mapping (avail || negb ini) π (addr_of pa) flags.
Proof.
  intros Hh. destruct (addr_of_form pa) as (f & -> & Hf). unfold mapping, to_x86_flags. rewrite Hh.
  generalize (flag flags MMU_WRITE) (flag flags MMU_USER) (flag flags MMU_GLOBAL) (flag flags MMU_WC)
    (flag flags MMU_UNCACHED) (flag flags MMU_NX) (avail || negb ini).
  intros w u g c uc nx wc.
  match goal with |- flag (Z.lor _ ?y) _ = _ ∧ _ => set (x := y) end.
  destruct (make_entry f x Hf) as [Hma Hmf].
  - unfold x. destruct w, u, g, c, uc, nx, wc; vm_compute; reflexivity.
  - unfold leaf_small, pand. rewrite Hma, !Hmf by (vm_compute; reflexivity). generalize (f * PAGE_SIZE).
    intros pg. unfold x. destruct w, u, g, c, uc, nx, wc; vm_compute; by split.
Qed.


(** Where an operation leaves the address space. *)
Definition op_done (h : nat) (s : mmu) (r : Z) (op : as_op) (ret : Z) (s' : mmu) : Prop :=
  let q := vpath (op_virt op) in
  (ret = a_result op (translate s r (op_virt op)) ∧
   evolves h r s (retarget r s q (a_page (wc_of s) (upper (mm_mem s) r ptop q) op
                                    (translate s r (op_virt op)))) s') ∨
  (ret = a_failed op ∧ keeps h r s s' ∧ free_set (mm_pmm s') = ∅ ∧ down (mm_mem s) r ptop (take 3 q) = None).

Lemma evolves_ext h r s T T' s' : (∀ q, is_vpath q → T q = T' q) → evolves h r s T s' → evolves h r s T' s'.
Proof. intros HT [? Hx ? ? ? ? ? ? ? ? ? ? ?]. split; try done. intros q Hq. by rewrite Hx, HT. Qed.

Lemma retarget_same r s q x T :
  xlate (mm_mem s) r ptop q = x → (∀ q', is_vpath q' → T q' = xlate (mm_mem s) r ptop q') →
  ∀ q', is_vpath q' → T q' = retarget r s q x q'.
Proof. intros Hx HT q' Hq'. unfold retarget. rewrite HT by done. case_decide; naive_solver. Qed.

(** An operation that changes no page. *)
Lemma op_kept h s r op s' :
  keeps h r s s' →
  a_page (wc_of s) (upper (mm_mem s) r ptop (vpath (op_virt op))) op (translate s r (op_virt op)) =
    translate s r (op_virt op) →
  op_done h s r op (a_result op (translate s r (op_virt op))) s'.
Proof.
  intros Hk Hp. left. split; [done|]. rewrite Hp.
  eapply evolves_ext; [|exact Hk]. by apply retarget_same.
Qed.

(** A walk that stopped. *)
Lemma op_stopped h s r op s' alloc :
  keeps h r s s' → stopped r alloc s' (vpath (op_virt op)) →
  (alloc = true → ∃ v p f, op = OMap v p f) → (alloc = false → ∀ v p f, op ≠ OMap v p f) →
  op_done h s r op (a_failed op) s'.
Proof.
  intros Hk [[-> Hx]|[Hf Hd]] _ Hno.
  2:{ right. split_and!; [done..|]. destruct (down (mm_mem s) r ptop _) as [x|] eqn:Hx; [|done].
      apply (ev_mono _ _ _ _ _ Hk) in Hx; [congruence|]. rewrite length_take. lia. }
  rewrite (ev_xl _ _ _ _ _ Hk) in Hx by apply vpath_is_vpath.
  replace (a_failed op) with (a_result op (translate s r (op_virt op))).
  - apply op_kept; [done|]. unfold translate. rewrite Hx. destruct op; try done. by destruct (Hno eq_refl virt phys flags).
  - unfold translate. rewrite Hx. destruct op; try done. by destruct (Hno eq_refl virt phys flags).
Qed.

(** A page-table entry was written after the walk. *)
Lemma op_written h s r op s1 s2 x :
  keeps h r s s1 →
  evolves h r s1 (retarget r s1 (vpath (op_virt op)) x) s2 →
  x = a_page (wc_of s) (upper (mm_mem s) r ptop (vpath (op_virt op))) op (translate s r (op_virt op)) →
  op_done h s r op (a_result op (translate s r (op_virt op))) s2.
Proof.
  intros Hk He ->. left. split; [done|]. eapply evolves_ext; [|by eapply evolves_trans].
  intros q Hq. unfold retarget. case_decide; [done|]. by apply (ev_xl _ _ _ _ _ Hk).
Qed.

Lemma wp_flush_if_kernel r (Q : unit → mmu → Prop) s :
  Q tt s → (∀ c, Q tt (set_cr3 c s)) → wp (flush_if_kernel r) Q s.
Proof. intros H1 H2. unfold flush_if_kernel, flush_tlb. wp_steps; [apply H2|apply H1]. Qed.

(** The walk and the read of the entry it found. *)
Lemma wp_walk_leaf h r s v alloc (kn : M mmu Z) (ks : Z → Z → Z → M mmu Z) (Q : Z → mmu → Prop) :
  aspace s r → private (vpath v) → through h (vpath v) →
  (∀ s1, keeps h r s s1 → stopped r alloc s1 (vpath v) → wp kn Q s1) →
  (∀ s1 a e, let π := upper (mm_mem s) r ptop (vpath v) in
     keeps h r s s1 → down (mm_mem s1) r ptop (take 3 (vpath v)) = Some (a, π) →
     translate s r v = (if flag e X86_PTE_PRESENT then Some (leaf_small π e) else None) →
     wp (ks a (idx_at 12 v) e) Q s1) →
  wp (p ← walk_page r v alloc;
      match p with None => kn | Some (a, i) => e ← rd a i; ks a i e end) Q s.
Proof.
  intros Hs Hv Hth Hn Hks. wp_step. apply (wp_walk_page h r); [done..|].
  intros s1 a π Hk Hd. destruct (leaf_entry r s1 v a π) as (e & He & -> & Ht); [by apply (ev_as _ _ _ _ _ Hk)|done|].
  wp_step. apply (wp_rd _ _ e); [done|apply idx_at_range|].
  rewrite (ev_upper _ _ _ _ _ Hk) in Hd, Ht by apply vpath_is_vpath.
  apply Hks; [done..|]. rewrite <-Ht. unfold translate. symmetry. apply (ev_xl _ _ _ _ _ Hk), vpath_is_vpath.
Qed.

Lemma wp_or_kernel root (Q : Z → mmu → Prop) s : Q (root_of s root) s → wp (or_kernel root) Q s.
Proof. unfold or_kernel, root_of. by destruct (root =? 0). Qed.

Section operations.
Context (h : nat) (s : mmu) (root v : Z).
Context (Hs : aspace s (root_of s root)) (Hv : private (vpath v)) (Hth : through h (vpath v)).
Local Abbreviation r := (root_of s root).

(** Writing an entry and flushing if it is the kernel's. *)
Lemma wp_write_leaf s1 a x (f : M mmu unit) (op : as_op) (Q : Z → mmu → Prop) ret :
  op_virt op = v → keeps h r s s1 →
  down (mm_mem s1) r ptop (take 3 (vpath v)) = Some (a, upper (mm_mem s) r ptop (vpath v)) →
  (∀ (Q : unit → mmu → Prop) s2, Q tt s2 → (∀ c, Q tt (set_cr3 c s2)) → wp f Q s2) →
  ret = a_result op (translate s r v) →
  (if flag x X86_PTE_PRESENT then Some (leaf_small (upper (mm_mem s) r ptop (vpath v)) x) else None) =
    a_page (wc_of s) (upper (mm_mem s) r ptop (vpath v)) op (translate s r v) →
  (∀ ret s', op_done h s r op ret s' → Q ret s') →
  wp (wr a (idx_at 12 v) x ;; f ;; mret ret) Q s1.
Proof.
  intros Hop Hk Hd Hf -> Hx HQ. wp_step.
  apply (wp_pte h r s1 v a (upper (mm_mem s) r ptop (vpath v))); [apply (ev_as _ _ _ _ _ Hk)|done..|].
  intros s2 He. wp_step.
  assert (∀ s3, evolves h r s1 (retarget r s1 (vpath v)
    (if flag x X86_PTE_PRESENT then Some (leaf_small (upper (mm_mem s) r ptop (vpath v)) x) else None)) s3 →
    Q (a_result op (translate s r v)) s3) as HQ'.
  { intros s3 He3. apply HQ. subst v. by eapply op_written. }
  apply Hf; [|intros c]; wp_step; apply HQ'; [done|by apply evolves_cr3].
Qed.

Lemma wp_mmu_map phys flags (Q : Z → mmu → Prop) :
  flag flags MMU_HUGE = false →
  (∀ ret s', op_done h s r (OMap v phys flags) ret s' → Q ret s') → wp (mmu_map root v phys flags) Q s.
Proof.
  intros Hsm HQ. unfold mmu_map. wp_step. apply wp_or_kernel.
  apply (wp_walk_leaf h r); [done..| |].
  - intros s1 Hk Hst. wp_step. apply HQ. by eapply (op_stopped h s r (OMap v phys flags)); [| |naive_solver|].
  - intros s1 a e π Hk Hd Ht. destruct (flag e X86_PTE_PRESENT).
    + wp_step. apply HQ. replace (-1) with (a_result (OMap v phys flags) (translate s r v)) by (by rewrite Ht).
      apply op_kept; [done|]. simpl. by rewrite Ht.
    + unfold pte_flags. wp_step. wp_step. destruct (ev_pat _ _ _ _ _ Hk) as [-> ->].
      destruct (to_x86_flags_leaf (pat_initialized s) (pat_available s)
        (upper (mm_mem s) r ptop (vpath v)) phys flags Hsm) as [Hp Hl].
      apply (wp_write_leaf s1 a _ _ (OMap v phys flags)); [done..|apply wp_flush_if_kernel|by rewrite Ht| |done].
      rewrite Ht. cbn [a_page]. change (Z.land phys X86_PTE_ADDR_MASK) with (addr_of phys). by rewrite Hp, Hl.
Qed.

Lemma wp_mmu_unmap (Q : Z → mmu → Prop) :
  (∀ ret s', op_done h s r (OUnmap v) ret s' → Q ret s') → wp (mmu_unmap root v) Q s.
Proof.
  intros HQ. unfold mmu_unmap. wp_step. apply wp_or_kernel.
  apply (wp_walk_leaf h r); [done..| |].
  - intros s1 Hk Hst. wp_step. apply HQ. by eapply (op_stopped h s r (OUnmap v)).
  - intros s1 a e π Hk Hd Ht. destruct (flag e X86_PTE_PRESENT); cbn [negb].
    + apply (wp_write_leaf s1 a _ _ (OUnmap v)); [done..|apply wp_flush_if_kernel|by rewrite Ht|by rewrite Ht|done].
    + wp_step. apply HQ. replace (-1) with (a_result (OUnmap v) (translate s r v)) by (by rewrite Ht).
      apply op_kept; [done|]. simpl. by rewrite Ht.
Qed.

Lemma wp_mmu_protect flags (Q : Z → mmu → Prop) :
  flag flags MMU_HUGE = false →
  (∀ ret s', op_done h s r (OProtect v flags) ret s' → Q ret s') → wp (mmu_protect root v flags) Q s.
Proof.
  intros Hsm HQ. unfold mmu_protect. wp_step. apply wp_or_kernel.
  apply (wp_walk_leaf h r); [done..| |].
  - intros s1 Hk Hst. wp_step. apply HQ. by eapply (op_stopped h s r (OProtect v flags)).
  - intros s1 a e π Hk Hd Ht. destruct (flag e X86_PTE_PRESENT); cbn [negb].
    + unfold pte_flags. wp_step. wp_step. destruct (ev_pat _ _ _ _ _ Hk) as [-> ->].
      destruct (to_x86_flags_leaf (pat_initialized s) (pat_available s)
        (upper (mm_mem s) r ptop (vpath v)) e flags Hsm) as [Hp Hl].
      apply (wp_write_leaf s1 a _ _ (OProtect v flags)); [done..| |by rewrite Ht| |done].
      * intros Q' s2 _ Hc. unfold flush_tlb. wp_step. apply Hc.
      * rewrite Ht. cbn [a_page]. change (Z.land e X86_PTE_ADDR_MASK) with (addr_of e). by rewrite Hp, Hl.
    + wp_step. apply HQ. replace (-1) with (a_result (OProtect v flags) (translate s r v)) by (by rewrite Ht).
      apply op_kept; [done|]. simpl. by rewrite Ht.
Qed.

Lemma wp_mmu_virt_to_phys (Q : Z → mmu → Prop) :
  (∀ ret s', op_done h s r (OQuery v) ret s' → Q ret s') → wp (mmu_virt_to_phys root v) Q s.
Proof.
  intros HQ. unfold mmu_virt_to_phys. wp_step. apply wp_or_kernel.
  apply (wp_walk_leaf h r); [done..| |].
  - intros s1 Hk Hst. wp_step. apply HQ. by eapply (op_stopped h s r (OQuery v)).
  - intros s1 a e π Hk Hd Ht. assert (op_done h s r (OQuery v) (a_result (OQuery v) (translate s r v)) s1) as Hdone
      by (by apply op_kept).
    destruct (flag e X86_PTE_PRESENT); cbn [negb]; wp_step; apply HQ; by rewrite Ht in Hdone.
Qed.
End operations.

Lemma wp_run_op h s root op :
  aspace s (root_of s root) → private (vpath (op_virt op)) → through h (vpath (op_virt op)) → op_small op →
  wp (run_op root op) (op_done h s (root_of s root) op) s.
Proof.
  intros Hs Hv Hth Hsm. destruct op as [v p f|v|v f|v]; simpl in *.
  - by apply (wp_mmu_map h).
  - by apply (wp_mmu_unmap h).
  - by apply (wp_mmu_protect h).
  - by apply (wp_mmu_virt_to_phys h).
Qed.

(** ** Two address spaces *)

(** No table of [r2] is the root of [r1] or below its entry [h]. *)
Definition apart (h : nat) (m : gmap Z (list Z)) (r1 r2 : Z) : Prop :=
  ∀ q a π, (length q ≤ 3)%nat → down m r2 ptop q = Some (a, π) → ¬ owned h m r1 a.

Section other.
Context (h : nat) (r1 r2 : Z) (s s' : mmu) (T : list nat → option xl).
Context (H2 : aspace s r2) (Hap : apart h (mm_mem s) r1 r2) (Hev : evolves h r1 s T s').

Lemma other_mem q a π :
  (length q ≤ 3)%nat → down (mm_mem s) r2 ptop q = Some (a, π) → mm_mem s' !! a = mm_mem s !! a.
Proof.
  intros Hq Hd. apply (ev_mem _ _ _ _ _ Hev); [by eapply Hap|]. by apply (as_table s r2 H2 q a π).
Qed.

Lemma other_same_on q : (length q ≤ 4)%nat → same_on (mm_mem s) (mm_mem s') r2 ptop q.
Proof.
  intros Hq p1 j p2 c π1 -> Hd. rewrite length_app in Hq. simpl in Hq. unfold entry.
  by rewrite (other_mem p1 c π1) by (done || lia).
Qed.

Lemma other_down q : (length q ≤ 3)%nat → down (mm_mem s') r2 ptop q = down (mm_mem s) r2 ptop q.
Proof. intros Hq. apply down_local, other_same_on. lia. Qed.

Lemma other_aspace : aspace s' r2.
Proof.
  destruct H2 as [_ Hroot Htb Hown Hhg Hlg]. pose proof (ev_free _ _ _ _ _ Hev) as Hfree.
  split; [apply (as_ram s' r1 (ev_as _ _ _ _ _ Hev))|done|..].
  - intros q a π Hq. rewrite other_down by done. intros Hd. destruct (Htb q a π Hq Hd) as [Hpg Hn].
    unfold is_page in *. rewrite (other_mem q a π) by done. set_solver.
  - intros q1 q2 a π1 π2 Hq1 Hq2. rewrite !other_down by done. by apply Hown.
  - intros q a π i e Hq Hp. rewrite other_down by lia. intros Hd. unfold entry.
    rewrite (other_mem q a π) by (done || lia). by eapply Hhg.
  - intros q a π i e Hq Hp. rewrite other_down by lia. intros Hd. unfold entry.
    rewrite (other_mem q a π) by (done || lia). by eapply Hlg.
Qed.

Lemma other_apart : apart h (mm_mem s') r1 r2.
Proof.
  intros q a π Hq. rewrite other_down by done. intros Hd [Ho|Hf]%(ev_owned _ _ _ _ _ Hev).
  - by eapply Hap.
  - by apply (as_table s r2 H2 q a π).
Qed.
End other.

(** ** User pointers *)

(** The entry the processor takes the page from, 0 if there is none. *)
Fixpoint leaf_of (m : gmap Z (list Z)) (a : Z) (p : list nat) : Z :=
  match p with
  | [] => 0
  | i :: p' =>
    match entry m a i with
    | Some e =>
      if negb (flag e X86_PTE_PRESENT) then 0
      else match p' with
           | [] => e
           | _ => if flag e X86_PTE_HUGE then e else leaf_of m (addr_of e) p'
           end
    | None => 0
    end
  end.

(** Every table on path [p] allows user mode and writing. *)
Definition open_path (m : gmap Z (list Z)) (a : Z) (π : perm) (p : list nat) : Prop :=
  ∀ p1 j p2 b π1, p = p1 ++ j :: p2 → down m a π p1 = Some (b, π1) → p_u π1 = true ∧ p_w π1 = true.

Lemma leaf_xlate m a π p :
  open_path m a π p →
  match xlate m a π p with
  | Some x => flag (leaf_of m a p) X86_PTE_PRESENT = true ∧
              p_u (x_perm x) = flag (leaf_of m a p) X86_PTE_USER ∧
              p_w (x_perm x) = flag (leaf_of m a p) X86_PTE_WRITE
  | None => leaf_of m a p = 0
  end.
Proof.
  revert a π. induction p as [|i p IH]; intros a π Ho; [done|]. cbn [xlate leaf_of].
  destruct (Ho [] i p a π eq_refl eq_refl) as [Hu Hw].
  destruct (entry m a i) as [e|] eqn:He; [|done].
  destruct (flag e X86_PTE_PRESENT) eqn:Hp; [|done]. cbn [negb].
  destruct p as [|j p]; [simpl; by rewrite Hu, Hw, Hp|].
  destruct (flag e X86_PTE_HUGE) eqn:Hh; [simpl; by rewrite Hu, Hw, Hp|].
  apply IH. intros p1 k p2 b π1 Heq Hd. apply (Ho (i :: p1) k p2 b π1); [by rewrite Heq|].
  simpl. by rewrite He, Hp, Hh.
Qed.

Lemma wp_range_levels s r p0 shifts a π v (Q : Z → mmu → Prop) :
  aspace s r → down (mm_mem s) r ptop p0 = Some (a, π) → (length p0 + length shifts ≤ 4)%nat →
  Q (leaf_of (mm_mem s) a ((λ sh, Z.to_nat (idx_at sh v)) <$> shifts)) s →
  wp (range_levels shifts a v) Q s.
Proof.
  intros Hs. revert p0 a π. induction shifts as [|sh shifts IH]; intros p0 a π Hd Hl HQ; [done|].
  cbn [range_levels]. simpl in Hl. pose proof (idx_at_range sh v) as Hi.
  destruct (entry_page (mm_mem s) a (Z.to_nat (idx_at sh v))) as [e He]; [|lia|].
  { apply (as_table s r Hs p0 a π); [lia|done]. }
  wp_step. apply (wp_rd _ _ e); [done|lia|]. cbn [fmap list_fmap leaf_of] in HQ. rewrite He in HQ.
  destruct (flag e X86_PTE_PRESENT) eqn:Hp; cbn [negb] in *; [|by wp_step].
  destruct shifts as [|sh' shifts']; [by wp_step|]. rewrite bool_decide_eq_false_2 by done.
  cbn [orb fmap list_fmap] in *. destruct (flag e X86_PTE_HUGE) eqn:Hh; [by wp_step|].
  apply (IH (p0 ++ [Z.to_nat (idx_at sh v)]) _ (pand π e)).
  - rewrite down_app, Hd. simpl. by rewrite He, Hp, Hh.
  - rewrite length_app. simpl in *. lia.
  - done.
Qed.

(** User mode may access address [v] (for writing). *)
Definition user_ok (s : mmu) (r : Z) (write : bool) (v : Z) : bool :=
  match translate s r v with
  | Some x => p_u (x_perm x) && (negb write || p_w (x_perm x))
  | None => false
  end.

Lemma vpath_page v w : v / PAGE_SIZE = w / PAGE_SIZE → vpath v = vpath w.
Proof.
  intros Hvw. assert (∀ sh, 12 ≤ sh → idx_at sh v = idx_at sh w) as Hidx.
  { intros sh Hsh. unfold idx_at. f_equal. replace sh with (12 + (sh - 12)) by lia.
    rewrite <-!Z.shiftr_shiftr, !(Z.shiftr_div_pow2 _ 12) by lia. change (2 ^ 12) with PAGE_SIZE. by rewrite Hvw. }
  unfold vpath. by rewrite !Hidx by lia.
Qed.

Lemma user_ok_page s r write v w : v / PAGE_SIZE = w / PAGE_SIZE → user_ok s r write v = user_ok s r write w.
Proof. intros Hvw. unfold user_ok, translate. by rewrite (vpath_page v w). Qed.

(** The test of the leaf entry. *)
Definition leaf_ok (s : mmu) (r : Z) (write : bool) (v : Z) : bool :=
  let e := leaf_of (mm_mem s) r (vpath v) in
  negb (negb (flag e X86_PTE_PRESENT) || negb (flag e X86_PTE_USER)) && negb (write && negb (flag e X86_PTE_WRITE)).

Lemma leaf_ok_page s r write v w : v / PAGE_SIZE = w / PAGE_SIZE → leaf_ok s r write v = leaf_ok s r write w.
Proof. intros Hvw. unfold leaf_ok. by rewrite (vpath_page v w). Qed.

(** It is the hardware's. *)
Lemma user_ok_leaf s r write v : open_path (mm_mem s) r ptop (vpath v) → user_ok s r write v = leaf_ok s r write v.
Proof.
  intros Ho. pose proof (leaf_xlate (mm_mem s) r ptop (vpath v) Ho) as Hl. unfold leaf_ok. cbn zeta.
  unfold user_ok, translate. destruct (xlate (mm_mem s) r ptop (vpath v)) as [x|].
  - destruct Hl as (-> & -> & ->). by destruct (flag _ X86_PTE_USER), write, (flag _ X86_PTE_WRITE).
  - by rewrite Hl.
Qed.

(** The first address of the next page. *)
Definition next_page (v : Z) : Z := (v / PAGE_SIZE + 1) * PAGE_SIZE.

Lemma wp_check_page s r stop write v (Q : Z + Z → mmu → Prop) :
  aspace s r → 0 ≤ v < stop → stop < 2 ^ 64 →
  Q (if leaf_ok s r write v then inl (Z.min (next_page v) stop) else inr 0) s → wp (check_page r stop write v) Q s.
Proof.
  intros Hs Hv Hst HQ. unfold check_page. rewrite (proj2 (Z.ltb_lt _ _)) by lia.
  wp_step. eapply (wp_range_levels s r []); [done|done|simpl; lia|].
  change ((λ sh, Z.to_nat (idx_at sh v)) <$> [39; 30; 21; 12]) with (vpath v).
  unfold leaf_ok in HQ. cbn zeta in HQ. set (e := leaf_of (mm_mem s) r (vpath v)) in *. clearbody e.
  destruct (negb (flag e X86_PTE_PRESENT) || negb (flag e X86_PTE_USER)); [by wp_step|].
  destruct (write && negb (flag e X86_PTE_WRITE)); [by wp_step|].
  cbn zeta. wp_step. rewrite (u64_small (stop - v)) by (unfold is_u64; lia).
  match goal with |- Q (inl ?x) s => replace x with (Z.min (next_page v) stop); [exact HQ|] end.
  unfold next_page. change PAGE_SIZE with (2 ^ 12). rewrite land_ones_mod by lia.
  pose proof (Z.div_mod v (2 ^ 12)). pose proof (Z.mod_pos_bound v (2 ^ 12)).
  destruct (Z.ltb_spec (stop - v) (2 ^ 12 - v mod 2 ^ 12)); rewrite u64_small by (unfold is_u64; lia); lia.
Qed.

(** The pages of a range that are still to be checked. *)
Definition pages_left (stop cur : Z) : Z :=
  if cur <? stop then (stop - 1) / PAGE_SIZE - cur / PAGE_SIZE + 1 else 0.

Lemma pages_left_nonneg stop cur : 0 ≤ pages_left stop cur.
Proof.
  unfold pages_left. destruct (Z.ltb_spec cur stop); [|lia].
  assert (cur / PAGE_SIZE ≤ (stop - 1) / PAGE_SIZE); [|lia]. apply Z.div_le_mono; [done|lia].
Qed.

Lemma pages_left_next stop cur : cur < stop → pages_left stop (Z.min (next_page cur) stop) < pages_left stop cur.
Proof.
  intros Hlt. assert (cur / PAGE_SIZE ≤ (stop - 1) / PAGE_SIZE) by (apply Z.div_le_mono; [done|lia]).
  unfold pages_left. rewrite (proj2 (Z.ltb_lt cur stop)) by lia.
  destruct (Z.min_spec (next_page cur) stop) as [[Hm ->]|[Hm ->]].
  - rewrite (proj2 (Z.ltb_lt _ _)) by lia. unfold next_page. rewrite Z.div_mul by done. lia.
  - rewrite Z.ltb_irrefl. lia.
Qed.

Lemma wp_check_leaves s root virt len write :
  let r := root_of s root in
  aspace s r → 0 ≤ virt < 2 ^ 64 → 0 ≤ len < 2 ^ 64 →
  wp (mmu_check_user_range root virt len write)
    (λ b s', s' = s ∧ (b = 0 ∨ b = 1) ∧
       (b = 1 ↔ len = 0 ∨ virt + len < 2 ^ 64 ∧ ∀ v, virt ≤ v < virt + len → leaf_ok s r write v = true)) s.
Proof.
  intros r Hs Hv Hl. unfold mmu_check_user_range. wp_step. apply wp_or_kernel. fold r.
  destruct (Z.eqb_spec len 0) as [->|Hl0]; [wp_step; split_and!; [done|by right|split; [by left|done]]|].
  rewrite u64_small by (unfold is_u64; lia).
  destruct (Z.ltb_spec (2 ^ 64 - 1 - len) virt) as [Hover|Hin]; [wp_step; split_and!; [done|auto|lia]|].
  cbn zeta. rewrite u64_small by (unfold is_u64; lia).
  apply (wp_loop_fuel (λ cur s', s' = s ∧ virt ≤ cur ≤ virt + len ∧
      ∀ v, virt ≤ v < cur → leaf_ok s r write v = true) (pages_left (virt + len))).
  - split_and!; [done|lia|lia|]. intros v Hvv. lia.
  - unfold pages_left. change PAGE_SIZE with 4096. destruct (Z.ltb_spec virt (virt + len)); [|lia].
    Z.to_euclidean_division_equations. lia.
  - intros b s' _. apply pages_left_nonneg.
  - intros cur s' (-> & Hcur & Hok). destruct (Z.ltb_spec cur (virt + len)) as [Hlt|Hge].
    2:{ unfold check_page. rewrite (proj2 (Z.ltb_ge _ _)) by lia. wp_step. split_and!; [done|auto|].
        split; [|done]. intros _. right. split; [lia|]. intros v Hvv. apply Hok. lia. }
    apply wp_check_page; [done|lia|lia|]. destruct (leaf_ok s r write cur) eqn:Hgood.
    + split; [|by apply pages_left_next]. split_and!; [done| |lia|].
      { unfold next_page. pose proof (Z.div_mod cur PAGE_SIZE). pose proof (Z.mod_pos_bound cur PAGE_SIZE). unfold PAGE_SIZE in *. lia. }
      intros v Hvv. destruct (Z.lt_ge_cases v cur); [apply Hok; lia|]. rewrite <-Hgood. apply leaf_ok_page.
      unfold next_page in Hvv. change PAGE_SIZE with 4096 in *. Z.to_euclidean_division_equations. lia.
    + split_and!; [done|auto|]. split; [done|]. intros [?|[_ Hall]]; [done|]. rewrite Hall in Hgood by lia. done.
Qed.

(** ** A new user address space *)

(** What entry [e] of the kernel root becomes in a new root. *)
Definition shared_entry (e : Z) : Z :=
  if flag e X86_PTE_PRESENT && negb (flag e X86_PTE_USER) then e else 0.

(** A root [d] in a fresh page whose entries are those of [k] that are shared. *)
Record copied_root (s : mmu) (k d : Z) (s' : mmu) : Prop := CopiedRoot {
  cr_took : took s (frame_of d) s';
  cr_fresh : ∃ f, d = f * PAGE_SIZE ∧ 0 < f ∧ f ∈ free_set (mm_pmm s);
  cr_entry : ∀ j, (j < 512)%nat → entry (mm_mem s') d j = shared_entry <$> entry (mm_mem s) k j;
  cr_page : is_page (mm_mem s') d;
  cr_other : ∀ b, b ≠ d → mm_mem s' !! b = mm_mem s !! b }.

(** The loop that copies the shared entries, after [i] rounds. *)
Definition copying (s0 : mmu) (k d i : Z) (s' : mmu) : Prop :=
  ∃ m, s' = set_mem m s0 ∧ (∀ b, b ≠ d → m !! b = mm_mem s0 !! b) ∧ is_page m d ∧
  ∀ j, (j < 512)%nat → entry m d j = if (Z.of_nat j <? i) then shared_entry <$> entry (mm_mem s0) k j else Some 0.

Lemma copying_skip s0 k d i e s' :
  0 ≤ i → copying s0 k d i s' → entry (mm_mem s0) k (Z.to_nat i) = Some e → shared_entry e = 0 →
  copying s0 k d (i + 1) s'.
Proof.
  intros Hi (m & -> & Hn & Hpg & He) Hke Hsh. exists m. split_and!; [done..|]. intros j Hj. rewrite He by done.
  destruct (Z.ltb_spec (Z.of_nat j) i), (Z.ltb_spec (Z.of_nat j) (i + 1)); try done; try lia.
  replace j with (Z.to_nat i) by lia. rewrite Hke. simpl. by rewrite Hsh.
Qed.

Lemma wp_copying s0 k d i e s' (Q : unit → mmu → Prop) :
  0 ≤ i < 512 → copying s0 k d i s' → entry (mm_mem s0) k (Z.to_nat i) = Some e →
  (∀ s'', copying s0 k d (i + 1) s'' → Q tt s'') → wp (wr d i (shared_entry e)) Q s'.
Proof.
  intros Hi (m & -> & Hn & Hpg & He) Hke HQ. apply wp_wr; [done|lia|]. simpl. intros m' He' Hn' Hp'.
  apply HQ. exists m'.
  split_and!; [done|intros b Hb; by rewrite Hn', Hn|by apply Hp'|]. intros j Hj. rewrite He'.
  destruct (decide (j = Z.to_nat i)) as [->|Hne].
  - rewrite decide_True by done. by rewrite (proj2 (Z.ltb_lt _ _)), Hke by lia.
  - rewrite decide_False, He by naive_solver.
    destruct (Z.ltb_spec (Z.of_nat j) i), (Z.ltb_spec (Z.of_nat j) (i + 1)); done || lia.
Qed.

Lemma wp_new_user_root s (Q : option Z → mmu → Prop) :
  ram_ok s → is_page (mm_mem s) (kernel_root s) → frame_of (kernel_root s) ∉ free_set (mm_pmm s) →
  (free_set (mm_pmm s) = ∅ → Q None s) →
  (∀ d s', copied_root s (kernel_root s) d s' → Q (Some d) s') →
  wp mmu_new_user_root Q s.
Proof.
  intros Hs Hk Hkf HQn HQs. unfold mmu_new_user_root. wp_step. wp_step. cbn [clone_level]. wp_step.
  apply wp_alloc_page; [done|intros Hf; rewrite Z.eqb_refl; wp_step; by apply HQn|].
  intros f pm Hf Hf40 Hw Htot Hfree. rewrite (proj2 (Z.eqb_neq _ _)) by (unfold PAGE_SIZE; lia).
  set (d := f * PAGE_SIZE). set (k := kernel_root s) in *.
  assert (k ≠ d) as Hkd by (intros Heq; apply Hkf; rewrite Heq; unfold d; by rewrite frame_of_mul).
  wp_step. apply (wp_fill d (λ _, 0)); [by apply (ro_ram s Hs)|]. intros m0 Ho0 Hz0 Hn0 Hp0. wp_step.
  apply (wp_for_ret (copying (set_pmm pm s) k d)).
  - exists m0. split_and!; [done|done|by apply Hp0, (ro_ram s Hs)|]. intros j Hj.
    destruct (Z.ltb_spec (Z.of_nat j) 0); [lia|]. by apply Hz0.
  - intros i s' Hi Hc. cbn [negb].
    destruct (entry_page (mm_mem s) k (Z.to_nat i) Hk) as [e Hke]; [lia|].
    wp_step. apply (wp_rd _ _ e); [|lia|].
    { destruct Hc as (m & -> & Hn & _). simpl. unfold entry. by rewrite Hn. }
    pose proof (λ Q, wp_copying _ k d i e s' Q Hi Hc Hke) as Hwr. unfold shared_entry in Hwr.
    destruct (flag e X86_PTE_PRESENT) eqn:Hpres; cbn [negb andb] in *.
    + destruct (flag e X86_PTE_USER); cbn [negb] in *; (wp_step; apply Hwr; intros s'' Hs''; by wp_step).
    + wp_step. apply (copying_skip _ k d i e); [lia|done|done|]. unfold shared_entry. by rewrite Hpres.
  - intros s' (m & -> & Hn & Hpg & He). wp_step. apply HQs. split; try done.
    + unfold took, d. by rewrite frame_of_mul.
    + exists f. split_and!; [done|lia|done].
    + intros j Hj. simpl. rewrite He by done. by rewrite (proj2 (Z.ltb_lt _ _)) by lia.
Qed.

Section new_root.
Context (s : mmu) (k d : Z) (s' : mmu) (Hs : aspace s k) (Hc : copied_root s k d s').

Lemma fresh_root r q a π : aspace s r → (length q ≤ 3)%nat → down (mm_mem s) r ptop q = Some (a, π) → a ≠ d.
Proof.
  intros Hr Hq Hd ->. destruct (cr_fresh _ _ _ _ Hc) as (f & -> & _ & Hf).
  apply (as_table s r Hr q _ π Hq Hd). by rewrite frame_of_mul.
Qed.

(** Existing address spaces do not change. *)
Lemma old_same_on r q : aspace s r → (length q ≤ 4)%nat → same_on (mm_mem s) (mm_mem s') r ptop q.
Proof.
  intros Hr Hq p1 j p2 c π1 -> Hd. rewrite length_app in Hq. simpl in Hq. unfold entry.
  rewrite (cr_other _ _ _ _ Hc); [done|]. eapply (fresh_root r); [done| |done]. lia.
Qed.

Lemma old_down r q : aspace s r → (length q ≤ 3)%nat → down (mm_mem s') r ptop q = down (mm_mem s) r ptop q.
Proof. intros Hr Hq. apply down_local, old_same_on; [done|lia]. Qed.

Lemma new_ram : ram_ok s'.
Proof.
  destruct (as_ram s k Hs) as [_ Hz Ht Hr], (cr_took _ _ _ _ Hc) as (Hw & Htot & Hfree & _).
  split; [done|set_solver|lia|]. intros g Hg. rewrite Hfree in Hg.
  destruct (Hr g ltac:(set_solver)) as (l & Hl & Hlen). exists l. split; [|done].
  rewrite (cr_other _ _ _ _ Hc); [done|]. intros <-. rewrite frame_of_mul in Hg. set_solver.
Qed.

Lemma new_table r q a π :
  aspace s r → (length q ≤ 3)%nat → down (mm_mem s) r ptop q = Some (a, π) →
  is_page (mm_mem s') a ∧ frame_of a ∉ free_set (mm_pmm s').
Proof.
  intros Hr Hq Hd. destruct (as_table s r Hr q a π Hq Hd) as [Hpg Hn].
  destruct (cr_took _ _ _ _ Hc) as (_ & _ & Hfree & _). unfold is_page in *.
  rewrite (cr_other _ _ _ _ Hc) by (by eapply (fresh_root r)). set_solver.
Qed.

Lemma old_aspace r : aspace s r → aspace s' r.
Proof.
  intros Hr. pose proof Hr as [_ Hroot _ Hown Hhg Hlg].
  assert (∀ q a π i, (length q ≤ 3)%nat → down (mm_mem s) r ptop q = Some (a, π) →
    entry (mm_mem s') a i = entry (mm_mem s) a i) as Hent.
  { intros q a π i Hq Hd. unfold entry. by rewrite (cr_other _ _ _ _ Hc) by (by eapply (fresh_root r)). }
  split; [apply new_ram|done|..].
  - intros q a π Hq. rewrite (old_down r) by done. by apply (new_table r).
  - intros q1 q2 a π1 π2 Hq1 Hq2. rewrite !(old_down r) by done. by apply Hown.
  - intros q a π i e Hq Hp. rewrite (old_down r) by (done || lia). intros Hd.
    rewrite (Hent q a π) by (done || lia). by eapply Hhg.
  - intros q a π i e Hq Hp. rewrite (old_down r) by (done || lia). intros Hd.
    rewrite (Hent q a π) by (done || lia). by eapply Hlg.
Qed.

(** The root entry of the new space. *)
Lemma new_root_entry i x :
  entry (mm_mem s') d i = Some x → ∃ e, entry (mm_mem s) k i = Some e ∧ x = shared_entry e.
Proof.
  intros Hx. assert (i < 512)%nat as Hi.
  { destruct (cr_page _ _ _ _ Hc) as (l & Hl & Hlen). unfold entry in Hx. rewrite Hl in Hx.
    apply lookup_lt_Some in Hx. lia. }
  rewrite (cr_entry _ _ _ _ Hc) in Hx by done. apply fmap_Some in Hx as (e & He & ->). eauto.
Qed.

(** Below a shared entry the new space is the kernel's. *)
Lemma new_down i q a π :
  (length q ≤ 2)%nat → down (mm_mem s') d ptop (i :: q) = Some (a, π) → down (mm_mem s) k ptop (i :: q) = Some (a, π).
Proof.
  intros Hq Hd. rewrite <-(old_down k) by (done || simpl; lia). simpl in *.
  destruct (entry (mm_mem s') d i) as [x|] eqn:Hx; [|done].
  destruct (new_root_entry i x Hx) as (e & He & ->). unfold shared_entry in *.
  assert (k ≠ d) as Hkd by (apply (fresh_root k [] k ptop); [done|simpl; lia|done]).
  assert (entry (mm_mem s') k i = Some e) as -> by (unfold entry; by rewrite (cr_other _ _ _ _ Hc)).
  revert Hd. destruct (flag e X86_PTE_PRESENT) eqn:Hp, (flag e X86_PTE_USER) eqn:Hu; try done; simpl.
  by rewrite Hp.
Qed.

Lemma new_aspace : aspace s' d.
Proof.
  pose proof Hs as [_ _ _ Hown Hhg Hlg].
  assert (∀ q a π i, (length q ≤ 3)%nat → down (mm_mem s) k ptop q = Some (a, π) →
    entry (mm_mem s') a i = entry (mm_mem s) a i) as Hent.
  { intros q a π i Hq Hd. unfold entry. by rewrite (cr_other _ _ _ _ Hc) by (by eapply (fresh_root k)). }
  assert (∀ q a π, (length q ≤ 3)%nat → down (mm_mem s') d ptop q = Some (a, π) →
    (q = [] ∧ a = d) ∨ (down (mm_mem s) k ptop q = Some (a, π) ∧ a ≠ d)) as Hinv.
  { intros [|i q] a π Hq Hd; [left; by simplify_eq/=|right]. simpl in Hq.
    apply new_down in Hd; [|lia]. split; [done|].
    apply (fresh_root k (i :: q) a π); [done|simpl; lia|done]. }
  destruct (cr_fresh _ _ _ _ Hc) as (f & Hdf & Hf0 & Hf), (cr_took _ _ _ _ Hc) as (_ & _ & Hfree & _).
  split; [apply new_ram|..].
  - rewrite Hdf. split; [unfold PAGE_SIZE; lia|by apply Z.mod_mul].
  - intros q a π Hq Hd. destruct (Hinv q a π Hq Hd) as [[-> ->]|[Hd' _]].
    + split; [apply (cr_page _ _ _ _ Hc)|]. rewrite Hfree. set_solver.
    + by apply (new_table k q a π).
  - intros p q a π1 π2 Hp Hq Hpriv Hd1 Hd2.
    destruct (Hinv p a π1 Hp Hd1) as [[-> ->]|[Hd1' Ha1]], (Hinv q _ π2 Hq Hd2) as [[-> ?]|[Hd2' Ha2]]; try done.
    by eapply Hown.
  - intros q a π i e Hq Hp Hd He. destruct (Hinv q a π ltac:(lia) Hd) as [[-> ->]|[Hd' _]].
    + destruct (new_root_entry i e He) as (e0 & He0 & ->).
      pose proof (Hhg [] k ptop i e0 ltac:(simpl; lia) Hp eq_refl He0) as Hh.
      unfold shared_entry. by destruct (_ && _).
    + rewrite (Hent q a π) in He by (done || lia). by eapply Hhg.
  - intros q a π i e Hq Hp Hd He. destruct (Hinv q a π ltac:(lia) Hd) as [[-> ->]|[Hd' _]]; [done|].
    rewrite (Hent q a π) in He by (done || lia). by eapply Hlg.
Qed.

(** The root entries of the kernel that user mode may not use are shared. *)
Definition kernel_entry (m : gmap Z (list Z)) (r : Z) (q : list nat) : bool :=
  match q with
  | i :: _ => match entry m r i with
              | Some e => flag e X86_PTE_PRESENT && negb (flag e X86_PTE_USER)
              | None => false
              end
  | [] => false
  end.

Lemma new_translate v :
  translate s' d v = if kernel_entry (mm_mem s) k (vpath v) then translate s k v else None.
Proof.
  destruct (vpath_is_vpath v) as [Hlen Hall]. unfold translate.
  rewrite <-(xlate_local (mm_mem s) (mm_mem s') k ptop (vpath v)) by (apply (old_same_on k); [done|lia]).
  destruct (vpath v) as [|i q]; [done|]. rewrite Forall_cons in Hall. destruct Hall as [Hi _].
  cbn [xlate kernel_entry]. rewrite (cr_entry _ _ _ _ Hc) by done.
  destruct (entry_page (mm_mem s) k i) as [e He]; [by apply (as_table s k Hs [] k ptop); [simpl; lia|]|done|].
  assert (k ≠ d) as Hkd by (apply (fresh_root k [] k ptop); [done|simpl; lia|done]).
  assert (entry (mm_mem s') k i = Some e) as -> by (unfold entry; by rewrite (cr_other _ _ _ _ Hc)).
  rewrite He. simpl. unfold shared_entry.
  destruct (flag e X86_PTE_PRESENT) eqn:Hp, (flag e X86_PTE_USER) eqn:Hu; try done. simpl. by rewrite Hp.
Qed.

(** A slot the new space does not share is its own. *)
Lemma new_apart h r : kernel_entry (mm_mem s) k [h] = false → aspace s r → apart h (mm_mem s') d r.
Proof.
  intros Hh Hr q a π Hq. rewrite (old_down r) by done. intros Hd ([|i p] & π1 & Hp & Hth & Hdp).
  - assert (a = d) by (simpl in Hdp; congruence). by apply (fresh_root r q a π).
  - simpl in Hth. subst i. cbn [down] in Hdp.
    destruct (entry (mm_mem s') d h) as [x|] eqn:Hx; [|done].
    destruct (new_root_entry h x Hx) as (e & He & ->). cbn [kernel_entry] in Hh. rewrite He in Hh.
    unfold shared_entry in Hdp. by rewrite Hh in Hdp.
Qed.
End new_root.

(** ** Ranges of the kernel window *)

Lemma vpath_page_no v : page_no (vpath v) = v / PAGE_SIZE mod 2 ^ 36.
Proof.
  unfold page_no, vpath. cbn [fmap list_fmap foldl]. rewrite !Z2Nat.id by apply idx_at_range.
  assert (∀ k, 0 ≤ k → idx_at (12 + 9 * k) v = v / PAGE_SIZE / 512 ^ k mod 512) as Hidx.
  { intros k Hk. unfold idx_at. change 0x1FF with (Z.ones 9). rewrite Z.land_ones, Z.shiftr_div_pow2 by lia.
    rewrite Z.pow_add_r, Z.pow_mul_r by lia. change (2 ^ 9) with 512. change (2 ^ 12) with PAGE_SIZE.
    rewrite Z.div_div; [done|done|]. apply Z.pow_pos_nonneg; lia. }
  change 39 with (12 + 9 * 3). change 30 with (12 + 9 * 2). change 21 with (12 + 9 * 1).
  change (idx_at 12 v) with (idx_at (12 + 9 * 0) v). rewrite !Hidx by lia.
  generalize (v / PAGE_SIZE). intros n. clear. change (2 ^ 36) with (512 * 512 * 512 * 512).
  change (512 ^ 3) with (512 * 512 * 512). change (512 ^ 2) with (512 * 512).
  change (512 ^ 1) with 512. change (512 ^ 0) with 1.
  rewrite <-!Z.div_div by done. rewrite !Z.rem_mul_r by done. rewrite <-!Z.div_div by done.
  rewrite Z.div_1_r. lia.
Qed.

Lemma vpath_inj v w :
  vpath v = vpath w → v / PAGE_SIZE mod 2 ^ 36 = w / PAGE_SIZE mod 2 ^ 36.
Proof. intros Heq. by rewrite <-!vpath_page_no, Heq. Qed.

(** The window [vmm_mmap_phys] hands out, up to the end of root entry 508. *)
Definition window : Z := 0xFFFFFE0000000000.
Definition window_page (n : Z) : Z := window + n * PAGE_SIZE.

Lemma window_vpath n : 0 ≤ n < 2 ^ 27 → head (vpath (window_page n)) = Some 508%nat.
Proof.
  intros Hn. unfold vpath, window_page. cbn [fmap list_fmap head]. do 2 f_equal.
  unfold idx_at. change 0x1FF with (Z.ones 9). rewrite Z.land_ones, Z.shiftr_div_pow2 by lia.
  replace (window + n * PAGE_SIZE) with (n * PAGE_SIZE + 33554428 * 2 ^ 39) by (unfold window; lia).
  rewrite Z.div_add by done. rewrite (Z.div_small (n * PAGE_SIZE)) by (unfold PAGE_SIZE; lia). done.
Qed.

Lemma window_private n : 0 ≤ n < 2 ^ 27 → private (vpath (window_page n)) ∧ through 508 (vpath (window_page n)).
Proof. intros Hn. apply window_vpath in Hn. destruct (vpath _) as [|i q]; [done|]. by simplify_eq/=. Qed.

Lemma window_inj n k :
  0 ≤ n < 2 ^ 27 → 0 ≤ k < 2 ^ 27 → vpath (window_page n) = vpath (window_page k) → n = k.
Proof.
  intros Hn Hk Heq%vpath_inj. unfold window_page in Heq.
  change window with (4503599090499584 * PAGE_SIZE) in Heq. rewrite <-!Z.mul_add_distr_r, !Z.div_mul in Heq by done.
  rewrite !(Z.add_comm 4503599090499584) in Heq.
  change 4503599090499584 with (68182605824 + 65535 * 2 ^ 36) in Heq. rewrite !Z.add_assoc, !Z.mod_add in Heq by done.
  rewrite !Z.mod_small in Heq by lia. lia.
Qed.

Lemma for_ret_S {St R} n i (body : Z → M St (option R)) :
  for_ret (S n) i body =
  (r ← body i; match r with Some v => mret (Some v) | None => for_ret n (i + 1) body end).
Proof. done. Qed.

Section map_range.
Context (s : mmu) (n0 f0 flags : Z).
Local Abbreviation k := (kernel_root s).

(** The translations after the first [i] pages of a range are mapped. *)
Fixpoint mapped (i : nat) (q : list nat) : option xl :=
  match i with
  | O => xlate (mm_mem s) k ptop q
  | S i' =>
    if decide (q = vpath (window_page (n0 + Z.of_nat i')))
    then Some (mapping (wc_of s) (upper (mm_mem s) k ptop q) ((f0 + Z.of_nat i') * PAGE_SIZE) flags)
    else mapped i' q
  end.

Lemma mapped_out i q :
  (∀ j, 0 ≤ j < Z.of_nat i → q ≠ vpath (window_page (n0 + j))) → mapped i q = xlate (mm_mem s) k ptop q.
Proof.
  induction i as [|i IH]; intros Hq; [done|]. cbn [mapped]. rewrite decide_False by (apply Hq; lia).
  apply IH. intros j Hj. apply Hq. lia.
Qed.

Lemma mapped_in i j :
  0 ≤ n0 → n0 + Z.of_nat i ≤ 2 ^ 27 → 0 ≤ j < Z.of_nat i →
  let q := vpath (window_page (n0 + j)) in
  mapped i q = Some (mapping (wc_of s) (upper (mm_mem s) k ptop q) ((f0 + j) * PAGE_SIZE) flags).
Proof.
  intros Hn Hi Hj. cbn zeta. induction i as [|i IH]; [lia|]. cbn [mapped].
  destruct (decide (vpath (window_page (n0 + j)) = vpath (window_page (n0 + Z.of_nat i)))) as [Heq|Hne].
  - apply window_inj in Heq; [|lia..]. by replace j with (Z.of_nat i) by lia.
  - apply IH; [lia|]. assert (j ≠ Z.of_nat i) by (intros ->; done). lia.
Qed.

Lemma mapped_succ i s1 s2 :
  evolves 508 k s (mapped i) s1 →
  evolves 508 k s1 (retarget k s1 (vpath (window_page (n0 + Z.of_nat i)))
    (Some (mapping (wc_of s1) (upper (mm_mem s1) k ptop (vpath (window_page (n0 + Z.of_nat i))))
             ((f0 + Z.of_nat i) * PAGE_SIZE) flags))) s2 →
  evolves 508 k s (mapped (S i)) s2.
Proof.
  intros H1 H2. eapply evolves_ext; [|by eapply evolves_trans].
  intros q Hq. unfold retarget. cbn [mapped]. case_decide as Heq; [|by apply (ev_xl _ _ _ _ _ H1)]. subst q.
  rewrite (ev_upper _ _ _ _ _ H1) by done. unfold wc_of. by destruct (ev_pat _ _ _ _ _ H1) as [-> ->].
Qed.

Context (Hs : aspace s k) (Hflags : flag flags MMU_HUGE = false).

(** One call of [vmm_map_page] in the window. *)
Lemma wp_map_next i s1 (Q : Z → mmu → Prop) :
  evolves 508 k s (mapped i) s1 → 0 ≤ n0 → n0 + Z.of_nat i < 2 ^ 27 → 0 ≤ f0 → f0 + Z.of_nat i < 2 ^ 40 →
  translate s k (window_page (n0 + Z.of_nat i)) = None →
  (∀ s2, evolves 508 k s (mapped (S i)) s2 → Q 0 s2) →
  (∀ s2, evolves 508 k s (mapped i) s2 → free_set (mm_pmm s2) = ∅ → Q (-1) s2) →
  wp (vmm_map_page (window_page (n0 + Z.of_nat i)) ((f0 + Z.of_nat i) * PAGE_SIZE) flags) Q s1.
Proof.
  intros H1 Hn Hni Hf Hfi Hnone HQ0 HQ1. set (v := window_page (n0 + Z.of_nat i)) in *.
  destruct (window_private (n0 + Z.of_nat i)) as [Hpriv Hth]; [lia|].
  assert (root_of s1 0 = k) as Hroot by apply (ev_kernel _ _ _ _ _ H1).
  unfold vmm_map_page. apply (wp_mmu_map 508); [rewrite Hroot; apply (ev_as _ _ _ _ _ H1)|done..|].
  rewrite Hroot. intros ret s2 Hdone.
  assert (translate s1 k v = None) as Ht.
  { unfold translate. rewrite (ev_xl _ _ _ _ _ H1) by apply vpath_is_vpath.
    rewrite mapped_out; [done|]. intros j Hj Heq%window_inj; lia. }
  destruct Hdone as [[-> He]|(-> & Hk & Hfree & _)]; cbn [op_virt] in *.
  - rewrite Ht in *. cbn [a_result a_page] in *. apply HQ0. eapply mapped_succ; [exact H1|].
    rewrite addr_of_page in He by lia. exact He.
  - apply HQ1; [|done]. eapply evolves_ext; [|by eapply evolves_trans].
    intros q Hq. by apply (ev_xl _ _ _ _ _ H1).
Qed.

Lemma wp_map_range pages :
  0 ≤ pages → 0 ≤ n0 → n0 + pages ≤ 2 ^ 27 → 0 ≤ f0 → f0 + pages ≤ 2 ^ 40 →
  (∀ j, 0 ≤ j < pages → translate s k (window_page (n0 + j)) = None) →
  wp (vmm_map_range (window_page n0) (f0 * PAGE_SIZE) pages flags)
    (λ ret s', (ret = 0 ∧ evolves 508 k s (mapped (Z.to_nat pages)) s') ∨
               (ret = -1 ∧ free_set (mm_pmm s') = ∅ ∧
                ∃ i, Z.of_nat i < pages ∧ evolves 508 k s (mapped i) s')) s.
Proof.
  intros Hp Hn Hnp Hf Hfp Hnone. unfold vmm_map_range. wp_step.
  apply (wp_for_ret (λ i s', 0 ≤ i ∧ evolves 508 k s (mapped (Z.to_nat i)) s')).
  - split; [lia|]. by apply keeps_refl.
  - intros i s1 Hi [_ H1]. rewrite Z2Nat.id in Hi by lia.
    replace (u64 (window_page n0 + i * PAGE_SIZE)) with (window_page (n0 + Z.of_nat (Z.to_nat i))).
    2:{ rewrite Z2Nat.id by lia. unfold window_page. rewrite u64_small; [lia|].
        unfold is_u64, window, PAGE_SIZE. lia. }
    replace (u64 (f0 * PAGE_SIZE + i * PAGE_SIZE)) with ((f0 + Z.of_nat (Z.to_nat i)) * PAGE_SIZE).
    2:{ rewrite Z2Nat.id by lia. rewrite u64_small; [lia|]. unfold is_u64, PAGE_SIZE. lia. }
    wp_step. apply (wp_map_next (Z.to_nat i) s1); rewrite ?Z2Nat.id; try lia; [done|apply Hnone; lia|..].
    + intros s2 H2. wp_step. split; [lia|]. by replace (Z.to_nat (i + 1)) with (S (Z.to_nat i)) by lia.
    + intros s2 H2 Hfree. wp_step. change (-1 <? 0) with true. cbn iota. wp_step. right. split_and!; [done..|].
      exists (Z.to_nat i). split; [lia|done].
  - intros s' [_ H']. rewrite Z2Nat.id, Z.add_0_l in H' by lia. wp_step. by left.
Qed.
End map_range.

(** A range of the window is mapped, or frames run out after [i] pages. *)
Lemma wp_mmap_phys s n f pages flags (Q : Z → mmu → Prop) :
  aspace s (kernel_root s) → flag flags MMU_HUGE = false →
  next_offset s = n * PAGE_SIZE → 0 ≤ n → 0 ≤ pages → n + pages ≤ 2 ^ 27 → 0 ≤ f → f + pages ≤ 2 ^ 40 →
  (∀ j, 0 ≤ j < pages → translate s (kernel_root s) (window_page (n + j)) = None) →
  (∀ s', evolves 508 (kernel_root s) s (mapped s n f flags (Z.to_nat pages)) s' →
         Q (window_page n) (set_offset ((n + pages) * PAGE_SIZE) s')) →
  (∀ s' i, Z.of_nat i < pages → evolves 508 (kernel_root s) s (mapped s n f flags i) s' →
         free_set (mm_pmm s') = ∅ → Q 0 s') →
  wp (vmm_mmap_phys (f * PAGE_SIZE) pages flags) Q s.
Proof.
  intros Hs Hfl Hoff Hn Hp Hnp Hf Hfp Hnone HQ HQ0. unfold vmm_mmap_phys. wp_step. wp_step. rewrite Hoff.
  replace (u64 (0xFFFFFE0000000000 + n * PAGE_SIZE)) with (window_page n).
  2:{ unfold window_page. rewrite u64_small; [done|]. unfold is_u64, PAGE_SIZE. lia. }
  wp_step. eapply wp_mono; [apply (wp_map_range s n f flags Hs Hfl pages); done|].
  intros ret s1 [[-> He]|(-> & Hfree & i & Hi & He)].
  - change (0 <? 0) with false. cbn iota. wp_steps.
    rewrite (u64_small (pages * PAGE_SIZE)) by (unfold is_u64, PAGE_SIZE; lia).
    rewrite u64_small by (unfold is_u64, PAGE_SIZE; lia). rewrite <-Z.mul_add_distr_r. by apply HQ.
  - change (-1 <? 0) with true. cbn iota. wp_step. by eapply HQ0.
Qed.

(** The window is stuck when its next page is mapped already. *)
Lemma wp_mmap_stuck s n f pages flags x (Q : Z → mmu → Prop) :
  aspace s (kernel_root s) → flag flags MMU_HUGE = false →
  next_offset s = n * PAGE_SIZE → 0 ≤ n < 2 ^ 27 → 0 < pages → 0 ≤ f < 2 ^ 40 →
  translate s (kernel_root s) (window_page n) = Some x →
  (∀ s', keeps 508 (kernel_root s) s s' → Q 0 s') →
  wp (vmm_mmap_phys (f * PAGE_SIZE) pages flags) Q s.
Proof.
  intros Hs Hfl Hoff Hn Hp Hf Hx HQ. unfold vmm_mmap_phys. wp_step. wp_step. rewrite Hoff.
  replace (u64 (0xFFFFFE0000000000 + n * PAGE_SIZE)) with (window_page n).
  2:{ unfold window_page. rewrite u64_small; [done|]. unfold is_u64, PAGE_SIZE. lia. }
  wp_step. unfold vmm_map_range. replace (Z.to_nat pages) with (S (Z.to_nat (pages - 1))) by lia.
  wp_step. rewrite for_ret_S. rewrite !Z.mul_0_l, !Z.add_0_r.
  rewrite (u64_small (window_page n)) by (unfold is_u64, window_page, window, PAGE_SIZE; lia).
  wp_step. wp_step. destruct (window_private n Hn) as [Hpriv Hth].
  apply (wp_mmu_map 508); [done..|]. intros ret s' Hdone.
  assert (ret = -1 ∧ keeps 508 (kernel_root s) s s') as [-> Hk].
  { change (root_of s 0) with (kernel_root s) in Hdone.
    destruct Hdone as [[-> He]|(-> & Hk & _)]; [|done]. cbn [op_virt] in *. rewrite Hx in *. split; [done|].
    eapply evolves_ext; [|exact He]. intros q Hq. unfold retarget. cbn [a_page]. case_decide; [by subst|done]. }
  repeat (wp_step; try change (-1 <? 0) with true; cbn iota). by apply HQ.
Qed.

(** ** Theorems *)

(** C3: mapping, unmapping, protecting and querying a page always return, and
    refine operations on an abstract address space, a function from pages to
    mappings that the processor implements: the result and the change of the
    one page are those of the specification, every other page keeps its
    translation although tables are created and large pages split, the tables
    stay well formed, and no memory outside the tables changes.  The only
    other outcome is the failure result, with all translations unchanged, when
    no free frame is left. *)
Theorem mmu_refines h s root op :
  aspace s (root_of s root) → private (vpath (op_virt op)) → through h (vpath (op_virt op)) → op_small op →
  ∃ ret s', run_op root op s = Ok (ret, s') ∧ op_done h s (root_of s root) op ret s'.
Proof. intros. apply wp_ok. by apply wp_run_op. Qed.

(** C8: no operation on one address space changes a translation of another
    one, as long as the tables it may touch are not shared; and they stay
    unshared. *)
Theorem mmu_isolation h s root op r2 :
  aspace s (root_of s root) → private (vpath (op_virt op)) → through h (vpath (op_virt op)) → op_small op →
  aspace s r2 → apart h (mm_mem s) (root_of s root) r2 →
  ∃ ret s', run_op root op s = Ok (ret, s') ∧ aspace s' r2 ∧ apart h (mm_mem s') (root_of s root) r2 ∧
            ∀ v, translate s' r2 v = translate s r2 v.
Proof.
  intros Hs Hp Hth Hsm H2 Hap. apply wp_ok. eapply wp_mono; [by apply (wp_run_op h)|].
  intros ret s' Hdone. assert (∃ T, evolves h (root_of s root) s T s') as [T Hev].
  { destruct Hdone as [[_ He]|(_ & He & _)]; eauto. }
  split_and!; [by eapply other_aspace|by eapply other_apart|].
  intros v. apply xlate_local. eapply other_same_on; [done..|]. by destruct (vpath_is_vpath v) as [-> _].
Qed.

(** [mmu_check_user_range] accepts a range exactly when it does not wrap
    around and the page tables let user mode read (and write) every byte of it,
    provided the tables on the way grant user mode and writing, as those
    [walk_page] creates do; it changes nothing and always ends. *)
Theorem mmu_check_user_range_exact s root virt len write :
  aspace s (root_of s root) → 0 ≤ virt < 2 ^ 64 → 0 ≤ len < 2 ^ 64 →
  (∀ v, virt ≤ v < virt + len → open_path (mm_mem s) (root_of s root) ptop (vpath v)) →
  ∃ b, mmu_check_user_range root virt len write s = Ok (b, s) ∧ (b = 0 ∨ b = 1) ∧
       (b = 1 ↔ len = 0 ∨ virt + len < 2 ^ 64 ∧
                ∀ v, virt ≤ v < virt + len → user_ok s (root_of s root) write v = true).
Proof.
  intros Hs Hv Hl Ho. destruct (proj1 (wp_ok _ _ _) (wp_check_leaves s root virt len write Hs Hv Hl)) as (b & s' & Hrun & -> & Hb & Hiff).
  exists b. split_and!; [done..|]. rewrite Hiff. split; (intros [?|[Hw Hall]]; [by left|right]); (split; [done|]); intros v Hvv;
    [rewrite user_ok_leaf by auto|rewrite <-user_ok_leaf by auto]; auto.
Qed.

(** A new user address space translates exactly the kernel-only part of the
    kernel's, every existing address space is unchanged, and the rest of the
    new one shares no table with any of them; the only failure is a lack of
    frames. *)
Theorem mmu_new_user_root_shares s :
  aspace s (kernel_root s) →
  ∃ o s', mmu_new_user_root s = Ok (o, s') ∧
  match o with
  | None => free_set (mm_pmm s) = ∅ ∧ s' = s
  | Some d =>
    aspace s' d ∧
    (∀ v, translate s' d v = if kernel_entry (mm_mem s) (kernel_root s) (vpath v)
                             then translate s (kernel_root s) v else None) ∧
    (∀ r, aspace s r → aspace s' r ∧ (∀ v, translate s' r v = translate s r v) ∧
          ∀ h, kernel_entry (mm_mem s) (kernel_root s) [h] = false → apart h (mm_mem s') d r)
  end.
Proof.
  intros Hs. apply wp_ok. destruct (as_table s _ Hs [] (kernel_root s) ptop) as [Hpg Hn]; [simpl; lia|done|].
  apply wp_new_user_root; [apply (as_ram _ _ Hs)|done..|].
  intros d s' Hc. split_and!; [by apply (new_aspace s (kernel_root s))|intros v; by apply (new_translate s)|].
  intros r Hr. split_and!; [by apply (old_aspace s (kernel_root s) d)| |intros h Hh; by apply (new_apart s (kernel_root s))].
  intros v. apply xlate_local, (old_same_on s (kernel_root s) d); [done..|]. by destruct (vpath_is_vpath v) as [-> _].
Qed.

(** [vmm_mmap_phys] returns the address of the next pages of its window,
    which then map exactly the given frames with the given flags, and nothing
    else is remapped; it returns 0 only when no free frame is left. *)
Theorem vmm_mmap_phys_maps s n f pages flags :
  aspace s (kernel_root s) → flag flags MMU_HUGE = false →
  next_offset s = n * PAGE_SIZE → 0 ≤ n → 0 ≤ pages → n + pages ≤ 2 ^ 27 → 0 ≤ f → f + pages ≤ 2 ^ 40 →
  (∀ j, 0 ≤ j < pages → translate s (kernel_root s) (window_page (n + j)) = None) →
  ∃ v s', vmm_mmap_phys (f * PAGE_SIZE) pages flags s = Ok (v, s') ∧
  ((v = window_page n ∧ next_offset s' = (n + pages) * PAGE_SIZE ∧ aspace s' (kernel_root s) ∧
    (∀ j, 0 ≤ j < pages → ∃ π, translate s' (kernel_root s) (window_page (n + j)) =
       Some (mapping (wc_of s) π ((f + j) * PAGE_SIZE) flags)) ∧
    (∀ w, (∀ j, 0 ≤ j < pages → vpath w ≠ vpath (window_page (n + j))) →
       translate s' (kernel_root s) w = translate s (kernel_root s) w)) ∨
   (v = 0 ∧ free_set (mm_pmm s') = ∅)).
Proof.
  intros Hs Hfl Hoff Hn Hp Hnp Hf Hfp Hnone. apply wp_ok.
  apply (wp_mmap_phys s n); try done.
  - intros s1 He. left. split_and!; [done..| | |].
    + destruct (ev_as _ _ _ _ _ He) as [[? ? ? ?] ? ? ? ? ?]. by split.
    + intros j Hj. exists (upper (mm_mem s) (kernel_root s) ptop (vpath (window_page (n + j)))).
      unfold translate. cbn [mm_mem set_offset]. rewrite (ev_xl _ _ _ _ _ He) by apply vpath_is_vpath.
      apply mapped_in; lia.
    + intros w Hw. unfold translate. cbn [mm_mem set_offset]. rewrite (ev_xl _ _ _ _ _ He) by apply vpath_is_vpath.
      apply mapped_out. rewrite Z2Nat.id by lia. done.
  - intros s1 i Hi He Hfree. by right.
Qed.

(** When the first page of the window is mapped already, as after a call that
    ran out of frames halfway, [vmm_mmap_phys] fails, and so does every later
    call. *)
Theorem vmm_mmap_phys_stuck s n f pages flags x :
  aspace s (kernel_root s) → flag flags MMU_HUGE = false →
  next_offset s = n * PAGE_SIZE → 0 ≤ n < 2 ^ 27 → 0 < pages → 0 ≤ f < 2 ^ 40 →
  translate s (kernel_root s) (window_page n) = Some x →
  ∃ s', vmm_mmap_phys (f * PAGE_SIZE) pages flags s = Ok (0, s') ∧
        aspace s' (kernel_root s') ∧ next_offset s' = next_offset s ∧ kernel_root s' = kernel_root s ∧
        translate s' (kernel_root s') (window_page n) = Some x.
Proof.
  intros Hs Hfl Hoff Hn Hp Hf Hx.
  destruct (proj1 (wp_ok _ _ _) (wp_mmap_stuck s n f pages flags x (λ v s', v = 0 ∧ keeps 508 (kernel_root s) s s')
    Hs Hfl Hoff Hn Hp Hf Hx (λ s' Hk, conj eq_refl Hk))) as (v & s' & Hrun & -> & Hk).
  exists s'. rewrite (ev_kernel _ _ _ _ _ Hk).
  split_and!; [done|apply (ev_as _ _ _ _ _ Hk)|apply (ev_offset _ _ _ _ _ Hk)|done|].
  rewrite <-Hx. apply (ev_xl _ _ _ _ _ Hk), vpath_is_vpath.
Qed.

(** Splitting a write-combining 2 MiB page moves it: the address mask keeps
    bit 12, which is the PAT bit of a large page, so every 4 KiB part then maps
    the page after the one the large page mapped. *)
Theorem split_wc_shifts π π' b k :
  0 ≤ b < 2 ^ 31 - 1 → 0 ≤ k < 512 →
  let old := Z.lor (b * 2 ^ 21) (Z.lor X86_PTE_PAT_LARGE
               (Z.lor (Z.lor X86_PTE_PRESENT X86_PTE_WRITE) X86_PTE_HUGE)) in
  x_pa (leaf_small π' (split_entry old k)) = x_pa (leaf_large π old [Z.to_nat k]) + PAGE_SIZE.
Proof.
  intros Hb Hk old.
  assert (addr_of old = (b * 512 + 1) * PAGE_SIZE) as Ha.
  { unfold old. replace (b * 2 ^ 21) with (b * 512 * PAGE_SIZE) by (unfold PAGE_SIZE; lia).
    rewrite !addr_of_lor, addr_of_page by lia. change (addr_of _) with 4096 at 1.
    change (Z.lor 4096 _) with 4096. rewrite Z.lor_comm. change PAGE_SIZE with (2 ^ 12).
    change 4096 with (Z.shiftl 1 12). rewrite <-!Z.shiftl_mul_pow2, <-Z.shiftl_lor by lia. f_equal.
    replace (b * 512) with (Z.shiftl b 9) by (rewrite Z.shiftl_mul_pow2; lia).
    rewrite lor_low_high, Z.shiftl_mul_pow2 by lia. lia. }
  destruct (split_flags_spec old) as (Hsa & _ & _).
  unfold leaf_small, leaf_large, split_entry. cbn [x_pa length].
  change (Z.land old X86_PTE_ADDR_MASK) with (addr_of old). rewrite Ha.
  replace (u64 _) with ((b * 512 + 1 + k) * PAGE_SIZE).
  2:{ rewrite u64_small; unfold is_u64, PAGE_SIZE; lia. }
  destruct (make_entry (b * 512 + 1 + k) (split_flags old)) as [-> _]; [lia|done|].
  change (2 ^ (12 + 9 * Z.of_nat 1)) with (512 * PAGE_SIZE).
  replace ((b * 512 + 1) * PAGE_SIZE) with (b * (512 * PAGE_SIZE) + PAGE_SIZE) by lia.
  rewrite Z.div_add_l by done. change (PAGE_SIZE / (512 * PAGE_SIZE)) with 0.
  unfold page_no. cbn [foldl]. rewrite Z2Nat.id by lia. lia.
Qed.

(** ** Witnesses *)

(** Sixteen frames of memory: frame 1 is the kernel root, whose entry 508
    points to the empty table in frame 2; frame 3 is another root that shares
    this entry; frames 4 to 15 are free. *)
Definition demo_table : list Z := replicate 512 0.
Definition demo_root : list Z := <[508%nat := 2 * PAGE_SIZE + 3]> demo_table.
Definition demo_mem : gmap Z (list Z) :=
  <[3 * PAGE_SIZE := demo_root]> (<[1 * PAGE_SIZE := demo_root]>
    (list_to_map ((λ f, (f * PAGE_SIZE, demo_table)) <$> seqZ 0 16))).
Definition demo_frames : pmm := Pmm [0x0F; 0] 16 12 4.
Definition demo_mmu : mmu := Mmu demo_frames demo_mem (1 * PAGE_SIZE) (1 * PAGE_SIZE) 0 4 true true 0 0.

Lemma demo_entry r i e :
  r = 1 * PAGE_SIZE ∨ r = 3 * PAGE_SIZE → entry demo_mem r i = Some e →
  (i = 508%nat ∧ e = 2 * PAGE_SIZE + 3) ∨ e = 0.
Proof.
  intros Hr He. assert (demo_root !! i = Some e) as Hl.
  { destruct Hr as [-> | ->]; [|exact He]. exact He. }
  unfold demo_root in Hl. destruct (decide (i = 508%nat)) as [->|Hne].
  - rewrite list_lookup_insert_eq in Hl by (unfold demo_table; rewrite length_replicate; lia). left. naive_solver.
  - rewrite list_lookup_insert_ne in Hl by done. right. unfold demo_table in Hl.
    by apply lookup_replicate in Hl as [-> _].
Qed.

Lemma demo_down r p a π :
  r = 1 * PAGE_SIZE ∨ r = 3 * PAGE_SIZE → down demo_mem r ptop p = Some (a, π) →
  (p = [] ∧ a = r) ∨ (p = [508%nat] ∧ a = 2 * PAGE_SIZE).
Proof.
  intros Hr Hd. destruct p as [|i p]; [left; by simplify_eq/=|]. right. cbn [down] in Hd.
  destruct (entry demo_mem r i) as [e|] eqn:He; [|done].
  destruct (demo_entry r i e Hr He) as [[-> ->]| ->]; [|done].
  change (flag _ _ && negb (flag _ _)) with true in Hd. cbn iota in Hd.
  change (addr_of (2 * PAGE_SIZE + 3)) with (2 * PAGE_SIZE) in Hd.
  destruct p as [|j p]; [naive_solver|]. cbn [down] in Hd.
  destruct (entry demo_mem (2 * PAGE_SIZE) j) as [e|] eqn:He2; [|done].
  change (demo_table !! j = Some e) in He2. apply lookup_replicate in He2 as [-> _]. done.
Qed.

Lemma demo_is_page f : 0 ≤ f < 16 → is_page demo_mem (f * PAGE_SIZE).
Proof.
  intros Hf. assert (Forall (λ f, is_Some (demo_mem !! (f * PAGE_SIZE)) ∧
      length (default [] (demo_mem !! (f * PAGE_SIZE))) = 512%nat) (seqZ 0 16)) as Hall.
  { apply (bool_decide_unpack _). vm_compute. exact I. }
  rewrite Forall_forall in Hall. destruct (Hall f) as [[l Hl] Hlen]; [apply elem_of_seqZ; lia|].
  exists l. by rewrite Hl in Hlen.
Qed.

Lemma demo_free f : f ∈ free_set demo_frames ↔ 4 ≤ f < 16.
Proof.
  replace (free_set demo_frames) with (list_to_set (seqZ 4 12) : gset Z) by (by vm_compute).
  rewrite elem_of_list_to_set, elem_of_seqZ. lia.
Qed.

Lemma demo_aspace r : r = 1 * PAGE_SIZE ∨ r = 3 * PAGE_SIZE → aspace demo_mmu r.
Proof.
  intros Hr. pose proof (λ p a π, demo_down r p a π Hr) as Hd.
  split.
  - split; [split; by vm_compute|intros H0%demo_free; lia|by vm_compute|].
    intros f Hf%demo_free. apply demo_is_page. lia.
  - by destruct Hr as [-> | ->].
  - intros p a π _ [[-> ->]|[-> ->]]%Hd.
    + destruct Hr as [-> | ->]; (split; [by apply demo_is_page|]); unfold frame_of; rewrite Z.div_mul by done;
        intros ?%demo_free; lia.
    + split; [by apply demo_is_page|]. change (frame_of _) with 2. intros ?%demo_free. lia.
  - intros p q a π π' _ _ _ H1%Hd H2%Hd. destruct Hr, H1 as [[-> ->]|[-> ->]], H2 as [[-> ?]|[-> ?]]; done || naive_solver.
  - intros p a π i e _ _ H1%Hd He. destruct H1 as [[-> ->]|[-> ->]].
    + by destruct (demo_entry r i e Hr He) as [[-> ->]| ->].
    + change (demo_table !! i = Some e) in He. by apply lookup_replicate in He as [-> _].
  - intros p a π i e Hl _ H1%Hd. by destruct H1 as [[-> _]|[-> _]].
Qed.

Definition demo_user : Z := 0x10000000000.

Lemma mmu_refines_witness :
  ∃ ret s', run_op 0 (OMap demo_user 0x123456000 (MMU_WRITE + MMU_USER)) demo_mmu = Ok (ret, s') ∧
  op_done 2 demo_mmu (1 * PAGE_SIZE) (OMap demo_user 0x123456000 (MMU_WRITE + MMU_USER)) ret s'.
Proof.
  apply (mmu_refines 2 demo_mmu 0 (OMap demo_user 0x123456000 (MMU_WRITE + MMU_USER)));
    [apply demo_aspace; by left|vm_compute; by split_and!|by vm_compute|by vm_compute].
Defined.

Lemma mmu_isolation_witness :
  ∃ ret s', run_op (3 * PAGE_SIZE) (OMap demo_user 0x5000 MMU_USER) demo_mmu = Ok (ret, s') ∧
    aspace s' (1 * PAGE_SIZE) ∧ apart 2 (mm_mem s') (3 * PAGE_SIZE) (1 * PAGE_SIZE) ∧
    ∀ v, translate s' (1 * PAGE_SIZE) v = translate demo_mmu (1 * PAGE_SIZE) v.
Proof.
  apply (mmu_isolation 2 demo_mmu (3 * PAGE_SIZE) (OMap demo_user 0x5000 MMU_USER) (1 * PAGE_SIZE));
    [apply demo_aspace; by right|vm_compute; by split_and!|by vm_compute|by vm_compute|apply demo_aspace; by left|].
  intros q a π _ Hd (p & π' & _ & Hth & Hdp). change (root_of demo_mmu (3 * PAGE_SIZE)) with (3 * PAGE_SIZE) in Hdp.
  apply (demo_down (1 * PAGE_SIZE)) in Hd; [|by left]. apply (demo_down (3 * PAGE_SIZE)) in Hdp; [|by right].
  destruct Hd as [[-> ->]|[-> ->]], Hdp as [[-> ?]|[-> ?]]; done.
Defined.

Lemma mmu_check_user_range_exact_witness :
  ∃ b, mmu_check_user_range 0 demo_user 10000 true demo_mmu = Ok (b, demo_mmu) ∧ (b = 0 ∨ b = 1) ∧
       (b = 1 ↔ 10000 = 0 ∨ demo_user + 10000 < 2 ^ 64 ∧
                ∀ v, demo_user ≤ v < demo_user + 10000 → user_ok demo_mmu (1 * PAGE_SIZE) true v = true).
Proof.
  apply (mmu_check_user_range_exact demo_mmu 0 demo_user 10000 true); [apply demo_aspace; by left|done..|].
  intros v Hv p1 j p2 b π1 Heq Hd. change (root_of demo_mmu 0) with (1 * PAGE_SIZE) in Hd.
  pose proof Hd as Hd'. apply demo_down in Hd'; [|by left]. destruct Hd' as [[-> ->]|[-> ->]]; [by simplify_eq/=|].
  exfalso. assert (idx_at 39 v = 508) as H508.
  { unfold vpath in Heq. pose proof (idx_at_range 39 v). apply (f_equal head) in Heq. simpl in Heq.
    simplify_eq. lia. }
  unfold idx_at, demo_user in *. revert H508. change 0x1FF with (Z.ones 9).
  rewrite Z.land_ones, Z.shiftr_div_pow2 by lia. Z.to_euclidean_division_equations. lia.
Defined.

Lemma mmu_new_user_root_shares_witness :
  ∃ o s', mmu_new_user_root demo_mmu = Ok (o, s') ∧
  match o with
  | None => free_set (mm_pmm demo_mmu) = ∅ ∧ s' = demo_mmu
  | Some d =>
    aspace s' d ∧
    (∀ v, translate s' d v = if kernel_entry (mm_mem demo_mmu) (kernel_root demo_mmu) (vpath v)
                             then translate demo_mmu (kernel_root demo_mmu) v else None) ∧
    (∀ r, aspace demo_mmu r → aspace s' r ∧ (∀ v, translate s' r v = translate demo_mmu r v) ∧
          ∀ h, kernel_entry (mm_mem demo_mmu) (kernel_root demo_mmu) [h] = false → apart h (mm_mem s') d r)
  end.
Proof. apply (mmu_new_user_root_shares demo_mmu). apply demo_aspace. by left. Defined.

Lemma demo_window_free n : translate demo_mmu (1 * PAGE_SIZE) (window_page n) = None.
Proof.
  destruct (vpath_is_vpath (window_page n)) as [Hlen _]. unfold translate.
  destruct (vpath (window_page n)) as [|i [|j q]] eqn:Hq; [done..|]. cbn [xlate].
  destruct (entry (mm_mem demo_mmu) (1 * PAGE_SIZE) i) as [e|] eqn:He; [|done].
  destruct (demo_entry (1 * PAGE_SIZE) i e (or_introl eq_refl) He) as [[-> ->]| ->]; [|done].
  change (flag (2 * PAGE_SIZE + 3) X86_PTE_PRESENT) with true.
  change (flag (2 * PAGE_SIZE + 3) X86_PTE_HUGE) with false. cbn [negb].
  change (addr_of (2 * PAGE_SIZE + 3)) with (2 * PAGE_SIZE). cbn [xlate].
  destruct (entry (mm_mem demo_mmu) (2 * PAGE_SIZE) j) as [e|] eqn:He2; [|done].
  change (demo_table !! j = Some e) in He2. by apply lookup_replicate in He2 as [-> _].
Qed.

Lemma vmm_mmap_phys_maps_witness :
  ∃ v s', vmm_mmap_phys (4 * PAGE_SIZE) 2 MMU_WRITE demo_mmu = Ok (v, s') ∧
  ((v = window_page 0 ∧ next_offset s' = (0 + 2) * PAGE_SIZE ∧ aspace s' (1 * PAGE_SIZE) ∧
    (∀ j, 0 ≤ j < 2 → ∃ π, translate s' (1 * PAGE_SIZE) (window_page (0 + j)) =
       Some (mapping true π ((4 + j) * PAGE_SIZE) MMU_WRITE)) ∧
    (∀ w, (∀ j, 0 ≤ j < 2 → vpath w ≠ vpath (window_page (0 + j))) →
       translate s' (1 * PAGE_SIZE) w = translate demo_mmu (1 * PAGE_SIZE) w)) ∨
   (v = 0 ∧ free_set (mm_pmm s') = ∅)).
Proof.
  apply (vmm_mmap_phys_maps demo_mmu 0 4 2 MMU_WRITE); [apply demo_aspace; by left|done..|].
  intros j _. apply demo_window_free.
Defined.

Lemma split_wc_shifts_witness :
  x_pa (leaf_small ptop (split_entry 0x80001083 3)) = x_pa (leaf_large ptop 0x80001083 [3%nat]) + PAGE_SIZE.
Proof. apply (split_wc_shifts ptop ptop 1024 3); lia. Defined.

(** A page mapped into a new address space as not executable, and what becomes
    of it in a copy of that address space. *)
Definition demo_fork : M mmu (option (option xl * option xl)) :=
  r ← mmu_new_user_root;
  match r with
  | None => mret None
  | Some r =>
    _ ← mmu_map r demo_user (3 * PAGE_SIZE) (MMU_WRITE + MMU_USER + MMU_NX);
    c ← mmu_clone_root r;
    match c with
    | None => mret None
    | Some c => s ← gets id; mret (Some (translate s r demo_user, translate s c demo_user))
    end
  end.

(** Copying an address space for fork drops the no-execute bit: a data page
    the parent cannot execute is executable in the child. *)
Theorem fork_drops_nx :
  match demo_fork demo_mmu with
  | Ok (Some (Some x, Some y), _) => p_nx (x_perm x) = true ∧ p_nx (x_perm y) = false ∧
      p_w (x_perm y) = true ∧ p_u (x_perm y) = true ∧ x_pa y ≠ x_pa x
  | _ => False
  end.
Proof. vm_compute. by split_and!. Qed.

(** Releasing the copy (its root is frame 8) gives back the five frames it took. *)
Example fork_exit_frames :
  match demo_fork demo_mmu with
  | Ok (_, s1) =>
    match mmu_free_root (8 * PAGE_SIZE) s1 with
    | Ok (_, s2) => free_set (mm_pmm s1) = list_to_set (seqZ 13 3) ∧
                    free_set (mm_pmm s2) = list_to_set (seqZ 8 8)
    | _ => False
    end
  | _ => False
  end.
Proof. vm_compute. by split. Qed.
