(* ===== verification/Reclaim.v ===== *)
(** * Reclaim: giving back an address space ([mmu_free_root])

    Which frames [mmu_free_root] of arch/x86_64/mmu.c returns to the frame
    allocator: the tables below the user entries of the root, the pages they
    map, and the root.  The scheduler uses it for threads that are gone. *)

From S2P Require Import Prelude BootMap Pmm Mmu.

#[local] Arguments for_up : simpl never.

(** An entry that [free_level] follows at this level. *)
Definition user_entry (m : gmap Z (list Z)) (level : nat) (tbl : Z) (i : nat) (e : Z) : Prop :=
  (i < 512)%nat ∧ entry m tbl i = Some e ∧ flag e X86_PTE_PRESENT = true ∧ flag e X86_PTE_USER = true ∧
  (level = 2%nat → flag e X86_PTE_HUGE = false).

(** The frames below table [tbl]. *)
Fixpoint below (m : gmap Z (list Z)) (level : nat) (tbl f : Z) : Prop :=
  ∃ i e, user_entry m level tbl i e ∧
    (f = frame_of (addr_of e) ∨ match level with S (S _ as l) => below m l (addr_of e) f | _ => False end).

(** The tables that are read are pages of memory. *)
Fixpoint walkable (m : gmap Z (list Z)) (level : nat) (tbl : Z) : Prop :=
  is_page m tbl ∧
  match level with
  | S (S _ as l) => ∀ i e, user_entry m level tbl i e → walkable m l (addr_of e)
  | _ => True
  end.

(** Frames [P] became free. *)
Record gave (s : mmu) (P : Z → Prop) (s' : mmu) : Prop := Gave {
  ga_same : s' = set_pmm (mm_pmm s') s;
  ga_wf : wf (mm_pmm s');
  ga_total : total_frames (mm_pmm s') = total_frames (mm_pmm s);
  ga_free : ∀ g, g ∈ free_set (mm_pmm s') ↔ g ∈ free_set (mm_pmm s) ∨ (P g ∧ 0 ≤ g < total_frames (mm_pmm s)) }.

Lemma gave_refl s P : wf (mm_pmm s) → (∀ g, ¬ P g) → gave s P s.
Proof. intros Hw HP. split; [by destruct s|done|done|]. intros g. specialize (HP g). tauto. Qed.

Lemma gave_trans s1 s2 s3 P Q R :
  gave s1 P s2 → gave s2 Q s3 → (∀ g, R g ↔ P g ∨ Q g) → gave s1 R s3.
Proof.
  intros [He Hw Ht Hf] [He' Hw' Ht' Hf'] HR. split; [|done|congruence|].
  - rewrite He' at 1. rewrite He. by destruct s1.
  - intros g. rewrite Hf', Hf, Ht, HR. tauto.
Qed.

Lemma gave_iff s s' P Q : (∀ g, P g ↔ Q g) → gave s P s' → gave s Q s'.
Proof. intros HPQ [? ? ? Hf]. split; try done. intros g. by rewrite Hf, HPQ. Qed.

Lemma addr_of_nonneg e : 0 ≤ addr_of e.
Proof. destruct (addr_of_form e) as (g & -> & Hg). unfold PAGE_SIZE. lia. Qed.

Lemma wp_give_one_frame s a (Q : unit → mmu → Prop) :
  wf (mm_pmm s) → 0 ≤ a → (∀ s', gave s (λ g, g = frame_of a) s' → Q tt s') → wp (free_frame a) Q s.
Proof.
  intros Hw Ha HQ. apply wp_zoom. eapply wp_free_frame; [done..|]. intros p [Hw' Ht _ Hf]. apply HQ.
  assert (Z.shiftr a PAGE_SHIFT = frame_of a) as Hsh by (unfold frame_of; by rewrite Z.shiftr_div_pow2).
  split; [by destruct s|done|done|]. intros g. cbn [mm_pmm set_pmm]. rewrite Hf, Hsh, elem_of_union, elem_of_intersection, !elem_of_frames.
  intuition lia.
Qed.

(** The frames below the first [k] entries. *)
Definition below_upto (m : gmap Z (list Z)) (level : nat) (tbl : Z) (k f : Z) : Prop :=
  ∃ i e, Z.of_nat i < k ∧ user_entry m level tbl i e ∧
    (f = frame_of (addr_of e) ∨ match level with S (S _ as l) => below m l (addr_of e) f | _ => False end).

Lemma below_all m level tbl f : below_upto m level tbl 512 f ↔ below m level tbl f.
Proof.
  unfold below_upto. destruct level as [|level]; simpl; (split; [intros (i & e & _ & H)|intros (i & e & H)]); exists i, e;
    [done|split; [destruct H as [[? _] _]; lia|done]..|done|split; [destruct H as [[? _] _]; lia|done]].
Qed.

Lemma below_upto_skip m level tbl k f e :
  0 ≤ k → entry m tbl (Z.to_nat k) = Some e → (∀ e', ¬ user_entry m level tbl (Z.to_nat k) e') →
  below_upto m level tbl (k + 1) f ↔ below_upto m level tbl k f.
Proof.
  intros Hk He Hn. split; intros (i & e' & Hi & Hu & Hf); exists i, e'; (split; [|done]); [|lia].
  destruct (decide (i = Z.to_nat k)) as [->|Hne]; [by destruct (Hn e')|lia].
Qed.

Lemma below_upto_take m level tbl k f e :
  0 ≤ k → user_entry m level tbl (Z.to_nat k) e →
  below_upto m level tbl (k + 1) f ↔
  below_upto m level tbl k f ∨ (f = frame_of (addr_of e) ∨ match level with S (S _ as l) => below m l (addr_of e) f | _ => False end).
Proof.
  intros Hk Hu. split.
  - intros (i & e' & Hi & Hu' & Hf). destruct (decide (i = Z.to_nat k)) as [->|Hne].
    + right. destruct Hu as (_ & He & _), Hu' as (_ & He' & _). simplify_eq. done.
    + left. exists i, e'. split; [lia|done].
  - intros [(i & e' & Hi & Hu' & Hf)|Hf]; [exists i, e'|exists (Z.to_nat k), e]; (split; [lia|done]).
Qed.

(** What is done for one present user entry. *)
Definition free_entry (level : nat) (e : Z) : M mmu unit :=
  match level with
  | S (S _ as below) =>
    if (Nat.eqb level 2) && flag e X86_PTE_HUGE then mret tt
    else
      let next := Z.land e X86_PTE_ADDR_MASK in
      free_level below next ;; free_frame next
  | _ => free_frame (Z.land e X86_PTE_ADDR_MASK)
  end.

(** [free_level] gives back what is below the table. *)
Lemma wp_free_level level : ∀ s tbl (Q : unit → mmu → Prop),
  wf (mm_pmm s) → walkable (mm_mem s) level tbl →
  (∀ s', gave s (below (mm_mem s) level tbl) s' → Q tt s') → wp (free_level level tbl) Q s.
Proof.
  induction level as [level IH] using lt_wf_ind. intros s tbl Q Hw Hwk HQ.
  assert (is_page (mm_mem s) tbl) as Hpg by (destruct level; apply Hwk).
  destruct Hpg as (l & Hl & Hlen).
  replace (free_level level tbl) with (for_up 512 0 (λ i,
    e ← rd tbl i;
    if negb (flag e X86_PTE_PRESENT) then mret tt
    else if negb (flag e X86_PTE_USER) then mret tt
    else
      free_entry level e)) by (by destruct level).
  apply (wp_for_up (λ k, gave s (below_upto (mm_mem s) level tbl k))).
  - apply gave_refl; [done|]. intros g (i & e & Hi & _). lia.
  - intros k s' Hk Hg. rewrite Z.add_0_l in Hk. change (Z.of_nat 512) with 512 in Hk.
    assert (mm_mem s' = mm_mem s) as Hm by (rewrite (ga_same _ _ _ Hg); by destruct s).
    pose proof (ga_wf _ _ _ Hg) as Hw'.
    destruct (lookup_lt_is_Some_2 l (Z.to_nat k)) as [e He]; [lia|].
    assert (entry (mm_mem s) tbl (Z.to_nat k) = Some e) as Hen by (unfold entry; by rewrite Hl).
    wp_step. apply (wp_rd _ _ e); [by rewrite Hm|lia|].
    assert ((∀ e', user_entry (mm_mem s) level tbl (Z.to_nat k) e' → e' = e) ) as Honly.
    { intros e' (_ & He' & _). congruence. }
    assert ((∀ e', ¬ user_entry (mm_mem s) level tbl (Z.to_nat k) e') → gave s (below_upto (mm_mem s) level tbl (k + 1)) s') as Hskip.
    { intros Hn. eapply gave_iff; [|exact Hg]. intros g. symmetry. eapply below_upto_skip; [lia|done..]. }
    destruct (flag e X86_PTE_PRESENT) eqn:Hp; cbn [negb]; [|wp_step; apply Hskip; intros e' He'; pose proof (Honly e' He') as ->; destruct He' as (_ & _ & ? & _); congruence].
    destruct (flag e X86_PTE_USER) eqn:Hu; cbn [negb]; [|wp_step; apply Hskip; intros e' He'; pose proof (Honly e' He') as ->; destruct He' as (_ & _ & _ & ? & _); congruence].
    unfold free_entry. destruct (decide (level = 2%nat ∧ flag e X86_PTE_HUGE = true)) as [[-> Hh]|Hnh].
    { rewrite Hh. cbn [Nat.eqb andb]. wp_step. apply Hskip. intros e' He'. pose proof (Honly e' He') as ->.
      destruct He' as (_ & _ & _ & _ & Hx). rewrite Hx in Hh; done. }
    assert (user_entry (mm_mem s) level tbl (Z.to_nat k) e) as Hue.
    { split_and!; [lia|done..|]. intros ->. destruct (flag e X86_PTE_HUGE); [|done]. exfalso. by apply Hnh. }
    assert (∀ s'', gave s' (λ g, g = frame_of (addr_of e) ∨ match level with S (S _ as l) => below (mm_mem s) l (addr_of e) g | _ => False end) s'' →
      gave s (below_upto (mm_mem s) level tbl (k + 1)) s'') as Hdone.
    { intros s'' Hg'. eapply gave_trans; [exact Hg|exact Hg'|]. intros g. apply below_upto_take; [lia|done]. }
    fold (addr_of e). destruct level as [|[|level]]; [apply wp_give_one_frame; [done|apply addr_of_nonneg|]; intros s'' Hg'; apply Hdone;
      eapply gave_iff; [|exact Hg']; tauto..|].
    replace ((S (S level) =? 2)%nat && flag e X86_PTE_HUGE) with false.
    2:{ symmetry. apply andb_false_iff. destruct (flag e X86_PTE_HUGE); [left|by right]. apply Nat.eqb_neq. intros ?. by apply Hnh. }
    cbn zeta. wp_step. apply (IH (S level)); [lia|done|rewrite Hm; by apply (proj2 Hwk (Z.to_nat k))|].
    intros s1 Hg1. rewrite Hm in Hg1. apply wp_give_one_frame; [apply (ga_wf _ _ _ Hg1)|apply addr_of_nonneg|].
    intros s2 Hg2. apply Hdone. eapply gave_trans; [exact Hg1|exact Hg2|]. intros g. cbn beta. tauto.
  - intros s' Hg. apply HQ. eapply gave_iff; [|exact Hg]. intros g. apply below_all.
Qed.

(** The frames an address space owns. *)
Definition root_frames (s : mmu) (r f : Z) : Prop :=
  r ≠ 0 ∧ r ≠ kernel_root s ∧ (f = frame_of r ∨ below (mm_mem s) 4 r f).

Definition root_walkable (s : mmu) (r : Z) : Prop := r = 0 ∨ r = kernel_root s ∨ (0 ≤ r ∧ walkable (mm_mem s) 4 r).

Lemma wp_free_root s r (Q : unit → mmu → Prop) :
  wf (mm_pmm s) → root_walkable s r → (∀ s', gave s (root_frames s r) s' → Q tt s') → wp (mmu_free_root r) Q s.
Proof.
  intros Hw Hr HQ. unfold mmu_free_root. wp_step. wp_step.
  destruct (Z.eqb_spec r 0) as [->|Hr0]; cbn [orb].
  { wp_step. apply HQ. apply gave_refl; [done|]. by intros g (? & _). }
  destruct (Z.eqb_spec r (kernel_root s)) as [->|Hrk].
  { wp_step. apply HQ. apply gave_refl; [done|]. by intros g (_ & ? & _). }
  destruct Hr as [?|[?|[Hr Hwk]]]; [done..|]. wp_step. apply wp_free_level; [done..|]. intros s1 Hg1.
  apply wp_give_one_frame; [apply (ga_wf _ _ _ Hg1)|done|]. intros s2 Hg2. apply HQ.
  eapply gave_trans; [exact Hg1|exact Hg2|]. intros g. unfold root_frames. cbn beta. tauto.
Qed.

(** C29: [mmu_free_root] returns; exactly the frames of the user tables, of the
    pages they map and of the root become free - none for the kernel root - and
    memory is not written. *)
Theorem mmu_free_root_exact s r :
  wf (mm_pmm s) → root_walkable s r → ∃ s', mmu_free_root r s = Ok (tt, s') ∧ gave s (root_frames s r) s'.
Proof.
  intros Hw Hr. assert (wp (mmu_free_root r) (λ _ s', gave s (root_frames s r) s') s) as Hwp by (apply wp_free_root; auto).
  apply wp_ok in Hwp as ([] & s' & ? & ?). eauto.
Qed.

(** An address space with one user page: frames 4 to 8 are its root, three
    tables and the page. *)
Definition demo_user_mem : gmap Z (list Z) :=
  <[4 * PAGE_SIZE := <[2%nat := 5 * PAGE_SIZE + 7]> demo_root]> (<[5 * PAGE_SIZE := <[0%nat := 6 * PAGE_SIZE + 7]> demo_table]>
  (<[6 * PAGE_SIZE := <[0%nat := 7 * PAGE_SIZE + 7]> demo_table]> (<[7 * PAGE_SIZE := <[1%nat := 8 * PAGE_SIZE + 7]> demo_table]> demo_mem))).
Definition demo_user_mmu : mmu :=
  Mmu (Pmm [0xFF; 0x01] 16 7 9) demo_user_mem (1 * PAGE_SIZE) (1 * PAGE_SIZE) 0 4 true true 0 0.

Lemma set_entry m tbl i j e t : m !! tbl = Some (<[i := t]> demo_table) → entry m tbl j = Some e → flag e X86_PTE_USER = true → j = i ∧ e = t.
Proof.
  intros Hm He Hu. unfold entry in He. rewrite Hm in He. apply list_lookup_insert_Some in He as [(-> & -> & _)|(_ & He)]; [done|].
  unfold demo_table in He. apply lookup_replicate in He as [-> _]. by vm_compute in Hu.
Qed.

Lemma demo_user_root_entry j e : entry demo_user_mem (4 * PAGE_SIZE) j = Some e → flag e X86_PTE_USER = true → j = 2%nat ∧ e = 5 * PAGE_SIZE + 7.
Proof.
  intros He Hu. assert ((<[2%nat := 5 * PAGE_SIZE + 7]> demo_root) !! j = Some e) as Hl by exact He.
  apply list_lookup_insert_Some in Hl as [(-> & -> & _)|(_ & Hl)]; [done|]. unfold demo_root in Hl.
  apply list_lookup_insert_Some in Hl as [(<- & <- & _)|(_ & Hl)]; [by vm_compute in Hu|].
  unfold demo_table in Hl. apply lookup_replicate in Hl as [-> _]. by vm_compute in Hu.
Qed.

Lemma demo_user_page f : 4 ≤ f < 8 → is_page demo_user_mem (f * PAGE_SIZE).
Proof.
  intros Hf. assert (f = 4 ∨ f = 5 ∨ f = 6 ∨ f = 7) as [-> | [-> | [-> | ->]]] by lia; (eexists; split; [reflexivity|by vm_compute]).
Qed.

Lemma demo_user_walkable : root_walkable demo_user_mmu (4 * PAGE_SIZE).
Proof.
  right. right. split; [done|]. split; [by apply demo_user_page|].
  intros i e (_ & He & _ & Hu & _). apply demo_user_root_entry in He as [-> ->]; [|done]. split; [by apply (demo_user_page 5)|].
  intros i e (_ & He & _ & Hu' & _). apply (set_entry _ _ 0%nat i e (6 * PAGE_SIZE + 7)) in He as [-> ->]; [|reflexivity|done].
  split; [by apply (demo_user_page 6)|].
  intros i e (_ & He & _ & Hu'' & _). apply (set_entry _ _ 0%nat i e (7 * PAGE_SIZE + 7)) in He as [-> ->]; [|reflexivity|done].
  split; [by apply (demo_user_page 7)|done].
Qed.

Lemma mmu_free_root_exact_witness :
  ∃ s', mmu_free_root (4 * PAGE_SIZE) demo_user_mmu = Ok (tt, s') ∧ gave demo_user_mmu (root_frames demo_user_mmu (4 * PAGE_SIZE)) s' ∧
    free_frames (mm_pmm s') = 12.
Proof.
  assert (wf (mm_pmm demo_user_mmu)) as Hw by (split; [reflexivity|simpl; lia|reflexivity|simpl; lia]).
  destruct (mmu_free_root_exact demo_user_mmu (4 * PAGE_SIZE) Hw demo_user_walkable) as (s' & Hrun & Hg).
  exists s'. split; [done|]. split; [done|].
  assert ((λ x, match x with Ok (_, s) => free_frames (mm_pmm s) | _ => 0 end) (mmu_free_root (4 * PAGE_SIZE) demo_user_mmu) = 12) as E by (by vm_compute).
  by rewrite Hrun in E.
Defined.
