(* ===== verification/Kmem.v ===== *)
(** * Kmem: kernel memory as the heap sees it

    The heap allocator (Slab.v) works on virtual addresses of the kernel
    window.  This file gives access through the page tables ([vload],
    [vstore]), and the view the allocator is verified against: a map [P] from
    the virtual pages in use to their words, and a set [F] of frames that are
    allocated but not mapped yet.  The frame allocator (Pmm.v) and the page
    tables (Mmu.v) implement this view. *)

From S2P Require Import Prelude BootMap Pmm Mmu.

#[local] Arguments for_up : simpl never.
#[local] Arguments for_ret : simpl never.

(** A 64-bit access of kernel code at an aligned virtual address: the
    processor translates it; an address that is not mapped (writable) faults. *)
Definition page_base (v : Z) : Z := v / PAGE_SIZE * PAGE_SIZE.
Definition word_idx (v : Z) : Z := v mod PAGE_SIZE / 8.

Definition vload (v : Z) : M mmu Z :=
  s ← gets id;
  match translate s (kernel_root s) v with
  | Some x => rd (x_pa x) (word_idx v)
  | None => fault
  end.

Definition vstore (v w : Z) : M mmu unit :=
  s ← gets id;
  match translate s (kernel_root s) v with
  | Some x => if p_w (x_perm x) then wr (x_pa x) (word_idx v) w else fault
  | None => fault
  end.

(** ** The view *)

(** Page [a] is a page table of root [r]. *)
Definition table_of (m : gmap Z (list Z)) (r a : Z) : Prop :=
  ∃ q π, (length q ≤ 3)%nat ∧ down m r ptop q = Some (a, π).

(** Frame [f] is in use for data, with words [l], and no table of root [r]. *)
Record held_in (s : mmu) (r f : Z) (l : list Z) : Prop := Held {
  he_range : 0 < f < 2 ^ 40;
  he_mem : mm_mem s !! (f * PAGE_SIZE) = Some l;
  he_len : length l = 512%nat;
  he_total : f < total_frames (mm_pmm s);
  he_used : f ∉ free_set (mm_pmm s);
  he_data : ¬ table_of (mm_mem s) r (f * PAGE_SIZE) }.
Abbreviation held s f l := (held_in s (kernel_root s) f l).

(** Virtual page [v] of root [r] maps frame [f], writable. *)
Definition maps_in (s : mmu) (r v f : Z) : Prop :=
  ∃ x, translate s r v = Some x ∧ x_pa x = f * PAGE_SIZE ∧ p_w (x_perm x) = true.
Abbreviation maps s v f := (maps_in s (kernel_root s) v f).

(** The pages after the first [n] of the window are not mapped, or the next one
    is in the way for good. *)
Definition window_ok (s : mmu) (n : Z) : Prop :=
  (∀ j, n ≤ j < 2 ^ 27 → translate s (kernel_root s) (window_page j) = None) ∨
  (n < 2 ^ 27 ∧ translate s (kernel_root s) (window_page n) ≠ None).

(** The pages in use: virtual page to frame and words. *)
Abbreviation kpages := (gmap Z (Z * list Z)).

Record kmem (s : mmu) (n : Z) (P : kpages) (F : gset Z) : Prop := Kmem {
  km_as : aspace s (kernel_root s);
  km_off : next_offset s = n * PAGE_SIZE ∧ 0 ≤ n ≤ 2 ^ 27;
  km_win : window_ok s n;
  km_open : ∀ q, is_vpath q → through 508 q → p_w (upper (mm_mem s) (kernel_root s) ptop q) = true;
  km_small : ∀ q a π i e, (length q ≤ 2)%nat → through 508 (q ++ [i]) →
    down (mm_mem s) (kernel_root s) ptop q = Some (a, π) → entry (mm_mem s) a i = Some e → flag e X86_PTE_HUGE = false;
  km_dom : ∀ v x, P !! v = Some x → ∃ j, 0 ≤ j < n ∧ v = window_page j;
  km_page : ∀ v f l, P !! v = Some (f, l) → maps s v f ∧ held s f l ∧ f ∉ F;
  km_inj : ∀ v v' f l l', P !! v = Some (f, l) → P !! v' = Some (f, l') → v = v';
  km_spare : ∀ f, f ∈ F → ∃ l, held s f l }.

(** The word at an address, and its update. *)
Definition word (P : kpages) (v : Z) : option Z :=
  '(_, l) ← P !! page_base v; l !! Z.to_nat (word_idx v).
Definition put_word (v w : Z) (P : kpages) : kpages :=
  alter (λ '(f, l), (f, <[Z.to_nat (word_idx v) := w]> l)) (page_base v) P.

(** ** Tables and data *)

(** Tables only come from free frames. *)
Lemma evolves_table h r s T s' a :
  evolves h r s T s' → table_of (mm_mem s') r a → table_of (mm_mem s) r a ∨ frame_of a ∈ free_set (mm_pmm s).
Proof.
  intros He (q & π & Hq & Hd). destruct (decide (q = [] ∨ head q = Some h)) as [Hth|Hth].
  - destruct (ev_owned _ _ _ _ _ He a) as [(p & π' & Hp & _ & Hdp)|Hf]; [| |by right].
    + exists q, π. split_and!; [done| |done]. destruct q as [|i q]; [done|]. simpl. destruct Hth; naive_solver.
    + left. by exists p, π'.
  - left. exists q, π. split; [done|]. rewrite <-(ev_down _ _ _ _ _ He); [done..|].
    intros Ht. apply Hth. destruct q; [by left|right]. simpl in *. by subst.
Qed.

(** Data pages survive changes of the tables. *)
Lemma evolves_held h r s T s' f l : evolves h r s T s' → held_in s r f l → held_in s' r f l.
Proof.
  intros He [Hr Hm Hl Ht Hu Hd]. split; try done.
  - rewrite (ev_mem _ _ _ _ _ He); [done| |by rewrite frame_of_mul].
    intros (p & π & Hp & _ & Hdp). apply Hd. by exists p, π.
  - by rewrite (ev_total _ _ _ _ _ He).
  - intros Hin. by apply Hu, (ev_free _ _ _ _ _ He).
  - intros [?|Hf]%(evolves_table _ _ _ _ _ _ He); [done|].
    by rewrite frame_of_mul in Hf.
Qed.

(** A write to a data page. *)
Section data.
Context (s : mmu) (k f : Z) (l l' : list Z) (Hh : held_in s k f l) (Hl' : length l' = 512%nat).
Local Abbreviation s' := (set_mem (<[f * PAGE_SIZE := l']> (mm_mem s)) s).

Lemma data_entry q a π i :
  (length q ≤ 3)%nat → down (mm_mem s) k ptop q = Some (a, π) → entry (mm_mem s') a i = entry (mm_mem s) a i.
Proof.
  intros Hq Hd. unfold entry. simpl. rewrite lookup_insert_ne; [done|]. intros <-.
  apply (he_data _ _ _ _ Hh). by exists q, π.
Qed.

Lemma data_same_on q : (length q ≤ 4)%nat → same_on (mm_mem s) (mm_mem s') k ptop q.
Proof.
  intros Hq p1 j p2 c π1 -> Hd. rewrite length_app in Hq. simpl in Hq. eapply data_entry; [|done]. lia.
Qed.

Lemma data_down q : (length q ≤ 3)%nat → down (mm_mem s') k ptop q = down (mm_mem s) k ptop q.
Proof. intros Hq. apply down_local, data_same_on. lia. Qed.

Lemma data_translate v : translate s' k v = translate s k v.
Proof. apply xlate_local, data_same_on. by destruct (vpath_is_vpath v) as [-> _]. Qed.

Lemma data_table a : table_of (mm_mem s') k a → table_of (mm_mem s) k a.
Proof. intros (q & π & Hq & Hd). exists q, π. by rewrite <-data_down. Qed.

Lemma data_is_page a : is_page (mm_mem s) a → is_page (mm_mem s') a.
Proof.
  intros (x & Hx & Hlen). unfold is_page. simpl. destruct (decide (a = f * PAGE_SIZE)) as [->|Hne].
  - exists l'. by rewrite lookup_insert_eq.
  - exists x. by rewrite lookup_insert_ne.
Qed.

Lemma data_aspace : aspace s k → aspace s' k.
Proof.
  intros [[Hw Hz Ht Hr] Hroot Htb Hown Hhg Hlg].
  split; [split; [done..|]; intros g Hg; by apply data_is_page, Hr|done|..].
  - intros q a π Hq. rewrite data_down by done. intros Hd. destruct (Htb q a π Hq Hd).
    split; [by apply data_is_page|done].
  - intros q1 q2 a π1 π2 Hq1 Hq2. rewrite !data_down by done. by apply Hown.
  - intros q a π i e Hq Hp. rewrite data_down by lia. intros Hd.
    rewrite (data_entry q a π) by (done || lia). by eapply Hhg.
  - intros q a π i e Hq Hp. rewrite data_down by lia. intros Hd.
    rewrite (data_entry q a π) by (done || lia). by eapply Hlg.
Qed.

Lemma data_held g x : held_in s k g x → held_in s' k g (if decide (g = f) then l' else x).
Proof.
  intros [Hr Hm Hl Ht Hu Hd]. destruct (decide (g = f)) as [->|Hne].
  - split; try done; [simpl; by rewrite lookup_insert_eq|]. intros Htab. by apply Hd, data_table.
  - split; try done; [simpl; rewrite lookup_insert_ne; [done|unfold PAGE_SIZE; lia]|].
    intros Htab. by apply Hd, data_table.
Qed.

Lemma data_maps v g : maps_in s k v g → maps_in s' k v g.
Proof. intros (x & Hx & Hpa & Hw). exists x. by rewrite <-data_translate in Hx. Qed.

Lemma data_maps_inv v g : maps_in s' k v g → maps_in s k v g.
Proof. intros (x & Hx & Hpa & Hw). exists x. by rewrite data_translate in Hx. Qed.
End data.

(** ** Words *)

Lemma word_idx_range v : 0 ≤ word_idx v < 512.
Proof.
  unfold word_idx. change PAGE_SIZE with 4096. Z.to_euclidean_division_equations. lia.
Qed.

Lemma page_base_page v : page_base v / PAGE_SIZE = v / PAGE_SIZE.
Proof. unfold page_base. by rewrite Z.div_mul. Qed.

Lemma word_page P v w : word P v = Some w → ∃ f l, P !! page_base v = Some (f, l) ∧ l !! Z.to_nat (word_idx v) = Some w.
Proof. unfold word. destruct (P !! page_base v) as [[f l]|]; [|done]. simpl. eauto. Qed.

Lemma page_word P v f l : P !! page_base v = Some (f, l) → length l = 512%nat → is_Some (word P v).
Proof.
  intros HP Hl. unfold word. rewrite HP. simpl. apply lookup_lt_is_Some_2.
  pose proof (word_idx_range v). lia.
Qed.

Section kmem.
Context (s : mmu) (n : Z) (P : kpages) (F : gset Z) (Hk : kmem s n P F).
Local Abbreviation k := (kernel_root s).

Lemma km_translate v f l :
  P !! page_base v = Some (f, l) →
  ∃ x, translate s k v = Some x ∧ x_pa x = f * PAGE_SIZE ∧ p_w (x_perm x) = true.
Proof.
  intros HP. destruct (km_page _ _ _ _ Hk _ _ _ HP) as ((x & Hx & Hpa & Hw) & _). exists x.
  split_and!; [|done..]. rewrite <-Hx. unfold translate.
  by rewrite (vpath_page v (page_base v)) by (by rewrite page_base_page).
Qed.

Lemma wp_vload v w (Q : Z → mmu → Prop) : word P v = Some w → Q w s → wp (vload v) Q s.
Proof.
  intros Hw HQ. destruct (word_page P v w Hw) as (f & l & HP & Hl).
  destruct (km_translate v f l HP) as (x & Hx & Hpa & _). unfold vload. wp_step. wp_step.
  cbn [id]. rewrite Hx, Hpa. destruct (km_page _ _ _ _ Hk _ _ _ HP) as (_ & [_ Hm _ _ _ _] & _).
  apply (wp_rd _ _ w); [|apply word_idx_range|done]. unfold entry. by rewrite Hm.
Qed.

(** The view after a write to the words of page [v]. *)
Lemma km_data v f l l' :
  P !! v = Some (f, l) → length l' = 512%nat →
  kmem (set_mem (<[f * PAGE_SIZE := l']> (mm_mem s)) s) n (<[v := (f, l')]> P) F.
Proof.
  intros HP Hl'. destruct Hk as [Has Hoff Hwin Hop Hsm Hdom Hpage Hinj Hsp].
  destruct (Hpage v f l HP) as (Hmv & Hh & HfF). split; try done.
  - exact (data_aspace s k f l l' Hh Hl' Has).
  - unfold window_ok in *. change (kernel_root (set_mem _ s)) with k.
    destruct Hwin as [Hw|[Hn Hw]]; [left; intros j Hj|right; split; [done|]].
    + rewrite (data_translate s k f l l' Hh) by done. by apply Hw.
    + by rewrite (data_translate s k f l l' Hh) by done.
  - intros q Hq Hth. rewrite <-(Hop q Hq Hth). f_equal. apply upper_local.
    apply (data_same_on s k f l l' Hh); [done..|]. by destruct Hq as [-> _].
  - intros q a π i e Hq Hth Hd. change (kernel_root (set_mem _ s)) with k in Hd.
    rewrite (data_down s k f l l' Hh) in Hd by (done || lia).
    rewrite (data_entry s k f l l' Hh q a π) by (done || lia). by eapply Hsm.
  - intros v' x. destruct (decide (v' = v)) as [->|Hne]; [intros _; by eapply Hdom|].
    rewrite lookup_insert_ne by done. by apply Hdom.
  - intros v' g x. destruct (decide (v' = v)) as [->|Hne].
    + rewrite lookup_insert_eq. intros [= <- <-]. split_and!; [by apply (data_maps s k f l l' Hh)| |done].
      pose proof (data_held s k f l l' Hh Hl' f l Hh) as Hd. by rewrite decide_True in Hd.
    + rewrite lookup_insert_ne by done. intros HP'. destruct (Hpage v' g x HP') as (Hm' & Hh' & HgF).
      split_and!; [by apply (data_maps s k f l l' Hh)| |done].
      pose proof (data_held s k f l l' Hh Hl' g x Hh') as Hd. rewrite decide_False in Hd; [done|].
      intros ->. apply Hne. by eapply Hinj.
  - intros v1 v2 g l1 l2 H1 H2.
    assert (∀ v0 l0, <[v:=(f, l')]> P !! v0 = Some (g, l0) → ∃ l3, P !! v0 = Some (g, l3)) as Hold.
    { intros v0 l0. destruct (decide (v0 = v)) as [->|Hne].
      - rewrite lookup_insert_eq. intros [= <- <-]. eauto.
      - rewrite lookup_insert_ne by done. eauto. }
    destruct (Hold _ _ H1), (Hold _ _ H2). by eapply Hinj.
  - intros g Hg. destruct (Hsp g Hg) as [x Hx]. eexists. exact (data_held s k f l l' Hh Hl' g x Hx).
Qed.

Lemma wp_vstore v w (Q : unit → mmu → Prop) :
  is_Some (word P v) →
  (∀ s', kmem s' n (put_word v w P) F → mm_pmm s' = mm_pmm s → kernel_root s' = k → Q tt s') →
  wp (vstore v w) Q s.
Proof.
  intros [w0 Hw] HQ. destruct (word_page P v w0 Hw) as (f & l & HP & Hl).
  destruct (km_translate v f l HP) as (x & Hx & Hpa & Hpw). unfold vstore. wp_step. wp_step.
  cbn [id]. rewrite Hx, Hpw, Hpa. destruct (km_page _ _ _ _ Hk _ _ _ HP) as (_ & [_ Hm Hlen _ _ _] & _).
  unfold wr. wp_step. wp_step. rewrite Hm. wp_step. eapply wp_load; [apply word_idx_range|done|].
  wp_step. apply HQ; [|done..]. unfold put_word.
  replace (alter _ _ P) with (<[page_base v := (f, <[Z.to_nat (word_idx v) := w]> l)]> P).
  - apply (km_data _ f l); [done|by rewrite length_insert].
  - apply map_eq. intros v'. destruct (decide (v' = page_base v)) as [->|Hne].
    + by rewrite lookup_insert_eq, lookup_alter_eq, HP.
    + by rewrite lookup_insert_ne, lookup_alter_ne.
Qed.
End kmem.

(** ** Frames *)

(** Tables are page aligned. *)
Lemma down_addr m p a π b π' : p ≠ [] → down m a π p = Some (b, π') → ∃ e, b = addr_of e.
Proof.
  revert a π. induction p as [|i p IH]; intros a π Hne Hd; [done|]. simpl in Hd.
  destruct (entry m a i) as [e|]; [|done]. destruct (_ && _); [|done].
  destruct p as [|j p]; [simplify_eq/=; eauto|]. by eapply IH.
Qed.

Lemma table_aligned m r p a π :
  r mod PAGE_SIZE = 0 → down m r ptop p = Some (a, π) → a = frame_of a * PAGE_SIZE.
Proof.
  intros Hr Hd. assert (a mod PAGE_SIZE = 0) as Ha.
  - destruct p as [|i p]; [by simplify_eq/=|]. destruct (down_addr m (i :: p) r ptop a π) as [e ->]; [done..|].
    destruct (addr_of_form e) as (g & -> & _). by apply Z.mod_mul.
  - unfold frame_of. rewrite Z.mul_comm. by apply Z.div_exact.
Qed.

(** The frame allocator moves on. *)
Lemma aspace_pmm s r pm :
  aspace s r → wf pm → total_frames pm = total_frames (mm_pmm s) →
  (∀ f, f ∈ free_set pm → f ≠ 0 ∧ is_page (mm_mem s) (f * PAGE_SIZE) ∧ ¬ table_of (mm_mem s) r (f * PAGE_SIZE)) →
  aspace (set_pmm pm s) r.
Proof.
  intros [[_ _ Ht _] Hroot Htb Hown Hhg Hlg] Hw Htot Hf. split; simpl; try done.
  - split; simpl; [done| |lia|].
    + intros H0. by destruct (Hf 0 H0).
    + intros f Hin. by apply Hf.
  - intros p a π Hp Hd. destruct (Htb p a π Hp Hd) as [Hpg Hn]. split; [done|]. intros Hin.
    destruct (Hf _ Hin) as (_ & _ & Hnt). apply Hnt. exists p, π. split; [done|].
    rewrite Hd. do 2 f_equal. eapply table_aligned; [apply Hroot|done].
Qed.

Section frames.
Context (s : mmu) (n : Z) (P : kpages) (F : gset Z) (Hk : kmem s n P F).
Local Abbreviation k := (kernel_root s).

Lemma km_pmm pm F' :
  wf pm → total_frames pm = total_frames (mm_pmm s) →
  (∀ f, f ∈ free_set pm → f ≠ 0 ∧ is_page (mm_mem s) (f * PAGE_SIZE) ∧ ¬ table_of (mm_mem s) k (f * PAGE_SIZE) ∧
        ∀ v l, P !! v ≠ Some (f, l)) →
  (∀ f, f ∈ F' → (f ∉ free_set pm) ∧ (∀ v l, P !! v ≠ Some (f, l)) ∧ ∃ l, held (set_pmm pm s) f l) →
  kmem (set_pmm pm s) n P F'.
Proof.
  intros Hw Ht Hfree HF. destruct Hk as [Has Hoff Hwin Hop Hsm Hdom Hpage Hinj Hsp].
  split; try done.
  - apply aspace_pmm; try done. intros f Hf. destruct (Hfree f Hf) as (? & ? & ? & _). done.
  - intros v f l HP. destruct (Hpage v f l HP) as (Hm & [? ? ? ? ? ?] & _). split_and!; [done| |].
    + split; try done; [simpl; by rewrite Ht|]. intros Hf. destruct (Hfree f Hf) as (_ & _ & _ & Hn). by eapply Hn.
    + intros Hf. destruct (HF f Hf) as (_ & Hn & _). by eapply Hn.
  - intros f Hf. by destruct (HF f Hf) as (_ & _ & Hl).
Qed.

Lemma km_free_data f : f ∈ free_set (mm_pmm s) →
  f ≠ 0 ∧ is_page (mm_mem s) (f * PAGE_SIZE) ∧ ¬ table_of (mm_mem s) k (f * PAGE_SIZE) ∧ (∀ v l, P !! v ≠ Some (f, l)) ∧ f ∉ F.
Proof.
  intros Hf. destruct (as_ram _ _ (km_as _ _ _ _ Hk)) as [_ Hz _ Hr]. split_and!.
  - intros ->. done.
  - by apply Hr.
  - intros (q & π & Hq & Hd). apply (as_table _ _ (km_as _ _ _ _ Hk) q _ π Hq Hd). by rewrite frame_of_mul.
  - intros v l HP. destruct (km_page _ _ _ _ Hk v f l HP) as (_ & Hh & _). by apply (he_used _ _ _ _ Hh).
  - intros HF. destruct (km_spare _ _ _ _ Hk f HF) as [l Hh]. by apply (he_used _ _ _ _ Hh).
Qed.

(** Frames taken from the free set become spare. *)
Lemma km_take pm T :
  T ⊆ free_set (mm_pmm s) → wf pm → total_frames pm = total_frames (mm_pmm s) →
  free_set pm = free_set (mm_pmm s) ∖ T → kmem (set_pmm pm s) n P (T ∪ F).
Proof.
  intros HT Hw Ht Hfree. apply km_pmm; try done.
  - intros f Hf. destruct (km_free_data f) as (? & ? & ? & ? & _); [set_solver|]. done.
  - intros f [Hf|Hf]%elem_of_union.
    + destruct (km_free_data f) as (? & (l & Hl & Hlen) & ? & ? & _); [set_solver|].
      split_and!; [set_solver|done|]. exists l. pose proof (ro_total _ (as_ram _ _ (km_as _ _ _ _ Hk))).
      pose proof (HT _ Hf) as Hin. apply elem_of_free_set in Hin as [Hr _].
      split; simpl; try done; [lia|lia|set_solver].
    + destruct (km_spare _ _ _ _ Hk f Hf) as [l Hh]. pose proof Hh as [? ? ? ? Hu ?].
      split_and!; [set_solver| |].
      * intros v x HP. by destruct (km_page _ _ _ _ Hk v f x HP) as (_ & _ & Hn).
      * exists l. split; simpl; try done; [lia|set_solver].
Qed.

(** Spare frames are given back. *)
Lemma km_give pm T :
  T ⊆ F → wf pm → total_frames pm = total_frames (mm_pmm s) →
  free_set pm = free_set (mm_pmm s) ∪ T → kmem (set_pmm pm s) n P (F ∖ T).
Proof.
  intros HT Hw Ht Hfree. apply km_pmm; try done.
  - intros f Hf. rewrite Hfree in Hf. apply elem_of_union in Hf as [Hf|Hf].
    + destruct (km_free_data f) as (? & ? & ? & ? & _); done.
    + destruct (km_spare _ _ _ _ Hk f) as [l Hh]; [set_solver|]. pose proof Hh as [? Hm Hlen ? ? ?].
      split_and!; [lia|by exists l|done|]. intros v x HP.
      destruct (km_page _ _ _ _ Hk v f x HP) as (_ & _ & Hn). set_solver.
  - intros f [Hf Hn]%elem_of_difference. destruct (km_spare _ _ _ _ Hk f Hf) as [l Hh].
    pose proof Hh as [? ? ? ? Hu ?]. split_and!; [set_solver| |].
    + intros v x HP. by destruct (km_page _ _ _ _ Hk v f x HP) as (_ & _ & HnF).
    + exists l. split; simpl; try done; [lia|set_solver].
Qed.

Lemma wp_take_frame (Q : Z → mmu → Prop) :
  Q 0 s → (∀ f s', 0 < f → f ∉ F → kmem s' n P ({[f]} ∪ F) → kernel_root s' = k → Q (f * PAGE_SIZE) s') → wp alloc_frame Q s.
Proof.
  intros HQ0 HQ. apply wp_alloc_page; [apply (as_ram _ _ (km_as _ _ _ _ Hk))|done|].
  intros f pm Hf Hf40 Hw Ht Hfree. apply HQ; [lia|by destruct (km_free_data f Hf) as (_ & _ & _ & _ & ?)| |done].
  apply km_take; try done. set_solver.
Qed.

Lemma wp_take_frames count (Q : Z → mmu → Prop) :
  0 < count < 2 ^ 63 → Q 0 s →
  (∀ f s', 0 < f → frames f count ## F → kmem s' n P (frames f count ∪ F) → kernel_root s' = k → Q (f * PAGE_SIZE) s') →
  wp (zoom mm_pmm set_pmm (pmm_alloc_frames count)) Q s.
Proof.
  intros Hc HQ0 HQ. pose proof (as_ram _ _ (km_as _ _ _ _ Hk)) as [Hw _ _ _].
  apply wp_zoom. eapply wp_mono; [by apply wp_alloc_frames|]. intros a pm Hspec.
  destruct Hspec as [He|f pm [Hf Hsub] _ [Hw' Ht' _ Hfree]].
  - by replace (set_pmm (mm_pmm s) s) with s by (by destruct s).
  - rewrite Z.shiftl_mul_pow2 by done. change (2 ^ PAGE_SHIFT) with PAGE_SIZE.
    apply HQ; [| | |done].
    + assert (f ∈ free_set (mm_pmm s)) as Hin by (apply Hsub, elem_of_frames; lia).
      destruct (km_free_data f Hin) as (? & _). lia.
    + intros g Hg. apply Hsub in Hg. by destruct (km_free_data g Hg) as (_ & _ & _ & _ & ?).
    + by apply km_take.
Qed.

Lemma wp_give_frames f count (Q : unit → mmu → Prop) :
  0 < f → 0 < count < 2 ^ 40 → frames f count ⊆ F →
  (∀ s', kmem s' n P (F ∖ frames f count) → kernel_root s' = k → Q tt s') →
  wp (zoom mm_pmm set_pmm (pmm_free_frames (f * PAGE_SIZE) count)) Q s.
Proof.
  intros Hf Hc Hsub HQ. pose proof (as_ram _ _ (km_as _ _ _ _ Hk)) as [Hw _ Ht _].
  apply wp_zoom. eapply wp_free_frames; [done| |lia|].
  { destruct (km_spare _ _ _ _ Hk f) as [l Hh]; [apply Hsub, elem_of_frames; lia|].
    pose proof (he_range _ _ _ _ Hh). unfold PAGE_SIZE. lia. }
  intros pm [Hw' Ht' _ Hfree]. apply HQ; [|done]. apply km_give; try done. rewrite Hfree. f_equal.
  change PAGE_SIZE with (2 ^ PAGE_SHIFT). rewrite <-Z.shiftl_mul_pow2, shiftr_shiftl_page by done.
  apply set_eq. intros g. rewrite elem_of_intersection, !elem_of_frames. split; [tauto|]. intros Hg. split; [done|].
  destruct (km_spare _ _ _ _ Hk g) as [l Hh]; [by apply Hsub, elem_of_frames|].
  pose proof (he_total _ _ _ _ Hh). pose proof (he_range _ _ _ _ Hh). lia.
Qed.
End frames.

(** ** Mapping and unmapping *)

(** Pages [n], [n + 1], ... of the window now map frames [f], [f + 1], ... with
    words [ls]. *)
Fixpoint add_pages (P : kpages) (n f : Z) (ls : list (list Z)) : kpages :=
  match ls with
  | [] => P
  | l :: ls' => <[window_page n := (f, l)]> (add_pages P (n + 1) (f + 1) ls')
  end.

Lemma window_page_inj a b : window_page a = window_page b → a = b.
Proof. unfold window_page, PAGE_SIZE. lia. Qed.

Lemma lookup_add_pages P n f ls v x :
  add_pages P n f ls !! v = Some x →
  (∃ j l, ls !! j = Some l ∧ v = window_page (n + Z.of_nat j) ∧ x = (f + Z.of_nat j, l)) ∨ P !! v = Some x.
Proof.
  revert n f. induction ls as [|l ls IH]; intros n f; simpl; [by right|].
  destruct (decide (v = window_page n)) as [->|Hne].
  - rewrite lookup_insert_eq. intros [= <-]. left. exists 0%nat, l. by rewrite !Z.add_0_r.
  - rewrite lookup_insert_ne by done. intros [(j & l' & Hj & -> & ->)|HP]%IH; [left|by right].
    exists (S j), l'. split; [done|]. split; f_equal; lia.
Qed.

Lemma lookup_add_pages_in P n f ls j l :
  ls !! j = Some l → add_pages P n f ls !! window_page (n + Z.of_nat j) = Some (f + Z.of_nat j, l).
Proof.
  revert n f j. induction ls as [|l' ls IH]; intros n f [|j] Hj; try done; cbn [add_pages].
  - simplify_eq/=. rewrite !Z.add_0_r. by rewrite lookup_insert_eq.
  - rewrite lookup_insert_ne by (intros ?%window_page_inj; lia).
    replace (n + Z.of_nat (S j)) with (n + 1 + Z.of_nat j) by lia.
    replace (f + Z.of_nat (S j)) with (f + 1 + Z.of_nat j) by lia. by apply IH.
Qed.

Lemma lookup_add_pages_out P n f ls v :
  (∀ j, (j < length ls)%nat → v ≠ window_page (n + Z.of_nat j)) → add_pages P n f ls !! v = P !! v.
Proof.
  revert n f. induction ls as [|l ls IH]; intros n f Hv; [done|]. simpl.
  rewrite lookup_insert_ne.
  - apply IH. intros j Hj. replace (n + 1 + Z.of_nat j) with (n + Z.of_nat (S j)) by lia. apply Hv. simpl. lia.
  - intros <-. apply (Hv 0%nat); [simpl; lia|]. by rewrite Z.add_0_r.
Qed.

Section mapping.
Context (s : mmu) (n : Z) (P : kpages) (F : gset Z) (Hk : kmem s n P F).
Local Abbreviation k := (kernel_root s).

Lemma evolves_maps T s' v f :
  evolves 508 k s T s' → T (vpath v) = xlate (mm_mem s) k ptop (vpath v) → maps s v f → maps s' v f.
Proof.
  intros He HT (x & Hx & Hpa & Hw). exists x. split; [|done]. unfold translate.
  rewrite (ev_kernel _ _ _ _ _ He), (ev_xl _ _ _ _ _ He) by apply vpath_is_vpath. by rewrite HT.
Qed.

(** The tables of the window change, but not for the pages in use. *)
Lemma km_evolves T s' P' F' n' o :
  evolves 508 k s T s' → o = n' * PAGE_SIZE → 0 ≤ n' ≤ 2 ^ 27 → window_ok (set_offset o s') n' →
  (∀ v x, P' !! v = Some x → ∃ j, 0 ≤ j < n' ∧ v = window_page j) →
  (∀ v f l, P' !! v = Some (f, l) → (maps s' v f ∧ ∃ l', held s f l' ∧ l' = l) ∧ f ∉ F') →
  (∀ v v' f l l', P' !! v = Some (f, l) → P' !! v' = Some (f, l') → v = v') →
  (∀ f, f ∈ F' → ∃ l, held s f l) →
  kmem (set_offset o s') n' P' F'.
Proof.
  intros He -> Hn Hwin Hdom Hpage Hinj Hsp. pose proof (ev_kernel _ _ _ _ _ He) as Hroot.
  assert (∀ f l, held s f l → held (set_offset (n' * PAGE_SIZE) s') f l) as Hheld.
  { intros f l Hh. destruct (evolves_held _ _ _ _ _ _ _ He Hh). rewrite <-Hroot in *. by split. }
  split; try done.
  - simpl. rewrite Hroot. destruct (ev_as _ _ _ _ _ He) as [[? ? ? ?] ? ? ? ? ?]. by split.
  - intros q Hq Hth. simpl. rewrite Hroot, (ev_upper _ _ _ _ _ He) by done. by apply (km_open _ _ _ _ Hk).
  - intros q a π i e Hq Hth Hd Hen. simpl in Hd, Hen. rewrite Hroot in Hd.
    destruct (flag e X86_PTE_HUGE) eqn:Hh; [|done]. rewrite <-Hh.
    destruct (ev_large _ _ _ _ _ He q a π i e Hq Hd Hen Hh). by eapply (km_small _ _ _ _ Hk).
  - intros v f l HP. destruct (Hpage v f l HP) as [(Hm & l' & Hh & <-) Hn']. split_and!; [done|by apply Hheld|done].
  - intros f Hf. destruct (Hsp f Hf) as [l Hl]. exists l. by apply Hheld.
Qed.

Lemma set_offset_same s' : set_offset (next_offset s') s' = s'.
Proof. by destruct s'. Qed.

(** The mappings in use are not the ones that change. *)
Lemma mapped_use f flags i v x :
  P !! v = Some x → n + Z.of_nat i ≤ 2 ^ 27 →
  mapped s n f flags i (vpath v) = xlate (mm_mem s) k ptop (vpath v).
Proof.
  intros HP Hi. apply mapped_out. intros j Hj Heq.
  destruct (km_dom _ _ _ _ Hk v x HP) as (j' & Hj' & ->).
  destruct (km_off _ _ _ _ Hk). apply window_inj in Heq; lia.
Qed.

(** Nothing changes for the view. *)
Lemma km_same T s' :
  evolves 508 k s T s' → (∀ v x, P !! v = Some x → T (vpath v) = xlate (mm_mem s) k ptop (vpath v)) →
  window_ok s' n → kmem s' n P F.
Proof.
  intros He HT Hwin. rewrite <-(set_offset_same s'). destruct (km_off _ _ _ _ Hk) as [Hoff Hn].
  pose proof (ev_offset _ _ _ _ _ He) as Hoff'.
  eapply km_evolves; [exact He|by rewrite Hoff'|done|by rewrite set_offset_same|apply (km_dom _ _ _ _ Hk)| |
    apply (km_inj _ _ _ _ Hk)|apply (km_spare _ _ _ _ Hk)].
  intros v f l HP. destruct (km_page _ _ _ _ Hk v f l HP) as (Hm & Hh & Hf).
  split; [|done]. split; [|eauto]. eapply evolves_maps; [done|by eapply HT|done].
Qed.

Lemma spare_words f c :
  frames f (Z.of_nat c) ⊆ F → ∃ ls, length ls = c ∧ ∀ j l, ls !! j = Some l → held s (f + Z.of_nat j) l.
Proof.
  induction c as [|c IH]; intros Hsub; [by exists []|].
  destruct IH as (ls & Hlen & Hls).
  { intros g Hg. apply Hsub. rewrite elem_of_frames in *. lia. }
  destruct (km_spare _ _ _ _ Hk (f + Z.of_nat c)) as [l Hl]; [apply Hsub, elem_of_frames; lia|].
  exists (ls ++ [l]). split; [rewrite length_app; simpl; lia|]. intros j l'.
  rewrite lookup_app_Some. intros [Hj|[Hge Hj]]; [by apply Hls|].
  apply list_lookup_singleton_Some in Hj as [Hj <-]. by replace j with c by lia.
Qed.

(** The pages a successful [vmm_mmap_phys] adds. *)
Lemma km_mapped f pages ls s' :
  0 < f → 0 < pages → n + pages ≤ 2 ^ 27 → frames f pages ⊆ F →
  (∀ j, n ≤ j < 2 ^ 27 → translate s k (window_page j) = None) →
  length ls = Z.to_nat pages → (∀ j l, ls !! j = Some l → held s (f + Z.of_nat j) l) →
  evolves 508 k s (mapped s n f MMU_WRITE (Z.to_nat pages)) s' →
  kmem (set_offset ((n + pages) * PAGE_SIZE) s') (n + pages) (add_pages P n f ls) (F ∖ frames f pages).
Proof.
  intros Hf Hp Hnp Hsub Hfree Hlen Hls He. destruct (km_off _ _ _ _ Hk) as [Hoff Hn].
  pose proof (ev_kernel _ _ _ _ _ He) as Hroot.
  assert (∀ j l, ls !! j = Some l → Z.of_nat j < pages) as Hj.
  { intros j l Hl. apply lookup_lt_Some in Hl. lia. }
  eapply km_evolves; [exact He|done|lia| | | | |].
  - left. intros j Hj'. unfold translate. cbn [kernel_root mm_mem set_offset]. rewrite Hroot, (ev_xl _ _ _ _ _ He) by apply vpath_is_vpath.
    rewrite mapped_out; [apply Hfree; lia|]. intros i Hi Heq%window_inj; lia.
  - intros v x [(j & l & Hl & -> & _)|HP]%lookup_add_pages.
    + exists (n + Z.of_nat j). specialize (Hj j l Hl). split; [lia|done].
    + destruct (km_dom _ _ _ _ Hk v x HP) as (j & ? & ->). exists j. split; [lia|done].
  - intros v g l [(j & l' & Hl & -> & [= -> ->])|HP]%lookup_add_pages.
    + specialize (Hj j l' Hl). split; [split; [|eauto]|].
      * eexists. unfold translate. rewrite Hroot, (ev_xl _ _ _ _ _ He) by apply vpath_is_vpath.
        rewrite (mapped_in s n f MMU_WRITE (Z.to_nat pages) (Z.of_nat j)) by lia.
        split_and!; [done|done|]. cbn [mapping x_perm p_w]. change (flag MMU_WRITE MMU_WRITE) with true. rewrite andb_true_r. apply (km_open _ _ _ _ Hk); [apply vpath_is_vpath|].
        apply window_private. lia.
      * rewrite elem_of_difference, elem_of_frames. lia.
    + destruct (km_page _ _ _ _ Hk v g l HP) as (Hm & Hh & Hg). split; [|set_solver]. split; [|eauto].
      eapply evolves_maps; [done| |done]. eapply mapped_use; [done|lia].
  - assert (∀ v v' g j l x, ls !! j = Some l → v = window_page (n + Z.of_nat j) → g = f + Z.of_nat j →
      P !! v' = Some (g, x) → False) as Hno.
    { intros v v' g j l x Hl -> -> HP. destruct (km_page _ _ _ _ Hk _ _ _ HP) as (_ & _ & Hn').
      apply Hn', Hsub, elem_of_frames. specialize (Hj j l Hl). lia. }
    intros v v' g l l' [(j & x & Hl & -> & [= Hg ->])|HP]%lookup_add_pages
      [(j' & x' & Hl' & -> & [= Hg' ->])|HP']%lookup_add_pages; [f_equal; lia|exfalso; by eapply Hno..|].
    by eapply (km_inj _ _ _ _ Hk).
  - intros g [Hg _]%elem_of_difference. by apply (km_spare _ _ _ _ Hk).
Qed.

Lemma wp_kmap f pages (Q : Z → mmu → Prop) :
  0 < f → 0 < pages → n + pages ≤ 2 ^ 27 → frames f pages ⊆ F →
  (∀ s' ls, length ls = Z.to_nat pages → Forall (λ l, length l = 512%nat) ls →
     kmem s' (n + pages) (add_pages P n f ls) (F ∖ frames f pages) → kernel_root s' = k → Q (window_page n) s') →
  (∀ s', kmem s' n P F → kernel_root s' = k → Q 0 s') →
  wp (vmm_mmap_phys (f * PAGE_SIZE) pages MMU_WRITE) Q s.
Proof.
  intros Hf Hp Hnp Hsub HQ HQ0. destruct (km_off _ _ _ _ Hk) as [Hoff Hn].
  assert (f + pages ≤ 2 ^ 40) as Hfp.
  { destruct (km_spare _ _ _ _ Hk (f + pages - 1)) as [l Hl]; [apply Hsub, elem_of_frames; lia|].
    pose proof (he_range _ _ _ _ Hl). lia. }
  destruct (km_win _ _ _ _ Hk) as [Hfree|[Hn27 Hstuck]].
  - apply (wp_mmap_phys s n); [apply (km_as _ _ _ _ Hk)|done|done|lia|lia|lia|lia|lia|..].
    + intros j Hj. apply Hfree. lia.
    + intros s' He. destruct (spare_words f (Z.to_nat pages)) as (ls & Hlen & Hls); [by rewrite Z2Nat.id by lia|].
      apply (HQ _ ls); [done| |by apply km_mapped|apply (ev_kernel _ _ _ _ _ He)].
      apply Forall_lookup. intros j l Hl. apply (he_len _ _ _ _ (Hls j l Hl)).
    + intros s' i Hi He _. apply HQ0; [|apply (ev_kernel _ _ _ _ _ He)]. eapply km_same; [exact He| |].
      * intros v x HP. eapply mapped_use; [done|lia].
      * unfold window_ok, translate. rewrite (ev_kernel _ _ _ _ _ He). destruct i as [|i]; [left|right; split; [lia|]].
        -- intros j Hj. rewrite (ev_xl _ _ _ _ _ He) by apply vpath_is_vpath. by apply Hfree.
        -- rewrite (ev_xl _ _ _ _ _ He) by apply vpath_is_vpath.
           pose proof (mapped_in s n f MMU_WRITE (S i) 0) as Hin. rewrite Z.add_0_r in Hin.
           rewrite Hin by lia. done.
  - destruct (translate s k (window_page n)) as [x|] eqn:Hx; [|done].
    apply (wp_mmap_stuck s n f pages MMU_WRITE x); [apply (km_as _ _ _ _ Hk)|done|done|lia|lia|lia|done|].
    intros s' He. apply HQ0; [|apply (ev_kernel _ _ _ _ _ He)]. eapply km_same; [exact He|done|].
    right. split; [done|]. unfold translate in *. rewrite (ev_kernel _ _ _ _ _ He).
    rewrite (ev_xl _ _ _ _ _ He) by apply vpath_is_vpath. by rewrite Hx.
Qed.
End mapping.

(** A page mapped below entries that are not large has a page table. *)
Lemma xlate_table m a π p x :
  (2 ≤ length p)%nat → xlate m a π p = Some x →
  (∀ p1 i p2 b π1 e, p = p1 ++ i :: p2 → p2 ≠ [] → down m a π p1 = Some (b, π1) → entry m b i = Some e →
     flag e X86_PTE_HUGE = false) →
  is_Some (down m a π (take (length p - 1) p)).
Proof.
  revert a π. induction p as [|i p IH]; intros a π Hlen Hx Hsm; [simpl in Hlen; lia|].
  destruct p as [|j p]; [simpl in Hlen; lia|]. cbn [xlate] in Hx.
  destruct (entry m a i) as [e|] eqn:He; [|done]. destruct (flag e X86_PTE_PRESENT) eqn:Hp; [|done]. cbn [negb] in Hx.
  pose proof (Hsm [] i (j :: p) a π e eq_refl ltac:(done) eq_refl He) as Hh. rewrite Hh in Hx.
  replace (take (length (i :: j :: p) - 1) (i :: j :: p)) with (i :: take (length (j :: p) - 1) (j :: p)).
  2:{ simpl. by rewrite Nat.sub_0_r. }
  cbn [down]. rewrite He, Hp, Hh. cbn [andb negb].
  destruct p as [|k p]; [by eexists|]. apply IH; [simpl; lia|done|].
  intros p1 i' p2 b π1 e' Heq Hp2 Hd. apply (Hsm (i :: p1) i' p2 b π1 e'); [by rewrite Heq|done|].
  simpl. by rewrite He, Hp, Hh.
Qed.

Section unmapping.
Context (s : mmu) (n : Z) (P : kpages) (F : gset Z) (Hk : kmem s n P F).
Local Abbreviation k := (kernel_root s).

Lemma km_table v x :
  P !! v = Some x → is_Some (down (mm_mem s) k ptop (take 3 (vpath v))).
Proof.
  destruct x as [f l]. intros HP. destruct (km_page _ _ _ _ Hk v f l HP) as ((y & Hy & _) & _).
  destruct (km_dom _ _ _ _ Hk v _ HP) as (j & Hj & ->). destruct (km_off _ _ _ _ Hk).
  destruct (window_private j) as [_ Hth]; [lia|]. destruct (vpath_is_vpath (window_page j)) as [Hlen _].
  change 3%nat with (4 - 1)%nat. rewrite <-Hlen. eapply xlate_table; [lia|exact Hy|].
  intros p1 i p2 b π1 e Heq Hp2 Hd He. eapply (km_small _ _ _ _ Hk p1); [| |done|done].
  - rewrite Heq, length_app in Hlen. destruct p2; [done|]. simpl in Hlen. lia.
  - rewrite Heq in Hth. by destruct p1.
Qed.

Lemma wp_kunmap v f l (Q : Z → mmu → Prop) :
  P !! v = Some (f, l) →
  (∀ s', kmem s' n (delete v P) ({[f]} ∪ F) → kernel_root s' = k → Q 0 s') →
  wp (vmm_unmap_page v) Q s.
Proof.
  intros HP HQ. pose proof HP as Htb%km_table. destruct (km_page _ _ _ _ Hk v f l HP) as ((y & Hy & _) & Hh & HfF).
  destruct (km_dom _ _ _ _ Hk v _ HP) as (j & Hj & ->). destruct (km_off _ _ _ _ Hk) as [Hoff Hn].
  destruct (window_private j) as [Hpr Hth]; [lia|].
  apply (wp_mmu_unmap 508); [apply (km_as _ _ _ _ Hk)|done..|].
  change (root_of s 0) with k. intros ret s' [[-> He]|(_ & _ & _ & Hd)]; cbn [op_virt] in *.
  2:{ rewrite Hd in Htb. by destruct Htb. }
  rewrite Hy in *. cbn [a_result a_page] in *. apply HQ; [|apply (ev_kernel _ _ _ _ _ He)].
  rewrite <-(set_offset_same s'). eapply (km_evolves s n P F Hk); [exact He| |done| | | | |].
  - by rewrite (ev_offset _ _ _ _ _ He).
  - unfold window_ok, translate. cbn [kernel_root mm_mem set_offset].
    rewrite (ev_kernel _ _ _ _ _ He). unfold retarget in He.
    destruct (km_win _ _ _ _ Hk) as [Hw|[Hn27 Hw]]; [left; intros i Hi|right; split; [done|]];
      rewrite (ev_xl _ _ _ _ _ He), decide_False by (apply vpath_is_vpath || (intros ?%window_inj; lia)); [by apply Hw|done].
  - intros v x [_ HP']%lookup_delete_Some. by eapply (km_dom _ _ _ _ Hk).
  - intros v g x [Hne HP']%lookup_delete_Some. destruct (km_page _ _ _ _ Hk v g x HP') as (Hm & Hhg & Hg).
    split; [split; [|eauto]|].
    + eapply evolves_maps; [exact He| |done]. unfold retarget. rewrite decide_False; [done|].
      destruct (km_dom _ _ _ _ Hk v _ HP') as (i & Hi & ->). intros Heq%window_inj; [|lia..]. by subst.
    + intros [->%elem_of_singleton|?]%elem_of_union; [|done]. apply Hne. by eapply (km_inj _ _ _ _ Hk).
  - intros v v' g x x' [_ H1]%lookup_delete_Some [_ H2]%lookup_delete_Some. by eapply (km_inj _ _ _ _ Hk).
  - intros g [->%elem_of_singleton|Hg]%elem_of_union; [by exists l|by apply (km_spare _ _ _ _ Hk)].
Qed.

(** [pmm_free_frame] of a spare frame. *)
Lemma wp_give_frame f (Q : unit → mmu → Prop) :
  0 < f → f ∈ F → (∀ s', kmem s' n P (F ∖ {[f]}) → kernel_root s' = k → Q tt s') → wp (free_frame (f * PAGE_SIZE)) Q s.
Proof.
  intros Hf HfF HQ. pose proof (as_ram _ _ (km_as _ _ _ _ Hk)) as [Hw _ Ht _].
  destruct (km_spare _ _ _ _ Hk f HfF) as [l Hh]. pose proof (he_total _ _ _ _ Hh).
  apply wp_zoom. eapply wp_free_frame; [done|unfold PAGE_SIZE; lia|].
  intros pm [Hw' Ht' _ Hfree]. apply HQ; [|done]. apply (km_give _ _ _ _ Hk); try done; [set_solver|].
  rewrite Hfree. f_equal. change PAGE_SIZE with (2 ^ PAGE_SHIFT). rewrite <-Z.shiftl_mul_pow2, shiftr_shiftl_page by done.
  apply set_eq. intros g. rewrite elem_of_intersection, !elem_of_frames, elem_of_singleton. lia.
Qed.
End unmapping.
