(* ===== verification/Umem.v ===== *)
(** * Umem: user memory as the kernel writes it

    The loader fills the pages of a new program at their user addresses while
    its page tables are active.  This file gives byte access through the active
    tables ([uload8], [ustore8], [ustore]) and the view of one root entry the
    loader is verified against: a map from virtual pages to frames, permissions
    and bytes.  The page tables of Mmu.v implement it. *)

From S2P Require Import Prelude BootMap Pmm Mmu Kmem.

#[local] Arguments for_up : simpl never.
#[local] Arguments for_ret : simpl never.

(** ** Accesses *)

Definition get_byte (w k : Z) : Z := Z.land (Z.shiftr w (8 * k)) 255.
Definition put_byte (w k b : Z) : Z := Z.lor (Z.land w (Z.lnot (Z.shiftl 255 (8 * k)))) (Z.shiftl b (8 * k)).

(** A byte access of kernel code at a virtual address under the active root. *)
Definition uload8 (v : Z) : M mmu Z :=
  r ← mmu_current_root;
  s ← gets id;
  match translate s r v with
  | Some x => w ← rd (x_pa x) (word_idx v); mret (get_byte w (v mod 8))
  | None => fault
  end.

Definition ustore8 (v b : Z) : M mmu unit :=
  r ← mmu_current_root;
  s ← gets id;
  match translate s r v with
  | Some x =>
    if p_w (x_perm x) then w ← rd (x_pa x) (word_idx v); wr (x_pa x) (word_idx v) (put_byte w (v mod 8) b)
    else fault
  | None => fault
  end.

(** The bytes [bs] at [v], in the order of [memcpy]. *)
Fixpoint ustore (v : Z) (bs : list Z) : M mmu unit :=
  match bs with
  | [] => mret tt
  | b :: bs => ustore8 v b ;; ustore (u64 (v + 1)) bs
  end.

(** A 64-bit word, lowest byte first. *)
Definition word_bytes (w : Z) : list Z := get_byte w <$> seqZ 0 8.
Definition ustore64 (v w : Z) : M mmu unit := ustore v (word_bytes w).

(** ** Bytes of words *)

Definition bytes_of (l : list Z) : list Z := l ≫= word_bytes.

Lemma get_byte_u8 w k : is_u8 (get_byte w k).
Proof. unfold get_byte, is_u8. change 255 with (2 ^ 8 - 1). rewrite land_ones_mod by done. by apply Z.mod_pos_bound. Qed.

Lemma get_put w k j b : 0 ≤ k → 0 ≤ j → is_u8 b → get_byte (put_byte w k b) j = if j =? k then b else get_byte w j.
Proof.
  intros Hk Hj Hb. unfold get_byte, put_byte. change 255 with (Z.ones 8). apply Z.bits_inj'. intros i Hi.
  rewrite Z.land_spec, Z.shiftr_spec, Z.lor_spec, Z.land_spec, Z.lnot_spec, !Z.shiftl_spec, !Z.testbit_ones by lia.
  destruct (Z.eqb_spec j k) as [->|Hne].
  - replace (i + 8 * k - 8 * k) with i by lia. replace (0 <=? i) with true by lia.
    destruct (Z.ltb_spec i 8); simpl; [|rewrite andb_false_r; symmetry; apply (testbit_small b 8); [done|lia]].
    by rewrite andb_false_r, orb_false_l, andb_true_r.
  - rewrite Z.land_spec, Z.shiftr_spec, Z.testbit_ones by lia. destruct (Z.ltb_spec i 8) as [H8|H8].
    2:{ by rewrite !andb_false_r. }
    assert (Z.testbit b (i + 8 * j - 8 * k) = false) as ->.
    { destruct (Z.lt_ge_cases (i + 8 * j - 8 * k) 0); [by apply Z.testbit_neg_r|]. apply (testbit_small b 8); [done|lia]. }
    replace ((0 <=? i + 8 * j - 8 * k) && (i + 8 * j - 8 * k <? 8)) with false by lia.
    simpl. by rewrite orb_false_r, andb_true_r.
Qed.

Lemma word_bytes_length w : length (word_bytes w) = 8%nat.
Proof. done. Qed.

Lemma bytes_of_length l : length (bytes_of l) = (8 * length l)%nat.
Proof. unfold bytes_of. induction l as [|w l IH]; [done|]. cbn [mbind list_bind]. rewrite length_app, IH, word_bytes_length. simpl length. lia. Qed.

Lemma word_bytes_put w k b : (k < 8)%nat → is_u8 b → word_bytes (put_byte w (Z.of_nat k) b) = <[k := b]> (word_bytes w).
Proof.
  intros Hk Hb. unfold word_bytes. apply list_eq. intros i. destruct (decide (i = k)) as [->|Hne].
  - rewrite list_lookup_insert_eq by (by rewrite length_fmap, length_seqZ). rewrite list_lookup_fmap, lookup_seqZ_lt, Z.add_0_l by lia.
    cbn [fmap option_fmap option_map]. by rewrite get_put, Z.eqb_refl by (done || lia).
  - rewrite list_lookup_insert_ne, !list_lookup_fmap by done. destruct (decide (i < 8)%nat) as [Hi|Hi].
    + rewrite lookup_seqZ_lt, Z.add_0_l by lia. cbn [fmap option_fmap option_map]. rewrite get_put by (done || lia).
      by rewrite (proj2 (Z.eqb_neq _ _)) by lia.
    + by rewrite !lookup_seqZ_ge by lia.
Qed.

(** Writing one byte of one word writes one byte. *)
Lemma bytes_of_put l i k w b :
  l !! i = Some w → (k < 8)%nat → is_u8 b → bytes_of (<[i := put_byte w (Z.of_nat k) b]> l) = <[(8 * i + k)%nat := b]> (bytes_of l).
Proof.
  revert i. induction l as [|x l IH]; intros i Hl Hk Hb; [done|]. destruct i as [|i]; simpl in Hl.
  - injection Hl as ->. change (word_bytes (put_byte w (Z.of_nat k) b) ++ bytes_of l = <[k := b]> (word_bytes w ++ bytes_of l)).
    rewrite word_bytes_put by done. by rewrite insert_app_l by (rewrite word_bytes_length; lia).
  - change (word_bytes x ++ bytes_of (<[i := put_byte w (Z.of_nat k) b]> l) = <[(8 * S i + k)%nat := b]> (word_bytes x ++ bytes_of l)).
    rewrite IH by done. rewrite insert_app_r_alt by (rewrite word_bytes_length; lia). do 2 f_equal. rewrite word_bytes_length. lia.
Qed.

Lemma bytes_of_lookup l i k w : l !! i = Some w → (k < 8)%nat → bytes_of l !! (8 * i + k)%nat = Some (get_byte w (Z.of_nat k)).
Proof.
  revert i. induction l as [|x l IH]; intros i Hl Hk; [done|]. change (bytes_of (x :: l)) with (word_bytes x ++ bytes_of l). destruct i as [|i]; simpl in Hl.
  - injection Hl as ->. rewrite lookup_app_l by (rewrite word_bytes_length; lia). unfold word_bytes. by rewrite list_lookup_fmap, lookup_seqZ_lt by lia.
  - rewrite lookup_app_r by (rewrite word_bytes_length; lia). rewrite <-(IH i) by done. f_equal. rewrite word_bytes_length. lia.
Qed.

(** ** The view *)

(** A page of user memory: its frame, what user code may do with it, its bytes. *)
Record upage := Upage { up_frame : Z; up_perm : perm; up_bytes : list Z }.
Abbreviation upages := (gmap Z upage).

(** The addresses root entry [h] covers, below the canonical hole. *)
Definition in_entry (h : nat) (v : Z) : Prop := Z.of_nat h * 2 ^ 39 ≤ v < (Z.of_nat h + 1) * 2 ^ 39.

(** Page [v] of root [r]. *)
Definition backs (s : mmu) (r v : Z) (p : upage) : Prop :=
  ∃ x l, translate s r v = Some x ∧ x_pa x = up_frame p * PAGE_SIZE ∧ x_perm x = up_perm p ∧
    held_in s r (up_frame p) l ∧ up_bytes p = bytes_of l.

(** The active root is [r], and [U] is everything entry [h] of it maps. *)
Record umem (s : mmu) (r : Z) (h : nat) (U : upages) : Prop := Umem {
  um_as : aspace s r;
  um_active : addr_of (mm_cr3 s) = r;
  um_open : ∀ q, is_vpath q → through h q → upper (mm_mem s) r ptop q = ptop;
  um_small : ∀ q a π i e, (length q ≤ 2)%nat → through h (q ++ [i]) →
    down (mm_mem s) r ptop q = Some (a, π) → entry (mm_mem s) a i = Some e → flag e X86_PTE_HUGE = false;
  um_page : ∀ v p, U !! v = Some p → in_entry h v ∧ v mod PAGE_SIZE = 0 ∧ backs s r v p;
  um_none : ∀ v, in_entry h v → U !! page_base v = None → translate s r v = None;
  um_inj : ∀ v v' p p', U !! v = Some p → U !! v' = Some p' → up_frame p = up_frame p' → v = v' }.

(** The memory the view may use: tables of entry [h], free frames, its pages. *)
Definition mine (s : mmu) (r : Z) (h : nat) (U : upages) (a : Z) : Prop :=
  owned h (mm_mem s) r a ∨ frame_of a ∈ free_set (mm_pmm s) ∨ ∃ v p, U !! v = Some p ∧ a = up_frame p * PAGE_SIZE.

(** Nothing else changes. *)
Record confined (r : Z) (h : nat) (s : mmu) (U : upages) (s' : mmu) (U' : upages) : Prop := Confined {
  cf_mem : ∀ a, ¬ mine s r h U a → mm_mem s' !! a = mm_mem s !! a;
  cf_mine : ∀ a, mine s' r h U' a → mine s r h U a;
  cf_free : free_set (mm_pmm s') ⊆ free_set (mm_pmm s);
  cf_total : total_frames (mm_pmm s') = total_frames (mm_pmm s);
  cf_kernel : kernel_root s' = kernel_root s;
  cf_cr3 : mm_cr3 s' = mm_cr3 s }.

Lemma confined_refl r h s U : confined r h s U s U.
Proof. by split. Qed.

Lemma confined_trans r h s1 U1 s2 U2 s3 U3 : confined r h s1 U1 s2 U2 → confined r h s2 U2 s3 U3 → confined r h s1 U1 s3 U3.
Proof.
  intros [Hm1 Hi1 ? ? ? ?] [Hm2 Hi2 ? ? ? ?]. split; try congruence; [|auto|set_solver].
  intros a Ha. rewrite Hm2, Hm1; auto.
Qed.

(** A run that keeps the view, and nothing else changes. *)
Definition umove (r : Z) (h : nat) (s : mmu) (U : upages) (s' : mmu) (U' : upages) : Prop :=
  umem s' r h U' ∧ confined r h s U s' U'.

Lemma umove_refl r h s U : umem s r h U → umove r h s U s U.
Proof. split; [done|apply confined_refl]. Qed.

Lemma umove_trans r h s1 U1 s2 U2 s3 U3 : umove r h s1 U1 s2 U2 → umove r h s2 U2 s3 U3 → umove r h s1 U1 s3 U3.
Proof. intros [_ ?] [? ?]. split; [done|]. by eapply confined_trans. Qed.

(** ** Addresses of an entry *)

Lemma page_base_le v : page_base v ≤ v < page_base v + PAGE_SIZE.
Proof. unfold page_base, PAGE_SIZE. pose proof (Z.div_mod v 4096). pose proof (Z.mod_pos_bound v 4096). lia. Qed.

Lemma page_base_mod v : page_base v mod PAGE_SIZE = 0.
Proof. unfold page_base. by rewrite Z.mod_mul. Qed.

Lemma page_base_aligned v : v mod PAGE_SIZE = 0 → page_base v = v.
Proof. unfold page_base, PAGE_SIZE. intros Hv. pose proof (Z.div_mod v 4096). lia. Qed.

Lemma page_base_offset v k : v mod PAGE_SIZE = 0 → 0 ≤ k < PAGE_SIZE → page_base (v + k) = v ∧ (v + k) mod PAGE_SIZE = k.
Proof.
  unfold page_base, PAGE_SIZE. intros Hv Hk. pose proof (Z.div_mod v 4096).
  assert ((v + k) / 4096 = v / 4096) as ->.
  { symmetry. apply (Z.div_unique _ _ _ k); lia. }
  split; [lia|]. symmetry. apply (Z.mod_unique _ _ (v / 4096)); lia.
Qed.

Lemma vpath_base v : vpath (page_base v) = vpath v.
Proof. apply vpath_page. apply page_base_page. Qed.

Section entry_addresses.
Context (h : nat) (Hh : private [h]) (Hlow : (h < 256)%nat).

Lemma in_entry_idx v : in_entry h v → Z.to_nat (idx_at 39 v) = h.
Proof.
  unfold in_entry, idx_at. intros Hv. change 0x1FF with (2 ^ 9 - 1). rewrite land_ones_mod, Z.shiftr_div_pow2 by done.
  assert (v / 2 ^ 39 = Z.of_nat h) as ->; [|rewrite Z.mod_small by lia; lia].
  symmetry. apply (Z.div_unique v (2 ^ 39) _ (v - 2 ^ 39 * Z.of_nat h)); lia.
Qed.

Lemma in_entry_through v : in_entry h v → through h (vpath v).
Proof. apply in_entry_idx. Qed.

Lemma in_entry_private v : in_entry h v → private (vpath v).
Proof. intros Hv. unfold private, vpath. simpl. rewrite (in_entry_idx v Hv). done. Qed.

Lemma in_entry_range v : in_entry h v → 0 ≤ v < 2 ^ 47.
Proof. unfold in_entry. lia. Qed.

Lemma in_entry_base v : in_entry h v → in_entry h (page_base v).
Proof.
  unfold in_entry. intros Hv. pose proof (page_base_le v). unfold page_base, PAGE_SIZE in *.
  pose proof (Z.div_le_mono (Z.of_nat h * 2 ^ 39) v 4096). rewrite (Z.mul_comm (Z.of_nat h)) in *.
  replace (2 ^ 39 * Z.of_nat h / 4096) with (2 ^ 27 * Z.of_nat h) in * by (replace (2 ^ 39 * Z.of_nat h) with (2 ^ 27 * Z.of_nat h * 4096) by lia; by rewrite Z.div_mul).
  lia.
Qed.

Lemma vpath_entry_inj v w : in_entry h v → in_entry h w → vpath v = vpath w → page_base v = page_base w.
Proof.
  intros Hv%in_entry_range Hw%in_entry_range Heq%vpath_inj. unfold page_base. f_equal.
  rewrite !Z.mod_small in Heq; [done|..]; unfold PAGE_SIZE; (split; [apply Z.div_pos; lia|apply Z.div_lt_upper_bound; lia]).
Qed.
End entry_addresses.

(** ** The active root stays *)

Definition keeps_cr3 {A} (m : M mmu A) : Prop := ∀ s a s', m s = Ok (a, s') → mm_cr3 s' = mm_cr3 s.

Lemma cr3_ret {A} (a : A) : keeps_cr3 (mret a).
Proof. by intros s b s' [= -> ->]. Qed.
Lemma cr3_gets {A} (f : mmu → A) : keeps_cr3 (gets f).
Proof. by intros s b s' [= <- <-]. Qed.
Lemma cr3_fault {A} : keeps_cr3 (@fault mmu A).
Proof. done. Qed.
Lemma cr3_bind {A B} (m : M mmu A) (k : A → M mmu B) : keeps_cr3 m → (∀ a, keeps_cr3 (k a)) → keeps_cr3 (m ≫= k).
Proof.
  intros Hm Hk s b s'. unfold mbind, M_bind. destruct (m s) as [[a s1]| |] eqn:E; [|done..].
  intros Hr. rewrite (Hk _ _ _ _ Hr). by eapply Hm.
Qed.
Lemma cr3_set_mem m : keeps_cr3 (modify (set_mem m)).
Proof. by intros s b s' [= <- <-]. Qed.
Lemma cr3_flush : keeps_cr3 flush_tlb.
Proof. by intros s b s' [= <- <-]. Qed.
Lemma cr3_pmm {A} (m : M pmm A) : keeps_cr3 (zoom mm_pmm set_pmm m).
Proof. intros s b s'. unfold zoom. destruct (m _) as [[a p]| |]; [|done..]. by intros [= <- <-]. Qed.
Lemma cr3_load {A} (l : list A) i : keeps_cr3 (load l i).
Proof. unfold load. destruct (if _ : bool then _ else _); [apply cr3_ret|apply cr3_fault]. Qed.
Lemma cr3_for_up n i (body : Z → M mmu unit) : (∀ i, keeps_cr3 (body i)) → keeps_cr3 (for_up n i body).
Proof. intros Hb. revert i. induction n as [|n IH]; intros i; simpl; [apply cr3_ret|]. apply cr3_bind; [done|]. intros _. apply IH. Qed.

Create HintDb cr3.
#[export] Hint Resolve cr3_ret cr3_gets cr3_fault cr3_set_mem cr3_flush cr3_pmm cr3_load : cr3.
Ltac keep_cr3 :=
  repeat match goal with
  | |- keeps_cr3 (_ ≫= _) => apply cr3_bind; [|intros ?]
  | |- keeps_cr3 (for_up _ _ _) => apply cr3_for_up; intros ?
  | |- keeps_cr3 (match ?x with _ => _ end) => destruct x
  end; auto with cr3.

Lemma cr3_rd a i : keeps_cr3 (rd a i).
Proof. unfold rd. keep_cr3. Qed.
Lemma cr3_wr a i v : keeps_cr3 (wr a i v).
Proof. unfold wr. keep_cr3. Qed.
#[export] Hint Resolve cr3_rd cr3_wr : cr3.
Lemma cr3_walk root v alloc : keeps_cr3 (walk_page root v alloc).
Proof. unfold walk_page, or_kernel, next_level, ensure_small, ensure_table, split_huge, zero_page, alloc_frame. keep_cr3. Qed.
#[export] Hint Resolve cr3_walk : cr3.
Lemma cr3_run_op root op : keeps_cr3 (run_op root op).
Proof.
  destruct op; simpl; unfold mmu_map, mmu_unmap, mmu_protect, mmu_virt_to_phys, or_kernel, flush_if_kernel, pte_flags; keep_cr3.
Qed.

Lemma wp_keeps_cr3 {A} (m : M mmu A) (P Q : A → mmu → Prop) s :
  keeps_cr3 m → wp m P s → (∀ a s', mm_cr3 s' = mm_cr3 s → P a s' → Q a s') → wp m Q s.
Proof. intros Hm (a & s' & Hr & HP)%wp_ok HQ. apply wp_ok. exists a, s'. split; [done|]. apply HQ; [by eapply Hm|done]. Qed.

(** ** Moves of the view *)

Section moves.
Context (r : Z) (h : nat).

(** The tables of the entry change, the data of its pages does not. *)
Lemma um_evolves s0 U0 s U T s' U' :
  umem s r h U → confined r h s0 U0 s U → evolves h r s T s' → mm_cr3 s' = mm_cr3 s →
  (∀ v p, U' !! v = Some p → in_entry h v ∧ v mod PAGE_SIZE = 0 ∧
     ∃ x l, T (vpath v) = Some x ∧ x_pa x = up_frame p * PAGE_SIZE ∧ x_perm x = up_perm p ∧
       held_in s r (up_frame p) l ∧ up_bytes p = bytes_of l) →
  (∀ v, in_entry h v → U' !! page_base v = None → T (vpath v) = None) →
  (∀ v v' p p', U' !! v = Some p → U' !! v' = Some p' → up_frame p = up_frame p' → v = v') →
  (∀ v p, U' !! v = Some p → mine s0 r h U0 (up_frame p * PAGE_SIZE)) →
  umove r h s0 U0 s' U'.
Proof.
  intros Hu [Hm0 Hi0 Hf0 Ht0 Hk0 Hc0] He Hc Hpage Hnone Hinj Hfr. split.
  - split.
    + apply (ev_as _ _ _ _ _ He).
    + rewrite Hc. apply (um_active _ _ _ _ Hu).
    + intros q Hq Hth. rewrite (ev_upper _ _ _ _ _ He) by done. by apply (um_open _ _ _ _ Hu).
    + intros q a π i e Hq Hth Hd Hen. destruct (flag e X86_PTE_HUGE) eqn:Hg; [|done]. rewrite <-Hg.
      destruct (ev_large _ _ _ _ _ He q a π i e Hq Hd Hen Hg). by eapply (um_small _ _ _ _ Hu).
    + intros v p Hv. destruct (Hpage v p Hv) as (Hin & Hal & x & l & HT & Hpa & Hpm & Hheld & Hb).
      split_and!; [done|done|]. exists x, l. split_and!; [|done|done|by eapply evolves_held|done].
      unfold translate. by rewrite (ev_xl _ _ _ _ _ He) by apply vpath_is_vpath.
    + intros v Hin Hv. unfold translate. rewrite (ev_xl _ _ _ _ _ He) by apply vpath_is_vpath. by apply Hnone.
    + done.
  - pose proof (ev_free _ _ _ _ _ He). pose proof (ev_total _ _ _ _ _ He). pose proof (ev_kernel _ _ _ _ _ He).
    split; [| |set_solver|congruence..].
    + intros a Ha. rewrite <-Hm0 by done. assert (¬ mine s r h U a) as Hn by auto.
      apply (ev_mem _ _ _ _ _ He); unfold mine in Hn; tauto.
    + intros a [Ho|[Hf|(v & p & Hv & ->)]].
      * apply Hi0. destruct (ev_owned _ _ _ _ _ He a Ho); [by left|by right; left].
      * apply Hi0. right; left. set_solver.
      * by eapply Hfr.
Qed.

(** A move that leaves every page alone. *)
Lemma um_kept s0 U0 s U s' :
  umem s r h U → confined r h s0 U0 s U → keeps h r s s' → mm_cr3 s' = mm_cr3 s → umove r h s0 U0 s' U.
Proof.
  intros Hu Hcf He Hc. eapply um_evolves; [done..| | | |].
  - intros v p Hv. destruct (um_page _ _ _ _ Hu v p Hv) as (? & ? & x & l & ?). eauto 6.
  - intros v. by apply (um_none _ _ _ _ Hu).
  - apply (um_inj _ _ _ _ Hu).
  - intros v p Hv. apply (cf_mine _ _ _ _ _ _ Hcf). right; right. eauto.
Qed.

(** The words of one page change. *)
Lemma um_data s U v p l' :
  umem s r h U → U !! v = Some p → length l' = 512%nat →
  umove r h s U (set_mem (<[up_frame p * PAGE_SIZE := l']> (mm_mem s)) s) (<[v := Upage (up_frame p) (up_perm p) (bytes_of l')]> U).
Proof.
  intros Hu Hv Hl'. destruct (um_page _ _ _ _ Hu v p Hv) as (Hin & Hal & x & l & Hx & Hpa & Hpm & Hheld & Hb).
  set (f := up_frame p) in *. set (s' := set_mem _ s).
  assert (∀ w q, <[v := Upage f (up_perm p) (bytes_of l')]> U !! w = Some q → ∃ q', U !! w = Some q' ∧ up_frame q' = up_frame q) as Hold.
  { intros w q. destruct (decide (w = v)) as [->|Hne]; [rewrite lookup_insert_eq; intros [= <-]; eauto|].
    rewrite lookup_insert_ne by done. eauto. }
  split.
  - split.
    + exact (data_aspace s r f l l' Hheld Hl' (um_as _ _ _ _ Hu)).
    + apply (um_active _ _ _ _ Hu).
    + intros q Hq Hth. transitivity (upper (mm_mem s) r ptop q); [|by apply (um_open _ _ _ _ Hu)]. apply upper_local.
      apply (data_same_on s r f l l' Hheld Hl' q). destruct Hq as [-> _]. lia.
    + intros q a π i e Hq Hth Hd. unfold s' in Hd. rewrite (data_down s r f l l' Hheld Hl') in Hd by lia.
      unfold s'. rewrite (data_entry s r f l l' Hheld q a π) by (done || lia). by eapply (um_small _ _ _ _ Hu).
    + intros w q Hw. destruct (decide (w = v)) as [->|Hne].
      * rewrite lookup_insert_eq in Hw. injection Hw as <-. split_and!; [done|done|]. exists x, l'. cbn [up_frame up_perm up_bytes].
        split_and!; [by rewrite (data_translate s r f l l' Hheld Hl')|done|done| |done].
        pose proof (data_held s r f l l' Hheld Hl' f l Hheld) as Hd. by rewrite decide_True in Hd.
      * rewrite lookup_insert_ne in Hw by done. destruct (um_page _ _ _ _ Hu w q Hw) as (? & ? & y & m & Hy & ? & ? & Hm & ?).
        split_and!; [done|done|]. exists y, m. split_and!; [by rewrite (data_translate s r f l l' Hheld Hl')|done|done| |done].
        pose proof (data_held s r f l l' Hheld Hl' _ m Hm) as Hd. rewrite decide_False in Hd; [done|].
        intros E. apply Hne. by eapply (um_inj _ _ _ _ Hu).
    + intros w Hw Hn. unfold s'. rewrite (data_translate s r f l l' Hheld Hl'). apply (um_none _ _ _ _ Hu w Hw).
      destruct (decide (page_base w = v)) as [E|Hne]; [by rewrite E, lookup_insert_eq in Hn|by rewrite lookup_insert_ne in Hn].
    + intros w w' q q' Hw Hw' E. destruct (Hold _ _ Hw) as (? & ? & ?), (Hold _ _ Hw') as (? & ? & ?).
      eapply (um_inj _ _ _ _ Hu); [done..|congruence].
  - split; try done.
    + intros a Ha. unfold s'. cbn. rewrite lookup_insert_ne; [done|]. intros <-. apply Ha. right; right. eauto.
    + intros a [Ho|[Hf|(w & q & Hw & ->)]].
      * left. destruct Ho as (q & π & Hq & Hth & Hd). exists q, π. split_and!; [done|done|].
        by rewrite <-(data_down s r f l l' Hheld Hl').
      * right; by left.
      * right; right. destruct (Hold _ _ Hw) as (q' & ? & <-). eauto.
Qed.

(** One byte of a page. *)
Definition put_page (k b : Z) (p : upage) : upage := Upage (up_frame p) (up_perm p) (<[Z.to_nat k := b]> (up_bytes p)).
Definition put (v b : Z) (U : upages) : upages := alter (put_page (v mod PAGE_SIZE) b) (page_base v) U.

Lemma wp_rd_data s p l v w (Q : Z → mmu → Prop) :
  held_in s r (up_frame p) l → l !! Z.to_nat (word_idx v) = Some w → Q w s → wp (rd (up_frame p * PAGE_SIZE) (word_idx v)) Q s.
Proof. intros Hl Hw HQ. apply (wp_rd _ _ w); [|apply word_idx_range|done]. unfold entry. by rewrite (he_mem _ _ _ _ Hl). Qed.

Lemma byte_in_word v : ∃ i k, Z.to_nat (v mod PAGE_SIZE) = (8 * i + k)%nat ∧ (k < 8)%nat ∧ i = Z.to_nat (word_idx v) ∧ v mod 8 = Z.of_nat k ∧ (i < 512)%nat.
Proof.
  exists (Z.to_nat (word_idx v)), (Z.to_nat (v mod 8)). unfold word_idx, PAGE_SIZE.
  pose proof (Z.mod_pos_bound v 8). pose proof (Z.mod_pos_bound v 4096).
  assert (v mod 4096 = 8 * (v mod 4096 / 8) + v mod 8) as E.
  { rewrite (Z.div_mod (v mod 4096) 8) at 1 by done. f_equal. change 4096 with (8 * 512). rewrite Z.rem_mul_r by done.
    rewrite Z.mul_comm, Z.mod_add by done. by rewrite Z.mod_mod. }
  assert (0 ≤ v mod 4096 / 8 < 512) by (split; [apply Z.div_pos; lia|apply Z.div_lt_upper_bound; lia]).
  split_and!; try lia.
Qed.

Lemma wp_ustore8 s U v b p (Q : unit → mmu → Prop) :
  umem s r h U → U !! page_base v = Some p → p_w (up_perm p) = true → is_u8 b →
  (∀ s', umove r h s U s' (put v b U) → Q tt s') → wp (ustore8 v b) Q s.
Proof.
  intros Hu Hp Hw Hb HQ. destruct (um_page _ _ _ _ Hu _ p Hp) as (Hin & Hal & x & l & Hx & Hpa & Hpm & Hheld & Hbs).
  assert (translate s r v = Some x) as Hxv by (rewrite <-Hx; unfold translate; by rewrite vpath_base).
  unfold ustore8, mmu_current_root, read_cr3. do 5 wp_step. change (Z.land (mm_cr3 s) X86_PTE_ADDR_MASK) with (addr_of (mm_cr3 s)).
  rewrite (um_active _ _ _ _ Hu). wp_step. cbn [id]. rewrite Hxv, Hpm, Hw, Hpa.
  destruct (byte_in_word v) as (i & k & Hi & Hk & Ei & Ek & Hi5).
  destruct (lookup_lt_is_Some_2 l i) as [w Hlw]; [by rewrite (he_len _ _ _ _ Hheld)|].
  wp_step. eapply wp_rd_data; [done|by rewrite <-Ei|]. unfold wr. wp_step. wp_step. rewrite (he_mem _ _ _ _ Hheld).
  wp_step. eapply wp_load; [apply word_idx_range|by rewrite <-Ei|]. wp_step. apply HQ.
  rewrite <-Ei, Ek. pose proof (um_data s U _ p (<[i := put_byte w (Z.of_nat k) b]> l) Hu Hp) as Hd.
  rewrite length_insert, (bytes_of_put l i k w b), <-Hbs, <-Hi in Hd by done.
  replace (put v b U) with (<[page_base v := put_page (v mod PAGE_SIZE) b p]> U); [apply Hd, (he_len _ _ _ _ Hheld)|].
  unfold put. apply map_eq. intros v'. destruct (decide (v' = page_base v)) as [->|Hne].
  - by rewrite lookup_insert_eq, lookup_alter_eq, Hp.
  - by rewrite lookup_insert_ne, lookup_alter_ne.
Qed.
End moves.

(** ** Stores of several bytes *)

Fixpoint puts (v : Z) (bs : list Z) (U : upages) : upages :=
  match bs with
  | [] => U
  | b :: bs => puts (v + 1) bs (put v b U)
  end.

Definition writable (U : upages) (v : Z) : Prop := ∃ p, U !! page_base v = Some p ∧ p_w (up_perm p) = true.
Definition ubyte (U : upages) (v : Z) : option Z := p ← U !! page_base v; up_bytes p !! Z.to_nat (v mod PAGE_SIZE).

Lemma put_writable v b U w : writable U w → writable (put v b U) w.
Proof.
  intros (p & Hp & Hw). unfold put. destruct (decide (page_base w = page_base v)) as [E|Hne].
  - exists (put_page (v mod PAGE_SIZE) b p). rewrite E in *. by rewrite lookup_alter_eq, Hp.
  - exists p. by rewrite lookup_alter_ne.
Qed.

Lemma puts_writable v bs U w : writable U w → writable (puts v bs U) w.
Proof. revert v U. induction bs as [|b bs IH]; intros v U Hw; [done|]. by apply IH, put_writable. Qed.

Lemma um_length r h s U v p : umem s r h U → U !! v = Some p → length (up_bytes p) = Z.to_nat PAGE_SIZE.
Proof. intros Hu Hv. destruct (um_page _ _ _ _ Hu v p Hv) as (_ & _ & x & l & _ & _ & _ & Hl & ->). by rewrite bytes_of_length, (he_len _ _ _ _ Hl). Qed.

(** What a store leaves at each address. *)
Lemma ubyte_put U v b w : is_Some (ubyte U v) → ubyte (put v b U) w = if decide (w = v) then Some b else ubyte U w.
Proof.
  intros [x Hx]. unfold ubyte, put in *. destruct (U !! page_base v) as [p|] eqn:Hp; [|done]. simpl in Hx.
  destruct (decide (page_base w = page_base v)) as [E|Hne].
  - rewrite E, lookup_alter_eq, Hp. simpl. case_decide as Hd.
    + subst w. apply list_lookup_insert_eq. by eapply lookup_lt_Some.
    + apply list_lookup_insert_ne. intros Hz. apply Hd. unfold page_base, PAGE_SIZE in *.
      pose proof (Z.mod_pos_bound v 4096). pose proof (Z.mod_pos_bound w 4096). pose proof (Z.div_mod v 4096). pose proof (Z.div_mod w 4096). lia.
  - rewrite lookup_alter_ne by done. case_decide; [by subst|done].
Qed.

Lemma ubyte_puts U v bs w :
  (∀ k, 0 ≤ k < Z.of_nat (length bs) → is_Some (ubyte U (v + k))) →
  ubyte (puts v bs U) w = if decide (v ≤ w < v + Z.of_nat (length bs)) then bs !! Z.to_nat (w - v) else ubyte U w.
Proof.
  revert U v. induction bs as [|b bs IH]; intros U v Hs; simpl puts.
  { simpl. rewrite decide_False by lia. done. }
  assert (is_Some (ubyte U v)) as Hv by (rewrite <-(Z.add_0_r v); apply Hs; simpl; lia).
  rewrite IH.
  - rewrite ubyte_put by done. simpl length. destruct (decide (w = v)) as [->|Hne].
    + rewrite decide_False by lia. rewrite decide_True by lia. by rewrite Z.sub_diag.
    + destruct (decide (v + 1 ≤ w < v + 1 + Z.of_nat (length bs))); [rewrite decide_True by lia|by rewrite decide_False by lia].
      replace (Z.to_nat (w - v)) with (S (Z.to_nat (w - (v + 1)))) by lia. done.
  - intros k Hk. rewrite ubyte_put by done. case_decide; [done|]. replace (v + 1 + k) with (v + (k + 1)) by lia. apply Hs. simpl. lia.
Qed.

(** A run of stores inside one page. *)
Lemma puts_inside U v p k bs :
  v mod PAGE_SIZE = 0 → U !! v = Some p → length (up_bytes p) = Z.to_nat PAGE_SIZE → (k + length bs ≤ Z.to_nat PAGE_SIZE)%nat →
  puts (v + Z.of_nat k) bs U = <[v := Upage (up_frame p) (up_perm p) (take k (up_bytes p) ++ bs ++ drop (k + length bs) (up_bytes p))]> U.
Proof.
  intros Hv. revert U p k. induction bs as [|b bs IH]; intros U p k Hp Hl Hk; simpl puts.
  { simpl. rewrite Nat.add_0_r, take_drop. destruct p. by rewrite insert_id. }
  simpl in Hk. destruct (page_base_offset v (Z.of_nat k)) as [Hb Hm]; [done|lia|].
  assert (put (v + Z.of_nat k) b U = <[v := put_page (Z.of_nat k) b p]> U) as ->.
  { unfold put. rewrite Hb, Hm. apply map_eq. intros w. destruct (decide (w = v)) as [->|Hne].
    - by rewrite lookup_alter_eq, lookup_insert_eq, Hp.
    - by rewrite lookup_alter_ne, lookup_insert_ne. }
  replace (v + Z.of_nat k + 1) with (v + Z.of_nat (S k)) by lia.
  rewrite (IH _ (put_page (Z.of_nat k) b p)); [|by rewrite lookup_insert_eq|cbn; by rewrite length_insert|lia].
  rewrite insert_insert_eq. f_equal. cbn [up_frame up_perm up_bytes put_page]. f_equal. rewrite Nat2Z.id.
  rewrite (take_S_r _ _ b) by (rewrite list_lookup_insert_eq; [done|lia]).
  rewrite take_insert_ge, drop_insert_lt by lia. rewrite <-app_assoc. simpl. by rewrite Nat.add_succ_r.
Qed.

Lemma puts_page U v p bs :
  v mod PAGE_SIZE = 0 → U !! v = Some p → length (up_bytes p) = Z.to_nat PAGE_SIZE → length bs = Z.to_nat PAGE_SIZE →
  puts v bs U = <[v := Upage (up_frame p) (up_perm p) bs]> U.
Proof.
  intros Hv Hp Hl Hbs. rewrite <-(Z.add_0_r v) at 1. rewrite (puts_inside U v p 0) by (done || lia).
  rewrite take_0, drop_ge, app_nil_r by lia. done.
Qed.

Lemma puts_app U v bs cs : puts v (bs ++ cs) U = puts (v + Z.of_nat (length bs)) cs (puts v bs U).
Proof.
  revert U v. induction bs as [|b bs IH]; intros U v; simpl; [by rewrite Z.add_0_r|]. rewrite IH. f_equal. lia.
Qed.
Section runs.
Context (r : Z) (h : nat) (Hlow : (h < 256)%nat).

Lemma writable_in_entry s U v : umem s r h U → writable U v → in_entry h v.
Proof.
  intros Hu (p & Hp & _). destruct (um_page _ _ _ _ Hu _ _ Hp) as (Hin & _). unfold in_entry in *.
  pose proof (page_base_le v). unfold page_base, PAGE_SIZE in *. lia.
Qed.

Lemma wp_ustore s U v bs (Q : unit → mmu → Prop) :
  umem s r h U → Forall is_u8 bs → (∀ k, 0 ≤ k < Z.of_nat (length bs) → writable U (v + k)) →
  (∀ s', umove r h s U s' (puts v bs U) → Q tt s') → wp (ustore v bs) Q s.
Proof.
  intros Hu Hbs. revert s U v Q Hu. induction Hbs as [|b bs Hb _ IH]; intros s U v Q Hu Hw HQ; simpl.
  { apply wp_ret, HQ. by apply umove_refl. }
  destruct (Hw 0) as (p & Hp & Hpw); [simpl; lia|]. rewrite Z.add_0_r in Hp. wp_step.
  eapply (wp_ustore8 r h); [done..|]. intros s1 Hm1. pose proof Hm1 as [Hu1 _].
  assert (in_entry h v) as Hin by (apply (writable_in_entry s U); [done|by exists p]). apply in_entry_range in Hin; [|done].
  rewrite u64_small by (unfold is_u64; lia). apply (IH s1 (put v b U)); [done| |].
  - intros k Hk. apply put_writable. replace (v + 1 + k) with (v + (k + 1)) by lia. apply Hw. simpl. lia.
  - intros s' Hm. apply HQ. by eapply umove_trans.
Qed.
End runs.

(** ** Pages of the entry *)

Section pages.
Context (r : Z) (h : nat) (Hh : private [h]) (Hlow : (h < 256)%nat).

(** The permissions that the portable flags stand for. *)
Definition flags_perm (flags : Z) : perm := Perm (flag flags MMU_WRITE) (flag flags MMU_USER) (flag flags MMU_NX).

Lemma um_root s U : umem s r h U → root_of s r = r ∧ r ≠ 0.
Proof. intros Hu. destruct (as_root _ _ (um_as _ _ _ _ Hu)) as [Hr _]. unfold root_of. by rewrite (proj2 (Z.eqb_neq _ _)). Qed.

Lemma um_lookup s U v : umem s r h U → in_entry h v → is_Some (U !! page_base v) ↔ is_Some (translate s r v).
Proof.
  intros Hu Hin. split.
  - intros [p Hp]. destruct (um_page _ _ _ _ Hu _ p Hp) as (_ & _ & x & l & Hx & _). exists x. rewrite <-Hx. unfold translate. by rewrite vpath_base.
  - intros [x Hx]. destruct (U !! page_base v) eqn:E; [done|]. by rewrite (um_none _ _ _ _ Hu v Hin E) in Hx.
Qed.

(** The table of a page exists. *)
Lemma um_table s U v p : umem s r h U → in_entry h v → U !! page_base v = Some p → is_Some (down (mm_mem s) r ptop (take 3 (vpath v))).
Proof.
  intros Hu Hin Hp. destruct (proj1 (um_lookup s U v Hu Hin)) as [x Hx]; [by exists p|].
  pose proof (in_entry_through h Hlow v Hin) as Hth. destruct (vpath_is_vpath v) as [Hlen _].
  change 3%nat with (4 - 1)%nat. rewrite <-Hlen. eapply xlate_table; [lia|exact Hx|].
  intros p1 i p2 b π1 e Heq Hp2 Hd He. eapply (um_small _ _ _ _ Hu p1); [| |done|done].
  - rewrite Heq, length_app in Hlen. destruct p2; [done|]. simpl in Hlen. lia.
  - rewrite Heq in Hth. by destruct p1.
Qed.

(** An operation on one page: what becomes of it, and of nothing else. *)
Lemma wp_page_op s op (Q : Z → mmu → Prop) :
  aspace s r → r ≠ 0 → in_entry h (op_virt op) → op_small op →
  (∀ ret s', mm_cr3 s' = mm_cr3 s → op_done h s r op ret s' → Q ret s') → wp (run_op r op) Q s.
Proof.
  intros Has Hr Hin Hop HQ. assert (root_of s r = r) as Hroot by (unfold root_of; by rewrite (proj2 (Z.eqb_neq _ _))).
  eapply wp_keeps_cr3; [apply cr3_run_op| |].
  - apply (wp_run_op h); [by rewrite Hroot|by apply (in_entry_private h)|by apply (in_entry_through h)|done].
  - rewrite Hroot. auto.
Qed.

Lemma wp_query s U v (Q : Z → mmu → Prop) :
  umem s r h U → in_entry h v →
  (∀ s', umove r h s U s' U →
     Q (match U !! page_base v with Some p => Z.lor (up_frame p * PAGE_SIZE) (Z.land v 0xFFF) | None => 0 end) s') →
  wp (vmm_virt_to_phys_in r v) Q s.
Proof.
  intros Hu Hin HQ. apply (wp_page_op s (OQuery v)); [apply (um_as _ _ _ _ Hu)|by apply (um_root s U)|done..|].
  intros ret s' Hc [[-> He]|(-> & Hk & _ & Hd)]; cbn [op_virt a_result a_page a_failed] in *.
  - assert (keeps h r s s') as Hk. { eapply evolves_ext; [|exact He]. intros q Hq. symmetry. by apply (retarget_same r s (vpath v) (translate s r v)). }
    assert (match U !! page_base v with Some p => Z.lor (up_frame p * PAGE_SIZE) (Z.land v 0xFFF) | None => 0 end =
      match translate s r v with Some x => Z.lor (x_pa x) (Z.land v 0xFFF) | None => 0 end) as <-.
    { destruct (U !! page_base v) as [p|] eqn:Hp; [|by rewrite (um_none _ _ _ _ Hu v Hin Hp)].
      destruct (um_page _ _ _ _ Hu _ p Hp) as (_ & _ & x & l & Hx & Hpa & _). unfold translate in *. rewrite vpath_base in Hx. by rewrite Hx, Hpa. }
    apply HQ. eapply um_kept; [done|apply confined_refl|done..].
  - destruct (U !! page_base v) as [p|] eqn:Hp; [|apply HQ; by eapply um_kept; [|apply confined_refl|..]].
    destruct (um_table s U v p Hu Hin Hp) as [y Hy]. congruence.
Qed.

(** A page is given other permissions. *)
Lemma wp_protect s U v p flags (Q : Z → mmu → Prop) :
  umem s r h U → U !! v = Some p → flag flags MMU_HUGE = false →
  (∀ s', umove r h s U s' (<[v := Upage (up_frame p) (flags_perm flags) (up_bytes p)]> U) → Q 0 s') →
  wp (vmm_protect_page r v flags) Q s.
Proof.
  intros Hu Hp Hfl HQ. destruct (um_page _ _ _ _ Hu v p Hp) as (Hin & Hal & x & l & Hx & Hpa & Hpm & Hl & Hb).
  apply (wp_page_op s (OProtect v flags)); [apply (um_as _ _ _ _ Hu)|by apply (um_root s U)|done..|].
  intros ret s' Hc [[-> He]|(-> & Hk & _ & Hd)]; cbn [op_virt a_result a_page a_failed] in *.
  2:{ destruct (um_table s U v p Hu Hin) as [y Hy]; [by rewrite page_base_aligned|congruence]. }
  rewrite Hx in *. apply HQ. eapply um_evolves; [done|apply confined_refl|exact He|done|..].
  - intros w q Hw. destruct (decide (w = v)) as [->|Hne].
    + rewrite lookup_insert_eq in Hw. injection Hw as <-. split_and!; [done|done|].
      eexists _, l. split_and!; [unfold retarget; by rewrite decide_True|by rewrite Hpa| |done|done].
      by rewrite (um_open _ _ _ _ Hu) by (apply vpath_is_vpath || by apply (in_entry_through h)).
    + rewrite lookup_insert_ne in Hw by done. destruct (um_page _ _ _ _ Hu w q Hw) as (Hinw & Halw & y & m & Hy & Hrest).
      split_and!; [done|done|]. exists y, m. split; [|done]. unfold retarget. rewrite decide_False; [done|].
      intros E%(vpath_entry_inj h Hlow); [|done..]. by rewrite !page_base_aligned in E.
  - intros w Hw Hn. unfold retarget. rewrite decide_False.
    + apply (um_none _ _ _ _ Hu w Hw). destruct (decide (page_base w = v)) as [E|Hne]; [by rewrite E, lookup_insert_eq in Hn|by rewrite lookup_insert_ne in Hn].
    + intros E%(vpath_entry_inj h Hlow); [|done..]. rewrite (page_base_aligned v) in E by done. by rewrite E, lookup_insert_eq in Hn.
  - assert (∀ w q, <[v:=Upage (up_frame p) (flags_perm flags) (up_bytes p)]> U !! w = Some q → ∃ q', U !! w = Some q' ∧ up_frame q' = up_frame q) as Hold.
    { intros w q. destruct (decide (w = v)) as [->|Hne]; [rewrite lookup_insert_eq; intros [= <-]; eauto|]. rewrite lookup_insert_ne by done. eauto. }
    intros w w' q q' (? & ? & ?)%Hold (? & ? & ?)%Hold E. eapply (um_inj _ _ _ _ Hu); [done..|congruence].
  - intros w q Hw. right; right. destruct (decide (w = v)) as [->|Hne]; [rewrite lookup_insert_eq in Hw; injection Hw as <-; eauto|].
    rewrite lookup_insert_ne in Hw by done. eauto.
Qed.
End pages.

(** ** New pages *)

(** A frame for page [va]: allocated, mapped, and given back if mapping fails. *)
Definition new_page (root va flags : Z) : M mmu bool :=
  phys ← alloc_frame;
  if phys =? 0 then mret false
  else
    m ← vmm_map_page_in root va phys flags;
    if m <? 0 then free_frame phys ;; mret false else mret true.

Section new_pages.
Context (r : Z) (h : nat).

Lemma held_pmm s f l pm :
  held_in s r f l → f ∉ free_set pm → total_frames pm = total_frames (mm_pmm s) → held_in (set_pmm pm s) r f l.
Proof. intros [? ? ? ? ? ?] Hf Ht. split; try done. cbn. by rewrite Ht. Qed.

Lemma um_set_pmm s U pm :
  umem s r h U → wf pm → total_frames pm = total_frames (mm_pmm s) →
  (∀ f, f ∈ free_set pm → f ≠ 0 ∧ is_page (mm_mem s) (f * PAGE_SIZE) ∧ ¬ table_of (mm_mem s) r (f * PAGE_SIZE)) →
  (∀ v p, U !! v = Some p → up_frame p ∉ free_set pm) → umem (set_pmm pm s) r h U.
Proof.
  intros [Has Hact Hop Hsm Hpage Hnone Hinj] Hw Ht Hf Hu. split; try done; [by apply aspace_pmm|].
  intros v p Hv. destruct (Hpage v p Hv) as (? & ? & x & l & ? & ? & ? & Hl & ?). split_and!; [done|done|].
  exists x, l. split_and!; [done|done|done| |done]. apply held_pmm; [done|by eapply Hu|done].
Qed.

(** A free frame is data, and none of the pages. *)
Lemma um_free s U f :
  umem s r h U → f ∈ free_set (mm_pmm s) →
  ∃ l, mm_mem s !! (f * PAGE_SIZE) = Some l ∧ length l = 512%nat ∧ ¬ table_of (mm_mem s) r (f * PAGE_SIZE) ∧
    (∀ v p, U !! v = Some p → up_frame p ≠ f).
Proof.
  intros Hu Hf. pose proof (um_as _ _ _ _ Hu) as Has. destruct (as_ram _ _ Has) as [_ _ _ Hr]. destruct (Hr f Hf) as (l & Hl & Hlen).
  exists l. split_and!; [done|done| |].
  - intros (q & π & Hq & Hd). apply (as_table _ _ Has q _ π Hq Hd). by rewrite frame_of_mul.
  - intros v p Hv <-. destruct (um_page _ _ _ _ Hu v p Hv) as (_ & _ & x & m & _ & _ & _ & Hm & _). by apply (he_used _ _ _ _ Hm).
Qed.

(** The state while a frame is taken but not mapped. *)
Record taken (s : mmu) (U : upages) (f : Z) (l : list Z) (s' : mmu) : Prop := Taken {
  tk_umem : umem s' r h U;
  tk_conf : confined r h s U s' U;
  tk_held : held_in s' r f l;
  tk_free : f ∈ free_set (mm_pmm s);
  tk_other : ∀ v p, U !! v = Some p → up_frame p ≠ f }.

Lemma um_take s U f pm :
  umem s r h U → f ∈ free_set (mm_pmm s) → 0 < f < 2 ^ 40 → wf pm → total_frames pm = total_frames (mm_pmm s) →
  free_set pm = free_set (mm_pmm s) ∖ {[f]} → ∃ l, taken s U f l (set_pmm pm s).
Proof.
  intros Hu Hf Hr Hw Ht Hfree. destruct (um_free s U f Hu Hf) as (l & Hl & Hlen & Htab & Hno). exists l. split; [| | |done|done].
  - apply um_set_pmm; try done.
    + intros g Hg. rewrite Hfree in Hg. apply elem_of_difference in Hg as [Hg _]. destruct (um_free s U g Hu Hg) as (m & ? & ? & ? & _).
      split_and!; [|by exists m|done]. intros ->. by apply (ro_zero _ (as_ram _ _ (um_as _ _ _ _ Hu))).
    + intros v p Hv. rewrite Hfree. destruct (um_page _ _ _ _ Hu v p Hv) as (_ & _ & x & m & _ & _ & _ & Hm & _).
      intros [Hin _]%elem_of_difference. by apply (he_used _ _ _ _ Hm).
  - split; try done; [|set_solver]. intros a [Ho|[Hfr|Hp]]; [by left| |by right; right]. right; left. cbn in Hfr. set_solver.
  - apply elem_of_free_set in Hf as [Hrange _]. split; try done; cbn; [lia|set_solver].
Qed.

Lemma um_give s U f l s1 pm :
  taken s U f l s1 → wf pm → total_frames pm = total_frames (mm_pmm s1) → free_set pm = free_set (mm_pmm s1) ∪ {[f]} →
  umove r h s U (set_pmm pm s1) U.
Proof.
  intros [Hu [Hcm Hci Hcf Hct Hck Hcc] Hl Hf Hno] Hw Ht Hfree. split.
  - apply um_set_pmm; try done.
    + intros g Hg. rewrite Hfree in Hg. apply elem_of_union in Hg as [Hg| ->%elem_of_singleton].
      * destruct (um_free s1 U g Hu Hg) as (m & ? & ? & ? & _). split_and!; [|by exists m|done].
        intros ->. by apply (ro_zero _ (as_ram _ _ (um_as _ _ _ _ Hu))).
      * pose proof (he_range _ _ _ _ Hl). split_and!; [lia| |apply (he_data _ _ _ _ Hl)].
        exists l. split; [apply (he_mem _ _ _ _ Hl)|apply (he_len _ _ _ _ Hl)].
    + intros v p Hv. rewrite Hfree. destruct (um_page _ _ _ _ Hu v p Hv) as (_ & _ & x & m & _ & _ & _ & Hm & _).
      intros [Hin|E%elem_of_singleton]%elem_of_union; [by apply (he_used _ _ _ _ Hm)|by eapply Hno].
  - split; [done| |cbn; set_solver|cbn; congruence|done..].
    intros a [Ho|[Hin|Hp]]; [by apply Hci; left| |by apply Hci; right; right].
    cbn in Hin. rewrite Hfree in Hin. apply elem_of_union in Hin as [Hin|Hin]; [by apply Hci; right; left|].
    right; left. apply elem_of_singleton in Hin. by rewrite Hin.
Qed.

Lemma wp_free_taken s U f l s1 (Q : unit → mmu → Prop) :
  taken s U f l s1 → (∀ s', umove r h s U s' U → free_set (mm_pmm s') = free_set (mm_pmm s1) ∪ {[f]} → Q tt s') →
  wp (free_frame (f * PAGE_SIZE)) Q s1.
Proof.
  intros Htk HQ. pose proof (tk_held _ _ _ _ _ Htk) as [Hr _ _ Htot _ _]. destruct (as_ram _ _ (um_as _ _ _ _ (tk_umem _ _ _ _ _ Htk))) as [Hw _ _ _].
  apply wp_zoom, wp_free_frame; [done|unfold PAGE_SIZE; lia|]. intros pm [Hw' Ht' _ Hfree].
  assert (free_set pm = free_set (mm_pmm s1) ∪ {[f]}) as Hfree'.
  { rewrite Hfree. f_equal. change PAGE_SIZE with (2 ^ PAGE_SHIFT). rewrite <-Z.shiftl_mul_pow2, shiftr_shiftl_page by done.
    apply set_eq. intros g. rewrite elem_of_intersection, !elem_of_frames, elem_of_singleton. lia. }
  apply HQ; [|exact Hfree']. by apply (um_give s U f l).
Qed.

(** Too little memory is left for a page and a table. *)
Definition starved (s : mmu) : Prop := (size (free_set (mm_pmm s)) ≤ 1)%nat.

Context (Hh : private [h]) (Hlow : (h < 256)%nat).

Lemma wp_new_page s U va flags (Q : bool → mmu → Prop) :
  umem s r h U → in_entry h va → va mod PAGE_SIZE = 0 → U !! va = None → flag flags MMU_HUGE = false →
  (∀ s', umove r h s U s' U → starved s' → Q false s') →
  (∀ f bs s', length bs = Z.to_nat PAGE_SIZE → umove r h s U s' (<[va := Upage f (flags_perm flags) bs]> U) → Q true s') →
  wp (new_page r va flags) Q s.
Proof.
  intros Hu Hin Hal Hno Hfl HQf HQt. unfold new_page. wp_step. pose proof (um_as _ _ _ _ Hu) as Has.
  apply wp_alloc_page; [apply (as_ram _ _ Has)|intros Hf0; cbn [Z.eqb]; wp_step; apply HQf; [by apply umove_refl|unfold starved; rewrite Hf0, size_empty; lia]|].
  intros f pm Hf Hf40 Hw Ht Hfree. rewrite (proj2 (Z.eqb_neq _ _)) by (unfold PAGE_SIZE; lia). wp_step.
  destruct (um_take s U f pm Hu Hf Hf40 Hw Ht Hfree) as (l & Htk). set (s1 := set_pmm pm s) in *. clearbody s1.
  pose proof Htk as [Hu1 Hcf Hl _ Hother]. assert (r ≠ 0) as Hr by apply (as_root _ _ Has).
  apply (wp_page_op r h Hh Hlow s1 (OMap va (f * PAGE_SIZE) flags)); [apply (um_as _ _ _ _ Hu1)|done..|].
  intros ret s' Hc [[-> He]|(-> & Hk & Hf0 & _)]; cbn [op_virt a_result a_page a_failed] in *.
  - rewrite (um_none _ _ _ _ Hu1 va Hin) in He |- * by (by rewrite page_base_aligned). cbn [Z.ltb Z.compare]. wp_step.
    apply (HQt f (bytes_of l)); [by rewrite bytes_of_length, (he_len _ _ _ _ Hl)|].
    eapply um_evolves; [exact Hu1|exact Hcf|exact He|done|..].
    + intros w q Hw'. destruct (decide (w = va)) as [->|Hne].
      * rewrite lookup_insert_eq in Hw'. injection Hw' as <-. split_and!; [done|done|].
        eexists _, l. split_and!; [unfold retarget; by rewrite decide_True| | |done|done].
        -- cbn. by rewrite addr_of_page by lia.
        -- by rewrite (um_open _ _ _ _ Hu1) by (apply vpath_is_vpath || by apply (in_entry_through h)).
      * rewrite lookup_insert_ne in Hw' by done. destruct (um_page _ _ _ _ Hu1 w q Hw') as (Hinw & Halw & y & m & Hy & Hrest).
        split_and!; [done|done|]. exists y, m. split; [|done]. unfold retarget. rewrite decide_False; [done|].
        intros E%(vpath_entry_inj h Hlow); [|done..]. by rewrite !page_base_aligned in E.
    + intros w Hw' Hn. unfold retarget. rewrite decide_False.
      * apply (um_none _ _ _ _ Hu1 w Hw'). destruct (decide (page_base w = va)) as [E|Hne]; [by rewrite E, lookup_insert_eq in Hn|by rewrite lookup_insert_ne in Hn].
      * intros E%(vpath_entry_inj h Hlow); [|done..]. rewrite (page_base_aligned va) in E by done. by rewrite E, lookup_insert_eq in Hn.
    + assert (∀ w q, <[va:=Upage f (flags_perm flags) (bytes_of l)]> U !! w = Some q → w = va ∧ up_frame q = f ∨ w ≠ va ∧ U !! w = Some q) as Hold.
      { intros w q. destruct (decide (w = va)) as [->|Hne]; [rewrite lookup_insert_eq; intros [= <-]; by left|]. rewrite lookup_insert_ne by done. by right. }
      intros w w' q q' [[-> E]|[_ Hq]]%Hold [[-> E']|[_ Hq']]%Hold Eq; [done| | |by eapply (um_inj _ _ _ _ Hu)].
      * exfalso. eapply Hother; [done|congruence].
      * exfalso. eapply Hother; [done|congruence].
    + intros w q Hw'. destruct (decide (w = va)) as [->|Hne].
      * rewrite lookup_insert_eq in Hw'. injection Hw' as <-. right; left. cbn. by rewrite frame_of_mul.
      * rewrite lookup_insert_ne in Hw' by done. right; right. eauto.
  - cbn [Z.ltb Z.compare]. wp_step. destruct (um_kept r h s U s1 U s' Hu1 Hcf Hk Hc) as [Hu2 Hcf2].
    eapply (wp_free_taken s U f l s'); [|intros s2 Hm Hf2; wp_step; apply HQf; [done|]; unfold starved; rewrite Hf2, Hf0, union_empty_l_L, size_singleton; lia].
    split; [done|done|by eapply evolves_held|done|done].
Qed.
End new_pages.

(** ** An entry that is not used yet *)

Lemma umem_empty s r h e :
  private [h] → (h < 256)%nat → aspace s r → addr_of (mm_cr3 s) = r →
  entry (mm_mem s) r h = Some e → flag e X86_PTE_PRESENT = false → umem s r h ∅.
Proof.
  intros Hh Hlow Has Hact He Hp.
  assert (∀ i q, through h (i :: q) → down (mm_mem s) r ptop (i :: q) = None) as Hdown.
  { intros i q Ht. simpl in Ht. subst i. simpl. by rewrite He, Hp. }
  split; try done.
  - intros [|i q] [Hl _] Ht; [done|]. simpl in Ht. subst i. destruct q; [done|]. cbn [upper]. by rewrite He, Hp.
  - intros [|j q] a π i x Hl Ht Hd Hx; [|by rewrite Hdown in Hd].
    injection Hd as <- <-. simpl in Ht. subst i. by eapply (as_huge _ _ Has [] r ptop h); [simpl; lia| | |].
  - intros v Hin _. pose proof (in_entry_through h Hlow v Hin) as Ht. unfold translate. destruct (vpath v) as [|i q]; [done|].
    simpl in Ht. subst i. cbn [xlate]. by rewrite He, Hp.
Qed.
