(* ===== verification/Slab.v ===== *)
(** * Slab: the kernel heap (kernel/slab.c)

    [kmalloc] and [kfree] over six caches of objects of 32 to 1024 bytes and
    whole-page blocks for larger requests.  Headers and free lists live in the
    allocated memory itself, reached through the page tables: the model reads
    and writes them with the accesses of Kmem.v, frames come from Pmm.v and
    mappings from Mmu.v. *)

From S2P Require Import Prelude BootMap Pmm Mmu Kmem.

#[local] Arguments for_up : simpl never.
#[local] Arguments for_ret : simpl never.

Definition SLAB_MIN_SHIFT : Z := 5.
Definition SLAB_NUM : Z := 6.
Definition SLAB_MAGIC : Z := 0xDEADBEEF.
Definition BIG_MAGIC : Z := 0xB16B1E.

(** The statics [slab_caches] and [slab_sizes], over the machine. *)
Record slab := Slab { sl_mmu : mmu; slab_caches : list Z; slab_sizes : list Z }.

Definition put_mmu (m : mmu) (s : slab) : slab := Slab m (slab_caches s) (slab_sizes s).
Definition set_cache (i : nat) (h : Z) (s : slab) : slab :=
  Slab (sl_mmu s) (<[i := h]> (slab_caches s)) (slab_sizes s).
Definition set_size (i : nat) (x : Z) (s : slab) : slab :=
  Slab (sl_mmu s) (slab_caches s) (<[i := x]> (slab_sizes s)).

Definition on_mmu {A} (m : M mmu A) : M slab A := zoom sl_mmu put_mmu m.

(** ** Memory of the structures *)

Definition load64 (v : Z) : M slab Z := on_mmu (vload v).
Definition store64 (v w : Z) : M slab unit := on_mmu (vstore v w).

(** 32-bit halves of a word, the low one first. *)
Definition load32 (v : Z) : M slab Z :=
  w ← load64 (v - v mod 8);
  mret (if v mod 8 =? 0 then u32 w else u32 (w / 2 ^ 32)).
Definition store32 (v x : Z) : M slab unit :=
  w ← load64 (v - v mod 8);
  store64 (v - v mod 8) (if v mod 8 =? 0 then w / 2 ^ 32 * 2 ^ 32 + u32 x else u32 w + u32 x * 2 ^ 32).

(** [struct slab_header]: magic, next, free_list, obj_size, free_count. *)
Definition sizeof_slab_header : Z := 32.
Definition get_magic (h : Z) : M slab Z := load32 h.
Definition set_magic (h x : Z) : M slab unit := store32 h x.
Definition set_next (h x : Z) : M slab unit := store64 (h + 8) x.
Definition get_free_list (h : Z) : M slab Z := load64 (h + 16).
Definition set_free_list (h x : Z) : M slab unit := store64 (h + 16) x.
Definition set_obj_size (h x : Z) : M slab unit := store32 (h + 24) x.
Definition get_free_count (h : Z) : M slab Z := c ← load32 (h + 28); mret (i32 c).
Definition set_free_count (h x : Z) : M slab unit := store32 (h + 28) x.

(** [struct big_hdr]: magic, npages, phys_base. *)
Definition sizeof_big_hdr : Z := 24.

(** ** Operations *)

Definition size_to_idx (size : Z) : M slab Z :=
  sizes ← gets slab_sizes;
  r ← for_ret (Z.to_nat SLAB_NUM) 0 (λ i,
        x ← load sizes i; mret (if size <=? x then Some i else None));
  mret (default (-1) r).

(** [hdr->free_list = obj; hdr->free_count += d;] as all three users do it. *)
Definition relist (hdr obj d : Z) : M slab unit :=
  set_free_list hdr obj ;;
  c ← get_free_count hdr;
  set_free_count hdr (c + d).

(** An object becomes the first of the free list of its page. *)
Definition push_object (hdr obj : Z) : M slab unit :=
  fl ← get_free_list hdr;
  store64 obj fl ;;
  relist hdr obj 1.

(** The loop of [slab_grow] that threads the objects of a page. *)
Definition thread_objects (hdr start obj_size count : Z) : M slab unit :=
  for_up (Z.to_nat count) 0 (λ i, push_object hdr (u64 (start + i * obj_size))).

(** The header of a fresh slab page. *)
Definition init_header (hdr obj_size next : Z) : M slab unit :=
  set_magic hdr SLAB_MAGIC ;;
  set_free_list hdr 0 ;;
  set_obj_size hdr obj_size ;;
  set_free_count hdr 0 ;;
  set_next hdr next.

Definition slab_grow (idx : Z) : M slab unit :=
  phys ← on_mmu alloc_frame;
  if phys =? 0 then mret tt
  else
    vpage ← on_mmu (vmm_mmap_phys phys 1 MMU_WRITE);
    if vpage =? 0 then on_mmu (free_frame phys)
    else
      sizes ← gets slab_sizes;
      obj_size ← load sizes idx;
      let data_start := (sizeof_slab_header + obj_size - 1) / obj_size * obj_size in
      let avail := PAGE_SIZE - data_start in
      let count := avail / obj_size in
      caches ← gets slab_caches;
      next ← load caches idx;
      init_header vpage obj_size next ;;
      thread_objects vpage (u64 (vpage + data_start)) obj_size count ;;
      modify (set_cache (Z.to_nat idx) vpage).

Definition slab_init : M slab unit :=
  for_up (Z.to_nat SLAB_NUM) 0 (λ i,
    modify (set_size (Z.to_nat i) (Z.shiftl 1 (SLAB_MIN_SHIFT + i))) ;;
    modify (set_cache (Z.to_nat i) 0) ;;
    slab_grow i).

(** The page count of a large request, computed in 64 bits. *)
Definition big_pages (size : Z) : Z := u64 (size + sizeof_big_hdr + PAGE_SIZE - 1) / PAGE_SIZE.

Definition kmalloc_big (size : Z) : M slab Z :=
  let npages := big_pages size in
  phys ← on_mmu (zoom mm_pmm set_pmm (pmm_alloc_frames npages));
  if phys =? 0 then mret 0
  else
    v ← on_mmu (vmm_mmap_phys phys npages MMU_WRITE);
    if v =? 0 then
      on_mmu (zoom mm_pmm set_pmm (pmm_free_frames phys npages)) ;; mret 0
    else
      store64 v BIG_MAGIC ;;
      store64 (v + 8) npages ;;
      store64 (v + 16) phys ;;
      mret (u64 (v + sizeof_big_hdr)).

(** The head of a cache if it has a free object. *)
Definition usable_head (idx : Z) : M slab (option Z) :=
  caches ← gets slab_caches;
  hdr ← load caches idx;
  if hdr =? 0 then mret None
  else
    c ← get_free_count hdr;
    mret (if c =? 0 then None else Some hdr).

Definition pop_object (hdr : Z) : M slab Z :=
  obj ← get_free_list hdr;
  next ← load64 obj;
  relist hdr next (-1) ;;
  mret obj.

Definition kmalloc (size : Z) : M slab Z :=
  if size =? 0 then mret 0
  else
    idx ← size_to_idx size;
    if idx <? 0 then kmalloc_big size
    else
      hdr ← usable_head idx;
      match hdr with
      | Some hdr => pop_object hdr
      | None =>
        slab_grow idx ;;
        hdr ← usable_head idx;
        match hdr with
        | Some hdr => pop_object hdr
        | None => mret 0
        end
      end.

Definition kfree (ptr : Z) : M slab unit :=
  if ptr =? 0 then mret tt
  else
    let base := Z.land ptr (u64 (Z.lnot 0xFFF)) in
    magic ← get_magic base;
    if magic =? BIG_MAGIC then
      npages ← load64 (base + 8);
      phys_base ← load64 (base + 16);
      for_up (Z.to_nat npages) 0 (λ i, _ ← on_mmu (vmm_unmap_page (u64 (base + i * PAGE_SIZE))); mret tt) ;;
      on_mmu (zoom mm_pmm set_pmm (pmm_free_frames phys_base npages))
    else push_object base ptr.

(** ** Words of the view *)

Lemma word_idx_aligned v : v mod 8 = 0 → v = page_base v + word_idx v * 8.
Proof.
  intros Hv. unfold page_base, word_idx. change PAGE_SIZE with (512 * 8).
  pose proof (Z.div_mod v (512 * 8)). pose proof (Z.rem_mul_r v 8 512) as Hr.
  rewrite (Z.mul_comm 8 512) in Hr. rewrite Hr, Hv by done. rewrite Z.add_0_l, (Z.mul_comm 8), Z.div_mul by done. lia.
Qed.

Lemma word_put P v w v' :
  v mod 8 = 0 → v' mod 8 = 0 →
  word (put_word v w P) v' = if decide (v = v') then (λ _, w) <$> word P v else word P v'.
Proof.
  intros Hv Hv'. unfold word, put_word. destruct (decide (page_base v = page_base v')) as [Hp|Hp].
  - rewrite <-Hp, lookup_alter_eq. destruct (P !! page_base v) as [[f l]|]; simpl; [|by case_decide].
    destruct (decide (v = v')) as [<-|Hne].
    + destruct (l !! Z.to_nat (word_idx v)) as [x|] eqn:Hx; simpl.
      * by rewrite list_lookup_insert_eq by (by eapply lookup_lt_Some).
      * apply lookup_ge_None_2. rewrite length_insert. by apply lookup_ge_None.
    + rewrite list_lookup_insert_ne; [done|]. pose proof (word_idx_range v). pose proof (word_idx_range v').
      pose proof (word_idx_aligned v Hv). pose proof (word_idx_aligned v' Hv'). lia.
  - rewrite lookup_alter_ne by done. rewrite decide_False; [done|]. by intros <-.
Qed.

Lemma word_put_ne P v w v' :
  v mod 8 = 0 → v' mod 8 = 0 → v ≠ v' → word (put_word v w P) v' = word P v'.
Proof. intros. rewrite word_put by done. by rewrite decide_False. Qed.

Lemma word_put_eq P v w : v mod 8 = 0 → is_Some (word P v) → word (put_word v w P) v = Some w.
Proof. intros Hv [x Hx]. rewrite word_put by done. rewrite decide_True by done. by rewrite Hx. Qed.

Lemma put_word_page P v w v' : is_Some (P !! v') → is_Some (put_word v w P !! v').
Proof. unfold put_word. intros [x Hx]. rewrite lookup_alter. case_decide; [subst; rewrite Hx|]; eauto. Qed.

(** ** Accesses *)

Section access.
Context (s : slab) (n : Z) (P : kpages) (F : gset Z) (Hk : kmem (sl_mmu s) n P F).

Lemma km_word v x : P !! page_base v = Some x → is_Some (word P v).
Proof.
  destruct x as [f l]. intros HP. destruct (km_page _ _ _ _ Hk _ _ _ HP) as (_ & Hh & _).
  eapply page_word; [done|]. apply (he_len _ _ _ _ Hh).
Qed.

Lemma wp_load64 v w (Q : Z → slab → Prop) : word P v = Some w → Q w s → wp (load64 v) Q s.
Proof.
  intros Hw HQ. apply wp_zoom. eapply (wp_vload _ _ _ _ Hk); [done|].
  by replace (put_mmu (sl_mmu s) s) with s by (by destruct s).
Qed.

Lemma wp_store64 v w (Q : unit → slab → Prop) :
  is_Some (word P v) → (∀ m, kmem m n (put_word v w P) F → Q tt (put_mmu m s)) → wp (store64 v w) Q s.
Proof. intros Hw HQ. apply wp_zoom. eapply (wp_vstore _ _ _ _ Hk); [done|]. intros m Hm _ _. by apply HQ. Qed.

Lemma wp_load32_low v w (Q : Z → slab → Prop) : v mod 8 = 0 → word P v = Some w → Q (u32 w) s → wp (load32 v) Q s.
Proof.
  intros Hv Hw HQ. unfold load32. rewrite Hv, Z.sub_0_r. wp_step. eapply wp_load64; [done|]. by wp_step.
Qed.

Lemma wp_load32_high v w (Q : Z → slab → Prop) :
  v mod 8 = 0 → word P v = Some w → Q (u32 (w / 2 ^ 32)) s → wp (load32 (v + 4)) Q s.
Proof.
  intros Hv Hw HQ. unfold load32. assert ((v + 4) mod 8 = 4) as Hm by (Z.to_euclidean_division_equations; lia).
  rewrite Hm. replace (v + 4 - 4) with v by lia. wp_step. eapply wp_load64; [done|]. by wp_step.
Qed.

Lemma wp_store32_low v w x (Q : unit → slab → Prop) :
  v mod 8 = 0 → word P v = Some w →
  (∀ m, kmem m n (put_word v (w / 2 ^ 32 * 2 ^ 32 + u32 x) P) F → Q tt (put_mmu m s)) → wp (store32 v x) Q s.
Proof.
  intros Hv Hw HQ. unfold store32. rewrite Hv, Z.sub_0_r. wp_step. eapply wp_load64; [done|].
  apply wp_store64; [by eexists|done].
Qed.

Lemma wp_store32_high v w x (Q : unit → slab → Prop) :
  v mod 8 = 0 → word P v = Some w →
  (∀ m, kmem m n (put_word v (u32 w + u32 x * 2 ^ 32) P) F → Q tt (put_mmu m s)) → wp (store32 (v + 4) x) Q s.
Proof.
  intros Hv Hw HQ. unfold store32. assert ((v + 4) mod 8 = 4) as Hm by (Z.to_euclidean_division_equations; lia).
  rewrite Hm. replace (v + 4 - 4) with v by lia. wp_step. eapply wp_load64; [done|].
  apply wp_store64; [by eexists|done].
Qed.
End access.

(** ** The heap *)

(** Object size, and the objects of a page of class [c]. *)
Definition osz (c : nat) : Z := 2 ^ (5 + Z.of_nat c).
Definition ocount (c : nat) : Z := (PAGE_SIZE - osz c) / osz c.
Definition slot (v : Z) (c : nat) (i : nat) : Z := v + (Z.of_nat i + 1) * osz c.
Definition slots (v : Z) (c : nat) : list Z := slot v c <$> seq 0 (Z.to_nat (ocount c)).

(** The slab pages with class and free list, and the blocks of whole pages with
    their number of pages and first frame; the first [h_known] entries of
    [slab_sizes] are set. *)
Record heap := Heap { h_slabs : gmap Z (nat * list Z); h_bigs : gmap Z (Z * Z); h_known : nat }.

(** Object [a] of [sz] bytes is handed out. *)
Definition live (H : heap) (a sz : Z) : Prop :=
  (∃ v c L, h_slabs H !! v = Some (c, L) ∧ a ∈ slots v c ∧ (a ∉ L) ∧ sz = osz c) ∨
  (∃ v m f, h_bigs H !! v = Some (m, f) ∧ a = v + sizeof_big_hdr ∧ sz = m * PAGE_SIZE - sizeof_big_hdr).

(** Free objects are linked through their first word. *)
Definition linked (P : kpages) (L : list Z) : Prop :=
  ∀ i a, L !! i = Some a → word P a = Some (default 0 (L !! S i)).

Record slab_page (P : kpages) (v : Z) (c : nat) (L : list Z) : Prop := SlabPage {
  sp_class : (c < 6)%nat;
  sp_page : is_Some (P !! v);
  sp_magic : ∃ w, word P v = Some w ∧ u32 w = SLAB_MAGIC;
  sp_next : is_Some (word P (v + 8));
  sp_list : word P (v + 16) = Some (default 0 (head L));
  sp_count : word P (v + 24) = Some (osz c + Z.of_nat (length L) * 2 ^ 32);
  sp_linked : linked P L;
  sp_slots : L ⊆ slots v c;
  sp_nodup : NoDup L }.

Record big_block (P : kpages) (v m f : Z) : Prop := BigBlock {
  bb_size : 0 < m < 2 ^ 27 ∧ 0 < f;
  bb_pages : ∀ j, 0 ≤ j < m → ∃ l, P !! (v + j * PAGE_SIZE) = Some (f + j, l);
  bb_magic : word P v = Some BIG_MAGIC;
  bb_count : word P (v + 8) = Some m;
  bb_phys : word P (v + 16) = Some (f * PAGE_SIZE) }.

(** Page [v] belongs to the block of [m] pages at [b]. *)
Definition in_block (b m v : Z) : Prop := ∃ j, 0 ≤ j < m ∧ v = b + j * PAGE_SIZE.

Record heap_ok (s : slab) (n : Z) (P : kpages) (H : heap) : Prop := HeapOk {
  ho_mem : kmem (sl_mmu s) n P ∅;
  ho_sizes : ∀ c, (c < 6)%nat → ∃ x, slab_sizes s !! c = Some x ∧ ((c < h_known H)%nat → x = osz c);
  ho_caches : length (slab_caches s) = 6%nat;
  ho_heads : ∀ c h, slab_caches s !! c = Some h → h = 0 ∨ ∃ L, h_slabs H !! h = Some (c, L);
  ho_slabs : ∀ v c L, h_slabs H !! v = Some (c, L) → slab_page P v c L;
  ho_bigs : ∀ v m f, h_bigs H !! v = Some (m, f) → big_block P v m f;
  ho_apart : ∀ v x b m f, h_slabs H !! v = Some x → h_bigs H !! b = Some (m, f) → ¬ in_block b m v;
  ho_disjoint : ∀ b m f b' m' f' v, h_bigs H !! b = Some (m, f) → h_bigs H !! b' = Some (m', f') →
    in_block b m v → in_block b' m' v → b = b' }.

(** ** Places *)

Definition page_aligned (v : Z) : Prop := 0 < v ∧ v mod PAGE_SIZE = 0.

Lemma osz_cases c : (c < 6)%nat → osz c ∈ [32; 64; 128; 256; 512; 1024].
Proof. intros Hc. do 6 (destruct c as [|c]; [apply (bool_decide_unpack _); vm_compute; exact I|]). lia. Qed.

Lemma osz_facts c : (c < 6)%nat →
  32 ≤ osz c ≤ 1024 ∧ osz c mod 8 = 0 ∧ (ocount c + 1) * osz c = PAGE_SIZE ∧ 3 ≤ ocount c ≤ 127.
Proof.
  intros Hc. unfold ocount. pose proof (osz_cases c Hc) as Hin. set_unfold in Hin.
  destruct_or! Hin; rewrite Hin; vm_compute; by split_and!.
Qed.

Lemma aligned_8 v : page_aligned v → v mod 8 = 0.
Proof.
  unfold page_aligned, PAGE_SIZE. intros [_ Hv]. Z.to_euclidean_division_equations. lia.
Qed.

Lemma page_base_in v d : page_aligned v → 0 ≤ d < PAGE_SIZE → page_base (v + d) = v.
Proof.
  unfold page_aligned, page_base, PAGE_SIZE. intros [_ Hv] Hd. Z.to_euclidean_division_equations. lia.
Qed.

Lemma page_base_same v : page_aligned v → page_base v = v.
Proof. intros Hv. rewrite <-(Z.add_0_r v) at 1. apply page_base_in; [done|]. by split. Qed.

Lemma elem_of_slots v c a : a ∈ slots v c ↔ ∃ i, Z.of_nat i < ocount c ∧ a = slot v c i.
Proof.
  unfold slots. rewrite list_elem_of_fmap. split.
  - intros (i & -> & Hi%elem_of_seq). exists i. split; [lia|done].
  - intros (i & Hi & ->). exists i. split; [done|]. apply elem_of_seq. lia.
Qed.

(** Where an object lies. *)
Lemma slot_facts v c a :
  (c < 6)%nat → page_aligned v → a ∈ slots v c →
  v + osz c ≤ a ∧ a + osz c ≤ v + PAGE_SIZE ∧ a mod 8 = 0 ∧ page_base a = v.
Proof.
  intros Hc Hv (i & Hi & ->)%elem_of_slots. destruct (osz_facts c Hc) as (Ho & Ho8 & Hcount & _).
  unfold slot. set (o := osz c) in *. assert (0 ≤ (Z.of_nat i + 1) * o < PAGE_SIZE) as Hr by nia.
  split_and!; [nia|nia| |].
  - apply aligned_8 in Hv. rewrite <-Z.add_mod_idemp_l, Hv, Z.add_0_l by done.
    rewrite <-Z.mul_mod_idemp_r, Ho8 by done. by rewrite Z.mul_0_r.
  - apply page_base_in; [done|lia].
Qed.

Lemma slot_inj v c i j : (c < 6)%nat → slot v c i = slot v c j → i = j.
Proof. intros Hc. destruct (osz_facts c Hc) as (Ho & _). unfold slot. nia. Qed.

(** Words of one page. *)
Lemma word_ext P P' a : P' !! page_base a = P !! page_base a → word P' a = word P a.
Proof. unfold word. by intros ->. Qed.

Lemma put_word_other P a w v : page_base a ≠ v → put_word a w P !! v = P !! v.
Proof. intros Hne. unfold put_word. by rewrite lookup_alter_ne. Qed.

Lemma window_aligned j : 0 ≤ j → page_aligned (window_page j).
Proof.
  intros Hj. unfold page_aligned, window_page, window, PAGE_SIZE. split; [lia|].
  Z.to_euclidean_division_equations. lia.
Qed.

Lemma slab_page_ext P P' v c L :
  page_aligned v → P' !! v = P !! v → slab_page P v c L → slab_page P' v c L.
Proof.
  intros Hv HP [Hc Hp Hm Hx Hl Hn Hlk Hs Hd].
  assert (∀ d, 0 ≤ d < PAGE_SIZE → word P' (v + d) = word P (v + d)) as Hw.
  { intros d Hd'. apply word_ext. by rewrite page_base_in. }
  split; try done.
  - by rewrite HP.
  - rewrite <-(Z.add_0_r v), Hw, Z.add_0_r by done. done.
  - by rewrite Hw.
  - by rewrite Hw.
  - by rewrite Hw.
  - intros i a Ha. rewrite <-(Hlk i a Ha). apply word_ext.
    assert (a ∈ slots v c) as Hin by (apply Hs; by eapply list_elem_of_lookup_2).
    by destruct (slot_facts v c a Hc Hv Hin) as (_ & _ & _ & ->).
Qed.

Lemma big_block_ext P P' v m f :
  page_aligned v → (∀ j, 0 ≤ j < m → P' !! (v + j * PAGE_SIZE) = P !! (v + j * PAGE_SIZE)) →
  big_block P v m f → big_block P' v m f.
Proof.
  intros Hv HP [Hm Hpg Hmg Hct Hph].
  assert (∀ d, 0 ≤ d < PAGE_SIZE → word P' (v + d) = word P (v + d)) as Hw.
  { intros d Hd. apply word_ext. rewrite page_base_in by done. rewrite <-(Z.add_0_r v).
    change 0 with (0 * PAGE_SIZE). apply HP. lia. }
  split; try done.
  - intros j Hj. rewrite HP by done. by apply Hpg.
  - by rewrite <-(Z.add_0_r v), Hw, Z.add_0_r.
  - by rewrite Hw.
  - by rewrite Hw.
Qed.

Section heap.
Context (s : slab) (n : Z) (P : kpages) (H : heap) (Hok : heap_ok s n P H).

Lemma ho_aligned v : is_Some (P !! v) → page_aligned v.
Proof.
  intros [x Hx]. destruct (km_dom _ _ _ _ (ho_mem _ _ _ _ Hok) v x Hx) as (j & Hj & ->).
  apply window_aligned. lia.
Qed.

Lemma slab_aligned v c L : h_slabs H !! v = Some (c, L) → page_aligned v.
Proof. intros Hv. apply ho_aligned. apply (sp_page _ _ _ _ (ho_slabs _ _ _ _ Hok v c L Hv)). Qed.

Lemma big_aligned v m f : h_bigs H !! v = Some (m, f) → page_aligned v.
Proof.
  intros Hv. destruct (ho_bigs _ _ _ _ Hok v m f Hv) as [[Hm _] Hpg _ _ _].
  destruct (Hpg 0) as [l Hl]; [lia|]. apply ho_aligned. exists (f + 0, l). by rewrite <-Hl, Z.add_0_r.
Qed.

Lemma ho_size c : (c < 6)%nat → (c < h_known H)%nat → slab_sizes s !! c = Some (osz c).
Proof. intros Hc Hk. destruct (ho_sizes _ _ _ _ Hok c Hc) as (x & Hx & Heq). by rewrite <-Heq. Qed.

(** One slab page changes. *)
Lemma heap_set_slab s' P' v c L L' :
  h_slabs H !! v = Some (c, L) → kmem (sl_mmu s') n P' ∅ →
  slab_sizes s' = slab_sizes s → slab_caches s' = slab_caches s →
  (∀ u, u ≠ v → P' !! u = P !! u) → slab_page P' v c L' →
  heap_ok s' n P' (Heap (<[v := (c, L')]> (h_slabs H)) (h_bigs H) (h_known H)).
Proof.
  intros Hv Hk Hsz Hca HP Hsp. destruct Hok as [_ Hs1 Hs2 Hs3 Hs4 Hs5 Hs6 Hs7].
  assert (∀ u x, <[v:=(c, L')]> (h_slabs H) !! u = Some x → ∃ y, h_slabs H !! u = Some y) as Hold.
  { intros u x. destruct (decide (u = v)) as [->|Hne]; [eauto|]. rewrite lookup_insert_ne by done. eauto. }
  split; simpl; try done; [intros ? ?; rewrite Hsz; by apply Hs1|by rewrite Hca| | | |].
  - intros c' h. rewrite Hca. intros Hh. destruct (Hs3 c' h Hh) as [->|[L1 HL1]]; [by left|right].
    destruct (decide (h = v)) as [->|Hne].
    + simplify_eq. exists L'. by rewrite lookup_insert_eq.
    + exists L1. by rewrite lookup_insert_ne.
  - intros u c' L1. destruct (decide (u = v)) as [->|Hne].
    + rewrite lookup_insert_eq. by intros [= <- <-].
    + rewrite lookup_insert_ne by done. intros Hu.
      eapply slab_page_ext; [by eapply slab_aligned|by apply HP|by apply Hs4].
  - intros u m f Hu. eapply big_block_ext; [by eapply big_aligned| |by apply Hs5].
    intros j Hj. apply HP. intros Heq. eapply (Hs6 v _ u m f); [done..|]. by exists j.
  - intros u x b m f Hu Hb. destruct (Hold u x Hu) as [y Hy]. by eapply Hs6.
Qed.

Lemma live_set_slab v c L L' a sz :
  h_slabs H !! v = Some (c, L) →
  live (Heap (<[v := (c, L')]> (h_slabs H)) (h_bigs H) (h_known H)) a sz ↔
  (a ∈ slots v c ∧ (a ∉ L') ∧ sz = osz c) ∨ (live H a sz ∧ (a ∉ slots v c ∨ page_base a ≠ v)).
Proof.
  intros Hv. pose proof (ho_slabs _ _ _ _ Hok v c L Hv) as Hsp. pose proof (sp_class _ _ _ _ Hsp) as Hc.
  pose proof (slab_aligned _ _ _ Hv) as Hal. split.
  - intros [(u & c' & L1 & Hu & Ha & HL & ->)|(u & m & f & Hu & -> & ->)]; simpl in *.
    + destruct (decide (u = v)) as [->|Hne]; [rewrite lookup_insert_eq in Hu; simplify_eq; by left|].
      rewrite lookup_insert_ne in Hu by done. right. split; [left; by exists u, c', L1|right].
      destruct (slot_facts u c' a) as (_ & _ & _ & ->); [|by eapply slab_aligned|done|done].
      apply (sp_class _ _ _ _ (ho_slabs _ _ _ _ Hok u c' L1 Hu)).
    + right. split; [right; by exists u, m, f|right].
      rewrite page_base_in by (by eapply big_aligned || by split).
      intros ->. eapply (ho_apart _ _ _ _ Hok v _ v m f); [done..|]. exists 0.
      pose proof (bb_size _ _ _ _ (ho_bigs _ _ _ _ Hok v m f Hu)). lia.
  - intros [(Ha & HL & ->)|[[(u & c' & L1 & Hu & Ha & HL & ->)|(u & m & f & Hu & -> & ->)] Hn]].
    + left. exists v, c, L'. simpl. by rewrite lookup_insert_eq.
    + left. exists u, c', L1. simpl. rewrite lookup_insert_ne; [done|]. intros <-. simplify_eq.
      destruct Hn as [?|Hn]; [done|]. apply Hn. by destruct (slot_facts v c a Hc Hal Ha) as (_ & _ & _ & ->).
    + right. by exists u, m, f.
Qed.
End heap.

(** ** Taking and returning an object *)

Lemma aligned_add v d : v mod 8 = 0 → d mod 8 = 0 → (v + d) mod 8 = 0.
Proof. intros Hv Hd. by rewrite Z.add_mod, Hv, Hd by done. Qed.

(** The two halves of the count word. *)
Lemma count_word o k : 0 ≤ o < 2 ^ 32 → 0 ≤ k < 2 ^ 31 →
  u32 (o + k * 2 ^ 32) = o ∧ u32 ((o + k * 2 ^ 32) / 2 ^ 32) = k ∧ i32 (u32 ((o + k * 2 ^ 32) / 2 ^ 32)) = k.
Proof.
  intros Ho Hk. assert (u32 ((o + k * 2 ^ 32) / 2 ^ 32) = k) as Hc.
  { rewrite Z.div_add, Z.div_small by lia. rewrite Z.add_0_l, u32_small; [done|]. unfold is_u32. lia. }
  split_and!; [|done|].
  - unfold u32. rewrite Z.mod_add, Z.mod_small by lia. done.
  - rewrite Hc. unfold i32. rewrite u32_small by (unfold is_u32; lia). by rewrite (proj2 (Z.ltb_lt _ _)) by lia.
Qed.

Section objects.
Context (s : slab) (n : Z) (P : kpages) (H : heap) (Hok : heap_ok s n P H).
Context (h : Z) (c : nat) (L : list Z) (Hh : h_slabs H !! h = Some (c, L)).

Lemma obj_page : slab_page P h c L.
Proof. by apply (ho_slabs _ _ _ _ Hok). Qed.

Lemma obj_facts : (c < 6)%nat ∧ page_aligned h ∧ h mod 8 = 0 ∧ 32 ≤ osz c ≤ 1024 ∧ Z.of_nat (length L) ≤ ocount c ≤ 127.
Proof.
  pose proof (sp_class _ _ _ _ obj_page) as Hc. pose proof (slab_aligned _ _ _ _ Hok _ _ _ Hh) as Hal.
  destruct (osz_facts c Hc) as (Ho & _ & _ & Hoc). split_and!; try done; try lia; [by apply aligned_8|].
  assert (length L ≤ length (slots h c))%nat as Hlen.
  { apply submseteq_length, NoDup_submseteq; [apply (sp_nodup _ _ _ _ obj_page)|].
    intros x Hx. by apply (sp_slots _ _ _ _ obj_page). }
  unfold slots in Hlen. rewrite length_fmap, length_seq in Hlen. lia.
Qed.

(** The words of the free list are not header words. *)
Lemma obj_ne a d : a ∈ slots h c → 0 ≤ d < 32 → h + d ≠ a.
Proof.
  intros Ha Hd. destruct obj_facts as (Hc & Hal & _ & Ho & _).
  destruct (slot_facts h c a Hc Hal Ha) as (? & _). lia.
Qed.

(** A new free list and count are stored in the header. *)
Lemma slab_page_relist P0 L' v w :
  w = default 0 (head L') → v = osz c + Z.of_nat (length L') * 2 ^ 32 →
  linked P0 L' → L' ⊆ slots h c → NoDup L' →
  (∀ d, 0 ≤ d < 32 → d mod 8 = 0 → word P0 (h + d) = word P (h + d)) → is_Some (P0 !! h) →
  slab_page (put_word (h + 24) v (put_word (h + 16) w P0)) h c L'.
Proof.
  intros -> -> Hlk Hsub Hnd Hhd HP0. destruct obj_facts as (Hc & Hal & H8 & Ho & _).
  destruct obj_page as [_ Hpg Hmg Hnx Hli Hct _ _ _].
  assert (∀ d, d mod 8 = 0 → (h + d) mod 8 = 0) as Hd8 by (intros; by apply aligned_add).
  pose proof (Hhd 0) as Hw0. rewrite Z.add_0_r in Hw0.
  split; try done.
  - by apply put_word_page, put_word_page.
  - rewrite !word_put_ne by solve [done|by apply Hd8|lia]. by rewrite Hw0.
  - rewrite !word_put_ne by solve [by apply Hd8|lia]. by rewrite Hhd.
  - rewrite word_put_ne by solve [by apply Hd8|lia]. rewrite word_put_eq; [done|by apply Hd8|].
    rewrite Hhd by done. by rewrite Hli.
  - rewrite word_put_eq; [done|by apply Hd8|].
    rewrite word_put_ne by solve [by apply Hd8|lia]. rewrite Hhd by done. by rewrite Hct.
  - intros i a Ha. assert (a ∈ slots h c) as Hin by (apply Hsub; by eapply list_elem_of_lookup_2).
    destruct (slot_facts h c a Hc Hal Hin) as (_ & _ & Ha8 & _).
    rewrite !word_put_ne by solve [by apply Hd8|done|by apply obj_ne]. by apply Hlk.
Qed.

Lemma slot_word a : a ∈ slots h c → is_Some (word P a).
Proof.
  intros Ha. destruct obj_facts as (Hc & Hal & _). destruct (slot_facts h c a Hc Hal Ha) as (_ & _ & _ & Hp).
  destruct (sp_page _ _ _ _ obj_page) as [x Hx].
  eapply (km_word s n P ∅ (ho_mem _ _ _ _ Hok)). by rewrite Hp.
Qed.

Lemma wp_get_free_count (Q : Z → slab → Prop) :
  Q (Z.of_nat (length L)) s → wp (get_free_count h) Q s.
Proof.
  intros HQ. destruct obj_facts as (Hc & Hal & H8 & Ho & HL). unfold get_free_count. wp_step.
  replace (h + 28) with (h + 24 + 4) by lia.
  eapply (wp_load32_high s n P ∅ (ho_mem _ _ _ _ Hok)); [by apply aligned_add|apply (sp_count _ _ _ _ obj_page)|].
  wp_step. by destruct (count_word (osz c) (Z.of_nat (length L))) as (_ & _ & ->); [lia|lia|].
Qed.

(** The header words are stored after the words of the objects became those of
    [P0], by a state that still has [L] objects counted. *)
Lemma wp_relist s0 P0 x L' (Q : unit → slab → Prop) :
  kmem (sl_mmu s0) n P0 ∅ → slab_sizes s0 = slab_sizes s → slab_caches s0 = slab_caches s →
  (∀ u, u ≠ h → P0 !! u = P !! u) → is_Some (P0 !! h) →
  (∀ d, 0 ≤ d < 32 → d mod 8 = 0 → word P0 (h + d) = word P (h + d)) →
  x = default 0 (head L') → linked P0 L' → L' ⊆ slots h c → NoDup L' →
  (∀ s' P', heap_ok s' n P' (Heap (<[h := (c, L')]> (h_slabs H)) (h_bigs H) (h_known H)) → slab_caches s' = slab_caches s →
     (∀ y, y mod 8 = 0 → y ≠ h + 16 → y ≠ h + 24 → word P' y = word P0 y) → Q tt s') →
  wp (relist h x (Z.of_nat (length L') - Z.of_nat (length L))) Q s0.
Proof.
  intros Hk Hsz Hca HP HPh Hhd -> Hlk Hsub Hnd HQ. destruct obj_facts as (Hc & Hal & H8 & Ho & HL).
  assert ((h + 16) mod 8 = 0 ∧ (h + 24) mod 8 = 0) as [H16 H24] by (split; by apply aligned_add).
  assert (Z.of_nat (length L') ≤ ocount c) as HL'.
  { assert (length L' ≤ length (slots h c))%nat as Hlen by (by apply submseteq_length, NoDup_submseteq).
    unfold slots in Hlen. rewrite length_fmap, length_seq in Hlen. lia. }
  assert (word P0 (h + 24) = Some (osz c + Z.of_nat (length L) * 2 ^ 32)) as Hw24.
  { rewrite Hhd by done. apply (sp_count _ _ _ _ obj_page). }
  unfold relist, set_free_list, get_free_count, set_free_count.
  wp_step. apply (wp_store64 _ _ _ _ Hk); [rewrite Hhd by done; by rewrite (sp_list _ _ _ _ obj_page)|].
  intros m1 Hk1. set (P1 := put_word (h + 16) (default 0 (head L')) P0) in *.
  assert (word P1 (h + 24) = Some (osz c + Z.of_nat (length L) * 2 ^ 32)) as Hw1.
  { unfold P1. rewrite word_put_ne by solve [done|lia]. done. }
  replace (h + 28) with (h + 24 + 4) by lia.
  destruct (count_word (osz c) (Z.of_nat (length L))) as (Hlow & _ & Hhigh); [lia|lia|].
  wp_step. wp_step. eapply (wp_load32_high (put_mmu m1 s0) n P1 ∅ Hk1); [done..|]. wp_step. rewrite Hhigh. clear Hhigh.
  replace (Z.of_nat (length L) + _) with (Z.of_nat (length L')) by lia.
  eapply (wp_store32_high (put_mmu m1 s0) n P1 ∅ Hk1); [done..|]. intros m2 Hk2.
  rewrite Hlow in Hk2. rewrite (u32_small (Z.of_nat (length L'))) in Hk2 by (unfold is_u32; lia).
  eapply HQ.
  - eapply (heap_set_slab s n P H Hok); [done|exact Hk2|done..| |].
    + intros u Hu. unfold P1. rewrite !put_word_other by (rewrite page_base_in by done; done). by apply HP.
    + by apply slab_page_relist.
  - done.
  - intros y Hy Hy16 Hy24. unfold P1. by rewrite !word_put_ne.
Qed.
End objects.

(** [pop_object] takes the first free object. *)
Lemma wp_pop_object s n P H h c a L (Q : Z → slab → Prop) :
  heap_ok s n P H → h_slabs H !! h = Some (c, a :: L) →
  (∀ s' P', heap_ok s' n P' (Heap (<[h := (c, L)]> (h_slabs H)) (h_bigs H) (h_known H)) → slab_caches s' = slab_caches s →
     (∀ y, y mod 8 = 0 → y ≠ h + 16 → y ≠ h + 24 → word P' y = word P y) → Q a s') →
  wp (pop_object h) Q s.
Proof.
  intros Hok Hh HQ. pose proof (ho_mem _ _ _ _ Hok) as Hk. pose proof (obj_page _ _ _ _ Hok _ _ _ Hh) as Hsp.
  pose proof (sp_nodup _ _ _ _ Hsp) as Hnd. apply NoDup_cons in Hnd as [_ Hnd].
  unfold pop_object. wp_step. eapply (wp_load64 _ _ _ _ Hk); [apply (sp_list _ _ _ _ Hsp)|]. cbn [head default].
  wp_step. eapply (wp_load64 _ _ _ _ Hk); [by apply (sp_linked _ _ _ _ Hsp 0%nat a)|]. cbn [lookup list_lookup].
  pose proof (wp_relist s n P H Hok h c (a :: L) Hh s P (default 0 (L !! 0%nat)) L) as Hre.
  replace (Z.of_nat (length L) - Z.of_nat (length (a :: L))) with (-1) in Hre by (cbn [length]; lia).
  wp_step. apply Hre; [done..|apply (sp_page _ _ _ _ Hsp)|done|by rewrite head_lookup| | |done|].
  - intros i x Hx. by apply (sp_linked _ _ _ _ Hsp (S i) x).
  - intros x Hx. apply (sp_slots _ _ _ _ Hsp). by right.
  - intros s' P' Hok' Hca Hw. wp_step. by eapply HQ.
Qed.

Lemma wp_push_object s n P H h c a L (Q : unit → slab → Prop) :
  heap_ok s n P H → h_slabs H !! h = Some (c, L) → a ∈ slots h c → a ∉ L →
  (∀ s' P', heap_ok s' n P' (Heap (<[h := (c, a :: L)]> (h_slabs H)) (h_bigs H) (h_known H)) → slab_caches s' = slab_caches s →
     (∀ y, y mod 8 = 0 → y ≠ h + 16 → y ≠ h + 24 → y ≠ a → word P' y = word P y) → Q tt s') →
  wp (push_object h a) Q s.
Proof.
  intros Hok Hh Ha HaL HQ. pose proof (ho_mem _ _ _ _ Hok) as Hk. pose proof (obj_page _ _ _ _ Hok _ _ _ Hh) as Hsp.
  destruct (obj_facts _ _ _ _ Hok _ _ _ Hh) as (Hc & Hal & H8 & Ho & _).
  destruct (slot_facts h c a Hc Hal Ha) as (Hlo & Hhi & Ha8 & Hab).
  unfold push_object. wp_step. eapply (wp_load64 _ _ _ _ Hk); [apply (sp_list _ _ _ _ Hsp)|].
  wp_step. apply (wp_store64 _ _ _ _ Hk); [by eapply slot_word|]. intros m1 Hk1.
  pose proof (wp_relist s n P H Hok h c L Hh (put_mmu m1 s) _ a (a :: L) Q Hk1) as Hre.
  replace (Z.of_nat (length (a :: L)) - Z.of_nat (length L)) with 1 in Hre by (cbn [length]; lia).
  apply Hre; [done..| |by apply put_word_page, (sp_page _ _ _ _ Hsp)| |done| | | |].
  - intros u Hu. apply put_word_other. by rewrite Hab.
  - intros d Hd Hd8. apply word_put_ne; [done|by apply aligned_add|]. lia.
  - intros [|i] x Hx; simpl in Hx.
    + simplify_eq. rewrite word_put_eq; [|done|by eapply slot_word]. by rewrite head_lookup.
    + rewrite word_put_ne; [by apply (sp_linked _ _ _ _ Hsp)|done| |].
      * assert (x ∈ slots h c) as Hx' by (apply (sp_slots _ _ _ _ Hsp); by eapply list_elem_of_lookup_2).
        by destruct (slot_facts h c x Hc Hal Hx') as (_ & _ & ? & _).
      * intros <-. apply HaL. by eapply list_elem_of_lookup_2.
  - intros x Hx. apply elem_of_cons in Hx as [->|Hx]; [done|]. by apply (sp_slots _ _ _ _ Hsp).
  - constructor; [done|apply (sp_nodup _ _ _ _ Hsp)].
  - intros s' P' Hok' Hca Hw. eapply HQ; [done..|]. intros y Hy Hy16 Hy24 Hya.
    rewrite Hw by done. by apply word_put_ne.
Qed.

(** ** A new slab page *)

Section grow.
Context (s : slab) (n : Z) (P : kpages) (H : heap) (Hok : heap_ok s n P H).

Lemma slab_in_use v x : h_slabs H !! v = Some x → is_Some (P !! v).
Proof. destruct x as [c L]. intros Hv. apply (sp_page _ _ _ _ (ho_slabs _ _ _ _ Hok v c L Hv)). Qed.

Lemma block_in_use b m f v : h_bigs H !! b = Some (m, f) → in_block b m v → is_Some (P !! v).
Proof.
  intros Hb (j & Hj & ->). destruct (bb_pages _ _ _ _ (ho_bigs _ _ _ _ Hok b m f Hb) j Hj) as [l Hl]. eauto.
Qed.

Lemma heap_add_slab s' n' P' v c :
  P !! v = None → kmem (sl_mmu s') n' P' ∅ →
  slab_sizes s' = slab_sizes s → slab_caches s' = slab_caches s →
  (∀ u, u ≠ v → P' !! u = P !! u) → slab_page P' v c [] →
  heap_ok s' n' P' (Heap (<[v := (c, [])]> (h_slabs H)) (h_bigs H) (h_known H)).
Proof.
  intros Hv Hk Hsz Hca HP Hsp.
  assert (∀ u x, h_slabs H !! u = Some x → u ≠ v) as Hne.
  { intros u x Hu ->. destruct (slab_in_use v x Hu). congruence. }
  assert (∀ b m f, h_bigs H !! b = Some (m, f) → ¬ in_block b m v) as Hnb.
  { intros b m f Hb Hin. destruct (block_in_use b m f v Hb Hin). congruence. }
  pose proof Hok as [_ Hs1 Hs2 Hs3 Hs4 Hs5 Hs6 Hs7].
  split; simpl; try done; [intros ? ?; rewrite Hsz; by apply Hs1|by rewrite Hca| | | |].
  - intros c' h. rewrite Hca. intros Hh. destruct (Hs3 c' h Hh) as [->|[L1 HL1]]; [by left|right].
    exists L1. rewrite lookup_insert_ne; [done|]. intros <-. by eapply Hne.
  - intros u c' L1. destruct (decide (u = v)) as [->|Hn].
    + rewrite lookup_insert_eq. by intros [= <- <-].
    + rewrite lookup_insert_ne by done. intros Hu.
      eapply slab_page_ext; [by eapply (slab_aligned _ _ _ _ Hok)|by apply HP|by apply Hs4].
  - intros u m f Hu. eapply big_block_ext; [by eapply (big_aligned _ _ _ _ Hok)| |by apply Hs5].
    intros j Hj. apply HP. intros Heq. eapply (Hnb u m f); [done|]. by exists j.
  - intros u x b m f Hu Hb. destruct (decide (u = v)) as [->|Hn]; [by eapply Hnb|].
    rewrite lookup_insert_ne in Hu by done. by eapply Hs6.
Qed.

Lemma live_add_slab v c L a sz :
  P !! v = None → (∀ x, x ∈ slots v c → x ∈ L) →
  live (Heap (<[v := (c, L)]> (h_slabs H)) (h_bigs H) (h_known H)) a sz ↔ live H a sz.
Proof.
  intros Hv HL. split.
  - intros [(u & c' & L1 & Hu & Ha & HaL & ->)|?]; [|by right]. simpl in Hu.
    destruct (decide (u = v)) as [->|Hn]; [rewrite lookup_insert_eq in Hu; simplify_eq; by apply HL in Ha|].
    rewrite lookup_insert_ne in Hu by done. left. by exists u, c', L1.
  - intros [(u & c' & L1 & Hu & Ha & HaL & ->)|?]; [left|by right]. exists u, c', L1. simpl.
    rewrite lookup_insert_ne; [done|]. intros <-. destruct (slab_in_use v _ Hu). congruence.
Qed.
End grow.

(** The header of a fresh page. *)
Definition fresh_header (v o next : Z) (P : kpages) : kpages :=
  let P1 := put_word v (default 0 (word P v) / 2 ^ 32 * 2 ^ 32 + SLAB_MAGIC) P in
  let P2 := put_word (v + 16) 0 P1 in
  let P3 := put_word (v + 24) (default 0 (word P (v + 24)) / 2 ^ 32 * 2 ^ 32 + o) P2 in
  let P4 := put_word (v + 24) o P3 in
  put_word (v + 8) next P4.

Lemma fresh_header_page P v c next :
  (c < 6)%nat → page_aligned v → is_Some (P !! v) → (∀ d, 0 ≤ d < PAGE_SIZE → is_Some (word P (v + d))) →
  slab_page (fresh_header v (osz c) next P) v c [].
Proof.
  intros Hc Hv HP Hw. pose proof (aligned_8 v Hv) as H8.
  assert (∀ d, d mod 8 = 0 → (v + d) mod 8 = 0) as Hd8 by (intros; by apply aligned_add).
  assert (is_Some (word P v)) as Hw0 by (rewrite <-(Z.add_0_r v); by apply Hw).
  unfold fresh_header. split; try done.
  - by repeat apply put_word_page.
  - eexists. rewrite !word_put_ne by solve [done|by apply Hd8|lia]. rewrite word_put_eq by done. split; [done|].
    unfold u32. rewrite Z.add_comm, Z.mod_add by done. done.
  - rewrite word_put_eq; [done|by apply Hd8|]. rewrite !word_put_ne by solve [done|by apply Hd8|lia]. by apply Hw.
  - rewrite !word_put_ne by solve [done|by apply Hd8|lia].
    rewrite word_put_eq; [done|by apply Hd8|]. rewrite word_put_ne by solve [done|by apply Hd8|lia]. by apply Hw.
  - rewrite word_put_ne by solve [done|by apply Hd8|lia]. rewrite word_put_eq; [|by apply Hd8|].
    + by rewrite Z.mul_0_l, Z.add_0_r.
    + rewrite word_put_eq; [done|by apply Hd8|]. rewrite !word_put_ne by solve [done|by apply Hd8|lia]. by apply Hw.
  - intros x Hx. by apply not_elem_of_nil in Hx.
  - constructor.
Qed.

Lemma fresh_header_other P v o next u : page_aligned v → u ≠ v → fresh_header v o next P !! u = P !! u.
Proof.
  intros Hv Hu. unfold fresh_header.
  rewrite !put_word_other; [done|..]; rewrite ?page_base_in, ?page_base_same by done; done.
Qed.

Lemma wp_init_header s n P v o next (Q : unit → slab → Prop) :
  kmem (sl_mmu s) n P ∅ → page_aligned v → is_Some (P !! v) → 0 ≤ o < 2 ^ 31 →
  (∀ m, kmem m n (fresh_header v o next P) ∅ → Q tt (put_mmu m s)) → wp (init_header v o next) Q s.
Proof.
  intros Hk Hv [x Hx] Ho HQ. pose proof (aligned_8 v Hv) as H8.
  assert (∀ d, d mod 8 = 0 → (v + d) mod 8 = 0) as Hd8 by (intros; by apply aligned_add).
  assert (∀ d, 0 ≤ d < PAGE_SIZE → is_Some (word P (v + d))) as Hw.
  { intros d Hd. eapply (km_word s n P ∅ Hk). by rewrite page_base_in. }
  destruct (Hw 24) as [w24 H24]; [done|]. destruct (Hw 0) as [w0 H0]; [done|]. rewrite Z.add_0_r in H0.
  unfold init_header, set_magic, set_free_list, set_obj_size, set_free_count, set_next. unfold fresh_header in HQ.
  rewrite H24, H0 in HQ. cbn [default] in HQ.
  wp_step. eapply (wp_store32_low s n P ∅ Hk); [done..|]. intros m1 Hk1.
  rewrite (u32_small SLAB_MAGIC) in Hk1 by (unfold is_u32, SLAB_MAGIC; lia). set (P1 := put_word v _ P) in *.
  wp_step. apply (wp_store64 (put_mmu m1 s) n P1 ∅ Hk1).
  { unfold P1. rewrite word_put_ne by solve [done|by apply Hd8|lia]. by apply Hw. }
  intros m2 Hk2. set (P2 := put_word (v + 16) 0 P1) in *.
  assert (word P2 (v + 24) = Some w24) as H24'.
  { unfold P2, P1. by rewrite !word_put_ne by solve [done|by apply Hd8|lia]. }
  wp_step. eapply (wp_store32_low (put_mmu m2 s) n P2 ∅ Hk2); [by apply Hd8|done|]. intros m3 Hk3.
  rewrite (u32_small o) in Hk3 by (unfold is_u32; lia). set (P3 := put_word (v + 24) _ P2) in *.
  assert (word P3 (v + 24) = Some (w24 / 2 ^ 32 * 2 ^ 32 + o)) as H3.
  { unfold P3. apply word_put_eq; [by apply Hd8|by eexists]. }
  replace (v + 28) with (v + 24 + 4) by lia.
  wp_step. eapply (wp_store32_high (put_mmu m3 s) n P3 ∅ Hk3); [by apply Hd8|done|]. intros m4 Hk4.
  assert (u32 (w24 / 2 ^ 32 * 2 ^ 32 + o) + u32 0 * 2 ^ 32 = o) as Hlow.
  { unfold u32. rewrite (Z.add_comm _ o), Z.mod_add, (Z.mod_small o) by lia. rewrite Z.mod_0_l by done. lia. }
  rewrite Hlow in Hk4. set (P4 := put_word (v + 24) o P3) in *.
  apply (wp_store64 (put_mmu m4 s) n P4 ∅ Hk4).
  { unfold P4, P3, P2, P1. rewrite !word_put_ne by solve [done|by apply Hd8|lia]. by apply Hw. }
  intros m5 Hk5. by apply HQ.
Qed.

(** Threading the objects of a page with an empty list. *)
Lemma wp_thread_objects s n P H v c (Q : unit → slab → Prop) :
  heap_ok s n P H → h_slabs H !! v = Some (c, []) → v < 2 ^ 64 - PAGE_SIZE →
  (∀ s' P' L, heap_ok s' n P' (Heap (<[v := (c, L)]> (h_slabs H)) (h_bigs H) (h_known H)) →
     slab_caches s' = slab_caches s → (∀ a, a ∈ slots v c → a ∈ L) → L ≠ [] →
     (∀ y, y mod 8 = 0 → page_base y ≠ v → word P' y = word P y) → Q tt s') →
  wp (thread_objects v (v + osz c) (osz c) (ocount c)) Q s.
Proof.
  intros Hok Hv Hv64 HQ. destruct (obj_facts _ _ _ _ Hok _ _ _ Hv) as (Hc & Hal & H8 & Ho & _).
  destruct (osz_facts c Hc) as (_ & _ & Htot & Hcnt). unfold thread_objects.
  apply (wp_for_up (λ i s', 0 ≤ i ∧ slab_caches s' = slab_caches s ∧ ∃ P' L,
    heap_ok s' n P' (Heap (<[v := (c, L)]> (h_slabs H)) (h_bigs H) (h_known H)) ∧
    (∀ a, a ∈ L ↔ ∃ j, Z.of_nat j < i ∧ a = slot v c j) ∧
    (∀ y, y mod 8 = 0 → page_base y ≠ v → word P' y = word P y))).
  - split_and!; [lia|done|]. exists P, []. rewrite insert_id by done. split_and!; [by destruct H| |done].
    intros a. split; [by intros ?%not_elem_of_nil|]. intros (j & ? & _). lia.
  - intros i s' Hi (_ & Hca & P' & L & Hok' & HL & Hw).
    assert (v + osz c + i * osz c = slot v c (Z.to_nat i)) as Hslot.
    { unfold slot. rewrite Z2Nat.id by lia. lia. }
    assert (slot v c (Z.to_nat i) ∈ slots v c) as Hin.
    { apply elem_of_slots. exists (Z.to_nat i). split; [lia|done]. }
    destruct (slot_facts v c _ Hc Hal Hin) as (Hlo & Hhi & _ & Hpb).
    rewrite Hslot, u64_small by (unfold is_u64; destruct Hal; lia).
    eapply (wp_push_object s' n P' _ v c _ L _ Hok'); [simpl; by rewrite lookup_insert_eq|done| |].
    { intros (j & Hj & Heq)%HL. apply slot_inj in Heq; [lia|done]. }
    intros s'' P'' Hok'' Hca'' Hw''. cbn [h_slabs h_bigs h_known] in Hok''. rewrite insert_insert_eq in Hok''.
    split_and!; [lia|by rewrite Hca''|]. exists P'', (slot v c (Z.to_nat i) :: L). split_and!; [done| |].
    + intros a. rewrite elem_of_cons, HL. split.
      * intros [->|(j & Hj & ->)]; [exists (Z.to_nat i)|exists j]; (split; [lia|done]).
      * intros (j & Hj & ->). destruct (decide (j = Z.to_nat i)) as [->|Hne]; [by left|right]. exists j. split; [lia|done].
    + intros y Hy Hyp. rewrite Hw''; [by apply Hw|done|..]; intros ->; apply Hyp; [by apply page_base_in..|done].
  - intros s' (_ & Hca & P' & L & Hok' & HL & Hw). eapply HQ; [done..| | |done].
    + intros a (j & Hj & ->)%elem_of_slots. apply HL. exists j. split; [lia|done].
    + intros ->. apply (not_elem_of_nil (slot v c 0)), HL. exists 0%nat. split; [lia|done].
Qed.

Lemma heap_ok_mmu s n P H m : heap_ok s n P H → kmem m n P ∅ → heap_ok (put_mmu m s) n P H.
Proof. intros [? ? ? ? ? ? ? ?] Hm. by split. Qed.

Lemma heap_ok_cache s n P H c L h :
  heap_ok s n P H → h_slabs H !! h = Some (c, L) → heap_ok (set_cache c h s) n P H.
Proof.
  intros [? ? Hl Hc ? ? ? ?] Hh. split; try done; [simpl; by rewrite length_insert|].
  intros c' h' Hlk. simpl in Hlk. destruct (decide (c' = c)) as [->|Hne].
  - apply list_lookup_insert_Some in Hlk as [(_ & <- & _)|[? _]]; [|done]. right. eauto.
  - rewrite list_lookup_insert_ne in Hlk by done. by apply Hc.
Qed.

Lemma window_below n : 0 ≤ n < 2 ^ 27 → window_page n < 2 ^ 64 - PAGE_SIZE ∧ 0 < window_page n.
Proof. intros Hn. unfold window_page, window, PAGE_SIZE. lia. Qed.

Lemma window_fresh s n P F j : kmem s n P F → n ≤ j → P !! window_page j = None.
Proof.
  intros Hk Hj. destruct (P !! window_page j) as [x|] eqn:Hx; [|done].
  destruct (km_dom _ _ _ _ Hk _ _ Hx) as (i & Hi & Heq%window_page_inj). lia.
Qed.

(** Page layout: one header's worth of space, then whole objects. *)
Lemma layout c : (c < 6)%nat →
  (sizeof_slab_header + osz c - 1) / osz c * osz c = osz c ∧ (PAGE_SIZE - osz c) / osz c = ocount c.
Proof.
  intros Hc. split; [|done]. pose proof (osz_cases c Hc) as Hin. set_unfold in Hin.
  destruct_or! Hin; by rewrite Hin.
Qed.

Section slab_grow.
Context (s : slab) (n : Z) (P : kpages) (H : heap) (Hok : heap_ok s n P H) (c : nat) (Hc : (c < 6)%nat).
Context (Hck : (c < h_known H)%nat) (Hn : n + 1 ≤ 2 ^ 27).
Local Abbreviation v := (window_page n).

(** What happens once the page is mapped. *)
Lemma wp_grow_page m f l (Q : unit → slab → Prop) :
  kmem m (n + 1) (<[v := (f, l)]> P) ∅ →
  (∀ s' P' L, heap_ok s' (n + 1) P' (Heap (<[v := (c, L)]> (h_slabs H)) (h_bigs H) (h_known H)) →
     slab_caches s' = <[c := v]> (slab_caches s) → (∀ a, a ∈ slots v c → a ∈ L) → L ≠ [] →
     (∀ y, y mod 8 = 0 → page_base y ≠ v → word P' y = word P y) → Q tt s') →
  wp (sizes ← gets slab_sizes;
      obj_size ← load sizes (Z.of_nat c);
      let data_start := (sizeof_slab_header + obj_size - 1) / obj_size * obj_size in
      let avail := PAGE_SIZE - data_start in
      let count := avail / obj_size in
      caches ← gets slab_caches;
      next ← load caches (Z.of_nat c);
      init_header v obj_size next ;;
      thread_objects v (u64 (v + data_start)) obj_size count ;;
      modify (set_cache (Z.to_nat (Z.of_nat c)) v)) Q (put_mmu m s).
Proof.
  intros Hk HQ. destruct (km_off _ _ _ _ (ho_mem _ _ _ _ Hok)) as [_ Hn0].
  assert (page_aligned v) as Hal by (apply window_aligned; lia).
  assert (P !! v = None) as Hfr by (eapply window_fresh; [apply (ho_mem _ _ _ _ Hok)|lia]).
  destruct (window_below n) as [Hv64 Hv0]; [lia|].
  destruct (osz_facts c Hc) as (Ho & _ & _ & _). destruct (layout c Hc) as [Hds Hct].
  destruct (lookup_lt_is_Some_2 (slab_caches s) c) as [next Hnext]; [rewrite (ho_caches _ _ _ _ Hok); done|].
  wp_step. wp_step. wp_step. eapply wp_load; [lia|rewrite Nat2Z.id; by apply (ho_size _ _ _ _ Hok)|].
  cbn zeta. rewrite Hds, Hct, u64_small by (unfold is_u64, PAGE_SIZE in *; lia).
  wp_step. wp_step. wp_step. eapply wp_load; [lia|by rewrite Nat2Z.id|].
  wp_step. eapply (wp_init_header _ (n + 1) _ v); [exact Hk|done|by rewrite lookup_insert_eq|lia|].
  intros m1 Hk1. set (P1 := fresh_header v (osz c) next (<[v:=(f, l)]> P)) in *.
  assert (∀ u, u ≠ v → P1 !! u = P !! u) as HP1.
  { intros u Hu. unfold P1. rewrite fresh_header_other by done. by rewrite lookup_insert_ne. }
  assert (heap_ok (put_mmu m1 (put_mmu m s)) (n + 1) P1 (Heap (<[v := (c, [])]> (h_slabs H)) (h_bigs H) (h_known H))) as Hok1.
  { eapply (heap_add_slab s n P H Hok); try done. apply fresh_header_page; [done..|by rewrite lookup_insert_eq|].
    intros d Hd. eapply (km_word (put_mmu m s) _ _ _ Hk). rewrite page_base_in by done. by rewrite lookup_insert_eq. }
  wp_step. eapply (wp_thread_objects _ (n + 1) P1 _ v c _ Hok1); [cbn [h_slabs]; by rewrite lookup_insert_eq|done|].
  intros s' P' L Hok' Hca HL Hne Hw. cbn [h_slabs h_bigs h_known] in Hok'. rewrite insert_insert_eq in Hok'.
  wp_step. rewrite Nat2Z.id. eapply (HQ _ P' L).
  - eapply heap_ok_cache; [done|]. cbn [h_slabs]. by rewrite lookup_insert_eq.
  - simpl. by rewrite Hca.
  - done.
  - done.
  - intros y Hy Hyv. rewrite Hw by done. apply word_ext. by rewrite HP1.
Qed.

Lemma wp_slab_grow (Q : unit → slab → Prop) :
  (∀ s', heap_ok s' n P H → slab_caches s' = slab_caches s → Q tt s') →
  (∀ s' P' L, heap_ok s' (n + 1) P' (Heap (<[v := (c, L)]> (h_slabs H)) (h_bigs H) (h_known H)) →
     slab_caches s' = <[c := v]> (slab_caches s) → (∀ a, a ∈ slots v c → a ∈ L) → L ≠ [] →
     (∀ y, y mod 8 = 0 → page_base y ≠ v → word P' y = word P y) → Q tt s') →
  wp (slab_grow (Z.of_nat c)) Q s.
Proof.
  intros HQ0 HQ. pose proof (ho_mem _ _ _ _ Hok) as Hk. destruct (km_off _ _ _ _ Hk) as [_ Hn0].
  unfold slab_grow. wp_step. apply wp_zoom. apply (wp_take_frame _ _ _ _ Hk).
  { rewrite Z.eqb_refl. wp_step. replace (put_mmu (sl_mmu s) s) with s by (by destruct s). by apply HQ0. }
  intros f m1 Hf Hf0 Hk1 _. rewrite (proj2 (Z.eqb_neq _ _)) by (unfold PAGE_SIZE; lia).
  assert (frames f 1 = {[f]}) as Hfr.
  { apply set_eq. intros g. rewrite elem_of_frames, elem_of_singleton. lia. }
  wp_step. apply wp_zoom. apply (wp_kmap _ _ _ _ Hk1); [done|done|done|rewrite Hfr; set_solver| |].
  - intros m2 ls Hlen _ Hk2 _. destruct (window_below n) as [Hv64 Hv0]; [lia|].
    rewrite (proj2 (Z.eqb_neq _ _)) by lia. destruct ls as [|l [|]]; simplify_eq/=.
    eapply (wp_grow_page m2 f l); [|done]. rewrite Hfr in Hk2. by replace (_ ∖ _) with (∅ : gset Z) in Hk2 by set_solver.
  - intros m2 Hk2 _. rewrite Z.eqb_refl. apply wp_zoom. apply (wp_give_frame _ _ _ _ Hk2); [done|set_solver|].
    intros m3 Hk3 _. apply HQ0; [|done]. replace (_ ∖ _) with (∅ : gset Z) in Hk3 by set_solver.
    by eapply (heap_ok_mmu s n P H m3).
Qed.
End slab_grow.

(** ** Where live objects lie *)

Section live.
Context (s : slab) (n : Z) (P : kpages) (H : heap) (Hok : heap_ok s n P H).

Lemma page_base_bounds y : page_base y ≤ y < page_base y + PAGE_SIZE.
Proof.
  unfold page_base. pose proof (Z.div_mod y PAGE_SIZE). pose proof (Z.mod_pos_bound y PAGE_SIZE).
  unfold PAGE_SIZE in *. lia.
Qed.

Lemma block_page b m y : page_aligned b → b ≤ y < b + m * PAGE_SIZE → in_block b m (page_base y).
Proof.
  intros [_ Hb] Hy. exists ((y - b) / PAGE_SIZE). unfold page_base, PAGE_SIZE in *.
  Z.to_euclidean_division_equations. lia.
Qed.

(** The bytes of a slab object, and of a large one. *)
Lemma live_place a sz :
  live H a sz → 0 < sz ∧
  ((∃ v c L, h_slabs H !! v = Some (c, L) ∧ sz = osz c ∧ v + 32 ≤ a ∧ a + sz ≤ v + PAGE_SIZE ∧ a ∈ slots v c) ∨
   (∃ b m f, h_bigs H !! b = Some (m, f) ∧ b + 24 = a ∧ a + sz = b + m * PAGE_SIZE)).
Proof.
  intros [(v & c & L & Hv & Ha & HaL & ->)|(b & m & f & Hb & -> & ->)].
  - pose proof (sp_class _ _ _ _ (ho_slabs _ _ _ _ Hok v c L Hv)) as Hc.
    destruct (slot_facts v c a Hc (slab_aligned _ _ _ _ Hok _ _ _ Hv) Ha) as (Hlo & Hhi & _).
    destruct (osz_facts c Hc) as (Ho & _). split; [lia|left]. exists v, c, L. split_and!; [done|done|lia|lia|done].
  - pose proof (bb_size _ _ _ _ (ho_bigs _ _ _ _ Hok b m f Hb)). unfold sizeof_big_hdr.
    split; [unfold PAGE_SIZE; lia|right]. exists b, m, f. split_and!; [done|done|lia].
Qed.

Lemma live_in_use a sz y : live H a sz → a ≤ y < a + sz → is_Some (P !! page_base y).
Proof.
  intros Hl Hy. destruct (live_place a sz Hl) as [_ [(v & c & L & Hv & -> & Hlo & Hhi & _)|(b & m & f & Hb & Ha & Hhi)]].
  - replace y with (v + (y - v)) by lia. rewrite page_base_in; [by eapply (slab_in_use _ _ _ _ Hok)|by eapply (slab_aligned _ _ _ _ Hok)|lia].
  - eapply (block_in_use _ _ _ _ Hok); [done|]. apply block_page; [by eapply (big_aligned _ _ _ _ Hok)|lia].
Qed.

(** No live byte is a header word of a slab page. *)
Lemma live_not_header a sz y h x d :
  live H a sz → a ≤ y < a + sz → h_slabs H !! h = Some x → 0 ≤ d < 32 → y ≠ h + d.
Proof.
  intros Hl Hy Hh Hd ->. destruct x as [c' L'].
  destruct (live_place a sz Hl) as [_ [(v & c & L & Hv & -> & Hlo & Hhi & _)|(b & m & f & Hb & Ha & Hhi)]].
  - assert (page_base (h + d) = v) as Hpb.
    { replace (h + d) with (v + (h + d - v)) by lia. apply page_base_in; [by eapply (slab_aligned _ _ _ _ Hok)|lia]. }
    rewrite page_base_in in Hpb by solve [by eapply (slab_aligned _ _ _ _ Hok)|unfold PAGE_SIZE; lia]. lia.
  - eapply (ho_apart _ _ _ _ Hok h _ b m f); [done..|].
    replace h with (page_base (h + d)); [apply block_page; [by eapply (big_aligned _ _ _ _ Hok)|lia]|].
    apply page_base_in; [by eapply (slab_aligned _ _ _ _ Hok)|unfold PAGE_SIZE; lia].
Qed.

(** ... nor of a large block, nor a byte of a free object. *)
Lemma live_not_big_header a sz y b m f d :
  live H a sz → a ≤ y < a + sz → h_bigs H !! b = Some (m, f) → 0 ≤ d < 24 → y ≠ b + d.
Proof.
  intros Hl Hy Hb Hd ->. pose proof (big_aligned _ _ _ _ Hok _ _ _ Hb) as Hal.
  pose proof (bb_size _ _ _ _ (ho_bigs _ _ _ _ Hok b m f Hb)) as Hm.
  assert (in_block b m (page_base (b + d))) as Hin by (apply block_page; [done|unfold PAGE_SIZE; lia]).
  destruct (live_place a sz Hl) as [_ [(v & c & L & Hv & -> & Hlo & Hhi & _)|(b' & m' & f' & Hb' & Ha & Hhi)]].
  - eapply (ho_apart _ _ _ _ Hok v _ b m f); [done..|]. replace v with (page_base (b + d)); [done|].
    replace (b + d) with (v + (b + d - v)) by lia. apply page_base_in; [by eapply (slab_aligned _ _ _ _ Hok)|lia].
  - assert (b = b') as <-; [|lia]. eapply (ho_disjoint _ _ _ _ Hok b m f b' m' f'); [done..|].
    apply block_page; [by eapply (big_aligned _ _ _ _ Hok)|lia].
Qed.

Lemma live_not_free a sz v c L o :
  live H a sz → h_slabs H !! v = Some (c, L) → o ∈ L → a ≤ o < a + sz → False.
Proof.
  intros Hl Hv HoL Hy. pose proof (ho_slabs _ _ _ _ Hok v c L Hv) as Hsp. pose proof (sp_class _ _ _ _ Hsp) as Hc.
  assert (o ∈ slots v c) as Ho by (by apply (sp_slots _ _ _ _ Hsp)).
  destruct (slot_facts v c o Hc (slab_aligned _ _ _ _ Hok _ _ _ Hv) Ho) as (_ & _ & _ & Hob).
  destruct Hl as [(v' & c' & L' & Hv' & Ha & HaL & ->)|(b & m & f & Hb & -> & ->)].
  - pose proof (sp_class _ _ _ _ (ho_slabs _ _ _ _ Hok v' c' L' Hv')) as Hc'.
    destruct (slot_facts v' c' a Hc' (slab_aligned _ _ _ _ Hok _ _ _ Hv') Ha) as (Hlo & Hhi & _ & Hab).
    destruct (osz_facts c' Hc') as (Ho' & _). assert (v = v') as <-.
    { assert (page_base (v' + (o - v')) = v') as Hpb by (apply page_base_in; [by eapply (slab_aligned _ _ _ _ Hok)|lia]).
      by rewrite Zplus_minus, Hob in Hpb. }
    simplify_eq. apply elem_of_slots in Ha as (i & _ & Ha). apply elem_of_slots in Ho as (j & _ & Ho).
    unfold slot in *. assert (Z.of_nat i = Z.of_nat j) as Hij by nia. apply HaL. by replace a with o by lia.
  - eapply (ho_apart _ _ _ _ Hok v _ b m f); [done..|]. rewrite <-Hob. apply block_page; [by eapply (big_aligned _ _ _ _ Hok)|].
    unfold sizeof_big_hdr in *. lia.
Qed.

(** Different live objects do not overlap. *)
Lemma live_disjoint a sz a' sz' :
  live H a sz → live H a' sz' → a ≠ a' → a + sz ≤ a' ∨ a' + sz' ≤ a.
Proof.
  intros Hl Hl' Hne. destruct (Z.le_gt_cases (a + sz) a') as [|H1]; [by left|].
  destruct (Z.le_gt_cases (a' + sz') a) as [|H2]; [by right|]. exfalso.
  destruct (live_place a sz Hl) as [Hsz [(v & c & L & Hv & -> & Hlo & Hhi & Hin)|(b & m & f & Hb & Ha & Hhi)]],
    (live_place a' sz' Hl') as [Hsz' [(v' & c' & L' & Hv' & -> & Hlo' & Hhi' & Hin')|(b' & m' & f' & Hb' & Ha' & Hhi')]].
  - pose proof (slab_aligned _ _ _ _ Hok _ _ _ Hv) as [_ Hal]. pose proof (slab_aligned _ _ _ _ Hok _ _ _ Hv') as [_ Hal'].
    assert (v = v') as <-. { unfold PAGE_SIZE in *. Z.to_euclidean_division_equations. lia. }
    assert (c = c' ∧ L = L') as [<- <-] by (split; congruence).
    apply elem_of_slots in Hin as (i & _ & ->), Hin' as (j & _ & ->). unfold slot in *.
    destruct (osz_facts c) as (Ho & _); [apply (sp_class _ _ _ _ (ho_slabs _ _ _ _ Hok v c L Hv))|].
    assert (Z.of_nat i = Z.of_nat j) by nia. apply Hne. by replace j with i by lia.
  - eapply (ho_apart _ _ _ _ Hok v _ b' m' f'); [done..|]. set (y := Z.max a a').
    replace v with (page_base y); [apply block_page; [by eapply (big_aligned _ _ _ _ Hok)|lia]|].
    replace y with (v + (y - v)) by lia. apply page_base_in; [by eapply (slab_aligned _ _ _ _ Hok)|lia].
  - eapply (ho_apart _ _ _ _ Hok v' _ b m f); [done..|]. set (y := Z.max a a').
    replace v' with (page_base y); [apply block_page; [by eapply (big_aligned _ _ _ _ Hok)|lia]|].
    replace y with (v' + (y - v')) by lia. apply page_base_in; [by eapply (slab_aligned _ _ _ _ Hok)|lia].
  - set (y := Z.max a a'). apply Hne. rewrite <-Ha, <-Ha'. f_equal.
    eapply (ho_disjoint _ _ _ _ Hok b m f b' m' f' (page_base y)); [done..| |];
      (apply block_page; [by eapply (big_aligned _ _ _ _ Hok)|lia]).
Qed.
End live.

(** ** kmalloc *)

(** What an allocation does to the heap: nothing that is live changes, and a
    result other than 0 is a new live object that is large enough. *)
Record allocated (P : kpages) (H : heap) (size r : Z) (s' : slab) (n' : Z) (P' : kpages) (H' : heap) : Prop := Allocated {
  al_ok : heap_ok s' n' P' H';
  al_known : h_known H' = h_known H;
  al_words : ∀ a sz y, live H a sz → a ≤ y < a + sz → y mod 8 = 0 → word P' y = word P y;
  al_new : r ≠ 0 → (∀ z, ¬ live H r z) ∧ 0 < r ∧ ∃ sz, size ≤ sz ∧ ∀ a z, live H' a z ↔ live H a z ∨ (a = r ∧ z = sz);
  al_none : r = 0 → ∀ a z, live H' a z ↔ live H a z }.

Section kmalloc.
Context (s : slab) (n : Z) (P : kpages) (H : heap) (Hok : heap_ok s n P H) (Hkn : h_known H = 6%nat).

Lemma wp_size_to_idx size (Q : Z → slab → Prop) :
  (∀ c, (c < 6)%nat → size ≤ osz c → Q (Z.of_nat c) s) → (1024 < size → Q (-1) s) → wp (size_to_idx size) Q s.
Proof.
  intros HQ HQ0. unfold size_to_idx. wp_step. wp_step. wp_step.
  apply (wp_for_ret (λ i s', s' = s ∧ ∀ c, Z.of_nat c < i → osz c < size)).
  - split; [done|]. intros c Hc. lia.
  - intros i s' Hi [-> Hlt]. change (Z.to_nat SLAB_NUM) with 6%nat in Hi. wp_step.
    eapply wp_load; [lia|apply (ho_size _ _ _ _ Hok); lia|]. wp_step.
    destruct (Z.leb_spec size (osz (Z.to_nat i))) as [Hle|Hgt].
    + wp_step. simpl. rewrite <-(Z2Nat.id i) by lia. apply HQ; [lia|done].
    + split; [done|]. intros c Hc. destruct (decide (c = Z.to_nat i)) as [->|Hne]; [done|]. apply Hlt. lia.
  - intros s' [-> Hlt]. wp_step. simpl. apply HQ0. apply (Hlt 5%nat). done.
Qed.

Lemma wp_usable_head c (Q : option Z → slab → Prop) :
  (c < 6)%nat →
  (∀ h, slab_caches s !! c = Some h → (h = 0 ∨ h_slabs H !! h = Some (c, [])) → Q None s) →
  (∀ h a L, slab_caches s !! c = Some h → h_slabs H !! h = Some (c, a :: L) → Q (Some h) s) →
  wp (usable_head (Z.of_nat c)) Q s.
Proof.
  intros Hc HQ0 HQ. unfold usable_head.
  destruct (lookup_lt_is_Some_2 (slab_caches s) c) as [h Hh]; [rewrite (ho_caches _ _ _ _ Hok); done|].
  wp_step. wp_step. wp_step. eapply wp_load; [lia|by rewrite Nat2Z.id|].
  destruct (Z.eqb_spec h 0) as [->|Hne]; [wp_step; by eapply HQ0; [|left]|].
  destruct (ho_heads _ _ _ _ Hok c h Hh) as [?|[L HL]]; [done|].
  wp_step. eapply (wp_get_free_count _ _ _ _ Hok _ _ _ HL). wp_step. destruct L as [|a L]; simpl.
  - eapply HQ0; [done|by right].
  - destruct (Z.eqb_spec (Z.of_nat (S (length L))) 0); [lia|]. by eapply HQ.
Qed.

Lemma pop_allocated h c a L size s' P' :
  h_slabs H !! h = Some (c, a :: L) → size ≤ osz c →
  heap_ok s' n P' (Heap (<[h := (c, L)]> (h_slabs H)) (h_bigs H) (h_known H)) →
  (∀ y, y mod 8 = 0 → y ≠ h + 16 → y ≠ h + 24 → word P' y = word P y) →
  allocated P H size a s' n P' (Heap (<[h := (c, L)]> (h_slabs H)) (h_bigs H) (h_known H)).
Proof.
  intros Hh Hsz Hok' Hw. pose proof (obj_page _ _ _ _ Hok _ _ _ Hh) as Hsp.
  destruct (obj_facts _ _ _ _ Hok _ _ _ Hh) as (Hc & Hal & _ & Ho & _).
  assert (a ∈ slots h c) as Ha by (apply (sp_slots _ _ _ _ Hsp); by left).
  destruct (slot_facts h c a Hc Hal Ha) as (Hlo & _ & _ & Hpb).
  pose proof (sp_nodup _ _ _ _ Hsp) as Hnd. apply NoDup_cons in Hnd as [HaL _].
  assert (∀ z, ¬ live H a z) as Hnl.
  { intros z [(v & c' & L' & Hv & Ha' & HaL' & ->)|(b & m & f & Hb & Heq & ->)].
    - assert (v = h) as ->.
      { destruct (slot_facts v c' a) as (_ & _ & _ & Hpb'); [|by eapply (slab_aligned _ _ _ _ Hok)|done|congruence].
        apply (sp_class _ _ _ _ (ho_slabs _ _ _ _ Hok v c' L' Hv)). }
      simplify_eq. apply HaL'. by left.
    - eapply (ho_apart _ _ _ _ Hok h _ b m f); [done..|]. rewrite <-Hpb, Heq. apply block_page; [by eapply (big_aligned _ _ _ _ Hok)|].
      pose proof (bb_size _ _ _ _ (ho_bigs _ _ _ _ Hok b m f Hb)). unfold sizeof_big_hdr, PAGE_SIZE. lia. }
  destruct Hal as [Hh0 Hal]. split; [done|done| | |].
  - intros x sz y Hl Hy Hy8. apply Hw; [done|..]; eapply (live_not_header _ _ _ _ Hok); done || lia.
  - intros _. split_and!; [done|lia|]. exists (osz c). split; [done|]. intros x z.
    rewrite (live_set_slab _ _ _ _ Hok _ _ (a :: L)) by done. split.
    + intros [(Hx & HxL & ->)|[Hl _]]; [|by left]. destruct (decide (x = a)) as [->|Hne]; [by right|left].
      left. exists h, c, (a :: L). rewrite not_elem_of_cons. done.
    + intros [Hl|[-> ->]]; [|by left]. destruct (decide (x ∈ slots h c)) as [Hx|Hx]; [left|right; by auto].
      destruct Hl as [(v & c' & L' & Hv & Hx' & HxL' & ->)|(b & m & f & Hb & Heq & ->)].
      * assert (v = h) as ->.
        { destruct (slot_facts v c' x) as (_ & _ & _ & Hpb'); [|by eapply (slab_aligned _ _ _ _ Hok)|done|].
          - apply (sp_class _ _ _ _ (ho_slabs _ _ _ _ Hok v c' L' Hv)).
          - by destruct (slot_facts h c x Hc (conj Hh0 Hal) Hx) as (_ & _ & _ & <-). }
        simplify_eq. rewrite not_elem_of_cons in HxL'. naive_solver.
      * exfalso. eapply (ho_apart _ _ _ _ Hok h _ b m f); [done..|].
        destruct (slot_facts h c x Hc (conj Hh0 Hal) Hx) as (_ & _ & _ & <-). rewrite Heq.
        apply block_page; [by eapply (big_aligned _ _ _ _ Hok)|].
        pose proof (bb_size _ _ _ _ (ho_bigs _ _ _ _ Hok b m f Hb)). unfold sizeof_big_hdr, PAGE_SIZE. lia.
  - intros ->. lia.
Qed.

Lemma wp_take_object h c a L size (Q : Z → slab → Prop) :
  h_slabs H !! h = Some (c, a :: L) → size ≤ osz c →
  (∀ s' P' H', allocated P H size a s' n P' H' → Q a s') → wp (pop_object h) Q s.
Proof.
  intros Hh Hsz HQ. eapply wp_pop_object; [done..|]. intros s' P' Hok' _ Hw. eapply HQ. by eapply pop_allocated.
Qed.

Lemma allocated_none size s' : heap_ok s' n P H → allocated P H size 0 s' n P H.
Proof. intros Hok'. by split. Qed.

(** An allocation after the heap got a new page without live objects. *)
Lemma allocated_after P1 H1 size r s' n' P' H' :
  (∀ a z, live H1 a z ↔ live H a z) → h_known H1 = h_known H →
  (∀ y, y mod 8 = 0 → is_Some (P !! page_base y) → word P1 y = word P y) →
  allocated P1 H1 size r s' n' P' H' → allocated P H size r s' n' P' H'.
Proof.
  intros Hl Hkn1 Hw [Hok' Hkn' Hw' Hnew Hnone]. split; [done|congruence| | |].
  - intros a sz y Ha Hy Hy8. rewrite (Hw' a sz y) by (done || by apply Hl). apply Hw; [done|]. by eapply live_in_use.
  - intros Hr. destruct (Hnew Hr) as (Hfr & H0 & sz & Hsz & Hiff). split_and!; [|done|].
    + intros z Hz%Hl. by eapply Hfr.
    + exists sz. split; [done|]. intros a z. by rewrite Hiff, Hl.
  - intros Hr a z. by rewrite (Hnone Hr), Hl.
Qed.
End kmalloc.

(** A request served from the caches. *)
Lemma wp_kmalloc_small s n P H c size (Q : Z → slab → Prop) :
  heap_ok s n P H → h_known H = 6%nat → (c < 6)%nat → size ≤ osz c → n + 1 ≤ 2 ^ 27 →
  (∀ r s' n' P' H', n ≤ n' ≤ n + 1 → allocated P H size r s' n' P' H' → Q r s') →
  wp (hdr ← usable_head (Z.of_nat c);
      match hdr with
      | Some hdr => pop_object hdr
      | None =>
        slab_grow (Z.of_nat c) ;;
        hdr ← usable_head (Z.of_nat c);
        match hdr with
        | Some hdr => pop_object hdr
        | None => mret 0
        end
      end) Q s.
Proof.
  intros Hok Hkn Hc Hsz Hn HQ. destruct (km_off _ _ _ _ (ho_mem _ _ _ _ Hok)) as [_ Hn0].
  wp_step. apply (wp_usable_head _ _ _ _ Hok Hkn); [done| |].
  2:{ intros h a L Hh HhL. eapply wp_take_object; [done..|]. intros s' P' H' Ha. eapply HQ; [|done]. lia. }
  intros h Hh Hempty. wp_step. eapply (wp_slab_grow _ _ _ _ Hok c Hc); [lia|done| |].
  - intros s' Hok' Hca. wp_step. apply (wp_usable_head _ _ _ _ Hok' Hkn); [done| |].
    + intros h' Hh' _. wp_step. eapply HQ; [|by apply allocated_none]. lia.
    + intros h' a L Hh' HhL. rewrite Hca, Hh in Hh'. simplify_eq. destruct Hempty as [->|?]; [|congruence].
      destruct (slab_aligned _ _ _ _ Hok _ _ _ HhL). lia.
  - intros s' P' L Hok' Hca HL Hne Hw. set (H1 := Heap _ _ _) in *.
    assert (P !! window_page n = None) as Hfr by (eapply window_fresh; [apply (ho_mem _ _ _ _ Hok)|lia]).
    wp_step. apply (wp_usable_head _ _ _ _ Hok' Hkn); [done| |].
    + intros h' Hh' Hemp. rewrite Hca, list_lookup_insert_eq in Hh' by (rewrite (ho_caches _ _ _ _ Hok); lia).
      simplify_eq. destruct (window_below n) as [_ ?]; [lia|]. destruct Hemp as [?|Hemp]; [lia|].
      unfold H1 in Hemp. cbn [h_slabs] in Hemp. rewrite lookup_insert_eq in Hemp. by simplify_eq.
    + intros h' a L' _ HhL. eapply (wp_take_object _ _ _ _ Hok'); [done..|]. intros s'' P'' H'' Ha.
      eapply HQ; [|eapply (allocated_after s n P H Hok P' H1); [|done| |done]]; [lia| |].
      * intros x z. by eapply live_add_slab.
      * intros y Hy Hin. apply Hw; [done|]. intros Heq. rewrite Heq, Hfr in Hin. by destruct Hin.
Qed.

(** ** Large requests *)

Section large.
Context (s : slab) (n : Z) (P : kpages) (H : heap) (Hok : heap_ok s n P H).
Context (b m f : Z) (Hnew : ∀ v, in_block b m v → P !! v = None).
Local Abbreviation H' := (Heap (h_slabs H) (<[b := (m, f)]> (h_bigs H)) (h_known H)).

Lemma heap_add_big s' n' P' :
  kmem (sl_mmu s') n' P' ∅ → slab_sizes s' = slab_sizes s → slab_caches s' = slab_caches s →
  (∀ v, is_Some (P !! v) → P' !! v = P !! v) → big_block P' b m f → heap_ok s' n' P' H'.
Proof.
  intros Hk Hsz Hca HP Hb. pose proof Hok as [_ Hs1 Hs2 Hs3 Hs4 Hs5 Hs6 Hs7].
  assert (∀ b1 m1 f1 v, h_bigs H !! b1 = Some (m1, f1) → in_block b1 m1 v → ¬ in_block b m v) as Hout.
  { intros b1 m1 f1 v Hb1 Hin Hin'%Hnew. destruct (block_in_use _ _ _ _ Hok _ _ _ _ Hb1 Hin). congruence. }
  split; simpl; try done; [intros ? ?; rewrite Hsz; by apply Hs1|by rewrite Hca|by rewrite Hca| | | |].
  - intros v c L Hv. eapply slab_page_ext; [by eapply (slab_aligned _ _ _ _ Hok)| |by apply Hs4].
    apply HP. by eapply (slab_in_use _ _ _ _ Hok).
  - intros v m1 f1. rewrite lookup_insert_Some. intros [[<- [= <- <-]]|[_ Hv]]; [done|].
    eapply big_block_ext; [by eapply (big_aligned _ _ _ _ Hok)| |by apply Hs5].
    intros j Hj. apply HP. eapply (block_in_use _ _ _ _ Hok); [done|]. by exists j.
  - intros v x b1 m1 f1 Hv. rewrite lookup_insert_Some. intros [[<- [= <- <-]]|[_ Hb1]]; [|by eapply Hs6].
    intros Hin%Hnew. destruct (slab_in_use _ _ _ _ Hok _ _ Hv). congruence.
  - intros b1 m1 f1 b2 m2 f2 v. rewrite !lookup_insert_Some.
    intros [[<- [= <- <-]]|[_ Hb1]] [[<- [= <- <-]]|[_ Hb2]] Hi1 Hi2; [done| | |by eapply Hs7]; exfalso; by eapply Hout.
Qed.

Lemma live_add_big a z :
  0 < m → live H' a z ↔ live H a z ∨ (a = b + sizeof_big_hdr ∧ z = m * PAGE_SIZE - sizeof_big_hdr).
Proof.
  intros Hm. unfold live. simpl. split.
  - intros [?|(v & m1 & f1 & Hv & -> & ->)]; [naive_solver|].
    apply lookup_insert_Some in Hv as [[<- [= <- <-]]|[_ Hv]]; [by right|]. left. right. by exists v, m1, f1.
  - intros [[?|(v & m1 & f1 & Hv & -> & ->)]|[-> ->]]; [by left|right..].
    + exists v, m1, f1. rewrite lookup_insert_ne; [done|]. intros <-.
      assert (in_block b m b) as Hin%Hnew by (exists 0; lia).
      destruct (block_in_use _ _ _ _ Hok b m1 f1 b Hv) as [x Hx]; [|congruence]. exists 0.
      pose proof (bb_size _ _ _ _ (ho_bigs _ _ _ _ Hok b m1 f1 Hv)). lia.
    + exists b, m, f. by rewrite lookup_insert_eq.
Qed.

Lemma live_fresh y z : 0 < m → page_aligned b → b ≤ y < b + m * PAGE_SIZE → ¬ live H y z.
Proof.
  intros Hm Hb Hy Hl. destruct (live_place _ _ _ _ Hok y z Hl) as [Hz _].
  destruct (live_in_use _ _ _ _ Hok y z y Hl) as [x Hx]; [lia|].
  rewrite (Hnew (page_base y)) in Hx by (by apply block_page). done.
Qed.
End large.

(** The header of a fresh block. *)
Definition big_header (v m phys : Z) (P : kpages) : kpages :=
  put_word (v + 16) phys (put_word (v + 8) m (put_word v BIG_MAGIC P)).

Lemma big_header_other P v m phys u : page_aligned v → u ≠ v → big_header v m phys P !! u = P !! u.
Proof.
  intros Hv Hu. unfold big_header.
  rewrite !put_word_other; [done|..]; rewrite ?page_base_in, ?page_base_same by done; done.
Qed.

Lemma put_word_frame v w P u f l : P !! u = Some (f, l) → ∃ l', put_word v w P !! u = Some (f, l').
Proof. intros HP. unfold put_word. rewrite lookup_alter. case_decide; [subst; rewrite HP; simpl|]; eauto. Qed.

Lemma big_header_block P v m f :
  page_aligned v → 0 < m < 2 ^ 27 ∧ 0 < f → (∀ d, 0 ≤ d < PAGE_SIZE → is_Some (word P (v + d))) →
  (∀ j, 0 ≤ j < m → ∃ l, P !! (v + j * PAGE_SIZE) = Some (f + j, l)) →
  big_block (big_header v m (f * PAGE_SIZE) P) v m f.
Proof.
  intros Hv Hm Hw Hpg. pose proof (aligned_8 v Hv) as H8.
  assert (∀ d, d mod 8 = 0 → (v + d) mod 8 = 0) as Hd8 by (intros; by apply aligned_add).
  assert (is_Some (word P v)) as Hw0 by (rewrite <-(Z.add_0_r v); by apply Hw).
  unfold big_header. split; [done| | | |].
  - intros j Hj. destruct (Hpg j Hj) as [l Hl].
    destruct (put_word_frame v BIG_MAGIC _ _ _ _ Hl) as [l1 H1].
    destruct (put_word_frame (v + 8) m _ _ _ _ H1) as [l2 H2]. exact (put_word_frame (v + 16) _ _ _ _ _ H2).
  - rewrite !word_put_ne by solve [done|by apply Hd8|lia]. by apply word_put_eq.
  - rewrite word_put_ne by solve [done|by apply Hd8|lia]. apply word_put_eq; [by apply Hd8|].
    rewrite word_put_ne by solve [done|by apply Hd8|lia]. by apply Hw.
  - apply word_put_eq; [by apply Hd8|]. rewrite !word_put_ne by solve [done|by apply Hd8|lia]. by apply Hw.
Qed.

Lemma big_pages_facts size : 0 < size < 2 ^ 64 - 4119 →
  0 < big_pages size < 2 ^ 52 ∧ size ≤ big_pages size * PAGE_SIZE - sizeof_big_hdr.
Proof.
  intros Hs. unfold big_pages, sizeof_big_hdr, PAGE_SIZE. rewrite u64_small by (unfold is_u64; lia).
  Z.to_euclidean_division_equations. lia.
Qed.

(** The block once its pages are mapped. *)
Lemma wp_big_block s n P H m mm f ls size (Q : Z → slab → Prop) :
  heap_ok s n P H → 0 < m < 2 ^ 27 → 0 < f → size ≤ m * PAGE_SIZE - sizeof_big_hdr → n + m ≤ 2 ^ 27 →
  length ls = Z.to_nat m → kmem mm (n + m) (add_pages P n f ls) ∅ →
  (∀ r s' P' H', allocated P H size r s' (n + m) P' H' → Q r s') →
  wp (store64 (window_page n) BIG_MAGIC ;; store64 (window_page n + 8) m ;;
      store64 (window_page n + 16) (f * PAGE_SIZE) ;; mret (u64 (window_page n + sizeof_big_hdr))) Q (put_mmu mm s).
Proof.
  intros Hok Hm Hf Hsize Hnm Hlen Hk HQ. pose proof (ho_mem _ _ _ _ Hok) as Hk0.
  destruct (km_off _ _ _ _ Hk0) as [_ Hn0]. destruct (window_below n) as [Hv64 Hv0]; [lia|].
  pose proof (window_aligned n ltac:(lia)) as Hal. pose proof (aligned_8 _ Hal) as H8.
  set (v := window_page n) in *. set (P0 := add_pages P n f ls) in *.
  assert (∀ j, 0 ≤ j < m → v + j * PAGE_SIZE = window_page (n + j)) as Hvj by (intros; unfold v, window_page; lia).
  assert (∀ j, 0 ≤ j < m → ∃ l, P0 !! (v + j * PAGE_SIZE) = Some (f + j, l)) as Hpg.
  { intros j Hj. destruct (lookup_lt_is_Some_2 ls (Z.to_nat j)) as [l Hl]; [lia|]. exists l.
    rewrite Hvj by done. pose proof (lookup_add_pages_in P n f ls _ _ Hl) as Hp. by rewrite Z2Nat.id in Hp by lia. }
  assert (∀ u, in_block v m u → P !! u = None) as Hnew.
  { intros u (j & Hj & ->). rewrite Hvj by done. eapply window_fresh; [done|lia]. }
  assert (∀ u, is_Some (P !! u) → P0 !! u = P !! u) as Hold.
  { intros u [x Hu]. apply lookup_add_pages_out. intros j Hj ->. rewrite <-Hvj in Hu by lia.
    rewrite Hnew in Hu; [done|]. exists (Z.of_nat j). split; [lia|done]. }
  destruct (Hpg 0) as [l0 Hl0]; [lia|]. rewrite Z.mul_0_l, !Z.add_0_r in Hl0.
  assert (∀ d, 0 ≤ d < PAGE_SIZE → is_Some (word P0 (v + d))) as Hw.
  { intros d Hd. eapply (km_word (put_mmu mm s) _ _ _ Hk). by rewrite page_base_in. }
  pose proof (Hw 0 ltac:(done)) as Hw0. rewrite Z.add_0_r in Hw0.
  wp_step. apply (wp_store64 (put_mmu mm s) _ _ _ Hk); [done|]. intros m1 Hk1.
  wp_step. apply (wp_store64 (put_mmu m1 s) _ _ _ Hk1); [rewrite word_put_ne by solve [done|by apply aligned_add|lia]; by apply Hw|].
  intros m2 Hk2.
  wp_step. apply (wp_store64 (put_mmu m2 s) _ _ _ Hk2); [rewrite !word_put_ne by solve [done|by apply aligned_add|lia]; by apply Hw|].
  intros m3 Hk3. wp_step. rewrite u64_small by (unfold is_u64, sizeof_big_hdr, PAGE_SIZE in *; lia).
  fold (big_header v m (f * PAGE_SIZE) P0) in Hk3.
  assert (∀ u, is_Some (P !! u) → big_header v m (f * PAGE_SIZE) P0 !! u = P !! u) as Hsame.
  { intros u Hu. rewrite big_header_other; [by apply Hold|done|]. intros ->. rewrite Hnew in Hu; [by destruct Hu|].
    exists 0. lia. }
  eapply (HQ _ _ _ (Heap (h_slabs H) (<[v := (m, f)]> (h_bigs H)) (h_known H))). split; [|done| | |].
  - eapply (heap_add_big s n P H Hok); [done|exact Hk3|done..|]. by apply big_header_block.
  - intros a sz y Hl Hy _. apply word_ext, Hsame. by eapply (live_in_use _ _ _ _ Hok).
  - intros _. split_and!; [|unfold sizeof_big_hdr; lia|].
    + intros z. eapply (live_fresh _ _ _ _ Hok); [done|lia|done|unfold sizeof_big_hdr, PAGE_SIZE; lia].
    + eexists. split; [exact Hsize|]. intros a z. eapply live_add_big; [done..|lia].
  - unfold sizeof_big_hdr. lia.
Qed.

Lemma wp_kmalloc_big s n P H size (Q : Z → slab → Prop) :
  heap_ok s n P H → 0 < size < 2 ^ 64 - 4119 → n + big_pages size ≤ 2 ^ 27 - 1 →
  (∀ r s' n' P' H', n ≤ n' ≤ n + big_pages size → allocated P H size r s' n' P' H' → Q r s') →
  wp (kmalloc_big size) Q s.
Proof.
  intros Hok Hsize Hn HQ. pose proof (ho_mem _ _ _ _ Hok) as Hk. destruct (km_off _ _ _ _ Hk) as [_ Hn0].
  destruct (big_pages_facts size Hsize) as [Hm Hfit]. unfold kmalloc_big. cbn zeta. set (m := big_pages size) in *.
  wp_step. apply wp_zoom. apply (wp_take_frames _ _ _ _ Hk); [lia| |].
  { rewrite Z.eqb_refl. wp_step. replace (put_mmu (sl_mmu s) s) with s by (by destruct s).
    eapply HQ; [|by apply allocated_none]. lia. }
  intros f m1 Hf _ Hk1 _. rewrite union_empty_r_L in Hk1. rewrite (proj2 (Z.eqb_neq _ _)) by (unfold PAGE_SIZE; lia).
  assert (frames f m ∖ frames f m = ∅) as Hdiff by set_solver.
  wp_step. apply wp_zoom. apply (wp_kmap _ _ _ _ Hk1); [done|lia|lia|done| |].
  - intros m2 ls Hlen _ Hk2 _. rewrite Hdiff in Hk2. destruct (window_below n) as [_ Hv0]; [lia|].
    rewrite (proj2 (Z.eqb_neq _ _)) by lia. eapply (wp_big_block s n P H m); try done; [lia|lia|].
    intros r s' P' H' Ha. eapply HQ; [|done]. lia.
  - intros m2 Hk2 _. rewrite Z.eqb_refl. wp_step. apply wp_zoom. apply (wp_give_frames _ _ _ _ Hk2); [done|lia|done|].
    intros m3 Hk3 _. rewrite Hdiff in Hk3. wp_step. eapply HQ; [|apply allocated_none; by apply (heap_ok_mmu s n P H m3)]. lia.
Qed.

(** Pages of the window a request may use up. *)
Definition cost (size : Z) : Z := Z.max 1 (big_pages size).

Lemma wp_kmalloc_any s n P H size (Q : Z → slab → Prop) :
  heap_ok s n P H → h_known H = 6%nat → 0 ≤ size < 2 ^ 64 - 4119 → n + cost size < 2 ^ 27 →
  (∀ r s' n' P' H', n ≤ n' ≤ n + cost size → allocated P H size r s' n' P' H' → Q r s') →
  wp (kmalloc size) Q s.
Proof.
  unfold cost. intros Hok Hkn Hsize Hn HQ. unfold kmalloc. destruct (Z.eqb_spec size 0) as [->|Hne].
  { wp_step. eapply HQ; [|by apply allocated_none]. lia. }
  wp_step. apply (wp_size_to_idx _ _ _ _ Hok Hkn).
  - intros c Hc Hfit. rewrite (proj2 (Z.ltb_ge _ _)) by lia. eapply wp_kmalloc_small; [done..|lia|].
    intros r s' n' P' H' Hn' Ha. eapply HQ; [|done]. lia.
  - intros _. change (-1 <? 0) with true. cbn iota. eapply wp_kmalloc_big; [done|lia|lia|].
    intros r s' n' P' H' Hn' Ha. eapply HQ; [|done]. lia.
Qed.

(** ** kfree *)

(** Freeing ends the life of one object and of no other, and leaves the words
    of the others alone. *)
Record freed (P : kpages) (H : heap) (a : Z) (s' : slab) (n : Z) (P' : kpages) (H' : heap) : Prop := Freed {
  fr_ok : heap_ok s' n P' H';
  fr_known : h_known H' = h_known H;
  fr_words : ∀ x z y, live H x z → x ≠ a → x ≤ y < x + z → y mod 8 = 0 → word P' y = word P y;
  fr_live : ∀ x z, live H' x z ↔ live H x z ∧ x ≠ a }.

Lemma mask_page a : 0 ≤ a < 2 ^ 64 → Z.land a (u64 (Z.lnot 0xFFF)) = page_base a.
Proof.
  intros Ha. unfold page_base, PAGE_SIZE. change 4096 with (2 ^ 12).
  rewrite <-Z.shiftr_div_pow2, <-Z.shiftl_mul_pow2 by done. apply Z.bits_inj'. intros i Hi.
  rewrite Z.land_spec. change (u64 (Z.lnot 0xFFF)) with (Z.shiftl (Z.ones 52) 12).
  destruct (Z.lt_ge_cases i 12) as [Hlt|Hge].
  - rewrite !Z.shiftl_spec_low by lia. by rewrite andb_false_r.
  - rewrite !Z.shiftl_spec, Z.shiftr_spec by lia. rewrite Z.sub_add.
    destruct (Z.lt_ge_cases i 64) as [H64|H64].
    + rewrite Z.ones_spec_low by lia. by rewrite andb_true_r.
    + rewrite (Z.bits_above_log2 a i); [done|lia|].
      destruct (decide (a = 0)) as [->|]; [simpl; lia|]. assert (Z.log2 a < 64) by (apply Z.log2_lt_pow2; lia). lia.
Qed.

Section kfree.
Context (s : slab) (n : Z) (P : kpages) (H : heap) (Hok : heap_ok s n P H).

Lemma page_below v : is_Some (P !! v) → v < 2 ^ 64 - PAGE_SIZE.
Proof.
  intros [x Hx]. destruct (km_dom _ _ _ _ (ho_mem _ _ _ _ Hok) v x Hx) as (j & Hj & ->).
  destruct (km_off _ _ _ _ (ho_mem _ _ _ _ Hok)). apply window_below. lia.
Qed.

Lemma push_freed h c a L s' P' :
  h_slabs H !! h = Some (c, L) → a ∈ slots h c → a ∉ L →
  heap_ok s' n P' (Heap (<[h := (c, a :: L)]> (h_slabs H)) (h_bigs H) (h_known H)) →
  (∀ y, y mod 8 = 0 → y ≠ h + 16 → y ≠ h + 24 → y ≠ a → word P' y = word P y) →
  freed P H a s' n P' (Heap (<[h := (c, a :: L)]> (h_slabs H)) (h_bigs H) (h_known H)).
Proof.
  intros Hh Ha HaL Hok' Hw.
  assert (live H a (osz c)) as Hla by (left; by exists h, c, L).
  destruct (live_place _ _ _ _ Hok a _ Hla) as [Hz _].
  destruct (obj_facts _ _ _ _ Hok _ _ _ Hh) as (Hc & Hal & _).
  split; [done|done| |].
  - intros x z y Hl Hne Hy Hy8. apply Hw; [done|eapply (live_not_header _ _ _ _ Hok); done || lia..|].
    intros ->. destruct (live_disjoint _ _ _ _ Hok _ _ _ _ Hl Hla Hne); lia.
  - intros x z. rewrite (live_set_slab _ _ _ _ Hok _ _ L) by done. rewrite not_elem_of_cons. split.
    + intros [(Hx & [Hxa HxL] & ->)|[Hl Hn]].
      * split; [left; by exists h, c, L|done].
      * split; [done|]. intros ->. destruct Hn as [?|Hn]; [done|].
        destruct (slot_facts h c a Hc Hal Ha) as (_ & _ & _ & ?). done.
    + intros [Hl Hne]. destruct (decide (x ∈ slots h c)) as [Hx|Hx]; [|by auto].
      destruct (slot_facts h c x Hc Hal Hx) as (_ & _ & _ & Hpb).
      destruct Hl as [(v & c' & L' & Hv & Hx' & HxL' & ->)|(b & m & f & Hb & Heq & ->)].
      * destruct (slot_facts v c' x) as (_ & _ & _ & Hpb'); [|by eapply (slab_aligned _ _ _ _ Hok)|done|].
        { apply (sp_class _ _ _ _ (ho_slabs _ _ _ _ Hok v c' L' Hv)). }
        assert (v = h) as -> by congruence. simplify_eq. by left.
      * exfalso. eapply (ho_apart _ _ _ _ Hok h _ b m f); [done..|]. rewrite <-Hpb, Heq.
        apply block_page; [by eapply (big_aligned _ _ _ _ Hok)|].
        pose proof (bb_size _ _ _ _ (ho_bigs _ _ _ _ Hok b m f Hb)). unfold sizeof_big_hdr, PAGE_SIZE. lia.
Qed.

(** A block leaves the heap with its pages. *)
Lemma heap_del_big s' P' b m f :
  h_bigs H !! b = Some (m, f) → kmem (sl_mmu s') n P' ∅ →
  slab_sizes s' = slab_sizes s → slab_caches s' = slab_caches s →
  (∀ u, ¬ in_block b m u → P' !! u = P !! u) →
  freed P H (b + sizeof_big_hdr) s' n P' (Heap (h_slabs H) (delete b (h_bigs H)) (h_known H)).
Proof.
  intros Hb Hk Hsz Hca HP. pose proof Hok as [_ Hs1 Hs2 Hs3 Hs4 Hs5 Hs6 Hs7].
  pose proof (big_aligned _ _ _ _ Hok _ _ _ Hb) as Hal.
  assert (live H (b + sizeof_big_hdr) (m * PAGE_SIZE - sizeof_big_hdr)) as Hlb by (right; by exists b, m, f).
  split; [|done| |].
  - split; simpl; try done; [intros ? ?; rewrite Hsz; by apply Hs1|by rewrite Hca|by rewrite Hca| | | |].
    + intros v c L Hv. eapply slab_page_ext; [by eapply (slab_aligned _ _ _ _ Hok)| |by apply Hs4].
      apply HP. by eapply Hs6.
    + intros v m1 f1 [Hne Hv]%lookup_delete_Some.
      eapply big_block_ext; [by eapply (big_aligned _ _ _ _ Hok)| |by apply Hs5].
      intros j Hj. apply HP. intros Hin. apply Hne. eapply (Hs7 b m f v m1 f1); [done..|]. by exists j.
    + intros v x b1 m1 f1 Hv [_ Hb1]%lookup_delete_Some. by eapply Hs6.
    + intros b1 m1 f1 b2 m2 f2 v [_ Hb1]%lookup_delete_Some [_ Hb2]%lookup_delete_Some. by eapply Hs7.
  - intros x z y Hl Hne Hy _. apply word_ext, HP. intros Hin.
    destruct (live_place _ _ _ _ Hok x z Hl) as [_ [(v & c & L & Hv & -> & Hlo & Hhi & _)|(b1 & m1 & f1 & Hb1 & Ha & Hhi)]].
    + eapply (Hs6 v _ b m f); [done..|]. replace v with (page_base y); [done|].
      replace y with (v + (y - v)) by lia. apply page_base_in; [by eapply (slab_aligned _ _ _ _ Hok)|lia].
    + apply Hne. rewrite <-Ha. unfold sizeof_big_hdr. f_equal. symmetry. eapply (Hs7 b m f b1 m1 f1 (page_base y)); [done..|].
      apply block_page; [by eapply (big_aligned _ _ _ _ Hok)|lia].
  - intros x z. unfold live. simpl. split.
    + intros [(v & c & L & Hv & Hx & HxL & ->)|(v & m1 & f1 & [Hne Hv]%lookup_delete_Some & -> & ->)].
      * split; [left; by exists v, c, L|]. intros ->. eapply (Hs6 v _ b m f); [done..|].
        destruct (slot_facts v c _ (sp_class _ _ _ _ (Hs4 v c L Hv)) (slab_aligned _ _ _ _ Hok _ _ _ Hv) Hx) as (_ & _ & _ & <-).
        apply block_page; [done|]. pose proof (bb_size _ _ _ _ (Hs5 b m f Hb)). unfold sizeof_big_hdr, PAGE_SIZE. lia.
      * split; [right; by exists v, m1, f1|]. lia.
    + intros [[?|(v & m1 & f1 & Hv & -> & ->)] Hne]; [by left|right]. exists v, m1, f1.
      rewrite lookup_delete_ne; [done|]. intros ->. done.
Qed.
End kfree.

(** The pages of a block are unmapped one by one; their frames become spare. *)
Lemma wp_unmap_block s n P H b m f (Q : unit → slab → Prop) :
  heap_ok s n P H → h_bigs H !! b = Some (m, f) →
  (∀ mm P', kmem mm n P' (frames f m) → (∀ u, ¬ in_block b m u → P' !! u = P !! u) → Q tt (put_mmu mm s)) →
  wp (for_up (Z.to_nat m) 0 (λ i, _ ← on_mmu (vmm_unmap_page (u64 (b + i * PAGE_SIZE))); mret tt)) Q s.
Proof.
  intros Hok Hb HQ. destruct (ho_bigs _ _ _ _ Hok b m f Hb) as [[Hm Hf] Hpg _ _ _].
  destruct (big_aligned _ _ _ _ Hok _ _ _ Hb) as [Hb0 _].
  apply (wp_for_up (λ i s', ∃ mm P', s' = put_mmu mm s ∧ kmem mm n P' (frames f i) ∧
    (∀ u, ¬ in_block b i u → P' !! u = P !! u))).
  - exists (sl_mmu s), P. split_and!; [by destruct s| |done].
    replace (frames f 0) with (∅ : gset Z); [apply (ho_mem _ _ _ _ Hok)|].
    apply set_eq. intros g. rewrite elem_of_frames. split; [set_solver|lia].
  - intros i s' Hi (mm & P' & -> & Hk & Hsame). destruct (Hpg i ltac:(lia)) as [l Hl].
    assert (P' !! (b + i * PAGE_SIZE) = Some (f + i, l)) as Hl'.
    { rewrite Hsame; [done|]. intros (j & Hj & Heq). unfold PAGE_SIZE in Heq. lia. }
    pose proof (page_below _ _ _ _ Hok (b + i * PAGE_SIZE) ltac:(eauto)) as Hlt.
    rewrite u64_small by (unfold is_u64, PAGE_SIZE in *; lia).
    wp_step. apply wp_zoom. eapply (wp_kunmap _ _ _ _ Hk); [exact Hl'|]. intros mm' Hk' _. wp_step.
    exists mm', (delete (b + i * PAGE_SIZE) P'). split_and!; [done| |].
    + replace (frames f (i + 1)) with ({[f + i]} ∪ frames f i : gset Z); [done|].
      apply set_eq. intros g. rewrite elem_of_union, elem_of_singleton, !elem_of_frames. lia.
    + intros u Hu. rewrite lookup_delete_ne.
      * apply Hsame. intros (j & Hj & ->). apply Hu. exists j. split; [lia|done].
      * intros <-. apply Hu. exists i. split; [lia|done].
  - intros s' (mm & P' & -> & Hk & Hsame). rewrite Z.add_0_l, Z2Nat.id in * by lia. by eapply HQ.
Qed.

Lemma wp_kfree s n P H a sz (Q : unit → slab → Prop) :
  heap_ok s n P H → live H a sz →
  (∀ s' P' H', freed P H a s' n P' H' → Q tt s') → wp (kfree a) Q s.
Proof.
  intros Hok Hl HQ. pose proof (ho_mem _ _ _ _ Hok) as Hk.
  destruct Hl as [(v & c & L & Hv & Ha & HaL & ->)|(b & m & f & Hb & -> & ->)]; unfold kfree.
  - pose proof (ho_slabs _ _ _ _ Hok v c L Hv) as Hsp. destruct (obj_facts _ _ _ _ Hok _ _ _ Hv) as (Hc & Hal & H8 & Ho & _).
    destruct (slot_facts v c a Hc Hal Ha) as (Hlo & Hhi & _ & Hpb).
    pose proof (page_below _ _ _ _ Hok v (sp_page _ _ _ _ Hsp)) as Hlt. destruct Hal as [Hv0 _].
    rewrite (proj2 (Z.eqb_neq _ _)) by lia. cbn zeta. rewrite mask_page, Hpb by lia.
    destruct (sp_magic _ _ _ _ Hsp) as (w & Hw & Hmagic).
    wp_step. eapply (wp_load32_low _ _ _ _ Hk); [done..|]. rewrite Hmagic. change (SLAB_MAGIC =? BIG_MAGIC) with false.
    cbn iota. eapply wp_push_object; [done..|]. intros s' P' Hok' _ Hws. eapply HQ. by eapply push_freed.
  - destruct (ho_bigs _ _ _ _ Hok b m f Hb) as [[Hm Hf] Hpg Hmagic Hcount Hphys].
    pose proof (big_aligned _ _ _ _ Hok _ _ _ Hb) as Hal. pose proof (aligned_8 _ Hal) as H8.
    assert (b < 2 ^ 64 - PAGE_SIZE) as Hlt.
    { eapply (page_below _ _ _ _ Hok), (block_in_use _ _ _ _ Hok); [done|]. exists 0. lia. }
    rewrite (proj2 (Z.eqb_neq _ _)) by (destruct Hal; unfold sizeof_big_hdr; lia).
    cbn zeta. rewrite mask_page by (destruct Hal; unfold sizeof_big_hdr, PAGE_SIZE in *; lia).
    rewrite page_base_in by done. wp_step. eapply (wp_load32_low _ _ _ _ Hk); [done..|].
    change (u32 BIG_MAGIC =? BIG_MAGIC) with true. cbn iota.
    wp_step. eapply (wp_load64 _ _ _ _ Hk); [done|]. wp_step. eapply (wp_load64 _ _ _ _ Hk); [done|].
    wp_step. eapply wp_unmap_block; [done..|]. intros mm P' Hk' Hsame.
    apply wp_zoom. apply (wp_give_frames _ _ _ _ Hk'); [done|lia|done|]. intros mm' Hk'' _.
    replace (frames f m ∖ frames f m) with (∅ : gset Z) in Hk'' by set_solver.
    eapply HQ. by eapply heap_del_big.
Qed.

(** ** What users of the heap do with their objects *)

Lemma wp_use_write s n P H a sz y w (Q : unit → slab → Prop) :
  heap_ok s n P H → live H a sz → a ≤ y < a + sz → y mod 8 = 0 →
  (∀ s', heap_ok s' n (put_word y w P) H → Q tt s') → wp (store64 y w) Q s.
Proof.
  intros Hok Hl Hy Hy8 HQ. pose proof (ho_mem _ _ _ _ Hok) as Hk.
  destruct (live_in_use _ _ _ _ Hok a sz y Hl Hy) as [x Hx].
  apply (wp_store64 _ _ _ _ Hk); [by eapply (km_word _ _ _ _ Hk)|]. intros mm Hmm. apply HQ.
  assert (∀ v d, is_Some (P !! v) → 0 ≤ d < 32 → d mod 8 = 0 → (v + d) mod 8 = 0) as Hd8.
  { intros v d Hv Hd Hd8. apply aligned_add; [|done]. by eapply aligned_8, (ho_aligned _ _ _ _ Hok). }
  pose proof Hok as [_ Hs1 Hs2 Hs3 Hs4 Hs5 Hs6 Hs7]. split; simpl; try done.
  - intros v c L Hv. pose proof (slab_in_use _ _ _ _ Hok v _ Hv) as Hin.
    pose proof (Hs4 v c L Hv) as [Hc Hp [w0 [Hw0 Hmg]] Hnx Hli Hct Hlk Hsl Hnd].
    assert (∀ d, 0 ≤ d < 32 → d mod 8 = 0 → word (put_word y w P) (v + d) = word P (v + d)) as Hhd.
    { intros d Hd Hdm. apply word_put_ne; [done|by apply Hd8|]. by eapply (live_not_header _ _ _ _ Hok). }
    split; try done.
    + by apply put_word_page.
    + exists w0. rewrite <-(Z.add_0_r v), Hhd, Z.add_0_r by done. done.
    + by rewrite Hhd.
    + by rewrite Hhd.
    + by rewrite Hhd.
    + intros i o Hio. assert (o ∈ slots v c) as Ho by (apply Hsl; by eapply list_elem_of_lookup_2).
      assert (o ∈ L) as HoL by (by eapply list_elem_of_lookup_2).
      destruct (slot_facts v c o Hc (slab_aligned _ _ _ _ Hok _ _ _ Hv) Ho) as (_ & _ & Ho8 & Hob).
      rewrite word_put_ne; [by apply Hlk|done..|]. intros ->. by eapply (live_not_free s n P H Hok).
  - intros b m f Hb. pose proof (Hs5 b m f Hb) as [Hm Hpg Hmg Hct Hph].
    assert (is_Some (P !! b)) as Hin by (eapply (block_in_use _ _ _ _ Hok); [done|]; exists 0; lia).
    assert (∀ d, 0 ≤ d < 24 → d mod 8 = 0 → word (put_word y w P) (b + d) = word P (b + d)) as Hhd.
    { intros d Hd Hdm. apply word_put_ne; [done|apply Hd8; [done|lia|done]|]. by eapply (live_not_big_header s n P H Hok). }
    split; [done| | | |].
    + intros j Hj. destruct (Hpg j Hj) as [l Hlj]. by eapply put_word_frame.
    + by rewrite <-(Z.add_0_r b), Hhd, Z.add_0_r.
    + by rewrite Hhd.
    + by rewrite Hhd.
Qed.

(** ** slab_init *)

Lemma heap_ok_next s n P H :
  heap_ok s n P H → (h_known H < 6)%nat →
  heap_ok (set_cache (h_known H) 0 (set_size (h_known H) (osz (h_known H)) s)) n P
    (Heap (h_slabs H) (h_bigs H) (S (h_known H))).
Proof.
  intros [Hs0 Hs1 Hs2 Hs3 Hs4 Hs5 Hs6 Hs7] Hk. split; simpl; try done; [|by rewrite length_insert|].
  - intros c Hc. destruct (Hs1 c Hc) as (x & Hx & Heq). destruct (decide (c = h_known H)) as [->|Hne].
    + exists (osz (h_known H)). split; [|done]. apply list_lookup_insert_eq. by eapply lookup_lt_Some.
    + exists x. rewrite list_lookup_insert_ne by done. split; [done|]. intros Hlt. apply Heq. lia.
  - intros c h. destruct (decide (c = h_known H)) as [->|Hne].
    + intros [(_ & <- & _)|[? _]]%list_lookup_insert_Some; [by left|done].
    + rewrite list_lookup_insert_ne by done. apply Hs3.
Qed.

(** The heap before its first page. *)
Definition no_heap : heap := Heap ∅ ∅ 0.

Record boots (s : slab) : Prop := Boots {
  bo_mem : kmem (sl_mmu s) 0 ∅ ∅;
  bo_caches : length (slab_caches s) = 6%nat;
  bo_sizes : length (slab_sizes s) = 6%nat;
  bo_zero : ∀ c h, slab_caches s !! c = Some h → h = 0 }.

Lemma boots_heap s : boots s → heap_ok s 0 ∅ no_heap.
Proof.
  intros [Hk Hc Hs Hz]. split; simpl; try done.
  - intros c Hlt. destruct (lookup_lt_is_Some_2 (slab_sizes s) c) as [x Hx]; [lia|]. exists x. split; [done|lia].
  - intros c h Hh. left. by eapply Hz.
Qed.

Lemma wp_slab_init s (Q : unit → slab → Prop) :
  boots s →
  (∀ s' n P H, heap_ok s' n P H → h_known H = 6%nat → 0 ≤ n ≤ 6 → (∀ a z, ¬ live H a z) → Q tt s') →
  wp slab_init Q s.
Proof.
  intros Hb HQ. apply (wp_for_up (λ i s', ∃ n P H, heap_ok s' n P H ∧ Z.of_nat (h_known H) = i ∧ 0 ≤ n ≤ i ∧
    ∀ a z, ¬ live H a z)).
  - exists 0, ∅, no_heap. split_and!; [by apply boots_heap|done..|]. intros a z [(v & c & L & Hv & _)|(v & m & f & Hv & _)]; done.
  - intros i s' Hi (n & P & H & Hok & <- & Hn & Hl). change (Z.to_nat SLAB_NUM) with 6%nat in Hi.
    rewrite Nat2Z.id. replace (Z.shiftl 1 (SLAB_MIN_SHIFT + Z.of_nat (h_known H))) with (osz (h_known H)).
    2:{ rewrite Z.shiftl_mul_pow2, Z.mul_1_l by (unfold SLAB_MIN_SHIFT; lia). done. }
    wp_step. wp_step. wp_step. wp_step. apply heap_ok_next in Hok as Hok1; [|lia].
    eapply (wp_slab_grow _ _ _ _ Hok1 (h_known H)); [lia|cbn [h_known]; lia|lia|..].
    + intros s1 Hok2 _. exists n, P, (Heap (h_slabs H) (h_bigs H) (S (h_known H))). split_and!; [done|simpl; lia|lia|lia|done].
    + intros s1 P1 L Hok2 _ HL _ _. eexists (n + 1), P1, _. split_and!; [done|simpl; lia|lia|lia|].
      intros a z Ha. eapply (Hl a z). eapply (live_add_slab _ _ _ _ Hok1) in Ha; [done| |done].
      eapply window_fresh; [apply (ho_mem _ _ _ _ Hok1)|lia].
  - intros s' (n & P & H & Hok & Hkn & Hn & Hl).
    change (0 + Z.of_nat (Z.to_nat SLAB_NUM)) with 6 in *. eapply HQ; [done|lia|done|done].
Qed.

(** ** The contract of the heap *)

(** What the code that uses the heap does with it; accesses are 64-bit words. *)
Inductive request := Kmalloc (size : Z) | Kfree (ptr : Z) | Write (y w : Z) | Read (y : Z).

Definition serve (q : request) : M slab Z :=
  match q with
  | Kmalloc size => kmalloc size
  | Kfree ptr => kfree ptr ;; mret 0
  | Write y w => store64 y w ;; mret 0
  | Read y => load64 y
  end.

(** The abstract heap: the objects in use with the sizes asked for, and the
    words written to them. *)
Record aheap := AHeap { a_objs : gmap Z Z; a_words : gmap Z Z }.

Definition inside (A : aheap) (y : Z) : Prop := ∃ a sz, a_objs A !! a = Some sz ∧ a ≤ y ∧ y + 8 ≤ a + sz.

(** The rules of the users: sizes do not wrap, only objects in use are freed and accessed. *)
Definition legal (A : aheap) (q : request) : Prop :=
  match q with
  | Kmalloc size => 0 ≤ size < 2 ^ 64 - 4119
  | Kfree ptr => ptr = 0 ∨ is_Some (a_objs A !! ptr)
  | Write y _ | Read y => y mod 8 = 0 ∧ inside A y
  end.

(** What the heap promises: a new object overlaps no object in use, and a word
    reads as it was last written. *)
Definition promised (A : aheap) (q : request) (r : Z) : Prop :=
  match q with
  | Kmalloc size => r = 0 ∨ (0 < r ∧ a_objs A !! r = None ∧ ∀ a sz, a_objs A !! a = Some sz → a + sz ≤ r ∨ r + size ≤ a)
  | Kfree _ | Write _ _ => r = 0
  | Read y => ∀ w, a_words A !! y = Some w → r = w
  end.

(** The abstract heap after the request was answered with [r]. *)
Definition after (q : request) (r : Z) (A : aheap) : aheap :=
  match q with
  | Kmalloc size =>
    if r =? 0 then A
    else AHeap (<[r := size]> (a_objs A)) (filter (λ '(y, _), ¬ (r ≤ y < r + size)) (a_words A))
  | Kfree ptr => AHeap (delete ptr (a_objs A)) (a_words A)
  | Write y w => AHeap (a_objs A) (<[y := w]> (a_words A))
  | Read _ => A
  end.

Definition pages_of (q : request) : Z := match q with Kmalloc size => cost size | _ => 0 end.

(** A history of legal requests, with a bound on the window pages used. *)
Inductive history (s0 : slab) : Z → slab → aheap → Prop :=
| history_start : history s0 6 s0 (AHeap ∅ ∅)
| history_step used s A q r s' :
    history s0 used s A → legal A q → used + pages_of q < 2 ^ 27 → serve q s = Ok (r, s') →
    history s0 (used + pages_of q) s' (after q r A).

(** How the memory represents the abstract heap. *)
Record represents (s : slab) (n : Z) (P : kpages) (H : heap) (A : aheap) : Prop := Represents {
  rp_heap : heap_ok s n P H;
  rp_known : h_known H = 6%nat;
  rp_objs : ∀ a sz, a_objs A !! a = Some sz → ∃ z, sz ≤ z ∧ live H a z;
  rp_words : ∀ y w, y mod 8 = 0 → inside A y → a_words A !! y = Some w → word P y = Some w }.

(** The answer to a request, and what the heap is afterwards. *)
Definition answers (A : aheap) (q : request) (used : Z) (r : Z) (s' : slab) : Prop :=
  promised A q r ∧ ∃ n P H, n ≤ used + pages_of q ∧ represents s' n P H (after q r A).

Section contract.
Context (s : slab) (n used : Z) (P : kpages) (H : heap) (A : aheap) (Hr : represents s n P H A) (Hn : n ≤ used).

Lemma inside_live y : inside A y → ∃ a sz z, a_objs A !! a = Some sz ∧ live H a z ∧ a ≤ y < a + z.
Proof.
  intros (a & sz & Ha & Hlo & Hhi). destruct (rp_objs _ _ _ _ _ Hr a sz Ha) as (z & Hz & Hl).
  exists a, sz, z. split_and!; [done|done|lia|lia].
Qed.

Lemma answer_kmalloc size :
  legal A (Kmalloc size) → used + cost size < 2 ^ 27 → wp (kmalloc size) (answers A (Kmalloc size) used) s.
Proof.
  intros Hsize Hu. destruct Hr as [Hok Hkn Hobj Hwd]. eapply wp_kmalloc_any; [done..|lia|].
  intros r s' n' P' H' Hn' [Hok' Hkn' Hw' Hnew Hnone]. unfold answers. cbn [promised after pages_of].
  destruct (Z.eqb_spec r 0) as [->|Hne]; (split; [|exists n', P', H'; split; [lia|]]).
  - by left.
  - split; [done|congruence| |].
    + intros a sz Ha. destruct (Hobj a sz Ha) as (z & Hz & Hl). exists z. split; [done|]. by apply Hnone.
    + intros y w Hy Hin Hyw. rewrite <-(Hwd y w) by done. destruct (inside_live y Hin) as (a & sz & z & _ & Hl & Hyr).
      by eapply Hw'.
  - destruct (Hnew Hne) as (Hfr & Hr0 & z0 & Hz0 & Hiff). right. split_and!; [done| |].
    + apply eq_None_not_Some. intros [sz Hs]. destruct (Hobj _ _ Hs) as (z & _ & Hl). by eapply Hfr.
    + intros a sz Ha. destruct (Hobj a sz Ha) as (z & Hz & Hl).
      assert (live H' a z ∧ live H' r z0) as [Hl1 Hl2] by (split; apply Hiff; auto).
      destruct (live_disjoint _ _ _ _ Hok' _ _ _ _ Hl1 Hl2); [intros ->; by eapply Hfr|lia..].
  - destruct (Hnew Hne) as (Hfr & Hr0 & z0 & Hz0 & Hiff). split; [done|congruence| |].
    + intros a sz. simpl. rewrite lookup_insert_Some. intros [[<- <-]|[_ Ha]].
      * exists z0. split; [done|]. apply Hiff. by right.
      * destruct (Hobj a sz Ha) as (z & Hz & Hl). exists z. split; [done|]. apply Hiff. by left.
    + intros y w Hy (a & sz & Ha & Hlo & Hhi) [Hyw Hout]%map_lookup_filter_Some. simpl in *.
      apply lookup_insert_Some in Ha as [[<- <-]|[_ Ha]]; [lia|].
      assert (inside A y) as Hin by (by exists a, sz). rewrite <-(Hwd y w) by done.
      destruct (inside_live y Hin) as (a' & sz' & z & _ & Hl & Hyr). by eapply Hw'.
Qed.

Lemma answer_kfree ptr :
  legal A (Kfree ptr) → wp (kfree ptr ;; mret 0) (answers A (Kfree ptr) used) s.
Proof.
  intros [->|[sz Hsz]].
  - wp_step. unfold kfree. rewrite Z.eqb_refl. wp_step. wp_step. split; [done|]. exists n, P, H. cbn [pages_of]. split; [lia|].
    destruct Hr as [Hok Hkn Hobj Hwd]. split; [done..| |].
    + intros a sz. simpl. rewrite lookup_delete_Some. intros [_ Ha]. by apply Hobj.
    + intros y w Hy (a & sz & Ha & Hyr) Hyw. simpl in *. apply lookup_delete_Some in Ha as [_ Ha].
      apply Hwd; [done| |done]. by exists a, sz.
  - destruct (rp_objs _ _ _ _ _ Hr ptr sz Hsz) as (z & Hz & Hl). destruct Hr as [Hok Hkn Hobj Hwd].
    wp_step. eapply wp_kfree; [done..|]. intros s' P' H' [Hok' Hkn' Hw' Hlv]. wp_step. split; [done|].
    exists n, P', H'. cbn [pages_of]. split; [lia|]. split; [done|congruence| |].
    + intros a sz'. simpl. rewrite lookup_delete_Some. intros [Hne Ha]. destruct (Hobj a sz' Ha) as (z' & Hz' & Hl').
      exists z'. split; [done|]. by apply Hlv.
    + intros y w Hy (a & sz' & Ha & Hyr) Hyw. simpl in *. apply lookup_delete_Some in Ha as [Hne Ha].
      destruct (Hobj a sz' Ha) as (z' & Hz' & Hl'). rewrite <-(Hwd y w); [|done|by exists a, sz'|done].
      eapply (Hw' a z'); [done|done|lia|done].
Qed.

Lemma answer_write y w :
  legal A (Write y w) → wp (store64 y w ;; mret 0) (answers A (Write y w) used) s.
Proof.
  intros [Hy Hin]. destruct (inside_live y Hin) as (a & sz & z & _ & Hl & Hyr).
  destruct Hr as [Hok Hkn Hobj Hwd]. wp_step. eapply wp_use_write; [done..|]. intros s' Hok'. wp_step. split; [done|].
  exists n, (put_word y w P), H. cbn [pages_of]. split; [lia|]. split; [done..|].
  intros y' w' Hy' Hin' Hyw. simpl in *. destruct (live_in_use _ _ _ _ Hok a z y Hl Hyr) as [x Hx].
  apply lookup_insert_Some in Hyw as [[<- <-]|[Hne Hyw]].
  - apply word_put_eq; [done|]. by eapply (km_word _ _ _ _ (ho_mem _ _ _ _ Hok)).
  - rewrite word_put_ne by done. by apply Hwd.
Qed.

Lemma answer_read y : legal A (Read y) → wp (load64 y) (answers A (Read y) used) s.
Proof.
  intros [Hy Hin]. destruct (inside_live y Hin) as (a & sz & z & _ & Hl & Hyr).
  destruct Hr as [Hok Hkn Hobj Hwd]. destruct (live_in_use _ _ _ _ Hok a z y Hl Hyr) as [x Hx].
  destruct (km_word _ _ _ _ (ho_mem _ _ _ _ Hok) _ _ Hx) as [w Hw].
  eapply (wp_load64 _ _ _ _ (ho_mem _ _ _ _ Hok)); [done|]. split.
  - intros w' Hw'. apply (Hwd y w') in Hw'; [|done..]. congruence.
  - exists n, P, H. cbn [pages_of]. split; [lia|]. done.
Qed.

Lemma answer q : legal A q → used + pages_of q < 2 ^ 27 → wp (serve q) (answers A q used) s.
Proof.
  destruct q; simpl; intros Hl Hu;
    [by apply answer_kmalloc|by apply answer_kfree|by apply answer_write|by apply answer_read].
Qed.
End contract.

Lemma history_represents s0 n0 P0 H0 used s A :
  represents s0 n0 P0 H0 (AHeap ∅ ∅) → n0 ≤ 6 → history s0 used s A → ∃ n P H, n ≤ used ∧ represents s n P H A.
Proof.
  intros Hr0 Hn0 Hist. induction Hist as [|used s A q r s' Hh (n & P & H & Hn & Hr) Hl Hu Hq]; [eauto|].
  pose proof (answer s n used P H A Hr Hn q Hl Hu) as (r' & s'' & Hq' & Ha)%wp_ok.
  rewrite Hq in Hq'. simplify_eq. by destruct Ha.
Qed.

(** C2: [slab_init] returns on a machine whose window is unused, and from then
    on the heap keeps its contract: after any history of [kmalloc], [kfree] and
    word accesses in which users free and access only objects they hold (and
    fewer than 2^27 window pages are used up), the next such request returns
    without a fault; a new object is large enough and overlaps no object in
    use, and a word of an object reads as it was last written, whatever was
    allocated, freed and written elsewhere in between. *)
Theorem heap_contract s :
  boots s →
  ∃ s0, slab_init s = Ok (tt, s0) ∧
    ∀ used s' A q, history s0 used s' A → legal A q → used + pages_of q < 2 ^ 27 →
      ∃ r s'', serve q s' = Ok (r, s'') ∧ promised A q r.
Proof.
  intros Hb. assert (wp slab_init (λ _ s0, ∃ n P H, n ≤ 6 ∧ represents s0 n P H (AHeap ∅ ∅)) s) as Hinit.
  { apply wp_slab_init; [done|]. intros s0 n P H Hok Hkn Hn Hl. exists n, P, H. split; [lia|].
    split; [done..|]. intros y w _ _ Hy. done. }
  apply wp_ok in Hinit as ([] & s0 & Hi & n & P & H & Hn & Hr).
  exists s0. split; [done|]. intros used s' A q Hh Hl Hu.
  destruct (history_represents s0 n P H used s' A Hr Hn Hh) as (n' & P' & H' & Hn' & Hr').
  pose proof (answer s' n' used P' H' A Hr' Hn' q Hl Hu) as (r & s'' & Hq & Hp & _)%wp_ok. eauto.
Qed.

(** *** A machine *)

Definition demo_slab : slab := Slab demo_mmu (replicate 6 0) (replicate 6 0).

Lemma demo_unmapped j : 0 ≤ j < 2 ^ 27 → translate demo_mmu (kernel_root demo_mmu) (window_page j) = None.
Proof.
  intros Hj. destruct (window_private j Hj) as [_ Hth]. destruct (vpath_is_vpath (window_page j)) as [Hlen _].
  unfold translate. destruct (vpath (window_page j)) as [|i [|k p]]; [done|done|]. simpl in Hth.
  assert (i = 508%nat) as -> by naive_solver. destruct p as [|k' p]; [done|]. 
  cbn [xlate]. change (entry (mm_mem demo_mmu) (kernel_root demo_mmu) 508) with (Some (2 * PAGE_SIZE + 3)).
  change (negb (flag (2 * PAGE_SIZE + 3) X86_PTE_PRESENT)) with false. change (flag (2 * PAGE_SIZE + 3) X86_PTE_HUGE) with false.
  cbn iota. change (addr_of (2 * PAGE_SIZE + 3)) with (2 * PAGE_SIZE).
  destruct (entry (mm_mem demo_mmu) (2 * PAGE_SIZE) k) as [e|] eqn:He; [|done].
  change (demo_table !! k = Some e) in He. apply lookup_replicate in He as [-> _]. done.
Qed.

Lemma demo_boots : boots demo_slab.
Proof.
  split; [|done|done|intros c h; by intros [-> _]%(lookup_replicate 6)].
  split; simpl.
  - apply demo_aspace. by left.
  - done.
  - left. intros j Hj. by apply demo_unmapped.
  - intros q [Hlen _] Hth. destruct q as [|i [|k [|k' q]]]; [done..|]. simpl in Hth. subst i.
    cbn [upper]. change (entry demo_mem _ 508) with (Some (2 * PAGE_SIZE + 3)).
    change (negb (flag (2 * PAGE_SIZE + 3) X86_PTE_PRESENT)) with false.
    change (flag (2 * PAGE_SIZE + 3) X86_PTE_HUGE) with false. cbn iota.
    change (addr_of (2 * PAGE_SIZE + 3)) with (2 * PAGE_SIZE).
    destruct (entry demo_mem (2 * PAGE_SIZE) k) as [e|] eqn:He; [|done].
    change (demo_table !! k = Some e) in He. by apply lookup_replicate in He as [-> _].
  - intros q a π i e _ Hth Hd He. apply (demo_down (1 * PAGE_SIZE)) in Hd as [[-> ->]|[-> ->]]; [| |by left].
    + destruct (demo_entry (1 * PAGE_SIZE) i e (or_introl eq_refl) He) as [[_ ->]| ->]; done.
    + change (demo_table !! i = Some e) in He. by apply lookup_replicate in He as [-> _].
  - done.
  - done.
  - done.
  - intros f Hf. by apply not_elem_of_empty in Hf.
Qed.

Lemma heap_contract_witness :
  ∃ s0, slab_init demo_slab = Ok (tt, s0) ∧
    ∀ used s' A q, history s0 used s' A → legal A q → used + pages_of q < 2 ^ 27 →
      ∃ r s'', serve q s' = Ok (r, s'') ∧ promised A q r.
Proof. exact (heap_contract demo_slab demo_boots). Defined.

(** The size of a large request is rounded up in 64 bits: the largest request
    wraps around and gets one page. *)
Example big_pages_wraps : big_pages (2 ^ 64 - 1) = 1.
Proof. reflexivity. Qed.
