(* ===== verification/NetUtil.v ===== *)
(** * NetUtil: byte order, Internet checksum and addresses (kernel/net_util.h)

    Packet memory is a list of bytes ([Z] in [0, 256)); a 16- or 32-bit field
    is read and written the way an x86 load or store does, little-endian, so
    [htobe16] and [be16toh] appear where the source has them.  The checksum
    functions are translated with their 32-bit accumulator. *)

From S2P Require Import Prelude.

(** ** Little-endian memory access *)

Definition get8 (l : list Z) (i : nat) : Z := nth i l 0.
Definition get16 (l : list Z) (i : nat) : Z := Z.lor (get8 l i) (Z.shiftl (get8 l (i + 1)) 8).
Definition get32 (l : list Z) (i : nat) : Z := Z.lor (get16 l i) (Z.shiftl (get16 l (i + 2)) 16).

Definition put16 (v : Z) : list Z := [u8 v; u8 (Z.shiftr v 8)].
Definition put32 (v : Z) : list Z := put16 v ++ put16 (Z.shiftr v 16).

(** ** Byte order *)

Definition htobe16 (v : Z) : Z := u16 (Z.lor (Z.shiftr v 8) (Z.shiftl v 8)).

Definition htobe32 (v : Z) : Z :=
  Z.lor (Z.lor (Z.land (Z.shiftr v 24) 0xFF) (Z.land (Z.shiftr v 8) 0xFF00))
        (Z.lor (Z.land (u32 (Z.shiftl v 8)) 0xFF0000) (Z.land (u32 (Z.shiftl v 24)) 0xFF000000)).

Definition be16toh (v : Z) : Z := htobe16 v.
Definition be32toh (v : Z) : Z := htobe32 v.

(** ** Checksum *)

(** [while (sum >> 16) sum = (sum & 0xFFFF) + (sum >> 16);] with [fuel]
    iterations. *)
Fixpoint fold_carries (fuel : nat) (sum : Z) : Z :=
  match fuel with
  | O => sum
  | S fuel' =>
    if Z.shiftr sum 16 =? 0 then sum
    else fold_carries fuel' (u32 (Z.land sum 0xFFFF + Z.shiftr sum 16))
  end.

(** A 32-bit sum loses its carries in two rounds ([fold_carries_done] below). *)
Definition FOLD_FUEL : nat := 2.

(** [while (len > 1) { sum += *p++; len -= 2; }], then the odd byte. *)
Fixpoint sum_words (l : list Z) (sum : Z) : Z :=
  match l with
  | b0 :: b1 :: l' => sum_words l' (u32 (sum + Z.lor b0 (Z.shiftl b1 8)))
  | [b0] => u32 (sum + b0)
  | [] => sum
  end.

Definition inet_csum (data : list Z) : Z :=
  u16 (Z.lnot (fold_carries FOLD_FUEL (sum_words data 0))).

Fixpoint csum_acc (sum : Z) (data : list Z) : Z :=
  match data with
  | b0 :: b1 :: data' =>
    let s := u32 (sum + u16 (Z.lor b0 (Z.shiftl b1 8))) in
    csum_acc (if 0xFFFF <? s then u32 (Z.land s 0xFFFF + Z.shiftr s 16) else s) data'
  | [b0] => u32 (sum + b0)
  | [] => sum
  end.

Definition csum_fold (sum : Z) : Z := u16 (fold_carries FOLD_FUEL sum).
Definition csum_finish (sum : Z) : Z := u16 (Z.lnot (csum_fold sum)).

(** ** MAC and IPv4 addresses *)

Definition ETH_ALEN : nat := 6.

(** [for (i < 6) if (a[i] != b[i]) return 0; return 1;] *)
Definition mac_eq (a b : list Z) : bool :=
  forallb (λ i, get8 a i =? get8 b i) (seq 0 ETH_ALEN).
Definition mac_is_broadcast (m : list Z) : bool :=
  forallb (λ i, get8 m i =? 0xFF) (seq 0 ETH_ALEN).
Definition mac_copy (src : list Z) : list Z := map (get8 src) (seq 0 ETH_ALEN).
Definition ETH_BROADCAST : list Z := [0xFF; 0xFF; 0xFF; 0xFF; 0xFF; 0xFF].

(** [ip4_addr_t]: first octet in the low byte. *)
Definition ip4_make (a b c d : Z) : Z :=
  Z.lor (Z.lor a (Z.shiftl b 8)) (Z.lor (Z.shiftl c 16) (Z.shiftl d 24)).
Definition ip4_is_broadcast (addr : Z) : bool := addr =? 0xFFFFFFFF.
Definition ip4_is_multicast (addr : Z) : bool := Z.land addr 0xF0 =? 0xE0.
Definition ip4_octet (addr i : Z) : Z := u8 (Z.shiftr addr (i * 8)).

(** ** Facts: words *)

Lemma word_add b0 b1 : is_u8 b0 → Z.lor b0 (Z.shiftl b1 8) = b0 + b1 * 256.
Proof. intros H. by apply lor_low_high. Qed.

Lemma word_range b0 b1 : is_u8 b0 → is_u8 b1 → is_u16 (Z.lor b0 (Z.shiftl b1 8)).
Proof. unfold is_u8, is_u16. intros H0 H1. rewrite word_add by done. lia. Qed.

Lemma htobe16_bytes v : is_u16 v → htobe16 v = (v mod 256) * 256 + v / 256.
Proof.
  unfold is_u16. intros Hv. unfold htobe16, u16.
  pose proof (Z.div_mod v 256). pose proof (Z.mod_pos_bound v 256).
  rewrite Z.shiftr_div_pow2 by lia. change (2 ^ 8) with 256.
  assert (0 ≤ v / 256 < 2 ^ 8) by lia.
  rewrite (lor_low_high (v / 256) v 8) by lia.
  replace (v / 256 + v * 2 ^ 8) with ((v mod 256) * 256 + v / 256 + (v / 256) * 2 ^ 16) by lia.
  rewrite Z_mod_plus_full. apply Z.mod_small. lia.
Qed.

(** Sending a 16-bit field: the big-endian conversion followed by the
    little-endian store writes the high byte first. *)
Lemma put16_htobe16 v : is_u16 v → put16 (htobe16 v) = [v / 256; v mod 256].
Proof.
  intros Hv. unfold put16. rewrite htobe16_bytes by done. unfold is_u16 in Hv.
  pose proof (Z.div_mod v 256). pose proof (Z.mod_pos_bound v 256).
  unfold u8. rewrite Z.shiftr_div_pow2 by lia. change (2 ^ 8) with 256.
  rewrite Z.add_comm, Z_mod_plus_full, Z_div_plus_full by lia.
  rewrite (Z.div_small (v / 256)), Z.add_0_l by lia.
  by rewrite Z.mod_mod, (Z.mod_small (v / 256)) by lia.
Qed.

Lemma get16_app v l : is_u16 v → get16 (put16 v ++ l) 0 = v.
Proof.
  unfold is_u16. intros Hv. unfold get16, put16, get8. cbn [app nth Nat.add].
  rewrite word_add by apply u8_range. unfold u8. rewrite Z.shiftr_div_pow2 by lia.
  change (2 ^ 8) with 256. pose proof (Z.div_mod v 256). pose proof (Z.mod_pos_bound v 256).
  assert (0 ≤ v / 256 < 256) by lia. rewrite (Z.mod_small (v / 256) 256) by lia. lia.
Qed.

(** ** Facts: the checksum *)

(** The ones' complement sum of the 16-bit words of a buffer (RFC 1071), the
    odd byte padded with zero, as an unbounded integer. *)
Fixpoint word_sum (l : list Z) : Z :=
  match l with
  | b0 :: b1 :: l' => b0 + b1 * 256 + word_sum l'
  | [b0] => b0
  | [] => 0
  end.

(** The end-around-carry normal form of a sum: its residue modulo [2^16 - 1],
    where a non-zero multiple is represented by [0xFFFF]. *)
Definition ones_norm (x : Z) : Z := if x =? 0 then 0 else (x - 1) mod 65535 + 1.

(** Two-element induction on buffers. *)
Lemma pair_ind (P : list Z → Prop) :
  P [] → (∀ b, P [b]) → (∀ b0 b1 l, P l → P (b0 :: b1 :: l)) → ∀ l, P l.
Proof.
  intros H0 H1 H2. enough (∀ n l, (length l ≤ n)%nat → P l) as Hall by (intros l; by eapply Hall).
  induction n as [|n IH]; intros [|b0 [|b1 l]] Hlen; simpl in *; try done; try lia.
  apply H2, IH. lia.
Qed.

Lemma ones_norm_range x : 0 ≤ x → 0 ≤ ones_norm x ≤ 0xFFFF.
Proof.
  intros Hx. unfold ones_norm. destruct (Z.eqb_spec x 0); [lia|].
  pose proof (Z.mod_pos_bound (x - 1) 65535). lia.
Qed.

Lemma ones_norm_small x : 0 ≤ x ≤ 0xFFFF → ones_norm x = x.
Proof.
  intros Hx. unfold ones_norm. destruct (Z.eqb_spec x 0); [lia|].
  rewrite Z.mod_small by lia. lia.
Qed.

(** One round of [(sum & 0xFFFF) + (sum >> 16)] keeps the normal form. *)
Lemma ones_norm_round x : 0 ≤ x → ones_norm (x mod 65536 + x / 65536) = ones_norm x.
Proof.
  intros Hx. pose proof (Z.div_mod x 65536). pose proof (Z.mod_pos_bound x 65536).
  assert (0 ≤ x / 65536) by (apply Z.div_pos; lia).
  unfold ones_norm. destruct (Z.eqb_spec x 0) as [->|Hne]; [done|].
  destruct (Z.eqb_spec (x mod 65536 + x / 65536) 0); [lia|].
  replace (x - 1) with (x mod 65536 + x / 65536 - 1 + x / 65536 * 65535) by lia.
  by rewrite Z_mod_plus_full.
Qed.

(** The normal form only depends on normal forms of the parts. *)
Lemma ones_norm_add x y : 0 ≤ x → 0 ≤ y → ones_norm (ones_norm x + y) = ones_norm (x + y).
Proof.
  intros Hx Hy. unfold ones_norm at 2. destruct (Z.eqb_spec x 0) as [->|Hne]; [done|].
  pose proof (Z.mod_pos_bound (x - 1) 65535). unfold ones_norm.
  destruct (Z.eqb_spec ((x - 1) mod 65535 + 1 + y) 0); [lia|].
  destruct (Z.eqb_spec (x + y) 0); [lia|]. f_equal.
  replace ((x - 1) mod 65535 + 1 + y - 1) with ((x - 1) mod 65535 + y) by lia.
  rewrite Zplus_mod_idemp_l. f_equal. lia.
Qed.

Lemma ones_norm_congr x y z :
  0 ≤ x → 0 ≤ y → 0 ≤ z → ones_norm x = ones_norm y → ones_norm (x + z) = ones_norm (y + z).
Proof. intros Hx Hy Hz Heq. by rewrite <-(ones_norm_add x), Heq, ones_norm_add. Qed.

Lemma fold_round s :
  is_u32 s → u32 (Z.land s 0xFFFF + Z.shiftr s 16) = s mod 65536 + s / 65536.
Proof.
  unfold is_u32. intros Hs. change 0xFFFF with (2 ^ 16 - 1).
  rewrite land_ones_mod, Z.shiftr_div_pow2 by lia.
  change (2 ^ 16) with 65536. apply Z.mod_small.
  pose proof (Z.mod_pos_bound s 65536). assert (0 ≤ s / 65536 < 65536); [|lia].
  split; [apply Z.div_pos; lia|apply Z.div_lt_upper_bound; lia].
Qed.

(** Two rounds always suffice: the loop of [csum_fold] and [inet_csum] has
    ended, with the normal form of the sum. *)
Lemma fold_carries_done s : is_u32 s → fold_carries FOLD_FUEL s = ones_norm s.
Proof.
  intros Hs. unfold FOLD_FUEL. cbn [fold_carries]. rewrite (fold_round s) by done.
  unfold is_u32 in Hs. set (t := s mod 65536 + s / 65536).
  pose proof (Z.div_mod s 65536). pose proof (Z.mod_pos_bound s 65536).
  assert (0 ≤ s / 65536 < 65536) by (split; [apply Z.div_pos; lia|apply Z.div_lt_upper_bound; lia]).
  rewrite (fold_round t) by (unfold is_u32; lia).
  rewrite !Z.shiftr_div_pow2 by lia. change (2 ^ 16) with 65536.
  destruct (Z.eqb_spec (s / 65536) 0); [symmetry; apply ones_norm_small; lia|].
  assert (ones_norm t = ones_norm s) as <- by (apply ones_norm_round; lia).
  pose proof (Z.div_mod t 65536). pose proof (Z.mod_pos_bound t 65536).
  destruct (Z.eqb_spec (t / 65536) 0); [symmetry; apply ones_norm_small; lia|].
  rewrite <-(ones_norm_round t) by lia. symmetry. apply ones_norm_small.
  assert (t / 65536 = 1); [|lia]. subst t. lia.
Qed.

Lemma word_sum_nonneg l : Forall is_u8 l → 0 ≤ word_sum l.
Proof.
  induction l as [|b|b0 b1 l IH] using pair_ind; intros Hl; simpl; [lia| |].
  - inversion Hl as [|? ? Hb _]; subst. unfold is_u8 in Hb. lia.
  - inversion Hl as [|? ? Hb0 Hl']; subst. inversion Hl' as [|? ? Hb1 Hl'']; subst.
    specialize (IH Hl''). unfold is_u8 in *. lia.
Qed.

Lemma word_sum_bound l : Forall is_u8 l → 2 * word_sum l ≤ 65535 * (Z.of_nat (length l) + 1).
Proof.
  induction l as [|b|b0 b1 l IH] using pair_ind; intros Hl; cbn [word_sum length]; [lia| |].
  - inversion Hl as [|? ? Hb _]; subst. unfold is_u8 in Hb. lia.
  - inversion Hl as [|? ? Hb0 Hl']; subst. inversion Hl' as [|? ? Hb1 Hl'']; subst.
    specialize (IH Hl''). unfold is_u8 in *. lia.
Qed.

(** The 32-bit accumulator of [inet_csum] does not overflow below 128 KiB. *)
Lemma sum_words_exact l s :
  Forall is_u8 l → 0 ≤ s → s + word_sum l < 2 ^ 32 → sum_words l s = s + word_sum l.
Proof.
  revert s. induction l as [|b|b0 b1 l IH] using pair_ind; intros s Hl Hs Hlt; simpl in *; [lia| |].
  - apply u32_small. inversion Hl; subst. unfold is_u8, is_u32 in *. lia.
  - inversion Hl as [|? ? Hb0 Hl']; subst. inversion Hl' as [|? ? Hb1 Hl'']; subst.
    pose proof (word_sum_nonneg l Hl''). rewrite word_add by done.
    rewrite u32_small by (unfold is_u8, is_u32 in *; lia).
    rewrite IH; unfold is_u8 in *; try done; lia.
Qed.

(** The streaming accumulator stays below [2^17] and represents the same
    ones' complement sum. *)
Lemma csum_acc_norm l s :
  Forall is_u8 l → 0 ≤ s < 2 ^ 17 →
  0 ≤ csum_acc s l < 2 ^ 17 + 256 ∧ ones_norm (csum_acc s l) = ones_norm (s + word_sum l) ∧
  (Nat.even (length l) = true → csum_acc s l < 2 ^ 17).
Proof.
  revert s. induction l as [|b|b0 b1 l IH] using pair_ind; intros s Hl Hs; cbn [csum_acc word_sum].
  - rewrite Z.add_0_r. split; [lia|]. split; [done|]. lia.
  - inversion Hl as [|? ? Hb _]; subst. unfold is_u8 in Hb.
    rewrite u32_small by (unfold is_u32; lia). split; [lia|]. by split.
  - inversion Hl as [|? ? Hb0 Hl']; subst. inversion Hl' as [|? ? Hb1 Hl'']; subst.
    rewrite (u16_small (Z.lor b0 _)), word_add by auto using word_range.
    unfold is_u8 in Hb0, Hb1. rewrite u32_small by (unfold is_u32; lia).
    set (t := s + (b0 + b1 * 256)). pose proof (word_sum_nonneg l Hl'').
    replace (s + (b0 + b1 * 256 + word_sum l)) with (t + word_sum l) by (subst t; lia).
    destruct (Z.ltb_spec 0xFFFF t) as [Hbig|Hsmall].
    + rewrite fold_round by (unfold is_u32; subst t; lia).
      pose proof (Z.div_mod t 65536). pose proof (Z.mod_pos_bound t 65536).
      assert (0 ≤ t / 65536 ≤ 2) by (subst t; lia).
      destruct (IH (t mod 65536 + t / 65536)) as (Hr & Hn & He); [done|lia|].
      split; [done|]. split; [|done]. rewrite Hn.
      apply ones_norm_congr; [lia|lia|lia|]. apply ones_norm_round. lia.
    + by apply IH; [|subst t; lia].
Qed.

Lemma lnot16 x : 0 ≤ x ≤ 0xFFFF → u16 (Z.lnot x) = 0xFFFF - x.
Proof.
  intros Hx. unfold u16, Z.lnot. replace (Z.pred (- x)) with (0xFFFF - x + (-1) * 2 ^ 16) by lia.
  rewrite Z_mod_plus_full. apply Z.mod_small. lia.
Qed.

(** Buffers for which the 32-bit sum of [inet_csum] is exact. *)
Definition csum_ok (l : list Z) : Prop := Forall is_u8 l ∧ Z.of_nat (length l) < 2 ^ 17 - 1.

Lemma inet_csum_norm l : csum_ok l → inet_csum l = 0xFFFF - ones_norm (word_sum l).
Proof.
  intros [Hl Hlen]. pose proof (word_sum_bound l Hl). pose proof (word_sum_nonneg l Hl).
  unfold inet_csum. rewrite sum_words_exact, Z.add_0_l by (done || lia).
  rewrite fold_carries_done by (unfold is_u32; lia). by apply lnot16, ones_norm_range.
Qed.

Lemma csum_finish_norm s : is_u32 s → csum_finish s = 0xFFFF - ones_norm s.
Proof.
  intros Hs. unfold csum_finish, csum_fold. rewrite fold_carries_done by done.
  assert (0 ≤ ones_norm s ≤ 0xFFFF) by (apply ones_norm_range; apply Hs).
  rewrite (u16_small (ones_norm s)) by (unfold is_u16; lia). by apply lnot16.
Qed.

Lemma word_sum_app l1 l2 :
  Nat.even (length l1) = true → word_sum (l1 ++ l2) = word_sum l1 + word_sum l2.
Proof.
  induction l1 as [|b|b0 b1 l IH] using pair_ind; intros He; simpl in *; [done|done|].
  rewrite IH by done. lia.
Qed.

(** Every piece but the last has even length. *)
Fixpoint even_but_last (pieces : list (list Z)) : Prop :=
  match pieces with
  | [] | [_] => True
  | p :: ps => Nat.even (length p) = true ∧ even_but_last ps
  end.

Lemma csum_acc_pieces pieces s :
  Forall (Forall is_u8) pieces → even_but_last pieces → 0 ≤ s < 2 ^ 17 →
  0 ≤ foldl csum_acc s pieces < 2 ^ 18 ∧
  ones_norm (foldl csum_acc s pieces) = ones_norm (s + word_sum (concat pieces)).
Proof.
  revert s. induction pieces as [|p ps IH]; intros s Hu He Hs; simpl.
  - rewrite Z.add_0_r. split; [lia|done].
  - inversion Hu as [|? ? Hp Hps]; subst. destruct (csum_acc_norm p s Hp Hs) as (Hr & Hn & Hev).
    destruct ps as [|p' ps']; [simpl; rewrite app_nil_r; split; [lia|done]|].
    destruct He as [Hpe He]. pose proof (word_sum_nonneg p Hp).
    destruct (IH (csum_acc s p)) as [Hr' Hn']; [done|done|specialize (Hev Hpe); lia|].
    split; [done|]. rewrite Hn', word_sum_app by done.
    rewrite Z.add_assoc. apply ones_norm_congr; [lia|lia| |done].
    apply word_sum_nonneg, Forall_concat. done.
Qed.

Lemma csum_pieces_equiv pieces :
  csum_ok (concat pieces) → even_but_last pieces →
  csum_finish (foldl csum_acc 0 pieces) = inet_csum (concat pieces).
Proof.
  intros Hok He. destruct (csum_acc_pieces pieces 0) as [Hr Hn]; [|done|lia|].
  { apply Forall_forall. intros p Hp. apply Forall_forall. intros b Hb.
    destruct Hok as [Hu _]. rewrite Forall_forall in Hu. apply Hu.
    apply list_elem_of_In, in_concat. exists p. by rewrite <-!list_elem_of_In. }
  rewrite inet_csum_norm, csum_finish_norm by (done || unfold is_u32; lia).
  by rewrite Hn.
Qed.

(** The five pieces of a transport checksum. *)
Lemma csum_pieces5 a b c d e :
  csum_ok (a ++ b ++ c ++ d ++ e) → even_but_last [a; b; c; d; e] →
  csum_finish (csum_acc (csum_acc (csum_acc (csum_acc (csum_acc 0 a) b) c) d) e) = inet_csum (a ++ b ++ c ++ d ++ e).
Proof.
  intros Hok He. pose proof (csum_pieces_equiv [a; b; c; d; e]) as Heq.
  cbn [concat foldl] in Heq. rewrite app_nil_r in Heq. by apply Heq.
Qed.

(** ** Theorems *)

(** A checksum accumulated piece by piece with [csum_acc] and finished with
    [csum_finish] equals [inet_csum] over the whole buffer, provided every
    piece but the last has even length. *)
Theorem csum_streaming_equiv pieces :
  csum_ok (concat pieces) → even_but_last pieces →
  csum_finish (foldl csum_acc 0 pieces) = inet_csum (concat pieces).
Proof. apply csum_pieces_equiv. Qed.

(** Without the even-length condition the two differ: an odd piece followed
    by another is not summed as the contiguous buffer is. *)
Theorem csum_streaming_odd_differs :
  csum_finish (csum_acc (csum_acc 0 [1]) [2]) ≠ inet_csum ([1] ++ [2]).
Proof. vm_compute. discriminate. Qed.

Lemma csum_in_place pre post c :
  csum_ok (pre ++ [0; 0] ++ post) → Nat.even (length pre) = true →
  c = inet_csum (pre ++ [0; 0] ++ post) →
  inet_csum (pre ++ put16 c ++ post) = 0.
Proof.
  intros Hok He Hc. pose proof Hok as [Hu Hlen].
  apply Forall_app in Hu as [Hpre [_ Hpost]%Forall_app].
  set (S := word_sum (pre ++ [0; 0] ++ post)) in *.
  assert (0 ≤ S) as HS by (apply word_sum_nonneg; apply Hok).
  assert (c = 0xFFFF - ones_norm S) as Hc' by (by rewrite Hc, inet_csum_norm).
  pose proof (ones_norm_range S HS) as Hrng.
  assert (csum_ok (pre ++ put16 c ++ post)) as Hok'.
  { split; [|by rewrite !length_app in *]. apply Forall_app; split; [done|].
    apply Forall_app; split; [|done]. unfold put16. repeat constructor; apply u8_range. }
  assert (word_sum (pre ++ put16 c ++ post) = S + c) as Hsum.
  { unfold S. rewrite !(word_sum_app pre) by done. unfold put16. cbn [app word_sum].
    unfold u8. rewrite Z.shiftr_div_pow2 by lia. change (2 ^ 8) with 256.
    pose proof (Z.div_mod c 256). pose proof (Z.mod_pos_bound c 256).
    assert (0 ≤ c / 256 < 256) by lia. rewrite (Z.mod_small (c / 256) 256) by lia. lia. }
  rewrite inet_csum_norm by done. rewrite Hsum, Hc'.
  enough (ones_norm (S + (0xFFFF - ones_norm S)) = 0xFFFF) by lia.
  rewrite <-ones_norm_add by lia.
  replace (ones_norm S + (0xFFFF - ones_norm S)) with 0xFFFF by lia. done.
Qed.

(** Storing [inet_csum] of a buffer into its (zeroed, even-aligned) checksum
    field makes the buffer's own checksum zero, the receiver's test of
    RFC 1071. *)
Theorem inet_csum_verifies pre post c :
  csum_ok (pre ++ [0; 0] ++ post) → Nat.even (length pre) = true →
  c = inet_csum (pre ++ [0; 0] ++ post) →
  inet_csum (pre ++ put16 c ++ post) = 0.
Proof. apply csum_in_place. Qed.

Lemma htobe32_bit v i :
  is_u32 v → 0 ≤ i →
  Z.testbit (htobe32 v) i =
  if i <? 8 then Z.testbit v (i + 24) else if i <? 16 then Z.testbit v (i + 8)
  else if i <? 24 then Z.testbit v (i - 8) else if i <? 32 then Z.testbit v (i - 24) else false.
Proof.
  intros Hv Hi. unfold htobe32, u32.
  assert (∀ k, 0 ≤ k → Z.testbit (Z.shiftl 0xFF k) i = (k <=? i) && (i <? k + 8)) as Hmask.
  { intros k Hk. rewrite Z.shiftl_spec by done. change 0xFF with (Z.ones 8).
    rewrite Z.testbit_ones by lia. lia. }
  change 0xFF with (Z.shiftl 0xFF 0). change 0xFF00 with (Z.shiftl 0xFF 8).
  change 0xFF0000 with (Z.shiftl 0xFF 16). change 0xFF000000 with (Z.shiftl 0xFF 24).
  rewrite !Z.lor_spec, !Z.land_spec, !Hmask, !Z.shiftr_spec by lia.
  destruct (Z.ltb_spec i 8); destruct (Z.ltb_spec i 16); destruct (Z.ltb_spec i 24);
    destruct (Z.ltb_spec i 32); try lia;
    rewrite ?Z.mod_pow2_bits_low, ?Z.mod_pow2_bits_high, ?Z.shiftl_spec by lia;
    decide_cmps; cbn [andb]; rewrite ?andb_true_r, ?andb_false_r, ?orb_false_r, ?orb_false_l; done.
Qed.

Lemma htobe16_invol v : is_u16 v → be16toh (htobe16 v) = v.
Proof.
  intros Hv. unfold be16toh. rewrite (htobe16_bytes v) by done. unfold is_u16 in Hv.
  pose proof (Z.div_mod v 256). pose proof (Z.mod_pos_bound v 256).
  rewrite htobe16_bytes by (unfold is_u16; lia).
  Z.div_mod_to_equations. lia.
Qed.

Lemma htobe32_range w : is_u32 w → is_u32 (htobe32 w).
Proof.
  intros Hw. apply testbit_range; [lia|]. intros i Hi. rewrite htobe32_bit by (done || lia). by decide_cmps.
Qed.

Lemma htobe32_invol w : is_u32 w → be32toh (htobe32 w) = w.
Proof.
  intros Hw. pose proof (htobe32_range w Hw) as Hr.
  apply Z.bits_inj'. intros i Hi. unfold be32toh. rewrite htobe32_bit by done.
  destruct (Z.ltb_spec i 8), (Z.ltb_spec i 16), (Z.ltb_spec i 24), (Z.ltb_spec i 32); try lia;
    try (rewrite htobe32_bit by (done || lia);
         decide_cmps; f_equal; lia).
  symmetry. by apply (testbit_small w 32).
Qed.

(** The byte-order conversions are involutions on their widths, so a field
    written with [htobe*] is read back with [be*toh]. *)
Theorem byte_order_roundtrip v w :
  is_u16 v → is_u32 w → be16toh (htobe16 v) = v ∧ be32toh (htobe32 w) = w.
Proof. intros Hv Hw. split; [by apply htobe16_invol|by apply htobe32_invol]. Qed.

(** An address built from four octets gives them back, and it is classified
    as multicast exactly when its first octet is in 224..239. *)
Theorem ip4_octets_roundtrip a b c d :
  is_u8 a → is_u8 b → is_u8 c → is_u8 d →
  map (ip4_octet (ip4_make a b c d)) [0; 1; 2; 3] = [a; b; c; d] ∧
  (ip4_is_multicast (ip4_make a b c d) = true ↔ 224 ≤ a < 240).
Proof.
  intros Ha Hb Hc Hd. unfold is_u8 in *.
  assert (ip4_make a b c d = a + b * 2 ^ 8 + c * 2 ^ 16 + d * 2 ^ 24) as Hm.
  { unfold ip4_make. rewrite (lor_low_high a b 8) by lia.
    replace (Z.shiftl d 24) with (Z.shiftl (Z.shiftl d 8) 16) by (by rewrite Z.shiftl_shiftl).
    rewrite <-Z.shiftl_lor, (lor_low_high c d 8), lor_low_high by lia. lia. }
  rewrite Hm. split.
  - simpl. unfold ip4_octet, u8. rewrite !Z.shiftr_div_pow2 by lia. simpl.
    repeat f_equal; Z.div_mod_to_equations; lia.
  - unfold ip4_is_multicast. rewrite Z.eqb_eq. set (x := _ + _ + _ + _).
    assert (Z.land x 0xF0 = Z.land a 0xF0) as ->.
    { apply Z.bits_inj'. intros i Hi. rewrite !Z.land_spec.
      destruct (Z.lt_ge_cases i 8).
      - f_equal. rewrite <-(Z.mod_pow2_bits_low x 8 i) by lia. f_equal.
        subst x. Z.div_mod_to_equations. lia.
      - rewrite (testbit_small 0xF0 8 i) by lia. by rewrite !andb_false_r. }
    assert (∀ n, (n < 256)%nat → Z.land (Z.of_nat n) 0xF0 = 0xE0 ↔ 224 ≤ Z.of_nat n < 240) as Hall.
    { intros n Hn. do 256 (destruct n as [|n]; [vm_compute; intuition congruence|]). lia. }
    specialize (Hall (Z.to_nat a)). rewrite Z2Nat.id in Hall by lia. apply Hall. lia.
Qed.

(** ** Witnesses *)

Lemma csum_streaming_equiv_witness :
  csum_finish (foldl csum_acc 0 [[1; 2; 3; 4]; [5; 6; 7]]) = inet_csum [1; 2; 3; 4; 5; 6; 7].
Proof.
  apply (csum_streaming_equiv [[1; 2; 3; 4]; [5; 6; 7]]); [|done].
  split; [|simpl; lia]. simpl. repeat constructor; unfold is_u8; lia.
Defined.

(** An ICMP-like header with its checksum in bytes 2 and 3. *)
Lemma inet_csum_verifies_witness :
  inet_csum ([8; 0] ++ put16 (inet_csum ([8; 0] ++ [0; 0] ++ [0x12; 0x34; 0; 1])) ++ [0x12; 0x34; 0; 1]) = 0.
Proof.
  apply (inet_csum_verifies [8; 0] [0x12; 0x34; 0; 1]); [|done|done].
  split; [|simpl; lia]. simpl. repeat constructor; unfold is_u8; lia.
Defined.

Lemma byte_order_roundtrip_witness :
  be16toh (htobe16 0x1234) = 0x1234 ∧ be32toh (htobe32 0x12345678) = 0x12345678.
Proof. apply byte_order_roundtrip; unfold is_u16, is_u32; lia. Defined.

Lemma ip4_octets_roundtrip_witness :
  map (ip4_octet (ip4_make 10 0 2 15)) [0; 1; 2; 3] = [10; 0; 2; 15] ∧
  (ip4_is_multicast (ip4_make 10 0 2 15) = true ↔ 224 ≤ 10 < 240).
Proof. apply ip4_octets_roundtrip; unfold is_u8; lia. Defined.
