(* ===== verification/NetBuf.v ===== *)
(** * NetBuf: the mbuf pool and fragment chains (kernel/net_buf.c)

    The pool is the array [g_mbuf_pool]; a [struct mbuf *] is an index into it
    ([None] is the null pointer), so sharing and aliasing are those of the
    source.  The free list runs through [next], a packet's fragments through
    [next_seg].  Each mbuf owns one mapped page; dereferencing a null pointer
    or leaving that page faults.  The spinlock only brackets these operations
    and is not modelled. *)

From S2P Require Import Prelude NetUtil.

Definition MBUF_DATA_SIZE : Z := 2048.
Definition MBUF_POOL_SIZE : nat := 256.
Definition MBUF_PAGE_SIZE : Z := 4096.

(** [struct mbuf]; [m_data] is the mapped page, [None] if the mapping failed. *)
Record mbuf := Mbuf {
  m_data : option (list Z);
  m_phys : Z;
  m_data_off : Z;
  m_len : Z;
  m_refcount : Z;
  m_next : option nat;
  m_next_seg : option nat;
  m_rx_src_ip : Z;
  m_rx_src_port : Z }.

Record netbuf := Netbuf { pool : list mbuf; g_mbuf_free : option nat }.

(** Field updates. *)
Definition set_data (d : list Z) (b : mbuf) : mbuf :=
  Mbuf (Some d) (m_phys b) (m_data_off b) (m_len b) (m_refcount b) (m_next b) (m_next_seg b)
    (m_rx_src_ip b) (m_rx_src_port b).
Definition set_span (off l : Z) (b : mbuf) : mbuf :=
  Mbuf (m_data b) (m_phys b) off l (m_refcount b) (m_next b) (m_next_seg b)
    (m_rx_src_ip b) (m_rx_src_port b).
Definition set_refcount (r : Z) (b : mbuf) : mbuf :=
  Mbuf (m_data b) (m_phys b) (m_data_off b) (m_len b) r (m_next b) (m_next_seg b)
    (m_rx_src_ip b) (m_rx_src_port b).
Definition set_next (n : option nat) (b : mbuf) : mbuf :=
  Mbuf (m_data b) (m_phys b) (m_data_off b) (m_len b) (m_refcount b) n (m_next_seg b)
    (m_rx_src_ip b) (m_rx_src_port b).
Definition set_next_seg (n : option nat) (b : mbuf) : mbuf :=
  Mbuf (m_data b) (m_phys b) (m_data_off b) (m_len b) (m_refcount b) (m_next b) n
    (m_rx_src_ip b) (m_rx_src_port b).
Definition set_rx_src (ip port : Z) (b : mbuf) : mbuf :=
  Mbuf (m_data b) (m_phys b) (m_data_off b) (m_len b) (m_refcount b) (m_next b) (m_next_seg b)
    ip port.

(** [*p] for a non-null pointer, and [p->field = v]. *)
Definition deref (i : nat) : M netbuf mbuf :=
  b ← gets pool;
  match b !! i with Some v => mret v | None => fault end.
Definition deref_ptr (p : option nat) : M netbuf mbuf :=
  match p with Some i => deref i | None => fault end.
Definition update (i : nat) (f : mbuf → mbuf) : M netbuf unit :=
  b ← deref i;
  modify (λ nb, Netbuf (<[i := f b]> (pool nb)) (g_mbuf_free nb)).
Definition set_free_head (p : option nat) : M netbuf unit :=
  modify (λ nb, Netbuf (pool nb) p).

(** Bytes of a page, and a [memcpy] into it. *)
Definition read_at (d : list Z) (off n : Z) : option (list Z) :=
  if (0 <=? off) && (0 <=? n) && (off + n <=? Z.of_nat (length d))
  then Some (take (Z.to_nat n) (drop (Z.to_nat off) d)) else None.
Definition write_at (d : list Z) (off : Z) (bs : list Z) : option (list Z) :=
  if (0 <=? off) && (off + Z.of_nat (length bs) <=? Z.of_nat (length d))
  then Some (take (Z.to_nat off) d ++ bs ++ drop (Z.to_nat off + length bs) d) else None.

(** [memcpy(dst, m->data + off, n)] and [memcpy(m->data + off, src, n)]. *)
Definition read_data (i : nat) (off n : Z) : M netbuf (list Z) :=
  b ← deref i;
  match d ← m_data b; read_at d off n with Some bs => mret bs | None => fault end.
Definition write_data (i : nat) (off : Z) (bs : list Z) : M netbuf unit :=
  b ← deref i;
  match d ← m_data b; write_at d off bs with Some d' => update i (set_data d') | None => fault end.

(** ** Operations *)

(** [mbuf_init]: [page i] is what [pmm_alloc_frame] and [vmm_mmap_phys] give
    for the [i]-th mbuf: no frame, or a frame and whether it was mapped. *)
Definition mbuf_init (page : nat → option (Z * option (list Z))) : M netbuf unit :=
  modify (λ _, Netbuf (replicate MBUF_POOL_SIZE (Mbuf None 0 0 0 0 None None 0 0)) None);;
  for_up MBUF_POOL_SIZE 0 (λ k,
    let i := (MBUF_POOL_SIZE - 1 - Z.to_nat k)%nat in
    match page i with
    | None => mret tt
    | Some (ph, d) =>
      head ← gets g_mbuf_free;
      update i (λ b, Mbuf d ph 0 0 1 head None (m_rx_src_ip b) (m_rx_src_port b));;
      set_free_head (Some i)
    end).

Definition mbuf_alloc : M netbuf (option nat) :=
  m ← gets g_mbuf_free;
  match m with
  | None => mret None
  | Some i =>
    b ← deref i;
    set_free_head (m_next b);;
    update i (λ b, Mbuf (m_data b) (m_phys b) 0 0 1 None None 0 0);;
    mret (Some i)
  end.

Definition zeros (n : Z) : list Z := replicate (Z.to_nat n) 0.

Definition mbuf_alloc0 : M netbuf (option nat) :=
  m ← mbuf_alloc;
  match m with
  | None => mret None
  | Some i =>
    b ← deref i;
    match m_data b with
    | Some _ => write_data i 0 (zeros MBUF_DATA_SIZE);; mret (Some i)
    | None => mret (Some i)
    end
  end.

(** A chain of distinct mbufs has at most [MBUF_POOL_SIZE] elements, so walking
    one needs one round more than that to see its end. *)
Definition CHAIN_FUEL : nat := 257.

Definition mbuf_free (m : option nat) : M netbuf unit :=
  match m with
  | None => mret tt
  | Some i =>
    b ← deref i;
    if 1 <? m_refcount b then update i (set_refcount (u32 (m_refcount b - 1)))
    else
      loop_fuel CHAIN_FUEL (λ _ : unit,
        b ← deref i;
        match m_next_seg b with
        | None => mret (inr tt)
        | Some seg =>
          sb ← deref seg;
          update i (set_next_seg (m_next_seg sb));;
          update seg (set_refcount 1);;
          head ← gets g_mbuf_free;
          update seg (set_next head);;
          set_free_head (Some seg);;
          mret (inl tt)
        end) tt;;
      update i (set_refcount 1);;
      head ← gets g_mbuf_free;
      update i (set_next head);;
      set_free_head (Some i)
  end.

Definition mbuf_ref (m : option nat) : M netbuf unit :=
  match m with
  | None => mret tt
  | Some i => update i (λ b, set_refcount (u32 (m_refcount b + 1)) b)
  end.

(** [memcpy(c->data, m->data, MBUF_DATA_SIZE)] and the span of [m]. *)
Definition copy_mbuf (c m : nat) : M netbuf unit :=
  bs ← read_data m 0 MBUF_DATA_SIZE;
  write_data c 0 bs;;
  b ← deref m;
  update c (λ cb, set_next_seg None (set_refcount 1 (set_span (m_data_off b) (m_len b) cb))).

Definition mbuf_clone (m : option nat) : M netbuf (option nat) :=
  match m with
  | None => mret None
  | Some i =>
    c ← mbuf_alloc;
    match c with
    | None => mret None
    | Some ci =>
      copy_mbuf ci i;;
      b ← deref i;
      loop_fuel CHAIN_FUEL (λ '(dst, seg),
        match seg with
        | None => mret (inr (Some ci))
        | Some si =>
          dc ← mbuf_alloc;
          match dc with
          | None => mbuf_free (Some ci);; mret (inr None)
          | Some di =>
            copy_mbuf di si;;
            update dst (set_next_seg (Some di));;
            sb ← deref si;
            mret (inl (di, m_next_seg sb))
          end
        end) (ci, m_next_seg b)
    end
  end.

(** [while (tail->next_seg) tail = tail->next_seg;] *)
Definition find_tail (i : nat) : M netbuf nat :=
  loop_fuel CHAIN_FUEL (λ t,
    b ← deref t;
    match m_next_seg b with Some n => mret (inl n) | None => mret (inr t) end) i.

(** [mbuf_append(&head, src, len)]: the return code and the new [*head].  Each
    round copies at least one byte. *)
Definition mbuf_append (head : option nat) (src : list Z) : M netbuf (Z * option nat) :=
  loop_fuel (S (length src)) (λ '(head, src),
    match src with
    | [] => mret (inr (0, head))
    | _ =>
      h ← match head with Some i => mret (Some i) | None => mbuf_alloc0 end;
      match h with
      | None => mret (inr (-1, None))
      | Some hi =>
        tail ← find_tail hi;
        tb ← deref tail;
        let avail := u64 (MBUF_DATA_SIZE - m_len tb) in
        t' ← (if avail =? 0 then
                n ← mbuf_alloc0;
                update tail (set_next_seg n);;
                mret (match n with Some ni => Some (ni, MBUF_DATA_SIZE) | None => None end)
              else mret (Some (tail, avail)));
        match t' with
        | None => mret (inr (-1, Some hi))
        | Some (ti, av) =>
          tb' ← deref ti;
          let n := if Z.of_nat (length src) <? av then Z.of_nat (length src) else av in
          write_data ti (m_len tb') (take (Z.to_nat n) src);;
          update ti (λ b, set_span (m_data_off b) (u64 (m_len b + n)) b);;
          mret (inl (Some hi, drop (Z.to_nat n) src))
        end
      end
    end) (head, src).

Definition mbuf_total_len (m : option nat) : M netbuf Z :=
  loop_fuel CHAIN_FUEL (λ '(total, m),
    match m with
    | None => mret (inr total)
    | Some i => b ← deref i; mret (inl (u64 (total + m_len b), m_next_seg b))
    end) (0, m).

(** [mbuf_copyout]: the bytes written to [dst]; their number is the return
    value of the C function. *)
Definition mbuf_copyout (dst_len : Z) (m : option nat) (off : Z) : M netbuf (list Z) :=
  loop_fuel CHAIN_FUEL (λ '(out, m, off),
    match m with
    | None => mret (inr out)
    | Some i =>
      if Z.of_nat (length out) <? dst_len then
        b ← deref i;
        if off <? m_len b then
          let n0 := m_len b - off in
          let room := dst_len - Z.of_nat (length out) in
          let n := if room <? n0 then room else n0 in
          bs ← read_data i (m_data_off b + off) n;
          mret (inl (out ++ bs, m_next_seg b, 0))
        else mret (inl (out, m_next_seg b, off - m_len b))
      else mret (inr out)
    end) ([], m, off).

Definition mbuf_csum_acc (sum : Z) (m : option nat) (off len : Z) : M netbuf Z :=
  loop_fuel CHAIN_FUEL (λ '(sum, m, off, len),
    match m with
    | None => mret (inr sum)
    | Some i =>
      if 0 <? len then
        b ← deref i;
        if off <? m_len b then
          let avail := m_len b - off in
          let n := if len <? avail then len else avail in
          bs ← read_data i (m_data_off b + off) n;
          mret (inl (csum_acc sum bs, m_next_seg b, 0, len - n))
        else mret (inl (sum, m_next_seg b, off - m_len b, len))
      else mret (inr sum)
    end) (sum, m, off, len).

(** ** Representation predicates *)

(** Mbuf [b] holds the bytes [bs] in its page. *)
Inductive holds (b : mbuf) (bs : list Z) : Prop :=
  | Holds d :
      m_data b = Some d → Z.of_nat (length d) = MBUF_PAGE_SIZE → Forall is_u8 d →
      0 ≤ m_data_off b → 0 ≤ m_len b → m_data_off b + m_len b ≤ MBUF_PAGE_SIZE →
      bs = take (Z.to_nat (m_len b)) (drop (Z.to_nat (m_data_off b)) d) →
      holds b bs.

(** A fragment chain from [h] to [e] (exclusive) through [next_seg]: the mbufs
    visited and the bytes each holds. *)
Inductive pseg (p : list mbuf) : option nat → list nat → list (list Z) → option nat → Prop :=
  | pseg_nil e : pseg p e [] [] e
  | pseg_cons i b bs l ps e :
      p !! i = Some b → holds b bs → pseg p (m_next_seg b) l ps e →
      pseg p (Some i) (i :: l) (bs :: ps) e.

(** A whole packet. *)
Definition pkt (p : list mbuf) (h : option nat) (l : list nat) (ps : list (list Z)) : Prop :=
  pseg p h l ps None.

(** The free list through [next]; every mbuf on it has its page. *)
Inductive flist (p : list mbuf) : option nat → list nat → Prop :=
  | flist_nil : flist p None []
  | flist_cons i b l :
      p !! i = Some b → (∃ d, m_data b = Some d ∧ Z.of_nat (length d) = MBUF_PAGE_SIZE ∧ Forall is_u8 d) →
      flist p (m_next b) l → flist p (Some i) (i :: l).

(** The pool invariant: the free list is a list [F] of distinct mbufs. *)
Record pool_ok (nb : netbuf) (F : list nat) : Prop := PoolOk {
  po_len : length (pool nb) = MBUF_POOL_SIZE;
  po_list : flist (pool nb) (g_mbuf_free nb) F;
  po_nodup : NoDup F }.

Lemma holds_length b bs : holds b bs → Z.of_nat (length bs) = m_len b.
Proof.
  intros [d _ Hs _ Ho Hl Hf ->]. rewrite length_take, length_drop. unfold MBUF_PAGE_SIZE in *. lia.
Qed.

Lemma holds_u8 b bs : holds b bs → Forall is_u8 bs.
Proof. intros [d _ _ Hu _ _ _ ->]. by apply Forall_take, Forall_drop. Qed.

(** [holds] only looks at the page and the span. *)
Lemma holds_ext b b' bs :
  m_data b' = m_data b → m_data_off b' = m_data_off b → m_len b' = m_len b → holds b bs → holds b' bs.
Proof.
  intros H1 H2 H3 [d Hd Hs Hu Ho Hl Hf Hb].
  split with d; rewrite ?H1, ?H2, ?H3; done.
Qed.

Section chains.
Implicit Types (p : list mbuf) (l F : list nat) (ps : list (list Z)) (h e : option nat).

Lemma pseg_app p h l1 l2 ps1 ps2 m e :
  pseg p h l1 ps1 m → pseg p m l2 ps2 e → pseg p h (l1 ++ l2) (ps1 ++ ps2) e.
Proof. induction 1; simpl; [done|]. intros H2. econstructor; eauto. Qed.

Lemma pseg_snoc_inv p h l i ps bs e :
  pseg p h (l ++ [i]) (ps ++ [bs]) e →
  ∃ b, pseg p h l ps (Some i) ∧ p !! i = Some b ∧ holds b bs ∧ m_next_seg b = e.
Proof.
  revert h ps. induction l as [|j l IH]; intros h ps Hs; simpl in Hs.
  - inversion Hs as [|? b ? ? ? ? Hb Hh Hrest Heq1 Heq2 Heq3]; subst.
    inversion Hrest; subst. destruct ps as [|x ps]; [|by destruct ps].
    simpl in *. simplify_eq. exists b. by repeat split; [constructor|..].
  - inversion Hs as [|? b ? ? ps' ? Hb Hh Hrest Heq1 Heq2 Heq3]; subst.
    destruct ps as [|x ps]; simpl in *.
    { simplify_eq. inversion Hrest; by destruct l. }
    simplify_eq. destruct (IH _ _ Hrest) as (b' & Hp & Hrest').
    exists b'. split; [|done]. econstructor; eauto.
Qed.

Lemma pkt_inv p h l ps :
  pkt p h l ps →
  (h = None ∧ l = [] ∧ ps = []) ∨
  (∃ i b bs l' ps', h = Some i ∧ l = i :: l' ∧ ps = bs :: ps' ∧
     p !! i = Some b ∧ holds b bs ∧ pkt p (m_next_seg b) l' ps').
Proof.
  inversion 1 as [|i b bs l' ps' ? Hb Hh Hrest]; subst; [by left|right].
  by exists i, b, bs, l', ps'.
Qed.

Lemma pseg_length p h l ps e : pseg p h l ps e → length l = length ps.
Proof. induction 1; simpl; lia. Qed.

Lemma pseg_lookup p h l ps e i : pseg p h l ps e → i ∈ l → ∃ b bs, p !! i = Some b ∧ holds b bs.
Proof.
  induction 1 as [|j b bs l ps e Hb Hh _ IH]; [by intros ?%not_elem_of_nil|].
  intros [->|Hi]%elem_of_cons; eauto.
Qed.

Lemma pseg_in_range p h l ps e i : pseg p h l ps e → i ∈ l → (i < length p)%nat.
Proof. intros Hp Hi. destruct (pseg_lookup _ _ _ _ _ _ Hp Hi) as (b & _ & Hb & _).
  by eapply lookup_lt_Some. Qed.

(** Chains depend only on the mbufs they visit. *)
Lemma pseg_frame p p' h l ps e :
  pseg p h l ps e → (∀ i, i ∈ l → p' !! i = p !! i) → pseg p' h l ps e.
Proof.
  induction 1 as [|i b bs l ps e Hb Hh _ IH]; intros Heq; [constructor|].
  econstructor; [rewrite Heq by set_solver; eauto|done|]. apply IH. intros j Hj. apply Heq. set_solver.
Qed.

Lemma pseg_insert p h l ps e i b : pseg p h l ps e → i ∉ l → pseg (<[i := b]> p) h l ps e.
Proof.
  intros Hs Hi. apply (pseg_frame p); [done|]. intros j Hj.
  apply list_lookup_insert_ne. set_solver.
Qed.

Lemma flist_frame p p' h F :
  flist p h F → (∀ i, i ∈ F → p' !! i = p !! i) → flist p' h F.
Proof.
  induction 1 as [|i b l Hb Hd _ IH]; intros Heq; [constructor|].
  econstructor; [rewrite Heq by set_solver; eauto|done|]. apply IH. intros j Hj. apply Heq. set_solver.
Qed.

Lemma flist_insert p h F i b : flist p h F → i ∉ F → flist (<[i := b]> p) h F.
Proof.
  intros Hs Hi. apply (flist_frame p); [done|]. intros j Hj.
  apply list_lookup_insert_ne. set_solver.
Qed.

Lemma flist_in_range p h F i : flist p h F → i ∈ F → (i < length p)%nat.
Proof.
  induction 1 as [|j b l Hb _ _ IH]; [by intros ?%not_elem_of_nil|].
  intros [->|Hi]%elem_of_cons; [by eapply lookup_lt_Some|auto].
Qed.

(** A list of distinct mbufs of the pool is not longer than the pool. *)
Lemma nodup_bound l n : NoDup l → (∀ i, i ∈ l → (i < n)%nat) → (length l ≤ n)%nat.
Proof.
  intros Hnd Hlt. rewrite <-(length_seq n 0). apply submseteq_length, NoDup_submseteq; [done|].
  intros i Hi. apply elem_of_seq. specialize (Hlt i Hi). lia.
Qed.

Lemma pkt_bound nb F h l ps :
  pool_ok nb F → pkt (pool nb) h l ps → NoDup l → (length l ≤ MBUF_POOL_SIZE)%nat.
Proof.
  intros Hok Hp Hnd. rewrite <-(po_len _ _ Hok). apply nodup_bound; [done|].
  intros i Hi. by eapply pseg_in_range.
Qed.
End chains.

(** ** Rules for the primitive accesses *)

Lemma wp_deref nb i b (Q : mbuf → netbuf → Prop) :
  pool nb !! i = Some b → Q b nb → wp (deref i) Q nb.
Proof. intros Hb HQ. unfold deref. wp_steps. rewrite Hb. by apply wp_ret. Qed.

Lemma wp_update nb i b f (Q : unit → netbuf → Prop) :
  pool nb !! i = Some b → Q tt (Netbuf (<[i := f b]> (pool nb)) (g_mbuf_free nb)) →
  wp (update i f) Q nb.
Proof. intros Hb HQ. unfold update. wp_step. eapply wp_deref; [done|]. by apply wp_modify. Qed.

Lemma wp_read_data nb i b d off n (Q : list Z → netbuf → Prop) :
  pool nb !! i = Some b → m_data b = Some d → 0 ≤ off → 0 ≤ n → off + n ≤ Z.of_nat (length d) →
  Q (take (Z.to_nat n) (drop (Z.to_nat off) d)) nb → wp (read_data i off n) Q nb.
Proof.
  intros Hb Hd H0 H1 H2 HQ. unfold read_data. wp_step. eapply wp_deref; [done|].
  rewrite Hd. simpl. unfold read_at. decide_cmps. simpl. by apply wp_ret.
Qed.

Lemma wp_write_data nb i b d off bs (Q : unit → netbuf → Prop) :
  pool nb !! i = Some b → m_data b = Some d → 0 ≤ off → off + Z.of_nat (length bs) ≤ Z.of_nat (length d) →
  Q tt (Netbuf (<[i := set_data (take (Z.to_nat off) d ++ bs ++ drop (Z.to_nat off + length bs) d) b]>
                  (pool nb)) (g_mbuf_free nb)) →
  wp (write_data i off bs) Q nb.
Proof.
  intros Hb Hd H0 H1 HQ. unfold write_data. wp_step. eapply wp_deref; [done|].
  rewrite Hd. simpl. unfold write_at. decide_cmps. simpl. by eapply wp_update.
Qed.

(** ** Reading a chain *)

Lemma skip_piece (bs : list Z) rest off :
  (length bs ≤ off)%nat → drop off (bs ++ rest) = drop (off - length bs) rest.
Proof. intros Hle. rewrite drop_app. by rewrite (drop_ge bs) by lia. Qed.

Lemma wp_total_len nb F h l ps (Q : Z → netbuf → Prop) :
  pool_ok nb F → pkt (pool nb) h l ps → NoDup l →
  Q (Z.of_nat (length (concat ps))) nb → wp (mbuf_total_len h) Q nb.
Proof.
  intros Hok Hp Hnd HQ. pose proof (pkt_bound _ _ _ _ _ Hok Hp Hnd) as Hbound.
  unfold mbuf_total_len, MBUF_POOL_SIZE in *.
  apply (wp_loop_ghost (λ n '(total, m) nb', nb' = nb ∧ ∃ l' ps', pkt (pool nb) m l' ps' ∧
    length l' = n ∧ 0 ≤ total ∧ total + 4096 * Z.of_nat n ≤ 2 ^ 20 ∧
    total + Z.of_nat (length (concat ps')) = Z.of_nat (length (concat ps))) _ _ (length l)).
  - split; [done|]. exists l, ps. split_and!; [done|done|lia|lia|lia].
  - unfold CHAIN_FUEL. lia.
  - intros n [total m] nb' (-> & l' & ps' & Hp' & <- & Ht & Hb & Heq).
    apply pkt_inv in Hp' as [(-> & -> & ->)|(i & b & bs & l'' & ps'' & -> & -> & -> & Hi & Hh & Hrest)];
      simpl in *; wp_steps.
    + by replace total with (Z.of_nat (length (concat ps))) by lia.
    + eapply wp_deref; [done|]. wp_step. pose proof (holds_length _ _ Hh) as Hl.
      destruct Hh as [d _ Hs _ Ho Hln Hf _]. unfold MBUF_PAGE_SIZE in *.
      rewrite length_app in Heq. rewrite u64_small by (unfold is_u64; lia).
      exists (length l''). split; [lia|]. split; [done|]. exists l'', ps''. split_and!; [done|done|lia|lia|lia].
Qed.

(** [mbuf_copyout] returns the bytes of the packet from [off], at most
    [dst_len] of them. *)
Lemma wp_copyout nb F h l ps dst_len off (Q : list Z → netbuf → Prop) :
  pool_ok nb F → pkt (pool nb) h l ps → NoDup l → 0 ≤ dst_len → 0 ≤ off →
  Q (take (Z.to_nat dst_len) (drop (Z.to_nat off) (concat ps))) nb →
  wp (mbuf_copyout dst_len h off) Q nb.
Proof.
  intros Hok Hp Hnd Hd Ho HQ. pose proof (pkt_bound _ _ _ _ _ Hok Hp Hnd) as Hbound.
  unfold mbuf_copyout, MBUF_POOL_SIZE in *.
  apply (wp_loop_ghost (λ n '(out, m, o) nb', nb' = nb ∧ ∃ l' ps', pkt (pool nb) m l' ps' ∧
    length l' = n ∧ 0 ≤ o ∧ Z.of_nat (length out) ≤ dst_len ∧
    out ++ take (Z.to_nat dst_len - length out) (drop (Z.to_nat o) (concat ps')) =
    take (Z.to_nat dst_len) (drop (Z.to_nat off) (concat ps))) _ _ (length l)).
  - split; [done|]. exists l, ps. split_and!; [done|done|lia|simpl; lia|].
    simpl. by rewrite Nat.sub_0_r.
  - unfold CHAIN_FUEL. lia.
  - intros n [[out m] o] nb' (-> & l' & ps' & Hp' & <- & Hoo & Hout & Heq).
    apply pkt_inv in Hp' as [(-> & -> & ->)|(i & b & bs & l'' & ps'' & -> & -> & -> & Hi & Hh & Hrest)];
      simpl in *.
    { wp_step. by rewrite drop_nil, take_nil, app_nil_r in Heq; subst. }
    destruct (Z.ltb_spec (Z.of_nat (length out)) dst_len) as [Hlt|Hge].
    2:{ wp_step. replace (Z.to_nat dst_len - length out)%nat with 0%nat in Heq by lia.
        by rewrite take_0, app_nil_r in Heq; subst. }
    wp_step. eapply wp_deref; [done|]. pose proof (holds_length _ _ Hh) as Hl.
    destruct Hh as [d Hdat Hs Hu Hof Hln Hf Hbs].
    destruct (Z.ltb_spec o (m_len b)) as [Ho2|Ho2].
    + set (n := if _ <? _ then _ else _).
      assert (n = Z.min (dst_len - Z.of_nat (length out)) (m_len b - o)) as Hn.
      { subst n. destruct (Z.ltb_spec (dst_len - Z.of_nat (length out)) (m_len b - o)); lia. }
      wp_step. eapply wp_read_data; [done|done|lia|lia|lia|]. wp_step.
      assert (take (Z.to_nat n) (drop (Z.to_nat (m_data_off b + o)) d) =
              take (Z.to_nat n) (drop (Z.to_nat o) bs)) as ->.
      { rewrite Hbs, skipn_firstn_comm, drop_drop, take_take. f_equal; [lia|]. f_equal. lia. }
      exists (length l''). split; [lia|]. split; [done|]. exists l'', ps''.
      split_and!; [done|done|lia|rewrite length_app, length_take, length_drop; lia|].
      rewrite <-Heq, length_app, length_take, length_drop, drop_0, <-app_assoc. f_equal.
      rewrite drop_app_le, take_app by lia. rewrite length_drop. f_equal; [|f_equal; lia].
      destruct (Z.le_gt_cases (dst_len - Z.of_nat (length out)) (m_len b - o)).
      * f_equal. lia.
      * rewrite !take_ge; [done|rewrite length_drop; lia|rewrite length_drop; lia].
    + wp_step. exists (length l''). split; [lia|]. split; [done|]. exists l'', ps''.
      split_and!; [done|done|lia|lia|]. rewrite <-Heq, skip_piece by lia. do 3 f_equal. lia.
Qed.

Lemma csum_acc_empty ps s : concat ps = [] → foldl csum_acc s ps = s.
Proof.
  revert s. induction ps as [|p ps IH]; intros s Hc; [done|].
  apply app_nil in Hc as [-> Hc]. simpl. by apply IH.
Qed.

(** Over a whole packet, [mbuf_csum_acc] accumulates the fragments in order. *)
Lemma wp_csum_acc nb F h l ps sum (Q : Z → netbuf → Prop) :
  pool_ok nb F → pkt (pool nb) h l ps → NoDup l →
  Q (foldl csum_acc sum ps) nb →
  wp (mbuf_csum_acc sum h 0 (Z.of_nat (length (concat ps)))) Q nb.
Proof.
  intros Hok Hp Hnd HQ. pose proof (pkt_bound _ _ _ _ _ Hok Hp Hnd) as Hbound.
  unfold mbuf_csum_acc, MBUF_POOL_SIZE in *.
  apply (wp_loop_ghost (λ n '(acc, m, o, rem) nb', nb' = nb ∧ ∃ l' ps', pkt (pool nb) m l' ps' ∧
    length l' = n ∧ o = 0 ∧ rem = Z.of_nat (length (concat ps')) ∧
    foldl csum_acc acc ps' = foldl csum_acc sum ps) _ _ (length l)).
  - split; [done|]. by exists l, ps.
  - unfold CHAIN_FUEL. lia.
  - intros n [[[acc m] o] rem] nb' (-> & l' & ps' & Hp' & <- & -> & -> & Heq).
    apply pkt_inv in Hp' as [(-> & -> & ->)|(i & b & bs & l'' & ps'' & -> & -> & -> & Hi & Hh & Hrest)].
    { wp_step. simpl in Heq. by subst. }
    destruct (Z.ltb_spec 0 (Z.of_nat (length (concat (bs :: ps''))))) as [Hlt|Hge].
    2:{ wp_step. by rewrite csum_acc_empty in Heq by (apply nil_length_inv; lia); subst. }
    wp_step. eapply wp_deref; [done|]. pose proof (holds_length _ _ Hh) as Hl.
    destruct Hh as [d Hdat Hs Hu Hof Hln Hf Hbs]. simpl in Hlt. rewrite length_app in Hlt.
    simpl. rewrite length_app. simpl in Heq.
    destruct (Z.ltb_spec 0 (m_len b)) as [Hpos|Hzero].
    + replace (if _ <? m_len b - 0 then _ else m_len b - 0) with (m_len b)
        by (destruct (Z.ltb_spec (Z.of_nat (length bs + length (concat ps''))) (m_len b - 0)); lia).
      wp_step. eapply wp_read_data; [done|done|lia|lia|lia|]. wp_step.
      rewrite Z.add_0_r, <-Hbs.
      exists (length l''). split; [simpl; lia|]. split; [done|]. exists l'', ps''. split_and!; try done. lia.
    + wp_step. destruct bs; [|simpl in Hl; lia].
      exists (length l''). split; [simpl; lia|]. split; [done|]. exists l'', ps''.
      split_and!; try done; simpl; lia.
Qed.

(** ** Allocation and release *)

Definition reset_mbuf (b : mbuf) : mbuf := Mbuf (m_data b) (m_phys b) 0 0 1 None None 0 0.

Lemma wp_mbuf_alloc nb F (Q : option nat → netbuf → Prop) :
  pool_ok nb F →
  (F = [] → Q None nb) →
  (∀ i F' b, F = i :: F' → pool nb !! i = Some b →
     pool_ok (Netbuf (<[i := reset_mbuf b]> (pool nb)) (m_next b)) F' →
     pkt (<[i := reset_mbuf b]> (pool nb)) (Some i) [i] [[]] →
     Q (Some i) (Netbuf (<[i := reset_mbuf b]> (pool nb)) (m_next b))) →
  wp mbuf_alloc Q nb.
Proof.
  intros [Hlen Hfl Hnd] Hnone Hsome. unfold mbuf_alloc. wp_steps.
  destruct Hfl as [|i b F' Hi Hdata Hrest]; [wp_step; auto|].
  wp_step. eapply wp_deref; [done|]. unfold set_free_head. wp_steps.
  eapply wp_update; [done|]. wp_step. apply NoDup_cons in Hnd as [HiF Hnd].
  apply (Hsome i F' b); [done|done| |].
  - split; simpl; [by rewrite length_insert|by apply flist_insert|done].
  - destruct Hdata as (d & Hd & Hs & Hu).
    eapply pseg_cons; [apply list_lookup_insert_eq; by eapply lookup_lt_Some| |constructor].
    by apply (Holds _ _ d).
Qed.

(** [mbuf_alloc0]: as [mbuf_alloc], with a page whose first
    [MBUF_DATA_SIZE] bytes are zero. *)
Lemma wp_mbuf_alloc0 nb F (Q : option nat → netbuf → Prop) :
  pool_ok nb F →
  (F = [] → Q None nb) →
  (∀ i F' nb' b', F = i :: F' → pool_ok nb' F' → pkt (pool nb') (Some i) [i] [[]] →
     pool nb' !! i = Some b' → m_data_off b' = 0 → m_len b' = 0 → m_refcount b' = 1 →
     (∀ j, j ≠ i → pool nb' !! j = pool nb !! j) → Q (Some i) nb') →
  wp mbuf_alloc0 Q nb.
Proof.
  intros Hok Hnone Hsome. unfold mbuf_alloc0. wp_step.
  apply (wp_mbuf_alloc nb F); [done|intros ->; wp_step; auto|].
  intros i F' b HF Hi Hok' Hp.
  assert (i < length (pool nb))%nat as Hlt by (by eapply lookup_lt_Some).
  wp_step. eapply wp_deref; [by apply list_lookup_insert_eq|].
  inversion Hp as [|? b0 ? ? ? ? Hb0 Hh Hnil]; subst. simpl in *.
  rewrite list_lookup_insert_eq in Hb0 by done. injection Hb0 as <-.
  destruct Hh as [d Hd Hs Hu _ _ _ _]. simpl in Hd. rewrite Hd. wp_step.
  eapply wp_write_data; [by apply list_lookup_insert_eq|exact Hd|lia| |].
  { unfold zeros. rewrite length_replicate, Hs. unfold MBUF_DATA_SIZE, MBUF_PAGE_SIZE. lia. }
  wp_step. cbn [pool g_mbuf_free]. match goal with |- context [set_data ?x _] => set (d' := x) end.
  assert (Z.of_nat (length d') = MBUF_PAGE_SIZE ∧ Forall is_u8 d') as [Hs' Hu'].
  { subst d'. change (Z.to_nat 0) with 0%nat. rewrite take_0, app_nil_l, Nat.add_0_l. unfold zeros.
    rewrite length_app, length_drop, length_replicate. unfold MBUF_DATA_SIZE, MBUF_PAGE_SIZE in *.
    split; [lia|]. apply Forall_app; split; [|by apply Forall_drop].
    apply Forall_replicate. unfold is_u8. lia. }
  assert (i ∉ F') as HiF by (pose proof (po_nodup _ _ Hok) as Hnd; by apply NoDup_cons in Hnd as [? _]).
  apply (Hsome i F' _ (set_data d' (reset_mbuf b))); [done| | | |done..|].
  - destruct Hok' as [Hlen Hfl Hnd]. split; simpl in *; [by rewrite !length_insert in *| |done].
    apply flist_insert; [done|done].
  - eapply pseg_cons; [apply list_lookup_insert_eq; by rewrite length_insert| |constructor].
    by apply (Holds _ _ d').
  - cbn [pool]. apply list_lookup_insert_eq. by rewrite length_insert.
  - intros j Hj. cbn [pool]. by rewrite !list_lookup_insert_ne.
Qed.

(** [nb'] agrees with [nb] on every mbuf outside [S]. *)
Definition agree_off (S : list nat) (nb nb' : netbuf) : Prop :=
  ∀ j, j ∉ S → pool nb' !! j = pool nb !! j.

(** The owner of a packet [h] made of the mbufs [l] holding [ps], next to a free
    list [F]: the mbufs are distinct and none of them is free. *)
Record owns (nb : netbuf) (F : list nat) (h : option nat) (l : list nat) (ps : list (list Z)) : Prop :=
  Owns { ow_pool : pool_ok nb F; ow_pkt : pkt (pool nb) h l ps; ow_nodup : NoDup (l ++ F) }.

Lemma holds_data b bs :
  holds b bs → ∃ d, m_data b = Some d ∧ Z.of_nat (length d) = MBUF_PAGE_SIZE ∧ Forall is_u8 d.
Proof. intros [d ? ? ? _ _ _ _]. by exists d. Qed.

(** Pushing mbuf [i] on the free list. *)
Lemma pool_ok_push nb F i b :
  pool_ok nb F → i ∉ F → (i < length (pool nb))%nat →
  (∃ d, m_data b = Some d ∧ Z.of_nat (length d) = MBUF_PAGE_SIZE ∧ Forall is_u8 d) →
  m_next b = g_mbuf_free nb →
  pool_ok (Netbuf (<[i := b]> (pool nb)) (Some i)) (i :: F).
Proof.
  intros [Hlen Hfl Hnd] Hi Hlt Hd Hn. split; simpl.
  - by rewrite length_insert.
  - econstructor; [by apply list_lookup_insert_eq|done|]. rewrite Hn. by apply flist_insert.
  - by apply NoDup_cons.
Qed.

(** One round of the loop of [mbuf_free]: the second mbuf of the chain moves to
    the free list. *)
Lemma free_one_seg nb F i b bs seg sb sbs l ps :
  pool_ok nb F → NoDup (i :: seg :: l ++ F) →
  pool nb !! i = Some b → holds b bs → pool nb !! seg = Some sb → holds sb sbs →
  pkt (pool nb) (m_next_seg sb) l ps →
  let nb1 := Netbuf (<[i := set_next_seg (m_next_seg sb) b]> (pool nb)) (g_mbuf_free nb) in
  let nb2 := Netbuf (<[seg := set_refcount 1 sb]> (pool nb1)) (g_mbuf_free nb) in
  let nb3 := Netbuf (<[seg := set_next (g_mbuf_free nb) (set_refcount 1 sb)]> (pool nb2)) (Some seg) in
  pool nb1 !! seg = Some sb ∧ pool nb2 !! seg = Some (set_refcount 1 sb) ∧
  pool_ok nb3 (seg :: F) ∧ pkt (pool nb3) (Some i) (i :: l) (bs :: ps) ∧
  pool nb3 !! i = Some (set_next_seg (m_next_seg sb) b) ∧
  agree_off [i; seg] nb nb3.
Proof.
  intros Hok Hnd Hi Hh Hs Hsh Hrest nb1 nb2 nb3.
  apply NoDup_cons in Hnd as [Hi' Hnd]. apply NoDup_cons in Hnd as [Hs' Hnd].
  assert ((i ≠ seg) ∧ (i ∉ l) ∧ (i ∉ F) ∧ (seg ∉ l) ∧ (seg ∉ F)) as (Hne & Hil & HiF & Hsl & HsF) by set_solver.
  assert (i < length (pool nb))%nat as Hilt by (by eapply lookup_lt_Some).
  assert (seg < length (pool nb))%nat as Hslt by (by eapply lookup_lt_Some).
  assert (pool nb3 !! i = Some (set_next_seg (m_next_seg sb) b)) as Hi3.
  { subst nb3 nb2 nb1. cbn [pool]. rewrite !list_lookup_insert_ne by done. by apply list_lookup_insert_eq. }
  assert (agree_off [i; seg] nb nb3) as Hagree.
  { intros j Hj. subst nb3 nb2 nb1. cbn [pool]. by rewrite !list_lookup_insert_ne by set_solver. }
  split_and!; [..|done|done].
  - cbn. by rewrite list_lookup_insert_ne.
  - cbn. apply list_lookup_insert_eq. by rewrite length_insert.
  - apply (pool_ok_push nb2); [|done|subst nb2 nb1; cbn [pool]; by rewrite !length_insert
      |exact (holds_data sb sbs Hsh)|done].
    split; cbn; [rewrite !length_insert; apply Hok| |apply Hok].
    apply flist_insert; [|done]. apply flist_insert; [apply Hok|done].
  - econstructor; [exact Hi3|by apply (holds_ext b)|].
    apply (pseg_frame (pool nb)); [done|]. intros j Hj. apply Hagree. set_solver.
Qed.

(** Releasing a packet puts all its mbufs on the free list. *)
Lemma wp_mbuf_free nb F i l ps b (Q : unit → netbuf → Prop) :
  owns nb F (Some i) (i :: l) ps → pool nb !! i = Some b → m_refcount b ≤ 1 →
  (∀ nb', pool_ok nb' (i :: rev l ++ F) → agree_off (i :: l) nb nb' → Q tt nb') →
  wp (mbuf_free (Some i)) Q nb.
Proof.
  intros [Hok Hp Hnd] Hi Hrc HQ. unfold mbuf_free, set_free_head. wp_step. eapply wp_deref; [done|].
  decide_cmps. wp_step.
  assert (length l ≤ 256)%nat as Hbound.
  { pose proof (pkt_bound _ _ _ _ _ Hok Hp) as Hb. unfold MBUF_POOL_SIZE in Hb.
    apply NoDup_app in Hnd as [Hnd _]. specialize (Hb Hnd). simpl in Hb. lia. }
  apply (wp_loop_ghost (λ n _ nb', ∃ l1 l2 ps', l = l1 ++ l2 ∧ length l2 = n ∧
    owns nb' (rev l1 ++ F) (Some i) (i :: l2) ps' ∧ agree_off (i :: l1) nb nb') _ _ (length l)).
  - exists [], l, ps. split_and!; [done|done|by split|]. by intros j _.
  - unfold CHAIN_FUEL. lia.
  - intros n _ nb' (l1 & l2 & ps' & -> & <- & [Hok' Hp' Hnd'] & Hag).
    inversion Hp' as [|? bi bs ? ps2 ? Hbi Hh Hrest]; subst.
    wp_step. eapply wp_deref; [done|].
    apply pkt_inv in Hrest as [(-> & -> & ->)|(seg & sb & sbs & l3 & ps3 & Heq & -> & -> & Hsb & Hsh & Hrest)].
    + wp_steps. eapply wp_update; [done|]. wp_steps.
      assert (i < length (pool nb'))%nat as Hlt by (by eapply lookup_lt_Some).
      eapply wp_update; [by apply list_lookup_insert_eq|]. wp_step. cbn [pool g_mbuf_free].
      rewrite app_nil_r in *. apply NoDup_cons in Hnd' as [HiF _].
      apply HQ.
      * assert (pool_ok (Netbuf (<[i := set_refcount 1 bi]> (pool nb')) (g_mbuf_free nb')) (rev l1 ++ F)) as Hmid.
        { split; cbn; [rewrite length_insert; apply Hok'| |apply Hok'].
          apply flist_insert; [apply Hok'|done]. }
        refine (pool_ok_push _ _ i (set_next (g_mbuf_free nb') (set_refcount 1 bi)) Hmid HiF _
                  (holds_data bi bs Hh) eq_refl).
        cbn [pool]. by rewrite length_insert.
      * intros j Hj. cbn [pool]. rewrite !list_lookup_insert_ne by set_solver. by apply Hag.
    + rewrite Heq. wp_step. eapply wp_deref; [done|].
      destruct (free_one_seg nb' (rev l1 ++ F) i bi bs seg sb sbs l3 ps3) as (H1 & H2 & H3 & H4 & H5 & H6);
        try done.
      wp_step. eapply wp_update; [done|]. wp_step. eapply wp_update; [exact H1|]. wp_steps.
      eapply wp_update; [exact H2|]. wp_steps. cbn [pool g_mbuf_free] in *.
      exists (length l3). split; [simpl; lia|]. exists (l1 ++ [seg]), l3, (bs :: ps3).
      split_and!; [by rewrite <-app_assoc|done| |].
      * rewrite rev_unit. split; [done|done|]. simpl in Hnd'.
        eapply NoDup_Permutation_proper; [|exact Hnd']. simpl. f_equiv. by rewrite <-Permutation_middle.
      * intros j Hj. rewrite H6 by set_solver. apply Hag. set_solver.
Qed.

(** ** Appending *)

(** The last mbuf of the chain starts at the beginning of its page and is not
    past [MBUF_DATA_SIZE]: what [mbuf_append] relies on. *)
Definition tail_ok (nb : netbuf) (l : list nat) : Prop :=
  ∀ t b, last l = Some t → pool nb !! t = Some b → m_data_off b = 0 ∧ m_len b ≤ MBUF_DATA_SIZE.

Lemma wp_find_tail nb F hi l ps (Q : nat → netbuf → Prop) :
  owns nb F (Some hi) l ps → (∀ t, last l = Some t → Q t nb) → wp (find_tail hi) Q nb.
Proof.
  intros [Hok Hp Hnd] HQ.
  assert (length l ≤ 256)%nat as Hbound.
  { apply (pkt_bound nb F (Some hi) l ps Hok Hp). by apply NoDup_app in Hnd as [? _]. }
  unfold find_tail.
  apply (wp_loop_ghost (λ n t nb', nb' = nb ∧ ∃ l1 l2 ps2, l = l1 ++ l2 ∧ length l2 = n ∧
           pkt (pool nb) (Some t) l2 ps2) _ _ (length l)).
  - split; [done|]. by exists [], l, ps.
  - unfold CHAIN_FUEL. lia.
  - intros n t nb' (-> & l1 & l2 & ps2 & -> & <- & Hp2).
    inversion Hp2 as [|? b bs l3 ps3 ? Hb Hh Hrest]; subst.
    wp_step. eapply wp_deref; [done|].
    apply pkt_inv in Hrest as [(-> & -> & ->)|(j & bj & bsj & l4 & ps4 & Heq & -> & -> & Hbj & Hhj & Hrest)].
    + wp_step. apply HQ. by rewrite last_snoc.
    + rewrite Heq. wp_step. exists (length (j :: l4)). split; [simpl; lia|]. split; [done|].
      exists (l1 ++ [t]), (j :: l4), (bsj :: ps4). split_and!; [by rewrite <-app_assoc|done|].
      by econstructor.
Qed.

Lemma owns_snoc nb F hi l ps t :
  owns nb F (Some hi) l ps → last l = Some t →
  ∃ l0 ps0 b pt, l = l0 ++ [t] ∧ ps = ps0 ++ [pt] ∧ pool nb !! t = Some b ∧ holds b pt ∧
                 m_next_seg b = None ∧ pseg (pool nb) (Some hi) l0 ps0 (Some t) ∧ (t ∉ l0) ∧ (t ∉ F).
Proof.
  intros [Hok Hp Hnd] Hlast. apply last_Some in Hlast as [l0 ->].
  pose proof (pseg_length _ _ _ _ _ Hp) as Hlen.
  destruct ps as [|pt ps0 _] using rev_ind; [rewrite length_app in Hlen; simpl in Hlen; lia|].
  destruct (pseg_snoc_inv _ _ _ _ _ _ _ Hp) as (b & Hs & Hb & Hh & Hn).
  rewrite <-app_assoc in Hnd. apply NoDup_app in Hnd as (_ & Hdisj & Hnd).
  simpl in Hnd. apply NoDup_cons in Hnd as [HtF _].
  exists l0, ps0, b, pt. split_and!; try done. intros Ht. apply (Hdisj t Ht). by left.
Qed.

(** The page of a segment with [bs] written after its [n] bytes. *)
Lemma holds_append b pt bs d :
  holds b pt → m_data b = Some d → m_data_off b = 0 → Forall is_u8 bs →
  m_len b + Z.of_nat (length bs) ≤ MBUF_PAGE_SIZE →
  let d' := take (Z.to_nat (m_len b)) d ++ bs ++ drop (Z.to_nat (m_len b) + length bs) d in
  holds (set_span 0 (m_len b + Z.of_nat (length bs)) (set_data d' b)) (pt ++ bs).
Proof.
  intros [d0 Hd0 Hs Hu Ho Hl Hf ->] Hd Hoff Hbs Hle d'. rewrite Hd in Hd0. injection Hd0 as <-.
  unfold MBUF_PAGE_SIZE in *. rewrite Hoff in *. simpl. change (Z.to_nat 0) with 0%nat. rewrite drop_0.
  apply (Holds _ _ d'); simpl; try done; try lia.
  - subst d'. rewrite !length_app, length_take, length_drop. unfold MBUF_PAGE_SIZE. lia.
  - subst d'. apply Forall_app; split; [by apply Forall_take|].
    apply Forall_app; split; [done|by apply Forall_drop].
  - rewrite drop_0. subst d'. rewrite app_assoc, take_app_length'; [done|].
    rewrite length_app, length_take. lia.
Qed.

(** Updating the last mbuf in place. *)
Lemma owns_update_tail nb F hi l0 ps0 t b b' pt pt' :
  owns nb F (Some hi) (l0 ++ [t]) (ps0 ++ [pt]) → pool nb !! t = Some b →
  holds b' pt' → m_next_seg b' = None →
  owns (Netbuf (<[t := b']> (pool nb)) (g_mbuf_free nb)) F (Some hi) (l0 ++ [t]) (ps0 ++ [pt']).
Proof.
  intros Hown Hb Hh Hn. pose proof Hown as [Hok Hp Hnd].
  destruct (owns_snoc _ _ _ _ _ t Hown) as (l1 & ps1 & b1 & pt1 & Heq1 & Heq2 & _ & _ & _ & Hs & Htl & HtF);
    [by rewrite last_snoc|].
  apply app_inj_tail in Heq1 as [<- _], Heq2 as [<- _].
  assert (t < length (pool nb))%nat as Hlt by (by eapply lookup_lt_Some).
  split; [|cbn|done].
  - split; cbn; [rewrite length_insert; apply Hok| |apply Hok]. apply flist_insert; [apply Hok|done].
  - eapply pseg_app; [by apply pseg_insert|].
    econstructor; [by apply list_lookup_insert_eq|done|]. rewrite Hn. constructor.
Qed.

(** Copying [bs] behind the bytes of the last mbuf. *)
Lemma wp_write_tail nb F hi l0 ps0 t b pt bs n (Q : unit → netbuf → Prop) :
  owns nb F (Some hi) (l0 ++ [t]) (ps0 ++ [pt]) → pool nb !! t = Some b →
  m_data_off b = 0 → Forall is_u8 bs → n = Z.of_nat (length bs) → m_len b + n ≤ MBUF_DATA_SIZE →
  (∀ nb', owns nb' F (Some hi) (l0 ++ [t]) (ps0 ++ [pt ++ bs]) → tail_ok nb' (l0 ++ [t]) → Q tt nb') →
  wp (write_data t (m_len b) bs;; update t (λ b, set_span (m_data_off b) (u64 (m_len b + n)) b)) Q nb.
Proof.
  intros Hown Hb Hoff Hbs -> Hle HQ. pose proof Hown as [Hok Hp Hnd].
  destruct (owns_snoc _ _ _ _ _ t Hown) as (l1 & ps1 & b1 & pt1 & Heq1 & Heq2 & Hb1 & Hh & Hn & _);
    [by rewrite last_snoc|].
  apply app_inj_tail in Heq1 as [<- _], Heq2 as [<- <-]. rewrite Hb in Hb1. injection Hb1 as <-.
  assert (t < length (pool nb))%nat as Hlt by (by eapply lookup_lt_Some).
  pose proof Hh as [d Hd Hs Hu _ Hl Hf _]. unfold MBUF_DATA_SIZE, MBUF_PAGE_SIZE in *.
  wp_step. eapply wp_write_data; [done|done|lia|lia|].
  eapply wp_update; [by apply list_lookup_insert_eq|]. cbn [pool g_mbuf_free m_data_off m_len set_data].
  rewrite list_insert_insert_eq, Hoff, u64_small by (unfold is_u64; lia).
  apply HQ.
  - eapply owns_update_tail; [done|done| |done]. apply holds_append; try done. unfold MBUF_PAGE_SIZE. lia.
  - intros t' b' Hlast Hb'. rewrite last_snoc in Hlast. injection Hlast as <-. cbn [pool] in Hb'.
    rewrite list_lookup_insert_eq in Hb' by done. injection Hb' as <-. simpl. unfold MBUF_DATA_SIZE. lia.
Qed.

(** The first step of a round: the head, allocated when the packet is empty. *)
Lemma wp_ensure_head nb F h l ps (Q : option nat → netbuf → Prop) :
  owns nb F h l ps → tail_ok nb l →
  (h = None → F = [] → Q None nb) →
  (∀ hi nb' F' l' ps', owns nb' F' (Some hi) l' ps' → tail_ok nb' l' → concat ps' = concat ps →
     l' ++ F' ≡ₚ l ++ F →
     (F' = F ∨ length F = S (length F') ∧
        ∀ t b, last l' = Some t → pool nb' !! t = Some b → m_len b = 0) →
     Q (Some hi) nb') →
  wp (match h with Some i => mret (Some i) | None => mbuf_alloc0 end) Q nb.
Proof.
  intros Hown Htl Hnone Hsome. destruct h as [hi|]; [by wp_step; eapply Hsome; try done; left|].
  destruct Hown as [Hok Hp Hnd].
  apply pkt_inv in Hp as [(_ & -> & ->)|(? & ? & ? & ? & ? & [=] & _)].
  apply (wp_mbuf_alloc0 nb F); [done|auto|]. intros i F' nb' b' -> Hok' Hp' Hb' Ho Hl _ _.
  apply (Hsome i nb' F' [i] [[]]); [by split| |done|done|right; split; [done|]];
    intros t b Ht Hb; simpl in Ht; simplify_eq; rewrite ?Ho, ?Hl; unfold MBUF_DATA_SIZE; lia.
Qed.

(** Linking a fresh mbuf behind the last one. *)
Lemma owns_link nb F hi l0 ps0 t b i F' nb1 b1 pn :
  owns nb F (Some hi) (l0 ++ [t]) ps0 → F = i :: F' → pool nb !! t = Some b →
  pool_ok nb1 F' → pkt (pool nb1) (Some i) [i] [pn] → pool nb1 !! i = Some b1 →
  (∀ j, j ≠ i → pool nb1 !! j = pool nb !! j) →
  owns (Netbuf (<[t := set_next_seg (Some i) b]> (pool nb1)) (g_mbuf_free nb1)) F'
    (Some hi) ((l0 ++ [t]) ++ [i]) (ps0 ++ [pn]).
Proof.
  intros Hown -> Hb Hok1 Hp1 Hb1 Hag. pose proof Hown as [Hok Hp Hnd].
  destruct (owns_snoc _ _ _ _ _ t Hown) as (l1 & ps1 & b2 & pt & Heq1 & -> & Hb2 & Hh & Hn & Hs & Htl & HtF);
    [by rewrite last_snoc|].
  apply app_inj_tail in Heq1 as [<- _]. rewrite Hb in Hb2. injection Hb2 as <-.
  assert ((t ≠ i) ∧ (t ∉ F') ∧ (i ∉ l0)) as (Hti & HtF' & Hil).
  { apply NoDup_app in Hnd as (_ & Hd & _). split_and!; [set_solver..|].
    intros Hi. apply (Hd i); set_solver. }
  assert (t < length (pool nb1))%nat as Hlt.
  { rewrite (po_len _ _ Hok1), <-(po_len _ _ Hok). by eapply lookup_lt_Some. }
  split.
  - split; cbn; [rewrite length_insert; apply Hok1| |apply Hok1]. apply flist_insert; [apply Hok1|done].
  - cbn. eapply pseg_app; [eapply pseg_app|].
    + apply (pseg_frame (pool nb)); [exact Hs|]. intros j Hj.
      rewrite list_lookup_insert_ne by set_solver. apply Hag. set_solver.
    + econstructor; [by apply list_lookup_insert_eq|by apply (holds_ext b)|]. simpl. constructor.
    + apply pseg_insert; [exact Hp1|set_solver].
  - by rewrite <-app_assoc.
Qed.

(** The second step: the mbuf to write into, a fresh one when the last is full. *)
Lemma wp_ensure_room nb F hi l0 ps0 t b pt (Q : option (nat * Z) → netbuf → Prop) :
  owns nb F (Some hi) (l0 ++ [t]) (ps0 ++ [pt]) → pool nb !! t = Some b →
  m_data_off b = 0 → 0 ≤ m_len b ≤ MBUF_DATA_SIZE →
  (∀ nb', owns nb' F (Some hi) (l0 ++ [t]) (ps0 ++ [pt]) → F = [] → m_len b = MBUF_DATA_SIZE → Q None nb') →
  (∀ nb' F' l0' ps0' ti pt' b', owns nb' F' (Some hi) (l0' ++ [ti]) (ps0' ++ [pt']) →
     concat (ps0' ++ [pt']) = concat (ps0 ++ [pt]) → (l0' ++ [ti]) ++ F' ≡ₚ (l0 ++ [t]) ++ F →
     pool nb' !! ti = Some b' → m_data_off b' = 0 → 0 < MBUF_DATA_SIZE - m_len b' →
     (F' = F ∧ m_len b' = m_len b ∨ m_len b = MBUF_DATA_SIZE ∧ length F = S (length F') ∧ m_len b' = 0) →
     Q (Some (ti, MBUF_DATA_SIZE - m_len b')) nb') →
  wp (if u64 (MBUF_DATA_SIZE - m_len b) =? 0 then
        n ← mbuf_alloc0;
        update t (set_next_seg n);;
        mret (match n with Some ni => Some (ni, MBUF_DATA_SIZE) | None => None end)
      else mret (Some (t, u64 (MBUF_DATA_SIZE - m_len b)))) Q nb.
Proof.
  intros Hown Hb Hoff Hlen Hnone Hsome. unfold MBUF_DATA_SIZE in *.
  rewrite u64_small by (unfold is_u64; lia).
  destruct (Z.eqb_spec (2048 - m_len b) 0) as [Hz|Hz].
  2:{ wp_step. eapply Hsome; try done; [lia|by left]. }
  wp_step. apply (wp_mbuf_alloc0 nb F); [apply Hown|..].
  - intros ->. wp_step. eapply wp_update; [done|]. wp_step. apply Hnone; [|done|lia].
    destruct (owns_snoc _ _ _ _ _ t Hown) as (l1 & ps1 & b2 & pt2 & _ & Heq2 & Hb2 & Hh & _);
      [by rewrite last_snoc|].
    apply app_inj_tail in Heq2 as [<- <-]. rewrite Hb in Hb2. injection Hb2 as <-.
    by eapply owns_update_tail; [done|done|apply (holds_ext b)|].
  - intros i F' nb1 b1 HF Hok1 Hp1 Hb1 Ho1 Hl1 _ Hag. wp_step.
    assert (t ≠ i) as Hti.
    { destruct (owns_snoc _ _ _ _ _ t Hown) as (? & ? & ? & ? & _ & _ & _ & _ & _ & _ & _ & HtF);
        [by rewrite last_snoc|]. set_solver. }
    eapply wp_update; [rewrite Hag by done; exact Hb|]. wp_step.
    pose proof (owns_link _ _ _ _ _ _ _ _ _ _ _ _ Hown HF Hb Hok1 Hp1 Hb1 Hag) as Hown'.
    replace 2048 with (2048 - m_len b1) by lia. eapply Hsome; [exact Hown'|..|done|lia|].
    + by rewrite concat_app, app_nil_r.
    + subst F. by rewrite <-app_assoc.
    + cbn [pool]. by rewrite list_lookup_insert_ne.
    + right. subst F. split; [lia|by split].
Qed.

(** [mbuf_append]: the packet grows by [src]; on exhaustion by a proper prefix
    of it, and then the pool is empty and every mbuf it had has been filled. *)
Lemma wp_append nb F h l ps src (Q : Z * option nat → netbuf → Prop) :
  owns nb F h l ps → tail_ok nb l → Forall is_u8 src →
  (∀ rc nb' F' h' l' ps' pre, owns nb' F' h' l' ps' → l' ++ F' ≡ₚ l ++ F →
     concat ps' = concat ps ++ pre →
     (rc = 0 ∧ pre = src ∨ rc = -1 ∧ F' = [] ∧ MBUF_DATA_SIZE * Z.of_nat (length F) ≤ Z.of_nat (length pre) ∧
        ∃ rest, src = pre ++ rest ∧ rest ≠ []) →
     Q (rc, h') nb') →
  wp (mbuf_append h src) Q nb.
Proof.
  intros Hown Htl Hu HQ. unfold mbuf_append.
  apply (wp_loop_ghost (λ n '(h', rest) nb', length rest = n ∧ ∃ pre F' l' ps', src = pre ++ rest ∧
    owns nb' F' h' l' ps' ∧ tail_ok nb' l' ∧ l' ++ F' ≡ₚ l ++ F ∧ concat ps' = concat ps ++ pre ∧
    (rest = [] ∨ MBUF_DATA_SIZE * Z.of_nat (length F) ≤
                 MBUF_DATA_SIZE * Z.of_nat (length F') + Z.of_nat (length pre))) _ _ (length src)).
  - split; [done|]. exists [], F, l, ps. rewrite app_nil_r. split_and!; try done. right. simpl. lia.
  - lia.
  - intros n [h1 rest] nb1 (<- & pre & F1 & l1 & ps1 & Hsrc & Hown1 & Htl1 & Hperm1 & Hc1 & Hcap).
    destruct rest as [|x rest]; [wp_step; eapply HQ; [done..|]; left; by rewrite app_nil_r in Hsrc|].
    assert (Forall is_u8 (x :: rest)) as Hur by (rewrite Hsrc in Hu; by apply Forall_app in Hu as [_ ?]).
    wp_step. apply (wp_ensure_head nb1 F1 h1 l1 ps1); [done|done|..].
    { intros -> ->. wp_step. eapply HQ; [done..|]. right. destruct Hcap as [|Hcap]; [done|]. simpl in Hcap.
      split_and!; [done..|lia|]. by exists (x :: rest). }
    intros hi nb2 F2 l2 ps2 Hown2 Htl2 Hc2 Hperm2 HF2. rewrite <-Hc2 in Hc1. rewrite <-Hperm2 in Hperm1.
    clear nb1 l1 ps1 Hown1 Htl1 Hc2 Hperm2 h1. wp_step.
    eapply wp_find_tail; [exact Hown2|]. intros t Hlast.
    destruct (owns_snoc _ _ _ _ _ t Hown2 Hlast) as (l0 & ps0 & b & pt & -> & -> & Hb & Hh & _).
    destruct (Htl2 t b Hlast Hb) as [Hoff Hlen].
    wp_step. eapply wp_deref; [done|]. wp_step.
    eapply (wp_ensure_room nb2 F2 hi l0 ps0 t b pt); [done|done|done|destruct Hh; lia|..].
    { intros nb3 Hown3 -> Hfull. wp_step. eapply HQ; [done..|]. right. destruct Hcap as [|Hcap]; [done|].
      split_and!; [done..| |by exists (x :: rest)].
      destruct HF2 as [<-|[_ Hz]]; [simpl in Hcap; lia|]. specialize (Hz t b Hlast Hb). unfold MBUF_DATA_SIZE in *. lia. }
    intros nb3 F3 l3 ps3 ti pt3 b3 Hown3 Hc3 Hperm3 Hb3 Hoff3 Hroom HF3.
    wp_step. eapply wp_deref; [done|]. rewrite <-Hc3 in Hc1. rewrite <-Hperm3 in Hperm1.
    match goal with |- context [if ?c then _ else _] => set (n := if c then _ else _) end.
    set (len := Z.of_nat (length (x :: rest))) in *.
    assert (n = Z.min len (MBUF_DATA_SIZE - m_len b3)) as Hn by (subst n; destruct (Z.ltb_spec len (MBUF_DATA_SIZE - m_len b3)); lia).
    assert (0 < n ≤ len) as Hn1 by (subst len; simpl length in *; lia). clearbody n.
    assert (length (take (Z.to_nat n) (x :: rest)) = Z.to_nat n) as Htk by (rewrite length_take; lia).
    apply wp_assoc. wp_step.
    eapply wp_write_tail; [exact Hown3|done|done|by apply Forall_take|lia|lia|].
    intros nb4 Hown4 Htl4. wp_step. exists (length (drop (Z.to_nat n) (x :: rest))).
    split; [rewrite length_drop; lia|]. split; [done|].
    exists (pre ++ take (Z.to_nat n) (x :: rest)), F3, (l3 ++ [ti]), (ps3 ++ [pt3 ++ take (Z.to_nat n) (x :: rest)]).
    split_and!; [by rewrite <-app_assoc, take_drop|done|done|done| |].
    2:{ destruct Hcap as [|Hcap]; [done|]. rewrite length_app, Htk.
        destruct (decide (n = len)) as [->|Hne]; [left; apply drop_ge; lia|right].
        destruct HF2 as [<-|[HF2 Hz]], HF3 as [[-> Hsame]|(Hfull & HF3 & Hz3)];
          try specialize (Hz t b Hlast Hb); unfold MBUF_DATA_SIZE in *; lia. }
    rewrite !concat_app in *. simpl in *. rewrite !app_nil_r in *. by rewrite !app_assoc, Hc1.
Qed.

(** ** Cloning *)

(** One fragment copied into the fresh mbuf [c]: the first [MBUF_DATA_SIZE]
    bytes of the page, so the span must lie below that. *)
Lemma wp_copy_mbuf nb F c m cb pc mb bs (Q : unit → netbuf → Prop) :
  pool_ok nb F → (c ∉ F) → c ≠ m → pool nb !! c = Some cb → holds cb pc →
  pool nb !! m = Some mb → holds mb bs → m_data_off mb + m_len mb ≤ MBUF_DATA_SIZE →
  (∀ nb' cb', pool_ok nb' F → pool nb' !! c = Some cb' → holds cb' bs → m_next_seg cb' = None →
     m_refcount cb' = 1 → (∀ j, j ≠ c → pool nb' !! j = pool nb !! j) → Q tt nb') →
  wp (copy_mbuf c m) Q nb.
Proof.
  intros Hok HcF Hne Hc Hch Hm Hmh Hspan HQ. unfold copy_mbuf.
  assert (c < length (pool nb))%nat as Hlt by (by eapply lookup_lt_Some).
  destruct (holds_data _ _ Hch) as (dc & Hdc & Hsc & Huc).
  pose proof Hmh as [d Hd Hs Hu Ho Hl Hf Hbs]. unfold MBUF_DATA_SIZE, MBUF_PAGE_SIZE in *.
  wp_step. eapply wp_read_data; [done|done|lia|lia|lia|]. change (Z.to_nat 0) with 0%nat. rewrite drop_0.
  assert (length (take (Z.to_nat 2048) d) = 2048%nat) as Htk by (rewrite length_take; lia).
  wp_step. eapply wp_write_data; [done|done|lia|rewrite length_take; lia|]. wp_step.
  eapply wp_deref; [cbn [pool]; by rewrite list_lookup_insert_ne|].
  eapply wp_update; [cbn [pool]; by apply list_lookup_insert_eq|]. cbn [pool g_mbuf_free].
  rewrite list_insert_insert_eq.
  eapply HQ; cbn [pool]; [|by apply list_lookup_insert_eq| |done|done|].
  - split; cbn; [rewrite length_insert; apply Hok| |apply Hok]. apply flist_insert; [apply Hok|done].
  - rewrite Htk. change (Z.to_nat 0) with 0%nat. rewrite take_0, app_nil_l, Nat.add_0_l.
    eapply Holds; [done|..]; cbn [m_data_off m_len set_next_seg set_refcount set_span set_data]; try done; try lia.
    + rewrite length_app, length_drop. unfold MBUF_PAGE_SIZE. lia.
    + apply Forall_app; split; [by apply Forall_take|by apply Forall_drop].
    + rewrite Hbs, drop_app_le by lia. rewrite take_app_le by (rewrite length_drop; lia).
      rewrite skipn_firstn_comm, take_take. f_equal. lia.
  - intros j Hj. by rewrite list_lookup_insert_ne.
Qed.

(** A fresh mbuf holding a copy of fragment [m]. *)
Lemma wp_alloc_copy nb F m mb bs (R : Type)
    (k : nat → M netbuf R) (z : M netbuf R) (Q : R → netbuf → Prop) :
  pool_ok nb F → (m ∉ F) → pool nb !! m = Some mb → holds mb bs →
  m_data_off mb + m_len mb ≤ MBUF_DATA_SIZE →
  (F = [] → wp z Q nb) →
  (∀ c F' nb' cb', F = c :: F' → pool_ok nb' F' → pkt (pool nb') (Some c) [c] [bs] →
     pool nb' !! c = Some cb' → m_refcount cb' = 1 → (∀ j, j ≠ c → pool nb' !! j = pool nb !! j) →
     wp (k c) Q nb') →
  wp (c ← mbuf_alloc; match c with None => z | Some ci => copy_mbuf ci m;; k ci end) Q nb.
Proof.
  intros Hok HmF Hm Hh Hspan Hnone Hsome. wp_step.
  apply (wp_mbuf_alloc nb F); [done|auto|]. intros i F' b -> Hi Hok' Hp. wp_step.
  assert (i ≠ m) as Hne by set_solver.
  inversion Hp as [|? b0 ? ? ? ? Hb0 Hh0 _]; subst.
  assert (i ∉ F') as HiF by (pose proof (po_nodup _ _ Hok) as Hnd; by apply NoDup_cons in Hnd as [? _]).
  eapply (wp_copy_mbuf _ F' i m); [exact Hok'|done|done|exact Hb0|exact Hh0| |exact Hh|done|].
  { cbn [pool]. by rewrite list_lookup_insert_ne. }
  intros nb' cb' Hok'' Hc Hhc Hnc Hrc Hag. eapply Hsome; [done|done| |done|done|].
  - econstructor; [done|done|]. rewrite Hnc. constructor.
  - intros j Hj. rewrite Hag by done. cbn [pool]. by rewrite list_lookup_insert_ne.
Qed.

(** One more fragment linked to the copy; the head keeps its reference count. *)
Lemma owns_link_refcount nb F hi l0 ps0 t b i F' nb1 b1 pn hb :
  owns nb F (Some hi) (l0 ++ [t]) ps0 → F = i :: F' → pool nb !! t = Some b →
  pool_ok nb1 F' → pkt (pool nb1) (Some i) [i] [pn] → pool nb1 !! i = Some b1 →
  (∀ j, j ≠ i → pool nb1 !! j = pool nb !! j) →
  pool nb !! hi = Some hb → m_refcount hb = 1 →
  ∃ hb', <[t := set_next_seg (Some i) b]> (pool nb1) !! hi = Some hb' ∧ m_refcount hb' = 1.
Proof.
  intros Hown -> Hb Hok1 _ _ Hag Hhb Hrc. pose proof Hown as [Hok Hp Hnd].
  assert (hi ∈ l0 ++ [t]) as Hin.
  { apply pkt_inv in Hp as [(_ & Heq & _)|(? & ? & ? & ? & ? & [= <-] & -> & _)]; [by destruct l0|by left]. }
  destruct (decide (hi = t)) as [->|Hne].
  - exists (set_next_seg (Some i) b). rewrite Hhb in Hb. injection Hb as <-. split; [|done].
    apply list_lookup_insert_eq. rewrite (po_len _ _ Hok1), <-(po_len _ _ Hok). by eapply lookup_lt_Some.
  - exists hb. rewrite list_lookup_insert_ne by done. rewrite Hag; [done|].
    intros ->. apply NoDup_app in Hnd as (_ & Hd & _). apply (Hd i Hin). by left.
Qed.

(** [mbuf_clone]: a packet with the same fragments, made of mbufs that were
    free; when the pool runs out everything taken so far is given back. *)
Lemma wp_clone nb F i l ps (Q : option nat → netbuf → Prop) :
  owns nb F (Some i) l ps →
  (∀ j b, j ∈ l → pool nb !! j = Some b → m_data_off b + m_len b ≤ MBUF_DATA_SIZE) →
  (∀ nb' c cl F', owns nb' F' (Some c) cl ps → F = cl ++ F' → agree_off F nb nb' →
     (∃ cb, pool nb' !! c = Some cb ∧ m_refcount cb = 1) → Q (Some c) nb') →
  (∀ nb' F', pool_ok nb' F' → F' ≡ₚ F → (length F < length l)%nat → agree_off F nb nb' → Q None nb') →
  wp (mbuf_clone (Some i)) Q nb.
Proof.
  intros Hown Hspan Hsome Hnone. pose proof Hown as [Hok Hp Hnd].
  assert (∀ j, j ∈ l → j ∉ F) as Hdisj by (apply NoDup_app in Hnd as (_ & Hd & _); exact Hd).
  assert (length l ≤ 256)%nat as Hbound.
  { apply (pkt_bound nb F (Some i) l ps Hok Hp). by apply NoDup_app in Hnd as [? _]. }
  inversion Hp as [|? b bs l2 ps2 ? Hb Hh Hrest]; subst. unfold mbuf_clone.
  apply (wp_alloc_copy nb F i b bs); [done|apply Hdisj; by left|done|done|eapply Hspan; [by left|done]|..].
  { intros ->. wp_step. apply (Hnone nb []); [done|done|simpl; lia|]. by intros j _. }
  intros c F1 nb1 cb HF Hok1 Hpc Hcb Hrc Hag1.
  assert (i ≠ c) as Hic by (specialize (Hdisj i); set_solver).
  wp_step. eapply wp_deref; [rewrite Hag1 by done; exact Hb|].
  apply (wp_loop_ghost (λ n '(dst, seg) nb', ∃ la lb psa psb cl F' cb',
    i :: l2 = la ++ lb ∧ bs :: ps2 = psa ++ psb ∧ length lb = n ∧ length la = S (length cl) ∧ pkt (pool nb) seg lb psb ∧
    owns nb' F' (Some c) (cl ++ [dst]) psa ∧ F = (cl ++ [dst]) ++ F' ∧ agree_off F nb nb' ∧
    pool nb' !! c = Some cb' ∧ m_refcount cb' = 1) _ _ (length l2)).
  - exists [i], l2, [bs], ps2, [], F1, cb. split_and!; try done.
    + split; [done|done|]. rewrite HF in Hok. apply Hok.
    + intros j Hj. apply Hag1. set_solver.
  - unfold CHAIN_FUEL. simpl in Hbound. lia.
  - intros n [dst seg] nb' (la & lb & psa & psb & cl & F' & cb' & Hl & Hps & <- & Hlen & Hseg & Hown' & HF' & Hag & Hcb' & Hrc').
    apply pkt_inv in Hseg as [(-> & -> & ->)|(si & sb & sbs & l3 & ps3 & -> & -> & -> & Hsb & Hsh & Hsrest)].
    { wp_step. rewrite app_nil_r in *. subst psa. eapply Hsome; [done|done|done|by exists cb']. }
    assert (si ∈ i :: l2) as Hsi by (rewrite Hl; set_solver).
    assert (si ∉ F') as HsF by (intros Hin; apply (Hdisj si Hsi); rewrite HF'; apply elem_of_app; by right).
    assert (si ≠ dst) as Hsd2.
    { intros ->. apply (Hdisj dst Hsi). rewrite HF'. apply elem_of_app; left. apply elem_of_app; right. by left. }
    eapply (wp_alloc_copy nb' F' si sb sbs); [apply Hown'|exact HsF| |exact Hsh|exact (Hspan si sb Hsi Hsb)|..].
    { rewrite Hag by auto. done. }
    { intros ->. wp_step. pose proof Hown' as [Hok' Hp' Hnd'].
      apply pkt_inv in Hp' as [(? & Heq & _)|(? & ? & ? & l4 & ? & [= <-] & Heq & _)]; [by destruct cl|].
      rewrite Heq in *. eapply wp_mbuf_free; [exact Hown'|exact Hcb'|lia|].
      intros nb2 Hok2 Hag2. wp_step. rewrite HF' in *. rewrite app_nil_r in *.
      apply (Hnone nb2 (c :: rev l4)); [done| | |].
      - by rewrite <-(Permutation_rev l4).
      - rewrite Hl, length_app, <-Heq, length_app. simpl. lia.
      - intros j Hj. rewrite Hag2 by done. by apply Hag. }
    intros di F2 nb2 db HF2 Hok2 Hp2 Hdb Hrc2 Hag2.
    pose proof Hown' as [Hok' Hp' Hnd'].
    destruct (owns_snoc _ _ _ _ _ dst Hown') as (l4 & ps4 & bd & pd & _ & -> & Hbd & _ & _ & _ & _ & HdF);
      [by rewrite last_snoc|].
    assert (dst ≠ di) as Hdd by (intros ->; apply HdF; rewrite HF2; by left).
    pose proof (owns_link _ _ _ _ _ _ _ _ _ _ _ _ Hown' HF2 Hbd Hok2 Hp2 Hdb Hag2) as Hlink.
    destruct (owns_link_refcount _ _ _ _ _ _ _ _ _ _ _ _ _ Hown' HF2 Hbd Hok2 Hp2 Hdb Hag2 Hcb' Hrc') as (cb2 & Hcb2 & Hrcb2).
    wp_step. eapply wp_update; [rewrite Hag2 by done; exact Hbd|]. wp_step.
    assert (si ≠ di) as Hsd by (intros ->; apply HsF; rewrite HF2; by left).
    eapply wp_deref.
    { cbn [pool]. rewrite list_lookup_insert_ne, Hag2, Hag by auto. exact Hsb. }
    wp_step. exists (length l3). split; [simpl; lia|].
    exists (la ++ [si]), l3, ((ps4 ++ [pd]) ++ [sbs]), ps3, (cl ++ [dst]), F2, cb2.
    split_and!; [by rewrite <-app_assoc|by rewrite Hps, <-!app_assoc|done| |done|done| | |done|done].
    + rewrite !length_app. simpl. lia.
    + by rewrite HF', HF2, <-!app_assoc.
    + intros j Hj. cbn [pool]. rewrite HF', HF2 in Hj. rewrite list_lookup_insert_ne by set_solver.
      rewrite Hag2 by set_solver. apply Hag. rewrite HF', HF2. done.
Qed.

(** ** The pool after [mbuf_init] *)

Definition page_ok (d : list Z) : Prop := Z.of_nat (length d) = MBUF_PAGE_SIZE ∧ Forall is_u8 d.

Lemma wp_mbuf_init page nb (Q : unit → netbuf → Prop) :
  (∀ i, (i < MBUF_POOL_SIZE)%nat → ∃ ph d, page i = Some (ph, Some d) ∧ page_ok d) →
  (∀ nb', pool_ok nb' (seq 0 MBUF_POOL_SIZE) → Q tt nb') → wp (mbuf_init page) Q nb.
Proof.
  intros Hpage HQ. unfold mbuf_init. wp_steps.
  apply (wp_for_up (λ k nb', length (pool nb') = MBUF_POOL_SIZE ∧
    flist (pool nb') (g_mbuf_free nb') (seq (MBUF_POOL_SIZE - Z.to_nat k) (Z.to_nat k)))).
  - split; [apply length_replicate|]. constructor.
  - intros k nb' Hk [Hlen Hfl]. set (i := (MBUF_POOL_SIZE - 1 - Z.to_nat k)%nat).
    assert (i < MBUF_POOL_SIZE)%nat as Hi by (unfold MBUF_POOL_SIZE in *; lia).
    destruct (Hpage i Hi) as (ph & d & -> & Hd). wp_steps.
    destruct (lookup_lt_is_Some_2 (pool nb') i ltac:(lia)) as [b Hb].
    eapply wp_update; [done|]. unfold set_free_head. wp_steps. cbn [pool g_mbuf_free].
    rewrite length_insert. split; [done|].
    replace (seq _ _) with (i :: seq (MBUF_POOL_SIZE - Z.to_nat k) (Z.to_nat k)).
    + econstructor; [apply list_lookup_insert_eq; lia|by exists d|]. simpl.
      apply flist_insert; [done|]. intros Hin%elem_of_seq. unfold MBUF_POOL_SIZE in *. lia.
    + replace (Z.to_nat (k + 1)) with (S (Z.to_nat k)) by lia. cbn [seq]. subst i.
      unfold MBUF_POOL_SIZE in *. replace (256 - Z.to_nat k)%nat with (S (256 - S (Z.to_nat k))) by lia.
      done.
  - intros nb' [Hlen Hfl]. apply HQ. split; [done| |apply NoDup_seq].
    replace (Z.to_nat (0 + Z.of_nat MBUF_POOL_SIZE)) with MBUF_POOL_SIZE in Hfl by lia.
    by rewrite Nat.sub_diag in Hfl.
Qed.

(** ** Theorems *)

(** When every mbuf gets its page, [mbuf_init] leaves a pool whose free list
    holds all [MBUF_POOL_SIZE] mbufs, each once, in index order. *)
Theorem mbuf_init_all_free page nb :
  (∀ i, (i < MBUF_POOL_SIZE)%nat → ∃ ph d, page i = Some (ph, Some d) ∧ page_ok d) →
  ∃ nb', mbuf_init page nb = Ok (tt, nb') ∧ pool_ok nb' (seq 0 MBUF_POOL_SIZE).
Proof.
  intros Hp.
  enough (wp (mbuf_init page) (λ _ nb', pool_ok nb' (seq 0 MBUF_POOL_SIZE)) nb) as Hwp.
  { apply wp_ok in Hwp as ([] & nb' & ? & ?). by exists nb'. }
  by apply wp_mbuf_init.
Qed.

(** C24: [mbuf_append] followed by [mbuf_total_len] and [mbuf_copyout]: on success
    the packet has grown by exactly the bytes appended and reading them back
    from the old end gives them unchanged; it fails only when more bytes are
    appended than the free mbufs can hold, and then the bytes already in the
    packet are intact and no mbuf is lost.  This holds for packets whose last
    mbuf has [data_off] 0 ([tail_ok]), as all that [mbuf_append] itself allocates
    have: the code writes at [data + len] and not at [data + data_off + len], so
    that for any other tail the bytes are misplaced ([append_misplaced]). *)
Theorem mbuf_append_copyout nb F h l ps src :
  owns nb F h l ps → tail_ok nb l → Forall is_u8 src →
  let old := concat ps in
  ∃ rc h' nb' F' l' ps', mbuf_append h src nb = Ok ((rc, h'), nb') ∧
    owns nb' F' h' l' ps' ∧ l' ++ F' ≡ₚ l ++ F ∧
    mbuf_copyout (Z.of_nat (length old)) h' 0 nb' = Ok (old, nb') ∧
    (rc = 0 ∧ mbuf_total_len h' nb' = Ok (Z.of_nat (length old + length src), nb') ∧
       mbuf_copyout (Z.of_nat (length src)) h' (Z.of_nat (length old)) nb' = Ok (src, nb') ∨
     rc = -1 ∧ MBUF_DATA_SIZE * Z.of_nat (length F) < Z.of_nat (length src)).
Proof.
  intros Hown Htl Hu old.
  enough (wp (mbuf_append h src) (λ '(rc, h') nb', ∃ F' l' ps' pre, owns nb' F' h' l' ps' ∧
            l' ++ F' ≡ₚ l ++ F ∧ concat ps' = old ++ pre ∧
            (rc = 0 ∧ pre = src ∨ rc = -1 ∧ F' = [] ∧
               MBUF_DATA_SIZE * Z.of_nat (length F) ≤ Z.of_nat (length pre) ∧
               ∃ rest, src = pre ++ rest ∧ rest ≠ [])) nb) as Hwp.
  2:{ apply (wp_append nb F h l ps src); [done..|].
      intros rc nb' F' h' l' ps' pre Ho Hperm Hc Hrc. by exists F', l', ps', pre. }
  apply wp_ok in Hwp as ([rc h'] & nb' & Hrun & F' & l' & ps' & pre & Ho & Hperm & Hc & Hrc).
  exists rc, h', nb', F', l', ps'. pose proof Ho as [Hok' Hp' Hnd'].
  assert (NoDup l') as Hnd by (by apply NoDup_app in Hnd' as [? _]).
  split_and!; [done|done|done| |].
  - apply wp_exact, (wp_copyout nb' F' h' l' ps'); [done..|lia|lia|]. split; [|done].
    rewrite Hc. by rewrite Nat2Z.id, drop_0, take_app_length.
  - destruct Hrc as [[-> ->]|(-> & -> & Hcap & rest & -> & Hne)]; [left|right].
    + split_and!; [done|..]; apply wp_exact.
      * apply (wp_total_len nb' F' h' l' ps'); [done..|]. by rewrite Hc, length_app.
      * apply (wp_copyout nb' F' h' l' ps'); [done..|lia|lia|]. split; [|done].
        by rewrite Hc, !Nat2Z.id, drop_app_length, firstn_all.
    + split; [done|]. rewrite length_app. destruct rest; [done|]. simpl. lia.
Qed.

(** Cloning is a deep copy: the clone holds the same fragments in mbufs that
    were all free before, the original packet is untouched, and each of the two
    can be released without the other; on exhaustion, which happens exactly
    when there are fewer free mbufs than fragments, nothing is leaked. *)
Theorem mbuf_clone_deep nb F i l ps :
  owns nb F (Some i) l ps →
  (∀ j b, j ∈ l → pool nb !! j = Some b → m_data_off b + m_len b ≤ MBUF_DATA_SIZE) →
  ∃ r nb' F', mbuf_clone (Some i) nb = Ok (r, nb') ∧ owns nb' F' (Some i) l ps ∧
    match r with
    | Some c => ∃ cl, owns nb' F' (Some c) cl ps ∧ F = cl ++ F' ∧ cl ## l
    | None => F' ≡ₚ F ∧ (length F < length l)%nat
    end.
Proof.
  intros Hown Hspan. pose proof Hown as [Hok Hp Hnd].
  assert (∀ j, j ∈ l → j ∉ F) as Hdisj by (apply NoDup_app in Hnd as (_ & Hd & _); exact Hd).
  assert (∀ nb' F', pool_ok nb' F' → (∀ j, j ∈ F' → j ∈ F) → agree_off F nb nb' →
            owns nb' F' (Some i) l ps) as Hkeep.
  { intros nb' F' Hok' Hsub Hag. split; [done| |].
    - apply (pseg_frame (pool nb)); [done|]. intros j Hj. apply Hag. auto.
    - apply NoDup_app in Hnd as (Hl & _ & _). apply NoDup_app. split_and!; [done| |apply Hok'].
      intros j Hj Hj'. by apply (Hdisj j Hj), Hsub. }
  enough (wp (mbuf_clone (Some i)) (λ r nb', ∃ F', owns nb' F' (Some i) l ps ∧
    match r with
    | Some c => ∃ cl, owns nb' F' (Some c) cl ps ∧ F = cl ++ F' ∧ cl ## l
    | None => F' ≡ₚ F ∧ (length F < length l)%nat
    end) nb) as Hwp.
  { apply wp_ok in Hwp as (r & nb' & Hrun & F' & H1 & H2). by exists r, nb', F'. }
  apply (wp_clone nb F i l ps); [done|done|..].
  - intros nb' c cl F' Hc HF Hag _. exists F'. split.
    + apply Hkeep; [apply Hc| |done]. intros j Hj. rewrite HF. apply elem_of_app. by right.
    + exists cl. split_and!; [done|done|]. intros j Hj Hj'. apply (Hdisj j Hj'). rewrite HF.
      apply elem_of_app. by left.
  - intros nb' F' Hok' Hperm Hlt Hag. exists F'. split; [|done].
    apply Hkeep; [done| |done]. intros j Hj. by rewrite <-Hperm.
Qed.

(** Releasing a packet whose reference count is 1 returns every one of its
    mbufs to the free list, each once, and touches no other mbuf; with a higher
    count only the count changes. *)
Theorem mbuf_free_releases nb F i l ps b :
  owns nb F (Some i) l ps → pool nb !! i = Some b → 0 < m_refcount b < 2 ^ 32 →
  ∃ nb', mbuf_free (Some i) nb = Ok (tt, nb') ∧
    if 1 <? m_refcount b
    then owns nb' F (Some i) l ps ∧ pool nb' !! i = Some (set_refcount (m_refcount b - 1) b)
    else ∃ F', pool_ok nb' F' ∧ F' ≡ₚ l ++ F ∧ agree_off l nb nb'.
Proof.
  intros Hown Hb Hrc. pose proof Hown as [Hok Hp Hnd].
  apply pkt_inv in Hp as [([=] & _)|(? & b' & bs & l' & ps' & [= <-] & -> & -> & Hb' & Hh & Hrest)].
  rewrite Hb in Hb'. injection Hb' as <-.
  enough (wp (mbuf_free (Some i)) (λ _ nb', if 1 <? m_refcount b
    then owns nb' F (Some i) (i :: l') (bs :: ps') ∧ pool nb' !! i = Some (set_refcount (m_refcount b - 1) b)
    else ∃ F', pool_ok nb' F' ∧ F' ≡ₚ (i :: l') ++ F ∧ agree_off (i :: l') nb nb') nb) as Hwp.
  { apply wp_ok in Hwp as ([] & nb' & ? & ?). by exists nb'. }
  destruct (Z.ltb_spec 1 (m_refcount b)) as [Hgt|Hle].
  - unfold mbuf_free. wp_step. eapply wp_deref; [done|]. decide_cmps. eapply wp_update; [done|].
    rewrite u32_small by (unfold is_u32; lia).
    assert (i < length (pool nb))%nat by (by eapply lookup_lt_Some).
    simpl in Hnd. apply NoDup_cons in Hnd as [Hi Hnd].
    split; [|cbn; by apply list_lookup_insert_eq]. split; cbn.
    + split; cbn; [rewrite length_insert; apply Hok| |apply Hok]. apply flist_insert; [apply Hok|set_solver].
    + econstructor; [by apply list_lookup_insert_eq|by apply (holds_ext b)|]. apply pseg_insert; [done|set_solver].
    + by apply NoDup_cons.
  - eapply wp_mbuf_free; [done|done|lia|]. intros nb' Hok' Hag. exists (i :: rev l' ++ F).
    split_and!; [done| |done]. simpl. by rewrite <-(Permutation_rev l').
Qed.

(** The checksum of a fragmented packet, accumulated with [mbuf_csum_acc] and
    finished with [csum_finish], is [inet_csum] of its bytes, provided every
    fragment but the last has even length. *)
Theorem mbuf_csum_chain nb F h l ps :
  owns nb F h l ps → even_but_last ps → Z.of_nat (length (concat ps)) ≤ 65535 →
  ∃ s, mbuf_csum_acc 0 h 0 (Z.of_nat (length (concat ps))) nb = Ok (s, nb) ∧
       csum_finish s = inet_csum (concat ps).
Proof.
  intros [Hok Hp Hnd] He Hlen. exists (foldl csum_acc 0 ps). split.
  - apply wp_exact, (wp_csum_acc nb F h l ps); [done|done| |done]. by apply NoDup_app in Hnd as [? _].
  - apply csum_pieces_equiv; [|done]. split; [|lia]. clear He Hlen.
    induction Hp as [|? ? ? ? ? ? ? Hh ? IH]; simpl; [constructor|].
    apply Forall_app; split; [by eapply holds_u8|].
    apply IH; simpl in Hnd; by apply NoDup_cons in Hnd as [_ ?].
Qed.

(** ** A concrete pool: mbufs 0 and 1 form a packet, 2, 3 and 4 are free *)

Definition demo_page (bs : list Z) : list Z := bs ++ replicate (4096 - length bs) 0.
Definition demo_mbuf (bs : list Z) (next seg : option nat) : mbuf :=
  Mbuf (Some (demo_page bs)) 0 0 (Z.of_nat (length bs)) 1 next seg 0 0.
Definition demo_nb : netbuf :=
  Netbuf ([demo_mbuf [1; 2; 3; 4] None (Some 1%nat); demo_mbuf [5; 6; 7] None None;
           demo_mbuf [] (Some 3%nat) None; demo_mbuf [] (Some 4%nat) None; demo_mbuf [] None None] ++
          replicate 251 (Mbuf None 0 0 0 0 None None 0 0)) (Some 2%nat).

Lemma demo_page_ok bs : (length bs ≤ 4096)%nat → Forall is_u8 bs → page_ok (demo_page bs).
Proof.
  intros Hl Hu. split.
  - unfold demo_page. rewrite length_app, length_replicate. unfold MBUF_PAGE_SIZE. lia.
  - apply Forall_app; split; [done|]. apply Forall_replicate. unfold is_u8. lia.
Qed.

Lemma demo_holds bs next seg : (length bs ≤ 4096)%nat → Forall is_u8 bs → holds (demo_mbuf bs next seg) bs.
Proof.
  intros Hl Hu. destruct (demo_page_ok bs Hl Hu) as [H1 H2].
  apply (Holds _ _ (demo_page bs)); cbn [m_data m_data_off m_len demo_mbuf]; try done; try lia.
  - unfold MBUF_PAGE_SIZE. lia.
  - unfold demo_page. by rewrite Nat2Z.id, drop_0, take_app_length.
Qed.

Ltac demo_bytes := first [unfold is_u8; simpl; lia | simpl; lia | repeat constructor; unfold is_u8; lia].

Lemma demo_pool_ok : pool_ok demo_nb [2; 3; 4]%nat.
Proof.
  split; [done| |by apply (bool_decide_unpack _)].
  assert (page_ok (demo_page [])) by (apply demo_page_ok; demo_bytes).
  econstructor; [done|by exists (demo_page [])|]. econstructor; [done|by exists (demo_page [])|].
  econstructor; [done|by exists (demo_page [])|]. constructor.
Qed.

Lemma demo_owns : owns demo_nb [2; 3; 4]%nat (Some 0%nat) [0; 1]%nat [[1; 2; 3; 4]; [5; 6; 7]].
Proof.
  split; [exact demo_pool_ok| |by apply (bool_decide_unpack _)].
  econstructor; [done|apply demo_holds; demo_bytes|]. econstructor; [done|apply demo_holds; demo_bytes|].
  constructor.
Qed.

Lemma demo_tail_ok : tail_ok demo_nb [0; 1]%nat.
Proof. intros t b [= <-] [= <-]. split; [done|]. unfold MBUF_DATA_SIZE. simpl. lia. Qed.

(** Mbuf 0 holds the packet [bs], four others are free. *)
Definition demo_nb1 (bs : list Z) : netbuf :=
  Netbuf ([demo_mbuf bs None None; demo_mbuf [] (Some 2%nat) None; demo_mbuf [] (Some 3%nat) None;
           demo_mbuf [] (Some 4%nat) None; demo_mbuf [] None None] ++
          replicate 251 (Mbuf None 0 0 0 0 None None 0 0)) (Some 1%nat).

Lemma demo1_owns bs :
  (length bs ≤ 4096)%nat → Forall is_u8 bs → owns (demo_nb1 bs) [1; 2; 3; 4]%nat (Some 0%nat) [0%nat] [bs].
Proof.
  intros Hl Hu. assert (page_ok (demo_page [])) by (apply demo_page_ok; demo_bytes). split.
  - split; [done| |by apply (bool_decide_unpack _)].
    do 4 (econstructor; [done|by exists (demo_page [])|]). constructor.
  - econstructor; [done|by apply demo_holds|]. constructor.
  - by apply (bool_decide_unpack _).
Qed.

(** ** Witnesses *)

Lemma mbuf_init_all_free_witness :
  ∃ nb', mbuf_init (λ i, Some (4096 * Z.of_nat i, Some (demo_page []))) demo_nb = Ok (tt, nb') ∧
         pool_ok nb' (seq 0 MBUF_POOL_SIZE).
Proof.
  apply mbuf_init_all_free. intros i _. exists (4096 * Z.of_nat i), (demo_page []). split; [done|].
  apply demo_page_ok; demo_bytes.
Defined.

Lemma mbuf_append_copyout_witness :
  ∃ rc h' nb' F' l' ps', mbuf_append (Some 0%nat) [8; 9] demo_nb = Ok ((rc, h'), nb') ∧
    owns nb' F' h' l' ps' ∧ l' ++ F' ≡ₚ [0; 1; 2; 3; 4]%nat ∧
    mbuf_copyout 7 h' 0 nb' = Ok ([1; 2; 3; 4; 5; 6; 7], nb') ∧
    (rc = 0 ∧ mbuf_total_len h' nb' = Ok (9, nb') ∧ mbuf_copyout 2 h' 7 nb' = Ok ([8; 9], nb') ∨
     rc = -1 ∧ MBUF_DATA_SIZE * 3 < 2).
Proof. exact (mbuf_append_copyout _ _ _ _ _ [8; 9] demo_owns demo_tail_ok ltac:(demo_bytes)). Defined.

(** A packet whose bytes 3 and 4 start at offset 2 of the page: the bytes
    appended overwrite them, and the packet then reads 8, 9, 0, 0. *)
Example append_misplaced :
  let off := Mbuf (Some (demo_page [1; 2; 3; 4])) 0 2 2 1 None None 0 0 in
  let nb := Netbuf (off :: replicate 255 (Mbuf None 0 0 0 0 None None 0 0)) None in
  mbuf_copyout 2 (Some 0%nat) 0 nb = Ok ([3; 4], nb) ∧
  match mbuf_append (Some 0%nat) [8; 9] nb with
  | Ok ((rc, h), nb') => rc = 0 ∧ mbuf_copyout 4 h 0 nb' = Ok ([8; 9; 0; 0], nb')
  | _ => False
  end.
Proof. vm_compute. by split_and!. Qed.

Lemma mbuf_clone_deep_witness :
  ∃ r nb' F', mbuf_clone (Some 0%nat) demo_nb = Ok (r, nb') ∧
    owns nb' F' (Some 0%nat) [0; 1]%nat [[1; 2; 3; 4]; [5; 6; 7]] ∧
    match r with
    | Some c => ∃ cl, owns nb' F' (Some c) cl [[1; 2; 3; 4]; [5; 6; 7]] ∧ [2; 3; 4]%nat = cl ++ F' ∧ cl ## [0; 1]%nat
    | None => F' ≡ₚ [2; 3; 4]%nat ∧ (3 < 2)%nat
    end.
Proof.
  apply (mbuf_clone_deep demo_nb [2; 3; 4]%nat 0 [0; 1]%nat); [exact demo_owns|].
  intros j b Hj Hb. unfold MBUF_DATA_SIZE.
  apply elem_of_cons in Hj as [->|Hj]; [|apply list_elem_of_singleton in Hj as ->];
    injection Hb as <-; simpl; lia.
Defined.

Lemma mbuf_free_releases_witness :
  ∃ nb', mbuf_free (Some 0%nat) demo_nb = Ok (tt, nb') ∧
    ∃ F', pool_ok nb' F' ∧ F' ≡ₚ [0; 1; 2; 3; 4]%nat ∧ agree_off [0; 1]%nat demo_nb nb'.
Proof.
  exact (mbuf_free_releases demo_nb [2; 3; 4]%nat 0 [0; 1]%nat _ (demo_mbuf [1; 2; 3; 4] None (Some 1%nat))
    demo_owns eq_refl ltac:(simpl; lia)).
Defined.

Lemma mbuf_csum_chain_witness :
  ∃ s, mbuf_csum_acc 0 (Some 0%nat) 0 7 demo_nb = Ok (s, demo_nb) ∧
       csum_finish s = inet_csum [1; 2; 3; 4; 5; 6; 7].
Proof. exact (mbuf_csum_chain _ _ _ _ _ demo_owns ltac:(done) ltac:(simpl; lia)). Defined.
