(* ===== verification/Net.v ===== *)
(** * Net: the state of the network stack

    The stack is one monad over the state of all its layers: the mbuf pool
    (NetBuf), the registered devices, the handler tables of Ethernet and IPv4,
    the ARP cache, the ping state and the UDP, TCP and socket tables.  What the
    layers call outside of themselves is the interface [NetEnv]: the driver's
    transmit routine, its poll functions, the function pointers stored in the
    handler tables, the clock, the scheduler and [kmalloc]. *)

From S2P Require Import Prelude NetUtil NetBuf.

(** ** Data *)

(** [struct netdev]; the pointer to one is its index in the device store. *)
Record netdev := Netdev {
  nd_name : list Z;
  nd_mac : list Z;
  nd_ip : Z;
  nd_netmask : Z;
  nd_gateway : Z;
  nd_dns_server : Z;
  nd_mtu : Z }.

(** The handlers of the handler tables, as the source's functions. *)
Inductive eth_fn := fn_arp_handle_rx | fn_ipv4_rx.
Inductive ip_fn := fn_icmp_rx | fn_udp_rx | fn_tcp_rx.

#[export] Instance eth_fn_eq_dec : EqDecision eth_fn.
Proof. solve_decision. Defined.
#[export] Instance ip_fn_eq_dec : EqDecision ip_fn.
Proof. solve_decision. Defined.

(** [struct arp_entry] *)
Record arp_entry := ArpEntry { ae_ip : Z; ae_mac : list Z; ae_valid : bool; ae_age : Z }.

(** [struct udp_sock] *)
Record udp_sock := UdpSock {
  us_in_use : bool;
  us_local_port : Z;
  us_rx_queue : option nat;
  us_rx_count : Z;
  us_wait_recv : option nat }.

(** The states of a TCP connection, [TCP_STATE_*]. *)
Inductive tcp_state :=
  | CLOSED | LISTEN | SYN_SENT | SYN_RECEIVED | ESTABLISHED | FIN_WAIT_1
  | FIN_WAIT_2 | TIME_WAIT | CLOSE_WAIT | LAST_ACK | CLOSING.

#[export] Instance tcp_state_eq_dec : EqDecision tcp_state.
Proof. solve_decision. Defined.

(** [struct tcp_seg]; the queue through [next] is the list of its segments. *)
Record tcp_seg := TcpSeg {
  sg_seq : Z;
  sg_len : Z;
  sg_m : option nat;
  sg_rexmit_time : Z;
  sg_rexmit_count : Z }.

(** [struct tcp_sock]; [ts_parent] is the index of the listening socket. *)
Record tcp_sock := TcpSock {
  ts_in_use : bool;
  ts_state : tcp_state;
  ts_local_port : Z;
  ts_remote_port : Z;
  ts_remote_ip : Z;
  ts_dev : option nat;
  ts_snd_nxt : Z;
  ts_snd_una : Z;
  ts_rcv_nxt : Z;
  ts_rcv_wnd : Z;
  ts_snd_wnd : Z;
  ts_rx_buf : option nat;
  ts_rx_len : Z;
  ts_wait_recv : option nat;
  ts_tx_queue : list tcp_seg;
  ts_tx_queue_len : Z;
  ts_parent : option nat }.

(** [struct sock_entry] *)
Inductive sock_proto := SOCK_PROTO_NONE | SOCK_PROTO_UDP | SOCK_PROTO_TCP.
Record sock_entry := SockEntry {
  se_in_use : bool;
  se_proto : sock_proto;
  se_handle : Z;
  se_peer_ip : Z;
  se_peer_port : Z }.

(** The statics of netdev.c and ethernet.c. *)
Record link := Link {
  l_devs : gmap nat netdev;
  g_netdevs : list nat;
  g_net_poll : list nat;
  g_eth_handlers : list (Z * eth_fn) }.

(** The statics of arp.c, icmp.c, udp.c and tcp.c. *)
Record arp := Arp { g_arp_cache : list arp_entry; g_arp_pending : arp_entry }.
Record icmp := Icmp { g_ping_id : Z; g_ping_seq : Z; g_ping_hit : bool; g_ping_lock : bool; icmp_seq : Z }.
Record udp := Udp { g_udp_socks : list udp_sock; udp_next_port : Z }.
Record tcp := Tcp {
  g_tcp_socks : list tcp_sock;
  g_tcp_isn : Z;
  tcp_next_port : Z;
  tcp_syn_wait : list Z }.

Record net := Net {
  n_buf : netbuf;
  n_link : link;
  n_arp : arp;
  g_ip_handlers : list (Z * ip_fn);
  n_icmp : icmp;
  n_udp : udp;
  n_tcp : tcp;
  g_sock_table : list sock_entry;
  (** ghost: the frames drivers have put on the wire, with their device *)
  n_wire : list (nat * list Z) }.

Definition put_buf (b : netbuf) (s : net) : net :=
  Net b (n_link s) (n_arp s) (g_ip_handlers s) (n_icmp s) (n_udp s) (n_tcp s) (g_sock_table s) (n_wire s).
Definition put_link (l : link) (s : net) : net :=
  Net (n_buf s) l (n_arp s) (g_ip_handlers s) (n_icmp s) (n_udp s) (n_tcp s) (g_sock_table s) (n_wire s).
Definition put_arp (a : arp) (s : net) : net :=
  Net (n_buf s) (n_link s) a (g_ip_handlers s) (n_icmp s) (n_udp s) (n_tcp s) (g_sock_table s) (n_wire s).
Definition put_ip (h : list (Z * ip_fn)) (s : net) : net :=
  Net (n_buf s) (n_link s) (n_arp s) h (n_icmp s) (n_udp s) (n_tcp s) (g_sock_table s) (n_wire s).
Definition put_icmp (i : icmp) (s : net) : net :=
  Net (n_buf s) (n_link s) (n_arp s) (g_ip_handlers s) i (n_udp s) (n_tcp s) (g_sock_table s) (n_wire s).
Definition put_udp (u : udp) (s : net) : net :=
  Net (n_buf s) (n_link s) (n_arp s) (g_ip_handlers s) (n_icmp s) u (n_tcp s) (g_sock_table s) (n_wire s).
Definition put_tcp (t : tcp) (s : net) : net :=
  Net (n_buf s) (n_link s) (n_arp s) (g_ip_handlers s) (n_icmp s) (n_udp s) t (g_sock_table s) (n_wire s).
Definition put_socks (t : list sock_entry) (s : net) : net :=
  Net (n_buf s) (n_link s) (n_arp s) (g_ip_handlers s) (n_icmp s) (n_udp s) (n_tcp s) t (n_wire s).

Definition put_wire (w : list (nat * list Z)) (s : net) : net :=
  Net (n_buf s) (n_link s) (n_arp s) (g_ip_handlers s) (n_icmp s) (n_udp s) (n_tcp s) (g_sock_table s) w.

(** Each layer runs its own code on its own part of the state. *)
Definition on_buf {A} : M netbuf A → M net A := zoom n_buf put_buf.
Definition on_link {A} : M link A → M net A := zoom n_link put_link.
Definition on_arp {A} : M arp A → M net A := zoom n_arp put_arp.
Definition on_icmp {A} : M icmp A → M net A := zoom n_icmp put_icmp.
Definition on_udp {A} : M udp A → M net A := zoom n_udp put_udp.
Definition on_tcp {A} : M tcp A → M net A := zoom n_tcp put_tcp.

(** ** The environment of the stack *)

Class NetEnv := {
  (** [dev->tx(dev, m)] of the driver that owns device [dev] *)
  dev_tx : nat → nat → M net Z;
  (** the registered poll functions *)
  net_poll : nat → M net unit;
  (** calls through the function pointers of the handler tables *)
  eth_call : eth_fn → nat → nat → M net unit;
  ip_call : ip_fn → nat → Z → Z → nat → M net unit;
  (** clock.c, sched.c and slab.c *)
  clock_mono_ns : M net Z;
  sched_yield : M net unit;
  sched_wake : nat → M net unit;
  kmalloc_ok : M net bool }.

(** ** Headers in mbufs *)

(** Read and write [n] bytes at [m->data + m->data_off + off]. *)
Definition hdr_get (m : nat) (off n : Z) : M netbuf (list Z) :=
  b ← deref m; read_data m (m_data_off b + off) n.
Definition hdr_put (m : nat) (off : Z) (bs : list Z) : M netbuf unit :=
  b ← deref m; write_data m (m_data_off b + off) bs.
Definition set_len (n : Z) (b : mbuf) : mbuf := set_span (m_data_off b) n b.
(** [m->data_off += n; m->len = l] *)
Definition skip_hdr (m : nat) (n l : Z) : M netbuf unit :=
  update m (λ b, set_span (u64 (m_data_off b + n)) l b).

(** ** Rules *)

Lemma wp_on_buf {A} (m : M netbuf A) (Q : A → net → Prop) s :
  wp m (λ a b, Q a (put_buf b s)) (n_buf s) → wp (on_buf m) Q s.
Proof. apply wp_zoom. Qed.
Lemma wp_on_udp {A} (m : M udp A) (Q : A → net → Prop) s :
  wp m (λ a u, Q a (put_udp u s)) (n_udp s) → wp (on_udp m) Q s.
Proof. apply wp_zoom. Qed.

(** A fresh mbuf put in front of a packet: the headers of the layers below. *)
Lemma owns_prepend nb F m pn l ps p mb :
  owns nb F (Some p) l ps → pool nb !! m = Some mb → holds mb pn → m_next_seg mb = None →
  (m ∉ l ++ F) →
  owns (Netbuf (<[m := set_next_seg (Some p) mb]> (pool nb)) (g_mbuf_free nb)) F
    (Some m) (m :: l) (pn :: ps).
Proof.
  intros [Hok Hp Hnd] Hm Hh Hn Hni.
  assert ((m ∉ l) ∧ (m ∉ F)) as [Hml HmF] by (rewrite elem_of_app in Hni; tauto).
  assert (m < length (pool nb))%nat by (by eapply lookup_lt_Some).
  split.
  - split; cbn; [rewrite length_insert; apply Hok| |apply Hok]. apply flist_insert; [apply Hok|done].
  - econstructor; [by apply list_lookup_insert_eq|by apply (holds_ext mb)|]. simpl. by apply pseg_insert.
  - simpl. by apply NoDup_cons.
Qed.

(** ** A packet under construction

    [draft nb F i bs n]: the private mbuf [i] starts with the bytes [bs], its
    [len] is set to [n] and it is linked to nothing yet; [F] is the free list. *)

Record draft (nb : netbuf) (F : list nat) (i : nat) (bs : list Z) (n : Z) : Prop := Draft {
  dr_pool : pool_ok nb F;
  dr_free : i ∉ F;
  dr_mbuf : ∃ b d, pool nb !! i = Some b ∧ m_data b = Some d ∧ page_ok d ∧ m_data_off b = 0 ∧
              m_len b = n ∧ m_next_seg b = None ∧ m_refcount b = 1 ∧ take (length bs) d = bs }.

(** [nb'] differs from [nb] at most in mbuf [i]. *)
Definition same_but (i : nat) (nb nb' : netbuf) : Prop := ∀ j, j ≠ i → pool nb' !! j = pool nb !! j.

Lemma same_but_trans i nb1 nb2 nb3 : same_but i nb1 nb2 → same_but i nb2 nb3 → same_but i nb1 nb3.
Proof. intros H1 H2 j Hj. by rewrite H2, H1. Qed.

(** A packet is untouched by what happens to another mbuf. *)
Lemma owns_same_but i nb nb' F F' h l ps :
  owns nb F h l ps → pool_ok nb' F' → (∀ j, j ∈ F' → j ∈ F) → same_but i nb nb' → (i ∉ l) →
  owns nb' F' h l ps.
Proof.
  intros [Hok Hp Hnd] Hok' Hsub Hsame Hil. split; [done| |].
  - apply (pseg_frame (pool nb)); [done|]. intros j Hj. apply Hsame. by intros ->.
  - apply NoDup_app in Hnd as (Hl & Hd & _). apply NoDup_app. split_and!; [done| |apply Hok'].
    intros j Hj Hj'. by apply (Hd j Hj), Hsub.
Qed.

Lemma draft_update nb F i bs n f (Q : unit → netbuf → Prop) bs' n' :
  draft nb F i bs n →
  (∀ b d, pool nb !! i = Some b → m_data b = Some d → page_ok d → m_data_off b = 0 → m_len b = n →
     m_next_seg b = None → m_refcount b = 1 → take (length bs) d = bs →
     ∃ d', m_data (f b) = Some d' ∧ page_ok d' ∧ m_data_off (f b) = 0 ∧ m_len (f b) = n' ∧
           m_next_seg (f b) = None ∧ m_refcount (f b) = 1 ∧ take (length bs') d' = bs') →
  (∀ nb', draft nb' F i bs' n' → same_but i nb nb' → Q tt nb') →
  wp (update i f) Q nb.
Proof.
  intros [Hok HiF (b & d & Hb & Hd & Hpg & Ho & Hl & Hn & Hr & Ht)] Hf HQ.
  destruct (Hf b d) as (d' & Hd' & Hpg' & Ho' & Hl' & Hn' & Hr' & Ht'); try done.
  eapply wp_update; [done|].
  assert (i < length (pool nb))%nat by (by eapply lookup_lt_Some).
  apply HQ.
  - split; [|done|].
    + split; cbn; [rewrite length_insert; apply Hok| |apply Hok]. apply flist_insert; [apply Hok|done].
    + exists (f b), d'. split_and!; try done. by apply list_lookup_insert_eq.
  - intros j Hj. cbn. by rewrite list_lookup_insert_ne.
Qed.

Lemma wp_alloc_draft nb F (Q : option nat → netbuf → Prop) :
  pool_ok nb F →
  (F = [] → Q None nb) →
  (∀ i F' nb', F = i :: F' → draft nb' F' i [] 0 → same_but i nb nb' → Q (Some i) nb') →
  wp mbuf_alloc0 Q nb.
Proof.
  intros Hok Hnone Hsome. apply (wp_mbuf_alloc0 nb F); [done|done|].
  intros i F' nb' b' -> Hok' Hp Hb' Ho Hl Hr Hsame. apply (Hsome i F' nb'); [done| |done].
  inversion Hp as [|? b0 ? ? ? ? Hb0 Hh Hrest]; subst. rewrite Hb' in Hb0. injection Hb0 as <-.
  destruct (holds_data _ _ Hh) as (d & Hd & Hpg). split; [done| |].
  - pose proof (po_nodup _ _ Hok) as Hnd. by apply NoDup_cons in Hnd as [? _].
  - exists b', d. split_and!; try done. by inversion Hrest.
Qed.

(** The first bytes of a page overwritten at [o]. *)
Lemma overwrite_prefix (bs d x : list Z) (o : nat) :
  take (length bs) d = bs → (o ≤ length bs)%nat →
  take (length (take o bs ++ x ++ drop (o + length x) bs)) (take o d ++ x ++ drop (o + length x) d) =
  take o bs ++ x ++ drop (o + length x) bs.
Proof.
  intros Ht Ho. assert (length bs ≤ length d)%nat as Hle by (rewrite <-Ht, length_take; lia).
  assert (take o d = take o bs) as Hto by (rewrite <-Ht, take_take; f_equal; lia).
  assert (take (length bs - (o + length x)) (drop (o + length x) d) = drop (o + length x) bs) as Hdr
    by (rewrite <-Ht at 2; by rewrite skipn_firstn_comm).
  rewrite Hto, !app_assoc. set (P := take o bs ++ x).
  rewrite length_app, length_drop, take_app_add, Hdr. done.
Qed.

(** Writing at offset [off] of a draft: over its bytes or behind them. *)
Lemma wp_draft_write nb F i bs n off x (Q : unit → netbuf → Prop) :
  draft nb F i bs n → Forall is_u8 x → 0 ≤ off ≤ Z.of_nat (length bs) →
  off + Z.of_nat (length x) ≤ MBUF_PAGE_SIZE →
  (∀ nb', draft nb' F i (take (Z.to_nat off) bs ++ x ++ drop (Z.to_nat off + length x) bs) n →
     same_but i nb nb' → Q tt nb') →
  wp (write_data i off x) Q nb.
Proof.
  intros Hdr Hx Hoff Hle HQ. unfold write_data.
  pose proof Hdr as [Hok HiF (b & d & Hb & Hd & Hpg & Ho & Hl & Hn & Hr & Ht)]. wp_step. eapply wp_deref; [done|]. rewrite Hd. simpl.
  destruct Hpg as [Hlen Hu]. unfold write_at, MBUF_PAGE_SIZE in *. decide_cmps. simpl.
  eapply (draft_update nb F i bs n _ Q _ n); [exact Hdr| |exact HQ].
  intros b1 d1 Hb1 Hd1 Hpg1 Ho1 Hl1 Hn1 Hr1 Ht1. rewrite Hb in Hb1. injection Hb1 as <-.
  assert (Z.of_nat (length bs) ≤ 4096) as Hbs by (rewrite <-Ht, length_take; lia).
  eexists. split_and!; [done|..]; try done.
  - split.
    + rewrite !length_app, length_take, length_drop. unfold MBUF_PAGE_SIZE. lia.
    + repeat apply Forall_app_2; [by apply Forall_take|done|by apply Forall_drop].
  - set (o := Z.to_nat off) in *. assert (o ≤ length bs)%nat as Ho' by lia. by apply overwrite_prefix.
Qed.

Lemma wp_draft_put nb F i bs n off x (Q : unit → netbuf → Prop) :
  draft nb F i bs n → Forall is_u8 x → 0 ≤ off ≤ Z.of_nat (length bs) →
  off + Z.of_nat (length x) ≤ MBUF_PAGE_SIZE →
  (∀ nb', draft nb' F i (take (Z.to_nat off) bs ++ x ++ drop (Z.to_nat off + length x) bs) n →
     same_but i nb nb' → Q tt nb') →
  wp (hdr_put i off x) Q nb.
Proof.
  intros Hdr Hx Hoff Hle HQ. unfold hdr_put.
  pose proof Hdr as [_ _ (b & d & Hb & _ & _ & Ho & _)].
  wp_step. eapply wp_deref; [done|]. rewrite Ho, Z.add_0_l. by eapply wp_draft_write.
Qed.

Lemma wp_draft_get nb F i bs n off k (Q : list Z → netbuf → Prop) :
  draft nb F i bs n → 0 ≤ off → 0 ≤ k → off + k ≤ Z.of_nat (length bs) →
  Q (take (Z.to_nat k) (drop (Z.to_nat off) bs)) nb → wp (hdr_get i off k) Q nb.
Proof.
  intros [Hok HiF (b & d & Hb & Hd & Hpg & Ho & Hl & Hn & Hr & Ht)] H0 H1 H2 HQ. unfold hdr_get.
  assert (length bs ≤ length d)%nat by (rewrite <-Ht, length_take; lia).
  wp_step. eapply wp_deref; [done|]. rewrite Ho, Z.add_0_l.
  eapply wp_read_data; [done|done|lia|lia|lia|].
  rewrite <-Ht in HQ. rewrite skipn_firstn_comm, take_take in HQ.
  by replace (Z.to_nat k `min` (length bs - Z.to_nat off))%nat with (Z.to_nat k) in HQ by lia.
Qed.

Lemma wp_draft_len nb F i bs n n' (Q : unit → netbuf → Prop) :
  draft nb F i bs n →
  (∀ nb', draft nb' F i bs n' → same_but i nb nb' → Q tt nb') → wp (update i (set_len n')) Q nb.
Proof.
  intros Hdr HQ. eapply (draft_update nb F i bs n _ Q bs n'); [done| |done].
  intros b d Hb Hd Hpg Ho Hl Hn Hr Ht. by exists d.
Qed.

Lemma draft_holds nb F i bs :
  draft nb F i bs (Z.of_nat (length bs)) →
  ∃ b, pool nb !! i = Some b ∧ holds b bs ∧ m_next_seg b = None ∧ m_refcount b = 1.
Proof.
  intros [Hok HiF (b & d & Hb & Hd & [Hlen Hu] & Ho & Hl & Hn & Hr & Ht)]. exists b. split_and!; try done.
  assert (length bs ≤ length d)%nat by (rewrite <-Ht, length_take; lia). unfold MBUF_PAGE_SIZE in *.
  apply (Holds _ _ d); try done; try (unfold MBUF_PAGE_SIZE; lia).
  by rewrite Ho, Hl, Nat2Z.id, drop_0.
Qed.

(** A finished draft is a packet. *)
Lemma draft_owns nb F i bs : draft nb F i bs (Z.of_nat (length bs)) → owns nb F (Some i) [i] [bs].
Proof.
  intros Hdr. destruct (draft_holds _ _ _ _ Hdr) as (b & Hb & Hh & Hn & _). split; [apply Hdr| |].
  - econstructor; [done|done|]. rewrite Hn. constructor.
  - simpl. apply NoDup_cons. split; [apply Hdr|apply Hdr].
Qed.

(** Linking a finished header in front of a payload. *)
Lemma wp_draft_link nb F i bs p l ps (Q : unit → netbuf → Prop) :
  draft nb F i bs (Z.of_nat (length bs)) → owns nb F (Some p) l ps → (i ∉ l) →
  (∀ nb' b, owns nb' F (Some i) (i :: l) (bs :: ps) → same_but i nb nb' → pool nb' !! i = Some b →
     m_refcount b = 1 → Q tt nb') →
  wp (update i (set_next_seg (Some p))) Q nb.
Proof.
  intros Hdr Hown Hil HQ. destruct (draft_holds _ _ _ _ Hdr) as (b & Hb & Hh & Hn & Hr).
  eapply wp_update; [done|]. eapply HQ.
  - apply owns_prepend; try done. rewrite elem_of_app. intros [?|?]; [done|]. by apply (dr_free _ _ _ _ _ Hdr).
  - intros j Hj. cbn. by rewrite list_lookup_insert_ne.
  - cbn. apply list_lookup_insert_eq. by eapply lookup_lt_Some.
  - done.
Qed.

(** ** Reading and stripping the header of a received packet *)

Lemma owns_head nb F i l bs ps :
  owns nb F (Some i) l (bs :: ps) → ∃ b l', l = i :: l' ∧ pool nb !! i = Some b ∧ holds b bs ∧
    pkt (pool nb) (m_next_seg b) l' ps ∧ (i ∉ l') ∧ (i ∉ F).
Proof.
  intros [Hok Hp Hnd].
  apply pkt_inv in Hp as [([=] & _)|(? & b & ? & l' & ? & [= <-] & -> & [= <- <-] & Hb & Hh & Hrest)].
  simpl in Hnd. apply NoDup_cons in Hnd as [Hi _]. rewrite elem_of_app in Hi.
  exists b, l'. split_and!; try done; tauto.
Qed.

Lemma wp_read_hdr nb F i l bs ps off k b (Q : list Z → netbuf → Prop) :
  owns nb F (Some i) l (bs :: ps) → pool nb !! i = Some b →
  0 ≤ off → 0 ≤ k → off + k ≤ Z.of_nat (length bs) →
  Q (take (Z.to_nat k) (drop (Z.to_nat off) bs)) nb → wp (read_data i (m_data_off b + off) k) Q nb.
Proof.
  intros Hown Hb H0 H1 H2 HQ. destruct (owns_head _ _ _ _ _ _ Hown) as (b' & l' & -> & Hb' & Hh & _).
  rewrite Hb in Hb'. injection Hb' as <-.
  pose proof (holds_length _ _ Hh) as Hlen. destruct Hh as [d Hd Hs Hu Ho Hl Hf Hbs]. unfold MBUF_PAGE_SIZE in *.
  eapply wp_read_data; [done|done|lia|lia|lia|].
  rewrite Hbs, skipn_firstn_comm, take_take, drop_drop in HQ.
  replace (Z.to_nat k `min` (Z.to_nat (m_len b) - Z.to_nat off))%nat with (Z.to_nat k) in HQ by lia.
  by replace (Z.to_nat (m_data_off b + off)) with (Z.to_nat (m_data_off b) + Z.to_nat off)%nat by lia.
Qed.

Lemma wp_hdr_get nb F i l bs ps off k (Q : list Z → netbuf → Prop) :
  owns nb F (Some i) l (bs :: ps) → 0 ≤ off → 0 ≤ k → off + k ≤ Z.of_nat (length bs) →
  Q (take (Z.to_nat k) (drop (Z.to_nat off) bs)) nb → wp (hdr_get i off k) Q nb.
Proof.
  intros Hown H0 H1 H2 HQ. destruct (owns_head _ _ _ _ _ _ Hown) as (b & l' & _ & Hb & _).
  unfold hdr_get. wp_step. eapply wp_deref; [done|]. by eapply wp_read_hdr.
Qed.

(** Stripping [n] bytes and keeping [k] of the rest. *)
Lemma wp_skip_hdr nb F i l bs ps n k b (Q : unit → netbuf → Prop) :
  owns nb F (Some i) l (bs :: ps) → pool nb !! i = Some b → 0 ≤ n → 0 ≤ k → n + k ≤ Z.of_nat (length bs) →
  (∀ nb' b', owns nb' F (Some i) l (take (Z.to_nat k) (drop (Z.to_nat n) bs) :: ps) → same_but i nb nb' →
     pool nb' !! i = Some b' → m_refcount b' = m_refcount b → Q tt nb') →
  wp (skip_hdr i n k) Q nb.
Proof.
  intros Hown Hb H0 H1 H2 HQ.
  destruct (owns_head _ _ _ _ _ _ Hown) as (b' & l' & -> & Hb' & Hh & Hrest & Hil & HiF).
  rewrite Hb in Hb'. injection Hb' as <-. pose proof Hown as [Hok _ Hnd].
  pose proof (holds_length _ _ Hh) as Hlen. destruct Hh as [d Hd Hs Hu Ho Hl Hf Hbs]. unfold MBUF_PAGE_SIZE in *.
  assert (i < length (pool nb))%nat by (by eapply lookup_lt_Some).
  unfold skip_hdr. eapply wp_update; [done|]. rewrite u64_small by (unfold is_u64; lia).
  eapply HQ; cbn; [|..|by apply list_lookup_insert_eq|done].
  - split; [|cbn|done].
    + split; cbn; [rewrite length_insert; apply Hok| |apply Hok]. apply flist_insert; [apply Hok|done].
    + econstructor; [by apply list_lookup_insert_eq| |by apply pseg_insert].
      apply (Holds _ _ d); cbn; try done; try (unfold MBUF_PAGE_SIZE; lia).
      rewrite Hbs, skipn_firstn_comm, take_take, drop_drop. f_equal; [lia|]. f_equal. lia.
  - intros j Hj. cbn. by rewrite list_lookup_insert_ne.
Qed.

(** Overwriting bytes of the first fragment in place. *)
Definition overwrite (bs : list Z) (off : Z) (x : list Z) : list Z :=
  take (Z.to_nat off) bs ++ x ++ drop (Z.to_nat off + length x) bs.

Lemma overwrite_length bs off x :
  0 ≤ off → off + Z.of_nat (length x) ≤ Z.of_nat (length bs) → length (overwrite bs off x) = length bs.
Proof. intros H0 H1. unfold overwrite. rewrite !length_app, length_take, length_drop. lia. Qed.

Lemma overwrite_u8 bs off x : Forall is_u8 bs → Forall is_u8 x → Forall is_u8 (overwrite bs off x).
Proof.
  intros Hb Hx. unfold overwrite. apply Forall_app_2; [by apply Forall_take|].
  apply Forall_app_2; [done|by apply Forall_drop].
Qed.

(** An overwrite inside a window of a page is an overwrite of the window. *)
Lemma overwrite_window (d x : list Z) (o n off : nat) :
  (o + n ≤ length d)%nat → (off + length x ≤ n)%nat →
  take n (drop o (take (o + off) d ++ x ++ drop (o + off + length x) d)) =
  take off (take n (drop o d)) ++ x ++ drop (off + length x) (take n (drop o d)).
Proof.
  intros Hn Hx.
  assert (length (take (o + off) d) = o + off)%nat as Hl by (rewrite length_take; lia).
  rewrite drop_app_le by lia. rewrite !take_app.
  rewrite (take_ge (drop o (take (o + off) d))) by (rewrite length_drop; lia).
  f_equal; [rewrite skipn_firstn_comm, take_take; f_equal; lia|].
  rewrite length_drop, Hl. replace (n - (o + off - o))%nat with (n - off)%nat by lia.
  rewrite (take_ge x) by lia. f_equal. rewrite !skipn_firstn_comm, !drop_drop.
  f_equal; [lia|]. f_equal. lia.
Qed.

Lemma wp_hdr_put nb F i l bs ps off x b (Q : unit → netbuf → Prop) :
  owns nb F (Some i) l (bs :: ps) → pool nb !! i = Some b → Forall is_u8 x →
  0 ≤ off → off + Z.of_nat (length x) ≤ Z.of_nat (length bs) →
  (∀ nb' b', owns nb' F (Some i) l (overwrite bs off x :: ps) → same_but i nb nb' →
     pool nb' !! i = Some b' → m_refcount b' = m_refcount b → m_data_off b' = m_data_off b →
     m_len b' = m_len b → Q tt nb') →
  wp (hdr_put i off x) Q nb.
Proof.
  intros Hown Hb Hx H0 H1 HQ.
  destruct (owns_head _ _ _ _ _ _ Hown) as (b' & l' & -> & Hb' & Hh & Hrest & Hil & HiF).
  rewrite Hb in Hb'. injection Hb' as <-. pose proof Hown as [Hok _ Hnd].
  pose proof (holds_length _ _ Hh) as Hlen. destruct Hh as [d Hd Hs Hu Ho Hl Hf Hbs]. unfold MBUF_PAGE_SIZE in *.
  assert (i < length (pool nb))%nat by (by eapply lookup_lt_Some).
  unfold hdr_put. wp_step. eapply wp_deref; [done|]. eapply wp_write_data; [done|done|lia|lia|].
  set (o := Z.to_nat (m_data_off b)). replace (Z.to_nat (m_data_off b + off)) with (o + Z.to_nat off)%nat by lia.
  eapply HQ; cbn; [|..|by apply list_lookup_insert_eq|done|done|done].
  - split; [|cbn|done].
    + split; cbn; [rewrite length_insert; apply Hok| |apply Hok]. apply flist_insert; [apply Hok|done].
    + econstructor; [by apply list_lookup_insert_eq| |by apply pseg_insert].
      eapply Holds; cbn; [done|..]; try done; try (unfold MBUF_PAGE_SIZE; lia).
      * rewrite !length_app, length_take, length_drop. unfold MBUF_PAGE_SIZE. lia.
      * apply Forall_app_2; [by apply Forall_take|]. apply Forall_app_2; [done|by apply Forall_drop].
      * rewrite Hbs. unfold overwrite. fold o. symmetry. apply overwrite_window; lia.
  - intros j Hj. cbn. by rewrite list_lookup_insert_ne.
Qed.

(** Every mbuf of [l] has gone back to the free list. *)
Definition freed (F l : list nat) (nb' : netbuf) : Prop := ∃ F', pool_ok nb' F' ∧ F' ≡ₚ l ++ F.

(** Releasing a whole packet held by its only owner. *)
Lemma wp_free_owned nb F i l ps b (Q : unit → netbuf → Prop) :
  owns nb F (Some i) l ps → pool nb !! i = Some b → m_refcount b ≤ 1 →
  (∀ nb' F', pool_ok nb' F' → F' ≡ₚ l ++ F → agree_off l nb nb' → Q tt nb') →
  wp (mbuf_free (Some i)) Q nb.
Proof.
  intros Hown Hb Hr HQ. pose proof Hown as [_ Hp _].
  apply pkt_inv in Hp as [([=] & _)|(? & ? & ? & l' & ? & [= <-] & -> & _)].
  eapply wp_mbuf_free; [exact Hown|exact Hb|done|]. intros nb' Hok Hag.
  apply (HQ nb' (i :: rev l' ++ F)); [done| |done]. simpl. by rewrite <-(Permutation_rev l').
Qed.

(** A packet survives what happens to the mbufs of [S], among them the free ones. *)
Lemma owns_after nb nb' F F' S h l ps :
  owns nb F h l ps → pool_ok nb' F' → (∀ j, j ∈ F' → j ∈ S) → agree_off S nb nb' →
  (∀ j, j ∈ l → j ∉ S) → owns nb' F' h l ps.
Proof.
  intros [Hok Hp Hnd] Hok' Hsub Hag Hd. apply NoDup_app in Hnd as (Hl & _ & _). split; [done| |].
  - apply (pseg_frame (pool nb)); [done|]. intros j Hj. apply Hag. by apply Hd.
  - apply NoDup_app. split_and!; [done| |apply Hok']. intros j Hj Hj'. by apply (Hd j Hj), Hsub.
Qed.

(** ** The contract of a NIC driver

    [dev->tx] takes ownership of the packet: its mbufs go back to the pool (the
    driver may keep free mbufs for its ring), other mbufs are left alone, and
    the frame goes out exactly when the result is 0. *)
Definition transmitted (d : nat) (bs : list Z) (r : Z) (s : net) : list (nat * list Z) :=
  n_wire s ++ (if r =? 0 then [(d, bs)] else []).

Class NicDriver `{NetEnv} : Prop :=
  nic_tx : ∀ d h F l ps b s (Q : Z → net → Prop),
    owns (n_buf s) F (Some h) l ps → pool (n_buf s) !! h = Some b → m_refcount b = 1 →
    (∀ r nb' F', pool_ok nb' F' → (∀ j, j ∈ F' → j ∈ l ++ F) → agree_off (l ++ F) (n_buf s) nb' →
       (r = 0 ∨ r = -1) →
       Q r (put_wire (transmitted d (concat ps) r s) (put_buf nb' s))) →
    wp (dev_tx d h) Q s.

(** ** A concrete stack for evaluation *)

(** A driver that puts every frame on the wire and releases its mbufs. *)
Definition wire_tx (d h : nat) : M net Z :=
  n ← on_buf (mbuf_total_len (Some h));
  bs ← on_buf (mbuf_copyout n (Some h) 0);
  on_buf (mbuf_free (Some h));;
  modify (λ s, put_wire (n_wire s ++ [(d, bs)]) s);;
  mret 0.

Definition wire_env : NetEnv := {|
  dev_tx := wire_tx; net_poll := λ _, mret tt;
  eth_call := λ _ _ _, mret tt; ip_call := λ _ _ _ _ _, mret tt;
  clock_mono_ns := mret 0; sched_yield := mret tt; sched_wake := λ _, mret tt;
  kmalloc_ok := mret true |}.

#[export] Instance wire_driver : @NicDriver wire_env.
Proof.
  intros d h F l ps b s Q Hown Hb Hr HQ. simpl. unfold wire_tx. pose proof Hown as [Hok Hp Hnd].
  assert (NoDup l) as Hl by (by apply NoDup_app in Hnd as [? _]).
  wp_step. apply wp_on_buf. eapply (wp_total_len _ F); [done|done|done|].
  wp_step. apply wp_on_buf. eapply (wp_copyout _ F); [done|done|done|lia|lia|].
  rewrite Nat2Z.id, drop_0, firstn_all. wp_step. apply wp_on_buf.
  eapply wp_free_owned; [done|done|lia|]. intros nb' F' Hok' HF' Hag. wp_steps.
  refine (HQ 0 nb' F' Hok' _ _ (or_introl eq_refl)).
  - intros j. by rewrite HF'.
  - intros j Hj. apply Hag. rewrite elem_of_app in Hj. tauto.
Qed.

(** An environment in which the outside does nothing. *)
Definition idle_env : NetEnv := {|
  dev_tx := λ _ _, mret 0; net_poll := λ _, mret tt;
  eth_call := λ _ _ _, mret tt; ip_call := λ _ _ _ _ _, mret tt;
  clock_mono_ns := mret 0; sched_yield := mret tt; sched_wake := λ _, mret tt;
  kmalloc_ok := mret true |}.

Definition demo_dev : netdev :=
  Netdev [101; 116; 104; 48] [2; 0; 0; 0; 0; 1] (ip4_make 10 0 2 15) (ip4_make 255 255 255 0)
    (ip4_make 10 0 2 2) 0 1500.
Definition free_udp : udp_sock := UdpSock false 0 None 0 None.
Definition free_tcp : tcp_sock :=
  TcpSock false CLOSED 0 0 0 None 0 0 0 0 0 None 0 None [] 0 None.
Definition demo_net_of (nb : netbuf) : net :=
  Net nb (Link {[ 0%nat := demo_dev ]} [0%nat] [] [(0x0806, fn_arp_handle_rx); (0x0800, fn_ipv4_rx)])
    (Arp (replicate 16 (ArpEntry 0 [0; 0; 0; 0; 0; 0] false 0)) (ArpEntry 0 [0; 0; 0; 0; 0; 0] false 0))
    [(1, fn_icmp_rx); (17, fn_udp_rx); (6, fn_tcp_rx)]
    (Icmp 0 0 false false 0)
    (Udp (replicate 32 free_udp) 49152)
    (Tcp (replicate 32 free_tcp) 0x12345678 49152 (replicate 32 0))
    (replicate 64 (SockEntry false SOCK_PROTO_NONE 0 0 0)) [].
Definition demo_net : net := demo_net_of demo_nb.
