(* ===== verification/Link.v ===== *)
(** * Link: devices and Ethernet (kernel/netdev.c, kernel/ethernet.c,
    kernel/loopback.c)

    Device registration, routing by subnet and the poll list; building and
    parsing Ethernet frames; flattening fragment chains on the receive path.
    [dev->tx], the poll functions and the ethertype handlers are called
    through [NetEnv]. *)

From S2P Require Import Prelude NetUtil NetBuf Net.

(** ** kernel/netdev.c *)

Definition NET_POLL_MAX : nat := 8.

Definition set_devs (d : gmap nat netdev) (l : link) : link :=
  Link d (g_netdevs l) (g_net_poll l) (g_eth_handlers l).
Definition set_netdevs (d : list nat) (l : link) : link :=
  Link (l_devs l) d (g_net_poll l) (g_eth_handlers l).
Definition set_net_poll (p : list nat) (l : link) : link :=
  Link (l_devs l) (g_netdevs l) p (g_eth_handlers l).
Definition set_eth_handlers (h : list (Z * eth_fn)) (l : link) : link :=
  Link (l_devs l) (g_netdevs l) (g_net_poll l) h.

(** [*dev] *)
Definition dev_get (d : nat) : M net netdev :=
  ds ← gets (λ s, l_devs (n_link s));
  match ds !! d with Some v => mret v | None => fault end.

(** The array [g_net_poll] with its count is the list of registered functions. *)
Definition netdev_register_poll (fn : option nat) : M link unit :=
  ps ← gets g_net_poll;
  match fn with
  | None => mret tt
  | Some f => if bool_decide (NET_POLL_MAX ≤ length ps)%nat then mret tt
              else modify (set_net_poll (ps ++ [f]))
  end.

Definition netdev_unregister_poll (fn : nat) : M link unit :=
  ps ← gets g_net_poll;
  match list_find (λ f, f = fn) ps with
  | Some (i, _) => modify (set_net_poll (delete i ps))
  | None => mret tt
  end.

(** The count is read again in every round; there are at most
    [NET_POLL_MAX] of them. *)
Definition netdev_poll_all `{NetEnv} : M net unit :=
  loop_fuel (S NET_POLL_MAX) (λ i : nat,
    ps ← gets (λ s, g_net_poll (n_link s));
    match ps !! i with
    | Some f => net_poll f;; mret (inl (S i))
    | None => mret (inr tt)
    end) 0%nat.

Definition netdev_register (d : nat) : M link unit :=
  modify (λ l, set_netdevs (d :: g_netdevs l) l).

(** The first registered device that satisfies [P]. *)
Definition first_dev (P : netdev → bool) (l : link) : option nat :=
  match list_find (λ d, Is_true (match l_devs l !! d with Some v => P v | None => false end)) (g_netdevs l) with
  | Some (_, d) => Some d
  | None => None
  end.

Definition netdev_find (name : list Z) : M link (option nat) :=
  gets (first_dev (λ v, bool_decide (nd_name v = name))).

Definition netdev_first : M link (option nat) := gets (λ l, head (g_netdevs l)).

Definition in_subnet (dst : Z) (v : netdev) : bool :=
  Z.land dst (nd_netmask v) =? Z.land (nd_ip v) (nd_netmask v).

Definition netdev_for_ip (dst : Z) : M link (option nat) :=
  gets (λ l, match first_dev (in_subnet dst) l with Some d => Some d | None => head (g_netdevs l) end).

(** The C string "lo". *)
Definition netdev_is_loopback (v : netdev) : bool := bool_decide (nd_name v = [108; 111]).

Definition netdev_up : M link (option nat) :=
  gets (first_dev (λ v, negb (nd_ip v =? 0) && negb (netdev_is_loopback v))).

Definition netdev_rx_coalesce (m : option nat) : M netbuf (option nat) :=
  match m with
  | None => mret None
  | Some i =>
    b ← deref i;
    match m_next_seg b with
    | None => mret (Some i)
    | Some _ =>
      total ← mbuf_total_len (Some i);
      if MBUF_DATA_SIZE <? total then mbuf_free (Some i);; mret None
      else
        flat ← mbuf_alloc0;
        match flat with
        | None => mbuf_free (Some i);; mret None
        | Some f =>
          bs ← mbuf_copyout total (Some i) 0;
          write_data f 0 bs;;
          update f (λ fb, set_next_seg None (set_refcount 1 (set_span 0 total fb)));;
          mbuf_free (Some i);;
          mret (Some f)
        end
    end
  end.

(** ** kernel/ethernet.c *)

Definition ETH_MAX_HANDLERS : nat := 8.
Definition ETH_P_IP : Z := 0x0800.
Definition ETH_P_ARP : Z := 0x0806.
Definition ETH_HDR_LEN : Z := 14.

Definition ethertype_register (type : Z) (fn : eth_fn) : M link unit :=
  hs ← gets g_eth_handlers;
  if bool_decide (ETH_MAX_HANDLERS ≤ length hs)%nat then mret tt
  else modify (set_eth_handlers (hs ++ [(type, fn)])).

(** [struct eth_hdr] in memory; [type] is already in network order. *)
Definition eth_hdr (dst src : list Z) (type : Z) : list Z := mac_copy dst ++ mac_copy src ++ put16 type.

Definition ethernet_send `{NetEnv} (dev : option nat) (dst : list Z) (type : Z) (payload : option nat)
    : M net Z :=
  match dev, payload with
  | Some d, Some p =>
    h ← on_buf mbuf_alloc0;
    match h with
    | None => mret (-1)
    | Some hm =>
      v ← dev_get d;
      on_buf (hdr_put hm 0 (eth_hdr dst (nd_mac v) (htobe16 type)));;
      on_buf (update hm (set_len ETH_HDR_LEN));;
      on_buf (update hm (set_next_seg (Some p)));;
      on_buf (mbuf_total_len (Some hm));;
      dev_tx d hm
    end
  | _, _ => mret (-1)
  end.

(** The handler the table holds for a type. *)
Definition eth_handler (type : Z) (l : link) : option eth_fn :=
  match list_find (λ h, h.1 = type) (g_eth_handlers l) with
  | Some (_, (_, fn)) => Some fn
  | None => None
  end.

Definition ethernet_rx `{NetEnv} (d : nat) (m : option nat) : M net unit :=
  match m with
  | None => on_buf (mbuf_free None)
  | Some i =>
    b ← on_buf (deref i);
    if m_len b <? ETH_HDR_LEN then on_buf (mbuf_free (Some i))
    else
      eh ← on_buf (hdr_get i 0 ETH_HDR_LEN);
      let type := be16toh (get16 eh 12) in
      on_buf (skip_hdr i ETH_HDR_LEN (u64 (m_len b - ETH_HDR_LEN)));;
      v ← dev_get d;
      if negb (mac_is_broadcast (take 6 eh)) && negb (mac_eq (take 6 eh) (nd_mac v))
      then on_buf (mbuf_free (Some i))
      else
        fn ← gets (λ s, eth_handler type (n_link s));
        match fn with
        | Some f => eth_call f d i
        | None => on_buf (mbuf_free (Some i))
        end
  end.

Definition netdev_rx_poll `{NetEnv} (d : nat) (m : option nat) : M net unit :=
  m' ← on_buf (netdev_rx_coalesce m);
  match m' with
  | Some i => ethernet_rx d (Some i)
  | None => mret tt
  end.

(** ** kernel/loopback.c *)

Definition LOOPBACK_MTU : Z := 65535.

Definition loopback_tx `{NetEnv} (d m : nat) : M net Z :=
  netdev_rx_poll d (Some m);; mret 0.

(** [lo] is the pointer to the static [lo_dev]. *)
Definition loopback_init (lo : nat) : M link unit :=
  modify (λ l, set_devs (<[lo := Netdev [108; 111] [0; 0; 0; 0; 0; 0] (ip4_make 127 0 0 1)
                                  (ip4_make 255 0 0 0) 0 0 LOOPBACK_MTU]> (l_devs l)) l);;
  netdev_register lo.

(** ** Rules *)

Lemma wp_dev_get d v (Q : netdev → net → Prop) s :
  l_devs (n_link s) !! d = Some v → Q v s → wp (dev_get d) Q s.
Proof. intros Hd HQ. unfold dev_get. wp_steps. rewrite Hd. by apply wp_ret. Qed.

Lemma get8_u8 (l : list Z) i : Forall is_u8 l → is_u8 (get8 l i).
Proof.
  intros Hl. unfold get8. destruct (decide (i < length l)%nat) as [Hlt|Hge].
  - by apply (Forall_nth is_u8), Hlt.
  - rewrite nth_overflow by lia. unfold is_u8. lia.
Qed.

Lemma put16_u8 v : Forall is_u8 (put16 v).
Proof. unfold put16. repeat constructor; apply u8_range. Qed.

Lemma mac_copy_u8 l : Forall is_u8 l → Forall is_u8 (mac_copy l).
Proof. intros Hl. unfold mac_copy. apply Forall_map, Forall_true. intros i. by apply get8_u8. Qed.

Lemma eth_hdr_u8 dst src type : Forall is_u8 dst → Forall is_u8 src → Forall is_u8 (eth_hdr dst src type).
Proof.
  intros Hd Hs. unfold eth_hdr. repeat apply Forall_app_2; [by apply mac_copy_u8..|apply put16_u8].
Qed.

(** A packet handed to the driver of device [d]: its first mbuf is [h] and only
    the mbuf pool has changed. *)
Definition sends `{NetEnv} (d h : nat) (F l : list nat) (ps : list (list Z))
    (s : net) (k : M net Z) (s' : net) : Prop :=
  k = dev_tx d h ∧ owns (n_buf s') F (Some h) l ps ∧
  (∃ b, pool (n_buf s') !! h = Some b ∧ m_refcount b = 1) ∧ same_but h (n_buf s) (n_buf s') ∧ s' = put_buf (n_buf s') s.

Lemma leads_ethernet_send `{NetEnv} d v dst type p F l ps s (P : M net Z → net → Prop) :
  owns (n_buf s) F (Some p) l ps → l_devs (n_link s) !! d = Some v →
  Forall is_u8 dst → Forall is_u8 (nd_mac v) →
  (F = [] → P (mret (-1)) s) →
  (∀ k s' hm F', F = hm :: F' →
     sends d hm F' (hm :: l) (eth_hdr dst (nd_mac v) (htobe16 type) :: ps) s k s' → P k s') →
  leads (ethernet_send (Some d) dst type (Some p)) s P.
Proof.
  intros Hown Hv Hdst Hsrc Hnone Hsome. unfold ethernet_send.
  apply leads_bind, wp_on_buf, (wp_alloc_draft _ F); [apply Hown| |].
  { intros HF. apply leads_here. destruct s; by apply Hnone. }
  intros hm F' nb1 -> Hdr1 Hs1.
  assert ((hm ∉ l) ∧ (hm ∉ F')) as [Hhl HhF].
  { destruct Hown as [_ _ Hnd]. apply NoDup_app in Hnd as (_ & Hd & Hnd). apply NoDup_cons in Hnd as [? _].
    split; [|done]. intros Hin. apply (Hd hm Hin). by left. }
  apply leads_bind. eapply wp_dev_get; [done|].
  set (hdr := eth_hdr dst (nd_mac v) (htobe16 type)).
  assert (length hdr = 14%nat) as Hlen by done.
  apply leads_bind, wp_on_buf. eapply wp_draft_put; [exact Hdr1|by apply eth_hdr_u8|simpl; lia| |].
  { rewrite Hlen. unfold MBUF_PAGE_SIZE. lia. }
  rewrite drop_nil, app_nil_r. change (take (Z.to_nat 0) [] ++ hdr) with hdr.
  intros nb2 Hdr2 Hs2. apply leads_bind, wp_on_buf. eapply wp_draft_len; [exact Hdr2|].
  intros nb3 Hdr3 Hs3. pose proof (same_but_trans _ _ _ _ Hs1 (same_but_trans _ _ _ _ Hs2 Hs3)) as Hs13.
  apply leads_bind, wp_on_buf. eapply (wp_draft_link _ F' hm hdr p l ps); [exact Hdr3| |done|].
  { eapply owns_same_but; [exact Hown|apply Hdr3| |exact Hs13|done]. intros j Hj. by right. }
  intros nb4 b4 Hown4 Hs4 Hb4 Hr4. apply leads_bind, wp_on_buf.
  eapply wp_total_len; [apply Hown4|apply Hown4| |].
  { destruct Hown4 as [_ _ Hnd]. by apply NoDup_app in Hnd as [? _]. }
  apply leads_here. eapply Hsome; [done|]. split_and!; [done|done|by exists b4| |done].
  exact (same_but_trans _ _ _ _ Hs13 Hs4).
Qed.

(** With a driver that keeps its contract the frame is header and payload. *)
Lemma wp_ethernet_send `{NicDriver} d v dst type p F l ps s (Q : Z → net → Prop) :
  owns (n_buf s) F (Some p) l ps → l_devs (n_link s) !! d = Some v →
  Forall is_u8 dst → Forall is_u8 (nd_mac v) →
  (F = [] → Q (-1) s) →
  (∀ r nb' F', pool_ok nb' F' → (∀ j, j ∈ F' → j ∈ l ++ F) → agree_off (l ++ F) (n_buf s) nb' →
     (r = 0 ∨ r = -1) →
     Q r (put_wire (transmitted d (eth_hdr dst (nd_mac v) (htobe16 type) ++ concat ps) r s) (put_buf nb' s))) →
  wp (ethernet_send (Some d) dst type (Some p)) Q s.
Proof.
  intros Hown Hv Hd Hs Hnone Hsome. apply wp_leads. eapply leads_ethernet_send; [done..| |].
  { intros HF. wp_step. auto. }
  intros k s' hm F1 -> (-> & Hown1 & (b & Hb & Hr) & Hsame & Hs'). pose proof Hown as [_ _ Hnd].
  eapply nic_tx; [exact Hown1|exact Hb|exact Hr|]. intros r nb' F' Hok HF' Hag Hrr.
  rewrite Hs'. unfold transmitted. cbn [n_wire put_buf].
  refine (Hsome r nb' F' Hok _ _ Hrr).
  - intros j Hj. apply HF' in Hj. set_solver.
  - intros j Hj. rewrite Hag by set_solver. apply Hsame. set_solver.
Qed.

(** What [netdev_rx_coalesce] leaves: one flat mbuf with the same bytes, or
    nothing when the packet is too long or no mbuf is free. *)
Definition coalesced (nb : netbuf) (F l : list nat) (ps : list (list Z)) (r : option nat) (nb' : netbuf) : Prop :=
  match r with
  | Some f => ∃ F' b, owns nb' F' (Some f) [f] [concat ps] ∧ f :: F' ≡ₚ l ++ F ∧
                pool nb' !! f = Some b ∧ m_refcount b = 1
  | None => ∃ F', pool_ok nb' F' ∧ F' ≡ₚ l ++ F ∧
              (MBUF_DATA_SIZE < Z.of_nat (length (concat ps)) ∨ F = [])
  end.

Lemma wp_coalesce nb F i l ps b :
  owns nb F (Some i) l ps → pool nb !! i = Some b → m_refcount b = 1 →
  wp (netdev_rx_coalesce (Some i)) (coalesced nb F l ps) nb.
Proof.
  intros Hown Hb Hr. pose proof Hown as [Hok Hp Hnd]. unfold netdev_rx_coalesce.
  assert (NoDup l) as Hl by (by apply NoDup_app in Hnd as [? _]).
  wp_step. eapply wp_deref; [done|].
  destruct (m_next_seg b) as [seg|] eqn:Hseg.
  2:{ wp_step. inversion Hp as [|? b' bs l' ps' ? Hb' Hh Hrest]; subst.
      rewrite Hb in Hb'. injection Hb' as <-. rewrite Hseg in Hrest. inversion Hrest; subst.
      exists F, b. simpl. by rewrite app_nil_r. }
  wp_step. eapply (wp_total_len nb F); [done|done|done|].
  destruct (Z.ltb_spec MBUF_DATA_SIZE (Z.of_nat (length (concat ps)))) as [Hbig|Hsmall].
  { wp_step. eapply wp_free_owned; [done|done|lia|]. intros nb' F' Hok' HF' _. wp_step.
    exists F'. split_and!; [done|done|by left]. }
  wp_step. apply (wp_alloc_draft nb F); [done|..].
  { intros ->. wp_step. eapply wp_free_owned; [done|done|lia|]. intros nb' F' Hok' HF' _. wp_step.
    exists F'. split_and!; [done|done|by right]. }
  intros f F1 nb1 -> Hdr1 Hs1.
  assert (f ∉ l) as Hfl by (apply NoDup_app in Hnd as (_ & Hd & _); intros Hin; apply (Hd f Hin); by left).
  assert (owns nb1 F1 (Some i) l ps) as Hown1.
  { eapply owns_same_but; [exact Hown|apply Hdr1| |exact Hs1|done]. intros j Hj. by right. }
  wp_step. eapply (wp_copyout nb1 F1); [apply Hown1|apply Hown1|done|lia|lia|].
  change (Z.to_nat 0) with 0%nat. rewrite drop_0, Nat2Z.id, firstn_all.
  assert (Forall is_u8 (concat ps)) as Hu.
  { clear -Hp. induction Hp as [|? ? ? ? ? ? ? Hh ? IH]; simpl; [constructor|].
    apply Forall_app; split; [by eapply holds_u8|done]. }
  unfold MBUF_DATA_SIZE in *.
  wp_step. eapply wp_draft_write; [exact Hdr1|done|simpl; lia|unfold MBUF_PAGE_SIZE; lia|].
  intros nb2 Hdr2 Hs2. rewrite drop_nil, app_nil_r in Hdr2.
  wp_step. eapply (draft_update nb2 F1 f _ _ _ _ (concat ps) (Z.of_nat (length (concat ps)))); [exact Hdr2| |].
  { intros b2 d2 _ Hd2 Hpg2 _ _ _ _ Ht2. by exists d2. }
  intros nb3 Hdr3 Hs3.
  pose proof (same_but_trans _ _ _ _ Hs2 Hs3) as Hs23.
  assert (owns nb3 F1 (Some i) l ps) as Hown3.
  { eapply owns_same_but; [exact Hown1|apply Hdr3| |exact Hs23|done]. intros j Hj. done. }
  assert (i ≠ f) as Hif.
  { intros ->. apply Hfl. apply pkt_inv in Hp as [([=] & _)|(? & ? & ? & ? & ? & [= <-] & -> & _)]. by left. }
  wp_step. eapply (wp_free_owned nb3 F1 i l ps); [exact Hown3| |exact (Z.eq_le_incl _ _ Hr)|].
  { rewrite Hs23, Hs1 by done. exact Hb. }
  intros nb4 F4 Hok4 HF4 Hag. wp_step.
  destruct (draft_holds _ _ _ _ Hdr3) as (b3 & Hb3 & Hh3 & Hn3 & Hr3).
  exists F4, b3. rewrite Hag by done. split_and!; [|rewrite HF4; by rewrite Permutation_middle|done|done].
  split; [done| |].
  - econstructor; [by rewrite Hag|done|]. rewrite Hn3. constructor.
  - simpl. apply NoDup_cons. split; [|apply Hok4]. rewrite HF4, elem_of_app.
    intros [?|?]; [done|]. by apply (dr_free _ _ _ _ _ Hdr3).
Qed.

(** [ethernet_rx] on a packet whose first fragment is [bs]. *)
Definition eth_accepts (v : netdev) (bs : list Z) : bool :=
  (14 <=? Z.of_nat (length bs)) &&
  (mac_is_broadcast (take 6 bs) || mac_eq (take 6 bs) (nd_mac v)).

Definition eth_dispatched `{NetEnv} (d i : nat) (v : netdev) (F l : list nat) (bs : list Z)
    (ps : list (list Z)) (s : net) (k : M net unit) (s' : net) : Prop :=
  s' = put_buf (n_buf s') s ∧
  match eth_handler (be16toh (get16 bs 12)) (n_link s) with
  | Some f =>
    if eth_accepts v bs
    then k = eth_call f d i ∧ owns (n_buf s') F (Some i) l (drop 14 bs :: ps) ∧
         ∃ b, pool (n_buf s') !! i = Some b ∧ m_refcount b = 1
    else k = mret tt ∧ freed F l (n_buf s')
  | None => k = mret tt ∧ freed F l (n_buf s')
  end.

Lemma leads_ethernet_rx `{NetEnv} d v i b F l bs ps s :
  owns (n_buf s) F (Some i) l (bs :: ps) → pool (n_buf s) !! i = Some b → m_refcount b = 1 →
  l_devs (n_link s) !! d = Some v →
  leads (ethernet_rx d (Some i)) s (eth_dispatched d i v F l bs ps s).
Proof.
  intros Hown Hb Hr Hv. unfold ethernet_rx.
  destruct (owns_head _ _ _ _ _ _ Hown) as (b' & l' & Hl & Hb' & Hh & _).
  rewrite Hb in Hb'. injection Hb' as <-. pose proof (holds_length _ _ Hh) as Hlen.
  apply leads_bind, wp_on_buf. eapply wp_deref; [done|].
  assert (put_buf (n_buf s) s = s) as -> by by destruct s.
  unfold eth_dispatched, eth_accepts, ETH_HDR_LEN. rewrite Hlen.
  destruct (Z.ltb_spec (m_len b) 14) as [Hshort|Hlong].
  { apply leads_wp, wp_on_buf. eapply wp_free_owned; [done|done|lia|]. intros nb' F' Hok HF' _. split; [done|].
    decide_cmps. simpl. destruct (eth_handler _ _); (split; [done|]; by exists F'). }
  apply leads_bind, wp_on_buf. eapply wp_hdr_get; [done|lia|lia|lia|].
  change (Z.to_nat 0) with 0%nat. rewrite drop_0. change (Z.to_nat 14) with 14%nat.
  assert (get16 (take 14 bs) 12 = get16 bs 12 ∧ take 6 (take 14 bs) = take 6 bs) as [-> ->].
  { split; [|by rewrite take_take]. unfold get16, get8.
    rewrite <-(take_drop 14 bs) at 3 4. rewrite !app_nth1; [done|rewrite length_take; lia..]. }
  assert (put_buf (n_buf s) s = s) as -> by by destruct s.
  rewrite u64_small by (destruct Hh; unfold is_u64, MBUF_PAGE_SIZE in *; lia).
  apply leads_bind, wp_on_buf. eapply wp_skip_hdr; [done|done|lia|lia|lia|].
  intros nb1 b1 Hown1 Hs1 Hb1 Hr1. rewrite Hr in Hr1. decide_cmps.
  replace (take _ _) with (drop 14 bs) in Hown1.
  2:{ rewrite take_ge; [done|]. rewrite length_drop. lia. }
  apply leads_bind. eapply wp_dev_get; [done|]. simpl.
  destruct (mac_is_broadcast (take 6 bs) || mac_eq (take 6 bs) (nd_mac v)) eqn:Hacc;
    rewrite <-negb_orb, Hacc; simpl.
  - apply leads_bind. wp_step. simpl.
    destruct (eth_handler _ _) as [f|].
    + apply leads_here. split_and!; try done. by exists b1.
    + apply leads_wp, wp_on_buf. eapply wp_free_owned; [done|done|lia|]. intros nb' F' Hok HF' _.
      split; [done|]. split; [done|]. by exists F'.
  - apply leads_wp, wp_on_buf. eapply wp_free_owned; [done|done|lia|]. intros nb' F' Hok HF' _.
    split; [done|]. destruct (eth_handler _ _); (split; [done|]; by exists F').
Qed.

(** The header [eth_hdr] is read back as it was built. *)
Lemma eth_hdr_parts dst src type :
  length dst = 6%nat → length src = 6%nat → is_u16 type →
  take 6 (eth_hdr dst src (htobe16 type)) = dst ∧
  be16toh (get16 (eth_hdr dst src (htobe16 type)) 12) = type.
Proof.
  intros Hd Hs Ht. destruct dst as [|a0 [|a1 [|a2 [|a3 [|a4 [|a5 [|? ?]]]]]]]; try done.
  split; [done|]. unfold eth_hdr, mac_copy. simpl. unfold get16, get8. simpl.
  change (get16 (put16 (htobe16 type)) 0) with (Z.lor (u8 (htobe16 type)) (Z.shiftl (u8 (Z.shiftr (htobe16 type) 8)) 8)).
  pose proof (get16_app (htobe16 type) [] ltac:(apply u16_range)) as Hg.
  unfold get16, get8 in Hg. simpl in Hg. rewrite Hg. by apply htobe16_invol.
Qed.

(** ** Theorems *)

(** [netdev_rx_coalesce] gives the protocol layers one flat mbuf holding
    exactly the bytes of the fragment chain, in order, and returns the other
    mbufs to the pool; it drops the packet only when it is longer than
    [MBUF_DATA_SIZE] or no mbuf is free, and then no mbuf is lost. *)
Theorem netdev_rx_coalesce_flat nb F i l ps b :
  owns nb F (Some i) l ps → pool nb !! i = Some b → m_refcount b = 1 →
  ∃ r nb', netdev_rx_coalesce (Some i) nb = Ok (r, nb') ∧
    match r with
    | Some f => ∃ F' b', owns nb' F' (Some f) [f] [concat ps] ∧ f :: F' ≡ₚ l ++ F ∧
                  pool nb' !! f = Some b' ∧ m_refcount b' = 1
    | None => ∃ F', pool_ok nb' F' ∧ F' ≡ₚ l ++ F ∧
                (MBUF_DATA_SIZE < Z.of_nat (length (concat ps)) ∨ F = [])
    end.
Proof.
  intros Hown Hb Hr. pose proof (wp_coalesce _ _ _ _ _ _ Hown Hb Hr) as Hwp.
  apply wp_ok in Hwp as (r & nb' & Hrun & Hc). by exists r, nb'.
Qed.

(** A received frame reaches the handler registered for its ethertype, with
    the 14 header bytes stripped, exactly when it has a full header and is
    addressed to the broadcast or the device's address; every other frame is
    released and nothing else of the stack changes. *)
Theorem ethernet_rx_dispatch `{NetEnv} d v i b F l bs ps s :
  owns (n_buf s) F (Some i) l (bs :: ps) → pool (n_buf s) !! i = Some b → m_refcount b = 1 →
  l_devs (n_link s) !! d = Some v →
  ∃ (k : M net unit) s', ethernet_rx d (Some i) s = k s' ∧ s' = put_buf (n_buf s') s ∧
    match eth_handler (be16toh (get16 bs 12)) (n_link s) with
    | Some f =>
      if (14 <=? Z.of_nat (length bs)) && (mac_is_broadcast (take 6 bs) || mac_eq (take 6 bs) (nd_mac v))
      then k = eth_call f d i ∧ owns (n_buf s') F (Some i) l (drop 14 bs :: ps)
      else k = mret tt ∧ freed F l (n_buf s')
    | None => k = mret tt ∧ freed F l (n_buf s')
    end.
Proof.
  intros Hown Hb Hr Hv. destruct (leads_ethernet_rx d v i b F l bs ps s) as (k & s' & Hrun & Hs' & Hk);
    [done..|]. exists k, s'. split_and!; [done|done|]. unfold eth_accepts in Hk.
  destruct (eth_handler _ _); [destruct (_ && _)|]; tauto.
Qed.

(** A frame sent to a device's own (or the broadcast) address and looped back
    reaches the handler of its ethertype with exactly the payload sent: sending
    builds the header in front of the payload, the receive path flattens the
    chain, checks the address and strips the header.  It needs two free mbufs
    and a frame of at most [MBUF_DATA_SIZE] bytes. *)
Theorem ethernet_loop_roundtrip `{NetEnv} d v dst type fn p F l ps s :
  owns (n_buf s) F (Some p) l ps → l_devs (n_link s) !! d = Some v →
  length dst = 6%nat → Forall is_u8 dst → length (nd_mac v) = 6%nat → Forall is_u8 (nd_mac v) →
  is_u16 type → (mac_is_broadcast dst || mac_eq dst (nd_mac v)) = true →
  eth_handler type (n_link s) = Some fn → (2 ≤ length F)%nat →
  14 + Z.of_nat (length (concat ps)) ≤ MBUF_DATA_SIZE →
  leads (ethernet_send (Some d) dst type (Some p)) s (λ k s1, ∃ h, k = dev_tx d h ∧
    leads (netdev_rx_poll d (Some h)) s1 (λ k2 s2, ∃ i F2, k2 = eth_call fn d i ∧
      owns (n_buf s2) F2 (Some i) [i] [concat ps] ∧ i :: F2 ≡ₚ l ++ F ∧ s2 = put_buf (n_buf s2) s)).
Proof.
  intros Hown Hv Hdl Hdu Hml Hmu Ht Hacc Hfn HF Hfit.
  eapply leads_ethernet_send; [done|done|done|done|intros ->; simpl in HF; lia|].
  intros k s1 hm F1 -> (-> & Hown1 & (b & Hb & Hr) & _ & Hs1). exists hm. split; [done|].
  destruct (eth_hdr_parts dst (nd_mac v) type) as [Hp6 Hpt]; [done..|].
  set (hdr := eth_hdr dst (nd_mac v) (htobe16 type)) in *. assert (length hdr = 14%nat) as Hl14 by done.
  clearbody hdr. unfold netdev_rx_poll. apply leads_bind, wp_on_buf. eapply wp_mono; [by eapply wp_coalesce|].
  intros [i|] nb2; simpl.
  2:{ intros (F2 & _ & _ & [Hbig| ->]); [|simpl in HF; lia].
      rewrite length_app, Hl14 in Hbig. lia. }
  intros (F2 & b2 & Hown2 & HF2 & Hb2 & Hr2).
  destruct (leads_ethernet_rx d v i b2 F2 [i] (hdr ++ concat ps) [] (put_buf nb2 s1)) as (k & s' & Hrun & Hs' & Hk);
    [done|done|done|by rewrite Hs1|].
  exists k, s'. split; [exact Hrun|].
  assert (get16 (hdr ++ concat ps) 12 = get16 hdr 12) as Hg.
  { unfold get16, get8. by rewrite !app_nth1 by lia. }
  assert (eth_accepts v (hdr ++ concat ps) = true) as Ha.
  { unfold eth_accepts. rewrite take_app_le, Hp6, Hacc, length_app by lia. decide_cmps. done. }
  rewrite Ha, Hg, Hpt in Hk. rewrite Hs1 in Hk, Hs'. simpl in Hk. rewrite Hfn in Hk.
  rewrite drop_app_length' in Hk by done. destruct Hk as (-> & Hown3 & _).
  exists i, F2. split_and!; [done|done| |by rewrite Hs'].
  by rewrite HF2, Permutation_middle.
Qed.

(** ** Witnesses *)

Lemma netdev_rx_coalesce_flat_witness :
  ∃ r nb', netdev_rx_coalesce (Some 0%nat) demo_nb = Ok (r, nb') ∧
    match r with
    | Some f => ∃ F' b', owns nb' F' (Some f) [f] [[1; 2; 3; 4; 5; 6; 7]] ∧ f :: F' ≡ₚ [0; 1; 2; 3; 4]%nat ∧
                  pool nb' !! f = Some b' ∧ m_refcount b' = 1
    | None => ∃ F', pool_ok nb' F' ∧ F' ≡ₚ [0; 1; 2; 3; 4]%nat ∧ (MBUF_DATA_SIZE < 7 ∨ [2; 3; 4]%nat = [])
    end.
Proof.
  exact (netdev_rx_coalesce_flat demo_nb [2; 3; 4]%nat 0 [0; 1]%nat [[1; 2; 3; 4]; [5; 6; 7]]
    (demo_mbuf [1; 2; 3; 4] None (Some 1%nat)) demo_owns eq_refl eq_refl).
Defined.

(** The packet of [demo_nb] is too short for a header. *)
Lemma ethernet_rx_dispatch_witness :
  ∃ (k : M net unit) s', @ethernet_rx idle_env 0 (Some 0%nat) demo_net = k s' ∧ s' = put_buf (n_buf s') demo_net ∧
    k = mret tt ∧ freed [2; 3; 4]%nat [0; 1]%nat (n_buf s').
Proof.
  destruct (@ethernet_rx_dispatch idle_env 0 demo_dev 0 (demo_mbuf [1; 2; 3; 4] None (Some 1%nat))
    [2; 3; 4]%nat [0; 1]%nat [1; 2; 3; 4] [[5; 6; 7]] demo_net demo_owns eq_refl eq_refl eq_refl)
    as (k & s' & Hrun & Hs' & Hk).
  exists k, s'. split; [exact Hrun|]. split; [exact Hs'|]. exact Hk.
Defined.

Lemma ethernet_loop_roundtrip_witness :
  leads (@ethernet_send idle_env (Some 0%nat) ETH_BROADCAST ETH_P_IP (Some 0%nat)) demo_net (λ k s1, ∃ h,
    k = @dev_tx idle_env 0 h ∧
    leads (@netdev_rx_poll idle_env 0 (Some h)) s1 (λ k2 s2, ∃ i F2, k2 = @eth_call idle_env fn_ipv4_rx 0 i ∧
      owns (n_buf s2) F2 (Some i) [i] [[1; 2; 3; 4; 5; 6; 7]] ∧ i :: F2 ≡ₚ [0; 1; 2; 3; 4]%nat ∧
      s2 = put_buf (n_buf s2) demo_net)).
Proof.
  apply (@ethernet_loop_roundtrip idle_env 0 demo_dev ETH_BROADCAST ETH_P_IP fn_ipv4_rx 0 [2; 3; 4]%nat
    [0; 1]%nat [[1; 2; 3; 4]; [5; 6; 7]] demo_net); try exact demo_owns; try done; demo_bytes.
Defined.
