(* ===== verification/Arp.v ===== *)
(** * Arp: address resolution (kernel/arp.c)

    The cache of [ARP_CACHE_SIZE] entries with replacement of the oldest,
    ageing, and the packets the layer sends and answers. *)

From S2P Require Import Prelude NetUtil NetBuf Net Link.

Definition ARP_CACHE_SIZE : nat := 16.
Definition ARP_TIMEOUT_TICKS : Z := 300.
Definition ARP_OP_REQUEST : Z := 1.
Definition ARP_OP_REPLY : Z := 2.

Definition arp_zero : arp_entry := ArpEntry 0 [0; 0; 0; 0; 0; 0] false 0.

Definition arp_init : M net unit :=
  modify (λ s, put_arp (Arp (replicate ARP_CACHE_SIZE arp_zero) (g_arp_pending (n_arp s))) s);;
  on_link (ethertype_register ETH_P_ARP fn_arp_handle_rx).

(** [e->valid && e->ip == ip], the test of the scans. *)
Definition arp_match (ip : Z) (e : arp_entry) : bool := ae_valid e && (ae_ip e =? ip).

(** [for (i = 1; i < SIZE; i++) if (cache[i].age > max_age) ...] from index [i] on. *)
Fixpoint oldest_scan (l : list arp_entry) (i oldest : nat) (max_age : Z) : nat :=
  match l with
  | [] => oldest
  | e :: l' => if max_age <? ae_age e then oldest_scan l' (S i) i (ae_age e)
               else oldest_scan l' (S i) oldest max_age
  end.
Definition arp_oldest (c : list arp_entry) : nat :=
  match c with
  | [] => 0
  | e :: l => oldest_scan l 1 0 (ae_age e)
  end.

Definition arp_cache_insert (c : list arp_entry) (ip : Z) (mac : list Z) : list arp_entry :=
  match list_find (λ e, Is_true (arp_match ip e)) c with
  | Some (i, e) => <[i := ArpEntry (ae_ip e) (mac_copy mac) (ae_valid e) 0]> c
  | None =>
    match list_find (λ e, Is_true (negb (ae_valid e))) c with
    | Some (i, _) => <[i := ArpEntry ip (mac_copy mac) true 0]> c
    | None => <[arp_oldest c := ArpEntry ip (mac_copy mac) true 0]> c
    end
  end.

Definition arp_lookup (c : list arp_entry) (ip : Z) : option (list Z) :=
  match list_find (λ e, Is_true (arp_match ip e)) c with
  | Some (_, e) => Some (mac_copy (ae_mac e))
  | None => None
  end.

Definition arp_tick_entry (e : arp_entry) : arp_entry :=
  if ae_valid e then
    let age := u32 (ae_age e + 1) in
    ArpEntry (ae_ip e) (ae_mac e) (negb (ARP_TIMEOUT_TICKS <=? age)) age
  else e.
Definition arp_tick (c : list arp_entry) : list arp_entry := map arp_tick_entry c.

(** The state of the layer, accessed from the stack. *)
Definition arp_insert (ip : Z) (mac : list Z) : M net unit :=
  on_arp (modify (λ a, Arp (arp_cache_insert (g_arp_cache a) ip mac) (g_arp_pending a))).

(** The 28 bytes of an Ethernet/IPv4 ARP packet. *)
Definition arp_pkt (op : Z) (smac : list Z) (sip : Z) (tmac : list Z) (tip : Z) : list Z :=
  [0; 1; 8; 0; 6; 4; 0; op] ++ mac_copy smac ++ put32 sip ++ mac_copy tmac ++ put32 tip.

Section arp.
Context `{NetEnv}.

Definition arp_send_request (d : nat) (target_ip : Z) : M net unit :=
  m ← on_buf mbuf_alloc0;
  match m with
  | None => mret tt
  | Some i =>
    v ← dev_get d;
    on_buf (hdr_put i 0 (arp_pkt ARP_OP_REQUEST (nd_mac v) (nd_ip v) [0; 0; 0; 0; 0; 0] target_ip));;
    on_buf (update i (set_len 28));;
    on_arp (modify (λ a, let p := g_arp_pending a in
                         Arp (g_arp_cache a) (ArpEntry target_ip (ae_mac p) true (ae_age p))));;
    ethernet_send (Some d) ETH_BROADCAST ETH_P_ARP (Some i);;
    mret tt
  end.

Definition arp_handle_rx (d m : nat) : M net unit :=
  b ← on_buf (deref m);
  if m_len b <? 8 then on_buf (mbuf_free (Some m))
  else
    ah ← on_buf (hdr_get m 0 8);
    let opcode := be16toh (get16 ah 6) in
    if negb (get16 ah 0 =? htobe16 1) || negb (get16 ah 2 =? htobe16 ETH_P_IP)
    then on_buf (mbuf_free (Some m))
    else if m_len b <? 8 + 20 then on_buf (mbuf_free (Some m))
    else
      body ← on_buf (hdr_get m 8 20);
      let sender_ip := get32 body 6 in
      if opcode =? ARP_OP_REQUEST then
        v ← dev_get d;
        if get32 body 14 =? nd_ip v then
          reply ← on_buf mbuf_alloc0;
          match reply with
          | None => on_buf (mbuf_free (Some m))
          | Some r =>
            on_buf (hdr_put r 0 (arp_pkt ARP_OP_REPLY (nd_mac v) (nd_ip v) (take 6 body) sender_ip));;
            on_buf (update r (set_len 28));;
            ethernet_send (Some d) body ETH_P_ARP (Some r);;
            mac ← on_buf (read_data m (m_data_off b + 8) 6);
            arp_insert sender_ip mac;;
            on_buf (mbuf_free (Some m))
          end
        else on_buf (mbuf_free (Some m))
      else if opcode =? ARP_OP_REPLY then
        arp_insert sender_ip body;;
        on_buf (mbuf_free (Some m))
      else on_buf (mbuf_free (Some m)).

Definition ARP_RESOLVE_TRIES : nat := Z.to_nat 50000.

(** The MAC address written to [mac_out], [None] for the result -1. *)
Definition arp_resolve (d : nat) (ip : Z) : M net (option (list Z)) :=
  v ← dev_get d;
  if ip =? nd_ip v then mret (Some (mac_copy (nd_mac v)))
  else
    cached ← gets (λ s, arp_lookup (g_arp_cache (n_arp s)) ip);
    match cached with
    | Some mac => mret (Some mac)
    | None =>
      arp_send_request d ip;;
      for_ret ARP_RESOLVE_TRIES 0 (λ i,
        (if Z.land i 0xFF =? 0 then netdev_poll_all else mret tt);;
        gets (λ s, arp_lookup (g_arp_cache (n_arp s)) ip))
    end.
End arp.

(** ** The cache as a map from addresses *)

Record arp_wf (c : list arp_entry) : Prop := ArpWf {
  aw_size : length c = ARP_CACHE_SIZE;
  aw_mac : ∀ i e, c !! i = Some e → length (ae_mac e) = 6%nat;
  aw_unique : ∀ i j e1 e2, c !! i = Some e1 → c !! j = Some e2 → ae_valid e1 = true → ae_valid e2 = true →
    ae_ip e1 = ae_ip e2 → i = j }.

Lemma mac_copy_id mac : length mac = 6%nat → mac_copy mac = mac.
Proof. by destruct mac as [|a0 [|a1 [|a2 [|a3 [|a4 [|a5 [|? ?]]]]]]]. Qed.

Lemma arp_match_spec ip e : Is_true (arp_match ip e) ↔ ae_valid e = true ∧ ae_ip e = ip.
Proof. unfold arp_match. destruct (ae_valid e), (Z.eqb_spec (ae_ip e) ip); simpl; naive_solver. Qed.

Lemma arp_lookup_spec c ip mac :
  arp_wf c →
  arp_lookup c ip = Some mac ↔ ∃ i e, c !! i = Some e ∧ ae_valid e = true ∧ ae_ip e = ip ∧ ae_mac e = mac.
Proof.
  intros [_ Hm Hu]. unfold arp_lookup. split.
  - destruct (list_find _ c) as [[i e]|] eqn:Hf; [|done]. intros [= <-].
    apply list_find_Some in Hf as (Hi & [Hv Hip]%arp_match_spec & _).
    exists i, e. split_and!; try done. symmetry. by eapply mac_copy_id, Hm.
  - intros (i & e & Hi & Hv & Hip & <-).
    destruct (list_find _ c) as [[j e']|] eqn:Hf.
    + apply list_find_Some in Hf as (Hj & [Hv' Hip']%arp_match_spec & _).
      assert (i = j) as -> by (eapply Hu; try done; congruence). rewrite Hi in Hj. injection Hj as <-.
      f_equal. by eapply mac_copy_id, Hm.
    + apply list_find_None in Hf. rewrite Forall_lookup in Hf. destruct (Hf i e Hi). by apply arp_match_spec.
Qed.

Lemma arp_lookup_ext c c' ip ip' :
  arp_wf c → arp_wf c' →
  (∀ m, (∃ i e, c' !! i = Some e ∧ ae_valid e = true ∧ ae_ip e = ip' ∧ ae_mac e = m) ↔
        (∃ i e, c !! i = Some e ∧ ae_valid e = true ∧ ae_ip e = ip ∧ ae_mac e = m)) →
  arp_lookup c' ip' = arp_lookup c ip.
Proof.
  intros Hc Hc' Heq. apply option_eq. intros m.
  rewrite (arp_lookup_spec c'), (arp_lookup_spec c) by done. apply Heq.
Qed.

(** Storing an entry for [ip] in slot [i] when no other slot has one. *)
Lemma arp_store c i old ip mac :
  arp_wf c → c !! i = Some old → length mac = 6%nat →
  (∀ j e, c !! j = Some e → j ≠ i → ae_valid e = true → ae_ip e ≠ ip) →
  let c' := <[i := ArpEntry ip mac true 0]> c in
  arp_wf c' ∧ arp_lookup c' ip = Some mac ∧
  ∀ ip', ip' ≠ ip →
    arp_lookup c' ip' = if ae_valid old && (ae_ip old =? ip') then None else arp_lookup c ip'.
Proof.
  intros Hwf Hi Hmac Hno c'. pose proof Hwf as [Hs Hm Hu].
  assert (i < length c)%nat as Hlt by (by eapply lookup_lt_Some).
  assert (∀ j e, c' !! j = Some e → j = i ∧ e = ArpEntry ip mac true 0 ∨ j ≠ i ∧ c !! j = Some e) as Hinv.
  { intros j e He. subst c'. destruct (decide (j = i)) as [->|Hne].
    - rewrite list_lookup_insert_eq in He by done. left. naive_solver.
    - rewrite list_lookup_insert_ne in He by done. by right. }
  assert (c' !! i = Some (ArpEntry ip mac true 0)) as Hci by (by apply list_lookup_insert_eq).
  assert (∀ j, j ≠ i → c' !! j = c !! j) as Hcj by (intros j Hj; by apply list_lookup_insert_ne).
  assert (arp_wf c') as Hwf'.
  { split; [by rewrite <-Hs; apply length_insert| |].
    - intros j e [[-> ->]|[_ He]]%Hinv; [done|by eapply Hm].
    - intros j1 j2 e1 e2 [[-> ->]|[Hn1 H1]]%Hinv [[-> ->]|[Hn2 H2]]%Hinv Hv1 Hv2 Heq; simpl in *; try done.
      + by destruct (Hno j2 e2 H2 Hn2 Hv2).
      + by destruct (Hno j1 e1 H1 Hn1 Hv1).
      + by eapply Hu. }
  split_and!; [done| |].
  - apply arp_lookup_spec; [done|]. by exists i, (ArpEntry ip mac true 0).
  - intros ip' Hne. destruct (ae_valid old && (ae_ip old =? ip')) eqn:Hev.
    + apply andb_prop in Hev as [Hov Hoip%Z.eqb_eq].
      destruct (arp_lookup c' ip') as [m|] eqn:Hl; [|done].
      apply arp_lookup_spec in Hl as (j & e & He & Hv & Hip & _); [|done].
      apply Hinv in He as [[-> ->]|[Hn He]]; [by simpl in Hip|].
      destruct Hn. eapply Hu; [exact He|exact Hi|done|done|congruence].
    + apply arp_lookup_ext; [done|done|]. intros m. split.
      * intros (j & e & [[-> ->]|[Hn He]]%Hinv & Hv & Hip & Hmm); [by simpl in Hip|]. by exists j, e.
      * intros (j & e & He & Hv & Hip & Hmm). exists j, e. split_and!; try done.
        rewrite Hcj; [done|]. intros ->. rewrite Hi in He. injection He as ->.
        rewrite Hv in Hev. by apply Z.eqb_neq in Hev.
Qed.

(** The scan finds an entry of maximal age. *)
Lemma oldest_scan_spec l : ∀ (c : list arp_entry) i o m,
  drop i c = l → (o < i)%nat → (∃ e, c !! o = Some e ∧ ae_age e = m) →
  (∀ j e, (j < i)%nat → c !! j = Some e → ae_age e ≤ m) →
  ∃ e, c !! oldest_scan l i o m = Some e ∧ ∀ j e', c !! j = Some e' → ae_age e' ≤ ae_age e.
Proof.
  induction l as [|x l IH]; intros c i o m Hd Ho (e & He & Hage) Hle; simpl.
  - exists e. split; [done|]. intros j e' Hj. rewrite Hage. apply (Hle j); [|done].
    apply lookup_lt_Some in Hj. apply (f_equal length) in Hd. rewrite length_drop in Hd. simpl in Hd. lia.
  - assert (c !! i = Some x) as Hx by (rewrite <-(Nat.add_0_r i), <-lookup_drop, Hd; done).
    assert (drop (S i) c = l) as Hd' by (by rewrite <-Nat.add_1_r, <-drop_drop, Hd).
    destruct (Z.ltb_spec m (ae_age x)) as [Hlt|Hge].
    + apply IH; [done|lia|by exists x|]. intros j e' Hj He'.
      destruct (decide (j = i)) as [->|]; [naive_solver lia|]. specialize (Hle j e' ltac:(lia) He'). lia.
    + apply IH; [done|lia|by exists e|]. intros j e' Hj He'.
      destruct (decide (j = i)) as [->|]; [naive_solver lia|]. by apply (Hle j e' ltac:(lia)).
Qed.

Lemma arp_oldest_spec c :
  c ≠ [] → ∃ e, c !! arp_oldest c = Some e ∧ ∀ j e', c !! j = Some e' → ae_age e' ≤ ae_age e.
Proof.
  destruct c as [|x l]; [done|]. intros _. unfold arp_oldest.
  apply oldest_scan_spec; [done|lia|by exists x|]. intros [|j] e Hj; [|lia]. naive_solver lia.
Qed.

Lemma arp_insert_spec c ip mac :
  arp_wf c → length mac = 6%nat →
  ∃ i old, c !! i = Some old ∧
    let c' := arp_cache_insert c ip mac in
    arp_wf c' ∧ c' !! i = Some (ArpEntry ip mac true 0) ∧ arp_lookup c' ip = Some mac ∧
    (∀ ip', ip' ≠ ip →
       arp_lookup c' ip' = if ae_valid old && (ae_ip old =? ip') then None else arp_lookup c ip') ∧
    (ae_valid old = true → ae_ip old ≠ ip →
       (∀ j e, c !! j = Some e → ae_valid e = true) ∧ arp_lookup c ip = None ∧
       ∀ j e, c !! j = Some e → ae_age e ≤ ae_age old).
Proof.
  intros Hwf Hmac. pose proof Hwf as [Hs Hm Hu]. unfold arp_cache_insert. rewrite (mac_copy_id mac) by done.
  destruct (list_find (λ e, Is_true (arp_match ip e)) c) as [[i e]|] eqn:Hf.
  - apply list_find_Some in Hf as (Hi & [Hv Hip]%arp_match_spec & _). exists i, e. split; [done|].
    rewrite Hip, Hv. destruct (arp_store c i e ip mac) as (H1 & H2 & H3); [done..| |].
    { intros j e' Hj Hne Hv' Hip'. destruct Hne. eapply Hu; try done. congruence. }
    rewrite Hv, Hip in H3. split_and!; try done. apply list_lookup_insert_eq. by eapply lookup_lt_Some.
  - apply list_find_None in Hf. rewrite Forall_lookup in Hf.
    assert (∀ j e, c !! j = Some e → ae_valid e = true → ae_ip e ≠ ip) as Hno.
    { intros j e Hj Hv Hip. destruct (Hf j e Hj). by apply arp_match_spec. }
    destruct (list_find (λ e, Is_true (negb (ae_valid e))) c) as [[i e]|] eqn:Hg.
    + apply list_find_Some in Hg as (Hi & Hv%negb_prop_elim & _).
      assert (ae_valid e = false) as Hvf by (by destruct (ae_valid e)).
      exists i, e. split; [done|]. destruct (arp_store c i e ip mac) as (H1 & H2 & H3); [done..| |].
      { intros j e' Hj _. by apply (Hno j). }
      split_and!; try done; [|congruence]. apply list_lookup_insert_eq. by eapply lookup_lt_Some.
    + apply list_find_None in Hg. rewrite Forall_lookup in Hg.
      destruct (arp_oldest_spec c) as (e & Ho & Hmax); [by intros ->|].
      exists (arp_oldest c), e. split; [done|].
      destruct (arp_store c (arp_oldest c) e ip mac) as (H1 & H2 & H3); [done..| |].
      { intros j e' Hj _. by apply (Hno j). }
      split_and!; try done; [apply list_lookup_insert_eq; by eapply lookup_lt_Some|].
      intros _ _. split_and!; [| |done].
      * intros j e' Hj. specialize (Hg j e' Hj). by destruct (ae_valid e').
      * destruct (arp_lookup c ip) as [m|] eqn:Hl; [|done].
        apply arp_lookup_spec in Hl as (j & e' & Hj & Hv & Hip & _); [|done]. by destruct (Hno j e' Hj Hv).
Qed.

Lemma arp_tick_lookup c i : arp_tick c !! i = arp_tick_entry <$> c !! i.
Proof. apply list_lookup_fmap. Qed.

Lemma arp_tick_wf c : arp_wf c → arp_wf (arp_tick c).
Proof.
  intros [Hs Hm Hu]. split.
  - unfold arp_tick. by rewrite length_map.
  - intros i e. rewrite arp_tick_lookup. intros (e0 & He & ->)%fmap_Some. specialize (Hm _ _ He).
    unfold arp_tick_entry. by destruct (ae_valid e0).
  - intros i j e1 e2. rewrite !arp_tick_lookup. intros (f1 & H1 & ->)%fmap_Some (f2 & H2 & ->)%fmap_Some.
    unfold arp_tick_entry. destruct (ae_valid f1) eqn:Hv1; [|congruence].
    destruct (ae_valid f2) eqn:Hv2; [|congruence]. simpl. intros _ _ Heq. by eapply Hu.
Qed.

(** An entry ages by one per tick until it expires. *)
Lemma arp_ticks_entry c i ip mac k :
  c !! i = Some (ArpEntry ip mac true 0) →
  ∃ e, Nat.iter k arp_tick c !! i = Some e ∧ ae_ip e = ip ∧ ae_mac e = mac ∧
    ae_valid e = (Z.of_nat k <? ARP_TIMEOUT_TICKS) ∧ (ae_valid e = true → ae_age e = Z.of_nat k).
Proof.
  intros Hi. unfold ARP_TIMEOUT_TICKS in *. induction k as [|k (e & He & Hip & Hmac & Hv & Hage)].
  - exists (ArpEntry ip mac true 0). by split_and!.
  - exists (arp_tick_entry e). rewrite Nat.iter_succ, arp_tick_lookup, He. unfold arp_tick_entry.
    destruct (Z.ltb_spec (Z.of_nat k) 300) as [Hlt|Hge]; rewrite Hv; simpl.
    + rewrite Hage by done. rewrite u32_small by (unfold is_u32; lia). unfold ARP_TIMEOUT_TICKS.
      split_and!; try done; [by rewrite Hv| |intros _; lia].
      destruct (Z.leb_spec 300 (Z.of_nat k + 1)); decide_cmps; done.
    + split_and!; try done; [by rewrite Hv|rewrite Hv; decide_cmps; done|by rewrite Hv].
Qed.

Lemma arp_ticks_wf c k : arp_wf c → arp_wf (Nat.iter k arp_tick c).
Proof. intros Hwf. induction k; [done|]. rewrite Nat.iter_succ. by apply arp_tick_wf. Qed.

(** The other direction: an address found after [k] ticks was in the cache. *)
Lemma arp_ticks_back c k j e :
  Nat.iter k arp_tick c !! j = Some e → ae_valid e = true →
  ∃ e0, c !! j = Some e0 ∧ ae_valid e0 = true ∧ ae_ip e0 = ae_ip e.
Proof.
  revert e. induction k as [|k IH]; intros e He Hv; [by exists e|].
  rewrite Nat.iter_succ, arp_tick_lookup in He. apply fmap_Some in He as (e1 & He1 & ->).
  unfold arp_tick_entry in *. destruct (ae_valid e1) eqn:Hv1; [|congruence].
  destruct (IH e1 He1 Hv1) as (e0 & ? & ? & ?). by exists e0.
Qed.

(** ** Theorems *)

(** Inserting a binding keeps the cache well formed (one valid entry per
    address), makes the address resolve to exactly that MAC, and leaves every
    other binding alone, except that inserting a new address into a full cache
    drops one entry of maximal age. *)
Theorem arp_cache_insert_correct c ip mac :
  arp_wf c → length mac = 6%nat →
  let c' := arp_cache_insert c ip mac in
  arp_wf c' ∧ arp_lookup c' ip = Some mac ∧
  ∀ ip', ip' ≠ ip →
    arp_lookup c' ip' = arp_lookup c ip' ∨
    arp_lookup c' ip' = None ∧ arp_lookup c ip = None ∧ (∀ j e, c !! j = Some e → ae_valid e = true) ∧
      ∃ i old, c !! i = Some old ∧ ae_ip old = ip' ∧ ∀ j e, c !! j = Some e → ae_age e ≤ ae_age old.
Proof.
  intros Hwf Hmac c'. destruct (arp_insert_spec c ip mac Hwf Hmac) as (i & old & Hi & H1 & H2 & H3 & H4 & H5).
  split_and!; [done|done|]. intros ip' Hne. specialize (H4 ip' Hne).
  destruct (ae_valid old && (ae_ip old =? ip')) eqn:Hev; [|by left]. right.
  apply andb_prop in Hev as [Hv Hip%Z.eqb_eq]. destruct H5 as (H5 & H6 & H7); [done|congruence|].
  split_and!; try done. by exists i, old.
Qed.

(** A binding that is not refreshed resolves for the next 299 ticks and is
    gone from the 300th on. *)
Theorem arp_entry_expires c ip mac k :
  arp_wf c → length mac = 6%nat →
  arp_lookup (Nat.iter k arp_tick (arp_cache_insert c ip mac)) ip =
  if Z.of_nat k <? ARP_TIMEOUT_TICKS then Some mac else None.
Proof.
  intros Hwf Hmac. destruct (arp_insert_spec c ip mac Hwf Hmac) as (i & old & Hi & H1 & H2 & H3 & _).
  set (c' := arp_cache_insert c ip mac) in *. pose proof (arp_ticks_wf c' k H1) as Hwk.
  destruct (arp_ticks_entry c' i ip mac k H2) as (e & He & Hip & Hm & Hv & _).
  destruct (Z.of_nat k <? ARP_TIMEOUT_TICKS) eqn:Hk.
  - apply arp_lookup_spec; [done|]. by exists i, e.
  - destruct (arp_lookup (Nat.iter k arp_tick c') ip) as [m|] eqn:Hl; [|done].
    apply arp_lookup_spec in Hl as (j & e' & Hj & Hv' & Hip' & _); [|done].
    destruct (arp_ticks_back c' k j e' Hj Hv') as (e0 & He0 & Hv0 & Hip0).
    assert (j = i) as -> by (eapply (aw_unique _ H1); [exact He0|exact H2|done|done|simpl; congruence]).
    congruence.
Qed.

(** ** Packets *)

Lemma put32_u8 v : Forall is_u8 (put32 v).
Proof. unfold put32. apply Forall_app_2; apply put16_u8. Qed.

Lemma arp_pkt_u8 op smac sip tmac tip :
  is_u8 op → Forall is_u8 smac → Forall is_u8 tmac → Forall is_u8 (arp_pkt op smac sip tmac tip).
Proof.
  intros Ho Hs Ht. unfold arp_pkt. apply Forall_app_2.
  { repeat constructor; unfold is_u8 in *; lia. }
  apply Forall_app_2; [by apply mac_copy_u8|]. apply Forall_app_2; [apply put32_u8|].
  apply Forall_app_2; [by apply mac_copy_u8|apply put32_u8].
Qed.

Lemma arp_pkt_length op smac sip tmac tip : length (arp_pkt op smac sip tmac tip) = 28%nat.
Proof. done. Qed.

(** The fields of a received packet. *)
Lemma take_get16 (bs : list Z) off n i :
  (off + n ≤ length bs)%nat → (i + 2 ≤ n)%nat → get16 (take n (drop off bs)) i = get16 bs (off + i).
Proof.
  intros Hn Hi. unfold get16, get8. rewrite !nth_lookup, !lookup_take_lt, !lookup_drop by lia.
  by rewrite Nat.add_assoc.
Qed.

Lemma take_get32 (bs : list Z) off n i :
  (off + n ≤ length bs)%nat → (i + 4 ≤ n)%nat → get32 (take n (drop off bs)) i = get32 bs (off + i).
Proof. intros Hn Hi. unfold get32. rewrite !take_get16 by lia. by rewrite Nat.add_assoc. Qed.

(** What the code takes for a request for address [ip].  It reads the target
    address from byte 22 of the packet ([body + 14]). *)
Definition arp_request_for (ip : Z) (bs : list Z) : Prop :=
  (28 ≤ length bs)%nat ∧ get16 bs 0 = htobe16 1 ∧ get16 bs 2 = htobe16 ETH_P_IP ∧
  be16toh (get16 bs 6) = ARP_OP_REQUEST ∧ get32 bs 22 = ip.

(** The standard request: a zero target MAC, the target address at byte 24. *)
Definition arp_standard_request (smac : list Z) (sip ip : Z) : list Z :=
  arp_pkt ARP_OP_REQUEST smac sip [0; 0; 0; 0; 0; 0] ip.

(** What [arp_handle_rx] reads as the target address of a standard request: the
    end of the target MAC and the first half of the address. *)
Lemma standard_request_target smac sip ip :
  is_u32 ip → get32 (arp_standard_request smac sip ip) 22 = (ip mod 65536) * 65536.
Proof.
  intros Hip. unfold get32, get16, get8, arp_standard_request, arp_pkt, mac_copy. cbn -[Z.lor Z.shiftl u8 Z.modulo Z.mul].
  unfold is_u32 in Hip. pose proof (Z.mod_pos_bound ip 65536). pose proof (Z.div_mod ip 65536).
  change (Z.lor 0 (Z.shiftl 0 8)) with 0. rewrite Z.lor_0_l. rewrite word_add by apply u8_range.
  rewrite Z.shiftl_mul_pow2 by lia. f_equal. unfold u8. rewrite Z.shiftr_div_pow2 by lia.
  change (2 ^ 8) with 256. pose proof (Z.div_mod ip 256). pose proof (Z.mod_pos_bound ip 256).
  Z.div_mod_to_equations. lia.
Qed.

(** A request the code takes to be for the device's address is answered: one reply frame goes
    to the requester, carrying the device's MAC and IP as sender and the
    requester's as target; the requester is cached, and both the request and
    the reply are released. *)
Theorem arp_request_answered `{NicDriver} d v m b F bs s :
  owns (n_buf s) F (Some m) [m] [bs] → pool (n_buf s) !! m = Some b → m_refcount b = 1 →
  l_devs (n_link s) !! d = Some v → Forall is_u8 (nd_mac v) → (2 ≤ length F)%nat →
  arp_request_for (nd_ip v) bs →
  let sender_mac := take 6 (drop 8 bs) in
  let sender_ip := get32 bs 14 in
  ∃ r s' F', arp_handle_rx d m s = Ok (tt, s') ∧ (r = 0 ∨ r = -1) ∧
    n_wire s' = transmitted d (eth_hdr sender_mac (nd_mac v) (htobe16 ETH_P_ARP) ++
                  arp_pkt ARP_OP_REPLY (nd_mac v) (nd_ip v) sender_mac sender_ip) r s ∧
    g_arp_cache (n_arp s') = arp_cache_insert (g_arp_cache (n_arp s)) sender_ip sender_mac ∧
    pool_ok (n_buf s') F' ∧ m ∈ F'.
Proof.
  intros Hown Hb Hr Hv Hmac HF (Hlen & Hhw & Hproto & Hop & Htip) sender_mac sender_ip.
  enough (wp (arp_handle_rx d m) (λ _ s', ∃ r F', (r = 0 ∨ r = -1) ∧
    n_wire s' = transmitted d (eth_hdr sender_mac (nd_mac v) (htobe16 ETH_P_ARP) ++
                  arp_pkt ARP_OP_REPLY (nd_mac v) (nd_ip v) sender_mac sender_ip) r s ∧
    g_arp_cache (n_arp s') = arp_cache_insert (g_arp_cache (n_arp s)) sender_ip sender_mac ∧
    pool_ok (n_buf s') F' ∧ m ∈ F') s) as Hwp.
  { apply wp_ok in Hwp as ([] & s' & Hrun & r & F' & Hpost). by exists r, s', F'. }
  assert (Forall is_u8 bs) as Hu.
  { destruct (owns_head _ _ _ _ _ _ Hown) as (? & ? & _ & _ & Hh & _). by eapply holds_u8. }
  destruct (owns_head _ _ _ _ _ _ Hown) as (b' & l' & Hl & Hb' & Hh & _ & _ & HmF).
  rewrite Hb in Hb'. injection Hb' as <-. pose proof (holds_length _ _ Hh) as Hbl.
  unfold arp_handle_rx. wp_step. apply wp_on_buf. eapply wp_deref; [done|].
  assert (put_buf (n_buf s) s = s) as Hid by by destruct s. rewrite Hid. decide_cmps.
  wp_step. apply wp_on_buf. eapply wp_hdr_get; [done|lia|lia|lia|]. rewrite Hid.
  change (Z.to_nat 8) with 8%nat. change (Z.to_nat 0) with 0%nat.
  rewrite !take_get16 by lia. simpl Nat.add. rewrite Hhw, Hproto, Hop, !Z.eqb_refl. simpl.
  wp_step. apply wp_on_buf. eapply wp_hdr_get; [done|lia|lia|lia|]. rewrite Hid.
  change (Z.to_nat 20) with 20%nat. change (Z.to_nat 8) with 8%nat.
  rewrite !take_get32 by lia. simpl Nat.add. change (ARP_OP_REQUEST =? ARP_OP_REQUEST) with true. cbn [negb].
  set (body := take 20 (drop 8 bs)).
  assert (take 6 body = sender_mac) as Hsm by (unfold body; by rewrite take_take).
  assert (Forall is_u8 body) as Hub by (by apply Forall_take, Forall_drop).
  wp_step. eapply wp_dev_get; [done|]. rewrite Htip, Z.eqb_refl, Hsm. fold sender_ip.
  assert (mac_copy body = mac_copy sender_mac) as Hcp.
  { rewrite <-Hsm. unfold mac_copy. apply map_ext_in. intros i Hi%in_seq. unfold get8.
    rewrite !nth_lookup, lookup_take_lt by (unfold ETH_ALEN in Hi; lia). done. }
  assert (Forall is_u8 sender_mac) as Hus by (rewrite <-Hsm; by apply Forall_take).
  assert (take 6 (drop 8 bs) = sender_mac) as Hsm2 by done. clearbody body sender_ip sender_mac.
  assert (∀ j, j ∈ [m] → j ∉ F) as Hdisj by (intros j ->%list_elem_of_singleton; done).
  wp_step. apply wp_on_buf. apply (wp_alloc_draft _ F); [apply Hown|intros ->; simpl in HF; lia|].
  intros r F1 nb1 HF1 Hdr1 Hs1. wp_step. apply wp_on_buf.
  set (reply := arp_pkt _ _ _ _ _). assert (length reply = 28%nat) as Hrl by done.
  eapply wp_draft_put; [exact Hdr1|by apply arp_pkt_u8|simpl; lia|rewrite Hrl; unfold MBUF_PAGE_SIZE; lia|].
  rewrite drop_nil, app_nil_r. change (take (Z.to_nat 0) [] ++ reply) with reply. clearbody reply.
  intros nb2 Hdr2 Hs2. wp_step. apply wp_on_buf. eapply wp_draft_len; [exact Hdr2|].
  intros nb3 Hdr3 Hs3. pose proof (same_but_trans _ _ _ _ Hs1 (same_but_trans _ _ _ _ Hs2 Hs3)) as Hs13.
  replace 28 with (Z.of_nat (length reply)) in Hdr3 by (by rewrite Hrl).
  wp_step. eapply wp_ethernet_send; [exact (draft_owns _ _ _ _ Hdr3)|done|done|done| |].
  { intros ->. rewrite HF1 in HF. simpl in HF. lia. }
  intros rc nb4 F4 Hok4 HF4 Hag4 Hrc.
  assert (eth_hdr body (nd_mac v) (htobe16 ETH_P_ARP) = eth_hdr sender_mac (nd_mac v) (htobe16 ETH_P_ARP)) as ->
    by (unfold eth_hdr; by rewrite Hcp).
  cbn [n_buf put_buf] in Hag4.
  assert (agree_off F (n_buf s) nb4) as Hag.
  { intros j Hj. rewrite HF1 in Hj. rewrite Hag4 by done. apply Hs13. intros ->. apply Hj. by left. }
  assert (owns nb4 F4 (Some m) [m] [bs]) as Hown4.
  { eapply owns_after; [exact Hown|exact Hok4| |exact Hag|done]. intros j Hj. rewrite HF1. by apply HF4. }
  wp_step. apply wp_on_buf. cbn [n_buf put_buf put_wire].
  eapply wp_read_hdr; [exact Hown4|rewrite Hag by (by apply Hdisj; left); exact Hb|lia|lia|lia|].
  change (Z.to_nat 6) with 6%nat. change (Z.to_nat 8) with 8%nat. rewrite Hsm2.
  unfold arp_insert. wp_step. apply wp_zoom. wp_step. apply wp_on_buf. cbn.
  eapply wp_free_owned; [exact Hown4|rewrite Hag by (by apply Hdisj; left); exact Hb|lia|].
  intros nb5 F5 Hok5 HF5 _. exists rc, F5. split_and!; [done| |done|done|].
  - cbn. unfold transmitted. simpl. by rewrite app_nil_r.
  - rewrite HF5. by left.
Qed.

(** No standard request for the device's own nonzero address is ever answered:
    it is dropped, nothing is sent and the requester is not cached, because the
    target address is read two bytes too early. *)
Theorem arp_standard_request_ignored `{NetEnv} d v m b F smac sip s :
  owns (n_buf s) F (Some m) [m] [arp_standard_request smac sip (nd_ip v)] →
  pool (n_buf s) !! m = Some b → m_refcount b = 1 → l_devs (n_link s) !! d = Some v →
  is_u32 (nd_ip v) → nd_ip v ≠ 0 →
  ∃ nb', arp_handle_rx d m s = Ok (tt, put_buf nb' s) ∧ freed F [m] nb'.
Proof.
  intros Hown Hb Hr Hv Hu Hnz.
  enough (wp (arp_handle_rx d m) (λ _ s', ∃ nb', s' = put_buf nb' s ∧ freed F [m] nb') s) as Hwp.
  { apply wp_ok in Hwp as ([] & s' & Hrun & nb' & -> & Hf). by exists nb'. }
  pose proof (standard_request_target smac sip (nd_ip v) Hu) as Htip.
  set (bs := arp_standard_request smac sip (nd_ip v)) in *. assert (length bs = 28%nat) as Hlen by done.
  assert (get16 bs 0 = htobe16 1 ∧ get16 bs 2 = htobe16 ETH_P_IP ∧ be16toh (get16 bs 6) = ARP_OP_REQUEST)
    as (Hhw & Hproto & Hop) by done. clearbody bs.
  destruct (owns_head _ _ _ _ _ _ Hown) as (b' & l' & Hl & Hb' & Hh & _ & _ & HmF).
  rewrite Hb in Hb'. injection Hb' as <-. pose proof (holds_length _ _ Hh) as Hbl.
  unfold arp_handle_rx. wp_step. apply wp_on_buf. eapply wp_deref; [done|].
  assert (put_buf (n_buf s) s = s) as Hid by by destruct s. rewrite Hid. decide_cmps.
  wp_step. apply wp_on_buf. eapply wp_hdr_get; [done|lia|lia|lia|]. rewrite Hid.
  change (Z.to_nat 8) with 8%nat. change (Z.to_nat 0) with 0%nat.
  rewrite !take_get16 by lia. simpl Nat.add. rewrite Hhw, Hproto, Hop, !Z.eqb_refl. simpl.
  wp_step. apply wp_on_buf. eapply wp_hdr_get; [done|lia|lia|lia|]. rewrite Hid.
  change (Z.to_nat 20) with 20%nat. change (Z.to_nat 8) with 8%nat.
  rewrite !take_get32 by lia. simpl Nat.add. change (ARP_OP_REQUEST =? ARP_OP_REQUEST) with true. cbn [negb].
  wp_step. eapply wp_dev_get; [done|]. rewrite Htip.
  assert (((nd_ip v mod 65536 * 65536) =? nd_ip v) = false) as ->.
  { apply Z.eqb_neq. intros Heq. apply Hnz. unfold is_u32 in Hu. Z.div_mod_to_equations. lia. }
  apply wp_on_buf. eapply wp_free_owned; [done|done|lia|]. intros nb' F' Hok HF' _.
  exists nb'. split; [done|]. by exists F'.
Qed.

(** ** Witnesses *)

Definition demo_cache : list arp_entry :=
  ArpEntry 77 [1; 2; 3; 4; 5; 6] true 7 :: replicate 15 arp_zero.

Lemma demo_cache_wf : arp_wf demo_cache.
Proof.
  split; [done| |].
  - intros i e Hi. apply list_elem_of_lookup_2 in Hi.
    apply elem_of_cons in Hi as [->|[-> _]%elem_of_replicate]; done.
  - intros [|i] [|j] e1 e2 H1 H2 Hv1 Hv2 _; try done; unfold demo_cache in *; cbn [lookup list_lookup] in *.
    + apply lookup_replicate in H2 as [-> _]. done.
    + apply lookup_replicate in H1 as [-> _]. done.
    + apply lookup_replicate in H1 as [-> _]. done.
Qed.

Lemma arp_cache_insert_correct_witness :
  let c' := arp_cache_insert demo_cache 99 [9; 9; 9; 9; 9; 9] in
  arp_lookup c' 99 = Some [9; 9; 9; 9; 9; 9] ∧ arp_lookup c' 77 = Some [1; 2; 3; 4; 5; 6].
Proof.
  destruct (arp_cache_insert_correct demo_cache 99 [9; 9; 9; 9; 9; 9] demo_cache_wf eq_refl) as (_ & H1 & H2).
  split; [exact H1|]. destruct (H2 77) as [H3|(_ & _ & H3 & _)]; [done|by rewrite H3|].
  by specialize (H3 1%nat arp_zero eq_refl).
Defined.

Lemma arp_entry_expires_witness :
  arp_lookup (Nat.iter 299 arp_tick (arp_cache_insert demo_cache 99 [9; 9; 9; 9; 9; 9])) 99 = Some [9; 9; 9; 9; 9; 9].
Proof. exact (arp_entry_expires demo_cache 99 [9; 9; 9; 9; 9; 9] 299 demo_cache_wf eq_refl). Defined.

(** A packet whose bytes 22 to 25 are 10.0.2.15. *)
Definition demo_request : list Z :=
  arp_pkt ARP_OP_REQUEST [2; 0; 0; 0; 0; 9] (ip4_make 10 0 2 2) [0; 0; 0; 0; 10; 0] (ip4_make 2 15 0 0).

Lemma arp_request_answered_witness :
  ∃ r s' F', @arp_handle_rx wire_env 0 0 (demo_net_of (demo_nb1 demo_request)) = Ok (tt, s') ∧ (r = 0 ∨ r = -1) ∧
    n_wire s' = transmitted 0 (eth_hdr [2; 0; 0; 0; 0; 9] [2; 0; 0; 0; 0; 1] (htobe16 ETH_P_ARP) ++
                  arp_pkt ARP_OP_REPLY [2; 0; 0; 0; 0; 1] (ip4_make 10 0 2 15) [2; 0; 0; 0; 0; 9] (ip4_make 10 0 2 2)) r
                  (demo_net_of (demo_nb1 demo_request)) ∧
    g_arp_cache (n_arp s') =
      arp_cache_insert (replicate 16 arp_zero) (ip4_make 10 0 2 2) [2; 0; 0; 0; 0; 9] ∧
    pool_ok (n_buf s') F' ∧ 0%nat ∈ F'.
Proof.
  apply (@arp_request_answered wire_env _ 0 demo_dev 0 (demo_mbuf demo_request None None) [1; 2; 3; 4]%nat demo_request
    (demo_net_of (demo_nb1 demo_request))); try done.
  - apply demo1_owns; [simpl; lia|]. unfold demo_request, ARP_OP_REQUEST; apply arp_pkt_u8; demo_bytes.
  - demo_bytes.
  - simpl. lia.
Defined.

Lemma arp_standard_request_ignored_witness :
  let pkt := arp_standard_request [2; 0; 0; 0; 0; 9] (ip4_make 10 0 2 2) (ip4_make 10 0 2 15) in
  ∃ nb', @arp_handle_rx wire_env 0 0 (demo_net_of (demo_nb1 pkt)) = Ok (tt, put_buf nb' (demo_net_of (demo_nb1 pkt))) ∧
         freed [1; 2; 3; 4]%nat [0%nat] nb'.
Proof.
  intros pkt.
  apply (@arp_standard_request_ignored wire_env 0 demo_dev 0 (demo_mbuf pkt None None) [1; 2; 3; 4]%nat
    [2; 0; 0; 0; 0; 9] (ip4_make 10 0 2 2) (demo_net_of (demo_nb1 pkt))); try done.
  apply demo1_owns; [unfold pkt; simpl; lia|]. unfold pkt, arp_standard_request, ARP_OP_REQUEST.
  apply arp_pkt_u8; demo_bytes.
Defined.
