(* ===== verification/Ip.v ===== *)
(** * Ip: IPv4 and ICMP (kernel/ipv4.c, kernel/icmp.c)

    Building, checksumming, validating and trimming IPv4 packets, dispatch by
    protocol, and the ICMP echo responder and client. *)

From S2P Require Import Prelude NetUtil NetBuf Net Link Arp.

(** ** kernel/ipv4.c *)

Definition IP_MAX_HANDLERS : nat := 8.
Definition IP_HDR_MIN_LEN : Z := 20.
Definition IP_PROTO_ICMP : Z := 1.
Definition IP_PROTO_TCP : Z := 6.
Definition IP_PROTO_UDP : Z := 17.

(** [struct ipv4_hdr] in memory. *)
Definition ipv4_hdr (ver_ihl tos total_len id flags_frag ttl protocol checksum src dst : Z) : list Z :=
  [u8 ver_ihl; u8 tos] ++ put16 total_len ++ put16 id ++ put16 flags_frag ++ [u8 ttl; u8 protocol] ++
  put16 checksum ++ put32 src ++ put32 dst.

Definition ip_proto_register (proto : Z) (fn : ip_fn) : M net unit :=
  hs ← gets g_ip_handlers;
  if bool_decide (IP_MAX_HANDLERS ≤ length hs)%nat then mret tt
  else modify (put_ip (hs ++ [(proto, fn)])).

Definition ipv4_init : M net unit := on_link (ethertype_register ETH_P_IP fn_ipv4_rx).

(** [ipv4_csum] of the header at the start of mbuf [m]: the checksum field is
    cleared for the computation and put back. *)
Definition ipv4_csum (m : nat) : M netbuf Z :=
  saved ← hdr_get m 10 2;
  hdr_put m 10 [0; 0];;
  v ← hdr_get m 0 1;
  bs ← hdr_get m 0 (Z.land (get8 v 0) 0x0F * 4);
  hdr_put m 10 saved;;
  mret (inet_csum bs).

(** The handler the table holds for a protocol. *)
Definition ip_handler (proto : Z) (hs : list (Z * ip_fn)) : option ip_fn :=
  match list_find (λ h, h.1 = proto) hs with
  | Some (_, (_, fn)) => Some fn
  | None => None
  end.

Section ipv4.
Context `{NetEnv}.

Definition ipv4_build_and_send (dev : option nat) (dst_mac : option (list Z)) (src dst proto : Z)
    (payload : option nat) : M net Z :=
  match dev, payload, dst_mac with
  | Some d, Some p, Some mac =>
    n ← on_buf (mbuf_total_len (Some p));
    let total := u64 (IP_HDR_MIN_LEN + n) in
    if MBUF_DATA_SIZE <? total then on_buf (mbuf_free (Some p));; mret (-1)
    else
      h ← on_buf mbuf_alloc0;
      match h with
      | None => on_buf (mbuf_free (Some p));; mret (-1)
      | Some hm =>
        n2 ← on_buf (mbuf_total_len (Some p));
        on_buf (hdr_put hm 0 (ipv4_hdr 0x45 0 (htobe16 (u16 (IP_HDR_MIN_LEN + u16 n2))) 0 0 64 proto 0 src dst));;
        c ← on_buf (ipv4_csum hm);
        on_buf (hdr_put hm 10 (put16 c));;
        on_buf (update hm (set_len IP_HDR_MIN_LEN));;
        on_buf (update hm (set_next_seg (Some p)));;
        ethernet_send (Some d) mac ETH_P_IP (Some hm)
      end
  | _, _, _ => mret (-1)
  end.

Definition ipv4_send (dev : option nat) (dst proto : Z) (payload : option nat) : M net Z :=
  match dev, payload with
  | Some d, Some p =>
    v ← dev_get d;
    if ip4_is_broadcast dst then
      ipv4_build_and_send (Some d) (Some (mac_copy ETH_BROADCAST)) (nd_ip v) dst proto (Some p)
    else
      let next_hop := if Z.land dst (nd_netmask v) =? Z.land (nd_ip v) (nd_netmask v) then dst else nd_gateway v in
      mac ← arp_resolve d next_hop;
      match mac with
      | None => on_buf (mbuf_free (Some p));; mret (-1)
      | Some a =>
        v' ← dev_get d;
        ipv4_build_and_send (Some d) (Some a) (nd_ip v') dst proto (Some p)
      end
  | _, _ => mret (-1)
  end.

Definition ipv4_send_direct (dev : option nat) (dst_mac : option (list Z)) (src dst proto : Z)
    (payload : option nat) : M net Z := ipv4_build_and_send dev dst_mac src dst proto payload.

Definition ipv4_rx (d m : nat) : M net unit :=
  b ← on_buf (deref m);
  if m_len b <? IP_HDR_MIN_LEN then on_buf (mbuf_free (Some m))
  else
    iph ← on_buf (hdr_get m 0 IP_HDR_MIN_LEN);
    let ihl := Z.land (get8 iph 0) 0x0F * 4 in
    if negb (Z.shiftr (get8 iph 0) 4 =? 4) || (m_len b <? ihl) then on_buf (mbuf_free (Some m))
    else
      csum ← on_buf (ipv4_csum m);
      if negb (csum =? get16 iph 10) then on_buf (mbuf_free (Some m))
      else
        v ← dev_get d;
        if negb (ip4_is_broadcast (get32 iph 16)) && negb (get32 iph 16 =? nd_ip v)
        then on_buf (mbuf_free (Some m))
        else
          let src := get32 iph 12 in
          let proto := get8 iph 9 in
          let ip_total := be16toh (get16 iph 2) in
          if (ip_total <? ihl) || (u64 (m_len b - ihl) <? ip_total - ihl) then on_buf (mbuf_free (Some m))
          else
            on_buf (skip_hdr m ihl (ip_total - ihl));;
            fn ← gets (λ s, ip_handler proto (g_ip_handlers s));
            match fn with
            | Some f => ip_call f d src (get32 iph 16) m
            | None => on_buf (mbuf_free (Some m))
            end.
End ipv4.

(** ** kernel/icmp.c *)

Definition ICMP_ECHO_REQUEST : Z := 8.
Definition ICMP_ECHO_REPLY : Z := 0.
Definition ICMP_HDR_LEN : Z := 4.
Definition ICMP_ECHO_LEN : Z := 16.

Definition icmp_init : M net unit := ip_proto_register IP_PROTO_ICMP fn_icmp_rx.

(** [struct icmp_echo] in memory. *)
Definition icmp_echo_hdr (type code checksum id seq : Z) : list Z :=
  [u8 type; u8 code] ++ put16 checksum ++ put16 id ++ put16 seq ++ replicate 8 0xAB.

Section icmp.
Context `{NetEnv}.

Definition icmp_rx (d : nat) (src dst : Z) (m : nat) : M net unit :=
  b ← on_buf (deref m);
  if m_len b <? ICMP_HDR_LEN then on_buf (mbuf_free (Some m))
  else
    h ← on_buf (hdr_get m 0 ICMP_HDR_LEN);
    p ← gets n_icmp;
    (if (get8 h 0 =? ICMP_ECHO_REPLY) && negb (g_ping_hit p) && (ICMP_ECHO_LEN <=? m_len b) then
       e ← on_buf (hdr_get m 0 ICMP_ECHO_LEN);
       if (be16toh (get16 e 4) =? g_ping_id p) && (be16toh (get16 e 6) =? g_ping_seq p)
       then on_icmp (modify (λ p, Icmp (g_ping_id p) (g_ping_seq p) true (g_ping_lock p) (icmp_seq p)))
       else mret tt
     else mret tt);;
    if get8 h 0 =? ICMP_ECHO_REQUEST then
      reply ← on_buf (mbuf_clone (Some m));
      match reply with
      | None => on_buf (mbuf_free (Some m))
      | Some r =>
        on_buf (hdr_put r 0 [u8 ICMP_ECHO_REPLY; 0; 0; 0]);;
        rb ← on_buf (deref r);
        bs ← on_buf (hdr_get r 0 (m_len rb));
        on_buf (hdr_put r 2 (put16 (inet_csum bs)));;
        ipv4_send (Some d) src IP_PROTO_ICMP (Some r);;
        on_buf (mbuf_free (Some m))
      end
    else on_buf (mbuf_free (Some m)).

(** [icmp_echo]: the result code and the round-trip time.  [fuel] bounds the
    two waiting loops, whose length is up to the other threads and the clock. *)
Definition icmp_echo (fuel : nat) (dst timeout_ms : Z) : M net (Z * option Z) :=
  loop_fuel fuel (λ _ : unit,
    p ← gets n_icmp;
    if g_ping_lock p then sched_yield;; mret (inl tt)
    else on_icmp (modify (λ p, Icmp (g_ping_id p) (g_ping_seq p) (g_ping_hit p) true (icmp_seq p)));; mret (inr tt)) tt;;
  let unlock := on_icmp (modify (λ p, Icmp (g_ping_id p) (g_ping_seq p) (g_ping_hit p) false (icmp_seq p))) in
  dev ← on_link (netdev_for_ip dst);
  match dev with
  | None => unlock;; mret (-1, None)
  | Some d =>
    mo ← on_buf mbuf_alloc0;
    match mo with
    | None => unlock;; mret (-1, None)
    | Some m =>
      t ← clock_mono_ns;
      let id := Z.land t 0xFFFF in
      on_icmp (modify (λ p, Icmp (g_ping_id p) (g_ping_seq p) (g_ping_hit p) (g_ping_lock p) (u16 (icmp_seq p + 1))));;
      p ← gets n_icmp;
      let seq := icmp_seq p in
      on_buf (hdr_put m 0 (icmp_echo_hdr ICMP_ECHO_REQUEST 0 0 (htobe16 id) (htobe16 seq)));;
      bs ← on_buf (hdr_get m 0 ICMP_ECHO_LEN);
      on_buf (hdr_put m 2 (put16 (inet_csum bs)));;
      on_buf (update m (set_len ICMP_ECHO_LEN));;
      on_icmp (modify (λ p, Icmp id seq false (g_ping_lock p) (icmp_seq p)));;
      sent_ns ← clock_mono_ns;
      r ← ipv4_send (Some d) dst IP_PROTO_ICMP (Some m);
      if r <? 0 then unlock;; mret (-1, None)
      else
        let deadline := u64 (sent_ns + u64 (timeout_ms * 1000000)) in
        loop_fuel fuel (λ _ : unit,
          p ← gets n_icmp;
          if g_ping_hit p then mret (inr tt)
          else now ← clock_mono_ns;
               if now <? deadline then sched_yield;; mret (inl tt) else mret (inr tt)) tt;;
        p ← gets n_icmp;
        if g_ping_hit p then
          now ← clock_mono_ns;
          unlock;; mret (0, Some (u32 (u64 (now - sent_ns) / 1000)))
        else unlock;; mret (-1, None)
    end
  end.
End icmp.

(** ** The header as built *)

(** The 20 bytes [ipv4_build_and_send] puts in front of [n] payload bytes. *)
Definition ip_header0 (src dst proto n : Z) : list Z :=
  ipv4_hdr 0x45 0 (htobe16 (IP_HDR_MIN_LEN + n)) 0 0 64 proto 0 src dst.
Definition ip_header (src dst proto n : Z) : list Z :=
  overwrite (ip_header0 src dst proto n) 10 (put16 (inet_csum (ip_header0 src dst proto n))).

Lemma ipv4_hdr_u8 a b c e f g h i j k : Forall is_u8 (ipv4_hdr a b c e f g h i j k).
Proof.
  unfold ipv4_hdr. apply Forall_app_2; [repeat constructor; apply u8_range|].
  do 3 (apply Forall_app_2; [apply put16_u8|]). apply Forall_app_2; [repeat constructor; apply u8_range|].
  apply Forall_app_2; [apply put16_u8|]. apply Forall_app_2; apply put32_u8.
Qed.

Lemma ip_header_length src dst proto n : length (ip_header src dst proto n) = 20%nat.
Proof. done. Qed.

Lemma ip_header_u8 src dst proto n : Forall is_u8 (ip_header src dst proto n).
Proof. apply overwrite_u8; [apply ipv4_hdr_u8|apply put16_u8]. Qed.

(** [ipv4_csum] on a header under construction. *)
Lemma wp_draft_csum nb F i src dst proto n (Q : Z → netbuf → Prop) :
  draft nb F i (ip_header0 src dst proto n) 0 →
  (∀ nb', draft nb' F i (ip_header0 src dst proto n) 0 → same_but i nb nb' →
     Q (inet_csum (ip_header0 src dst proto n)) nb') →
  wp (ipv4_csum i) Q nb.
Proof.
  intros Hdr HQ. set (h := ip_header0 src dst proto n) in *.
  assert (length h = 20%nat) as Hl by done. assert (get8 h 0 = 0x45) as Hv by done.
  assert (take 2 (drop 10 h) = [0; 0] ∧ take 10 h ++ [0; 0] ++ drop 12 h = h) as [Hz Hzz] by done.
  clearbody h. unfold ipv4_csum.
  wp_step. eapply wp_draft_get; [exact Hdr|lia|lia|lia|]. change (Z.to_nat 2) with 2%nat. change (Z.to_nat 10) with 10%nat.
  rewrite Hz. wp_step. eapply wp_draft_put; [exact Hdr|repeat constructor; unfold is_u8; lia|lia|unfold MBUF_PAGE_SIZE; simpl; lia|].
  change (Z.to_nat 10) with 10%nat. simpl (10 + _)%nat. rewrite Hzz. intros nb1 Hdr1 Hs1.
  wp_step. eapply wp_draft_get; [exact Hdr1|lia|lia|lia|].
  assert (get8 (take (Z.to_nat 1) (drop (Z.to_nat 0) h)) 0 = 0x45) as -> by (destruct h; done).
  change (Z.land 69 15 * 4) with 20.
  wp_step. eapply wp_draft_get; [exact Hdr1|lia|lia|lia|].
  change (Z.to_nat 20) with 20%nat. rewrite drop_0, take_ge by lia.
  wp_step. eapply wp_draft_put; [exact Hdr1|repeat constructor; unfold is_u8; lia|lia|unfold MBUF_PAGE_SIZE; simpl; lia|].
  change (Z.to_nat 10) with 10%nat. simpl (10 + _)%nat. rewrite Hzz. intros nb2 Hdr2 Hs2.
  wp_step. apply HQ; [done|]. by eapply same_but_trans.
Qed.

(** The bytes of a packet, as owned. *)
Lemma owns_u8 nb F h l ps : owns nb F h l ps → Forall is_u8 (concat ps).
Proof.
  intros [_ Hp _]. induction Hp as [|? ? ? ? ? ? ? Hh ? IH]; simpl; [constructor|].
  apply Forall_app; split; [by eapply holds_u8|done].
Qed.

(** The packet [ipv4_build_and_send] makes of [payload]. *)
Definition ip_packet (src dst proto : Z) (payload : list Z) : list Z :=
  ip_header src dst proto (Z.of_nat (length payload)) ++ payload.

(** The packet behind a link header was handed to the driver of device [d]: only
    the mbuf pool has changed, and its first mbuf is [h]. *)
Definition hands_over `{NetEnv} (d : nat) (frame : list Z) (F l : list nat) (s : net) (k : M net Z) (s' : net) : Prop :=
  ∃ h F' l' ps', k = dev_tx d h ∧ owns (n_buf s') F' (Some h) l' ps' ∧ concat ps' = frame ∧
    (∃ b, pool (n_buf s') !! h = Some b ∧ m_refcount b = 1) ∧
    l' ++ F' ≡ₚ l ++ F ∧ agree_off (l ++ F) (n_buf s) (n_buf s') ∧ s' = put_buf (n_buf s') s.

(** A packet that fits is handed to the driver. *)
Lemma leads_ipv4_build `{NetEnv} d v mac src dst proto p F l ps s :
  owns (n_buf s) F (Some p) l ps →
  l_devs (n_link s) !! d = Some v → Forall is_u8 mac → Forall is_u8 (nd_mac v) →
  20 + Z.of_nat (length (concat ps)) ≤ MBUF_DATA_SIZE → (2 ≤ length F)%nat →
  leads (ipv4_build_and_send (Some d) (Some mac) src dst proto (Some p)) s
    (hands_over d (eth_hdr mac (nd_mac v) (htobe16 ETH_P_IP) ++ ip_packet src dst proto (concat ps)) F l s).
Proof.
  intros Hown Hv Hmac Hvm. unfold ip_packet. set (n := Z.of_nat (length (concat ps))). intros Hfit HF. unfold ipv4_build_and_send.
  pose proof Hown as [Hok Hp Hnd]. assert (NoDup l) as Hl by (by apply NoDup_app in Hnd as [? _]).
  assert (put_buf (n_buf s) s = s) as Hid by by destruct s. unfold MBUF_DATA_SIZE, IP_HDR_MIN_LEN in *.
  apply leads_bind, wp_on_buf. eapply wp_total_len; [done|done|done|]. rewrite Hid. fold n.
  assert (0 ≤ n) by lia. rewrite (u64_small (20 + n)) by (unfold is_u64; lia). decide_cmps.
  apply leads_bind, wp_on_buf, (wp_alloc_draft _ F); [done|intros ->; simpl in HF; lia|].
  intros hm F1 nb1 -> Hdr1 Hs1.
  assert ((hm ∉ l) ∧ (hm ∉ F1)) as [Hhl HhF].
  { apply NoDup_app in Hnd as (_ & Hd & Hnd). apply NoDup_cons in Hnd as [? _].
    split; [|done]. intros Hin. apply (Hd hm Hin). by left. }
  assert (owns nb1 F1 (Some p) l ps) as Hown1.
  { eapply owns_same_but; [exact Hown|apply Hdr1| |exact Hs1|done]. intros j Hj. by right. }
  apply leads_bind, wp_on_buf. eapply wp_total_len; [apply Hown1|apply Hown1|done|]. fold n.
  rewrite (u16_small n), (u16_small (20 + n)) by (unfold is_u16; lia).
  fold (ip_header0 src dst proto n). pose proof (ipv4_hdr_u8 0x45 0 (htobe16 (20 + n)) 0 0 64 proto 0 src dst) as Hu0.
  apply leads_bind, wp_on_buf. cbn [n_buf put_buf].
  eapply wp_draft_put; [exact Hdr1|exact Hu0|simpl; lia|unfold MBUF_PAGE_SIZE; simpl; lia|].
  intros nb2 Hdr2 Hs2. rewrite drop_nil, app_nil_r in Hdr2.
  change (take (Z.to_nat 0) [] ++ ip_header0 src dst proto n) with (ip_header0 src dst proto n) in Hdr2.
  apply leads_bind, wp_on_buf. eapply wp_draft_csum; [exact Hdr2|]. intros nb3 Hdr3 Hs3.
  apply leads_bind, wp_on_buf. eapply wp_draft_put; [exact Hdr3|apply put16_u8|simpl; lia|unfold MBUF_PAGE_SIZE; simpl; lia|].
  fold (overwrite (ip_header0 src dst proto n) 10 (put16 (inet_csum (ip_header0 src dst proto n)))).
  fold (ip_header src dst proto n). intros nb4 Hdr4 Hs4.
  apply leads_bind, wp_on_buf. eapply wp_draft_len; [exact Hdr4|]. intros nb5 Hdr5 Hs5.
  change 20 with (Z.of_nat (length (ip_header src dst proto n))) in Hdr5.
  pose proof (same_but_trans _ _ _ _ Hs2 (same_but_trans _ _ _ _ Hs3 (same_but_trans _ _ _ _ Hs4 Hs5))) as Hs15.
  apply leads_bind, wp_on_buf. eapply (wp_draft_link _ F1 hm _ p l ps); [exact Hdr5| |done|].
  { eapply owns_same_but; [exact Hown1|apply Hdr5|done|exact Hs15|done]. }
  intros nb6 b6 Hown6 Hs6 Hb6 Hr6.
  pose proof (same_but_trans _ _ _ _ Hs1 (same_but_trans _ _ _ _ Hs15 Hs6)) as Hs16.
  eapply (leads_ethernet_send d v mac ETH_P_IP hm F1 (hm :: l)); [exact Hown6|done|done|done| |].
  { intros ->. simpl in HF. lia. }
  intros k s' h F' HF1 (-> & Hown' & Hb' & Hs' & Es'). exists h, F', (h :: hm :: l). eexists.
  split_and!; [done|exact Hown'|done|exact Hb'| | |by rewrite Es'].
  - rewrite HF1. solve_Permutation.
  - intros j Hj. cbn [n_buf put_buf] in Hs'. rewrite Hs' by set_solver. apply Hs16. set_solver.
Qed.

Section send.
Context `{NicDriver}.

(** With a driver that keeps its contract it goes out as one frame. *)
Lemma wp_ipv4_build d v mac src dst proto p b F l ps s (Q : Z → net → Prop) :
  owns (n_buf s) F (Some p) l ps → pool (n_buf s) !! p = Some b → m_refcount b = 1 →
  l_devs (n_link s) !! d = Some v → Forall is_u8 mac → Forall is_u8 (nd_mac v) →
  let n := Z.of_nat (length (concat ps)) in
  20 + n ≤ MBUF_DATA_SIZE → (2 ≤ length F)%nat →
  (∀ r nb' F', pool_ok nb' F' → (∀ j, j ∈ F' → j ∈ l ++ F) → agree_off (l ++ F) (n_buf s) nb' →
     (r = 0 ∨ r = -1) →
     Q r (put_wire (transmitted d (eth_hdr mac (nd_mac v) (htobe16 ETH_P_IP) ++
                                   ip_header src dst proto n ++ concat ps) r s) (put_buf nb' s))) →
  wp (ipv4_build_and_send (Some d) (Some mac) src dst proto (Some p)) Q s.
Proof.
  intros Hown Hb Hr Hv Hmac Hvm n Hfit HF HQ. apply wp_leads.
  destruct (leads_ipv4_build d v mac src dst proto p F l ps s) as (k & s1 & Hrun & h & F1 & l1 & ps1 & -> & Hown1 & Hc & (b1 & Hb1 & Hr1) & Hperm & Hag & Hs1); [done..|].
  exists (dev_tx d h), s1. split; [exact Hrun|]. eapply nic_tx; [exact Hown1|exact Hb1|exact Hr1|].
  intros r nb' F' Hok' HF' Hag' Hrr. rewrite Hs1, Hc. unfold transmitted. cbn [n_wire put_buf].
  refine (HQ r nb' F' Hok' _ _ Hrr).
  - intros j Hj. rewrite <-Hperm. by apply HF'.
  - intros j Hj. rewrite Hag' by (by rewrite Hperm). by apply Hag.
Qed.
End send.

(** ** Receiving *)

Definition ip_ihl (bs : list Z) : Z := Z.land (get8 bs 0) 0x0F * 4.

(** The checksum the receiver computes over the header of [bs]. *)
Definition ip_rx_csum (bs : list Z) : Z := inet_csum (take (Z.to_nat (ip_ihl bs)) (overwrite bs 10 [0; 0])).

Lemma ip_ihl_range bs : 0 ≤ ip_ihl bs ≤ 60.
Proof.
  unfold ip_ihl. change 0x0F with (2 ^ 4 - 1). rewrite land_ones_mod by lia.
  pose proof (Z.mod_pos_bound (get8 bs 0) (2 ^ 4)). lia.
Qed.

Lemma overwrite_get8 (bs x : list Z) off i :
  (i < Z.to_nat off)%nat → (i < length bs)%nat → get8 (overwrite bs off x) i = get8 bs i.
Proof.
  intros H1 H2. unfold get8, overwrite. rewrite !nth_lookup, lookup_app_l by (rewrite length_take; lia).
  by rewrite lookup_take_lt.
Qed.

(** Putting the old bytes back undoes an overwrite. *)
Lemma overwrite_back (bs x : list Z) off n :
  0 ≤ off → n = length x → off + Z.of_nat n ≤ Z.of_nat (length bs) →
  overwrite (overwrite bs off x) off (take n (drop (Z.to_nat off) bs)) = bs.
Proof.
  intros H0 -> H1. set (o := Z.to_nat off). unfold overwrite. fold o.
  assert (length (take o bs) = o) as Hl by (rewrite length_take; lia).
  rewrite take_app_length' by done.
  rewrite length_take, length_drop. replace (length x `min` (length bs - o))%nat with (length x) by lia.
  rewrite (app_assoc (take o bs) x), drop_app_length' by (rewrite length_app; lia).
  rewrite <-drop_drop, take_drop. apply take_drop.
Qed.

Lemma wp_owned_csum nb F i l bs ps b (Q : Z → netbuf → Prop) :
  owns nb F (Some i) l (bs :: ps) → pool nb !! i = Some b → (20 ≤ length bs)%nat →
  ip_ihl bs ≤ Z.of_nat (length bs) →
  (∀ nb' b', owns nb' F (Some i) l (bs :: ps) → same_but i nb nb' → pool nb' !! i = Some b' →
     m_refcount b' = m_refcount b → Q (ip_rx_csum bs) nb') →
  wp (ipv4_csum i) Q nb.
Proof.
  intros Hown Hb Hlen Hihl HQ. pose proof (ip_ihl_range bs) as Hr. unfold ipv4_csum.
  assert (Forall is_u8 bs) as Hu by (pose proof (owns_u8 _ _ _ _ _ Hown) as Hc; by apply Forall_app in Hc as [? _]).
  wp_step. eapply wp_hdr_get; [done|lia|lia|lia|]. change (Z.to_nat 2) with 2%nat.
  wp_step. eapply wp_hdr_put; [done|done|repeat constructor; unfold is_u8; lia|lia|simpl; lia|].
  intros nb1 b1 Hown1 Hs1 Hb1 Hr1 _ _.
  assert (length (overwrite bs 10 [0; 0]) = length bs) as Hol by (apply overwrite_length; simpl; lia).
  wp_step. eapply wp_hdr_get; [done|lia|lia|lia|]. change (Z.to_nat 1) with 1%nat. change (Z.to_nat 0) with 0%nat.
  assert (get8 (take 1 (drop 0 (overwrite bs 10 [0; 0]))) 0 = get8 bs 0) as ->.
  { rewrite drop_0. unfold get8. rewrite nth_lookup, lookup_take_lt, <-nth_lookup by lia.
    apply (overwrite_get8 bs [0; 0] 10 0); lia. }
  fold (ip_ihl bs). wp_step. eapply wp_hdr_get; [done|lia|lia|lia|]. change (Z.to_nat 0) with 0%nat.
  rewrite drop_0. fold (ip_rx_csum bs).
  wp_step. eapply (wp_hdr_put _ _ _ _ _ _ 10 (take 2 (drop (Z.to_nat 10) bs))); [done|done| |lia| |].
  { by apply Forall_take, Forall_drop. }
  { rewrite Hol, length_take, length_drop. lia. }
  rewrite overwrite_back by (simpl; lia).
  intros nb2 b2 Hown2 Hs2 Hb2 Hr2 _ _. wp_step. eapply HQ; [done| |done|congruence].
  by eapply same_but_trans.
Qed.

(** Which packets [ipv4_rx] accepts on a device with address [ip]. *)
Definition ip_total (bs : list Z) : Z := be16toh (get16 bs 2).
Definition ip_valid (ip : Z) (bs : list Z) : bool :=
  (20 <=? Z.of_nat (length bs)) && (Z.shiftr (get8 bs 0) 4 =? 4) && (ip_ihl bs <=? Z.of_nat (length bs)) &&
  (ip_rx_csum bs =? get16 bs 10) && (ip4_is_broadcast (get32 bs 16) || (get32 bs 16 =? ip)) &&
  (ip_ihl bs <=? ip_total bs) && (ip_total bs <=? Z.of_nat (length bs)).

(** The payload it hands on: from the end of the header to the end given by the
    total-length field. *)
Definition ip_payload (bs : list Z) : list Z :=
  take (Z.to_nat (ip_total bs - ip_ihl bs)) (drop (Z.to_nat (ip_ihl bs)) bs).

Definition ip_dispatched `{NetEnv} (d i : nat) (v : netdev) (F l : list nat) (bs : list Z)
    (ps : list (list Z)) (s : net) (k : M net unit) (s' : net) : Prop :=
  s' = put_buf (n_buf s') s ∧
  if ip_valid (nd_ip v) bs then
    match ip_handler (get8 bs 9) (g_ip_handlers s) with
    | Some f => k = ip_call f d (get32 bs 12) (get32 bs 16) i ∧ owns (n_buf s') F (Some i) l (ip_payload bs :: ps)
    | None => k = mret tt ∧ freed F l (n_buf s')
    end
  else k = mret tt ∧ freed F l (n_buf s').

Lemma take_get8 (bs : list Z) n i : (n ≤ length bs)%nat → (i < n)%nat → get8 (take n bs) i = get8 bs i.
Proof. intros Hn Hi. unfold get8. by rewrite !nth_lookup, lookup_take_lt. Qed.

Lemma leads_free `{NetEnv} i l F bs ps b s (P : M net unit → net → Prop) :
  owns (n_buf s) F (Some i) l (bs :: ps) → pool (n_buf s) !! i = Some b → m_refcount b = 1 →
  (∀ nb', freed F l nb' → P (mret tt) (put_buf nb' s)) →
  leads (on_buf (mbuf_free (Some i))) s P.
Proof.
  intros Hown Hb Hr HP. apply leads_wp, wp_on_buf. eapply wp_free_owned; [done|done|lia|].
  intros nb' F' Hok HF _. apply HP. by exists F'.
Qed.

Lemma leads_ipv4_rx `{NetEnv} d v i b F l bs ps s :
  owns (n_buf s) F (Some i) l (bs :: ps) → pool (n_buf s) !! i = Some b → m_refcount b = 1 →
  l_devs (n_link s) !! d = Some v →
  leads (ipv4_rx d i) s (ip_dispatched d i v F l bs ps s).
Proof.
  intros Hown Hb Hr Hv. unfold ipv4_rx.
  destruct (owns_head _ _ _ _ _ _ Hown) as (b' & l' & _ & Hb' & Hh & _).
  rewrite Hb in Hb'. injection Hb' as <-. pose proof (holds_length _ _ Hh) as Hlen.
  assert (m_len b ≤ 4096) as Hmax by (destruct Hh; unfold MBUF_PAGE_SIZE in *; lia).
  assert (put_buf (n_buf s) s = s) as Hid by by destruct s.
  apply leads_bind, wp_on_buf. eapply wp_deref; [done|]. rewrite Hid. unfold IP_HDR_MIN_LEN.
  unfold ip_dispatched, ip_valid. rewrite Hlen.
  destruct (Z.ltb_spec (m_len b) 20) as [Hshort|Hlong].
  { eapply leads_free; [done..|]. intros nb' Hf. by decide_cmps. }
  apply leads_bind, wp_on_buf. eapply wp_hdr_get; [done|lia|lia|lia|]. rewrite Hid.
  change (Z.to_nat 0) with 0%nat. rewrite drop_0. change (Z.to_nat 20) with 20%nat.
  rewrite !take_get8 by lia.
  assert (∀ j, (j + 2 ≤ 20)%nat → get16 (take 20 bs) j = get16 bs j) as H16.
  { intros j Hj. unfold get16. by rewrite !take_get8 by lia. }
  assert (∀ j, (j + 4 ≤ 20)%nat → get32 (take 20 bs) j = get32 bs j) as H32.
  { intros j Hj. unfold get32. by rewrite !H16 by lia. }
  rewrite !H16, !H32 by lia. fold (ip_ihl bs). fold (ip_total bs). decide_cmps.
  pose proof (ip_ihl_range bs) as Hihl.
  destruct (Z.shiftr (get8 bs 0) 4 =? 4); cbn [andb negb orb]; [|eapply leads_free; [done..|]; by intros nb' Hf].
  destruct (Z.ltb_spec (m_len b) (ip_ihl bs)) as [Hi|Hi]; cbn [andb negb orb].
  { eapply leads_free; [done..|]. intros nb' Hf. by decide_cmps. }
  decide_cmps. cbn [andb negb orb].
  apply leads_bind, wp_on_buf. eapply wp_owned_csum; [done|done|lia|lia|].
  intros nb1 b1 Hown1 Hs1 Hb1 Hr1. rewrite Hr in Hr1.
  destruct (ip_rx_csum bs =? get16 bs 10); cbn [andb negb orb]; [|eapply leads_free; [done..|]; by intros nb' Hf].
  apply leads_bind. eapply wp_dev_get; [done|]. rewrite <-negb_orb.
  destruct (ip4_is_broadcast (get32 bs 16) || (get32 bs 16 =? nd_ip v)); cbn [andb negb orb];
    [|eapply leads_free; [done..|]; by intros nb' Hf].
  destruct (Z.ltb_spec (ip_total bs) (ip_ihl bs)) as [Ht|Ht]; cbn [andb negb orb].
  { eapply leads_free; [done..|]. intros nb' Hf. by decide_cmps. }
  rewrite (u64_small (m_len b - ip_ihl bs)) by (unfold is_u64; lia).
  destruct (Z.ltb_spec (m_len b - ip_ihl bs) (ip_total bs - ip_ihl bs)) as [Ht2|Ht2]; cbn [andb negb orb].
  { eapply leads_free; [done..|]. intros nb' Hf. by decide_cmps. }
  decide_cmps. cbn [andb negb orb]. apply leads_bind, wp_on_buf. eapply wp_skip_hdr; [done|done|lia|lia|lia|].
  intros nb2 b2 Hown2 Hs2 Hb2 Hr2. fold (ip_payload bs) in Hown2. rewrite Hr1 in Hr2.
  apply leads_bind. wp_step. cbn [g_ip_handlers put_buf].
  destruct (ip_handler _ _) as [f|]; [by apply leads_here|].
  eapply leads_free; [done..|]. by intros nb' Hf.
Qed.

(** ** A header read back *)

Lemma get16_put16 v : is_u16 v → Z.lor (u8 v) (Z.shiftl (u8 (Z.shiftr v 8)) 8) = v.
Proof. intros Hv. exact (get16_app v [] Hv). Qed.

Lemma get32_put32 v l : is_u32 v → get32 (put32 v ++ l) 0 = v.
Proof.
  intros Hv. unfold is_u32 in Hv. unfold get32, put32. rewrite <-app_assoc.
  assert (get16 (put16 v ++ put16 (Z.shiftr v 16) ++ l) 0 = v mod 65536) as ->.
  { pose proof (Z.mod_pos_bound v 65536).
    assert (put16 v = put16 (v mod 65536)) as ->; [|apply get16_app; unfold is_u16; lia].
    unfold put16, u8. rewrite !Z.shiftr_div_pow2 by lia. change (2 ^ 8) with 256. f_equal; [|f_equal];
      Z.div_mod_to_equations; lia. }
  change (get16 (put16 v ++ put16 (Z.shiftr v 16) ++ l) (0 + 2)) with (get16 (put16 (Z.shiftr v 16) ++ l) 0).
  rewrite Z.shiftr_div_pow2 by lia. change (2 ^ 16) with 65536.
  rewrite get16_app by (unfold is_u16; Z.div_mod_to_equations; lia).
  pose proof (Z.mod_pos_bound v 65536). pose proof (Z.div_mod v 65536).
  rewrite lor_low_high by lia. lia.
Qed.

Lemma get16_drop (bs : list Z) k i : get16 (drop k bs) i = get16 bs (k + i).
Proof. unfold get16, get8. rewrite !nth_lookup, !lookup_drop. by rewrite Nat.add_assoc. Qed.
Lemma get32_drop (bs : list Z) k i : get32 (drop k bs) i = get32 bs (k + i).
Proof. unfold get32. rewrite !get16_drop. by rewrite Nat.add_assoc. Qed.

Lemma inet_csum_u16 bs : is_u16 (inet_csum bs).
Proof. unfold inet_csum. apply u16_range. Qed.

(** The fields of a packet that starts with [ip_header]. *)
Lemma ip_header_fields src dst proto n rest :
  is_u32 src → is_u32 dst → is_u8 proto → 0 ≤ n → 20 + n < 2 ^ 16 →
  let bs := ip_header src dst proto n ++ rest in
  get8 bs 0 = 0x45 ∧ get8 bs 9 = proto ∧ ip_total bs = 20 + n ∧
  get16 bs 10 = inet_csum (ip_header0 src dst proto n) ∧ get32 bs 12 = src ∧ get32 bs 16 = dst.
Proof.
  intros Hs Hd Hp Hn Hn2 bs. set (c := inet_csum (ip_header0 src dst proto n)).
  assert (is_u16 c) as Hc by apply inet_csum_u16.
  assert (bs = [0x45; 0] ++ put16 (htobe16 (20 + n)) ++ put16 0 ++ put16 0 ++ [64; u8 proto] ++ put16 c ++
               put32 src ++ put32 dst ++ rest) as ->.
  { subst bs. unfold ip_header. fold c. reflexivity. }
  split_and!; [done|by apply u8_small| | | |].
  - unfold ip_total. rewrite <-(get16_drop _ 2 0).
    change (drop 2 ([0x45; 0] ++ ?x)) with x. simpl (drop 2 _).
    erewrite (get16_app (htobe16 (20 + n))) by apply u16_range. apply htobe16_invol. unfold is_u16. lia.
  - rewrite <-(get16_drop _ 10 0). by apply (get16_app c (put32 src ++ put32 dst ++ rest)).
  - rewrite <-(get32_drop _ 12 0). by apply (get32_put32 src (put32 dst ++ rest)).
  - rewrite <-(get32_drop _ 16 0). by apply (get32_put32 dst rest).
Qed.

(** ** Theorems *)

(** The packet is accepted, whatever padding follows it. *)
Lemma ip_header_valid src dst proto ip payload pad :
  let n := Z.of_nat (length payload) in
  is_u32 src → is_u32 dst → is_u8 proto → 20 + n < 2 ^ 16 → (dst = ip ∨ ip4_is_broadcast dst = true) →
  let bs := ip_header src dst proto n ++ payload ++ pad in
  ip_valid ip bs = true ∧ ip_payload bs = payload.
Proof.
  intros n Hs Hd Hp Hn Hip bs.
  destruct (ip_header_fields src dst proto n (payload ++ pad)) as (H0 & H9 & Ht & Hc & Hsrc & Hdst); [done..|lia|lia|].
  fold bs in H0, H9, Ht, Hc, Hsrc, Hdst.
  assert (ip_ihl bs = 20) as Hihl by (unfold ip_ihl; by rewrite H0).
  assert (length bs = 20 + length payload + length pad)%nat as Hl.
  { subst bs. rewrite !length_app, ip_header_length. lia. }
  assert (ip_rx_csum bs = inet_csum (ip_header0 src dst proto n)) as Hcs.
  { unfold ip_rx_csum. rewrite Hihl. f_equal. }
  split.
  - unfold ip_valid. rewrite Hihl, Hcs, Hc, H0, Ht, Hdst, Hl, Z.eqb_refl. decide_cmps.
    destruct Hip as [->| ->]; [rewrite Z.eqb_refl, orb_true_r|]; done.
  - unfold ip_payload. rewrite Ht, Hihl. replace (20 + n - 20) with n by lia. subst bs n.
    rewrite Nat2Z.id, drop_app_length' by done. by rewrite take_app_length.
Qed.

(** [ipv4_rx] hands a packet to the handler of its protocol exactly when the
    version, the header length, the header checksum, the destination and the
    total length are right; the handler sees the payload delimited by the
    total-length field, inside the bytes received.  Every other packet is
    released and nothing else of the stack changes. *)
Theorem ipv4_rx_dispatch `{NetEnv} d v i b F l bs ps s :
  owns (n_buf s) F (Some i) l (bs :: ps) → pool (n_buf s) !! i = Some b → m_refcount b = 1 →
  l_devs (n_link s) !! d = Some v →
  ∃ (k : M net unit) s', ipv4_rx d i s = k s' ∧ s' = put_buf (n_buf s') s ∧
    if ip_valid (nd_ip v) bs then
      match ip_handler (get8 bs 9) (g_ip_handlers s) with
      | Some f => k = ip_call f d (get32 bs 12) (get32 bs 16) i ∧ owns (n_buf s') F (Some i) l (ip_payload bs :: ps)
      | None => k = mret tt ∧ freed F l (n_buf s')
      end
    else k = mret tt ∧ freed F l (n_buf s').
Proof. intros Hown Hb Hr Hv. exact (leads_ipv4_rx d v i b F l bs ps s Hown Hb Hr Hv). Qed.

(** C25: a payload sent with [ipv4_build_and_send] reaches the driver of the
    device as one packet behind a link header, and [ipv4_rx] of a host that
    gets this packet, with whatever padding the link has added behind it, and
    whose address is the destination (or that is the broadcast address), hands
    the handler of the protocol exactly the payload, with the addresses of the
    sender.  The payload and the headers must fit an mbuf and two mbufs be free. *)
Theorem ipv4_send_rx_roundtrip `{NetEnv} d v mac src dst proto p F l ps s :
  owns (n_buf s) F (Some p) l ps → l_devs (n_link s) !! d = Some v → Forall is_u8 mac → Forall is_u8 (nd_mac v) →
  is_u32 src → is_u32 dst → is_u8 proto →
  20 + Z.of_nat (length (concat ps)) ≤ MBUF_DATA_SIZE → (2 ≤ length F)%nat →
  let pkt := ip_packet src dst proto (concat ps) in
  leads (ipv4_build_and_send (Some d) (Some mac) src dst proto (Some p)) s
    (hands_over d (eth_hdr mac (nd_mac v) (htobe16 ETH_P_IP) ++ pkt) F l s) ∧
  ∀ d2 v2 i b F2 l2 qs f pad s2,
    owns (n_buf s2) F2 (Some i) l2 ((pkt ++ pad) :: qs) → pool (n_buf s2) !! i = Some b → m_refcount b = 1 →
    l_devs (n_link s2) !! d2 = Some v2 → dst = nd_ip v2 ∨ ip4_is_broadcast dst = true →
    ip_handler proto (g_ip_handlers s2) = Some f →
    leads (ipv4_rx d2 i) s2 (λ k s3, k = ip_call f d2 src dst i ∧
      owns (n_buf s3) F2 (Some i) l2 (concat ps :: qs) ∧ s3 = put_buf (n_buf s3) s2).
Proof.
  intros Hown Hv Hmac Hvm Hs Hd Hp Hfit HF pkt. split; [by apply leads_ipv4_build|].
  intros d2 v2 i b F2 l2 qs f pad s2 Hown2 Hb Hr Hv2 Hdst Hf. unfold MBUF_DATA_SIZE in Hfit.
  destruct (leads_ipv4_rx d2 v2 i b F2 l2 (pkt ++ pad) qs s2 Hown2 Hb Hr Hv2) as (k & s3 & Hrun & Hs3 & Hk).
  exists k, s3. split; [exact Hrun|].
  set (n := Z.of_nat (length (concat ps))).
  assert (pkt ++ pad = ip_header src dst proto n ++ concat ps ++ pad) as E by (unfold pkt, ip_packet; by rewrite <-app_assoc).
  rewrite E in Hk. destruct (ip_header_valid src dst proto (nd_ip v2) (concat ps) pad) as [H1 H2]; [done..|lia|done|].
  destruct (ip_header_fields src dst proto n (concat ps ++ pad)) as (_ & H9 & _ & _ & Hsrc & Hdst'); [done..|lia|lia|].
  fold n in H1, H2. rewrite H1, H2, H9, Hsrc, Hdst', Hf in Hk. destruct Hk as [-> Hown3]. by split_and!.
Qed.

(** ** The echo responder *)

Lemma owns_single nb F i l bs : owns nb F (Some i) l [bs] → l = [i].
Proof.
  intros Hown. destruct (owns_head _ _ _ _ _ _ Hown) as (b & l' & -> & _ & _ & Hrest & _).
  by inversion Hrest.
Qed.

(** The reply to an echo request: type and code 0, a fresh checksum, the rest as
    received. *)
Definition echo_reply0 (bs : list Z) : list Z := overwrite bs 0 [0; 0; 0; 0].
Definition echo_reply (bs : list Z) : list Z := overwrite (echo_reply0 bs) 2 (put16 (inet_csum (echo_reply0 bs))).

Lemma echo_reply_eq bs :
  (4 ≤ length bs)%nat →
  echo_reply0 bs = [0; 0] ++ [0; 0] ++ drop 4 bs ∧
  echo_reply bs = [0; 0] ++ put16 (inet_csum (echo_reply0 bs)) ++ drop 4 bs.
Proof. intros Hl. destruct bs as [|a [|b [|c [|e bs]]]]; simpl in Hl; try lia. done. Qed.

(** Sending through a cached next hop. *)
Definition next_hop (v : netdev) (dst : Z) : Z :=
  if Z.land dst (nd_netmask v) =? Z.land (nd_ip v) (nd_netmask v) then dst else nd_gateway v.

Lemma wp_ipv4_send_cached `{NicDriver} d v mac dst proto p b F l ps s (Q : Z → net → Prop) :
  owns (n_buf s) F (Some p) l ps → pool (n_buf s) !! p = Some b → m_refcount b = 1 →
  l_devs (n_link s) !! d = Some v → Forall is_u8 mac → Forall is_u8 (nd_mac v) →
  ip4_is_broadcast dst = false → next_hop v dst ≠ nd_ip v →
  arp_lookup (g_arp_cache (n_arp s)) (next_hop v dst) = Some mac →
  let n := Z.of_nat (length (concat ps)) in
  20 + n ≤ MBUF_DATA_SIZE → (2 ≤ length F)%nat →
  (∀ r nb' F', pool_ok nb' F' → (∀ j, j ∈ F' → j ∈ l ++ F) → agree_off (l ++ F) (n_buf s) nb' →
     (r = 0 ∨ r = -1) →
     Q r (put_wire (transmitted d (eth_hdr mac (nd_mac v) (htobe16 ETH_P_IP) ++
                                   ip_header (nd_ip v) dst proto n ++ concat ps) r s) (put_buf nb' s))) →
  wp (ipv4_send (Some d) dst proto (Some p)) Q s.
Proof.
  intros Hown Hb Hr Hv Hmac Hvm Hbc Hne Harp n Hfit HF HQ. unfold ipv4_send, arp_resolve.
  wp_step. eapply wp_dev_get; [done|]. rewrite Hbc. fold (next_hop v dst).
  wp_step. wp_step. eapply wp_dev_get; [done|]. decide_cmps. wp_steps. rewrite Harp. wp_steps.
  eapply wp_dev_get; [done|]. by eapply wp_ipv4_build.
Qed.

(** An echo request is answered: one frame goes to the requester (through its
    cached next hop) whose ICMP message has type and code 0, a checksum that
    verifies, and the identifier, sequence number and data of the request; the
    request is released. *)
Theorem icmp_echo_answered `{NicDriver} d v mac src dst m b F bs s :
  owns (n_buf s) F (Some m) [m] [bs] → pool (n_buf s) !! m = Some b → m_refcount b = 1 →
  m_data_off b + m_len b ≤ MBUF_DATA_SIZE → 20 + Z.of_nat (length bs) ≤ MBUF_DATA_SIZE →
  (4 ≤ length bs)%nat → get8 bs 0 = ICMP_ECHO_REQUEST →
  l_devs (n_link s) !! d = Some v → Forall is_u8 mac → Forall is_u8 (nd_mac v) →
  ip4_is_broadcast src = false → next_hop v src ≠ nd_ip v →
  arp_lookup (g_arp_cache (n_arp s)) (next_hop v src) = Some mac → (3 ≤ length F)%nat →
  ∃ r s' F' reply, icmp_rx d src dst m s = Ok (tt, s') ∧ (r = 0 ∨ r = -1) ∧
    n_wire s' = transmitted d (eth_hdr mac (nd_mac v) (htobe16 ETH_P_IP) ++
      ip_header (nd_ip v) src IP_PROTO_ICMP (Z.of_nat (length bs)) ++ reply) r s ∧
    inet_csum reply = 0 ∧ take 2 reply = [ICMP_ECHO_REPLY; 0] ∧ drop 4 reply = drop 4 bs ∧
    pool_ok (n_buf s') F' ∧ m ∈ F' ∧ n_icmp s' = n_icmp s.
Proof.
  intros Hown Hb Hr Hspan Hfit Hlen Htype Hv Hmac Hvm Hbc Hne Harp HF.
  destruct (echo_reply_eq bs Hlen) as [He0 He].
  assert (Forall is_u8 bs) as Hu by (pose proof (owns_u8 _ _ _ _ _ Hown) as Hc; by apply Forall_app in Hc as [? _]).
  enough (wp (icmp_rx d src dst m) (λ _ s', ∃ r F', (r = 0 ∨ r = -1) ∧
    n_wire s' = transmitted d (eth_hdr mac (nd_mac v) (htobe16 ETH_P_IP) ++
      ip_header (nd_ip v) src IP_PROTO_ICMP (Z.of_nat (length bs)) ++ echo_reply bs) r s ∧
    pool_ok (n_buf s') F' ∧ m ∈ F' ∧ n_icmp s' = n_icmp s) s) as Hwp.
  { apply wp_ok in Hwp as ([] & s' & Hrun & r & F' & Hrr & Hw & Hok & Hm & Hic).
    exists r, s', F', (echo_reply bs). rewrite He. split_and!; try done.
    apply csum_in_place; [|done|by rewrite He0]. unfold csum_ok. rewrite <-He0. split.
    - apply overwrite_u8; [done|repeat constructor; unfold is_u8; lia].
    - unfold echo_reply0. rewrite overwrite_length by (simpl; lia). unfold MBUF_DATA_SIZE in *. lia. }
  destruct (owns_head _ _ _ _ _ _ Hown) as (b' & l' & _ & Hb' & Hh & _ & _ & HmF).
  rewrite Hb in Hb'. injection Hb' as <-. pose proof (holds_length _ _ Hh) as Hbl.
  assert (put_buf (n_buf s) s = s) as Hid by by destruct s.
  unfold icmp_rx, ICMP_HDR_LEN. wp_step. apply wp_on_buf. eapply wp_deref; [done|]. rewrite Hid. decide_cmps.
  wp_step. apply wp_on_buf. eapply wp_hdr_get; [done|lia|lia|lia|]. rewrite Hid.
  change (Z.to_nat 4) with 4%nat. change (Z.to_nat 0) with 0%nat. rewrite drop_0, take_get8, Htype by lia.
  change (ICMP_ECHO_REQUEST =? ICMP_ECHO_REPLY) with false. change (ICMP_ECHO_REQUEST =? ICMP_ECHO_REQUEST) with true.
  cbn [andb]. wp_steps. apply wp_on_buf. eapply (wp_clone _ F m [m] [bs]); [done| | |].
  { intros j bj ->%list_elem_of_singleton Hbj. rewrite Hb in Hbj. by injection Hbj as <-. }
  2:{ intros nb' F' _ _ Hlt _. simpl in Hlt. lia. }
  intros nb1 r cl F1 Hown1 HFc Hag1 (rb & Hrb & Hrr). pose proof (owns_single _ _ _ _ _ Hown1) as ->.
  simpl in HFc. wp_step. apply wp_on_buf. cbn [n_buf put_buf].
  eapply (wp_hdr_put _ _ _ _ _ _ 0 [0; 0; 0; 0]); [done|done|repeat constructor; unfold is_u8; lia|lia|simpl; lia|].
  fold (echo_reply0 bs). intros nb2 b2 Hown2 Hs2 Hb2 Hr2 _ _. rewrite Hrr in Hr2.
  assert (length (echo_reply0 bs) = length bs) as Hl0 by (apply overwrite_length; simpl; lia).
  destruct (owns_head _ _ _ _ _ _ Hown2) as (b2' & ? & _ & Hb2' & Hh2 & _).
  rewrite Hb2 in Hb2'. injection Hb2' as <-. pose proof (holds_length _ _ Hh2) as Hbl2.
  wp_step. apply wp_on_buf. eapply wp_deref; [done|].
  wp_step. apply wp_on_buf. eapply wp_hdr_get; [done|lia|lia|lia|].
  change (Z.to_nat 0) with 0%nat. rewrite drop_0, take_ge by lia.
  wp_step. apply wp_on_buf. cbn [n_buf put_buf].
  eapply (wp_hdr_put _ _ _ _ _ _ 2); [done|done|apply put16_u8|lia|rewrite Hl0; change (length (put16 _)) with 2%nat; lia|].
  fold (echo_reply bs). intros nb3 b3 Hown3 Hs3 Hb3 Hr3 _ _. rewrite Hr2 in Hr3.
  assert (length (echo_reply bs) = length bs) as Hl1 by (unfold echo_reply; rewrite overwrite_length; [done|lia|rewrite Hl0; change (length (put16 _)) with 2%nat; lia]).
  wp_step. eapply (wp_ipv4_send_cached d v mac); try done; cbn [concat].
  { rewrite app_nil_r, Hl1. done. }
  { rewrite HFc in HF. simpl in HF. lia. }
  rewrite app_nil_r, Hl1. intros rc nb4 F4 Hok4 HF4 Hag4 Hrc. cbn [n_buf put_buf] in Hag4.
  assert (agree_off F (n_buf s) nb4) as Hag.
  { intros j Hj. rewrite Hag4 by (by rewrite HFc in Hj). assert (j ≠ r) by (intros ->; apply Hj; rewrite HFc; by left).
    rewrite Hs3, Hs2 by done. by apply Hag1. }
  assert (owns nb4 F4 (Some m) [m] [bs]) as Hown4.
  { eapply owns_after; [exact Hown|exact Hok4| |exact Hag|].
    - intros j Hj. rewrite HFc. by apply HF4.
    - by intros j ->%list_elem_of_singleton. }
  apply wp_on_buf. cbn [n_buf put_buf put_wire].
  eapply wp_free_owned; [exact Hown4|rewrite Hag by done; exact Hb|lia|].
  intros nb5 F5 Hok5 HF5 _. exists rc, F5. split_and!; try done.
  rewrite HF5. by left.
Qed.

(** ** Witnesses *)

Definition demo_ip_pkt : list Z := ip_header (ip4_make 10 0 2 2) (ip4_make 10 0 2 15) IP_PROTO_UDP 4 ++ [1; 2; 3; 4].

Lemma ipv4_rx_dispatch_witness :
  ∃ (k : M net unit) s', @ipv4_rx wire_env 0 0 (demo_net_of (demo_nb1 demo_ip_pkt)) = k s' ∧
    k = @ip_call wire_env fn_udp_rx 0 (ip4_make 10 0 2 2) (ip4_make 10 0 2 15) 0 ∧
    owns (n_buf s') [1; 2; 3; 4]%nat (Some 0%nat) [0%nat] [[1; 2; 3; 4]].
Proof.
  destruct (@ipv4_rx_dispatch wire_env 0 demo_dev 0 (demo_mbuf demo_ip_pkt None None) [1; 2; 3; 4]%nat [0%nat]
    demo_ip_pkt [] (demo_net_of (demo_nb1 demo_ip_pkt))) as (k & s' & Hrun & _ & Hk); try done.
  - apply demo1_owns; [unfold demo_ip_pkt; simpl; lia|].
    apply Forall_app_2; [apply ip_header_u8|demo_bytes].
  - exists k, s'. split; [exact Hrun|]. exact Hk.
Defined.

(** Seven bytes from 10.0.2.2 to the host of [demo_dev], two bytes of padding. *)
Lemma ipv4_send_rx_roundtrip_witness :
  leads (@ipv4_build_and_send wire_env (Some 0%nat) (Some ETH_BROADCAST) (ip4_make 10 0 2 2) (ip4_make 10 0 2 15) IP_PROTO_UDP (Some 0%nat)) demo_net
    (@hands_over wire_env 0 (eth_hdr ETH_BROADCAST [2; 0; 0; 0; 0; 1] (htobe16 ETH_P_IP) ++
       ip_packet (ip4_make 10 0 2 2) (ip4_make 10 0 2 15) IP_PROTO_UDP [1; 2; 3; 4; 5; 6; 7]) [2; 3; 4]%nat [0; 1]%nat demo_net) ∧
  let s2 := demo_net_of (demo_nb1 (ip_packet (ip4_make 10 0 2 2) (ip4_make 10 0 2 15) IP_PROTO_UDP [1; 2; 3; 4; 5; 6; 7] ++ [0; 0])) in
  leads (@ipv4_rx wire_env 0 0) s2 (λ k s3, k = @ip_call wire_env fn_udp_rx 0 (ip4_make 10 0 2 2) (ip4_make 10 0 2 15) 0 ∧
    owns (n_buf s3) [1; 2; 3; 4]%nat (Some 0%nat) [0%nat] [[1; 2; 3; 4; 5; 6; 7]] ∧ s3 = put_buf (n_buf s3) s2).
Proof.
  destruct (@ipv4_send_rx_roundtrip wire_env 0 demo_dev ETH_BROADCAST (ip4_make 10 0 2 2) (ip4_make 10 0 2 15) IP_PROTO_UDP 0
    [2; 3; 4]%nat [0; 1]%nat [[1; 2; 3; 4]; [5; 6; 7]] demo_net) as [Hsend Hrx]; try exact demo_owns; try done; try demo_bytes.
  set (pkt := ip_packet _ _ _ _) in *.
  split; [exact Hsend|]. intros s2.
  apply (Hrx 0%nat demo_dev 0%nat (demo_mbuf (pkt ++ [0; 0]) None None) [1; 2; 3; 4]%nat [0%nat] [] fn_udp_rx [0; 0] s2); try done; [|by left].
  apply demo1_owns; [by vm_compute; lia|]. apply (bool_decide_unpack _). by vm_compute.
Defined.

(** An echo request (id 7, sequence 1) from 10.0.2.2, which the cache knows. *)
Definition demo_echo : list Z := [8; 0; 0xF7; 0xF7; 0; 7; 0; 1].
Definition demo_echo_net : net :=
  put_arp (Arp (arp_cache_insert (replicate 16 arp_zero) (ip4_make 10 0 2 2) [2; 0; 0; 0; 0; 9]) arp_zero)
    (demo_net_of (demo_nb1 demo_echo)).

Lemma icmp_echo_answered_witness :
  ∃ r s' F' reply, @icmp_rx wire_env 0 (ip4_make 10 0 2 2) (ip4_make 10 0 2 15) 0 demo_echo_net = Ok (tt, s') ∧
    (r = 0 ∨ r = -1) ∧
    n_wire s' = transmitted 0 (eth_hdr [2; 0; 0; 0; 0; 9] [2; 0; 0; 0; 0; 1] (htobe16 ETH_P_IP) ++
      ip_header (ip4_make 10 0 2 15) (ip4_make 10 0 2 2) IP_PROTO_ICMP 8 ++ reply) r demo_echo_net ∧
    inet_csum reply = 0 ∧ take 2 reply = [ICMP_ECHO_REPLY; 0] ∧ drop 4 reply = [0; 7; 0; 1] ∧
    pool_ok (n_buf s') F' ∧ 0%nat ∈ F' ∧ n_icmp s' = n_icmp demo_echo_net.
Proof.
  apply (@icmp_echo_answered wire_env _ 0 demo_dev [2; 0; 0; 0; 0; 9] (ip4_make 10 0 2 2) (ip4_make 10 0 2 15) 0
    (demo_mbuf demo_echo None None) [1; 2; 3; 4]%nat demo_echo demo_echo_net);
    try (apply demo1_owns; demo_bytes); try done; demo_bytes.
Defined.
