(* ===== verification/Udp.v ===== *)
(** * Udp: datagram sockets (kernel/udp.c)

    The socket table, port allocation, building datagrams and the receive
    queues, which run through [next] of the queued mbufs.  The state of all
    sockets with their queues ([udp_sys]) is kept by every call and by what the
    rest of the system does between calls ([udp_step]). *)

From S2P Require Import Prelude NetUtil NetBuf Net Link Arp Ip.

Definition UDP_SOCK_MAX : nat := 32.
Definition UDP_HDR_LEN : Z := 8.
Definition UDP_EPHEMERAL_START : Z := 49152.
Definition UDP_EPHEMERAL_END : Z := 65535.

Definition us_zero : udp_sock := UdpSock false 0 None 0 None.

Definition udp_init : M net unit :=
  on_udp (modify (λ u, Udp (replicate UDP_SOCK_MAX us_zero) (udp_next_port u)));;
  ip_proto_register IP_PROTO_UDP fn_udp_rx.

Definition set_socks (l : list udp_sock) : M udp unit := modify (λ u, Udp l (udp_next_port u)).

(** The socket with descriptor [sock], if the index is in range and in use. *)
Definition udp_get (sock : Z) (l : list udp_sock) : option udp_sock :=
  if (sock <? 0) || (Z.of_nat UDP_SOCK_MAX <=? sock) then None
  else match l !! Z.to_nat sock with
       | Some us => if us_in_use us then Some us else None
       | None => None
       end.

Definition udp_socket : M udp Z :=
  l ← gets g_udp_socks;
  match list_find (λ us, Is_true (negb (us_in_use us))) l with
  | Some (i, _) => set_socks (<[i := UdpSock true 0 None 0 None]> l);; mret (Z.of_nat i)
  | None => mret (-1)
  end.

(** [g_udp_socks[i].in_use && g_udp_socks[i].local_port == p] *)
Definition udp_bound (p : Z) (us : udp_sock) : bool := us_in_use us && (us_local_port us =? p).

Definition udp_ephemeral_port : M udp Z :=
  r ← for_ret (Z.to_nat (UDP_EPHEMERAL_END - UDP_EPHEMERAL_START)) 0 (λ _,
    modify (λ u, Udp (g_udp_socks u)
      (let next := if UDP_EPHEMERAL_END <=? udp_next_port u then UDP_EPHEMERAL_START else udp_next_port u in
       u16 (next + 1)));;
    u ← gets id;
    if existsb (udp_bound (udp_next_port u)) (g_udp_socks u) then mret None
    else mret (Some (udp_next_port u)));
  mret (match r with Some p => p | None => 0 end).

Definition udp_set_port (sock : nat) (p : Z) : M udp unit :=
  modify (λ u, Udp (alter (λ us, UdpSock (us_in_use us) p (us_rx_queue us) (us_rx_count us) (us_wait_recv us))
                      sock (g_udp_socks u)) (udp_next_port u)).

(** Some other socket than [sock] in use has port [p]. *)
Definition udp_conflict (sock : nat) (p : Z) (l : list udp_sock) : bool :=
  existsb id (imap (λ i us, negb (i =? sock)%nat && udp_bound p us) l).

Definition udp_bind (sock port : Z) : M udp Z :=
  l ← gets g_udp_socks;
  match udp_get sock l with
  | None => mret (-1)
  | Some _ =>
    port ← (if port =? 0 then udp_ephemeral_port else mret port);
    if port =? 0 then mret (-1)
    else
      l ← gets g_udp_socks;
      if udp_conflict (Z.to_nat sock) port l then mret (-1)
      else udp_set_port (Z.to_nat sock) port;; mret 0
  end.

(** [struct udp_hdr] in memory. *)
Definition udp_hdr (sport dport len checksum : Z) : list Z :=
  put16 sport ++ put16 dport ++ put16 len ++ put16 checksum.

(** The checksum of a datagram [d] between two addresses, from the UDP length
    field on. *)
Definition udp_csum (src_ip dst_ip len_be : Z) (d : list Z) : Z :=
  let sum := csum_acc 0 (put32 src_ip) in
  let sum := csum_acc sum (put32 dst_ip) in
  let sum := csum_acc sum [0; IP_PROTO_UDP] in
  let sum := csum_acc sum (put16 len_be) in
  csum_finish (csum_acc sum d).

Section udp.
Context `{NetEnv}.

(** The local port of a socket, assigned on first use. *)
Definition udp_source_port (sock : nat) : M udp Z :=
  l ← gets g_udp_socks;
  match l !! sock with
  | None => fault
  | Some us =>
    if us_local_port us =? 0 then
      p ← udp_ephemeral_port;
      if p =? 0 then mret 0 else udp_set_port sock p;; mret p
    else mret (us_local_port us)
  end.

Definition udp_build_and_send (sock : nat) (dev : option nat) (dst_mac : list Z) (src_ip dst_ip dst_port : Z)
    (buf : list Z) : M net Z :=
  match dev with
  | None => mret (-1)
  | Some d =>
    if Z.of_nat (length buf) =? 0 then mret (-1)
    else
      sport ← on_udp (udp_source_port sock);
      if sport =? 0 then mret (-1)
      else
        let len := if MBUF_DATA_SIZE - UDP_HDR_LEN <? Z.of_nat (length buf)
                   then MBUF_DATA_SIZE - UDP_HDR_LEN else Z.of_nat (length buf) in
        mo ← on_buf mbuf_alloc0;
        match mo with
        | None => mret (-1)
        | Some m =>
          let len_be := htobe16 (u16 (UDP_HDR_LEN + len)) in
          on_buf (hdr_put m 0 (udp_hdr (htobe16 sport) (htobe16 dst_port) len_be 0));;
          on_buf (hdr_put m UDP_HDR_LEN (take (Z.to_nat len) buf));;
          on_buf (update m (set_len (UDP_HDR_LEN + len)));;
          dgram ← on_buf (hdr_get m 0 (UDP_HDR_LEN + len));
          let c := udp_csum src_ip dst_ip len_be dgram in
          on_buf (hdr_put m 6 (put16 (if c =? 0 then 0xFFFF else c)));;
          ipv4_send_direct (Some d) (Some dst_mac) src_ip dst_ip IP_PROTO_UDP (Some m)
        end
  end.

Definition udp_send_direct (sock : Z) (dev : option nat) (dst_mac : list Z) (src_ip dst_ip dst_port : Z)
    (buf : list Z) : M net Z :=
  u ← gets n_udp;
  match udp_get sock (g_udp_socks u) with
  | None => mret (-1)
  | Some _ => udp_build_and_send (Z.to_nat sock) dev dst_mac src_ip dst_ip dst_port buf
  end.

Definition udp_sendto (sock dst_ip dst_port : Z) (buf : list Z) : M net Z :=
  u ← gets n_udp;
  match udp_get sock (g_udp_socks u) with
  | None => mret (-1)
  | Some _ =>
    dev ← on_link (netdev_for_ip dst_ip);
    match dev with
    | None => mret (-1)
    | Some d =>
      if ip4_is_broadcast dst_ip then
        v ← dev_get d;
        udp_build_and_send (Z.to_nat sock) (Some d) ETH_BROADCAST (nd_ip v) dst_ip dst_port buf
      else
        mac ← arp_resolve d dst_ip;
        match mac with
        | None => mret (-1)
        | Some a => v ← dev_get d;
                    udp_build_and_send (Z.to_nat sock) (Some d) a (nd_ip v) dst_ip dst_port buf
        end
    end
  end.

Definition udp_datagram_ready (sock : Z) : M udp Z :=
  l ← gets g_udp_socks;
  match udp_get sock l with
  | None => mret (-1)
  | Some us => mret (if 0 <? us_rx_count us then 1 else 0)
  end.

(** [*us] and an update of it. *)
Definition us_load (sock : nat) : M net udp_sock :=
  u ← gets n_udp;
  match g_udp_socks u !! sock with Some us => mret us | None => fault end.
Definition us_store (sock : nat) (us : udp_sock) : M net unit :=
  on_udp (modify (λ u, Udp (<[sock := us]> (g_udp_socks u)) (udp_next_port u))).

(** [udp_recvfrom]: the return value, the bytes copied to [buf] and the sender.
    [fuel] bounds the wait for a datagram, which other threads end. *)
Definition udp_recvfrom (fuel : nat) (sock max : Z) : M net (Z * list Z * option (Z * Z)) :=
  u ← gets n_udp;
  match udp_get sock (g_udp_socks u) with
  | None => mret (-1, [], None)
  | Some _ =>
    let i := Z.to_nat sock in
    closed ← loop_fuel fuel (λ _ : unit,
      us ← us_load i;
      if us_rx_count us =? 0 then
        if us_in_use us then sched_yield;; mret (inl tt) else mret (inr true)
      else mret (inr false)) tt;
    if closed : bool then mret (-1, [], None)
    else
      us ← us_load i;
      match us_rx_queue us with
      | None => mret (-1, [], None)
      | Some m =>
        b ← on_buf (deref m);
        us_store i (UdpSock (us_in_use us) (us_local_port us) (m_next b) (us_rx_count us - 1) (us_wait_recv us));;
        if m_len b <? UDP_HDR_LEN then on_buf (mbuf_free (Some m));; mret (-1, [], None)
        else
          on_buf (skip_hdr m UDP_HDR_LEN (u64 (m_len b - UDP_HDR_LEN)));;
          b' ← on_buf (deref m);
          let n := if max <? m_len b' then max else m_len b' in
          bs ← on_buf (hdr_get m 0 n);
          on_buf (mbuf_free (Some m));;
          mret (n, bs, Some (m_rx_src_ip b, m_rx_src_port b))
      end
  end.

Definition udp_close (sock : Z) : M net unit :=
  if (sock <? 0) || (Z.of_nat UDP_SOCK_MAX <=? sock) then mret tt
  else
    let i := Z.to_nat sock in
    loop_fuel CHAIN_FUEL (λ _ : unit,
      us ← us_load i;
      match us_rx_queue us with
      | None => mret (inr tt)
      | Some m =>
        b ← on_buf (deref m);
        us_store i (UdpSock (us_in_use us) (us_local_port us) (m_next b) (us_rx_count us) (us_wait_recv us));;
        on_buf (mbuf_free (Some m));;
        mret (inl tt)
      end) tt;;
    us ← us_load i;
    match us_wait_recv us with
    | Some t => sched_wake t;;
                us ← us_load i;
                us_store i (UdpSock (us_in_use us) (us_local_port us) (us_rx_queue us) (us_rx_count us) None)
    | None => mret tt
    end;;
    us ← us_load i;
    us_store i (UdpSock false (us_local_port us) (us_rx_queue us) (us_rx_count us) (us_wait_recv us)).

(** [while (tail->next) tail = tail->next;] *)
Definition queue_tail (m : nat) : M netbuf nat :=
  loop_fuel CHAIN_FUEL (λ t,
    b ← deref t;
    match m_next b with Some n => mret (inl n) | None => mret (inr t) end) m.

Definition udp_rx (d : nat) (src dst : Z) (m : nat) : M net unit :=
  b ← on_buf (deref m);
  if m_len b <? UDP_HDR_LEN then on_buf (mbuf_free (Some m))
  else
    uh ← on_buf (hdr_get m 0 UDP_HDR_LEN);
    let dport := be16toh (get16 uh 2) in
    u ← gets n_udp;
    match list_find (λ us, Is_true (udp_bound dport us)) (g_udp_socks u) with
    | None => on_buf (mbuf_free (Some m))
    | Some (i, us) =>
      on_buf (update m (λ b, set_next None (set_rx_src src (be16toh (get16 uh 0)) b)));;
      us ← us_load i;
      q ← match us_rx_queue us with
          | None => mret (Some m)
          | Some q => tail ← on_buf (queue_tail q);
                      on_buf (update tail (set_next (Some m)));;
                      mret (Some q)
          end;
      us_store i (UdpSock (us_in_use us) (us_local_port us) q (us_rx_count us + 1) (us_wait_recv us));;
      match us_wait_recv us with
      | Some t => sched_wake t;;
                  us ← us_load i;
                  us_store i (UdpSock (us_in_use us) (us_local_port us) (us_rx_queue us) (us_rx_count us) None)
      | None => mret tt
      end
    end.
End udp.

(** ** Ports *)

Record udp_ok (u : udp) : Prop := UdpOk {
  uo_len : length (g_udp_socks u) = UDP_SOCK_MAX;
  uo_next : UDP_EPHEMERAL_START ≤ udp_next_port u ≤ UDP_EPHEMERAL_END;
  uo_unique : ∀ i j a b, g_udp_socks u !! i = Some a → g_udp_socks u !! j = Some b →
    us_in_use a = true → us_in_use b = true → us_local_port a = us_local_port b → us_local_port a ≠ 0 → i = j }.

(** The [k]-th candidate after [x]: the dynamic range without its first port,
    cyclically. *)
Definition candidate (x : Z) (k : nat) : Z := 49153 + (x - 49153 + Z.of_nat k) mod 16383.

Lemma candidate_step x k :
  49152 ≤ x ≤ 65535 →
  let y := if k is O then x else candidate x k in
  u16 ((if 65535 <=? y then 49152 else y) + 1) = candidate x (S k).
Proof.
  intros Hx y. unfold candidate, u16 in *.
  assert (0 ≤ y < 65536 ∧ (y - 49153 - (x - 49153 + Z.of_nat k)) mod 16383 = 0 ∧ 49152 ≤ y ≤ 65535) as (Hy0 & Hyc & Hyr).
  { subst y. destruct k; [split_and!; try lia; by replace (x - 49153 - (x - 49153 + Z.of_nat 0)) with 0 by lia|].
    unfold candidate. pose proof (Z.mod_pos_bound (x - 49153 + Z.of_nat (S k)) 16383).
    split_and!; try lia. Z.div_mod_to_equations. lia. }
  destruct (Z.leb_spec 65535 y); Z.div_mod_to_equations; lia.
Qed.

Lemma candidate_inj x i j :
  (i < 100)%nat → (j < 100)%nat → candidate x i = candidate x j → i = j.
Proof. unfold candidate. intros Hi Hj Heq. Z.div_mod_to_equations. lia. Qed.

Lemma candidate_range x k : 49153 ≤ candidate x k ≤ 65535.
Proof. unfold candidate. pose proof (Z.mod_pos_bound (x - 49153 + Z.of_nat k) 16383). lia. Qed.

(** [n] distinct ports cannot all be bound by fewer than [n] sockets. *)
Lemma ports_pigeonhole (l : list udp_sock) (ports : list Z) :
  NoDup ports → (∀ p, p ∈ ports → existsb (udp_bound p) l = true) → (length ports ≤ length l)%nat.
Proof.
  intros Hnd Hb. rewrite <-(length_map us_local_port l). apply submseteq_length, NoDup_submseteq; [done|].
  intros p Hp. specialize (Hb p Hp). apply existsb_exists in Hb as (us & Hin & Hus).
  apply andb_prop in Hus as [_ <-%Z.eqb_eq]. apply list_elem_of_In, in_map. done.
Qed.

Lemma wp_ephemeral u (Q : Z → udp → Prop) :
  length (g_udp_socks u) = UDP_SOCK_MAX → UDP_EPHEMERAL_START ≤ udp_next_port u ≤ UDP_EPHEMERAL_END →
  (∀ p, 49153 ≤ p ≤ 65535 → existsb (udp_bound p) (g_udp_socks u) = false → Q p (Udp (g_udp_socks u) p)) →
  wp udp_ephemeral_port Q u.
Proof.
  intros Hlen Hn HQ. unfold udp_ephemeral_port, UDP_EPHEMERAL_START, UDP_EPHEMERAL_END in *. wp_step.
  set (x := udp_next_port u) in *.
  apply (wp_for_ret (λ k u', g_udp_socks u' = g_udp_socks u ∧
    udp_next_port u' = (if Z.to_nat k is O then x else candidate x (Z.to_nat k)) ∧
    ∀ i, (1 ≤ i ≤ Z.to_nat k)%nat → existsb (udp_bound (candidate x i)) (g_udp_socks u) = true)).
  - split_and!; [done|done|]. simpl. lia.
  - intros k u' Hk (Hs & Hx & Hall). wp_steps. cbn [udp_next_port g_udp_socks id] in *.
    + split_and!; [done| |].
      * rewrite Hx. replace (Z.to_nat (k + 1)) with (S (Z.to_nat k)) by lia. by apply candidate_step.
      * intros i Hi. destruct (decide (i = S (Z.to_nat k))) as [->|]; [|apply Hall; lia].
        rewrite Hx, (candidate_step x (Z.to_nat k)), Hs in Heqb by lia. done.
    + rewrite Hx, (candidate_step x (Z.to_nat k)), Hs in * by lia.
      apply HQ; [apply candidate_range|done].
  - intros u' (_ & _ & Hall). exfalso.
    assert (length (map (candidate x) (seq 1 33)) ≤ length (g_udp_socks u))%nat as Hle.
    { apply ports_pigeonhole.
      - apply NoDup_fmap_2_strong; [|apply NoDup_seq]. intros i j Hi%elem_of_seq Hj%elem_of_seq.
        apply candidate_inj; lia.
      - intros p Hp. apply list_elem_of_In, in_map_iff in Hp as (i & <- & Hi%in_seq). apply Hall. lia. }
    rewrite length_map, length_seq, Hlen in Hle. unfold UDP_SOCK_MAX in Hle. lia.
Qed.

Lemma udp_bound_free l p i us :
  existsb (udp_bound p) l = false → l !! i = Some us → us_in_use us = true → us_local_port us ≠ p.
Proof.
  intros Hf Hi Hu Hp. apply not_true_iff_false in Hf. apply Hf, existsb_exists. exists us.
  split; [apply list_elem_of_In; by eapply list_elem_of_lookup_2|]. unfold udp_bound. rewrite Hu. by apply Z.eqb_eq.
Qed.

(** Giving socket [i] a port no other socket in use has keeps the table well formed. *)
Lemma udp_ok_set_port u i p :
  udp_ok u →
  (∀ j b, j ≠ i → g_udp_socks u !! j = Some b → us_in_use b = true → us_local_port b ≠ p) →
  udp_ok (Udp (alter (λ us, UdpSock (us_in_use us) p (us_rx_queue us) (us_rx_count us) (us_wait_recv us)) i
                 (g_udp_socks u)) (udp_next_port u)).
Proof.
  intros [Hl Hn Hu] Hfree. split; cbn; [by rewrite length_alter|done|].
  intros j1 j2 a b Ha Hb Hia Hib Heq Hnz.
  destruct (decide (j1 = i)) as [->|H1], (decide (j2 = i)) as [->|H2]; try done.
  - rewrite list_lookup_alter_eq in Ha. rewrite list_lookup_alter_ne in Hb by done.
    apply fmap_Some in Ha as (a0 & Ha & ->). simpl in *. by destruct (Hfree j2 b H2 Hb Hib).
  - rewrite list_lookup_alter_eq in Hb. rewrite list_lookup_alter_ne in Ha by done.
    apply fmap_Some in Hb as (b0 & Hb & ->). simpl in *. by destruct (Hfree j1 a H1 Ha Hia).
  - rewrite list_lookup_alter_ne in Ha, Hb by done. by eapply Hu.
Qed.

Lemma udp_ok_next u p : udp_ok u → 49153 ≤ p ≤ 65535 → udp_ok (Udp (g_udp_socks u) p).
Proof.
  intros [Hl Hn Hu] Hp. split; cbn; [done|unfold UDP_EPHEMERAL_START, UDP_EPHEMERAL_END; lia|done].
Qed.

Lemma udp_conflict_false i p l :
  udp_conflict i p l = false → ∀ j b, j ≠ i → l !! j = Some b → us_in_use b = true → us_local_port b ≠ p.
Proof.
  intros Hf j b Hj Hb Hu Hp. apply not_true_iff_false in Hf. apply Hf, existsb_exists. exists true.
  split; [|done]. apply list_elem_of_In, list_elem_of_lookup. exists j. rewrite list_lookup_imap, Hb. simpl. f_equal.
  unfold udp_bound. rewrite Hu, Hp, Z.eqb_refl. by destruct (Nat.eqb_spec j i).
Qed.

(** Sockets that differ in their port only. *)
Definition same_queue (a b : udp_sock) : Prop :=
  us_in_use b = us_in_use a ∧ us_rx_queue b = us_rx_queue a ∧ us_rx_count b = us_rx_count a ∧ us_wait_recv b = us_wait_recv a.

Lemma same_queue_refl l : Forall2 same_queue l l.
Proof. induction l; constructor; [by split_and!|done]. Qed.

Lemma same_queue_alter p i l :
  Forall2 same_queue l (alter (λ us, UdpSock (us_in_use us) p (us_rx_queue us) (us_rx_count us) (us_wait_recv us)) i l).
Proof. revert i. induction l as [|a l IH]; intros [|i]; cbn; constructor; first [by split_and!|apply same_queue_refl|apply IH]. Qed.

Lemma wp_udp_socket u : udp_ok u → wp udp_socket (λ _ u', udp_ok u' ∧
  (u' = u ∨ ∃ i us, g_udp_socks u !! i = Some us ∧ us_in_use us = false ∧
     u' = Udp (<[i := UdpSock true 0 None 0 None]> (g_udp_socks u)) (udp_next_port u))) u.
Proof.
  intros [Hl Hn Hu]. unfold udp_socket, set_socks. wp_steps.
  destruct (list_find _ _) as [[i us]|] eqn:Hf; wp_steps; [|split; [by split|by left]].
  apply list_find_Some in Hf as (Hi & Hfree & _).
  split; [|right; exists i, us; split_and!; [done|by destruct (us_in_use us)|done]]. split; cbn; [by rewrite length_insert|done|].
  intros j1 j2 a b Ha Hb Hia Hib Heq Hnz.
  assert (∀ j c, <[i := UdpSock true 0 None 0 None]> (g_udp_socks u) !! j = Some c → us_local_port c ≠ 0 →
            g_udp_socks u !! j = Some c) as Hold.
  { intros j c Hc Hcz. destruct (decide (j = i)) as [->|]; [|by rewrite list_lookup_insert_ne in Hc].
    rewrite list_lookup_insert_eq in Hc by (by eapply lookup_lt_Some). by injection Hc as <-. }
  eapply Hu; [by apply Hold|apply Hold; [done|congruence]|done..].
Qed.

Lemma wp_udp_bind sock port u : is_u16 port → udp_ok u → wp (udp_bind sock port) (λ _ u', udp_ok u' ∧ Forall2 same_queue (g_udp_socks u) (g_udp_socks u')) u.
Proof.
  intros Hp Hok. pose proof Hok as [Hl Hn Hu]. unfold udp_bind. wp_steps.
  destruct (udp_get _ _); wp_steps; try done; try (by split; [|apply same_queue_refl]).
  { apply wp_ephemeral; [done|done|]. intros p Hpr Hfree. decide_cmps.
    assert (udp_ok (Udp (g_udp_socks u) p)) as Hok' by (by apply udp_ok_next). unfold udp_set_port. wp_steps; try done; try (by split; [|apply same_queue_refl]).
    split; [|apply same_queue_alter]. apply (udp_ok_set_port (Udp (g_udp_socks u) p)); [done|]. by apply udp_conflict_false. }
  all: unfold udp_set_port; wp_steps; try congruence; try (by split; [|apply same_queue_refl]).
  all: split; [|apply same_queue_alter]; apply udp_ok_set_port; [done|]; by apply udp_conflict_false.
Qed.

Lemma wp_udp_source_port sock u :
  udp_ok u → (sock < UDP_SOCK_MAX)%nat → wp (udp_source_port sock) (λ p u', udp_ok u' ∧ p ≠ 0 ∧ Forall2 same_queue (g_udp_socks u) (g_udp_socks u')) u.
Proof.
  intros Hok Hs. pose proof Hok as [Hl Hn Hu]. unfold udp_source_port. wp_steps.
  destruct (lookup_lt_is_Some_2 (g_udp_socks u) sock ltac:(lia)) as [us Hus]. rewrite Hus.
  wp_steps; [|split_and!; [done|by apply Z.eqb_neq in Heqb|apply same_queue_refl]].
  apply wp_ephemeral; [done|done|]. intros p Hpr Hfree. decide_cmps. unfold udp_set_port. wp_steps. cbn.
  split_and!; [|lia|apply same_queue_alter]. apply (udp_ok_set_port (Udp (g_udp_socks u) p)); [by apply udp_ok_next|].
  intros j b _ Hb Hub. by eapply udp_bound_free.
Qed.

(** ** Receive queues *)

(** The queue through [next]: mbufs [l], each a packet of one fragment, with the
    sender and the bytes it holds. *)
Inductive uqueue (p : list mbuf) : option nat → list nat → list (Z * Z * list Z) → Prop :=
  | uqueue_nil : uqueue p None [] []
  | uqueue_cons i b bs l ds :
      p !! i = Some b → holds b bs → m_next_seg b = None → m_refcount b = 1 →
      uqueue p (m_next b) l ds →
      uqueue p (Some i) (i :: l) ((m_rx_src_ip b, m_rx_src_port b, bs) :: ds).

Lemma uqueue_frame p p' h l ds :
  uqueue p h l ds → (∀ i, i ∈ l → p' !! i = p !! i) → uqueue p' h l ds.
Proof.
  induction 1 as [|i b bs l ds Hb Hh Hn Hr _ IH]; intros Heq; [constructor|].
  econstructor; try done; [rewrite Heq by set_solver; done|]. apply IH. intros j Hj. apply Heq. set_solver.
Qed.

Lemma uqueue_in_range p h l ds i : uqueue p h l ds → i ∈ l → (i < length p)%nat.
Proof.
  induction 1 as [|j b bs l ds Hb Hh Hn Hr _ IH]; [by intros ?%not_elem_of_nil|].
  intros [->|Hi]%elem_of_cons; [by eapply lookup_lt_Some|auto].
Qed.

(** Appending mbuf [m] after the last one. *)
Lemma uqueue_snoc p h l ds t m b bs tb :
  uqueue p h l ds → last l = Some t → NoDup l → (m ∉ l) → p !! t = Some tb →
  p !! m = Some b → holds b bs → m_next_seg b = None → m_refcount b = 1 → m_next b = None →
  uqueue (<[t := set_next (Some m) tb]> p) h (l ++ [m]) (ds ++ [(m_rx_src_ip b, m_rx_src_port b, bs)]).
Proof.
  intros Hq. revert t tb. induction Hq as [|i ib ibs l ds Hi Hih Hin Hir Hq IH];
    intros t tb Hlast Hnd Hml Ht Hm Hh Hn Hr Hnx; [done|].
  assert (m ≠ i ∧ (m ∉ l)) as [Hmi Hml'] by set_solver.
  apply NoDup_cons in Hnd as [Hil Hnd].
  destruct l as [|i2 l2].
  - injection Hlast as <-. rewrite Hi in Ht. injection Ht as <-. inversion Hq; subst. simpl.
    refine (uqueue_cons _ i (set_next (Some m) ib) ibs _ _ _ _ _ _ _); try done.
    + apply list_lookup_insert_eq. by eapply lookup_lt_Some.
    + by apply (holds_ext ib).
    + simpl. refine (uqueue_cons _ m b bs _ _ _ _ _ _ _); try done.
      * by rewrite list_lookup_insert_ne.
      * rewrite Hnx. constructor.
  - assert (last (i2 :: l2) = Some t) as Hlast' by done.
    assert (t ∈ i2 :: l2) as Htin by (apply last_Some in Hlast' as [l' ->]; set_solver).
    rewrite <-!app_comm_cons. refine (uqueue_cons _ i ib ibs _ _ _ _ _ _ _); try done.
    + rewrite list_lookup_insert_ne; [done|]. intros ->. done.
    + by apply (IH t tb).
Qed.

Lemma wp_queue_tail nb h l ds (Q : nat → netbuf → Prop) :
  length (pool nb) = MBUF_POOL_SIZE → uqueue (pool nb) (Some h) l ds → NoDup l →
  (∀ t, last l = Some t → Q t nb) → wp (queue_tail h) Q nb.
Proof.
  intros Hlen Hq Hnd HQ.
  assert (length l ≤ 256)%nat as Hbound.
  { apply nodup_bound; [done|]. intros i Hi. pose proof (uqueue_in_range _ _ _ _ _ Hq Hi).
    unfold MBUF_POOL_SIZE in Hlen. lia. }
  unfold queue_tail.
  apply (wp_loop_ghost (λ n t nb', nb' = nb ∧ ∃ l1 l2 ds2, l = l1 ++ l2 ∧ length l2 = n ∧
           uqueue (pool nb) (Some t) l2 ds2) _ _ (length l)).
  - split; [done|]. by exists [], l, ds.
  - unfold CHAIN_FUEL. lia.
  - intros n t nb' (-> & l1 & l2 & ds2 & -> & <- & Hq2).
    inversion Hq2 as [|? b bs l3 ds3 Hb Hh Hn Hr Hrest]; subst.
    wp_step. eapply wp_deref; [done|].
    inversion Hrest as [He|j bj bsj l4 ds4 Hbj Hhj Hnj Hrj Hrest' He]; subst.
    + wp_step. apply HQ. by rewrite last_snoc.
    + wp_step. exists (length (j :: l4)). split; [simpl; lia|]. split; [done|].
      exists (l1 ++ [t]), (j :: l4), ((m_rx_src_ip bj, m_rx_src_port bj, bsj) :: ds4).
      split_and!; [by rewrite <-app_assoc|done|]. rewrite He. done.
Qed.

(** Socket [i] is [us] and its queue holds the datagrams [ds] in the mbufs [l];
    [F] are the free mbufs. *)
Record udp_q (s : net) (i : nat) (us : udp_sock) (F l : list nat) (ds : list (Z * Z * list Z)) : Prop := UdpQ {
  uq_sock : g_udp_socks (n_udp s) !! i = Some us;
  uq_use : us_in_use us = true;
  uq_wait : us_wait_recv us = None;
  uq_count : us_rx_count us = Z.of_nat (length l);
  uq_pool : pool_ok (n_buf s) F;
  uq_nodup : NoDup (l ++ F);
  uq_queue : uqueue (pool (n_buf s)) (us_rx_queue us) l ds }.

Lemma wp_us_load i us (Q : udp_sock → net → Prop) s :
  g_udp_socks (n_udp s) !! i = Some us → Q us s → wp (us_load i) Q s.
Proof. intros Hi HQ. unfold us_load. wp_steps. rewrite Hi. by apply wp_ret. Qed.

Lemma wp_us_store i us (Q : unit → net → Prop) s :
  Q tt (put_udp (Udp (<[i := us]> (g_udp_socks (n_udp s))) (udp_next_port (n_udp s))) s) → wp (us_store i us) Q s.
Proof. intros HQ. unfold us_store, on_udp. apply wp_zoom. by wp_step. Qed.

(** Linking [m] into the queue: the new head and the queue behind it. *)
Lemma wp_enqueue s q l ds m b bs F (Q : option nat → net → Prop) :
  pool_ok (n_buf s) F → uqueue (pool (n_buf s)) q l ds → NoDup (l ++ F) → (m ∉ l ++ F) →
  pool (n_buf s) !! m = Some b → holds b bs → m_next_seg b = None → m_refcount b = 1 → m_next b = None →
  (∀ nb' q', pool_ok nb' F → uqueue (pool nb') q' (l ++ [m]) (ds ++ [(m_rx_src_ip b, m_rx_src_port b, bs)]) →
     agree_off l (n_buf s) nb' → Q q' (put_buf nb' s)) →
  wp (match q with
      | None => mret (Some m)
      | Some q => tail ← on_buf (queue_tail q);
                  on_buf (update tail (set_next (Some m)));;
                  mret (Some q)
      end) Q s.
Proof.
  intros Hok Hq Hnd Hm Hb Hh Hn Hr Hnx HQ. destruct q as [q|].
  - assert (NoDup l) as Hndl by (by apply NoDup_app in Hnd as [? _]).
    wp_step. apply wp_on_buf. eapply wp_queue_tail; [apply Hok|exact Hq|done|]. intros t Hlast.
    assert (t ∈ l) as Htl by (apply last_Some in Hlast as [l' ->]; set_solver).
    assert (∃ tb, pool (n_buf s) !! t = Some tb) as [tb Htb].
    { apply lookup_lt_is_Some_2. by eapply uqueue_in_range. }
    assert (t ∉ F) as HtF by (apply NoDup_app in Hnd as (_ & Hd & _); by apply Hd).
    wp_step. apply wp_on_buf. eapply wp_update; [done|]. wp_step. cbn [n_buf put_buf].
    refine (HQ (Netbuf _ _) (Some q) _ _ _).
    + split; cbn; [rewrite length_insert; apply Hok| |apply Hok]. apply flist_insert; [apply Hok|done].
    + cbn. eapply uqueue_snoc; try done. set_solver.
    + intros j Hj. cbn. rewrite list_lookup_insert_ne; [done|]. by intros ->.
  - inversion Hq; subst. wp_step. rewrite <-(app_nil_l [m]) in *.
    assert (put_buf (n_buf s) s = s) as Hid by by destruct s. rewrite <-Hid. apply HQ; [done| |by intros j _].
    simpl. refine (uqueue_cons _ m b bs _ _ _ _ _ _ _); try done. rewrite Hnx. constructor.
Qed.

(** ** Theorems *)

(** Allocation of a dynamic port always succeeds: the port is in the dynamic
    range, no socket in use has it, the table is untouched, and the search ends
    because 32 sockets cannot hold the first 33 candidates. *)
Theorem udp_ephemeral_port_free u :
  length (g_udp_socks u) = UDP_SOCK_MAX → UDP_EPHEMERAL_START ≤ udp_next_port u ≤ UDP_EPHEMERAL_END →
  ∃ p u', udp_ephemeral_port u = Ok (p, u') ∧ UDP_EPHEMERAL_START < p ≤ UDP_EPHEMERAL_END ∧
    (∀ i us, g_udp_socks u !! i = Some us → us_in_use us = true → us_local_port us ≠ p) ∧
    g_udp_socks u' = g_udp_socks u ∧ udp_next_port u' = p.
Proof.
  intros Hl Hn. unfold UDP_EPHEMERAL_START, UDP_EPHEMERAL_END in *.
  enough (wp udp_ephemeral_port (λ p u', (49152 < p ≤ 65535) ∧
    (∀ i us, g_udp_socks u !! i = Some us → us_in_use us = true → us_local_port us ≠ p) ∧
    g_udp_socks u' = g_udp_socks u ∧ udp_next_port u' = p) u) as Hwp.
  { apply wp_ok in Hwp as (p & u' & Hrun & Hpost). by exists p, u'. }
  apply wp_ephemeral; [done|done|]. intros p Hp Hfree. split_and!; try done; try lia.
  intros i us Hi Hu. by eapply udp_bound_free.
Qed.

(** A datagram for a bound port is appended to the queue of its socket,
    tagged with the sender's address and port; the datagrams already queued, the
    other sockets and the free mbufs stay as they were. *)
Theorem udp_rx_enqueues `{NetEnv} d src dst m b bs F l ds i us s :
  owns (n_buf s) F (Some m) [m] [bs] → pool (n_buf s) !! m = Some b → m_refcount b = 1 → (m ∉ l) →
  (8 ≤ length bs)%nat →
  list_find (λ us, Is_true (udp_bound (be16toh (get16 bs 2)) us)) (g_udp_socks (n_udp s)) = Some (i, us) →
  udp_q s i us F l ds →
  ∃ s' us', udp_rx d src dst m s = Ok (tt, s') ∧
    udp_q s' i us' F (l ++ [m]) (ds ++ [(src, be16toh (get16 bs 0), bs)]) ∧
    us_local_port us' = us_local_port us ∧
    n_udp s' = Udp (<[i := us']> (g_udp_socks (n_udp s))) (udp_next_port (n_udp s)) ∧
    agree_off (m :: l) (n_buf s) (n_buf s').
Proof.
  intros Hown Hb Hr Hml Hlen Hfind [Hsock Huse Hwait Hcount Hok Hnd Hq].
  enough (wp (udp_rx d src dst m) (λ _ s', ∃ us',
    udp_q s' i us' F (l ++ [m]) (ds ++ [(src, be16toh (get16 bs 0), bs)]) ∧
    us_local_port us' = us_local_port us ∧
    n_udp s' = Udp (<[i := us']> (g_udp_socks (n_udp s))) (udp_next_port (n_udp s)) ∧
    agree_off (m :: l) (n_buf s) (n_buf s')) s) as Hwp.
  { apply wp_ok in Hwp as ([] & s' & Hrun & us' & Hpost). by exists s', us'. }
  destruct (owns_head _ _ _ _ _ _ Hown) as (b' & l' & Hl' & Hb' & Hh & Hrest & _ & HmF).
  rewrite Hb in Hb'. injection Hb' as <-. injection Hl' as <-. pose proof (holds_length _ _ Hh) as Hbl.
  assert (m_next_seg b = None) as Hseg by (by inversion Hrest).
  assert (put_buf (n_buf s) s = s) as Hid by by destruct s.
  unfold udp_rx, UDP_HDR_LEN. wp_step. apply wp_on_buf. eapply wp_deref; [done|]. rewrite Hid. decide_cmps.
  wp_step. apply wp_on_buf. eapply wp_hdr_get; [done|lia|lia|lia|]. rewrite Hid.
  change (Z.to_nat 8) with 8%nat. change (Z.to_nat 0) with 0%nat. rewrite !take_get16 by lia. simpl Nat.add.
  wp_steps. rewrite Hfind. set (b1 := set_next None (set_rx_src src (be16toh (get16 bs 0)) b)).
  wp_step. apply wp_on_buf. eapply wp_update; [done|]. fold b1.
  assert (m < length (pool (n_buf s)))%nat as Hlt by (by eapply lookup_lt_Some).
  set (nb1 := Netbuf (<[m := b1]> (pool (n_buf s))) (g_mbuf_free (n_buf s))).
  wp_step. eapply wp_us_load; [exact Hsock|]. wp_step.
  eapply (wp_enqueue (put_buf nb1 s) (us_rx_queue us) l ds m b1 bs F); cbn [n_buf put_buf].
  - split; cbn; [rewrite length_insert; apply Hok| |apply Hok]. apply flist_insert; [apply Hok|done].
  - apply (uqueue_frame (pool (n_buf s))); [done|]. intros j Hj. apply list_lookup_insert_ne. by intros ->.
  - done.
  - rewrite elem_of_app. intros [?|?]; done.
  - by apply list_lookup_insert_eq.
  - by apply (holds_ext b).
  - done.
  - done.
  - done.
  - intros nb2 q' Hok2 Hq2 Hag2. wp_step. apply wp_us_store. rewrite Hwait. wp_step.
    exists (UdpSock (us_in_use us) (us_local_port us) q' (us_rx_count us + 1) None). cbn.
    assert (i < length (g_udp_socks (n_udp s)))%nat by (by eapply lookup_lt_Some).
    split_and!; [|done|done|].
    2:{ intros j [Hjm Hjl]%not_elem_of_cons. rewrite Hag2 by done. cbn. by rewrite list_lookup_insert_ne. }
    split; cbn; try done.
    + by apply list_lookup_insert_eq.
    + rewrite length_app. simpl. lia.
    + rewrite <-app_assoc. simpl. apply NoDup_app in Hnd as (H1 & H2 & H3). apply NoDup_app.
      split_and!; [done| |apply NoDup_cons; done]. intros j Hj [->|Hj']%elem_of_cons; [done|]. by apply (H2 j).
Qed.

(** [udp_recvfrom] on a socket with queued datagrams does not wait: it
    returns the oldest one, its payload cut to the caller's buffer, with its
    sender, and releases its mbuf; the rest of the queue is untouched. *)
Theorem udp_recv_dequeues `{NetEnv} i us F m l sip sport bs ds s max fuel :
  udp_q s i us F (m :: l) ((sip, sport, bs) :: ds) → (8 ≤ length bs)%nat → 0 ≤ max → (i < UDP_SOCK_MAX)%nat →
  let n := Z.min max (Z.of_nat (length bs) - 8) in
  ∃ s' us' F', udp_recvfrom (S fuel) (Z.of_nat i) max s =
      Ok ((n, take (Z.to_nat n) (drop 8 bs), Some (sip, sport)), s') ∧
    udp_q s' i us' F' l ds ∧ F' ≡ₚ m :: F ∧ us_local_port us' = us_local_port us ∧
    n_udp s' = Udp (<[i := us']> (g_udp_socks (n_udp s))) (udp_next_port (n_udp s)) ∧
    agree_off [m] (n_buf s) (n_buf s').
Proof.
  intros [Hsock Huse Hwait Hcount Hok Hnd Hq] Hlen Hmax Hi n.
  enough (wp (udp_recvfrom (S fuel) (Z.of_nat i) max) (λ r s', r = (n, take (Z.to_nat n) (drop 8 bs), Some (sip, sport)) ∧
    ∃ us' F', udp_q s' i us' F' l ds ∧ F' ≡ₚ m :: F ∧ us_local_port us' = us_local_port us ∧
    n_udp s' = Udp (<[i := us']> (g_udp_socks (n_udp s))) (udp_next_port (n_udp s)) ∧
    agree_off [m] (n_buf s) (n_buf s')) s) as Hwp.
  { apply wp_ok in Hwp as (r & s' & Hrun & -> & us' & F' & Hpost). by exists s', us', F'. }
  inversion Hq as [|? b ? ? ? Hb Hh Hseg Hrc Hrest Hhd]; subst.
  assert (put_buf (n_buf s) s = s) as Hid by by destruct s.
  simpl in Hnd. apply NoDup_cons in Hnd as [Hmni Hnd]. rewrite elem_of_app in Hmni.
  assert (owns (n_buf s) F (Some m) [m] [bs]) as Hown.
  { split; [done| |]. { econstructor; [done|done|]. rewrite Hseg. constructor. }
    simpl. apply NoDup_cons. split; [tauto|]. by apply NoDup_app in Hnd as (_ & _ & ?). }
  pose proof (holds_length _ _ Hh) as Hbl.
  assert (udp_get (Z.of_nat i) (g_udp_socks (n_udp s)) = Some us) as Hget.
  { unfold udp_get, UDP_SOCK_MAX in *. decide_cmps. cbn [orb]. by rewrite Nat2Z.id, Hsock, Huse. }
  unfold udp_recvfrom. wp_step. wp_step. rewrite Hget, Nat2Z.id. wp_step. cbn [loop_fuel].
  wp_step. wp_step. eapply wp_us_load; [done|]. rewrite Hcount. simpl length. decide_cmps. wp_steps.
  eapply wp_us_load; [done|]. rewrite <-Hhd. wp_step. apply wp_on_buf. eapply wp_deref; [done|]. rewrite Hid.
  wp_step. apply wp_us_store. unfold UDP_HDR_LEN. decide_cmps.
  rewrite (u64_small (m_len b - 8)) by (destruct Hh; unfold is_u64, MBUF_PAGE_SIZE in *; lia).
  wp_step. apply wp_on_buf. cbn [n_buf put_udp]. eapply wp_skip_hdr; [exact Hown|done|lia|lia|lia|].
  change (Z.to_nat 8) with 8%nat. rewrite take_ge by (rewrite length_drop; lia).
  intros nb1 b1 Hown1 Hs1 Hb1 Hr1.
  destruct (owns_head _ _ _ _ _ _ Hown1) as (b1' & ? & _ & Hb1' & Hh1 & _).
  rewrite Hb1 in Hb1'. injection Hb1' as <-. pose proof (holds_length _ _ Hh1) as Hbl1. rewrite length_drop in Hbl1.
  wp_step. apply wp_on_buf. eapply wp_deref; [done|]. cbn [n_buf put_buf].
  assert ((if max <? m_len b1 then max else m_len b1) = n) as -> by (destruct (Z.ltb_spec max (m_len b1)); lia).
  wp_step. apply wp_on_buf. eapply wp_hdr_get; [exact Hown1|lia|lia|rewrite length_drop; lia|].
  change (Z.to_nat 0) with 0%nat. rewrite drop_0.
  wp_step. apply wp_on_buf. eapply wp_free_owned; [exact Hown1|done|lia|].
  intros nb2 F2 Hok2 HF2 Hag2. wp_step. split; [done|].
  exists (UdpSock (us_in_use us) (us_local_port us) (m_next b) (us_rx_count us - 1) (us_wait_recv us)), F2. cbn.
  split_and!; [|by rewrite HF2|done|done|].
  2:{ intros j Hj. rewrite Hag2 by done. apply Hs1. set_solver. }
  split; cbn; try done.
  - apply list_lookup_insert_eq. by eapply lookup_lt_Some.
  - rewrite Hcount. simpl length. lia.
  - rewrite HF2. simpl. rewrite <-Permutation_middle. apply NoDup_cons. rewrite elem_of_app. tauto.
  - apply (uqueue_frame (pool (n_buf s))); [done|]. intros j Hj.
    assert (j ≠ m) as Hjm by (intros ->; tauto). rewrite Hag2 by set_solver. by apply Hs1.
Qed.

(** ** All sockets *)

(** The queue of a socket is the mbufs [l]; a socket that is not in use has none. *)
Record queue_ok (p : list mbuf) (us : udp_sock) (l : list nat) : Prop := QueueOk {
  qk_queue : ∃ ds, uqueue p (us_rx_queue us) l ds;
  qk_count : us_in_use us = true → us_rx_count us = Z.of_nat (length l);
  qk_wait : us_wait_recv us = None;
  qk_free : us_in_use us = false → l = [] }.

(** The table, the queues [ql] of its sockets and the free mbufs [F]: no mbuf is
    in two of them. *)
Record udp_sys (s : net) (F : list nat) (ql : list (list nat)) : Prop := UdpSys {
  ud_ok : udp_ok (n_udp s);
  ud_queues : Forall2 (queue_ok (pool (n_buf s))) (g_udp_socks (n_udp s)) ql;
  ud_pool : pool_ok (n_buf s) F;
  ud_nodup : NoDup (concat ql ++ F) }.

Lemma queue_ok_frame p p' us l : queue_ok p us l → (∀ j, j ∈ l → p' !! j = p !! j) → queue_ok p' us l.
Proof. intros [[ds Hq] Hc Hw Hf] Heq. split; [|done..]. exists ds. by apply (uqueue_frame p). Qed.

Lemma queue_ok_same p us us' l : same_queue us us' → queue_ok p us l → queue_ok p us' l.
Proof. intros (E1 & E2 & E3 & E4) [Hq Hc Hw Hf]. split; rewrite ?E1, ?E2, ?E3, ?E4; done. Qed.

Lemma queues_same p socks socks' ql : Forall2 same_queue socks socks' → Forall2 (queue_ok p) socks ql → Forall2 (queue_ok p) socks' ql.
Proof.
  intros Hs. revert ql. induction Hs as [|a b la lb Hab Hs IH]; intros ql Hq; [by inversion Hq|].
  inversion Hq as [|? ? ? ? Ha Hl]; subst. constructor; [by eapply queue_ok_same|by apply IH].
Qed.

(** The mbufs of queue [i] apart from the others. *)
Lemma concat_split {A} (ql : list (list A)) i l : ql !! i = Some l →
  concat ql ≡ₚ l ++ concat (take i ql ++ drop (S i) ql) ∧
  ∀ l', concat (<[i := l']> ql) ≡ₚ l' ++ concat (take i ql ++ drop (S i) ql).
Proof.
  intros Hi. assert (∀ l', concat (take i ql ++ l' :: drop (S i) ql) ≡ₚ l' ++ concat (take i ql ++ drop (S i) ql)) as Hp.
  { intros l'. rewrite !concat_app. simpl. rewrite !(assoc_L (++)). by rewrite (Permutation_app_comm (concat (take i ql)) l'). }
  split.
  - rewrite <-(take_drop_middle ql i l Hi) at 1. apply Hp.
  - intros l'. rewrite insert_take_drop by (by eapply lookup_lt_Some). apply Hp.
Qed.

Lemma in_others {A} (ql : list (list A)) i k l x :
  k ≠ i → ql !! k = Some l → x ∈ l → x ∈ concat (take i ql ++ drop (S i) ql).
Proof.
  intros Hk Hl Hx. apply list_elem_of_In, in_concat. exists l. split; [|by apply list_elem_of_In]. apply list_elem_of_In.
  apply list_elem_of_lookup. destruct (decide (k < i)%nat).
  - exists k. rewrite lookup_app_l by (rewrite length_take; apply lookup_lt_Some in Hl; lia). by rewrite lookup_take_lt.
  - exists (k - 1)%nat. pose proof (lookup_lt_Some _ _ _ Hl). rewrite lookup_app_r by (rewrite length_take; lia).
    rewrite lookup_drop, length_take. rewrite <-Hl. f_equal. lia.
Qed.

(** Socket [i] and its queue changed, and mbufs outside of the other queues. *)
Lemma udp_sys_change s s' F F' ql i us us' l l' S :
  udp_sys s F ql → g_udp_socks (n_udp s) !! i = Some us → ql !! i = Some l →
  n_udp s' = Udp (<[i := us']> (g_udp_socks (n_udp s))) (udp_next_port (n_udp s)) →
  us_local_port us' = us_local_port us → (us_in_use us' = true → us_in_use us = true) →
  queue_ok (pool (n_buf s')) us' l' → pool_ok (n_buf s') F' →
  agree_off S (n_buf s) (n_buf s') → (∀ x, x ∈ S → x ∉ concat (take i ql ++ drop (Datatypes.S i) ql)) →
  NoDup (l' ++ concat (take i ql ++ drop (Datatypes.S i) ql) ++ F') →
  udp_sys s' F' (<[i := l']> ql).
Proof.
  intros [[Hlen Hnext Huniq] Hqs Hpool Hnd] Hus Hl Hn Hport Huse Hq' Hpool' Hag HS Hnd'.
  destruct (concat_split ql i l Hl) as [_ Hc]. rewrite Forall2_lookup in Hqs. split.
  - rewrite Hn. split; cbn; [by rewrite length_insert|done|]. intros j1 j2 a b Ha Hb Hia Hib Heq Hnz.
    assert (∀ j c, <[i := us']> (g_udp_socks (n_udp s)) !! j = Some c → us_in_use c = true →
      ∃ c0, g_udp_socks (n_udp s) !! j = Some c0 ∧ us_in_use c0 = true ∧ us_local_port c0 = us_local_port c) as Hold.
    { intros j c [(<- & <- & _)|[_ Hc']]%list_lookup_insert_Some Hu; [exists us; auto|by exists c]. }
    destruct (Hold _ _ Ha Hia) as (a0 & ? & ? & Ea). destruct (Hold _ _ Hb Hib) as (b0 & ? & ? & Eb).
    eapply Huniq; [done..|congruence|congruence].
  - rewrite Hn. cbn. rewrite Forall2_lookup. intros k. destruct (decide (k = i)) as [->|Hk].
    + rewrite !list_lookup_insert_eq by (by eapply lookup_lt_Some). by constructor.
    + rewrite !list_lookup_insert_ne by done. specialize (Hqs k). destruct (ql !! k) as [lk|] eqn:Hlk; [|by inversion Hqs; constructor].
      inversion Hqs as [a b Hab|]; subst. constructor. apply (queue_ok_frame (pool (n_buf s))); [done|].
      intros j Hj. apply Hag. intros HjS. apply (HS j HjS). by eapply in_others.
  - done.
  - rewrite Hc, <-(assoc_L (++)). done.
Qed.

Lemma udp_sys_at s F ql i us :
  udp_sys s F ql → g_udp_socks (n_udp s) !! i = Some us →
  ∃ l, ql !! i = Some l ∧ queue_ok (pool (n_buf s)) us l ∧ NoDup (l ++ concat (take i ql ++ drop (S i) ql) ++ F).
Proof.
  intros [_ Hqs _ Hnd] Hus. rewrite Forall2_lookup in Hqs. specialize (Hqs i). rewrite Hus in Hqs. inversion Hqs as [a l Hq Ea El|]; subst.
  exists l. split_and!; [done|done|]. destruct (concat_split ql i l) as [Hp _]; [done|]. by rewrite (assoc_L (++)), <-Hp.
Qed.

(** [udp_close] empties the queue first; every round frees its head. *)
Lemma wp_udp_close `{NetEnv} s F ql sock (Q : unit → net → Prop) :
  udp_sys s F ql → (∀ s' F' ql', udp_sys s' F' ql' → Q tt s') → wp (udp_close sock) Q s.
Proof.
  intros Hsys HQ. unfold udp_close.
  destruct ((sock <? 0) || (Z.of_nat UDP_SOCK_MAX <=? sock)) eqn:Hrange; [wp_step; by eapply HQ|].
  apply orb_false_iff in Hrange as [H0%Z.ltb_ge H1%Z.leb_gt]. set (i := Z.to_nat sock).
  destruct (lookup_lt_is_Some_2 (g_udp_socks (n_udp s)) i) as [us Hus]; [rewrite (uo_len _ (ud_ok _ _ _ Hsys)); lia|].
  destruct (udp_sys_at _ _ _ _ _ Hsys Hus) as (l & Hl & [[ds Hq] Hcnt Hwait Hfree] & Hnd).
  set (rest := concat (take i ql ++ drop (S i) ql)) in *.
  assert (i < length (g_udp_socks (n_udp s)))%nat as Hilt by (by eapply lookup_lt_Some).
  assert (length l ≤ 256)%nat as Hbound.
  { apply nodup_bound; [by apply NoDup_app in Hnd as [? _]|]. intros k Hk. pose proof (uqueue_in_range _ _ _ _ _ Hq Hk).
    rewrite (po_len _ _ (ud_pool _ _ _ Hsys)) in *. unfold MBUF_POOL_SIZE in *. lia. }
  wp_step.
  apply (wp_loop_ghost (λ n (_ : unit) s', ∃ q l2 ds2 F2, n = length l2 ∧
    n_udp s' = Udp (<[i := UdpSock (us_in_use us) (us_local_port us) q (us_rx_count us) None]> (g_udp_socks (n_udp s))) (udp_next_port (n_udp s)) ∧
    uqueue (pool (n_buf s')) q l2 ds2 ∧ pool_ok (n_buf s') F2 ∧ agree_off l (n_buf s) (n_buf s') ∧
    (∀ x, x ∈ l2 → x ∈ l) ∧ NoDup (l2 ++ rest ++ F2)) _ _ (length l)).
  - exists (us_rx_queue us), l, ds, F. split_and!; [done| |done|apply (ud_pool _ _ _ Hsys)|by intros j _|done|done].
    rewrite list_insert_id; [by destruct (n_udp s)|]. rewrite Hus. by destruct us; simpl in *; subst.
  - unfold CHAIN_FUEL. lia.
  - intros n [] s' (q & l2 & ds2 & F2 & -> & Hn & Hq2 & Hok2 & Hag & Hsub & Hnd2).
    assert (g_udp_socks (n_udp s') !! i = Some (UdpSock (us_in_use us) (us_local_port us) q (us_rx_count us) None)) as Hi
      by (rewrite Hn; by apply list_lookup_insert_eq).
    wp_step. eapply wp_us_load; [exact Hi|]. cbn [us_rx_queue]. destruct Hq2 as [|m b bs l2 ds2 Hb Hh Hseg Hrc Hq2].
    + wp_step. wp_step. eapply wp_us_load; [exact Hi|]. cbn [us_wait_recv]. wp_step. wp_step. wp_step. eapply wp_us_load; [exact Hi|].
      apply wp_us_store. eapply (HQ _ F2 (<[i := []]> ql)).
      eapply (udp_sys_change s _ F F2 ql i us _ l [] l); [exact Hsys|done|done|cbn; by rewrite Hn; cbn; rewrite list_insert_insert_eq|done|done| |done|done| |done].
      * split; cbn; try done. exists []. constructor.
      * intros x Hx Hr. apply NoDup_app in Hnd as (_ & Hd & _). apply (Hd x Hx). apply elem_of_app. by left.
    + simpl in Hnd2. apply NoDup_cons in Hnd2 as [Hm Hnd2]. rewrite !elem_of_app in Hm.
      wp_step. apply wp_on_buf. eapply wp_deref; [exact Hb|]. wp_step. apply wp_us_store. cbn [us_in_use us_local_port us_rx_count us_wait_recv].
      wp_step. apply wp_on_buf. cbn [n_buf put_udp put_buf].
      assert (owns (n_buf s') F2 (Some m) [m] [bs]) as Hown.
      { split; [done| |]. { econstructor; [done|done|]. rewrite Hseg. constructor. }
        simpl. apply NoDup_cons. split; [tauto|apply Hok2]. }
      eapply wp_free_owned; [exact Hown|exact Hb|lia|]. intros nb' F' Hok' HF' Hag'. wp_step.
      exists (length l2). split; [simpl; lia|]. exists (m_next b), l2, ds2, F'. cbn [n_udp n_buf put_udp put_buf].
      split_and!; [done|by rewrite Hn; cbn; rewrite list_insert_insert_eq| |done| | |].
      * apply (uqueue_frame (pool (n_buf s'))); [done|]. intros j Hj. apply Hag'. set_solver.
      * intros j Hj. rewrite Hag'; [by apply Hag|]. intros ->%list_elem_of_singleton. apply Hj, Hsub. by left.
      * intros x Hx. apply Hsub. by right.
      * rewrite HF'. simpl. rewrite (assoc_L (++)), <-Permutation_middle. apply NoDup_cons. rewrite !elem_of_app. split; [tauto|].
        by rewrite <-(assoc_L (++)).
Qed.

(** ** Histories *)

(** The calls of the layer: creating a socket, binding one, sending from one
    that may not have a port yet, closing one, a datagram that arrives in mbuf
    [m], and a receive. *)
Inductive udp_call :=
  | CallSocket
  | CallBind (sock port : Z)
  | CallSource (sock : nat)
  | CallClose (sock : Z)
  | CallRx (d : nat) (src dst : Z) (m : nat)
  | CallRecv (sock max : Z).

Definition udp_run1 `{NetEnv} (c : udp_call) : M net unit :=
  match c with
  | CallSocket => on_udp udp_socket;; mret tt
  | CallBind sock port => on_udp (udp_bind sock port);; mret tt
  | CallSource sock => on_udp (udp_source_port sock);; mret tt
  | CallClose sock => udp_close sock
  | CallRx d src dst m => udp_rx d src dst m
  | CallRecv sock max => udp_recvfrom 1 sock max;; mret tt
  end.

(** When a call may be made: what arrives is a packet of one mbuf that is neither
    free nor in a queue, and a receive finds a datagram (else it waits). *)
Definition udp_call_ok (s : net) (c : udp_call) : Prop :=
  match c with
  | CallSocket | CallClose _ => True
  | CallBind _ port => is_u16 port
  | CallSource sock => (sock < UDP_SOCK_MAX)%nat
  | CallRx _ _ _ m =>
    (∃ b bs, pool (n_buf s) !! m = Some b ∧ holds b bs ∧ m_next_seg b = None ∧ m_refcount b = 1) ∧
    ∀ F ql, udp_sys s F ql → m ∉ concat ql ++ F
  | CallRecv sock max =>
    0 ≤ max ∧ ∀ us, udp_get sock (g_udp_socks (n_udp s)) = Some us → us_rx_count us ≠ 0
  end.

(** What the rest of the system may do between two calls: allocate, use and free
    mbufs that are in no queue of the table. *)
Definition udp_others (s s' : net) : Prop :=
  n_udp s' = n_udp s ∧ ∀ F ql, udp_sys s F ql →
    (∀ j, j ∈ concat ql → pool (n_buf s') !! j = pool (n_buf s) !! j) ∧
    ∃ F', pool_ok (n_buf s') F' ∧ NoDup (concat ql ++ F').

Definition udp_step `{NetEnv} (s s' : net) : Prop :=
  udp_others s s' ∨ ∃ c, udp_call_ok s c ∧ udp_run1 c s = Ok (tt, s').

Lemma wp_udp_rx_sys `{NetEnv} d src dst m b bs s F ql (Q : unit → net → Prop) :
  udp_sys s F ql → pool (n_buf s) !! m = Some b → holds b bs → m_next_seg b = None → m_refcount b = 1 → m ∉ concat ql ++ F →
  (∀ s' F' ql', udp_sys s' F' ql' → Q tt s') → wp (udp_rx d src dst m) Q s.
Proof.
  intros Hsys Hb Hh Hseg Hr Hm HQ. pose proof Hsys as [Hok Hqs Hpool Hnd]. rewrite elem_of_app in Hm.
  assert (owns (n_buf s) F (Some m) [m] [bs]) as Hown.
  { split; [done| |]. { econstructor; [done|done|]. rewrite Hseg. constructor. }
    simpl. apply NoDup_cons. split; [tauto|apply Hpool]. }
  assert (put_buf (n_buf s) s = s) as Hid by by destruct s. pose proof (holds_length _ _ Hh) as Hbl.
  assert (wp (on_buf (mbuf_free (Some m))) Q s) as Hdrop.
  { apply wp_on_buf. eapply wp_free_owned; [exact Hown|exact Hb|lia|]. intros nb' F' Hok' HF' Hag'. apply (HQ _ F' ql). split; cbn; [done| |done|].
    - rewrite Forall2_lookup in Hqs |- *. intros k. specialize (Hqs k). destruct (ql !! k) as [lk|] eqn:Hk; [|by inversion Hqs; constructor].
      inversion Hqs as [us ? Hu|]; subst. constructor. apply (queue_ok_frame (pool (n_buf s))); [done|]. intros j Hj. apply Hag'.
      intros ->%list_elem_of_singleton. apply Hm. left. apply list_elem_of_In, in_concat. exists lk. split; apply list_elem_of_In; [|done].
      by eapply list_elem_of_lookup_2.
    - rewrite HF'. simpl. rewrite <-Permutation_middle. apply NoDup_cons. rewrite elem_of_app. tauto. }
  destruct (decide (8 ≤ length bs)%nat) as [Hlen|Hlen].
  2:{ unfold udp_rx, UDP_HDR_LEN. wp_step. apply wp_on_buf. eapply wp_deref; [done|]. rewrite Hid. by decide_cmps. }
  destruct (list_find (λ us, Is_true (udp_bound (be16toh (get16 bs 2)) us)) (g_udp_socks (n_udp s))) as [[i us]|] eqn:Hf.
  - pose proof Hf as (Hi & Hbd & _)%list_find_Some. apply Is_true_eq_true, andb_prop in Hbd as [Huse _].
    destruct (udp_sys_at _ _ _ _ _ Hsys Hi) as (l & Hl & [[ds Hq] Hcnt Hwait Hfree] & Hnd'). set (rest := concat _) in *.
    destruct (concat_split ql i l Hl) as [Hc _]. fold rest in Hc. rewrite Hc, elem_of_app in Hm.
    destruct (udp_rx_enqueues d src dst m b bs F l ds i us s) as (s' & us' & Hrun & Hq' & Hport & Hn & Hag); try done.
    + tauto.
    + split; try done; [by apply Hcnt|]. apply NoDup_app in Hnd' as (H1 & H2 & H3). apply NoDup_app. split_and!; [done| |apply Hpool].
      intros x Hx HxF. apply (H2 x Hx). apply elem_of_app. by right.
    + apply wp_ok. exists tt, s'. split; [done|]. destruct Hq' as [Q1 Q2 Q3 Q4 Q5 Q6 Q7].
      apply (HQ _ F (<[i := l ++ [m]]> ql)). eapply (udp_sys_change s s' F F ql i us us' l (l ++ [m]) (m :: l)); try done.
      * split; [by eexists|done|done|]. by rewrite Q2.
      * intros x [->|Hx]%elem_of_cons; [fold rest; tauto|]. fold rest. intros Hxr. apply NoDup_app in Hnd' as (_ & Hd & _). apply (Hd x Hx).
        apply elem_of_app. by left.
      * fold rest. rewrite <-(assoc_L (++)). simpl. rewrite <-Permutation_middle. apply NoDup_cons. rewrite !elem_of_app. split; [tauto|done].
  - unfold udp_rx, UDP_HDR_LEN. wp_step. apply wp_on_buf. eapply wp_deref; [done|]. rewrite Hid. decide_cmps.
    wp_step. apply wp_on_buf. eapply wp_hdr_get; [done|lia|lia|lia|]. rewrite Hid.
    change (Z.to_nat 8) with 8%nat. change (Z.to_nat 0) with 0%nat. rewrite !take_get16 by lia. simpl Nat.add. wp_steps. by rewrite Hf.
Qed.

Lemma wp_udp_recv_sys `{NetEnv} sock max s F ql (Q : unit → net → Prop) :
  udp_sys s F ql → udp_call_ok s (CallRecv sock max) →
  (∀ s' F' ql', udp_sys s' F' ql' → Q tt s') → wp (udp_recvfrom 1 sock max;; mret tt) Q s.
Proof.
  intros Hsys [Hmax Hne] HQ. destruct (udp_get sock (g_udp_socks (n_udp s))) as [us|] eqn:Hget.
  2:{ unfold udp_recvfrom. wp_step. wp_step. wp_step. rewrite Hget. wp_step. wp_step. by eapply HQ. }
  specialize (Hne us eq_refl). unfold udp_get in Hget.
  destruct ((sock <? 0) || (Z.of_nat UDP_SOCK_MAX <=? sock)) eqn:Hrange; [done|].
  apply orb_false_iff in Hrange as [H0%Z.ltb_ge H1%Z.leb_gt]. set (i := Z.to_nat sock) in *.
  destruct (g_udp_socks (n_udp s) !! i) as [us0|] eqn:Hi; [|done]. destruct (us_in_use us0) eqn:Huse; [|done]. injection Hget as ->.
  destruct (udp_sys_at _ _ _ _ _ Hsys Hi) as (l & Hl & [[ds Hq] Hcnt Hwait Hfree] & Hnd). set (rest := concat _) in *. specialize (Hcnt Huse).
  destruct l as [|m l]; [by rewrite Hcnt in Hne|]. inversion Hq as [|? b bs ? ds' Hb Hh Hseg Hrc Hrest Hhd]; subst.
  assert (NoDup ((m :: l) ++ F)) as Hnd1.
  { apply NoDup_app in Hnd as (G1 & G2 & G3). apply NoDup_app. split_and!; [done| |apply (ud_pool _ _ _ Hsys)].
    intros x Hx HxF. apply (G2 x Hx). apply elem_of_app. by right. }
  pose proof (ud_pool _ _ _ Hsys) as Hpool.
  assert (m ∉ l ++ rest ++ F) as Hm by (by simpl in Hnd; apply NoDup_cons in Hnd as [? _]). rewrite !elem_of_app in Hm.
  assert (∀ s' us' F', n_udp s' = Udp (<[i := us']> (g_udp_socks (n_udp s))) (udp_next_port (n_udp s)) → us_local_port us' = us_local_port us →
    queue_ok (pool (n_buf s')) us' l → pool_ok (n_buf s') F' → F' ≡ₚ m :: F → agree_off [m] (n_buf s) (n_buf s') → Q tt s') as Hend.
  { intros s' us' F' Hn Hport Hqk Hok' HF' Hag. apply (HQ s' F' (<[i := l]> ql)).
    eapply (udp_sys_change s s' F F' ql i us us' (m :: l) l [m]); try done.
    - intros x ->%list_elem_of_singleton. fold rest. tauto.
    - fold rest. rewrite HF', (assoc_L (++)), <-Permutation_middle. apply NoDup_cons. rewrite !elem_of_app. split; [tauto|].
      simpl in Hnd. apply NoDup_cons in Hnd as [_ Hnd]. by rewrite <-(assoc_L (++)). }
  assert (udp_q s i us F (m :: l) ((m_rx_src_ip b, m_rx_src_port b, bs) :: ds')) as Huq.
  { by split. }
  destruct (decide (8 ≤ length bs)%nat) as [Hlen|Hlen].
  - destruct (udp_recv_dequeues i us F m l (m_rx_src_ip b) (m_rx_src_port b) bs ds' s max 0 Huq Hlen Hmax ltac:(lia)) as (s' & us' & F' & Hrun & Hq' & HF' & Hport & Hn & Hag).
    wp_step. apply wp_ok. eexists _, s'. split; [subst i; rewrite Z2Nat.id in Hrun by lia; exact Hrun|]. wp_step.
    destruct Hq' as [Q1 Q2 Q3 Q4 Q5 Q6 Q7]. apply (Hend s' us' F'); try done. split; [by exists ds'|done|done|by rewrite Q2].
  - assert (put_buf (n_buf s) s = s) as Hid by by destruct s. pose proof (holds_length _ _ Hh) as Hbl.
    assert (owns (n_buf s) F (Some m) [m] [bs]) as Hown.
    { split; [done| |]. { econstructor; [done|done|]. rewrite Hseg. constructor. }
      simpl. apply NoDup_cons. split; [tauto|apply Hpool]. }
    assert (udp_get sock (g_udp_socks (n_udp s)) = Some us) as Hget.
    { unfold udp_get, UDP_SOCK_MAX in *. decide_cmps. cbn [orb]. fold i. by rewrite Hi, Huse. }
    unfold udp_recvfrom. wp_step. wp_step. wp_step. rewrite Hget. fold i. wp_step. cbn [loop_fuel].
    wp_step. wp_step. eapply wp_us_load; [done|]. rewrite Hcnt. simpl length. decide_cmps. wp_steps.
    eapply wp_us_load; [done|]. rewrite <-Hhd. wp_step. apply wp_on_buf. eapply wp_deref; [done|]. rewrite Hid.
    wp_step. apply wp_us_store. unfold UDP_HDR_LEN. decide_cmps. wp_step. apply wp_on_buf. cbn [n_buf put_udp].
    eapply wp_free_owned; [exact Hown|done|lia|]. intros nb2 F2 Hok2 HF2 Hag2. wp_steps.
    apply (Hend _ (UdpSock (us_in_use us) (us_local_port us) (m_next b) (us_rx_count us - 1) (us_wait_recv us)) F2); try done.
    split; cbn; [|intros _; rewrite Hcnt; simpl length; lia|done|by rewrite Huse].
    exists ds'. apply (uqueue_frame (pool (n_buf s))); [done|]. intros j Hj. apply Hag2. intros ->%list_elem_of_singleton. tauto.
Qed.

(** A call that only changes ports keeps the queues. *)
Lemma udp_sys_ports s F ql u' :
  udp_sys s F ql → udp_ok u' → Forall2 same_queue (g_udp_socks (n_udp s)) (g_udp_socks u') → udp_sys (put_udp u' s) F ql.
Proof. intros [Hok Hqs Hpool Hnd] Hok' Hsame. split; [done| |done|done]. by eapply queues_same. Qed.

Lemma udp_run1_sys `{NetEnv} c s F ql :
  udp_sys s F ql → udp_call_ok s c → wp (udp_run1 c) (λ _ s', ∃ F' ql', udp_sys s' F' ql') s.
Proof.
  intros Hsys Hc. pose proof (ud_ok _ _ _ Hsys) as Hok. destruct c as [|sock port|sock|sock|d src dst m|sock max]; unfold udp_run1.
  - wp_step. apply wp_on_udp. eapply wp_mono; [by apply wp_udp_socket|]. intros r u' [Hok' Hu]. wp_step.
    destruct Hu as [->|(i & us & Hi & Hfree & ->)].
    + exists F, ql. by destruct s.
    + destruct (udp_sys_at _ _ _ _ _ Hsys Hi) as (l & Hl & [_ _ _ Hnil] & Hnd). specialize (Hnil Hfree) as ->.
      exists F, ql. destruct Hsys as [_ Hqs Hpool Hnd']. split; [done| |done|done]. cbn.
      rewrite <-(list_insert_id ql i [] Hl). apply Forall2_insert; [done|]. split; try done. exists []. constructor.
  - wp_step. apply wp_on_udp. eapply wp_mono; [by apply wp_udp_bind|]. intros r u' [Hok' Hsame]. wp_step. exists F, ql. by apply udp_sys_ports.
  - wp_step. apply wp_on_udp. eapply wp_mono; [by apply wp_udp_source_port|]. intros r u' (Hok' & _ & Hsame). wp_step. exists F, ql. by apply udp_sys_ports.
  - eapply wp_udp_close; [exact Hsys|]. intros s' F' ql' Hsys'. by exists F', ql'.
  - destruct Hc as [(b & bs & Hb & Hh & Hseg & Hr) Hm]. eapply wp_udp_rx_sys; try done; [by apply Hm|]. intros s' F' ql' Hsys'. by exists F', ql'.
  - eapply wp_udp_recv_sys; [exact Hsys|exact Hc|]. intros s' F' ql' Hsys'. by exists F', ql'.
Qed.

Lemma udp_steps_sys `{NetEnv} s s' F ql : udp_sys s F ql → rtc udp_step s s' → ∃ F' ql', udp_sys s' F' ql'.
Proof.
  intros Hsys Hr. revert F ql Hsys. induction Hr as [s|s s1 s2 [[Hn Ho]|(c & Hc & Hrun)] _ IH]; intros F ql Hsys; [by exists F, ql| |].
  - destruct (Ho F ql Hsys) as (Hag & F' & Hpool & Hnd). apply (IH F' ql). destruct Hsys as [Hok Hqs _ _]. split; [by rewrite Hn| |done|done].
    rewrite Hn. rewrite Forall2_lookup in Hqs |- *. intros k. specialize (Hqs k). destruct (ql !! k) as [l|] eqn:Hk; [|by inversion Hqs; constructor].
    inversion Hqs as [us ? Hu|]; subst. constructor. apply (queue_ok_frame (pool (n_buf s))); [done|]. intros j Hj. apply Hag.
    apply list_elem_of_In, in_concat. exists l. split; apply list_elem_of_In; [|done]. by eapply list_elem_of_lookup_2.
  - pose proof (udp_run1_sys c s F ql Hsys Hc) as Hwp. apply wp_ok in Hwp as ([] & s3 & Hrun' & F' & ql' & Hsys').
    rewrite Hrun in Hrun'. injection Hrun' as <-. by eapply IH.
Qed.

(** The state after [udp_init]: no socket in use, the next port the first of the
    dynamic range. *)
Definition udp_start (s : net) (F : list nat) : Prop :=
  n_udp s = Udp (replicate UDP_SOCK_MAX us_zero) UDP_EPHEMERAL_START ∧ pool_ok (n_buf s) F.

Lemma udp_start_sys s F : udp_start s F → udp_sys s F (replicate UDP_SOCK_MAX []).
Proof.
  intros [Hn Hpool]. split; [|rewrite Hn|done|].
  - rewrite Hn. split; cbn [g_udp_socks udp_next_port]; [done|unfold UDP_EPHEMERAL_START, UDP_EPHEMERAL_END; lia|].
    intros i j a b Ha Hb Hia. apply lookup_replicate in Ha as [-> _]. done.
  - cbn [g_udp_socks]. apply Forall2_replicate. split; try done. exists []. constructor.
  - apply Hpool.
Qed.

(** C26: from the state [udp_init] leaves, after any interleaving of creating,
    binding, closing and reusing sockets, sending from them, datagrams arriving
    for them and being received, and steps of the rest of the system: no two
    sockets in use share a nonzero local port, so a datagram has at most one
    receiver; and every call then made returns. The conditions on a call are in
    [udp_call_ok]: ports are 16 bits wide, a datagram arrives in one mbuf that
    nothing else uses, and a receive that would wait is not a step. *)
Theorem udp_ports_unique `{NetEnv} s s' F :
  udp_start s F → rtc udp_step s s' →
  (∀ i j a b, g_udp_socks (n_udp s') !! i = Some a → g_udp_socks (n_udp s') !! j = Some b →
    us_in_use a = true → us_in_use b = true → us_local_port a = us_local_port b → us_local_port a ≠ 0 → i = j) ∧
  ∀ c, udp_call_ok s' c → ∃ s'', udp_run1 c s' = Ok (tt, s'').
Proof.
  intros Hst Hr. destruct (udp_steps_sys _ _ _ _ (udp_start_sys _ _ Hst) Hr) as (F' & ql' & Hsys).
  split; [apply (uo_unique _ (ud_ok _ _ _ Hsys))|]. intros c Hc.
  pose proof (udp_run1_sys c s' F' ql' Hsys Hc) as Hwp. apply wp_ok in Hwp as ([] & s'' & Hrun & _). by exists s''.
Qed.

(** ** Witnesses *)

Definition demo_udp (us : udp_sock) : udp := Udp (us :: replicate 31 us_zero) 49152.

Lemma udp_ephemeral_port_free_witness :
  ∃ p u', udp_ephemeral_port (demo_udp (UdpSock true 49153 None 0 None)) = Ok (p, u') ∧
    UDP_EPHEMERAL_START < p ≤ UDP_EPHEMERAL_END ∧ p ≠ 49153.
Proof.
  destruct (udp_ephemeral_port_free (demo_udp (UdpSock true 49153 None 0 None))) as (p & u' & Hrun & Hp & Hfree & _);
    [done|unfold UDP_EPHEMERAL_START, UDP_EPHEMERAL_END; simpl; lia|].
  exists p, u'. split_and!; [exact Hrun|apply Hp|apply Hp|].
  intros ->. by apply (Hfree 0%nat (UdpSock true 49153 None 0 None)).
Defined.

(** A datagram from port 1234 to port 80. *)
Definition demo_dgram : list Z := udp_hdr (htobe16 1234) (htobe16 80) (htobe16 11) 0 ++ [1; 2; 3].

Lemma demo_dgram_owns : owns (demo_nb1 demo_dgram) [1; 2; 3; 4]%nat (Some 0%nat) [0%nat] [demo_dgram].
Proof.
  apply demo1_owns; [unfold demo_dgram; simpl; lia|].
  unfold demo_dgram, udp_hdr. repeat apply Forall_app_2; try apply put16_u8. demo_bytes.
Qed.

Definition demo_udp_net (q : option nat) (n : Z) : net :=
  put_udp (demo_udp (UdpSock true 80 q n None)) (demo_net_of (demo_nb1 demo_dgram)).

Lemma udp_rx_enqueues_witness :
  ∃ s' us', @udp_rx wire_env 0 99 98 0 (demo_udp_net None 0) = Ok (tt, s') ∧
    udp_q s' 0 us' [1; 2; 3; 4]%nat [0%nat] [(99, 1234, demo_dgram)] ∧ us_local_port us' = 80.
Proof.
  destruct (@udp_rx_enqueues wire_env 0 99 98 0 (demo_mbuf demo_dgram None None) demo_dgram [1; 2; 3; 4]%nat [] [] 0
    (UdpSock true 80 None 0 None) (demo_udp_net None 0)) as (s' & us' & Hrun & Hq & Hp & _); try done.
  - exact demo_dgram_owns.
  - by apply not_elem_of_nil.
  - unfold demo_dgram. simpl. lia.
  - split; try done; [apply demo_dgram_owns|apply demo_dgram_owns|constructor].
  - exists s', us'. split; [exact Hrun|]. split; [exact Hq|exact Hp].
Defined.

Lemma udp_recv_dequeues_witness :
  ∃ s' us' F', @udp_recvfrom wire_env 1 0 100 (demo_udp_net (Some 0%nat) 1) = Ok ((3, [1; 2; 3], Some (0, 0)), s') ∧
    udp_q s' 0 us' F' [] [] ∧ F' ≡ₚ [0; 1; 2; 3; 4]%nat ∧ us_local_port us' = 80 ∧
    n_udp s' = Udp (<[0%nat := us']> (g_udp_socks (n_udp (demo_udp_net (Some 0%nat) 1)))) 49152 ∧
    agree_off [0%nat] (n_buf (demo_udp_net (Some 0%nat) 1)) (n_buf s').
Proof.
  apply (@udp_recv_dequeues wire_env 0 (UdpSock true 80 (Some 0%nat) 1 None) [1; 2; 3; 4]%nat 0 [] 0 0 demo_dgram []
    (demo_udp_net (Some 0%nat) 1) 100 0); [|unfold demo_dgram; simpl; lia|lia|unfold UDP_SOCK_MAX; lia].
  destruct demo_dgram_owns as [Hok Hp Hnd].
  split; try done. inversion Hp as [|? b bs ? ? ? Hb Hh Hrest]; subst.
  refine (uqueue_cons _ 0 (demo_mbuf demo_dgram None None) demo_dgram _ _ _ _ _ _ _); try done; [|constructor].
  by injection Hb as <-.
Defined.

Definition demo_udp_start : net := put_udp (Udp (replicate UDP_SOCK_MAX us_zero) UDP_EPHEMERAL_START) demo_net.
Definition demo_udp_calls : list udp_call :=
  [CallSocket; CallBind 0 80; CallClose 0; CallSocket; CallSocket; CallBind 1 80; CallBind 0 80; CallSource 0].

Lemma udp_run_steps `{NetEnv} calls s s' :
  Forall (λ c, ∀ s, udp_call_ok s c) calls → for_list calls udp_run1 s = Ok (tt, s') → rtc udp_step s s'.
Proof.
  intros Hc. revert s. induction Hc as [|c calls Hc _ IH]; intros s Hrun.
  { injection Hrun as <-. constructor. }
  simpl in Hrun. unfold mbind, M_bind in Hrun. destruct (udp_run1 c s) as [[[] s1]| |] eqn:E; try done.
  eapply rtc_l; [right; by exists c|]. by apply IH.
Qed.

(** The slot and the port of a closed socket are used again; the second socket
    to ask for port 80 is refused and gets a dynamic port when it sends. *)
Lemma udp_ports_unique_witness :
  ∃ s', rtc (@udp_step wire_env) demo_udp_start s' ∧
    map us_local_port (take 2 (g_udp_socks (n_udp s'))) = [49153; 80] ∧
    (∀ i j a b, g_udp_socks (n_udp s') !! i = Some a → g_udp_socks (n_udp s') !! j = Some b →
      us_in_use a = true → us_in_use b = true → us_local_port a = us_local_port b → us_local_port a ≠ 0 → i = j) ∧
    ∃ s'', @udp_run1 wire_env (CallBind 1 80) s' = Ok (tt, s'').
Proof.
  assert (∃ s', for_list demo_udp_calls (@udp_run1 wire_env) demo_udp_start = Ok (tt, s') ∧
    map us_local_port (take 2 (g_udp_socks (n_udp s'))) = [49153; 80]) as (s' & Hrun & Hports).
  { eexists. split; vm_compute; reflexivity. }
  assert (rtc (@udp_step wire_env) demo_udp_start s') as Hsteps.
  { refine (udp_run_steps demo_udp_calls _ _ _ Hrun). unfold demo_udp_calls.
    repeat apply Forall_cons_2; try apply Forall_nil_2; intros s; unfold udp_call_ok, is_u16, UDP_SOCK_MAX;
      first [exact I|lia|split; reflexivity]. }
  destruct (@udp_ports_unique wire_env demo_udp_start s' [2; 3; 4]%nat) as [Huniq Hall]; [|exact Hsteps|].
  - split; [reflexivity|exact demo_pool_ok].
  - exists s'. split; [exact Hsteps|]. split; [exact Hports|]. split; [exact Huniq|].
    apply Hall. unfold udp_call_ok, is_u16. split; [lia|reflexivity].
Defined.
