(* ===== verification/Tcp.v ===== *)
(** * Tcp: stream sockets (kernel/tcp.c)

    The socket table, segment construction, the blocking calls and the receive
    state machine.  A [struct tcp_sock *] is an index into the table.  The wait
    loops take a fuel argument, since other threads and the clock end them. *)

From S2P Require Import Prelude NetUtil NetBuf Net Link Arp Ip.

Definition TCP_SOCK_MAX : nat := 32.
Definition TCP_WND_SIZE : Z := 65535.
Definition TCP_MSS : Z := 1460.
Definition TCP_RETX_MS : Z := 200.
Definition TCP_RETX_MAX : Z := 5.
Definition TCP_HDR_LEN : Z := 20.
Definition TCP_FIN : Z := 0x01.
Definition TCP_SYN : Z := 0x02.
Definition TCP_RST : Z := 0x04.
Definition TCP_PSH : Z := 0x08.
Definition TCP_ACK : Z := 0x10.
Definition TCP_EPHEMERAL_START : Z := 49152.
Definition TCP_EPHEMERAL_END : Z := 65535.

(** ** Field updates of a socket *)

Definition ts_set_in_use x s := TcpSock x (ts_state s) (ts_local_port s) (ts_remote_port s) (ts_remote_ip s) (ts_dev s)
  (ts_snd_nxt s) (ts_snd_una s) (ts_rcv_nxt s) (ts_rcv_wnd s) (ts_snd_wnd s) (ts_rx_buf s) (ts_rx_len s) (ts_wait_recv s)
  (ts_tx_queue s) (ts_tx_queue_len s) (ts_parent s).
Definition ts_set_state x s := TcpSock (ts_in_use s) x (ts_local_port s) (ts_remote_port s) (ts_remote_ip s) (ts_dev s)
  (ts_snd_nxt s) (ts_snd_una s) (ts_rcv_nxt s) (ts_rcv_wnd s) (ts_snd_wnd s) (ts_rx_buf s) (ts_rx_len s) (ts_wait_recv s)
  (ts_tx_queue s) (ts_tx_queue_len s) (ts_parent s).
Definition ts_set_local_port x s := TcpSock (ts_in_use s) (ts_state s) x (ts_remote_port s) (ts_remote_ip s) (ts_dev s)
  (ts_snd_nxt s) (ts_snd_una s) (ts_rcv_nxt s) (ts_rcv_wnd s) (ts_snd_wnd s) (ts_rx_buf s) (ts_rx_len s) (ts_wait_recv s)
  (ts_tx_queue s) (ts_tx_queue_len s) (ts_parent s).
Definition ts_set_remote ip port s := TcpSock (ts_in_use s) (ts_state s) (ts_local_port s) port ip (ts_dev s)
  (ts_snd_nxt s) (ts_snd_una s) (ts_rcv_nxt s) (ts_rcv_wnd s) (ts_snd_wnd s) (ts_rx_buf s) (ts_rx_len s) (ts_wait_recv s)
  (ts_tx_queue s) (ts_tx_queue_len s) (ts_parent s).
Definition ts_set_dev x s := TcpSock (ts_in_use s) (ts_state s) (ts_local_port s) (ts_remote_port s) (ts_remote_ip s) x
  (ts_snd_nxt s) (ts_snd_una s) (ts_rcv_nxt s) (ts_rcv_wnd s) (ts_snd_wnd s) (ts_rx_buf s) (ts_rx_len s) (ts_wait_recv s)
  (ts_tx_queue s) (ts_tx_queue_len s) (ts_parent s).
Definition ts_set_snd_nxt x s := TcpSock (ts_in_use s) (ts_state s) (ts_local_port s) (ts_remote_port s) (ts_remote_ip s)
  (ts_dev s) x (ts_snd_una s) (ts_rcv_nxt s) (ts_rcv_wnd s) (ts_snd_wnd s) (ts_rx_buf s) (ts_rx_len s) (ts_wait_recv s)
  (ts_tx_queue s) (ts_tx_queue_len s) (ts_parent s).
Definition ts_set_snd_una x s := TcpSock (ts_in_use s) (ts_state s) (ts_local_port s) (ts_remote_port s) (ts_remote_ip s)
  (ts_dev s) (ts_snd_nxt s) x (ts_rcv_nxt s) (ts_rcv_wnd s) (ts_snd_wnd s) (ts_rx_buf s) (ts_rx_len s) (ts_wait_recv s)
  (ts_tx_queue s) (ts_tx_queue_len s) (ts_parent s).
Definition ts_set_rcv_nxt x s := TcpSock (ts_in_use s) (ts_state s) (ts_local_port s) (ts_remote_port s) (ts_remote_ip s)
  (ts_dev s) (ts_snd_nxt s) (ts_snd_una s) x (ts_rcv_wnd s) (ts_snd_wnd s) (ts_rx_buf s) (ts_rx_len s) (ts_wait_recv s)
  (ts_tx_queue s) (ts_tx_queue_len s) (ts_parent s).
Definition ts_set_snd_wnd x s := TcpSock (ts_in_use s) (ts_state s) (ts_local_port s) (ts_remote_port s) (ts_remote_ip s)
  (ts_dev s) (ts_snd_nxt s) (ts_snd_una s) (ts_rcv_nxt s) (ts_rcv_wnd s) x (ts_rx_buf s) (ts_rx_len s) (ts_wait_recv s)
  (ts_tx_queue s) (ts_tx_queue_len s) (ts_parent s).
Definition ts_set_rx buf len s := TcpSock (ts_in_use s) (ts_state s) (ts_local_port s) (ts_remote_port s) (ts_remote_ip s)
  (ts_dev s) (ts_snd_nxt s) (ts_snd_una s) (ts_rcv_nxt s) (ts_rcv_wnd s) (ts_snd_wnd s) buf len (ts_wait_recv s)
  (ts_tx_queue s) (ts_tx_queue_len s) (ts_parent s).
Definition ts_set_wait x s := TcpSock (ts_in_use s) (ts_state s) (ts_local_port s) (ts_remote_port s) (ts_remote_ip s)
  (ts_dev s) (ts_snd_nxt s) (ts_snd_una s) (ts_rcv_nxt s) (ts_rcv_wnd s) (ts_snd_wnd s) (ts_rx_buf s) (ts_rx_len s) x
  (ts_tx_queue s) (ts_tx_queue_len s) (ts_parent s).
Definition ts_set_tx q n s := TcpSock (ts_in_use s) (ts_state s) (ts_local_port s) (ts_remote_port s) (ts_remote_ip s)
  (ts_dev s) (ts_snd_nxt s) (ts_snd_una s) (ts_rcv_nxt s) (ts_rcv_wnd s) (ts_snd_wnd s) (ts_rx_buf s) (ts_rx_len s)
  (ts_wait_recv s) q n (ts_parent s).
Definition ts_set_parent x s := TcpSock (ts_in_use s) (ts_state s) (ts_local_port s) (ts_remote_port s) (ts_remote_ip s)
  (ts_dev s) (ts_snd_nxt s) (ts_snd_una s) (ts_rcv_nxt s) (ts_rcv_wnd s) (ts_snd_wnd s) (ts_rx_buf s) (ts_rx_len s)
  (ts_wait_recv s) (ts_tx_queue s) (ts_tx_queue_len s) x.

Definition tcp_set_socks (l : list tcp_sock) (t : tcp) : tcp :=
  Tcp l (g_tcp_isn t) (tcp_next_port t) (tcp_syn_wait t).
Definition tcp_set_syn_wait (w : list Z) (t : tcp) : tcp :=
  Tcp (g_tcp_socks t) (g_tcp_isn t) (tcp_next_port t) w.

(** [*ts] and [ts->field = v] *)
Definition ts_load (i : nat) : M net tcp_sock :=
  t ← gets n_tcp;
  match g_tcp_socks t !! i with Some ts => mret ts | None => fault end.
Definition ts_upd (i : nat) (f : tcp_sock → tcp_sock) : M net unit :=
  ts ← ts_load i;
  on_tcp (modify (λ t, tcp_set_socks (<[i := f ts]> (g_tcp_socks t)) t)).

(** ** Helpers *)

Definition tcp_seq_add (seq n : Z) : Z := u32 (seq + n).
Definition tcp_seq_leq (a b : Z) : bool := 0 <=? i32 (b - a).

(** [ts->state = state] *)
Definition tcp_enter_state (i : nat) (st : tcp_state) : M net unit := ts_upd i (ts_set_state st).

Definition ts_zero : tcp_sock := TcpSock false CLOSED 0 0 0 None 0 0 0 0 0 None 0 None [] 0 None.

Definition tcp_alloc_sock : M tcp (option nat) :=
  t ← gets id;
  match list_find (λ ts, Is_true (negb (ts_in_use ts))) (g_tcp_socks t) with
  | Some (i, _) =>
    modify (tcp_set_socks (<[i := TcpSock true CLOSED 0 0 0 None 0 0 0 TCP_WND_SIZE TCP_WND_SIZE None 0 None [] 0 None]>
                             (g_tcp_socks t)));;
    mret (Some i)
  | None => mret None
  end.

Definition tcp_port_taken (p : Z) (ts : tcp_sock) : bool := ts_in_use ts && (ts_local_port ts =? p).

Definition tcp_ephemeral_port : M tcp Z :=
  r ← for_ret (Z.to_nat (TCP_EPHEMERAL_END - TCP_EPHEMERAL_START)) 0 (λ _,
    modify (λ t, Tcp (g_tcp_socks t) (g_tcp_isn t)
      (let next := if TCP_EPHEMERAL_END <=? tcp_next_port t then TCP_EPHEMERAL_START else tcp_next_port t in
       u16 (next + 1)) (tcp_syn_wait t));;
    t ← gets id;
    if existsb (tcp_port_taken (tcp_next_port t)) (g_tcp_socks t) then mret None
    else mret (Some (tcp_next_port t)));
  mret (match r with Some p => p | None => 0 end).

(** [struct tcp_hdr] in memory. *)
Definition tcp_hdr (sport dport seq ack data_off flags window checksum urgent : Z) : list Z :=
  put16 sport ++ put16 dport ++ put32 seq ++ put32 ack ++ [u8 data_off; u8 flags] ++ put16 window ++
  put16 checksum ++ put16 urgent.

Definition tcp_csum (src dst : Z) (hdr_m : nat) (data : option nat) (tcp_len : Z) : M netbuf Z :=
  let sum := csum_acc 0 (put32 src) in
  let sum := csum_acc sum (put32 dst) in
  let sum := csum_acc sum [0; IP_PROTO_TCP] in
  let sum := csum_acc sum (put16 (htobe16 (u16 tcp_len))) in
  saved ← hdr_get hdr_m 16 2;
  hdr_put hdr_m 16 [0; 0];;
  th ← hdr_get hdr_m 0 TCP_HDR_LEN;
  let sum := csum_acc sum th in
  hdr_put hdr_m 16 saved;;
  sum ← match data with
        | Some _ => if TCP_HDR_LEN <? tcp_len then mbuf_csum_acc sum data 0 (tcp_len - TCP_HDR_LEN) else mret sum
        | None => mret sum
        end;
  mret (csum_finish sum).

Section tcp.
Context `{NetEnv}.

Definition free_opt (m : option nat) : M net unit :=
  match m with Some i => on_buf (mbuf_free (Some i)) | None => mret tt end.

Definition tcp_wait_for (fuel : nat) (pred : M net bool) (timeout_ms : option Z) : M net Z :=
  deadline ← match timeout_ms with
             | Some ms => now ← clock_mono_ns; mret (u64 (now + u64 (ms * 1000000)))
             | None => mret 0
             end;
  loop_fuel fuel (λ _ : unit,
    p ← pred;
    if (p : bool) then mret (inr 0)
    else
      expired ← match timeout_ms with
                | Some _ => now ← clock_mono_ns; mret (deadline <=? now)
                | None => mret false
                end;
      if (expired : bool) then mret (inr (-1))
      else sched_yield;; mret (inl tt)) tt.

Definition pred_tcp_established (i : nat) : M net bool :=
  ts ← ts_load i; mret (bool_decide (ts_state ts = ESTABLISHED) || bool_decide (ts_state ts = CLOSED)).
Definition pred_tcp_acked (i : nat) (target : Z) : M net bool :=
  ts ← ts_load i; mret (tcp_seq_leq target (ts_snd_una ts)).

(** [s->in_use && s->parent == parent && s->state == TCP_STATE_ESTABLISHED] *)
Definition accepted_child (parent : nat) (ts : tcp_sock) : bool :=
  ts_in_use ts && bool_decide (ts_parent ts = Some parent) && bool_decide (ts_state ts = ESTABLISHED).
Definition pred_tcp_accept (parent : nat) : M net bool :=
  t ← gets n_tcp; mret (existsb (accepted_child parent) (g_tcp_socks t)).
Definition pred_tcp_recv (i : nat) : M net bool :=
  ts ← ts_load i; mret ((0 <? ts_rx_len ts) || negb (bool_decide (ts_state ts = ESTABLISHED))).

Definition tcp_send_seg (i : nat) (flags seq ack wnd : Z) (data : option nat) : M net Z :=
  ts ← ts_load i;
  match ts_dev ts with
  | None => free_opt data;; mret (-1)
  | Some d =>
    h ← on_buf mbuf_alloc0;
    match h with
    | None => free_opt data;; mret (-1)
    | Some hm =>
      on_buf (hdr_put hm 0 (tcp_hdr (htobe16 (ts_local_port ts)) (htobe16 (ts_remote_port ts)) (htobe32 seq)
                              (htobe32 ack) 0x50 flags (htobe16 wnd) 0 0));;
      on_buf (update hm (set_len TCP_HDR_LEN));;
      data_len ← match data with Some _ => on_buf (mbuf_total_len data) | None => mret 0 end;
      match data with Some p => on_buf (update hm (set_next_seg (Some p))) | None => mret tt end;;
      v ← dev_get d;
      c ← on_buf (tcp_csum (nd_ip v) (ts_remote_ip ts) hm data (u64 (TCP_HDR_LEN + data_len)));
      on_buf (hdr_put hm 16 (put16 c));;
      ipv4_send (Some d) (ts_remote_ip ts) IP_PROTO_TCP (Some hm)
    end
  end.

(** The queue is popped segment by segment; its segments are distinct heap
    objects, here the elements of a list. *)
Definition tcp_flush_tx_queue (i : nat) : M net unit :=
  ts ← ts_load i;
  for_list (ts_tx_queue ts) (λ seg, free_opt (sg_m seg));;
  ts_upd i (ts_set_tx [] 0).

(** ** Public interface *)

Definition tcp_init : M net unit :=
  on_tcp (modify (λ t, Tcp (replicate TCP_SOCK_MAX ts_zero) 0x12345678 (tcp_next_port t) (tcp_syn_wait t)));;
  ip_proto_register IP_PROTO_TCP fn_tcp_rx.

Definition tcp_socket : M net Z :=
  r ← on_tcp tcp_alloc_sock;
  match r with
  | None => mret (-1)
  | Some i =>
    d ← on_link netdev_first;
    ts_upd i (λ ts, ts_set_dev d (ts_set_local_port 0 ts));;
    mret (Z.of_nat i)
  end.

(** The socket with descriptor [sock], if it is in range and in use. *)
Definition tcp_get (sock : Z) : M net (option nat) :=
  if (sock <? 0) || (Z.of_nat TCP_SOCK_MAX <=? sock) then mret None
  else ts ← ts_load (Z.to_nat sock);
       mret (if ts_in_use ts then Some (Z.to_nat sock) else None).

Definition tcp_bind (sock port : Z) : M net Z :=
  r ← tcp_get sock;
  match r with
  | None => mret (-1)
  | Some i => ts_upd i (ts_set_local_port port);; mret 0
  end.

Definition tcp_connect (fuel : nat) (sock dst_ip dst_port : Z) : M net Z :=
  r ← tcp_get sock;
  match r with
  | None => mret (-1)
  | Some i =>
    dev ← on_link (netdev_for_ip dst_ip);
    match dev with
    | None => mret (-1)
    | Some d =>
      ts_upd i (ts_set_dev (Some d));;
      ts ← ts_load i;
      (if ts_local_port ts =? 0 then
         p ← on_tcp tcp_ephemeral_port; ts_upd i (ts_set_local_port p)
       else mret tt);;
      ts ← ts_load i;
      if ts_local_port ts =? 0 then mret (-1)
      else
        t ← gets n_tcp;
        let isn := g_tcp_isn t in
        ts_upd i (λ ts, ts_set_snd_nxt isn (ts_set_remote dst_ip dst_port ts));;
        on_tcp (modify (λ t, Tcp (g_tcp_socks t) (u32 (g_tcp_isn t + 1000)) (tcp_next_port t) (tcp_syn_wait t)));;
        ts_upd i (λ ts, ts_set_snd_una (ts_snd_nxt ts) ts);;
        tcp_enter_state i SYN_SENT;;
        tcp_send_seg i TCP_SYN isn 0 TCP_WND_SIZE None;;
        ts_upd i (λ ts, ts_set_snd_nxt (tcp_seq_add (ts_snd_nxt ts) 1) ts);;
        tcp_wait_for fuel (pred_tcp_established i) (Some 10000);;
        ts ← ts_load i;
        if bool_decide (ts_state ts = ESTABLISHED) then mret 0
        else tcp_enter_state i CLOSED;; mret (-1)
    end
  end.

Definition tcp_listen (sock : Z) : M net Z :=
  r ← tcp_get sock;
  match r with
  | None => mret (-1)
  | Some i => tcp_enter_state i LISTEN;; mret 0
  end.

Definition tcp_accept (fuel : nat) (sock : Z) : M net Z :=
  r ← tcp_get sock;
  match r with
  | None => mret (-1)
  | Some parent =>
    ts ← ts_load parent;
    if negb (bool_decide (ts_state ts = LISTEN)) then mret (-1)
    else
      w ← tcp_wait_for fuel (pred_tcp_accept parent) (Some 10000);
      if negb (w =? 0) then mret (-1)
      else
        t ← gets n_tcp;
        match list_find (λ ts, Is_true (accepted_child parent ts)) (g_tcp_socks t) with
        | Some (i, _) => mret (Z.of_nat i)
        | None => mret (-1)
        end
  end.

(** One round of [tcp_send]: [Some r] is a return from the function, [None] goes
    on with the next chunk. *)
Definition tcp_send_chunk (fuel : nat) (i : nat) (sent : Z) (data : list Z) : M net (option Z) :=
  let chunk := Z.of_nat (length data) in
  mo ← on_buf mbuf_alloc0;
  match mo with
  | None => mret (Some sent)
  | Some m =>
    on_buf (hdr_put m 0 data);;
    on_buf (update m (set_len chunk));;
    mem ← kmalloc_ok;
    seg ← (if (mem : bool) then on_buf (mbuf_clone (Some m)) else mret None);
    ts ← ts_load i;
    let seq := ts_snd_nxt ts in
    r ← tcp_send_seg i (Z.lor TCP_ACK TCP_PSH) seq (ts_rcv_nxt ts) TCP_WND_SIZE (Some m);
    if r <? 0 then
      match seg with Some c => on_buf (mbuf_free (Some c)) | None => mret tt end;;
      mret (Some sent)
    else
      ts_upd i (λ ts, ts_set_snd_nxt (tcp_seq_add (ts_snd_nxt ts) chunk) ts);;
      match seg with
      | Some c => ts_upd i (λ ts, ts_set_tx (TcpSeg seq chunk (Some c) 0 0 :: ts_tx_queue ts) (ts_tx_queue_len ts + 1) ts)
      | None => mret tt
      end;;
      tcp_wait_for fuel (pred_tcp_acked i (tcp_seq_add seq chunk)) (Some 10000);;
      mret None
  end.

(** Each round sends at least one byte. *)
Definition tcp_send (fuel : nat) (sock : Z) (buf : list Z) : M net Z :=
  r ← tcp_get sock;
  match r with
  | None => mret (-1)
  | Some i =>
    ts ← ts_load i;
    if negb (bool_decide (ts_state ts = ESTABLISHED)) then mret (-1)
    else
      loop_fuel (S (length buf)) (λ sent,
        if sent <? Z.of_nat (length buf) then
          let left := Z.of_nat (length buf) - sent in
          let chunk := if TCP_MSS <? left then TCP_MSS else left in
          r ← tcp_send_chunk fuel i sent (take (Z.to_nat chunk) (drop (Z.to_nat sent) buf));
          match r with
          | Some v => mret (inr v)
          | None => mret (inl (sent + chunk))
          end
        else mret (inr sent)) 0
  end.

(** The loop of [tcp_recv] that drops [consumed] bytes from [rx_buf].  It looks
    at each mbuf of the pool at most once before it stops or faults. *)
Definition tcp_consume (i : nat) (consumed : Z) : M net unit :=
  loop_fuel CHAIN_FUEL (λ consumed,
    ts ← ts_load i;
    match ts_rx_buf ts with
    | Some m =>
      if 0 <? consumed then
        b ← on_buf (deref m);
        if m_len b <=? consumed then
          ts_upd i (λ ts, ts_set_rx (m_next_seg b) (ts_rx_len ts) ts);;
          on_buf (mbuf_free (Some m));;
          mret (inl (consumed - m_len b))
        else
          on_buf (update m (λ b, set_span (u64 (m_data_off b + consumed)) (u64 (m_len b - consumed)) b));;
          mret (inl 0)
      else mret (inr tt)
    | None => mret (inr tt)
    end) consumed.

(** [tcp_recv]: the return value and the bytes copied to [buf]. *)
Definition tcp_recv (fuel : nat) (sock max : Z) : M net (Z * list Z) :=
  r ← tcp_get sock;
  match r with
  | None => mret (-1, [])
  | Some i =>
    tcp_wait_for fuel (pred_tcp_recv i) None;;
    ts ← ts_load i;
    if ts_rx_len ts =? 0 then mret (0, [])
    else
      let n := if max <? ts_rx_len ts then max else ts_rx_len ts in
      bs ← on_buf (mbuf_copyout n (ts_rx_buf ts) 0);
      let copied := Z.of_nat (length bs) in
      tcp_consume i copied;;
      ts_upd i (λ ts, ts_set_rx (ts_rx_buf ts) (u64 (ts_rx_len ts - copied)) ts);;
      mret (copied, bs)
  end.

(** [while (ts->rx_buf) { m = ts->rx_buf; ts->rx_buf = m->next_seg; mbuf_free(m); }] *)
Definition tcp_free_rx (i : nat) : M net unit :=
  loop_fuel CHAIN_FUEL (λ _ : unit,
    ts ← ts_load i;
    match ts_rx_buf ts with
    | Some m =>
      b ← on_buf (deref m);
      ts_upd i (λ ts, ts_set_rx (m_next_seg b) (ts_rx_len ts) ts);;
      on_buf (mbuf_free (Some m));;
      mret (inl tt)
    | None => mret (inr tt)
    end) tt.

(** [if (ts->wait_recv) { sched_wake(ts->wait_recv); ts->wait_recv = 0; }] *)
Definition tcp_wake (i : nat) : M net unit :=
  ts ← ts_load i;
  match ts_wait_recv ts with
  | Some th => sched_wake th;; ts_upd i (ts_set_wait None)
  | None => mret tt
  end.

Definition tcp_close (sock : Z) : M net Z :=
  r ← tcp_get sock;
  match r with
  | None => mret (-1)
  | Some i =>
    ts ← ts_load i;
    (if bool_decide (ts_state ts = ESTABLISHED) then
       tcp_send_seg i (Z.lor TCP_ACK TCP_FIN) (ts_snd_nxt ts) (ts_rcv_nxt ts) TCP_WND_SIZE None;;
       ts_upd i (λ ts, ts_set_snd_nxt (tcp_seq_add (ts_snd_nxt ts) 1) ts);;
       tcp_enter_state i FIN_WAIT_1
     else mret tt);;
    tcp_free_rx i;;
    ts_upd i (λ ts, ts_set_rx (ts_rx_buf ts) 0 ts);;
    tcp_flush_tx_queue i;;
    tcp_wake i;;
    ts_upd i (ts_set_in_use false);;
    mret 0
  end.

(** ** The receive state machine *)

Definition flag (flags f : Z) : bool := negb (Z.land flags f =? 0).

(** Pure acknowledgement of what has been received. *)
Definition tcp_ack (i : nat) : M net unit :=
  ts ← ts_load i;
  tcp_send_seg i TCP_ACK (ts_snd_nxt ts) (ts_rcv_nxt ts) TCP_WND_SIZE None;;
  mret tt.

(** Drop acknowledged segments from the head of the retransmit queue. *)
Fixpoint acked_prefix (q : list tcp_seg) (ack : Z) : list tcp_seg * list tcp_seg :=
  match q with
  | [] => ([], [])
  | seg :: q' =>
    if tcp_seq_leq (tcp_seq_add (sg_seq seg) (sg_len seg)) ack
    then let '(d, r) := acked_prefix q' ack in (seg :: d, r)
    else ([], q)
  end.

Definition tcp_drop_acked (i : nat) (ack : Z) : M net unit :=
  ts ← ts_load i;
  let '(done, rest) := acked_prefix (ts_tx_queue ts) ack in
  for_list done (λ seg, free_opt (sg_m seg));;
  ts_upd i (λ ts, ts_set_tx rest (Z.max 0 (ts_tx_queue_len ts - Z.of_nat (length done))) ts).

(** Payload of [payload_len] bytes in [m]: the result is [m] if it is still to be
    freed. *)
Definition tcp_rx_data (i m : nat) (payload_len : Z) : M net (option nat) :=
  ts_upd i (λ ts, ts_set_rcv_nxt (tcp_seq_add (ts_rcv_nxt ts) payload_len) ts);;
  ts ← ts_load i;
  left ← (if u64 (ts_rx_len ts + payload_len) <=? 65536 then
            on_buf (update m (λ b, set_next_seg None (set_next None b)));;
            match ts_rx_buf ts with
            | None => ts_upd i (λ ts, ts_set_rx (Some m) (ts_rx_len ts) ts)
            | Some h => tail ← on_buf (find_tail h);
                        on_buf (update tail (set_next_seg (Some m)))
            end;;
            ts_upd i (λ ts, ts_set_rx (ts_rx_buf ts) (u64 (ts_rx_len ts + payload_len)) ts);;
            tcp_wake i;;
            mret None
          else mret (Some m));
  tcp_ack i;;
  mret left.

(** [tcp_rx] once the socket is found; the result is the mbuf still to be freed,
    which the caller does. *)
Definition tcp_rx_sock (i m : nat) (seq ack flags wnd payload_len : Z) : M net (option nat) :=
  ts ← ts_load i;
  match ts_state ts with
  | CLOSED => mret (Some m)
  | LISTEN =>
    (if flag flags TCP_SYN then
       ts_upd i (ts_set_rcv_nxt (tcp_seq_add seq 1));;
       tcp_enter_state i SYN_RECEIVED;;
       ts ← ts_load i;
       tcp_send_seg i (Z.lor TCP_SYN TCP_ACK) (ts_snd_nxt ts) (ts_rcv_nxt ts) TCP_WND_SIZE None;;
       ts_upd i (λ ts, ts_set_snd_nxt (tcp_seq_add (ts_snd_nxt ts) 1) ts)
     else mret tt);;
    mret (Some m)
  | SYN_SENT =>
    (if flag flags TCP_SYN && flag flags TCP_ACK then
       ts_upd i (λ ts, ts_set_snd_una ack (ts_set_rcv_nxt (tcp_seq_add seq 1) ts));;
       tcp_enter_state i ESTABLISHED;;
       tcp_ack i
     else if flag flags TCP_RST then tcp_enter_state i CLOSED
     else mret tt);;
    mret (Some m)
  | SYN_RECEIVED =>
    (if flag flags TCP_ACK then
       ts_upd i (λ ts, ts_set_snd_wnd wnd (ts_set_snd_una ack ts));;
       tcp_enter_state i ESTABLISHED
     else mret tt);;
    mret (Some m)
  | ESTABLISHED =>
    (if flag flags TCP_ACK then
       ts_upd i (λ ts, ts_set_snd_wnd wnd (ts_set_snd_una ack ts));;
       tcp_drop_acked i ack
     else mret tt);;
    left ← (if 0 <? payload_len then tcp_rx_data i m payload_len else mret (Some m));
    (if flag flags TCP_FIN then
       ts_upd i (λ ts, ts_set_rcv_nxt (tcp_seq_add (ts_rcv_nxt ts) 1) ts);;
       tcp_ack i;;
       tcp_enter_state i CLOSE_WAIT
     else mret tt);;
    mret left
  | FIN_WAIT_1 =>
    (if flag flags TCP_ACK then
       ts_upd i (ts_set_snd_una ack);;
       if flag flags TCP_FIN then
         ts_upd i (λ ts, ts_set_rcv_nxt (tcp_seq_add (ts_rcv_nxt ts) 1) ts);;
         tcp_ack i;;
         tcp_enter_state i TIME_WAIT
       else tcp_enter_state i FIN_WAIT_2
     else mret tt);;
    mret (Some m)
  | FIN_WAIT_2 =>
    (if flag flags TCP_FIN then
       ts_upd i (λ ts, ts_set_rcv_nxt (tcp_seq_add (ts_rcv_nxt ts) 1) ts);;
       tcp_ack i;;
       tcp_enter_state i TIME_WAIT
     else mret tt);;
    mret (Some m)
  | TIME_WAIT => tcp_enter_state i CLOSED;; mret (Some m)
  | CLOSE_WAIT => mret (Some m)
  | LAST_ACK =>
    (if flag flags TCP_ACK then ts_upd i (ts_set_snd_una ack);; tcp_enter_state i CLOSED else mret tt);;
    mret (Some m)
  | CLOSING =>
    (if flag flags TCP_ACK then ts_upd i (ts_set_snd_una ack);; tcp_enter_state i TIME_WAIT else mret tt);;
    mret (Some m)
  end.

(** Passive open on listening socket [s]. *)
Definition tcp_rx_listen (d s m : nat) (src sport dport seq : Z) : M net unit :=
  child ← on_tcp tcp_alloc_sock;
  match child with
  | None => on_buf (mbuf_free (Some m))
  | Some c =>
    t ← gets n_tcp;
    let isn := g_tcp_isn t in
    ts_upd c (λ ts, ts_set_snd_nxt isn (ts_set_parent (Some s) (ts_set_dev (Some d)
                      (ts_set_remote src sport (ts_set_local_port dport ts)))));;
    on_tcp (modify (λ t, Tcp (g_tcp_socks t) (u32 (g_tcp_isn t + 1000)) (tcp_next_port t) (tcp_syn_wait t)));;
    ts_upd c (ts_set_rcv_nxt (tcp_seq_add seq 1));;
    tcp_enter_state c SYN_RECEIVED;;
    ts ← ts_load c;
    tcp_send_seg c (Z.lor TCP_SYN TCP_ACK) (ts_snd_nxt ts) (ts_rcv_nxt ts) TCP_WND_SIZE None;;
    ts_upd c (λ ts, ts_set_snd_nxt (tcp_seq_add (ts_snd_nxt ts) 1) ts);;
    on_buf (mbuf_free (Some m))
  end.

(** [s->in_use && s->local_port == dport && s->remote_port == sport && s->remote_ip == src] *)
Definition tcp_conn_match (src sport dport : Z) (ts : tcp_sock) : bool :=
  ts_in_use ts && (ts_local_port ts =? dport) && (ts_remote_port ts =? sport) && (ts_remote_ip ts =? src).
(** [s->in_use && s->state == TCP_STATE_LISTEN && s->local_port == dport] *)
Definition tcp_listen_match (dport : Z) (ts : tcp_sock) : bool :=
  ts_in_use ts && bool_decide (ts_state ts = LISTEN) && (ts_local_port ts =? dport).

Definition tcp_rx (d : nat) (src dst : Z) (m : nat) : M net unit :=
  b ← on_buf (deref m);
  if m_len b <? TCP_HDR_LEN then on_buf (mbuf_free (Some m))
  else
    th ← on_buf (hdr_get m 0 TCP_HDR_LEN);
    let sport := be16toh (get16 th 0) in
    let dport := be16toh (get16 th 2) in
    let seq := be32toh (get32 th 4) in
    let ack := be32toh (get32 th 8) in
    let flags := get8 th 13 in
    let wnd := be16toh (get16 th 14) in
    let ihl := Z.land (Z.shiftr (get8 th 12) 4) 0x0F * 4 in
    let payload_len := u64 (m_len b - ihl) in
    on_buf (skip_hdr m ihl payload_len);;
    t ← gets n_tcp;
    match list_find (λ ts, Is_true (tcp_conn_match src sport dport ts)) (g_tcp_socks t) with
    | Some (i, _) =>
      left ← tcp_rx_sock i m seq ack flags wnd payload_len;
      match left with Some m => on_buf (mbuf_free (Some m)) | None => mret tt end
    | None =>
      match list_find (λ ts, Is_true (tcp_listen_match dport ts)) (g_tcp_socks t) with
      | Some (s, _) => tcp_rx_listen d s m src sport dport seq
      | None => on_buf (mbuf_free (Some m))
      end
    end.

(** ** The timer *)

(** Retransmission of the segments of one socket, from the [k]-th on. *)
Definition tcp_tick_seg (i : nat) (ticks_ms : Z) (k : nat) : M net unit :=
  ts ← ts_load i;
  match ts_tx_queue ts !! k with
  | None => mret tt
  | Some seg =>
    if (sg_rexmit_count seg <? TCP_RETX_MAX) && (TCP_RETX_MS <? i32 (ticks_ms - sg_rexmit_time seg)) then
      ts_upd i (λ ts, ts_set_tx (<[k := TcpSeg (sg_seq seg) (sg_len seg) (sg_m seg) ticks_ms (sg_rexmit_count seg + 1)]>
                                   (ts_tx_queue ts)) (ts_tx_queue_len ts) ts);;
      c ← on_buf (mbuf_clone (sg_m seg));
      ts ← ts_load i;
      tcp_send_seg i (Z.lor TCP_ACK TCP_PSH) (sg_seq seg) (ts_rcv_nxt ts) TCP_WND_SIZE c;;
      mret tt
    else mret tt
  end.

Definition tcp_tick_sock (ticks_ms : Z) (i : nat) : M net unit :=
  ts ← ts_load i;
  if negb (ts_in_use ts) then mret tt
  else
    (if bool_decide (ts_state ts = SYN_SENT) then
       on_tcp (modify (λ t, tcp_set_syn_wait (alter (λ w, w + 1) i (tcp_syn_wait t)) t));;
       t ← gets n_tcp;
       let w := nth i (tcp_syn_wait t) 0 in
       if 20 <? w then
         tcp_send_seg i TCP_SYN (u32 (ts_snd_nxt ts - 1)) 0 TCP_WND_SIZE None;;
         if 60 <? w then
           tcp_enter_state i CLOSED;;
           on_tcp (modify (λ t, tcp_set_syn_wait (<[i := 0]> (tcp_syn_wait t)) t))
         else mret tt
       else mret tt
     else mret tt);;
    ts ← ts_load i;
    for_list (seq 0 (length (ts_tx_queue ts))) (tcp_tick_seg i ticks_ms).

Definition tcp_tick (ticks_ms : Z) : M net unit :=
  for_list (seq 0 TCP_SOCK_MAX) (tcp_tick_sock ticks_ms).
End tcp.

(** ** Rules *)

Lemma wp_ts_load i ts (Q : tcp_sock → net → Prop) s :
  g_tcp_socks (n_tcp s) !! i = Some ts → Q ts s → wp (ts_load i) Q s.
Proof. intros Hi HQ. unfold ts_load. wp_steps. rewrite Hi. by apply wp_ret. Qed.

(** The state with socket [i] replaced. *)
Definition with_sock (i : nat) (ts : tcp_sock) (s : net) : net :=
  put_tcp (tcp_set_socks (<[i := ts]> (g_tcp_socks (n_tcp s))) (n_tcp s)) s.

Lemma wp_ts_upd i ts f (Q : unit → net → Prop) s :
  g_tcp_socks (n_tcp s) !! i = Some ts → Q tt (with_sock i (f ts) s) → wp (ts_upd i f) Q s.
Proof.
  intros Hi HQ. unfold ts_upd, on_tcp. wp_step. eapply wp_ts_load; [done|]. apply wp_zoom. by wp_step.
Qed.

Lemma with_sock_lookup i ts s :
  (i < length (g_tcp_socks (n_tcp s)))%nat → g_tcp_socks (n_tcp (with_sock i ts s)) !! i = Some ts.
Proof. intros Hi. cbn. by apply list_lookup_insert_eq. Qed.

Lemma with_sock_length i ts s : length (g_tcp_socks (n_tcp (with_sock i ts s))) = length (g_tcp_socks (n_tcp s)).
Proof. cbn. apply length_insert. Qed.

Lemma with_sock_twice i a b s : with_sock i a (with_sock i b s) = with_sock i a s.
Proof. unfold with_sock. cbn. by rewrite list_insert_insert_eq. Qed.

Lemma with_sock_buf i a b nb s : with_sock i a (put_buf nb (with_sock i b s)) = put_buf nb (with_sock i a s).
Proof. unfold with_sock, put_tcp, put_buf. cbn. by rewrite list_insert_insert_eq. Qed.

Lemma wp_tcp_get i ts (Q : option nat → net → Prop) s :
  g_tcp_socks (n_tcp s) !! i = Some ts → ts_in_use ts = true → (i < TCP_SOCK_MAX)%nat → Q (Some i) s →
  wp (tcp_get (Z.of_nat i)) Q s.
Proof.
  intros Hi Hu Hlt HQ. unfold tcp_get, TCP_SOCK_MAX in *. decide_cmps. cbn [orb]. rewrite Nat2Z.id.
  wp_step. eapply wp_ts_load; [done|]. rewrite Hu. by wp_step.
Qed.

(** A wait whose condition holds at once. *)
Lemma wp_wait_recv `{NetEnv} fuel i ts (Q : Z → net → Prop) s :
  g_tcp_socks (n_tcp s) !! i = Some ts → 0 < ts_rx_len ts → Q 0 s →
  wp (tcp_wait_for (S fuel) (pred_tcp_recv i) None) Q s.
Proof.
  intros Hi Hr HQ. unfold tcp_wait_for, pred_tcp_recv. wp_steps. cbn [loop_fuel]. wp_steps.
  eapply wp_ts_load; [done|]. decide_cmps. cbn [orb]. by wp_steps.
Qed.

(** ** A segment without data *)

(** The header [tcp_send_seg] writes, before and after the checksum. *)
Definition tcp_seg0 (ts : tcp_sock) (flags seq ack wnd : Z) : list Z :=
  tcp_hdr (htobe16 (ts_local_port ts)) (htobe16 (ts_remote_port ts)) (htobe32 seq) (htobe32 ack) 0x50 flags
    (htobe16 wnd) 0 0.
(** The pseudo-header of a segment of [n] bytes. *)
Definition tcp_pseudo (src dst n : Z) : list Z :=
  put32 src ++ put32 dst ++ [0; IP_PROTO_TCP] ++ put16 (htobe16 n).
Definition tcp_segment (src : Z) (ts : tcp_sock) (flags seq ack wnd : Z) : list Z :=
  let h := tcp_seg0 ts flags seq ack wnd in
  overwrite h 16 (put16 (inet_csum (tcp_pseudo src (ts_remote_ip ts) 20 ++ h))).

Lemma tcp_hdr_u8 a b c e f g h i j : Forall is_u8 (tcp_hdr a b c e f g h i j).
Proof.
  unfold tcp_hdr. do 2 (apply Forall_app_2; [apply put16_u8|]). do 2 (apply Forall_app_2; [apply put32_u8|]).
  apply Forall_app_2; [repeat constructor; apply u8_range|].
  do 2 (apply Forall_app_2; [apply put16_u8|]). apply put16_u8.
Qed.

Lemma tcp_pseudo_u8 src dst n : Forall is_u8 (tcp_pseudo src dst n).
Proof.
  unfold tcp_pseudo. do 2 (apply Forall_app_2; [apply put32_u8|]).
  apply Forall_app_2; [|apply put16_u8]. repeat constructor; unfold is_u8, IP_PROTO_TCP; lia.
Qed.

(** The streamed checksum of the pseudo-header and the header. *)
Lemma tcp_seg_csum src ts flags seq ack wnd :
  let h := tcp_seg0 ts flags seq ack wnd in
  csum_finish (csum_acc (csum_acc (csum_acc (csum_acc (csum_acc 0 (put32 src)) (put32 (ts_remote_ip ts)))
    [0; IP_PROTO_TCP]) (put16 (htobe16 20))) h) = inet_csum (tcp_pseudo src (ts_remote_ip ts) 20 ++ h).
Proof.
  intros h. unfold tcp_pseudo. rewrite <-!app_assoc. apply csum_pieces5; [|done].
  split; [|rewrite !length_app; change (length h) with 20%nat; simpl; lia].
  do 2 (apply Forall_app_2; [apply put32_u8|]).
  apply Forall_app_2; [repeat constructor; unfold is_u8, IP_PROTO_TCP; lia|].
  apply Forall_app_2; [apply put16_u8|apply tcp_hdr_u8].
Qed.

(** A receiver that sums pseudo-header and segment gets zero. *)
Lemma tcp_segment_verifies src ts flags seq ack wnd :
  inet_csum (tcp_pseudo src (ts_remote_ip ts) 20 ++ tcp_segment src ts flags seq ack wnd) = 0.
Proof.
  unfold tcp_segment. set (h := tcp_seg0 ts flags seq ack wnd). set (ph := tcp_pseudo src (ts_remote_ip ts) 20).
  set (c := inet_csum (ph ++ h)).
  assert (ph ++ overwrite h 16 (put16 c) = (ph ++ take 16 h) ++ put16 c ++ drop 18 h) as ->.
  { unfold overwrite. change (Z.to_nat 16) with 16%nat. by rewrite <-app_assoc. }
  assert ((ph ++ take 16 h) ++ [0; 0] ++ drop 18 h = ph ++ h) as Hz by (rewrite <-app_assoc; done).
  apply csum_in_place; rewrite ?Hz; [|done|done].
  split; [apply Forall_app_2; [apply tcp_pseudo_u8|apply tcp_hdr_u8]|].
  rewrite length_app. change (length h) with 20%nat. change (length ph) with 12%nat. lia.
Qed.

(** [tcp_csum] of a header without data. *)
Lemma wp_tcp_csum src ts flags seq ack wnd nb F i b (Q : Z → netbuf → Prop) :
  let h := tcp_seg0 ts flags seq ack wnd in
  owns nb F (Some i) [i] [h] → pool nb !! i = Some b →
  (∀ nb' b', owns nb' F (Some i) [i] [h] → same_but i nb nb' → pool nb' !! i = Some b' →
     m_refcount b' = m_refcount b → Q (inet_csum (tcp_pseudo src (ts_remote_ip ts) 20 ++ h)) nb') →
  wp (tcp_csum src (ts_remote_ip ts) i None 20) Q nb.
Proof.
  intros h Hown Hb HQ. pose proof (tcp_seg_csum src ts flags seq ack wnd) as Hcs. fold h in Hcs.
  assert (length h = 20%nat) as Hl by done. assert (Forall is_u8 h) as Hu by apply tcp_hdr_u8.
  assert (overwrite h 16 [0; 0] = h) as Hz by done. clearbody h.
  unfold tcp_csum, TCP_HDR_LEN. change (u16 20) with 20.
  wp_step. eapply wp_hdr_get; [done|lia|lia|lia|]. change (Z.to_nat 2) with 2%nat.
  wp_step. eapply wp_hdr_put; [done|done|repeat constructor; unfold is_u8; lia|lia|simpl; lia|].
  rewrite Hz. intros nb1 b1 Hown1 Hs1 Hb1 Hr1 _ _.
  wp_step. eapply wp_hdr_get; [done|lia|lia|lia|]. change (Z.to_nat 0) with 0%nat. rewrite drop_0, take_ge by lia.
  wp_step. eapply (wp_hdr_put _ _ _ _ _ _ 16 (take 2 (drop (Z.to_nat 16) h))); [done|done|by apply Forall_take, Forall_drop|lia| |].
  { rewrite length_take, length_drop. lia. }
  pose proof (overwrite_back h [0; 0] 16 2 ltac:(lia) eq_refl ltac:(lia)) as Hback. rewrite Hz in Hback. rewrite Hback.
  intros nb2 b2 Hown2 Hs2 Hb2 Hr2 _ _. wp_steps. rewrite Hcs. eapply HQ; [done| |done|congruence].
  by eapply same_but_trans.
Qed.

(** The path to the peer of a socket: its device, and the peer's MAC address in
    the ARP cache. *)
Record tcp_path (s : net) (ts : tcp_sock) (d : nat) (v : netdev) (mac : list Z) : Prop := TcpPath {
  tp_dev : ts_dev ts = Some d;
  tp_netdev : l_devs (n_link s) !! d = Some v;
  tp_mac : Forall is_u8 mac;
  tp_own : Forall is_u8 (nd_mac v);
  tp_unicast : ip4_is_broadcast (ts_remote_ip ts) = false;
  tp_hop : next_hop v (ts_remote_ip ts) ≠ nd_ip v;
  tp_arp : arp_lookup (g_arp_cache (n_arp s)) (next_hop v (ts_remote_ip ts)) = Some mac }.

(** The frame that carries a segment without data. *)
Definition tcp_frame (v : netdev) (mac : list Z) (ts : tcp_sock) (flags seq ack : Z) : list Z :=
  eth_hdr mac (nd_mac v) (htobe16 ETH_P_IP) ++
  ip_header (nd_ip v) (ts_remote_ip ts) IP_PROTO_TCP 20 ++ tcp_segment (nd_ip v) ts flags seq ack TCP_WND_SIZE.

Lemma wp_tcp_send_seg `{NicDriver} i ts d v mac flags seq ack F s (Q : Z → net → Prop) :
  g_tcp_socks (n_tcp s) !! i = Some ts → tcp_path s ts d v mac → pool_ok (n_buf s) F → (3 ≤ length F)%nat →
  (∀ r nb' F', pool_ok nb' F' → (∀ j, j ∈ F' → j ∈ F) → agree_off F (n_buf s) nb' → (r = 0 ∨ r = -1) →
     Q r (put_wire (transmitted d (tcp_frame v mac ts flags seq ack) r s) (put_buf nb' s))) →
  wp (tcp_send_seg i flags seq ack TCP_WND_SIZE None) Q s.
Proof.
  intros Hi [Hd Hv Hmac Hvm Hbc Hne Harp] Hok HF HQ. unfold tcp_send_seg.
  wp_step. eapply wp_ts_load; [done|]. rewrite Hd.
  wp_step. apply wp_on_buf, (wp_alloc_draft _ F); [done|intros ->; simpl in HF; lia|].
  intros hm F1 nb1 -> Hdr1 Hs1. fold (tcp_seg0 ts flags seq ack TCP_WND_SIZE).
  set (h := tcp_seg0 ts flags seq ack TCP_WND_SIZE). assert (length h = 20%nat) as Hl by done.
  assert (Forall is_u8 h) as Hu by apply tcp_hdr_u8.
  wp_step. apply wp_on_buf. eapply wp_draft_put; [exact Hdr1|exact Hu|simpl; lia|rewrite Hl; unfold MBUF_PAGE_SIZE; lia|].
  intros nb2 Hdr2 Hs2. rewrite drop_nil, app_nil_r in Hdr2. change (take (Z.to_nat 0) [] ++ h) with h in Hdr2.
  wp_step. apply wp_on_buf. eapply wp_draft_len; [exact Hdr2|]. intros nb3 Hdr3 Hs3.
  change TCP_HDR_LEN with (Z.of_nat (length h)) in Hdr3.
  destruct (draft_holds _ _ _ _ Hdr3) as (b3 & Hb3 & _ & _ & Hr3).
  wp_steps. eapply wp_dev_get; [done|]. change (u64 (TCP_HDR_LEN + 0)) with 20.
  wp_step. apply wp_on_buf. cbn [n_buf put_buf].
  eapply (wp_tcp_csum _ _ flags seq ack TCP_WND_SIZE); [exact (draft_owns _ _ _ _ Hdr3)|exact Hb3|].
  fold h. intros nb4 b4 Hown4 Hs4 Hb4 Hr4.
  wp_step. apply wp_on_buf. cbn [n_buf put_buf].
  eapply wp_hdr_put; [exact Hown4|done|apply put16_u8|lia|change (length (put16 _)) with 2%nat; lia|].
  change (overwrite h 16 (put16 (inet_csum (tcp_pseudo (nd_ip v) (ts_remote_ip ts) 20 ++ h))))
    with (tcp_segment (nd_ip v) ts flags seq ack TCP_WND_SIZE).
  intros nb5 b5 Hown5 Hs5 Hb5 Hr5 _ _.
  pose proof (same_but_trans _ _ _ _ Hs1 (same_but_trans _ _ _ _ Hs2 (same_but_trans _ _ _ _ Hs3
    (same_but_trans _ _ _ _ Hs4 Hs5)))) as Hs15.
  eapply (wp_ipv4_send_cached d v mac _ _ _ _ F1 [hm]); try done; [congruence|simpl in HF; lia|].
  cbn [concat]. rewrite app_nil_r. change (length (tcp_segment (nd_ip v) ts flags seq ack TCP_WND_SIZE)) with 20%nat.
  intros r nb6 F6 Hok6 HF6 Hag6 Hrr. refine (HQ r nb6 F6 Hok6 HF6 _ Hrr).
  intros j Hj. cbn [n_buf put_buf] in Hag6. rewrite Hag6 by done. apply Hs15. intros ->. apply Hj. by left.
Qed.

(** ** Received data *)

(** Two packets joined: the second, a single mbuf, behind the last of the first. *)
Lemma owns_join nb F h l ps t tb m bs :
  owns nb F (Some h) l ps → last l = Some t → pool nb !! t = Some tb →
  owns nb F (Some m) [m] [bs] → (m ∉ l) →
  owns (Netbuf (<[t := set_next_seg (Some m) tb]> (pool nb)) (g_mbuf_free nb)) F (Some h) (l ++ [m]) (ps ++ [bs]).
Proof.
  intros Hown Hlast Htb Hm Hml. pose proof Hown as [Hok Hp Hnd].
  destruct (owns_snoc _ _ _ _ _ t Hown Hlast) as (l0 & ps0 & b2 & pt & -> & -> & Hb2 & Hh & Hn & Hs & Htl & HtF).
  rewrite Htb in Hb2. injection Hb2 as <-. assert (t ≠ m) as Htm by set_solver.
  assert (t < length (pool nb))%nat as Hlt by (by eapply lookup_lt_Some).
  destruct Hm as [_ Hpm Hndm]. simpl in Hndm. apply NoDup_cons in Hndm as [HmF _].
  split.
  - split; cbn; [rewrite length_insert; apply Hok| |apply Hok]. apply flist_insert; [apply Hok|done].
  - cbn. eapply pseg_app; [eapply pseg_app|].
    + by apply pseg_insert.
    + econstructor; [by apply list_lookup_insert_eq|by apply (holds_ext tb)|]. constructor.
    + apply pseg_insert; [exact Hpm|set_solver].
  - apply NoDup_app in Hnd as (H1 & H2 & H3). rewrite <-app_assoc. apply NoDup_app. split_and!; [done| |].
    + intros j Hj [->|Hj']%elem_of_cons; [done|]. by apply (H2 j).
    + simpl. by apply NoDup_cons.
Qed.

Ltac sock_lookup :=
  cbn; rewrite ?list_insert_insert_eq; apply list_lookup_insert_eq; rewrite ?length_insert; done.

(** [tcp_rx_data] within the receive limit: the payload in [m] goes to the end of
    the receive buffer and is acknowledged. *)
Lemma wp_tcp_rx_data `{NicDriver} i ts d v mac F l ps m b payload s (Q : option nat → net → Prop) :
  let n := Z.of_nat (length payload) in
  g_tcp_socks (n_tcp s) !! i = Some ts → tcp_path s ts d v mac → (3 ≤ length F)%nat →
  owns (n_buf s) F (ts_rx_buf ts) l ps → owns (n_buf s) F (Some m) [m] [payload] → (m ∉ l) →
  pool (n_buf s) !! m = Some b → ts_wait_recv ts = None →
  ts_rx_len ts = Z.of_nat (length (concat ps)) → ts_rx_len ts + n ≤ 65536 →
  let ts' h := ts_set_rx h (ts_rx_len ts + n) (ts_set_rcv_nxt (tcp_seq_add (ts_rcv_nxt ts) n) ts) in
  (∀ r nb' F' h l' ps', owns nb' F' h l' ps' → concat ps' = concat ps ++ payload → (r = 0 ∨ r = -1) →
     Q None (put_wire (transmitted d (tcp_frame v mac ts TCP_ACK (ts_snd_nxt ts) (tcp_seq_add (ts_rcv_nxt ts) n)) r s)
               (put_buf nb' (with_sock i (ts' h) s)))) →
  wp (tcp_rx_data i m n) Q s.
Proof.
  intros n Hi Hpath HF Hq Hm Hml Hb Hw Hlen Hmax ts' HQ.
  assert (i < length (g_tcp_socks (n_tcp s)))%nat as Hil by (by eapply lookup_lt_Some).
  assert (0 ≤ n) as Hn by lia. unfold tcp_rx_data. wp_step. eapply wp_ts_upd; [done|].
  wp_step. eapply wp_ts_load; [sock_lookup|]. cbn [ts_rx_len ts_set_rcv_nxt ts_rx_buf].
  rewrite (u64_small (ts_rx_len ts + n)) by (unfold is_u64; lia). decide_cmps.
  set (b1 := set_next_seg None (set_next None b)).
  set (nb1 := Netbuf (<[m := b1]> (pool (n_buf s))) (g_mbuf_free (n_buf s))).
  assert (m < length (pool (n_buf s)))%nat as Hmlt by (by eapply lookup_lt_Some).
  destruct (owns_head _ _ _ _ _ _ Hm) as (b' & ? & [= <-] & Hb' & Hh & _ & _ & HmF).
  rewrite Hb in Hb'. injection Hb' as <-. pose proof Hm as [Hok _ Hndm].
  assert (pool_ok nb1 F) as Hok1.
  { split; cbn; [rewrite length_insert; apply Hok| |apply Hok]. apply flist_insert; [apply Hok|done]. }
  assert (owns nb1 F (Some m) [m] [payload]) as Hm1.
  { split; [done| |done]. econstructor; [by apply list_lookup_insert_eq|by apply (holds_ext b)|]. constructor. }
  assert (owns nb1 F (ts_rx_buf ts) l ps) as Hq1.
  { eapply (owns_same_but m); [exact Hq|done|done| |done]. intros j Hj. cbn. by rewrite list_lookup_insert_ne. }
  wp_step. wp_step. apply wp_on_buf. eapply wp_update; [done|]. fold b1. cbn [n_buf with_sock put_tcp]. fold nb1.
  wp_step.
  (* linking and the rest, from a state in which [m] is in the receive buffer *)
  assert (∀ h l' ps' nb2, owns nb2 F h l' ps' → concat ps' = concat ps ++ payload → agree_off (l ++ [m]) nb1 nb2 →
    wp (ts_upd i (λ t, ts_set_rx (ts_rx_buf t) (u64 (ts_rx_len t + n)) t);; tcp_wake i;; mret None)
      (λ left, wp (tcp_ack i;; mret left) Q) (put_buf nb2 (with_sock i (ts_set_rx h (ts_rx_len ts) (ts_set_rcv_nxt (tcp_seq_add (ts_rcv_nxt ts) n) ts)) s))) as Hrest.
  { intros h l' ps' nb2 Hown2 Hc Hag.
    wp_step. eapply wp_ts_upd; [sock_lookup|]. cbn [ts_rx_len ts_set_rx ts_set_rcv_nxt ts_rx_buf].
    rewrite (u64_small (ts_rx_len ts + n)) by (unfold is_u64; lia).
    unfold tcp_wake. wp_step. wp_step. eapply wp_ts_load; [sock_lookup|]. cbn [ts_wait_recv ts_set_rx ts_set_rcv_nxt].
    rewrite Hw. wp_steps. unfold tcp_ack. wp_step. eapply wp_ts_load; [sock_lookup|].
    cbn [ts_snd_nxt ts_rcv_nxt ts_set_rx ts_set_rcv_nxt]. wp_step.
    eapply (wp_tcp_send_seg i (ts' h) d v mac); [sock_lookup|destruct Hpath; split; done|exact (ow_pool _ _ _ _ _ Hown2)|done|].
    intros r nb3 F3 Hok3 HF3 Hag3 Hrr. wp_steps.
    rewrite with_sock_buf.
    refine (HQ r nb3 F3 h l' ps' _ Hc Hrr).
    eapply owns_after; [exact Hown2|exact Hok3|exact HF3|exact Hag3|].
    destruct Hown2 as [_ _ Hnd2]. by apply NoDup_app in Hnd2 as (_ & ? & _). }
  destruct (ts_rx_buf ts) as [h|] eqn:Hrx.
  - wp_step. apply wp_on_buf. eapply wp_find_tail; [exact Hq1|]. intros t Hlast.
    destruct (owns_snoc _ _ _ _ _ t Hq1 Hlast) as (_ & _ & tb & _ & _ & _ & Htb & _).
    apply wp_on_buf. eapply wp_update; [exact Htb|].
    replace (ts_set_rcv_nxt (tcp_seq_add (ts_rcv_nxt ts) n) ts)
      with (ts_set_rx (Some h) (ts_rx_len ts) (ts_set_rcv_nxt (tcp_seq_add (ts_rcv_nxt ts) n) ts))
      by (rewrite <-Hrx; by destruct ts).
    eapply (Hrest (Some h) (l ++ [m]) (ps ++ [payload]) (Netbuf _ _)); [eapply owns_join; done| |].
    + rewrite concat_app. simpl. by rewrite app_nil_r.
    + intros j Hj. cbn. rewrite list_lookup_insert_ne; [done|]. intros ->. apply Hj.
      apply elem_of_app. left. apply last_Some in Hlast as [l' ->]. apply elem_of_app. right. by left.
  - eapply wp_ts_upd; [sock_lookup|]. rewrite with_sock_buf.
    assert (l = [] ∧ ps = []) as [-> ->].
    { destruct Hq1 as [_ Hp _]. by apply pkt_inv in Hp as [(_ & -> & ->)|(? & ? & ? & ? & ? & [=] & _)]. }
    eapply (Hrest (Some m) [m] [payload] nb1); [exact Hm1|simpl; by rewrite app_nil_r|]. by intros j _.
Qed.

(** The header length a segment claims. *)
Definition tcp_ihl (seg : list Z) : Z := Z.land (Z.shiftr (get8 seg 12) 4) 0x0F * 4.

(** ** Theorems *)

(** A data segment on an established connection, with a header that fits, is
    appended to the connection's byte stream and acknowledged: the receive
    buffer holds the old bytes followed by the payload, the byte count and the
    expected sequence number grow by its length, and one acknowledgement with
    that number goes to the peer.  The sequence number of the segment plays no
    part in this. *)
Theorem tcp_rx_appends_data `{NicDriver} d src dst v mac i ts F l ps m b seg s :
  let payload := drop (Z.to_nat (tcp_ihl seg)) seg in
  let n := Z.of_nat (length payload) in
  let flags := get8 seg 13 in
  owns (n_buf s) F (Some m) [m] [seg] → pool (n_buf s) !! m = Some b → m_refcount b = 1 →
  20 ≤ Z.of_nat (length seg) → tcp_ihl seg < Z.of_nat (length seg) →
  list_find (λ ts, Is_true (tcp_conn_match src (be16toh (get16 seg 0)) (be16toh (get16 seg 2)) ts))
    (g_tcp_socks (n_tcp s)) = Some (i, ts) →
  ts_state ts = ESTABLISHED → ts_tx_queue ts = [] → ts_tx_queue_len ts = 0 → ts_wait_recv ts = None →
  flag flags TCP_ACK = true → flag flags TCP_FIN = false →
  owns (n_buf s) F (ts_rx_buf ts) l ps → (m ∉ l) →
  ts_rx_len ts = Z.of_nat (length (concat ps)) → ts_rx_len ts + n ≤ 65536 →
  tcp_path s ts d v mac → (3 ≤ length F)%nat →
  ∃ r s' ts' F' l' ps', tcp_rx d src dst m s = Ok (tt, s') ∧
    g_tcp_socks (n_tcp s') !! i = Some ts' ∧ owns (n_buf s') F' (ts_rx_buf ts') l' ps' ∧
    concat ps' = concat ps ++ payload ∧ ts_rx_len ts' = Z.of_nat (length (concat ps')) ∧
    ts_rcv_nxt ts' = tcp_seq_add (ts_rcv_nxt ts) n ∧ ts_snd_una ts' = be32toh (get32 seg 8) ∧
    ts_state ts' = ESTABLISHED ∧ (r = 0 ∨ r = -1) ∧
    n_wire s' = transmitted d (tcp_frame v mac ts TCP_ACK (ts_snd_nxt ts) (ts_rcv_nxt ts')) r s.
Proof.
  intros payload n flags Hm Hb Hr H20 Hihl Hfind Hst Htx Htxl Hw Hack Hfin Hq Hml Hlen Hmax Hpath HF.
  set (ack := be32toh (get32 seg 8)).
  enough (wp (tcp_rx d src dst m) (λ _ s', ∃ r ts' F' l' ps',
    g_tcp_socks (n_tcp s') !! i = Some ts' ∧ owns (n_buf s') F' (ts_rx_buf ts') l' ps' ∧
    concat ps' = concat ps ++ payload ∧ ts_rx_len ts' = Z.of_nat (length (concat ps')) ∧
    ts_rcv_nxt ts' = tcp_seq_add (ts_rcv_nxt ts) n ∧ ts_snd_una ts' = ack ∧
    ts_state ts' = ESTABLISHED ∧ (r = 0 ∨ r = -1) ∧
    n_wire s' = transmitted d (tcp_frame v mac ts TCP_ACK (ts_snd_nxt ts) (ts_rcv_nxt ts')) r s) s) as Hwp.
  { apply wp_ok in Hwp as ([] & s' & Hrun & r & ts' & F' & l' & ps' & Hpost).
    by exists r, s', ts', F', l', ps'. }
  destruct (owns_head _ _ _ _ _ _ Hm) as (b' & l0 & Hl0 & Hb' & Hh & _ & _ & HmF). clear l0 Hl0.
  rewrite Hb in Hb'. injection Hb' as <-. pose proof (holds_length _ _ Hh) as Hbl.
  assert (0 ≤ tcp_ihl seg ≤ 60) as Hir.
  { unfold tcp_ihl. change 0x0F with (2 ^ 4 - 1). rewrite land_ones_mod by lia.
    pose proof (Z.mod_pos_bound (Z.shiftr (get8 seg 12) 4) (2 ^ 4)). lia. }
  assert (m_len b ≤ 4096) as Hbmax by (destruct Hh; unfold MBUF_PAGE_SIZE in *; lia).
  assert (n = m_len b - tcp_ihl seg) as Hn by (subst n payload; rewrite length_drop; lia).
  assert (put_buf (n_buf s) s = s) as Hid by by destruct s.
  apply list_find_Some in Hfind as Hfs. destruct Hfs as (Hi & _ & _).
  assert (i < length (g_tcp_socks (n_tcp s)))%nat as Hil by (by eapply lookup_lt_Some).
  unfold tcp_rx, TCP_HDR_LEN. wp_step. apply wp_on_buf. eapply wp_deref; [done|]. rewrite Hid. decide_cmps.
  wp_step. apply wp_on_buf. eapply wp_hdr_get; [done|lia|lia|lia|]. rewrite Hid.
  change (Z.to_nat 0) with 0%nat. change (Z.to_nat 20) with 20%nat.
  rewrite !take_get16, !take_get32 by lia. rewrite drop_0, !take_get8 by lia. simpl Nat.add.
  fold (tcp_ihl seg). fold flags. fold ack.
  rewrite (u64_small (m_len b - tcp_ihl seg)) by (unfold is_u64; lia). rewrite <-Hn.
  wp_step. apply wp_on_buf. eapply wp_skip_hdr; [done|done|lia|lia|lia|].
  rewrite take_ge by (fold payload; lia). fold payload. intros nb1 b1 Hown1 Hs1 Hb1 Hr1.
  assert (owns nb1 F (ts_rx_buf ts) l ps) as Hq1.
  { eapply owns_same_but; [exact Hq|apply Hown1|done|exact Hs1|done]. }
  wp_steps. cbn [n_tcp put_buf]. rewrite Hfind.
  wp_step. unfold tcp_rx_sock. wp_step. eapply wp_ts_load; [done|]. rewrite Hst, Hack, Hfin. decide_cmps.
  wp_step. wp_step. eapply wp_ts_upd; [done|]. unfold tcp_drop_acked.
  wp_step. eapply wp_ts_load; [sock_lookup|]. cbn [ts_tx_queue ts_set_snd_wnd ts_set_snd_una]. rewrite Htx.
  cbn [acked_prefix for_list]. wp_steps. eapply wp_ts_upd; [sock_lookup|]. rewrite with_sock_twice.
  wp_step. match goal with |- wp _ _ (with_sock i ?t _) => set (ts1 := t) end.
  eapply (wp_tcp_rx_data i ts1 d v mac F l ps m b1 payload); cbn [n_buf n_tcp put_buf with_sock put_tcp]; try done.
  - sock_lookup.
  - destruct Hpath; by split.
  - intros r nb' F' h l' ps' Hown' Hc Hrr. wp_steps.
    exists r, (ts_set_rx h (ts_rx_len ts1 + n) (ts_set_rcv_nxt (tcp_seq_add (ts_rcv_nxt ts1) n) ts1)), F', l', ps'.
    split_and!; try done; [sock_lookup|]. rewrite Hc, length_app. cbn. lia.
Qed.

(** Reading exactly the first of several queued segments releases all of
    them: [tcp_recv] returns the right bytes, but the socket's receive buffer
    then starts at an mbuf that is on the free list, although the remaining
    bytes are still counted as queued. *)
Theorem tcp_recv_frees_queued `{NetEnv} i ts m b sg F l bs ps s fuel :
  g_tcp_socks (n_tcp s) !! i = Some ts → ts_in_use ts = true → (i < TCP_SOCK_MAX)%nat →
  ts_rx_buf ts = Some m → owns (n_buf s) F (Some m) (m :: sg :: l) (bs :: ps) →
  pool (n_buf s) !! m = Some b → m_refcount b = 1 → bs ≠ [] →
  ts_rx_len ts = Z.of_nat (length (concat (bs :: ps))) → ts_rx_len ts ≤ 65536 →
  ∃ s' ts' F', tcp_recv (S fuel) (Z.of_nat i) (Z.of_nat (length bs)) s = Ok ((Z.of_nat (length bs), bs), s') ∧
    g_tcp_socks (n_tcp s') !! i = Some ts' ∧ ts_rx_buf ts' = Some sg ∧
    ts_rx_len ts' = Z.of_nat (length (concat ps)) ∧ pool_ok (n_buf s') F' ∧ sg ∈ F'.
Proof.
  intros Hi Hu Hlt Hrx Hown Hb Hr Hne Hlen Hmax.
  enough (wp (tcp_recv (S fuel) (Z.of_nat i) (Z.of_nat (length bs))) (λ r s', r = (Z.of_nat (length bs), bs) ∧
    ∃ ts' F', g_tcp_socks (n_tcp s') !! i = Some ts' ∧ ts_rx_buf ts' = Some sg ∧
    ts_rx_len ts' = Z.of_nat (length (concat ps)) ∧ pool_ok (n_buf s') F' ∧ sg ∈ F') s) as Hwp.
  { apply wp_ok in Hwp as (r & s' & Hrun & -> & ts' & F' & Hpost). by exists s', ts', F'. }
  assert (put_buf (n_buf s) s = s) as Hid by by destruct s.
  assert (0 < Z.of_nat (length bs)) as Hpos by (destruct bs; [done|simpl; lia]).
  destruct (owns_head _ _ _ _ _ _ Hown) as (b' & l' & [= <-] & Hb' & Hh & Hrest & _).
  rewrite Hb in Hb'. injection Hb' as <-. pose proof (holds_length _ _ Hh) as Hbl.
  assert (m_next_seg b = Some sg) as Hseg by (by inversion Hrest).
  assert (i < length (g_tcp_socks (n_tcp s)))%nat as Hil by (by eapply lookup_lt_Some).
  cbn [concat] in Hlen. rewrite length_app in Hlen.
  unfold tcp_recv. wp_step. eapply wp_tcp_get; [done..|]. wp_step. eapply wp_wait_recv; [done|lia|].
  wp_step. eapply wp_ts_load; [done|]. decide_cmps. wp_step. apply wp_on_buf.
  assert ((if Z.of_nat (length bs) <? ts_rx_len ts then Z.of_nat (length bs) else ts_rx_len ts) = Z.of_nat (length bs)) as ->
    by (destruct (Z.ltb_spec (Z.of_nat (length bs)) (ts_rx_len ts)); lia).
  rewrite Hrx. pose proof Hown as [Hok Hp Hnd].
  eapply wp_copyout; [exact Hok|exact Hp|by apply NoDup_app in Hnd as [? _]|lia|lia|].
  change (Z.to_nat 0) with 0%nat. cbn [concat]. rewrite drop_0, Nat2Z.id, take_app_length, Hid.
  wp_step. unfold tcp_consume, CHAIN_FUEL. cbn [loop_fuel].
  wp_step. wp_step. eapply wp_ts_load; [done|]. rewrite Hrx. decide_cmps.
  wp_step. apply wp_on_buf. eapply wp_deref; [done|]. rewrite Hid. decide_cmps.
  wp_step. eapply wp_ts_upd; [done|]. wp_step. apply wp_on_buf.
  eapply wp_free_owned; [exact Hown|done|lia|]. intros nb' F' Hok' HF' _. wp_steps.
  eapply wp_ts_load; [by apply with_sock_lookup|]. cbn [ts_rx_buf ts_set_rx]. rewrite Hseg. decide_cmps. wp_steps.
  eapply wp_ts_upd; [by apply with_sock_lookup|]. wp_step. split; [done|].
  eexists _, F'. split_and!; [by apply with_sock_lookup; cbn; rewrite length_insert|done| |done|].
  - cbn. rewrite u64_small; [lia|]. unfold is_u64. lia.
  - rewrite HF'. right. by left.
Qed.

(** A socket with two segments queued. *)
Definition demo_conn (st : tcp_state) : tcp_sock :=
  TcpSock true st 80 1234 (ip4_make 10 0 2 2) (Some 0%nat) 1000 1000 500 TCP_WND_SIZE TCP_WND_SIZE
    (Some 0%nat) 7 None [] 0 None.
Definition demo_tcp_net (nb : netbuf) (ts : tcp_sock) : net :=
  put_tcp (Tcp (ts :: replicate 31 ts_zero) 0x12345678 49152 (replicate 32 0)) (demo_net_of nb).

(** Three allocations in a row. *)
Definition alloc3 : M netbuf (option nat * option nat * option nat) :=
  a ← mbuf_alloc; b ← mbuf_alloc; c ← mbuf_alloc; mret (a, b, c).

(** Closing a socket with two segments queued releases the second one twice:
    the free list becomes a cycle, the mbufs that were free are lost from it,
    and the next allocations hand out the same mbuf twice. *)
Theorem tcp_close_double_free :
  match @tcp_close wire_env 0 (demo_tcp_net demo_nb (demo_conn CLOSE_WAIT)) with
  | Ok (r, s') => r = 0 ∧ match alloc3 (n_buf s') with
                          | Ok (x, nb') => x = (Some 1%nat, Some 0%nat, Some 1%nat) ∧ g_mbuf_free nb' = None
                          | _ => False
                          end
  | _ => False
  end.
Proof. vm_compute. repeat split. Qed.

(** A bare segment of 20 bytes whose data offset claims a header of 24. *)
Definition demo_short_seg : list Z :=
  tcp_hdr (htobe16 1234) (htobe16 80) (htobe32 500) (htobe32 1000) 0x60 TCP_ACK (htobe16 1024) 0 0.
Definition demo_short_nb : netbuf :=
  Netbuf ([demo_mbuf [1; 2; 3; 4] None (Some 1%nat); demo_mbuf [5; 6; 7] None None;
           demo_mbuf demo_short_seg None None; demo_mbuf [] (Some 4%nat) None; demo_mbuf [] (Some 5%nat) None;
           demo_mbuf [] None None] ++
          replicate 250 (Mbuf None 0 0 0 0 None None 0 0)) (Some 3%nat).
Definition demo_short_net : net :=
  put_arp (Arp (arp_cache_insert (replicate 16 arp_zero) (ip4_make 10 0 2 2) [2; 0; 0; 0; 0; 9]) arp_zero)
    (demo_tcp_net demo_short_nb (demo_conn ESTABLISHED)).

(** A segment whose data offset is larger than the segment is not rejected:
    the payload length wraps around, passes the receive-buffer limit, shrinks
    the count of queued bytes, moves the expected sequence number back, and
    queues an mbuf whose length is close to 2^64. *)
Theorem tcp_rx_length_underflow :
  match @tcp_rx wire_env 0 (ip4_make 10 0 2 2) (ip4_make 10 0 2 15) 2 demo_short_net with
  | Ok (_, s') =>
    match g_tcp_socks (n_tcp s') !! 0%nat, pool (n_buf s') !! 1%nat, pool (n_buf s') !! 2%nat with
    | Some ts, Some b1, Some b2 =>
      ts_rx_len ts = 3 ∧ ts_rcv_nxt ts = 496 ∧ m_next_seg b1 = Some 2%nat ∧ m_len b2 = 2 ^ 64 - 4
    | _, _, _ => False
    end
  | _ => False
  end.
Proof. vm_compute. repeat split. Qed.

(** ** Witnesses *)

Lemma tcp_recv_frees_queued_witness :
  ∃ s' ts' F', @tcp_recv wire_env 1 0 4 (demo_tcp_net demo_nb (demo_conn ESTABLISHED)) = Ok ((4, [1; 2; 3; 4]), s') ∧
    g_tcp_socks (n_tcp s') !! 0%nat = Some ts' ∧ ts_rx_buf ts' = Some 1%nat ∧
    ts_rx_len ts' = 3 ∧ pool_ok (n_buf s') F' ∧ 1%nat ∈ F'.
Proof.
  apply (@tcp_recv_frees_queued wire_env 0 (demo_conn ESTABLISHED) 0 (demo_mbuf [1; 2; 3; 4] None (Some 1%nat)) 1
    [2; 3; 4]%nat [] [1; 2; 3; 4] [[5; 6; 7]] (demo_tcp_net demo_nb (demo_conn ESTABLISHED)) 0);
    try done; [unfold TCP_SOCK_MAX; lia|exact demo_owns].
Defined.

(** A connection with four bytes queued and a segment of three more. *)
Definition demo_data_seg : list Z :=
  tcp_hdr (htobe16 1234) (htobe16 80) (htobe32 500) (htobe32 1000) 0x50 (Z.lor TCP_ACK TCP_PSH) (htobe16 1024) 0 0 ++
  [5; 6; 7].
Definition demo_data_nb : netbuf :=
  Netbuf ([demo_mbuf [1; 2; 3; 4] None None; demo_mbuf demo_data_seg None None;
           demo_mbuf [] (Some 3%nat) None; demo_mbuf [] (Some 4%nat) None; demo_mbuf [] None None] ++
          replicate 251 (Mbuf None 0 0 0 0 None None 0 0)) (Some 2%nat).
Definition demo_data_conn : tcp_sock :=
  TcpSock true ESTABLISHED 80 1234 (ip4_make 10 0 2 2) (Some 0%nat) 1000 1000 500 TCP_WND_SIZE TCP_WND_SIZE
    (Some 0%nat) 4 None [] 0 None.
Definition demo_data_net : net :=
  put_arp (Arp (arp_cache_insert (replicate 16 arp_zero) (ip4_make 10 0 2 2) [2; 0; 0; 0; 0; 9]) arp_zero)
    (demo_tcp_net demo_data_nb demo_data_conn).

Lemma demo_data_pool : pool_ok demo_data_nb [2; 3; 4]%nat.
Proof.
  split; [done| |by apply (bool_decide_unpack _)].
  assert (page_ok (demo_page [])) by (apply demo_page_ok; demo_bytes).
  do 3 (econstructor; [done|by exists (demo_page [])|]). constructor.
Qed.

Lemma demo_data_seg_u8 : Forall is_u8 demo_data_seg.
Proof. apply Forall_app_2; [apply tcp_hdr_u8|demo_bytes]. Qed.

Lemma tcp_rx_appends_data_witness :
  ∃ r s' ts' F' l' ps', @tcp_rx wire_env 0 (ip4_make 10 0 2 2) (ip4_make 10 0 2 15) 1 demo_data_net = Ok (tt, s') ∧
    g_tcp_socks (n_tcp s') !! 0%nat = Some ts' ∧ owns (n_buf s') F' (ts_rx_buf ts') l' ps' ∧
    concat ps' = [1; 2; 3; 4; 5; 6; 7] ∧ ts_rx_len ts' = Z.of_nat (length (concat ps')) ∧
    ts_rcv_nxt ts' = 503 ∧ ts_snd_una ts' = 1000 ∧ ts_state ts' = ESTABLISHED ∧ (r = 0 ∨ r = -1) ∧
    n_wire s' = transmitted 0 (tcp_frame demo_dev [2; 0; 0; 0; 0; 9] demo_data_conn TCP_ACK 1000 (ts_rcv_nxt ts')) r
                  demo_data_net.
Proof.
  apply (@tcp_rx_appends_data wire_env _ 0 (ip4_make 10 0 2 2) (ip4_make 10 0 2 15) demo_dev [2; 0; 0; 0; 0; 9] 0
    demo_data_conn [2; 3; 4]%nat [0%nat] [[1; 2; 3; 4]] 1 (demo_mbuf demo_data_seg None None) demo_data_seg demo_data_net);
    try done.
  - split; [exact demo_data_pool| |by apply (bool_decide_unpack _)].
    econstructor; [done|apply demo_holds; [unfold demo_data_seg; simpl; lia|exact demo_data_seg_u8]|]. constructor.
  - split; [exact demo_data_pool| |by apply (bool_decide_unpack _)].
    econstructor; [done|apply demo_holds; demo_bytes|]. constructor.
  - by apply (bool_decide_unpack _).
  - split; try done; demo_bytes.
Defined.
