(* ===== verification/Socket.v ===== *)
(** * Socket: the socket layer (kernel/socket.c)

    The table of socket descriptors over the UDP and TCP layers.  A
    [struct sockaddr_in] is its port (network order) and address. *)

From S2P Require Import Prelude NetUtil NetBuf Net Link Arp Ip Udp Tcp.

Definition SOCKET_TABLE_SIZE : nat := 64.
Definition AF_INET : Z := 2.
Definition SOCK_STREAM : Z := 1.
Definition SOCK_DGRAM : Z := 2.

Definition sock_zero : sock_entry := SockEntry false SOCK_PROTO_NONE 0 0 0.

Definition socket_init : M net unit := modify (put_socks (replicate SOCKET_TABLE_SIZE sock_zero)).

Definition sock_upd (fd : nat) (f : sock_entry → sock_entry) : M net unit :=
  modify (λ s, put_socks (alter f fd (g_sock_table s)) s).

Definition se_set_in_use x e := SockEntry x (se_proto e) (se_handle e) (se_peer_ip e) (se_peer_port e).
Definition se_set_handle p h e := SockEntry (se_in_use e) p h (se_peer_ip e) (se_peer_port e).
Definition se_set_peer ip port e := SockEntry (se_in_use e) (se_proto e) (se_handle e) ip port.

Definition sock_alloc : M net Z :=
  t ← gets g_sock_table;
  match list_find (λ e, Is_true (negb (se_in_use e))) t with
  | Some (i, _) => sock_upd i (se_set_in_use true);; mret (Z.of_nat i)
  | None => mret (-1)
  end.

(** The entry of a descriptor in range and in use. *)
Definition sock_get (fd : Z) : M net (option sock_entry) :=
  t ← gets g_sock_table;
  mret (if (fd <? 0) || (Z.of_nat SOCKET_TABLE_SIZE <=? fd) then None
        else match t !! Z.to_nat fd with
             | Some e => if se_in_use e then Some e else None
             | None => None
             end).

Section socket.
Context `{NetEnv}.

Definition sock_create (domain type proto : Z) : M net Z :=
  if negb (domain =? AF_INET) then mret (-1)
  else
    fd ← sock_alloc;
    if fd <? 0 then mret (-1)
    else
      let i := Z.to_nat fd in
      if type =? SOCK_DGRAM then
        handle ← on_udp udp_socket;
        if handle <? 0 then sock_upd i (se_set_in_use false);; mret (-1)
        else sock_upd i (se_set_handle SOCK_PROTO_UDP handle);; mret fd
      else if type =? SOCK_STREAM then
        handle ← tcp_socket;
        if handle <? 0 then sock_upd i (se_set_in_use false);; mret (-1)
        else sock_upd i (se_set_handle SOCK_PROTO_TCP handle);; mret fd
      else sock_upd i (se_set_in_use false);; mret (-1).

Definition sock_bind (fd sin_port : Z) : M net Z :=
  r ← sock_get fd;
  match r with
  | None => mret (-1)
  | Some se =>
    let port := be16toh sin_port in
    match se_proto se with
    | SOCK_PROTO_UDP => on_udp (udp_bind (se_handle se) port)
    | SOCK_PROTO_TCP => tcp_bind (se_handle se) port
    | SOCK_PROTO_NONE => mret (-1)
    end
  end.

Definition sock_connect (fuel : nat) (fd sin_addr sin_port : Z) : M net Z :=
  r ← sock_get fd;
  match r with
  | None => mret (-1)
  | Some se =>
    match se_proto se with
    | SOCK_PROTO_TCP => tcp_connect fuel (se_handle se) sin_addr (be16toh sin_port)
    | SOCK_PROTO_UDP => sock_upd (Z.to_nat fd) (se_set_peer sin_addr (be16toh sin_port));; mret 0
    | SOCK_PROTO_NONE => mret (-1)
    end
  end.

Definition sock_listen (fd : Z) : M net Z :=
  r ← sock_get fd;
  match r with
  | None => mret (-1)
  | Some se =>
    match se_proto se with
    | SOCK_PROTO_TCP => tcp_listen (se_handle se)
    | _ => mret (-1)
    end
  end.

Definition sock_accept (fuel : nat) (fd : Z) : M net Z :=
  r ← sock_get fd;
  match r with
  | None => mret (-1)
  | Some se =>
    match se_proto se with
    | SOCK_PROTO_TCP =>
      child ← tcp_accept fuel (se_handle se);
      if child <? 0 then mret (-1)
      else
        new_fd ← sock_alloc;
        if new_fd <? 0 then mret (-1)
        else
          sock_upd (Z.to_nat new_fd) (λ e, se_set_handle SOCK_PROTO_TCP child (se_set_in_use true e));;
          mret new_fd
    | _ => mret (-1)
    end
  end.

Definition sock_send (fuel : nat) (fd : Z) (buf : list Z) : M net Z :=
  r ← sock_get fd;
  match r with
  | None => mret (-1)
  | Some se =>
    match se_proto se with
    | SOCK_PROTO_TCP => tcp_send fuel (se_handle se) buf
    | SOCK_PROTO_UDP => udp_sendto (se_handle se) (se_peer_ip se) (se_peer_port se) buf
    | SOCK_PROTO_NONE => mret (-1)
    end
  end.

(** The return value and the bytes received. *)
Definition sock_recv (fuel : nat) (fd max : Z) : M net (Z * list Z) :=
  r ← sock_get fd;
  match r with
  | None => mret (-1, [])
  | Some se =>
    match se_proto se with
    | SOCK_PROTO_TCP => tcp_recv fuel (se_handle se) max
    | SOCK_PROTO_UDP => x ← udp_recvfrom fuel (se_handle se) max; mret (x.1.1, x.1.2)
    | SOCK_PROTO_NONE => mret (-1, [])
    end
  end.

Definition sock_close (fd : Z) : M net Z :=
  r ← sock_get fd;
  match r with
  | None => mret (-1)
  | Some se =>
    match se_proto se with
    | SOCK_PROTO_UDP => udp_close (se_handle se)
    | SOCK_PROTO_TCP => tcp_close (se_handle se);; mret tt
    | SOCK_PROTO_NONE => mret tt
    end;;
    sock_upd (Z.to_nat fd) (se_set_in_use false);;
    mret 0
  end.
End socket.

(** ** Theorems *)

(** The first free descriptor. *)
Definition first_free (t : list sock_entry) : option (nat * sock_entry) :=
  list_find (λ e, Is_true (negb (se_in_use e))) t.

Lemma alter_as_insert {A} (f : A → A) (l : list A) i x : l !! i = Some x → alter f i l = <[i := f x]> l.
Proof.
  intros Hi. apply list_eq. intros j. destruct (decide (j = i)) as [->|Hne].
  - rewrite list_lookup_alter_eq, Hi, list_lookup_insert_eq; [done|]. by eapply lookup_lt_Some.
  - by rewrite list_lookup_alter_ne, list_lookup_insert_ne.
Qed.

Lemma wp_sock_alloc s i e (Q : Z → net → Prop) :
  first_free (g_sock_table s) = Some (i, e) →
  Q (Z.of_nat i) (put_socks (<[i := se_set_in_use true e]> (g_sock_table s)) s) → wp sock_alloc Q s.
Proof.
  intros Hf HQ. unfold sock_alloc, sock_upd. wp_steps. unfold first_free in Hf. rewrite Hf. wp_steps.
  apply list_find_Some in Hf as (Hi & _ & _). by rewrite (alter_as_insert _ _ _ e Hi).
Qed.

(** A new UDP socket inherits the peer of whoever used its descriptor before:
    [sock_create] gives out the first free entry without clearing [peer_ip] and
    [peer_port], so that [sock_send] on the fresh, never connected socket is a
    datagram to the previous owner's peer. *)
Theorem sock_create_stale_peer `{NetEnv} s fd e u us fuel buf :
  first_free (g_sock_table s) = Some (fd, e) → length (g_sock_table s) = SOCKET_TABLE_SIZE →
  list_find (λ us, Is_true (negb (us_in_use us))) (g_udp_socks (n_udp s)) = Some (u, us) →
  ∃ s', sock_create AF_INET SOCK_DGRAM 0 s = Ok (Z.of_nat fd, s') ∧
    sock_send fuel (Z.of_nat fd) buf s' = udp_sendto (Z.of_nat u) (se_peer_ip e) (se_peer_port e) buf s'.
Proof.
  intros Hf Hlen Hu. set (e' := SockEntry true SOCK_PROTO_UDP (Z.of_nat u) (se_peer_ip e) (se_peer_port e)).
  pose proof Hf as Hf'. apply list_find_Some in Hf' as (Hi & _ & _).
  assert (fd < SOCKET_TABLE_SIZE)%nat as Hfd by (rewrite <-Hlen; by eapply lookup_lt_Some). unfold SOCKET_TABLE_SIZE in *.
  enough (wp (sock_create AF_INET SOCK_DGRAM 0) (λ r s', r = Z.of_nat fd ∧ g_sock_table s' !! fd = Some e') s) as Hwp.
  { apply wp_ok in Hwp as (r & s' & Hrun & -> & He). exists s'. split; [done|].
    assert (sock_get (Z.of_nat fd) s' = Ok (Some e', s')) as Hget.
    { apply wp_exact. unfold sock_get. wp_steps. split; [|done]. unfold SOCKET_TABLE_SIZE. decide_cmps.
      cbn [orb]. by rewrite Nat2Z.id, He. }
    unfold sock_send, mbind, M_bind. by rewrite Hget. }
  unfold sock_create. change (negb (AF_INET =? AF_INET)) with false. cbn iota.
  wp_step. eapply wp_sock_alloc; [done|]. decide_cmps. cbn iota. rewrite Nat2Z.id.
  change (SOCK_DGRAM =? SOCK_DGRAM) with true. cbn iota.
  wp_step. unfold on_udp. apply wp_zoom. unfold udp_socket, set_socks. wp_step. wp_step. cbn [n_udp put_socks].
  rewrite Hu. wp_steps; [apply Z.ltb_lt in Heqb; lia|]. unfold sock_upd. wp_steps. split; [done|]. cbn.
  rewrite list_lookup_alter_eq, list_lookup_insert_eq by lia. done.
Qed.

(** A listening socket (descriptor 0) with one established child. *)
Definition demo_accept_net : net :=
  put_socks (SockEntry true SOCK_PROTO_TCP 0 0 0 :: replicate 63 sock_zero)
    (put_tcp (Tcp (ts_set_state LISTEN (demo_conn LISTEN) ::
                   ts_set_parent (Some 0%nat) (demo_conn ESTABLISHED) :: replicate 30 ts_zero)
                0x12345678 49152 (replicate 32 0)) demo_net).

(** Accepting twice from a listening socket with one established connection
    gives two descriptors for the same connection, because an accepted child
    keeps its parent; closing the first one then breaks the second. *)
Theorem sock_accept_twice_same_child :
  match (a ← @sock_accept wire_env 1 0; b ← @sock_accept wire_env 1 0; mret (a, b)) demo_accept_net with
  | Ok (fds, s') => fds = (1, 2) ∧
    match g_sock_table s' !! 1%nat, g_sock_table s' !! 2%nat with
    | Some e1, Some e2 => se_in_use e1 = true ∧ se_in_use e2 = true ∧ se_handle e1 = 1 ∧ se_handle e2 = 1
    | _, _ => False
    end
  | _ => False
  end.
Proof. vm_compute. repeat split. Qed.

(** ** Witnesses *)

Lemma sock_create_stale_peer_witness :
  ∃ s', sock_create AF_INET SOCK_DGRAM 0
          (put_socks (SockEntry false SOCK_PROTO_UDP 3 99 53 :: replicate 63 sock_zero) demo_net) = Ok (0, s') ∧
    @sock_send wire_env 1 0 [1; 2] s' = @udp_sendto wire_env 0 99 53 [1; 2] s'.
Proof.
  exact (@sock_create_stale_peer wire_env
    (put_socks (SockEntry false SOCK_PROTO_UDP 3 99 53 :: replicate 63 sock_zero) demo_net) 0
    (SockEntry false SOCK_PROTO_UDP 3 99 53) 0 free_udp 1 [1; 2] eq_refl eq_refl eq_refl).
Defined.
