(* ===== verification/Stack.v ===== *)
(** * Stack: the layers put together (net_init of kernel/netdev.c)

    [stack_env] closes the interface [NetEnv]: the handler tables call the real
    handlers of arp.c, ipv4.c, icmp.c, udp.c and tcp.c, and transmitting on the
    loopback device feeds the receive path.  The nesting of these calls is
    bounded by fuel: one unit per call through a function pointer. *)

From S2P Require Import Prelude NetUtil NetBuf Net Link Arp Ip Udp Tcp Socket.

(** The parts outside the stack: a NIC driver, its poll functions, the clock and
    the scheduler. *)
Record outside := Outside {
  o_nic_tx : nat → nat → M net Z;
  o_poll : nat → M net unit;
  o_clock : M net Z;
  o_yield : M net unit;
  o_wake : nat → M net unit;
  o_kmalloc : M net bool }.

Definition no_fuel {A} : M net A := λ _, NoFuel.

Fixpoint stack_env (fuel : nat) (lo : nat) (o : outside) : NetEnv :=
  match fuel with
  | O => {| dev_tx := λ _ _, no_fuel; net_poll := o_poll o; eth_call := λ _ _ _, no_fuel;
            ip_call := λ _ _ _ _ _, no_fuel; clock_mono_ns := o_clock o; sched_yield := o_yield o;
            sched_wake := o_wake o; kmalloc_ok := o_kmalloc o |}
  | S n =>
    let E := stack_env n lo o in
    {| dev_tx := λ d m, if (d =? lo)%nat then @loopback_tx E d m else o_nic_tx o d m;
       net_poll := o_poll o;
       eth_call := λ f d m, match f with
                            | fn_arp_handle_rx => @arp_handle_rx E d m
                            | fn_ipv4_rx => @ipv4_rx E d m
                            end;
       ip_call := λ f d src dst m, match f with
                                   | fn_icmp_rx => @icmp_rx E d src dst m
                                   | fn_udp_rx => @udp_rx E d src dst m
                                   | fn_tcp_rx => @tcp_rx E d src dst m
                                   end;
       clock_mono_ns := o_clock o; sched_yield := o_yield o; sched_wake := o_wake o; kmalloc_ok := o_kmalloc o |}
  end.

Definition net_init (page : nat → option (Z * option (list Z))) (lo : nat) : M net unit :=
  on_buf (mbuf_init page);;
  arp_init;;
  ipv4_init;;
  icmp_init;;
  udp_init;;
  tcp_init;;
  on_link (loopback_init lo).

(** ** End-to-end runs *)

(** The zero-initialised statics of the kernel, and a machine on which nothing
    else happens: no NIC, a clock that stands still. *)
Definition boot_net : net :=
  Net (Netbuf [] None) (Link ∅ [] [] []) (Arp [] arp_zero) [] (Icmp 0 0 false false 0)
    (Udp [] UDP_EPHEMERAL_START) (Tcp [] 0 TCP_EPHEMERAL_START (replicate TCP_SOCK_MAX 0))
    (replicate SOCKET_TABLE_SIZE sock_zero) [].
Definition quiet : outside :=
  Outside (λ _ _, mret (-1)) (λ _, mret tt) (mret 0) (mret tt) (λ _, mret tt) (mret true).
Definition LOCALHOST : Z := ip4_make 127 0 0 1.
Definition full_pages (i : nat) : option (Z * option (list Z)) := Some (4096 * Z.of_nat i, Some (demo_page [])).

(** The number of mbufs on the free list. *)
Fixpoint free_count (fuel : nat) (p : list mbuf) (h : option nat) : nat :=
  match fuel, h with
  | S n, Some i => match p !! i with Some b => S (free_count n p (m_next b)) | None => 0 end
  | _, _ => 0
  end.

(** Boot, then ping 127.0.0.1. *)
Definition ping_localhost : M net (Z * option Z) :=
  net_init full_pages 7;;
  @icmp_echo (stack_env 7 7 quiet) 1 LOCALHOST 1000.

(** After [net_init], pinging 127.0.0.1 through the real layers (echo request,
    IPv4, ARP shortcut, Ethernet, loopback, receive path, echo reply and back)
    succeeds, and every mbuf is on the free list again. *)
Theorem ping_localhost_answered :
  match ping_localhost boot_net with
  | Ok (r, s') => r.1 = 0 ∧ free_count 300 (pool (n_buf s')) (g_mbuf_free (n_buf s')) = MBUF_POOL_SIZE
  | _ => False
  end.
Proof. vm_compute. split; reflexivity. Qed.

(** Boot, open two UDP sockets, bind the second to port 5353, send it three bytes
    from the first through the loopback device and receive them. *)
Definition udp_localhost : M net (Z * list Z) :=
  net_init full_pages 7;;
  let E := stack_env 7 7 quiet in
  a ← sock_create AF_INET SOCK_DGRAM 0;
  b ← sock_create AF_INET SOCK_DGRAM 0;
  sock_bind b (htobe16 5353);;
  @sock_connect E 1 a LOCALHOST (htobe16 5353);;
  @sock_send E 1 a [10; 20; 30];;
  @sock_recv E 1 b 100.

(** A datagram sent over the loopback device between two sockets arrives with
    exactly its bytes, and every mbuf is on the free list again. *)
Theorem udp_localhost_delivered :
  match udp_localhost boot_net with
  | Ok (r, s') => r = (3, [10; 20; 30]) ∧ free_count 300 (pool (n_buf s')) (g_mbuf_free (n_buf s')) = MBUF_POOL_SIZE
  | _ => False
  end.
Proof. vm_compute. split; reflexivity. Qed.

(** Boot, listen on port 80, connect to it over the loopback device, accept, send
    five bytes and receive them at the other end. *)
Definition tcp_localhost : M net (Z * Z * Z * (Z * list Z)) :=
  net_init full_pages 7;;
  let E := stack_env 12 7 quiet in
  srv ← sock_create AF_INET SOCK_STREAM 0;
  sock_bind srv (htobe16 80);;
  sock_listen srv;;
  cli ← sock_create AF_INET SOCK_STREAM 0;
  c ← @sock_connect E 1 cli LOCALHOST (htobe16 80);
  conn ← @sock_accept E 1 srv;
  n ← @sock_send E 1 cli [72; 101; 108; 108; 111];
  r ← @sock_recv E 1 conn 100;
  mret (c, conn, n, r).

(** The three-way handshake between two sockets of the machine completes
    inside [sock_connect], [sock_accept] returns the connection, and the bytes
    sent arrive in order at the other end. *)
Theorem tcp_localhost_delivered :
  match tcp_localhost boot_net with
  | Ok (r, _) => r = (0, 2, 5, (5, [72; 101; 108; 108; 111]))
  | _ => False
  end.
Proof. vm_compute. reflexivity. Qed.
