(* ===== verification/CString.v ===== *)
(** * CString: the string routines of [kernel/string.c]

    A C string is the list of its bytes before the terminating NUL; a [char]
    array is a list of bytes of its size.  [cut0] reads the string an array
    holds.  The comparisons and copies of [kernel/string.c] are the definitions
    here, and the lemmas say what they decide and store. *)

From Stdlib Require Import String Ascii.
From S2P Require Import Prelude.

(** The bytes of a string literal. *)
Definition cstr (s : string) : list Z :=
  (λ a, Z.of_N (N_of_ascii a)) <$> list_ascii_of_string s.

(** No byte of a C string is the terminator. *)
Definition nul_free (s : list Z) : Prop := Forall (λ c, c ≠ 0) s.

#[global] Instance nul_free_dec s : Decision (nul_free s) := _.

(** The string that starts at the head of an array. *)
Fixpoint cut0 (a : list Z) : list Z :=
  match a with
  | [] => []
  | c :: a' => if c =? 0 then [] else c :: cut0 a'
  end.

(** [size_t strlen(const char *s)] *)
Definition strlen (s : list Z) : Z := Z.of_nat (length s).

(** [int strcmp(const char *a, const char *b)]: the difference of the first
    bytes that differ, the terminator counting as 0. *)
Fixpoint strcmp (a b : list Z) : Z :=
  match a, b with
  | [], [] => 0
  | [], y :: _ => - y
  | x :: _, [] => x
  | x :: a', y :: b' => if x =? y then strcmp a' b' else x - y
  end.

(** [int strncmp(const char *a, const char *b, size_t n)] *)
Fixpoint strncmp (a b : list Z) (n : nat) : Z :=
  match n with
  | O => 0
  | S n' =>
    match a, b with
    | [], [] => 0
    | [], y :: _ => - y
    | x :: _, [] => x
    | x :: a', y :: b' => if x =? y then strncmp a' b' n' else x - y
    end
  end.

(** [char *strncpy(char *dst, const char *src, size_t n)]: [n] bytes of the
    array [dst] are written, NUL once [src] has ended; [None] is a write past
    the end of [dst]. *)
Fixpoint strncpy (dst src : list Z) (n : nat) : option (list Z) :=
  match n with
  | O => Some dst
  | S n' =>
    match dst with
    | [] => None
    | _ :: dst' =>
      match src with
      | [] => cons 0 <$> strncpy dst' [] n'
      | c :: src' => cons c <$> strncpy dst' src' n'
      end
    end
  end.

(** Stores into an array, one byte after the other from an index on, as the
    copy loops of C do; a store outside the array faults. *)
Fixpoint store_bytes {St} (buf : list Z) (i : Z) (bs : list Z) : M St (list Z) :=
  match bs with
  | [] => mret buf
  | b :: bs' =>
    if (0 <=? i) && (i <? Z.of_nat (length buf))
    then store_bytes (<[Z.to_nat i := b]> buf) (i + 1) bs'
    else fault
  end.

Lemma strcmp_zero a b : nul_free a → nul_free b → strcmp a b = 0 ↔ a = b.
Proof.
  revert b. induction a as [|x a IH]; intros [|y b] Ha Hb; simpl; try done.
  - inversion Hb; subst. split; [lia|done].
  - inversion Ha; subst. split; [lia|done].
  - inversion Ha; inversion Hb; subst. destruct (Z.eqb_spec x y) as [->|Hne].
    + rewrite IH by done. naive_solver.
    + split; [lia|naive_solver].
Qed.

Lemma strcmp_eqb a b : nul_free a → nul_free b → (strcmp a b =? 0) = bool_decide (a = b).
Proof.
  intros Ha Hb. destruct (Z.eqb_spec (strcmp a b) 0) as [Hz|Hz].
  - symmetry. apply bool_decide_eq_true. by apply strcmp_zero.
  - symmetry. apply bool_decide_eq_false. contradict Hz. by apply strcmp_zero.
Qed.

(** [strncmp] bounded by both lengths is a comparison of prefixes. *)
Lemma strncmp_zero a b n :
  nul_free a → nul_free b → strncmp a b n = 0 ↔ take n a = take n b.
Proof.
  revert a b. induction n as [|n IH]; intros [|x a] [|y b] Ha Hb; simpl; try done.
  - inversion Hb; subst. split; [lia|done].
  - inversion Ha; subst. split; [lia|done].
  - inversion Ha; inversion Hb; subst. destruct (Z.eqb_spec x y) as [->|Hne].
    + rewrite IH by done. split; [by intros ->|by intros [=]].
    + split; [lia|by intros [=]].
Qed.

Lemma nul_free_app a b : nul_free (a ++ b) ↔ nul_free a ∧ nul_free b.
Proof. apply Forall_app. Qed.

Lemma cut0_nul_free a : nul_free (cut0 a).
Proof.
  induction a as [|c a IH]; simpl; [constructor|].
  destruct (Z.eqb_spec c 0); [constructor|by constructor].
Qed.

Lemma cut0_id s : nul_free s → cut0 s = s.
Proof.
  induction 1 as [|c s Hc Hs IH]; simpl; [done|].
  destruct (Z.eqb_spec c 0); [done|by rewrite IH].
Qed.

(** A string followed by a NUL is read back up to the NUL. *)
Lemma cut0_app s r : nul_free s → cut0 (s ++ 0 :: r) = s.
Proof.
  induction 1 as [|c s Hc Hs IH]; simpl; [done|].
  destruct (Z.eqb_spec c 0); [done|by rewrite IH].
Qed.

Lemma strncpy_zeros m n : (n ≤ m)%nat → strncpy (replicate m 0) [] n = Some (replicate m 0).
Proof.
  revert m. induction n as [|n IH]; intros [|m] Hm; simpl; try done; [lia|].
  rewrite IH by lia. done.
Qed.

(** Copying into a zeroed array stores the string, cut at [n] bytes. *)
Lemma strncpy_fresh m src n :
  (n ≤ m)%nat →
  strncpy (replicate m 0) src n =
    Some (take n src ++ replicate (m - length (take n src)) 0).
Proof.
  revert m src. induction n as [|n IH]; intros [|m] [|c src] Hm; simpl; try done; try lia.
  - rewrite strncpy_zeros by lia. done.
  - rewrite IH by lia. done.
Qed.

(** A block of stores replaces the bytes at its place. *)
Lemma store_bytes_spec {St} pre old bs post (s : St) :
  length old = length bs →
  store_bytes (pre ++ old ++ post) (Z.of_nat (length pre)) bs s = Ok (pre ++ bs ++ post, s).
Proof.
  revert pre old. induction bs as [|b bs IH]; intros pre [|o old] Hlen; try done.
  cbn [store_bytes]. rewrite !length_app. cbn [length]. decide_cmps. cbn [andb].
  rewrite Nat2Z.id, (insert_app_r_alt pre) by lia.
  rewrite Nat.sub_diag. cbn [list_insert app insert].
  change (pre ++ b :: old ++ post) with (pre ++ [b] ++ (old ++ post)).
  rewrite (assoc_L (++) pre [b]).
  replace (Z.of_nat (length pre) + 1) with (Z.of_nat (length (pre ++ [b])))
    by (rewrite length_app; simpl; lia).
  change (b :: bs) with ([b] ++ bs).
  rewrite IH by (simpl in Hlen; lia). by rewrite <-!(assoc_L (++)).
Qed.


(** An array of [n] bytes that holds the string [p]. *)
Definition array_holds (n : nat) (buf p : list Z) : Prop :=
  nul_free p ∧ length buf = n ∧ ∃ post, buf = p ++ 0 :: post.

Lemma array_holds_cut0 n buf p : array_holds n buf p → cut0 buf = p.
Proof. intros (Hp & _ & post & ->). by apply cut0_app. Qed.

Lemma array_holds_length n buf p : array_holds n buf p → (length p < n)%nat.
Proof. intros (_ & <- & post & ->). rewrite length_app. simpl. lia. Qed.

(** Storing a string and its terminator at the start of an array. *)
Lemma store_string {St} n buf p (s : St) :
  length buf = n → nul_free p → (length p < n)%nat →
  ∃ buf', store_bytes buf 0 (p ++ [0]) s = Ok (buf', s) ∧ array_holds n buf' p.
Proof.
  intros Hn Hp Hlt. exists ((p ++ [0]) ++ drop (length p + 1) buf). split.
  - rewrite <-(take_drop (length p + 1) buf) at 1.
    apply (store_bytes_spec [] _ _ _ s). rewrite length_take, length_app. simpl. lia.
  - split_and!; [done| |].
    + rewrite !length_app, length_drop. simpl. lia.
    + exists (drop (length p + 1) buf). by rewrite <-(assoc_L (++)).
Qed.

Lemma list_prefix_split {A} (l : list A) n : (n < length l)%nat → ∃ x, l = take n l ++ x :: drop (S n) l.
Proof.
  intros Hn. destruct (lookup_lt_is_Some_2 l n Hn) as [x Hx]. exists x. symmetry. by apply take_drop_middle.
Qed.
