(* ===== verification/Security.v ===== *)
(** * Security: roles, capabilities, the user database and its passwords

    Models [kernel/security.c] and [kernel/posix.c]: the role to capability
    table, [sec_check_cap], the user table [g_users] with its lookups, the
    parser of [/etc/passwd], SHA-256 and [security_authenticate], and the
    mapping between uids and roles.  The file system that holds [/etc/passwd]
    and the allocator are arguments of the operations that use them. *)

From Stdlib Require Import String.
From S2P Require Import Prelude CString.

(** ** Roles and capabilities *)

Inductive user_role := ROLE_GUEST | ROLE_USER | ROLE_ADMIN | ROLE_SYSTEM.

#[global] Instance user_role_eq_dec : EqDecision user_role.
Proof. solve_decision. Defined.

Definition cap_bit (n : Z) : Z := Z.shiftl 1 n.
Definition CAP_FORK := cap_bit 0.
Definition CAP_FILE_READ := cap_bit 1.
Definition CAP_FILE_WRITE_SELF := cap_bit 2.
Definition CAP_FILE_WRITE_ANY := cap_bit 3.
Definition CAP_KILL_SELF := cap_bit 4.
Definition CAP_KILL_ANY := cap_bit 5.
Definition CAP_MOUNT := cap_bit 6.
Definition CAP_UMOUNT := cap_bit 7.
Definition CAP_DRIVER := cap_bit 8.
Definition CAP_NET := cap_bit 9.
Definition CAP_NET_RAW := cap_bit 10.
Definition CAP_IPC := cap_bit 11.
Definition CAP_SETUID := cap_bit 12.
Definition CAP_SETGID := cap_bit 13.
Definition CAP_USER_MGMT := cap_bit 14.
Definition CAP_SERVICE_MGMT := cap_bit 15.
Definition CAP_SYS_ADMIN := cap_bit 16.
Definition CAP_SIGNAL_OTHER := cap_bit 17.
Definition CAP_PTRACE := cap_bit 18.
Definition CAP_BOOT := cap_bit 19.
Definition CAP_TIME := cap_bit 20.
Definition CAP_RESOURCE := cap_bit 21.
Definition CAP_EXECUTE := cap_bit 22.
Definition CAP_FILE_WRITE_TMP := cap_bit 23.

Definition lor_all (l : list Z) : Z := foldr Z.lor 0 l.

(** [role_caps[NROLES]] *)
Definition role_caps (r : user_role) : Z :=
  match r with
  | ROLE_GUEST => lor_all [CAP_FORK; CAP_FILE_READ; CAP_FILE_WRITE_TMP; CAP_EXECUTE]
  | ROLE_USER =>
    lor_all [CAP_FORK; CAP_FILE_READ; CAP_FILE_WRITE_SELF; CAP_KILL_SELF; CAP_NET; CAP_IPC;
             CAP_SETUID; CAP_SETGID; CAP_EXECUTE]
  | ROLE_ADMIN =>
    lor_all [CAP_FORK; CAP_FILE_READ; CAP_FILE_WRITE_SELF; CAP_KILL_SELF; CAP_NET; CAP_IPC;
             CAP_SETUID; CAP_SETGID; CAP_EXECUTE;
             CAP_FILE_WRITE_ANY; CAP_KILL_ANY; CAP_SIGNAL_OTHER; CAP_MOUNT; CAP_UMOUNT;
             CAP_DRIVER; CAP_NET_RAW; CAP_USER_MGMT; CAP_SERVICE_MGMT; CAP_SYS_ADMIN;
             CAP_PTRACE; CAP_BOOT; CAP_TIME; CAP_RESOURCE]
  | ROLE_SYSTEM => 4294967295
  end.

(** The security context of [struct thread]. *)
Record cred := Cred {
  cr_uid : Z;
  cr_euid : Z;
  cr_suid : Z;
  cr_gid : Z;
  cr_egid : Z;
  cr_sgid : Z;
  cr_role : user_role;
  cr_caps_eff : Z;
  cr_caps_prm : Z;
  cr_caps_inh : Z;
}.

(** [int sec_check_cap(struct thread *t, uint64_t cap)]; [None] is a null [t]. *)
Definition sec_check_cap (t : option cred) (cap : Z) : bool :=
  match t with
  | None => false
  | Some t =>
    if bool_decide (cr_role t = ROLE_SYSTEM) then true
    else negb (Z.land (cr_caps_eff t) cap =? 0)
  end.

(** [user_role_t posix_uid_to_role(uid_t uid)] *)
Definition posix_uid_to_role (uid : Z) : user_role :=
  if uid =? 0 then ROLE_ADMIN
  else if uid <? 1000 then ROLE_ADMIN
  else if uid =? 65534 then ROLE_GUEST
  else ROLE_USER.

(** ** The user table *)

Definition MAX_USERS : Z := 64.

(** [struct user_entry]; the [char] arrays are lists of their bytes. *)
Record user_entry := UserEntry {
  ue_name : list Z;
  ue_uid : Z;
  ue_gid : Z;
  ue_role : user_role;
  ue_passwd_hash : list Z;
  ue_home : list Z;
  ue_shell : list Z;
}.

(** [memset(u, 0, sizeof *u)]: role 0 is [ROLE_GUEST]. *)
Definition zero_user : user_entry :=
  UserEntry (replicate 32 0) 0 0 ROLE_GUEST (replicate 65 0) (replicate 128 0) (replicate 64 0).

(** [g_users] and [g_nusers]. *)
Record sec := Sec {
  g_users : list user_entry;
  g_nusers : Z;
}.

Definition sec_boot : sec := Sec (replicate 64 zero_user) 0.

(** An initialiser [char a[m] = "s"]. *)
Definition char_array (m : nat) (s : string) : list Z := cstr s ++ replicate (m - length (cstr s)) 0.

Definition fallback_user (name : string) (uid gid : Z) (r : user_role) (hash home shell : string) :=
  UserEntry (char_array 32 name) uid gid r (char_array 65 hash) (char_array 128 home)
            (char_array 64 shell).

(** [g_fallback_users] *)
Definition g_fallback_users : list user_entry :=
  [fallback_user "root" 0 0 ROLE_SYSTEM "x" "/root" "/bin/sh";
   fallback_user "system" 3 3 ROLE_SYSTEM "x" "/sbin" "/sbin/nologin";
   fallback_user "guest" 65534 65534 ROLE_GUEST "x" "/Temporary" "/sbin/nologin"].

(** [if (p(g_users[i])) return &g_users[i];] *)
Definition user_if (p : user_entry → bool) (i : Z) : M sec (option user_entry) :=
  us ← gets g_users;
  u ← load us i;
  mret (if p u then Some u else None).

(** The first of the [g_nusers] entries with a property: the loop of both
    lookups. *)
Definition lookup_user (p : user_entry → bool) : M sec (option user_entry) :=
  n ← gets g_nusers;
  for_ret (Z.to_nat n) 0 (user_if p).

(** [security_lookup_name] *)
Definition security_lookup_name (name : list Z) : M sec (option user_entry) :=
  lookup_user (λ u, strcmp (cut0 (ue_name u)) name =? 0).

(** [security_lookup_uid] *)
Definition security_lookup_uid (uid : Z) : M sec (option user_entry) :=
  lookup_user (λ u, ue_uid u =? uid).

(** The [lo] and [hi] of [posix_role_next_uid]. *)
Definition role_uid_range (r : user_role) : Z * Z :=
  match r with
  | ROLE_SYSTEM => (0, 0)
  | ROLE_ADMIN => (1, 999)
  | ROLE_USER => (1000, 65533)
  | ROLE_GUEST => (65534, 65534)
  end.

(** [uid_t posix_role_next_uid(user_role_t role)] *)
Definition posix_role_next_uid (r : user_role) : M sec Z :=
  let (lo, hi) := role_uid_range r in
  found ← for_ret (Z.to_nat (hi - lo + 1)) lo (λ u,
    used ← lookup_user (λ e, ue_uid e =? u);
    mret (match used with Some _ => None | None => Some u end));
  mret (match found with Some u => u | None => u32 (-1) end).

(** ** Parsing /etc/passwd *)

(** [atoi_simple]'s digit loop; an [int] overflow is undefined. *)
Fixpoint atoi_digits {St} (v : Z) (s : list Z) : M St Z :=
  match s with
  | c :: s' =>
    if (48 <=? c) && (c <=? 57)
    then let v' := v * 10 + (c - 48) in
         if v' <? 2 ^ 31 then atoi_digits v' s' else fault
    else mret v
  | [] => mret v
  end.

(** [static int atoi_simple(const char *s)] *)
Definition atoi_simple {St} (s : list Z) : M St Z :=
  match s with
  | c :: s' => if c =? 45 then v ← atoi_digits 0 s'; mret (- v) else atoi_digits 0 s
  | [] => atoi_digits 0 s
  end.

(** A string up to the first byte [sep], and what follows that byte. *)
Fixpoint split_at (sep : Z) (s : list Z) : list Z * list Z :=
  match s with
  | [] => ([], [])
  | c :: s' => if c =? sep then ([], s') else let (f, r) := split_at sep s' in (c :: f, r)
  end.

(** The loop that cuts the line into at most seven fields at its colons. *)
Fixpoint split_fields (n : nat) (p : list Z) : list (list Z) :=
  match n with
  | O => []
  | S n' =>
    match p with
    | [] => []
    | _ => let (f, r) := split_at 58 p in f :: split_fields n' r
    end
  end.

(** The role a [passwd] line names, or that of its uid. *)
Definition role_of_field (f : list Z) (uid : Z) : user_role :=
  if strcmp f (cstr "guest") =? 0 then ROLE_GUEST
  else if strcmp f (cstr "user") =? 0 then ROLE_USER
  else if strcmp f (cstr "admin") =? 0 then ROLE_ADMIN
  else if strcmp f (cstr "system") =? 0 then ROLE_SYSTEM
  else posix_uid_to_role uid.

Definition of_option {St A} (o : option A) : M St A :=
  match o with Some a => mret a | None => fault end.

(** [static void parse_passwd_line(const char *line)] *)
Definition parse_passwd_line (line : list Z) : M sec unit :=
  let tmp := take 255 line in
  match split_fields 7 tmp with
  | [f0; f1; f2; f3; f4; f5; f6] =>
    n ← gets g_nusers;
    if MAX_USERS <=? n then mret tt
    else
      name ← of_option (strncpy (ue_name zero_user) f0 31);
      hash ← of_option (strncpy (ue_passwd_hash zero_user) f1 64);
      uid ← atoi_simple f2;
      gid ← atoi_simple f3;
      home ← of_option (strncpy (ue_home zero_user) f5 127);
      shell ← of_option (strncpy (ue_shell zero_user) f6 63);
      let u := UserEntry name (u32 uid) (u32 gid) (role_of_field f4 (u32 uid)) hash home shell in
      modify (λ s, Sec (<[Z.to_nat n := u]> (g_users s)) (n + 1))
  | _ => mret tt
  end.

(** What the lookup of [/etc/passwd] finds: a node's type, its size, and the
    bytes that [vfs_read(n, 0, buf, len)] delivers. *)
Record passwd_node := PasswdNode {
  pn_is_file : bool;
  pn_size : Z;
  pn_read : Z → list Z;
}.

(** The loop over the lines of the buffer: each nonempty line is parsed.  A
    NUL inside a line ends the string that [parse_passwd_line] sees. *)
Fixpoint load_lines (fuel : nat) (rest : list Z) : M sec unit :=
  match fuel with
  | O => λ _, NoFuel
  | S fuel' =>
    match rest with
    | [] => mret tt
    | _ =>
      let (line, rest') := split_at 10 rest in
      (match cut0 line with
       | [] => mret tt
       | l => parse_passwd_line l
       end) ;;
      load_lines fuel' rest'
    end
  end.

(** [static void security_load_passwd(void)]; [mem] says whether the
    [kmalloc] of the buffer succeeds. *)
Definition security_load_passwd (node : option passwd_node) (mem : bool) : M sec unit :=
  modify (λ s, Sec (g_users s) 0) ;;
  match node with
  | Some n =>
    if pn_is_file n && mem then
      let buf := pn_read n (pn_size n) in
      load_lines (S (length buf)) buf
    else mret tt
  | None => mret tt
  end.

(** [void security_init(void)] *)
Definition security_init (node : option passwd_node) (mem : bool) : M sec unit :=
  security_load_passwd node mem ;;
  n ← gets g_nusers;
  if n =? 0 then
    for_list g_fallback_users (λ u,
      modify (λ s, Sec (<[Z.to_nat (g_nusers s) := u]> (g_users s)) (g_nusers s + 1)))
  else mret tt.

(** [void security_reload(void)] *)
Definition security_reload (node : option passwd_node) (mem : bool) : M sec unit :=
  security_load_passwd node mem.

(** ** SHA-256 *)

Definition SHA_K : list Z :=
  [0x428a_2f98; 0x7137_4491; 0xb5c0_fbcf; 0xe9b5_dba5; 0x3956_c25b; 0x59f1_11f1; 0x923f_82a4; 0xab1c_5ed5;
   0xd807_aa98; 0x1283_5b01; 0x2431_85be; 0x550c_7dc3; 0x72be_5d74; 0x80de_b1fe; 0x9bdc_06a7; 0xc19b_f174;
   0xe49b_69c1; 0xefbe_4786; 0x0fc1_9dc6; 0x240c_a1cc; 0x2de9_2c6f; 0x4a74_84aa; 0x5cb0_a9dc; 0x76f9_88da;
   0x983e_5152; 0xa831_c66d; 0xb003_27c8; 0xbf59_7fc7; 0xc6e0_0bf3; 0xd5a7_9147; 0x06ca_6351; 0x1429_2967;
   0x27b7_0a85; 0x2e1b_2138; 0x4d2c_6dfc; 0x5338_0d13; 0x650a_7354; 0x766a_0abb; 0x81c2_c92e; 0x9272_2c85;
   0xa2bf_e8a1; 0xa81a_664b; 0xc24b_8b70; 0xc76c_51a3; 0xd192_e819; 0xd699_0624; 0xf40e_3585; 0x106a_a070;
   0x19a4_c116; 0x1e37_6c08; 0x2748_774c; 0x34b0_bcb5; 0x391c_0cb3; 0x4ed8_aa4a; 0x5b9c_ca4f; 0x682e_6ff3;
   0x748f_82ee; 0x78a5_636f; 0x84c8_7814; 0x8cc7_0208; 0x90be_fffa; 0xa450_6ceb; 0xbef9_a3f7; 0xc671_78f2].

(** [sha_rotr] *)
Definition sha_rotr (x n : Z) : Z := Z.lor (Z.shiftr x n) (u32 (Z.shiftl x (32 - n))).

(** [padded]: the size of the padded message, in [size_t] arithmetic. *)
Definition sha_padded (len : Z) : Z :=
  let total := u64 (len + 1) in
  let padded := u64 (total + (64 - total mod 64) mod 64) in
  if (padded mod 64 =? 0) && (56 <? total mod 64) then u64 (padded + 64)
  else if total mod 64 =? 0 then u64 (total + 64)
  else padded.

(** [for (j = 0; j < 8; j++) buf[padded - 1 - j] = (uint8_t)(bitlen >> (8 * j))] *)
Fixpoint store_bitlen {St} (n : nat) (j : Z) (padded bitlen : Z) (buf : list Z) : M St (list Z) :=
  match n with
  | O => mret buf
  | S n' =>
    let i := u64 (padded - 1 - j) in
    if i <? Z.of_nat (length buf)
    then store_bitlen n' (j + 1) padded bitlen
           (<[Z.to_nat i := u8 (Z.shiftr bitlen (8 * j))]> buf)
    else fault
  end.

(** The buffer that is hashed: message, 0x80, zeros, length in bits.  [junk] is
    what [kmalloc] returned, [padded] bytes of any content. *)
Definition sha_buffer {St} (msg junk : list Z) : M St (list Z) :=
  let len := strlen msg in
  let padded := sha_padded len in
  let bitlen := u64 (len * 8) in
  b1 ← store_bytes junk 0 msg;
  b2 ← store_bytes b1 len [128];
  b3 ← store_bytes b2 (len + 1) (replicate (Z.to_nat (u64 (padded - 8) - (len + 1))) 0);
  store_bitlen 8 0 padded bitlen b3.

Definition nth0 (l : list Z) (i : nat) : Z := default 0 (l !! i).

(** The message schedule [w] of the block at [off]. *)
Definition sha_word (buf : list Z) (off : nat) : Z :=
  Z.lor (Z.lor (Z.lor (u32 (Z.shiftl (nth0 buf off) 24)) (Z.shiftl (nth0 buf (off + 1)) 16))
               (Z.shiftl (nth0 buf (off + 2)) 8)) (nth0 buf (off + 3)).

(** [w[t]] for [t = 16 .. 63], appended one at a time. *)
Fixpoint sha_extend (n : nat) (w : list Z) : list Z :=
  match n with
  | O => w
  | S n' =>
    let t := length w in
    let w2 := nth0 w (t - 2) in
    let w15 := nth0 w (t - 15) in
    let s1 := Z.lxor (Z.lxor (sha_rotr w2 17) (sha_rotr w2 19)) (Z.shiftr w2 10) in
    let s0 := Z.lxor (Z.lxor (sha_rotr w15 7) (sha_rotr w15 18)) (Z.shiftr w15 3) in
    sha_extend n' (w ++ [u32 (s1 + nth0 w (t - 7) + s0 + nth0 w (t - 16))])
  end.

Definition sha_schedule (buf : list Z) (off : nat) : list Z :=
  sha_extend 48 ((λ t, sha_word buf (off + t * 4)) <$> seq 0 16).

Record sha_vars := ShaVars { sa : Z; sb : Z; sc : Z; sd : Z; se : Z; sf : Z; sg : Z; shh : Z }.

(** One of the 64 rounds. *)
Definition sha_round (v : sha_vars) (kw : Z * Z) : sha_vars :=
  let '(ShaVars a b c d e f g hh) := v in
  let S1 := Z.lxor (Z.lxor (sha_rotr e 6) (sha_rotr e 11)) (sha_rotr e 25) in
  let ch := Z.lxor (Z.land e f) (Z.land (u32 (Z.lnot e)) g) in
  let t1 := u32 (hh + S1 + ch + kw.1 + kw.2) in
  let S0 := Z.lxor (Z.lxor (sha_rotr a 2) (sha_rotr a 13)) (sha_rotr a 22) in
  let maj := Z.lxor (Z.lxor (Z.land a b) (Z.land a c)) (Z.land b c) in
  let t2 := u32 (S0 + maj) in
  ShaVars (u32 (t1 + t2)) a b c (u32 (d + t1)) e f g.

(** The digest state after the block at [off]. *)
Definition sha_block (buf : list Z) (h : sha_vars) (off : nat) : sha_vars :=
  let '(ShaVars a b c d e f g hh) := foldl sha_round h (zip SHA_K (sha_schedule buf off)) in
  let '(ShaVars h0 h1 h2 h3 h4 h5 h6 h7) := h in
  ShaVars (u32 (h0 + a)) (u32 (h1 + b)) (u32 (h2 + c)) (u32 (h3 + d))
          (u32 (h4 + e)) (u32 (h5 + f)) (u32 (h6 + g)) (u32 (h7 + hh)).

Definition sha_init : sha_vars :=
  ShaVars 0x6a09_e667 0xbb67_ae85 0x3c6e_f372 0xa54f_f53a 0x510e_527f 0x9b05_688c 0x1f83_d9ab 0x5be0_cd19.

Definition sha_bytes (x : Z) : list Z :=
  [u8 (Z.shiftr x 24); u8 (Z.shiftr x 16); u8 (Z.shiftr x 8); u8 x].

Definition sha_out (h : sha_vars) : list Z :=
  let '(ShaVars a b c d e f g hh) := h in
  concat (sha_bytes <$> [a; b; c; d; e; f; g; hh]).

(** [static void sha256(const uint8_t *msg, size_t len, uint8_t out[32])];
    [heap] is the answer of [kmalloc]: the buffer's old content, or null. *)
Definition sha256 {St} (heap : Z → option (list Z)) (msg : list Z) : M St (list Z) :=
  let padded := sha_padded (strlen msg) in
  match heap (if padded =? 0 then 64 else padded) with
  | None => mret (replicate 32 0)
  | Some junk =>
    buf ← sha_buffer msg junk;
    mret (sha_out (foldl (sha_block buf) sha_init
                     ((λ k, k * 64)%nat <$> seq 0 (Z.to_nat ((padded + 63) / 64)))))
  end.

Definition hex_digit (n : Z) : Z := if n <? 10 then 48 + n else 87 + n.

(** The 64 hexadecimal digits of a digest. *)
Definition hex_of (d : list Z) : list Z :=
  concat ((λ b, [hex_digit (Z.shiftr b 4); hex_digit (Z.land b 15)]) <$> d).

(** [static void sha256_hex(const char *msg, char *hex)] *)
Definition sha256_hex {St} (heap : Z → option (list Z)) (msg : list Z) : M St (list Z) :=
  d ← sha256 heap msg;
  mret (hex_of d).

(** The stored hash is empty or the letter x: no password is set. *)
Definition no_hash (h : list Z) : bool :=
  match h with
  | [] => true
  | [c] => c =? 120
  | _ => false
  end.

(** [int security_authenticate(const char *username, const char *password)] *)
Definition security_authenticate (heap : Z → option (list Z)) (username password : list Z)
    : M sec Z :=
  u ← security_lookup_name username;
  match u with
  | None => mret (-1)
  | Some u =>
    let h := cut0 (ue_passwd_hash u) in
    if no_hash h then mret (i32 (ue_uid u))
    else
      hex ← sha256_hex heap password;
      if strcmp hex h =? 0 then mret (i32 (ue_uid u)) else mret (-1)
  end.

(** ** The padding of FIPS 180-4 *)

(** Eight bytes, most significant first. *)
Definition be64 (x : Z) : list Z := (λ j, u8 (Z.shiftr x (8 * (7 - Z.of_nat j)))) <$> seq 0 8.

(** Message, one bit, the fewest zeros that reach 448 modulo 512, bit length. *)
Definition fips_pad (msg : list Z) : list Z :=
  msg ++ [128] ++ replicate (Z.to_nat ((55 - strlen msg) mod 64)) 0 ++ be64 (8 * strlen msg).

(** The digest of a padded message, block by block. *)
Definition sha_digest (padded : list Z) : list Z :=
  sha_out (foldl (sha_block padded) sha_init ((λ k, k * 64)%nat <$> seq 0 (length padded / 64))).

Section sha_padding.
Context {St : Type}.
Implicit Types s : St.

Lemma sha_padded_spec len :
  0 ≤ len < 2 ^ 60 → sha_padded len = len + 9 + (55 - len) mod 64.
Proof.
  intros Hl. unfold sha_padded, u64.
  rewrite (Z.mod_small (len + 1)) by lia.
  rewrite (Z.mod_small (len + 1 + _)) by (pose proof (Z.mod_pos_bound (64 - (len + 1) mod 64) 64); lia).
  destruct (Z.ltb_spec 56 ((len + 1) mod 64)); rewrite ?andb_true_r, ?andb_false_r.
  - assert ((len + 1 + (64 - (len + 1) mod 64) mod 64) mod 64 = 0) as -> by (Z.to_euclidean_division_equations; lia).
    simpl (0 =? 0). cbn iota.
    rewrite Z.mod_small by (Z.to_euclidean_division_equations; lia).
    Z.to_euclidean_division_equations; lia.
  - destruct (Z.eqb_spec ((len + 1) mod 64) 0).
    + rewrite Z.mod_small by lia. Z.to_euclidean_division_equations; lia.
    + Z.to_euclidean_division_equations; lia.
Qed.

(** The length field, stored from its last byte to its first. *)
Lemma store_bitlen_spec pre b0 b1 b2 b3 b4 b5 b6 b7 x padded s :
  padded = Z.of_nat (length pre) + 8 → padded < 2 ^ 64 →
  store_bitlen 8 0 padded x (pre ++ [b0; b1; b2; b3; b4; b5; b6; b7]) s = Ok (pre ++ be64 x, s).
Proof.
  intros -> Hlt. unfold store_bitlen. rewrite !length_insert, length_app.
  simpl (length [_; _; _; _; _; _; _; _]).
  rewrite !u64_small by (unfold is_u64; lia). decide_cmps.
  unfold be64. simpl (_ <$> seq 0 8).
  repeat match goal with |- context [Z.to_nat (Z.of_nat ?n + 8 - 1 - ?k)] =>
    replace (Z.to_nat (Z.of_nat n + 8 - 1 - k)) with (n + Z.to_nat (7 - k))%nat by lia end.
  simpl (_ + 1). rewrite !insert_app_r. reflexivity.
Qed.

(** Whatever the buffer held, it ends up as the padded message. *)
Lemma sha_buffer_pads msg junk s :
  strlen msg < 2 ^ 60 →
  Z.of_nat (length junk) = sha_padded (strlen msg) →
  sha_buffer msg junk s = Ok (fips_pad msg, s).
Proof.
  unfold strlen. intros Hl Hj. rewrite sha_padded_spec in Hj by lia.
  set (len := Z.of_nat (length msg)) in *. set (k := (55 - len) mod 64) in *.
  assert (0 ≤ k) as Hk by (apply Z.mod_pos_bound; lia).
  assert (k < 64) as Hk' by (apply Z.mod_pos_bound; lia).
  assert (∃ o1 o2 o3 o4, junk = o1 ++ [o2] ++ o3 ++ o4 ∧
    length o1 = length msg ∧ length o3 = Z.to_nat k ∧ length o4 = 8%nat)
    as (o1 & o2 & o3 & o4 & -> & H1 & H3 & H4).
  { destruct (drop (length msg) junk) as [|o2 r] eqn:Hd.
    { apply (f_equal length) in Hd. rewrite length_drop in Hd. simpl in Hd. lia. }
    exists (take (length msg) junk), o2, (take (Z.to_nat k) r), (drop (Z.to_nat k) r).
    apply (f_equal length) in Hd as Hdl. rewrite length_drop in Hdl. simpl in Hdl.
    rewrite take_drop. cbn [app]. rewrite <-Hd, take_drop, !length_take, length_drop.
    split; [done|lia]. }
  unfold sha_buffer, mbind, M_bind.
  pose proof (store_bytes_spec [] o1 msg ([o2] ++ o3 ++ o4) s) as E1.
  cbn [app length] in E1. change (Z.of_nat 0) with 0 in E1. cbn [app]. rewrite E1 by done.
  pose proof (store_bytes_spec msg [o2] [128] (o3 ++ o4) s) as E2.
  cbn [app] in E2. unfold strlen. rewrite E2 by done.
  fold len. rewrite sha_padded_spec by lia. fold k.
  rewrite (u64_small (len + 9 + k - 8)) by (unfold is_u64; lia).
  replace (len + 9 + k - 8 - (len + 1)) with k by lia.
  pose proof (store_bytes_spec (msg ++ [128]) o3 (replicate (Z.to_nat k) 0) o4 s) as E3.
  rewrite <-!(assoc_L (++)), length_app in E3. cbn [app length] in E3.
  replace (Z.of_nat (length msg + 1)) with (len + 1) in E3 by lia.
  rewrite E3 by (by rewrite length_replicate).
  destruct o4 as [|p0 [|p1 [|p2 [|p3 [|p4 [|p5 [|p6 [|p7 [|]]]]]]]]]; try done.
  pose proof (store_bitlen_spec (msg ++ 128 :: replicate (Z.to_nat k) 0) p0 p1 p2 p3 p4 p5 p6 p7
    (u64 (len * 8)) (len + 9 + k) s) as E4.
  rewrite <-!(assoc_L (++)) in E4. cbn [app] in E4. rewrite E4.
  - unfold fips_pad, strlen. fold len. fold k.
    rewrite u64_small by (unfold is_u64; lia). by rewrite (Z.mul_comm len 8).
  - rewrite length_app. simpl. rewrite length_replicate. lia.
  - lia.
Qed.

Lemma fips_pad_length msg : Z.of_nat (length (fips_pad msg)) = strlen msg + 9 + (55 - strlen msg) mod 64.
Proof.
  unfold fips_pad. rewrite !length_app, length_replicate. simpl (length (be64 _)).
  pose proof (Z.mod_pos_bound (55 - strlen msg) 64). simpl length. unfold strlen in *. lia.
Qed.

Lemma sha256_value heap msg s :
  strlen msg < 2 ^ 60 →
  (∀ n junk, 0 ≤ n → heap n = Some junk → Z.of_nat (length junk) = n) →
  sha256 heap msg s =
    Ok (match heap (Z.of_nat (length (fips_pad msg))) with
        | Some _ => sha_digest (fips_pad msg)
        | None => replicate 32 0
        end, s).
Proof.
  intros Hl Hheap. unfold sha256.
  assert (sha_padded (strlen msg) = Z.of_nat (length (fips_pad msg))) as Hp.
  { rewrite fips_pad_length, sha_padded_spec; unfold strlen in *; lia. }
  assert (0 < Z.of_nat (length (fips_pad msg))) as Hpos.
  { rewrite fips_pad_length. pose proof (Z.mod_pos_bound (55 - strlen msg) 64).
    unfold strlen in *. lia. }
  rewrite Hp. decide_cmps.
  destruct (heap _) as [junk|] eqn:Hh; [|done].
  apply Hheap in Hh; [|lia]. unfold mbind, M_bind. rewrite sha_buffer_pads by lia.
  unfold sha_digest, mret, M_ret. do 5 f_equal.
  assert (Z.of_nat (length (fips_pad msg)) mod 64 = 0) as Hm.
  { rewrite fips_pad_length. Z.to_euclidean_division_equations; lia. }
  f_equal. apply Nat2Z.inj. rewrite Nat2Z.inj_div. rewrite Z2Nat.id by (apply Z.div_pos; lia).
  Z.to_euclidean_division_equations; lia.
Qed.
End sha_padding.

(** ** The user table *)

(** The entries in use. *)
Definition live_users (s : sec) : list user_entry := take (Z.to_nat (g_nusers s)) (g_users s).

Definition sec_wf (s : sec) : Prop :=
  Z.of_nat (length (g_users s)) = MAX_USERS ∧ 0 ≤ g_nusers s ≤ MAX_USERS.

#[global] Instance sec_wf_dec s : Decision (sec_wf s).
Proof. unfold sec_wf. apply _. Defined.

Lemma lookup_user_scan p k pre suf s :
  g_users s = pre ++ suf → (k ≤ length suf)%nat →
  for_ret k (Z.of_nat (length pre)) (user_if p) s = Ok (List.find p (take k suf), s).
Proof.
  revert pre suf. induction k as [|k IH]; intros pre [|u suf] Hs Hk; simpl in Hk; try done; try lia.
  cbn [for_ret take List.find].
  assert (user_if p (Z.of_nat (length pre)) s = Ok (if p u then Some u else None, s)) as E.
  { apply wp_exact. unfold user_if. wp_steps. eapply wp_load; [lia| |by wp_steps].
    rewrite Nat2Z.id, Hs. by apply list_lookup_middle. }
  unfold mbind, M_bind. rewrite E. destruct (p u); [done|].
  replace (Z.of_nat (length pre) + 1) with (Z.of_nat (length (pre ++ [u])))
    by (rewrite length_app; simpl; lia).
  apply IH; [|lia]. by rewrite <-(assoc_L (++)).
Qed.

(** A lookup returns the first matching entry in use and changes nothing. *)
Lemma lookup_user_find p s : sec_wf s → lookup_user p s = Ok (List.find p (live_users s), s).
Proof.
  intros [Hlen Hn]. unfold MAX_USERS in *.
  apply (lookup_user_scan p (Z.to_nat (g_nusers s)) [] (g_users s) s); [done|lia].
Qed.

Lemma wp_lookup_user p s (Q : option user_entry → sec → Prop) :
  sec_wf s → Q (List.find p (live_users s)) s → wp (lookup_user p) Q s.
Proof. intros Hwf HQ. apply wp_ok. eauto using lookup_user_find. Qed.

Lemma find_ext {A} (p q : A → bool) l : (∀ x, x ∈ l → p x = q x) → List.find p l = List.find q l.
Proof.
  induction l as [|x l IH]; intros Hpq; simpl; [done|].
  rewrite Hpq by by left. destruct (q x); [done|]. apply IH. intros y Hy. apply Hpq. by right.
Qed.

Definition name_is (name : list Z) (u : user_entry) : bool := bool_decide (cut0 (ue_name u) = name).

Lemma lookup_name_find name s :
  sec_wf s → nul_free name →
  security_lookup_name name s = Ok (List.find (name_is name) (live_users s), s).
Proof.
  intros Hwf Hn. unfold security_lookup_name. rewrite lookup_user_find by done.
  do 2 f_equal. apply find_ext. intros u _. by rewrite strcmp_eqb by eauto using cut0_nul_free.
Qed.

(** The uid is taken by an entry in use. *)
Definition uid_used (s : sec) (u : Z) : Prop := ∃ e, e ∈ live_users s ∧ ue_uid e = u.

Lemma find_uid_none s u :
  List.find (λ e, ue_uid e =? u) (live_users s) = None ↔ ¬ uid_used s u.
Proof.
  split.
  - intros Hf (e & He & Hu). apply list_elem_of_In in He.
    apply (List.find_none _ _ Hf) in He. lia.
  - intros Hn. destruct (List.find _ _) as [e|] eqn:Hf; [|done].
    apply List.find_some in Hf as [He Hu]. contradict Hn. exists e.
    rewrite list_elem_of_In. split; [done|lia].
Qed.

(** The scan of a role's range. *)
Lemma wp_next_uid r s lo hi :
  sec_wf s → role_uid_range r = (lo, hi) → lo ≤ hi →
  wp (posix_role_next_uid r) (λ u s', s' = s ∧
    ((lo ≤ u ≤ hi ∧ ¬ uid_used s u ∧ ∀ v, lo ≤ v < u → uid_used s v) ∨
     (u = 2 ^ 32 - 1 ∧ ∀ v, lo ≤ v ≤ hi → uid_used s v))) s.
Proof.
  intros Hwf Hr Hle. unfold posix_role_next_uid. rewrite Hr. apply wp_bind.
  apply (wp_for_ret (λ u s', s' = s ∧ ∀ v, lo ≤ v < u → uid_used s v)).
  - split; [done|]. intros v Hv. lia.
  - intros u s' Hu [-> Hprev]. wp_step. apply wp_lookup_user; [done|].
    apply wp_ret. destruct (List.find _ _) as [e|] eqn:Hf.
    + split; [done|]. intros v Hv. destruct (decide (v = u)) as [->|]; [|apply Hprev; lia].
      apply List.find_some in Hf as [He Heq]. exists e. rewrite list_elem_of_In.
      split; [done|lia].
    + apply wp_ret. split; [done|]. left. rewrite find_uid_none in Hf. split; [lia|done].
  - intros s' [-> Hall]. apply wp_ret. split; [done|]. right. split; [done|].
    intros v Hv. apply Hall. lia.
Qed.

(** At most 64 uids are taken, so a longer range has a free one. *)
Lemma uids_pigeonhole s lo hi :
  sec_wf s → 0 ≤ lo → MAX_USERS < hi - lo + 1 → ¬ ∀ v, lo ≤ v ≤ hi → uid_used s v.
Proof.
  intros [Hlen Hn] Hlo Hhi Hall. unfold MAX_USERS in *.
  set (L := (λ k, lo + Z.of_nat k) <$> seq 0 65).
  assert (L ⊆ ue_uid <$> live_users s) as Hsub.
  { intros v (k & -> & Hk)%list_elem_of_fmap. apply elem_of_seq in Hk.
    destruct (Hall (lo + Z.of_nat k)) as (e & He & Hu); [lia|].
    rewrite <-Hu. by apply list_elem_of_fmap_2. }
  assert (L ⊆+ ue_uid <$> live_users s) as Hm%submseteq_length.
  { apply NoDup_submseteq; [|done]. apply NoDup_fmap_2; [|apply NoDup_seq]. intros i j. lia. }
  unfold L, live_users in Hm. rewrite !length_fmap, length_seq, length_take in Hm. lia.
Qed.

(** ** Printing /etc/passwd *)

(** A user as an administrator describes it. *)
Record account := Account {
  ac_name : list Z;
  ac_hash : list Z;
  ac_uid : Z;
  ac_gid : Z;
  ac_role : user_role;
  ac_home : list Z;
  ac_shell : list Z;
}.

(** Decimal digits, most significant first. *)
Fixpoint dec (fuel : nat) (n : Z) : list Z :=
  match fuel with
  | O => [48 + n]
  | S fuel' => if n <? 10 then [48 + n] else dec fuel' (n / 10) ++ [48 + n mod 10]
  end.

Definition role_word (r : user_role) : list Z :=
  match r with
  | ROLE_GUEST => cstr "guest"
  | ROLE_USER => cstr "user"
  | ROLE_ADMIN => cstr "admin"
  | ROLE_SYSTEM => cstr "system"
  end.

(** [username:password_hash:uid:gid:role:home:shell] *)
Definition passwd_line (a : account) : list Z :=
  ac_name a ++ 58 :: ac_hash a ++ 58 :: dec 9 (ac_uid a) ++ 58 :: dec 9 (ac_gid a) ++ 58 ::
  role_word (ac_role a) ++ 58 :: ac_home a ++ 58 :: ac_shell a.

Definition passwd_file (l : list account) : list Z := concat ((λ a, passwd_line a ++ [10]) <$> l).

(** A string that fits a field of [n] bytes and holds no separator. *)
Definition field_ok (n : nat) (f : list Z) : Prop :=
  (length f ≤ n)%nat ∧ Forall (λ c, c ≠ 0 ∧ c ≠ 58 ∧ c ≠ 10) f.

#[global] Instance field_ok_dec n f : Decision (field_ok n f).
Proof. unfold field_ok. apply _. Defined.

Record account_ok (a : account) : Prop := {
  ok_name : field_ok 31 (ac_name a);
  ok_hash : field_ok 64 (ac_hash a);
  ok_home : field_ok 127 (ac_home a);
  ok_shell : field_ok 63 (ac_shell a);
  ok_shell_set : ac_shell a ≠ [];
  ok_uid : 0 ≤ ac_uid a < 2 ^ 31;
  ok_gid : 0 ≤ ac_gid a < 2 ^ 31;
  ok_line : (length (passwd_line a) ≤ 255)%nat;
}.

Definition pad_array (m : nat) (s : list Z) : list Z := s ++ replicate (m - length s) 0.

(** The table entry of an account. *)
Definition entry_of (a : account) : user_entry :=
  UserEntry (pad_array 32 (ac_name a)) (ac_uid a) (ac_gid a) (ac_role a)
            (pad_array 65 (ac_hash a)) (pad_array 128 (ac_home a)) (pad_array 64 (ac_shell a)).

Lemma atoi_digits_app {St} v a b w (s : St) :
  Forall (λ c, 48 ≤ c ≤ 57) a → atoi_digits v a s = Ok (w, s) →
  atoi_digits v (a ++ b) s = atoi_digits w b s.
Proof.
  revert v. induction a as [|c a IH]; intros v Ha Hv; simpl in *.
  - by injection Hv as ->.
  - inversion Ha; subst. revert Hv. decide_cmps. cbn [andb].
    destruct (_ <? 2 ^ 31); [|done]. by apply IH.
Qed.

Lemma dec_digits fuel n : 0 ≤ n < 10 ^ (Z.of_nat fuel + 1) → Forall (λ c, 48 ≤ c ≤ 57) (dec fuel n).
Proof.
  revert n. induction fuel as [|fuel IH]; intros n Hn; simpl.
  - constructor; [|constructor]. change (10 ^ (Z.of_nat 0 + 1)) with 10 in Hn. lia.
  - destruct (Z.ltb_spec n 10); [constructor; [lia|constructor]|].
    rewrite Nat2Z.inj_succ, Z.add_succ_l, Z.pow_succ_r in Hn by lia.
    apply Forall_app. split; [apply IH; Z.to_euclidean_division_equations; lia|].
    constructor; [|constructor]. Z.to_euclidean_division_equations; lia.
Qed.

(** Reading back a printed number. *)
Lemma atoi_dec {St} fuel n (s : St) :
  0 ≤ n < 10 ^ (Z.of_nat fuel + 1) → n < 2 ^ 31 → atoi_digits 0 (dec fuel n) s = Ok (n, s).
Proof.
  assert (∀ v d, v = d → d < 2 ^ 31 → 0 ≤ d < 10 → atoi_digits 0 [48 + d] s = Ok (v, s)) as Hone.
  { intros v d -> Hd1 Hd2. simpl. decide_cmps. cbn [andb].
    unfold mret, M_ret. do 2 f_equal. lia. }
  revert n. induction fuel as [|fuel IH]; intros n Hn Hlt; simpl.
  - apply Hone; [done|lia|]. change (10 ^ (Z.of_nat 0 + 1)) with 10 in Hn. lia.
  - destruct (Z.ltb_spec n 10); [apply Hone; [done|lia|lia]|].
    rewrite Nat2Z.inj_succ, Z.add_succ_l, Z.pow_succ_r in Hn by lia.
    erewrite atoi_digits_app;
      [|apply dec_digits; Z.to_euclidean_division_equations; lia
       |apply IH; Z.to_euclidean_division_equations; lia].
    cbn [atoi_digits].
    pose proof (Z.mod_pos_bound n 10 ltac:(lia)) as Hmod. pose proof (Z.div_mod n 10 ltac:(lia)).
    replace (n / 10 * 10 + (48 + n mod 10 - 48)) with n by lia.
    decide_cmps. done.
Qed.

Lemma dec_head fuel n : 0 ≤ n < 10 ^ (Z.of_nat fuel + 1) → ∃ c r, dec fuel n = c :: r ∧ 48 ≤ c ≤ 57.
Proof.
  intros Hn. pose proof (dec_digits fuel n Hn) as Hd.
  destruct (dec fuel n) as [|c r] eqn:E; [|inversion Hd; eauto].
  exfalso. revert E. destruct fuel; simpl; [done|]. destruct (n <? 10); [done|].
  by destruct (dec fuel (n / 10)).
Qed.

Lemma atoi_simple_dec {St} n (s : St) : 0 ≤ n < 2 ^ 31 → atoi_simple (dec 9 n) s = Ok (n, s).
Proof.
  intros Hn. assert (0 ≤ n < 10 ^ (Z.of_nat 9 + 1)) as Hn'.
  { change (10 ^ (Z.of_nat 9 + 1)) with 10000000000. lia. }
  destruct (dec_head 9 n Hn') as (c & r & E & Hc). unfold atoi_simple.
  pose proof (atoi_dec 9 n s Hn' ltac:(lia)) as Ha. rewrite E in *.
  decide_cmps. done.
Qed.

Lemma split_at_found sep f r : Forall (λ c, c ≠ sep) f → split_at sep (f ++ sep :: r) = (f, r).
Proof.
  induction 1 as [|c f Hc Hf IH]; simpl; decide_cmps; [done|]. by rewrite IH.
Qed.

Lemma split_at_end sep f : Forall (λ c, c ≠ sep) f → split_at sep f = (f, []).
Proof. induction 1 as [|c f Hc Hf IH]; simpl; decide_cmps; [done|]. by rewrite IH. Qed.

Lemma split_fields_cons n f r :
  Forall (λ c, c ≠ 58) f → split_fields (S n) (f ++ 58 :: r) = f :: split_fields n r.
Proof.
  intros Hf. pose proof (split_at_found 58 f r Hf) as E.
  destruct (f ++ 58 :: r) as [|c l] eqn:El; [by destruct f|].
  cbn [split_fields]. by rewrite E.
Qed.

Lemma split_fields_last n f :
  f ≠ [] → Forall (λ c, c ≠ 58) f → split_fields (S n) f = [f].
Proof.
  intros Hne Hf. destruct f as [|c f]; [done|]. cbn [split_fields].
  rewrite split_at_end by done. by destruct n.
Qed.

Lemma role_word_chars r : Forall (λ c, c ≠ 0 ∧ c ≠ 58 ∧ c ≠ 10) (role_word r).
Proof. destruct r; repeat constructor; done. Qed.

Lemma role_word_parses r uid : role_of_field (role_word r) uid = r.
Proof. by destruct r. Qed.

Lemma field_ok_no n f sep : field_ok n f → sep = 0 ∨ sep = 58 ∨ sep = 10 → Forall (λ c, c ≠ sep) f.
Proof.
  intros [_ Hf] Hs. eapply Forall_impl; [exact Hf|]. simpl. intros c (? & ? & ?).
  naive_solver.
Qed.

Lemma digits_chars l : Forall (λ c, 48 ≤ c ≤ 57) l → Forall (λ c, c ≠ 0 ∧ c ≠ 58 ∧ c ≠ 10) l.
Proof. intros Hl. eapply Forall_impl; [exact Hl|]. simpl. intros c Hc. lia. Qed.

Lemma dec9_chars n : 0 ≤ n < 2 ^ 31 → Forall (λ c, c ≠ 0 ∧ c ≠ 58 ∧ c ≠ 10) (dec 9 n).
Proof.
  intros Hn. apply digits_chars, dec_digits. change (10 ^ (Z.of_nat 9 + 1)) with 10000000000. lia.
Qed.

Lemma chars_no sep l :
  Forall (λ c, c ≠ 0 ∧ c ≠ 58 ∧ c ≠ 10) l → sep = 0 ∨ sep = 58 ∨ sep = 10 → Forall (λ c, c ≠ sep) l.
Proof. intros Hl Hs. apply (field_ok_no (length l)); [by split|done]. Qed.

(** The line of an account is cut back into its fields. *)
Lemma split_passwd_line a :
  account_ok a →
  split_fields 7 (passwd_line a) =
    [ac_name a; ac_hash a; dec 9 (ac_uid a); dec 9 (ac_gid a); role_word (ac_role a);
     ac_home a; ac_shell a].
Proof.
  intros Ha. unfold passwd_line. destruct Ha.
  rewrite !split_fields_cons by first [by eauto using field_ok_no
    | by eauto using chars_no, dec9_chars, role_word_chars].
  rewrite split_fields_last by eauto using field_ok_no. done.
Qed.

Lemma passwd_line_no a sep : account_ok a → sep = 0 ∨ sep = 10 → Forall (λ c, c ≠ sep) (passwd_line a).
Proof.
  intros [] Hs. unfold passwd_line.
  assert (58 ≠ sep) by lia. assert (sep = 0 ∨ sep = 58 ∨ sep = 10) by tauto.
  repeat (apply Forall_app; split; [by eauto using field_ok_no, chars_no, dec9_chars, role_word_chars|];
          apply Forall_cons; split; [done|]).
  eauto using field_ok_no.
Qed.

Lemma strncpy_field {St} m f (s : St) :
  field_ok m f → of_option (strncpy (replicate (S m) 0) f m) s = Ok (pad_array (S m) f, s).
Proof.
  intros [Hlen _]. rewrite strncpy_fresh by lia. unfold pad_array.
  rewrite !(take_ge f m) by done. done.
Qed.

Definition add_user (s : sec) (a : account) : sec :=
  if g_nusers s <? MAX_USERS
  then Sec (<[Z.to_nat (g_nusers s) := entry_of a]> (g_users s)) (g_nusers s + 1)
  else s.

(** A printed account is parsed into its entry while there is room. *)
Lemma parse_passwd_account a s :
  account_ok a → parse_passwd_line (passwd_line a) s = Ok (tt, add_user s a).
Proof.
  intros Ha. unfold parse_passwd_line, add_user.
  rewrite (take_ge _ 255) by apply Ha. rewrite split_passwd_line by done.
  unfold mbind, M_bind, gets. destruct (Z.ltb_spec (g_nusers s) MAX_USERS); decide_cmps; [|done].
  destruct Ha. cbn [ue_name ue_passwd_hash ue_home ue_shell zero_user].
  rewrite !strncpy_field, !atoi_simple_dec by done.
  rewrite role_word_parses, !u32_small by (unfold is_u32; lia). rewrite !strncpy_field by done. done.
Qed.

Lemma load_lines_accounts l fuel s :
  Forall account_ok l → (length l < fuel)%nat →
  load_lines fuel (passwd_file l) s = Ok (tt, foldl add_user s l).
Proof.
  revert fuel s. induction l as [|a l IH]; intros [|fuel] s Hl Hf; simpl in Hf; try lia; [done|].
  inversion Hl as [|? ? Ha Hl']; subst. unfold passwd_file. cbn [fmap list_fmap concat].
  fold (passwd_file l). rewrite <-(assoc_L (++)). cbn [app].
  pose proof (split_at_found 10 _ (passwd_file l) (passwd_line_no a 10 Ha ltac:(lia))) as E.
  destruct (passwd_line a ++ 10 :: passwd_file l) as [|c r] eqn:El.
  { by destruct (passwd_line a). }
  cbn [load_lines]. rewrite E. rewrite cut0_id by (apply passwd_line_no; [done|lia]).
  pose proof (parse_passwd_account a s Ha) as Hp.
  destruct (passwd_line a) as [|c' r'] eqn:Ep.
  { exfalso. revert Ep. unfold passwd_line. by destruct (ac_name a). }
  unfold mbind, M_bind. rewrite Hp. apply IH; [done|lia].
Qed.

Lemma take_insert_snoc {A} (l : list A) n x :
  (n < length l)%nat → take (S n) (<[n := x]> l) = take n l ++ [x].
Proof.
  intros Hn. rewrite (take_S_r _ _ x) by (by apply list_lookup_insert_eq).
  by rewrite take_insert_ge by lia.
Qed.

(** The accounts that fit are appended in order. *)
Lemma add_users_live l s :
  sec_wf s →
  sec_wf (foldl add_user s l) ∧
  live_users (foldl add_user s l) =
    live_users s ++ (entry_of <$> take (Z.to_nat (MAX_USERS - g_nusers s)) l).
Proof.
  revert s. induction l as [|a l IH]; intros s Hwf; simpl.
  - split; [done|]. by rewrite take_nil, app_nil_r.
  - destruct Hwf as [Hlen Hn]. unfold add_user at 2 4. destruct (Z.ltb_spec (g_nusers s) MAX_USERS).
    + set (s1 := Sec _ _). destruct (IH s1) as [Hwf1 Hl1].
      { split; [|simpl; lia]. cbn [g_users s1]. by rewrite length_insert. }
      split; [done|]. rewrite Hl1. unfold live_users. cbn [g_users g_nusers s1].
      replace (Z.to_nat (g_nusers s + 1)) with (S (Z.to_nat (g_nusers s))) by lia.
      rewrite take_insert_snoc by lia. rewrite <-(assoc_L (++)). f_equal.
      replace (Z.to_nat (MAX_USERS - g_nusers s)) with (S (Z.to_nat (MAX_USERS - (g_nusers s + 1)))) by lia.
      done.
    + destruct (IH s) as [Hwf1 Hl1]; [by split|]. split; [done|]. rewrite Hl1.
      by replace (Z.to_nat (MAX_USERS - g_nusers s)) with O by lia.
Qed.

Lemma passwd_file_length l : (length l ≤ length (passwd_file l))%nat.
Proof.
  induction l as [|a l IH]; [done|]. unfold passwd_file. cbn [fmap list_fmap concat].
  fold (passwd_file l). rewrite !length_app. simpl. lia.
Qed.

(** The users in use after a load are the accounts of the file. *)
Lemma load_passwd_accounts l s node mem :
  sec_wf s → Forall account_ok l →
  pn_is_file node = true → pn_read node (pn_size node) = passwd_file l →
  ∃ s', security_load_passwd (Some node) mem s = Ok (tt, s') ∧ sec_wf s' ∧
        live_users s' = entry_of <$> if mem : bool then take 64 l else [].
Proof.
  intros [Hlen Hn] Hl Hf Hr. destruct mem.
  2:{ exists (Sec (g_users s) 0). unfold security_load_passwd. rewrite Hf. by split_and!. }
  exists (foldl add_user (Sec (g_users s) 0) l).
  destruct (add_users_live l (Sec (g_users s) 0)) as [Hwf Hlive].
  { by split. }
  split_and!; [|done|done].
  unfold security_load_passwd. rewrite Hf, Hr. unfold mbind, M_bind, modify. cbn [andb].
  apply load_lines_accounts; [done|]. pose proof (passwd_file_length l). lia.
Qed.

(** ** Logging in *)

Lemma sha_out_u8 h : Forall is_u8 (sha_out h).
Proof.
  destruct h. unfold sha_out. apply Forall_concat, Forall_fmap, Forall_true. intros x.
  repeat constructor; apply u8_range.
Qed.

Lemma hex_of_nul_free d : Forall is_u8 d → nul_free (hex_of d).
Proof.
  induction 1 as [|b d Hb Hd IH]; [constructor|]. unfold hex_of, is_u8 in *. cbn [fmap list_fmap concat].
  apply nul_free_app. split; [|done]. unfold hex_digit.
  assert (0 ≤ Z.shiftr b 4) by (apply Z.shiftr_nonneg; lia).
  assert (0 ≤ Z.land b 15) by (apply Z.land_nonneg; lia).
  repeat constructor; case_match; lia.
Qed.

Lemma cut0_pad m f : field_ok m f → cut0 (pad_array (S m) f) = f.
Proof.
  intros [Hlen Hf]. unfold pad_array.
  assert (∃ k, (S m - length f)%nat = S k) as [k ->] by (exists (m - length f)%nat; lia).
  apply cut0_app. eapply Forall_impl; [exact Hf|]. naive_solver.
Qed.

(** An allocation fails or gives as many bytes as asked for. *)
Definition heap_exact (heap : Z → option (list Z)) : Prop :=
  ∀ n junk, 0 ≤ n → heap n = Some junk → Z.of_nat (length junk) = n.

(** The digest the login compares with. *)
Definition digest_of (heap : Z → option (list Z)) (pw : list Z) : list Z :=
  match heap (Z.of_nat (length (fips_pad pw))) with
  | Some _ => sha_digest (fips_pad pw)
  | None => replicate 32 0
  end.

Lemma digest_u8 heap pw : Forall is_u8 (digest_of heap pw).
Proof. unfold digest_of. destruct (heap _); [apply sha_out_u8|]. apply Forall_replicate. unfold is_u8. lia. Qed.

Definition login_result (digest : list Z) (uid : Z) (hash : list Z) : Z :=
  if bool_decide (hash = [] ∨ hash = [120] ∨ hash = hex_of digest) then uid else -1.

Lemma no_hash_spec h : no_hash h = bool_decide (h = [] ∨ h = [120]).
Proof.
  symmetry. destruct h as [|c [|c' h]]; simpl; [done| |].
  - destruct (Z.eqb_spec c 120) as [->|]; [by apply bool_decide_eq_true; right|].
    apply bool_decide_eq_false. intros [|]; congruence.
  - apply bool_decide_eq_false. intros [|]; congruence.
Qed.

Lemma authenticate_found heap name pw s u :
  sec_wf s → nul_free name → strlen pw < 2 ^ 60 →
  heap_exact heap →
  List.find (name_is name) (live_users s) = Some u → 0 ≤ ue_uid u < 2 ^ 31 →
  security_authenticate heap name pw s =
    Ok (login_result (digest_of heap pw) (ue_uid u) (cut0 (ue_passwd_hash u)), s).
Proof.
  intros Hwf Hn Hpw Hheap Hu Huid. unfold security_authenticate, mbind, M_bind.
  rewrite lookup_name_find, Hu by done.
  assert (sha256_hex heap pw s = Ok (hex_of (digest_of heap pw), s)) as Hhex.
  { unfold sha256_hex, mbind, M_bind. by rewrite sha256_value. }
  assert (i32 (ue_uid u) = ue_uid u) as ->.
  { unfold i32. rewrite u32_small by (unfold is_u32; lia). by decide_cmps. }
  unfold login_result. rewrite no_hash_spec.
  pose proof (cut0_nul_free (ue_passwd_hash u)) as Hh.
  destruct (bool_decide_reflect (cut0 (ue_passwd_hash u) = [] ∨ cut0 (ue_passwd_hash u) = [120])) as [H|H].
  - rewrite bool_decide_eq_true_2 by tauto. done.
  - cbn iota. unfold mbind, M_bind. rewrite Hhex.
    rewrite strcmp_eqb by eauto using hex_of_nul_free, digest_u8.
    destruct (bool_decide_reflect (hex_of (digest_of heap pw) = cut0 (ue_passwd_hash u))) as [E|E].
    + by rewrite bool_decide_eq_true_2 by auto.
    + by rewrite bool_decide_eq_false_2 by intuition congruence.
Qed.

Lemma find_unique {A} (p : A → bool) l x :
  x ∈ l → p x = true → (∀ y, y ∈ l → p y = true → y = x) → List.find p l = Some x.
Proof.
  intros Hx Hp Hu. destruct (List.find p l) as [y|] eqn:Hf.
  - apply List.find_some in Hf as [Hy Hpy]. f_equal. apply Hu; [by apply list_elem_of_In|done].
  - apply list_elem_of_In in Hx. rewrite (List.find_none _ _ Hf _ Hx) in Hp. done.
Qed.

(** The entry a name finds: that of the first account with the name. *)
Lemma find_account l nm :
  Forall account_ok l →
  List.find (name_is nm) (entry_of <$> l) = entry_of <$> List.find (λ a, bool_decide (ac_name a = nm)) l.
Proof.
  induction 1 as [|a l Ha _ IH]; [done|]. cbn [fmap list_fmap List.find].
  assert (name_is nm (entry_of a) = bool_decide (ac_name a = nm)) as ->.
  { unfold name_is. cbn [entry_of ue_name]. rewrite cut0_pad by apply Ha. done. }
  by destruct (bool_decide _).
Qed.

(** C27: loading /etc/passwd and logging in.  From a file that lists well-formed
    accounts, one per line, [security_load_passwd] builds exactly the table of
    the first 64 of them, in order (none when there is no memory for the file).
    [security_authenticate] then answers -1 for a name no account of the table
    has; for the first account with the name it answers the uid if the stored
    hash is empty or the letter x, which is how the code says that no password
    is set, so that any password will do; otherwise it answers the uid exactly
    if the stored hash is the password's SHA-256 digest in hexadecimal, and -1
    if not.  When the hash cannot get memory the digest is 32 zeros. *)
Theorem passwd_login l s node mem heap nm pw :
  sec_wf s → Forall account_ok l → pn_is_file node = true → pn_read node (pn_size node) = passwd_file l →
  heap_exact heap → nul_free nm → strlen pw < 2 ^ 60 →
  let live := if mem : bool then take 64 l else [] in
  ∃ s', security_load_passwd (Some node) mem s = Ok (tt, s') ∧
        live_users s' = entry_of <$> live ∧
        security_authenticate heap nm pw s' =
          Ok (match List.find (λ a, bool_decide (ac_name a = nm)) live with
              | Some a => login_result (digest_of heap pw) (ac_uid a) (ac_hash a)
              | None => -1
              end, s').
Proof.
  intros Hwf Hl Hf Hr Hheap Hnm Hpw live.
  destruct (load_passwd_accounts l s node mem) as (s' & Hload & Hwf' & Hlive); [done..|]. fold live in Hlive.
  exists s'. split_and!; [done|done|]. assert (Forall account_ok live) as Hok.
  { unfold live. destruct mem; [by apply Forall_take|constructor]. }
  pose proof (find_account live nm Hok) as Hfind. rewrite <-Hlive in Hfind.
  destruct (List.find _ live) as [a|] eqn:Ha.
  - apply List.find_some in Ha as [Ha _]. apply list_elem_of_In in Ha. rewrite Forall_forall in Hok. specialize (Hok a Ha).
    rewrite (authenticate_found heap nm pw s' (entry_of a)); [|done..|apply Hok].
    assert (cut0 (ue_passwd_hash (entry_of a)) = ac_hash a) as -> by (by apply cut0_pad, Hok). done.
  - unfold security_authenticate, mbind, M_bind. by rewrite lookup_name_find, Hfind.
Qed.

(** The buffer [sha256] hashes is the FIPS 180-4 padding of the message
    (message, a one bit, the fewest zero bits that reach 448 modulo 512, the
    64-bit length), whatever the allocated memory held before, and the digest
    is that of its 512-bit blocks; with no memory the digest is 32 zeros. *)
Theorem sha256_pads {St} heap msg (s : St) :
  strlen msg < 2 ^ 60 →
  (∀ n junk, 0 ≤ n → heap n = Some junk → Z.of_nat (length junk) = n) →
  sha256 heap msg s =
    Ok (match heap (Z.of_nat (length (fips_pad msg))) with
        | Some _ => sha_digest (fips_pad msg)
        | None => replicate 32 0
        end, s).
Proof. apply sha256_value. Qed.

(** [posix_role_next_uid] returns the least uid of the role's range that no
    user has, which maps back to the role (uid 0 of SYSTEM maps to ADMIN), and
    fails only when all are taken; for users, whose range is longer than the
    table, it never fails. *)
Theorem posix_next_uid_fresh r s :
  sec_wf s →
  let (lo, hi) := role_uid_range r in
  ∃ u, posix_role_next_uid r s = Ok (u, s) ∧
    ((lo ≤ u ≤ hi ∧ ¬ uid_used s u ∧ (∀ v, lo ≤ v < u → uid_used s v) ∧
      posix_uid_to_role u = (if decide (r = ROLE_SYSTEM) then ROLE_ADMIN else r)) ∨
     (u = 2 ^ 32 - 1 ∧ (∀ v, lo ≤ v ≤ hi → uid_used s v) ∧ r ≠ ROLE_USER ∧ r ≠ ROLE_ADMIN)).
Proof.
  intros Hwf. destruct (role_uid_range r) as [lo hi] eqn:Hr.
  assert (0 ≤ lo ≤ hi) as Hle by (destruct r; injection Hr as <- <-; lia).
  pose proof (wp_next_uid r s lo hi Hwf Hr ltac:(lia)) as (u & s' & Hrun & -> & Hu)%wp_ok.
  exists u. split; [done|]. destruct Hu as [(Hin & Hfree & Hmin)|(-> & Hall)].
  - left. split_and!; [lia|lia|done|done|]. unfold posix_uid_to_role.
    destruct r; injection Hr as <- <-; decide_cmps; done.
  - right. split_and!; [done|done| |]; intros ->; injection Hr as <- <-;
      eapply uids_pigeonhole in Hall; try done; unfold MAX_USERS; lia.
Qed.

(** ** Concrete instances *)

Definition junk_heap (n : Z) : option (list Z) := Some (replicate (Z.to_nat n) 170).

Lemma junk_heap_exact : heap_exact junk_heap.
Proof. intros n junk Hn [= <-]. rewrite length_replicate. lia. Qed.

(** The digest of FIPS 180-4, appendix B.1. *)
Example sha_abc :
  sha256_hex junk_heap (cstr "abc") tt =
  Ok (cstr "ba7816bf8f01cfea414140de5dae2223b00361a396177a9cb410ff61f20015ad", tt).
Proof. vm_compute. reflexivity. Qed.

(** Appendix B.2: a message whose padding needs a second block. *)
Example sha_two_blocks :
  sha256_hex junk_heap (cstr "abcdbcdecdefdefgefghfghighijhijkijkljklmklmnlmnomnopnopq") tt =
  Ok (cstr "248d6a61d20638b8e5c026930c3e6039a33ce45964ff2167f6ecedd419db06c1", tt).
Proof. vm_compute. reflexivity. Qed.

(** An administrator without and a user with a password. *)
Definition demo_ann : account :=
  Account (cstr "ann") (cstr "ba7816bf8f01cfea414140de5dae2223b00361a396177a9cb410ff61f20015ad")
    1000 1000 ROLE_USER (cstr "/home/ann") (cstr "/bin/sh").

Definition demo_accounts : list account :=
  [Account (cstr "root") (cstr "x") 0 0 ROLE_ADMIN (cstr "/root") (cstr "/bin/sh"); demo_ann].

Definition demo_node : passwd_node :=
  PasswdNode true (Z.of_nat (length (passwd_file demo_accounts)))
    (λ n, take (Z.to_nat n) (passwd_file demo_accounts)).

Lemma demo_accounts_ok : Forall account_ok demo_accounts.
Proof.
  assert (∀ a, bool_decide (field_ok 31 (ac_name a) ∧ field_ok 64 (ac_hash a) ∧
    field_ok 127 (ac_home a) ∧ field_ok 63 (ac_shell a) ∧ ac_shell a ≠ [] ∧
    (0 ≤ ac_uid a < 2 ^ 31) ∧ (0 ≤ ac_gid a < 2 ^ 31) ∧ (length (passwd_line a) ≤ 255)%nat) = true →
    account_ok a) as Hall.
  { intros a (? & ? & ? & ? & ? & ? & ? & ?)%bool_decide_eq_true. by constructor. }
  apply Forall_cons. split; [apply Hall; vm_compute; reflexivity|].
  apply Forall_cons. split; [apply Hall; vm_compute; reflexivity|by apply Forall_nil].
Qed.

Lemma passwd_login_witness :
  ∃ s', security_load_passwd (Some demo_node) true sec_boot = Ok (tt, s') ∧
        live_users s' = entry_of <$> demo_accounts ∧
        security_authenticate junk_heap (cstr "ann") (cstr "abc") s' = Ok (1000, s').
Proof.
  destruct (passwd_login demo_accounts sec_boot demo_node true junk_heap (cstr "ann") (cstr "abc")) as (s' & Hl & Hu & Ha).
  - done.
  - apply demo_accounts_ok.
  - done.
  - vm_compute. reflexivity.
  - apply junk_heap_exact.
  - apply (bool_decide_unpack _). vm_compute. exact I.
  - vm_compute. reflexivity.
  - exists s'. split; [exact Hl|]. split; [exact Hu|]. rewrite Ha. apply (f_equal (λ r, Ok (r, s'))). vm_compute. reflexivity.
Defined.

(** The digest test vector, as seen at the login. *)
Example demo_login_ok :
  login_result (sha_digest (fips_pad (cstr "abc"))) (ac_uid demo_ann) (ac_hash demo_ann) = 1000 ∧
  login_result (sha_digest (fips_pad (cstr "abd"))) (ac_uid demo_ann) (ac_hash demo_ann) = -1.
Proof. vm_compute. split; reflexivity. Qed.

(** An account with the hash x takes any password. *)
Example demo_login_x digest : login_result digest 0 (cstr "x") = 0.
Proof. reflexivity. Qed.

Lemma sha256_pads_witness :
  sha256 junk_heap (cstr "abc") tt =
    Ok (match junk_heap (Z.of_nat (length (fips_pad (cstr "abc")))) with
        | Some _ => sha_digest (fips_pad (cstr "abc"))
        | None => replicate 32 0
        end, tt).
Proof.
  apply (sha256_pads junk_heap (cstr "abc") tt); [vm_compute; reflexivity|].
  intros n junk Hn [= <-]. rewrite length_replicate. lia.
Defined.

Lemma posix_next_uid_fresh_witness :
  sec_wf sec_boot ∧ ∃ u, posix_role_next_uid ROLE_USER sec_boot = Ok (u, sec_boot) ∧ u ≠ 2 ^ 32 - 1.
Proof.
  split; [by split|].
  destruct (posix_next_uid_fresh ROLE_USER sec_boot ltac:(by split)) as (u & Hu & H).
  exists u. split; [exact Hu|]. destruct H as [(? & _)|(_ & _ & [] & _)]; [lia|done].
Defined.
