(* ===== verification/VfsPath.v ===== *)
(** * VfsPath: paths, aliases, the mount table and permissions

    Models the part of [kernel/vfs.c] that decides which file system and which
    node a path means and who may touch it: the string helpers, the path
    aliases and [absolutize], [mount_find], [vfs_path_is_under_tmp],
    [vfs_parent_path], [vfs_check_perms] and [vfs_gate_write_file]. *)

From Stdlib Require Import String.
From S2P Require Import Prelude CString Security.

Definition MAX_NAME : nat := 255.

(** The size of the working buffers [char abs[320]]. *)
Definition ABS_SIZE : nat := 320.

(** The character at an index of a string; the index of its end gives the
    terminator, one beyond the end is no access the string allows. *)
Definition char_at {St} (p : list Z) (i : nat) : M St Z := load (p ++ [0]) (Z.of_nat i).

(** [static int vstrcmp(const char *a, const char *b)]: the body of [strcmp]. *)
Definition vstrcmp (a b : list Z) : Z := strcmp a b.

(** [static void vstrncpy(char *d, const char *s, size_t n)] *)
Definition vstrncpy {St} (d s : list Z) (n : nat) : M St (list Z) :=
  store_bytes d 0 (take n s ++ [0]).

(** [static int vstrncmp_prefix(abs, prefix, m)], the comparison of [m] bytes;
    the terminator of [abs] differs from every byte of a longer prefix. *)
Fixpoint vstrncmp_prefix (abs prefix : list Z) (m : nat) : bool :=
  match m with
  | O => true
  | S m' =>
    match abs, prefix with
    | x :: abs', y :: prefix' => if x =? y then vstrncmp_prefix abs' prefix' m' else false
    | [], [] => true
    | _, _ => false
    end
  end.

(** ** Aliases *)

Definition vfs_alias : Type := list Z * list Z.

(** [g_vfs_aliases] *)
Definition g_vfs_aliases : list vfs_alias :=
  [(cstr "/bin", cstr "/Binaries"); (cstr "/home", cstr "/Users");
   (cstr "/dev", cstr "/Devices"); (cstr "/tmp", cstr "/Temporary");
   (cstr "/etc", cstr "/System/Configuration"); (cstr "/var", cstr "/System/Variable");
   (cstr "/proc", cstr "/System/Process")].

(** [for (k = rest; k >= 0; k--) abs[a + delta + k] = abs[a + k]], for the [n]
    lowest values of [k]. *)
Fixpoint shift_up {St} (n : nat) (src dst : Z) (buf : list Z) : M St (list Z) :=
  match n with
  | O => mret buf
  | S k =>
    v ← load buf (src + Z.of_nat k);
    buf' ← store_bytes buf (dst + Z.of_nat k) [v];
    shift_up k src dst buf'
  end.

(** The loop of [vfs_apply_aliases] over the table. *)
Fixpoint apply_aliases {St} (l : list vfs_alias) (buf : list Z) : M St (list Z) :=
  match l with
  | [] => mret buf
  | (alias, canon) :: l' =>
    let abs := cut0 buf in
    let al := strlen abs in
    let a := length alias in
    if negb (vstrncmp_prefix abs alias a) then apply_aliases l' buf
    else
      after ← char_at abs a;
      if negb (after =? 0) && negb (after =? 47) then apply_aliases l' buf
      else
        let delta := strlen canon - Z.of_nat a in
        if 319 <=? al + delta then mret buf
        else
          buf' ← shift_up (Z.to_nat (al - Z.of_nat a + 1)) (Z.of_nat a) (Z.of_nat a + delta) buf;
          store_bytes buf' 0 canon
  end.

(** [void vfs_apply_aliases(char *abs)] *)
Definition vfs_apply_aliases {St} (buf : list Z) : M St (list Z) := apply_aliases g_vfs_aliases buf.

(** [static void absolutize(const char *path, const char *cwd, char *out)] *)
Definition absolutize {St} (path cwd out : list Z) : M St (list Z) :=
  if bool_decide (head path = Some 47) then
    out' ← vstrncpy out path MAX_NAME;
    vfs_apply_aliases out'
  else
    let c := take MAX_NAME cwd in
    let c' := match last c with
              | Some x => if negb (x =? 47) && (Z.of_nat (length c) <? 255) then c ++ [47] else c
              | None => c
              end in
    let p := take (MAX_NAME - length c') path in
    o1 ← store_bytes out 0 c';
    o2 ← store_bytes o1 (strlen c') p;
    o3 ← store_bytes o2 (strlen c' + strlen p) [0];
    vfs_apply_aliases o3.

(** [static void vfs_parent_path(const char *abs, char *out)] *)
Fixpoint last_slash (i : nat) (abs : list Z) : nat :=
  match i with
  | O => O
  | S i' => if bool_decide (abs !! i = Some 47) then i else last_slash i' abs
  end.

Definition vfs_parent_path (abs : list Z) : list Z :=
  if (length abs <=? 1)%nat then [47]
  else
    let i := last_slash (length abs - 1) abs in
    if (i =? 0)%nat then [47] else take i abs.

(** [int vfs_path_is_under_tmp(const char *abs)] *)
Definition vfs_path_is_under_tmp {St} (abs : list Z) : M St bool :=
  if vstrncmp_prefix abs (cstr "/tmp") 4 then
    c ← char_at abs 4; mret ((c =? 0) || (c =? 47))
  else if vstrncmp_prefix abs (cstr "/Temporary") 10 then
    c ← char_at abs 10; mret ((c =? 0) || (c =? 47))
  else mret false.

(** ** The mount table *)

(** [enum fs_type] *)
Inductive fs_type := FS_RAMFS | FS_FAT32 | FS_AXIOMEFS | FS_PROC | FS_DEV.

#[global] Instance fs_type_eq_dec : EqDecision fs_type.
Proof. solve_decision. Defined.

(** [struct vfs_super]; [sb_ops] names the operation table, [sb_root] is a
    pointer to the root vnode. *)
Record vfs_super := VfsSuper {
  sb_mountpoint : list Z;
  sb_fs_type : fs_type;
  sb_ops : fs_type;
  sb_root : option nat;
}.

Definition MAX_MOUNTS : Z := 8.

(** One round of [mount_find]'s loop; [best] is an index and [bestlen]. *)
Definition mount_step {St} (abs : list Z) (i : nat) (sb : vfs_super) (best : option nat * Z)
    : M St (option nat * Z) :=
  let mp := sb_mountpoint sb in
  let m := strlen mp in
  if vstrcmp abs mp =? 0 then
    mret (if snd best <=? m then (Some i, m) else best)
  else if vstrncmp_prefix abs mp (length mp) then
    lastc ← load mp (m - 1);
    next ← char_at abs (length mp);
    if (lastc =? 47) || (next =? 47) || (m =? 1) then
      mret (if snd best <=? m then (Some i, m) else best)
    else mret best
  else mret best.

Fixpoint mount_scan {St} (abs : list Z) (i : nat) (sbs : list vfs_super) (best : option nat * Z)
    : M St (option nat * Z) :=
  match sbs with
  | [] => mret best
  | sb :: sbs' => best' ← mount_step abs i sb best; mount_scan abs (S i) sbs' best'
  end.

(** [static struct vfs_super *mount_find(const char *abs)], over the mounts in
    use; the result is the index in [g_mounts]. *)
Definition mount_find {St} (mounts : list vfs_super) (abs : list Z) : M St (option nat) :=
  best ← mount_scan abs 0 mounts (None, 0);
  mret (fst best).

(** ** Permissions *)

Definition S_IRUSR := 256.
Definition S_IWUSR := 128.
Definition S_IXUSR := 64.
Definition S_IRGRP := 32.
Definition S_IWGRP := 16.
Definition S_IXGRP := 8.
Definition S_IROTH := 4.
Definition S_IWOTH := 2.
Definition S_IXOTH := 1.
Definition VFS_MAY_READ := 4.
Definition VFS_MAY_WRITE := 2.
Definition VFS_MAY_EXEC := 1.
Definition EPERM := 1.
Definition EBADF := 9.
Definition EACCES := 13.

Definition has (x bit : Z) : bool := negb (Z.land x bit =? 0).

(** Owner and mode of a vnode. *)
Record vattr := Vattr { v_uid : Z; v_gid : Z; v_mode : Z }.

(** The three tests of one permission class. *)
Definition class_check (mask mode r w x : Z) : Z :=
  if has mask VFS_MAY_READ && negb (has mode r) then -1
  else if has mask VFS_MAY_WRITE && negb (has mode w) then -1
  else if has mask VFS_MAY_EXEC && negb (has mode x) then -1
  else 0.

(** [int vfs_check_perms(struct vnode *n, int mask)] *)
Definition vfs_check_perms (t : option cred) (n : vattr) (mask : Z) : Z :=
  match t with
  | None => 0
  | Some t =>
    if bool_decide (cr_role t = ROLE_SYSTEM) then 0
    else if cr_euid t =? v_uid n then class_check mask (v_mode n) S_IRUSR S_IWUSR S_IXUSR
    else if cr_egid t =? v_gid n then class_check mask (v_mode n) S_IRGRP S_IWGRP S_IXGRP
    else class_check mask (v_mode n) S_IROTH S_IWOTH S_IXOTH
  end.

(** [static int vfs_gate_write_file(const char *abs, struct vnode *dir)] *)
Definition vfs_gate_write_file {St} (t : option cred) (abs : list Z) (dir : option vattr) : M St Z :=
  match t with
  | None => mret 0
  | Some c =>
    if bool_decide (cr_role c = ROLE_SYSTEM) then mret 0
    else
      under ← (if bool_decide (cr_role c = ROLE_GUEST) then vfs_path_is_under_tmp abs else mret true);
      if bool_decide (cr_role c = ROLE_GUEST) && negb under then mret (- EPERM)
      else if negb (has (cr_caps_eff c) (Z.lor CAP_FILE_WRITE_ANY CAP_FILE_WRITE_SELF)) then mret (- EPERM)
      else
        match dir with
        | Some d => if negb (vfs_check_perms t d VFS_MAY_WRITE =? 0) then mret (- EPERM) else mret 0
        | None => mret 0
        end
  end.

(** ** What the path functions compute *)

(** The text of a path before aliases: the path itself, or the working
    directory and the path joined by one slash, cut at 255 characters. *)
Definition join_path (cwd path : list Z) : list Z :=
  if bool_decide (head path = Some 47) then take MAX_NAME path
  else
    let c := take MAX_NAME cwd in
    let c' := match last c with
              | Some x => if negb (x =? 47) && (Z.of_nat (length c) <? 255) then c ++ [47] else c
              | None => c
              end in
    c' ++ take (MAX_NAME - length c') path.

(** [alias] is the first component, or the whole, of [p]. *)
Definition component_prefix (alias p : list Z) : Prop :=
  ∃ rest, p = alias ++ rest ∧ (rest = [] ∨ head rest = Some 47).

(** The rewriting the alias table stands for. *)
Fixpoint resolve_alias (l : list vfs_alias) (p : list Z) : list Z :=
  match l with
  | [] => p
  | (alias, canon) :: l' =>
    if bool_decide (take (length alias) p = alias ∧
                    (drop (length alias) p = [] ∨ head (drop (length alias) p) = Some 47))
    then canon ++ drop (length alias) p
    else resolve_alias l' p
  end.

Section paths.
Context {St : Type}.
Implicit Types s : St.

Lemma vstrncmp_prefix_spec abs prefix :
  vstrncmp_prefix abs prefix (length prefix) = bool_decide (take (length prefix) abs = prefix).
Proof.
  revert abs. induction prefix as [|y prefix IH]; intros [|x abs]; simpl; try done.
  destruct (Z.eqb_spec x y) as [->|Hne].
  - rewrite IH. apply bool_decide_ext. split; [by intros ->|by intros [=]].
  - symmetry. apply bool_decide_eq_false. congruence.
Qed.

Lemma char_at_spec p i s : (i ≤ length p)%nat → char_at p i s = Ok (default 0 (p !! i), s).
Proof.
  intros Hi. apply wp_exact. unfold char_at. destruct (decide (i = length p)) as [->|Hne].
  - eapply wp_load with (v := 0); [lia| |by rewrite lookup_ge_None_2].
    rewrite Nat2Z.id, lookup_app_r by done. by rewrite Nat.sub_diag.
  - destruct (lookup_lt_is_Some_2 p i) as [c Hc]; [lia|]. rewrite Hc.
    eapply wp_load with (v := c); [lia| |done]. rewrite Nat2Z.id. by apply lookup_app_l_Some.
Qed.

Lemma head_drop_lookup (p : list Z) i : head (drop i p) = p !! i.
Proof. revert i. induction p as [|x p IH]; intros [|i]; simpl; try done. Qed.

(** [abs[a]] ends the component: it is the terminator or a slash. *)
Lemma component_end p i :
  nul_free p → (i ≤ length p)%nat →
  (default 0 (p !! i) =? 0) || (default 0 (p !! i) =? 47) =
  bool_decide (drop i p = [] ∨ head (drop i p) = Some 47).
Proof.
  intros Hp Hi. symmetry. rewrite head_drop_lookup. destruct (p !! i) as [c|] eqn:Hc; simpl.
  - assert (c ≠ 0) by (by eapply (Forall_lookup_1 _ _ _ _ Hp)).
    assert (drop i p ≠ []) as Hd.
    { intros Hd%(f_equal length). rewrite length_drop in Hd. simpl in Hd.
      apply lookup_lt_Some in Hc. lia. }
    destruct (Z.eqb_spec c 0); [done|]. simpl. destruct (Z.eqb_spec c 47) as [->|].
    + apply bool_decide_eq_true. by right.
    + apply bool_decide_eq_false. naive_solver.
  - apply lookup_ge_None in Hc. apply bool_decide_eq_true. left. by apply drop_ge.
Qed.

(** The array after a block of [n] bytes at [src] was copied to [dst]. *)
Lemma moved_lookup (l : list Z) n src dst i :
  (src ≤ dst)%nat → (dst + n ≤ length l)%nat →
  (take dst l ++ take n (drop src l) ++ drop (dst + n) l) !! i =
  if decide (dst ≤ i < dst + n)%nat then l !! (src + (i - dst))%nat else l !! i.
Proof.
  intros Hsd Hlen. destruct (decide (i < dst)%nat).
  - rewrite decide_False by lia. rewrite lookup_app_l by (rewrite length_take; lia).
    by apply lookup_take_lt.
  - rewrite lookup_app_r by (rewrite length_take; lia). rewrite length_take, Nat.min_l by lia.
    destruct (decide (i < dst + n)%nat).
    + rewrite decide_True by lia. rewrite lookup_app_l by (rewrite length_take, length_drop; lia).
      rewrite lookup_take_lt by lia. by rewrite lookup_drop.
    + rewrite decide_False by lia. rewrite lookup_app_r by (rewrite length_take, length_drop; lia).
      rewrite length_take, length_drop, lookup_drop. f_equal. lia.
Qed.

(** The descending loop moves a block up without overwriting what it has yet to
    read. *)
Lemma shift_up_spec n src dst buf s :
  (src ≤ dst)%nat → (dst + n ≤ length buf)%nat →
  shift_up n (Z.of_nat src) (Z.of_nat dst) buf s =
    Ok (take dst buf ++ take n (drop src buf) ++ drop (dst + n) buf, s).
Proof.
  intros Hsd. revert buf. induction n as [|k IH]; intros buf Hlen; cbn [shift_up].
  { rewrite take_0, Nat.add_0_r. cbn [app]. by rewrite take_drop. }
  destruct (lookup_lt_is_Some_2 buf (src + k)) as [v Hv]; [lia|].
  assert (store_bytes buf (Z.of_nat dst + Z.of_nat k) [v] s = Ok (<[(dst + k)%nat := v]> buf, s)) as Est.
  { cbn [store_bytes]. decide_cmps. cbn [andb]. unfold mret, M_ret. do 3 f_equal. lia. }
  unfold mbind, M_bind.
  assert (load buf (Z.of_nat src + Z.of_nat k) s = Ok (v, s)) as ->.
  { apply wp_exact. eapply wp_load with (v := v); [lia| |done].
    by replace (Z.to_nat (Z.of_nat src + Z.of_nat k)) with (src + k)%nat by lia. }
  rewrite Est, IH by (rewrite length_insert; lia). do 2 f_equal. apply list_eq. intros i.
  rewrite !moved_lookup by (rewrite ?length_insert; lia).
  destruct (decide (i = (dst + k)%nat)) as [->|Hne].
  - rewrite decide_False, decide_True by lia. rewrite list_lookup_insert_eq by lia.
    by replace (src + (dst + k - dst))%nat with (src + k)%nat by lia.
  - destruct (decide (dst ≤ i < dst + k)%nat).
    + rewrite decide_True by lia. apply list_lookup_insert_ne. lia.
    + rewrite decide_False by lia. apply list_lookup_insert_ne. lia.
Qed.

(** One alias put in place of the first component. *)
Lemma alias_rewritten alias canon rest buf s :
  array_holds ABS_SIZE buf (alias ++ rest) → nul_free canon →
  (length alias ≤ length canon)%nat → strlen canon + strlen rest < 319 →
  ∃ buf', (b ← shift_up (S (length rest)) (strlen alias) (strlen canon) buf;
           store_bytes b 0 canon) s = Ok (buf', s) ∧ array_holds ABS_SIZE buf' (canon ++ rest).
Proof.
  unfold strlen, ABS_SIZE. intros (Hp & Hlen & post & Hbuf) Hc Hac Hfit.
  rewrite <-(assoc_L (++)) in Hbuf.
  assert (length post = 319 - length alias - length rest)%nat as Hpost.
  { rewrite Hbuf, !length_app in Hlen. simpl in Hlen. lia. }
  unfold mbind, M_bind. rewrite shift_up_spec by lia.
  assert (take (S (length rest)) (drop (length alias) buf) = rest ++ [0]) as ->.
  { rewrite Hbuf, drop_app_length, cons_middle, (assoc_L (++)).
    rewrite take_app_length'; [done|]. rewrite length_app. simpl. lia. }
  eexists. split.
  - apply (store_bytes_spec [] (take (length canon) buf) canon _ s). rewrite length_take. lia.
  - split_and!.
    + rewrite nul_free_app in *. tauto.
    + rewrite !length_app, length_drop. simpl. lia.
    + eexists. by rewrite <-!(assoc_L (++)).
Qed.

(** The loop over the table implements [resolve_alias], for names that leave
    room for the longer canonical ones. *)
Lemma apply_aliases_spec l buf p s :
  Forall (λ ac, nul_free ac.2 ∧ (length ac.1 ≤ length ac.2)%nat ∧ strlen ac.2 < strlen ac.1 + 64) l →
  array_holds ABS_SIZE buf p → strlen p ≤ 255 →
  ∃ buf', apply_aliases l buf s = Ok (buf', s) ∧ array_holds ABS_SIZE buf' (resolve_alias l p).
Proof.
  intros Hl Hb Hp. induction Hl as [|[alias canon] l (Hc & Hac & Hlen) Hl IH]; [by exists buf|].
  cbn [apply_aliases resolve_alias fst snd] in *. rewrite (array_holds_cut0 _ _ _ Hb).
  rewrite vstrncmp_prefix_spec.
  destruct (bool_decide_reflect (take (length alias) p = alias)) as [Ht|Ht]; cbn [negb].
  2:{ rewrite bool_decide_eq_false_2 by tauto. done. }
  assert (length alias ≤ length p)%nat as Hle.
  { apply (f_equal length) in Ht. rewrite length_take in Ht. lia. }
  unfold mbind at 1, M_bind at 1. rewrite char_at_spec by done.
  assert (nul_free p) as Hnf by apply Hb.
  rewrite <-negb_orb, component_end by done.
  destruct (bool_decide_reflect (drop (length alias) p = [] ∨ head (drop (length alias) p) = Some 47))
    as [Hd|Hd]; cbn [negb].
  2:{ rewrite bool_decide_eq_false_2 by tauto. done. }
  rewrite bool_decide_eq_true_2 by done.
  set (rest := drop (length alias) p) in *.
  assert (p = alias ++ rest) as Hpr by (unfold rest; rewrite <-Ht at 1; by rewrite take_drop).
  assert (length rest = length p - length alias)%nat as Hrl by (apply length_drop).
  unfold strlen in *. decide_cmps.
  destruct (alias_rewritten alias canon rest buf s) as (buf' & Hrun & Hres);
    [by rewrite <-Hpr|done|done|unfold strlen; lia|].
  exists buf'. split; [|done]. unfold strlen in Hrun.
  replace (Z.to_nat (Z.of_nat (length p) - Z.of_nat (length alias) + 1)) with (S (length rest)) by lia.
  replace (Z.of_nat (length alias) + (Z.of_nat (length canon) - Z.of_nat (length alias)))
    with (Z.of_nat (length canon)) by lia.
  done.
Qed.
End paths.

Lemma join_path_ok cwd path :
  nul_free path → nul_free cwd → nul_free (join_path cwd path) ∧ (length (join_path cwd path) ≤ 255)%nat.
Proof.
  intros Hp Hc. unfold join_path, MAX_NAME. case_bool_decide.
  { split; [by apply Forall_take|rewrite length_take; lia]. }
  set (c := take 255 cwd).
  assert (nul_free c) by (by apply Forall_take).
  assert (length c ≤ 255)%nat by (unfold c; rewrite length_take; lia).
  set (c' := match last c with Some _ => _ | None => c end).
  assert (nul_free c' ∧ length c' ≤ 255)%nat as [Hc1 Hc2].
  { unfold c'. destruct (last c); [|done]. destruct (negb _); cbn [andb]; [|done].
    destruct (Z.ltb_spec (Z.of_nat (length c)) 255); [|done]. rewrite nul_free_app, length_app.
    split; [|simpl; lia]. split; [done|by repeat constructor]. }
  rewrite nul_free_app, length_app, length_take. split; [|lia]. split; [done|by apply Forall_take].
Qed.

Lemma g_vfs_aliases_ok :
  Forall (λ ac, nul_free ac.2 ∧ (length ac.1 ≤ length ac.2)%nat ∧ strlen ac.2 < strlen ac.1 + 64)
         g_vfs_aliases.
Proof. apply (bool_decide_unpack _). vm_compute. exact I. Qed.

(** Three stores in a row write their concatenation. *)
Lemma store_bytes_app {St} buf a b i (s : St) :
  (b1 ← store_bytes buf i a; store_bytes b1 (i + Z.of_nat (length a)) b) s = store_bytes buf i (a ++ b) s.
Proof.
  revert buf i. induction a as [|x a IH]; intros buf i; cbn [store_bytes app length].
  - unfold mbind, M_bind, mret, M_ret. by rewrite Z.add_0_r.
  - destruct ((0 <=? i) && _); [|done].
    rewrite <-IH. by replace (i + Z.of_nat (S (length a))) with (i + 1 + Z.of_nat (length a)) by lia.
Qed.

Lemma absolutize_value {St} path cwd out (s : St) :
  nul_free path → nul_free cwd → length out = ABS_SIZE →
  ∃ buf, absolutize path cwd out s = Ok (buf, s) ∧
         array_holds ABS_SIZE buf (resolve_alias g_vfs_aliases (join_path cwd path)).
Proof.
  intros Hp Hc Hout. destruct (join_path_ok cwd path Hp Hc) as [Hj1 Hj2].
  destruct (store_string ABS_SIZE out (join_path cwd path) s) as (b & Hb & Hh);
    [done|done|unfold ABS_SIZE; lia|].
  destruct (apply_aliases_spec g_vfs_aliases b _ s g_vfs_aliases_ok Hh) as (buf & Hbuf & Hr);
    [unfold strlen; lia|].
  exists buf. split; [|done]. revert Hb. unfold absolutize, join_path. case_bool_decide.
  - unfold vstrncpy, mbind, M_bind. by intros ->.
  - set (c' := match last _ with Some _ => _ | None => _ end). set (p := take _ path).
    intros Hb. unfold strlen.
    rewrite <-(assoc_L (++)), <-store_bytes_app in Hb. unfold mbind, M_bind in *.
    destruct (store_bytes out 0 c' s) as [[o1 s1]| |]; [|done..].
    rewrite Z.add_0_l in Hb.
    pose proof (store_bytes_app o1 p [0] (Z.of_nat (length c')) s1) as Happ.
    unfold mbind, M_bind in Happ. rewrite <-Happ in Hb.
    destruct (store_bytes o1 (Z.of_nat (length c')) p s1) as [[o2 s2]| |]; [|done..].
    rewrite Hb. done.
Qed.

Lemma resolve_alias_cases l p :
  resolve_alias l p = p ∨ ∃ ac rest, ac ∈ l ∧ resolve_alias l p = ac.2 ++ rest.
Proof.
  induction l as [|[a c] l IH]; simpl; [by left|]. case_bool_decide.
  - right. exists (a, c), (drop (length a) p). split; [by left|done].
  - destruct IH as [IH|(ac & rest & Hin & IH)]; [by left|]. right. exists ac, rest.
    split; [by right|done].
Qed.

Lemma resolve_alias_none l p :
  (∀ ac, ac ∈ l → take (length ac.1) p ≠ ac.1) → resolve_alias l p = p.
Proof.
  induction l as [|[a c] l IH]; intros Hn; simpl; [done|].
  rewrite bool_decide_eq_false_2.
  - apply IH. intros ac Hac. apply Hn. by right.
  - intros [Ht _]. by apply (Hn (a, c)); [left|].
Qed.

(** No canonical name starts with an alias. *)
Lemma canon_no_alias :
  Forall (λ ac, Forall (λ ac', take (length ac'.1) ac.2 ≠ ac'.1 ∧ (length ac'.1 ≤ length ac.2)%nat)
                       g_vfs_aliases) g_vfs_aliases.
Proof. apply (bool_decide_unpack _). vm_compute. exact I. Qed.

Lemma resolve_alias_idemp p :
  resolve_alias g_vfs_aliases (resolve_alias g_vfs_aliases p) = resolve_alias g_vfs_aliases p.
Proof.
  destruct (resolve_alias_cases g_vfs_aliases p) as [E|(ac & rest & Hin & ->)]; [by rewrite !E|].
  apply resolve_alias_none. intros ac' Hin'.
  pose proof canon_no_alias as Hc. rewrite Forall_forall in Hc. specialize (Hc ac Hin).
  rewrite Forall_forall in Hc. destruct (Hc ac' Hin') as [Hne Hle].
  rewrite take_app_le by done. done.
Qed.

(** A path that [resolve_alias] leaves alone has no alias as its first
    component, the aliases being shorter than their canonical names. *)
Lemma resolve_alias_fixed l p ac :
  (∀ ac, ac ∈ l → (length ac.1 < length ac.2)%nat) →
  resolve_alias l p = p → ac ∈ l → ¬ component_prefix ac.1 p.
Proof.
  induction l as [|[a c] l IH]; intros Hl Hr Hin (rest & -> & Hrest); [by inversion Hin|].
  cbn [resolve_alias] in Hr. case_bool_decide as Hd.
  - apply (f_equal length) in Hr. specialize (Hl (a, c) ltac:(by left)). simpl in Hl.
    destruct Hd as [Ht _]. apply (f_equal length) in Ht. rewrite length_take in Ht.
    rewrite length_app, length_drop in Hr. lia.
  - apply elem_of_cons in Hin as [->|Hin].
    + apply Hd. cbn [fst]. by rewrite take_app_length, drop_app_length.
    + eapply IH; [|done|done|by exists rest]. intros ac' Hac'. apply Hl. by right.
Qed.

Lemma g_vfs_aliases_longer : ∀ ac, ac ∈ g_vfs_aliases → (length ac.1 < length ac.2)%nat.
Proof. apply Forall_forall, (bool_decide_unpack _). vm_compute. exact I. Qed.

(** ** The mount a path belongs to *)

(** The mount point is the path, or a prefix of it that ends at a component. *)
Definition covers (abs mp : list Z) : Prop :=
  abs = mp ∨
  (take (length mp) abs = mp ∧
   (last mp = Some 47 ∨ abs !! length mp = Some 47 ∨ length mp = 1%nat)).

#[global] Instance covers_dec abs mp : Decision (covers abs mp).
Proof. unfold covers. apply _. Defined.

Lemma mount_step_spec {St} abs i sb best (s : St) :
  nul_free abs → nul_free (sb_mountpoint sb) → sb_mountpoint sb ≠ [] →
  mount_step abs i sb best s =
    Ok (if bool_decide (covers abs (sb_mountpoint sb)) && (snd best <=? strlen (sb_mountpoint sb))
        then (Some i, strlen (sb_mountpoint sb)) else best, s).
Proof.
  intros Ha Hm Hne. unfold mount_step, vstrcmp. set (mp := sb_mountpoint sb) in *.
  rewrite strcmp_eqb by done. destruct (bool_decide_reflect (abs = mp)) as [E|E].
  { rewrite (bool_decide_eq_true_2 (covers abs mp)) by (by left). done. }
  rewrite vstrncmp_prefix_spec.
  destruct (bool_decide_reflect (take (length mp) abs = mp)) as [Ht|Ht].
  2:{ rewrite bool_decide_eq_false_2; [done|]. intros [|[? _]]; done. }
  assert (length mp ≤ length abs)%nat as Hle.
  { apply (f_equal length) in Ht. rewrite length_take in Ht. lia. }
  destruct (last mp) as [lc|] eqn:Hlast; [|by apply last_None in Hlast].
  assert (load mp (strlen mp - 1) s = Ok (lc, s)) as Hld.
  { apply wp_exact. unfold strlen. destruct mp as [|x mp'] eqn:Emp; [done|]. rewrite <-Emp in *.
    assert (0 < length mp)%nat by (rewrite Emp; simpl; lia).
    eapply wp_load with (v := lc); [lia| |done].
    rewrite last_lookup in Hlast. by replace (Z.to_nat (Z.of_nat (length mp) - 1)) with (pred (length mp)) by lia. }
  unfold mbind, M_bind. rewrite Hld, char_at_spec by done.
  assert ((lc =? 47) || (default 0 (abs !! length mp) =? 47) || (strlen mp =? 1) =
          bool_decide (covers abs mp)) as ->; [|by destruct (bool_decide _)].
  symmetry. unfold strlen. destruct (bool_decide_reflect (covers abs mp)) as [[|(_ & Hc)]|Hc].
  - done.
  - symmetry. rewrite !orb_true_iff, !Z.eqb_eq. destruct Hc as [Hc|[Hc|Hc]].
    + left; left. congruence.
    + left; right. by rewrite Hc.
    + right. lia.
  - symmetry. rewrite !orb_false_iff, !Z.eqb_neq. split_and!.
    + intros ->. apply Hc. right. split; [done|by left].
    + intros Hd. apply Hc. right. split; [done|right; left].
      destruct (abs !! length mp); simpl in Hd; [by subst|done].
    + intros Hd. apply Hc. right. split; [done|]. right; right. lia.
Qed.

(** The best mount among the first [k]. *)
Definition best_mount (abs : list Z) (l : list vfs_super) (best : option nat * Z) : Prop :=
  match best.1 with
  | None => best.2 = 0 ∧ ∀ j sb, l !! j = Some sb → ¬ covers abs (sb_mountpoint sb)
  | Some i =>
    ∃ sb, l !! i = Some sb ∧ covers abs (sb_mountpoint sb) ∧ best.2 = strlen (sb_mountpoint sb) ∧
      ∀ j sb', l !! j = Some sb' → covers abs (sb_mountpoint sb') →
        strlen (sb_mountpoint sb') < best.2 ∨ (strlen (sb_mountpoint sb') = best.2 ∧ (j ≤ i)%nat)
  end.

Lemma best_mount_snoc abs l sb best :
  best_mount abs l best →
  best_mount abs (l ++ [sb])
    (if bool_decide (covers abs (sb_mountpoint sb)) && (snd best <=? strlen (sb_mountpoint sb))
     then (Some (length l), strlen (sb_mountpoint sb)) else best).
Proof.
  intros Hb. destruct (bool_decide_reflect (covers abs (sb_mountpoint sb))) as [Hc|Hc]; cbn [andb].
  - destruct best as [[i|] bl]; cbn [snd] in *; unfold best_mount in *; cbn [fst snd] in *.
    + destruct Hb as (sbi & Hi & Hci & -> & Hmax). destruct (Z.leb_spec (strlen (sb_mountpoint sbi)) (strlen (sb_mountpoint sb))); cbn [fst snd].
      * exists sb. split_and!; [by apply list_lookup_middle|done|done|].
        intros j sb' [Hj|(-> & <-)]%lookup_snoc_Some Hcj; [|right; lia].
        destruct (Hmax _ _ (proj2 Hj) Hcj) as [|[]]; lia.
      * exists sbi. split_and!; [by apply lookup_app_l_Some|done|done|].
        intros j sb' [[_ Hj]|(-> & <-)]%lookup_snoc_Some Hcj; [by eapply Hmax|lia].
    + destruct Hb as [-> Hno]. assert ((0 <=? strlen (sb_mountpoint sb)) = true) as ->.
      { apply Z.leb_le. unfold strlen. lia. }
      cbn [fst snd]. exists sb. split_and!; [by apply list_lookup_middle|done|done|].
      intros j sb' [Hj|(-> & <-)]%lookup_snoc_Some Hcj; [|right; lia].
      by destruct (Hno _ _ (proj2 Hj)).
  - destruct best as [[i|] bl]; unfold best_mount in *; cbn [fst snd] in *.
    + destruct Hb as (sbi & Hi & Hci & -> & Hmax). exists sbi.
      split_and!; [by apply lookup_app_l_Some|done|done|].
      intros j sb' [[_ Hj]|(-> & <-)]%lookup_snoc_Some Hcj; [by eapply Hmax|done].
    + destruct Hb as [-> Hno]. split; [done|].
      intros j sb' [[_ Hj]|(-> & <-)]%lookup_snoc_Some; [by eapply Hno|done].
Qed.

Lemma mount_scan_spec {St} abs pre suf best (s : St) :
  nul_free abs →
  Forall (λ sb, nul_free (sb_mountpoint sb) ∧ sb_mountpoint sb ≠ []) suf →
  best_mount abs pre best →
  ∃ best', mount_scan abs (length pre) suf best s = Ok (best', s) ∧ best_mount abs (pre ++ suf) best'.
Proof.
  intros Ha Hs. revert pre best. induction Hs as [|sb suf [Hn Hne] Hs IH]; intros pre best Hb.
  - exists best. by rewrite app_nil_r.
  - cbn [mount_scan]. unfold mbind, M_bind. rewrite mount_step_spec by done.
    replace (S (length pre)) with (length (pre ++ [sb])) by (rewrite length_app; simpl; lia).
    destruct (IH (pre ++ [sb]) _ (best_mount_snoc abs pre sb best Hb)) as (b & Hrun & Hb').
    exists b. split; [done|]. by rewrite <-(assoc_L (++)) in Hb'.
Qed.

Lemma mount_find_spec {St} mounts abs (s : St) :
  nul_free abs →
  Forall (λ sb, nul_free (sb_mountpoint sb) ∧ sb_mountpoint sb ≠ []) mounts →
  ∃ r, mount_find mounts abs s = Ok (r, s) ∧
    match r with
    | None => ∀ j sb, mounts !! j = Some sb → ¬ covers abs (sb_mountpoint sb)
    | Some i =>
      ∃ sb, mounts !! i = Some sb ∧ covers abs (sb_mountpoint sb) ∧
        ∀ j sb', mounts !! j = Some sb' → covers abs (sb_mountpoint sb') →
          strlen (sb_mountpoint sb') < strlen (sb_mountpoint sb) ∨
          (strlen (sb_mountpoint sb') = strlen (sb_mountpoint sb) ∧ (j ≤ i)%nat)
    end.
Proof.
  intros Ha Hm. destruct (mount_scan_spec abs [] mounts (None, 0) s Ha Hm) as ([r bl] & Hrun & Hb).
  { split; [done|]. intros j sb Hj. by rewrite lookup_nil in Hj. }
  exists r. split.
  - unfold mount_find, mbind, M_bind. simpl in Hrun. by rewrite Hrun.
  - unfold best_mount in Hb. cbn [fst snd app] in Hb. destruct r as [i|]; [|by apply Hb].
    destruct Hb as (sb & Hi & Hc & -> & Hmax). by exists sb.
Qed.

(** ** Permissions *)

(** The [r], [w] and [x] bits of a class as one digit of the octal mode. *)
Definition class_bits (mode : Z) (class : Z) : Z := Z.land (Z.shiftr mode (3 * class)) 7.

(** The class of a caller: 2 the owner, 1 the group, 0 others. *)
Definition caller_class (c : cred) (n : vattr) : Z :=
  if cr_euid c =? v_uid n then 2 else if cr_egid c =? v_gid n then 1 else 0.

Lemma has_bit x k : 0 ≤ k → has x (2 ^ k) = Z.testbit x k.
Proof.
  intros Hk. unfold has. destruct (Z.testbit x k) eqn:Hb.
  - apply negb_true_iff, Z.eqb_neq. intros H0.
    apply (f_equal (λ y, Z.testbit y k)) in H0. rewrite Z.land_spec, Hb, Z.pow2_bits_true, Z.bits_0 in H0; done.
  - apply negb_false_iff, Z.eqb_eq. apply Z.bits_inj'. intros i Hi. rewrite Z.land_spec, Z.bits_0.
    destruct (decide (i = k)) as [->|]; [by rewrite Hb|].
    rewrite Z.pow2_bits_false by done. apply andb_false_r.
Qed.

(** The three tests are inclusion of the requested bits in the class's. *)
Lemma class_check_bits mask mode class :
  0 ≤ mask < 8 → 0 ≤ class →
  class_check mask mode (2 ^ (3 * class + 2)) (2 ^ (3 * class + 1)) (2 ^ (3 * class)) =
  if decide (Z.land mask (class_bits mode class) = mask) then 0 else -1.
Proof.
  intros Hm Hc. unfold class_check, VFS_MAY_READ, VFS_MAY_WRITE, VFS_MAY_EXEC, class_bits.
  change 4 with (2 ^ 2). change (has mask 2) with (has mask (2 ^ 1)). change (has mask 1) with (has mask (2 ^ 0)).
  rewrite !has_bit by lia.
  assert (∀ k, 0 ≤ k < 3 → Z.testbit (Z.land (Z.shiftr mode (3 * class)) 7) k = Z.testbit mode (3 * class + k)) as Hb.
  { intros k Hk. change 7 with (Z.ones 3). rewrite Z.land_spec, Z.ones_spec_low, andb_true_r, Z.shiftr_spec by lia.
    f_equal. lia. }
  replace (3 * class) with (3 * class + 0) at 3 by lia. rewrite <-!Hb by lia.
  set (g := Z.land (Z.shiftr mode (3 * class)) 7).
  assert (Z.land mask g = mask ↔ ∀ k, 0 ≤ k < 3 → Z.testbit mask k = true → Z.testbit g k = true) as Hiff.
  { split.
    - intros E k Hk Hmk. rewrite <-E, Z.land_spec in Hmk. by apply andb_prop in Hmk as [_ ?].
    - intros Hall. apply Z.bits_inj'. intros k Hk. rewrite Z.land_spec.
      destruct (Z.testbit mask k) eqn:Hmk; [|done]. simpl. apply Hall; [|done].
      destruct (Z.lt_ge_cases k 3); [lia|]. rewrite (testbit_small mask 3 k) in Hmk; [done|lia|lia]. }
  destruct (decide (Z.land mask g = mask)) as [E|E].
  - rewrite Hiff in E. pose proof (E 0 ltac:(lia)) as E0. pose proof (E 1 ltac:(lia)) as E1.
    pose proof (E 2 ltac:(lia)) as E2. clear -E0 E1 E2.
    destruct (Z.testbit mask 0), (Z.testbit mask 1), (Z.testbit mask 2); cbn [andb];
      repeat match goal with H : true = true → _ |- _ => rewrite (H eq_refl); clear H end; done.
  - rewrite Hiff in E. destruct (Z.testbit mask 2 && negb (Z.testbit g 2)) eqn:E2; [done|].
    destruct (Z.testbit mask 1 && negb (Z.testbit g 1)) eqn:E1; [done|].
    destruct (Z.testbit mask 0 && negb (Z.testbit g 0)) eqn:E0; [done|].
    exfalso. apply E. intros k Hk Hmk.
    assert (k = 0 ∨ k = 1 ∨ k = 2) as [->|[->| ->]] by lia; rewrite Hmk in *; simpl in *;
      by apply negb_false_iff.
Qed.

(** ** Properties *)

(** Path canonicalisation.  For every path and working directory
    [absolutize] stays inside the 320-byte buffer and leaves there the path
    joined to the working directory, with an alias as first component replaced
    by its canonical name; the result has no alias as first component, so that
    resolving it again changes nothing. *)
Theorem absolutize_canonical {St} path cwd out (s : St) :
  nul_free path → nul_free cwd → length out = ABS_SIZE →
  ∃ buf p, absolutize path cwd out s = Ok (buf, s) ∧ array_holds ABS_SIZE buf p ∧
    p = resolve_alias g_vfs_aliases (join_path cwd path) ∧
    (∀ ac, ac ∈ g_vfs_aliases → ¬ component_prefix ac.1 p).
Proof.
  intros Hp Hc Ho. destruct (absolutize_value path cwd out s Hp Hc Ho) as (buf & Hrun & Hh).
  exists buf, (resolve_alias g_vfs_aliases (join_path cwd path)). split_and!; [done|done|done|].
  intros ac Hac. eapply resolve_alias_fixed; [apply g_vfs_aliases_longer| |done].
  apply resolve_alias_idemp.
Qed.

(** [mount_find] returns the mount with the longest mount point that is the
    path or ends at one of its components, the last registered one among equals
    (so a file system mounted on / shadows the boot ramfs), and null exactly
    when no mount covers the path. *)
Theorem mount_find_longest {St} mounts abs (s : St) :
  nul_free abs →
  Forall (λ sb, nul_free (sb_mountpoint sb) ∧ sb_mountpoint sb ≠ []) mounts →
  ∃ r, mount_find mounts abs s = Ok (r, s) ∧
    match r with
    | None => ∀ j sb, mounts !! j = Some sb → ¬ covers abs (sb_mountpoint sb)
    | Some i =>
      ∃ sb, mounts !! i = Some sb ∧ covers abs (sb_mountpoint sb) ∧
        ∀ j sb', mounts !! j = Some sb' → covers abs (sb_mountpoint sb') →
          strlen (sb_mountpoint sb') < strlen (sb_mountpoint sb) ∨
          (strlen (sb_mountpoint sb') = strlen (sb_mountpoint sb) ∧ (j ≤ i)%nat)
    end.
Proof. apply mount_find_spec. Qed.

(** [vfs_check_perms] is the POSIX rule: a caller below SYSTEM is granted
    access exactly when the bits it asks for are among those of the one class
    it belongs to (owner, else group, else others) in the octal mode. *)
Theorem vfs_check_perms_posix c n mask :
  0 ≤ mask < 8 → cr_role c ≠ ROLE_SYSTEM →
  vfs_check_perms (Some c) n mask =
    if decide (Z.land mask (class_bits (v_mode n) (caller_class c n)) = mask) then 0 else -1.
Proof.
  intros Hm Hr. unfold vfs_check_perms, caller_class. rewrite bool_decide_eq_false_2 by done.
  destruct (cr_euid c =? v_uid n); [by apply (class_check_bits mask _ 2)|].
  destruct (cr_egid c =? v_gid n); [by apply (class_check_bits mask _ 1)|by apply (class_check_bits mask _ 0)].
Qed.

(** A guest can write nowhere.  A process with the guest role and no more
    than the guest's capabilities is denied by [vfs_gate_write_file] on every
    path and directory, also under /tmp: the gate asks for
    CAP_FILE_WRITE_ANY or CAP_FILE_WRITE_SELF and the role table gives guests
    CAP_FILE_WRITE_TMP alone, which nothing tests. *)
Theorem guest_write_denied {St} c abs dir (s : St) :
  cr_role c = ROLE_GUEST → Z.land (cr_caps_eff c) (role_caps ROLE_GUEST) = cr_caps_eff c →
  vfs_gate_write_file (Some c) abs dir s = Ok (- EPERM, s).
Proof.
  intros Hr Hc. unfold vfs_gate_write_file. rewrite Hr. cbn [bool_decide decide_rel user_role_eq_dec].
  rewrite bool_decide_eq_false_2, bool_decide_eq_true_2 by done.
  assert (has (cr_caps_eff c) (Z.lor CAP_FILE_WRITE_ANY CAP_FILE_WRITE_SELF) = false) as Hno.
  { unfold has. rewrite <-Hc, <-Z.land_assoc.
    change (Z.land (role_caps ROLE_GUEST) (Z.lor CAP_FILE_WRITE_ANY CAP_FILE_WRITE_SELF)) with 0.
    by rewrite Z.land_0_r. }
  assert (∃ b, vfs_path_is_under_tmp abs s = Ok (b, s)) as [b Hb].
  { unfold vfs_path_is_under_tmp.
    assert (∀ t : list Z, vstrncmp_prefix abs t (length t) = true → (length t ≤ length abs)%nat) as Hlen.
    { intros t. rewrite vstrncmp_prefix_spec. intros E%bool_decide_eq_true%(f_equal length).
      rewrite length_take in E. lia. }
    destruct (vstrncmp_prefix abs (cstr "/tmp") 4) eqn:E1.
    - apply (Hlen (cstr "/tmp")) in E1. unfold mbind, M_bind. rewrite char_at_spec by done. by eexists.
    - destruct (vstrncmp_prefix abs (cstr "/Temporary") 10) eqn:E2; [|by eexists].
      apply (Hlen (cstr "/Temporary")) in E2. unfold mbind, M_bind. rewrite char_at_spec by done. by eexists. }
  unfold mbind, M_bind. rewrite Hb. cbn [andb]. destruct b; cbn [negb]; [|done].
  by rewrite Hno.
Qed.

(** ** Concrete instances *)

Definition demo_mounts : list vfs_super :=
  [VfsSuper (cstr "/") FS_RAMFS FS_RAMFS (Some 0%nat);
   VfsSuper (cstr "/boot") FS_FAT32 FS_FAT32 (Some 1%nat);
   VfsSuper (cstr "/") FS_AXIOMEFS FS_AXIOMEFS (Some 2%nat)].

Definition demo_guest : cred := Cred 65534 65534 65534 65534 65534 65534 ROLE_GUEST (role_caps ROLE_GUEST) 0 0.

Example demo_paths :
  (cut0 <$> match absolutize (cstr "tmp/a.txt") (cstr "/") (replicate 320 7) tt with
            | Ok (b, _) => Some b | _ => None end) = Some (cstr "/Temporary/a.txt") ∧
  vfs_parent_path (cstr "/Temporary/a.txt") = cstr "/Temporary" ∧
  mount_find demo_mounts (cstr "/boot/x") tt = Ok (Some 1%nat, tt) ∧
  mount_find demo_mounts (cstr "/booth") tt = Ok (Some 2%nat, tt).
Proof. vm_compute. done. Qed.

Lemma absolutize_canonical_witness :
  ∃ buf p, absolutize (cstr "a") (cstr "/tmp") (replicate 320 7) tt = Ok (buf, tt) ∧
    array_holds ABS_SIZE buf p ∧
    p = resolve_alias g_vfs_aliases (join_path (cstr "/tmp") (cstr "a")) ∧
    (∀ ac, ac ∈ g_vfs_aliases → ¬ component_prefix ac.1 p).
Proof.
  apply (absolutize_canonical (cstr "a") (cstr "/tmp") (replicate 320 7) tt).
  - apply (bool_decide_unpack _). vm_compute. exact I.
  - apply (bool_decide_unpack _). vm_compute. exact I.
  - reflexivity.
Defined.

Lemma mount_find_longest_witness :
  ∃ i sb, mount_find demo_mounts (cstr "/boot/x") tt = Ok (Some i, tt) ∧ demo_mounts !! i = Some sb.
Proof.
  destruct (mount_find_longest demo_mounts (cstr "/boot/x") tt) as (r & Hr & Hs).
  - apply (bool_decide_unpack _). vm_compute. exact I.
  - apply (bool_decide_unpack _). vm_compute. exact I.
  - destruct r as [i|]; [|exfalso; apply (Hs 0%nat _ eq_refl); apply (bool_decide_unpack _); vm_compute; exact I].
    destruct Hs as (sb & Hi & _). exists i, sb. split; [exact Hr|exact Hi].
Defined.

Lemma vfs_check_perms_posix_witness :
  vfs_check_perms (Some demo_guest) (Vattr 0 0 420) 4 = 0.
Proof. rewrite (vfs_check_perms_posix demo_guest (Vattr 0 0 420) 4); [reflexivity|lia|done]. Defined.

Lemma guest_write_denied_witness :
  vfs_gate_write_file (Some demo_guest) (cstr "/Temporary/a") (Some (Vattr 0 0 511)) tt = Ok (- EPERM, tt).
Proof. apply guest_write_denied; reflexivity. Defined.
