(* ===== verification/Vfs.v ===== *)
(** * Vfs: the ramfs and the generic layer of [kernel/vfs.c]

    The kernel's node objects are a heap of vnodes addressed by pointers; the
    mount table is the array [g_mounts], whose entries nodes point into.  All
    of [ramfs_*] and [vfs_*] is here.  The other file systems (FAT32, axiomefs,
    procfs, devfs) enter through the class [VfsEnv], the model of a filled
    [struct vfs_fops]; [kmalloc] answers from a script in the state, so that
    every allocation may fail and new memory has any content. *)

From Stdlib Require Import String.
From S2P Require Import Prelude CString Security VfsPath.

(** ** Data *)

(** [enum vtype] *)
Inductive vtype := VFS_FILE | VFS_DIR | VFS_PIPE_R | VFS_PIPE_W | VFS_FIFO.

#[global] Instance vtype_eq_dec : EqDecision vtype.
Proof. solve_decision. Defined.

(** [struct pipe]; [p_wait_reader] is the address of the waiting thread, 0 if
    there is none. *)
Record pipe := Pipe {
  p_buf : list Z;
  p_cap : Z;
  p_count : Z;
  p_nreaders : Z;
  p_nwriters : Z;
  p_wait_reader : Z;
  p_shared : bool;
  p_dead : bool;
}.

(** [struct vnode].  [vn_sb] is the index in [g_mounts] that the pointer [sb]
    points to; [vn_data] the [kmalloc]ed content, of [vn_cap] bytes;
    [vn_children] the first [nchildren] entries of the array [children]. *)
Record vnode := Vnode {
  vn_name : list Z;
  vn_type : vtype;
  vn_size : Z;
  vn_sb : option nat;
  vn_priv : option nat;
  vn_refcount : Z;
  vn_attr : vattr;
  vn_data : option (list Z);
  vn_cap : Z;
  vn_children : list nat;
  vn_cap_children : Z;
  vn_parent : option nat;
}.

(** The current process: its security context and the nodes of the open
    descriptors of kind [FD_VNODE]. *)
Record task := Task { tk_cred : cred; tk_fds : list nat }.

(** The statics of vfs.c, the heap, and [sched_current()]. *)
Record vfs := Vfs {
  vf_nodes : gmap nat vnode;
  vf_pipes : gmap nat pipe;
  vf_next : nat;
  vf_heap : list (option Z);
  vf_mounts : list vfs_super;
  vf_nmounts : Z;
  vf_ramfs_sb : option nat;
  vf_root : option nat;
  vf_cur : option task;
}.

Definition set_nodes (f : gmap nat vnode → gmap nat vnode) (s : vfs) : vfs :=
  Vfs (f (vf_nodes s)) (vf_pipes s) (vf_next s) (vf_heap s) (vf_mounts s) (vf_nmounts s)
      (vf_ramfs_sb s) (vf_root s) (vf_cur s).
Definition set_pipes (f : gmap nat pipe → gmap nat pipe) (s : vfs) : vfs :=
  Vfs (vf_nodes s) (f (vf_pipes s)) (vf_next s) (vf_heap s) (vf_mounts s) (vf_nmounts s)
      (vf_ramfs_sb s) (vf_root s) (vf_cur s).
Definition set_mounts (ms : list vfs_super) (n : Z) (s : vfs) : vfs :=
  Vfs (vf_nodes s) (vf_pipes s) (vf_next s) (vf_heap s) ms n (vf_ramfs_sb s) (vf_root s) (vf_cur s).
Definition set_heap (h : list (option Z)) (s : vfs) : vfs :=
  Vfs (vf_nodes s) (vf_pipes s) (vf_next s) h (vf_mounts s) (vf_nmounts s)
      (vf_ramfs_sb s) (vf_root s) (vf_cur s).
Definition set_next (n : nat) (s : vfs) : vfs :=
  Vfs (vf_nodes s) (vf_pipes s) n (vf_heap s) (vf_mounts s) (vf_nmounts s)
      (vf_ramfs_sb s) (vf_root s) (vf_cur s).
Definition set_roots (sb root : option nat) (s : vfs) : vfs :=
  Vfs (vf_nodes s) (vf_pipes s) (vf_next s) (vf_heap s) (vf_mounts s) (vf_nmounts s) sb root (vf_cur s).

(** Before [vfs_init]. *)
Definition zero_super : vfs_super := VfsSuper [] FS_RAMFS FS_RAMFS None.
Definition vfs_boot (heap : list (option Z)) (cur : option task) : vfs :=
  Vfs ∅ ∅ 1 heap (replicate 8 zero_super) 0 None None cur.

(** [kmalloc]: null, or memory filled with some byte.  The script of answers
    may be empty, in which case the allocation succeeds. *)
Definition kmalloc : M vfs (option Z) :=
  h ← gets vf_heap;
  match h with
  | [] => mret (Some 170)
  | a :: h' => modify (set_heap h') ;; mret a
  end.

(** Access through a node pointer; null and freed pointers fault. *)
Definition deref (n : nat) : M vfs vnode :=
  ns ← gets vf_nodes;
  match ns !! n with Some v => mret v | None => fault end.
Definition deref_opt (n : option nat) : M vfs vnode :=
  match n with Some n => deref n | None => fault end.
Definition update (n : nat) (f : vnode → vnode) : M vfs unit :=
  v ← deref n;
  modify (set_nodes (insert n (f v))).
(** [kfree(n)] of a node. *)
Definition kfree_node (n : nat) : M vfs unit :=
  _ ← deref n;
  modify (set_nodes (delete n)).

(** The superblock [&g_mounts[i]]. *)
Definition super (i : nat) : M vfs vfs_super :=
  ms ← gets vf_mounts;
  load ms (Z.of_nat i).

(** Functional updates of the fields of a node. *)
Definition with_sb (sb : option nat) (v : vnode) : vnode :=
  Vnode (vn_name v) (vn_type v) (vn_size v) sb (vn_priv v) (vn_refcount v) (vn_attr v)
        (vn_data v) (vn_cap v) (vn_children v) (vn_cap_children v) (vn_parent v).
Definition with_priv (p : option nat) (v : vnode) : vnode :=
  Vnode (vn_name v) (vn_type v) (vn_size v) (vn_sb v) p (vn_refcount v) (vn_attr v)
        (vn_data v) (vn_cap v) (vn_children v) (vn_cap_children v) (vn_parent v).
Definition with_refcount (c : Z) (v : vnode) : vnode :=
  Vnode (vn_name v) (vn_type v) (vn_size v) (vn_sb v) (vn_priv v) c (vn_attr v)
        (vn_data v) (vn_cap v) (vn_children v) (vn_cap_children v) (vn_parent v).
Definition with_attr (a : vattr) (v : vnode) : vnode :=
  Vnode (vn_name v) (vn_type v) (vn_size v) (vn_sb v) (vn_priv v) (vn_refcount v) a
        (vn_data v) (vn_cap v) (vn_children v) (vn_cap_children v) (vn_parent v).
Definition with_data (d : option (list Z)) (cap size : Z) (v : vnode) : vnode :=
  Vnode (vn_name v) (vn_type v) size (vn_sb v) (vn_priv v) (vn_refcount v) (vn_attr v)
        d cap (vn_children v) (vn_cap_children v) (vn_parent v).
Definition with_children (c : list nat) (cap : Z) (v : vnode) : vnode :=
  Vnode (vn_name v) (vn_type v) (vn_size v) (vn_sb v) (vn_priv v) (vn_refcount v) (vn_attr v)
        (vn_data v) (vn_cap v) c cap (vn_parent v).
Definition with_parent (p : option nat) (v : vnode) : vnode :=
  Vnode (vn_name v) (vn_type v) (vn_size v) (vn_sb v) (vn_priv v) (vn_refcount v) (vn_attr v)
        (vn_data v) (vn_cap v) (vn_children v) (vn_cap_children v) p.

Definition cur_cred : M vfs (option cred) := t ← gets vf_cur; mret (tk_cred <$> t).

(** ** Mounting *)

(** [struct vfs_super *vfs_mount(mountpoint, fs_type, ops, priv)]; the result is
    the index of the new entry. *)
Definition vfs_mount (mountpoint : list Z) (ty : fs_type) (ops : fs_type) : M vfs (option nat) :=
  n ← gets vf_nmounts;
  if MAX_MOUNTS <=? n then mret None
  else
    ms ← gets vf_mounts;
    _ ← load ms n;
    let sb := VfsSuper (take MAX_NAME mountpoint) ty ops None in
    modify (set_mounts (<[Z.to_nat n := sb]> ms) (n + 1)) ;;
    mret (Some (Z.to_nat n)).

(** ** ramfs *)

(** [static struct vnode *ramfs_new_node(const char *name, int type)] *)
Definition ramfs_new_node (name : list Z) (ty : vtype) : M vfs (option nat) :=
  m ← kmalloc;
  match m with
  | None => mret None
  | Some _ =>
    sb ← gets vf_ramfs_sb;
    n ← gets vf_next;
    let mode := if bool_decide (ty = VFS_DIR) then 493 else 420 in
    let v := Vnode (take MAX_NAME name) ty 0 sb None 0 (Vattr 0 0 mode) None 0 [] 0 None in
    modify (λ s, set_next (S n) (set_nodes (insert n v) s)) ;;
    mret (Some n)
  end.

(** [static void ramfs_set_attrs(struct vnode *n, int type)] *)
Definition ramfs_set_attrs (n : nat) (ty : vtype) : M vfs unit :=
  t ← cur_cred;
  let uid := match t with Some c => cr_uid c | None => 0 end in
  let gid := match t with Some c => cr_gid c | None => 0 end in
  update n (with_attr (Vattr uid gid (if bool_decide (ty = VFS_DIR) then 493 else 420))).

(** [static void ramfs_add_child(parent, child)]; a failed allocation returns
    without adding. *)
Definition ramfs_add_child (parent child : nat) : M vfs unit :=
  pv ← deref parent;
  room ← (if vn_cap_children pv <=? Z.of_nat (length (vn_children pv)) then
            let ncap := if vn_cap_children pv =? 0 then 4 else vn_cap_children pv * 2 in
            m ← kmalloc;
            match m with
            | None => mret false
            | Some _ => update parent (with_children (vn_children pv) ncap) ;; mret true
            end
          else mret true);
  if (room : bool) then
    update child (with_parent (Some parent)) ;;
    w ← deref parent;
    if Z.of_nat (length (vn_children w)) <? vn_cap_children w
    then update parent (with_children (vn_children w ++ [child]) (vn_cap_children w))
    else fault
  else mret tt.

(** The loop of [ramfs_find_child]. *)
Fixpoint find_child (cs : list nat) (name : list Z) : M vfs (option nat) :=
  match cs with
  | [] => mret None
  | c :: cs' =>
    v ← deref c;
    if vstrcmp (vn_name v) name =? 0 then mret (Some c) else find_child cs' name
  end.

(** [static struct vnode *ramfs_find_child(struct vnode *dir, const char *name)] *)
Definition ramfs_find_child (dir : nat) (name : list Z) : M vfs (option nat) :=
  d ← deref dir;
  find_child (vn_children d) name.

(** The components of a path, as the scan of [ramfs_walk] cuts them: runs of
    characters other than the slash. *)
Fixpoint path_segs_from (acc p : list Z) : list (list Z) :=
  match p with
  | [] => match acc with [] => [] | _ => [acc] end
  | c :: p' =>
    if c =? 47 then match acc with [] => path_segs_from [] p' | _ => acc :: path_segs_from [] p' end
    else path_segs_from (acc ++ [c]) p'
  end.

Definition path_segs (p : list Z) : list (list Z) := path_segs_from [] p.

(** The loop of [ramfs_walk] over the components. *)
Fixpoint walk_segs (segs : list (list Z)) (cur : nat) : M vfs (option nat) :=
  match segs with
  | [] => mret (Some cur)
  | seg :: segs' =>
    if bool_decide (seg = [46]) then walk_segs segs' cur
    else if bool_decide (seg = [46; 46]) then
      v ← deref cur;
      walk_segs segs' (default cur (vn_parent v))
    else
      v ← deref cur;
      if negb (bool_decide (vn_type v = VFS_DIR)) then mret None
      else
        next ← ramfs_find_child cur (take MAX_NAME seg);
        match next with
        | None => mret None
        | Some n => walk_segs segs' n
        end
  end.

(** [static struct vnode *ramfs_walk(struct vnode *start, const char *relpath)] *)
Definition ramfs_walk (start : nat) (relpath : list Z) : M vfs (option nat) :=
  walk_segs (path_segs relpath) start.

(** [static struct vnode *ramfs_lookup(sb, dir, relpath)] *)
Definition ramfs_lookup (dir : nat) (relpath : list Z) : M vfs (option nat) :=
  match relpath with
  | [] => mret (Some dir)
  | _ => ramfs_walk dir relpath
  end.

(** [while (ncap < need) ncap *= 2;] in [size_t]: at most 64 doublings before
    the value is 0 and stays there. *)
Definition double_cap (need ncap : Z) : M vfs Z :=
  loop_fuel 65 (λ c, if c <? need then mret (inl (u64 (c * 2))) else mret (inr c)) ncap.

(** [static size_t ramfs_ensure_cap(struct vnode *n, size_t need)]; true is the
    return value 0. *)
Definition ramfs_ensure_cap (n : nat) (need : Z) : M vfs bool :=
  v ← deref n;
  if need <=? vn_cap v then mret true
  else
    ncap ← double_cap need (if vn_cap v =? 0 then 64 else vn_cap v);
    m ← kmalloc;
    match m with
    | None => mret false
    | Some g =>
      let old := match vn_data v with Some d => take (Z.to_nat (vn_size v)) d | None => [] end in
      nd ← store_bytes (replicate (Z.to_nat ncap) g) 0 old;
      update n (λ w, with_data (Some nd) ncap (vn_size w) w) ;;
      mret true
    end.

(** [static size_t ramfs_read(sb, n, off, buf, len)]: the bytes copied. *)
Definition ramfs_read (n : nat) (off len : Z) : M vfs (list Z) :=
  v ← deref n;
  if negb (bool_decide (vn_type v = VFS_FILE)) then mret []
  else if vn_size v <=? off then mret []
  else
    let avail := vn_size v - off in
    let r := if len <? avail then len else avail in
    match vn_data v with
    | Some d =>
      if off + r <=? Z.of_nat (length d)
      then mret (take (Z.to_nat r) (drop (Z.to_nat off) d)) else fault
    | None => fault
    end.

(** [static size_t ramfs_write(sb, n, off, buf, len)] *)
Definition ramfs_write (n : nat) (off : Z) (bs : list Z) : M vfs Z :=
  v ← deref n;
  if negb (bool_decide (vn_type v = VFS_FILE)) then mret 0
  else
    let len := strlen bs in
    let need := u64 (off + len) in
    ok ← ramfs_ensure_cap n need;
    if negb ok then mret 0
    else
      v1 ← deref n;
      d ← (match vn_data v1 with
           | Some d => store_bytes d off bs
           | None => match bs with [] => mret [] | _ => fault end
           end);
      let size := if vn_size v1 <? need then need else vn_size v1 in
      update n (λ w, with_data (match vn_data v1 with Some _ => Some d | None => None end) (vn_cap w) size w) ;;
      mret len.

(** [struct vfs_dirent]: type [DT_FILE] 0 or [DT_DIR] 1, and name. *)
Definition vfs_dirent : Type := Z * list Z.

Fixpoint list_children (cs : list nat) : M vfs (list vfs_dirent) :=
  match cs with
  | [] => mret []
  | c :: cs' =>
    v ← deref c;
    rest ← list_children cs';
    mret ((if bool_decide (vn_type v = VFS_DIR) then 1 else 0, take MAX_NAME (vn_name v)) :: rest)
  end.

(** [static int ramfs_list(sb, dir, ents, max)]: the entries stored and the
    count returned (which may exceed [max]). *)
Definition ramfs_list (dir : nat) (max : Z) : M vfs (list vfs_dirent * Z) :=
  v ← deref dir;
  if negb (bool_decide (vn_type v = VFS_DIR)) then mret ([], -1)
  else
    cs ← list_children (take (Z.to_nat (max - 2)) (vn_children v));
    let ents := take (Z.to_nat max) [(1, cstr "."); (1, cstr "..")] ++ cs in
    mret (ents, 2 + Z.of_nat (length (vn_children v))).

(** [dirpath] and [base] of [ramfs_create] and [ramfs_remove]: the path cut at
    its last slash. *)
Fixpoint split_last (p : list Z) : option (list Z * list Z) :=
  match p with
  | [] => None
  | c :: p' =>
    match split_last p' with
    | Some (d, b) => Some (c :: d, b)
    | None => if c =? 47 then Some ([], p') else None
    end
  end.

Definition dir_base (relpath : list Z) : list Z * list Z :=
  match split_last relpath with
  | None => ([], relpath)
  | Some (d, b) => (take MAX_NAME d, b)
  end.

(** The parent directory: [ramfs_walk(sb->root, dirpath[0] ? dirpath : "/")]. *)
Definition walk_parent (sb : nat) (dirpath : list Z) : M vfs (option nat) :=
  s ← super sb;
  match sb_root s with
  | None => fault
  | Some root => ramfs_walk root (match dirpath with [] => [47] | _ => dirpath end)
  end.

Definition add_pipe (p : pipe) : M vfs nat :=
  n ← gets vf_next;
  modify (λ s, set_next (S n) (set_pipes (insert n p) s)) ;;
  mret n.

(** The pipe of a new FIFO: its two allocations and its fields. *)
Definition new_fifo (n : nat) : M vfs bool :=
  m ← kmalloc;
  match m with
  | None => kfree_node n ;; mret false
  | Some _ =>
    b ← kmalloc;
    match b with
    | None => kfree_node n ;; mret false
    | Some g =>
      p ← add_pipe (Pipe (replicate 256 g) 256 0 0 0 0 true false);
      update n (with_priv (Some p)) ;;
      mret true
    end
  end.

(** [static int ramfs_create(sb, relpath, type)] *)
Definition ramfs_create (sb : nat) (relpath : list Z) (ty : vtype) : M vfs Z :=
  let (dirpath, base) := dir_base relpath in
  parent ← walk_parent sb dirpath;
  match parent with
  | None => mret (-1)
  | Some p =>
    pv ← deref p;
    if negb (bool_decide (vn_type pv = VFS_DIR)) then mret (-1)
    else
      old ← ramfs_find_child p base;
      match old with
      | Some _ => mret (-1)
      | None =>
        node ← ramfs_new_node base ty;
        match node with
        | None => mret (-1)
        | Some n =>
          ramfs_set_attrs n ty ;;
          ok ← (if bool_decide (ty = VFS_FIFO) then new_fifo n else mret true);
          if negb ok then mret (-1)
          else ramfs_add_child p n ;; mret 0
        end
      end
  end.

(** Unlink of the pipe of a FIFO: freed, or marked dead while it is open. *)
Definition drop_pipe (p : nat) : M vfs unit :=
  ps ← gets vf_pipes;
  match ps !! p with
  | None => fault
  | Some q =>
    if (p_nreaders q =? 0) && (p_nwriters q =? 0) then modify (set_pipes (delete p))
    else modify (set_pipes (insert p
           (Pipe (p_buf q) (p_cap q) (p_count q) (p_nreaders q) (p_nwriters q) (p_wait_reader q) (p_shared q) true)))
  end.

(** The first occurrence of [n] taken out of the array. *)
Fixpoint remove_child (n : nat) (cs : list nat) : list nat :=
  match cs with
  | [] => []
  | c :: cs' => if bool_decide (c = n) then cs' else c :: remove_child n cs'
  end.

(** [static int ramfs_remove(sb, relpath)] *)
Definition ramfs_remove (sb : nat) (relpath : list Z) : M vfs Z :=
  let (dirpath, base) := dir_base relpath in
  parent ← walk_parent sb dirpath;
  match parent with
  | None => mret (-1)
  | Some p =>
    node ← ramfs_find_child p base;
    root ← gets vf_root;
    match node with
    | None => mret (-1)
    | Some n =>
      if bool_decide (root = Some n) then mret (-1)
      else
        v ← deref n;
        if bool_decide (vn_type v = VFS_DIR) && (0 <? Z.of_nat (length (vn_children v))) then mret (-1)
        else
          update p (λ w, with_children (remove_child n (vn_children w)) (vn_cap_children w) w) ;;
          (match vn_type v, vn_priv v with
           | VFS_FIFO, Some q => drop_pipe q ;; update n (with_priv None)
           | _, _ => mret tt
           end) ;;
          kfree_node n ;;
          mret 0
    end
  end.

(** ** The generic layer *)

(** The operations of the file systems other than ramfs, as [struct vfs_fops]
    has them; an operation that may be a null pointer is an option. *)
Class VfsEnv := {
  ext_lookup : fs_type → nat → option nat → list Z → M vfs (option nat);
  ext_read : fs_type → nat → nat → Z → Z → M vfs (list Z);
  ext_list : fs_type → nat → nat → Z → M vfs (list vfs_dirent * Z);
  ext_create : fs_type → option (nat → list Z → vtype → M vfs Z);
  ext_remove : fs_type → option (nat → list Z → M vfs Z);
  ext_write : fs_type → option (nat → nat → Z → list Z → M vfs Z);
  ext_mmap : fs_type → option (nat → nat → Z → Z → Z → Z → M vfs Z);
  ext_inode_free : fs_type → option (nat → M vfs unit);
}.

Section generic.
Context {env : VfsEnv}.

(** Dispatch through [sb->ops]; [g_ramfs_ops] has every operation but [mmap],
    and its [inode_free] does nothing. *)
Definition op_lookup (ops : fs_type) (sb : nat) (dir : option nat) (rel : list Z) : M vfs (option nat) :=
  match ops with
  | FS_RAMFS => match dir with Some d => ramfs_lookup d rel | None => fault end
  | _ => ext_lookup ops sb dir rel
  end.
Definition op_read (ops : fs_type) (sb n : nat) (off len : Z) : M vfs (list Z) :=
  match ops with FS_RAMFS => ramfs_read n off len | _ => ext_read ops sb n off len end.
Definition op_list (ops : fs_type) (sb n : nat) (max : Z) : M vfs (list vfs_dirent * Z) :=
  match ops with FS_RAMFS => ramfs_list n max | _ => ext_list ops sb n max end.
Definition op_create (ops : fs_type) : option (nat → list Z → vtype → M vfs Z) :=
  match ops with FS_RAMFS => Some ramfs_create | _ => ext_create ops end.
Definition op_remove (ops : fs_type) : option (nat → list Z → M vfs Z) :=
  match ops with FS_RAMFS => Some ramfs_remove | _ => ext_remove ops end.
Definition op_write (ops : fs_type) : option (nat → nat → Z → list Z → M vfs Z) :=
  match ops with FS_RAMFS => Some (λ _, ramfs_write) | _ => ext_write ops end.
Definition op_mmap (ops : fs_type) : option (nat → nat → Z → Z → Z → Z → M vfs Z) :=
  match ops with FS_RAMFS => None | _ => ext_mmap ops end.
Definition op_inode_free (ops : fs_type) : option (nat → M vfs unit) :=
  match ops with FS_RAMFS => Some (λ _, mret tt) | _ => ext_inode_free ops end.

(** An uninitialised [char abs[320]]. *)
Definition abs_buf : list Z := replicate ABS_SIZE 204.

(** [mount_find] over the entries in use. *)
Definition find_mount (abs : list Z) : M vfs (option nat) :=
  ms ← gets vf_mounts;
  n ← gets vf_nmounts;
  mount_find (take (Z.to_nat n) ms) abs.

(** [abs + vstrlen(sb->mountpoint)], a leading slash skipped. *)
Definition rel_path (abs mp : list Z) : list Z :=
  let r := drop (length mp) abs in
  match r with c :: r' => if c =? 47 then r' else r | [] => r end.

(** [struct vnode *vfs_lookup(const char *path, const char *cwd)] *)
Definition vfs_lookup (path cwd : list Z) : M vfs (option nat) :=
  buf ← absolutize path cwd abs_buf;
  let abs := cut0 buf in
  m ← find_mount abs;
  match m with
  | None => mret None
  | Some i =>
    sb ← super i;
    let rel := rel_path abs (sb_mountpoint sb) in
    n ← (match rel with
         | [] => mret (sb_root sb)
         | _ => op_lookup (sb_ops sb) i (sb_root sb) rel
         end);
    match n with
    | Some p => update p (λ v, with_refcount (u32 (vn_refcount v + 1)) v) ;; mret (Some p)
    | None => mret None
    end
  end.

(** [void vfs_release(struct vnode *n)] *)
Definition vfs_release (n : option nat) : M vfs unit :=
  match n with
  | None => mret tt
  | Some n =>
    v ← deref n;
    let c := if 0 <? vn_refcount v then vn_refcount v - 1 else vn_refcount v in
    update n (with_refcount c) ;;
    if c =? 0 then
      match vn_sb v with
      | None => mret tt
      | Some i =>
        sb ← super i;
        match op_inode_free (sb_ops sb) with
        | Some f => f n
        | None => mret tt
        end
      end
    else mret tt
  end.

(** [size_t vfs_read(struct vnode *n, size_t off, void *buf, size_t len)] *)
Definition vfs_read (n : option nat) (off len : Z) : M vfs (list Z) :=
  match n with
  | None => mret []
  | Some n =>
    v ← deref n;
    match vn_sb v with
    | None => mret []
    | Some i => sb ← super i; op_read (sb_ops sb) i n off len
    end
  end.

(** [long vfs_write(struct vnode *n, size_t off, const void *buf, size_t len)] *)
Definition vfs_write (n : option nat) (off : Z) (bs : list Z) : M vfs Z :=
  match n with
  | None => mret (- EBADF)
  | Some n =>
    v ← deref n;
    match vn_sb v with
    | None => mret (- EBADF)
    | Some i =>
      sb ← super i;
      match op_write (sb_ops sb) with
      | None => mret (- EBADF)
      | Some w =>
        t ← cur_cred;
        let denied :=
          match t with
          | None => 0
          | Some c =>
            if bool_decide (cr_role c = ROLE_SYSTEM) then 0
            else if negb (has (cr_caps_eff c) (Z.lor CAP_FILE_WRITE_ANY CAP_FILE_WRITE_SELF)) then - EPERM
            else if bool_decide (vn_type v = VFS_FILE) &&
                    negb (vfs_check_perms t (vn_attr v) VFS_MAY_WRITE =? 0) then - EACCES
            else 0
          end in
        if negb (denied =? 0) then mret denied else w i n off bs
      end
    end
  end.

(** The read loop of [vfs_read_file]: at least one byte a round. *)
Definition read_all (n : nat) (sz : Z) : M vfs (list Z) :=
  loop_fuel (S (Z.to_nat sz)) (λ acc : list Z,
    if strlen acc <? sz then
      r ← vfs_read (Some n) (strlen acc) (sz - strlen acc);
      match r with
      | [] => mret (inr acc)
      | _ => mret (inl (acc ++ r))
      end
    else mret (inr acc)) [].

(** [int vfs_read_file(const char *path, uint8_t **out_buf, size_t *out_size)];
    [None] is the result -1. *)
Definition vfs_read_file (path : list Z) : M vfs (option (list Z)) :=
  n ← vfs_lookup path [47];
  match n with
  | None => mret None
  | Some n =>
    v ← deref n;
    if negb (bool_decide (vn_type v = VFS_FILE)) then vfs_release (Some n) ;; mret None
    else if vn_size v =? 0 then vfs_release (Some n) ;; mret None
    else
      m ← kmalloc;
      match m with
      | None => vfs_release (Some n) ;; mret None
      | Some _ =>
        bs ← read_all n (vn_size v);
        vfs_release (Some n) ;;
        mret (if strlen bs =? vn_size v then Some bs else None)
      end
  end.

(** [long vfs_mmap(n, off, virt, len, flags)] *)
Definition vfs_mmap (n : option nat) (off virt len flags : Z) : M vfs Z :=
  match n with
  | None => mret (-1)
  | Some n =>
    v ← deref n;
    match vn_sb v with
    | None => mret (-1)
    | Some i =>
      sb ← super i;
      match op_mmap (sb_ops sb) with
      | None => mret (-1)
      | Some f => f i n off virt len flags
      end
    end
  end.

(** [int vfs_list(path, cwd, ents, max)]: on an early return the looked-up node
    keeps its reference, as it does on success. *)
Definition vfs_list (path cwd : list Z) (max : Z) : M vfs (list vfs_dirent * Z) :=
  dir ← vfs_lookup path cwd;
  match dir with
  | None => mret ([], -1)
  | Some d =>
    v ← deref d;
    match bool_decide (vn_type v = VFS_DIR), vn_sb v with
    | true, Some i => sb ← super i; op_list (sb_ops sb) i d max
    | _, _ => mret ([], -1)
    end
  end.

(** The common part of [vfs_create] and [vfs_remove]: the gate on the parent
    directory. *)
Definition gate_parent (abs : list Z) : M vfs Z :=
  pd ← vfs_lookup (vfs_parent_path abs) [47];
  dir ← (match pd with Some d => v ← deref d; mret (Some (vn_attr v)) | None => mret None end);
  t ← cur_cred;
  gate ← vfs_gate_write_file t abs dir;
  vfs_release pd ;;
  mret gate.

(** [int vfs_create(const char *path, int type, const char *cwd)] *)
Definition vfs_create (path : list Z) (ty : vtype) (cwd : list Z) : M vfs Z :=
  buf ← absolutize path cwd abs_buf;
  let abs := cut0 buf in
  gate ← gate_parent abs;
  if negb (gate =? 0) then mret (-1)
  else
    m ← find_mount abs;
    match m with
    | None => mret (-1)
    | Some i =>
      sb ← super i;
      match op_create (sb_ops sb) with
      | None => mret (-1)
      | Some f => f i (rel_path abs (sb_mountpoint sb)) ty
      end
    end.

(** [int vfs_remove(const char *path, const char *cwd)] *)
Definition vfs_remove (path : list Z) (cwd : list Z) : M vfs Z :=
  buf ← absolutize path cwd abs_buf;
  let abs := cut0 buf in
  gate ← gate_parent abs;
  if negb (gate =? 0) then mret (-1)
  else
    m ← find_mount abs;
    match m with
    | None => mret (-1)
    | Some i =>
      sb ← super i;
      match op_remove (sb_ops sb) with
      | None => mret (-1)
      | Some f => f i (rel_path abs (sb_mountpoint sb))
      end
    end.

(** [sb->root = root] of a mount record. *)
Definition set_sb_root (i : nat) (root : option nat) : M vfs unit :=
  ms ← gets vf_mounts;
  n ← gets vf_nmounts;
  modify (set_mounts (alter (λ sb, VfsSuper (sb_mountpoint sb) (sb_fs_type sb) (sb_ops sb) root) i ms) n).

(** [int vfs_mount_ramfs(const char *mountpoint)] *)
Definition vfs_mount_ramfs (mountpoint : list Z) : M vfs Z :=
  if negb (bool_decide (head mountpoint = Some 47)) then mret (-1)
  else
    root ← ramfs_new_node [47] VFS_DIR;
    match root with
    | None => mret (-1)
    | Some r =>
      sb ← vfs_mount mountpoint FS_RAMFS FS_RAMFS;
      match sb with
      | None => kfree_node r ;; mret (-1)
      | Some i => update r (with_sb (Some i)) ;; set_sb_root i (Some r) ;; mret 0
      end
    end.

(** [static void ramfs_destroy(struct vnode *n)]; a tree is no deeper than the
    number of its nodes, which is the fuel. *)
Fixpoint ramfs_destroy (fuel : nat) (n : nat) : M vfs unit :=
  match fuel with
  | O => λ _, NoFuel
  | S fuel' =>
    v ← deref n;
    for_list (vn_children v) (ramfs_destroy fuel') ;;
    kfree_node n
  end.

Fixpoint find_mountpoint (mp : list Z) (i : nat) (l : list vfs_super) : option nat :=
  match l with
  | [] => None
  | sb :: l' => if vstrcmp (sb_mountpoint sb) mp =? 0 then Some i else find_mountpoint mp (S i) l'
  end.

(** Does a descriptor of the process still refer to the mount? *)
Fixpoint fd_uses (i : nat) (fds : list nat) : M vfs bool :=
  match fds with
  | [] => mret false
  | n :: fds' =>
    v ← deref n;
    if bool_decide (vn_sb v = Some i) then mret true else fd_uses i fds'
  end.

(** [for (j = idx; j < g_nmounts - 1; j++) g_mounts[j] = g_mounts[j + 1];]: the
    entries above move down by one, the last one stays behind as a copy. *)
Definition shift_mounts (idx : nat) (n : nat) (ms : list vfs_super) : list vfs_super :=
  take idx ms ++ take (n - 1 - idx) (drop (S idx) ms) ++ drop (n - 1) ms.

(** [int vfs_umount(const char *mountpoint)] *)
Definition vfs_umount (mountpoint : list Z) : M vfs Z :=
  ms ← gets vf_mounts;
  n ← gets vf_nmounts;
  match find_mountpoint mountpoint 0 (take (Z.to_nat n) ms) with
  | None => mret (-1)
  | Some idx =>
    ram ← gets vf_ramfs_sb;
    if bool_decide (ram = Some idx) then mret (-1)
    else
      t ← gets vf_cur;
      busy ← (match t with Some t => fd_uses idx (tk_fds t) | None => mret false end);
      if (busy : bool) then mret (-1)
      else
        sb ← super idx;
        size ← gets (λ s, size (vf_nodes s));
        (match sb_fs_type sb, sb_root sb with
         | FS_RAMFS, Some r => ramfs_destroy (S size) r
         | FS_FAT32, Some r => kfree_node r
         | _, _ => mret tt
         end) ;;
        ms' ← gets vf_mounts;
        modify (set_mounts (shift_mounts idx (Z.to_nat n) ms') (n - 1)) ;;
        mret 0
  end.

(** The built-in files. *)
Definition initrd : list (list Z * option (list Z)) :=
  [(cstr "/readme.txt",
    Some (cstr "axiomeOS in-memory filesystem (ramfs)." ++ [10] ++
          cstr "Try: ls, cat readme.txt, mkdir tmp, echo hi > tmp/a.txt" ++ [10]));
   (cstr "/welcome.txt", Some (cstr "Welcome to axiomeOS Phase 10 (VFS)." ++ [10]));
   (cstr "/docs", None);
   (cstr "/docs/notes.txt", Some (cstr "Phase 10 brings a minimal Unix-like VFS over a ramfs." ++ [10]))].

Definition add_initrd (e : list Z * option (list Z)) : M vfs unit :=
  match e with
  | (path, None) => vfs_create path VFS_DIR [47] ;; mret tt
  | (path, Some data) =>
    r ← vfs_create path VFS_FILE [47];
    if r =? 0 then
      n ← vfs_lookup path [47];
      match n with
      | Some _ => vfs_write n 0 data ;; mret tt
      | None => mret tt
      end
    else mret tt
  end.

(** [void vfs_init(void)] *)
Definition vfs_init : M vfs unit :=
  root ← ramfs_new_node [47] VFS_DIR;
  modify (λ s, set_roots (vf_ramfs_sb s) root s) ;;
  match root with
  | None => mret tt
  | Some r =>
    sb ← vfs_mount [47] FS_RAMFS FS_RAMFS;
    modify (λ s, set_roots sb (Some r) s) ;;
    update r (with_sb sb) ;;
    match sb with
    | None => fault
    | Some i => set_sb_root i (Some r) ;; for_list initrd add_initrd
    end
  end.
End generic.

(** ** A machine with the ramfs alone *)

#[global] Instance no_ext : VfsEnv := {
  ext_lookup _ _ _ _ := mret None;
  ext_read _ _ _ _ _ := mret [];
  ext_list _ _ _ _ := mret ([], -1);
  ext_create _ := None;
  ext_remove _ := None;
  ext_write _ := None;
  ext_mmap _ := None;
  ext_inode_free _ := None;
}.

(** ** The tree of nodes *)

(** The content buffer has its capacity and covers the size. *)
Definition data_ok (v : vnode) : Prop :=
  match vn_data v with
  | None => vn_cap v = 0 ∧ vn_size v = 0
  | Some d => Z.of_nat (length d) = vn_cap v ∧ 0 ≤ vn_size v ≤ vn_cap v ∧ 0 < vn_cap v
  end.

Record node_ok (v : vnode) : Prop := {
  no_name : nul_free (vn_name v);
  no_data : data_ok v;
  no_room : Z.of_nat (length (vn_children v)) ≤ vn_cap_children v;
  no_dir : vn_children v ≠ [] → vn_type v = VFS_DIR;
}.

(** The nodes form a forest: children and parents refer to each other, and the
    names within a directory are distinct. *)
Record tree_ok (m : gmap nat vnode) : Prop := {
  tr_node : ∀ n v, m !! n = Some v → node_ok v;
  tr_child : ∀ d dv c, m !! d = Some dv → c ∈ vn_children dv →
    ∃ cv, m !! c = Some cv ∧ vn_parent cv = Some d;
  tr_parent : ∀ c cv d, m !! c = Some cv → vn_parent cv = Some d →
    ∃ dv, m !! d = Some dv ∧ c ∈ vn_children dv;
  tr_names : ∀ d dv i j c1 c2 v1 v2, m !! d = Some dv →
    vn_children dv !! i = Some c1 → vn_children dv !! j = Some c2 →
    m !! c1 = Some v1 → m !! c2 = Some v2 → vn_name v1 = vn_name v2 → i = j;
}.

(** The invariant of the VFS. *)
Record vfs_ok (s : vfs) : Prop := {
  vo_tree : tree_ok (vf_nodes s);
  vo_fresh : ∀ n v, vf_nodes s !! n = Some v → (n < vf_next s)%nat;
  vo_pipe_fresh : ∀ q p, vf_pipes s !! q = Some p → (q < vf_next s)%nat;
  vo_pipe : ∀ n v q, vf_nodes s !! n = Some v → vn_priv v = Some q → is_Some (vf_pipes s !! q);
  vo_pipe_inj : ∀ n1 n2 v1 v2 q, vf_nodes s !! n1 = Some v1 → vf_nodes s !! n2 = Some v2 →
    vn_priv v1 = Some q → vn_priv v2 = Some q → n1 = n2;
  vo_mounts : length (vf_mounts s) = 8%nat ∧ 0 ≤ vf_nmounts s ≤ 8;
  vo_roots : ∀ i sb r, (Z.of_nat i < vf_nmounts s) → vf_mounts s !! i = Some sb → sb_ops sb = FS_RAMFS →
    sb_root sb = Some r → ∃ rv, vf_nodes s !! r = Some rv ∧ vn_parent rv = None ∧ vn_type rv = VFS_DIR;
}.

Lemma wp_node n v s (Q : vnode → vfs → Prop) : vf_nodes s !! n = Some v → Q v s → wp (deref n) Q s.
Proof. intros Hn HQ. unfold deref. wp_step. wp_step. rewrite Hn. by apply wp_ret. Qed.

Lemma wp_node_update n f v s (Q : unit → vfs → Prop) :
  vf_nodes s !! n = Some v → Q tt (set_nodes (insert n (f v)) s) → wp (update n f) Q s.
Proof. intros Hn HQ. unfold update. wp_step. eapply wp_node; [done|]. by wp_step. Qed.

Lemma wp_kmalloc s (Q : option Z → vfs → Prop) :
  (∀ a h, (a = None → None ∈ vf_heap s) → h ⊆ vf_heap s → Q a (set_heap h s)) → wp kmalloc Q s.
Proof.
  intros HQ. unfold kmalloc. wp_step. wp_step. destruct (vf_heap s) as [|a h] eqn:Hh.
  - apply wp_ret. specialize (HQ (Some 170) []). unfold set_heap in HQ. rewrite <-Hh in HQ. destruct s.
    apply HQ; [done|set_solver].
  - wp_steps. apply HQ; [intros ->; by left|set_solver].
Qed.

(** The child a name finds. *)
Definition named (m : gmap nat vnode) (name : list Z) (c : nat) : bool :=
  match m !! c with Some v => bool_decide (vn_name v = name) | None => false end.

Lemma find_child_spec cs name s :
  nul_free name → (∀ c, c ∈ cs → ∃ v, vf_nodes s !! c = Some v ∧ nul_free (vn_name v)) →
  find_child cs name s = Ok (List.find (named (vf_nodes s) name) cs, s).
Proof.
  intros Hn Hcs. apply wp_exact. induction cs as [|c cs IH]; cbn [find_child List.find]; [by apply wp_ret|].
  destruct (Hcs c) as (v & Hv & Hnv); [by left|]. wp_step. eapply wp_node; [done|].
  unfold named at 1. rewrite Hv. unfold vstrcmp. rewrite strcmp_eqb by done.
  destruct (bool_decide _); [by apply wp_ret|].
  apply IH. intros c' Hc'. apply Hcs. by right.
Qed.

Lemma find_child_ok d dv name s :
  tree_ok (vf_nodes s) → vf_nodes s !! d = Some dv → nul_free name →
  ramfs_find_child d name s = Ok (List.find (named (vf_nodes s) name) (vn_children dv), s).
Proof.
  intros Ht Hd Hn. apply wp_exact. unfold ramfs_find_child. wp_step. eapply wp_node; [done|].
  apply wp_ok. eexists _, _. split; [|done]. apply find_child_spec; [done|].
  intros c Hc. destruct (tr_child _ Ht _ _ _ Hd Hc) as (cv & Hcv & _).
  exists cv. split; [done|]. by apply (tr_node _ Ht _ _ Hcv).
Qed.

Lemma find_named m name cs c :
  List.find (named m name) cs = Some c → c ∈ cs ∧ ∃ v, m !! c = Some v ∧ vn_name v = name.
Proof.
  intros [Hc Hn]%List.find_some. split; [by apply list_elem_of_In|]. unfold named in Hn.
  destruct (m !! c) as [v|] eqn:Hv; [|done]. exists v. by apply bool_decide_eq_true in Hn.
Qed.

Lemma find_named_none m name cs c v :
  List.find (named m name) cs = None → c ∈ cs → m !! c = Some v → vn_name v ≠ name.
Proof.
  intros Hf Hc%list_elem_of_In Hv. apply (List.find_none _ _ Hf) in Hc. unfold named in Hc.
  rewrite Hv in Hc. by apply bool_decide_eq_false in Hc.
Qed.

(** A walk changes nothing, returns, and ends at a node or nowhere. *)
Lemma walk_segs_ok segs cur s :
  tree_ok (vf_nodes s) → Forall nul_free segs → is_Some (vf_nodes s !! cur) →
  wp (walk_segs segs cur) (λ r s', s' = s ∧
    match r with Some n => is_Some (vf_nodes s !! n) | None => True end) s.
Proof.
  intros Ht Hs. revert cur. induction Hs as [|seg segs Hseg Hs IH]; intros cur [v Hv]; cbn [walk_segs].
  { by apply wp_ret. }
  destruct (bool_decide (seg = [46])); [by apply IH|].
  destruct (bool_decide (seg = [46; 46])).
  { wp_step. eapply wp_node; [done|]. apply IH. destruct (vn_parent v) as [p|] eqn:Hp; [|done].
    destruct (tr_parent _ Ht _ _ _ Hv Hp) as (pv & ? & _). by eexists. }
  wp_step. eapply wp_node; [done|]. destruct (negb _); [by apply wp_ret|].
  wp_step. apply wp_ok. eexists _, _. split; [by apply find_child_ok; [| |apply Forall_take]|].
  destruct (List.find _ _) as [n|] eqn:Hf; [|by apply wp_ret].
  apply IH. apply find_named in Hf as (_ & nv & ? & _). by eexists.
Qed.

(** ** What updates do to the tree *)

(** A node that nothing refers to yet. *)
Lemma tree_add m n v :
  tree_ok m → m !! n = None → node_ok v → vn_children v = [] → vn_parent v = None →
  tree_ok (<[n := v]> m).
Proof.
  intros [Hn Hc Hp Hd] Hfresh Hok Hch Hpar. split.
  - intros x w [(<- & <-)|(? & ?)]%lookup_insert_Some; eauto.
  - intros d dv c [(<- & <-)|(Hne & Hl)]%lookup_insert_Some Hin; [rewrite Hch in Hin; by inversion Hin|].
    destruct (Hc _ _ _ Hl Hin) as (cv & Hcv & ?). exists cv.
    rewrite lookup_insert_ne by congruence. done.
  - intros c cv d [(<- & <-)|(Hne & Hl)]%lookup_insert_Some Hpv; [congruence|].
    destruct (Hp _ _ _ Hl Hpv) as (dv & Hdv & ?). exists dv.
    rewrite lookup_insert_ne by congruence. done.
  - intros d dv i j c1 c2 v1 v2 [(<- & <-)|(Hne & Hl)]%lookup_insert_Some Hi Hj; [by rewrite Hch in Hi|].
    assert (∀ k c, vn_children dv !! k = Some c → c ≠ n) as Hnn.
    { intros k c Hk ->. apply list_elem_of_lookup_2 in Hk. destruct (Hc _ _ _ Hl Hk) as (? & ? & _). congruence. }
    rewrite !lookup_insert_ne by (apply not_eq_sym; eauto). eauto.
Qed.

(** A node whose name and place in the tree stay the same. *)
Lemma tree_touch m n v v' :
  tree_ok m → m !! n = Some v → node_ok v' →
  vn_name v' = vn_name v → vn_children v' = vn_children v → vn_parent v' = vn_parent v →
  tree_ok (<[n := v']> m).
Proof.
  intros [Hn Hc Hp Hd] Hv Hok Hname Hch Hpar.
  assert (∀ x w', <[n := v']> m !! x = Some w' → ∃ w, m !! x = Some w ∧
    vn_name w' = vn_name w ∧ vn_children w' = vn_children w ∧ vn_parent w' = vn_parent w) as Hback.
  { intros x w' [(<- & <-)|(? & ?)]%lookup_insert_Some; eauto 10. }
  assert (∀ x w, m !! x = Some w → ∃ w', <[n := v']> m !! x = Some w' ∧
    vn_children w' = vn_children w ∧ vn_parent w' = vn_parent w) as Hforth.
  { intros x w Hw. destruct (decide (n = x)) as [<-|Hne].
    - exists v'. rewrite lookup_insert_eq. simplify_eq. done.
    - exists w. by rewrite lookup_insert_ne. }
  split.
  - intros x w [(<- & <-)|(? & ?)]%lookup_insert_Some; eauto.
  - intros d dv c (dv0 & Hd0 & _ & -> & _)%Hback Hin. destruct (Hc _ _ _ Hd0 Hin) as (cv & Hcv & Hpv).
    destruct (Hforth _ _ Hcv) as (cv' & ? & _ & Hp'). exists cv'. by rewrite Hp'.
  - intros c cv d (cv0 & Hc0 & _ & _ & ->)%Hback Hpv. destruct (Hp _ _ _ Hc0 Hpv) as (dv & Hdv & Hin).
    destruct (Hforth _ _ Hdv) as (dv' & ? & Hch' & _). exists dv'. by rewrite Hch'.
  - intros d dv i j c1 c2 v1 v2 (dv0 & Hd0 & _ & -> & _)%Hback Hi Hj
      (w1 & Hw1 & -> & _)%Hback (w2 & Hw2 & -> & _)%Hback. eauto.
Qed.

(** A node without a parent becomes the last child of a directory in which its
    name is new. *)
Lemma tree_link m p pv n v cap :
  tree_ok m → m !! p = Some pv → m !! n = Some v → p ≠ n →
  vn_type pv = VFS_DIR → vn_parent v = None → Z.of_nat (length (vn_children pv)) < cap →
  (∀ c cv, c ∈ vn_children pv → m !! c = Some cv → vn_name cv ≠ vn_name v) →
  tree_ok (<[p := with_children (vn_children pv ++ [n]) cap pv]> (<[n := with_parent (Some p) v]> m)).
Proof.
  intros [Hn Hc Hp Hd] Hpv Hv Hne Hdir Hpar Hcap Hnew.
  set (m' := <[p := _]> _).
  assert (n ∉ vn_children pv) as Hnin.
  { intros Hin. destruct (Hc _ _ _ Hpv Hin) as (w & Hw & Hwp). congruence. }
  assert (m' !! p = Some (with_children (vn_children pv ++ [n]) cap pv)) as Hp'.
  { apply lookup_insert_eq. }
  assert (m' !! n = Some (with_parent (Some p) v)) as Hn'.
  { unfold m'. rewrite lookup_insert_ne by done. apply lookup_insert_eq. }
  assert (∀ x, x ≠ p → x ≠ n → m' !! x = m !! x) as Hx'.
  { intros x ? ?. unfold m'. by rewrite !lookup_insert_ne by done. }
  assert (∀ x w, m !! x = Some w → ∃ w', m' !! x = Some w' ∧ vn_name w' = vn_name w ∧
    (x ≠ n → vn_parent w' = vn_parent w) ∧ vn_children w ⊆ vn_children w') as Hforth.
  { intros x w Hw. destruct (decide (x = p)) as [->|]; [|destruct (decide (x = n)) as [->|]].
    - eexists. split; [done|]. simplify_eq. split_and!; [done|done|]. simpl. set_solver.
    - eexists. split; [done|]. simplify_eq. done.
    - exists w. rewrite Hx' by done. done. }
  assert (∀ x w', m' !! x = Some w' → ∃ w, m !! x = Some w ∧ vn_name w' = vn_name w ∧
    (x ≠ p → vn_children w' = vn_children w)) as Hback.
  { intros x w' Hw. destruct (decide (x = p)) as [->|]; [|destruct (decide (x = n)) as [->|]].
    - simplify_eq. exists pv. by split_and!.
    - simplify_eq. exists v. by split_and!.
    - rewrite Hx' in Hw by done. eauto. }
  split.
  - intros x w Hw. destruct (decide (x = p)) as [->|]; [|destruct (decide (x = n)) as [->|]].
    + simplify_eq. destruct (Hn _ _ Hpv). split; simpl; [done|done| |done].
      rewrite length_app. simpl. lia.
    + simplify_eq. destruct (Hn _ _ Hv). by split.
    + rewrite Hx' in Hw by done. eauto.
  - intros d dv c Hdv Hin. destruct (decide (c = n)) as [->|Hcn].
    + eexists. split; [done|]. simpl. f_equal. destruct (decide (d = p)) as [|Hdp]; [done|].
      destruct (Hback _ _ Hdv) as (w & Hw & _ & Hch). rewrite Hch in Hin by done.
      destruct (Hc _ _ _ Hw Hin) as (? & ? & ?). congruence.
    + assert (∃ dv0, m !! d = Some dv0 ∧ c ∈ vn_children dv0) as (dv0 & Hdv0 & Hin0).
      { destruct (decide (d = p)) as [->|Hdp].
        - simplify_eq. simpl in Hin. exists pv. set_solver.
        - destruct (Hback _ _ Hdv) as (w & Hw & _ & Hch). rewrite Hch in Hin by done. eauto. }
      destruct (Hc _ _ _ Hdv0 Hin0) as (cv & Hcv & Hpc).
      destruct (Hforth _ _ Hcv) as (cv' & ? & _ & Hpp & _). exists cv'. by rewrite Hpp.
  - intros c cv d Hcv Hpc. destruct (decide (c = n)) as [->|Hcn].
    + simplify_eq. simpl in Hpc. simplify_eq. eexists. split; [done|]. simpl. set_solver.
    + assert (∃ cv0, m !! c = Some cv0 ∧ vn_parent cv0 = Some d) as (cv0 & Hcv0 & Hpc0).
      { destruct (decide (c = p)) as [->|]; [simplify_eq; eauto|]. rewrite Hx' in Hcv by done. eauto. }
      destruct (Hp _ _ _ Hcv0 Hpc0) as (dv & Hdv & Hin).
      destruct (Hforth _ _ Hdv) as (dv' & ? & _ & _ & Hsub). exists dv'. split; [done|]. by apply Hsub.
  - intros d dv i j c1 c2 v1 v2 Hdv Hi Hj Hv1 Hv2.
    apply Hback in Hv1 as (w1 & Hw1 & -> & _). apply Hback in Hv2 as (w2 & Hw2 & -> & _).
    destruct (decide (d = p)) as [->|Hdp].
    + simplify_eq. simpl in Hi, Hj. intros Heq.
      apply lookup_snoc_Some in Hi as [[Hil Hi]|[Hil <-]], Hj as [[Hjl Hj]|[Hjl <-]].
      * eauto.
      * exfalso. simplify_eq. eapply Hnew; [by eapply list_elem_of_lookup_2|done|done].
      * exfalso. simplify_eq. eapply Hnew; [by eapply list_elem_of_lookup_2|done|done].
      * lia.
    + destruct (Hback _ _ Hdv) as (w & Hw & _ & Hch). rewrite Hch in Hi, Hj by done. eauto.
Qed.

Lemma remove_child_pos n cs :
  n ∈ cs → ∃ pos, cs !! pos = Some n ∧
    (∀ i c, remove_child n cs !! i = Some c → cs !! (if decide (i < pos)%nat then i else S i) = Some c) ∧
    (∀ c, c ∈ cs → c ≠ n → c ∈ remove_child n cs).
Proof.
  induction cs as [|x cs IH]; intros Hin; [by inversion Hin|]. cbn [remove_child].
  case_bool_decide as Hx.
  - subst x. exists 0%nat. split_and!; [done| |].
    + intros i c Hi. done.
    + intros c Hc Hne. set_solver.
  - destruct IH as (pos & Hpos & Hi & Hc); [set_solver|]. exists (S pos). split_and!; [done| |].
    + intros [|i] c Hic; simpl in *; [done|]. apply Hi in Hic.
      destruct (decide (i < pos)%nat); [rewrite decide_True by lia|rewrite decide_False by lia]; done.
    + intros c. set_solver.
Qed.

Lemma length_remove_child n cs : (length (remove_child n cs) ≤ length cs)%nat.
Proof. induction cs as [|x cs IH]; simpl; [done|]. case_bool_decide; simpl; lia. Qed.

(** A child without children is taken out of its directory and freed. *)
Lemma tree_unlink m p pv n v :
  tree_ok m → m !! p = Some pv → m !! n = Some v → n ∈ vn_children pv → vn_children v = [] →
  tree_ok (delete n (<[p := with_children (remove_child n (vn_children pv)) (vn_cap_children pv) pv]> m)).
Proof.
  intros [Hn Hc Hp Hd] Hpv Hv Hin Hch. set (cs' := remove_child n (vn_children pv)).
  destruct (remove_child_pos n _ Hin) as (pos & Hpos & Hidx & Hkeep). fold cs' in Hidx, Hkeep.
  set (m' := delete n _).
  assert (p ≠ n) as Hpn by (intros ->; simplify_eq; rewrite Hch in Hin; by inversion Hin).
  assert (n ∉ cs') as Hnin.
  { intros (i & Hi)%list_elem_of_lookup. specialize (Hidx i n Hi).
    pose proof (Hd _ _ _ _ _ _ _ _ Hpv Hidx Hpos Hv Hv eq_refl) as E. case_decide; lia. }
  assert (∀ c, c ∈ cs' → c ∈ vn_children pv) as Hsub.
  { intros c (i & Hi)%list_elem_of_lookup. apply Hidx in Hi. by eapply list_elem_of_lookup_2. }
  assert (∀ x w', m' !! x = Some w' → x ≠ n ∧ ∃ w, m !! x = Some w ∧ vn_name w' = vn_name w ∧
    vn_parent w' = vn_parent w ∧
    (x = p → vn_children w' = cs' ∧ w = pv) ∧ (x ≠ p → vn_children w' = vn_children w) ∧ node_ok w') as Hback.
  { intros x w' [Hnx [(<- & <-)|(Hne & Hw)]%lookup_insert_Some]%lookup_delete_Some.
    - split; [done|]. exists pv. split_and!; try done. destruct (Hn _ _ Hpv). split; simpl; try done.
      + pose proof (length_remove_child n (vn_children pv)). unfold cs'. lia.
      + intros _. apply no_dir0. intros E. rewrite E in Hin. by inversion Hin.
    - split; [done|]. exists w'. split_and!; eauto; congruence. }
  assert (∀ x w, m !! x = Some w → x ≠ n → ∃ w', m' !! x = Some w' ∧ vn_parent w' = vn_parent w ∧
    vn_children w' = (if decide (x = p) then cs' else vn_children w)) as Hforth.
  { intros x w Hw Hx. unfold m'. rewrite lookup_delete_ne by done. destruct (decide (x = p)) as [->|].
    - rewrite lookup_insert_eq. simplify_eq. eauto.
    - rewrite lookup_insert_ne by done. eauto. }
  split.
  - intros x w (_ & w0 & _ & _ & _ & _ & _ & ?)%Hback. done.
  - intros d dv c (Hdn & w & Hw & _ & _ & Hp1 & Hp2 & _)%Hback Hc'.
    assert (c ∈ vn_children w ∧ c ≠ n) as [Hcw Hcn].
    { destruct (decide (d = p)) as [->|Hdp].
      - destruct Hp1 as [E ->]; [done|]. rewrite E in Hc'. split; [by apply Hsub|]. by intros ->.
      - rewrite Hp2 in Hc' by done. split; [done|]. intros ->.
        destruct (Hc _ _ _ Hw Hc') as (? & ? & ?). destruct (Hc _ _ _ Hpv Hin) as (? & ? & ?). congruence. }
    destruct (Hc _ _ _ Hw Hcw) as (cv & Hcv & Hpc). destruct (Hforth _ _ Hcv Hcn) as (cv' & ? & E & _).
    exists cv'. by rewrite E.
  - intros c cv d (Hcn & w & Hw & _ & -> & _)%Hback Hpc.
    destruct (Hp _ _ _ Hw Hpc) as (dv & Hdv & Hcd).
    assert (d ≠ n) as Hdn by (intros ->; simplify_eq; rewrite Hch in Hcd; by inversion Hcd).
    destruct (Hforth _ _ Hdv Hdn) as (dv' & ? & _ & E). exists dv'. split; [done|]. rewrite E.
    case_decide; [|done]. simplify_eq. by apply Hkeep.
  - intros d dv i j c1 c2 v1 v2 (_ & w & Hw & _ & _ & Hp1 & Hp2 & _)%Hback Hi Hj
      (_ & w1 & Hw1 & -> & _)%Hback (_ & w2 & Hw2 & -> & _)%Hback Heq.
    destruct (decide (d = p)) as [->|Hdp].
    + destruct Hp1 as [E ->]; [done|]. rewrite E in Hi, Hj. apply Hidx in Hi, Hj.
      pose proof (Hd _ _ _ _ _ _ _ _ Hw Hi Hj Hw1 Hw2 Heq) as Hij.
      repeat case_decide; lia.
    + rewrite Hp2 in Hi, Hj by done. eauto.
Qed.

(** ** The invariant of the VFS under the primitive updates *)

Definition not_root (s : vfs) (n : nat) : Prop :=
  ∀ i sb, Z.of_nat i < vf_nmounts s → vf_mounts s !! i = Some sb → sb_ops sb = FS_RAMFS → sb_root sb ≠ Some n.

Lemma ok_set_heap s h : vfs_ok s → vfs_ok (set_heap h s).
Proof. intros []. by split. Qed.

Lemma fresh_not_root s : vfs_ok s → not_root s (vf_next s).
Proof.
  intros Hok i sb Hi Hsb Hr Heq. destruct (vo_roots _ Hok _ _ _ Hi Hsb Hr Heq) as (rv & Hrv & _).
  apply (vo_fresh _ Hok) in Hrv. lia.
Qed.

Lemma ok_add_node s v :
  vfs_ok s → node_ok v → vn_children v = [] → vn_parent v = None → vn_priv v = None →
  vfs_ok (set_next (S (vf_next s)) (set_nodes (insert (vf_next s) v) s)).
Proof.
  intros Hok Hv Hch Hpar Hpriv.
  assert (vf_nodes s !! vf_next s = None) as Hnone.
  { destruct (vf_nodes s !! vf_next s) eqn:E; [|done]. apply (vo_fresh _ Hok) in E. lia. }
  destruct Hok. split; simpl; [by apply tree_add| | | | |done|].
  - intros n w [(<- & <-)|(? & ?)]%lookup_insert_Some; [lia|]. by apply Nat.lt_lt_succ_r; eauto.
  - intros q p Hq. apply Nat.lt_lt_succ_r; eauto.
  - intros n w q [(<- & <-)|(? & ?)]%lookup_insert_Some; [congruence|eauto].
  - intros n1 n2 v1 v2 q [(<- & <-)|(? & ?)]%lookup_insert_Some [(<- & <-)|(? & ?)]%lookup_insert_Some;
      try congruence; eauto.
  - intros i sb r Hi Hsb Hr Hroot. destruct (vo_roots0 i sb r) as (rv & Hrv & ?); [done..|].
    exists rv. by rewrite lookup_insert_ne by congruence.
Qed.

(** An update that keeps name, type, place and pipe. *)
Lemma ok_touch s n v v' :
  vfs_ok s → vf_nodes s !! n = Some v → node_ok v' →
  vn_name v' = vn_name v → vn_type v' = vn_type v → vn_children v' = vn_children v →
  vn_parent v' = vn_parent v → vn_priv v' = vn_priv v →
  vfs_ok (set_nodes (insert n v') s).
Proof.
  intros Hok Hv Hv' Hname Hty Hch Hpar Hpriv.
  assert (∀ x w', <[n := v']> (vf_nodes s) !! x = Some w' → ∃ w, vf_nodes s !! x = Some w ∧ vn_priv w' = vn_priv w)
    as Hback.
  { intros x w' [(<- & <-)|(? & ?)]%lookup_insert_Some; eauto. }
  destruct Hok. split; simpl; [by eapply tree_touch| |done| | |done|].
  - intros x w' (w & ? & _)%Hback. eauto.
  - intros x w' q (w & ? & ->)%Hback. eauto.
  - intros n1 n2 v1 v2 q (w1 & ? & ->)%Hback (w2 & ? & ->)%Hback. eauto.
  - intros i sb r Hi Hsb Hr Hroot. destruct (vo_roots0 i sb r) as (rv & Hrv & ? & ?); [done..|].
    destruct (decide (n = r)) as [<-|Hne].
    + exists v'. rewrite lookup_insert_eq. simplify_eq. by rewrite Hpar, Hty.
    + exists rv. by rewrite lookup_insert_ne.
Qed.

Lemma ok_link s p pv n v cap :
  vfs_ok s → vf_nodes s !! p = Some pv → vf_nodes s !! n = Some v → p ≠ n → not_root s n →
  vn_type pv = VFS_DIR → vn_parent v = None → Z.of_nat (length (vn_children pv)) < cap →
  (∀ c cv, c ∈ vn_children pv → vf_nodes s !! c = Some cv → vn_name cv ≠ vn_name v) →
  vfs_ok (set_nodes (insert p (with_children (vn_children pv ++ [n]) cap pv))
            (set_nodes (insert n (with_parent (Some p) v)) s)).
Proof.
  intros Hok Hpv Hv Hne Hroot Hdir Hpar Hcap Hnew. set (s' := set_nodes _ _).
  assert (∀ x w', vf_nodes s' !! x = Some w' → ∃ w, vf_nodes s !! x = Some w ∧ vn_priv w' = vn_priv w) as Hback.
  { intros x w'. unfold s'. simpl.
    intros [(<- & <-)|(? & [(<- & <-)|(? & ?)]%lookup_insert_Some)]%lookup_insert_Some; eauto. }
  destruct Hok. split; [by apply tree_link| |done| | |done|].
  - intros x w' (w & ? & _)%Hback. simpl. eauto.
  - intros x w' q (w & ? & ->)%Hback. simpl. eauto.
  - intros n1 n2 v1 v2 q (w1 & ? & ->)%Hback (w2 & ? & ->)%Hback. eauto.
  - intros i sb r Hi Hsb Hr Hrt. destruct (vo_roots0 i sb r) as (rv & Hrv & ? & ?); [done..|].
    assert (r ≠ n) by (intros ->; by eapply Hroot).
    destruct (decide (r = p)) as [->|].
    + eexists. simpl. rewrite lookup_insert_eq. split; [done|]. simplify_eq. done.
    + exists rv. simpl. by rewrite !lookup_insert_ne by done.
Qed.

(** A node outside the tree is freed again. *)
Lemma ok_drop_leaf s n v :
  vfs_ok s → vf_nodes s !! n = Some v → vn_children v = [] → vn_parent v = None → not_root s n →
  vfs_ok (set_nodes (delete n) s).
Proof.
  intros Hok Hv Hch Hpar Hroot. destruct Hok as [[Hn Hc Hp Hd] ? ? ? ? ? ?].
  split; simpl; [split| | | | | |].
  - intros x w [? ?]%lookup_delete_Some. eauto.
  - intros d dv c [? Hdv]%lookup_delete_Some Hin. destruct (Hc _ _ _ Hdv Hin) as (cv & ? & ?).
    exists cv. rewrite lookup_delete_ne by congruence. done.
  - intros c cv d [? Hcv]%lookup_delete_Some Hpc. destruct (Hp _ _ _ Hcv Hpc) as (dv & ? & Hin).
    exists dv. rewrite lookup_delete_ne; [done|]. intros ->. simplify_eq. rewrite Hch in Hin. by inversion Hin.
  - intros d dv i j c1 c2 v1 v2 [_ ?]%lookup_delete_Some ? ? [_ ?]%lookup_delete_Some [_ ?]%lookup_delete_Some. eauto.
  - intros x w [_ ?]%lookup_delete_Some. eauto.
  - done.
  - intros x w q [_ ?]%lookup_delete_Some. eauto.
  - intros n1 n2 v1 v2 q [_ ?]%lookup_delete_Some [_ ?]%lookup_delete_Some. eauto.
  - done.
  - intros i sb r Hi Hsb Hr Hrt. destruct (vo_roots0 i sb r) as (rv & ? & ?); [done..|].
    exists rv. rewrite lookup_delete_ne; [done|]. intros ->. by eapply Hroot.
Qed.

(** ** Creating a node *)

Lemma path_segs_nul_free acc p : nul_free acc → nul_free p → Forall nul_free (path_segs_from acc p).
Proof.
  intros Ha Hp. revert acc Ha. induction Hp as [|c p Hc Hp IH]; intros acc Ha; cbn [path_segs_from].
  - destruct acc; [constructor|]. constructor; [done|constructor].
  - assert (nul_free []) by constructor. case_match.
    + destruct acc; [by apply IH|]. constructor; [done|by apply IH].
    + apply IH, nul_free_app. split; [done|by repeat constructor].
Qed.

Lemma split_last_app p d b : split_last p = Some (d, b) → p = d ++ 47 :: b.
Proof.
  revert d b. induction p as [|c p IH]; intros d b Hs; simpl in Hs; [done|].
  destruct (split_last p) as [[d' b']|].
  - simplify_eq. by rewrite (IH d' b).
  - destruct (Z.eqb_spec c 47); simplify_eq. done.
Qed.

Lemma dir_base_nul_free rel d b : nul_free rel → dir_base rel = (d, b) → nul_free d ∧ nul_free b.
Proof.
  intros Hr. unfold dir_base. destruct (split_last rel) as [[d' b']|] eqn:Hs; intros [= <- <-].
  - apply split_last_app in Hs as ->. apply nul_free_app in Hr as [Hd Hb].
    inversion Hb; subst. split; [by apply Forall_take|done].
  - split; [constructor|done].
Qed.

Lemma dir_base_short rel d b : (length rel ≤ 255)%nat → dir_base rel = (d, b) → (length b ≤ 255)%nat.
Proof.
  intros Hlen. unfold dir_base. destruct (split_last rel) as [[d' b']|] eqn:Hs; intros [= _ <-]; [|done].
  apply split_last_app in Hs as ->. rewrite length_app in Hlen. simpl in Hlen. lia.
Qed.

(** A mount of the ramfs with its root directory. *)
Definition ramfs_mount (s : vfs) (sb r : nat) : Prop :=
  ∃ b, Z.of_nat sb < vf_nmounts s ∧ vf_mounts s !! sb = Some b ∧ sb_ops b = FS_RAMFS ∧ sb_root b = Some r.

(** The directory a path names from the root [r]. *)
Definition dir_path (d : list Z) : list Z := match d with [] => [47] | _ => d end.

Lemma wp_walk_parent s sb r dirpath (Q : option nat → vfs → Prop) :
  vfs_ok s → ramfs_mount s sb r → nul_free dirpath →
  (∀ p, ramfs_walk r (dir_path dirpath) s = Ok (p, s) →
        (∀ n, p = Some n → is_Some (vf_nodes s !! n)) → Q p s) →
  wp (walk_parent sb dirpath) Q s.
Proof.
  intros Hok (b & Hn & Hb & Hops & Hroot) Hd HQ. unfold walk_parent. wp_step.
  unfold super. wp_step. wp_step. eapply wp_load; [lia|by rewrite Nat2Z.id|]. rewrite Hroot.
  fold (dir_path dirpath).
  destruct (vo_roots _ Hok _ _ _ Hn Hb Hops Hroot) as (rv & Hrv & _).
  assert (Forall nul_free (path_segs (dir_path dirpath))) as Hsegs.
  { apply path_segs_nul_free; [constructor|]. destruct dirpath; [by repeat constructor|done]. }
  pose proof (walk_segs_ok (path_segs (dir_path dirpath)) r s (vo_tree _ Hok) Hsegs ltac:(by eexists)) as Hw.
  apply wp_ok in Hw as (p & s' & Hrun & -> & Hp). apply wp_ok. exists p, s. split; [done|].
  apply HQ; [done|]. by intros n ->.
Qed.

(** The node of a creation before it is linked. *)
Record leaf (v : vnode) (name : list Z) (ty : vtype) : Prop := {
  lf_name : vn_name v = name;
  lf_type : vn_type v = ty;
  lf_children : vn_children v = [];
  lf_parent : vn_parent v = None;
  lf_data : vn_data v = None ∧ vn_size v = 0 ∧ vn_cap v = 0;
  lf_ok : node_ok v;
}.

(** [s'] is [s] with one fresh node outside the tree. *)
Record grown (s s' : vfs) (n : nat) (v : vnode) : Prop := {
  gr_ok : vfs_ok s';
  gr_nodes : vf_nodes s' = <[n := v]> (vf_nodes s);
  gr_fresh : vf_nodes s !! n = None;
  gr_root : not_root s' n;
  gr_heap : vf_heap s' ⊆ vf_heap s;
  gr_same : vf_mounts s' = vf_mounts s ∧ vf_nmounts s' = vf_nmounts s ∧ vf_root s' = vf_root s ∧
            vf_cur s' = vf_cur s ∧ vf_ramfs_sb s' = vf_ramfs_sb s;
}.

Lemma grown_touch s s' n v v' :
  grown s s' n v → node_ok v' →
  vn_name v' = vn_name v → vn_type v' = vn_type v → vn_children v' = vn_children v →
  vn_parent v' = vn_parent v → vn_priv v' = vn_priv v →
  grown s (set_nodes (insert n v') s') n v'.
Proof.
  intros [] Hv' ? ? ? ? ?. split; simpl; try done.
  - eapply ok_touch; [done|by rewrite gr_nodes0, lookup_insert_eq|done..].
  - by rewrite gr_nodes0, insert_insert_eq.
Qed.

Lemma wp_new_node s name ty (Q : option nat → vfs → Prop) :
  vfs_ok s → nul_free name →
  (∀ h, None ∈ vf_heap s → Q None (set_heap h s)) →
  (∀ s' n v, grown s s' n v → leaf v (take MAX_NAME name) ty → vn_priv v = None → Q (Some n) s') →
  wp (ramfs_new_node name ty) Q s.
Proof.
  intros Hok Hn HQ0 HQ. unfold ramfs_new_node. wp_step. apply wp_kmalloc. intros a h Ha Hh.
  destruct a as [g|]; [|apply wp_ret; auto].
  do 3 wp_step. wp_step. wp_step. apply wp_modify. apply wp_ret.
  set (v := Vnode _ _ _ _ _ _ _ _ _ _ _ _). simpl (vf_next (set_heap h s)).
  assert (node_ok v) as Hv.
  { split; simpl; [by apply Forall_take|done|lia|done]. }
  assert (vf_nodes s !! vf_next s = None) as Hnone.
  { destruct (vf_nodes s !! vf_next s) eqn:E; [|done]. apply (vo_fresh _ Hok) in E. lia. }
  apply (HQ _ _ v); [|by split|done]. split; [|done|done| |done|done].
  - apply (ok_add_node (set_heap h s)); [by apply ok_set_heap|done..].
  - apply (fresh_not_root s Hok).
Qed.

Lemma leaf_attr v name ty a : leaf v name ty → leaf (with_attr a v) name ty.
Proof. intros [? ? ? ? ? []]. split; [done..|]. by split. Qed.

Lemma leaf_priv v name ty q : leaf v name ty → leaf (with_priv q v) name ty.
Proof. intros [? ? ? ? ? []]. split; [done..|]. by split. Qed.

Lemma wp_set_attrs s s' n v name ty (Q : unit → vfs → Prop) :
  grown s s' n v → leaf v name ty → vn_priv v = None →
  (∀ s'' w, grown s s'' n w → leaf w name ty → vn_priv w = None → Q tt s'') →
  wp (ramfs_set_attrs n ty) Q s'.
Proof.
  intros Hg Hl Hpriv HQ. unfold ramfs_set_attrs, cur_cred. do 4 wp_step.
  eapply wp_node_update; [by rewrite (gr_nodes _ _ _ _ Hg), lookup_insert_eq|].
  eapply HQ; [|by apply leaf_attr|done]. eapply grown_touch; try done. apply (leaf_attr _ _ _ _ Hl).
Qed.

(** A pipe of its own for a node that has none. *)
Lemma ok_add_pipe s n v p :
  vfs_ok s → vf_nodes s !! n = Some v → vn_priv v = None → node_ok v →
  vfs_ok (set_nodes (insert n (with_priv (Some (vf_next s)) v))
            (set_next (S (vf_next s)) (set_pipes (insert (vf_next s) p) s))).
Proof.
  intros Hok Hv Hpriv Hnode.
  assert (∀ x w', <[n := with_priv (Some (vf_next s)) v]> (vf_nodes s) !! x = Some w' →
    (x = n ∧ vn_priv w' = Some (vf_next s)) ∨ (x ≠ n ∧ vf_nodes s !! x = Some w')) as Hback.
  { intros x w' [(<- & <-)|(? & ?)]%lookup_insert_Some; auto. }
  assert (∀ x w q, vf_nodes s !! x = Some w → vn_priv w = Some q → (q < vf_next s)%nat) as Hlt.
  { intros x w q Hx Hq. destruct (vo_pipe _ Hok _ _ _ Hx Hq) as [p' Hp']. by apply (vo_pipe_fresh _ Hok) in Hp'. }
  destruct Hok. split; simpl; [| | | | |done|].
  - eapply tree_touch; try done. destruct Hnode. by split.
  - intros x w Hx. apply lookup_insert_Some in Hx as [(<- & <-)|(? & ?)]; apply Nat.lt_lt_succ_r; eauto.
  - intros q p' [(<- & <-)|(? & ?)]%lookup_insert_Some; [lia|]. apply Nat.lt_lt_succ_r; eauto.
  - intros x w q [(-> & ->)|(? & ?)]%Hback; [intros [= <-]; rewrite lookup_insert_eq; by eexists|].
    intros Hq. apply lookup_insert_is_Some. right. split; [|eauto]. specialize (Hlt _ _ _ H0 Hq). lia.
  - intros n1 n2 v1 v2 q [(-> & H1)|(? & ?)]%Hback [(-> & H2)|(? & ?)]%Hback Hq1 Hq2; try done; eauto.
    + simplify_eq. specialize (Hlt _ _ _ H0 Hq2). lia.
    + simplify_eq. specialize (Hlt _ _ _ H0 Hq1). lia.
  - intros i sb r Hi Hsb Hr Hrt. destruct (vo_roots0 i sb r) as (rv & Hrv & ? & ?); [done..|].
    destruct (decide (n = r)) as [<-|Hne].
    + eexists. rewrite lookup_insert_eq. split; [done|]. simplify_eq. done.
    + exists rv. by rewrite lookup_insert_ne.
Qed.

Lemma grown_heap s s' n v h : grown s s' n v → h ⊆ vf_heap s' → grown s (set_heap h s') n v.
Proof.
  intros [] Hh. split; simpl; try done; [by apply ok_set_heap|]. by etransitivity.
Qed.

Lemma wp_kfree_grown s s' n v name ty (Q : unit → vfs → Prop) :
  grown s s' n v → leaf v name ty →
  (∀ s'', vfs_ok s'' → vf_nodes s'' = vf_nodes s → Q tt s'') → wp (kfree_node n) Q s'.
Proof.
  intros Hg Hl HQ. destruct Hg. unfold kfree_node. wp_step.
  eapply wp_node; [by rewrite gr_nodes0, lookup_insert_eq|]. wp_step. apply HQ.
  - eapply ok_drop_leaf; [done|by rewrite gr_nodes0, lookup_insert_eq|apply Hl|apply Hl|done].
  - simpl. by rewrite gr_nodes0, delete_insert_id.
Qed.

Lemma wp_new_fifo s s' n v name ty (Q : bool → vfs → Prop) :
  grown s s' n v → leaf v name ty → vn_priv v = None →
  (∀ s'', vfs_ok s'' → vf_nodes s'' = vf_nodes s → None ∈ vf_heap s → Q false s'') →
  (∀ s'' w, grown s s'' n w → leaf w name ty → Q true s'') →
  wp (new_fifo n) Q s'.
Proof.
  intros Hg Hl Hpriv HF HT. unfold new_fifo. wp_step. apply wp_kmalloc. intros a h Ha Hh.
  pose proof (grown_heap _ _ _ _ h Hg Hh) as Hg1. pose proof (gr_heap _ _ _ _ Hg) as Hsub.
  destruct a as [g|].
  2:{ wp_step. eapply wp_kfree_grown; [done|done|]. intros s'' ? ?. apply wp_ret, HF; auto. }
  wp_step. apply wp_kmalloc. intros b h2 Hb Hh2. pose proof (grown_heap _ _ _ _ h2 Hg1 Hh2) as Hg2.
  destruct b as [g2|].
  2:{ wp_step. eapply wp_kfree_grown; [done|done|]. intros s'' ? ?. apply wp_ret, HF; auto. }
  wp_step. unfold add_pipe. wp_step. wp_step. wp_step. wp_step. wp_step. wp_step.
  destruct Hg2. simpl in *. eapply wp_node_update; [simpl; by rewrite gr_nodes0, lookup_insert_eq|]. apply wp_ret.
  apply (HT _ (with_priv (Some (vf_next s')) v)); [|by apply leaf_priv].
  split; simpl; try done.
  - apply (ok_add_pipe (set_heap h2 (set_heap h s'))); [done|simpl; by rewrite gr_nodes0, lookup_insert_eq|done|apply Hl].
  - by rewrite gr_nodes0, insert_insert_eq.
Qed.

(** The fresh node [n] is the last child of [p]; nothing else changed. *)
Definition linked (s s' : vfs) (p n : nat) (name : list Z) (ty : vtype) : Prop :=
  ∃ pv cap v, vf_nodes s !! p = Some pv ∧ vf_nodes s !! n = None ∧
    vf_nodes s' = <[p := with_children (vn_children pv ++ [n]) cap pv]> (<[n := v]> (vf_nodes s)) ∧
    vn_name v = name ∧ vn_type v = ty ∧ vn_parent v = Some p ∧ vn_children v = [].

(** The fresh node [n] hangs nowhere: an allocation failed. *)
Definition orphaned (s s' : vfs) (n : nat) : Prop :=
  None ∈ vf_heap s ∧ vf_nodes s !! n = None ∧
  ∃ v, vf_nodes s' = <[n := v]> (vf_nodes s) ∧ vn_parent v = None.

Lemma wp_add_child s s' p pv n v name ty (Q : unit → vfs → Prop) :
  grown s s' n v → leaf v name ty → vf_nodes s !! p = Some pv → vn_type pv = VFS_DIR → node_ok pv →
  (∀ c cv, c ∈ vn_children pv → vf_nodes s !! c = Some cv → vn_name cv ≠ name) →
  (∀ s'', vfs_ok s'' → linked s s'' p n name ty ∨ orphaned s s'' n → Q tt s'') →
  wp (ramfs_add_child p n) Q s'.
Proof.
  intros Hg Hl Hp Hdir Hpok Hnew HQ.
  assert (p ≠ n) as Hpn by (intros ->; by rewrite (gr_fresh _ _ _ _ Hg) in Hp).
  assert (∀ s1 cap, grown s s1 n v → Z.of_nat (length (vn_children pv)) < cap →
    vf_nodes s1 !! p = Some pv →
    Q tt (set_nodes (insert p (with_children (vn_children pv ++ [n]) cap pv))
            (set_nodes (insert n (with_parent (Some p) v)) s1))) as Hdone.
  { intros s1 cap Hg1 Hcap Hp1. apply HQ.
    - apply ok_link; [apply Hg1|done|by rewrite (gr_nodes _ _ _ _ Hg1), lookup_insert_eq|done|apply Hg1|done|apply Hl|done|].
      intros c cv Hc Hcv. rewrite (lf_name _ _ _ Hl).
      assert (c ≠ n) as Hcn.
      { intros ->. destruct (tr_child _ (vo_tree _ (gr_ok _ _ _ _ Hg1)) _ _ _ Hp1 Hc) as (w & Hw & Hwp).
        rewrite (gr_nodes _ _ _ _ Hg1), lookup_insert_eq in Hw. simplify_eq.
        rewrite (lf_parent _ _ _ Hl) in Hwp. done. }
      rewrite (gr_nodes _ _ _ _ Hg1), lookup_insert_ne in Hcv by done. eauto.
    - left. exists pv, cap, (with_parent (Some p) v).
      split_and!; [done|apply Hg1| |apply Hl|apply Hl|done|apply Hl].
      simpl. by rewrite (gr_nodes _ _ _ _ Hg1), insert_insert_eq. }
  assert (vf_nodes s' !! p = Some pv) as Hp' by (by rewrite (gr_nodes _ _ _ _ Hg), lookup_insert_ne).
  assert (vf_nodes s' !! n = Some v) as Hn' by (by rewrite (gr_nodes _ _ _ _ Hg), lookup_insert_eq).
  unfold ramfs_add_child. wp_step. eapply wp_node; [done|]. wp_step.
  destruct (Z.leb_spec (vn_cap_children pv) (Z.of_nat (length (vn_children pv)))) as [Hfull|Hroom].
  - wp_step. apply wp_kmalloc. intros a h Ha Hh. pose proof (grown_heap _ _ _ _ h Hg Hh) as Hgh.
    destruct a as [g|].
    2:{ apply wp_ret. apply wp_ret. apply HQ; [apply Hgh|]. right. split_and!.
        - by apply (gr_heap _ _ _ _ Hg), Ha.
        - apply Hg.
        - exists v. split; [apply Hgh|apply Hl]. }
    set (ncap := if vn_cap_children pv =? 0 then 4 else vn_cap_children pv * 2).
    assert (Z.of_nat (length (vn_children pv)) < ncap) as Hncap.
    { destruct Hpok. unfold ncap. destruct (Z.eqb_spec (vn_cap_children pv) 0); lia. }
    wp_step. eapply wp_node_update; [done|]. wp_step. wp_step.
    eapply wp_node_update; [simpl; by rewrite lookup_insert_ne|]. wp_step.
    eapply wp_node; [simpl; rewrite lookup_insert_ne by done; by rewrite lookup_insert_eq|].
    cbn [vn_children with_children vn_cap_children]. decide_cmps.
    eapply wp_node_update; [simpl; rewrite lookup_insert_ne by done; by rewrite lookup_insert_eq|].
    specialize (Hdone (set_heap h s') ncap Hgh Hncap Hp').
    match goal with |- Q tt ?t => match type of Hdone with Q tt ?t' =>
      assert (t = t') as ->; [|done] end end.
    unfold set_nodes. simpl. f_equal. apply map_eq. intros x.
    destruct (decide (x = p)) as [->|]; [by rewrite !lookup_insert_eq|].
    rewrite !(lookup_insert_ne _ p x) by done. destruct (decide (x = n)) as [->|]; [by rewrite !lookup_insert_eq|].
    by rewrite !lookup_insert_ne by done.
  - wp_step. wp_step. eapply wp_node_update; [done|]. wp_step.
    eapply wp_node; [simpl; by rewrite lookup_insert_ne|]. decide_cmps.
    eapply wp_node_update; [simpl; by rewrite lookup_insert_ne|]. by apply Hdone.
Qed.

(** The directory [p] may get a child [b]. *)
Definition can_create (s : vfs) (r : nat) (d b : list Z) (p : nat) (pv : vnode) : Prop :=
  ramfs_walk r (dir_path d) s = Ok (Some p, s) ∧
  vf_nodes s !! p = Some pv ∧ vn_type pv = VFS_DIR ∧
  (∀ c cv, c ∈ vn_children pv → vf_nodes s !! c = Some cv → vn_name cv ≠ b).

(** What a creation may do: it fails when there is no directory to create in or
    no memory, and changes no node then. *)
Definition create_result (s s' : vfs) (r : nat) (relpath : list Z) (ty : vtype) (res : Z) : Prop :=
  let (d, b) := dir_base relpath in
  (res = -1 ∧ vf_nodes s' = vf_nodes s ∧ (None ∈ vf_heap s ∨ ∀ p pv, ¬ can_create s r d b p pv)) ∨
  (res = 0 ∧ ∃ p pv n, can_create s r d b p pv ∧ (linked s s' p n b ty ∨ orphaned s s' n)).

Lemma wp_ramfs_create s sb r relpath ty :
  vfs_ok s → ramfs_mount s sb r → nul_free relpath → (length relpath ≤ 255)%nat →
  wp (ramfs_create sb relpath ty) (λ res s', vfs_ok s' ∧ create_result s s' r relpath ty res) s.
Proof.
  intros Hok Hm Hrel Hlen. unfold create_result.
  destruct (dir_base relpath) as [d b] eqn:Hdb.
  set (Q := λ (res : Z) (s' : vfs), _).
  assert ((∀ p pv, ¬ can_create s r d b p pv) → Q (-1) s) as Hno by (intros Hc; split; [done|]; left; auto).
  unfold ramfs_create. rewrite Hdb.
  destruct (dir_base_nul_free _ _ _ Hrel Hdb) as [Hd Hb].
  assert (take MAX_NAME b = b) as Htake.
  { apply take_ge. by eapply dir_base_short. }
  wp_step. eapply wp_walk_parent; [done..|]. intros [p|] Hwalk Hvalid.
  2:{ apply wp_ret, Hno. intros p pv (Hw & _). congruence. }
  destruct (Hvalid p eq_refl) as [pv Hpv]. wp_step. eapply wp_node; [done|].
  destruct (bool_decide_reflect (vn_type pv = VFS_DIR)) as [Hdir|Hdir]; cbn [negb].
  2:{ apply wp_ret, Hno. intros p' pv' (Hw & Hp' & Ht & _). rewrite Hwalk in Hw. simplify_eq. }
  wp_step. apply wp_ok. eexists _, _. split; [by apply find_child_ok; [apply Hok| |]|].
  destruct (List.find _ _) as [old|] eqn:Hf.
  { apply wp_ret, Hno. intros p' pv' (Hw & Hp' & Ht & Hnew). rewrite Hwalk in Hw. simplify_eq.
    apply find_named in Hf as (Hin & ov & Hov & Hname). by apply (Hnew _ _ Hin Hov). }
  assert (∀ c cv, c ∈ vn_children pv → vf_nodes s !! c = Some cv → vn_name cv ≠ b) as Hnew.
  { intros c cv. by apply find_named_none. }
  wp_step. apply wp_new_node; [done|done| |].
  { intros h Hh. apply wp_ret. split; [by apply ok_set_heap|]. left. auto. }
  intros s1 n v Hg Hl Hpriv. rewrite Htake in Hl. wp_step. eapply wp_set_attrs; [done..|].
  intros s2 w Hg2 Hl2 Hpriv2. wp_step.
  assert (∀ s3 w3, grown s s3 n w3 → leaf w3 b ty →
    wp (ramfs_add_child p n ;; mret 0) Q s3) as Hadd.
  { intros s3 w3 Hg3 Hl3. wp_step. eapply wp_add_child; [done..|apply (tr_node _ (vo_tree _ Hok) _ _ Hpv)|done|].
    intros s4 Hok4 Hres. apply wp_ret. split; [done|]. right. split; [done|]. exists p, pv, n. by repeat split. }
  destruct (bool_decide (ty = VFS_FIFO)); [|apply wp_ret; by eapply Hadd].
  eapply wp_new_fifo; [done..| |].
  - intros s3 Hok3 Hn3 Hh3. apply wp_ret. split; [done|]. left. auto.
  - intros s3 w3 Hg3 Hl3. by eapply Hadd.
Qed.

(** ** Removing a node *)

(** The nodes once [n] is unlinked from [p] and freed. *)
Definition unlinked (m : gmap nat vnode) (p : nat) (pv : vnode) (n : nat) : gmap nat vnode :=
  delete n (<[p := with_children (remove_child n (vn_children pv)) (vn_cap_children pv) pv]> m).

Lemma ok_unlink s p pv n v pipes' :
  vfs_ok s → vf_nodes s !! p = Some pv → vf_nodes s !! n = Some v → n ∈ vn_children pv →
  vn_children v = [] →
  (∀ q, vn_priv v ≠ Some q → pipes' !! q = vf_pipes s !! q) →
  (∀ q, is_Some (pipes' !! q) → is_Some (vf_pipes s !! q)) →
  vfs_ok (set_nodes (λ m, unlinked m p pv n) (set_pipes (λ _, pipes') s)).
Proof.
  intros Hok Hp Hn Hin Hch Hpipes Hdom.
  assert (p ≠ n) as Hpn by (intros ->; simplify_eq; rewrite Hch in Hin; by inversion Hin).
  assert (vn_parent v = Some p) as Hpar.
  { destruct (tr_child _ (vo_tree _ Hok) _ _ _ Hp Hin) as (? & ? & ?). by simplify_eq. }
  assert (∀ x w', unlinked (vf_nodes s) p pv n !! x = Some w' → x ≠ n ∧
    ∃ w, vf_nodes s !! x = Some w ∧ vn_priv w' = vn_priv w) as Hback.
  { unfold unlinked. intros x w' [? [(<- & <-)|(? & ?)]%lookup_insert_Some]%lookup_delete_Some; eauto. }
  pose proof (vo_pipe_inj _ Hok) as Hinj. destruct Hok. split; simpl; [| | | | |done|].
  - by apply tree_unlink with v.
  - intros x w' (_ & w & ? & _)%Hback. eauto.
  - intros q pp Hq. destruct (Hdom q) as [pp' ?]; [by eexists|]. eauto.
  - intros x w' q (Hx & w & Hw & ->)%Hback Hq. rewrite Hpipes; [eauto|]. intros Hvq.
    apply Hx. by eapply (Hinj x n w v q).
  - intros n1 n2 v1 v2 q (_ & w1 & ? & ->)%Hback (_ & w2 & ? & ->)%Hback. eauto.
  - intros i sb r Hi Hsb Hr Hrt. destruct (vo_roots0 i sb r) as (rv & Hrv & Hrp & ?); [done..|].
    assert (r ≠ n) by (intros ->; simplify_eq; congruence).
    unfold unlinked. rewrite lookup_delete_ne by done. destruct (decide (r = p)) as [->|].
    + eexists. rewrite lookup_insert_eq. split; [done|]. simplify_eq. done.
    + exists rv. by rewrite lookup_insert_ne.
Qed.

(** The path names the entry [n] of directory [p]. *)
Definition entry_at (s : vfs) (r : nat) (relpath : list Z) (p : nat) (pv : vnode) (n : nat) (v : vnode) : Prop :=
  ramfs_walk r (dir_path (dir_base relpath).1) s = Ok (Some p, s) ∧ vf_nodes s !! p = Some pv ∧
  n ∈ vn_children pv ∧ vf_nodes s !! n = Some v ∧ vn_name v = (dir_base relpath).2.

(** The pipes when node [v] is gone: that of a FIFO is freed, or marked dead
    while a descriptor is open on it. *)
Definition pipes_left (s : vfs) (v : vnode) : gmap nat pipe :=
  match vn_type v, vn_priv v with
  | VFS_FIFO, Some q =>
    match vf_pipes s !! q with
    | Some p =>
      if (p_nreaders p =? 0) && (p_nwriters p =? 0) then delete q (vf_pipes s)
      else <[q := Pipe (p_buf p) (p_cap p) (p_count p) (p_nreaders p) (p_nwriters p) (p_wait_reader p) (p_shared p) true]> (vf_pipes s)
    | None => vf_pipes s
    end
  | _, _ => vf_pipes s
  end.

(** When a removal succeeds, what it does, and why it fails. *)
Inductive remove_result (s s' : vfs) (r : nat) (relpath : list Z) : Z → Prop :=
| remove_no_dir : ramfs_walk r (dir_path (dir_base relpath).1) s = Ok (None, s) → s' = s →
    remove_result s s' r relpath (-1)
| remove_absent p pv : ramfs_walk r (dir_path (dir_base relpath).1) s = Ok (Some p, s) → vf_nodes s !! p = Some pv →
    (∀ n v, n ∈ vn_children pv → vf_nodes s !! n = Some v → vn_name v ≠ (dir_base relpath).2) → s' = s →
    remove_result s s' r relpath (-1)
| remove_root p pv n v : entry_at s r relpath p pv n v → vf_root s = Some n → s' = s →
    remove_result s s' r relpath (-1)
| remove_full p pv n v : entry_at s r relpath p pv n v → vn_type v = VFS_DIR → vn_children v ≠ [] → s' = s →
    remove_result s s' r relpath (-1)
| remove_done p pv n v : entry_at s r relpath p pv n v → vf_root s ≠ Some n → vn_children v = [] →
    s' = set_nodes (λ m, unlinked m p pv n) (set_pipes (λ _, pipes_left s v) s) →
    remove_result s s' r relpath 0.

Lemma pipes_left_keeps s v :
  (∀ q, vn_priv v ≠ Some q → pipes_left s v !! q = vf_pipes s !! q) ∧
  (∀ q, is_Some (pipes_left s v !! q) → is_Some (vf_pipes s !! q)).
Proof.
  unfold pipes_left. destruct (vn_type v); try (by split). destruct (vn_priv v) as [q0|]; [|by split].
  destruct (vf_pipes s !! q0) as [p|] eqn:Hp; [|by split].
  destruct (_ && _); split; intros q.
  - intros Hne. apply lookup_delete_ne. congruence.
  - intros [x [_ Hx]%lookup_delete_Some]. by eexists.
  - intros Hne. apply lookup_insert_ne. congruence.
  - intros [x [(<- & _)|(_ & Hx)]%lookup_insert_Some]; by eexists.
Qed.

(** Unlinking the pipe and freeing the node, in a state where the parent is
    updated. *)
Lemma wp_remove_tail s1 n v (Q : Z → vfs → Prop) :
  vf_nodes s1 !! n = Some v → (∀ q, vn_priv v = Some q → is_Some (vf_pipes s1 !! q)) →
  Q 0 (set_nodes (delete n) (set_pipes (λ _, pipes_left s1 v) s1)) →
  wp ((match vn_type v, vn_priv v with
       | VFS_FIFO, Some q => drop_pipe q ;; update n (with_priv None)
       | _, _ => mret tt
       end) ;; kfree_node n ;; mret 0) Q s1.
Proof.
  intros Hn Hpipe HQ.
  assert (∀ s2 v2, vf_nodes s2 !! n = Some v2 → set_nodes (delete n) s2 = set_nodes (delete n) (set_pipes (λ _, pipes_left s1 v) s1) →
    wp (kfree_node n ;; mret 0) Q s2) as Hfree.
  { intros s2 v2 Hn2 E. wp_step. unfold kfree_node. wp_step. eapply wp_node; [done|]. wp_step. apply wp_ret. by rewrite E. }
  assert (pipes_left s1 v = vf_pipes s1 → wp (mret tt ;; kfree_node n ;; mret 0) Q s1) as Hkeep.
  { intros E. wp_step. wp_step. apply (Hfree s1 v Hn). rewrite E. by destruct s1. }
  unfold pipes_left in *. destruct (vn_type v); try by apply Hkeep.
  destruct (vn_priv v) as [q|]; [|by apply Hkeep]. destruct (Hpipe q eq_refl) as [p Hp].
  wp_step. wp_step. unfold drop_pipe. wp_step. wp_step. rewrite Hp in Hfree |- *.
  destruct (_ && _); apply wp_modify; (eapply wp_node_update; [exact Hn|]);
    (eapply Hfree; [simpl; by rewrite lookup_insert_eq|]);
    unfold set_nodes, set_pipes; simpl; by rewrite delete_insert_eq.
Qed.

Lemma wp_ramfs_remove s sb r relpath :
  vfs_ok s → ramfs_mount s sb r → nul_free relpath →
  wp (ramfs_remove sb relpath) (λ res s', vfs_ok s' ∧ remove_result s s' r relpath res) s.
Proof.
  intros Hok Hm Hrel. unfold ramfs_remove. pose proof (dir_base_nul_free relpath) as Hnul.
  pose proof (remove_absent s s r relpath) as Habsent. pose proof (remove_no_dir s s r relpath) as Hnodir.
  pose proof (remove_root s s r relpath) as Hroot. pose proof (remove_full s s r relpath) as Hfull. unfold entry_at in *.
  destruct (dir_base relpath) as [d b] eqn:Hdb. cbn [fst snd] in *.
  destruct (Hnul _ _ Hrel eq_refl) as [Hd Hb].
  wp_step. eapply wp_walk_parent; [done..|]. intros [p|] Hwalk Hvalid; [|wp_steps; auto].
  destruct (Hvalid p eq_refl) as [pv Hpv].
  wp_step. apply wp_ok. eexists _, _. split; [by apply find_child_ok; [apply Hok| |]|].
  wp_step. wp_step. destruct (List.find _ _) as [n|] eqn:Hf.
  2:{ wp_steps. split; [done|]. eapply Habsent; [done|done| |done]. intros n v. by apply find_named_none. }
  apply find_named in Hf as (Hin & v & Hv & Hname).
  case_bool_decide as Hr; [wp_steps; split; [done|]; by eapply Hroot|].
  wp_step. eapply wp_node; [done|].
  destruct (bool_decide (vn_type v = VFS_DIR) && (0 <? Z.of_nat (length (vn_children v)))) eqn:Hf.
  { apply andb_true_iff in Hf as [Hty%bool_decide_eq_true Hlen%Z.ltb_lt]. wp_steps. split; [done|]. eapply Hfull; [done|done| |done].
    intros E. by rewrite E in Hlen. }
  assert (vn_children v = []) as Hch.
  { destruct (vn_children v) as [|x cs] eqn:E; [done|]. destruct (tr_node _ (vo_tree _ Hok) _ _ Hv).
    rewrite bool_decide_eq_true_2 in Hf by (apply no_dir0; by rewrite E). cbn [andb] in Hf.
    apply Z.ltb_ge in Hf. simpl in Hf. lia. }
  assert (p ≠ n) as Hpn by (intros ->; simplify_eq; rewrite Hch in Hin; by inversion Hin).
  wp_step. eapply wp_node_update; [done|].
  eapply wp_remove_tail; [simpl; by rewrite lookup_insert_ne| |].
  { intros q Hq. destruct (vo_pipe _ Hok _ _ _ Hv Hq) as [pp Hpp]. by exists pp. }
  set (s' := set_nodes _ _). destruct (pipes_left_keeps s v) as [H1 H2].
  assert (s' = set_nodes (λ m, unlinked m p pv n) (set_pipes (λ _, pipes_left s v) s)) as E by done.
  split; [rewrite E; by eapply ok_unlink|].
  eapply remove_done; [|done|done|exact E]. unfold entry_at. by rewrite Hdb.
Qed.

(** ** Walks in a grown tree *)

(** Every node is kept, with its name, type and parent; children are added at
    the end only. *)
Definition extends (m m' : gmap nat vnode) : Prop :=
  ∀ x v, m !! x = Some v → ∃ v' extra, m' !! x = Some v' ∧ vn_name v' = vn_name v ∧
    vn_type v' = vn_type v ∧ vn_parent v' = vn_parent v ∧ vn_children v' = vn_children v ++ extra.

Lemma find_named_mono m m' name cs extra n :
  extends m m' → (∀ c, c ∈ cs → is_Some (m !! c)) → List.find (named m name) cs = Some n →
  List.find (named m' name) (cs ++ extra) = Some n.
Proof.
  intros He. induction cs as [|c cs IH]; intros Hval; simpl; [done|]. unfold named at 1 3.
  destruct (Hval c) as [v Hv]; [by left|]. rewrite Hv.
  destruct (He _ _ Hv) as (v' & ex & -> & -> & _). destruct (bool_decide _); [done|].
  apply IH. intros c' Hc'. apply Hval. by right.
Qed.

(** A walk that finds a node finds it in the grown tree. *)
Lemma walk_mono segs cur s s' p :
  tree_ok (vf_nodes s) → tree_ok (vf_nodes s') → extends (vf_nodes s) (vf_nodes s') →
  Forall nul_free segs → is_Some (vf_nodes s !! cur) →
  walk_segs segs cur s = Ok (Some p, s) → walk_segs segs cur s' = Ok (Some p, s').
Proof.
  intros Ht Ht' He Hs. revert cur. induction Hs as [|seg segs Hseg Hs IH]; intros cur [v Hv].
  { cbn [walk_segs]. unfold mret, M_ret. by intros [= ->]. }
  cbn [walk_segs]. destruct (He _ _ Hv) as (v' & ex & Hv' & _ & Hty & Hpar & Hch).
  assert (deref cur s = Ok (v, s)) as Hd.
  { apply wp_exact. by eapply wp_node. }
  assert (deref cur s' = Ok (v', s')) as Hd'.
  { apply wp_exact. by eapply wp_node. }
  destruct (bool_decide (seg = [46])); [apply IH; by eexists|].
  destruct (bool_decide (seg = [46; 46])).
  { unfold mbind, M_bind. rewrite Hd, Hd', Hpar. apply IH.
    destruct (vn_parent v) as [q|] eqn:Hq; [|by eexists].
    destruct (tr_parent _ Ht _ _ _ Hv Hq) as (qv & ? & _). by eexists. }
  unfold mbind, M_bind. rewrite Hd, Hd', Hty. destruct (negb _); [done|].
  rewrite (find_child_ok cur v), (find_child_ok cur v') by (done || by apply Forall_take).
  destruct (List.find (named (vf_nodes s) _) _) as [n|] eqn:Hf; [|done].
  rewrite Hch. erewrite find_named_mono; [|exact He| |exact Hf].
  - apply IH. apply find_named in Hf as (_ & nv & ? & _). by eexists.
  - intros c Hc. destruct (tr_child _ Ht _ _ _ Hv Hc) as (cv & ? & _). by eexists.
Qed.

Lemma walk_app a b cur s n :
  tree_ok (vf_nodes s) → Forall nul_free a → is_Some (vf_nodes s !! cur) →
  walk_segs a cur s = Ok (Some n, s) → walk_segs (a ++ b) cur s = walk_segs b n s.
Proof.
  intros Ht Ha. revert cur. induction Ha as [|seg a Hseg Ha IH]; intros cur [v Hv]; cbn [walk_segs app].
  { unfold mret, M_ret. by intros [= ->]. }
  assert (deref cur s = Ok (v, s)) as Hd.
  { apply wp_exact. by eapply wp_node. }
  destruct (bool_decide (seg = [46])); [apply IH; by eexists|].
  destruct (bool_decide (seg = [46; 46])); unfold mbind, M_bind; rewrite Hd.
  { apply IH. destruct (vn_parent v) as [q|] eqn:Hq; [|by eexists].
    destruct (tr_parent _ Ht _ _ _ Hv Hq) as (qv & ? & _). by eexists. }
  destruct (negb _); [done|]. rewrite (find_child_ok cur v) by (done || by apply Forall_take).
  destruct (List.find _ _) as [x|] eqn:Hf; [|done].
  apply IH. apply find_named in Hf as (_ & nv & ? & _). by eexists.
Qed.

(** The last step of a walk, to a child of a directory. *)
Lemma walk_one s p pv b c cv :
  tree_ok (vf_nodes s) → vf_nodes s !! p = Some pv → vn_type pv = VFS_DIR → c ∈ vn_children pv →
  vf_nodes s !! c = Some cv → vn_name cv = b → nul_free b → (length b ≤ 255)%nat →
  b ≠ [46] → b ≠ [46; 46] → walk_segs [b] p s = Ok (Some c, s).
Proof.
  intros Ht Hp Hdir Hc Hcv Hname Hb Hlen Hb1 Hb2. cbn [walk_segs].
  rewrite !bool_decide_eq_false_2 by done. unfold mbind, M_bind.
  rewrite (wp_exact (deref p) _ s s ltac:(eapply wp_node; [exact Hp|done])).
  rewrite bool_decide_eq_true_2 by done. cbn [negb]. rewrite (take_ge b) by done.
  rewrite (find_child_ok p pv b s Ht Hp Hb).
  assert (List.find (named (vf_nodes s) b) (vn_children pv) = Some c) as ->; [|done].
  apply find_unique; [done| |].
  - unfold named. rewrite Hcv. by apply bool_decide_eq_true.
  - intros c' Hc' Hn'. unfold named in Hn'. destruct (vf_nodes s !! c') as [cv'|] eqn:Hcv'; [|done].
    apply bool_decide_eq_true in Hn'. apply list_elem_of_lookup in Hc as [i Hi], Hc' as [j Hj].
    assert (i = j) as -> by (eapply (tr_names _ Ht); [exact Hp|exact Hi|exact Hj|done|done|congruence]).
    congruence.
Qed.

Lemma linked_extends s s' p n name ty : linked s s' p n name ty → extends (vf_nodes s) (vf_nodes s').
Proof.
  intros (pv & cap & v & Hp & Hn & -> & _) x w Hw.
  destruct (decide (x = p)) as [->|]; [|destruct (decide (x = n)) as [->|]].
  - simplify_eq. exists (with_children (vn_children pv ++ [n]) cap pv), [n].
    by rewrite lookup_insert_eq.
  - congruence.
  - exists w, []. rewrite !lookup_insert_ne, app_nil_r by done. done.
Qed.

Lemma path_segs_app acc d b :
  path_segs_from acc (d ++ 47 :: b) = path_segs_from acc d ++ path_segs b.
Proof.
  revert acc. induction d as [|c d IH]; intros acc; cbn [path_segs_from app].
  - by destruct acc.
  - destruct (c =? 47); [destruct acc|]; by rewrite IH.
Qed.

Lemma path_segs_one acc b :
  Forall (λ c, c ≠ 47) b → acc ++ b ≠ [] → path_segs_from acc b = [acc ++ b].
Proof.
  intros Hb. revert acc. induction Hb as [|c b Hc Hb IH]; intros acc Hne; cbn [path_segs_from].
  - rewrite app_nil_r in *. by destruct acc.
  - decide_cmps. rewrite IH; by rewrite <-(assoc_L (++)).
Qed.

Lemma split_last_none p : split_last p = None → Forall (λ c, c ≠ 47) p.
Proof.
  induction p as [|x p IHp]; intros Hp; [constructor|]. simpl in Hp.
  destruct (split_last p) as [[? ?]|]; [done|]. destruct (Z.eqb_spec x 47); [done|].
  constructor; [done|by apply IHp].
Qed.

Lemma split_last_base p d b : split_last p = Some (d, b) → Forall (λ c, c ≠ 47) b.
Proof.
  revert d b. induction p as [|c p IH]; intros d b Hs; simpl in Hs; [done|].
  destruct (split_last p) as [[d' b']|] eqn:Hp; simplify_eq; [by eapply IH|].
  destruct (Z.eqb_spec c 47); simplify_eq. by apply split_last_none.
Qed.

(** The components of a path are those of its directory and its last name. *)
Lemma path_segs_dir_base rel d b :
  (length rel ≤ 255)%nat → dir_base rel = (d, b) → b ≠ [] →
  path_segs rel = path_segs (dir_path d) ++ [b] ∧ Forall (λ c, c ≠ 47) b.
Proof.
  intros Hlen Hdb Hb. unfold dir_base, MAX_NAME in Hdb.
  destruct (split_last rel) as [[d' b']|] eqn:Hs; simplify_eq.
  - assert (Forall (λ c, c ≠ 47) b) as Hbs by (by eapply split_last_base).
    apply split_last_app in Hs as ->. rewrite length_app in Hlen. simpl in Hlen.
    rewrite take_ge by lia. split; [|done].
    unfold path_segs. rewrite path_segs_app. f_equal; [by destruct d'|].
    by apply (path_segs_one []).
  - apply split_last_none in Hs. split; [|done]. by apply (path_segs_one []).
Qed.

(** ** Reading and writing files *)

(** The bytes of a file. *)
Definition content (v : vnode) : list Z :=
  match vn_data v with Some d => take (Z.to_nat (vn_size v)) d | None => [] end.

Lemma double_cap_spec need c s :
  0 < c < 2 ^ 64 → need ≤ 2 ^ 63 →
  ∃ c', double_cap need c s = Ok (c', s) ∧ need ≤ c' ∧ c ≤ c' < 2 ^ 64.
Proof.
  intros Hc Hneed. unfold double_cap.
  assert (wp (loop_fuel 65 (λ c, if c <? need then mret (inl (u64 (c * 2))) else mret (inr c)) c)
    (λ c' s', s' = s ∧ need ≤ c' ∧ c ≤ c' < 2 ^ 64) s) as Hwp.
  { apply (wp_loop_fuel (λ x s', s' = s ∧ c ≤ x < 2 ^ 64) (λ x, 64 - Z.log2 x)).
    - split; [done|lia].
    - pose proof (Z.log2_nonneg c). lia.
    - intros x s' [_ Hx]. assert (Z.log2 x < 64) by (apply Z.log2_lt_pow2; lia). lia.
    - intros x s' [-> Hx]. destruct (Z.ltb_spec x need).
      + apply wp_ret. rewrite u64_small by (unfold is_u64; lia).
        replace (x * 2) with (2 * x) by lia. rewrite Z.log2_double by lia. split; [split; [done|lia]|lia].
      + apply wp_ret. split; [done|lia]. }
  apply wp_ok in Hwp as (c' & s' & Hrun & -> & ? & ?). exists c'. split; [done|lia].
Qed.

(** The bytes of [d] from [off] on replaced by [bs]. *)
Definition patch (d : list Z) (off : nat) (bs : list Z) : list Z :=
  take off d ++ bs ++ drop (off + length bs) d.

Lemma store_bytes_patch {St} d off bs (s : St) :
  (off + length bs ≤ length d)%nat → store_bytes d (Z.of_nat off) bs s = Ok (patch d off bs, s).
Proof.
  intros Hlen.
  assert (d = take off d ++ take (length bs) (drop off d) ++ drop (off + length bs) d) as E.
  { rewrite <-drop_drop, take_drop, take_drop. done. }
  rewrite E at 1. replace (Z.of_nat off) with (Z.of_nat (length (take off d))).
  - rewrite store_bytes_spec; [done|]. rewrite length_take, length_drop. lia.
  - rewrite length_take. lia.
Qed.

Lemma patch_content d size off bs :
  (size ≤ length d)%nat → (off + length bs ≤ length d)%nat →
  take (max size (off + length bs)) (patch d off bs) =
    take off d ++ bs ++ drop (off + length bs) (take size d).
Proof.
  intros Hs Hlen. unfold patch. assert (length (take off d) = off) as Ho by (rewrite length_take; lia).
  rewrite take_app_ge by lia. rewrite Ho. f_equal. rewrite take_app_ge by lia. f_equal.
  destruct (decide (off + length bs ≤ size)%nat).
  - rewrite take_drop_commute. do 2 f_equal. lia.
  - rewrite (drop_ge (take size d)) by (rewrite length_take; lia).
    by replace (max size (off + length bs) - off - length bs)%nat with 0%nat by lia.
Qed.

(** A read delivers a slice of the content. *)
Lemma ramfs_read_slice n v off len s :
  vfs_ok s → vf_nodes s !! n = Some v → vn_type v = VFS_FILE → 0 ≤ off → 0 ≤ len →
  ramfs_read n off len s = Ok (take (Z.to_nat len) (drop (Z.to_nat off) (content v)), s).
Proof.
  intros Hok Hn Hty Hoff Hlen. pose proof (no_data _ (tr_node _ (vo_tree _ Hok) _ _ Hn)) as Hd.
  apply wp_exact. unfold ramfs_read. wp_step. eapply wp_node; [done|].
  rewrite bool_decide_eq_true_2 by done. cbn [negb]. unfold data_ok, content in *.
  destruct (Z.leb_spec (vn_size v) off).
  { apply wp_ret. split; [|done]. destruct (vn_data v); [|by rewrite drop_nil, take_nil].
    rewrite drop_ge; [by rewrite take_nil|]. rewrite length_take. lia. }
  destruct (vn_data v) as [d|]; [|lia]. destruct Hd as (Hdl & Hsz & Hpos).
  set (r := if len <? vn_size v - off then len else vn_size v - off).
  assert (0 ≤ r ∧ off + r ≤ vn_size v ∧ r = Z.min len (vn_size v - off)) as (Hr1 & Hr2 & Hr3).
  { unfold r. destruct (Z.ltb_spec len (vn_size v - off)); lia. }
  decide_cmps. apply wp_ret. split; [|done].
  replace (Z.to_nat (vn_size v)) with (Z.to_nat off + Z.to_nat (vn_size v - off))%nat by lia.
  rewrite <-take_drop_commute, take_take. f_equal. lia.
Qed.

(** Growing the buffer keeps the content. *)
Lemma wp_ensure_cap n v need s (Q : bool → vfs → Prop) :
  vfs_ok s → vf_nodes s !! n = Some v → need ≤ 2 ^ 63 → vn_cap v < 2 ^ 64 →
  (∀ h, None ∈ vf_heap s → h ⊆ vf_heap s → Q false (set_heap h s)) →
  (∀ s' v', vfs_ok s' → vf_nodes s' !! n = Some v' → need ≤ vn_cap v' → content v' = content v →
     vn_size v' = vn_size v → vn_type v' = vn_type v → vf_nodes s' = <[n := v']> (vf_nodes s) →
     vn_cap v' < 2 ^ 64 → vf_heap s' ⊆ vf_heap s → Q true s') →
  wp (ramfs_ensure_cap n need) Q s.
Proof.
  intros Hok Hn Hneed Hcap HQ0 HQ. unfold ramfs_ensure_cap. wp_step. eapply wp_node; [done|].
  destruct (Z.leb_spec need (vn_cap v)).
  { apply wp_ret. eapply HQ; try done. by rewrite insert_id. }
  pose proof (tr_node _ (vo_tree _ Hok) _ _ Hn) as Hnode. pose proof (no_data _ Hnode) as Hd.
  set (c0 := if vn_cap v =? 0 then 64 else vn_cap v).
  assert (0 < c0 < 2 ^ 64 ∧ vn_cap v ≤ c0) as [Hc0 Hc0'].
  { unfold c0, data_ok in *. destruct (Z.eqb_spec (vn_cap v) 0); destruct (vn_data v); lia. }
  destruct (double_cap_spec need c0 s Hc0 Hneed) as (c' & Hrun & Hc1 & Hc2).
  wp_step. apply wp_ok. exists c', s. split; [done|].
  wp_step. apply wp_kmalloc. intros a h Ha Hh. destruct a as [g|]; [|apply wp_ret; auto].
  fold (content v). assert (Z.of_nat (length (content v)) = vn_size v ∧ vn_size v ≤ vn_cap v) as [Hcl Hsz].
  { unfold content, data_ok in *. destruct (vn_data v) as [d|]; [rewrite length_take; lia|].
    destruct Hd as [-> ->]. done. }
  wp_step. apply wp_ok. eexists _, _. split.
  { apply (store_bytes_patch (replicate (Z.to_nat c') g) 0 (content v)). rewrite length_replicate. lia. }
  assert (length (patch (replicate (Z.to_nat c') g) 0 (content v)) = Z.to_nat c') as Hpl.
  { unfold patch. rewrite take_0. simpl. rewrite length_app, length_drop, length_replicate. lia. }
  wp_step. eapply wp_node_update; [done|]. apply wp_ret. eapply HQ.
  - eapply (ok_touch (set_heap h s)); [by apply ok_set_heap|done| |done..].
    destruct Hnode. split; simpl; [done| |done|done]. unfold data_ok. simpl. rewrite Hpl. lia.
  - simpl. apply lookup_insert_eq.
  - done.
  - unfold content at 1. simpl. unfold patch. rewrite take_0. simpl.
    rewrite take_app_length'; [done|lia].
  - done.
  - done.
  - done.
  - simpl. lia.
  - done.
Qed.

(** A write puts its bytes at [off]; below it the content stays, up to a gap
    beyond the old end. *)
Lemma wp_ramfs_write n v off bs s (Q : Z → vfs → Prop) :
  vfs_ok s → vf_nodes s !! n = Some v → vn_type v = VFS_FILE → vn_cap v < 2 ^ 64 →
  0 ≤ off → off + strlen bs ≤ 2 ^ 63 →
  (∀ h, None ∈ vf_heap s → h ⊆ vf_heap s → Q 0 (set_heap h s)) →
  (∀ s' v' pre, vfs_ok s' → vf_nodes s' = <[n := v']> (vf_nodes s) → vn_type v' = VFS_FILE →
     length pre = Z.to_nat off → take (Z.to_nat (vn_size v)) pre = take (Z.to_nat off) (content v) →
     content v' = pre ++ bs ++ drop (Z.to_nat off + length bs) (content v) →
     vn_cap v' < 2 ^ 64 → vf_heap s' ⊆ vf_heap s → Q (strlen bs) s') →
  wp (ramfs_write n off bs) Q s.
Proof.
  intros Hok Hn Hty Hcap Hoff Hend HQ0 HQ. unfold ramfs_write. wp_step. eapply wp_node; [done|].
  rewrite bool_decide_eq_true_2 by done. cbn [negb]. unfold strlen in *.
  rewrite u64_small by (unfold is_u64; lia).
  wp_step. eapply wp_ensure_cap; [done..| |]. { intros h Ha Hh. cbn [negb]. apply wp_ret. by apply HQ0. } intros s1 v1 Hok1 Hn1 Hneed Hcont Hsize Hty1 Hnodes Hcap1 Hheap1.
  cbn [negb]. wp_step. eapply wp_node; [done|].
  pose proof (tr_node _ (vo_tree _ Hok1) _ _ Hn1) as Hnode. pose proof (no_data _ Hnode) as Hd.
  set (size := if vn_size v1 <? off + Z.of_nat (length bs) then off + Z.of_nat (length bs) else vn_size v1).
  assert (size = Z.max (vn_size v1) (off + Z.of_nat (length bs))) as Hsz.
  { unfold size. destruct (Z.ltb_spec (vn_size v1) (off + Z.of_nat (length bs))); lia. }
  unfold data_ok in Hd. destruct (vn_data v1) as [d|] eqn:Hdata.
  - destruct Hd as (Hdl & Hds & Hpos).
    assert (store_bytes d off bs s1 = Ok (patch d (Z.to_nat off) bs, s1)) as Hst.
    { rewrite <-(Z2Nat.id off) at 1 by done. apply store_bytes_patch. lia. }
    wp_step. apply wp_ok. eexists _, _. split; [exact Hst|].
    assert (length (patch d (Z.to_nat off) bs) = length d) as Hpl.
    { unfold patch. rewrite !length_app, length_take, length_drop. lia. }
    wp_step. eapply wp_node_update; [done|]. apply wp_ret.
    eapply (HQ _ (with_data (Some (patch d (Z.to_nat off) bs)) (vn_cap v1) size v1) (take (Z.to_nat off) d)).
    + eapply ok_touch; [done..| |done|done|done|done|done]. destruct Hnode. split; simpl; [done| |done|done].
      unfold data_ok. simpl. rewrite Hpl. lia.
    + simpl. by rewrite Hnodes, insert_insert_eq.
    + simpl. congruence.
    + rewrite length_take. lia.
    + rewrite <-Hcont. unfold content. rewrite Hdata, Hsize, !take_take. f_equal. lia.
    + rewrite <-Hcont. unfold content. simpl. rewrite Hdata.
      replace (Z.to_nat size) with (max (Z.to_nat (vn_size v1)) (Z.to_nat off + length bs)) by lia.
      apply patch_content; lia.
    + done.
    + done.
  - destruct Hd as [Hc0 Hs0]. destruct bs as [|x bs]; [|simpl in *; lia]. simpl in *.
    assert (off = 0) as -> by lia. assert (size = 0) as -> by lia.
    wp_steps. eapply wp_node_update; [done|]. apply wp_ret.
    eapply (HQ _ (with_data None (vn_cap v1) 0 v1) []).
    + eapply ok_touch; [done..| |done|done|done|done|done]. destruct Hnode. split; simpl; [done|by split|done|done].
    + simpl. by rewrite Hnodes, insert_insert_eq.
    + simpl. congruence.
    + done.
    + by rewrite take_nil.
    + rewrite <-Hcont. unfold content. simpl. by rewrite Hdata.
    + done.
    + done.
Qed.

(** ** Properties *)

(** C22: [ramfs_create] on a well-formed file system returns, without an access
    to freed or foreign memory, and keeps it well formed.  It fails only when
    the parent is missing, is no directory or has the name already, or memory
    runs out, and then no node has changed; when it returns 0 the new node is
    the last child of the parent and all other nodes are as before, or (an
    allocation having failed) it was created but hangs nowhere. *)
Theorem ramfs_create_correct s sb r relpath ty :
  vfs_ok s → ramfs_mount s sb r → nul_free relpath → (length relpath ≤ 255)%nat →
  ∃ res s', ramfs_create sb relpath ty s = Ok (res, s') ∧ vfs_ok s' ∧ create_result s s' r relpath ty res.
Proof. intros. by apply wp_ok, wp_ramfs_create. Qed.

(** A node that [ramfs_create] has made is found by [ramfs_lookup] under the
    path it was created with, if memory did not run out and the last name is
    neither empty nor [.] nor [..]. *)
Theorem ramfs_create_lookup s sb r relpath ty s' d b :
  vfs_ok s → ramfs_mount s sb r → nul_free relpath → (length relpath ≤ 255)%nat → None ∉ vf_heap s →
  dir_base relpath = (d, b) → b ≠ [] → b ≠ [46] → b ≠ [46; 46] →
  ramfs_create sb relpath ty s = Ok (0, s') →
  ∃ n v, ramfs_lookup r relpath s' = Ok (Some n, s') ∧ vf_nodes s !! n = None ∧
    vf_nodes s' !! n = Some v ∧ vn_name v = b ∧ vn_type v = ty.
Proof.
  intros Hok Hm Hrel Hlen Hmem Hdb Hb Hb1 Hb2 Hrun.
  pose proof (wp_ramfs_create s sb r relpath ty Hok Hm Hrel Hlen) as (res & s1 & Hrun' & Hok' & Hres)%wp_ok.
  rewrite Hrun in Hrun'. injection Hrun' as <- <-.
  unfold create_result in Hres. rewrite Hdb in Hres. destruct Hres as [(? & _)|(_ & p & pv & n & Hcan & Hl)]; [done|].
  destruct Hl as [Hl|(? & _)]; [|done]. pose proof (linked_extends _ _ _ _ _ _ Hl) as Hext.
  destruct Hcan as (Hwalk & Hpv & Hdir & Hnew).
  destruct Hl as (pv0 & cap & v & Hpv0 & Hnone & Hnodes & Hname & Hty & Hpar & Hch). simplify_eq.
  exists n, v.
  assert (p ≠ n) as Hpn by congruence.
  assert (vf_nodes s' !! p = Some (with_children (vn_children pv ++ [n]) cap pv)) as Hp'
    by (rewrite Hnodes; apply lookup_insert_eq).
  assert (vf_nodes s' !! n = Some v) as Hn'.
  { rewrite Hnodes, lookup_insert_ne by done. apply lookup_insert_eq. }
  split_and!; try done.
  destruct (path_segs_dir_base relpath _ _ Hlen Hdb Hb) as [Hsegs Hslash].
  assert (is_Some (vf_nodes s !! r)) as Hr.
  { destruct Hm as (sbv & ? & ? & ? & ?). destruct (vo_roots _ Hok _ _ _ H H0 H1 H2) as (rv & ? & _). by eexists. }
  destruct (dir_base_nul_free _ _ _ Hrel Hdb) as [Hd Hbn].
  assert (Forall nul_free (path_segs (dir_path d))) as Hsd.
  { apply path_segs_nul_free; [constructor|]. destruct d; [by repeat constructor|done]. }
  assert (ramfs_walk r relpath s' = Ok (Some n, s')) as Hw.
  { unfold ramfs_walk. rewrite Hsegs. rewrite (walk_app _ _ _ _ p); [|apply Hok'|done| |].
    - eapply walk_one; [apply Hok'|done|done| |done|done|done|by eapply dir_base_short|done|done].
      simpl. apply elem_of_app. right. by apply list_elem_of_singleton.
    - destruct Hr as [rv Hrv]. destruct (Hext _ _ Hrv) as (rv' & ex & Hrv' & _). by eexists.
    - by eapply walk_mono; [apply Hok|apply Hok'| | | |]. }
  unfold ramfs_lookup. destruct relpath; [|done]. unfold dir_base in Hdb. simpl in Hdb. congruence.
Qed.

(** C23: [ramfs_remove] on a well-formed file system returns and keeps it well
    formed.  It succeeds exactly when the path names an entry of a directory that is
    not the root of the system and not a directory with entries of its own; then
    the node is freed and taken out of its directory's list, its pipe is freed
    or, while open, marked dead, and nothing else changes.  Otherwise it reports
    -1 and changes nothing. *)
Theorem ramfs_remove_correct s sb r relpath :
  vfs_ok s → ramfs_mount s sb r → nul_free relpath →
  ∃ res s', ramfs_remove sb relpath s = Ok (res, s') ∧ vfs_ok s' ∧ remove_result s s' r relpath res.
Proof. intros. by apply wp_ok, wp_ramfs_remove. Qed.

(** C28: what is written to a ramfs file is read back.  A write returns the whole
    length and keeps the file system well formed; the bytes from [off] on are
    then those written, the content beyond them and below [off] is the old one
    (up to a gap beyond the old end, whose bytes are not defined), and a read
    of the range delivers exactly the bytes written. *)
Theorem ramfs_write_read n v off bs s :
  vfs_ok s → vf_nodes s !! n = Some v → vn_type v = VFS_FILE → vn_cap v < 2 ^ 64 →
  0 ≤ off → off + strlen bs ≤ 2 ^ 63 → None ∉ vf_heap s →
  ∃ s' v' pre, ramfs_write n off bs s = Ok (strlen bs, s') ∧ vfs_ok s' ∧
    vf_nodes s' = <[n := v']> (vf_nodes s) ∧
    content v' = pre ++ bs ++ drop (Z.to_nat off + length bs) (content v) ∧
    length pre = Z.to_nat off ∧ take (Z.to_nat (vn_size v)) pre = take (Z.to_nat off) (content v) ∧
    ramfs_read n off (strlen bs) s' = Ok (bs, s').
Proof.
  intros Hok Hn Hty Hcap Hoff Hend Hmem.
  assert (wp (ramfs_write n off bs) (λ r s', r = strlen bs ∧ ∃ v' pre, vfs_ok s' ∧
    vf_nodes s' = <[n := v']> (vf_nodes s) ∧ vn_type v' = VFS_FILE ∧ length pre = Z.to_nat off ∧
    take (Z.to_nat (vn_size v)) pre = take (Z.to_nat off) (content v) ∧
    content v' = pre ++ bs ++ drop (Z.to_nat off + length bs) (content v)) s) as Hw.
  { eapply wp_ramfs_write; [done..|intros h Ha; done|]. intros s' v' pre ? ? ? ? ? ? _ _. split; [done|]. by exists v', pre. }
  apply wp_ok in Hw as (res & s' & Hrun & -> & v' & pre & Hok' & Hnodes & Hty' & Hpl & Hpre & Hc).
  exists s', v', pre. split_and!; try done.
  rewrite (ramfs_read_slice n v'); [|done|by rewrite Hnodes, lookup_insert_eq|done|done|unfold strlen; lia].
  rewrite Hc, <-Hpl, drop_app_length. unfold strlen. rewrite Nat2Z.id, take_app_length. done.
Qed.

(** ** Concrete machines *)

Definition demo_root : vnode := Vnode [47] VFS_DIR 0 (Some 0%nat) None 0 (Vattr 0 0 493) None 0 [] 0 None.

(** The ramfs on /, empty. *)
Definition demo_vfs (heap : list (option Z)) : vfs :=
  Vfs {[1%nat := demo_root]} ∅ 2 heap
      (<[0%nat := VfsSuper [47] FS_RAMFS FS_RAMFS (Some 1%nat)]> (replicate 8 zero_super)) 1
      (Some 0%nat) (Some 1%nat) None.

Lemma demo_vfs_ok heap : vfs_ok (demo_vfs heap).
Proof.
  split; simpl; [split| | | | |done|].
  - intros n v [<- <-]%lookup_singleton_Some. split; simpl; [by repeat constructor|done|lia|done].
  - intros d dv c [<- <-]%lookup_singleton_Some Hc. by inversion Hc.
  - by intros c cv d [<- <-]%lookup_singleton_Some.
  - by intros d dv i j c1 c2 v1 v2 [<- <-]%lookup_singleton_Some.
  - intros n v [<- <-]%lookup_singleton_Some. lia.
  - intros q p Hq. by rewrite lookup_empty in Hq.
  - by intros n v q [<- <-]%lookup_singleton_Some.
  - by intros n1 n2 v1 v2 q [<- <-]%lookup_singleton_Some _.
  - intros i sb r Hi Hsb Hops Hroot. assert (i = 0%nat) as -> by lia. simpl in Hsb. simplify_eq. simpl in *.
    simplify_eq. exists demo_root. by rewrite lookup_singleton_eq.
Qed.

Lemma demo_ramfs_mount heap : ramfs_mount (demo_vfs heap) 0 1.
Proof. eexists. by split_and!. Qed.

Lemma ramfs_create_correct_witness :
  ∃ res s', ramfs_create 0 (cstr "a.txt") VFS_FILE (demo_vfs []) = Ok (res, s') ∧ vfs_ok s' ∧
            create_result (demo_vfs []) s' 1 (cstr "a.txt") VFS_FILE res.
Proof.
  apply ramfs_create_correct; [apply demo_vfs_ok|apply demo_ramfs_mount| |].
  - apply (bool_decide_unpack _). vm_compute. exact I.
  - vm_compute. lia.
Defined.

(** The machine with one file. *)
Definition demo_file : vfs :=
  match ramfs_create 0 (cstr "a.txt") VFS_FILE (demo_vfs []) with Ok (_, s) => s | _ => demo_vfs [] end.

Lemma ramfs_create_lookup_witness :
  ∃ n v, ramfs_lookup 1 (cstr "a.txt") demo_file = Ok (Some n, demo_file) ∧
    vf_nodes (demo_vfs []) !! n = None ∧ vf_nodes demo_file !! n = Some v ∧
    vn_name v = cstr "a.txt" ∧ vn_type v = VFS_FILE.
Proof.
  apply (ramfs_create_lookup (demo_vfs []) 0 1 (cstr "a.txt") VFS_FILE demo_file [] (cstr "a.txt")).
  - apply demo_vfs_ok.
  - apply demo_ramfs_mount.
  - apply (bool_decide_unpack _). vm_compute. exact I.
  - vm_compute. lia.
  - vm_compute. intros H. inversion H.
  - reflexivity.
  - discriminate.
  - discriminate.
  - discriminate.
  - vm_compute. reflexivity.
Defined.

Lemma demo_file_ok : vfs_ok demo_file.
Proof.
  destruct (proj1 (wp_ok _ _ _) (wp_ramfs_create (demo_vfs []) 0 1 (cstr "a.txt") VFS_FILE (demo_vfs_ok [])
    (demo_ramfs_mount []) ltac:(apply (bool_decide_unpack _); vm_compute; exact I) ltac:(vm_compute; lia)))
    as (res & s' & Hrun & Hok & _).
  unfold demo_file. rewrite Hrun. exact Hok.
Qed.

Lemma ramfs_remove_correct_witness :
  ∃ s', ramfs_remove 0 (cstr "a.txt") demo_file = Ok (0, s') ∧ vfs_ok s' ∧
        remove_result demo_file s' 1 (cstr "a.txt") 0.
Proof.
  destruct (ramfs_remove_correct demo_file 0 1 (cstr "a.txt")) as (res & s' & Hrun & Hok & Hres).
  - apply demo_file_ok.
  - eexists. vm_compute. repeat split.
  - apply (bool_decide_unpack _). vm_compute. exact I.
  - assert ((λ o, match o with Ok (r, _) => r | _ => -1 end) (ramfs_remove 0 (cstr "a.txt") demo_file) = 0) as E by (vm_compute; reflexivity).
    rewrite Hrun in E. cbn beta iota in E. subst res. exists s'. exact (conj Hrun (conj Hok Hres)).
Defined.

Lemma ramfs_write_read_witness :
  ∃ s', ramfs_read 2 3 2 s' = Ok ([104; 105], s').
Proof.
  destruct (ramfs_write_read 2 (Vnode (cstr "a.txt") VFS_FILE 0 (Some 0%nat) None 0 (Vattr 0 0 420) None 0 [] 0 (Some 1%nat))
    3 [104; 105] demo_file) as (s' & v' & pre & _ & _ & _ & _ & _ & _ & H).
  - apply demo_file_ok.
  - vm_compute. reflexivity.
  - reflexivity.
  - vm_compute. reflexivity.
  - lia.
  - vm_compute. discriminate.
  - vm_compute. intros H. inversion H.
  - exists s'. exact H.
Defined.

(** The built-in files are there after [vfs_init], through the whole stack. *)
Example vfs_init_files :
  match vfs_init (vfs_boot [] None) with
  | Ok (_, s) =>
    match vfs_read_file (cstr "/docs/notes.txt") s with
    | Ok (r, _) => r = Some (cstr "Phase 10 brings a minimal Unix-like VFS over a ramfs." ++ [10])
    | _ => False
    end
  | _ => False
  end.
Proof. vm_compute. reflexivity. Qed.

(** A creation reports success although the node is not in the directory: the
    second allocation, of the child list, fails. *)
Example ramfs_create_lost :
  match ramfs_create 0 (cstr "a.txt") VFS_FILE (demo_vfs [Some 0; None]) with
  | Ok (res, s) => res = 0 ∧ ramfs_lookup 1 (cstr "a.txt") s = Ok (None, s)
  | _ => False
  end.
Proof. vm_compute. done. Qed.

(** A FAT32 volume with one file of five bytes, whose lookup makes the vnode. *)
Definition fat_env : VfsEnv := {|
  ext_lookup _ sb _ rel :=
    n ← gets vf_next;
    modify (λ s, set_next (S n) (set_nodes (insert n
      (Vnode rel VFS_FILE 5 (Some sb) None 0 (Vattr 0 0 420) None 0 [] 0 None)) s)) ;;
    mret (Some n);
  ext_read _ _ _ off len := mret (take (Z.to_nat len) (drop (Z.to_nat off) (cstr "hello")));
  ext_list _ _ _ _ := mret ([], -1);
  ext_create _ := None;
  ext_remove _ := None;
  ext_write _ := None;
  ext_mmap _ := None;
  ext_inode_free _ := None;
|}.

(** The boot ramfs, a ramfs on /a and the FAT32 volume on /b; a file of /b is
    open when /a is unmounted and a new ramfs is mounted on /c. *)
Definition umount_script : M vfs (list Z * Z * Z * nat) :=
  @vfs_init fat_env ;;
  @vfs_mount_ramfs (cstr "/a") ;;
  _ ← vfs_mount (cstr "/b") FS_FAT32 FS_FAT32;
  f ← @vfs_lookup fat_env (cstr "/b/f") [47];
  before ← @vfs_read fat_env f 0 5;
  u ← vfs_umount (cstr "/a");
  c ← vfs_mount_ramfs (cstr "/c");
  mret (before, u, c, default 0%nat f).

(** Unmounting leaves open files with a dangling superblock.  A node points
    to its entry of [g_mounts], and [vfs_umount] moves the entries above the
    removed one down by one: with a file of a FAT32 volume open, unmounting an
    earlier mount and mounting another file system makes the node point to the
    new one, whose [read] then runs on it and dereferences a null pointer. *)
Theorem vfs_umount_dangling_super :
  ∃ f s, umount_script (vfs_boot [] None) = Ok ((cstr "hello", 0, 0, f), s) ∧
         @vfs_read fat_env (Some f) 0 5 s = Fault.
Proof. eexists _, _. split; vm_compute; reflexivity. Qed.
