(* ===== verification/Sched.v ===== *)
(** * Sched: threads and the scheduler (kernel/sched.c)

    A [struct thread *] is an address in the store [threads]; 0 is the null
    pointer, [main_thread] and [idle_thread] are the two statics, the others
    come from [kmalloc] and leave the store when they are freed, so that using
    a freed thread faults.  The run queue is the circular list through
    [t_next] and [t_prev] that [ready_head] points into; zombies are a chain
    through [t_next].  Frames of kernel stacks come from Pmm.v, address spaces
    are those of Mmu.v, open files and pipes those of Vfs.v. *)

From Stdlib Require Import String.
From S2P Require Import Prelude BootMap Pmm Mmu Reclaim CString Security VfsPath Vfs.

#[local] Arguments for_up : simpl never.

Definition THREAD_QUANTUM : Z := 10.
Definition THREAD_STACK_SIZE : Z := 32768.
Definition IPC_MAX : nat := 16.
Definition MAX_FD : nat := 32.
Definition NSIG : nat := 32.

Inductive thread_state := THREAD_READY | THREAD_RUNNING | THREAD_BLOCKED | THREAD_ZOMBIE.
Inductive fd_kind := FD_FREE | FD_TTY_IN | FD_CONSOLE_OUT | FD_VNODE | FD_PIPE | FD_SOCKET.

#[global] Instance thread_state_eq_dec : EqDecision thread_state.
Proof. solve_decision. Defined.
#[global] Instance fd_kind_eq_dec : EqDecision fd_kind.
Proof. solve_decision. Defined.

(** [struct vfs_file] *)
Record vfs_file := VfsFile { f_used : bool; f_kind : fd_kind; f_node : option nat; f_off : Z; f_flags : Z }.

(** [struct sigaction] *)
Record sigaction := Sigaction { sa_handler : Z; sa_flags : Z; sa_restorer : Z; sa_mask : Z }.

(** The groups of fields of [struct thread]: execution, files, signals.
    [x_syscall_iret] is the memory from 13 words below to 4 words above where
    the pointer [syscall_iret] points: the registers saved at the entry of a
    system call, r15 first, and the frame that returns to user mode. *)
Record exec := Exec {
  x_rsp : Z; x_kstack_top : Z; x_mmu : Z; x_user_rsp : Z; x_stack_base : Z;
  x_func : Z; x_arg : Z; x_syscall_iret : option (list Z) }.
Record files := Files { fs_fds : list vfs_file; fs_cwd : list Z }.
Record signals := Signals { sig_pending : Z; sig_mask : Z; sig_actions : list sigaction; sig_ipc : list Z }.

(** [struct thread] *)
Record thread := Thread {
  t_exec : exec;
  t_pid : Z;
  t_parent_pid : Z;
  t_exit_status : Z;
  t_state : thread_state;
  t_priority : Z;
  t_quantum : Z;
  t_next : Z;
  t_prev : Z;
  t_name : list Z;
  t_files : files;
  t_signals : signals;
  t_sleep_deadline_ns : Z;
  t_cred : cred;
}.

Definition set_exec (f : exec → exec) (t : thread) : thread :=
  Thread (f (t_exec t)) (t_pid t) (t_parent_pid t) (t_exit_status t) (t_state t) (t_priority t) (t_quantum t)
    (t_next t) (t_prev t) (t_name t) (t_files t) (t_signals t) (t_sleep_deadline_ns t) (t_cred t).
Definition set_exit (st : Z) (t : thread) : thread :=
  Thread (t_exec t) (t_pid t) (t_parent_pid t) st THREAD_ZOMBIE (t_priority t) (t_quantum t)
    (t_next t) (t_prev t) (t_name t) (t_files t) (t_signals t) (t_sleep_deadline_ns t) (t_cred t).
Definition set_state (st : thread_state) (t : thread) : thread :=
  Thread (t_exec t) (t_pid t) (t_parent_pid t) (t_exit_status t) st (t_priority t) (t_quantum t)
    (t_next t) (t_prev t) (t_name t) (t_files t) (t_signals t) (t_sleep_deadline_ns t) (t_cred t).
Definition set_quantum (q : Z) (t : thread) : thread :=
  Thread (t_exec t) (t_pid t) (t_parent_pid t) (t_exit_status t) (t_state t) (t_priority t) q
    (t_next t) (t_prev t) (t_name t) (t_files t) (t_signals t) (t_sleep_deadline_ns t) (t_cred t).
Definition set_tnext (p : Z) (t : thread) : thread :=
  Thread (t_exec t) (t_pid t) (t_parent_pid t) (t_exit_status t) (t_state t) (t_priority t) (t_quantum t)
    p (t_prev t) (t_name t) (t_files t) (t_signals t) (t_sleep_deadline_ns t) (t_cred t).
Definition set_tprev (p : Z) (t : thread) : thread :=
  Thread (t_exec t) (t_pid t) (t_parent_pid t) (t_exit_status t) (t_state t) (t_priority t) (t_quantum t)
    (t_next t) p (t_name t) (t_files t) (t_signals t) (t_sleep_deadline_ns t) (t_cred t).
Definition set_tname (n : list Z) (t : thread) : thread :=
  Thread (t_exec t) (t_pid t) (t_parent_pid t) (t_exit_status t) (t_state t) (t_priority t) (t_quantum t)
    (t_next t) (t_prev t) n (t_files t) (t_signals t) (t_sleep_deadline_ns t) (t_cred t).
Definition set_files (f : files → files) (t : thread) : thread :=
  Thread (t_exec t) (t_pid t) (t_parent_pid t) (t_exit_status t) (t_state t) (t_priority t) (t_quantum t)
    (t_next t) (t_prev t) (t_name t) (f (t_files t)) (t_signals t) (t_sleep_deadline_ns t) (t_cred t).
Definition set_sleep (d : Z) (t : thread) : thread :=
  Thread (t_exec t) (t_pid t) (t_parent_pid t) (t_exit_status t) (t_state t) (t_priority t) (t_quantum t)
    (t_next t) (t_prev t) (t_name t) (t_files t) (t_signals t) d (t_cred t).
Definition set_cred (c : cred) (t : thread) : thread :=
  Thread (t_exec t) (t_pid t) (t_parent_pid t) (t_exit_status t) (t_state t) (t_priority t) (t_quantum t)
    (t_next t) (t_prev t) (t_name t) (t_files t) (t_signals t) (t_sleep_deadline_ns t) c.

Definition fds (t : thread) : list vfs_file := fs_fds (t_files t).
Definition set_fd (i : nat) (f : vfs_file) (t : thread) : thread :=
  set_files (λ x, Files (<[i := f]> (fs_fds x)) (fs_cwd x)) t.

(** The statics of sched.c over the rest of the machine.  [sc_heap] is what
    [kmalloc] answers: nothing, or memory with some content; [sc_fresh] is the
    next address it uses.  [sc_stacks] holds the words a kernel stack was
    prepared with, top last; [cpu_rsp] and [cpu_kstack] what [context_switch]
    loaded. *)
Record sched := Sched {
  threads : gmap Z thread;
  current : Z;
  ready_head : Z;
  zombie_head : Z;
  next_pid : Z;
  g_init_thread : Z;
  g_init_dead : bool;
  sc_heap : list (option thread);
  sc_fresh : Z;
  sc_stacks : gmap Z (list Z);
  sc_vfs : vfs;
  sc_mmu : mmu;
  cpu_rsp : Z;
  cpu_kstack : Z;
}.

Definition set_threads (f : gmap Z thread → gmap Z thread) (s : sched) : sched :=
  Sched (f (threads s)) (current s) (ready_head s) (zombie_head s) (next_pid s) (g_init_thread s) (g_init_dead s)
    (sc_heap s) (sc_fresh s) (sc_stacks s) (sc_vfs s) (sc_mmu s) (cpu_rsp s) (cpu_kstack s).
Definition set_current (p : Z) (s : sched) : sched :=
  Sched (threads s) p (ready_head s) (zombie_head s) (next_pid s) (g_init_thread s) (g_init_dead s)
    (sc_heap s) (sc_fresh s) (sc_stacks s) (sc_vfs s) (sc_mmu s) (cpu_rsp s) (cpu_kstack s).
Definition set_ready (p : Z) (s : sched) : sched :=
  Sched (threads s) (current s) p (zombie_head s) (next_pid s) (g_init_thread s) (g_init_dead s)
    (sc_heap s) (sc_fresh s) (sc_stacks s) (sc_vfs s) (sc_mmu s) (cpu_rsp s) (cpu_kstack s).
Definition set_zombie (p : Z) (s : sched) : sched :=
  Sched (threads s) (current s) (ready_head s) p (next_pid s) (g_init_thread s) (g_init_dead s)
    (sc_heap s) (sc_fresh s) (sc_stacks s) (sc_vfs s) (sc_mmu s) (cpu_rsp s) (cpu_kstack s).
Definition set_pid (n : Z) (s : sched) : sched :=
  Sched (threads s) (current s) (ready_head s) (zombie_head s) n (g_init_thread s) (g_init_dead s)
    (sc_heap s) (sc_fresh s) (sc_stacks s) (sc_vfs s) (sc_mmu s) (cpu_rsp s) (cpu_kstack s).
Definition set_init (p : Z) (d : bool) (s : sched) : sched :=
  Sched (threads s) (current s) (ready_head s) (zombie_head s) (next_pid s) p d
    (sc_heap s) (sc_fresh s) (sc_stacks s) (sc_vfs s) (sc_mmu s) (cpu_rsp s) (cpu_kstack s).
Definition set_kheap (h : list (option thread)) (n : Z) (s : sched) : sched :=
  Sched (threads s) (current s) (ready_head s) (zombie_head s) (next_pid s) (g_init_thread s) (g_init_dead s)
    h n (sc_stacks s) (sc_vfs s) (sc_mmu s) (cpu_rsp s) (cpu_kstack s).
Definition set_stacks (f : gmap Z (list Z) → gmap Z (list Z)) (s : sched) : sched :=
  Sched (threads s) (current s) (ready_head s) (zombie_head s) (next_pid s) (g_init_thread s) (g_init_dead s)
    (sc_heap s) (sc_fresh s) (f (sc_stacks s)) (sc_vfs s) (sc_mmu s) (cpu_rsp s) (cpu_kstack s).
Definition put_vfs (v : vfs) (s : sched) : sched :=
  Sched (threads s) (current s) (ready_head s) (zombie_head s) (next_pid s) (g_init_thread s) (g_init_dead s)
    (sc_heap s) (sc_fresh s) (sc_stacks s) v (sc_mmu s) (cpu_rsp s) (cpu_kstack s).
Definition put_mmu (m : mmu) (s : sched) : sched :=
  Sched (threads s) (current s) (ready_head s) (zombie_head s) (next_pid s) (g_init_thread s) (g_init_dead s)
    (sc_heap s) (sc_fresh s) (sc_stacks s) (sc_vfs s) m (cpu_rsp s) (cpu_kstack s).
Definition set_cpu (rsp top : Z) (s : sched) : sched :=
  Sched (threads s) (current s) (ready_head s) (zombie_head s) (next_pid s) (g_init_thread s) (g_init_dead s)
    (sc_heap s) (sc_fresh s) (sc_stacks s) (sc_vfs s) (sc_mmu s) rsp top.

Definition on_vfs {A} (m : M vfs A) : M sched A := zoom sc_vfs put_vfs m.
Definition on_mmu {A} (m : M mmu A) : M sched A := zoom sc_mmu put_mmu m.
Definition on_pmm {A} (m : M pmm A) : M sched A := on_mmu (zoom mm_pmm set_pmm m).

(** The two static threads. *)
Definition main_thread : Z := 1.
Definition idle_thread : Z := 2.

(** Access through a thread pointer. *)
Definition thr (p : Z) : M sched thread :=
  ts ← gets threads;
  match ts !! p with Some t => mret t | None => fault end.
Definition upd (p : Z) (f : thread → thread) : M sched unit :=
  t ← thr p;
  modify (set_threads (insert p (f t))).

(** [kmalloc(sizeof(struct thread))] and [kfree]. *)
Definition zero_file : vfs_file := VfsFile false FD_FREE None 0 0.
Definition zero_sigaction : sigaction := Sigaction 0 0 0 0.
Definition zero_thread : thread :=
  Thread (Exec 0 0 0 0 0 0 0 None) 0 0 0 THREAD_READY 0 0 0 0 (replicate 16 0)
    (Files (replicate MAX_FD zero_file) (replicate 256 0))
    (Signals 0 0 (replicate NSIG zero_sigaction) (replicate IPC_MAX 0)) 0
    (Cred 0 0 0 0 0 0 ROLE_GUEST 0 0 0).
Definition kmalloc_thread : M sched Z :=
  h ← gets sc_heap;
  n ← gets sc_fresh;
  match h with
  | None :: h' => modify (set_kheap h' n) ;; mret 0
  | Some t :: h' => modify (λ s, set_kheap h' (n + 1) (set_threads (insert n t) s)) ;; mret n
  | [] => modify (λ s, set_kheap [] (n + 1) (set_threads (insert n zero_thread) s)) ;; mret n
  end.
Definition kfree_thread (p : Z) : M sched unit :=
  _ ← thr p;
  modify (set_threads (delete p)).

(** ** Building a thread *)

(** [for (i = 0; src[i] && i < n; i++) dst[i] = src[i]; dst[i] = 0;] *)
Definition copy_string (n : nat) (src dst : list Z) : list Z :=
  let p := take n src in p ++ [0] ++ drop (S (length p)) dst.

Definition default_cred : cred :=
  Cred 0 0 0 0 0 0 ROLE_USER (role_caps ROLE_USER) (role_caps ROLE_USER) (role_caps ROLE_USER).
Definition system_cred : cred := Cred 0 0 0 0 0 0 ROLE_SYSTEM 0xFFFFFFFF 0xFFFFFFFF 0xFFFFFFFF.

Definition clear_fd (f : vfs_file) : vfs_file := VfsFile false FD_FREE None 0 (f_flags f).

Definition thread_init_vfs (t : thread) : thread :=
  let fl := t_files t in
  let fl' := Files (clear_fd <$> fs_fds fl) (<[0%nat := 0]> (fs_cwd fl)) in
  let sg := Signals 0 0 ((λ _, zero_sigaction) <$> sig_actions (t_signals t)) ((λ _, -1) <$> sig_ipc (t_signals t)) in
  Thread (t_exec t) (t_pid t) (t_parent_pid t) (t_exit_status t) (t_state t) (t_priority t) (t_quantum t)
    (t_next t) (t_prev t) (t_name t) fl' sg (t_sleep_deadline_ns t) default_cred.

(** A node and its pipe, through the pointers of a descriptor. *)
Definition with_pipe (p : nat) (f : pipe → pipe) : M vfs unit :=
  ps ← gets vf_pipes;
  match ps !! p with Some q => modify (set_pipes (insert p (f q))) | None => fault end.
Definition get_pipe (p : nat) : M vfs pipe :=
  ps ← gets vf_pipes;
  match ps !! p with Some q => mret q | None => fault end.

Definition add_readers (d : Z) (q : pipe) : pipe :=
  Pipe (p_buf q) (p_cap q) (p_count q) (i32 (p_nreaders q + d)) (p_nwriters q) (p_wait_reader q) (p_shared q) (p_dead q).
Definition add_writers (d : Z) (q : pipe) : pipe :=
  Pipe (p_buf q) (p_cap q) (p_count q) (p_nreaders q) (i32 (p_nwriters q + d)) (p_wait_reader q) (p_shared q) (p_dead q).
Definition no_waiter (q : pipe) : pipe :=
  Pipe (p_buf q) (p_cap q) (p_count q) (p_nreaders q) (p_nwriters q) 0 (p_shared q) (p_dead q).

(** [if (type == VFS_PIPE_R) p->nreaders += d; else if (type == VFS_PIPE_W) p->nwriters += d;] *)
Definition count_end (ty : vtype) (p : nat) (d : Z) : M vfs unit :=
  match ty with
  | VFS_PIPE_R => with_pipe p (add_readers d)
  | VFS_PIPE_W => with_pipe p (add_writers d)
  | _ => mret tt
  end.

Definition thread_ref_fd (f : vfs_file) : M vfs unit :=
  match f_used f, f_node f with
  | true, Some n =>
    match f_kind f with
    | FD_VNODE => v ← deref n; update n (with_refcount (u32 (vn_refcount v + 1)))
    | FD_PIPE =>
      v ← deref n;
      match vn_priv v with Some p => count_end (vn_type v) p 1 | None => mret tt end ;;
      update n (with_refcount (u32 (vn_refcount v + 1)))
    | _ => mret tt
    end
  | _, _ => mret tt
  end.

Definition thread_inherit_vfs (t parent : Z) : M sched unit :=
  if parent =? 0 then mret tt
  else
    for_up MAX_FD 0 (λ i,
      pt ← thr parent;
      f ← load (fds pt) i;
      upd t (set_fd (Z.to_nat i) f) ;;
      on_vfs (thread_ref_fd f)) ;;
    pt ← thr parent;
    upd t (set_files (λ x, Files (fs_fds x) (copy_string 255 (cut0 (fs_cwd (t_files pt))) (fs_cwd x)))).

Definition sched_wake (t : Z) : M sched unit :=
  if t =? 0 then mret tt
  else
    x ← thr t;
    if bool_decide (t_state x = THREAD_BLOCKED) then upd t (set_state THREAD_READY) else mret tt.

(** The C [int] is taken to wrap around after [INT_MAX]. *)
Definition sched_new_pid : M sched Z :=
  n ← gets next_pid;
  modify (set_pid (i32 (n + 1))) ;;
  mret n.

(** ** Files of an exiting thread *)

Section files.
Context {env : VfsEnv}.

(** What becomes of a pipe when an end was closed. *)
Definition settle_pipe (p : nat) : M sched unit :=
  q ← on_vfs (get_pipe p);
  let idle := (p_nreaders q =? 0) && (p_nwriters q =? 0) in
  if p_shared q then
    if p_dead q && idle then on_vfs (modify (set_pipes (delete p))) else mret tt
  else if idle then on_vfs (modify (set_pipes (delete p)))
  else if negb (p_wait_reader q =? 0) then
    sched_wake (p_wait_reader q) ;;
    on_vfs (with_pipe p no_waiter)
  else mret tt.

Definition close_pipe_end (n : nat) : M sched unit :=
  v ← on_vfs (deref n);
  match vn_priv v with Some p => on_vfs (count_end (vn_type v) p (-1)) | None => mret tt end ;;
  let c := if 0 <? vn_refcount v then vn_refcount v - 1 else vn_refcount v in
  on_vfs (update n (with_refcount c)) ;;
  (if c =? 0 then on_vfs (kfree_node n) else mret tt) ;;
  match vn_priv v with Some p => settle_pipe p | None => mret tt end.

Definition close_fd (f : vfs_file) : M sched unit :=
  match f_kind f, f_node f with
  | FD_VNODE, n => on_vfs (vfs_release n)
  | FD_PIPE, Some n => close_pipe_end n
  | _, _ => mret tt
  end.

Definition thread_close_fds (t : Z) : M sched unit :=
  for_up MAX_FD 0 (λ i,
    x ← thr t;
    f ← load (fds x) i;
    if negb (f_used f) then mret tt
    else
      close_fd f ;;
      upd t (set_fd (Z.to_nat i) (clear_fd f))).
End files.

(** ** The run queue *)

(** A thread is appended: [t] goes between the last one and [ready_head]. *)
Definition link_ready (t : Z) : M sched unit :=
  h ← gets ready_head;
  if h =? 0 then
    upd t (set_tnext t) ;; upd t (set_tprev t) ;;
    modify (set_ready t)
  else
    upd t (set_tnext h) ;;
    ht ← thr h;
    upd t (set_tprev (t_prev ht)) ;;
    upd (t_prev ht) (set_tnext t) ;;
    upd h (set_tprev t).

(** A walk along [t_next] visits at most every thread of the store. *)
Definition walk_fuel (s : sched) : nat := S (S (size (threads s))).

Definition thread_find_by_pid (pid : Z) : M sched Z :=
  if pid <=? 0 then mret 0
  else
    c ← gets current;
    found ← (if c =? 0 then mret false else x ← thr c; mret (t_pid x =? pid));
    if found : bool then mret c
    else
      m ← thr main_thread;
      if t_pid m =? pid then mret main_thread
      else
        i ← thr idle_thread;
        if t_pid i =? pid then mret idle_thread
        else
          h ← gets ready_head;
          if h =? 0 then mret 0
          else
            n ← gets walk_fuel;
            loop_fuel n (λ t,
              x ← thr t;
              if t_pid x =? pid then mret (inr t)
              else mret (if t_next x =? h then inr 0 else inl (t_next x))) h.

Definition sched_find_by_pid (pid : Z) : M sched Z := thread_find_by_pid pid.
Definition sched_current : M sched Z := gets current.
Definition sched_mark_init (t : Z) : M sched unit := modify (λ s, set_init t (g_init_dead s) s).
Definition sched_is_protected (t : Z) : bool := (t =? main_thread) || (t =? idle_thread).

(** A kernel panic does not return. *)
Definition sched_protected_kill (victim killer : Z) : M sched Z :=
  if negb (sched_is_protected victim) then mret 0
  else
    denied ← (if killer =? 0 then mret false else k ← thr killer; mret (bool_decide (cr_role (t_cred k) ≠ ROLE_SYSTEM)));
    if denied : bool then mret (- EPERM) else fault.

(** ** Zombies *)

Definition stack_frames : Z := (THREAD_STACK_SIZE + PAGE_SIZE - 1) / PAGE_SIZE.

(** The memory of a thread is given back: stack, address space, the struct. *)
Definition release_thread (z : Z) : M sched unit :=
  x ← thr z;
  (if negb (x_stack_base (t_exec x) =? 0) then
     on_pmm (pmm_free_frames (x_stack_base (t_exec x)) stack_frames) ;;
     modify (set_stacks (delete (x_stack_base (t_exec x)))) ;;
     upd z (set_exec (λ e, Exec (x_rsp e) (x_kstack_top e) (x_mmu e) (x_user_rsp e) 0 (x_func e) (x_arg e) (x_syscall_iret e)))
   else mret tt) ;;
  on_mmu (vmm_free_root (x_mmu (t_exec x))) ;;
  upd z (set_exec (λ e, Exec (x_rsp e) (x_kstack_top e) 0 (x_user_rsp e) (x_stack_base e) (x_func e) (x_arg e) (x_syscall_iret e))) ;;
  kfree_thread z.

Definition reap_zombies : M sched unit :=
  n ← gets walk_fuel;
  z0 ← gets zombie_head;
  loop_fuel n (λ '(prev, z),
    if z =? 0 then mret (inr tt)
    else
      x ← thr z;
      let nxt := t_next x in
      orphan ← (if t_parent_pid x =? 0 then mret true
                else p ← thread_find_by_pid (t_parent_pid x); mret (p =? 0));
      if orphan : bool then
        release_thread z ;;
        (if negb (prev =? 0) then upd prev (set_tnext nxt) else modify (set_zombie nxt)) ;;
        mret (inl (prev, nxt))
      else mret (inl (z, nxt))) (0, z0).

Definition sched_child_zombie (parent_pid pid_filter : Z) : M sched Z :=
  n ← gets walk_fuel;
  z0 ← gets zombie_head;
  loop_fuel n (λ z,
    if z =? 0 then mret (inr 0)
    else
      x ← thr z;
      if (t_parent_pid x =? parent_pid) && ((pid_filter <=? 0) || (t_pid x =? pid_filter)) then mret (inr z)
      else mret (inl (t_next x))) z0.

Definition sched_has_child (parent_pid : Z) : M sched Z :=
  n ← gets walk_fuel;
  h ← gets ready_head;
  live ← (if h =? 0 then mret 0
          else loop_fuel n (λ t,
            x ← thr t;
            if t_parent_pid x =? parent_pid then mret (inr 1)
            else mret (if t_next x =? h then inr 0 else inl (t_next x))) h);
  if live =? 1 then mret 1
  else
    z0 ← gets zombie_head;
    loop_fuel n (λ z,
      if z =? 0 then mret (inr 0)
      else
        x ← thr z;
        if t_parent_pid x =? parent_pid then mret (inr 1) else mret (inl (t_next x))) z0.

(** The zombie before [z] in the chain is linked past it. *)
Definition unchain_zombie (z : Z) : M sched unit :=
  zh ← gets zombie_head;
  if zh =? z then x ← thr z; modify (set_zombie (t_next x))
  else if negb (zh =? 0) then
    n ← gets walk_fuel;
    p ← loop_fuel n (λ p,
          x ← thr p;
          mret (if negb (t_next x =? 0) && negb (t_next x =? z) then inl (t_next x) else inr p)) zh;
    x ← thr p;
    if t_next x =? z then y ← thr z; upd p (set_tnext (t_next y)) else mret tt
  else mret tt.

Definition sched_reap_zombie (z : Z) : M sched unit :=
  if z =? 0 then mret tt
  else unchain_zombie z ;; release_thread z.

(** ** Starting threads *)

Definition with_core (ex : exec) (pid parent : Z) (prio : Z) (st : thread_state) (t : thread) : thread :=
  Thread ex pid parent 0 st prio THREAD_QUANTUM (t_next t) (t_prev t) (t_name t) (t_files t) (t_signals t)
    (t_sleep_deadline_ns t) (t_cred t).

(** The addresses of [bootstrap_stack_top], [idle_func], [thread_trampoline] and
    [user_iret_stub]. *)
Record symbols := Symbols { sym_boot_stack : Z; sym_idle_func : Z; sym_trampoline : Z; sym_iret_stub : Z }.

Section start.
Context (sy : symbols).

Definition name_main : list Z := [109; 97; 105; 110].
Definition name_idle : list Z := [105; 100; 108; 101].

Definition sched_init : M sched unit :=
  modify (set_current main_thread) ;;
  root ← on_mmu vmm_kernel_root;
  pid ← sched_new_pid;
  upd main_thread (λ t,
    let e := t_exec t in
    set_cred system_cred (set_tname (copy_string 15 name_main (t_name t)) (set_tprev main_thread (set_tnext main_thread
      (with_core (Exec (x_rsp e) (sym_boot_stack sy) root (x_user_rsp e) 0 0 0 (x_syscall_iret e)) pid 0 1 THREAD_RUNNING t))))) ;;
  modify (set_ready main_thread) ;;
  pid ← sched_new_pid;
  upd idle_thread (λ t,
    let e := t_exec t in
    set_cred system_cred (set_tname (copy_string 15 name_idle (t_name t)) (set_tprev 0 (set_tnext 0
      (with_core (Exec (x_rsp e) (x_kstack_top e) root (x_user_rsp e) 0 (sym_idle_func sy) 0 (x_syscall_iret e)) pid 0 0 THREAD_READY t))))).

(** Memory for a thread and its kernel stack: addresses of both, or 0. *)
Definition alloc_thread : M sched (Z * Z) :=
  t ← kmalloc_thread;
  if t =? 0 then mret (0, 0)
  else
    stack ← on_pmm (pmm_alloc_frames stack_frames);
    if stack =? 0 then kfree_thread t ;; mret (0, 0)
    else mret (t, stack).

(** The words pushed on a fresh stack, in the order of the pushes. *)
Definition push_words (stack : Z) (ws : list Z) : M sched Z :=
  modify (set_stacks (insert stack ws)) ;;
  mret (u64 (stack + THREAD_STACK_SIZE - 8 * Z.of_nat (length ws))).

Definition sched_spawn (func arg : Z) (name : list Z) : M sched Z :=
  '(t, stack) ← alloc_thread;
  if t =? 0 then mret 0
  else
    rsp ← push_words stack [sym_trampoline sy; 0; 0; 0; 0; 0; 0];
    root ← on_mmu vmm_kernel_root;
    pid ← sched_new_pid;
    upd t (λ x,
      let e := t_exec x in
      thread_init_vfs (set_tname (copy_string 15 name (t_name x))
        (with_core (Exec rsp (u64 (stack + THREAD_STACK_SIZE)) root (x_user_rsp e) stack func arg (x_syscall_iret e))
           pid 0 1 THREAD_READY x))) ;;
    link_ready t ;;
    mret t.

(** The callee-saved registers a forked thread starts with. *)
Record uregs := Uregs { r_rbx : Z; r_rbp : Z; r_r12 : Z; r_r13 : Z; r_r14 : Z; r_r15 : Z }.

Definition sched_spawn_user_in (root rip user_rsp rflags : Z) (name : list Z) (r : uregs) : M sched Z :=
  '(t, stack) ← alloc_thread;
  if t =? 0 then mret 0
  else
    rsp ← push_words stack [0x33; user_rsp; rflags; 0x2B; rip; 0; sym_iret_stub sy;
                            r_rbx r; r_rbp r; r_r12 r; r_r13 r; r_r14 r; r_r15 r];
    pid ← sched_new_pid;
    cur ← gets current;
    ppid ← (if cur =? 0 then mret 0 else c ← thr cur; mret (t_pid c));
    upd t (λ x,
      let e := t_exec x in
      thread_init_vfs (set_tname (copy_string 15 name (t_name x))
        (with_core (Exec rsp (u64 (stack + THREAD_STACK_SIZE)) root user_rsp stack 0 0 (x_syscall_iret e))
           pid ppid 1 THREAD_READY x))) ;;
    thread_inherit_vfs t cur ;;
    (if cur =? 0 then mret tt else c ← thr cur; upd t (set_cred (t_cred c))) ;;
    link_ready t ;;
    mret t.
End start.

(** Where [syscall_iret] points to in the saved words. *)
Definition FRAME_RIP : Z := 13.

Definition sched_set_current_image (root rip user_rsp rflags : Z) (name : list Z) : M sched Z :=
  cur ← gets current;
  if cur =? 0 then mret (-1)
  else
    t ← thr cur;
    match x_syscall_iret (t_exec t) with
    | None => mret (-1)
    | Some frame =>
      _ ← load frame FRAME_RIP; _ ← load frame (FRAME_RIP + 2); _ ← load frame (FRAME_RIP + 3);
      let frame' := <[Z.to_nat (FRAME_RIP + 3) := user_rsp]> (<[Z.to_nat (FRAME_RIP + 2) := rflags]> (<[Z.to_nat FRAME_RIP := rip]> frame)) in
      let old := x_mmu (t_exec t) in
      upd cur (λ x, set_tname (copy_string 15 name (t_name x))
        (set_exec (λ e, Exec (x_rsp e) (x_kstack_top e) root user_rsp (x_stack_base e) (x_func e) (x_arg e) (Some frame')) x)) ;;
      on_mmu (vmm_switch root) ;;
      k ← on_mmu vmm_kernel_root;
      (if negb (old =? 0) && negb (old =? root) && negb (old =? k) then on_mmu (vmm_free_root old) else mret tt) ;;
      mret 0
    end.

(** ** Switching *)

(** [context_switch(&old->rsp, rsp, top)]: the callee-saved registers are pushed
    below the stack pointer [sp] of the caller. *)
Definition context_switch (sp old rsp top : Z) : M sched unit :=
  upd old (set_exec (λ e, Exec (u64 (sp - 48)) (x_kstack_top e) (x_mmu e) (x_user_rsp e) (x_stack_base e) (x_func e) (x_arg e) (x_syscall_iret e))) ;;
  modify (set_cpu (u64 (rsp + 56)) top).

(** [next] becomes the running thread. *)
Definition dispatch (sp old next : Z) : M sched unit :=
  modify (set_current next) ;;
  upd next (λ t, set_quantum THREAD_QUANTUM (set_state THREAD_RUNNING t)) ;;
  t ← thr next;
  on_mmu (vmm_switch (x_mmu (t_exec t))) ;;
  t ← thr next;
  context_switch sp old (x_rsp (t_exec t)) (x_kstack_top (t_exec t)).

(** The next ready thread after [old] in the run queue, or [idle_thread]. *)
Definition pick_next (old : Z) : M sched Z :=
  o ← thr old;
  n ← gets walk_fuel;
  next ← loop_fuel n (λ p,
    if p =? old then mret (inr p)
    else x ← thr p; mret (if bool_decide (t_state x = THREAD_READY) then inr p else inl (t_next x))) (t_next o);
  x ← thr next;
  mret (if bool_decide (t_state x = THREAD_READY) then next else idle_thread).

(** [kernel_respawn_init] of kernel.c loads and starts /bin/init again. *)
Class SchedEnv := { respawn_init : M sched unit }.

Section switch.
Context {env : VfsEnv} {senv : SchedEnv}.

Definition sched_check_init : M sched unit :=
  d ← gets g_init_dead;
  if negb d then mret tt
  else
    modify (λ s, set_init (g_init_thread s) false s) ;;
    i ← gets g_init_thread;
    (if negb (i =? 0) then sched_reap_zombie i ;; modify (λ s, set_init 0 (g_init_dead s) s) else mret tt) ;;
    respawn_init.

Definition sched_yield (sp : Z) : M sched unit :=
  reap_zombies ;;
  sched_check_init ;;
  h ← gets ready_head;
  if h =? 0 then mret tt
  else
    old ← gets current;
    upd old (λ t, set_quantum THREAD_QUANTUM (set_state THREAD_READY t)) ;;
    next ← pick_next old;
    dispatch sp old next.

Definition sched_suspend (sp : Z) : M sched unit :=
  h ← gets ready_head;
  if h =? 0 then mret tt
  else
    old ← gets current;
    next ← pick_next old;
    upd old (set_state THREAD_BLOCKED) ;;
    dispatch sp old next.

(** The exiting thread leaves the run queue. *)
Definition unlink_ready (self : Z) : M sched unit :=
  h ← gets ready_head;
  (if h =? self then
     x ← thr self;
     modify (set_ready (if t_next x =? self then 0 else t_next x))
   else mret tt) ;;
  h ← gets ready_head;
  if negb (h =? 0) then
    x ← thr self;
    upd (t_prev x) (set_tnext (t_next x)) ;;
    x ← thr self;
    upd (t_next x) (set_tprev (t_prev x))
  else mret tt.

Definition sched_exit (sp status : Z) : M sched unit :=
  self ← gets current;
  upd self (set_exit status) ;;
  thread_close_fds self ;;
  modify (λ s, if self =? g_init_thread s then set_init (g_init_thread s) true s else s) ;;
  unlink_ready self ;;
  zh ← gets zombie_head;
  upd self (set_tnext zh) ;;
  modify (set_zombie self) ;;
  x ← thr self;
  (if 0 <? t_parent_pid x then
     p ← thread_find_by_pid (t_parent_pid x);
     if p =? 0 then mret tt
     else
       y ← thr p;
       if bool_decide (t_state y = THREAD_BLOCKED) then upd p (set_state THREAD_READY) else mret tt
   else mret tt) ;;
  h ← gets ready_head;
  dispatch sp self (if h =? 0 then idle_thread else h).

(** [now] is what [clock_mono_ns()] returns. *)
Definition sched_tick (now : Z) : M sched unit :=
  c ← gets current;
  (if c =? 0 then mret tt
   else x ← thr c; if 0 <? t_quantum x then upd c (set_quantum (t_quantum x - 1)) else mret tt) ;;
  h ← gets ready_head;
  if h =? 0 then mret tt
  else
    n ← gets walk_fuel;
    loop_fuel n (λ t,
      x ← thr t;
      (if bool_decide (t_state x = THREAD_BLOCKED) && negb (t_sleep_deadline_ns x =? 0) && (t_sleep_deadline_ns x <=? now)
       then upd t (λ y, set_state THREAD_READY (set_sleep 0 y)) else mret tt) ;;
      mret (if t_next x =? h then inr tt else inl (t_next x))) h.

Definition sched_sleep_ns (sp now ns : Z) : M sched unit :=
  if ns =? 0 then mret tt
  else
    c ← gets current;
    upd c (set_sleep (u64 (now + ns))) ;;
    sched_suspend sp.
End switch.

(** ** Enumeration *)

Definition sched_foreach (fn : Z → M sched unit) : M sched unit :=
  c ← gets current;
  (if c =? 0 then mret tt else fn c) ;;
  c ← gets current;
  (if c =? main_thread then mret tt else fn main_thread) ;;
  c ← gets current;
  (if c =? idle_thread then mret tt else fn idle_thread) ;;
  h ← gets ready_head;
  if h =? 0 then mret tt
  else
    n ← gets walk_fuel;
    loop_fuel n (λ t,
      c ← gets current;
      (if (t =? c) || (t =? main_thread) || (t =? idle_thread) then mret tt else fn t) ;;
      x ← thr t;
      h' ← gets ready_head;
      mret (if t_next x =? h' then inr tt else inl (t_next x))) h.

(** [struct proc_info] *)
Record proc_info := ProcInfo { pi_pid : Z; pi_parent_pid : Z; pi_state : thread_state; pi_uid : Z; pi_name : list Z }.

Definition proc_of (t : thread) : proc_info :=
  ProcInfo (t_pid t) (t_parent_pid t) (t_state t) (i32 (cr_uid (t_cred t))) (take 15 (cut0 (t_name t))).

(** The macro [ADD]. *)
Definition add_proc (max : Z) (l : list proc_info) (t : Z) : M sched (list proc_info) :=
  if (Z.of_nat (length l) <? max) && negb (t =? 0) then x ← thr t; mret (l ++ [proc_of x]) else mret l.

Definition is_listed (c t : Z) : bool := (t =? main_thread) || (t =? idle_thread) || (t =? c).

Definition sched_enum_procs (max : Z) : M sched (list proc_info) :=
  if max <=? 0 then mret []
  else
    c ← gets current;
    l ← add_proc max [] main_thread;
    l ← add_proc max l idle_thread;
    l ← (if negb (c =? 0) && negb (c =? main_thread) && negb (c =? idle_thread) then add_proc max l c else mret l);
    n ← gets walk_fuel;
    h ← gets ready_head;
    l ← (if h =? 0 then mret l
         else loop_fuel n (λ '(l, t),
           l ← (if is_listed c t then mret l else add_proc max l t);
           x ← thr t;
           mret (if t_next x =? h then inr l else inl (l, t_next x))) (l, h));
    z ← gets zombie_head;
    loop_fuel n (λ '(l, z),
      if z =? 0 then mret (inr l)
      else
        l ← (if is_listed c z then mret l else add_proc max l z);
        x ← thr z;
        mret (inl (l, t_next x))) (l, z).
