(* ===== verification/SchedQueue.v ===== *)
(** * SchedQueue: the run queue and the switching of threads

    The run queue and the zombie chain of Sched.v as lists, the invariant
    [sched_ok] of the scheduler and the rules of the operations that switch,
    block, wake, end and reap threads. *)

From Stdlib Require Import String.
From S2P Require Import Prelude BootMap Pmm Mmu Reclaim CString Security VfsPath Vfs Sched.

#[local] Arguments for_up : simpl never.

(** ** The run queue as a list *)

(** [a] is followed by [b]. *)
Definition adj (ts : gmap Z thread) (a b : Z) : Prop :=
  (∃ t, ts !! a = Some t ∧ t_next t = b) ∧ (∃ t, ts !! b = Some t ∧ t_prev t = a).

(** From [p] the links lead through [l] to [q]. *)
Fixpoint seg (ts : gmap Z thread) (p : Z) (l : list Z) (q : Z) : Prop :=
  match l with
  | [] => adj ts p q
  | x :: l' => adj ts p x ∧ seg ts x l' q
  end.

(** A chain that ends with the null pointer. *)
Fixpoint chain (ts : gmap Z thread) (p : Z) (l : list Z) : Prop :=
  match l with
  | [] => p = 0
  | x :: l' => p = x ∧ ∃ t, ts !! x = Some t ∧ chain ts (t_next t) l'
  end.

Lemma seg_app ts p l1 x l2 q : seg ts p (l1 ++ x :: l2) q ↔ seg ts p l1 x ∧ seg ts x l2 q.
Proof. revert p. induction l1 as [|y l1 IH]; intros p; simpl; [done|]. rewrite IH. tauto. Qed.

Lemma seg_in ts p l q x : seg ts p l q → x ∈ p :: l → is_Some (ts !! x).
Proof.
  revert p. induction l as [|y l IH]; intros p Hs Hx.
  - apply list_elem_of_singleton in Hx as ->. destruct Hs as [(t & Ht & _) _]. eauto.
  - destruct Hs as [[(t & Ht & _) _] Hs]. apply elem_of_cons in Hx as [->|Hx]; [eauto|]. by eapply IH.
Qed.

(** Changes that keep the links. *)
Definition same_links (t t' : thread) : Prop := t_next t' = t_next t ∧ t_prev t' = t_prev t.

Lemma adj_mono ts ts' a b :
  (∀ t, ts !! a = Some t → ∃ t', ts' !! a = Some t' ∧ t_next t' = t_next t) →
  (∀ t, ts !! b = Some t → ∃ t', ts' !! b = Some t' ∧ t_prev t' = t_prev t) → adj ts a b → adj ts' a b.
Proof.
  intros Ha Hb [(t & Ht & <-) (u & Hu & <-)]. destruct (Ha t Ht) as (t' & ? & ?), (Hb u Hu) as (u' & ? & ?).
  split; eauto.
Qed.

Lemma seg_mono ts ts' p l q :
  (∀ x t, x ∈ p :: l → ts !! x = Some t → ∃ t', ts' !! x = Some t' ∧ t_next t' = t_next t) →
  (∀ x t, x ∈ q :: l → ts !! x = Some t → ∃ t', ts' !! x = Some t' ∧ t_prev t' = t_prev t) →
  seg ts p l q → seg ts' p l q.
Proof.
  revert p. induction l as [|y l IH]; intros p Hn Hp; simpl.
  - apply adj_mono; intros; [eapply Hn|eapply Hp]; eauto; by left.
  - intros [Ha Hs]. split.
    + revert Ha. apply adj_mono; intros; [eapply Hn|eapply Hp]; eauto; [by left|by right; left].
    + apply IH; [| |done].
      * intros x t Hx. apply Hn. by right.
      * intros x t Hx. apply Hp. set_unfold. tauto.
Qed.

Lemma chain_mono ts ts' p l :
  (∀ x t, x ∈ l → ts !! x = Some t → ∃ t', ts' !! x = Some t' ∧ t_next t' = t_next t) →
  chain ts p l → chain ts' p l.
Proof.
  revert p. induction l as [|x l IH]; intros p Hl; [done|]. intros [-> (t & Ht & Hc)]. split; [done|].
  destruct (Hl x t) as (t' & Ht' & Heq); [by left|done|]. exists t'. split; [done|]. rewrite Heq.
  apply IH; [|done]. intros y u Hy. apply Hl. by right.
Qed.

Lemma chain_in ts p l x : chain ts p l → x ∈ l → is_Some (ts !! x).
Proof.
  revert p. induction l as [|y l IH]; intros p Hc Hx; [by apply not_elem_of_nil in Hx|].
  destruct Hc as [-> (t & Ht & Hc)]. apply elem_of_cons in Hx as [->|Hx]; [eauto|]. by eapply IH.
Qed.

(** The element before the end of a segment. *)
Definition before (p : Z) (l : list Z) : Z := default p (last l).

Lemma seg_snoc ts p l x q : seg ts p (l ++ [x]) q ↔ seg ts p l x ∧ adj ts x q.
Proof. apply seg_app. Qed.

Lemma before_snoc p l x : before p (l ++ [x]) = x.
Proof. unfold before. by rewrite last_snoc. Qed.

Lemma before_in p l : before p l ∈ p :: l.
Proof.
  unfold before. destruct (last l) as [x|] eqn:Hl; simpl; [|by left]. right.
  apply last_Some_elem_of in Hl. done.
Qed.

Lemma seg_end ts p l q : seg ts p l q → adj ts (before p l) q.
Proof.
  destruct l as [|x l] using rev_ind; [done|]. intros [_ Ha]%seg_snoc. by rewrite before_snoc.
Qed.

(** ** The state of the scheduler *)

(** The threads are those of the run queue [main_thread :: l], the zombies [zs]
    and [idle_thread]; [run] is running (0: a switch is under way), the others
    of the queue are ready or blocked, and [main_thread] is never blocked. *)
Record queue (s : sched) (l zs : list Z) (run : Z) : Prop := Queue {
  q_head : ready_head s = main_thread;
  q_ring : seg (threads s) main_thread l main_thread;
  q_zombies : chain (threads s) (zombie_head s) zs;
  q_nodup : NoDup (idle_thread :: main_thread :: l ++ zs);
  q_fresh : ∀ a, is_Some (threads s !! a) → 0 < a < sc_fresh s;
  q_all : ∀ a, is_Some (threads s !! a) ↔ a ∈ idle_thread :: main_thread :: l ++ zs;
  q_run : run = 0 ∨ run ∈ main_thread :: l;
  q_states : ∀ a t, a ∈ main_thread :: l → threads s !! a = Some t →
    (a = run → t_state t = THREAD_RUNNING) ∧
    (a ≠ run → t_state t = THREAD_READY ∨ (t_state t = THREAD_BLOCKED ∧ a ≠ main_thread));
  q_dead : ∀ z t, z ∈ zs → threads s !! z = Some t → t_state t = THREAD_ZOMBIE }.

(** The frames of a thread: its kernel stack and its address space. *)
Definition owns (m : mmu) (t : thread) (f : Z) : Prop :=
  (x_stack_base (t_exec t) ≠ 0 ∧ f ∈ frames (frame_of (x_stack_base (t_exec t))) stack_frames) ∨
  root_frames m (x_mmu (t_exec t)) f.

(** No frame of a thread is free or belongs to another thread. *)
Record machine (m : mmu) (ts : gmap Z thread) : Prop := Machine {
  mc_pmm : wf (mm_pmm m);
  mc_roots : ∀ a t, ts !! a = Some t → root_walkable m (x_mmu (t_exec t));
  mc_stacks : ∀ a t, ts !! a = Some t → 0 ≤ x_stack_base (t_exec t) < 2 ^ 64;
  mc_used : ∀ a t f, ts !! a = Some t → owns m t f → f ∉ free_set (mm_pmm m);
  mc_apart : ∀ a b t u f, ts !! a = Some t → ts !! b = Some u → owns m t f → owns m u f → a = b }.

Definition is_ready (ts : gmap Z thread) (a : Z) : bool :=
  match ts !! a with Some t => bool_decide (t_state t = THREAD_READY) | None => false end.

(** [idle_thread] is ready and never picked while [main_thread] can run. *)
Record sched_ok (s : sched) (l zs : list Z) : Prop := SchedOk {
  so_queue : queue s l zs (current s);
  so_machine : machine (sc_mmu s) (threads s);
  so_current : current s ≠ 0;
  so_idle : is_ready (threads s) idle_thread = true;
  so_init : g_init_dead s = false }.

(** *** Access rules *)

Lemma wp_thr s p t (Q : thread → sched → Prop) : threads s !! p = Some t → Q t s → wp (thr p) Q s.
Proof. intros Ht HQ. unfold thr. wp_step. wp_step. rewrite Ht. by wp_step. Qed.

Lemma wp_upd s p t f (Q : unit → sched → Prop) :
  threads s !! p = Some t → Q tt (set_threads (insert p (f t)) s) → wp (upd p f) Q s.
Proof. intros Ht HQ. unfold upd. wp_step. eapply wp_thr; [done|]. by wp_step. Qed.

Lemma thr_ok s p t s' : thr p s = Ok (t, s') → s' = s ∧ threads s !! p = Some t.
Proof.
  unfold thr, gets, mbind, M_bind, mret, M_ret, fault. destruct (threads s !! p) as [x|]; [|done]. by intros [= -> ->].
Qed.

Lemma upd_ok s p t f : threads s !! p = Some t → upd p f s = Ok (tt, set_threads (insert p (f t)) s).
Proof. intros Ht. apply wp_exact. by eapply wp_upd. Qed.

(** *** Changes that the queue does not see *)

Definition same_view (t t' : thread) : Prop :=
  t_next t' = t_next t ∧ t_prev t' = t_prev t ∧ t_state t' = t_state t.

Definition same_own (t t' : thread) : Prop :=
  x_mmu (t_exec t') = x_mmu (t_exec t) ∧ x_stack_base (t_exec t') = x_stack_base (t_exec t).

Definition threads_rel (R : thread → thread → Prop) (ts ts' : gmap Z thread) : Prop :=
  (∀ a t, ts !! a = Some t → ∃ t', ts' !! a = Some t' ∧ R t t') ∧
  (∀ a t', ts' !! a = Some t' → ∃ t, ts !! a = Some t ∧ R t t').

Lemma threads_rel_insert (R : thread → thread → Prop) ts p t t' :
  (∀ x, R x x) → ts !! p = Some t → R t t' → threads_rel R ts (<[p := t']> ts).
Proof.
  intros Hr Hp Ht. split.
  - intros a x Ha. destruct (decide (a = p)) as [->|Hne].
    + simplify_eq. exists t'. by rewrite lookup_insert_eq.
    + exists x. by rewrite lookup_insert_ne.
  - intros a x. destruct (decide (a = p)) as [->|Hne].
    + rewrite lookup_insert_eq. intros [= <-]. eauto.
    + rewrite lookup_insert_ne by done. eauto.
Qed.

Lemma queue_view s s' l zs run :
  queue s l zs run → threads_rel same_view (threads s) (threads s') →
  ready_head s' = ready_head s → zombie_head s' = zombie_head s → sc_fresh s' = sc_fresh s → queue s' l zs run.
Proof.
  intros [Hh Hr Hz Hnd Hf Ha Hrun Hst Hd] [H1 H2] Eh Ez Ef.
  assert (∀ a, is_Some (threads s' !! a) ↔ is_Some (threads s !! a)) as Hdom.
  { intros a. split; intros [t Ht]; [destruct (H2 a t Ht) as (? & ? & _)|destruct (H1 a t Ht) as (? & ? & _)]; eauto. }
  split; try done.
  - congruence.
  - eapply seg_mono; [| |exact Hr]; intros x t _ Ht; destruct (H1 x t Ht) as (t' & ? & ? & ? & _); eauto.
  - rewrite Ez. eapply chain_mono; [|exact Hz]. intros x t _ Ht. destruct (H1 x t Ht) as (t' & ? & ? & _). eauto.
  - intros a Hin%Hdom. rewrite Ef. by apply Hf.
  - intros a. by rewrite Hdom.
  - intros a t' Hin (t & Ht & _ & _ & ->)%H2. by eapply Hst.
  - intros z t' Hin (t & Ht & _ & _ & ->)%H2. by eapply Hd.
Qed.

Lemma owns_ext m m' t t' f :
  mm_mem m' = mm_mem m → kernel_root m' = kernel_root m → same_own t t' → owns m' t' f ↔ owns m t f.
Proof. intros Hm Hk [Hr Hs]. unfold owns, root_frames. by rewrite Hr, Hs, Hm, Hk. Qed.

Lemma machine_view m m' ts ts' :
  machine m ts → threads_rel same_own ts ts' → mm_mem m' = mm_mem m → kernel_root m' = kernel_root m →
  mm_pmm m' = mm_pmm m → machine m' ts'.
Proof.
  intros [Hw Hr Hs Hu Ha] [_ H2] Hm Hk Hp. split.
  - by rewrite Hp.
  - intros a t' (t & Ht & Ho & _)%H2. rewrite Ho. unfold root_walkable. rewrite Hm, Hk. by eapply Hr.
  - intros a t' (t & Ht & _ & Ho)%H2. rewrite Ho. by eapply Hs.
  - intros a t' f (t & Ht & Hso)%H2 Hof. rewrite Hp. apply (Hu a t f Ht). by apply (owns_ext m m' t t').
  - intros a b t' u' f (t & Ht & Hso)%H2 (u & Huu & Hso')%H2 Hf1 Hf2.
    apply (Ha a b t u f Ht Huu); [by apply (owns_ext m m' t t')|by apply (owns_ext m m' u u')].
Qed.

(** ** Walks along the run queue *)

(** The threads after [c] in queue order, [R] being the queue from its head. *)
Definition rot (c : Z) (R : list Z) : list Z :=
  match list_find (c =.) R with
  | Some (i, _) => drop (S i) R ++ take i R
  | None => []
  end.

Lemma rot_split c l1 l2 : c ∉ l1 → rot c (l1 ++ c :: l2) = l2 ++ l1.
Proof.
  intros Hc. unfold rot. replace (list_find (c =.) (l1 ++ c :: l2)) with (Some (length l1, c)).
  - rewrite take_app_length. replace (S (length l1)) with (length (l1 ++ [c])) by (rewrite length_app; simpl; lia).
    change (c :: l2) with ([c] ++ l2). by rewrite app_assoc, drop_app_length.
  - symmetry. apply list_find_Some. split_and!; [by rewrite list_lookup_middle|done|].
    intros j y Hj Hlt ->. apply Hc. rewrite lookup_app_l in Hj by done. by eapply list_elem_of_lookup_2.
Qed.

Lemma rot_perm c R : c ∈ R → NoDup R → c :: rot c R ≡ₚ R.
Proof.
  intros (l1 & l2 & ->)%list_elem_of_split Hnd. rewrite rot_split; [solve_Permutation|].
  apply NoDup_app in Hnd as (_ & Hd & _). intros Hin. apply (Hd c Hin). by left.
Qed.

Lemma seg_rot ts h l c : seg ts h l h → NoDup (h :: l) → c ∈ h :: l → seg ts c (rot c (h :: l)) c.
Proof.
  intros Hs Hnd Hc. destruct (decide (c = h)) as [->|Hne].
  - change (h :: l) with ([] ++ h :: l). rewrite rot_split by apply not_elem_of_nil. by rewrite app_nil_r.
  - apply elem_of_cons in Hc as [?|Hc]; [done|]. apply list_elem_of_split in Hc as (l1 & l2 & ->).
    apply seg_app in Hs as [H1 H2]. change (h :: l1 ++ c :: l2) with ((h :: l1) ++ c :: l2).
    rewrite rot_split. { by apply seg_app. }
    rewrite not_elem_of_cons. split; [done|]. apply NoDup_cons in Hnd as [_ Hnd].
    apply NoDup_app in Hnd as (_ & Hd & _). intros Hin. apply (Hd c Hin). by left.
Qed.

(** The first ready thread of a list. *)
Definition first_ready (ts : gmap Z thread) (l : list Z) : option Z := snd <$> list_find (λ a, is_ready ts a = true) l.

Lemma first_ready_cons ts a l :
  first_ready ts (a :: l) = if is_ready ts a then Some a else first_ready ts l.
Proof.
  unfold first_ready. simpl. destruct (is_ready ts a) eqn:Ha; [by rewrite decide_True by done|].
  rewrite decide_False by congruence. by destruct (list_find _ l) as [[? ?]|].
Qed.

Lemma dom_length ts (l : list Z) : NoDup l → (∀ x : Z, x ∈ l → is_Some (ts !! x)) → (length l ≤ size (ts : gmap Z thread))%nat.
Proof.
  intros Hnd Hin. rewrite <-(size_list_to_set (C:=gset Z)) by done. rewrite <-size_dom.
  apply subseteq_size. intros x Hx%elem_of_list_to_set. by apply elem_of_dom, Hin.
Qed.

Lemma wp_pick_loop s old ls fuel p (Q : Z → sched → Prop) :
  seg (threads s) old ls old → old ∉ ls → (length ls < fuel)%nat → p = hd old ls →
  Q (default old (first_ready (threads s) ls)) s →
  wp (loop_fuel fuel (λ p,
    if p =? old then mret (inr p)
    else x ← thr p; mret (if bool_decide (t_state x = THREAD_READY) then inr p else inl (t_next x))) p) Q s.
Proof.
  intros Hs Hold Hf Hp HQ.
  apply (wp_loop_ghost (λ k p s', s' = s ∧ ∃ x suf, k = length suf ∧ seg (threads s) x suf old ∧ (old ∉ suf) ∧
    p = hd old suf ∧ first_ready (threads s) ls = first_ready (threads s) suf) _ _ (length ls)); [|done|].
  - split; [done|]. exists old, ls. done.
  - intros k q s' (-> & x & suf & -> & Hseg & Hno & -> & Heq). destruct suf as [|y suf]; simpl.
    + rewrite Z.eqb_refl. wp_step. by rewrite Heq in HQ.
    + rewrite not_elem_of_cons in Hno. destruct Hno as [Hy Hno]. rewrite (proj2 (Z.eqb_neq _ _)) by done.
      destruct Hseg as [_ Hseg]. rewrite first_ready_cons in Heq.
      destruct (seg_in _ _ _ _ y Hseg) as [t Ht]; [by left|].
      wp_step. eapply wp_thr; [done|]. wp_step. unfold is_ready in Heq. rewrite Ht in Heq.
      case_bool_decide as Hr; [by rewrite Heq in HQ|]. exists (length suf). split; [simpl; lia|].
      split; [done|]. exists y, suf. split_and!; try done.
      destruct suf as [|z suf]; simpl in Hseg |- *.
      * destruct Hseg as [(t' & Ht' & ?) _]. congruence.
      * destruct Hseg as [[(t' & Ht' & ?) _] _]. congruence.
Qed.

Section queue.
Context (s : sched) (l zs : list Z) (run : Z) (Hq : queue s l zs run).

Lemma q_thread a : a ∈ idle_thread :: main_thread :: l ++ zs → is_Some (threads s !! a).
Proof. apply (q_all _ _ _ _ Hq). Qed.

Lemma q_member a : a ∈ main_thread :: l → is_Some (threads s !! a).
Proof. intros Ha. apply q_thread. set_unfold. tauto. Qed.

Lemma q_ring_nodup : NoDup (main_thread :: l).
Proof.
  pose proof (q_nodup _ _ _ _ Hq) as Hnd. apply NoDup_cons in Hnd as [_ Hnd].
  change (main_thread :: l ++ zs) with ((main_thread :: l) ++ zs) in Hnd. by apply NoDup_app in Hnd as (? & _).
Qed.

Lemma q_ring_zombie a : a ∈ main_thread :: l → a ∉ zs.
Proof.
  intros Ha Hz. pose proof (q_nodup _ _ _ _ Hq) as Hnd. apply NoDup_cons in Hnd as [_ Hnd].
  change (main_thread :: l ++ zs) with ((main_thread :: l) ++ zs) in Hnd.
  apply NoDup_app in Hnd as (_ & Hdis & _). by apply (Hdis a).
Qed.

Lemma q_pos a : a ∈ idle_thread :: main_thread :: l ++ zs → 0 < a.
Proof. intros Ha%q_thread%(q_fresh _ _ _ _ Hq). lia. Qed.

Lemma ring_not_idle a : a ∈ main_thread :: l → a ≠ idle_thread.
Proof.
  intros Ha ->. pose proof (q_nodup _ _ _ _ Hq) as Hnd. apply NoDup_cons in Hnd as [Hnd _]. apply Hnd. set_unfold. tauto.
Qed.

Lemma q_fuel : (length (main_thread :: l) < walk_fuel s)%nat.
Proof.
  unfold walk_fuel. pose proof (dom_length (threads s) (main_thread :: l) q_ring_nodup q_member). lia.
Qed.

Lemma q_order c : c ∈ main_thread :: l →
  seg (threads s) c (rot c (main_thread :: l)) c ∧ (c ∉ rot c (main_thread :: l)) ∧
  (length (rot c (main_thread :: l)) < walk_fuel s)%nat.
Proof.
  intros Hc. pose proof (rot_perm c _ Hc q_ring_nodup) as Hp. split_and!.
  - by apply seg_rot; [apply (q_ring _ _ _ _ Hq)|apply q_ring_nodup|].
  - pose proof q_ring_nodup as Hnd. rewrite <-Hp in Hnd. by apply NoDup_cons in Hnd as [? _].
  - pose proof q_fuel. apply Permutation_length in Hp. simpl in *. lia.
Qed.

(** [pick_next]: the next ready thread in queue order. *)
Lemma wp_pick_next old (Q : Z → sched → Prop) :
  old ∈ main_thread :: l →
  Q (match first_ready (threads s) (rot old (main_thread :: l)) with
     | Some p => p
     | None => if is_ready (threads s) old then old else idle_thread
     end) s → wp (pick_next old) Q s.
Proof.
  intros Hold HQ. destruct (q_order old Hold) as (Hseg & Hno & Hfu). destruct (q_member old Hold) as [o Ho].
  unfold pick_next. wp_step. eapply wp_thr; [done|]. wp_step. wp_step. wp_step.
  eapply wp_pick_loop; [done..| |].
  { destruct (rot old (main_thread :: l)); simpl in Hseg |- *.
    - destruct Hseg as [(t' & Ht' & ?) _]. congruence.
    - destruct Hseg as [[(t' & Ht' & ?) _] _]. congruence. }
  destruct (first_ready (threads s) (rot old (main_thread :: l))) as [p|] eqn:Hf; simpl.
  - unfold first_ready in Hf. destruct (list_find _ _) as [[i p']|] eqn:Hl; simplify_eq/=.
    apply list_find_Some in Hl as (Hi & Hr & _). unfold is_ready in Hr.
    destruct (threads s !! p) as [t|] eqn:Ht; [|done]. wp_step. eapply wp_thr; [done|]. wp_step.
    by rewrite bool_decide_true by (by apply bool_decide_eq_true in Hr).
  - wp_step. eapply wp_thr; [done|]. wp_step. unfold is_ready in HQ. by rewrite Ho in HQ.
Qed.
End queue.

(** ** Switching *)

Definition save_rsp (sp : Z) (t : thread) : thread :=
  set_exec (λ e, Exec (u64 (sp - 48)) (x_kstack_top e) (x_mmu e) (x_user_rsp e) (x_stack_base e) (x_func e) (x_arg e) (x_syscall_iret e)) t.
Definition run_thread (t : thread) : thread := set_quantum THREAD_QUANTUM (set_state THREAD_RUNNING t).

(** Everything but threads, the current one, the CPU and the address space in
    use is unchanged. *)
Record frame_rest (s s' : sched) : Prop := FrameRest {
  fr_head : ready_head s' = ready_head s;
  fr_zombie : zombie_head s' = zombie_head s;
  fr_pid : next_pid s' = next_pid s;
  fr_init : g_init_thread s' = g_init_thread s ∧ g_init_dead s' = g_init_dead s;
  fr_heap : sc_heap s' = sc_heap s ∧ sc_fresh s' = sc_fresh s;
  fr_stacks : sc_stacks s' = sc_stacks s;
  fr_vfs : sc_vfs s' = sc_vfs s;
  fr_pmm : mm_pmm (sc_mmu s') = mm_pmm (sc_mmu s);
  fr_mem : mm_mem (sc_mmu s') = mm_mem (sc_mmu s) ∧ kernel_root (sc_mmu s') = kernel_root (sc_mmu s) }.

(** The processor goes from [old] to [next]. *)
Record switched (sp old next : Z) (s s' : sched) : Prop := Switched {
  sw_current : current s' = next;
  sw_threads : threads s' = alter (save_rsp sp) old (alter run_thread next (threads s));
  sw_cpu : ∃ t, threads s !! next = Some t ∧ cpu_rsp s' = u64 (x_rsp (t_exec t) + 56) ∧ cpu_kstack s' = x_kstack_top (t_exec t);
  sw_cr3 : ∃ t, threads s !! next = Some t ∧
    mm_cr3 (sc_mmu s') = if x_mmu (t_exec t) =? 0 then kernel_root (sc_mmu s) else x_mmu (t_exec t);
  sw_rest : frame_rest s s' }.

Lemma alter_insert_eq (ts : gmap Z thread) p t f : ts !! p = Some t → <[p := f t]> ts = alter f p ts.
Proof.
  intros Hp. apply map_eq. intros q. destruct (decide (q = p)) as [->|Hne].
  - by rewrite lookup_insert_eq, lookup_alter_eq, Hp.
  - by rewrite lookup_insert_ne, lookup_alter_ne.
Qed.

Lemma alter_at (f : thread → thread) i j (ts : gmap Z thread) :
  alter f i ts !! j = (λ t, if decide (j = i) then f t else t) <$> ts !! j.
Proof.
  destruct (decide (j = i)) as [->|Hne].
  - rewrite lookup_alter_eq. done.
  - rewrite lookup_alter_ne by done. by destruct (ts !! j).
Qed.

Lemma wp_dispatch sp old next s t o (Q : unit → sched → Prop) :
  threads s !! next = Some t → threads s !! old = Some o →
  (∀ s', switched sp old next s s' → Q tt s') → wp (dispatch sp old next) Q s.
Proof.
  intros Ht Ho HQ. unfold dispatch. wp_step. wp_step. wp_step. eapply wp_upd; [exact Ht|].
  set (s1 := set_threads _ (set_current next s)).
  assert (threads s1 = alter run_thread next (threads s)) as H1 by (by apply (alter_insert_eq _ _ _ run_thread)).
  assert (threads s1 !! next = Some (run_thread t)) as Hn by (by rewrite H1, lookup_alter_eq, Ht).
  assert (is_Some (threads s1 !! old)) as [o' Ho'].
  { rewrite H1, alter_at, Ho. by eexists. }
  wp_step. eapply wp_thr; [done|]. wp_step. apply wp_zoom. unfold vmm_switch, mmu_switch, or_kernel, write_cr3.
  assert (∀ r s2, sc_mmu s2 = set_cr3 r (sc_mmu s) → threads s2 = threads s1 → s2 = put_mmu (sc_mmu s2) s1 →
    r = (if x_mmu (t_exec t) =? 0 then kernel_root (sc_mmu s) else x_mmu (t_exec t)) →
    wp (t0 ← thr next; context_switch sp old (x_rsp (t_exec t0)) (x_kstack_top (t_exec t0))) Q s2) as Hgo.
  { intros r s2 Hm2 Ht2 Hs2 Hr. wp_step. eapply wp_thr; [by rewrite Ht2|]. unfold context_switch. wp_step.
    eapply wp_upd; [by rewrite Ht2|]. wp_step. apply HQ. split; cbn.
    - by rewrite Hs2.
    - rewrite Ht2, <-H1. by apply (alter_insert_eq _ _ _ (save_rsp sp)).
    - by exists t.
    - exists t. split; [done|]. rewrite Hm2. cbn. done.
    - split; cbn; try (by rewrite Hs2); rewrite Hm2; done. }
  wp_step. cbn. destruct (Z.eqb_spec (x_mmu (t_exec t)) 0) as [E|E]; wp_step; wp_step; (eapply Hgo; [reflexivity..|]); rewrite ?E; done.
Qed.

(** A thread of the queue gets to run. *)
Lemma queue_switched s s' l zs sp old next :
  queue s l zs 0 → next ∈ main_thread :: l → switched sp old next s s' → queue s' l zs next.
Proof.
  intros Hq Hn [Hc Hts _ _ [Hh Hz _ _ [_ Hf] _ _ _ _]].
  assert (0 < next) as Hpos by (apply (q_pos _ _ _ _ Hq); set_unfold; tauto).
  assert (∀ a t, threads s !! a = Some t → ∃ t', threads s' !! a = Some t' ∧ t_next t' = t_next t ∧ t_prev t' = t_prev t ∧
    t_state t' = if decide (a = next) then THREAD_RUNNING else t_state t) as H1.
  { intros a t Ht. rewrite Hts, !alter_at, Ht. simpl. repeat case_decide; simplify_eq/=; eauto. }
  assert (∀ a, is_Some (threads s' !! a) ↔ is_Some (threads s !! a)) as Hdom.
  { intros a. by rewrite Hts, !alter_at, !fmap_is_Some. }
  destruct Hq as [Qh Qr Qz Qnd Qf Qa Qrun Qst Qd]. split; try done.
  - congruence.
  - eapply seg_mono; [| |exact Qr]; intros x t _ Ht; destruct (H1 x t Ht) as (t' & ? & ? & ? & _); eauto.
  - rewrite Hz. eapply chain_mono; [|exact Qz]. intros x t _ Ht. destruct (H1 x t Ht) as (t' & ? & ? & _). eauto.
  - intros a Hin%Hdom. rewrite Hf. by apply Qf.
  - intros a. by rewrite Hdom.
  - by right.
  - intros a t' Ha Ht'. destruct (proj1 (Hdom a) ltac:(eauto)) as [t Ht]. destruct (H1 a t Ht) as (t'' & Ht'' & _ & _ & Hst).
    simplify_eq. rewrite Hst. case_decide as Hd; [by split|]. split; [done|]. intros _. apply (proj2 (Qst a t Ha Ht)).
    intros ->. pose proof (Qf 0 ltac:(eauto)). lia.
  - intros z t' Hz' Ht'. destruct (proj1 (Hdom z) ltac:(eauto)) as [t Ht]. destruct (H1 z t Ht) as (t'' & Ht'' & _ & _ & Hst).
    simplify_eq. rewrite Hst, decide_False; [by eapply Qd|]. intros ->.
    apply NoDup_cons in Qnd as [_ Qnd]. change (main_thread :: l ++ zs) with ((main_thread :: l) ++ zs) in Qnd.
    apply NoDup_app in Qnd as (_ & Hdis & _). by eapply Hdis.
Qed.

(** A ready thread stays ready when another one is switched to. *)
Lemma ready_switched sp old next s s' a :
  switched sp old next s s' → next ≠ a → is_ready (threads s) a = true → is_ready (threads s') a = true.
Proof.
  intros [_ Hts _ _ _] Hne. unfold is_ready. rewrite Hts, !alter_at. destruct (threads s !! a) as [t|]; [|done]. simpl.
  rewrite (decide_False (P := a = next)) by done. by case_decide.
Qed.

Lemma switched_own sp old next s s' : switched sp old next s s' → threads_rel same_own (threads s) (threads s').
Proof.
  intros [_ Hts _ _ _]. rewrite Hts. split.
  - intros a t Ht. rewrite !alter_at, Ht. eexists. split; [done|]. by repeat case_decide.
  - intros a t'. rewrite !alter_at. destruct (threads s !! a) as [t|]; [|done]. intros [= <-].
    exists t. split; [done|]. by repeat case_decide.
Qed.

Lemma machine_switched sp old next s s' :
  switched sp old next s s' → machine (sc_mmu s) (threads s) → machine (sc_mmu s') (threads s').
Proof.
  intros Hsw Hm. pose proof (sw_rest _ _ _ _ _ Hsw) as [_ _ _ _ _ _ _ Hp [Hmm Hk]].
  eapply machine_view; [done|by eapply switched_own|done..].
Qed.

(** A thread of the queue stops running or changes between ready and blocked. *)
Lemma queue_set_state s l zs run p t t' :
  queue s l zs run → p ∈ main_thread :: l → threads s !! p = Some t →
  t_next t' = t_next t → t_prev t' = t_prev t →
  (t_state t' = THREAD_READY ∨ (t_state t' = THREAD_BLOCKED ∧ p ≠ main_thread)) →
  queue (set_threads (insert p t') s) l zs (if decide (p = run) then 0 else run).
Proof.
  intros [Qh Qr Qz Qnd Qf Qa Qrun Qst Qd] Hp Ht Hn Hv Hst.
  assert (∀ a u, threads s !! a = Some u → ∃ u', <[p := t']> (threads s) !! a = Some u' ∧ t_next u' = t_next u ∧ t_prev u' = t_prev u) as H1.
  { intros a u Hu. destruct (decide (a = p)) as [->|Hne]; [rewrite lookup_insert_eq|rewrite lookup_insert_ne by done];
      eexists; split_and!; try done; simplify_eq; done. }
  assert (∀ a, is_Some (<[p := t']> (threads s) !! a) ↔ is_Some (threads s !! a)) as Hdom.
  { intros a. destruct (decide (a = p)) as [->|Hne]; [rewrite lookup_insert_eq, Ht; split; eauto|by rewrite lookup_insert_ne]. }
  split; cbn [threads set_threads ready_head zombie_head sc_fresh]; try done.
  - eapply seg_mono; [| |exact Qr]; intros x u _ Hu; destruct (H1 x u Hu) as (u' & ? & ? & ?); eauto.
  - eapply chain_mono; [|exact Qz]. intros x u _ Hu. destruct (H1 x u Hu) as (u' & ? & ? & _). eauto.
  - intros a Ha%Hdom. by apply Qf.
  - intros a. by rewrite Hdom.
  - case_decide; [by left|done].
  - intros a u Ha. destruct (decide (a = p)) as [->|Hne].
    + rewrite lookup_insert_eq. intros [= <-]. split; [|done]. case_decide; [|by intros ->]. intros ->.
      pose proof (Qf 0 ltac:(eauto)). lia.
    + rewrite lookup_insert_ne by done. intros Hu. destruct (Qst a u Ha Hu) as [Hs1 Hs2]. split.
      * case_decide; [|done]. intros ->. pose proof (Qf 0 ltac:(eauto)). lia.
      * case_decide; [|done]. intros _. apply Hs2. congruence.
  - intros z u Hz. rewrite lookup_insert_ne; [by apply Qd|]. intros <-.
    apply NoDup_cons in Qnd as [_ Qnd]. change (main_thread :: l ++ zs) with ((main_thread :: l) ++ zs) in Qnd.
    apply NoDup_app in Qnd as (_ & Hdis & _). by eapply Hdis.
Qed.

Lemma machine_insert m ts p t t' : machine m ts → ts !! p = Some t → same_own t t' → machine m (<[p := t']> ts).
Proof. intros Hm Hp Ho. eapply machine_view; [done|by eapply threads_rel_insert|done..]. Qed.

(** ** Looking up threads *)

(** A loop around the queue that only reads. *)
Lemma wp_ring_scan {R} s h l fuel (f : Z → thread → option R) (d : R) (Q : R → sched → Prop) :
  seg (threads s) h l h → NoDup (h :: l) → (length (h :: l) < fuel)%nat →
  (∀ a t v, a ∈ h :: l → threads s !! a = Some t → f a t = Some v → Q v s) →
  ((∀ a t, a ∈ h :: l → threads s !! a = Some t → f a t = None) → Q d s) →
  wp (loop_fuel fuel (λ t, x ← thr t;
    match f t x with
    | Some v => mret (inr v)
    | None => mret (if t_next x =? h then inr d else inl (t_next x))
    end) h) Q s.
Proof.
  intros Hs Hnd Hf HQ HQ0.
  apply (wp_loop_ghost (λ k p s', s' = s ∧ ∃ pre suf, h :: l = pre ++ p :: suf ∧ k = length suf ∧ seg (threads s) p suf h ∧
    ∀ a t, a ∈ pre → threads s !! a = Some t → f a t = None) _ _ (length l)); [|simpl in Hf; lia|].
  - split; [done|]. exists [], l. split_and!; try done. intros a t Ha. by apply not_elem_of_nil in Ha.
  - intros k p s' (-> & pre & suf & Heq & -> & Hseg & Hno). destruct (seg_in _ _ _ _ p Hseg) as [t Ht]; [by left|].
    assert (p ∈ h :: l) as Hp by (rewrite Heq; set_solver).
    wp_step. eapply wp_thr; [done|]. destruct (f p t) as [v|] eqn:Hv; [wp_step; by eapply HQ|]. wp_step.
    assert (∀ a u, a ∈ pre ++ [p] → threads s !! a = Some u → f a u = None) as Hno'.
    { intros a u [Ha| ->%list_elem_of_singleton]%elem_of_app Hu; [by eapply Hno|congruence]. }
    assert (t_next t = hd h suf) as Hnx.
    { destruct suf; simpl in Hseg |- *; [destruct Hseg as [(t' & Ht' & ?) _]|destruct Hseg as [[(t' & Ht' & ?) _] _]]; congruence. }
    rewrite Hnx. destruct suf as [|y suf]; simpl.
    + rewrite Z.eqb_refl. apply HQ0. rewrite Heq. intros a u Ha. by apply Hno'.
    + assert (y ≠ h) as Hy.
      { intros ->. destruct pre as [|h' pre].
        - simplify_eq/=. apply NoDup_cons in Hnd as [Hnd _]. apply Hnd. by left.
        - simplify_eq/=. apply NoDup_cons in Hnd as [Hnd _]. apply Hnd. set_solver. }
      rewrite (proj2 (Z.eqb_neq _ _)) by done. exists (length suf). split; [lia|]. split; [done|].
      exists (pre ++ [p]), suf. rewrite <-app_assoc. split_and!; try done. by destruct Hseg.
Qed.

Lemma wp_ext_loop {St A R} fuel (f g : A → M St (A + R)) a (Q : R → St → Prop) s :
  (∀ b s', f b s' = g b s') → wp (loop_fuel fuel f a) Q s → wp (loop_fuel fuel g a) Q s.
Proof.
  intros Hfg.
  assert (∀ n b s', loop_fuel n f b s' = loop_fuel n g b s') as Heq.
  { induction n as [|n IH]; intros b s'; simpl; [done|]. unfold mbind, M_bind. rewrite Hfg.
    destruct (g b s') as [[[b'|v] s'']| |]; done. }
  rewrite !wp_ok. by rewrite Heq.
Qed.

Section lookup.
Context (s : sched) (l zs : list Z) (run : Z) (Hq : queue s l zs run) (Hc : current s ∈ idle_thread :: main_thread :: l ++ zs).

(** [thread_find_by_pid] finds the current thread, one of the queue or
    [idle_thread], and fails only when there is none. *)
Lemma wp_find_by_pid pid (Q : Z → sched → Prop) :
  0 < pid →
  (∀ a t, a ∈ current s :: idle_thread :: main_thread :: l → threads s !! a = Some t → t_pid t = pid → Q a s) →
  ((∀ a t, a ∈ current s :: idle_thread :: main_thread :: l → threads s !! a = Some t → t_pid t ≠ pid) → Q 0 s) →
  wp (thread_find_by_pid pid) Q s.
Proof.
  intros Hpid HQ HQ0. unfold thread_find_by_pid. rewrite (proj2 (Z.leb_gt _ _)) by done.
  destruct (q_thread _ _ _ _ Hq _ Hc) as [c Hcc]. destruct (q_member _ _ _ _ Hq main_thread) as [m Hm]; [by left|].
  destruct (q_thread _ _ _ _ Hq idle_thread) as [i Hi]; [by left|].
  assert (current s ≠ 0) as Hc0. { assert (0 < current s); [|lia]. by apply (q_pos _ _ _ _ Hq). }
  wp_step. wp_step. wp_step. rewrite (proj2 (Z.eqb_neq _ _)) by done. wp_step. eapply wp_thr; [done|]. wp_step.
  destruct (Z.eqb_spec (t_pid c) pid) as [E|E]; [wp_step; eapply HQ; [|done..]; set_unfold; tauto|].
  wp_step. eapply wp_thr; [done|]. destruct (Z.eqb_spec (t_pid m) pid) as [E1|E1]; [wp_step; eapply HQ; [|done..]; set_unfold; tauto|].
  wp_step. eapply wp_thr; [done|]. destruct (Z.eqb_spec (t_pid i) pid) as [E2|E2]; [wp_step; eapply HQ; [|done..]; set_unfold; tauto|].
  wp_step. wp_step. rewrite (q_head _ _ _ _ Hq). change (main_thread =? 0) with false. cbn iota. wp_step. wp_step.
  eapply (wp_ext_loop _ (λ t, x ← thr t;
    match (if t_pid x =? pid then Some t else None) with
    | Some v => mret (inr v)
    | None => mret (if t_next x =? main_thread then inr 0 else inl (t_next x))
    end)).
  { intros b s'. unfold mbind, M_bind. destruct (thr b s') as [[x s'']| |]; [|done..]. by destruct (t_pid x =? pid). }
  apply (wp_ring_scan s main_thread l); [apply (q_ring _ _ _ _ Hq)|apply (q_ring_nodup _ _ _ _ Hq)|apply (q_fuel _ _ _ _ Hq)| |].
  - intros a t v Ha Ht. destruct (Z.eqb_spec (t_pid t) pid) as [Et|Et]; [|done]. intros [= <-]. eapply HQ; [|done..]. by right; right.
  - intros Hno. apply HQ0. intros a t Ha Ht Et. apply elem_of_cons in Ha as [->|Ha]; [congruence|].
    apply elem_of_cons in Ha as [->|Ha]; [congruence|].
    specialize (Hno a t Ha Ht). simpl in Hno. by rewrite (proj2 (Z.eqb_eq _ _) Et) in Hno.
Qed.
End lookup.

(** ** Releasing threads *)

(** Thread [z] is gone and its frames are free; nothing else changed. *)
Record released (z : Z) (x : thread) (s s' : sched) : Prop := Released {
  rl_threads : threads s' = delete z (threads s);
  rl_gave : gave (sc_mmu s) (owns (sc_mmu s) x) (sc_mmu s');
  rl_current : current s' = current s;
  rl_head : ready_head s' = ready_head s;
  rl_zombie : zombie_head s' = zombie_head s;
  rl_fresh : sc_fresh s' = sc_fresh s;
  rl_init : g_init_thread s' = g_init_thread s ∧ g_init_dead s' = g_init_dead s;
  rl_vfs : sc_vfs s' = sc_vfs s;
  rl_heap : sc_heap s' = sc_heap s }.

Lemma machine_released m m' ts z x :
  machine m ts → ts !! z = Some x → gave m (owns m x) m' → machine m' (delete z ts).
Proof.
  intros [Hw Hr Hs Hu Ha] Hz [He Hw' Ht Hf].
  assert (mm_mem m' = mm_mem m ∧ kernel_root m' = kernel_root m) as [Hm Hk] by (rewrite He; by destruct m).
  assert (∀ t f, owns m' t f ↔ owns m t f) as Ho by (intros; by apply owns_ext).
  split; [done|..].
  - intros a t [_ Hat]%lookup_delete_Some. unfold root_walkable. rewrite Hm, Hk. by eapply Hr.
  - intros a t [_ Hat]%lookup_delete_Some. by eapply Hs.
  - intros a t f [Hne Hat]%lookup_delete_Some Hof%Ho [Hin|[Hx _]]%Hf; [by eapply Hu|].
    by apply Hne, (Ha z a x t f).
  - intros a b t u f [_ Hat]%lookup_delete_Some [_ Hbu]%lookup_delete_Some H1%Ho H2%Ho. by eapply Ha.
Qed.

Lemma wp_release z x s (Q : unit → sched → Prop) :
  machine (sc_mmu s) (threads s) → threads s !! z = Some x → (∀ s', released z x s s' → Q tt s') → wp (release_thread z) Q s.
Proof.
  intros Hm Hz HQ. pose proof Hm as [Hw Hr Hs _ _]. unfold release_thread. wp_step. eapply wp_thr; [done|].
  set (b := x_stack_base (t_exec x)) in *. wp_step.
  assert (∀ s1 x1, threads s1 = <[z := x1]> (threads s) →
    gave (sc_mmu s) (λ f, b ≠ 0 ∧ f ∈ frames (frame_of b) stack_frames) (sc_mmu s1) →
    current s1 = current s → ready_head s1 = ready_head s → zombie_head s1 = zombie_head s → sc_fresh s1 = sc_fresh s →
    (g_init_thread s1 = g_init_thread s ∧ g_init_dead s1 = g_init_dead s) → sc_vfs s1 = sc_vfs s → sc_heap s1 = sc_heap s →
    wp (on_mmu (vmm_free_root (x_mmu (t_exec x))) ;;
        upd z (set_exec (λ e, Exec (x_rsp e) (x_kstack_top e) 0 (x_user_rsp e) (x_stack_base e) (x_func e) (x_arg e) (x_syscall_iret e))) ;;
        kfree_thread z) Q s1) as Hgo.
  { intros s1 x1 Ht1 Hg1 E1 E2 E3 E4 E5 E6 E7. pose proof Hg1 as [He _ _ _].
    assert (mm_mem (sc_mmu s1) = mm_mem (sc_mmu s) ∧ kernel_root (sc_mmu s1) = kernel_root (sc_mmu s)) as [Hmm Hk].
    { rewrite He. by destruct (sc_mmu s). }
    wp_step. apply wp_zoom. apply wp_free_root; [apply (ga_wf _ _ _ Hg1)|unfold root_walkable; rewrite Hmm, Hk; by eapply Hr|].
    intros m2 Hg2. wp_step. eapply wp_upd; [cbn; by rewrite Ht1, lookup_insert_eq|].
    unfold kfree_thread. wp_step. eapply wp_thr; [cbn; by rewrite lookup_insert_eq|]. wp_step. apply HQ. split; cbn; try done.
    - rewrite Ht1, !delete_insert_eq. done.
    - eapply gave_trans; [exact Hg1|exact Hg2|]. intros g. unfold owns, root_frames. rewrite Hmm, Hk. fold b. tauto. }
  destruct (Z.eqb_spec b 0) as [Hb|Hb]; cbn [negb].
  - wp_step. apply (Hgo _ x); try done; [by rewrite insert_id|]. apply gave_refl; [done|]. intros g [? _]. done.
  - wp_step. apply wp_zoom, wp_zoom. eapply wp_free_frames; [done|by eapply Hs|done|]. intros p [Hw' Ht _ Hf]. cbn beta.
    wp_step. wp_step. eapply wp_upd; [exact Hz|]. eapply Hgo; try reflexivity; [|done].
    assert (Z.shiftr b PAGE_SHIFT = frame_of b) as Hsh by (unfold frame_of; by rewrite Z.shiftr_div_pow2).
    split; [cbn; by destruct (sc_mmu s)|done|done|]. intros g. cbn. rewrite Hf, Hsh, elem_of_union, elem_of_intersection.
    rewrite (elem_of_frames g 0). intuition lia.
Qed.

(** *** Taking a zombie out of the chain *)

Definition relink (ks : list Z) (n : Z) (ts : gmap Z thread) : gmap Z thread :=
  match last ks with Some y => alter (set_tnext n) y ts | None => ts end.
Definition new_head (ks : list Z) (n p : Z) : Z := match last ks with Some _ => p | None => n end.

Lemma relink_at ks n ts a :
  relink ks n ts !! a = (λ t, if decide (last ks = Some a) then set_tnext n t else t) <$> ts !! a.
Proof.
  unfold relink. destruct (last ks) as [y|].
  - rewrite alter_at. destruct (ts !! a); [|done]. simpl. do 2 case_decide; try done; congruence.
  - destruct (ts !! a); [|done]. simpl. first [done|by rewrite decide_False].
Qed.

Lemma chain_cut ts p ks z rs x :
  chain ts p (ks ++ z :: rs) → ts !! z = Some x → NoDup (ks ++ z :: rs) →
  chain (relink ks (t_next x) (delete z ts)) (new_head ks (t_next x) p) (ks ++ rs).
Proof.
  intros Hc Hx Hnd. revert p Hc. induction ks as [|y ks IH]; intros p Hc.
  - simpl in *. destruct Hc as [-> (t & Ht & Hc)]. simplify_eq. apply NoDup_cons in Hnd as [Hz _].
    eapply chain_mono; [|exact Hc]. intros a t Ha Ht'. exists t. split; [|done]. unfold relink. simpl.
    rewrite lookup_delete_ne; [done|]. by intros ->.
  - simpl in Hnd. apply NoDup_cons in Hnd as [Hy Hnd]. destruct Hc as [-> (t & Ht & Hc)].
    assert (y ≠ z) as Hyz by (intros ->; apply Hy; set_solver).
    specialize (IH Hnd (t_next t) Hc). split; [by destruct ks using rev_ind; unfold new_head; rewrite ?last_snoc; [|rewrite app_comm_cons, last_snoc]|].
    destruct ks as [|k ks _] using rev_ind.
    + exists (set_tnext (t_next x) t). split; [rewrite relink_at, lookup_delete_ne, Ht by done; simpl; by rewrite decide_True|].
      cbn [t_next set_tnext]. unfold new_head in IH. simpl in *. eapply chain_mono; [|exact IH]. unfold relink. simpl.
      intros a u Ha Hu. exists u. split; [|done]. rewrite lookup_alter_ne; [done|]. intros <-. apply Hy. set_solver.
    + rewrite app_comm_cons in *. unfold relink, new_head in *. rewrite !last_snoc in *. exists t. split; [|done]. rewrite lookup_alter_ne, lookup_delete_ne by (done || set_solver). done.
Qed.

Lemma queue_cut s s' l ks z rs run x :
  queue s l (ks ++ z :: rs) run → threads s !! z = Some x →
  threads s' = relink ks (t_next x) (delete z (threads s)) → zombie_head s' = new_head ks (t_next x) (zombie_head s) →
  ready_head s' = ready_head s → sc_fresh s' = sc_fresh s → queue s' l (ks ++ rs) run.
Proof.
  intros [Qh Qr Qz Qnd Qf Qa Qrun Qst Qd] Hx Ht Hzh Eh Ef.
  assert (idle_thread :: main_thread :: l ++ ks ++ z :: rs ≡ₚ z :: (idle_thread :: main_thread :: l ++ ks ++ rs)) as Hperm by solve_Permutation.
  pose proof Qnd as Qnd0. rewrite Hperm in Qnd. apply NoDup_cons in Qnd as [Hz Qnd].
  assert (∀ a, a ≠ z → ∀ t, threads s !! a = Some t → ∃ t', threads s' !! a = Some t' ∧ t_prev t' = t_prev t ∧ t_state t' = t_state t ∧
    (a ∉ ks → t_next t' = t_next t)) as H1.
  { intros a Ha t Hat. rewrite Ht, relink_at, lookup_delete_ne, Hat by done. simpl. eexists. split; [done|].
    case_decide as Hl; [|done]. apply last_Some_elem_of in Hl. done. }
  assert (∀ a t', threads s' !! a = Some t' → a ≠ z ∧ ∃ t, threads s !! a = Some t ∧ t_state t' = t_state t) as H2.
  { intros a t' Ha. rewrite Ht, relink_at in Ha. destruct (decide (a = z)) as [->|Hne]; [by rewrite lookup_delete_eq in Ha|].
    rewrite lookup_delete_ne in Ha by done. destruct (threads s !! a) as [t|]; [|done]. simplify_eq/=. split; [done|].
    exists t. split; [done|]. by case_decide. }
  assert (∀ a, is_Some (threads s' !! a) ↔ is_Some (threads s !! a) ∧ a ≠ z) as Hdom.
  { intros a. split; [intros [t' Ha]; destruct (H2 a t' Ha) as (? & t & ? & _); eauto|].
    intros [[t Hat] Hne]. destruct (H1 a Hne t Hat) as (t' & ? & _). eauto. }
  assert (∀ a, a ∈ main_thread :: l → a ≠ z ∧ a ∉ ks) as Hring.
  { intros a Ha. split; [intros ->; apply Hz; set_unfold; tauto|].
    apply NoDup_cons in Qnd as [_ Qnd]. change (main_thread :: l ++ ks ++ rs) with ((main_thread :: l) ++ ks ++ rs) in Qnd.
    apply NoDup_app in Qnd as (_ & Hdis & _). intros Hk. apply (Hdis a Ha). set_solver. }
  split; try done.
  - congruence.
  - eapply seg_mono; [| |exact Qr]; intros a t Ha Hat; destruct (Hring a) as [Hne Hk]; try done;
      destruct (H1 a Hne t Hat) as (t' & ? & ? & _ & ?); eauto.
  - rewrite Ht, Hzh. apply chain_cut; [done..|]. apply NoDup_cons in Qnd0 as [_ Qnd0]. apply NoDup_cons in Qnd0 as [_ Qnd0].
    by apply NoDup_app in Qnd0 as (_ & _ & ?).
  - intros a [Ha _]%Hdom. rewrite Ef. by apply Qf.
  - intros a. rewrite Hdom, Qa, Hperm, elem_of_cons. set_unfold. naive_solver.
  - intros a t' Ha (_ & t & Hat & ->)%H2. by eapply Qst.
  - intros a t' Ha (_ & t & Hat & ->)%H2. eapply (Qd a t); [|done]. set_solver.
Qed.

(** ** Reaping *)

(** The parent of zombie [z] can still wait for it. *)
Definition has_parent (ts : gmap Z thread) (l : list Z) (z : Z) : bool :=
  match ts !! z with
  | Some x => (0 <? t_parent_pid x) &&
      existsb (λ a, match ts !! a with Some t => t_pid t =? t_parent_pid x | None => false end) (idle_thread :: main_thread :: l)
  | None => false
  end.

(** Only zombies changed; those in [zs'] are left, as they were. *)
Record reaped (s s' : sched) (zs zs' : list Z) : Prop := Reaped {
  re_current : current s' = current s;
  re_head : ready_head s' = ready_head s;
  re_fresh : sc_fresh s' = sc_fresh s;
  re_init : g_init_thread s' = g_init_thread s ∧ g_init_dead s' = g_init_dead s;
  re_vfs : sc_vfs s' = sc_vfs s;
  re_others : ∀ a, a ∉ zs → threads s' !! a = threads s !! a;
  re_kept : ∀ z x', z ∈ zs' → threads s' !! z = Some x' → ∃ x n, threads s !! z = Some x ∧ x' = set_tnext n x;
  re_heap : sc_heap s' = sc_heap s;
  re_root : kernel_root (sc_mmu s') = kernel_root (sc_mmu s) }.

Lemma set_tnext_twice n m t : set_tnext n (set_tnext m t) = set_tnext n t.
Proof. done. Qed.
Lemma set_tnext_same t : set_tnext (t_next t) t = t.
Proof. by destruct t. Qed.

Lemma chain_next ts p ks z rs x : chain ts p (ks ++ z :: rs) → ts !! z = Some x → t_next x = hd 0 rs.
Proof.
  revert p. induction ks as [|y ks IH]; intros p; simpl.
  - intros [_ (t & Ht & Hch)] Hx. simplify_eq. destruct rs; simpl in *; [done|]. by destruct Hch.
  - intros [_ (t & Ht & Hch)] Hx. by eapply IH.
Qed.

Section reap.
Context (s : sched) (l zs : list Z) (run : Z) (Hq : queue s l zs run) (Hm : machine (sc_mmu s) (threads s)).
Context (Hc : current s ∈ main_thread :: l).

(** The state of the loop: [ks] was kept, [rs] is still to be looked at. *)
Record reaping (ks rs : list Z) (s' : sched) : Prop := Reaping {
  rp_queue : queue s' l (ks ++ rs) run;
  rp_machine : machine (sc_mmu s') (threads s');
  rp_reaped : reaped s s' zs (ks ++ rs);
  rp_done : ∃ seen, zs = seen ++ rs ∧ ks = filter (λ z, has_parent (threads s) l z = true) seen;
  rp_rest : ∀ a, a ∈ rs → threads s' !! a = threads s !! a }.

Lemma ring_not_zombie a ks rs s' : reaping ks rs s' → a ∈ idle_thread :: main_thread :: l → threads s' !! a = threads s !! a.
Proof.
  intros Hr Ha. apply (re_others _ _ _ _ (rp_reaped _ _ _ Hr)). intros Hz. pose proof (q_nodup _ _ _ _ Hq) as Hnd.
  change (idle_thread :: main_thread :: l ++ zs) with ((idle_thread :: main_thread :: l) ++ zs) in Hnd.
  apply NoDup_app in Hnd as (_ & Hdis & _). by apply (Hdis a).
Qed.

(** Is zombie [z] an orphan, as the loop decides it. *)
Lemma wp_orphan ks z rs s' x (Q : bool → sched → Prop) :
  reaping ks (z :: rs) s' → threads s' !! z = Some x → Q (negb (has_parent (threads s) l z)) s' →
  wp (if t_parent_pid x =? 0 then mret true else p ← thread_find_by_pid (t_parent_pid x); mret (p =? 0)) Q s'.
Proof.
  intros Hr Hx HQ. assert (threads s !! z = Some x) as Hx0.
  { rewrite <-(rp_rest _ _ _ Hr z); [done|by left]. }
  unfold has_parent in HQ. rewrite Hx0 in HQ. destruct (Z.eqb_spec (t_parent_pid x) 0) as [E|E].
  { wp_step. by rewrite E in HQ. }
  wp_step. destruct (Z.ltb_spec 0 (t_parent_pid x)) as [Hp|Hp]; cbn [andb] in HQ.
  2:{ unfold thread_find_by_pid. rewrite (proj2 (Z.leb_le _ _)) by done. wp_step. wp_step. done. }
  assert (current s' ∈ main_thread :: l) as Hc' by (by rewrite (re_current _ _ _ _ (rp_reaped _ _ _ Hr))).
  set (f := λ a, match threads s !! a with Some t => t_pid t =? t_parent_pid x | None => false end) in *.
  eapply (wp_find_by_pid s' l (ks ++ z :: rs) run (rp_queue _ _ _ Hr)); [set_unfold; tauto|done|..].
  - intros a t HaC Ht Et. assert (a ∈ idle_thread :: main_thread :: l) as Ha by (apply elem_of_cons in HaC as [->|?]; [by right|done]). wp_step. rewrite (ring_not_zombie a _ _ _ Hr Ha) in Ht.
    assert (existsb f (idle_thread :: main_thread :: l) = true) as Hex.
    { apply existsb_exists. exists a. split; [by apply list_elem_of_In|]. unfold f. rewrite Ht. by apply Z.eqb_eq. }
    rewrite Hex in HQ. assert (0 < a) as Hapos.
    { apply (q_pos _ _ _ _ Hq). set_unfold. tauto. }
    by rewrite (proj2 (Z.eqb_neq _ _)) by lia.
  - intros Hno. wp_step. assert (existsb f (idle_thread :: main_thread :: l) = false) as Hex.
    { apply not_true_is_false. intros (a & Ha & Hf)%existsb_exists. apply list_elem_of_In in Ha. unfold f in Hf.
      destruct (threads s !! a) as [t|] eqn:Ht; [|done]. apply (Hno a t); [by right|by rewrite (ring_not_zombie a _ _ _ Hr Ha)|by apply Z.eqb_eq]. }
    by rewrite Hex in HQ.
Qed.

Lemma reaping_keep ks z rs s' : reaping ks (z :: rs) s' → has_parent (threads s) l z = true → reaping (ks ++ [z]) rs s'.
Proof.
  intros [Hq' Hm' Hre (seen & Hz & Hk) Hrest] Hp. split; rewrite <-?app_assoc; try done.
  - exists (seen ++ [z]). rewrite <-app_assoc. split; [done|]. rewrite filter_app, Hk. f_equal.
    by rewrite filter_cons_True, filter_nil by done.
  - intros a Ha. apply Hrest. by right.
Qed.

Lemma reaping_drop ks z rs s' s1 s2 x :
  reaping ks (z :: rs) s' → has_parent (threads s) l z = false → threads s' !! z = Some x → released z x s' s1 →
  threads s2 = relink ks (t_next x) (threads s1) → zombie_head s2 = new_head ks (t_next x) (zombie_head s1) →
  sc_mmu s2 = sc_mmu s1 → current s2 = current s1 → ready_head s2 = ready_head s1 → sc_fresh s2 = sc_fresh s1 →
  (g_init_thread s2 = g_init_thread s1 ∧ g_init_dead s2 = g_init_dead s1) → sc_vfs s2 = sc_vfs s1 → sc_heap s2 = sc_heap s1 → reaping ks rs s2.
Proof.
  intros [Hq' Hm' Hre (seen & Hz & Hk) Hrest] Hp Hx Hrl Ht Hzh Em Ec Eh Ef [Ei1 Ei2] Ev Ehp.
  destruct Hrl as [Rt Rg Rc Rh Rz Rf [Ri1 Ri2] Rv Rhp].
  pose proof (q_nodup _ _ _ _ Hq') as Hnd. apply NoDup_cons in Hnd as [_ Hnd]. apply NoDup_cons in Hnd as [_ Hnd].
  apply NoDup_app in Hnd as (_ & _ & Hnd). pose proof Hnd as Hnd2. apply NoDup_app in Hnd2 as (_ & Hdis & Hnd2). apply NoDup_cons in Hnd2 as [Hzr _].
  assert (∀ a, last ks = Some a → a ∈ ks) as Hlast by (intros a Ha; by apply last_Some_elem_of in Ha).
  split.
  - eapply (queue_cut s' s2 l ks z rs run x); [done|done|by rewrite Ht, Rt|by rewrite Hzh, Rz|congruence..].
  - rewrite Em, Ht. eapply (machine_view (sc_mmu s1) _ (delete z (threads s'))); [by eapply machine_released| |done..].
    rewrite Rt. split.
    + intros a t Ha. rewrite relink_at, Ha. eexists. split; [done|]. by case_decide.
    + intros a t'. rewrite relink_at. destruct (delete z (threads s') !! a) as [t|]; [|done]. intros [= <-]. exists t. split; [done|]. by case_decide.
  - destruct Hre as [C1 C2 C3 [C4 C4'] C5 C6 C7 C8 C9]. split; try congruence; [split; congruence|..].
    + intros a Ha. rewrite Ht, relink_at, Rt, lookup_delete_ne by (intros <-; apply Ha; rewrite Hz; set_solver).
      rewrite C6 by done. destruct (threads s !! a); [|done]. simpl. rewrite decide_False; [done|].
      intros Hl%Hlast. apply Ha. rewrite Hz, elem_of_app. left. rewrite Hk in Hl. by apply list_elem_of_filter in Hl as [_ ?].
    + intros a x' Ha. rewrite Ht, relink_at, Rt. destruct (decide (a = z)) as [->|Hne]; [by rewrite lookup_delete_eq|].
      rewrite lookup_delete_ne by done. destruct (threads s' !! a) as [y|] eqn:Hy; [|done]. intros [= <-].
      destruct (C7 a y) as (x0 & n & Hx0 & ->); [set_solver|done|]. exists x0. case_decide; [exists (t_next x)|exists n]; done.
    + rewrite Em, (ga_same _ _ _ Rg). exact C9.
  - exists (seen ++ [z]). rewrite <-app_assoc. split; [done|]. rewrite filter_app, Hk, filter_cons_False, filter_nil by congruence.
    by rewrite app_nil_r.
  - intros a Ha. rewrite Ht, relink_at, Rt, lookup_delete_ne by (intros <-; done). rewrite Hrest by (by right).
    destruct (threads s !! a); [|done]. simpl. rewrite decide_False; [done|]. intros Hl%Hlast. apply (Hdis a Hl). by right.
Qed.

Lemma wp_reap_zombies (Q : unit → sched → Prop) :
  (∀ s', let zs' := filter (λ z, has_parent (threads s) l z = true) zs in
     queue s' l zs' run → machine (sc_mmu s') (threads s') → reaped s s' zs zs' → Q tt s') →
  wp reap_zombies Q s.
Proof.
  intros HQ. unfold reap_zombies. wp_step. wp_step. wp_step. wp_step.
  apply (wp_loop_ghost (λ k '(prev, z) s', ∃ ks rs, k = length rs ∧ prev = default 0 (last ks) ∧ z = hd 0 rs ∧ reaping ks rs s') _ _ (length zs)).
  - exists [], zs. split_and!; [done|done| |].
    + pose proof (q_zombies _ _ _ _ Hq) as Hz. destruct zs; simpl in Hz |- *; [done|]. by destruct Hz.
    + split; [done|done| |by exists []|done]. split; try done. intros z x' _ Hx. exists x', (t_next x'). split; [done|].
      by rewrite set_tnext_same.
  - unfold walk_fuel. pose proof (q_nodup _ _ _ _ Hq) as Hnd. apply NoDup_cons in Hnd as [_ Hnd]. apply NoDup_cons in Hnd as [_ Hnd].
    apply NoDup_app in Hnd as (_ & _ & Hnd). assert (length zs ≤ size (threads s))%nat; [|lia]. apply dom_length; [done|].
    intros a Ha. apply (q_all _ _ _ _ Hq). set_unfold. tauto.
  - intros k [prev z] s' (ks & rs & -> & -> & -> & Hr). destruct rs as [|z rs]; simpl.
    { wp_step. destruct (rp_done _ _ _ Hr) as (seen & Hz & Hk). rewrite app_nil_r in Hz. subst seen.
      destruct Hr as [Hq' Hm' Hre _ _]. rewrite app_nil_r in Hq', Hre. subst ks. by apply HQ. }
    destruct (chain_in _ _ _ z (q_zombies _ _ _ _ (rp_queue _ _ _ Hr))) as [x Hx]; [set_solver|].
    assert (0 < z) as Hz0. { apply (q_pos _ _ _ _ (rp_queue _ _ _ Hr)). set_unfold. tauto. }
    rewrite (proj2 (Z.eqb_neq _ _)) by lia. wp_step. eapply wp_thr; [done|]. cbn zeta. wp_step.
    eapply wp_orphan; [done..|].
    pose proof (chain_next _ _ _ _ _ _ (q_zombies _ _ _ _ (rp_queue _ _ _ Hr)) Hx) as Hnx.
    destruct (has_parent (threads s) l z) eqn:Hp; cbn [negb].
    + wp_step. exists (length rs). split; [lia|]. exists (ks ++ [z]), rs. split_and!; [done|by rewrite last_snoc|done|].
      by apply reaping_keep.
    + wp_step. eapply wp_release; [apply (rp_machine _ _ _ Hr)|done|]. intros s1 Hrl.
      wp_step. set (W := wp _ _). assert (∀ s2, reaping ks rs s2 → ∃ m', (m' < S (length rs))%nat ∧ ∃ ks0 rs0, m' = length rs0 ∧
        default 0 (last ks) = default 0 (last ks0) ∧ t_next x = hd 0 rs0 ∧ reaping ks0 rs0 s2) as Hgo.
      { intros s2 Hr2. exists (length rs). split; [lia|]. by exists ks, rs. }
      subst W. pose proof (reaping_drop ks z rs s' s1) as Hdrop. destruct (last ks) as [y|] eqn:Hl; simpl.
      * assert (0 < y ∧ y ≠ z) as [Hy0 Hyz].
        { pose proof (last_Some_elem_of _ _ Hl) as Hy. split.
          - apply (q_pos _ _ _ _ (rp_queue _ _ _ Hr)). set_unfold. tauto.
          - intros ->. pose proof (q_nodup _ _ _ _ (rp_queue _ _ _ Hr)) as Hnd. apply NoDup_cons in Hnd as [_ Hnd].
            apply NoDup_cons in Hnd as [_ Hnd]. apply NoDup_app in Hnd as (_ & _ & Hnd). apply NoDup_app in Hnd as (_ & Hdis & _).
            apply (Hdis z Hy). by left. }
        rewrite (proj2 (Z.eqb_neq _ _)) by lia. cbn [negb].
        destruct (chain_in _ _ _ y (q_zombies _ _ _ _ (rp_queue _ _ _ Hr))) as [u Hu].
        { apply last_Some_elem_of in Hl. set_solver. }
        assert (threads s1 !! y = Some u) as Hu1 by (by rewrite (rl_threads _ _ _ _ Hrl), lookup_delete_ne).
        eapply wp_upd; [exact Hu1|]. wp_step. apply Hgo. eapply (Hdrop _ x); try done.
        -- cbn. unfold relink. rewrite Hl. by apply (alter_insert_eq _ _ _ (set_tnext (t_next x))).
        -- cbn. unfold new_head. by rewrite Hl.
      * wp_step. wp_step. apply Hgo. eapply (Hdrop _ x); try done.
        -- cbn. unfold relink. by rewrite Hl.
        -- cbn. unfold new_head. by rewrite Hl.
Qed.
End reap.

(** ** Yielding and blocking *)

Definition ready_thread (t : thread) : thread := set_quantum THREAD_QUANTUM (set_state THREAD_READY t).

Section switching.
Context {env : VfsEnv} {senv : SchedEnv}.
Context (s : sched) (l zs : list Z) (Hok : sched_ok s l zs).
Local Abbreviation R := (main_thread :: l).

Lemma ok_current : current s ∈ R ∧ is_Some (threads s !! current s).
Proof.
  pose proof (so_queue _ _ _ Hok) as Hq. destruct (q_run _ _ _ _ Hq) as [Hr|Hr]; [by destruct (so_current _ _ _ Hok)|].
  split; [done|]. by apply (q_member _ _ _ _ Hq).
Qed.

Lemma first_ready_ext ts ts' ls :
  (∀ a, a ∈ ls → is_ready ts' a = is_ready ts a) → first_ready ts' ls = first_ready ts ls.
Proof.
  induction ls as [|a ls IH]; intros He; [done|]. rewrite !first_ready_cons, He by (by left).
  destruct (is_ready ts a); [done|]. apply IH. intros b Hb. apply He. by right.
Qed.

Lemma first_ready_in ts ls p : first_ready ts ls = Some p → p ∈ ls ∧ is_ready ts p = true.
Proof.
  induction ls as [|a ls IH]; [done|]. rewrite first_ready_cons. destruct (is_ready ts a) eqn:Ha.
  - intros [= ->]. split; [by left|done].
  - intros [? ?]%IH. split; [by right|done].
Qed.

Lemma rot_in c p : c ∈ R → p ∈ rot c R → p ∈ R.
Proof.
  intros Hc Hp. pose proof (rot_perm c R Hc (q_ring_nodup _ _ _ _ (so_queue _ _ _ Hok))) as Hperm.
  rewrite <-Hperm. by right.
Qed.

(** Whom [sched_yield] lets run: the next ready thread in queue order. *)
Definition successor : Z := default (current s) (first_ready (threads s) (rot (current s) R)).

(** [sched_yield] releases the zombies nobody can wait for and switches. *)
Lemma wp_sched_yield sp (Q : unit → sched → Prop) :
  (∀ s1 s2 s', let zs' := filter (λ z, has_parent (threads s) l z = true) zs in
     reaped s s1 zs zs' → s2 = set_threads (alter ready_thread (current s)) s1 → switched sp (current s) successor s2 s' →
     sched_ok s' l zs' → Q tt s') →
  wp (sched_yield sp) Q s.
Proof.
  intros HQ. destruct ok_current as [Hc [t Ht]]. pose proof (so_queue _ _ _ Hok) as Hq.
  unfold sched_yield. wp_step. eapply (wp_reap_zombies s l zs (current s)); [done|apply (so_machine _ _ _ Hok)|done|].
  set (zs' := filter _ zs). intros s1 zs0 Hq1 Hm1 Hre. subst zs0. fold zs' in Hq1, Hre.
  pose proof Hre as [Ec Eh Ef [Ei1 Ei2] Ev Eo Ek _ _].
  wp_step. unfold sched_check_init. wp_step. wp_step. rewrite Ei2, (so_init _ _ _ Hok). cbn [negb]. wp_step.
  wp_step. wp_step. rewrite (q_head _ _ _ _ Hq1). change (main_thread =? 0) with false. cbn iota.
  assert (∀ a, a ∈ R → threads s1 !! a = threads s !! a) as Hring.
  { intros a Ha. by apply Eo, (q_ring_zombie _ _ _ _ Hq). }
  assert (threads s1 !! current s = Some t) as Ht1 by (by rewrite Hring).
  wp_step. wp_step. rewrite Ec. wp_step. eapply wp_upd; [exact Ht1|].
  set (s2 := set_threads _ s1). assert (s2 = set_threads (alter ready_thread (current s)) s1) as Hs2.
  { unfold s2. unfold set_threads. f_equal. by apply (alter_insert_eq _ _ _ ready_thread). }
  assert (queue s2 l zs' 0) as Hq2.
  { pose proof (queue_set_state s1 l zs' (current s) (current s) t (ready_thread t) Hq1 Hc Ht1 eq_refl eq_refl (or_introl eq_refl)) as Hq2.
    by rewrite decide_True in Hq2. }
  assert (machine (sc_mmu s2) (threads s2)) as Hm2 by (by eapply machine_insert).
  assert (∀ a, a ∈ rot (current s) R → is_ready (threads s2) a = is_ready (threads s) a) as Hrd.
  { intros a Ha. pose proof (rot_in _ _ Hc Ha) as HaR. unfold is_ready, s2. cbn [threads set_threads].
    rewrite lookup_insert_ne, Hring; [done|done|]. intros <-.
    by destruct (q_order _ _ _ _ Hq (current s) Hc) as (_ & ? & _). }
  wp_step. apply (wp_pick_next s2 l zs' 0 Hq2); [done|]. rewrite (first_ready_ext (threads s)) by done.
  assert (is_ready (threads s2) (current s) = true) as Hself by (unfold is_ready, s2; cbn [threads set_threads]; by rewrite lookup_insert_eq).
  rewrite Hself. fold (default (current s) (first_ready (threads s) (rot (current s) R))).
  assert (match first_ready (threads s) (rot (current s) R) with Some p => p | None => current s end = successor) as -> by done.
  assert (successor ∈ R) as Hs. { unfold successor. destruct (first_ready _ _) as [p|] eqn:Hf; simpl; [|done].
    apply first_ready_in in Hf as [Hp _]. by apply (rot_in (current s)). }
  destruct (q_member _ _ _ _ Hq2 _ Hs) as [n Hn]. destruct (q_member _ _ _ _ Hq2 _ Hc) as [o Ho].
  eapply wp_dispatch; [done..|]. intros s' Hsw. apply (HQ s1 s2 s'); [done|done|done|].
  pose proof Hsw as [Sc _ _ _ [_ _ _ [_ Sd] _ _ _ _ _]]. split.
  - rewrite Sc. by eapply queue_switched.
  - by eapply machine_switched.
  - rewrite Sc. assert (0 < successor); [|lia]. apply (q_pos _ _ _ _ Hq). set_unfold. tauto.
  - eapply ready_switched; [exact Hsw| |].
    + by apply (ring_not_idle _ _ _ _ Hq).
    + rewrite <-(so_idle _ _ _ Hok). unfold is_ready. rewrite Hs2. cbn [threads set_threads]. rewrite alter_at, Eo.
      * destruct (threads s !! idle_thread); [|done]. simpl. rewrite decide_False; [done|]. intros E.
        by apply (ring_not_idle _ _ _ _ Hq (current s)).
      * pose proof (q_nodup _ _ _ _ Hq) as Hnd. apply NoDup_cons in Hnd as [Hnd _]. set_unfold. tauto.
  - rewrite Sd. unfold s2. cbn. by rewrite Ei2, (so_init _ _ _ Hok).
Qed.

(** A thread other than [main_thread] blocks. *)
Lemma wp_sched_suspend sp (Q : unit → sched → Prop) :
  current s ≠ main_thread →
  (∀ s', switched sp (current s) successor (set_threads (alter (set_state THREAD_BLOCKED) (current s)) s) s' → sched_ok s' l zs → Q tt s') →
  wp (sched_suspend sp) Q s.
Proof.
  intros Hnm HQ. destruct ok_current as [Hc [t Ht]]. pose proof (so_queue _ _ _ Hok) as Hq.
  unfold sched_suspend. wp_step. wp_step. rewrite (q_head _ _ _ _ Hq). change (main_thread =? 0) with false. cbn iota.
  wp_step. wp_step. wp_step. apply (wp_pick_next s l zs (current s) Hq); [done|].
  assert (is_Some (first_ready (threads s) (rot (current s) R))) as [p Hp].
  { assert (main_thread ∈ rot (current s) R) as Hin.
    { assert (main_thread ∈ current s :: rot (current s) R) as Hin.
      { rewrite rot_perm; [by left|done|apply (q_ring_nodup _ _ _ _ Hq)]. }
      apply elem_of_cons in Hin as [?|?]; [congruence|done]. }
    destruct (q_member _ _ _ _ Hq main_thread) as [m Hm]; [by left|].
    assert (is_ready (threads s) main_thread = true) as Hr.
    { unfold is_ready. rewrite Hm. destruct (q_states _ _ _ _ Hq main_thread m) as [_ Hst]; [by left|done|].
      destruct Hst as [->|[_ ?]]; done. }
    revert Hin. generalize (rot (current s) R) as ls. induction ls as [|a ls IH]; intros Hin; [by apply not_elem_of_nil in Hin|].
    rewrite first_ready_cons. destruct (is_ready (threads s) a) eqn:Ha; [eauto|]. apply IH.
    apply elem_of_cons in Hin as [<-|?]; [congruence|done]. }
  rewrite Hp. assert (p = successor) as -> by (unfold successor; by rewrite Hp).
  apply first_ready_in in Hp as [Hin Hrd]. assert (successor ∈ R) as Hs by (by apply (rot_in (current s))).
  wp_step. eapply wp_upd; [exact Ht|]. set (s2 := set_threads _ s).
  assert (s2 = set_threads (alter (set_state THREAD_BLOCKED) (current s)) s) as Hs2.
  { unfold s2. unfold set_threads. f_equal. by apply (alter_insert_eq _ _ _ (set_state THREAD_BLOCKED)). }
  assert (queue s2 l zs 0) as Hq2.
  { pose proof (queue_set_state s l zs (current s) (current s) t (set_state THREAD_BLOCKED t) Hq Hc Ht eq_refl eq_refl
      (or_intror (conj eq_refl Hnm))) as Hq2. by rewrite decide_True in Hq2. }
  assert (machine (sc_mmu s2) (threads s2)) as Hm2 by (by eapply machine_insert; [apply (so_machine _ _ _ Hok)|..]).
  destruct (q_member _ _ _ _ Hq2 _ Hs) as [n Hn']. destruct (q_member _ _ _ _ Hq2 _ Hc) as [o Ho].
  eapply wp_dispatch; [done..|]. intros s' Hsw. apply HQ; [by rewrite <-Hs2|].
  pose proof Hsw as [Sc _ _ _ [_ _ _ [_ Sd] _ _ _ _ _]]. split.
  - rewrite Sc. by eapply queue_switched.
  - by eapply machine_switched.
  - rewrite Sc. assert (0 < successor); [|lia]. apply (q_pos _ _ _ _ Hq). set_unfold. tauto.
  - eapply ready_switched; [exact Hsw|by apply (ring_not_idle _ _ _ _ Hq)|].
    rewrite <-(so_idle _ _ _ Hok). unfold is_ready. rewrite Hs2. cbn [threads set_threads]. rewrite alter_at.
    destruct (threads s !! idle_thread); [|done]. simpl. rewrite decide_False; [done|]. intros E.
    by apply (ring_not_idle _ _ _ _ Hq (current s)).
  - rewrite Sd. unfold s2. cbn. apply (so_init _ _ _ Hok).
Qed.
End switching.

(** ** Joining and leaving the run queue *)

Lemma seg_retarget ts ts' h l c q :
  seg ts h l c → NoDup (h :: l) →
  (∀ x t, x ∈ h :: l → x ≠ before h l → ts !! x = Some t → ∃ t', ts' !! x = Some t' ∧ t_next t' = t_next t) →
  (∀ x t, x ∈ l → ts !! x = Some t → ∃ t', ts' !! x = Some t' ∧ t_prev t' = t_prev t) →
  adj ts' (before h l) q → seg ts' h l q.
Proof.
  intros Hs Hnd Hn Hp Ha. destruct l as [|x l] using rev_ind; [done|]. rewrite before_snoc in Hn, Ha.
  apply seg_snoc in Hs as [Hs _]. apply seg_snoc. split; [|done].
  eapply seg_mono; [| |exact Hs].
  - intros y t Hy. apply Hn; [set_solver|]. intros ->. rewrite app_comm_cons in Hnd.
    apply NoDup_app in Hnd as (_ & Hdis & _). apply (Hdis x Hy). by left.
  - intros y t Hy. apply Hp. set_solver.
Qed.

(** The thread [c] is taken out between its neighbours. *)
Definition unlinked (p n : Z) (ts : gmap Z thread) : gmap Z thread :=
  alter (set_tprev p) n (alter (set_tnext n) p ts).

Lemma unlinked_at p n ts a t :
  ts !! a = Some t → ∃ t', unlinked p n ts !! a = Some t' ∧
    t_next t' = (if decide (a = p) then n else t_next t) ∧ t_prev t' = (if decide (a = n) then p else t_prev t) ∧
    t_state t' = t_state t ∧ t_exec t' = t_exec t ∧ t_pid t' = t_pid t ∧ t_parent_pid t' = t_parent_pid t ∧ t_files t' = t_files t.
Proof.
  intros Ht. unfold unlinked. rewrite !alter_at, Ht. eexists. split; [done|]. repeat case_decide; done.
Qed.

Lemma unlinked_dom p n ts a : is_Some (unlinked p n ts !! a) ↔ is_Some (ts !! a).
Proof. unfold unlinked. by rewrite !alter_at, !fmap_is_Some. Qed.

Lemma seg_remove ts h l1 c l2 :
  seg ts h (l1 ++ c :: l2) h → NoDup (h :: l1 ++ c :: l2) → seg (unlinked (before h l1) (hd h l2) ts) h (l1 ++ l2) h.
Proof.
  intros [H1 H2]%seg_app Hnd. set (p := before h l1). set (n := hd h l2). set (ts' := unlinked p n ts).
  assert (is_Some (ts !! n)) as [tn Htn].
  { unfold n. destruct l2 as [|y l2]; simpl; [by eapply (seg_in _ _ _ _ h H1); left|]. by eapply (seg_in _ _ _ _ y H2); right; left. }
  assert (is_Some (ts !! p)) as [tp Htp] by (eapply seg_in; [exact H1|apply before_in]).
  assert (adj ts' p n) as Hadj.
  { destruct (unlinked_at p n ts p tp Htp) as (t1 & ? & Hn1 & _), (unlinked_at p n ts n tn Htn) as (t2 & ? & _ & Hp2 & _).
    rewrite decide_True in Hn1 by done; rewrite decide_True in Hp2 by done. split; eauto. }
  pose proof (before_in h l1) as Hpin. fold p in Hpin.
  pose proof Hnd as Hnd'. rewrite app_comm_cons in Hnd'. apply NoDup_app in Hnd' as (Hnd1 & Hdis & Hnd2).
  apply NoDup_cons in Hnd2 as [Hc2 Hnd2].
  assert (seg ts' h l1 n) as Hfront.
  { eapply seg_retarget; [exact H1|done| | |done].
    - intros x t Hx Hne Ht. destruct (unlinked_at p n ts x t Ht) as (t' & ? & Hn & _). rewrite decide_False in Hn by done. eauto.
    - intros x t Hx Ht. destruct (unlinked_at p n ts x t Ht) as (t' & ? & _ & Hp & _). rewrite decide_False in Hp; [eauto|].
      unfold n. apply NoDup_cons in Hnd1 as [Hh1 _]. destruct l2 as [|y l2]; simpl; [by intros ->|]. intros ->.
      apply (Hdis y); [by right|]. set_solver. }
  unfold n in Hfront. destruct l2 as [|y l2]; simpl in *; [by rewrite app_nil_r|].
  apply seg_app. split; [done|]. destruct H2 as [_ H2]. eapply seg_mono; [| |exact H2].
  - intros x t Hx Ht. destruct (unlinked_at p n ts x t Ht) as (t' & ? & Hn & _). rewrite decide_False in Hn; [eauto|].
    intros ->. apply (Hdis p Hpin). by right.
  - intros x t Hx Ht. destruct (unlinked_at p n ts x t Ht) as (t' & ? & _ & Hp & _). rewrite decide_False in Hp; [eauto|].
    unfold n. simpl. intros ->. apply elem_of_cons in Hx as [Hx|Hx].
    + apply (Hdis y); [rewrite Hx; by left|]. set_solver.
    + by apply NoDup_cons in Hnd2 as [? _].
Qed.

(** A new thread goes between the last one and the head. *)
Lemma seg_insert ts ts' h l t :
  seg ts h l h → NoDup (h :: l) → t ∉ h :: l →
  (∀ x u, x ∈ h :: l → ts !! x = Some u → ∃ u', ts' !! x = Some u' ∧
    t_next u' = (if decide (x = before h l) then t else t_next u) ∧ t_prev u' = (if decide (x = h) then t else t_prev u)) →
  (∃ u, ts' !! t = Some u ∧ t_next u = h ∧ t_prev u = before h l) →
  seg ts' h (l ++ [t]) h.
Proof.
  intros Hs Hnd Ht Hmap (u & Hu & Hun & Hup). pose proof (seg_in _ _ _ _ _ Hs (before_in h l)) as [b Hb].
  destruct (seg_in _ _ _ _ h Hs) as [th Hth]; [by left|].
  destruct (Hmap _ b (before_in h l) Hb) as (b' & Hb' & Hbn & _). rewrite decide_True in Hbn by done.
  destruct (Hmap h th ltac:(by left) Hth) as (h' & Hh' & _ & Hhp). rewrite decide_True in Hhp by done.
  apply seg_snoc. split.
  - eapply seg_retarget; [exact Hs|done| | |split; eauto].
    + intros x v Hx Hne Hv. destruct (Hmap x v Hx Hv) as (v' & ? & Hn & _). rewrite decide_False in Hn by done. eauto.
    + intros x v Hx Hv. destruct (Hmap x v ltac:(by right) Hv) as (v' & ? & _ & Hp). rewrite decide_False in Hp; [eauto|].
      intros ->. by apply NoDup_cons in Hnd as [? _].
  - split; eauto.
Qed.

(** ** Exiting *)

(** A thread may have been woken, and its files and timers may have changed. *)
Definition calm (t t' : thread) : Prop :=
  ∃ f st q d, t' = set_sleep d (set_quantum q (set_state st (set_files (λ _, f) t))) ∧
    (st = t_state t ∨ (t_state t = THREAD_BLOCKED ∧ st = THREAD_READY)).

Lemma calm_refl t : calm t t.
Proof. exists (t_files t), (t_state t), (t_quantum t), (t_sleep_deadline_ns t). split; [by destruct t|by left]. Qed.

Lemma calm_trans t1 t2 t3 : calm t1 t2 → calm t2 t3 → calm t1 t3.
Proof.
  intros (f & st & q & d & -> & H1) (f' & st' & q' & d' & -> & H2). exists f', st', q', d'. split; [done|]. simpl in H2.
  destruct H1 as [->|[? ->]], H2 as [->|[? ->]]; auto; done.
Qed.

(** Only files, pipes, timers and wake-ups. *)
Record quiet (s s' : sched) : Prop := Quiet {
  qu_threads : threads_rel calm (threads s) (threads s');
  qu_rest : s' = put_vfs (sc_vfs s') (set_threads (λ _, threads s') s) }.

Lemma queue_exit s s' l1 c l2 zs :
  queue s (l1 ++ c :: l2) zs c → c ≠ main_thread →
  (∀ a t, threads s !! a = Some t → ∃ t', threads s' !! a = Some t' ∧
     (if decide (a = c) then t_next t' = zombie_head s ∧ t_state t' = THREAD_ZOMBIE
      else t_next t' = (if decide (a = before main_thread l1) then hd main_thread l2 else t_next t) ∧
           t_prev t' = (if decide (a = hd main_thread l2) then before main_thread l1 else t_prev t) ∧
           (t_state t' = t_state t ∨ (t_state t = THREAD_BLOCKED ∧ t_state t' = THREAD_READY)))) →
  (∀ a, is_Some (threads s' !! a) → is_Some (threads s !! a)) →
  ready_head s' = ready_head s → zombie_head s' = c → sc_fresh s' = sc_fresh s → queue s' (l1 ++ l2) (c :: zs) 0.
Proof.
  intros Hq Hcm Hmap Hdom' Eh Ez Ef. pose proof Hq as [Qh Qr Qz Qnd Qf Qa Qrun Qst Qd].
  assert (∀ a, is_Some (threads s' !! a) ↔ is_Some (threads s !! a)) as Hdom.
  { intros a. split; [by apply Hdom'|]. intros [t Ht]. destruct (Hmap a t Ht) as (t' & ? & _). eauto. }
  assert (idle_thread :: main_thread :: (l1 ++ c :: l2) ++ zs ≡ₚ idle_thread :: main_thread :: (l1 ++ l2) ++ c :: zs) as Hperm by solve_Permutation.
  assert (c ∉ main_thread :: l1 ++ l2) as Hc.
  { pose proof (q_ring_nodup _ _ _ _ Hq) as Hnd. rewrite not_elem_of_cons. split; [done|]. apply NoDup_cons in Hnd as [_ Hnd].
    apply NoDup_app in Hnd as (_ & H1 & H2). apply NoDup_cons in H2 as [H2 _]. intros [Hx|Hx]%elem_of_app; [apply (H1 c Hx); by left|done]. }
  assert (∀ a, a ∈ main_thread :: l1 ++ l2 → a ∈ main_thread :: l1 ++ c :: l2) as Hsub by (intros a; set_unfold; tauto).
  split; try done.
  - congruence.
  - eapply seg_mono; [| |by eapply seg_remove; [exact Qr|apply (q_ring_nodup _ _ _ _ Hq)]];
      intros a t' Ha Ht'; destruct (proj1 (unlinked_dom _ _ _ a) ltac:(eauto)) as [t Ht];
      destruct (unlinked_at (before main_thread l1) (hd main_thread l2) _ _ _ Ht) as (t'' & Ht'' & Hn & Hp & _);
      destruct (Hmap a t Ht) as (u & Hu & Hc'); rewrite decide_False in Hc' by (intros ->; by apply Hc);
      assert (t'' = t') as -> by congruence; exists u; destruct Hc' as (? & ? & _); split; congruence.
  - simpl. split; [done|]. destruct (Qa c) as [_ [tc Htc]]; [set_solver|]. destruct (Hmap c tc Htc) as (tc' & Htc' & Hcc).
    rewrite decide_True in Hcc by done. destruct Hcc as [Hcn _]. exists tc'. split; [done|]. rewrite Hcn.
    eapply chain_mono; [|exact Qz]. intros z t Hz Ht. destruct (Hmap z t Ht) as (t' & Ht' & Hzz).
    assert (z ∉ main_thread :: l1 ++ c :: l2) as Hnr by (intros Hin; by apply (q_ring_zombie _ _ _ _ Hq z)).
    rewrite decide_False in Hzz by (intros ->; apply Hnr; set_solver). destruct Hzz as (Hzn & _).
    rewrite decide_False in Hzn; [eauto|]. intros ->. apply Hnr. pose proof (before_in main_thread l1). set_solver.
  - by rewrite <-Hperm.
  - intros a Ha%Hdom. rewrite Ef. by apply Qf.
  - intros a. by rewrite Hdom, Qa, Hperm.
  - by left.
  - intros a t' Ha Ht'. destruct (Hdom' a ltac:(eauto)) as [t Ht]. destruct (Hmap a t Ht) as (u & Hu & Hst). assert (u = t') as -> by congruence. clear Hu.
    rewrite decide_False in Hst by (intros ->; by apply Hc). destruct Hst as (_ & _ & Hst).
    destruct (Qst a t (Hsub a Ha) Ht) as [_ Hold]. split.
    + intros ->. pose proof (Qf 0 ltac:(eauto)). lia.
    + intros _. destruct (Hold ltac:(intros ->; by apply Hc)) as [Hr|[Hb Hm]]; destruct Hst as [Hst|[Hst1 Hst2]];
        rewrite ?Hst, ?Hst2; auto.
  - intros z t' Hz Ht'. destruct (Hdom' z ltac:(eauto)) as [t Ht]. destruct (Hmap z t Ht) as (u & Hu & Hst). assert (u = t') as -> by congruence. clear Hu.
    apply elem_of_cons in Hz as [->|Hz]; [rewrite decide_True in Hst by done; by destruct Hst|].
    assert (z ≠ c) as Hzc by (intros ->; apply (q_ring_zombie _ _ _ _ Hq c); [set_solver|done]).
    rewrite decide_False in Hst by done. destruct Hst as (_ & _ & [->|[Hb _]]); [by eapply Qd|].
    rewrite (Qd z t Hz Ht) in Hb. done.
Qed.

Section exiting.
Context {env : VfsEnv} {senv : SchedEnv}.

(** The current thread leaves the run queue. *)
Lemma wp_unlink_ready s self p n x (Q : unit → sched → Prop) :
  ready_head s = main_thread → self ≠ main_thread → threads s !! self = Some x → t_prev x = p → t_next x = n →
  is_Some (threads s !! p) → is_Some (threads s !! n) → p ≠ self →
  Q tt (set_threads (unlinked p n) s) → wp (unlink_ready self) Q s.
Proof.
  intros Hh Hm Hx <- <- [tp Hp] [tn Hn] Hps HQ. unfold unlink_ready. wp_step. wp_step. wp_step. rewrite Hh.
  rewrite (proj2 (Z.eqb_neq _ _)) by done. wp_step. wp_step. wp_step. rewrite Hh. change (negb (main_thread =? 0)) with true. cbn iota.
  wp_step. eapply wp_thr; [done|]. wp_step. eapply wp_upd; [exact Hp|].
  wp_step. eapply wp_thr; [cbn; by rewrite lookup_insert_ne|].
  assert (is_Some (<[t_prev x := set_tnext (t_next x) tp]> (threads s) !! t_next x)) as [tn' Hn'].
  { rewrite lookup_insert. case_decide; eauto. }
  eapply wp_upd; [exact Hn'|]. replace (set_threads _ _) with (set_threads (unlinked (t_prev x) (t_next x)) s); [done|].
  unfold set_threads. cbn. f_equal. unfold unlinked. rewrite <-(alter_insert_eq (threads s) (t_prev x) tp) by done.
  by rewrite <-(alter_insert_eq _ (t_next x) tn').
Qed.

(** Files, pipes and exit statuses stay as they are. *)
Definition kept_fields (t : thread) : files * Z := (t_files t, t_exit_status t).
Definition same_files (s s' : sched) : Prop :=
  sc_vfs s' = sc_vfs s ∧ sc_heap s' = sc_heap s ∧ ∀ a, kept_fields <$> threads s' !! a = kept_fields <$> threads s !! a.

Lemma switched_files sp old next s s' : switched sp old next s s' → same_files s s'.
Proof.
  intros [_ Hts _ _ Hfr]. split; [apply (fr_vfs _ _ Hfr)|]. split; [apply (fr_heap _ _ Hfr)|]. intros a. rewrite Hts, !alter_at.
  destruct (threads s !! a); [|done]. simpl. by repeat case_decide.
Qed.

Context (s : sched) (l1 l2 zs : list Z) (sp status : Z).
Local Abbreviation c := (current s).
Local Abbreviation l := (l1 ++ c :: l2).
Local Abbreviation s1 := (set_threads (alter (set_exit status) c) s).
Context (Hok : sched_ok s l zs) (Hcm : c ≠ main_thread) (Hci : c ≠ g_init_thread s).

Lemma exit_neighbours x :
  threads s !! c = Some x → t_prev x = before main_thread l1 ∧ t_next x = hd main_thread l2 ∧ before main_thread l1 ≠ c.
Proof.
  intros Hx. pose proof (so_queue _ _ _ Hok) as Hq. pose proof (q_ring _ _ _ _ Hq) as Hr. apply seg_app in Hr as [H1 H2]. split_and!.
  - apply seg_end in H1 as [_ (t & Ht & ?)]. congruence.
  - destruct l2; simpl in *; [destruct H2 as [(t & Ht & ?) _]|destruct H2 as [[(t & Ht & ?) _] _]]; congruence.
  - intros E. pose proof (before_in main_thread l1) as Hin. rewrite E in Hin. pose proof (q_ring_nodup _ _ _ _ Hq) as Hnd.
    rewrite app_comm_cons in Hnd. apply NoDup_app in Hnd as (_ & Hdis & _). apply (Hdis c Hin). by left.
Qed.

(** A thread as it is after the files of the exiting one were closed and it was
    unlinked: [s2] is the state after the files were closed. *)
Section closed.
Context (s2 : sched) (Hqu : quiet s1 s2).
Local Abbreviation p := (before main_thread l1).
Local Abbreviation n := (hd main_thread l2).

Lemma closed_thread a t : threads s !! a = Some t → ∃ t', threads s2 !! a = Some t' ∧
  t_next t' = t_next t ∧ t_prev t' = t_prev t ∧ t_exec t' = t_exec t ∧ t_pid t' = t_pid t ∧
  (if decide (a = c) then t_state t' = THREAD_ZOMBIE
   else t_state t' = t_state t ∨ (t_state t = THREAD_BLOCKED ∧ t_state t' = THREAD_READY)).
Proof.
  intros Ht. destruct Hqu as [[H1 _] _]. destruct (H1 a (if decide (a = c) then set_exit status t else t)) as (t' & Ht' & f & st & q & d & -> & Hst).
  { cbn. rewrite alter_at, Ht. done. }
  eexists. split; [exact Ht'|]. case_decide; simpl in *; split_and!; try done. destruct Hst as [->|[? _]]; done.
Qed.

Lemma closed_dom a : is_Some (threads s2 !! a) → is_Some (threads s !! a).
Proof.
  destruct Hqu as [[_ H2] _]. intros [t' Ht']. destruct (H2 a t' Ht') as (t & Ht & _). cbn in Ht.
  rewrite alter_at in Ht. apply fmap_Some in Ht as (u & Hu & _). eauto.
Qed.

(** After the chain of zombies got its new head. *)
Definition buried : sched :=
  set_zombie c (set_threads (λ ts, alter (set_tnext (zombie_head s2)) c (unlinked p n ts)) s2).

Lemma buried_thread a t : threads s !! a = Some t → ∃ t', threads buried !! a = Some t' ∧ t_exec t' = t_exec t ∧
  (if decide (a = c) then t_next t' = zombie_head s ∧ t_state t' = THREAD_ZOMBIE
   else t_next t' = (if decide (a = p) then n else t_next t) ∧ t_prev t' = (if decide (a = n) then p else t_prev t) ∧
        (t_state t' = t_state t ∨ (t_state t = THREAD_BLOCKED ∧ t_state t' = THREAD_READY))).
Proof.
  intros Ht. destruct (closed_thread a t Ht) as (t2 & Ht2 & En & Ep & Ex & _ & Est).
  destruct (unlinked_at p n _ _ _ Ht2) as (t3 & Ht3 & Fn & Fp & Fst & Fx & _).
  unfold buried. cbn. rewrite alter_at, Ht3. eexists. split; [done|]. assert (zombie_head s2 = zombie_head s) as Hz.
  { rewrite (qu_rest _ _ Hqu). done. }
  destruct (decide (a = c)) as [Hac|Hac]; simpl.
  - split; [congruence|]. split; [done|]. congruence.
  - split_and!; [congruence|by rewrite Fn, En|by rewrite Fp, Ep|].
    rewrite Fst. done.
Qed.

Lemma buried_dom a : is_Some (threads buried !! a) → is_Some (threads s !! a).
Proof.
  unfold buried. cbn. rewrite alter_at, fmap_is_Some, unlinked_dom. apply closed_dom.
Qed.

Lemma buried_queue : queue buried (l1 ++ l2) (c :: zs) 0.
Proof.
  eapply (queue_exit s); [apply (so_queue _ _ _ Hok)|done| |apply buried_dom|..].
  - intros a t Ht. destruct (buried_thread a t Ht) as (t' & ? & _ & ?). eauto.
  - unfold buried. cbn. rewrite (qu_rest _ _ Hqu). done.
  - done.
  - unfold buried. cbn. rewrite (qu_rest _ _ Hqu). done.
Qed.

Lemma buried_machine : machine (sc_mmu buried) (threads buried).
Proof.
  eapply (machine_view (sc_mmu s) _ (threads s)); [apply (so_machine _ _ _ Hok)| |unfold buried; cbn; rewrite (qu_rest _ _ Hqu); done..].
  split.
  - intros a t Ht. destruct (buried_thread a t Ht) as (t' & ? & E & _). exists t'. split; [done|]. by split; rewrite E.
  - intros a t' Ht'. destruct (buried_dom a ltac:(eauto)) as [t Ht]. destruct (buried_thread a t Ht) as (t'' & ? & E & _).
    exists t. split; [done|]. simplify_eq. by split; rewrite E.
Qed.

Lemma buried_files : same_files s2 buried.
Proof.
  split; [done|]. split; [done|]. intros a. unfold buried, unlinked. cbn. rewrite !alter_at. destruct (threads s2 !! a); [|done]. simpl.
  by repeat case_decide.
Qed.
End closed.
End exiting.

(** The parent of an exiting thread is woken. *)
Lemma wp_wake_parent s l zs (Q : unit → sched → Prop) pid :
  queue s l zs 0 → machine (sc_mmu s) (threads s) → current s ∈ zs → is_ready (threads s) idle_thread = true →
  (∀ s', queue s' l zs 0 → machine (sc_mmu s') (threads s') → same_files s s' → is_ready (threads s') idle_thread = true →
     s' = set_threads (λ _, threads s') s → Q tt s') →
  wp (if 0 <? pid then
        p ← thread_find_by_pid pid;
        if p =? 0 then mret tt
        else
          y ← thr p;
          if bool_decide (t_state y = THREAD_BLOCKED) then upd p (set_state THREAD_READY) else mret tt
      else mret tt) Q s.
Proof.
  intros Hq Hm Hc Hi HQ. assert (Q tt s) as HQs by (apply HQ; try done; by destruct s).
  destruct (Z.ltb_spec 0 pid) as [Hpid|]; [|by wp_step].
  wp_step. eapply (wp_find_by_pid s l zs 0 Hq); [set_unfold; tauto|done|..].
  2:{ intros _. rewrite Z.eqb_refl. by wp_step. }
  intros a t Ha Ht _. assert (0 < a) as Ha0. { apply (q_pos _ _ _ _ Hq). set_unfold. destruct_or! Ha; subst; tauto. }
  rewrite (proj2 (Z.eqb_neq _ _)) by lia. wp_step. eapply wp_thr; [done|].
  destruct (decide (t_state t = THREAD_BLOCKED)) as [Hb|Hb]; [rewrite bool_decide_true by done|rewrite bool_decide_false by done; by wp_step].
  assert (a ∈ main_thread :: l) as Har.
  { apply elem_of_cons in Ha as [->|Ha]; [by rewrite (q_dead _ _ _ _ Hq _ _ Hc Ht) in Hb|].
    apply elem_of_cons in Ha as [->|Ha]; [|done]. unfold is_ready in Hi. rewrite Ht, bool_decide_eq_true in Hi. congruence. }
  eapply wp_upd; [done|]. apply HQ.
  - pose proof (queue_set_state s l zs 0 a t (set_state THREAD_READY t) Hq Har Ht eq_refl eq_refl (or_introl eq_refl)) as Hq'.
    by rewrite decide_False in Hq' by lia.
  - by eapply machine_insert.
  - split; [done|]. split; [done|]. intros b. cbn. destruct (decide (b = a)) as [->|Hne]; [by rewrite lookup_insert_eq, Ht|by rewrite lookup_insert_ne].
  - unfold is_ready. cbn. rewrite lookup_insert_ne; [done|]. by apply (ring_not_idle _ _ _ _ Hq).
  - done.
Qed.

Lemma same_files_trans s1 s2 s3 : same_files s1 s2 → same_files s2 s3 → same_files s1 s3.
Proof. intros (E1 & F1 & H1) (E2 & F2 & H2). split; [congruence|]. split; [congruence|]. intros a. by rewrite H2. Qed.

Lemma wp_sched_exit {env : VfsEnv} {senv : SchedEnv} s l1 l2 zs sp status (Qc : sched → Prop) (Q : unit → sched → Prop) :
  sched_ok s (l1 ++ current s :: l2) zs → current s ≠ main_thread → current s ≠ g_init_thread s →
  wp (thread_close_fds (current s)) (λ _ s2, quiet (set_threads (alter (set_exit status) (current s)) s) s2 ∧ Qc s2)
    (set_threads (alter (set_exit status) (current s)) s) →
  (∀ s2 s', quiet (set_threads (alter (set_exit status) (current s)) s) s2 → Qc s2 → same_files s2 s' →
     sched_ok s' (l1 ++ l2) (current s :: zs) → current s' = main_thread → Q tt s') →
  wp (sched_exit sp status) Q s.
Proof.
  intros Hok Hcm Hci Hcl HQ. set (c := current s) in *. pose proof (so_queue _ _ _ Hok) as Hq.
  destruct (q_member _ _ _ _ Hq c) as [x Hx]; [set_solver|]. unfold sched_exit. wp_step. wp_step. fold c.
  wp_step. eapply wp_upd; [exact Hx|].
  replace (set_threads (insert c (set_exit status x)) s) with (set_threads (alter (set_exit status) c) s).
  2:{ unfold set_threads. f_equal. symmetry. by apply (alter_insert_eq _ _ _ (set_exit status)). }
  wp_step. eapply wp_mono; [exact Hcl|]. intros [] s2 [Hqu HQc]. cbn beta.
  pose proof (qu_rest _ _ Hqu) as Hrest.
  wp_step. wp_step. assert (g_init_thread s2 = g_init_thread s) as -> by (by rewrite Hrest).
  rewrite (proj2 (Z.eqb_neq _ _)) by done.
  destruct (exit_neighbours s l1 l2 zs Hok x Hx) as (Hp & Hn & Hpc).
  destruct (closed_thread s status s2 Hqu c x Hx) as (x2 & Hx2 & En & Ep & _).
  assert (∀ a, a ∈ main_thread :: l1 ++ c :: l2 → is_Some (threads s2 !! a)) as Hin.
  { intros a Ha. destruct (q_member _ _ _ _ Hq a Ha) as [t Ht]. destruct (closed_thread s status s2 Hqu a t Ht) as (? & ? & _). eauto. }
  wp_step. eapply (wp_unlink_ready s2 c (before main_thread l1) (hd main_thread l2) x2);
    [by rewrite Hrest; apply (q_head _ _ _ _ Hq)|done|done|congruence|congruence| | |done|].
  { apply Hin. pose proof (before_in main_thread l1). set_solver. }
  { apply Hin. destruct l2; set_solver. }
  set (s3 := set_threads _ s2).
  destruct (unlinked_at (before main_thread l1) (hd main_thread l2) _ _ _ Hx2) as (x3 & Hx3 & _).
  wp_step. wp_step. wp_step. eapply wp_upd; [exact Hx3|]. wp_step. wp_step.
  replace (set_zombie c _) with (buried s l1 l2 s2).
  2:{ unfold buried, set_zombie, set_threads, s3. cbn. f_equal. fold c. symmetry. by apply (alter_insert_eq _ _ _ (set_tnext (zombie_head s2))). }
  assert (∃ x4, threads (buried s l1 l2 s2) !! c = Some x4) as [x4 Hx4].
  { destruct (buried_thread s l1 l2 status s2 Hqu c x Hx) as (x4 & ? & _). eauto. }
  wp_step. eapply wp_thr; [exact Hx4|].
  assert (is_ready (threads (buried s l1 l2 s2)) idle_thread = true) as Hidle.
  { pose proof (so_idle _ _ _ Hok) as Hi. unfold is_ready in Hi |- *. destruct (threads s !! idle_thread) as [t|] eqn:Ht; [|done].
    destruct (buried_thread s l1 l2 status s2 Hqu _ t Ht) as (t' & -> & _ & Hst). apply bool_decide_eq_true in Hi.
    rewrite decide_False in Hst; [|intros E; apply (ring_not_idle _ _ _ _ Hq c); [set_solver|done]].
    destruct Hst as (_ & _ & [Hst|[? _]]); [|congruence]. apply bool_decide_eq_true. congruence. }
  pose proof (buried_queue s l1 l2 zs status Hok Hcm s2 Hqu) as Hq3.
  assert (current (buried s l1 l2 s2) = c) as Hcur by (unfold buried; cbn; by rewrite Hrest).
  wp_step. eapply (wp_wake_parent _ (l1 ++ l2) (c :: zs)); [exact Hq3|by eapply buried_machine|rewrite Hcur; by left|done|].
  intros s4 Hq4 Hm4 Hf4 Hi4 Hs4. wp_step. wp_step. rewrite (q_head _ _ _ _ Hq4). change (main_thread =? 0) with false. cbn iota.
  destruct (q_member _ _ _ _ Hq4 main_thread) as [tm Htm]; [by left|].
  destruct (q_thread _ _ _ _ Hq4 c) as [tc Htc]; [set_solver|].
  eapply wp_dispatch; [done..|]. intros s5 Hsw. pose proof (sw_current _ _ _ _ _ Hsw) as Hc5. eapply (HQ s2 s5); [done|done| | |done].
  - eapply same_files_trans; [apply buried_files|]. eapply same_files_trans; [done|]. by eapply switched_files.
  - split.
    + rewrite Hc5. eapply queue_switched; [done|by left|done].
    + by eapply machine_switched.
    + by rewrite Hc5.
    + eapply ready_switched; [done|done|done].
    + destruct (fr_init _ _ (sw_rest _ _ _ _ _ Hsw)) as [_ ->]. rewrite Hs4. cbn. unfold buried. cbn. rewrite Hrest. apply (so_init _ _ _ Hok).
Qed.

(** ** Quiet changes *)

Lemma quiet_refl s : quiet s s.
Proof.
  split; [|by destruct s]. split; intros a t Ht; exists t; (split; [done|apply calm_refl]).
Qed.

Lemma quiet_trans s1 s2 s3 : quiet s1 s2 → quiet s2 s3 → quiet s1 s3.
Proof.
  intros [[A1 A2] E1] [[B1 B2] E2]. split; [split|].
  - intros a t Ht. destruct (A1 a t Ht) as (t' & Ht' & Hc). destruct (B1 a t' Ht') as (t'' & ? & Hc'). exists t''.
    split; [done|]. by eapply calm_trans.
  - intros a t'' Ht''. destruct (B2 a t'' Ht'') as (t' & Ht' & Hc'). destruct (A2 a t' Ht') as (t & ? & Hc). exists t.
    split; [done|]. by eapply calm_trans.
  - rewrite E2 at 1. rewrite E1. done.
Qed.

Lemma quiet_upd s a t t' : threads s !! a = Some t → calm t t' → quiet s (set_threads (insert a t') s).
Proof. intros Ht Hc. split; [|done]. by apply (threads_rel_insert calm _ _ t); [apply calm_refl|..]. Qed.

Lemma quiet_vfs s v : quiet s (put_vfs v s).
Proof. split; [|done]. exact (qu_threads _ _ (quiet_refl s)). Qed.

Lemma calm_facts t t' : calm t t' → t_next t' = t_next t ∧ t_prev t' = t_prev t ∧ same_own t t' ∧
  (t_state t' = t_state t ∨ (t_state t = THREAD_BLOCKED ∧ t_state t' = THREAD_READY)).
Proof. intros (f & st & q & d & -> & Hst). done. Qed.

Lemma queue_quiet s s' l zs run : queue s l zs run → quiet s s' → queue s' l zs run.
Proof.
  intros [Qh Qr Qz Qnd Qf Qa Qrun Qst Qd] [[A1 A2] E].
  assert (∀ a t, threads s !! a = Some t → ∃ t', threads s' !! a = Some t' ∧ t_next t' = t_next t ∧ t_prev t' = t_prev t) as H1.
  { intros a t Ht. destruct (A1 a t Ht) as (t' & ? & (? & ? & _)%calm_facts). eauto. }
  assert (∀ a, is_Some (threads s' !! a) ↔ is_Some (threads s !! a)) as Hdom.
  { intros a. split; intros [t Ht]; [destruct (A2 a t Ht) as (? & ? & _)|destruct (A1 a t Ht) as (? & ? & _)]; eauto. }
  assert (ready_head s' = ready_head s ∧ zombie_head s' = zombie_head s ∧ sc_fresh s' = sc_fresh s) as (E1 & E2 & E3) by (by rewrite E).
  split; try done.
  - congruence.
  - eapply seg_mono; [| |exact Qr]; intros x t _ Ht; destruct (H1 x t Ht) as (t' & ? & ? & ?); eauto.
  - rewrite E2. eapply chain_mono; [|exact Qz]. intros x t _ Ht. destruct (H1 x t Ht) as (t' & ? & ? & _). eauto.
  - intros a Ha%Hdom. rewrite E3. by apply Qf.
  - intros a. by rewrite Hdom.
  - intros a t' Ha (t & Ht & (_ & _ & _ & Hst)%calm_facts)%A2. destruct (Qst a t Ha Ht) as [Hs1 Hs2]. split.
    + intros ->. destruct Hst as [->|[Hb _]]; [by apply Hs1|]. rewrite Hs1 in Hb; done.
    + intros Hne. destruct Hst as [->|[Hb ->]]; [by apply Hs2|by left].
  - intros z t' Hz (t & Ht & (_ & _ & _ & Hst)%calm_facts)%A2. destruct Hst as [->|[Hb _]]; [by eapply Qd|].
    rewrite (Qd z t Hz Ht) in Hb. done.
Qed.

Lemma machine_quiet s s' : machine (sc_mmu s) (threads s) → quiet s s' → machine (sc_mmu s') (threads s').
Proof.
  intros Hm [[A1 A2] E]. eapply machine_view; [done| |by rewrite E..]. split.
  - intros a t Ht. destruct (A1 a t Ht) as (t' & ? & (_ & _ & ? & _)%calm_facts). eauto.
  - intros a t' Ht'. destruct (A2 a t' Ht') as (t & ? & (_ & _ & ? & _)%calm_facts). eauto.
Qed.

Lemma ok_quiet s s' l zs : sched_ok s l zs → quiet s s' → sched_ok s' l zs.
Proof.
  intros [Hq Hm Hc Hi Hd] Hqu. pose proof (qu_rest _ _ Hqu) as E.
  assert (current s' = current s) as Ec by (by rewrite E). split.
  - rewrite Ec. by eapply queue_quiet.
  - by eapply machine_quiet.
  - by rewrite Ec.
  - unfold is_ready in *. destruct (threads s !! idle_thread) as [t|] eqn:Ht; [|done]. destruct Hqu as [[A1 _] _].
    destruct (A1 _ _ Ht) as (t' & -> & (_ & _ & _ & Hst)%calm_facts). apply bool_decide_eq_true in Hi.
    destruct Hst as [->|[? _]]; [by apply bool_decide_eq_true|congruence].
  - by rewrite E.
Qed.

Lemma calm_wake t : t_state t = THREAD_BLOCKED → calm t (set_state THREAD_READY t).
Proof.
  intros Hb. exists (t_files t), THREAD_READY, (t_quantum t), (t_sleep_deadline_ns t). split; [by destruct t|by right].
Qed.

Lemma wp_sched_wake s a (Q : unit → sched → Prop) :
  (a = 0 ∨ is_Some (threads s !! a)) →
  (∀ s', quiet s s' → same_files s s' → Q tt s') → wp (sched_wake a) Q s.
Proof.
  intros Ha HQ. unfold sched_wake. destruct (Z.eqb_spec a 0) as [->|Hne]; [wp_step; by apply HQ; [apply quiet_refl|]|].
  destruct Ha as [?|[t Ht]]; [done|]. wp_step. eapply wp_thr; [done|].
  destruct (decide (t_state t = THREAD_BLOCKED)) as [Hb|Hb].
  - rewrite bool_decide_true by done. eapply wp_upd; [done|]. apply HQ; [eapply quiet_upd; [done|by apply calm_wake]|].
    split; [done|]. split; [done|]. intros b. cbn. destruct (decide (b = a)) as [->|]; [by rewrite lookup_insert_eq, Ht|by rewrite lookup_insert_ne].
  - rewrite bool_decide_false by done. wp_step. by apply HQ; [apply quiet_refl|].
Qed.

(** ** The timer *)

Definition expired (now : Z) (t : thread) : bool :=
  bool_decide (t_state t = THREAD_BLOCKED) && negb (t_sleep_deadline_ns t =? 0) && (t_sleep_deadline_ns t <=? now).
Definition expire (now : Z) (t : thread) : thread :=
  if expired now t
  then set_state THREAD_READY (set_sleep 0 t) else t.
Definition tick_down (t : thread) : thread := if 0 <? t_quantum t then set_quantum (t_quantum t - 1) t else t.

Lemma expire_calm now t : calm t (expire now t).
Proof.
  unfold expire, expired. destruct (bool_decide (t_state t = THREAD_BLOCKED)) eqn:Hb; [|apply calm_refl]. apply bool_decide_eq_true in Hb.
  simpl. destruct (_ && _); [|apply calm_refl]. exists (t_files t), THREAD_READY, (t_quantum t), 0. split; [by destruct t|by right].
Qed.

Lemma tick_down_calm t : calm t (tick_down t).
Proof.
  unfold tick_down. destruct (0 <? _); [|apply calm_refl]. exists (t_files t), (t_state t), (t_quantum t - 1), (t_sleep_deadline_ns t).
  split; [by destruct t|by left].
Qed.

(** A loop around the queue that changes the thread it is at. *)
Lemma wp_ring_update s h l fuel (g : thread → thread) (c : thread → bool) (Q : unit → sched → Prop) :
  seg (threads s) h l h → NoDup (h :: l) → (length (h :: l) < fuel)%nat → (∀ t, calm t (g t)) → (∀ t, c t = false → g t = t) →
  (∀ s', quiet s s' → s' = set_threads (λ _, threads s') s →
     (∀ a, threads s' !! a = (λ t, if decide (a ∈ h :: l) then g t else t) <$> threads s !! a) → Q tt s') →
  wp (loop_fuel fuel (λ t, x ← thr t; (if c x then upd t g else mret tt) ;;
    mret (if t_next x =? h then inr tt else inl (t_next x))) h) Q s.
Proof.
  intros Hs Hnd Hf Hcalm Hc HQ.
  apply (wp_loop_ghost (λ k p s', ∃ pre suf, h :: l = pre ++ p :: suf ∧ k = length suf ∧ seg (threads s) p suf h ∧
    quiet s s' ∧ s' = set_threads (λ _, threads s') s ∧
    ∀ a, threads s' !! a = (λ t, if decide (a ∈ pre) then g t else t) <$> threads s !! a) _ _ (length l)); [|simpl in Hf; lia|].
  - exists [], l. split_and!; try done; [apply quiet_refl|by destruct s|]. intros a. by destruct (threads s !! a).
  - intros k p s' (pre & suf & Heq & -> & Hseg & Hqu & Hrest & Hmap). destruct (seg_in _ _ _ _ p Hseg) as [t Ht]; [by left|].
    assert (p ∉ pre) as Hp. { rewrite Heq in Hnd. apply NoDup_app in Hnd as (_ & Hdis & _). intros Hin. apply (Hdis p Hin). by left. }
    assert (threads s' !! p = Some t) as Ht'. { rewrite Hmap, Ht. simpl. by rewrite decide_False. }
    assert (t_next t = hd h suf) as Hnx.
    { destruct suf; simpl in Hseg |- *; [destruct Hseg as [(t' & Ht2 & ?) _]|destruct Hseg as [[(t' & Ht2 & ?) _] _]]; congruence. }
    assert (∀ s'', s'' = set_threads (λ _, threads s'') s → quiet s s'' → (∀ a, threads s'' !! a = (λ t, if decide (a ∈ pre ++ [p]) then g t else t) <$> threads s !! a) →
      wp (mret (if t_next t =? h then inr tt else inl (t_next t)) : M sched (Z + unit)) (λ r s0, match r with
        | inl b' => ∃ m', (m' < length suf)%nat ∧ ∃ pre suf, h :: l = pre ++ b' :: suf ∧ m' = length suf ∧ seg (threads s) b' suf h ∧
            quiet s s0 ∧ s0 = set_threads (λ _, threads s0) s ∧ ∀ a, threads s0 !! a = (λ t, if decide (a ∈ pre) then g t else t) <$> threads s !! a
        | inr v => Q v s0 end) s'') as Hgo.
    { intros s'' Hr'' Hq'' Hm''. rewrite Hnx. destruct suf as [|y suf]; simpl.
      - rewrite Z.eqb_refl. wp_step. apply HQ; [done|done|]. by rewrite Heq.
      - assert (y ≠ h) as Hy.
        { intros ->. destruct pre as [|h' pre]; simplify_eq/=; apply NoDup_cons in Hnd as [Hnd _]; apply Hnd; set_solver. }
        rewrite (proj2 (Z.eqb_neq _ _)) by done. wp_step. exists (length suf). split; [lia|].
        exists (pre ++ [p]), suf. rewrite <-app_assoc. split_and!; try done. by destruct Hseg. }
    wp_step. eapply wp_thr; [done|]. wp_step.
    destruct (c t) eqn:Hct.
    + eapply wp_upd; [done|]. apply Hgo; [cbn; by rewrite Hrest|eapply quiet_trans; [done|by eapply quiet_upd]|].
      intros a. cbn. destruct (decide (a = p)) as [->|Hne].
      * rewrite lookup_insert_eq, Ht. simpl. rewrite decide_True; [done|]. set_solver.
      * rewrite lookup_insert_ne, Hmap by done. destruct (threads s !! a); [|done]. simpl. f_equal.
        destruct (decide (a ∈ pre)), (decide (a ∈ pre ++ [p])); try done; set_solver.
    + wp_step. apply Hgo; [done|done|]. intros a. rewrite Hmap. destruct (decide (a = p)) as [->|Hne].
      * rewrite Ht. simpl. rewrite decide_False, decide_True by set_solver. by rewrite Hc.
      * destruct (threads s !! a); [|done]. simpl. f_equal.
        destruct (decide (a ∈ pre)), (decide (a ∈ pre ++ [p])); try done; set_solver.
Qed.

(** [sched_tick] uses up the quantum of the running thread and wakes exactly
    the sleepers whose time has come. *)
Lemma wp_sched_tick s l zs now (Q : unit → sched → Prop) :
  sched_ok s l zs →
  (∀ s', sched_ok s' l zs → quiet s s' → s' = set_threads (λ _, threads s') s →
     (∀ a, threads s' !! a = (λ t, (if decide (a ∈ main_thread :: l) then expire now else id)
                                     ((if decide (a = current s) then tick_down else id) t)) <$> threads s !! a) → Q tt s') →
  wp (sched_tick now) Q s.
Proof.
  intros Hok HQ. pose proof (so_queue _ _ _ Hok) as Hq. destruct (ok_current s l zs Hok) as [Hc [t Ht]].
  unfold sched_tick. wp_step. wp_step. rewrite (proj2 (Z.eqb_neq _ _)) by apply (so_current _ _ _ Hok).
  assert (∀ s1, quiet s s1 → s1 = set_threads (λ _, threads s1) s →
    (∀ a, threads s1 !! a = (λ t, (if decide (a = current s) then tick_down else id) t) <$> threads s !! a) →
    wp (h ← gets ready_head;
        if h =? 0 then mret tt
        else
          n ← gets walk_fuel;
          loop_fuel n (λ t,
            x ← thr t;
            (if bool_decide (t_state x = THREAD_BLOCKED) && negb (t_sleep_deadline_ns x =? 0) && (t_sleep_deadline_ns x <=? now)
             then upd t (λ y, set_state THREAD_READY (set_sleep 0 y)) else mret tt) ;;
            mret (if t_next x =? h then inr tt else inl (t_next x))) h) Q s1) as Hgo.
  { intros s1 Hqu Hst Hmap. pose proof (ok_quiet _ _ _ _ Hok Hqu) as Hok1. pose proof (so_queue _ _ _ Hok1) as Hq1.
    wp_step. wp_step. rewrite (q_head _ _ _ _ Hq1). change (main_thread =? 0) with false. cbn iota. wp_step. wp_step.
    eapply (wp_ext_loop _ (λ t, x ← thr t; (if expired now x then upd t (expire now) else mret tt) ;;
      mret (if t_next x =? main_thread then inr tt else inl (t_next x)))).
    { intros b s'. unfold mbind, M_bind. destruct (thr b s') as [[x s'']| |] eqn:Hb; [|done..].
      apply thr_ok in Hb as [-> Hb]. change (bool_decide _ && _ && _) with (expired now x).
      destruct (expired now x) eqn:Hx; [|done]. rewrite !(upd_ok _ _ _ _ Hb). unfold expire. by rewrite Hx. }
    eapply (wp_ring_update s1 main_thread l); [apply (q_ring _ _ _ _ Hq1)|apply (q_ring_nodup _ _ _ _ Hq1)|apply (q_fuel _ _ _ _ Hq1)|
      apply expire_calm| |].
    - intros x Hx. unfold expire. by rewrite Hx.
    - intros s' Hqu' Hst' Hmap'. apply HQ; [by eapply ok_quiet|by eapply quiet_trans|by rewrite Hst', Hst|]. intros a. rewrite Hmap', Hmap.
      destruct (threads s !! a); [|done]. simpl. by repeat case_decide. }
  wp_step. wp_step. eapply wp_thr; [done|].
  assert (∀ s1, quiet s s1 → threads s1 = <[current s := tick_down t]> (threads s) →
    ∀ a, threads s1 !! a = (λ t, (if decide (a = current s) then tick_down else id) t) <$> threads s !! a) as Hm1.
  { intros s1 _ -> a. destruct (decide (a = current s)) as [->|]; [by rewrite lookup_insert_eq, Ht|].
    rewrite lookup_insert_ne by done. by destruct (threads s !! a). }
  destruct (0 <? t_quantum t) eqn:Hqt.
  - eapply wp_upd; [done|]. assert (set_quantum (t_quantum t - 1) t = tick_down t) as -> by (unfold tick_down; by rewrite Hqt).
    apply Hgo; [eapply quiet_upd; [done|apply tick_down_calm]|done|]. apply Hm1; [eapply quiet_upd; [done|apply tick_down_calm]|done].
  - wp_step. apply Hgo; [apply quiet_refl|by destruct s|]. apply Hm1; [apply quiet_refl|]. rewrite insert_id; [done|]. unfold tick_down. by rewrite Hqt.
Qed.

