(* ===== verification/Fds.v ===== *)
(** * Fds: who holds which descriptor

    The descriptor tables of all threads against the reference counts of nodes
    and pipes: [accounted] says that the count of a node is exactly the number of
    descriptors open on it plus the references of others ([Others], which no
    operation on descriptors changes), that the counts of a pipe are exactly the
    descriptors open on its ends and that no descriptor is dangling.  Copying a
    table ([thread_inherit_vfs]) and closing one ([thread_close_fds]) keep it. *)

From Stdlib Require Import String.
From S2P Require Import Prelude BootMap Pmm Mmu Reclaim CString Security VfsPath Vfs Sched SchedQueue.

#[local] Arguments for_up : simpl never.

Lemma i32_small x : 0 ≤ x < 2 ^ 31 → i32 x = x.
Proof. intros Hx. unfold i32. rewrite u32_small by (unfold is_u32; lia). by rewrite (proj2 (Z.ltb_lt _ _)) by lia. Qed.

(** ** Sums over descriptor tables *)

Definition zsum {A} (w : A → Z) (l : list A) : Z := foldr (λ x acc, w x + acc) 0 l.

Lemma zsum_app {A} (w : A → Z) l1 l2 : zsum w (l1 ++ l2) = zsum w l1 + zsum w l2.
Proof. induction l1; simpl; lia. Qed.

Lemma zsum_perm {A} (w : A → Z) l1 l2 : l1 ≡ₚ l2 → zsum w l1 = zsum w l2.
Proof. induction 1; simpl; lia. Qed.

Lemma zsum_ext {A} (w w' : A → Z) l : (∀ x, x ∈ l → w x = w' x) → zsum w l = zsum w' l.
Proof.
  induction l as [|x l IH]; intros He; simpl; [done|]. rewrite (He x) by (by left). rewrite IH; [done|]. intros y Hy. apply He. by right.
Qed.

Lemma zsum_nonneg {A} (w : A → Z) l : (∀ x, 0 ≤ w x) → 0 ≤ zsum w l.
Proof. intros Hw. induction l as [|x l IH]; simpl; [done|]. specialize (Hw x). lia. Qed.

Lemma zsum_in {A} (w : A → Z) l x : (∀ y, 0 ≤ w y) → x ∈ l → w x ≤ zsum w l.
Proof.
  intros Hw. intros Hx. induction l as [|y l IH]; [by apply not_elem_of_nil in Hx|]. pose proof (zsum_nonneg w l Hw). pose proof (Hw y).
  simpl. apply elem_of_cons in Hx as [->|?%IH]; lia.
Qed.

Lemma zsum_insert {A} (w : A → Z) l i x y : l !! i = Some x → zsum w (<[i := y]> l) = zsum w l - w x + w y.
Proof.
  intros Hi. rewrite insert_take_drop by (by eapply lookup_lt_Some). rewrite <-(take_drop_middle l i x Hi) at 3.
  rewrite !zsum_app. simpl. lia.
Qed.

Definition tables (ts : gmap Z thread) : gmap Z (list vfs_file) := fds <$> ts.

(** The sum of [w] over every slot of every table. *)
Definition fd_sum (w : vfs_file → Z) (T : gmap Z (list vfs_file)) : Z := zsum (λ e, zsum w e.2) (map_to_list T).

Lemma fd_sum_new w T a l : T !! a = None → fd_sum w (<[a := l]> T) = zsum w l + fd_sum w T.
Proof. intros Ha. unfold fd_sum. by rewrite (zsum_perm _ _ _ (map_to_list_insert T a l Ha)). Qed.

Lemma fd_sum_delete w T a l : T !! a = Some l → fd_sum w T = zsum w l + fd_sum w (delete a T).
Proof.
  intros Ha. rewrite <-(insert_delete_id T a l Ha) at 1. apply fd_sum_new. by rewrite lookup_delete_eq.
Qed.

Lemma fd_sum_set w T a l l' : T !! a = Some l → fd_sum w (<[a := l']> T) = fd_sum w T - zsum w l + zsum w l'.
Proof.
  intros Ha. rewrite (fd_sum_delete w T a l Ha). rewrite (fd_sum_delete w (<[a := l']> T) a l') by apply lookup_insert_eq.
  rewrite delete_insert_eq. lia.
Qed.

(** The slots of all tables. *)
Definition slot (T : gmap Z (list vfs_file)) (f : vfs_file) : Prop := ∃ a l, T !! a = Some l ∧ f ∈ l.

Lemma fd_sum_ext w w' T : (∀ f, slot T f → w f = w' f) → fd_sum w T = fd_sum w' T.
Proof.
  intros He. apply zsum_ext. intros [a l] Hin%elem_of_map_to_list. apply zsum_ext. intros f Hf. apply He. by exists a, l.
Qed.

Lemma fd_sum_in w T f : (∀ x, 0 ≤ w x) → slot T f → w f ≤ fd_sum w T.
Proof.
  intros Hw (a & l & Ha & Hf). rewrite (fd_sum_delete w T a l Ha). pose proof (zsum_in w l f Hw Hf).
  assert (0 ≤ fd_sum w (delete a T)); [|lia]. apply zsum_nonneg. intros e. by apply zsum_nonneg.
Qed.

Lemma fd_sum_nonneg w T : (∀ x, 0 ≤ w x) → 0 ≤ fd_sum w T.
Proof. intros Hw. apply zsum_nonneg. intros e. by apply zsum_nonneg. Qed.

Lemma fd_sum_zero w T : (∀ x, 0 ≤ w x) → fd_sum w T = 0 → ∀ f, slot T f → w f = 0.
Proof. intros Hw H0 f Hf. pose proof (fd_sum_in w T f Hw Hf). specialize (Hw f). lia. Qed.

Lemma fd_sum_slot w T a l i f f' :
  T !! a = Some l → l !! i = Some f → fd_sum w (<[a := <[i := f']> l]> T) = fd_sum w T - w f + w f'.
Proof. intros Ha Hi. rewrite (fd_sum_set w T a l) by done. rewrite (zsum_insert w l i f f' Hi). lia. Qed.

(** ** Accounting *)

Definition counts_node (f : vfs_file) : bool :=
  f_used f && (bool_decide (f_kind f = FD_VNODE) || bool_decide (f_kind f = FD_PIPE)).

(** [f] holds a reference to node [n]. *)
Definition on_node (n : nat) (f : vfs_file) : Z := Z.b2z (counts_node f && bool_decide (f_node f = Some n)).

(** [f] is open on an end of type [ty] of pipe [p]. *)
Definition on_end (ns : gmap nat vnode) (ty : vtype) (p : nat) (f : vfs_file) : Z :=
  Z.b2z (f_used f && bool_decide (f_kind f = FD_PIPE) &&
    match f_node f with
    | Some n => match ns !! n with Some v => bool_decide (vn_type v = ty) && bool_decide (vn_priv v = Some p) | None => false end
    | None => false
    end).

Lemma on_node_nonneg n f : 0 ≤ on_node n f.
Proof. unfold on_node. destruct (_ && _); simpl; lia. Qed.
Lemma on_end_nonneg ns ty p f : 0 ≤ on_end ns ty p f.
Proof. unfold on_end. destruct (_ && _); simpl; lia. Qed.

Lemma on_end_none ns f : counts_node f = false → ∀ ty p, on_end ns ty p f = 0.
Proof.
  intros Hc ty p. unfold on_end. unfold counts_node in Hc. destruct (f_used f); [|done]. simpl in Hc.
  apply orb_false_iff in Hc as [_ ->]. done.
Qed.

(** An open descriptor has the node its kind needs. *)
Definition fd_ok (v : vfs) (f : vfs_file) : Prop :=
  f_used f = true →
  match f_kind f with
  | FD_VNODE => ∃ n nd, f_node f = Some n ∧ vf_nodes v !! n = Some nd
  | FD_PIPE => ∃ n nd p q, f_node f = Some n ∧ vf_nodes v !! n = Some nd ∧
      (vn_type nd = VFS_PIPE_R ∨ vn_type nd = VFS_PIPE_W) ∧ vn_priv nd = Some p ∧ vf_pipes v !! p = Some q
  | _ => True
  end.

Definition is_end (ty : vtype) : bool := bool_decide (ty = VFS_PIPE_R) || bool_decide (ty = VFS_PIPE_W).

(** The counts fit their types with [k] to spare. *)
Record room (k : Z) (v : vfs) : Prop := Room {
  rm_refs : ∀ n nd, vf_nodes v !! n = Some nd → vn_refcount nd + k < 2 ^ 32;
  rm_readers : ∀ p q, vf_pipes v !! p = Some q → p_nreaders q + k < 2 ^ 31;
  rm_writers : ∀ p q, vf_pipes v !! p = Some q → p_nwriters q + k < 2 ^ 31 }.

Lemma room_less k j v : room k v → j ≤ k → room j v.
Proof.
  intros [H1 H2 H3] Hj. split; [intros n nd E; specialize (H1 n nd E)|intros p q E; specialize (H2 p q E)|intros p q E; specialize (H3 p q E)]; lia.
Qed.

(** How many references to each node are held by others than descriptors: the
    mounts, the journal, a system call that is under way. *)
Class Others := others : nat → Z.

Definition no_others : Others := λ _, 0.

Section accounting.
Context {oth : Others}.

(** The references of a node are its descriptors and those of others; the end of
    a pipe has no others and is never opened as a file. *)
Record accounted (v : vfs) (T : gmap Z (list vfs_file)) : Prop := Accounted {
  ac_len : ∀ a l, T !! a = Some l → length l = MAX_FD;
  ac_open : ∀ f, slot T f → fd_ok v f;
  ac_refs : ∀ n nd, vf_nodes v !! n = Some nd → vn_refcount nd = fd_sum (on_node n) T + others n;
  ac_end : ∀ n nd, vf_nodes v !! n = Some nd → is_end (vn_type nd) = true → others n = 0;
  ac_others : ∀ n, 0 ≤ others n ∧ (vf_nodes v !! n = None → others n = 0);
  ac_readers : ∀ p q, vf_pipes v !! p = Some q → p_nreaders q = fd_sum (on_end (vf_nodes v) VFS_PIPE_R p) T;
  ac_writers : ∀ p q, vf_pipes v !! p = Some q → p_nwriters q = fd_sum (on_end (vf_nodes v) VFS_PIPE_W p) T;
  ac_mounts : ∀ n nd i, vf_nodes v !! n = Some nd → vn_sb nd = Some i → (i < length (vf_mounts v))%nat;
  ac_room : room 0 v }.

Lemma ac_refs_ge v T n nd : accounted v T → vf_nodes v !! n = Some nd → fd_sum (on_node n) T ≤ vn_refcount nd.
Proof. intros Hac Hn. rewrite (ac_refs _ _ Hac n nd Hn). destruct (ac_others _ _ Hac n). lia. Qed.

(** *** Changing the counts by one descriptor *)

Definition recount (d : Z) (nd : vnode) : vnode := with_refcount (vn_refcount nd + d) nd.
Definition recount_pipe (dr dw : Z) (q : pipe) : pipe :=
  Pipe (p_buf q) (p_cap q) (p_count q) (p_nreaders q + dr) (p_nwriters q + dw) (p_wait_reader q) (p_shared q) (p_dead q).

(** The references of descriptor [f] are added ([d = 1]) or dropped ([d = -1]). *)
Record moved (d : Z) (f : vfs_file) (v v' : vfs) : Prop := Moved {
  mv_nodes : ∀ n, vf_nodes v' !! n = recount (d * on_node n f) <$> vf_nodes v !! n;
  mv_pipes : ∀ p, vf_pipes v' !! p =
    recount_pipe (d * on_end (vf_nodes v) VFS_PIPE_R p f) (d * on_end (vf_nodes v) VFS_PIPE_W p f) <$> vf_pipes v !! p;
  mv_rest : v' = set_pipes (λ _, vf_pipes v') (set_nodes (λ _, vf_nodes v') v) }.

Lemma mv_mounts d f v v' : moved d f v v' → vf_mounts v' = vf_mounts v.
Proof. intros [_ _ ->]. by destruct v. Qed.

Lemma recount_0 nd : recount 0 nd = nd.
Proof. unfold recount. rewrite Z.add_0_r. by destruct nd. Qed.
Lemma recount_pipe_0 q : recount_pipe 0 0 q = q.
Proof. unfold recount_pipe. rewrite !Z.add_0_r. by destruct q. Qed.

Lemma on_end_moved d f v v' ty p g : moved d f v v' → on_end (vf_nodes v') ty p g = on_end (vf_nodes v) ty p g.
Proof.
  intros Hm. unfold on_end. destruct (f_node g) as [n|]; [|done]. rewrite (mv_nodes _ _ _ _ Hm). by destruct (vf_nodes v !! n).
Qed.

Lemma fd_ok_moved d f v v' g : moved d f v v' → fd_ok v g → fd_ok v' g.
Proof.
  intros [Hn Hp _] Hok Hu. specialize (Hok Hu). destruct (f_kind g); try done.
  - destruct Hok as (n & nd & ? & Hnd). exists n. rewrite Hn, Hnd. eexists. by split.
  - destruct Hok as (n & nd & p & q & ? & Hnd & ? & ? & Hq). exists n. rewrite Hn, Hnd. eexists _, p. rewrite Hp, Hq. eexists. by split_and!.
Qed.

Lemma on_node_le n f : on_node n f ≤ 1.
Proof. unfold on_node. destruct (_ && _); simpl; lia. Qed.
Lemma on_end_le ns ty p f : on_end ns ty p f ≤ 1.
Proof. unfold on_end. destruct (_ && _); simpl; lia. Qed.

Lemma room_moved d k f v v' : moved d f v v' → room k v → room (k - Z.max d 0) v'.
Proof.
  intros [Hn Hp _] [H1 H2 H3]. split.
  - intros n nd'. rewrite Hn. destruct (vf_nodes v !! n) as [nd|] eqn:E; [|done]. intros [= <-]. specialize (H1 n nd E). cbn.
    pose proof (on_node_nonneg n f). pose proof (on_node_le n f). nia.
  - intros p q'. rewrite Hp. destruct (vf_pipes v !! p) as [q|] eqn:E; [|done]. intros [= <-]. specialize (H2 p q E). cbn.
    pose proof (on_end_nonneg (vf_nodes v) VFS_PIPE_R p f). pose proof (on_end_le (vf_nodes v) VFS_PIPE_R p f). nia.
  - intros p q'. rewrite Hp. destruct (vf_pipes v !! p) as [q|] eqn:E; [|done]. intros [= <-]. specialize (H3 p q E). cbn.
    pose proof (on_end_nonneg (vf_nodes v) VFS_PIPE_W p f). pose proof (on_end_le (vf_nodes v) VFS_PIPE_W p f). nia.
Qed.

(** The tables changed by the same descriptor. *)
Lemma accounted_moved d f v v' T T' :
  accounted v T → moved d f v v' → room (Z.max d 0) v →
  (∀ w : vfs_file → Z, (∀ g, counts_node g = false → w g = 0) → fd_sum w T' = fd_sum w T + d * w f) →
  (∀ a l, T' !! a = Some l → length l = MAX_FD) → (∀ g, slot T' g → fd_ok v g) → accounted v' T'.
Proof.
  intros Hac Hm Hroom Hsum Hlen Hok. pose proof Hac as [_ _ Hr He Hot Hrd Hwr Hmt _]. pose proof Hm as [Hn Hp _]. pose proof (mv_mounts _ _ _ _ Hm) as Hms.
  assert (∀ n, fd_sum (on_node n) T' = fd_sum (on_node n) T + d * on_node n f) as Hsn.
  { intros n. apply Hsum. intros g Hg. unfold on_node. by rewrite Hg. }
  assert (∀ ty p, fd_sum (on_end (vf_nodes v') ty p) T' = fd_sum (on_end (vf_nodes v) ty p) T + d * on_end (vf_nodes v) ty p f) as Hse.
  { intros ty p. rewrite <-Hsum by (intros g Hg; by apply on_end_none). apply fd_sum_ext. intros g _. by eapply on_end_moved. }
  split; [done|..].
  - intros g Hg. eapply fd_ok_moved; [done|]. by apply Hok.
  - intros n nd'. rewrite Hn, Hsn. destruct (vf_nodes v !! n) as [nd|] eqn:E; [|done]. intros [= <-]. cbn. specialize (Hr n nd E). lia.
  - intros n nd'. rewrite Hn. destruct (vf_nodes v !! n) as [nd|] eqn:E; [|done]. intros [= <-] Hend. by apply (He n nd E).
  - intros n. rewrite Hn. destruct (Hot n) as [? H0]. split; [done|]. destruct (vf_nodes v !! n); [done|]. intros _. by apply H0.
  - intros p q'. rewrite Hp, Hse. destruct (vf_pipes v !! p) as [q|] eqn:E; [|done]. intros [= <-]. cbn. by rewrite (Hrd p q E).
  - intros p q'. rewrite Hp, Hse. destruct (vf_pipes v !! p) as [q|] eqn:E; [|done]. intros [= <-]. cbn. by rewrite (Hwr p q E).
  - intros n nd' i. rewrite Hn, Hms. destruct (vf_nodes v !! n) as [nd|] eqn:E; [|done]. intros [= <-]. cbn. by eapply Hmt.
  - pose proof (room_moved _ _ _ _ _ Hm Hroom) as Hr0. by rewrite Z.sub_diag in Hr0.
Qed.

Lemma accounted_free_node v T n : accounted v T → fd_sum (on_node n) T = 0 → others n = 0 → accounted (set_nodes (delete n) v) T.
Proof.
  intros [Hl Ho Hr He Hot Hrd Hwr Hmt Hrm] H0 Hx.
  assert (∀ g, slot T g → counts_node g = true → f_node g ≠ Some n) as Hnone.
  { intros g Hg Hc Hn. pose proof (fd_sum_zero _ _ (on_node_nonneg n) H0 g Hg) as Hz. unfold on_node in Hz.
    rewrite Hc, bool_decide_true in Hz by done. done. }
  assert (∀ ty p, fd_sum (on_end (delete n (vf_nodes v)) ty p) T = fd_sum (on_end (vf_nodes v) ty p) T) as Hse.
  { intros ty p. apply fd_sum_ext. intros g Hg. unfold on_end. destruct (f_used g) eqn:Hu; [|done]. destruct (bool_decide (f_kind g = FD_PIPE)) eqn:Hk; [|done].
    destruct (f_node g) as [m|] eqn:Hm; [|done]. rewrite lookup_delete_ne; [done|]. intros <-. apply (Hnone g Hg); [|done].
    unfold counts_node. rewrite Hu, Hk. by rewrite orb_true_r. }
  split; [done|..]; cbn [vf_nodes vf_pipes set_nodes vf_mounts].
  - intros g Hg Hu. specialize (Ho g Hg Hu). specialize (Hnone g Hg). unfold counts_node in Hnone. rewrite Hu in Hnone.
    destruct (f_kind g); try done.
    + destruct Ho as (m & nd & Hm & Hnd). exists m, nd. split; [done|]. cbn. rewrite lookup_delete_ne; [done|]. intros <-. by apply Hnone.
    + destruct Ho as (m & nd & p & q & Hm & Hnd & Hrest). exists m, nd, p, q. split; [done|]. cbn. split; [|done].
      rewrite lookup_delete_ne; [done|]. intros <-. by apply Hnone.
  - intros m nd [_ Hnd]%lookup_delete_Some. by apply Hr.
  - intros m nd [_ Hnd]%lookup_delete_Some. by apply He.
  - intros m. destruct (Hot m) as [? Hm]. split; [done|]. intros [<-|Hd]%lookup_delete_None; [done|by apply Hm].
  - intros p q Hq. rewrite Hse. by apply Hrd.
  - intros p q Hq. rewrite Hse. by apply Hwr.
  - intros m nd i [_ Hnd]%lookup_delete_Some. by apply (Hmt m).
  - split; cbn; [|apply Hrm..]. intros m nd [_ Hnd]%lookup_delete_Some. by apply (rm_refs _ _ Hrm m).
Qed.

Lemma accounted_free_pipe v T p q :
  accounted v T → vf_pipes v !! p = Some q → p_nreaders q = 0 → p_nwriters q = 0 → accounted (set_pipes (delete p) v) T.
Proof.
  intros [Hl Ho Hr He Hot Hrd Hwr Hmt Hrm] Hq Hr0 Hw0. rewrite (Hrd p q Hq) in Hr0. rewrite (Hwr p q Hq) in Hw0.
  split; [done|..]; cbn [vf_nodes vf_pipes set_pipes vf_mounts]; try done.
  - intros g Hg Hu. pose proof (Ho g Hg Hu) as Hok. destruct (f_kind g) eqn:Hk; try done.
    destruct Hok as (m & nd & p' & q' & Hm & Hnd & Hty & Hpr & Hq'). exists m, nd, p', q'. split_and!; try done.
    cbn. rewrite lookup_delete_ne; [done|]. intros <-.
    destruct Hty as [Hty|Hty];
      [pose proof (fd_sum_zero _ _ (on_end_nonneg _ _ _) Hr0 g Hg) as Hz|pose proof (fd_sum_zero _ _ (on_end_nonneg _ _ _) Hw0 g Hg) as Hz];
      unfold on_end in Hz; rewrite Hu, Hm, Hnd, !bool_decide_true in Hz; done.
  - intros p' q' [_ Hq']%lookup_delete_Some. by apply Hrd.
  - intros p' q' [_ Hq']%lookup_delete_Some. by apply Hwr.
  - split; cbn; [apply Hrm|..]; intros p' q' [_ Hq']%lookup_delete_Some; by eapply Hrm.
Qed.

Lemma accounted_pipe v T p q q' :
  accounted v T → vf_pipes v !! p = Some q → p_nreaders q' = p_nreaders q → p_nwriters q' = p_nwriters q →
  accounted (set_pipes (insert p q') v) T.
Proof.
  intros [Hl Ho Hr He Hot Hrd Hwr Hmt Hrm] Hq Er Ew. split; [done|..]; cbn [vf_nodes vf_pipes set_pipes vf_mounts]; try done.
  - intros g Hg Hu. pose proof (Ho g Hg Hu) as Hok. destruct (f_kind g) eqn:Hk; try done.
    destruct Hok as (m & nd & p' & q0 & Hm & Hnd & Hty & Hpr & Hq0). destruct (decide (p' = p)) as [->|Hne].
    + exists m, nd, p, q'. split_and!; try done. cbn. by rewrite lookup_insert_eq.
    + exists m, nd, p', q0. split_and!; try done. cbn. by rewrite lookup_insert_ne.
  - intros p' q0 [[<- <-]|[_ Hq0]]%lookup_insert_Some; [by rewrite Er, (Hrd p q)|by apply Hrd].
  - intros p' q0 [[<- <-]|[_ Hq0]]%lookup_insert_Some; [by rewrite Ew, (Hwr p q)|by apply Hwr].
  - split; cbn; [apply Hrm|..]; intros p' q0 [[<- <-]|[_ Hq0]]%lookup_insert_Some; [rewrite Er|..|rewrite Ew|]; by eapply Hrm.
Qed.

(** *** Access rules *)

Lemma wp_vnode_deref v n nd (Q : vnode → vfs → Prop) : vf_nodes v !! n = Some nd → Q nd v → wp (deref n) Q v.
Proof. intros Hn HQ. unfold deref. wp_step. wp_step. rewrite Hn. by wp_step. Qed.

Lemma wp_vnode_update v n nd f (Q : unit → vfs → Prop) :
  vf_nodes v !! n = Some nd → Q tt (set_nodes (insert n (f nd)) v) → wp (update n f) Q v.
Proof. intros Hn HQ. unfold update. wp_step. eapply wp_vnode_deref; [done|]. by wp_step. Qed.

Lemma wp_with_pipe v p q f (Q : unit → vfs → Prop) :
  vf_pipes v !! p = Some q → Q tt (set_pipes (insert p (f q)) v) → wp (with_pipe p f) Q v.
Proof. intros Hp HQ. unfold with_pipe. wp_step. wp_step. rewrite Hp. by wp_step. Qed.

Lemma wp_get_pipe v p q (Q : pipe → vfs → Prop) : vf_pipes v !! p = Some q → Q q v → wp (get_pipe p) Q v.
Proof. intros Hp HQ. unfold get_pipe. wp_step. wp_step. rewrite Hp. by wp_step. Qed.

Lemma on_node_self f n : counts_node f = true → f_node f = Some n → ∀ m, on_node m f = if decide (m = n) then 1 else 0.
Proof.
  intros Hc Hn m. unfold on_node. rewrite Hc, Hn. destruct (decide (m = n)) as [->|Hne].
  - by rewrite bool_decide_true.
  - rewrite bool_decide_false; [done|]. congruence.
Qed.

Lemma on_node_none f : counts_node f = false → ∀ m, on_node m f = 0.
Proof. intros Hc m. unfold on_node. by rewrite Hc. Qed.

Lemma on_end_vnode ns f : f_kind f = FD_VNODE → ∀ ty p, on_end ns ty p f = 0.
Proof. intros Hk ty p. unfold on_end. rewrite Hk. by destruct (f_used f). Qed.

Lemma on_end_self ns f n nd p0 :
  f_used f = true → f_kind f = FD_PIPE → f_node f = Some n → ns !! n = Some nd → vn_priv nd = Some p0 →
  ∀ ty p, on_end ns ty p f = if decide (vn_type nd = ty ∧ p = p0) then 1 else 0.
Proof.
  intros Hu Hk Hn Hnd Hp ty p. unfold on_end. rewrite Hu, Hk, Hn, Hnd, Hp. simpl.
  destruct (decide (vn_type nd = ty)); [rewrite bool_decide_true by done|rewrite bool_decide_false by done]; simpl.
  - destruct (decide (p = p0)) as [->|Hne].
    + rewrite bool_decide_true by done. by rewrite decide_True.
    + rewrite bool_decide_false by congruence. rewrite decide_False by tauto. done.
  - rewrite decide_False by tauto. done.
Qed.

Lemma moved_none d f v : counts_node f = false → moved d f v v.
Proof.
  intros Hc. split; [| |by destruct v].
  - intros n. rewrite on_node_none, Z.mul_0_r by done. destruct (_ !! n); simpl; [by rewrite recount_0|done].
  - intros p. rewrite !on_end_none, !Z.mul_0_r by done. destruct (_ !! p); simpl; [by rewrite recount_pipe_0|done].
Qed.

Lemma moved_vnode d f v n nd :
  f_used f = true → f_kind f = FD_VNODE → f_node f = Some n → vf_nodes v !! n = Some nd →
  moved d f v (set_nodes (insert n (recount d nd)) v).
Proof.
  intros Hu Hk Hn Hnd. assert (counts_node f = true) as Hc by (unfold counts_node; by rewrite Hu, Hk). split; [| |by destruct v]; cbn.
  - intros m. rewrite (on_node_self _ _ Hc Hn). destruct (decide (m = n)) as [->|Hne].
    + rewrite lookup_insert_eq, Hnd, Z.mul_1_r. done.
    + rewrite lookup_insert_ne, Z.mul_0_r by done. destruct (_ !! m); simpl; [by rewrite recount_0|done].
  - intros p. rewrite !on_end_vnode, !Z.mul_0_r by done. destruct (_ !! p); simpl; [by rewrite recount_pipe_0|done].
Qed.

Definition end_counts (d : Z) (ty : vtype) (q : pipe) : pipe :=
  match ty with VFS_PIPE_R => add_readers d q | VFS_PIPE_W => add_writers d q | _ => q end.

Lemma moved_pipe d f v n nd p q :
  f_used f = true → f_kind f = FD_PIPE → f_node f = Some n → vf_nodes v !! n = Some nd →
  vn_type nd = VFS_PIPE_R ∨ vn_type nd = VFS_PIPE_W → vn_priv nd = Some p → vf_pipes v !! p = Some q →
  (vn_type nd = VFS_PIPE_R → 0 ≤ p_nreaders q + d < 2 ^ 31) → (vn_type nd = VFS_PIPE_W → 0 ≤ p_nwriters q + d < 2 ^ 31) →
  moved d f v (set_nodes (insert n (recount d nd)) (set_pipes (insert p (end_counts d (vn_type nd) q)) v)).
Proof.
  intros Hu Hk Hn Hnd Hty Hp Hq HbR HbW. assert (counts_node f = true) as Hc by (unfold counts_node; by rewrite Hu, Hk).
  split; [| |by destruct v]; cbn.
  - intros m. rewrite (on_node_self _ _ Hc Hn). destruct (decide (m = n)) as [->|Hne].
    + rewrite lookup_insert_eq, Hnd, Z.mul_1_r. done.
    + rewrite lookup_insert_ne, Z.mul_0_r by done. destruct (_ !! m); simpl; [by rewrite recount_0|done].
  - intros p'. rewrite !(on_end_self _ _ _ _ _ Hu Hk Hn Hnd Hp). destruct (decide (p' = p)) as [->|Hne].
    + rewrite lookup_insert_eq, Hq. simpl. f_equal.
      destruct Hty as [Ht | Ht]; rewrite Ht in *; simpl; unfold recount_pipe, add_readers, add_writers; f_equal;
        rewrite ?i32_small by auto; repeat case_decide; try naive_solver; lia.
    + rewrite lookup_insert_ne by done. rewrite !decide_False by tauto. rewrite !Z.mul_0_r.
      destruct (_ !! p'); simpl; [by rewrite recount_pipe_0|done].
Qed.

(** Taking the references of a descriptor. *)
Lemma wp_thread_ref_fd v T f (Q : unit → vfs → Prop) :
  fd_ok v f → accounted v T → room 1 v → (∀ v', moved 1 f v v' → Q tt v') → wp (thread_ref_fd f) Q v.
Proof.
  intros Hok Hac Hroom HQ. unfold thread_ref_fd. destruct (f_used f) eqn:Hu.
  2:{ wp_step. apply HQ, moved_none. unfold counts_node. by rewrite Hu. }
  specialize (Hok Hu). destruct (f_kind f) eqn:Hk.
  1,2,3,6: destruct (f_node f); wp_step; apply HQ, moved_none; unfold counts_node; by rewrite Hu, Hk.
  - destruct Hok as (n & nd & Hn & Hnd). rewrite Hn. wp_step. eapply wp_vnode_deref; [done|]. eapply wp_vnode_update; [done|]. apply HQ.
    rewrite u32_small; [by apply moved_vnode|]. pose proof (rm_refs _ _ Hroom n nd Hnd). pose proof (ac_refs_ge _ _ _ _ Hac Hnd).
    pose proof (fd_sum_nonneg (on_node n) T (on_node_nonneg n)). unfold is_u32. lia.
  - destruct Hok as (n & nd & p & q & Hn & Hnd & Hty & Hp & Hq). rewrite Hn. wp_step. eapply wp_vnode_deref; [done|]. rewrite Hp. wp_step.
    assert (wp (count_end (vn_type nd) p 1) (λ _ v', v' = set_pipes (insert p (end_counts 1 (vn_type nd) q)) v) v) as Hce.
    { unfold count_end. destruct Hty as [-> | ->]; by eapply wp_with_pipe. }
    eapply wp_mono; [exact Hce|]. intros [] v1 ->. cbn beta. eapply wp_vnode_update; [done|]. apply HQ.
    pose proof (rm_refs _ _ Hroom n nd Hnd). pose proof (ac_refs_ge _ _ _ _ Hac Hnd). pose proof (fd_sum_nonneg (on_node n) T (on_node_nonneg n)).
    rewrite u32_small by (unfold is_u32; lia). eapply moved_pipe; try done; intros _.
    + rewrite (ac_readers _ _ Hac p q Hq). pose proof (rm_readers _ _ Hroom p q Hq) as Hb. rewrite (ac_readers _ _ Hac p q Hq) in Hb.
      pose proof (fd_sum_nonneg _ T (on_end_nonneg (vf_nodes v) VFS_PIPE_R p)). lia.
    + rewrite (ac_writers _ _ Hac p q Hq). pose proof (rm_writers _ _ Hroom p q Hq) as Hb. rewrite (ac_writers _ _ Hac p q Hq) in Hb.
      pose proof (fd_sum_nonneg _ T (on_end_nonneg (vf_nodes v) VFS_PIPE_W p)). lia.
Qed.

(** *** One slot of one table *)

Lemma slot_set T a l i f g : T !! a = Some l → slot (<[a := <[i := f]> l]> T) g → g = f ∨ slot T g.
Proof.
  intros Ha (b & l' & [[<- <-]|[_ Hb]]%lookup_insert_Some & Hg).
  - apply list_elem_of_lookup in Hg as [j Hj]. apply list_lookup_insert_Some in Hj as [(_ & <- & _)|(_ & Hj)]; [by left|].
    right. exists a, l. split; [done|]. by eapply list_elem_of_lookup_2.
  - right. by exists b, l'.
Qed.

Lemma len_set (T : gmap Z (list vfs_file)) a l i f :
  (∀ b l, T !! b = Some l → length l = MAX_FD) → T !! a = Some l →
  ∀ b l', (<[a := <[i := f]> l]> T) !! b = Some l' → length l' = MAX_FD.
Proof. intros Hl Ha b l' [[<- <-]|[_ Hb]]%lookup_insert_Some; [rewrite length_insert|]; by eapply Hl. Qed.

(** A descriptor is stored in a slot that holds no reference. *)
Lemma accounted_open v v' T a l i f0 f :
  accounted v T → T !! a = Some l → l !! i = Some f0 → counts_node f0 = false → fd_ok v f → room 1 v → moved 1 f v v' →
  accounted v' (<[a := <[i := f]> l]> T).
Proof.
  intros Hac Ha Hi H0 Hok Hroom Hm. eapply accounted_moved; [exact Hac|exact Hm|exact Hroom| |by eapply len_set; [apply Hac|]|].
  - intros w Hw. rewrite (fd_sum_slot w T a l i f0 f Ha Hi), (Hw f0 H0). lia.
  - intros g [->|Hg]%(slot_set T a l); [done|by apply Hac|done].
Qed.

(** A slot is cleared and its references are dropped. *)
Lemma accounted_close v v' T a l i f f' :
  accounted v T → T !! a = Some l → l !! i = Some f → counts_node f' = false → (∀ v, fd_ok v f') → moved (-1) f v v' →
  accounted v' (<[a := <[i := f']> l]> T).
Proof.
  intros Hac Ha Hi H0 Hok Hm. eapply accounted_moved; [exact Hac|exact Hm|apply (ac_room _ _ Hac)| |by eapply len_set; [apply Hac|]|].
  - intros w Hw. rewrite (fd_sum_slot w T a l i f f' Ha Hi), (Hw f' H0). lia.
  - intros g [->|Hg]%(slot_set T a l); [done|by apply Hac|done].
Qed.

Lemma clear_counts f : counts_node (clear_fd f) = false.
Proof. done. Qed.
Lemma clear_ok f v : fd_ok v (clear_fd f).
Proof. by intros ?. Qed.

Lemma refs_pos v T f n nd : accounted v T → slot T f → counts_node f = true → f_node f = Some n → vf_nodes v !! n = Some nd → 0 < vn_refcount nd.
Proof.
  intros Hac Hs Hc Hn Hnd. pose proof (ac_refs_ge _ _ _ _ Hac Hnd). pose proof (fd_sum_in _ _ _ (on_node_nonneg n) Hs) as Hi.
  rewrite (on_node_self _ _ Hc Hn), decide_True in Hi by done. lia.
Qed.

Lemma counted_node v T f n : accounted v T → slot T f → counts_node f = true → f_node f = Some n → is_Some (vf_nodes v !! n).
Proof.
  intros Hac Hf Hc Hn. unfold counts_node in Hc. apply andb_true_iff in Hc as [Hu Hk]. pose proof (ac_open _ _ Hac f Hf Hu) as Hok.
  destruct (f_kind f); try done; [destruct Hok as (m & nd & Hm & ?)|destruct Hok as (m & nd & p & q & Hm & ? & _)]; assert (m = n) as -> by congruence; eauto.
Qed.

Lemma absent_sum v T n : accounted v T → vf_nodes v !! n = None → fd_sum (on_node n) T = 0.
Proof.
  intros Hac Hn. assert (fd_sum (on_node n) T = fd_sum (λ _, 0) T) as ->.
  { apply fd_sum_ext. intros f Hf. unfold on_node. destruct (counts_node f) eqn:Hc; [|done]. rewrite bool_decide_false; [done|]. intros Hfn.
    destruct (counted_node _ _ _ _ Hac Hf Hc Hfn). congruence. }
  unfold fd_sum. induction (map_to_list T) as [|[a l] r IH]; [done|]. simpl. rewrite IH, Z.add_0_r. clear. induction l; simpl; lia.
Qed.

(** From [v] to [v'] the count of every node changed by exactly the descriptors
    that were opened and closed, and only nodes without references went. *)
Definition recounted (v v' : vfs) (T T' : gmap Z (list vfs_file)) : Prop := ∀ n nd, vf_nodes v !! n = Some nd →
  match vf_nodes v' !! n with
  | Some nd' => vn_refcount nd' = vn_refcount nd - fd_sum (on_node n) T + fd_sum (on_node n) T'
  | None => vn_refcount nd = fd_sum (on_node n) T ∧ fd_sum (on_node n) T' = 0
  end.

Lemma accounted_recount v v' T T' : accounted v T → accounted v' T' → recounted v v' T T'.
Proof.
  intros Hac Hac' n nd Hn. rewrite (ac_refs _ _ Hac n nd Hn). destruct (vf_nodes v' !! n) as [nd'|] eqn:Hn'.
  - rewrite (ac_refs _ _ Hac' n nd' Hn'). lia.
  - rewrite (proj2 (ac_others _ _ Hac' n) Hn'), (absent_sum v' T' n) by done. lia.
Qed.

(** *** Closing *)

(** What the file systems other than ramfs do when the last reference of a node
    goes: nothing, or they free the node. *)
Class InodeFree {env : VfsEnv} : Prop := inode_free_local : ∀ ty f n nd v,
  ext_inode_free ty = Some f → vf_nodes v !! n = Some nd →
  wp (f n) (λ _ v', v' = v ∨ v' = set_nodes (delete n) v) v.

(** The thread a pipe remembers is one of [W]. *)
Definition waiters (v : vfs) (W : list Z) : Prop :=
  ∀ p q, vf_pipes v !! p = Some q → p_wait_reader q = 0 ∨ p_wait_reader q ∈ W.

Definition present (ts : gmap Z thread) (W : list Z) : Prop := ∀ a, a ∈ W → is_Some (ts !! a).

Lemma present_insert ts W a t : present ts W → present (<[a := t]> ts) W.
Proof. intros Hp b Hb. destruct (decide (b = a)) as [->|]; [rewrite lookup_insert_eq|rewrite lookup_insert_ne by done]; eauto. Qed.

Lemma present_quiet s s' W : quiet s s' → present (threads s) W → present (threads s') W.
Proof. intros Hq Hp b Hb. destruct (Hp b Hb) as [t Ht]. destruct (qu_threads _ _ Hq) as [H1 _]. destruct (H1 b t Ht) as (t' & -> & _). eauto. Qed.

Lemma waiters_moved d f v v' W : moved d f v v' → waiters v W → waiters v' W.
Proof.
  intros Hm Hw p q'. rewrite (mv_pipes _ _ _ _ Hm). destruct (vf_pipes v !! p) as [q|] eqn:E; [|done]. intros [= <-]. cbn. by eapply Hw.
Qed.

(** A node without references may go. *)
Lemma accounted_drop v T n nd : accounted v T → vf_nodes v !! n = Some nd → vn_refcount nd = 0 → accounted (set_nodes (delete n) v) T.
Proof.
  intros Hac Hnd H0. pose proof (ac_refs _ _ Hac n nd Hnd). pose proof (fd_sum_nonneg (on_node n) T (on_node_nonneg n)).
  destruct (ac_others _ _ Hac n). apply accounted_free_node; [done|lia|lia].
Qed.

(** No count grew. *)
Definition shrinks (v v' : vfs) : Prop := ∀ k, room k v → room k v'.

Lemma shrinks_moved f v v' : moved (-1) f v v' → shrinks v v'.
Proof. intros Hm k Hr. pose proof (room_moved _ _ _ _ _ Hm Hr) as H. by rewrite Z.sub_0_r in H. Qed.

Lemma shrinks_free_node v n : shrinks v (set_nodes (delete n) v).
Proof. intros k [H1 H2 H3]. split; cbn; [|done..]. intros m nd [_ Hm]%lookup_delete_Some. by apply (H1 m). Qed.

Lemma shrinks_free_pipe v p : shrinks v (set_pipes (delete p) v).
Proof. intros k [H1 H2 H3]. split; cbn; [done|..]; intros q x [_ Hx]%lookup_delete_Some; [by apply (H2 q)|by apply (H3 q)]. Qed.

Lemma shrinks_pipe v p q q' :
  vf_pipes v !! p = Some q → p_nreaders q' = p_nreaders q → p_nwriters q' = p_nwriters q → shrinks v (set_pipes (insert p q') v).
Proof.
  intros Hq Er Ew k [H1 H2 H3]. split; cbn; [done|..]; intros r x [[<- <-]|[_ Hx]]%lookup_insert_Some;
    [rewrite Er; by apply (H2 p)|by apply (H2 r)|rewrite Ew; by apply (H3 p)|by apply (H3 r)].
Qed.

Section closing.
Context {env : VfsEnv} {free_local : InodeFree}.

Lemma wp_vfs_release v T T' n nd f (Q : unit → vfs → Prop) :
  f_used f = true → f_kind f = FD_VNODE → f_node f = Some n → vf_nodes v !! n = Some nd → 0 < vn_refcount nd → accounted v T →
  (∀ v', moved (-1) f v v' → accounted v' T') →
  (∀ v', accounted v' T' → (vf_pipes v' = vf_pipes v) → shrinks v v' → Q tt v') → wp (vfs_release (Some n)) Q v.
Proof.
  intros Hu Hk Hn Hnd Hpos Hac Hmv HQ. unfold vfs_release. wp_step. eapply wp_vnode_deref; [done|].
  rewrite (proj2 (Z.ltb_lt 0 _)) by done. wp_step. eapply wp_vnode_update; [done|].
  pose proof (moved_vnode (-1) f v n nd Hu Hk Hn Hnd) as Hm.
  assert (with_refcount (vn_refcount nd - 1) nd = recount (-1) nd) as -> by done. specialize (Hmv _ Hm).
  set (v1 := set_nodes _ v) in *. assert (vf_pipes v1 = vf_pipes v) as Hp1 by done. pose proof (shrinks_moved _ _ _ Hm) as Hs1.
  destruct (Z.eqb_spec (vn_refcount nd - 1) 0) as [Hz|Hz].
  2:{ wp_step. by apply HQ. }
  assert (vf_nodes v1 !! n = Some (recount (-1) nd)) as Hn1 by (unfold v1; cbn; by rewrite lookup_insert_eq).
  destruct (vn_sb nd) as [i|] eqn:Hsb; [|wp_step; by apply HQ].
  wp_step. unfold super. wp_step. wp_step. pose proof (ac_mounts _ _ Hac n nd i Hnd Hsb) as Hlt.
  destruct (lookup_lt_is_Some_2 (vf_mounts v) i Hlt) as [sb Hi]. eapply wp_load; [lia| |].
  { change (vf_mounts v1) with (vf_mounts v). by rewrite Nat2Z.id. }
  unfold op_inode_free. assert (wp (mret tt : M vfs unit) Q v1) as Hskip by (wp_step; by apply HQ).
  assert (∀ ty, wp (match ext_inode_free ty with Some f => f n | None => mret tt end) Q v1) as Hext.
  { intros ty. destruct (ext_inode_free ty) as [g|] eqn:Hg; [|done].
    eapply wp_mono; [eapply free_local; [exact Hg|exact Hn1]|]. intros [] v2 [-> | ->]; [by apply HQ|].
    apply HQ; [|done|intros j Hj; by apply shrinks_free_node, Hs1]. eapply accounted_drop; [done|exact Hn1|]. cbn. lia. }
  destruct (sb_ops sb); first [exact Hskip|apply Hext].
Qed.

(** Only the file side of the state and who is blocked may have changed. *)
Record settled (s : sched) (W : list Z) (T' : gmap Z (list vfs_file)) (s' : sched) : Prop := Settled {
  sl_quiet : quiet s s';
  sl_tables : tables (threads s') = tables (threads s);
  sl_acc : accounted (sc_vfs s') T';
  sl_wait : waiters (sc_vfs s') W;
  sl_room : shrinks (sc_vfs s) (sc_vfs s') }.

Lemma calm_files g t : calm t (set_files g t).
Proof. exists (g (t_files t)), (t_state t), (t_quantum t), (t_sleep_deadline_ns t). split; [by destruct t|by left]. Qed.

Lemma tables_insert ts a t t' : ts !! a = Some t → fds t' = fds t → tables (<[a := t']> ts) = tables ts.
Proof.
  intros Ha Hf. unfold tables. rewrite fmap_insert, Hf. apply insert_id. by rewrite lookup_fmap, Ha.
Qed.

Lemma wp_settle_pipe s W T' p q (Q : unit → sched → Prop) :
  accounted (sc_vfs s) T' → waiters (sc_vfs s) W → present (threads s) W → vf_pipes (sc_vfs s) !! p = Some q →
  (∀ s', settled s W T' s' → Q tt s') → wp (settle_pipe p) Q s.
Proof.
  intros Hac Hw Hpr Hq HQ. unfold settle_pipe. wp_step. apply wp_zoom. eapply wp_get_pipe; [done|].
  replace (put_vfs (sc_vfs s) s) with s by (by destruct s).
  assert (∀ v', accounted v' T' → waiters v' W → shrinks (sc_vfs s) v' → settled s W T' (put_vfs v' s)) as Hput.
  { intros v' H1 H2 H3. split; [apply quiet_vfs|done|done|done|done]. }
  assert (wp (mret tt : M sched unit) Q s) as Hskip.
  { wp_step. apply HQ. replace s with (put_vfs (sc_vfs s) s) at 2 by (by destruct s). apply Hput; [done|done|by intros k]. }
  assert (p_nreaders q = 0 → p_nwriters q = 0 → wp (on_vfs (modify (set_pipes (delete p)))) Q s) as Hdel.
  { intros H1 H2. apply wp_zoom. wp_step. apply HQ, Hput; [by eapply accounted_free_pipe| |apply shrinks_free_pipe].
    intros p' q'. cbn. intros [_ Hq']%lookup_delete_Some. by eapply Hw. }
  destruct ((p_nreaders q =? 0) && (p_nwriters q =? 0)) eqn:Hidle.
  - apply andb_true_iff in Hidle as [H1%Z.eqb_eq H2%Z.eqb_eq]. destruct (p_shared q); [|by apply Hdel]. destruct (p_dead q); [by apply Hdel|done].
  - destruct (p_shared q); [by destruct (p_dead q)|]. destruct (Z.eqb_spec (p_wait_reader q) 0) as [Hz|Hz]; cbn [negb]; [done|].
    destruct (Hw p q Hq) as [?|[t Ht]%Hpr]; [done|]. unfold sched_wake. rewrite (proj2 (Z.eqb_neq _ _)) by done. wp_step. wp_step. eapply wp_thr; [done|].
    assert (accounted (set_pipes (insert p (no_waiter q)) (sc_vfs s)) T') as Hac' by (by eapply accounted_pipe).
    assert (waiters (set_pipes (insert p (no_waiter q)) (sc_vfs s)) W) as Hw'.
    { intros p' q'. cbn. intros [[<- <-]|[_ Hq']]%lookup_insert_Some; [by left|by eapply Hw]. }
    destruct (bool_decide (t_state t = THREAD_BLOCKED)) eqn:Hb.
    + apply bool_decide_eq_true in Hb. eapply wp_upd; [done|]. apply wp_zoom. eapply wp_with_pipe; [done|]. apply HQ. split.
      * eapply quiet_trans; [|apply quiet_vfs]. eapply quiet_upd; [done|]. by apply calm_wake.
      * cbn. by eapply tables_insert.
      * done.
      * done.
      * by eapply shrinks_pipe.
    + wp_step. apply wp_zoom. eapply wp_with_pipe; [done|]. apply HQ, Hput; [done|done|by eapply shrinks_pipe].
Qed.

Lemma wp_close_pipe_end s W T T' f n (Q : unit → sched → Prop) :
  f_used f = true → f_kind f = FD_PIPE → f_node f = Some n → slot T f → accounted (sc_vfs s) T → waiters (sc_vfs s) W → present (threads s) W →
  (∀ v', moved (-1) f (sc_vfs s) v' → accounted v' T') →
  (∀ s', settled s W T' s' → Q tt s') → wp (close_pipe_end n) Q s.
Proof.
  intros Hu Hk Hn Hs Hac Hw Hpr Hmv HQ. pose proof (ac_open _ _ Hac f Hs Hu) as Hok. rewrite Hk in Hok.
  destruct Hok as (n' & nd & p & q & Hn' & Hnd & Hty & Hp & Hq). assert (n' = n) as -> by congruence.
  assert (0 < vn_refcount nd) as Hpos by (eapply refs_pos; [done|exact Hs|unfold counts_node; by rewrite Hu, Hk|done|done]).
  unfold close_pipe_end. wp_step. apply wp_zoom. eapply wp_vnode_deref; [done|]. rewrite Hp.
  replace (put_vfs (sc_vfs s) s) with s by (by destruct s).
  set (v1 := set_pipes (insert p (end_counts (-1) (vn_type nd) q)) (sc_vfs s)).
  assert (wp (on_vfs (count_end (vn_type nd) p (-1))) (λ _ s', s' = put_vfs v1 s) s) as Hce.
  { apply wp_zoom. unfold count_end, v1. destruct Hty as [-> | ->]; by eapply wp_with_pipe. }
  wp_step. eapply wp_mono; [exact Hce|]. intros [] s1 ->. cbn beta. rewrite (proj2 (Z.ltb_lt 0 _)) by done.
  wp_step. apply wp_zoom. eapply wp_vnode_update; [done|]. cbn [sc_vfs put_vfs].
  assert (with_refcount (vn_refcount nd - 1) nd = recount (-1) nd) as -> by done.
  set (v2 := set_nodes _ v1). change (put_vfs v2 (put_vfs v1 s)) with (put_vfs v2 s).
  assert (moved (-1) f (sc_vfs s) v2) as Hm.
  { pose proof (fun ty => on_end_self (vf_nodes (sc_vfs s)) f n nd p Hu Hk Hn Hnd Hp ty p) as Hone.
    eapply moved_pipe; try done; intros Ht; specialize (Hone (vn_type nd)); rewrite decide_True in Hone by done; rewrite Ht in Hone.
    - pose proof (rm_readers _ _ (ac_room _ _ Hac) p q Hq). pose proof (fd_sum_in _ T f (on_end_nonneg (vf_nodes (sc_vfs s)) VFS_PIPE_R p) Hs).
      rewrite (ac_readers _ _ Hac p q Hq) in *. lia.
    - pose proof (rm_writers _ _ (ac_room _ _ Hac) p q Hq). pose proof (fd_sum_in _ T f (on_end_nonneg (vf_nodes (sc_vfs s)) VFS_PIPE_W p) Hs).
      rewrite (ac_writers _ _ Hac p q Hq) in *. lia. }
  pose proof (Hmv _ Hm) as Hac2. pose proof (waiters_moved _ _ _ _ _ Hm Hw) as Hw2.
  assert (∀ v3, accounted v3 T' → waiters v3 W → vf_pipes v3 = vf_pipes v2 → shrinks v2 v3 → wp (settle_pipe p) Q (put_vfs v3 s)) as Hgo.
  { intros v3 Hac3 Hw3 Hp3 Hs3. eapply wp_settle_pipe; [exact Hac3|exact Hw3|exact Hpr| |].
    - cbn. rewrite Hp3. unfold v2, v1. cbn. by rewrite lookup_insert_eq.
    - intros s' [Hqu Ht Ha Hwt Hsh]. apply HQ. split; [|done..|]; [eapply quiet_trans; [apply quiet_vfs|exact Hqu]|].
      intros j Hj. by apply Hsh, Hs3, (shrinks_moved _ _ _ Hm). }
  destruct (Z.eqb_spec (vn_refcount nd - 1) 0) as [Hz|Hz].
  - wp_step. apply wp_zoom. unfold kfree_node. wp_step. assert (vf_nodes v2 !! n = Some (recount (-1) nd)) as Hn2 by (unfold v2; cbn; by rewrite lookup_insert_eq).
    eapply wp_vnode_deref; [exact Hn2|]. wp_step. apply Hgo; [|done|done|apply shrinks_free_node]. eapply accounted_drop; [done|exact Hn2|]. cbn. lia.
  - wp_step. wp_step. apply Hgo; [done|done|done|by intros k].
Qed.

(** Dropping what an open descriptor holds: [T'] is [T] without it. *)
Lemma wp_close_fd s W T T' f (Q : unit → sched → Prop) :
  f_used f = true → slot T f → accounted (sc_vfs s) T → waiters (sc_vfs s) W → present (threads s) W →
  (∀ v', moved (-1) f (sc_vfs s) v' → accounted v' T') →
  (∀ s', settled s W T' s' → Q tt s') → wp (close_fd f) Q s.
Proof.
  intros Hu Hs Hac Hw Hpr Hmv HQ.
  assert (counts_node f = false → wp (mret tt : M sched unit) Q s) as Hskip.
  { intros Hc. wp_step. apply HQ. split; [apply quiet_refl|done| |done|by intros k]. by apply Hmv, moved_none. }
  pose proof (ac_open _ _ Hac f Hs Hu) as Hok. unfold close_fd, counts_node in *. rewrite Hu in Hskip. destruct (f_kind f) eqn:Hk;
    try (destruct (f_node f); by apply Hskip).
  - destruct Hok as (n & nd & Hn & Hnd). rewrite Hn. apply wp_zoom. eapply wp_vfs_release; [done|done|done|done| |done|done|].
    { eapply refs_pos; [done|exact Hs|unfold counts_node; by rewrite Hu, Hk|done|done]. }
    intros v' Hac' Hp' Hsh. apply HQ. split; [apply quiet_vfs|done|done| |done]. intros p q. cbn. rewrite Hp'. by apply Hw.
  - destruct Hok as (n & nd & p & q & Hn & _). rewrite Hn. by eapply wp_close_pipe_end.
Qed.

(** [thread_close_fds] drops every descriptor of the thread. *)
Lemma wp_thread_close_fds s W a l (Q : unit → sched → Prop) :
  tables (threads s) !! a = Some l → accounted (sc_vfs s) (tables (threads s)) → waiters (sc_vfs s) W → present (threads s) W →
  (∀ s', quiet s s' → waiters (sc_vfs s') W → accounted (sc_vfs s') (tables (threads s')) →
     (∃ l', tables (threads s') = <[a := l']> (tables (threads s)) ∧ ∀ f, f ∈ l' → f_used f = false) → Q tt s') →
  wp (thread_close_fds a) Q s.
Proof.
  intros Ha Hac Hw Hpr HQ. unfold thread_close_fds. pose proof (ac_len _ _ Hac a l Ha) as Hlen.
  apply (wp_for_up (λ k s', quiet s s' ∧ waiters (sc_vfs s') W ∧ accounted (sc_vfs s') (tables (threads s')) ∧
    ∃ l', tables (threads s') = <[a := l']> (tables (threads s)) ∧ length l' = MAX_FD ∧
      ∀ i f, l' !! i = Some f → Z.of_nat i < k → f_used f = false)).
  - split_and!; [apply quiet_refl|done|done|]. exists l. split_and!; [by rewrite insert_id|done|]. intros i f _. lia.
  - intros k s' Hk (Hqu & Hw' & Hac' & l' & Ht' & Hl' & Hun). rewrite Z.add_0_l in Hk.
    assert (tables (threads s') !! a = Some l') as Hta by (by rewrite Ht', lookup_insert_eq).
    unfold tables in Hta. rewrite lookup_fmap in Hta. destruct (threads s' !! a) as [t|] eqn:Hta'; [|done]. injection Hta as Hfd.
    wp_step. eapply wp_thr; [done|]. destruct (lookup_lt_is_Some_2 l' (Z.to_nat k)) as [f Hf]; [unfold MAX_FD in *; lia|].
    wp_step. eapply wp_load; [lia|by rewrite Hfd|].
    destruct (f_used f) eqn:Hu; cbn [negb].
    2:{ wp_step. split_and!; [done|done|done|]. exists l'. split_and!; [done|done|]. intros i g Hi Hlt.
        destruct (decide (i = Z.to_nat k)) as [->|]; [congruence|]. apply (Hun i g Hi). lia. }
    set (T' := <[a := <[Z.to_nat k := clear_fd f]> l']> (tables (threads s'))).
    assert (tables (threads s') !! a = Some l') as Hta by (by rewrite Ht', lookup_insert_eq).
    wp_step. eapply (wp_close_fd s' W (tables (threads s')) T' f); [done| |done|done|by eapply present_quiet| |].
    { exists a, l'. split; [done|]. by eapply list_elem_of_lookup_2. }
    { intros v' Hmv. by eapply accounted_close. }
    intros s2 [Hqu2 Ht2 Hac2 Hw2 _].
    assert (∃ t2, threads s2 !! a = Some t2 ∧ fds t2 = l') as (t2 & Ht2a & Hf2).
    { rewrite <-Ht2 in Hta. unfold tables in Hta. rewrite lookup_fmap in Hta. destruct (threads s2 !! a) as [t2|]; [|done].
      injection Hta as E. eauto. }
    assert (tables (<[a := set_fd (Z.to_nat k) (clear_fd f) t2]> (threads s2)) = T') as HT.
    { unfold T', tables. rewrite fmap_insert. fold (tables (threads s2)). rewrite Ht2. unfold fds, set_fd in *. cbn. by rewrite Hf2. }
    eapply wp_upd; [done|]. split_and!; cbn [threads sc_vfs set_threads].
    + eapply quiet_trans; [done|]. eapply quiet_trans; [done|]. eapply quiet_upd; [done|]. apply calm_files.
    + done.
    + by rewrite HT.
    + rewrite HT. exists (<[Z.to_nat k := clear_fd f]> l'). split_and!; [unfold T'; by rewrite Ht', insert_insert_eq|by rewrite length_insert|].
      intros i g Hi Hlt. apply list_lookup_insert_Some in Hi as [(_ & <- & _)|(Hne & Hi)]; [done|]. apply (Hun i g Hi). lia.
  - intros s' (Hqu & Hw' & Hac' & l' & Ht' & Hl' & Hun). apply HQ; [done|done|done|]. exists l'. split; [done|].
    intros f Hf. apply list_elem_of_lookup in Hf as [i Hi]. apply (Hun i f Hi). apply lookup_lt_Some in Hi. unfold MAX_FD in *. lia.
Qed.
End closing.

(** ** Inheriting *)

(** Only the files of thread [t] and the file side of the state changed. *)
Record refiled (t : Z) (t0 : thread) (s s' : sched) : Prop := Refiled {
  rf_thread : ∃ fl, threads s' = <[t := set_files (λ _, fl) t0]> (threads s);
  rf_rest : s' = put_vfs (sc_vfs s') (set_threads (λ _, threads s') s) }.

Lemma refiled_again t t0 s s1 g v :
  refiled t t0 s s1 → ∀ t1, threads s1 !! t = Some t1 →
  refiled t t0 s (put_vfs v (set_threads (insert t (set_files g t1)) s1)).
Proof.
  intros [[fl Ht] Hr] t1 Ht1. rewrite Ht, lookup_insert_eq in Ht1. injection Ht1 as <-. split.
  - exists (g fl). cbn. rewrite Ht, insert_insert_eq. by destruct t0.
  - rewrite Hr. by destruct s.
Qed.

Lemma wp_thread_inherit s W t parent t0 pt (Q : unit → sched → Prop) :
  parent ≠ 0 → t ≠ parent → threads s !! t = Some t0 → threads s !! parent = Some pt → length (fds t0) = MAX_FD →
  (∀ f, f ∈ fds t0 → f_used f = false) → accounted (sc_vfs s) (tables (threads s)) → room (Z.of_nat MAX_FD) (sc_vfs s) → waiters (sc_vfs s) W →
  (∀ s', refiled t t0 s s' → accounted (sc_vfs s') (tables (threads s')) → waiters (sc_vfs s') W →
     tables (threads s') = <[t := fds pt]> (tables (threads s)) → Q tt s') →
  wp (thread_inherit_vfs t parent) Q s.
Proof.
  intros Hp0 Hne Ht Hp Hlen Hun Hac Hroom Hw HQ. unfold thread_inherit_vfs. rewrite (proj2 (Z.eqb_neq parent 0)) by done.
  assert (length (fds pt) = MAX_FD) as Hlp.
  { apply (ac_len _ _ Hac parent). unfold tables. by rewrite lookup_fmap, Hp. }
  set (upto k := take k (fds pt) ++ drop k (fds t0)).
  assert (∀ k, length (upto k) = MAX_FD) as Hlu.
  { intros k. unfold upto. rewrite length_app, length_take, length_drop. unfold MAX_FD in *. lia. }
  assert (∀ s1, refiled t t0 s s1 → threads s1 !! parent = Some pt) as Hpar.
  { intros s1 [[fl E] _]. by rewrite E, lookup_insert_ne. }
  wp_step. apply (wp_for_up (λ k s', refiled t t0 s s' ∧ accounted (sc_vfs s') (tables (threads s')) ∧ waiters (sc_vfs s') W ∧
     room (Z.of_nat MAX_FD - k) (sc_vfs s') ∧ tables (threads s') = <[t := upto (Z.to_nat k)]> (tables (threads s)))).
  - split_and!; [|done|done|by rewrite Z.sub_0_r|].
    + split; [exists (t_files t0)|by destruct s]. rewrite insert_id; [done|]. rewrite Ht. by destruct t0.
    + unfold upto. simpl. rewrite drop_0, insert_id; [done|]. unfold tables. by rewrite lookup_fmap, Ht.
  - intros k s' Hk (Hrf & Hac' & Hw' & Hroom' & Ht'). rewrite Z.add_0_l in Hk. pose proof (Hpar _ Hrf) as Hp'. pose proof Hrf as [[fl E] _].
    wp_step. eapply wp_thr; [done|]. destruct (lookup_lt_is_Some_2 (fds pt) (Z.to_nat k)) as [f Hf]; [unfold MAX_FD in *; lia|].
    wp_step. eapply wp_load; [lia|done|]. wp_step. eapply wp_upd; [by rewrite E, lookup_insert_eq|].
    set (t1 := set_files (λ _, fl) t0) in *. assert (threads s' !! t = Some t1) as Ht1 by (by rewrite E, lookup_insert_eq).
    apply wp_zoom. cbn [sc_vfs set_threads]. assert (room 1 (sc_vfs s')) as Hr1 by (eapply room_less; [exact Hroom'|unfold MAX_FD in *; lia]).
    eapply wp_thread_ref_fd; [|exact Hac'|exact Hr1|].
    { apply (ac_open _ _ Hac'). exists parent, (fds pt). split; [unfold tables; by rewrite lookup_fmap, Hp'|by eapply list_elem_of_lookup_2]. }
    intros v' Hmv.
    assert (tables (threads s') !! t = Some (upto (Z.to_nat k))) as Htt by (by rewrite Ht', lookup_insert_eq).
    assert (fds t1 = upto (Z.to_nat k)) as Hf1. { unfold tables in Htt. rewrite lookup_fmap, Ht1 in Htt. by injection Htt. }
    destruct (lookup_lt_is_Some_2 (fds t0) (Z.to_nat k)) as [f0 Hf0]; [unfold MAX_FD in *; lia|].
    assert (upto (Z.to_nat k) !! Z.to_nat k = Some f0) as Hk0.
    { unfold upto. rewrite lookup_app_r by (rewrite length_take; unfold MAX_FD in *; lia). rewrite lookup_drop, length_take, <-Hf0.
      f_equal. unfold MAX_FD in *. lia. }
    assert (<[Z.to_nat k := f]> (upto (Z.to_nat k)) = upto (Z.to_nat (k + 1))) as Hstep.
    { unfold upto. replace (Z.to_nat (k + 1)) with (S (Z.to_nat k)) by lia. rewrite (take_S_r _ _ f Hf), (drop_S _ f0 (Z.to_nat k) Hf0).
      replace (Z.to_nat k) with (length (take (Z.to_nat k) (fds pt)) + 0)%nat at 1 by (rewrite length_take; unfold MAX_FD in *; lia).
      rewrite insert_app_r. simpl. by rewrite <-app_assoc. }
    assert (tables (<[t := set_fd (Z.to_nat k) f t1]> (threads s')) = <[t := upto (Z.to_nat (k + 1))]> (tables (threads s))) as HT.
    { unfold tables. rewrite fmap_insert. fold (tables (threads s')). rewrite Ht'. rewrite insert_insert_eq. f_equal.
      rewrite <-Hstep, <-Hf1. done. }
    split_and!; cbn [threads sc_vfs put_vfs set_threads].
    + by apply refiled_again.
    + rewrite HT. replace (<[t := _]> (tables (threads s))) with (<[t := <[Z.to_nat k := f]> (upto (Z.to_nat k))]> (tables (threads s'))).
      2:{ by rewrite Ht', insert_insert_eq, Hstep. }
      eapply accounted_open; [done|done|done| | |exact Hr1|done].
      * unfold counts_node. rewrite Hun; [done|]. by eapply list_elem_of_lookup_2.
      * apply (ac_open _ _ Hac'). exists parent, (fds pt). split; [unfold tables; by rewrite lookup_fmap, Hp'|by eapply list_elem_of_lookup_2].
    + by eapply waiters_moved.
    + pose proof (room_moved _ _ _ _ _ Hmv Hroom') as Hr2. by replace (Z.of_nat MAX_FD - (k + 1)) with (Z.of_nat MAX_FD - k - Z.max 1 0) by lia.
    + done.
  - intros s' (Hrf & Hac' & Hw' & _ & Ht'). cbn beta. wp_step. eapply wp_thr; [by apply Hpar|]. pose proof Hrf as [[fl E] _].
    assert (threads s' !! t = Some (set_files (λ _, fl) t0)) as Ht1 by (by rewrite E, lookup_insert_eq). eapply wp_upd; [done|].
    assert (upto (Z.to_nat (0 + Z.of_nat MAX_FD)) = fds pt) as Hall.
    { unfold upto. rewrite take_ge, drop_ge, app_nil_r; [done|unfold MAX_FD in *; lia..]. }
    match goal with |- Q tt (set_threads (insert t ?x) s') => set (t2 := x) end.
    assert (tables (<[t := t2]> (threads s')) = tables (threads s')) as HT by (by eapply tables_insert).
    apply HQ; cbn [threads sc_vfs set_threads].
    + pose proof (refiled_again t t0 s s' (λ x, Files (fs_fds x) (copy_string 255 (cut0 (fs_cwd (t_files pt))) (fs_cwd x))) (sc_vfs s') Hrf _ Ht1) as Hrf'.
      by destruct s'.
    + by rewrite HT.
    + done.
    + by rewrite HT, Ht', Hall.
Qed.
End accounting.
