(* ===== verification/SchedSpawn.v ===== *)
(** * SchedSpawn: starting threads and waiting for them

    The operations of sched.c that add a thread to the run queue or take a
    zombie out of the system, and the theorems on whole runs of the
    scheduler. *)

From Stdlib Require Import String.
From S2P Require Import Prelude BootMap Pmm Mmu Reclaim CString Security VfsPath Vfs Sched SchedQueue Fds.

#[local] Arguments for_up : simpl never.

(** ** New threads *)

(** A thread that is in no list joins the run queue. *)
Lemma wp_link_ready s l n tn (Q : unit → sched → Prop) :
  ready_head s = main_thread → seg (threads s) main_thread l main_thread → n ∉ main_thread :: l → threads s !! n = Some tn →
  (∀ s', s' = set_threads (λ _, threads s') s →
     (∀ a t, threads s !! a = Some t → ∃ t', threads s' !! a = Some t' ∧
        t' = set_tprev (if decide (a = n) then before main_thread l else if decide (a = main_thread) then n else t_prev t)
              (set_tnext (if decide (a = n) then main_thread else if decide (a = before main_thread l) then n else t_next t) t)) →
     (∀ a, is_Some (threads s' !! a) → is_Some (threads s !! a)) → Q tt s') →
  wp (link_ready n) Q s.
Proof.
  intros Hh Hs Hn Htn HQ. destruct (seg_in _ _ _ _ main_thread Hs) as [m Hm]; [by left|].
  destruct (seg_in _ _ _ _ _ Hs (before_in main_thread l)) as [b Hb].
  pose proof (seg_end _ _ _ _ Hs) as [_ (m' & Hm' & Hmp)]. simplify_eq.
  rewrite not_elem_of_cons in Hn. destruct Hn as [Hnm Hnl].
  assert (n ≠ before main_thread l) as Hnb. { intros E. pose proof (before_in main_thread l) as Hin. rewrite <-E in Hin. apply elem_of_cons in Hin as [?|?]; done. }
  unfold link_ready. wp_step. wp_step. rewrite Hh. change (main_thread =? 0) with false. cbn iota.
  wp_step. eapply wp_upd; [exact Htn|]. wp_step. eapply wp_thr; [cbn; by rewrite lookup_insert_ne by done|].
  wp_step. eapply wp_upd; [cbn; by rewrite lookup_insert_eq|]. rewrite Hmp.
  wp_step. eapply wp_upd; [cbn; rewrite !lookup_insert_ne by done; exact Hb|].
  assert (∃ m2, threads (set_threads (insert (before main_thread l) (set_tnext n b)) (set_threads (insert n (set_tprev (before main_thread l) (set_tnext main_thread tn)))
    (set_threads (insert n (set_tnext main_thread tn)) s))) !! main_thread = Some m2 ∧ m2 = (if decide (main_thread = before main_thread l) then set_tnext n m else m)) as (m2 & Hm2 & Em2).
  { cbn. destruct (decide (main_thread = before main_thread l)) as [E|E].
    - rewrite <-E in Hb |- *. rewrite lookup_insert_eq. simplify_eq. eauto.
    - rewrite !lookup_insert_ne by done. eauto. }
  eapply wp_upd; [exact Hm2|]. apply HQ; [done| |].
  - intros a t Ht. cbn. destruct (decide (a = main_thread)) as [->|Ham].
    + rewrite lookup_insert_eq. eexists. split; [done|]. assert (t = m) as -> by congruence. rewrite !(decide_False (P := main_thread = n)) by done.
      subst m2. by case_decide; destruct m.
    + rewrite lookup_insert_ne by done. destruct (decide (a = n)) as [->|Han].
      * rewrite lookup_insert_ne, lookup_insert_eq by done. assert (t = tn) as -> by congruence. eauto.
      * destruct (decide (a = before main_thread l)) as [->|Hab].
        -- rewrite lookup_insert_eq. assert (t = b) as -> by congruence. eexists. split; [done|]. by destruct b.
        -- rewrite !lookup_insert_ne by done. exists t. split; [done|]. by destruct t.
  - intros a. cbn. rewrite !lookup_insert. repeat case_decide; subst; eauto.
Qed.

(** The queue with a new thread at its end.  [s2] is the state in which the new
    thread [tn] is ready but not linked. *)
Lemma queue_join s s2 s' l zs run n tn :
  queue s l zs run → n = sc_fresh s → threads s2 = <[n := tn]> (threads s) → t_state tn = THREAD_READY →
  (∀ a t, threads s2 !! a = Some t → ∃ t', threads s' !! a = Some t' ∧
     t' = set_tprev (if decide (a = n) then before main_thread l else if decide (a = main_thread) then n else t_prev t)
           (set_tnext (if decide (a = n) then main_thread else if decide (a = before main_thread l) then n else t_next t) t)) →
  (∀ a, is_Some (threads s' !! a) → is_Some (threads s2 !! a)) →
  ready_head s' = ready_head s → zombie_head s' = zombie_head s → sc_fresh s' = n + 1 → queue s' (l ++ [n]) zs run.
Proof.
  intros Hq -> Ht2 Htn Hmap Hdom' Eh Ez Ef. set (n := sc_fresh s) in *. pose proof Hq as [Qh Qr Qz Qnd Qf Qa Qrun Qst Qd].
  assert (threads s !! n = None) as Hfr.
  { destruct (threads s !! n) eqn:E; [|done]. pose proof (Qf n ltac:(eauto)). unfold n in *. lia. }
  assert (n ∉ idle_thread :: main_thread :: l ++ zs) as Hn by (intros [? ?]%Qa; congruence).
  assert (∀ a t, threads s !! a = Some t → ∃ t', threads s' !! a = Some t' ∧ t_state t' = t_state t ∧
    t_next t' = (if decide (a = before main_thread l) then n else t_next t) ∧ t_prev t' = (if decide (a = main_thread) then n else t_prev t)) as Hold.
  { intros a t Ht. assert (a ≠ n) as Hne by congruence. destruct (Hmap a t) as (t' & Ht' & ->); [by rewrite Ht2, lookup_insert_ne|].
    rewrite !(decide_False (P := a = n)) in * by done. eauto. }
  destruct (Hmap n tn) as (tn' & Htn' & Etn); [by rewrite Ht2, lookup_insert_eq|]. rewrite !(decide_True (P := n = n)) in Etn by done.
  assert (∀ a, is_Some (threads s' !! a) ↔ is_Some (threads s !! a) ∨ a = n) as Hdom.
  { intros a. split.
    - intros Ha%Hdom'. rewrite Ht2, lookup_insert in Ha. case_decide; [by right|by left].
    - intros [[t Ht]| ->]; [|eauto]. destruct (Hold a t Ht) as (? & ? & _). eauto. }
  assert (idle_thread :: main_thread :: (l ++ [n]) ++ zs ≡ₚ n :: idle_thread :: main_thread :: l ++ zs) as Hperm by solve_Permutation.
  split; try done.
  - congruence.
  - eapply seg_insert; [exact Qr|apply (q_ring_nodup _ _ _ _ Hq)|set_unfold; tauto| |].
    + intros x u _ Hu. destruct (Hold x u Hu) as (u' & ? & _ & ? & ?). eauto.
    + exists tn'. split; [done|]. by rewrite Etn.
  - rewrite Ez. eapply chain_mono; [|exact Qz]. intros z t Hz Ht. destruct (Hold z t Ht) as (t' & Ht' & _ & Hzn & _).
    rewrite decide_False in Hzn; [eauto|]. intros ->. by apply (q_ring_zombie _ _ _ _ Hq (before main_thread l) (before_in main_thread l)).
  - rewrite Hperm. by constructor.
  - intros a [Ha| ->]%Hdom; [pose proof (Qf a Ha); unfold n in *; lia|].
    pose proof (Qf main_thread ltac:(apply (q_member _ _ _ _ Hq); by left)). unfold n, main_thread in *. lia.
  - intros a. rewrite Hdom, Qa, Hperm, (elem_of_cons _ a n). tauto.
  - destruct Qrun as [?|?]; [by left|right]. set_unfold. tauto.
  - intros a t' Ha Ht'. destruct (decide (a = n)) as [->|Hne].
    + assert (t' = tn') as -> by congruence. rewrite Etn. cbn. split; [|by left]. intros <-.
      destruct Qrun as [Hr|Hr]; [|by destruct Hn; set_unfold; tauto].
      pose proof (Qf main_thread ltac:(apply (q_member _ _ _ _ Hq); by left)). unfold n, main_thread in *. lia.
    + assert (a ∈ main_thread :: l) as Ha' by (set_unfold; naive_solver).
      destruct (q_member _ _ _ _ Hq a Ha') as [t Ht]. destruct (Hold a t Ht) as (t'' & Ht'' & Hst & _). simplify_eq.
      rewrite Hst. by eapply Qst.
  - intros z t' Hz Ht'. destruct (chain_in _ _ _ z Qz Hz) as [t Ht]. destruct (Hold z t Ht) as (t'' & Ht'' & Hst & _). simplify_eq.
    rewrite Hst. by eapply Qd.
Qed.

(** Two threads that differ in their links only. *)
Definition relinked (t t' : thread) : Prop := t' = set_tprev (t_prev t') (set_tnext (t_next t') t).

Lemma relinked_own t t' : relinked t t' → same_own t t'.
Proof. intros ->. by destruct t. Qed.

(** What starting a thread does to the rest: its links are set, nothing else. *)
Lemma wp_join s s2 l zs tn (Q : Z → sched → Prop) :
  let n := sc_fresh s in
  sched_ok s l zs → threads s2 = <[n := tn]> (threads s) → t_state tn = THREAD_READY →
  current s2 = current s → ready_head s2 = ready_head s → zombie_head s2 = zombie_head s → sc_fresh s2 = n + 1 →
  g_init_dead s2 = g_init_dead s → machine (sc_mmu s2) (threads s2) →
  (∀ s', sched_ok s' (l ++ [n]) zs → s' = set_threads (λ _, threads s') s2 → threads_rel relinked (threads s2) (threads s') → Q n s') →
  wp (link_ready n ;; mret n) Q s2.
Proof.
  intros n Hok Ht2 Htn Ec Eh Ez Ef Ed Hm2 HQ. pose proof (so_queue _ _ _ Hok) as Hq.
  assert (threads s !! n = None) as Hfr.
  { destruct (threads s !! n) eqn:E; [|done]. pose proof (q_fresh _ _ _ _ Hq n ltac:(eauto)). unfold n in *. lia. }
  assert (n ∉ main_thread :: l) as Hn. { intros Hin. destruct (q_member _ _ _ _ Hq n Hin). congruence. }
  assert (∀ a, a ∈ main_thread :: l → threads s2 !! a = threads s !! a) as Hsame.
  { intros a Ha. rewrite Ht2, lookup_insert_ne; [done|]. by intros <-. }
  wp_step. eapply (wp_link_ready s2 l n tn); [by rewrite Eh; apply (q_head _ _ _ _ Hq)| |done|by rewrite Ht2, lookup_insert_eq|].
  { eapply seg_mono; [| |apply (q_ring _ _ _ _ Hq)]; intros x t Hx Ht; exists t; (split; [|done]); by rewrite Hsame. }
  intros s' Es Hmap Hdom. wp_step.
  assert (threads_rel relinked (threads s2) (threads s')) as Hrel.
  { split.
    - intros a t Ht. destruct (Hmap a t Ht) as (t' & Ht' & E). exists t'. split; [done|]. unfold relinked. rewrite E. by destruct t.
    - intros a t' Ht'. destruct (Hdom a) as [t Ht]; [eauto|]. destruct (Hmap a t Ht) as (t'' & Ht'' & E). exists t. split; [done|].
      assert (t'' = t') as -> by congruence. unfold relinked. rewrite E. by destruct t. }
  assert (ready_head s' = ready_head s2 ∧ zombie_head s' = zombie_head s2 ∧ current s' = current s2 ∧ sc_fresh s' = sc_fresh s2 ∧
    g_init_dead s' = g_init_dead s2 ∧ sc_mmu s' = sc_mmu s2) as (E1 & E2 & E3 & E4 & E5 & E6) by (rewrite Es; by destruct s2).
  apply HQ; [|done|done]. split.
  - rewrite E3, Ec. eapply (queue_join s s2 s' l zs (current s) n tn); try done; congruence.
  - rewrite E6. eapply machine_view; [exact Hm2| |done..]. destruct Hrel as [H1 H2]. split.
    + intros a t Ht. destruct (H1 a t Ht) as (t' & ? & ?%relinked_own). eauto.
    + intros a t' Ht'. destruct (H2 a t' Ht') as (t & ? & ?%relinked_own). eauto.
  - rewrite E3, Ec. apply (so_current _ _ _ Hok).
  - pose proof (so_idle _ _ _ Hok) as Hi. unfold is_ready in Hi |- *. destruct (threads s !! idle_thread) as [t|] eqn:Ht; [|done].
    destruct Hrel as [H1 _]. destruct (H1 idle_thread t) as (t' & -> & ->); [|done]. rewrite Ht2, lookup_insert_ne; [done|congruence].
  - rewrite E5, Ed. apply (so_init _ _ _ Hok).
Qed.

(** Frames were taken from the allocator. *)
Record took (m : mmu) (F : gset Z) (m' : mmu) : Prop := Took {
  tk_same : m' = set_pmm (mm_pmm m') m;
  tk_wf : wf (mm_pmm m');
  tk_free : free_set (mm_pmm m') = free_set (mm_pmm m) ∖ F;
  tk_was : F ⊆ free_set (mm_pmm m) }.

Lemma took_same m F m' : took m F m' → mm_mem m' = mm_mem m ∧ kernel_root m' = kernel_root m.
Proof. intros [-> _ _ _]. by destruct m. Qed.

Lemma machine_took m F m' ts : machine m ts → took m F m' → machine m' ts.
Proof.
  intros [Hw Hr Hs Hu Ha] Htk. destruct (took_same _ _ _ Htk) as [Hm Hk]. destruct Htk as [He Hw' Hf _].
  assert (∀ t f, owns m' t f ↔ owns m t f) as Ho by (intros; by apply owns_ext).
  split; [done|..].
  - intros a t Hat. unfold root_walkable. rewrite Hm, Hk. by eapply Hr.
  - done.
  - intros a t f Hat Hof%Ho. rewrite Hf. apply not_elem_of_difference. left. by eapply Hu.
  - intros a b t u f Hat Hbu H1%Ho H2%Ho. by eapply Ha.
Qed.

(** An address space nobody uses, or the kernel's. *)
Definition root_apart (m : mmu) (ts : gmap Z thread) (root : Z) : Prop :=
  root_walkable m root ∧
  (∀ f, root_frames m root f → (f ∉ free_set (mm_pmm m)) ∧ ∀ a t, ts !! a = Some t → ¬ owns m t f).

Lemma kernel_root_apart m ts : root_apart m ts (kernel_root m).
Proof. split; [by right; left|]. intros f (_ & ? & _). done. Qed.

Lemma machine_new m m' ts n t base :
  machine m ts → ts !! n = None → took m (frames (frame_of base) stack_frames) m' →
  0 ≤ base < 2 ^ 64 → x_stack_base (t_exec t) = base → root_apart m ts (x_mmu (t_exec t)) → machine m' (<[n := t]> ts).
Proof.
  intros Hmc Hn Htk Hb Eb [Hrw Hap]. pose proof (machine_took _ _ _ _ Hmc Htk) as [Hw' Hr' Hs' Hu' Ha'].
  destruct Hmc as [Hw Hr Hs Hu Ha]. destruct (took_same _ _ _ Htk) as [Hm Hk]. destruct Htk as [He _ Hf Hwas].
  assert (∀ t f, owns m' t f ↔ owns m t f) as Ho by (intros; by apply owns_ext).
  assert (∀ f, owns m t f → (f ∉ free_set (mm_pmm m')) ∧ ∀ a u, ts !! a = Some u → ¬ owns m u f) as Hnew.
  { intros f [[_ Hst]|Hrf].
    - rewrite Eb in Hst. split; [rewrite Hf; set_solver|]. intros a u Hau Hof. by eapply (Hu a u f), Hwas.
    - destruct (Hap f Hrf) as [H1 H2]. split; [rewrite Hf; set_solver|done]. }
  split; [done|..].
  - intros a u [[<- <-]|[_ Hau]]%lookup_insert_Some; [|by eapply Hr']. unfold root_walkable. by rewrite Hm, Hk.
  - intros a u [[<- <-]|[_ Hau]]%lookup_insert_Some; [by rewrite Eb|by eapply Hs].
  - intros a u f [[<- <-]|[_ Hau]]%lookup_insert_Some Hof; [|by eapply Hu']. by apply Hnew, Ho.
  - intros a b u v f [[<- <-]|[Hna Hau]]%lookup_insert_Some [[<- <-]|[Hnb Hbv]]%lookup_insert_Some H1%Ho H2%Ho; [done|..].
    + exfalso. by eapply (Hnew f).
    + exfalso. by eapply (Hnew f).
    + by eapply Ha.
Qed.

(** What [alloc_thread] returns: nothing, or an uninitialised thread and a stack
    of free frames. *)
Definition allocated (s : sched) (r : Z * Z) (s' : sched) : Prop :=
  (r = (0, 0) ∧ ∃ F, took (sc_mmu s) F (sc_mmu s') ∧ sc_fresh s ≤ sc_fresh s' ∧
     s' = set_kheap (tail (sc_heap s)) (sc_fresh s') (put_mmu (sc_mmu s') s)) ∨
  (∃ base t0, (t0 = zero_thread ∨ Some t0 ∈ sc_heap s) ∧ r = (sc_fresh s, base) ∧ base ≠ 0 ∧ 0 ≤ base < 2 ^ 64 ∧
     took (sc_mmu s) (frames (frame_of base) stack_frames) (sc_mmu s') ∧
     s' = set_kheap (tail (sc_heap s)) (sc_fresh s + 1) (set_threads (insert (sc_fresh s) t0) (put_mmu (sc_mmu s') s))).

Lemma wp_alloc_thread s l zs run (Q : Z * Z → sched → Prop) :
  queue s l zs run → wf (mm_pmm (sc_mmu s)) → (∀ r s', allocated s r s' → Q r s') → wp alloc_thread Q s.
Proof.
  intros Hq Hw HQ. set (n := sc_fresh s).
  assert (threads s !! n = None) as Hfr.
  { destruct (threads s !! n) eqn:E; [|done]. pose proof (q_fresh _ _ _ _ Hq n ltac:(eauto)). unfold n in *. lia. }
  assert (n ≠ 0) as Hn0.
  { pose proof (q_fresh _ _ _ _ Hq main_thread ltac:(apply (q_member _ _ _ _ Hq); by left)). unfold n, main_thread in *. lia. }
  assert (took (sc_mmu s) ∅ (sc_mmu s)) as Htk0 by (split; [by destruct (sc_mmu s)|done|set_solver|set_solver]).
  unfold alloc_thread, kmalloc_thread. wp_step.
  assert (∀ t0 h, h = tail (sc_heap s) → (t0 = zero_thread ∨ Some t0 ∈ sc_heap s) → wp (if n =? 0 then mret (0, 0)
    else stack ← on_pmm (pmm_alloc_frames stack_frames); if stack =? 0 then kfree_thread n ;; mret (0, 0) else mret (n, stack)) Q
      (set_kheap h (n + 1) (set_threads (insert n t0) s))) as Hgo.
  { intros t0 h -> Hin. rewrite (proj2 (Z.eqb_neq n 0)) by done. wp_step. apply wp_zoom, wp_zoom. eapply wp_mono; [by apply wp_alloc_frames|].
    intros r p [Hno|a p' [Ha Hsub] _ [Hw' _ _ Hf]].
    - change (0 =? 0) with true. cbn iota. wp_step. unfold kfree_thread. wp_step. eapply wp_thr; [cbn; by rewrite lookup_insert_eq|]. wp_step.
      wp_step. apply HQ. left. split; [done|]. exists ∅. cbn. split_and!; [|fold n; lia|].
      + split; cbn; [by destruct (sc_mmu s)|done|set_solver|set_solver].
      + unfold set_kheap, set_threads, put_mmu. cbn. by rewrite delete_insert_id.
    - destruct (Z.eqb_spec (Z.shiftl a PAGE_SHIFT) 0) as [Hz|Hz].
      + wp_step. unfold kfree_thread. wp_step. eapply wp_thr; [cbn; by rewrite lookup_insert_eq|]. wp_step.
        wp_step. apply HQ. left. split; [done|]. exists (frames a stack_frames). cbn. split_and!; [|fold n; lia|].
        * split; cbn; [by destruct (sc_mmu s)|done|done|done].
        * unfold set_kheap, set_threads, put_mmu. cbn. by rewrite delete_insert_id.
      + wp_step. apply HQ. right. exists (Z.shiftl a PAGE_SHIFT), t0. rewrite Z.shiftl_mul_pow2 in * by done.
        pose proof (free_run_bound _ _ _ (conj Ha Hsub) eq_refl) as Hle. pose proof (wf_total _ Hw) as Ht.
        cbn [sc_mmu set_kheap set_threads] in Hle. change stack_frames with 8 in Hle.
        assert (a * 2 ^ PAGE_SHIFT = a * PAGE_SIZE) as -> by done. split_and!; [done|done|done|unfold PAGE_SIZE; lia|unfold PAGE_SIZE; lia| |done].
        rewrite frame_of_mul. split; cbn; [by destruct (sc_mmu s)|done|done|done]. }
  wp_step. wp_step. wp_step. wp_step. fold n. destruct (sc_heap s) as [|[t0|] h] eqn:Hh.
  - wp_step. wp_step. wp_step. apply Hgo; [done|by left].
  - wp_step. wp_step. wp_step. apply Hgo; [done|right; by left].
  - wp_step. wp_step. wp_step. change (0 =? 0) with true. cbn iota. wp_step. apply HQ. left. split; [done|]. exists ∅. split_and!; [done|done|].
    rewrite Hh. by destruct s.
Qed.

Lemma fresh_none s l zs run : queue s l zs run → threads s !! sc_fresh s = None ∧ sc_fresh s ≠ 0.
Proof.
  intros Hq. split.
  - destruct (threads s !! sc_fresh s) eqn:E; [|done]. pose proof (q_fresh _ _ _ _ Hq (sc_fresh s) ltac:(eauto)). lia.
  - pose proof (q_fresh _ _ _ _ Hq main_thread ltac:(apply (q_member _ _ _ _ Hq); by left)). unfold main_thread in *. lia.
Qed.

Lemma ok_not_started s l zs h n m F :
  sched_ok s l zs → took (sc_mmu s) F m → sc_fresh s ≤ n → sched_ok (set_kheap h n (put_mmu m s)) l zs.
Proof.
  intros [[Qh Qr Qz Qnd Qf Qa Qrun Qst Qd] Hm Hc Hi Hd] Htk Hn.
  split; [split|..]; try done.
  - intros a Ha. pose proof (Qf a Ha). cbn. lia.
  - by eapply machine_took.
Qed.

(** A thread was started: [tn] up to its links, at the end of the queue. *)
Record started (s : sched) (l zs : list Z) (tn : thread) (s' : sched) : Prop := Started {
  st_ok : sched_ok s' (l ++ [sc_fresh s]) zs;
  st_threads : threads_rel relinked (<[sc_fresh s := tn]> (threads s)) (threads s');
  st_ready : t_state tn = THREAD_READY;
  st_current : current s' = current s;
  st_init : g_init_thread s' = g_init_thread s }.

(** The kernel stack of a new thread holds [ws] and its stack pointer the last one. *)
Definition stack_holds (s' : sched) (tn : thread) (ws : list Z) : Prop :=
  let base := x_stack_base (t_exec tn) in
  base ≠ 0 ∧ sc_stacks s' !! base = Some ws ∧ x_rsp (t_exec tn) = u64 (base + THREAD_STACK_SIZE - 8 * Z.of_nat (length ws)) ∧
  x_kstack_top (t_exec tn) = u64 (base + THREAD_STACK_SIZE).

(** ** The whole system *)

Section accounting.
Context {oth : Others}.

Definition heap_shape (h : list (option thread)) : Prop := ∀ t, Some t ∈ h → length (fds t) = MAX_FD.
Definition no_files (t : thread) : Prop := ∀ f, f ∈ fds t → f_used f = false.

(** The scheduler, the descriptors and the pipes agree: pipes wait for threads
    of the run queue only and zombies have closed their files. *)
Record system (s : sched) (l zs : list Z) : Prop := System {
  sy_ok : sched_ok s l zs;
  sy_files : accounted (sc_vfs s) (tables (threads s));
  sy_waiters : waiters (sc_vfs s) (main_thread :: l);
  sy_dead : ∀ z t, z ∈ zs → threads s !! z = Some t → no_files t;
  sy_heap : heap_shape (sc_heap s) }.

Lemma fd_sum_subset w T T' :
  T' ⊆ T → (∀ a l, T !! a = Some l → T' !! a = None → zsum w l = 0) → fd_sum w T' = fd_sum w T.
Proof.
  revert T'. induction T as [|a l T Ha IH] using map_ind; intros T' Hsub H0.
  { assert (T' = ∅) as ->; [|done]. apply (anti_symm (⊆)); [done|apply map_empty_subseteq]. }
  rewrite fd_sum_new by done. destruct (T' !! a) as [l'|] eqn:Hl'.
  - assert (l' = l) as ->. { pose proof (lookup_weaken _ _ _ _ Hl' Hsub) as E. rewrite lookup_insert_eq in E. congruence. }
    rewrite (fd_sum_delete w T' a l Hl'). f_equal. apply IH.
    + rewrite <-(delete_insert_id T a l Ha). by apply delete_mono.
    + intros b m Hb [<-|Hb']%lookup_delete_None; [congruence|]. destruct (decide (a = b)) as [->|]; [congruence|].
      apply (H0 b); [by rewrite lookup_insert_ne|done].
  - rewrite (H0 a l) by (by rewrite ?lookup_insert_eq). rewrite Z.add_0_l. apply IH.
    + rewrite <-(delete_insert_id T a l Ha), <-(delete_id T' a Hl'). by apply delete_mono.
    + intros b m Hb Hb'. destruct (decide (a = b)) as [->|]; [congruence|]. apply (H0 b); [by rewrite lookup_insert_ne|done].
Qed.

Lemma no_files_sum (w : vfs_file → Z) t : (∀ g, counts_node g = false → w g = 0) → no_files t → zsum w (fds t) = 0.
Proof.
  intros Hw Hn. unfold no_files in Hn. induction (fds t) as [|f l IH]; [done|]. simpl. rewrite IH.
  - rewrite Hw; [done|]. unfold counts_node. by rewrite Hn by (by left).
  - intros g Hg. apply Hn. by right.
Qed.

Lemma tables_at ts a t : ts !! a = Some t → tables ts !! a = Some (fds t).
Proof. intros Ha. unfold tables. by rewrite lookup_fmap, Ha. Qed.

Lemma tables_inv ts a l : tables ts !! a = Some l → ∃ t, ts !! a = Some t ∧ l = fds t.
Proof. unfold tables. rewrite lookup_fmap. destruct (ts !! a) as [t|]; [|done]. intros [= <-]. eauto. Qed.

(** Threads without files went. *)
Lemma accounted_shrink v ts ts' :
  accounted v (tables ts) → (∀ a t', ts' !! a = Some t' → ∃ t, ts !! a = Some t ∧ t_files t' = t_files t) →
  (∀ a t, ts !! a = Some t → ts' !! a = None → no_files t) → accounted v (tables ts').
Proof.
  intros Hac Hmap Hgone. assert (tables ts' ⊆ tables ts) as Hsub.
  { apply map_subseteq_spec. intros a l (t' & Ht' & ->)%tables_inv. destruct (Hmap a t' Ht') as (t & Ht & E).
    rewrite (tables_at _ _ _ Ht). unfold fds. by rewrite E. }
  eapply (accounted_moved 0 zero_file v v (tables ts)); [done|by apply moved_none|apply (ac_room _ _ Hac)| | |].
  - intros w Hw. rewrite Z.mul_0_l, Z.add_0_r. apply fd_sum_subset; [done|]. intros a l (t & Ht & ->)%tables_inv Hn.
    apply no_files_sum; [done|]. apply (Hgone a t Ht). unfold tables in Hn. rewrite lookup_fmap in Hn. by destruct (ts' !! a).
  - intros a l Hl. apply (ac_len _ _ Hac a). by eapply lookup_weaken.
  - intros f (a & l & Hl & Hf). apply (ac_open _ _ Hac). exists a, l. split; [by eapply lookup_weaken|done].
Qed.

(** The threads of [s'] are threads of [s] with the same files; those that are
    gone were zombies. *)
Lemma system_shrink s s' l zs zs' :
  system s l zs → sched_ok s' l zs' → zs' ⊆ zs → sc_vfs s' = sc_vfs s → sc_heap s' = sc_heap s →
  (∀ a t', threads s' !! a = Some t' → ∃ t, threads s !! a = Some t ∧ t_files t' = t_files t) → system s' l zs'.
Proof.
  intros [Hok Hf Hw Hd Hh] Hok' Hsub Ev Eh Hmap. split; [done|..].
  - rewrite Ev. eapply accounted_shrink; [done|done|]. intros a t Ht Hn. apply (Hd a t); [|done].
    assert (a ∈ idle_thread :: main_thread :: l ++ zs) as Ha by (apply (q_all _ _ _ _ (so_queue _ _ _ Hok)); eauto).
    assert (a ∉ idle_thread :: main_thread :: l ++ zs') as Ha' by (intros [? ?]%(q_all _ _ _ _ (so_queue _ _ _ Hok')); congruence).
    set_unfold. tauto.
  - by rewrite Ev.
  - intros z t' Hz Ht'. destruct (Hmap z t' Ht') as (t & Ht & E). unfold no_files, fds. rewrite E. apply (Hd z t); [set_solver|done].
  - by rewrite Eh.
Qed.

Lemma system_same s s' l zs : system s l zs → sched_ok s' l zs → same_files s s' → system s' l zs.
Proof.
  intros Hsy Hok' (Ev & Eh & Hf). eapply system_shrink; [done|done|done|done|done|]. intros a t' Ht'. specialize (Hf a). rewrite Ht' in Hf.
  destruct (threads s !! a) as [t|]; [|done]. injection Hf as E _. eauto.
Qed.

Lemma accounted_fresh v ts n t :
  accounted v (tables ts) → ts !! n = None → length (fds t) = MAX_FD → no_files t → accounted v (tables (<[n := t]> ts)).
Proof.
  intros Hac Hn Hl Hno. assert (tables ts !! n = None) as Hn' by (unfold tables; by rewrite lookup_fmap, Hn).
  unfold tables. rewrite fmap_insert. fold (tables ts).
  eapply (accounted_moved 0 zero_file v v (tables ts)); [done|by apply moved_none|apply (ac_room _ _ Hac)| | |].
  - intros w Hw. rewrite fd_sum_new by done. rewrite no_files_sum by done. lia.
  - intros a l [[<- <-]|[_ Ha]]%lookup_insert_Some; [done|by apply (ac_len _ _ Hac a)].
  - intros f (a & l & [[<- <-]|[_ Ha]]%lookup_insert_Some & Hf); [|apply (ac_open _ _ Hac); by exists a, l].
    intros Hu. by rewrite Hno in Hu.
Qed.

Lemma relinked_files ts ts' : threads_rel relinked ts ts' → tables ts' = tables ts.
Proof.
  intros [H1 H2]. apply map_eq. intros a. unfold tables. rewrite !lookup_fmap. destruct (ts !! a) as [t|] eqn:Ht.
  - destruct (H1 a t Ht) as (t' & -> & ->). done.
  - destruct (ts' !! a) as [t'|] eqn:Ht'; [|done]. destruct (H2 a t' Ht') as (t & ? & _). congruence.
Qed.

Lemma waiters_more v W W' : waiters v W → W ⊆ W' → waiters v W'.
Proof. intros Hw Hs p q Hq. destruct (Hw p q Hq) as [?|?]; [by left|right; by apply Hs]. Qed.

Lemma heap_tail h : heap_shape h → heap_shape (tail h).
Proof. intros Hh t Ht. apply Hh. destruct h; [done|by right]. Qed.

(** The system with one more thread. *)
Lemma system_join s s2 s' l zs tn :
  system s l zs → sched_ok s' (l ++ [sc_fresh s]) zs → threads s2 = <[sc_fresh s := tn]> (threads s) →
  s' = set_threads (λ _, threads s') s2 → threads_rel relinked (threads s2) (threads s') →
  accounted (sc_vfs s2) (tables (threads s2)) → waiters (sc_vfs s2) (main_thread :: l) → sc_heap s2 = tail (sc_heap s) →
  system s' (l ++ [sc_fresh s]) zs.
Proof.
  intros Hsy Hok' Ht2 Es' Hrel Hac Hw Hh. pose proof (so_queue _ _ _ (sy_ok _ _ _ Hsy)) as Hq.
  destruct (fresh_none _ _ _ _ Hq) as [Hfr _].
  assert (sc_vfs s' = sc_vfs s2 ∧ sc_heap s' = sc_heap s2) as [Ev Eh] by (rewrite Es'; by destruct s2).
  split; [done|..].
  - by rewrite Ev, (relinked_files _ _ Hrel).
  - rewrite Ev. eapply waiters_more; [done|]. set_solver.
  - intros z t' Hz Ht'. destruct Hrel as [_ H2]. destruct (H2 z t' Ht') as (t & Ht & ->).
    assert (threads s !! z = Some t) as Hzs.
    { rewrite Ht2, lookup_insert_ne in Ht; [done|]. intros <-. destruct (q_thread _ _ _ _ Hq (sc_fresh s)) as [? ?]; [set_solver|congruence]. }
    by apply (sy_dead _ _ _ Hsy z t).
  - rewrite Eh, Hh. apply heap_tail, (sy_heap _ _ _ Hsy).
Qed.

Lemma system_not_started s l zs n m F :
  system s l zs → took (sc_mmu s) F m → sc_fresh s ≤ n → system (set_kheap (tail (sc_heap s)) n (put_mmu m s)) l zs.
Proof.
  intros Hsy Htk Hn. pose proof (ok_not_started s l zs (tail (sc_heap s)) n m F (sy_ok _ _ _ Hsy) Htk Hn) as Hok'.
  destruct Hsy as [Hok Hf Hw Hd Hh]. split; try done. by apply heap_tail.
Qed.

Lemma init_vfs_files t : no_files (thread_init_vfs t) ∧ length (fds (thread_init_vfs t)) = length (fds t).
Proof.
  split; [|by apply length_fmap]. intros f Hf. unfold fds in Hf. cbn in Hf. apply list_elem_of_fmap in Hf as (g & -> & _). done.
Qed.

Lemma alloc_shape s l zs t0 : system s l zs → t0 = zero_thread ∨ Some t0 ∈ sc_heap s → length (fds t0) = MAX_FD.
Proof. intros Hsy [->|Hin]; [done|]. by apply (sy_heap _ _ _ Hsy). Qed.

Lemma wp_sched_spawn sy s l zs func arg name (Q : Z → sched → Prop) :
  system s l zs →
  (∀ s', system s' l zs → threads s' = threads s → Q 0 s') →
  (∀ s' tn, system s' (l ++ [sc_fresh s]) zs → started s l zs tn s' → stack_holds s' tn [sym_trampoline sy; 0; 0; 0; 0; 0; 0] →
     x_func (t_exec tn) = func → x_arg (t_exec tn) = arg → sc_vfs s' = sc_vfs s → Q (sc_fresh s) s') →
  wp (sched_spawn sy func arg name) Q s.
Proof.
  intros Hsy HQ0 HQ. pose proof (sy_ok _ _ _ Hsy) as Hok. pose proof (so_queue _ _ _ Hok) as Hq. destruct (fresh_none _ _ _ _ Hq) as [Hfr Hn0].
  unfold sched_spawn. wp_step. eapply wp_alloc_thread; [exact Hq|apply (so_machine _ _ _ Hok)|].
  intros r s1 [(-> & F & Htk & Hge & Es1)|(base & t0 & Hin & -> & Hb0 & Hb & Htk & Es1)].
  - change (0 =? 0) with true. cbn iota. wp_step. rewrite Es1. apply HQ0; [by eapply system_not_started|by destruct s].
  - rewrite (proj2 (Z.eqb_neq _ _)) by done. wp_step. unfold push_words. wp_step. wp_step. wp_step.
    wp_step. apply wp_zoom. unfold vmm_kernel_root. wp_step. wp_step. unfold sched_new_pid. wp_step. wp_step. wp_step. wp_step.
    rewrite Es1. wp_step. wp_step. eapply wp_upd; [cbn; by rewrite lookup_insert_eq|].
    match goal with |- wp _ _ (set_threads (insert _ (thread_init_vfs ?t)) _) => set (t1 := t) end.
    set (tn := thread_init_vfs t1). set (s2 := set_threads _ _).
    assert (threads s2 = <[sc_fresh s := tn]> (threads s)) as Ht2 by (cbn; by rewrite insert_insert_eq).
    assert (machine (sc_mmu s2) (threads s2)) as Hm2.
    { rewrite Ht2. eapply (machine_new (sc_mmu s) _ _ _ _ base); [apply (so_machine _ _ _ Hok)|done|exact Htk|done|done|].
      cbn. destruct (took_same _ _ _ Htk) as [_ ->]. apply kernel_root_apart. }
    eapply (wp_join s s2 l zs tn); [done|done|done|done..|].
    intros s' Hok' Es' Hrel. apply (HQ s' tn).
    + eapply (system_join s s2); [done|done|done|done|done| |apply (sy_waiters _ _ _ Hsy)|done].
      rewrite Ht2. destruct (init_vfs_files t1) as [Hno Hlen]. apply accounted_fresh; [apply (sy_files _ _ _ Hsy)|done| |exact Hno].
      unfold tn. rewrite Hlen. by apply (alloc_shape s l zs t0).
    + rewrite Ht2 in Hrel. split; try done; by rewrite Es'.
    + split_and!; [done| |done|done]. rewrite Es'. cbn. by rewrite lookup_insert_eq.
    + done.
    + done.
    + by rewrite Es'.
Qed.

(** The frame a forked thread returns to user mode with, and its registers. *)
Definition fork_stack (sy : symbols) (rip user_rsp rflags : Z) (r : uregs) : list Z :=
  [0x33; user_rsp; rflags; 0x2B; rip; 0; sym_iret_stub sy; r_rbx r; r_rbp r; r_r12 r; r_r13 r; r_r14 r; r_r15 r].

(** [tn] is the child of [pt] in address space [root]: same files, same rights. *)
Record child_of (pt : thread) (root user_rsp : Z) (tn : thread) : Prop := ChildOf {
  co_files : fds tn = fds pt;
  co_cred : t_cred tn = t_cred pt;
  co_parent : t_parent_pid tn = t_pid pt;
  co_root : x_mmu (t_exec tn) = root;
  co_rsp : x_user_rsp (t_exec tn) = user_rsp }.

Lemma wp_spawn_user sy s l zs root rip user_rsp rflags name r (Q : Z → sched → Prop) :
  system s l zs → root_apart (sc_mmu s) (threads s) root → room (Z.of_nat MAX_FD) (sc_vfs s) →
  (∀ s', system s' l zs → threads s' = threads s → sc_vfs s' = sc_vfs s → Q 0 s') →
  (∀ s' tn pt, threads s !! current s = Some pt → system s' (l ++ [sc_fresh s]) zs → started s l zs tn s' →
     stack_holds s' tn (fork_stack sy rip user_rsp rflags r) → child_of pt root user_rsp tn → t_pid tn = next_pid s →
     Q (sc_fresh s) s') →
  wp (sched_spawn_user_in sy root rip user_rsp rflags name r) Q s.
Proof.
  intros Hsy Hroot Hroom HQ0 HQ. pose proof (sy_ok _ _ _ Hsy) as Hok. pose proof (so_queue _ _ _ Hok) as Hq.
  destruct (fresh_none _ _ _ _ Hq) as [Hfr Hn0]. destruct (ok_current s l zs Hok) as [Hc [pt Hpt]].
  assert (current s ≠ sc_fresh s) as Hcn by congruence.
  unfold sched_spawn_user_in. wp_step. eapply wp_alloc_thread; [exact Hq|apply (so_machine _ _ _ Hok)|].
  intros r0 s1 [(-> & F & Htk & Hge & Es1)|(base & t0 & Hin & -> & Hb0 & Hb & Htk & Es1)].
  - change (0 =? 0) with true. cbn iota. wp_step. rewrite Es1. apply HQ0; [by eapply system_not_started|by destruct s|by destruct s].
  - rewrite (proj2 (Z.eqb_neq _ _)) by done. wp_step. unfold push_words. wp_step. wp_step. wp_step. rewrite Es1.
    wp_step. unfold sched_new_pid. wp_step. wp_step. wp_step. wp_step. wp_step. wp_step. wp_step. cbn [current set_pid set_stacks set_kheap set_threads put_mmu].
    rewrite (proj2 (Z.eqb_neq _ _)) by apply (so_current _ _ _ Hok).
    wp_step. wp_step. eapply wp_thr; [cbn; by rewrite lookup_insert_ne|]. wp_step.
    wp_step. eapply wp_upd; [cbn; by rewrite lookup_insert_eq|].
    match goal with |- wp _ _ (set_threads (insert _ (thread_init_vfs ?t)) _) => set (t1 := t) end.
    set (s2 := set_threads _ _).
    assert (threads s2 = <[sc_fresh s := thread_init_vfs t1]> (threads s)) as Ht2 by (cbn; by rewrite insert_insert_eq).
    destruct (init_vfs_files t1) as [Hno Hlen].
    assert (length (fds (thread_init_vfs t1)) = MAX_FD) as Hlen1 by (rewrite Hlen; by apply (alloc_shape s l zs t0)).
    assert (accounted (sc_vfs s2) (tables (threads s2))) as Hac2.
    { rewrite Ht2. apply accounted_fresh; [apply (sy_files _ _ _ Hsy)|done|done|done]. }
    wp_step. eapply (wp_thread_inherit s2 (main_thread :: l) (sc_fresh s) (current s) (thread_init_vfs t1) pt);
      [apply (so_current _ _ _ Hok)|done|by rewrite Ht2, lookup_insert_eq|by rewrite Ht2, lookup_insert_ne|done|done|done|exact Hroom|apply (sy_waiters _ _ _ Hsy)|].
    intros s3 [[fl Et3] Es3] Hac3 Hw3 HT3. rewrite Ht2, insert_insert_eq in Et3.
    wp_step. wp_step. eapply wp_thr; [by rewrite Et3, lookup_insert_ne|]. eapply wp_upd; [by rewrite Et3, lookup_insert_eq|].
    set (tn := set_cred (t_cred pt) _). set (s4 := set_threads _ s3).
    assert (threads s4 = <[sc_fresh s := tn]> (threads s)) as Ht4 by (cbn; by rewrite Et3, insert_insert_eq).
    assert (tables (threads s4) = tables (threads s3)) as HT4.
    { cbn. eapply tables_insert; [by rewrite Et3, lookup_insert_eq|done]. }
    assert (fds tn = fds pt) as Hfd.
    { assert (tables (threads s3) !! sc_fresh s = Some (fds pt)) as E by (by rewrite HT3, lookup_insert_eq).
      rewrite <-HT4, Ht4 in E. rewrite (tables_at _ _ tn) in E by apply lookup_insert_eq. by injection E. }
    assert (current s4 = current s ∧ ready_head s4 = ready_head s ∧ zombie_head s4 = zombie_head s ∧ sc_fresh s4 = sc_fresh s + 1 ∧
      g_init_dead s4 = g_init_dead s ∧ sc_mmu s4 = sc_mmu s1 ∧ sc_heap s4 = tail (sc_heap s) ∧
      sc_stacks s4 = <[base := fork_stack sy rip user_rsp rflags r]> (sc_stacks s) ∧ g_init_thread s4 = g_init_thread s)
      as (E1 & E2 & E3 & E4 & E5 & E6 & E7 & E8 & E9) by (unfold s4; cbn; rewrite Es3; done).
    eapply (wp_join s s4 l zs tn); [done|done|done|done..| |].
    { rewrite E6, Ht4. eapply (machine_new (sc_mmu s) _ _ _ _ base); [apply (so_machine _ _ _ Hok)|done|exact Htk|done|done|done]. }
    intros s' Hok' Es' Hrel. apply (HQ s' tn pt Hpt).
    + eapply (system_join s s4); [done|done|done|done|done|by rewrite HT4|done|done].
    + rewrite Ht4 in Hrel. split; try done; by rewrite Es'.
    + split_and!; [done| |done|done]. rewrite Es'. cbn [sc_stacks set_threads]. rewrite E8. by rewrite lookup_insert_eq.
    + by split.
    + done.
Qed.

(** ** Waiting for a child *)

(** The zombie before [z] is linked past it. *)
Lemma wp_unchain_zombie s l ks z rs run x (Q : unit → sched → Prop) :
  queue s l (ks ++ z :: rs) run → threads s !! z = Some x →
  Q tt (set_zombie (new_head ks (t_next x) (zombie_head s)) (set_threads (relink ks (t_next x)) s)) → wp (unchain_zombie z) Q s.
Proof.
  intros Hq Hx HQ. pose proof (q_zombies _ _ _ _ Hq) as Hch.
  assert (NoDup (ks ++ z :: rs)) as Hnd.
  { pose proof (q_nodup _ _ _ _ Hq) as Hnd. apply NoDup_cons in Hnd as [_ Hnd]. apply NoDup_cons in Hnd as [_ Hnd]. by apply NoDup_app in Hnd as (_ & _ & ?). }
  assert (∀ a, a ∈ ks ++ z :: rs → 0 < a) as Hpos. { intros a Ha. apply (q_pos _ _ _ _ Hq). set_unfold. tauto. }
  unfold unchain_zombie. wp_step. wp_step. destruct ks as [|k ks].
  - destruct Hch as [Hzh _]. rewrite Hzh, Z.eqb_refl. wp_step. eapply wp_thr; [done|]. wp_step. by destruct s.
  - pose proof Hch as [Hzh _]. assert (k ≠ z) as Hkz by (intros ->; apply NoDup_cons in Hnd as [Hn _]; set_solver).
    rewrite Hzh, (proj2 (Z.eqb_neq k z)) by done. rewrite (proj2 (Z.eqb_neq k 0)) by (pose proof (Hpos k ltac:(by left)); lia). cbn [negb].
    wp_step. wp_step. wp_step. set (L := k :: ks) in *.
    assert (∀ i y t, L !! i = Some y → threads s !! y = Some t → t_next t = match L !! S i with Some y' => y' | None => z end) as Hnext.
    { intros i y t Hi Ht. pose proof (take_drop_middle L i y Hi) as Hsplit. rewrite <-Hsplit, <-app_assoc in Hch.
      rewrite (chain_next _ _ _ _ _ _ Hch Ht). assert (L !! S i = drop (S i) L !! 0%nat) as -> by (by rewrite lookup_drop, Nat.add_0_r).
      by destruct (drop (S i) L). }
    apply (wp_loop_ghost (λ m p s', s' = s ∧ ∃ i, L !! i = Some p ∧ (m + i = length L)%nat) _ _ (length L)).
    + split; [done|]. exists 0%nat. split; [done|lia].
    + unfold walk_fuel. assert (length L ≤ size (threads s))%nat; [|lia]. apply dom_length; [by apply NoDup_app in Hnd as (? & _)|].
      intros a Ha. apply (q_all _ _ _ _ Hq). set_unfold. tauto.
    + intros m p s' (-> & i & Hi & Hmi).
      destruct (chain_in _ _ _ p Hch) as [t Ht]; [apply elem_of_app; left; by eapply list_elem_of_lookup_2|].
      wp_step. eapply wp_thr; [done|]. specialize (Hnext i p t Hi Ht). destruct (L !! S i) as [y|] eqn:Hy.
      * assert (y ∈ L) as Hyin by (by eapply list_elem_of_lookup_2).
        assert (y ≠ z) as Hyz by (intros ->; apply NoDup_app in Hnd as (_ & Hd & _); apply (Hd z Hyin); by left).
        wp_step. rewrite Hnext. rewrite (proj2 (Z.eqb_neq y 0)) by (pose proof (Hpos y ltac:(set_solver)); lia).
        rewrite (proj2 (Z.eqb_neq y z)) by done. cbn [negb andb]. exists (pred m). apply lookup_lt_Some in Hy as Hlt. split; [lia|].
        split; [done|]. exists (S i). split; [done|lia].
      * wp_step. rewrite Hnext. rewrite Z.eqb_refl. rewrite andb_false_r.
        assert (last L = Some p) as Hl.
        { rewrite last_lookup. apply lookup_ge_None in Hy. apply lookup_lt_Some in Hi as Hlt. replace (pred (length L)) with i by lia. done. }
        wp_step. eapply wp_thr; [done|]. rewrite Hnext, Z.eqb_refl. wp_step. eapply wp_thr; [done|]. eapply wp_upd; [done|].
        replace (set_threads (insert p (set_tnext (t_next x) t)) s) with
          (set_zombie (new_head L (t_next x) (zombie_head s)) (set_threads (relink L (t_next x)) s)); [done|].
        unfold new_head, relink. rewrite Hl. unfold set_zombie, set_threads. cbn.
        by rewrite <-(alter_insert_eq _ _ _ (set_tnext (t_next x)) Ht).
Qed.

Lemma relink_delete ks n z (ts : gmap Z thread) : relink ks n (delete z ts) = delete z (relink ks n ts).
Proof.
  apply map_eq. intros a. rewrite relink_at. destruct (decide (a = z)) as [->|Hne]; [by rewrite !lookup_delete_eq|].
  by rewrite !lookup_delete_ne, relink_at by done.
Qed.

Lemma relink_own ks n (ts : gmap Z thread) : threads_rel same_own ts (relink ks n ts).
Proof.
  split.
  - intros a t Ha. rewrite relink_at, Ha. eexists. split; [done|]. by case_decide.
  - intros a t'. rewrite relink_at. destruct (ts !! a) as [t|]; [|done]. intros [= <-]. exists t. split; [done|]. by case_decide.
Qed.

(** A zombie is taken out of the chain and its memory is given back. *)
Lemma wp_sched_reap_zombie s l ks z rs x (Q : unit → sched → Prop) :
  system s l (ks ++ z :: rs) → threads s !! z = Some x →
  (∀ s', system s' l (ks ++ rs) → gave (sc_mmu s) (owns (sc_mmu s) x) (sc_mmu s') → current s' = current s →
     (∀ a t, a ∉ ks ++ z :: rs → threads s !! a = Some t → threads s' !! a = Some t) → Q tt s') →
  wp (sched_reap_zombie z) Q s.
Proof.
  intros Hsy Hx HQ. pose proof (sy_ok _ _ _ Hsy) as Hok. pose proof (so_queue _ _ _ Hok) as Hq.
  assert (0 < z) as Hz0. { apply (q_pos _ _ _ _ Hq). set_unfold. tauto. }
  assert (NoDup (ks ++ z :: rs)) as Hnd.
  { pose proof (q_nodup _ _ _ _ Hq) as Hnd. apply NoDup_cons in Hnd as [_ Hnd]. apply NoDup_cons in Hnd as [_ Hnd]. by apply NoDup_app in Hnd as (_ & _ & ?). }
  assert (last ks ≠ Some z) as Hlz.
  { intros Hl%last_Some_elem_of. apply NoDup_app in Hnd as (_ & Hd & _). apply (Hd z Hl). by left. }
  unfold sched_reap_zombie. rewrite (proj2 (Z.eqb_neq z 0)) by lia. wp_step.
  eapply wp_unchain_zombie; [exact Hq|done|]. set (s1 := set_zombie _ _).
  assert (threads s1 !! z = Some x) as Hx1 by (unfold s1; cbn; rewrite relink_at, Hx; simpl; by rewrite decide_False).
  eapply (wp_release z x s1); [|done|].
  { eapply machine_view; [apply (so_machine _ _ _ Hok)|apply relink_own|done..]. }
  intros s' [Rt Rg Rc Rh Rz Rf [Ri1 Ri2] Rv Rhp].
  assert (threads s' = relink ks (t_next x) (delete z (threads s))) as Ht' by (by rewrite Rt, relink_delete).
  assert (∀ a, a ∉ ks ++ z :: rs → threads s' !! a = threads s !! a) as Hothers.
  { intros a Ha. rewrite Ht', relink_at, lookup_delete_ne by set_solver. destruct (threads s !! a); [|done]. simpl. rewrite decide_False; [done|].
    intros Hl%last_Some_elem_of. set_solver. }
  assert (sched_ok s' l (ks ++ rs)) as Hok'.
  { split.
    - rewrite Rc. by eapply (queue_cut s s' l ks z rs _ x).
    - rewrite Rt. eapply machine_released; [eapply machine_view; [apply (so_machine _ _ _ Hok)|apply relink_own|done..]|exact Hx1|exact Rg].
    - rewrite Rc. apply (so_current _ _ _ Hok).
    - unfold is_ready. rewrite Hothers; [apply (so_idle _ _ _ Hok)|]. pose proof (q_nodup _ _ _ _ Hq) as Hn. apply NoDup_cons in Hn as [Hn _]. set_solver.
    - rewrite Ri2. apply (so_init _ _ _ Hok). }
  apply HQ; [|exact Rg|done|intros a t Ha; by rewrite Hothers].
  eapply (system_shrink s s' l (ks ++ z :: rs)); [done|done|set_solver|done|done|].
  intros a t'. rewrite Ht', relink_at. destruct (delete z (threads s) !! a) as [t|] eqn:Hd; [|done]. apply lookup_delete_Some in Hd as [_ Hd].
  intros [= <-]. exists t. split; [done|]. by case_decide.
Qed.

(** The first zombie of the chain that is a child of [parent_pid]. *)
Definition waited_for (ts : gmap Z thread) (parent_pid pid_filter : Z) (z : Z) : bool :=
  match ts !! z with
  | Some x => (t_parent_pid x =? parent_pid) && ((pid_filter <=? 0) || (t_pid x =? pid_filter))
  | None => false
  end.

Lemma wp_child_zombie s l zs run pp pf (Q : Z → sched → Prop) :
  queue s l zs run →
  Q match list_find (λ z, waited_for (threads s) pp pf z = true) zs with Some (_, z) => z | None => 0 end s →
  wp (sched_child_zombie pp pf) Q s.
Proof.
  intros Hq HQ. unfold sched_child_zombie. wp_step. wp_step. wp_step. wp_step.
  assert (NoDup zs) as Hnd.
  { pose proof (q_nodup _ _ _ _ Hq) as Hnd. apply NoDup_cons in Hnd as [_ Hnd]. apply NoDup_cons in Hnd as [_ Hnd]. by apply NoDup_app in Hnd as (_ & _ & ?). }
  apply (wp_loop_ghost (λ m p s', s' = s ∧ ∃ rs, m = length rs ∧ chain (threads s) p rs ∧ (∀ z, z ∈ rs → 0 < z) ∧
    Q match list_find (λ z, waited_for (threads s) pp pf z = true) rs with Some (_, z) => z | None => 0 end s) _ _ (length zs)).
  - split; [done|]. exists zs. split_and!; [done|apply (q_zombies _ _ _ _ Hq)| |done]. intros z Hz. apply (q_pos _ _ _ _ Hq). set_unfold. tauto.
  - unfold walk_fuel. assert (length zs ≤ size (threads s))%nat; [|lia]. apply dom_length; [done|].
    intros a Ha. apply (q_all _ _ _ _ Hq). set_unfold. tauto.
  - intros m p s' (-> & rs & -> & Hch & Hpos & HQr). destruct rs as [|z rs].
    { simpl in Hch. subst p. change (0 =? 0) with true. cbn iota. by wp_step. }
    destruct Hch as (-> & x & Hx & Hch). rewrite (proj2 (Z.eqb_neq z 0)) by (pose proof (Hpos z ltac:(by left)); lia).
    wp_step. eapply wp_thr; [done|]. simpl in HQr.
    assert (waited_for (threads s) pp pf z = (t_parent_pid x =? pp) && ((pf <=? 0) || (t_pid x =? pf))) as Hwf by (unfold waited_for; by rewrite Hx).
    destruct ((t_parent_pid x =? pp) && ((pf <=? 0) || (t_pid x =? pf))) eqn:Hw.
    + wp_step. rewrite decide_True in HQr by (by rewrite Hwf). done.
    + wp_step. exists (length rs). split; [simpl; lia|]. split; [done|]. exists rs. split_and!; [done|done|intros y Hy; apply Hpos; by right|].
      rewrite decide_False in HQr by (by rewrite Hwf). destruct (list_find _ rs) as [[i y]|]; exact HQr.
Qed.
End accounting.
