(* ===== verification/SchedRun.v ===== *)
(** * SchedRun: what the scheduler promises

    Every operation of sched.c on a well-formed system: it returns, keeps the
    invariant [system] and does what it is for.  Yielding is round robin, so a
    ready thread runs after at most as many switches as the queue is long. *)

From Stdlib Require Import String.
From S2P Require Import Prelude BootMap Pmm Mmu Reclaim CString Security VfsPath Vfs Sched SchedQueue Fds SchedSpawn.

#[local] Arguments for_up : simpl never.

(** ** Yielding *)

Section accounting.
Context {oth : Others}.

(** The result of [sched_yield] by the running thread with stack pointer [sp]:
    zombies without a living parent are gone, the next ready thread of the queue
    runs on its saved stack and in its address space, the old one is ready with
    its stack saved, nobody else in the queue changed. *)
Record yielded (sp : Z) (s : sched) (l zs : list Z) (s' : sched) : Prop := Yielded {
  yd_system : system s' l (filter (λ z, has_parent (threads s) l z = true) zs);
  yd_current : current s' = successor s l;
  yd_cpu : ∃ t, threads s !! successor s l = Some t ∧ cpu_rsp s' = u64 (x_rsp (t_exec t) + 56) ∧ cpu_kstack s' = x_kstack_top (t_exec t) ∧
    mm_cr3 (sc_mmu s') = if x_mmu (t_exec t) =? 0 then kernel_root (sc_mmu s) else x_mmu (t_exec t);
  yd_saved : ∃ t', threads s' !! current s = Some t' ∧ x_rsp (t_exec t') = u64 (sp - 48);
  yd_ready : successor s l ≠ current s → is_ready (threads s') (current s) = true;
  yd_others : ∀ a, a ∈ main_thread :: l → a ≠ current s → a ≠ successor s l → threads s' !! a = threads s !! a }.

Section ops.
Context {env : VfsEnv} {senv : SchedEnv}.

Lemma successor_in s l zs : sched_ok s l zs → successor s l ∈ main_thread :: l.
Proof.
  intros Hok. destruct (ok_current s l zs Hok) as [Hc _]. unfold successor. destruct (first_ready _ _) as [p|] eqn:Hf; simpl; [|done].
  apply first_ready_in in Hf as [Hp _]. by eapply rot_in.
Qed.

Lemma wp_yielded sp s l zs (Q : unit → sched → Prop) :
  system s l zs → (∀ s', yielded sp s l zs s' → Q tt s') → wp (sched_yield sp) Q s.
Proof.
  intros Hsy HQ. pose proof (sy_ok _ _ _ Hsy) as Hok. pose proof (so_queue _ _ _ Hok) as Hq. destruct (ok_current s l zs Hok) as [Hc [t Ht]].
  pose proof (successor_in s l zs Hok) as Hsin.
  apply (wp_sched_yield s l zs Hok sp). cbn zeta. intros s1 s2 s' Hre Hs2 Hsw Hok'. apply HQ.
  pose proof Hre as [_ _ _ _ Rv Ro Rk Rh Rr]. pose proof Hsw as [Sc St (tn & Htn & Srsp & Stop) (tn' & Htn' & Scr) Sf].
  assert (∀ a, a ∈ main_thread :: l → threads s1 !! a = threads s !! a) as Hring.
  { intros a Ha. by apply Ro, (q_ring_zombie _ _ _ _ Hq). }
  assert (∀ a, threads s2 !! a = (λ t, if decide (a = current s) then ready_thread t else t) <$> threads s1 !! a) as H2.
  { intros a. rewrite Hs2. cbn [threads set_threads]. by rewrite alter_at. }
  assert (∀ a, threads s' !! a = (λ t, (if decide (a = current s) then save_rsp sp else id) ((if decide (a = successor s l) then run_thread else id)
    (if decide (a = current s) then ready_thread t else t))) <$> threads s1 !! a) as H3.
  { intros a. rewrite St, !alter_at, H2. destruct (threads s1 !! a); [|done]. simpl. by repeat case_decide. }
  split; [|done|..].
  - assert (sc_vfs s' = sc_vfs s2 ∧ sc_heap s' = sc_heap s2) as [Ev Eh] by (split; [apply (fr_vfs _ _ Sf)|apply (fr_heap _ _ Sf)]).
    eapply system_shrink; [exact Hsy|done| | | |].
    + intros z Hz. by apply list_elem_of_filter in Hz as [_ ?].
    + rewrite Ev, Hs2. exact Rv.
    + rewrite Eh, Hs2. exact Rh.
    + intros a t' Ha. rewrite H3 in Ha. destruct (threads s1 !! a) as [u|] eqn:Hu; [|done]. injection Ha as <-.
      assert (∃ v, threads s !! a = Some v ∧ t_files u = t_files v) as (v & Hv & E).
      { destruct (decide (a ∈ zs)) as [Hz|Hz]; [|exists u; by rewrite <-Ro].
        destruct (decide (a ∈ filter (λ z, has_parent (threads s) l z = true) zs)) as [Hz'|Hz'].
        - destruct (Rk a u Hz' Hu) as (x & n & Hx & ->). eauto.
        - exfalso. assert (is_Some (threads s' !! a)) as Hin by (rewrite H3, Hu; eauto).
          apply (q_all _ _ _ _ (so_queue _ _ _ Hok')) in Hin. pose proof (q_nodup _ _ _ _ Hq) as Hnd.
          change (idle_thread :: main_thread :: l ++ zs) with ((idle_thread :: main_thread :: l) ++ zs) in Hnd.
          apply NoDup_app in Hnd as (_ & Hdis & _). apply (Hdis a); [|done]. set_unfold. tauto. }
      exists v. split; [done|]. by repeat case_decide.
  - assert (threads s2 !! successor s l = Some tn) as Hn2 by done. rewrite H2, Hring in Hn2 by done.
    destruct (threads s !! successor s l) as [u|] eqn:Hu; [|done]. exists u. split; [done|].
    assert (tn' = tn) as -> by congruence. injection Hn2 as Hn2.
    assert (t_exec tn = t_exec u) as E by (subst tn; by case_decide). rewrite E in Srsp, Stop, Scr. split_and!; [done|done|].
    rewrite Scr, Hs2. cbn. by rewrite Rr.
  - rewrite H3, Hring, Ht by done. eexists. split; [done|]. by rewrite decide_True.
  - intros Hne. unfold is_ready. rewrite H3, Hring, Ht by done. simpl. rewrite !(decide_True (P := current s = current s)) by done.
    by rewrite decide_False.
  - intros a Ha H1 Hn. rewrite H3, Hring by done. destruct (threads s !! a); [|done]. simpl. by repeat case_decide.
Qed.

(** ** Fairness *)

Lemma rot_next c c' R u w : NoDup R → c ∈ R → rot c R = u ++ c' :: w → rot c' R = w ++ c :: u.
Proof.
  intros Hnd Hc Hr. apply list_elem_of_split in Hc as (p & q & ->).
  assert (c ∉ p) as Hcp. { apply NoDup_app in Hnd as (_ & Hd & _). intros Hin. apply (Hd c Hin). by left. }
  rewrite rot_split in Hr by done. apply app_eq_app in Hr as (k & [[-> Hp]|[-> Hp]]).
  - destruct k as [|x k]; simplify_eq/=.
    + rewrite app_nil_r in *. pose proof (rot_split c' [] (w ++ c :: u) (not_elem_of_nil c')) as E. simpl in E. by rewrite E, app_nil_r.
    + assert (p ++ c :: u ++ x :: k = (p ++ c :: u) ++ x :: k) as E by (by rewrite <-app_assoc). rewrite E in Hnd |- *.
      rewrite rot_split; [by rewrite <-app_assoc|]. apply NoDup_app in Hnd as (_ & Hd & _). intros Hin. apply (Hd x Hin). by left.
  - subst p. rewrite <-app_assoc in Hnd |- *. simpl in Hnd |- *. rewrite rot_split; [by rewrite <-app_assoc|].
    apply NoDup_app in Hnd as (_ & Hd & _). intros Hin. apply (Hd c' Hin). by left.
Qed.

Lemma first_ready_split ts ls a : a ∈ ls → is_ready ts a = true →
  ∃ u b w, ls = u ++ b :: w ∧ first_ready ts ls = Some b ∧ (b = a ∨ (a ∈ w)).
Proof.
  intros Ha Hr. induction ls as [|x ls IH]; [by apply not_elem_of_nil in Ha|]. rewrite first_ready_cons. destruct (is_ready ts x) eqn:Hx.
  - exists [], x, ls. split; [done|]. split; [done|]. apply elem_of_cons in Ha as [->|?]; [by left|by right].
  - apply elem_of_cons in Ha as [->|Ha]; [congruence|]. destruct (IH Ha) as (u & b & w & -> & Hf & Hb). exists (x :: u), b, w. done.
Qed.

(** The running threads yield one after the other; [sps] are their stack pointers. *)
Fixpoint yields (sps : list Z) : M sched unit :=
  match sps with
  | [] => mret tt
  | sp :: sps' => sched_yield sp ;; yields sps'
  end.

(** Where [a] stands behind the running thread. *)
Definition turns (a c : Z) (R : list Z) (k : nat) : Prop := ∃ u w, rot c R = u ++ a :: w ∧ length u = k.

Lemma wp_fair n : ∀ s l zs a sps k,
  system s l zs → turns a (current s) (main_thread :: l) k → is_ready (threads s) a = true → (k < n)%nat → length sps = n →
  ∃ j, (j ≤ n)%nat ∧ wp (yields (take j sps)) (λ _ s', current s' = a ∧ ∃ zs', system s' l zs') s.
Proof.
  induction n as [|n IH]; intros s l zs a sps k Hsy (u & w & Hrot & <-) Hra Hk Hlen; [lia|].
  destruct sps as [|sp sps]; [done|]. injection Hlen as Hlen. pose proof (sy_ok _ _ _ Hsy) as Hok. pose proof (so_queue _ _ _ Hok) as Hq.
  destruct (ok_current s l zs Hok) as [Hc _]. set (R := main_thread :: l) in *.
  pose proof (q_ring_nodup _ _ _ _ Hq) as HndR. fold R in HndR.
  assert (NoDup (current s :: rot (current s) R)) as Hnd by (by rewrite rot_perm).
  destruct (first_ready_split (threads s) (rot (current s) R) a) as (u' & b & w' & Hrot' & Hf & Hb); [rewrite Hrot; set_solver|done|].
  assert (successor s l = b) as Hsucc by (unfold successor; fold R; by rewrite Hf).
  destruct (decide (b = a)) as [->|Hba].
  - exists 1%nat. split; [lia|]. simpl. wp_step. eapply wp_yielded; [done|]. intros s' Hy. wp_step. rewrite (yd_current _ _ _ _ _ Hy). split; [done|].
    eexists. apply (yd_system _ _ _ _ _ Hy).
  - destruct Hb as [?|Haw]; [done|]. apply list_elem_of_split in Haw as (w1 & w2 & ->).
    assert (rot b R = (w1 ++ a :: w2) ++ current s :: u') as Hnext by (by eapply rot_next).
    assert (length w1 < length u)%nat as Hlt.
    { rewrite Hrot' in Hrot. rewrite app_comm_cons, app_assoc in Hrot.
      rewrite Hrot' in Hnd. apply NoDup_cons in Hnd as [_ Hnd]. rewrite app_comm_cons, app_assoc in Hnd.
      assert (u = u' ++ b :: w1) as ->; [|rewrite length_app; simpl; lia].
      apply app_eq_app in Hrot as (k & [[E1 E2]|[E1 E2]]).
      - destruct k as [|x k]; [by rewrite app_nil_r in E1|]. exfalso. injection E2 as <- E2.
        apply NoDup_app in Hnd as (_ & Hd & _). apply (Hd a); [rewrite E1; set_solver|by left].
      - destruct k as [|x k]; [by rewrite app_nil_r in E1|]. exfalso. injection E2 as <- E2.
        apply NoDup_app in Hnd as (_ & _ & Hd). apply NoDup_cons in Hd as [Hd _]. apply Hd. rewrite E2. set_solver. }
    assert (a ≠ current s) as Hac.
    { intros ->. apply NoDup_cons in Hnd as [Hn _]. apply Hn. rewrite Hrot. set_solver. }
    assert (a ∈ R) as HaR by (rewrite <-(rot_perm (current s) R) by done; rewrite Hrot; set_solver).
    assert (∀ s', yielded sp s l zs s' → ∃ j, (j ≤ n)%nat ∧ wp (yields (take j sps)) (λ _ s', current s' = a ∧ ∃ zs', system s' l zs') s') as Hgo.
    { intros s' Hy. eapply (IH s' l _ a sps (length w1)); [apply (yd_system _ _ _ _ _ Hy)| | |lia|done].
      - exists w1, (w2 ++ current s :: u'). rewrite (yd_current _ _ _ _ _ Hy), Hsucc. fold R. rewrite Hnext, <-app_assoc. done.
      - unfold is_ready. rewrite (yd_others _ _ _ _ _ Hy a HaR Hac); [done|congruence]. }
    assert (wp (sched_yield sp) (λ _ s', yielded sp s l zs s') s) as Hy by (by eapply wp_yielded).
    apply wp_ok in Hy as ([] & s' & Hrun & Hy). destruct (Hgo s' Hy) as (j & Hj & Hwp). exists (S j). split; [lia|].
    simpl. wp_step. apply wp_ok. by exists tt, s'.
Qed.

(** ** Blocking, waking, the timer *)

(** The result of blocking with stack pointer [sp]. *)
Record suspended (sp : Z) (s : sched) (l zs : list Z) (s' : sched) : Prop := Suspended {
  su_system : system s' l zs;
  su_current : current s' = successor s l;
  su_runs : successor s l ≠ current s;
  su_blocked : ∃ t t', threads s !! current s = Some t ∧ threads s' !! current s = Some t' ∧
    t_state t' = THREAD_BLOCKED ∧ x_rsp (t_exec t') = u64 (sp - 48) ∧ t_sleep_deadline_ns t' = t_sleep_deadline_ns t;
  su_others : ∀ a, a ≠ current s → a ≠ successor s l → threads s' !! a = threads s !! a;
  su_vfs : sc_vfs s' = sc_vfs s }.

Lemma successor_other s l zs : sched_ok s l zs → current s ≠ main_thread → successor s l ≠ current s.
Proof.
  intros Hok Hnm Heq. pose proof (so_queue _ _ _ Hok) as Hq. destruct (ok_current s l zs Hok) as [Hc _].
  pose proof (q_ring_nodup _ _ _ _ Hq) as HndR.
  assert (NoDup (current s :: rot (current s) (main_thread :: l))) as Hnd by (by rewrite rot_perm).
  assert (main_thread ∈ rot (current s) (main_thread :: l)) as Hin.
  { assert (main_thread ∈ current s :: rot (current s) (main_thread :: l)) as Hin by (rewrite rot_perm by done; by left).
    apply elem_of_cons in Hin as [?|?]; [congruence|done]. }
  destruct (q_member _ _ _ _ Hq main_thread) as [m Hm]; [by left|].
  assert (is_ready (threads s) main_thread = true) as Hr.
  { unfold is_ready. rewrite Hm. destruct (q_states _ _ _ _ Hq main_thread m) as [_ Hst]; [by left|done|]. destruct Hst as [->|[_ ?]]; done. }
  destruct (first_ready_split _ _ _ Hin Hr) as (u & b & w & Hrot & Hf & _). unfold successor in Heq. rewrite Hf in Heq. simpl in Heq. subst b.
  apply NoDup_cons in Hnd as [Hn _]. apply Hn. rewrite Hrot. set_solver.
Qed.

Lemma wp_suspended sp s l zs (Q : unit → sched → Prop) :
  system s l zs → current s ≠ main_thread → (∀ s', suspended sp s l zs s' → Q tt s') → wp (sched_suspend sp) Q s.
Proof.
  intros Hsy Hnm HQ. pose proof (sy_ok _ _ _ Hsy) as Hok. destruct (ok_current s l zs Hok) as [Hc [t Ht]].
  pose proof (successor_other s l zs Hok Hnm) as Hne.
  apply (wp_sched_suspend s l zs Hok sp); [done|]. intros s' Hsw Hok'. pose proof Hsw as [Sc St _ _ Sf]. cbn [threads set_threads] in St.
  assert (∀ a, threads s' !! a = (λ t, (if decide (a = current s) then save_rsp sp else id) ((if decide (a = successor s l) then run_thread else id)
    (if decide (a = current s) then set_state THREAD_BLOCKED t else t))) <$> threads s !! a) as H3.
  { intros a. rewrite St, !alter_at. destruct (threads s !! a); [|done]. simpl. by repeat case_decide. }
  apply HQ. split; [|done|done|..].
  - eapply system_same; [done|done|]. split; [apply (fr_vfs _ _ Sf)|]. split; [apply (fr_heap _ _ Sf)|]. intros a. rewrite H3.
    destruct (threads s !! a); [|done]. simpl. by repeat case_decide.
  - rewrite H3, Ht. eexists _, _. split; [done|]. simpl. split; [done|]. rewrite !(decide_True (P := current s = current s)) by done.
    by rewrite decide_False by done.
  - intros a H1 H2. rewrite H3. destruct (threads s !! a); [|done]. simpl. by repeat case_decide.
  - apply (fr_vfs _ _ Sf).
Qed.

(** [sched_tick] counts down the quantum of the running thread and wakes exactly
    the sleepers of the queue whose deadline has come. *)
Record ticked (now : Z) (s : sched) (l zs : list Z) (s' : sched) : Prop := Ticked {
  tc_system : system s' l zs;
  tc_current : current s' = current s;
  tc_threads : ∀ a, threads s' !! a = (λ t, (if decide (a ∈ main_thread :: l) then expire now else id)
                                             ((if decide (a = current s) then tick_down else id) t)) <$> threads s !! a }.

Lemma wp_ticked now s l zs (Q : unit → sched → Prop) :
  system s l zs → (∀ s', ticked now s l zs s' → Q tt s') → wp (sched_tick now) Q s.
Proof.
  intros Hsy HQ. apply (wp_sched_tick s l zs now); [apply (sy_ok _ _ _ Hsy)|]. intros s' Hok' _ Hr Hmap. apply HQ.
  split; [|by rewrite Hr|done]. eapply system_same; [done|done|]. split; [by rewrite Hr|]. split; [by rewrite Hr|]. intros a. rewrite Hmap.
  destruct (threads s !! a) as [t|]; [|done]. simpl. unfold expire, tick_down. repeat case_decide; unfold id; by repeat case_match.
Qed.

(** ** Exiting *)

(** The result of exiting: the descriptors are closed, the thread is a zombie
    outside the queue [l1 ++ l2] and [main_thread] runs; the nodes lost exactly
    the references of its descriptors. *)
Record exited (status : Z) (s : sched) (l1 l2 zs : list Z) (s' : sched) : Prop := Exited {
  ex_system : system s' (l1 ++ l2) (current s :: zs);
  ex_current : current s' = main_thread;
  ex_status : t_exit_status <$> threads s' !! current s = Some status;
  ex_tables : ∃ tb, tables (threads s') = <[current s := tb]> (tables (threads s)) ∧ ∀ f, f ∈ tb → f_used f = false;
  ex_refs : recounted (sc_vfs s) (sc_vfs s') (tables (threads s)) (tables (threads s')) }.

Lemma tables_quiet_exit s st a : tables (threads (set_threads (alter (set_exit st) a) s)) = tables (threads s).
Proof.
  apply map_eq. intros b. unfold tables. rewrite !lookup_fmap. cbn. rewrite alter_at. destruct (threads s !! b); [|done]. simpl. by case_decide.
Qed.

Lemma same_files_tables s s' : same_files s s' → tables (threads s') = tables (threads s).
Proof.
  intros (_ & _ & Hf). apply map_eq. intros a. unfold tables. rewrite !lookup_fmap. specialize (Hf a).
  destruct (threads s' !! a), (threads s !! a); try done. injection Hf as E _. cbn. unfold fds. congruence.
Qed.

Lemma wp_exited {free_local : InodeFree} sp status s l1 l2 zs (Q : unit → sched → Prop) :
  system s (l1 ++ current s :: l2) zs → current s ≠ main_thread → current s ≠ g_init_thread s → waiters (sc_vfs s) (main_thread :: l1 ++ l2) →
  (∀ s', exited status s l1 l2 zs s' → Q tt s') → wp (sched_exit sp status) Q s.
Proof.
  intros Hsy Hnm Hni Hw HQ. pose proof (sy_ok _ _ _ Hsy) as Hok. pose proof (so_queue _ _ _ Hok) as Hq. set (c := current s) in *.
  destruct (q_member _ _ _ _ Hq c) as [x Hx]; [set_solver|]. set (s1 := set_threads (alter (set_exit status) c) s).
  assert (tables (threads s1) = tables (threads s)) as HT1 by apply tables_quiet_exit.
  eapply (wp_sched_exit s l1 l2 zs sp status (λ s2, waiters (sc_vfs s2) (main_thread :: l1 ++ l2) ∧ accounted (sc_vfs s2) (tables (threads s2)) ∧
    ∃ tb, tables (threads s2) = <[c := tb]> (tables (threads s)) ∧ ∀ f, f ∈ tb → f_used f = false)); [done|done|done| |].
  - eapply (wp_thread_close_fds s1 (main_thread :: l1 ++ l2) c (fds x)).
    + rewrite HT1. by apply tables_at.
    + rewrite HT1. apply (sy_files _ _ _ Hsy).
    + done.
    + intros a Ha. destruct (q_member _ _ _ _ Hq a) as [t Ht]; [set_unfold; tauto|]. unfold s1. cbn. rewrite alter_at, Ht. eauto.
    + intros s' Hqu Hw' Hac' (tb & HT & Hun). split; [done|]. split_and!; [done|done|]. exists tb. by rewrite HT, HT1.
  - intros s2 s' Hqu (Hw2 & Hac2 & tb & HT2 & Hun) Hsf Hok' Hc'. apply HQ. pose proof (same_files_tables _ _ Hsf) as HT'. destruct Hsf as (Ev & Eh & Hf).
    enough (system s' (l1 ++ l2) (c :: zs)) as Hsys.
    { split; [done|done| |exists tb; by rewrite HT', HT2|by apply accounted_recount; [apply Hsy|apply Hsys]].
        destruct Hqu as [[H1 _] _]. destruct (H1 c (set_exit status x)) as (x2 & Hx2 & f & st & q & d & -> & _); [unfold s1; cbn; rewrite alter_at, Hx; cbn; by case_decide|].
        specialize (Hf c). rewrite Hx2 in Hf. fold c. destruct (threads s' !! c) as [x'|]; [|done]. injection Hf as _ E. cbn. by f_equal. }
    split; [done|..].
    + by rewrite Ev, HT'.
    + by rewrite Ev.
    + intros z t' Hz Ht'. assert (tables (threads s') !! z = Some (fds t')) as E by (by apply tables_at).
      rewrite HT', HT2 in E. apply elem_of_cons in Hz as [->|Hz].
      * rewrite lookup_insert_eq in E. injection E as ->. exact Hun.
      * assert (z ≠ c) as Hzc. { intros ->. apply (q_ring_zombie _ _ _ _ Hq c); [set_solver|done]. }
        rewrite lookup_insert_ne in E by done. apply tables_inv in E as (t & Ht & E). unfold no_files. rewrite E. by apply (sy_dead _ _ _ Hsy z).
    + rewrite Eh. pose proof (qu_rest _ _ Hqu) as Hr. rewrite Hr. cbn. apply (sy_heap _ _ _ Hsy).
Qed.
End ops.

(** ** Booting *)

(** Before [sched_init]: the two static threads, no others, files in order. *)
Record before_init (s : sched) : Prop := BeforeInit {
  bi_threads : ∀ a, is_Some (threads s !! a) ↔ a ∈ [idle_thread; main_thread];
  bi_zombie : zombie_head s = 0;
  bi_fresh : idle_thread < sc_fresh s;
  bi_init : g_init_dead s = false;
  bi_pmm : wf (mm_pmm (sc_mmu s));
  bi_files : accounted (sc_vfs s) (tables (threads s));
  bi_waiters : waiters (sc_vfs s) [main_thread];
  bi_heap : heap_shape (sc_heap s) }.

Lemma wp_sched_init sy s (Q : unit → sched → Prop) :
  before_init s → (∀ s', system s' [] [] → current s' = main_thread → Q tt s') → wp (sched_init sy) Q s.
Proof.
  intros [Hd Hz Hf Hi Hp Hac Hw Hh] HQ.
  destruct (proj2 (Hd main_thread)) as [m Hm]; [set_solver|]. destruct (proj2 (Hd idle_thread)) as [i Him]; [set_solver|].
  unfold sched_init, sched_new_pid. wp_step. wp_step. wp_step. apply wp_zoom. unfold vmm_kernel_root. wp_step.
  wp_step. wp_step. wp_step. wp_step. wp_step. wp_step. wp_step. eapply wp_upd; [exact Hm|]. wp_step. wp_step.
  wp_step. wp_step. wp_step. wp_step. wp_step. wp_step.
  eapply wp_upd; [cbn; rewrite lookup_insert_ne by done; exact Him|].
  match goal with |- Q tt ?x => set (s' := x) end.
  assert (∃ m' i', threads s' = <[idle_thread := i']> (<[main_thread := m']> (threads s)) ∧
    t_next m' = main_thread ∧ t_prev m' = main_thread ∧ t_state m' = THREAD_RUNNING ∧ t_state i' = THREAD_READY ∧
    fds m' = fds m ∧ fds i' = fds i ∧ x_mmu (t_exec m') = kernel_root (sc_mmu s) ∧ x_mmu (t_exec i') = kernel_root (sc_mmu s) ∧
    x_stack_base (t_exec m') = 0 ∧ x_stack_base (t_exec i') = 0) as (m' & i' & Ht & M1 & M2 & M3 & I1 & M4 & I2 & M5 & I3 & M6 & I4).
  { eexists _, _. split; [done|]. by split_and!. }
  assert (sc_mmu s' = sc_mmu s ∧ zombie_head s' = zombie_head s ∧ ready_head s' = main_thread ∧ current s' = main_thread ∧ sc_fresh s' = sc_fresh s ∧
    g_init_dead s' = g_init_dead s ∧ sc_vfs s' = sc_vfs s ∧ sc_heap s' = sc_heap s) as (E1 & E2 & E3 & E4 & E5 & E6 & E7 & E8).
  { by destruct s as [? ? ? ? ? ? ? ? ? ? ? [] ? ?]. }
  clearbody s'.
  assert (threads s' !! main_thread = Some m') as Hm' by (rewrite Ht, lookup_insert_ne by done; by rewrite lookup_insert_eq).
  assert (threads s' !! idle_thread = Some i') as Hi' by (by rewrite Ht, lookup_insert_eq).
  assert (∀ a, is_Some (threads s' !! a) ↔ a ∈ [idle_thread; main_thread]) as Hd'.
  { intros a. rewrite <-Hd, Ht. destruct (decide (a = idle_thread)) as [->|H1]; [rewrite lookup_insert_eq, Him; split; eauto|].
    rewrite lookup_insert_ne by done. destruct (decide (a = main_thread)) as [->|H2]; [rewrite lookup_insert_eq, Hm; split; eauto|].
    by rewrite lookup_insert_ne. }
  assert (∀ a t, threads s' !! a = Some t → t = m' ∨ t = i') as Hcases.
  { intros a t Ha. assert (a ∈ [idle_thread; main_thread]) as Hin by (apply Hd'; eauto). set_unfold. destruct Hin as [->|[->|[]]]; [right|left]; congruence. }
  assert (tables (threads s') = tables (threads s)) as HT.
  { rewrite Ht. rewrite (tables_insert _ idle_thread i i') by (try done; by rewrite lookup_insert_ne). by rewrite (tables_insert _ main_thread m m'). }
  assert (∀ t f, t = m' ∨ t = i' → ¬ owns (sc_mmu s) t f) as Hno.
  { intros t f [-> | ->] [[Hs _]|(_ & Hk & _)]; congruence. }
  apply HQ; [|done]. split; [split|rewrite E7, HT; done|by rewrite E7|by intros z t ?%not_elem_of_nil|by rewrite E8].
  - split.
    + done.
    + simpl. unfold adj. split; exists m'; done.
    + simpl. congruence.
    + repeat constructor; set_solver.
    + intros a Ha. rewrite E5. apply Hd' in Ha. unfold main_thread, idle_thread in *. set_unfold. destruct Ha as [->|[->|[]]]; lia.
    + intros a. rewrite Hd'. simpl. done.
    + right. rewrite E4. by left.
    + intros a t Ha Hta. rewrite E4. apply list_elem_of_singleton in Ha as ->. assert (t = m') as -> by congruence. split; [done|]. by intros [].
    + by intros z t ?%not_elem_of_nil.
  - rewrite E1. split; [done|..].
    + intros a t Ha. destruct (Hcases a t Ha) as [-> | ->]; right; left; congruence.
    + intros a t Ha. destruct (Hcases a t Ha) as [-> | ->]; [rewrite M6|rewrite I4]; lia.
    + intros a t f Ha Ho. by destruct (Hno t f (Hcases a t Ha)).
    + intros a b t u f Ha _ Ho. by destruct (Hno t f (Hcases a t Ha)).
  - by rewrite E4.
  - unfold is_ready. rewrite Hi', I1. done.
  - congruence.
Qed.

(** ** Histories *)

Inductive sop :=
  | OpYield (sp : Z) | OpSuspend (sp : Z) | OpSleep (sp now ns : Z) | OpWake (a : Z) | OpTick (now : Z)
  | OpExit (sp status : Z) | OpSpawn (func arg : Z) (name : list Z)
  | OpFork (root rip user_rsp rflags : Z) (name : list Z) (r : uregs) | OpReap (z : Z).

(** When an operation may be asked for.  The boot thread neither blocks nor
    exits, init does not exit, a thread that exits is not recorded as the reader
    of a pipe, a new address space is nobody else's and the reference counts have
    room for one more table of descriptors. *)
Definition sop_ok (s : sched) (op : sop) : Prop :=
  match op with
  | OpYield _ | OpTick _ | OpSpawn _ _ _ => True
  | OpSuspend _ | OpSleep _ _ _ => current s ≠ main_thread
  | OpWake a => a = 0 ∨ is_Some (threads s !! a)
  | OpExit _ _ => current s ≠ main_thread ∧ current s ≠ g_init_thread s ∧ ∀ p q, vf_pipes (sc_vfs s) !! p = Some q → p_wait_reader q ≠ current s
  | OpFork root _ _ _ _ _ => root_apart (sc_mmu s) (threads s) root ∧ room (Z.of_nat MAX_FD) (sc_vfs s)
  | OpReap z => ∃ t, threads s !! z = Some t ∧ t_state t = THREAD_ZOMBIE
  end.

Section histories.
Context {env : VfsEnv} {senv : SchedEnv} {free_local : InodeFree} (sy : symbols).

Definition run_sop (op : sop) : M sched unit :=
  match op with
  | OpYield sp => sched_yield sp
  | OpSuspend sp => sched_suspend sp
  | OpSleep sp now ns => sched_sleep_ns sp now ns
  | OpWake a => sched_wake a
  | OpTick now => sched_tick now
  | OpExit sp status => sched_exit sp status
  | OpSpawn func arg name => sched_spawn sy func arg name ;; mret tt
  | OpFork root rip user_rsp rflags name r => sched_spawn_user_in sy root rip user_rsp rflags name r ;; mret tt
  | OpReap z => sched_reap_zombie z
  end.

Lemma zombie_member s l zs z t : sched_ok s l zs → threads s !! z = Some t → t_state t = THREAD_ZOMBIE → z ∈ zs.
Proof.
  intros Hok Hz Ht. pose proof (so_queue _ _ _ Hok) as Hq.
  assert (z ∈ idle_thread :: main_thread :: l ++ zs) as Hin by (apply (q_all _ _ _ _ Hq); eauto).
  apply elem_of_cons in Hin as [->|Hin].
  { pose proof (so_idle _ _ _ Hok) as Hi. unfold is_ready in Hi. rewrite Hz, bool_decide_eq_true in Hi. congruence. }
  rewrite app_comm_cons in Hin. apply elem_of_app in Hin as [Hin|Hin]; [|done]. exfalso.
  destruct (q_states _ _ _ _ Hq z t Hin Hz) as [Hr Hn]. destruct (decide (z = current s)) as [E|E].
  - rewrite (Hr E) in Ht. done.
  - destruct (Hn E) as [?|[? _]]; congruence.
Qed.

Lemma wp_sop op s l zs :
  system s l zs → sop_ok s op → wp (run_sop op) (λ _ s', ∃ l' zs', system s' l' zs') s.
Proof.
  intros Hsy Hop. pose proof (sy_ok _ _ _ Hsy) as Hok. destruct (ok_current s l zs Hok) as [Hc [t Ht]].
  destruct op as [sp|sp|sp now ns|a|now|sp status|func arg name|root rip ursp rflags name r|z]; simpl in Hop |- *.
  - eapply wp_yielded; [done|]. intros s' Hy. eexists _, _. apply (yd_system _ _ _ _ _ Hy).
  - eapply wp_suspended; [done|done|]. intros s' Hy. eexists _, _. apply (su_system _ _ _ _ _ Hy).
  - unfold sched_sleep_ns. destruct (ns =? 0); [wp_step; eauto|]. wp_step. wp_step. wp_step. eapply wp_upd; [done|].
    set (s1 := set_threads _ s). assert (quiet s s1) as Hqu.
    { eapply quiet_upd; [done|]. exists (t_files t), (t_state t), (t_quantum t), (u64 (now + ns)). split; [by destruct t|by left]. }
    assert (system s1 l zs) as Hsy1.
    { eapply system_same; [done|by eapply ok_quiet|]. split; [done|]. split; [done|]. intros a. cbn.
      destruct (decide (a = current s)) as [->|]; [by rewrite lookup_insert_eq, Ht|by rewrite lookup_insert_ne]. }
    eapply wp_suspended; [done|done|]. intros s' Hy. eexists _, _. apply (su_system _ _ _ _ _ Hy).
  - apply wp_sched_wake; [done|]. intros s' Hqu Hsf. exists l, zs. eapply system_same; [done|by eapply ok_quiet|done].
  - eapply wp_ticked; [done|]. intros s' Hy. eexists _, _. apply (tc_system _ _ _ _ _ Hy).
  - destruct Hop as (Hnm & Hni & Hnw). assert (current s ∈ l) as Hcl by (apply elem_of_cons in Hc as [?|?]; done).
    apply list_elem_of_split in Hcl as (l1 & l2 & Hl). rewrite Hl in Hsy.
    eapply (wp_exited sp status s l1 l2 zs); [done|done|done| |].
    + intros p q Hq. destruct (sy_waiters _ _ _ Hsy p q Hq) as [?|Hin]; [by left|right]. specialize (Hnw p q Hq). set_unfold. tauto.
    + intros s' Hy. eexists _, _. apply (ex_system _ _ _ _ _ _ Hy).
  - wp_step. eapply wp_sched_spawn; [done| |]; intros; wp_step; eauto.
  - wp_step. destruct Hop as [Hroot Hroom]. eapply wp_spawn_user; [done|done|done| |]; intros; wp_step; eauto.
  - destruct Hop as (x & Hx & Hst). pose proof (zombie_member _ _ _ _ _ Hok Hx Hst) as Hz. apply list_elem_of_split in Hz as (ks & rs & ->).
    eapply wp_sched_reap_zombie; [done|done|]. eauto.
Qed.

(** One permitted operation that returned. *)
Definition sstep (s s' : sched) : Prop := ∃ op, sop_ok s op ∧ run_sop op s = Ok (tt, s').

Lemma steps_system s s' l zs : system s l zs → rtc sstep s s' → ∃ l' zs', system s' l' zs'.
Proof.
  intros Hsy Hr. revert l zs Hsy. induction Hr as [s|s s1 s' (op & Hop & Hrun) _ IH]; intros l zs Hsy; [eauto|].
  pose proof (wp_sop op s l zs Hsy Hop) as Hwp. apply wp_ok in Hwp as ([] & s2 & Hrun' & l' & zs' & Hsy'). assert (s2 = s1) as -> by congruence.
  by eapply IH.
Qed.
End histories.

(** ** The theorems *)

(** What [sched_spawn_user_in] leaves behind. *)
Definition forked (sy : symbols) (root rip user_rsp rflags : Z) (r : uregs) (s : sched) (l zs : list Z) (a : Z) (s' : sched) : Prop :=
  (a = 0 ∧ system s' l zs ∧ threads s' = threads s) ∨
  (a = sc_fresh s ∧ system s' (l ++ [a]) zs ∧ ∃ tn pt, threads s !! current s = Some pt ∧ started s l zs tn s' ∧
     stack_holds s' tn (fork_stack sy rip user_rsp rflags r) ∧ child_of pt root user_rsp tn ∧ t_pid tn = next_pid s).

(** Zombie [z], between [ks] and [rs] in the chain, is gone with its memory. *)
Record gone (l ks : list Z) (z : Z) (rs : list Z) (x : thread) (s s' : sched) : Prop := Gone {
  gn_system : system s' l (ks ++ rs);
  gn_memory : gave (sc_mmu s) (owns (sc_mmu s) x) (sc_mmu s');
  gn_others : ∀ a t, a ∉ ks ++ z :: rs → threads s !! a = Some t → threads s' !! a = Some t }.

(** No thread of the queue but the running one can run. *)
Definition alone (s : sched) (l : list Z) : Prop := first_ready (threads s) (rot (current s) (main_thread :: l)) = None.

Section theorems.
Context {env : VfsEnv} {senv : SchedEnv} {free_local : InodeFree} (sy : symbols).

(** C1: from boot on, over every history of permitted steps - threads yield,
    block, sleep, wake others, get ticks, are spawned and forked, exit and are
    waited for - the run queue stays a ring of exactly the living threads,
    zombies are chained apart, nobody uses memory of another thread or free
    memory, the count of every node is exactly its descriptors and the references
    others had at boot, and no permitted step faults or loops.  A step is
    permitted ([sop_ok]) when the boot thread does not block or exit, init does
    not exit, a thread that exits is not recorded as the reader of a pipe, what
    is reaped is a zombie, and a fork has an address space of its own and room
    for its references.  The code does not check these: [suspend_last_thread]
    shows what happens when the last thread that can run blocks. *)
Theorem sched_history_system s s0 s' :
  before_init s → sched_init sy s = Ok (tt, s0) → rtc (sstep sy) s0 s' →
  (∃ l zs, system s' l zs) ∧ ∀ op, sop_ok s' op → ∃ s'', run_sop sy op s' = Ok (tt, s'').
Proof.
  intros Hb Hi Hr. assert (system s0 [] []) as Hsy.
  { assert (wp (sched_init sy) (λ _ s1, system s1 [] []) s) as Hwp by (apply wp_sched_init; [done|auto]).
    apply wp_ok in Hwp as ([] & s1 & Hi' & ?). by assert (s1 = s0) as -> by congruence. }
  destruct (steps_system sy s0 s' [] [] Hsy Hr) as (l & zs & Hsy'). split; [eauto|].
  intros op Hop. pose proof (wp_sop sy op s' l zs Hsy' Hop) as Hwp. apply wp_ok in Hwp as ([] & s'' & ? & _). eauto.
Qed.

(** C4: [sched_yield] returns; the thread that runs next is the first ready one
    after the caller in queue order (the caller itself if there is none), on its
    saved stack and in its address space; the caller is ready and its stack
    pointer saved; zombies without a living parent are released and nobody else
    in the queue changes. *)
Theorem sched_yield_round_robin sp s l zs :
  system s l zs → ∃ s', sched_yield sp s = Ok (tt, s') ∧ yielded sp s l zs s'.
Proof.
  intros Hsy. assert (wp (sched_yield sp) (λ _ s', yielded sp s l zs s') s) as Hwp by (by eapply wp_yielded).
  apply wp_ok in Hwp as ([] & s' & ? & ?). eauto.
Qed.

(** C5: a ready thread is not starved: if the running threads yield, it runs
    after at most as many switches as there are threads in the queue. *)
Theorem sched_yield_fair s l zs a sps :
  system s l zs → a ∈ main_thread :: l → is_ready (threads s) a = true → length sps = length (main_thread :: l) →
  ∃ j s', (j ≤ length (main_thread :: l))%nat ∧ yields (take j sps) s = Ok (tt, s') ∧ current s' = a.
Proof.
  intros Hsy Ha Hr Hlen. pose proof (sy_ok _ _ _ Hsy) as Hok. pose proof (so_queue _ _ _ Hok) as Hq. destruct (ok_current s l zs Hok) as [Hc [t Ht]].
  pose proof (q_ring_nodup _ _ _ _ Hq) as Hnd.
  assert (a ≠ current s) as Hne.
  { intros ->. destruct (q_states _ _ _ _ Hq _ t Hc Ht) as [Hrun _]. unfold is_ready in Hr. rewrite Ht, bool_decide_eq_true, Hrun in Hr; done. }
  assert (a ∈ rot (current s) (main_thread :: l)) as Hin.
  { assert (a ∈ current s :: rot (current s) (main_thread :: l)) as Hin by (by rewrite rot_perm). by apply elem_of_cons in Hin as [?|?]. }
  apply list_elem_of_split in Hin as (u & w & Hrot).
  assert (length u < length (main_thread :: l))%nat as Hlt.
  { pose proof (Permutation_length (rot_perm _ _ Hc Hnd)) as E. rewrite <-E. rewrite Hrot. simpl. rewrite length_app. simpl. lia. }
  destruct (wp_fair (length (main_thread :: l)) s l zs a sps (length u)) as (j & Hj & Hwp); [done|by exists u, w|done|done|done|].
  apply wp_ok in Hwp as ([] & s' & ? & ? & _). eauto.
Qed.

(** [sched_tick] takes one from the quantum of the running thread and wakes
    exactly the threads of the queue that sleep until [now] or earlier; nothing
    else changes. *)
Theorem sched_tick_wakes now s l zs :
  system s l zs → ∃ s', sched_tick now s = Ok (tt, s') ∧ ticked now s l zs s'.
Proof.
  intros Hsy. assert (wp (sched_tick now) (λ _ s', ticked now s l zs s') s) as Hwp by (by eapply wp_ticked).
  apply wp_ok in Hwp as ([] & s' & ? & ?). eauto.
Qed.


(** C31: [sched_spawn_user_in] returns 0 and leaves the threads as they are, or
    the address of a new thread at the end of the run queue: a child of the
    running thread with its files (each reference counted) and rights, whose
    kernel stack holds the frame that enters user mode at [rip]. *)
Theorem sched_fork_child root rip user_rsp rflags name r s l zs :
  system s l zs → root_apart (sc_mmu s) (threads s) root → room (Z.of_nat MAX_FD) (sc_vfs s) →
  ∃ a s', sched_spawn_user_in sy root rip user_rsp rflags name r s = Ok (a, s') ∧ forked sy root rip user_rsp rflags r s l zs a s'.
Proof.
  intros Hsy Hroot Hroom. apply wp_ok. eapply wp_spawn_user; [done|done|done| |].
  - intros s' H1 H2 _. by left.
  - intros s' tn pt H1 H2 H3 H4 H5 H6. right. split_and!; [done|done|]. exists tn, pt. by split_and!.
Qed.

(** [sched_reap_zombie] returns exactly the memory of the child: the frames
    of its kernel stack and of its address space become free, no other frame
    does, and every other thread is untouched. *)
Theorem sched_reap_gives_back s l ks z rs x :
  system s l (ks ++ z :: rs) → threads s !! z = Some x →
  ∃ s', sched_reap_zombie z s = Ok (tt, s') ∧ gone l ks z rs x s s'.
Proof.
  intros Hsy Hx. assert (wp (sched_reap_zombie z) (λ _ s', gone l ks z rs x s s') s) as Hwp.
  { eapply wp_sched_reap_zombie; [done|done|]. intros s' H1 H2 _ H3. by split. }
  apply wp_ok in Hwp as ([] & s' & ? & ?). eauto.
Qed.

(** A thread that yields while no other thread is ready does not get its own
    stack back: the processor continues on the stack pointer that was saved when
    it was switched out the last time, not on the one saved now. *)
Theorem sched_yield_alone_stale sp s l zs t :
  system s l zs → alone s l → threads s !! current s = Some t →
  ∃ s' t', sched_yield sp s = Ok (tt, s') ∧ current s' = current s ∧ threads s' !! current s = Some t' ∧
    x_rsp (t_exec t') = u64 (sp - 48) ∧ cpu_rsp s' = u64 (x_rsp (t_exec t) + 56).
Proof.
  intros Hsy Hf Ht. assert (successor s l = current s) as Hs by (unfold successor; by rewrite Hf).
  assert (wp (sched_yield sp) (λ _ s', yielded sp s l zs s') s) as Hwp by (by eapply wp_yielded).
  apply wp_ok in Hwp as ([] & s' & Hrun & [Hy1 Hy2 (u & Hu & Hcpu & _) (t' & Ht' & Hrsp) _ _]). rewrite Hs in *.
  exists s', t'. split_and!; [done|done|done|done|]. by assert (u = t) as -> by congruence.
Qed.
End theorems.

End accounting.

(** ** A machine at boot *)

Definition demo_mm : mmu := Mmu (Pmm [0x0F; 0; 0; 0] 32 28 4) demo_mem (1 * PAGE_SIZE) (1 * PAGE_SIZE) 0 4 true true 0 0.
Definition demo_syms : symbols := Symbols 0xFFFF800000010000 0xFFFF800000200000 0xFFFF800000200100 0xFFFF800000200200.
Definition demo_boot : sched :=
  Sched (<[idle_thread := zero_thread]> {[main_thread := zero_thread]}) 0 0 0 1 0 false [] 3 ∅ (vfs_boot [] None) demo_mm 0 0.

#[local] Existing Instance no_others.
#[local] Instance no_respawn : SchedEnv := { respawn_init := mret tt }.
#[local] Instance no_ext_free : @InodeFree no_ext.
Proof. intros ty f n nd v. done. Qed.

Lemma demo_before : before_init demo_boot.
Proof.
  split; try done.
  - intros a. unfold demo_boot. cbn [threads]. destruct (decide (a = idle_thread)) as [->|H1]; [rewrite lookup_insert_eq; split; [set_solver|eauto]|].
    rewrite lookup_insert_ne by done. destruct (decide (a = main_thread)) as [->|H2]; [rewrite lookup_singleton_eq; split; [set_solver|eauto]|].
    rewrite lookup_singleton_ne by done. split; [by intros [? ?]|]. set_unfold. intros [?|[?|[]]]; done.
  - split; cbn; try done.
    + intros a l (t & Ht & ->)%tables_inv. apply lookup_insert_Some in Ht as [[_ <-]|[_ [_ <-]%lookup_singleton_Some]]; done.
    + intros f (a & l & (t & Ht & ->)%tables_inv & Hf) Hu.
      assert (t = zero_thread) as -> by (apply lookup_insert_Some in Ht as [[_ <-]|[_ [_ <-]%lookup_singleton_Some]]; done).
      unfold fds, zero_thread in Hf. cbn [t_files fs_fds] in Hf. apply elem_of_replicate in Hf as [-> _]. done.
  - intros t Ht. by apply not_elem_of_nil in Ht.
Qed.

Definition after (op : sop) (s : sched) : sched := match run_sop demo_syms op s with Ok (_, s') => s' | _ => s end.
Definition demo_0 : sched := match sched_init demo_syms demo_boot with Ok (_, s) => s | _ => demo_boot end.
Definition demo_1 : sched := after (OpSpawn 0xFFFF800000300000 7 [107]) demo_0.
Definition demo_2 : sched := after (OpYield 0xFFFF80000000F000) demo_1.
Definition demo_3 : sched := after (OpExit 0x5000 0) demo_2.

Lemma demo_ok op s s' : run_sop demo_syms op s = Ok (tt, s') → after op s = s'.
Proof. unfold after. by intros ->. Qed.

Lemma sched_history_system_witness :
  (∃ l zs, system demo_3 l zs) ∧ ∀ op, sop_ok demo_3 op → ∃ s'', run_sop demo_syms op demo_3 = Ok (tt, s'').
Proof.
  apply (sched_history_system demo_syms demo_boot demo_0 demo_3); [exact demo_before|by vm_compute|].
  apply (rtc_l _ _ demo_1); [exists (OpSpawn 0xFFFF800000300000 7 [107]); split; [done|by vm_compute]|].
  apply (rtc_l _ _ demo_2); [exists (OpYield 0xFFFF80000000F000); split; [done|by vm_compute]|].
  apply (rtc_l _ _ demo_3); [exists (OpExit 0x5000 0); split; [vm_compute; by split_and!|by vm_compute]|].
  apply rtc_refl.
Defined.

Lemma demo_system_0 : system demo_0 [] [].
Proof.
  assert (wp (sched_init demo_syms) (λ _ s, system s [] []) demo_boot) as Hwp by (apply wp_sched_init; [exact demo_before|auto]).
  apply (proj1 (wp_ok _ _ _)) in Hwp as ([] & s & Hrun & ?). unfold demo_0. by rewrite Hrun.
Qed.

Lemma demo_system_1 : system demo_1 [3] [].
Proof.
  assert (wp (sched_spawn demo_syms 0xFFFF800000300000 7 [107]) (λ r s, r = 3 → system s [3] []) demo_0) as Hwp.
  { eapply wp_sched_spawn; [exact demo_system_0|done|]. intros s' tn Hsy _ _ _ _ _ _. exact Hsy. }
  apply (proj1 (wp_ok _ _ _)) in Hwp as (r & s & Hrun & Hsy).
  assert (r = 3) as ->. { assert ((λ x, match x with Ok (r, _) => r | _ => 0 end) (sched_spawn demo_syms 0xFFFF800000300000 7 [107] demo_0) = 3) as E by (by vm_compute). by rewrite Hrun in E. }
  assert (run_sop demo_syms (OpSpawn 0xFFFF800000300000 7 [107]) demo_0 = Ok (tt, s)) as Hrun'.
  { cbn [run_sop]. unfold mbind, M_bind. by rewrite Hrun. }
  unfold demo_1. rewrite (demo_ok _ _ _ Hrun'). by apply Hsy.
Qed.

Lemma sched_yield_round_robin_witness :
  ∃ s', sched_yield 0xFFFF80000000F000 demo_1 = Ok (tt, s') ∧ yielded 0xFFFF80000000F000 demo_1 [3] [] s' ∧ successor demo_1 [3] = 3.
Proof.
  destruct (sched_yield_round_robin 0xFFFF80000000F000 demo_1 [3] [] demo_system_1) as (s' & ? & ?). exists s'. by split_and!.
Defined.

Lemma demo_system_2 : system demo_2 [3] [].
Proof.
  assert (wp (sched_yield 0xFFFF80000000F000) (λ _ s, system s [3] []) demo_1) as Hwp.
  { eapply wp_yielded; [exact demo_system_1|]. intros s' Hy. apply (yd_system _ _ _ _ _ Hy). }
  change (sched_yield 0xFFFF80000000F000) with (run_sop demo_syms (OpYield 0xFFFF80000000F000)) in Hwp.
  apply (proj1 (wp_ok _ _ _)) in Hwp as ([] & s & Hrun & Hsy). unfold demo_2. by rewrite (demo_ok _ _ _ Hrun).
Qed.

Lemma sched_yield_fair_witness :
  ∃ j s', (j ≤ 2)%nat ∧ yields (take j [0x4000; 0x5000]) demo_1 = Ok (tt, s') ∧ current s' = 3.
Proof. apply (sched_yield_fair demo_1 [3] [] 3 [0x4000; 0x5000] demo_system_1); [set_solver|by vm_compute|done]. Defined.

Lemma sched_tick_wakes_witness : ∃ s', sched_tick 1000 demo_2 = Ok (tt, s') ∧ ticked 1000 demo_2 [3] [] s'.
Proof. apply (sched_tick_wakes 1000 demo_2 [3] [] demo_system_2). Defined.


Lemma demo_system_3 : system demo_3 [] [3].
Proof.
  assert (current demo_2 = 3) as E by (by vm_compute).
  assert (wp (sched_exit 0x5000 0) (λ _ s, system s [] [3]) demo_2) as Hwp.
  { eapply (wp_exited 0x5000 0 demo_2 [] [] []); [rewrite E; exact demo_system_2|rewrite E; done| | |].
    { assert (g_init_thread demo_2 = 0) as -> by (by vm_compute). by rewrite E. }
    { assert (vf_pipes (sc_vfs demo_2) = ∅) as Ep by (by vm_compute). intros p q. by rewrite Ep, lookup_empty. }
    intros s' Hy. pose proof (ex_system _ _ _ _ _ _ Hy) as Hsy. by rewrite E in Hsy. }
  change (sched_exit 0x5000 0) with (run_sop demo_syms (OpExit 0x5000 0)) in Hwp.
  apply (proj1 (wp_ok _ _ _)) in Hwp as ([] & s & Hrun & Hsy). unfold demo_3. by rewrite (demo_ok _ _ _ Hrun).
Qed.

Lemma sched_reap_gives_back_witness :
  ∃ x s', threads demo_3 !! 3 = Some x ∧ sched_reap_zombie 3 demo_3 = Ok (tt, s') ∧ gone [] [] 3 [] x demo_3 s'.
Proof.
  destruct (threads demo_3 !! 3) as [x|] eqn:Hx; [|by vm_compute in Hx].
  destruct (sched_reap_gives_back demo_3 [] [] 3 [] x demo_system_3 Hx) as (s' & H1 & H2).
  exists x, s'. exact (conj eq_refl (conj H1 H2)).
Defined.

Lemma demo_root_apart : root_apart (sc_mmu demo_0) (threads demo_0) (3 * PAGE_SIZE).
Proof.
  assert (sc_mmu demo_0 = demo_mm) as Em by (by vm_compute). rewrite Em.
  assert (∀ i e, ¬ Reclaim.user_entry demo_mem 4 (3 * PAGE_SIZE) i e) as Hno.
  { intros i e (_ & He & Hp & Hu & _). destruct (demo_entry (3 * PAGE_SIZE) i e (or_intror eq_refl) He) as [[_ ->] | ->]; by vm_compute in Hu. }
  split.
  - right. right. split; [done|]. split; [by apply (demo_is_page 3)|]. intros i e H. by destruct (Hno i e).
  - intros f (_ & _ & [->|(i & e & H & _)]); [|by destruct (Hno i e)]. split.
    + change (frame_of (3 * PAGE_SIZE)) with 3. by vm_compute.
    + assert (map_Forall (λ _ t, x_stack_base (t_exec t) = 0 ∧ x_mmu (t_exec t) = 1 * PAGE_SIZE) (threads demo_0)) as Hall.
      { apply (bool_decide_unpack _). by vm_compute. }
      intros a t Ht. destruct (Hall a t Ht) as [Hs Hr]. by intros [[? _]|(_ & ? & _)].
Qed.

Lemma sched_fork_child_witness :
  ∃ a s', sched_spawn_user_in demo_syms (3 * PAGE_SIZE) 0x400000 0x7FFF000 0x202 [115; 104] (Uregs 0 0 0 0 0 0) demo_0 = Ok (a, s') ∧
    forked demo_syms (3 * PAGE_SIZE) 0x400000 0x7FFF000 0x202 (Uregs 0 0 0 0 0 0) demo_0 [] [] a s'.
Proof.
  apply (sched_fork_child demo_syms (3 * PAGE_SIZE) 0x400000 0x7FFF000 0x202 [115; 104] (Uregs 0 0 0 0 0 0) demo_0 [] [] demo_system_0 demo_root_apart).
  assert (sc_vfs demo_0 = vfs_boot [] None) as -> by (by vm_compute). split; intros ? ?; cbn; by rewrite lookup_empty.
Defined.

Lemma sched_yield_alone_stale_witness :
  ∃ s' t', sched_yield 0xFFFF80000000F000 demo_0 = Ok (tt, s') ∧ current s' = current demo_0 ∧ threads s' !! current demo_0 = Some t' ∧
    x_rsp (t_exec t') = u64 (0xFFFF80000000F000 - 48) ∧ cpu_rsp s' = u64 56.
Proof.
  destruct (threads demo_0 !! current demo_0) as [t|] eqn:Ht; [|by vm_compute in Ht].
  assert (x_rsp (t_exec t) = 0) as Hz.
  { assert ((λ o, match o with Some t => x_rsp (t_exec t) | None => 1 end) (threads demo_0 !! current demo_0) = 0) as E by (by vm_compute). by rewrite Ht in E. }
  change 56 with (0 + 56). rewrite <-Hz.
  apply (sched_yield_alone_stale 0xFFFF80000000F000 demo_0 [] [] t demo_system_0); [by vm_compute|exact Ht].
Defined.

(** The last thread that can run blocks: the processor goes to [idle_thread],
    whose stack pointer was never set and which is not linked into the queue, so
    that the next switch follows a null pointer. *)
Example suspend_last_thread :
  match sched_suspend 0xFFFF80000000F000 demo_0 with
  | Ok (_, s') => current s' = idle_thread ∧ cpu_rsp s' = 56 ∧ sched_yield 0xFFFF80000000E000 s' = Fault
  | _ => False
  end.
Proof. vm_compute. by split_and!. Qed.
