(* ===== verification/Syscall.v ===== *)
(** * Syscall: the system calls on memory, files, pipes and children

    The handlers of kernel/syscall.c over the scheduler state of Sched.v.  The
    memory of the calling process is an argument [um], its bytes by address;
    what a call stores there is part of its result.  A call that blocks is
    modelled up to the switch: it returns [None] and is entered again at the
    test of its loop when its thread runs again.  Results are the unsigned
    64-bit values of the C functions. *)

From Stdlib Require Import String.
From S2P Require Import Prelude BootMap Pmm Mmu Reclaim CString Security VfsPath Vfs Sched SchedQueue Fds SchedSpawn SchedRun.

#[local] Arguments for_up : simpl never.

Definition ENOENT : Z := 2.
Definition EIO : Z := 5.
Definition ENOMEM : Z := 12.
Definition EFAULT : Z := 14.
Definition EEXIST : Z := 17.
Definition ENOTDIR : Z := 20.
Definition EISDIR : Z := 21.
Definition EINVAL : Z := 22.
Definition ESPIPE : Z := 29.
Definition ENOTEMPTY : Z := 39.

Definition O_WRONLY : Z := 1.
Definition O_RDWR : Z := 2.
Definition O_CREAT : Z := 0x100.
Definition O_TRUNC : Z := 0x200.
Definition O_APPEND : Z := 0x400.

Definition USERSPACE_BASE : Z := 0x10000000000.

(** [(uint64_t)-e] *)
Definition neg (e : Z) : Z := u64 (- e).

(** [(int)a] of a 64-bit argument. *)
Definition int (a : Z) : Z := i32 (u32 a).

(** Stores to user memory: addresses and bytes. *)
Definition stores : Type := list (Z * list Z).

(** ** User memory *)

Definition user_range_ok (uptr n : Z) (write : bool) : M sched bool :=
  if n =? 0 then mret true
  else if uptr <? USERSPACE_BASE then mret false
  else if 2 ^ 64 - 1 - n <? uptr then mret false
  else
    c ← gets current;
    root ← (if c =? 0 then mret 0 else t ← thr c; mret (x_mmu (t_exec t)));
    root ← (if root =? 0 then on_mmu vmm_kernel_root else mret root);
    r ← on_mmu (vmm_check_user_range root uptr n write);
    mret (negb (r =? 0)).

Definition copy_to_user (dst : Z) (src : list Z) : M sched (Z * stores) :=
  if strlen src =? 0 then mret (0, [])
  else
    ok ← user_range_ok dst (strlen src) true;
    mret (if ok : bool then (0, [(dst, src)]) else (- EFAULT, [])).

Definition user_bytes (um : Z → Z) (a n : Z) : list Z := (λ i, um (u64 (a + i))) <$> seqZ 0 n.

(** [None] is the result [-EFAULT]. *)
Definition copy_from_user (um : Z → Z) (src n : Z) : M sched (option (list Z)) :=
  if n =? 0 then mret (Some [])
  else
    ok ← user_range_ok src n false;
    mret (if ok : bool then Some (user_bytes um src n) else None).

(** The inner loop of [copy_user_str]; [true] when it left through [goto done]. *)
Fixpoint copy_chunk (um : Z → Z) (va : Z) (k : nat) (copied : Z) (dst : list Z) : M sched (bool * Z * list Z) :=
  match k with
  | O => mret (false, copied, dst)
  | S k' =>
    let c := um va in
    dst ← store_bytes dst copied [c];
    if c =? 0 then mret (true, copied + 1, dst) else copy_chunk um (u64 (va + 1)) k' (copied + 1) dst
  end.

Definition end_string (copied : Z) (dst : list Z) : M sched (Z * list Z) :=
  dst ← store_bytes dst copied [0];
  mret (copied, dst).

(** The buffer [dst] has [max] bytes; the result is the count and the buffer. *)
Definition copy_user_str (um : Z → Z) (uptr : Z) (dst : list Z) : M sched (Z * list Z) :=
  let max := strlen dst in
  if uptr =? 0 then mret (- EFAULT, dst)
  else if max =? 0 then mret (0, dst)
  else
    loop_fuel (S (length dst)) (λ '(copied, dst),
      if copied <? max - 1 then
        let va := u64 (uptr + copied) in
        let page_left := PAGE_SIZE - Z.land va (PAGE_SIZE - 1) in
        let chunk := Z.min page_left (max - 1 - copied) in
        ok ← user_range_ok va chunk false;
        if negb ok then mret (inr (- EFAULT, dst))
        else
          '(fin, copied, dst) ← copy_chunk um va (Z.to_nat chunk) copied dst;
          if fin : bool then r ← end_string copied dst; mret (inr r) else mret (inl (copied, dst))
      else r ← end_string copied dst; mret (inr r)) (0, dst).

(** [copy_path(uptr, buf, sizeof(buf))] with an uninitialised [char path[1024]]:
    [None] is the result 0. *)
Definition copy_path (um : Z → Z) (uptr : Z) : M sched (option (list Z)) :=
  '(n, buf) ← copy_user_str um uptr (replicate 1024 204);
  mret (if (n <? 0) || (n =? 0) then None else Some (cut0 buf)).

(** ** The calling process *)

Definition set_cur (t : option task) (s : vfs) : vfs :=
  Vfs (vf_nodes s) (vf_pipes s) (vf_next s) (vf_heap s) (vf_mounts s) (vf_nmounts s) (vf_ramfs_sb s) (vf_root s) t.

(** What the VFS sees of [sched_current()]. *)
Definition task_of (t : thread) : task :=
  Task (t_cred t) (omap (λ f, if f_used f && bool_decide (f_kind f = FD_VNODE) then f_node f else None) (fds t)).

(** A call into vfs.c by the running thread. *)
Definition as_current {A} (m : M vfs A) : M sched A :=
  c ← gets current;
  cur ← (if c =? 0 then mret None else t ← thr c; mret (Some (task_of t)));
  on_vfs (modify (set_cur cur) ;; m).

Definition check_current (n : nat) (mask : Z) : M sched Z :=
  c ← gets current;
  cur ← (if c =? 0 then mret None else t ← thr c; mret (Some (t_cred t)));
  v ← on_vfs (deref n);
  mret (vfs_check_perms cur (vn_attr v) mask).

Definition cwd_of (t : thread) : list Z := cut0 (fs_cwd (t_files t)).

Definition fd_alloc (t : Z) : M sched Z :=
  r ← for_ret MAX_FD 0 (λ i, x ← thr t; f ← load (fds x) i; mret (if negb (f_used f) then Some i else None));
  mret (default (-1) r).

(** Descriptor [i] becomes a terminal or the console. *)
Definition open_std (t : Z) (i : nat) (k : fd_kind) : M sched unit :=
  x ← thr t;
  f ← load (fds x) (Z.of_nat i);
  upd t (set_fd i (VfsFile true k None 0 (f_flags f))).

Definition default_cwd (t : Z) : M sched unit :=
  x ← thr t;
  c0 ← load (fs_cwd (t_files x)) 0;
  if c0 =? 0 then upd t (set_files (λ y, Files (fs_fds y) (<[1%nat := 0]> (<[0%nat := 47]> (fs_cwd y))))) else mret tt.

Definition vfs_ensure_proc : M sched unit :=
  t ← gets current;
  if t =? 0 then mret tt
  else
    x ← thr t;
    f0 ← load (fds x) 0; f1 ← load (fds x) 1; f2 ← load (fds x) 2;
    if f_used f0 && f_used f1 && f_used f2 then default_cwd t
    else
      open_std t 0 FD_TTY_IN ;; open_std t 1 FD_CONSOLE_OUT ;; open_std t 2 FD_CONSOLE_OUT ;;
      default_cwd t.

(** The open descriptor [fd] of thread [t], or [None] if there is none. *)
Definition get_fd (t fd : Z) : M sched (option vfs_file) :=
  x ← thr t;
  if (fd <? 0) || (Z.of_nat MAX_FD <=? fd) then mret None
  else f ← load (fds x) fd; mret (if f_used f then Some f else None).
Definition put_fd (t fd : Z) (f : vfs_file) : M sched unit := upd t (set_fd (Z.to_nat fd) f).

(** The node pointer of a descriptor. *)
Definition node_of (f : vfs_file) : M sched nat :=
  match f_node f with Some n => mret n | None => fault end.

(** ** Pipes *)

(** The pipe behind a node, whose [priv] is not null. *)
Definition pipe_of (v : vnode) : M sched nat :=
  match vn_priv v with Some p => mret p | None => fault end.

Definition set_buf (b : list Z) (cap count : Z) (q : pipe) : pipe :=
  Pipe b cap count (p_nreaders q) (p_nwriters q) (p_wait_reader q) (p_shared q) (p_dead q).
Definition set_waiter (t : Z) (q : pipe) : pipe :=
  Pipe (p_buf q) (p_cap q) (p_count q) (p_nreaders q) (p_nwriters q) t (p_shared q) (p_dead q).

(** [while (ncap < need) ncap *= 2;] *)
Definition grow_cap (cap need : Z) : M sched Z :=
  loop_fuel 65 (λ ncap, mret (if ncap <? need then inl (u64 (ncap * 2)) else inr ncap)) (if cap =? 0 then 256 else cap).

(** Room for [len] more bytes; [false] when there is no memory. *)
Definition pipe_reserve (p : nat) (len : Z) : M sched bool :=
  q ← on_vfs (get_pipe p);
  if p_cap q <? u64 (p_count q + len) then
    ncap ← grow_cap (p_cap q) (u64 (p_count q + len));
    m ← on_vfs kmalloc;
    match m with
    | None => mret false
    | Some g =>
      nb ← store_bytes (replicate (Z.to_nat ncap) g) 0 (take (Z.to_nat (p_count q)) (p_buf q));
      on_vfs (with_pipe p (λ q, set_buf nb ncap (p_count q) q)) ;;
      mret true
    end
  else mret true.

Definition pipe_append (p : nat) (bs : list Z) : M sched unit :=
  q ← on_vfs (get_pipe p);
  b ← store_bytes (p_buf q) (p_count q) bs;
  on_vfs (with_pipe p (λ q, set_buf b (p_cap q) (u64 (p_count q + strlen bs)) q)).

Definition wake_reader (p : nat) : M sched unit :=
  q ← on_vfs (get_pipe p);
  if negb (p_wait_reader q =? 0) then
    sched_wake (p_wait_reader q) ;;
    on_vfs (with_pipe p no_waiter)
  else mret tt.

Definition sys_write_pipe (f : vfs_file) (bs : list Z) : M sched Z :=
  n ← node_of f;
  v ← on_vfs (deref n);
  if negb (bool_decide (vn_type v = VFS_PIPE_W)) then mret (neg 1)
  else
    p ← pipe_of v;
    ok ← pipe_reserve p (strlen bs);
    if negb ok then mret 0
    else
      pipe_append p bs ;;
      wake_reader p ;;
      mret (strlen bs).

(** The counting of [sys_dup2]. *)
Definition dup_refs (o : vfs_file) : M sched unit :=
  match f_kind o, f_node o with
  | FD_VNODE, Some n => on_vfs (update n (λ v, with_refcount (u32 (vn_refcount v + 1)) v))
  | FD_PIPE, Some n =>
    v ← on_vfs (deref n);
    p ← pipe_of v;
    on_vfs (with_pipe p (if bool_decide (vn_type v = VFS_PIPE_R) then add_readers 1 else add_writers 1)) ;;
    on_vfs (update n (with_refcount (u32 (vn_refcount v + 1))))
  | _, _ => mret tt
  end.

Section calls.
Context {env : VfsEnv} {senv : SchedEnv}.

(** The pipe part of [sys_read], from the test of its loop: [None] when the
    thread was suspended. *)
Definition read_pipe (sp : Z) (f : vfs_file) (len : Z) : M sched (option (list Z)) :=
  n ← node_of f;
  v ← on_vfs (deref n);
  p ← pipe_of v;
  q ← on_vfs (get_pipe p);
  if p_count q =? 0 then
    if p_nwriters q =? 0 then mret (Some [])
    else
      c ← gets current;
      on_vfs (with_pipe p (set_waiter c)) ;;
      sched_suspend sp ;;
      mret None
  else
    let r := if len <? p_count q then len else p_count q in
    let bs := take (Z.to_nat r) (p_buf q) in
    let rest := drop (Z.to_nat r) (take (Z.to_nat (p_count q)) (p_buf q)) in
    b ← store_bytes (p_buf q) 0 rest;
    on_vfs (with_pipe p (set_buf b (p_cap q) (p_count q - r))) ;;
    mret (Some bs).

(** The pipe branch of [sys_close]. *)
Definition close_end (n : nat) : M sched unit :=
  v ← on_vfs (deref n);
  p ← pipe_of v;
  on_vfs (with_pipe p (if bool_decide (vn_type v = VFS_PIPE_R) then add_readers (-1) else add_writers (-1))) ;;
  let c := if 0 <? vn_refcount v then vn_refcount v - 1 else vn_refcount v in
  on_vfs (update n (with_refcount c)) ;;
  (if c =? 0 then on_vfs (kfree_node n) else mret tt) ;;
  settle_pipe p.

Definition sys_close (a1 : Z) : M sched Z :=
  let fd := int a1 in
  vfs_ensure_proc ;;
  t ← gets current;
  o ← get_fd t fd;
  match o with
  | None => mret (neg 1)
  | Some f =>
    (if bool_decide (f_kind f = FD_PIPE) then n ← node_of f; close_end n
     else if bool_decide (f_kind f = FD_VNODE) then on_vfs (vfs_release (f_node f))
     else mret tt) ;;
    x ← thr t;
    g ← load (fds x) fd;
    put_fd t fd (clear_fd g) ;;
    mret 0
  end.

Definition sys_dup2 (a1 a2 : Z) : M sched Z :=
  let oldfd := int a1 in
  let newfd := int a2 in
  vfs_ensure_proc ;;
  t ← gets current;
  o ← get_fd t oldfd;
  match o with
  | None => mret (neg 1)
  | Some _ =>
    if (newfd <? 0) || (Z.of_nat MAX_FD <=? newfd) then mret (neg 1)
    else if oldfd =? newfd then mret (u64 newfd)
    else
      nf ← get_fd t newfd;
      r ← (match nf with Some _ => sys_close (u64 newfd) | None => mret 0 end);
      if r =? neg 1 then mret (neg 1)
      else
        x ← thr t;
        o ← load (fds x) oldfd;
        put_fd t newfd (VfsFile true (f_kind o) (f_node o) (f_off o) (f_flags o)) ;;
        dup_refs o ;;
        mret (u64 newfd)
  end.

(** A zeroed node of one end. *)
Definition end_node (ty : vtype) (p : nat) : vnode := Vnode [] ty 0 None (Some p) 1 (Vattr 0 0 0) None 0 [] 0 None.

Definition new_end (ty : vtype) (p : nat) : M vfs nat :=
  n ← gets vf_next;
  modify (λ s, set_next (S n) (set_nodes (insert n (end_node ty p)) s)) ;;
  mret n.

(** The descriptors for the ends [rn] and [wn] of pipe [p]. *)
Definition pipe_fds (t : Z) (p rn wn : nat) : M sched (Z * option (Z * Z)) :=
  let undo := on_vfs (modify (set_pipes (delete p)) ;; kfree_node rn ;; kfree_node wn) in
  rfd ← fd_alloc t;
  if rfd <? 0 then undo ;; mret (neg 1, None)
  else
    x ← thr t;
    g0 ← load (fds x) rfd;
    put_fd t rfd (VfsFile true (f_kind g0) (f_node g0) (f_off g0) (f_flags g0)) ;;
    wfd ← fd_alloc t;
    if wfd <? 0 then
      put_fd t rfd (VfsFile false (f_kind g0) (f_node g0) (f_off g0) (f_flags g0)) ;;
      undo ;;
      mret (neg 1, None)
    else
      x ← thr t;
      g1 ← load (fds x) wfd;
      put_fd t rfd (VfsFile true FD_PIPE (Some rn) 0 (f_flags g0)) ;;
      put_fd t wfd (VfsFile true FD_PIPE (Some wn) 0 (f_flags g1)) ;;
      mret (0, Some (rfd, wfd)).

(** The descriptors [rfd] and [wfd] are returned as the two stored ints. *)
Definition sys_pipe (a1 : Z) : M sched (Z * option (Z * Z)) :=
  ok ← user_range_ok a1 8 true;
  if negb ok then mret (neg EFAULT, None)
  else
    vfs_ensure_proc ;;
    t ← gets current;
    m ← on_vfs kmalloc;
    match m with
    | None => mret (neg 1, None)
    | Some _ =>
      b ← on_vfs kmalloc;
      match b with
      | None => mret (neg 1, None)
      | Some g =>
        r ← on_vfs kmalloc;
        w ← on_vfs kmalloc;
        match r, w with
        | Some _, Some _ =>
          p ← on_vfs (add_pipe (Pipe (replicate 256 g) 256 0 1 1 0 false false));
          rn ← on_vfs (new_end VFS_PIPE_R p);
          wn ← on_vfs (new_end VFS_PIPE_W p);
          pipe_fds t p rn wn
        | _, _ => mret (neg 1, None)
        end
      end
    end.

(** ** Reading and writing *)

(** [tty_read_char_blocked]: a result and a character. *)
Context (tty_read_char_blocked : M sched (Z * Z)).

(** What [sys_read] returned and stored at the user's buffer; [None] when the
    thread was suspended. *)
Definition read_tty (len : Z) : M sched (Z * list Z) :=
  loop_fuel (S (Z.to_nat len)) (λ got : list Z,
    if strlen got <? len then
      '(r, c) ← tty_read_char_blocked;
      if r <? 0 then mret (inr (if strlen got =? 0 then (u64 r, got) else (strlen got, got)))
      else mret (inl (got ++ [c]))
    else mret (inr (strlen got, got))) [].

Definition read_vnode (t fd : Z) (f : vfs_file) (len : Z) : M sched (Z * list Z) :=
  n ← node_of f;
  d ← check_current n VFS_MAY_READ;
  if negb (d =? 0) then mret (neg EACCES, [])
  else
    bs ← as_current (vfs_read (f_node f) (f_off f) len);
    put_fd t fd (VfsFile (f_used f) (f_kind f) (f_node f) (u64 (f_off f + strlen bs)) (f_flags f)) ;;
    mret (strlen bs, bs).

Definition sys_read (sp a1 buf len : Z) : M sched (option (Z * list Z)) :=
  let fd := int a1 in
  ok ← (if len =? 0 then mret true else user_range_ok buf len true);
  if negb ok then mret (Some (neg EFAULT, []))
  else
    vfs_ensure_proc ;;
    t ← gets current;
    o ← get_fd t fd;
    match o with
    | None => mret (Some (neg 1, []))
    | Some f =>
      match f_kind f with
      | FD_CONSOLE_OUT => mret (Some (neg 1, []))
      | FD_TTY_IN => r ← read_tty len; mret (Some r)
      | FD_PIPE =>
        n ← node_of f;
        v ← on_vfs (deref n);
        if negb (bool_decide (vn_type v = VFS_PIPE_R)) then mret (Some (neg 1, []))
        else r ← read_pipe sp f len; mret ((λ bs, (strlen bs, bs)) <$> r)
      | _ => r ← read_vnode t fd f len; mret (Some r)
      end
    end.

Definition write_vnode (t fd : Z) (f : vfs_file) (bs : list Z) : M sched Z :=
  off ← (if negb (Z.land (f_flags f) O_APPEND =? 0) then n ← node_of f; v ← on_vfs (deref n); mret (vn_size v) else mret (f_off f));
  put_fd t fd (VfsFile (f_used f) (f_kind f) (f_node f) off (f_flags f)) ;;
  w ← as_current (vfs_write (f_node f) off bs);
  if w <? 0 then mret (u64 w)
  else
    put_fd t fd (VfsFile (f_used f) (f_kind f) (f_node f) (u64 (off + w)) (f_flags f)) ;;
    mret w.

(** Characters to the console have no effect on the state. *)
Definition sys_write (um : Z → Z) (a1 a2 len : Z) : M sched Z :=
  let fd := int a1 in
  ok ← (if len =? 0 then mret true else user_range_ok a2 len false);
  if negb ok then mret (neg EFAULT)
  else
    vfs_ensure_proc ;;
    t ← gets current;
    o ← get_fd t fd;
    match o with
    | None => mret (neg 1)
    | Some f =>
      let bs := user_bytes um a2 len in
      match f_kind f with
      | FD_TTY_IN => mret (neg 1)
      | FD_CONSOLE_OUT => mret len
      | FD_PIPE => sys_write_pipe f bs
      | _ => write_vnode t fd f bs
      end
    end.

(** ** Opening *)

(** An end of the FIFO [n] is opened. *)
Definition open_fifo (t : Z) (n : nat) (v : vnode) (flags : Z) : M sched Z :=
  match vn_priv v with
  | None => on_vfs (vfs_release (Some n)) ;; mret (neg EBADF)
  | Some p =>
    let is_write := negb (Z.land flags O_WRONLY =? 0) in
    let count d := on_vfs (with_pipe p (if is_write then add_writers d else add_readers d)) in
    m ← on_vfs kmalloc;
    match m with
    | None => on_vfs (vfs_release (Some n)) ;; mret (neg ENOMEM)
    | Some _ =>
      e ← on_vfs (new_end (if is_write then VFS_PIPE_W else VFS_PIPE_R) p);
      count 1 ;;
      on_vfs (vfs_release (Some n)) ;;
      fd ← fd_alloc t;
      if fd <? 0 then
        count (-1) ;;
        on_vfs (kfree_node e) ;;
        mret (neg ENOMEM)
      else
        put_fd t fd (VfsFile true FD_PIPE (Some e) 0 flags) ;;
        mret (u64 fd)
    end
  end.

(** [O_TRUNC]: the content of the node is freed. *)
Definition truncate_node (n : nat) : M sched unit := on_vfs (update n (with_data None 0 0)).

(** A descriptor for node [n], whose reference it takes over. *)
Definition open_node (t : Z) (n : nat) (flags : Z) : M sched Z :=
  fd ← fd_alloc t;
  if fd <? 0 then on_vfs (vfs_release (Some n)) ;; mret (neg ENOMEM)
  else
    v ← on_vfs (deref n);
    put_fd t fd (VfsFile true FD_VNODE (Some n) (if negb (Z.land flags O_APPEND =? 0) then vn_size v else 0) flags) ;;
    mret (u64 fd).

Definition sys_open (um : Z → Z) (a1 a2 : Z) : M sched Z :=
  o ← copy_path um a1;
  match o with
  | None => mret (neg EFAULT)
  | Some path =>
    let flags := int a2 in
    vfs_ensure_proc ;;
    t ← gets current;
    x ← thr t;
    n ← as_current (vfs_lookup path (cwd_of x));
    match n with
    | Some n =>
      v ← on_vfs (deref n);
      if bool_decide (vn_type v = VFS_FIFO) then open_fifo t n v flags
      else if bool_decide (vn_type v = VFS_DIR) then on_vfs (vfs_release (Some n)) ;; mret (neg EISDIR)
      else
        r ← check_current n VFS_MAY_READ;
        if (Z.land flags O_WRONLY =? 0) && negb (r =? 0) then on_vfs (vfs_release (Some n)) ;; mret (neg EACCES)
        else
          w ← check_current n VFS_MAY_WRITE;
          if negb (Z.land flags (Z.lor O_WRONLY O_RDWR) =? 0) && negb (w =? 0) then on_vfs (vfs_release (Some n)) ;; mret (neg EACCES)
          else
            (if negb (Z.land flags O_TRUNC =? 0) then truncate_node n else mret tt) ;;
            open_node t n flags
    | None =>
      if Z.land flags O_CREAT =? 0 then mret (neg ENOENT)
      else
        c ← as_current (vfs_create path VFS_FILE (cwd_of x));
        if negb (c =? 0) then mret (neg EACCES)
        else
          n ← as_current (vfs_lookup path (cwd_of x));
          match n with
          | None => mret (neg EIO)
          | Some n => open_node t n flags
          end
    end
  end.
End calls.
