(* ===== verification/SysUser.v ===== *)
(** * SysUser: what the kernel touches of a process's memory

    [user_range_ok] accepts exactly the ranges whose bytes the page tables of
    the calling process open to user mode, and [copy_user_str] reads a string
    through it: the theorems compose the checks of kernel/syscall.c with the
    page tables of Mmu.v. *)

From S2P Require Import Prelude BootMap Pmm Mmu Reclaim CString Security VfsPath Vfs Sched SchedQueue Fds SchedSpawn SchedRun Syscall.

#[local] Arguments for_up : simpl never.

(** ** The address space of the caller *)

Definition caller_root (s : sched) (t : thread) : Z := root_of (sc_mmu s) (x_mmu (t_exec t)).

(** The caller is a thread with page tables; a page they open to user mode is
    reached through tables that do. *)
Record user_space (s : sched) (t : thread) : Prop := UserSpace {
  us_current : current s ≠ 0;
  us_thread : threads s !! current s = Some t;
  us_space : aspace (sc_mmu s) (caller_root s t);
  us_open : ∀ v, flag (leaf_of (mm_mem (sc_mmu s)) (caller_root s t) (vpath v)) X86_PTE_USER = true →
    open_path (mm_mem (sc_mmu s)) (caller_root s t) ptop (vpath v) }.

(** User mode may read (and write) every byte of the range. *)
Definition accessible (s : sched) (t : thread) (write : bool) (a n : Z) : Prop :=
  ∀ v, a ≤ v < a + n → user_ok (sc_mmu s) (caller_root s t) write v = true.

Lemma xlate_user m a π p x : xlate m a π p = Some x → p_u (x_perm x) = true → flag (leaf_of m a p) X86_PTE_USER = true.
Proof.
  revert a π. induction p as [|i p IH]; intros a π; [done|]. cbn [xlate leaf_of].
  destruct (entry m a i) as [e|]; [|done]. destruct (flag e X86_PTE_PRESENT); [|done]. cbn [negb].
  destruct p as [|j p]; [|destruct (flag e X86_PTE_HUGE); [|by apply IH]]; intros [= <-]; cbn; by intros [_ ?]%andb_true_iff.
Qed.

Lemma leaf_user_ok s t write v : user_space s t → leaf_ok (sc_mmu s) (caller_root s t) write v = user_ok (sc_mmu s) (caller_root s t) write v.
Proof.
  intros [_ _ _ Ho]. destruct (flag (leaf_of (mm_mem (sc_mmu s)) (caller_root s t) (vpath v)) X86_PTE_USER) eqn:Hu.
  - symmetry. by apply user_ok_leaf, Ho.
  - unfold leaf_ok. rewrite Hu, orb_true_r. cbn. unfold user_ok, translate. destruct (xlate _ _ _ _) as [x|] eqn:Hx; [|done].
    destruct (p_u (x_perm x)) eqn:Hp; [|done]. by rewrite (xlate_user _ _ _ _ _ Hx Hp) in Hu.
Qed.

(** What [user_range_ok] accepts. *)
Definition user_range (s : sched) (t : thread) (write : bool) (a n : Z) : Prop :=
  n = 0 ∨ USERSPACE_BASE ≤ a ∧ a + n < 2 ^ 64 ∧ accessible s t write a n.

Lemma wp_user_range s t a n write (Q : bool → sched → Prop) :
  user_space s t → 0 ≤ a < 2 ^ 64 → 0 ≤ n < 2 ^ 64 →
  (∀ b : bool, (b = true ↔ user_range s t write a n) → Q b s) → wp (user_range_ok a n write) Q s.
Proof.
  intros Hus Ha Hn HQ. unfold user_range_ok.
  destruct (Z.eqb_spec n 0) as [->|Hn0]; [wp_step; apply HQ; split; [by left|done]|].
  destruct (Z.ltb_spec a USERSPACE_BASE); [wp_step; apply HQ; unfold user_range; split; [done|lia]|].
  destruct (Z.ltb_spec (2 ^ 64 - 1 - n) a); [wp_step; apply HQ; unfold user_range; split; [done|lia]|].
  wp_step. wp_step. rewrite (proj2 (Z.eqb_neq _ _)) by apply Hus. wp_step. wp_step. eapply wp_thr; [apply Hus|]. wp_step.
  assert (∀ root, root_of (sc_mmu s) root = caller_root s t → wp (r ← on_mmu (vmm_check_user_range root a n write); mret (negb (r =? 0))) Q s) as Hgo.
  { intros root Hr. wp_step. apply wp_zoom. unfold vmm_check_user_range. eapply wp_mono.
    { apply wp_check_leaves; [rewrite Hr; apply Hus|done|done]. }
    intros b m (-> & Hb & Hiff). rewrite Hr in Hiff. replace (put_mmu (sc_mmu s) s) with s by (by destruct s). wp_step. apply HQ.
    transitivity (b = 1); [destruct Hb as [-> | ->]; done|]. rewrite Hiff. unfold user_range, accessible.
    split; (intros [?|Hall]; [by left|right]); [destruct Hall as [? Hall]|destruct Hall as (_ & ? & Hall)]; split_and!; try done; intros v Hv.
    - rewrite <-leaf_user_ok by done. auto.
    - rewrite leaf_user_ok by done. auto. }
  wp_step. destruct (Z.eqb_spec (x_mmu (t_exec t)) 0) as [Hz|Hz].
  - apply wp_zoom. unfold vmm_kernel_root. wp_step. replace (put_mmu (sc_mmu s) s) with s by (by destruct s). apply Hgo.
    unfold caller_root, root_of. rewrite Hz, Z.eqb_refl. by destruct (kernel_root (sc_mmu s) =? 0) eqn:E.
  - wp_step. by apply Hgo.
Qed.

(** ** Strings *)

Lemma user_bytes_length um a n : length (user_bytes um a n) = Z.to_nat n.
Proof. unfold user_bytes. by rewrite length_fmap, length_seqZ. Qed.

Lemma user_bytes_app um a n k : 0 ≤ n → 0 ≤ k → user_bytes um a (n + k) = user_bytes um a n ++ user_bytes um (u64 (a + n)) k.
Proof.
  intros Hn Hk. unfold user_bytes. rewrite seqZ_app, fmap_app by done. f_equal.
  apply list_eq. intros i. rewrite !list_lookup_fmap. destruct (decide (i < Z.to_nat k)%nat).
  - rewrite !lookup_seqZ_lt by lia. cbn. f_equal. f_equal. unfold u64. rewrite Zplus_mod_idemp_l. f_equal. lia.
  - rewrite !lookup_seqZ_ge by lia. done.
Qed.

Lemma user_bytes_cons um a n : 0 < n → 0 ≤ a < 2 ^ 64 → user_bytes um a n = um a :: user_bytes um (u64 (a + 1)) (n - 1).
Proof.
  intros Hn Ha. replace n with (1 + (n - 1)) at 1 by lia. rewrite user_bytes_app by lia. unfold user_bytes at 1. simpl.
  by rewrite Z.add_0_r, u64_small.
Qed.

Lemma cut0_app_free l k : nul_free l → cut0 (l ++ k) = l ++ cut0 k.
Proof. induction 1 as [|c l Hc _ IH]; [done|]. simpl. by rewrite (proj2 (Z.eqb_neq c 0)), IH. Qed.

Lemma wp_store_bytes {St} pre old bs post (s : St) (Q : list Z → St → Prop) :
  length old = length bs → Q (pre ++ bs ++ post) s → wp (store_bytes (pre ++ old ++ post) (strlen pre) bs) Q s.
Proof. intros Hl HQ. unfold strlen. apply wp_ok. rewrite store_bytes_spec by done. eauto. Qed.

(** The inner loop copies up to the first NUL of the chunk. *)
Lemma wp_copy_chunk um va k pre post s (Q : bool * Z * list Z → sched → Prop) :
  0 ≤ va → va + Z.of_nat k < 2 ^ 64 → (k ≤ length post)%nat →
  (let bs := user_bytes um va (Z.of_nat k) in
   (nul_free bs → Q (false, strlen pre + Z.of_nat k, pre ++ bs ++ drop k post) s) ∧
   (∀ rest, bs = cut0 bs ++ 0 :: rest → Q (true, strlen pre + strlen (cut0 bs) + 1, pre ++ cut0 bs ++ 0 :: drop (S (length (cut0 bs))) post) s)) →
  wp (copy_chunk um va k (strlen pre) (pre ++ post)) Q s.
Proof.
  cbn zeta. revert va pre post Q. induction k as [|k IH]; intros va pre post Q Hva Hk Hpost [Hno Hnul].
  { cbn [copy_chunk]. wp_step. rewrite Z.add_0_r in Hno. apply Hno. constructor. }
  destruct post as [|x post]; [simpl in Hpost; lia|]. cbn [copy_chunk]. wp_step.
  apply (wp_store_bytes pre [x] [um va] post); [done|]. rewrite (app_assoc pre [um va] post).
  rewrite user_bytes_cons in Hno, Hnul by lia. replace (Z.of_nat (S k) - 1) with (Z.of_nat k) in * by lia.
  destruct (Z.eqb_spec (um va) 0) as [Hz|Hz].
  - wp_step. rewrite Hz in *. specialize (Hnul _ eq_refl). simpl in Hnul. unfold strlen in Hnul at 2. simpl in Hnul.
    rewrite Z.add_0_r, drop_0 in Hnul. by rewrite <-app_assoc.
  - replace (strlen pre + 1) with (strlen (pre ++ [um va])) by (unfold strlen; rewrite length_app; simpl; lia).
    rewrite u64_small in Hno, Hnul |- * by (unfold is_u64; lia).
    apply IH; [lia|lia|simpl in Hpost; lia|]. split.
    + intros Hn. rewrite <-app_assoc. simpl. replace (strlen (pre ++ [um va]) + Z.of_nat k) with (strlen pre + Z.of_nat (S k))
        by (unfold strlen; rewrite length_app; simpl; lia). apply Hno. by constructor.
    + intros rest Hr. simpl in Hnul. rewrite (proj2 (Z.eqb_neq _ _)) in Hnul by done. specialize (Hnul rest). simpl in Hnul.
      rewrite <-app_assoc. simpl. replace (strlen (pre ++ [um va]) + strlen (cut0 (user_bytes um (va + 1) (Z.of_nat k))) + 1)
        with (strlen pre + strlen (um va :: cut0 (user_bytes um (va + 1) (Z.of_nat k))) + 1) by (unfold strlen; rewrite length_app; simpl; lia).
      apply Hnul. by rewrite <-Hr.
Qed.

(** The string at [a] cut at [n] bytes, and how many bytes are read to find its
    end. *)
Definition user_string (um : Z → Z) (a n : Z) : list Z := cut0 (user_bytes um a n).
Definition string_reach (um : Z → Z) (a n : Z) : Z := Z.min (strlen (user_string um a n) + 1) n.

(** What [copy_user_str] leaves in a buffer that was [dst]. *)
Definition copied (um : Z → Z) (a : Z) (dst : list Z) (r : Z * list Z) : Prop :=
  let str := user_string um a (strlen dst - 1) in
  r.1 = string_reach um a (strlen dst - 1) ∧ length r.2 = length dst ∧
  ∃ junk, r.2 = str ++ 0 :: junk.

Lemma no_nul_reach um a n k : 0 ≤ k < n → nul_free (user_bytes um a k) → k < string_reach um a n.
Proof.
  intros Hk Hno. unfold string_reach, user_string. replace n with (k + (n - k)) by lia.
  rewrite user_bytes_app, cut0_app_free by (lia || done). unfold strlen. rewrite length_app, user_bytes_length. lia.
Qed.

Lemma page_same v k : 0 ≤ v → 0 ≤ k < PAGE_SIZE - Z.land v (PAGE_SIZE - 1) → (v + k) / PAGE_SIZE = v / PAGE_SIZE.
Proof.
  intros Hv. change (PAGE_SIZE - 1) with (2 ^ 12 - 1). rewrite land_ones_mod by lia. change PAGE_SIZE with (2 ^ 12).
  intros Hk. pose proof (Z.div_mod v (2 ^ 12)). pose proof (Z.mod_pos_bound v (2 ^ 12)). symmetry. apply Z.div_unique with (v mod 2 ^ 12 + k); lia.
Qed.

(** The store of the final NUL. *)
Lemma wp_end_string pre x post s (Q : Z * list Z → sched → Prop) :
  Q (strlen pre, pre ++ 0 :: post) s → wp (end_string (strlen pre) (pre ++ x :: post)) Q s.
Proof. intros HQ. unfold end_string. wp_step. apply (wp_store_bytes pre [x] [0] post); [done|]. by wp_step. Qed.

Section strings.
Context (um : Z → Z) (s : sched) (t : thread) (Hus : user_space s t).
Context (a : Z) (dst : list Z) (Ha : 0 < a) (Hmax : a + strlen dst < 2 ^ 64).

(** [k] bytes were copied, none of them NUL. *)
Record copying (k : Z) (buf : list Z) : Prop := Copying {
  cp_range : 0 ≤ k ≤ strlen dst - 1;
  cp_buf : buf = user_bytes um a k ++ drop (Z.to_nat k) dst;
  cp_nul : nul_free (user_bytes um a k);
  cp_read : k = 0 ∨ user_range s t false a k }.

Lemma user_range_more k c : 0 ≤ k → 0 < c → k = 0 ∨ user_range s t false a k → user_range s t false (a + k) c → user_range s t false a (k + c).
Proof.
  intros Hk Hc Hr [?|(Hb & Hw & Hacc)]; [lia|]. right. destruct (decide (k = 0)) as [->|Hk0]; [split_and!; [lia..|]; intros v Hv; apply Hacc; lia|].
  destruct Hr as [?|[?|(? & ? & Hacc')]]; [lia..|]. split_and!; [lia..|]. intros v Hv.
  destruct (Z.lt_ge_cases v (a + k)); [apply Hacc'; lia|apply Hacc; lia].
Qed.

Lemma user_range_less n k : 0 ≤ k ≤ n → user_range s t false a n → user_range s t false a k.
Proof.
  intros Hk [->|(? & ? & Hacc)]; [left; lia|]. right. split_and!; [lia..|]. intros v Hv. apply Hacc. lia.
Qed.

(** A page that cannot be read holds no byte of a readable string. *)
Lemma refused k c :
  0 ≤ k < strlen dst - 1 → 0 < c → c ≤ PAGE_SIZE - Z.land (a + k) (PAGE_SIZE - 1) → c ≤ strlen dst - 1 - k → nul_free (user_bytes um a k) →
  ¬ user_range s t false (a + k) c → ¬ user_range s t false a (string_reach um a (strlen dst - 1)).
Proof.
  intros Hk Hc Hpg Hcm Hno Hbad Hall. pose proof (no_nul_reach um a (strlen dst - 1) k Hk Hno) as Hlt. apply Hbad.
  destruct Hall as [?|(? & ? & Hacc)]; [lia|]. right. split_and!; [lia..|]. intros v Hv.
  rewrite (user_ok_page _ _ _ v (a + k)); [apply Hacc; lia|]. replace v with (a + k + (v - (a + k))) by lia. apply page_same; lia.
Qed.

Lemma bytes_len k : 0 ≤ k → strlen (user_bytes um a k) = k.
Proof. intros Hk. unfold strlen. rewrite user_bytes_length. lia. Qed.

(** The chunk after [k] bytes held the NUL. *)
Lemma wp_nul_found k c rest (Q : Z * list Z → sched → Prop) :
  let w := cut0 (user_bytes um (a + k) c) in
  0 ≤ k → 0 < c → k + c ≤ strlen dst - 1 → nul_free (user_bytes um a k) → user_range s t false a (k + c) →
  user_bytes um (a + k) c = w ++ 0 :: rest →
  (∀ r, user_range s t false a (string_reach um a (strlen dst - 1)) → copied um a dst r → Q r s) →
  wp (end_string (k + strlen w + 1) (user_bytes um a k ++ w ++ 0 :: drop (S (length w)) (drop (Z.to_nat k) dst))) Q s.
Proof.
  intros w Hk Hc Hkc Hno Hr Hsplit Hok.
  assert (length w < Z.to_nat c)%nat as Hlw by (rewrite <-(user_bytes_length um (a + k) c), Hsplit, length_app; simpl; lia).
  assert (user_string um a (strlen dst - 1) = user_bytes um a k ++ w) as Hstr.
  { unfold user_string. replace (strlen dst - 1) with (k + (c + (strlen dst - 1 - k - c))) by lia. rewrite user_bytes_app, cut0_app_free by (lia || done).
    rewrite user_bytes_app, (u64_small (a + k)), Hsplit, <-app_assoc by (lia || unfold is_u64; lia). f_equal.
    apply cut0_app, cut0_nul_free. }
  assert (strlen (user_string um a (strlen dst - 1)) = k + strlen w) as Hls by (rewrite Hstr; unfold strlen; rewrite length_app, user_bytes_length; lia).
  destruct (drop (S (length w)) (drop (Z.to_nat k) dst)) as [|x post] eqn:Hd; apply (f_equal length) in Hd; rewrite !length_drop in Hd;
    simpl in Hd; [unfold strlen in *; lia|].
  replace (user_bytes um a k ++ w ++ 0 :: x :: post) with ((user_string um a (strlen dst - 1) ++ [0]) ++ x :: post)
    by (rewrite Hstr, <-!app_assoc; done).
  replace (k + strlen w + 1) with (strlen (user_string um a (strlen dst - 1) ++ [0])) by (rewrite <-Hls; unfold strlen; rewrite length_app; simpl; lia).
  assert (string_reach um a (strlen dst - 1) = k + strlen w + 1) as Hre by (unfold string_reach; rewrite Hls; unfold strlen in *; lia).
  apply wp_end_string, Hok; [eapply (user_range_less (k + c)); [rewrite Hre; unfold strlen; lia|done]|]. split_and!; cbn [fst snd].
  - rewrite Hre, <-Hls. unfold strlen. rewrite length_app. simpl. lia.
  - rewrite !length_app. simpl in *. unfold strlen in *. lia.
  - exists (0 :: post). by rewrite <-app_assoc.
Qed.

(** The buffer is full and no NUL was seen. *)
Lemma wp_buffer_full (Q : Z * list Z → sched → Prop) :
  0 < strlen dst → nul_free (user_bytes um a (strlen dst - 1)) → strlen dst - 1 = 0 ∨ user_range s t false a (strlen dst - 1) →
  (∀ r, user_range s t false a (string_reach um a (strlen dst - 1)) → copied um a dst r → Q r s) →
  wp (end_string (strlen dst - 1) (user_bytes um a (strlen dst - 1) ++ drop (Z.to_nat (strlen dst - 1)) dst)) Q s.
Proof.
  intros Hm Hno Hrd Hok. assert (user_string um a (strlen dst - 1) = user_bytes um a (strlen dst - 1)) as Hstr by (by apply cut0_id).
  pose proof (bytes_len (strlen dst - 1) ltac:(lia)) as Hls.
  destruct (drop (Z.to_nat (strlen dst - 1)) dst) as [|x post] eqn:Hd; apply (f_equal length) in Hd; rewrite length_drop in Hd;
    simpl in Hd; [unfold strlen in *; lia|].
  rewrite <-Hls at 1. assert (string_reach um a (strlen dst - 1) = strlen dst - 1) as Hre by (unfold string_reach; rewrite Hstr, Hls; lia).
  apply wp_end_string, Hok; [rewrite Hre; destruct Hrd as [Hz|?]; [rewrite Hz; by left|done]|]. split_and!; cbn [fst snd].
  - by rewrite Hre.
  - rewrite length_app, user_bytes_length. simpl in *. unfold strlen in *. lia.
  - exists post. by rewrite Hstr.
Qed.

Lemma wp_copy_user_str (Q : Z * list Z → sched → Prop) :
  0 < strlen dst →
  (∀ r, user_range s t false a (string_reach um a (strlen dst - 1)) → copied um a dst r → Q r s) →
  (∀ buf, ¬ user_range s t false a (string_reach um a (strlen dst - 1)) → length buf = length dst → Q (- EFAULT, buf) s) →
  wp (copy_user_str um a dst) Q s.
Proof.
  intros Hm Hok Hbad. unfold copy_user_str. rewrite (proj2 (Z.eqb_neq a 0)), (proj2 (Z.eqb_neq (strlen dst) 0)) by lia.
  apply (wp_loop_fuel (λ '(k, buf) s', s' = s ∧ copying k buf) (λ '(k, _), strlen dst - k)).
  - split; [done|]. split; [lia|by rewrite drop_0|constructor|by left].
  - unfold strlen. lia.
  - intros [k buf] s' (_ & [? _ _ _]). lia.
  - intros [k buf] s' (-> & [Hk -> Hno Hrd]). destruct (Z.ltb_spec k (strlen dst - 1)) as [Hlt|Hge].
    2:{ assert (k = strlen dst - 1) as -> by lia. wp_step. apply wp_buffer_full; [done..|]. intros r Hr Hcp. wp_step. by apply Hok. }
    cbn zeta. rewrite (u64_small (a + k)) by (unfold is_u64; lia).
    set (c := Z.min (PAGE_SIZE - Z.land (a + k) (PAGE_SIZE - 1)) (strlen dst - 1 - k)).
    assert (0 < PAGE_SIZE - Z.land (a + k) (PAGE_SIZE - 1)) as Hpl.
    { change (PAGE_SIZE - 1) with (2 ^ 12 - 1). rewrite land_ones_mod by lia. pose proof (Z.mod_pos_bound (a + k) (2 ^ 12)). unfold PAGE_SIZE. lia. }
    wp_step. eapply wp_user_range; [exact Hus|lia|lia|]. intros b Hb. destruct b; cbn [negb].
    2:{ wp_step. apply Hbad; [|rewrite length_app, user_bytes_length, length_drop; unfold strlen in *; lia].
        eapply (refused k c); [lia..|done|]. intros Hr. apply Hb in Hr. done. }
    pose proof (user_range_more k c ltac:(lia) ltac:(lia) Hrd (proj1 Hb eq_refl)) as Hr'. wp_step.
    rewrite <-(bytes_len k) at 2 by lia. apply wp_copy_chunk; [lia|lia|rewrite length_drop; unfold strlen in *; lia|].
    rewrite Z2Nat.id, bytes_len by lia. cbn zeta. split.
    + intros Hno'. wp_step. split; [|lia]. split; [done|].
      assert (user_bytes um a (k + c) = user_bytes um a k ++ user_bytes um (a + k) c) as Happ
        by (rewrite user_bytes_app, u64_small by (lia || unfold is_u64; lia); done).
      split; [lia|rewrite Happ, <-app_assoc, drop_drop; repeat f_equal; lia|rewrite Happ; by apply Forall_app|by right].
    + intros rest Hsplit. wp_step. eapply wp_nul_found; [lia|lia|lia|done|done|exact Hsplit|]. intros r Hr Hcp. wp_step. by apply Hok.
Qed.
End strings.

(** ** Theorems *)

(** C9: [user_range_ok] returns, changes nothing and accepts a range exactly when
    it is empty, or lies above the kernel's identity mapping, does not wrap
    around and the page tables of the calling process let user mode read (and
    write) every byte of it. *)
Theorem user_range_ok_exact s t a n write :
  user_space s t → 0 ≤ a < 2 ^ 64 → 0 ≤ n < 2 ^ 64 →
  ∃ b, user_range_ok a n write s = Ok (b, s) ∧ (b = true ↔ user_range s t write a n).
Proof.
  intros Hus Ha Hn. assert (wp (user_range_ok a n write) (λ b s', s' = s ∧ (b = true ↔ user_range s t write a n)) s) as Hwp.
  { eapply wp_user_range; [done..|]. auto. }
  apply wp_ok in Hwp as (b & s' & Hrun & -> & Hb). eauto.
Qed.

(** C12: [copy_user_str] returns and never writes outside its buffer; it reports
    EFAULT exactly when a byte of the string, up to its NUL or the size of the
    buffer, cannot be read in user mode; otherwise the buffer holds the string
    of the process, cut at the size of the buffer minus one and terminated, and
    the count is that of the bytes read. *)
Theorem copy_user_str_exact um s t a dst :
  user_space s t → 0 < a → a + strlen dst < 2 ^ 64 → 0 < strlen dst →
  ∃ r, copy_user_str um a dst s = Ok (r, s) ∧ length r.2 = length dst ∧
    (user_range s t false a (string_reach um a (strlen dst - 1)) → copied um a dst r) ∧
    (¬ user_range s t false a (string_reach um a (strlen dst - 1)) → r.1 = - EFAULT).
Proof.
  intros Hus Ha Hm Hd.
  assert (wp (copy_user_str um a dst) (λ r s', s' = s ∧ length r.2 = length dst ∧
    (user_range s t false a (string_reach um a (strlen dst - 1)) → copied um a dst r) ∧
    (¬ user_range s t false a (string_reach um a (strlen dst - 1)) → r.1 = - EFAULT)) s) as Hwp.
  { eapply wp_copy_user_str; [done..| |].
    - intros r Hr Hc. split_and!; [done|apply Hc|done|done].
    - intros buf Hr Hl. by split_and!. }
  apply wp_ok in Hwp as (r & s' & Hrun & -> & Hr). eauto.
Qed.

(** ** A process with one page *)

Definition demo_proc : sched :=
  set_threads (alter (set_exec (λ x, Exec (x_rsp x) (x_kstack_top x) (4 * PAGE_SIZE) (x_user_rsp x) (x_stack_base x) (x_func x) (x_arg x) (x_syscall_iret x))) main_thread)
    (put_mmu demo_user_mmu demo_0).
Definition demo_page : Z := 0x10000001000.

Lemma one_entry l i j e t : l = <[i := t]> demo_table → l !! j = Some e → (j = i ∧ e = t) ∨ e = 0.
Proof.
  intros -> He. apply list_lookup_insert_Some in He as [(-> & -> & _)|(_ & He)]; [by left|].
  unfold demo_table in He. apply lookup_replicate in He as [-> _]. by right.
Qed.

Lemma demo_user_entry k i e :
  (k = 4 ∨ k = 5 ∨ k = 6 ∨ k = 7 ∨ k = 2) → entry demo_user_mem (k * PAGE_SIZE) i = Some e →
  e = 0 ∨ (k = 4 ∧ ((i = 2%nat ∧ e = 5 * PAGE_SIZE + 7) ∨ (i = 508%nat ∧ e = 2 * PAGE_SIZE + 3))) ∨ (k = 5 ∧ i = 0%nat ∧ e = 6 * PAGE_SIZE + 7) ∨
  (k = 6 ∧ i = 0%nat ∧ e = 7 * PAGE_SIZE + 7) ∨ (k = 7 ∧ i = 1%nat ∧ e = 8 * PAGE_SIZE + 7).
Proof.
  intros [-> | [-> | [-> | [-> | ->]]]] He.
  - assert ((<[2%nat := 5 * PAGE_SIZE + 7]> Mmu.demo_root) !! i = Some e) as Hl by exact He.
    apply list_lookup_insert_Some in Hl as [(-> & -> & _)|(_ & Hl)]; [naive_solver|]. apply (one_entry _ 508%nat _ _ _ eq_refl) in Hl. naive_solver.
  - apply (one_entry (<[0%nat := 6 * PAGE_SIZE + 7]> demo_table) _ _ _ _ eq_refl) in He. naive_solver.
  - apply (one_entry (<[0%nat := 7 * PAGE_SIZE + 7]> demo_table) _ _ _ _ eq_refl) in He. naive_solver.
  - apply (one_entry (<[1%nat := 8 * PAGE_SIZE + 7]> demo_table) _ _ _ _ eq_refl) in He. naive_solver.
  - left. change (demo_table !! i = Some e) in He. by apply lookup_replicate in He as [-> _].
Qed.

Lemma demo_user_down p a π :
  down demo_user_mem (4 * PAGE_SIZE) ptop p = Some (a, π) → (length p ≤ 3)%nat →
  (p = [508%nat] ∧ a = 2 * PAGE_SIZE) ∨
  ((∃ k, p = take k [2%nat; 0%nat; 0%nat] ∧ a = (4 + Z.of_nat (length p)) * PAGE_SIZE) ∧ p_u π = true ∧ p_w π = true).
Proof.
  intros Hd Hl. destruct p as [|i p]; [right; injection Hd as <- <-; split; [by exists 0%nat|done]|]. cbn [down] in Hd.
  destruct (entry demo_user_mem (4 * PAGE_SIZE) i) as [e|] eqn:He; [|done].
  apply (demo_user_entry 4) in He; [|tauto]. destruct He as [->|[(_ & [[-> ->]|[-> ->]])|[[? _]|[[? _]|[? _]]]]]; try done; cbn in Hd; change (addr_of _) with (5 * PAGE_SIZE) in Hd || change (addr_of _) with (2 * PAGE_SIZE) in Hd.
  2:{ left. destruct p as [|j p]; [naive_solver|]. cbn [down] in Hd. destruct (entry demo_user_mem (2 * PAGE_SIZE) j) as [e|] eqn:He; [|done].
      apply (demo_user_entry 2) in He; [|tauto]. destruct He as [->|[[? _]|[[? _]|[[? _]|[? _]]]]]; done. }
  right. destruct p as [|j p]; [injection Hd as <- <-; split; [by exists 1%nat|done]|]. cbn [down] in Hd.
  destruct (entry demo_user_mem (5 * PAGE_SIZE) j) as [e|] eqn:He; [|done].
  apply (demo_user_entry 5) in He; [|tauto]. destruct He as [->|[[? _]|[(_ & -> & ->)|[[? _]|[? _]]]]]; try done; cbn in Hd; change (addr_of _) with (6 * PAGE_SIZE) in Hd.
  destruct p as [|k p]; [injection Hd as <- <-; split; [by exists 2%nat|done]|]. cbn [down] in Hd.
  destruct (entry demo_user_mem (6 * PAGE_SIZE) k) as [e|] eqn:He; [|done].
  apply (demo_user_entry 6) in He; [|tauto]. destruct He as [->|[[? _]|[[? _]|[(_ & -> & ->)|[? _]]]]]; try done; cbn in Hd; change (addr_of _) with (7 * PAGE_SIZE) in Hd.
  destruct p as [|j p]; [injection Hd as <- <-; split; [by exists 3%nat|done]|]. simpl in Hl. lia.
Qed.

Lemma demo_user_free f : f ∈ free_set (mm_pmm demo_user_mmu) ↔ 9 ≤ f < 16.
Proof.
  replace (free_set (mm_pmm demo_user_mmu)) with (list_to_set (seqZ 9 7) : gset Z) by (by vm_compute).
  rewrite elem_of_list_to_set, elem_of_seqZ. lia.
Qed.

Lemma demo_user_pages f : 0 ≤ f < 16 → is_page demo_user_mem (f * PAGE_SIZE).
Proof.
  intros Hf. assert (Forall (λ f, is_Some (demo_user_mem !! (f * PAGE_SIZE)) ∧
      length (default [] (demo_user_mem !! (f * PAGE_SIZE))) = 512%nat) (seqZ 0 16)) as Hall by (apply (bool_decide_unpack _); vm_compute; exact I).
  rewrite Forall_forall in Hall. destruct (Hall f) as [[l Hl] Hlen]; [apply elem_of_seqZ; lia|]. exists l. by rewrite Hl in Hlen.
Qed.

Lemma demo_user_table p a π : (length p ≤ 3)%nat → down demo_user_mem (4 * PAGE_SIZE) ptop p = Some (a, π) → ∃ k, a = k * PAGE_SIZE ∧ (k = 4 ∨ k = 5 ∨ k = 6 ∨ k = 7 ∨ k = 2) ∧ (k = 2 → p = [508%nat]) ∧ (k ≠ 2 → p = take (Z.to_nat (k - 4)) [2%nat; 0%nat; 0%nat]).
Proof.
  intros Hl Hd. destruct (demo_user_down p a π Hd Hl) as [[-> ->]|[(k & -> & ->) _]]; [by exists 2; split_and!; auto|].
  destruct k as [|[|[|k]]]; [exists 4|exists 5|exists 6|exists 7; cbn [take length]; rewrite take_nil]; split_and!; simpl; tauto || done.
Qed.

Lemma demo_user_aspace : aspace demo_user_mmu (4 * PAGE_SIZE).
Proof.
  split.
  - split; [split; by vm_compute|intros ?%demo_user_free; lia|by vm_compute|]. intros f ?%demo_user_free. apply demo_user_pages. lia.
  - done.
  - intros p a π Hl Hd. destruct (demo_user_table p a π Hl Hd) as (k & -> & Hk & _). split; [apply demo_user_pages; lia|].
    unfold frame_of. rewrite Z.div_mul by done. intros ?%demo_user_free. lia.
  - intros p q a π π' Hl Hl' _ H1 H2. destruct (demo_user_table _ _ _ Hl H1) as (k & -> & _ & Hp2 & Hp), (demo_user_table _ _ _ Hl' H2) as (k' & E & _ & Hq2 & Hq).
    apply Z.mul_cancel_r in E as ->; [|done]. destruct (decide (k' = 2)); [rewrite Hp2, Hq2 by done|rewrite Hp, Hq by done]; done.
  - intros p a π i e Hl _ Hd He. destruct (demo_user_table p a π ltac:(lia) Hd) as (k & -> & Hk & _).
    apply demo_user_entry in He; [|done]. destruct He as [->|[(_ & [[_ ->]|[_ ->]])|[(_ & _ & ->)|[(_ & _ & ->)|(_ & _ & ->)]]]]; done.
  - intros p a π i e Hl _ Hd He. destruct (demo_user_table p a π ltac:(lia) Hd) as (k & -> & Hk & _).
    apply demo_user_entry in He; [|done]. destruct He as [->|[(_ & [[_ ->]|[_ ->]])|[(_ & _ & ->)|[(_ & _ & ->)|(_ & _ & ->)]]]]; done.
Qed.

Lemma demo_user_leaf p : length p = 4%nat → flag (leaf_of demo_user_mem (4 * PAGE_SIZE) p) X86_PTE_USER = true → p = [2%nat; 0%nat; 0%nat; 1%nat].
Proof.
  intros Hl Hu. destruct p as [|i [|j [|k [|n [|]]]]]; try done. cbn [leaf_of] in Hu.
  destruct (entry demo_user_mem (4 * PAGE_SIZE) i) as [e|] eqn:He; [|done].
  apply (demo_user_entry 4) in He; [|tauto]. destruct He as [->|[(_ & [[-> ->]|[-> ->]])|[[? _]|[[? _]|[? _]]]]]; try done.
  2:{ change (addr_of (2 * PAGE_SIZE + 3)) with (2 * PAGE_SIZE) in Hu. destruct (entry demo_user_mem (2 * PAGE_SIZE) j) as [e|] eqn:He; [|done].
      apply (demo_user_entry 2) in He; [|tauto]. destruct He as [->|[[? _]|[[? _]|[[? _]|[? _]]]]]; done. }
  change (addr_of (5 * PAGE_SIZE + 7)) with (5 * PAGE_SIZE) in Hu.
  destruct (entry demo_user_mem (5 * PAGE_SIZE) j) as [e|] eqn:He; [|done].
  apply (demo_user_entry 5) in He; [|tauto]. destruct He as [->|[[? _]|[(_ & -> & ->)|[[? _]|[? _]]]]]; try done; change (addr_of (6 * PAGE_SIZE + 7)) with (6 * PAGE_SIZE) in Hu.
  destruct (entry demo_user_mem (6 * PAGE_SIZE) k) as [e|] eqn:He; [|done].
  apply (demo_user_entry 6) in He; [|tauto]. destruct He as [->|[[? _]|[[? _]|[(_ & -> & ->)|[? _]]]]]; try done; change (addr_of (7 * PAGE_SIZE + 7)) with (7 * PAGE_SIZE) in Hu.
  destruct (entry demo_user_mem (7 * PAGE_SIZE) n) as [e|] eqn:He; [|done].
  apply (demo_user_entry 7) in He; [|tauto]. destruct He as [->|[[? _]|[[? _]|[[? _]|(_ & -> & ->)]]]]; done.
Qed.

Definition demo_caller : thread := match threads demo_proc !! main_thread with Some t => t | None => zero_thread end.

Lemma demo_user_space : user_space demo_proc demo_caller.
Proof.
  assert (sc_mmu demo_proc = demo_user_mmu) as Em by done.
  assert (caller_root demo_proc demo_caller = 4 * PAGE_SIZE) as Er by (by vm_compute).
  assert (current demo_proc = main_thread) as Ec by (by vm_compute).
  split; rewrite ?Em, ?Er, ?Ec; [done| |exact demo_user_aspace|].
  - unfold demo_caller. destruct (threads demo_proc !! main_thread) eqn:E; [done|by vm_compute in E].
  - intros v Hu. cbn [mm_mem demo_user_mmu] in *. apply demo_user_leaf in Hu; [|done]. rewrite Hu. intros p1 j p2 b π1 Hp Hd.
    assert (length p1 ≤ 3)%nat as Hl by (apply (f_equal length) in Hp; rewrite length_app in Hp; simpl in Hp; lia).
    destruct (demo_user_down p1 b π1 Hd Hl) as [[-> _]|(_ & ? & ?)]; [by destruct p2|done].
Qed.

Lemma user_range_ok_exact_witness :
  ∃ b, user_range_ok demo_page 4096 true demo_proc = Ok (b, demo_proc) ∧ (b = true ↔ user_range demo_proc demo_caller true demo_page 4096).
Proof. apply (user_range_ok_exact demo_proc demo_caller demo_page 4096 true demo_user_space); by vm_compute. Defined.

(** The page holds a short string. *)
Definition demo_string (v : Z) : Z := if v =? demo_page then 115 else if v =? demo_page + 1 then 104 else 0.

Lemma copy_user_str_exact_witness :
  ∃ r, copy_user_str demo_string demo_page (replicate 8 204) demo_proc = Ok (r, demo_proc) ∧ r.1 = 3 ∧ cut0 r.2 = [115; 104] ∧ length r.2 = 8%nat ∧
    (user_range demo_proc demo_caller false demo_page (string_reach demo_string demo_page 7) → copied demo_string demo_page (replicate 8 204) r).
Proof.
  destruct (copy_user_str_exact demo_string demo_proc demo_caller demo_page (replicate 8 204) demo_user_space ltac:(done) ltac:(done) ltac:(done))
    as (r & Hrun & Hl & Hc & _).
  assert ((λ x, match x with Ok (r, _) => Some r | _ => None end) (copy_user_str demo_string demo_page (replicate 8 204) demo_proc)
    = Some (3, [115; 104; 0; 0; 204; 204; 204; 204])) as E by (by vm_compute).
  rewrite Hrun in E. injection E as ->. eexists. split_and!; [exact Hrun|done|done|exact Hl|exact Hc].
Defined.

(** Bits 48 to 63 of an address are not looked at: an address that is not
    canonical, which the processor refuses with a general protection fault, is
    accepted when its low 48 bits name a user page. *)
Example user_range_not_canonical : ∃ s', user_range_ok (demo_page + 2 ^ 48) 8 true demo_proc = Ok (true, s').
Proof. eexists. by vm_compute. Qed.

(** The process is a thread of a consistent system. *)
Lemma demo_below f : root_frames demo_user_mmu (4 * PAGE_SIZE) f → 4 ≤ f < 9.
Proof.
  intros (_ & _ & [->|Hb]); [change (frame_of (4 * PAGE_SIZE)) with 4; lia|]. cbn in Hb.
  destruct Hb as (i & e & (_ & He & _ & Hu & _) & Hb). apply (demo_user_entry 4) in He; [|tauto].
  destruct He as [->|[(_ & [[-> ->]|[-> ->]])|[[? _]|[[? _]|[? _]]]]]; try done. change (addr_of (5 * PAGE_SIZE + 7)) with (5 * PAGE_SIZE) in Hb.
  destruct Hb as [->|(j & e & (_ & He & _ & Hu' & _) & Hb)]; [change (frame_of (5 * PAGE_SIZE)) with 5; lia|]. apply (demo_user_entry 5) in He; [|tauto].
  destruct He as [->|[[? _]|[(_ & -> & ->)|[[? _]|[? _]]]]]; try done. change (addr_of (6 * PAGE_SIZE + 7)) with (6 * PAGE_SIZE) in Hb.
  destruct Hb as [->|(k & e & (_ & He & _ & Hu'' & _) & Hb)]; [change (frame_of (6 * PAGE_SIZE)) with 6; lia|]. apply (demo_user_entry 6) in He; [|tauto].
  destruct He as [->|[[? _]|[[? _]|[(_ & -> & ->)|[? _]]]]]; try done. change (addr_of (7 * PAGE_SIZE + 7)) with (7 * PAGE_SIZE) in Hb.
  destruct Hb as [->|(n & e & (_ & He & Hpr & _) & Hb)]; [change (frame_of (7 * PAGE_SIZE)) with 7; lia|]. apply (demo_user_entry 7) in He; [|tauto].
  destruct Hb as [->|[]]. destruct He as [->|[[? _]|[[? _]|[[? _]|(_ & -> & ->)]]]]; try done.
Qed.

#[local] Existing Instance no_others.

Lemma demo_proc_system : system demo_proc [] [].
Proof.
  pose proof demo_system_0 as Hsy. pose proof (sy_ok _ _ _ Hsy) as Hok.
  set (g := set_exec (λ x, Exec (x_rsp x) (x_kstack_top x) (4 * PAGE_SIZE) (x_user_rsp x) (x_stack_base x) (x_func x) (x_arg x) (x_syscall_iret x))).
  assert (∀ a, threads demo_proc !! a = if decide (a = main_thread) then g <$> threads demo_0 !! a else threads demo_0 !! a) as Hlk.
  { intros a. unfold demo_proc. cbn [threads set_threads put_mmu]. fold g. rewrite alter_at. case_decide; [done|]. by destruct (_ !! a). }
  assert (threads_rel (λ t t', same_view t t' ∧ t_files t' = t_files t) (threads demo_0) (threads demo_proc)) as [H1 H2].
  { split; intros a t; rewrite Hlk; case_decide; intros Ht; [rewrite Ht; by exists (g t)|by exists t| |by exists t].
    destruct (threads demo_0 !! a) as [u|]; [|done]. injection Ht as <-. by exists u. }
  assert (map_Forall (λ a t, x_stack_base (t_exec t) = 0 ∧ (a ≠ main_thread → x_mmu (t_exec t) = 1 * PAGE_SIZE) ∧ (a = main_thread → x_mmu (t_exec t) = 4 * PAGE_SIZE)) (threads demo_proc)) as Hall.
  { apply (bool_decide_unpack _). by vm_compute. }
  assert (∀ a t f, threads demo_proc !! a = Some t → owns demo_user_mmu t f → a = main_thread ∧ 4 ≤ f < 9) as Hown.
  { intros a t f Ht. destruct (Hall a t Ht) as (Hs & Hr & Hm). intros [[? _]|Hf]; [done|]. destruct (decide (a = main_thread)) as [->|Hne].
    - split; [done|]. rewrite Hm in Hf by done. by apply demo_below.
    - rewrite Hr in Hf by done. by destruct Hf as (_ & ? & _). }
  assert (sched_ok demo_proc [] []) as Hok'.
  { split.
    - eapply (queue_view demo_0); [apply Hok| |done..].
      split; intros a t Ht; [destruct (H1 a t Ht) as (t' & ? & ? & _)|destruct (H2 a t Ht) as (t' & ? & ? & _)]; eauto.
    - assert (sc_mmu demo_proc = demo_user_mmu) as -> by done. split.
      + split; by vm_compute.
      + intros a t Ht. destruct (Hall a t Ht) as (_ & Hr & Hm). destruct (decide (a = main_thread)) as [->|Hne]; [rewrite Hm by done; apply demo_user_walkable|].
        rewrite Hr by done. right. by left.
      + intros a t Ht. destruct (Hall a t Ht) as [-> _]. lia.
      + intros a t f Ht Ho. destruct (Hown a t f Ht Ho) as [_ Hf]. intros ?%demo_user_free. lia.
      + intros a b t u f Ht Hu Ho Ho'. destruct (Hown a t f Ht Ho) as [-> _]. by destruct (Hown b u f Hu Ho') as [-> _].
    - by vm_compute.
    - by vm_compute.
    - by vm_compute. }
  eapply system_shrink; [exact Hsy|exact Hok'|done|done|done|]. intros a t' (t & ? & _ & ?)%H2. eauto.
Qed.
