(* ===== verification/SysFd.v ===== *)
(** * SysFd: the calls on descriptors

    [sys_close], [sys_dup2] and [sys_pipe] of kernel/syscall.c change exactly the
    slots of the caller's table they are meant to and keep the counts of nodes
    and pipes equal to the descriptors that are open ([system] of SchedSpawn.v). *)

From Stdlib Require Import String.
From S2P Require Import Prelude BootMap Pmm Mmu Reclaim CString Security VfsPath Vfs Sched SchedQueue Fds SchedSpawn SchedRun Syscall SysUser.

#[local] Arguments for_up : simpl never.

Section accounting.
Context {oth : Others}.

(** ** The table of the caller *)

(** What [vfs_ensure_proc] makes of a table. *)
Definition std_fd (k : fd_kind) (f : vfs_file) : vfs_file := VfsFile true k None 0 (f_flags f).
Definition std_table (fl : list vfs_file) : list vfs_file :=
  match fl with
  | f0 :: f1 :: f2 :: r =>
    if f_used f0 && f_used f1 && f_used f2 then fl
    else std_fd FD_TTY_IN f0 :: std_fd FD_CONSOLE_OUT f1 :: std_fd FD_CONSOLE_OUT f2 :: r
  | _ => fl
  end.

(** The open descriptor [fd]. *)
Definition open_at (fl : list vfs_file) (fd : Z) : option vfs_file :=
  if (fd <? 0) || (Z.of_nat MAX_FD <=? fd) then None
  else f ← fl !! Z.to_nat fd; if f_used f then Some f else None.

(** The first free slot. *)
Definition free_at (fl : list vfs_file) : Z :=
  match list_find (λ f, f_used f = false) fl with Some (i, _) => Z.of_nat i | None => -1 end.

(** The standard descriptors are open, or at least none of them would be lost. *)
Definition std_ok (fl : list vfs_file) : Prop :=
  std_table fl = fl ∨ ∀ i f, (i < 3)%nat → fl !! i = Some f → counts_node f = false.

Record proc_ok (t : thread) : Prop := ProcOk {
  po_std : std_ok (fds t);
  po_cwd : fs_cwd (t_files t) ≠ [] }.

(** The table of the caller became [fl]; otherwise only files, pipes, the
    working directory and who is blocked changed. *)
Record retabled (s : sched) (l : list Z) (fl : list vfs_file) (s' : sched) : Prop := Retabled {
  rt_quiet : quiet s s';
  rt_tables : tables (threads s') = <[current s := fl]> (tables (threads s));
  rt_acc : accounted (sc_vfs s') (tables (threads s'));
  rt_wait : waiters (sc_vfs s') (main_thread :: l) }.

Lemma quiet_current s s' : quiet s s' → current s' = current s.
Proof. intros [_ ->]. done. Qed.

Lemma system_retabled s l zs fl s' : system s l zs → retabled s l fl s' → system s' l zs.
Proof.
  intros Hsy [Hq Ht Ha Hw]. pose proof (sy_ok _ _ _ Hsy) as Hok. destruct (ok_current s l zs Hok) as [Hc _]. split; [by eapply ok_quiet|done|done|..].
  - intros z t' Hz Ht' f Hf. assert (z ≠ current s) as Hne.
    { intros ->. by eapply (q_ring_zombie _ _ _ _ (so_queue _ _ _ Hok)). }
    apply tables_at in Ht'. rewrite Ht, lookup_insert_ne in Ht' by done. apply tables_inv in Ht' as (t & Htz & E).
    rewrite E in Hf. by apply (sy_dead _ _ _ Hsy z t).
  - rewrite (qu_rest _ _ Hq). apply (sy_heap _ _ _ Hsy).
Qed.

Lemma retabled_thread s l fl s' : retabled s l fl s' → ∃ t', threads s' !! current s' = Some t' ∧ fds t' = fl.
Proof.
  intros [Hq Ht _ _]. rewrite (quiet_current _ _ Hq). assert (tables (threads s') !! current s = Some fl) as H by (by rewrite Ht, lookup_insert_eq).
  apply tables_inv in H as (t' & ? & ->). eauto.
Qed.

Lemma retabled_trans s l fl s1 fl' s2 : retabled s l fl s1 → retabled s1 l fl' s2 → retabled s l fl' s2.
Proof.
  intros [Hq Ht _ _] [Hq' Ht' Ha Hw]. split; [by eapply quiet_trans| |done|done]. rewrite Ht', (quiet_current _ _ Hq), Ht. apply insert_insert_eq.
Qed.

Lemma retabled_refl s l zs t : system s l zs → threads s !! current s = Some t → retabled s l (fds t) s.
Proof.
  intros Hsy Ht. split; [apply quiet_refl|by rewrite insert_id by (by apply tables_at)|apply Hsy|apply Hsy].
Qed.

(** *** Access rules *)

Lemma wp_get_fd s c t fd (Q : option vfs_file → sched → Prop) :
  threads s !! c = Some t → length (fds t) = MAX_FD → Q (open_at (fds t) fd) s → wp (get_fd c fd) Q s.
Proof.
  intros Ht Hl HQ. unfold get_fd. wp_step. eapply wp_thr; [done|]. unfold open_at in HQ.
  destruct (Z.ltb_spec fd 0), (Z.leb_spec (Z.of_nat MAX_FD) fd); cbn [orb] in *; try (wp_step; exact HQ).
  destruct (lookup_lt_is_Some_2 (fds t) (Z.to_nat fd)) as [f Hf]; [lia|]. rewrite Hf in HQ. wp_step. eapply wp_load; [lia|done|]. by wp_step.
Qed.

Lemma open_at_some fl fd f : open_at fl fd = Some f → 0 ≤ fd < Z.of_nat MAX_FD ∧ fl !! Z.to_nat fd = Some f ∧ f_used f = true.
Proof.
  unfold open_at. destruct (Z.ltb_spec fd 0), (Z.leb_spec (Z.of_nat MAX_FD) fd); cbn [orb]; try done.
  destruct (fl !! Z.to_nat fd) as [g|] eqn:E; cbn; [|done]. destruct (f_used g) eqn:Hu; [|done]. intros [= <-]. done.
Qed.

Lemma wp_fd_alloc s c t (Q : Z → sched → Prop) :
  threads s !! c = Some t → length (fds t) = MAX_FD → Q (free_at (fds t)) s → wp (fd_alloc c) Q s.
Proof.
  intros Ht Hl HQ. unfold fd_alloc. wp_step.
  apply (wp_for_ret (λ i s', s' = s ∧ ∀ j f, (j < Z.to_nat i)%nat → fds t !! j = Some f → f_used f = true)).
  - split; [done|]. lia.
  - intros i s' Hi (-> & Hused). wp_step. eapply wp_thr; [done|]. destruct (lookup_lt_is_Some_2 (fds t) (Z.to_nat i)) as [f Hf]; [lia|].
    wp_step. eapply wp_load; [lia|done|]. wp_step. destruct (f_used f) eqn:Hu; cbn [negb].
    + split; [done|]. intros j g Hj Hg. destruct (decide (j = Z.to_nat i)) as [->|]; [congruence|]. apply (Hused j g); [lia|done].
    + wp_step. unfold free_at in HQ. assert (list_find (λ f, f_used f = false) (fds t) = Some (Z.to_nat i, f)) as E.
      { apply list_find_Some. split_and!; [done|done|]. intros j g Hg Hj. rewrite (Hused j g Hj Hg). done. }
      rewrite E, Z2Nat.id in HQ by lia. done.
  - intros s' (-> & Hused). wp_step. unfold free_at in HQ. assert (list_find (λ f, f_used f = false) (fds t) = None) as E.
    { apply list_find_None, Forall_lookup. intros j g Hg. rewrite (Hused j g); [done| |done]. apply lookup_lt_Some in Hg. lia. }
    by rewrite E in HQ.
Qed.

Lemma tables_put (ts : gmap Z thread) c t i f :
  tables (<[c := set_fd i f t]> ts) = <[c := <[i := f]> (fds t)]> (tables ts).
Proof. unfold tables. by rewrite fmap_insert. Qed.

Lemma fds_set i f t : fds (set_fd i f t) = <[i := f]> (fds t).
Proof. done. Qed.

Lemma quiet_put s c t i f : threads s !! c = Some t → quiet s (set_threads (insert c (set_fd i f t)) s).
Proof. intros Ht. eapply quiet_upd; [done|]. apply calm_files. Qed.

(** ** The standard descriptors *)

Lemma wp_open_std s c t i f k (Q : unit → sched → Prop) :
  threads s !! c = Some t → fds t !! i = Some f → Q tt (set_threads (insert c (set_fd i (std_fd k f) t)) s) → wp (open_std c i k) Q s.
Proof.
  intros Ht Hf HQ. unfold open_std. wp_step. eapply wp_thr; [done|]. wp_step. eapply wp_load; [lia|by rewrite Nat2Z.id|]. by eapply wp_upd.
Qed.

(** What a call of [vfs_ensure_proc] or of [default_cwd] may change. *)
Record ensured (s : sched) (fl : list vfs_file) (s' : sched) : Prop := Ensured {
  es_quiet : quiet s s';
  es_tables : tables (threads s') = <[current s := fl]> (tables (threads s));
  es_vfs : sc_vfs s' = sc_vfs s;
  es_cwd : ∀ t, threads s' !! current s' = Some t → fs_cwd (t_files t) ≠ [] }.

Lemma wp_default_cwd s0 fl s t (Q : unit → sched → Prop) :
  quiet s0 s → tables (threads s) = <[current s0 := fl]> (tables (threads s0)) → sc_vfs s = sc_vfs s0 →
  threads s !! current s0 = Some t → fs_cwd (t_files t) ≠ [] →
  (∀ s', ensured s0 fl s' → Q tt s') → wp (default_cwd (current s0)) Q s.
Proof.
  intros Hq HT Hv Ht Hcwd HQ. unfold default_cwd. wp_step. eapply wp_thr; [done|].
  destruct (fs_cwd (t_files t)) as [|c0 r] eqn:E; [done|]. wp_step. eapply wp_load; [lia|done|].
  destruct (c0 =? 0).
  2:{ wp_step. apply HQ. split; try done. intros u. rewrite (quiet_current _ _ Hq), Ht. intros [= <-]. by rewrite E. }
  eapply wp_upd; [done|]. apply HQ. split; cbn [threads sc_vfs set_threads current].
  - eapply quiet_trans; [exact Hq|]. eapply quiet_upd; [done|]. apply calm_files.
  - rewrite <-HT. by eapply tables_insert.
  - done.
  - rewrite (quiet_current _ _ Hq), lookup_insert_eq. intros u [= <-]. cbn. by rewrite E.
Qed.

Lemma table_len s l zs t : system s l zs → threads s !! current s = Some t → length (fds t) = MAX_FD.
Proof. intros Hsy Ht. eapply (ac_len _ _ (sy_files _ _ _ Hsy)). by apply tables_at. Qed.

(** It always resets all three descriptors when one of them is closed. *)
Lemma wp_ensure_run s t (Q : unit → sched → Prop) :
  current s ≠ 0 → threads s !! current s = Some t → length (fds t) = MAX_FD → fs_cwd (t_files t) ≠ [] →
  (∀ s', ensured s (std_table (fds t)) s' → Q tt s') → wp vfs_ensure_proc Q s.
Proof.
  intros Hc Ht Hl Hcwd HQ. unfold vfs_ensure_proc. wp_step. wp_step.
  rewrite (proj2 (Z.eqb_neq _ _)) by done. wp_step. eapply wp_thr; [done|].
  destruct (fds t) as [|f0 [|f1 [|f2 r]]] eqn:Hfl; try done.
  wp_step. eapply wp_load; [lia|done|]. wp_step. eapply wp_load; [lia|done|]. wp_step. eapply wp_load; [lia|done|].
  cbn [std_table] in HQ. destruct (f_used f0 && f_used f1 && f_used f2) eqn:Hused.
  { eapply (wp_default_cwd s (f0 :: f1 :: f2 :: r)); [apply quiet_refl|rewrite insert_id; [done|by rewrite <-Hfl; apply tables_at]|done|done|done|exact HQ]. }
  wp_step. eapply wp_open_std; [done|by rewrite Hfl|]. set (t1 := set_fd 0 _ t). set (s1 := set_threads _ s).
  assert (threads s1 !! current s = Some t1) as Ht1 by (unfold s1; cbn [threads set_threads]; by rewrite lookup_insert_eq).
  assert (fds t1 = std_fd FD_TTY_IN f0 :: f1 :: f2 :: r) as E1 by (unfold t1; by rewrite fds_set, Hfl).
  wp_step. eapply wp_open_std; [done|by rewrite E1|]. set (t2 := set_fd 1 _ t1). set (s2 := set_threads _ s1).
  assert (threads s2 !! current s = Some t2) as Ht2 by (unfold s2; cbn [threads set_threads]; by rewrite lookup_insert_eq).
  assert (fds t2 = std_fd FD_TTY_IN f0 :: std_fd FD_CONSOLE_OUT f1 :: f2 :: r) as E2 by (unfold t2; by rewrite fds_set, E1).
  wp_step. eapply wp_open_std; [done|by rewrite E2|]. set (t3 := set_fd 2 _ t2).
  eapply (wp_default_cwd s (std_fd FD_TTY_IN f0 :: std_fd FD_CONSOLE_OUT f1 :: std_fd FD_CONSOLE_OUT f2 :: r)); [| |done|cbn [threads set_threads]; by rewrite lookup_insert_eq|done|exact HQ].
  - do 3 (eapply quiet_trans; [|by apply quiet_put]). apply quiet_refl.
  - unfold s2, s1. cbn [threads set_threads]. unfold tables. rewrite !fmap_insert, !insert_insert_eq. f_equal. unfold t3. by rewrite fds_set, E2.
Qed.

(** Slots that hold no reference get terminals. *)
Lemma accounted_std v T c fl : accounted v T → T !! c = Some fl → std_ok fl → accounted v (<[c := std_table fl]> T).
Proof.
  intros Ha Hc Hstd. destruct fl as [|f0 [|f1 [|f2 r]]] eqn:Hfl; try (cbn; by rewrite insert_id). cbn.
  destruct (f_used f0 && f_used f1 && f_used f2) eqn:Hused; [by rewrite insert_id|].
  assert (∀ i f, (i < 3)%nat → (f0 :: f1 :: f2 :: r) !! i = Some f → counts_node f = false) as Hidle.
  { destruct Hstd as [E|E]; [|exact E]. cbn in E. rewrite Hused in E. injection E as E0 E1 E2. rewrite <-E0, <-E1, <-E2 in Hused. done. }
  assert (∀ v T l i f k, accounted v T → T !! c = Some l → l !! i = Some f → counts_node f = false → k = FD_TTY_IN ∨ k = FD_CONSOLE_OUT →
    accounted v (<[c := <[i := std_fd k f]> l]> T)) as Hone.
  { intros u U l i f k Hu Hl Hi Hf Hk. eapply accounted_close; [exact Hu|done|exact Hi| | |by apply moved_none]; [by destruct Hk as [-> | ->]|].
    intros ? _. by destruct Hk as [-> | ->]. }
  pose proof (Hone v T _ 0%nat f0 FD_TTY_IN Ha Hc eq_refl (Hidle 0%nat f0 ltac:(lia) eq_refl) ltac:(by left)) as Ha1.
  pose proof (Hone v _ _ 1%nat f1 FD_CONSOLE_OUT Ha1 ltac:(by rewrite lookup_insert_eq) eq_refl (Hidle 1%nat f1 ltac:(lia) eq_refl) ltac:(by right)) as Ha2.
  pose proof (Hone v _ _ 2%nat f2 FD_CONSOLE_OUT Ha2 ltac:(by rewrite lookup_insert_eq) eq_refl (Hidle 2%nat f2 ltac:(lia) eq_refl) ltac:(by right)) as Ha3.
  by rewrite !insert_insert_eq in Ha3.
Qed.

Lemma wp_ensure_proc s l zs t (Q : unit → sched → Prop) :
  system s l zs → threads s !! current s = Some t → proc_ok t →
  (∀ s', retabled s l (std_table (fds t)) s' → sc_vfs s' = sc_vfs s → (∀ u, threads s' !! current s' = Some u → fs_cwd (t_files u) ≠ []) → Q tt s') →
  wp vfs_ensure_proc Q s.
Proof.
  intros Hsy Ht [Hstd Hcwd] HQ. eapply wp_ensure_run; [apply Hsy|done|by eapply table_len|done|]. intros s' [Hq HT Hv Hc]. apply HQ; [|done|done].
  split; [done|done|rewrite Hv, HT; apply accounted_std; [apply Hsy|by apply tables_at|done]|rewrite Hv; apply Hsy].
Qed.

(** ** Closing *)

Section fd_calls.
Context {env : VfsEnv} {senv : SchedEnv} {free_local : InodeFree}.

(** [sys_close] repeats what [thread_close_fds] does with an end. *)
Lemma close_end_same s n nd p :
  vf_nodes (sc_vfs s) !! n = Some nd → vn_type nd = VFS_PIPE_R ∨ vn_type nd = VFS_PIPE_W → vn_priv nd = Some p → close_end n s = close_pipe_end n s.
Proof.
  intros Hn Hty Hp. assert (on_vfs (deref n) s = Ok (nd, s)) as Hd.
  { unfold on_vfs, zoom, deref, gets, mbind, M_bind, mret, M_ret. cbn. rewrite Hn. by destruct s. }
  assert (∀ A (k : vnode → M sched A), (on_vfs (deref n) ≫= k) s = k nd s) as Hb by (intros A k; unfold mbind, M_bind; by rewrite Hd).
  unfold close_end, close_pipe_end. rewrite !Hb. unfold pipe_of. rewrite Hp. unfold count_end. by destruct Hty as [-> | ->].
Qed.

Lemma present_ring s l zs : system s l zs → present (threads s) (main_thread :: l).
Proof. intros Hsy a Ha. by apply (q_member _ _ _ _ (so_queue _ _ _ (sy_ok _ _ _ Hsy))). Qed.

(** The body of [sys_close] for an open descriptor. *)
Lemma wp_close_body s l zs T' t f (Q : unit → sched → Prop) :
  system s l zs → threads s !! current s = Some t → f ∈ fds t → f_used f = true →
  (∀ v', moved (-1) f (sc_vfs s) v' → accounted v' T') →
  (∀ s', settled s (main_thread :: l) T' s' → Q tt s') →
  wp (if bool_decide (f_kind f = FD_PIPE) then n ← node_of f; close_end n
      else if bool_decide (f_kind f = FD_VNODE) then on_vfs (vfs_release (f_node f)) else mret tt) Q s.
Proof.
  intros Hsy Ht Hf Hu Hmv HQ. assert (slot (tables (threads s)) f) as Hs by (exists (current s), (fds t); split; [by apply tables_at|done]).
  pose proof (sy_files _ _ _ Hsy) as Hac. pose proof (ac_open _ _ Hac f Hs Hu) as Hok.
  assert (wp (close_fd f) Q s) as Hwp by (eapply wp_close_fd; [done|exact Hs|done|apply Hsy|by eapply present_ring|done|done]).
  unfold close_fd in Hwp. destruct (f_kind f) eqn:Hk; cbn [bool_decide decide]; try (destruct (f_node f); exact Hwp).
  destruct Hok as (n & nd & p & q & Hn & Hnd & Hty & Hp & _). unfold node_of. rewrite Hn, bool_decide_true in * by done. wp_step. wp_step.
  apply wp_ok in Hwp as (u & s' & Hrun & HQ'). rewrite <-(close_end_same s n nd p) in Hrun by done. apply wp_ok. eauto.
Qed.

Definition close_result (s : sched) (l : list Z) (fl : list vfs_file) (fd r : Z) (s' : sched) : Prop :=
  match open_at fl fd with
  | None => r = neg 1 ∧ retabled s l fl s'
  | Some f => r = 0 ∧ retabled s l (<[Z.to_nat fd := clear_fd f]> fl) s'
  end.

Lemma wp_sys_close s l zs t a1 (Q : Z → sched → Prop) :
  system s l zs → threads s !! current s = Some t → proc_ok t →
  (∀ r s', close_result s l (std_table (fds t)) (int a1) r s' → shrinks (sc_vfs s) (sc_vfs s') → Q r s') →
  wp (sys_close a1) Q s.
Proof.
  intros Hsy Ht Hp HQ. unfold sys_close. wp_step. eapply wp_ensure_proc; [done..|]. intros s1 Hr1 Hv1 _. set (fl := std_table (fds t)) in *.
  pose proof (system_retabled _ _ _ _ _ Hsy Hr1) as Hsy1. destruct (retabled_thread _ _ _ _ Hr1) as (t1 & Ht1 & Hfl). unfold close_result in HQ.
  wp_step. wp_step. wp_step. eapply wp_get_fd; [done|by eapply table_len|]. rewrite Hfl. destruct (open_at fl (int a1)) as [f|] eqn:Ho.
  2:{ wp_step. apply HQ; [done|]. intros k. by rewrite Hv1. }
  apply open_at_some in Ho as (Hrange & Hf & Hu). wp_step. rewrite <-Hfl in Hf.
  eapply (wp_close_body s1 l zs (<[current s1 := <[Z.to_nat (int a1) := clear_fd f]> (fds t1)]> (tables (threads s1)))); [done|done| |done| |].
  - by eapply list_elem_of_lookup_2.
  - intros v' Hm. eapply accounted_close; [apply Hsy1|by apply tables_at|exact Hf|done|apply clear_ok|exact Hm].
  - intros s2 [Hq2 Ht2 Ha2 Hw2 Hsh]. assert (∃ t2, threads s2 !! current s1 = Some t2 ∧ fds t2 = fds t1) as (t2 & Ht2c & Hfd2).
    { pose proof (tables_at _ _ _ Ht1) as E. rewrite <-Ht2 in E. apply tables_inv in E as (t2 & ? & ?). eauto. }
    wp_step. eapply wp_thr; [done|]. wp_step. eapply wp_load; [lia|by rewrite Hfd2|]. wp_step. unfold put_fd. eapply wp_upd; [done|]. wp_step.
    apply HQ; [split; [done|]|cbn [sc_vfs set_threads]; intros k Hk; apply Hsh; by rewrite Hv1]. eapply retabled_trans; [exact Hr1|]. split; cbn [threads sc_vfs set_threads].
    + eapply quiet_trans; [exact Hq2|]. by apply quiet_put.
    + by rewrite tables_put, Ht2, Hfd2, Hfl.
    + by rewrite tables_put, Ht2, Hfd2.
    + done.
Qed.

(** ** Duplicating *)

(** The counting of [sys_dup2] is that of [thread_ref_fd]. *)
Lemma wp_dup_refs s T o (Q : unit → sched → Prop) :
  f_used o = true → fd_ok (sc_vfs s) o → accounted (sc_vfs s) T → room 1 (sc_vfs s) →
  (∀ v', moved 1 o (sc_vfs s) v' → Q tt (put_vfs v' s)) → wp (dup_refs o) Q s.
Proof.
  intros Hu Hok Hac Hroom HQ. assert (dup_refs o s = on_vfs (thread_ref_fd o) s) as E.
  { specialize (Hok Hu). unfold dup_refs, thread_ref_fd. rewrite Hu. destruct (f_kind o) eqn:Hk; try (destruct (f_node o); unfold on_vfs, zoom; by destruct s).
    - destruct Hok as (n & nd & Hn & Hnd). rewrite Hn. unfold on_vfs, zoom, update, deref, gets, modify, mbind, M_bind, mret, M_ret. cbn. by rewrite !Hnd.
    - destruct Hok as (n & nd & p & q & Hn & Hnd & Hty & Hp & Hq). rewrite Hn.
      unfold on_vfs, zoom, update, deref, with_pipe, count_end, pipe_of, gets, modify, mbind, M_bind, mret, M_ret. cbn. rewrite !Hnd, Hp. cbn. rewrite Hq.
      destruct Hty as [-> | ->]; cbn; rewrite Hnd; unfold with_pipe, gets, modify, mbind, M_bind; cbn; rewrite Hq; cbn; by rewrite Hnd. }
  assert (wp (on_vfs (thread_ref_fd o)) Q s) as Hwp by (apply wp_zoom; by eapply wp_thread_ref_fd).
  apply wp_ok in Hwp as (u & s' & Hrun & ?). apply wp_ok. rewrite E. eauto.
Qed.

Lemma std_table_idem fl : std_table (std_table fl) = std_table fl.
Proof. destruct fl as [|f0 [|f1 [|f2 r]]]; try done. cbn. destruct (f_used f0 && f_used f1 && f_used f2) eqn:E; cbn; by rewrite ?E. Qed.

Lemma int_fd fd : 0 ≤ fd < Z.of_nat MAX_FD → int (u64 fd) = fd ∧ u64 fd = fd.
Proof.
  intros Hfd. unfold MAX_FD in Hfd. rewrite u64_small by (unfold is_u64; lia). split; [|done].
  unfold int. rewrite u32_small by (unfold is_u32; lia). apply i32_small. lia.
Qed.

Definition dup_result (s : sched) (l : list Z) (fl : list vfs_file) (oldfd newfd r : Z) (s' : sched) : Prop :=
  match open_at fl oldfd with
  | None => r = neg 1 ∧ retabled s l fl s'
  | Some f =>
    if (newfd <? 0) || (Z.of_nat MAX_FD <=? newfd) then r = neg 1 ∧ retabled s l fl s'
    else r = newfd ∧ retabled s l (<[Z.to_nat newfd := f]> fl) s'
  end.

(** A copy of the open descriptor [f] is stored in a slot without references. *)
Lemma wp_store_copy s l zs t i g f (Q : unit → sched → Prop) :
  system s l zs → threads s !! current s = Some t → fds t !! i = Some g → counts_node g = false → f ∈ fds t → f_used f = true → room 1 (sc_vfs s) →
  (∀ s', retabled s l (<[i := f]> (fds t)) s' → Q tt s') →
  wp (put_fd (current s) (Z.of_nat i) f ;; dup_refs f) Q s.
Proof.
  intros Hsy Ht Hi Hg Hf Hu Hroom HQ. unfold put_fd. rewrite Nat2Z.id. wp_step. eapply wp_upd; [done|].
  assert (fd_ok (sc_vfs s) f) as Hok by (apply (ac_open _ _ (sy_files _ _ _ Hsy)); exists (current s), (fds t); split; [by apply tables_at|done]).
  eapply wp_dup_refs; [done|exact Hok|apply Hsy|done|]. cbn [sc_vfs set_threads]. intros v' Hm. apply HQ. split; cbn [threads sc_vfs set_threads put_vfs].
  - eapply quiet_trans; [by apply quiet_put|apply quiet_vfs].
  - apply tables_put.
  - rewrite tables_put. eapply accounted_open; [apply Hsy|by apply tables_at|done|done|done|done|done].
  - eapply waiters_moved; [done|]. apply Hsy.
Qed.

Lemma wp_sys_dup2 s l zs t a1 a2 (Q : Z → sched → Prop) :
  system s l zs → threads s !! current s = Some t → proc_ok t → room 1 (sc_vfs s) →
  (∀ r s', dup_result s l (std_table (fds t)) (int a1) (int a2) r s' → Q r s') →
  wp (sys_dup2 a1 a2) Q s.
Proof.
  intros Hsy Ht Hp Hroom HQ. unfold sys_dup2. cbn zeta. set (oldfd := int a1) in *. set (newfd := int a2) in *.
  wp_step. eapply wp_ensure_proc; [done..|]. intros s1 Hr1 Hv1 Hcwd1. set (fl := std_table (fds t)) in *.
  pose proof (system_retabled _ _ _ _ _ Hsy Hr1) as Hsy1. destruct (retabled_thread _ _ _ _ Hr1) as (t1 & Ht1 & Hfl). unfold dup_result in HQ.
  wp_step. wp_step. wp_step. eapply wp_get_fd; [done|by eapply table_len|]. rewrite Hfl. destruct (open_at fl oldfd) as [f|] eqn:Ho; [|wp_step; by apply HQ].
  apply open_at_some in Ho as (Hrange & Hf & Hu). destruct ((newfd <? 0) || (Z.of_nat MAX_FD <=? newfd)) eqn:Hnr; [wp_step; by apply HQ|].
  apply orb_false_iff in Hnr as [Hn0%Z.ltb_ge Hn1%Z.leb_gt]. destruct (int_fd newfd) as [Hi64 Hu64]; [lia|].
  destruct (Z.eqb_spec oldfd newfd) as [Heq|Hne].
  { wp_step. rewrite Hu64. apply HQ. split; [done|]. rewrite <-Heq, list_insert_id by done. done. }
  assert (∀ s2 fl2 g, retabled s1 l fl2 s2 → fl2 = <[Z.to_nat newfd := g]> fl → counts_node g = false → room 1 (sc_vfs s2) →
    wp (x ← thr (current s1); o ← load (fds x) oldfd;
        put_fd (current s1) newfd (VfsFile true (f_kind o) (f_node o) (f_off o) (f_flags o)) ;; dup_refs o ;; mret (u64 newfd)) Q s2) as Hgo.
  { intros s2 fl2 g Hr2 Hfl2 Hg Hroom2. pose proof (system_retabled _ _ _ _ _ Hsy1 Hr2) as Hsy2. destruct (retabled_thread _ _ _ _ Hr2) as (t2 & Ht2 & Hfd2).
    pose proof (quiet_current _ _ (rt_quiet _ _ _ _ Hr2)) as Hcur. rewrite <-Hcur. pose proof (table_len _ _ _ _ Hsy1 Ht1) as Hlen. rewrite Hfl in Hlen.
    assert (fds t2 !! Z.to_nat oldfd = Some f) as Hold by (rewrite Hfd2, Hfl2, list_lookup_insert_ne by lia; done).
    wp_step. eapply wp_thr; [done|]. wp_step. eapply wp_load; [lia|done|]. apply wp_assoc. wp_step.
    replace (VfsFile true _ _ _ _) with f by (destruct f; simpl in Hu; by subst). rewrite <-(Z2Nat.id newfd) at 1 by lia.
    eapply (wp_store_copy s2 l zs t2 _ g); [done|done| |done|by eapply list_elem_of_lookup_2|done|done|].
    { rewrite Hfd2, Hfl2. apply list_lookup_insert_eq. lia. }
    intros s3 Hr3. wp_step. rewrite Hu64. apply HQ. split; [done|]. eapply retabled_trans; [exact Hr1|]. eapply retabled_trans; [exact Hr2|].
    by rewrite Hfd2, Hfl2, list_insert_insert_eq in Hr3. }
  wp_step. eapply wp_get_fd; [done|by eapply table_len|]. rewrite Hfl. destruct (open_at fl newfd) as [g|] eqn:Hog.
  - wp_step. eapply (wp_sys_close s1 l zs t1); [done|done|split; [left; rewrite Hfl; apply std_table_idem|by apply Hcwd1]|].
    intros r s2 Hcr Hsh. rewrite Hfl in Hcr. unfold fl in Hcr. rewrite std_table_idem in Hcr. fold fl in Hcr. unfold close_result in Hcr. rewrite Hi64, Hog in Hcr.
    destruct Hcr as [-> Hr2]. change (0 =? neg 1) with false. cbn iota. eapply Hgo; [exact Hr2|done|done|]. apply Hsh. by rewrite Hv1.
  - wp_step. wp_step. change (0 =? neg 1) with false. cbn iota. destruct (lookup_lt_is_Some_2 fl (Z.to_nat newfd)) as [g Hg].
    { rewrite <-Hfl, (table_len _ _ _ _ Hsy1 Ht1). lia. }
    eapply (Hgo s1 fl g); [rewrite <-Hfl; by eapply retabled_refl|by rewrite list_insert_id| |by rewrite Hv1].
    unfold open_at in Hog. rewrite (proj2 (Z.ltb_ge _ _)), (proj2 (Z.leb_gt _ _)), Hg in Hog by lia. cbn in Hog. unfold counts_node. by destruct (f_used g).
Qed.
End fd_calls.

(** ** New pipes *)

(** The heap and the counter of names do not matter. *)
Lemma accounted_same v v' T : accounted v T → vf_nodes v' = vf_nodes v → vf_pipes v' = vf_pipes v → vf_mounts v' = vf_mounts v → accounted v' T.
Proof.
  intros [Hl Ho Hr He Hot Hrd Hwr Hmt [R1 R2 R3]] En Ep Em. split; [done|..]; rewrite ?En, ?Ep, ?Em; try done.
  - intros f Hf Hu. specialize (Ho f Hf Hu). destruct (f_kind f); try done; by rewrite En, ?Ep.
  - split; rewrite ?En, ?Ep; done.
Qed.

(** Nodes and pipes nobody refers to were added. *)
Record enlarged (v v' : vfs) : Prop := Enlarged {
  gr_nodes : vf_nodes v ⊆ vf_nodes v';
  gr_pipes : vf_pipes v ⊆ vf_pipes v';
  gr_node : ∀ n nd, vf_nodes v' !! n = Some nd → vf_nodes v !! n = None → vn_refcount nd = 0 ∧ vn_sb nd = None;
  gr_pipe : ∀ p q, vf_pipes v' !! p = Some q → vf_pipes v !! p = None → p_nreaders q = 0 ∧ p_nwriters q = 0;
  gr_mounts : vf_mounts v' = vf_mounts v }.

Lemma on_end_enlarged v v' T ty p f : accounted v T → enlarged v v' → slot T f → on_end (vf_nodes v') ty p f = on_end (vf_nodes v) ty p f.
Proof.
  intros Hac Hg Hf. unfold on_end. destruct (f_used f) eqn:Hu; [|done]. destruct (bool_decide (f_kind f = FD_PIPE)) eqn:Hk; [|done].
  destruct (f_node f) as [n|] eqn:Hn; [|done]. destruct (counted_node v T f n) as [nd Hnd]; [done|done|unfold counts_node; by rewrite Hu, Hk, orb_true_r|done|].
  by rewrite (lookup_weaken _ _ _ _ Hnd (gr_nodes _ _ Hg)), Hnd.
Qed.

Lemma absent_ends v T ty p : accounted v T → vf_pipes v !! p = None → ty = VFS_PIPE_R ∨ ty = VFS_PIPE_W → fd_sum (on_end (vf_nodes v) ty p) T = 0.
Proof.
  intros Hac Hp Hty. assert (fd_sum (on_end (vf_nodes v) ty p) T = fd_sum (λ _, 0) T) as ->.
  { apply fd_sum_ext. intros f Hf. unfold on_end. destruct (f_used f) eqn:Hu; [|done]. pose proof (ac_open _ _ Hac f Hf Hu) as Hok.
    destruct (f_kind f) eqn:Hk; try done. destruct Hok as (n & nd & p' & q & Hn & Hnd & _ & Hp' & Hq). rewrite Hn, Hnd, Hp'. cbn.
    rewrite (bool_decide_false (Some p' = Some p)) by congruence. by rewrite andb_false_r. }
  unfold fd_sum. induction (map_to_list T) as [|[a l] r IH]; [done|]. simpl. rewrite IH, Z.add_0_r. clear. induction l; simpl; lia.
Qed.

Lemma accounted_enlarged v v' T : accounted v T → enlarged v v' → room 0 v' → accounted v' T.
Proof.
  intros Hac Hg Hroom. pose proof Hac as [Hl Ho Hr He Hot Hrd Hwr Hmt _]. split; [done|..|done].
  - intros f Hf Hu. specialize (Ho f Hf Hu). destruct (f_kind f); try done.
    + destruct Ho as (n & nd & ? & ?). exists n, nd. split; [done|]. by eapply lookup_weaken; [|apply Hg].
    + destruct Ho as (n & nd & p & q & ? & ? & ? & ? & ?). exists n, nd, p, q. split_and!; try done; by eapply lookup_weaken; [|apply Hg].
  - intros n nd Hn. destruct (vf_nodes v !! n) as [nd'|] eqn:E.
    + pose proof (lookup_weaken _ _ _ _ E (gr_nodes _ _ Hg)). assert (nd' = nd) as -> by congruence. by apply Hr.
    + destruct (gr_node _ _ Hg n nd Hn E) as [-> _]. rewrite (absent_sum v T n) by done. by rewrite (proj2 (Hot n) E).
  - intros n nd Hn Hend. destruct (vf_nodes v !! n) as [nd'|] eqn:E.
    + pose proof (lookup_weaken _ _ _ _ E (gr_nodes _ _ Hg)). assert (nd' = nd) as -> by congruence. by apply (He n nd).
    + by apply Hot.
  - intros n. destruct (Hot n) as [? H0]. split; [done|]. intros Hn. apply H0. destruct (vf_nodes v !! n) as [nd|] eqn:E; [|done].
    by rewrite (lookup_weaken _ _ _ _ E (gr_nodes _ _ Hg)) in Hn.
  - intros p q Hq. rewrite (fd_sum_ext _ (on_end (vf_nodes v) VFS_PIPE_R p)) by (intros f Hf; by eapply on_end_enlarged). destruct (vf_pipes v !! p) as [q'|] eqn:E.
    + pose proof (lookup_weaken _ _ _ _ E (gr_pipes _ _ Hg)). assert (q' = q) as -> by congruence. by apply Hrd.
    + destruct (gr_pipe _ _ Hg p q Hq E) as [-> _]. rewrite absent_ends; auto.
  - intros p q Hq. rewrite (fd_sum_ext _ (on_end (vf_nodes v) VFS_PIPE_W p)) by (intros f Hf; by eapply on_end_enlarged). destruct (vf_pipes v !! p) as [q'|] eqn:E.
    + pose proof (lookup_weaken _ _ _ _ E (gr_pipes _ _ Hg)). assert (q' = q) as -> by congruence. by apply Hwr.
    + destruct (gr_pipe _ _ Hg p q Hq E) as [_ ->]. rewrite absent_ends; auto.
  - intros n nd i Hn Hsb. rewrite (gr_mounts _ _ Hg). destruct (vf_nodes v !! n) as [nd'|] eqn:E.
    + pose proof (lookup_weaken _ _ _ _ E (gr_nodes _ _ Hg)). assert (nd' = nd) as -> by congruence. by eapply Hmt.
    + destruct (gr_node _ _ Hg n nd Hn E) as [_ ?]. congruence.
Qed.

(** Names from [vf_next] on are not in use. *)
Definition unnamed (v : vfs) : Prop := ∀ k, (vf_next v ≤ k)%nat → vf_nodes v !! k = None ∧ vf_pipes v !! k = None.

(** A pipe with one reader and one writer and its two ends. *)
Record piped (v : vfs) (p : nat) (v' : vfs) : Prop := Piped {
  pd_node : vf_nodes v' = <[S (S p) := end_node VFS_PIPE_W p]> (<[S p := end_node VFS_PIPE_R p]> (vf_nodes v));
  pd_pipe : ∃ g, vf_pipes v' = <[p := Pipe (replicate 256 g) 256 0 1 1 0 false false]> (vf_pipes v);
  pd_mounts : vf_mounts v' = vf_mounts v }.

Definition end_fd (n : nat) (f : vfs_file) : vfs_file := VfsFile true FD_PIPE (Some n) 0 (f_flags f).

Section piping.
Context (v v' : vfs) (T : gmap Z (list vfs_file)) (p : nat).
Context (Hac : accounted v T) (Hroom : room 2 v) (Hn1 : vf_nodes v !! S p = None) (Hn2 : vf_nodes v !! S (S p) = None) (Hp : vf_pipes v !! p = None).
Context (Hpd : piped v p v').

(** The same without the two references. *)
Let zero_end (ty : vtype) : vnode := with_refcount 0 (end_node ty p).

Lemma piped_open c l rfd wfd g0 g1 :
  T !! c = Some l → l !! rfd = Some g0 → l !! wfd = Some g1 → rfd ≠ wfd → f_used g0 = false → f_used g1 = false →
  accounted v' (<[c := <[wfd := end_fd (S (S p)) g1]> (<[rfd := end_fd (S p) g0]> l)]> T).
Proof.
  intros Hc Hr Hw Hne H0 H1. destruct Hpd as [En [g Ep] Em].
  set (q0 := Pipe (replicate 256 g) 256 0 0 0 0 false false).
  set (v0 := set_nodes (λ ns, <[S (S p) := zero_end VFS_PIPE_W]> (<[S p := zero_end VFS_PIPE_R]> ns)) (set_pipes (insert p q0) v)).
  assert (room 2 v0) as Hroom0.
  { destruct Hroom as [R1 R2 R3]. split; cbn.
    - intros n nd. rewrite !lookup_insert. repeat case_decide; [by intros [= <-]..|]. apply R1.
    - intros r q. rewrite lookup_insert. case_decide; [by intros [= <-]|]. apply R2.
    - intros r q. rewrite lookup_insert. case_decide; [by intros [= <-]|]. apply R3. }
  assert (accounted v0 T) as Hac0.
  { eapply accounted_enlarged; [exact Hac| |eapply room_less; [exact Hroom0|lia]]. split; cbn; [| | | |done].
    - etrans; [by apply (insert_subseteq _ (S p))|]. apply insert_subseteq. by rewrite lookup_insert_ne by lia.
    - by apply insert_subseteq.
    - intros n nd. rewrite !lookup_insert. repeat case_decide; [by intros [= <-]..|congruence].
    - intros r q. rewrite lookup_insert. case_decide; [by intros [= <-]|congruence]. }
  assert (∀ f, f_used f = false → counts_node f = false) as Hun by (intros f Hf; unfold counts_node; by rewrite Hf).
  (* the reading end *)
  pose proof (moved_pipe 1 (end_fd (S p) g0) v0 (S p) (zero_end VFS_PIPE_R) p q0) as Hm1. cbn in Hm1. rewrite !lookup_insert in Hm1.
  rewrite (decide_True (P := p = p)), (decide_True (P := S p = S p)), (decide_False (P := S (S p) = S p)) in Hm1 by lia.
  specialize (Hm1 eq_refl eq_refl eq_refl eq_refl ltac:(by left) eq_refl eq_refl ltac:(done) ltac:(done)).
  match type of Hm1 with moved _ _ _ ?x => set (v1 := x) in Hm1 end.
  assert (accounted v1 (<[c := <[rfd := end_fd (S p) g0]> l]> T)) as Hac1.
  { eapply accounted_open; [exact Hac0|done|done|by apply Hun| |eapply room_less; [exact Hroom0|lia]|exact Hm1].
    intros _. exists (S p), (zero_end VFS_PIPE_R), p, q0. cbn. rewrite !lookup_insert.
    rewrite (decide_True (P := p = p)), (decide_True (P := S p = S p)), (decide_False (P := S (S p) = S p)) by lia. split_and!; auto. }
  (* the writing end *)
  pose proof (moved_pipe 1 (end_fd (S (S p)) g1) v1 (S (S p)) (zero_end VFS_PIPE_W) p (add_readers 1 q0)) as Hm2. cbn in Hm2. rewrite !lookup_insert in Hm2.
  rewrite (decide_True (P := p = p)), (decide_True (P := S (S p) = S (S p))), (decide_False (P := S p = S (S p))) in Hm2 by lia.
  specialize (Hm2 eq_refl eq_refl eq_refl eq_refl ltac:(by right) eq_refl eq_refl ltac:(done) ltac:(done)).
  match type of Hm2 with moved _ _ _ ?x => set (v2 := x) in Hm2 end.
  assert (accounted v2 (<[c := <[wfd := end_fd (S (S p)) g1]> (<[rfd := end_fd (S p) g0]> l)]> (<[c := <[rfd := end_fd (S p) g0]> l]> T))) as Hac2.
  { eapply accounted_open; [exact Hac1|by rewrite lookup_insert_eq| |by apply Hun|..|exact Hm2].
    - by rewrite list_lookup_insert_ne.
    - intros _. exists (S (S p)), (zero_end VFS_PIPE_W), p, (add_readers 1 q0). cbn. rewrite !lookup_insert.
      rewrite (decide_True (P := p = p)), (decide_True (P := S (S p) = S (S p))), (decide_False (P := S p = S (S p))) by lia. split_and!; auto.
    - pose proof (room_moved _ _ _ _ _ Hm1 Hroom0) as Hr1. by replace (2 - Z.max 1 0) with 1 in Hr1 by lia. }
  rewrite insert_insert_eq in Hac2. eapply accounted_same; [exact Hac2|..]; [rewrite En|rewrite Ep|rewrite Em; done].
  - cbn. apply map_eq. intros k. rewrite !lookup_insert. repeat case_decide; done.
  - cbn. apply map_eq. intros k. rewrite !lookup_insert. repeat case_decide; done.
Qed.
End piping.

Lemma wp_kmalloc_vfs v (Q : option Z → vfs → Prop) :
  Q (default (Some 170) (head (vf_heap v))) (set_heap (tail (vf_heap v)) v) → wp kmalloc Q v.
Proof.
  intros HQ. unfold kmalloc. wp_step. wp_step. destruct (vf_heap v) as [|a h] eqn:E; cbn in HQ.
  - wp_step. replace v with (set_heap [] v); [done|]. rewrite <-E. by destruct v.
  - wp_step. wp_step. by wp_step.
Qed.

(** An allocation of the call failed, or the table has less than two free slots. *)
Definition pipe_fails (s : sched) (fl : list vfs_file) : Prop :=
  None ∈ take 4 (vf_heap (sc_vfs s)) ∨ free_at fl < 0 ∨
  ∃ g, fl !! Z.to_nat (free_at fl) = Some g ∧ free_at (<[Z.to_nat (free_at fl) := VfsFile true (f_kind g) (f_node g) (f_off g) (f_flags g)]> fl) < 0.

(** The two lowest free slots got the ends of a new pipe. *)
Record pipe_made (s : sched) (l : list Z) (fl : list vfs_file) (rfd wfd : Z) (s' : sched) : Prop := PipeMade {
  pm_slots : ∃ g0 g1, fl !! Z.to_nat rfd = Some g0 ∧ fl !! Z.to_nat wfd = Some g1 ∧ f_used g0 = false ∧ f_used g1 = false ∧
    retabled s l (<[Z.to_nat wfd := end_fd (S (S (vf_next (sc_vfs s)))) g1]> (<[Z.to_nat rfd := end_fd (S (vf_next (sc_vfs s))) g0]> fl)) s';
  pm_first : 0 ≤ rfd < wfd ∧ wfd < Z.of_nat MAX_FD ∧ ∀ i f, Z.of_nat i < wfd → Z.of_nat i ≠ rfd → fl !! i = Some f → f_used f = true;
  pm_pipe : piped (sc_vfs s) (vf_next (sc_vfs s)) (sc_vfs s') }.

Lemma free_at_spec fl : free_at fl = -1 ∨ ∃ f, fl !! Z.to_nat (free_at fl) = Some f ∧ f_used f = false ∧ 0 ≤ free_at fl < Z.of_nat (length fl) ∧
  ∀ i g, Z.of_nat i < free_at fl → fl !! i = Some g → f_used g = true.
Proof.
  unfold free_at. destruct (list_find _ fl) as [[i f]|] eqn:E; [|by left]. right. apply list_find_Some in E as (Hi & Hf & Hb).
  exists f. rewrite Nat2Z.id. split_and!; [done|done|lia|apply lookup_lt_Some in Hi; lia|]. intros j g Hj Hg. specialize (Hb j g Hg). destruct (f_used g); [done|]. destruct Hb; [lia|done].
Qed.

Lemma retabled_vfs s l fl s1 v :
  retabled s l fl s1 → vf_nodes v = vf_nodes (sc_vfs s1) → vf_pipes v = vf_pipes (sc_vfs s1) → vf_mounts v = vf_mounts (sc_vfs s1) →
  retabled s l fl (put_vfs v s1).
Proof.
  intros [Hq Ht Ha Hw] En Ep Em. split; cbn [threads sc_vfs put_vfs]; [eapply quiet_trans; [done|apply quiet_vfs]|done|by eapply accounted_same|].
  intros p q. rewrite Ep. apply Hw.
Qed.

(** A slot that holds no reference is rewritten. *)
Lemma retabled_put s0 l s t i f f' :
  retabled s0 l (fds t) s → threads s !! current s = Some t → fds t !! i = Some f → counts_node f = false → counts_node f' = false → (∀ v, fd_ok v f') →
  retabled s0 l (<[i := f']> (fds t)) (set_threads (insert (current s) (set_fd i f' t)) s).
Proof.
  intros [Hq Ht Ha Hw] Hc Hi Hf Hf' Hok. split; cbn [threads sc_vfs set_threads]; [|rewrite tables_put, Ht, (quiet_current _ _ Hq), insert_insert_eq; done| |done].
  - eapply quiet_trans; [exact Hq|]. by apply quiet_put.
  - rewrite tables_put. eapply accounted_close; [exact Ha|by apply tables_at|exact Hi|done|done|by apply moved_none].
Qed.

Lemma heap_fails (h : list (option Z)) k : default (Some 170) (head (drop k h)) = None → (k < 4)%nat → None ∈ take 4 h.
Proof.
  intros Hd Hk. rewrite head_lookup, lookup_drop, Nat.add_0_r in Hd. destruct (h !! k) as [x|] eqn:E; [|done]. cbn in Hd. subst x.
  apply (list_elem_of_lookup_2 _ k). by rewrite lookup_take_lt.
Qed.

(** The new pipe and its ends go again. *)
Lemma wp_pipe_undo v p (Q : unit → sched → Prop) s :
  piped v p (sc_vfs s) → vf_nodes v !! S p = None → vf_nodes v !! S (S p) = None → vf_pipes v !! p = None →
  (∀ w', vf_nodes w' = vf_nodes v → vf_pipes w' = vf_pipes v → vf_mounts w' = vf_mounts v → Q tt (put_vfs w' s)) →
  wp (on_vfs (modify (set_pipes (delete p)) ;; kfree_node (S p) ;; kfree_node (S (S p)))) Q s.
Proof.
  intros [En [g Ep] Em] H1 H2 H3 HQ. apply wp_zoom. wp_step. wp_step.
  assert (∀ u n x (R : unit → vfs → Prop), vf_nodes u !! n = Some x → R tt (set_nodes (delete n) u) → wp (kfree_node n) R u) as Hfree.
  { intros u n x R Hn HR. unfold kfree_node. wp_step. eapply wp_vnode_deref; [done|]. by wp_step. }
  wp_step. eapply Hfree; [cbn; by rewrite En, lookup_insert_ne, lookup_insert_eq by lia|].
  eapply Hfree; [cbn; by rewrite En, lookup_delete_ne, lookup_insert_eq by lia|]. apply HQ; cbn; [|by rewrite Ep, delete_insert_id|done].
  rewrite En, delete_insert_ne, delete_insert_id, delete_insert_id by (done || rewrite ?lookup_delete_ne, ?lookup_insert_ne by lia; done). done.
Qed.

Lemma free_at_next fl f : let i := free_at fl in
  fl !! Z.to_nat i = Some f → 0 ≤ i → ∀ f', f_used f' = true → free_at (<[Z.to_nat i := f']> fl) = -1 ∨
  ∃ g, fl !! Z.to_nat (free_at (<[Z.to_nat i := f']> fl)) = Some g ∧ f_used g = false ∧ i < free_at (<[Z.to_nat i := f']> fl) < Z.of_nat (length fl) ∧
    ∀ j h, Z.of_nat j < free_at (<[Z.to_nat i := f']> fl) → Z.of_nat j ≠ i → fl !! j = Some h → f_used h = true.
Proof.
  cbn zeta. intros Hf Hi f' Hf'. set (i := free_at fl) in *. set (fl' := <[_ := f']> fl). destruct (free_at_spec fl') as [?|(g & Hg & Hu & Hr & Hb)]; [by left|right].
  set (j := free_at fl') in *. assert (Z.to_nat i ≠ Z.to_nat j) as Hne.
  { intros E. unfold fl' in Hg. rewrite <-E, list_lookup_insert_eq in Hg by (by eapply lookup_lt_Some). congruence. }
  unfold fl' in Hg. rewrite list_lookup_insert_ne in Hg by done. exists g. split_and!; [done|done| |unfold fl' in Hr; rewrite length_insert in Hr; lia|].
  - destruct (free_at_spec fl) as [?|(_ & _ & _ & _ & Hbi)]; [lia|]. destruct (Z.lt_trichotomy i j) as [?|[?|Hlt]]; [done|lia|].
    rewrite (Hbi (Z.to_nat j) g) in Hu; [done|lia|done].
  - intros k h Hk Hki Hh. apply (Hb k h Hk). unfold fl'. rewrite list_lookup_insert_ne by lia. done.
Qed.

Lemma wp_pipe_fds s l zs s1 t1 w p (Q : Z * option (Z * Z) → sched → Prop) :
  let fl := fds t1 in
  retabled s l fl s1 → system s1 l zs → threads s1 !! current s1 = Some t1 → piped (sc_vfs s1) p w → room 2 (sc_vfs s1) →
  vf_nodes (sc_vfs s1) !! S p = None → vf_nodes (sc_vfs s1) !! S (S p) = None → vf_pipes (sc_vfs s1) !! p = None →
  (∀ s', (free_at fl < 0 ∨ ∃ g, fl !! Z.to_nat (free_at fl) = Some g ∧
      free_at (<[Z.to_nat (free_at fl) := VfsFile true (f_kind g) (f_node g) (f_off g) (f_flags g)]> fl) < 0) → retabled s l fl s' → Q (neg 1, None) s') →
  (∀ rfd wfd g0 g1 s', fl !! Z.to_nat rfd = Some g0 → fl !! Z.to_nat wfd = Some g1 → f_used g0 = false → f_used g1 = false →
    retabled s l (<[Z.to_nat wfd := end_fd (S (S p)) g1]> (<[Z.to_nat rfd := end_fd (S p) g0]> fl)) s' → sc_vfs s' = w →
    0 ≤ rfd < wfd ∧ wfd < Z.of_nat MAX_FD ∧ (∀ i f, Z.of_nat i < wfd → Z.of_nat i ≠ rfd → fl !! i = Some f → f_used f = true) → Q (0, Some (rfd, wfd)) s') →
  wp (pipe_fds (current s1) p (S p) (S (S p))) Q (put_vfs w s1).
Proof.
  intros fl Hr1 Hsy1 Ht1 Hpd Hroom H1 H2 H3 Hno Hyes. pose proof (table_len _ _ _ _ Hsy1 Ht1) as Hlen.
  assert (∀ w', vf_nodes w' = vf_nodes (sc_vfs s1) → vf_pipes w' = vf_pipes (sc_vfs s1) → vf_mounts w' = vf_mounts (sc_vfs s1) → retabled s l fl (put_vfs w' s1)) as Hback
    by (intros; by apply retabled_vfs).
  unfold pipe_fds. cbn zeta. wp_step. eapply wp_fd_alloc; [exact Ht1|done|]. fold fl in Hlen |- *. destruct (Z.ltb_spec (free_at fl) 0) as [Hneg|Hpos].
  { wp_step. eapply (wp_pipe_undo (sc_vfs s1)); [done..|]. intros w' E1 E2 E3. wp_step. apply Hno; [by left|]. by apply Hback. }
  destruct (free_at_spec fl) as [?|(g0 & Hg0 & Hu0 & Hrange & _)]; [lia|]. set (rfd := free_at fl) in *.
  wp_step. eapply wp_thr; [exact Ht1|]. wp_step. eapply wp_load; [lia|exact Hg0|].
  set (f0 := VfsFile true (f_kind g0) (f_node g0) (f_off g0) (f_flags g0)).
  wp_step. unfold put_fd. eapply wp_upd; [exact Ht1|]. set (t2 := set_fd (Z.to_nat rfd) f0 t1). set (s2 := set_threads _ (put_vfs w s1)).
  assert (threads s2 !! current s1 = Some t2) as Ht2 by (unfold s2; cbn [threads set_threads]; by rewrite lookup_insert_eq).
  wp_step. eapply wp_fd_alloc; [exact Ht2|unfold t2; by rewrite fds_set, length_insert|].
  change (free_at (fds t2)) with (free_at (<[Z.to_nat rfd := f0]> fl)).
  pose proof (free_at_next fl g0 Hg0 Hpos f0 eq_refl) as Hnx. fold rfd in Hnx. set (wfd := free_at (<[Z.to_nat rfd := f0]> fl)) in *.
  destruct (Z.ltb_spec wfd 0) as [Hneg|Hpos2].
  { wp_step. eapply wp_upd; [exact Ht2|]. wp_step. set (s3 := set_threads _ s2).
    replace s3 with (put_vfs w s1).
    2:{ unfold s3, s2. replace (set_fd (Z.to_nat rfd) _ t2) with t1; [destruct s1; unfold set_threads; cbn; by rewrite insert_insert_eq, insert_id|].
        unfold t2, set_fd, set_files. destruct t1 as [? ? ? ? ? ? ? ? ? ? [fs ?] ? ? ?]. cbn in *. rewrite list_insert_insert_eq. f_equal. f_equal. symmetry. apply list_insert_id.
        unfold fl, fds in Hg0. cbn in Hg0. rewrite Hg0. f_equal. destruct g0. simpl in Hu0. by subst. }
    eapply (wp_pipe_undo (sc_vfs s1)); [done..|]. intros w' E1 E2 E3. wp_step. apply Hno; [right; eauto|]. by apply Hback. }
  destruct Hnx as [?|(g1 & Hg1 & Hu1 & Hw & Hb)]; [lia|]. assert (Z.to_nat rfd ≠ Z.to_nat wfd) as Hne by lia.
  wp_step. eapply wp_thr; [exact Ht2|]. wp_step. eapply wp_load; [lia|unfold t2; rewrite fds_set; fold fl; rewrite list_lookup_insert_ne by done; exact Hg1|].
  fold (end_fd (S p) g0). fold (end_fd (S (S p)) g1).
  wp_step. eapply wp_upd; [exact Ht2|]. set (t3 := set_fd (Z.to_nat rfd) (end_fd (S p) g0) t2). set (s3 := set_threads _ s2).
  assert (threads s3 !! current s1 = Some t3) as Ht3 by (unfold s3; cbn [threads set_threads]; by rewrite lookup_insert_eq).
  wp_step. eapply wp_upd; [exact Ht3|]. wp_step. apply (Hyes rfd wfd g0 g1); [done..| |done|]; [|split_and!; [lia|lia|lia|done]].
  pose proof Hr1 as [Hq1 Hta1 _ Hw1]. set (fin := <[Z.to_nat wfd := _]> _).
  assert (tables (threads (set_threads (insert (current s1) (set_fd (Z.to_nat wfd) (end_fd (S (S p)) g1) t3)) s3)) = <[current s1 := fin]> (tables (threads s1))) as HT.
  { unfold s3, s2. cbn [threads set_threads put_vfs]. unfold tables. rewrite !fmap_insert, !insert_insert_eq, fds_set. unfold t3. rewrite fds_set.
    unfold t2. by rewrite fds_set, list_insert_insert_eq. }
  split.
  - do 3 (eapply quiet_trans; [|by apply quiet_put]). eapply quiet_trans; [exact Hq1|apply quiet_vfs].
  - rewrite HT, Hta1, (quiet_current _ _ Hq1). apply insert_insert_eq.
  - rewrite HT. cbn [sc_vfs set_threads put_vfs]. eapply (piped_open (sc_vfs s1)); [apply Hsy1|done..| |exact Hg0|exact Hg1|done|done|done]. by apply tables_at.
  - cbn [sc_vfs set_threads put_vfs]. destruct Hpd as [_ [g Ep] _]. intros r q. cbn. rewrite Ep. intros [[<- <-]|[_ Hq]]%lookup_insert_Some; [by left|by eapply Hw1].
Qed.

Lemma wp_sys_pipe s l zs t a1 (Q : Z * option (Z * Z) → sched → Prop) :
  let fl := std_table (fds t) in
  system s l zs → user_space s t → proc_ok t → 0 ≤ a1 < 2 ^ 64 → room 2 (sc_vfs s) → unnamed (sc_vfs s) →
  (¬ user_range s t true a1 8 → Q (neg EFAULT, None) s) →
  (∀ s', user_range s t true a1 8 → pipe_fails s fl → retabled s l fl s' → Q (neg 1, None) s') →
  (∀ rfd wfd s', user_range s t true a1 8 → pipe_made s l fl rfd wfd s' → Q (0, Some (rfd, wfd)) s') →
  wp (sys_pipe a1) Q s.
Proof.
  intros fl Hsy Hus Hp Ha Hroom Hun Hbad Hno Hyes. unfold sys_pipe. wp_step. eapply wp_user_range; [exact Hus|done|done|]. intros b Hb.
  destruct b; cbn [negb]; [|wp_step; apply Hbad; intros H; apply Hb in H; done]. pose proof (proj1 Hb eq_refl) as Hur.
  wp_step. eapply wp_ensure_proc; [exact Hsy|apply Hus|done|]. intros s1 Hr1 Hv1 _. fold fl in Hr1.
  pose proof (system_retabled _ _ _ _ _ Hsy Hr1) as Hsy1. destruct (retabled_thread _ _ _ _ Hr1) as (t1 & Ht1 & Hfl).
  set (v := sc_vfs s) in *. set (h := vf_heap v). destruct (Hun (vf_next v) ltac:(lia)) as [_ H3]. destruct (Hun (S (vf_next v)) ltac:(lia)) as [H1 _].
  destruct (Hun (S (S (vf_next v))) ltac:(lia)) as [H2 _].
  assert (∀ k k', retabled s l fl (put_vfs (set_heap k v) (put_vfs k' s1))) as Hback.
  { intros k k'. change (put_vfs (set_heap k v) (put_vfs k' s1)) with (put_vfs (set_heap k v) s1). by apply retabled_vfs; rewrite ?Hv1. }
  assert (∀ k m (R : option Z → sched → Prop), (∀ o, o = default (Some 170) (head (drop k h)) → R o (put_vfs (set_heap (drop (S k) h) v) s1)) →
    m = put_vfs (set_heap (drop k h) v) s1 → wp (on_vfs kmalloc) R m) as Hmal.
  { intros k m R HR ->. apply wp_zoom, wp_kmalloc_vfs. cbn [sc_vfs put_vfs vf_heap set_heap].
    replace (tail (drop k h)) with (drop (S k) h) by (rewrite <-(Nat.add_1_r k), <-drop_drop; by destruct (drop k h)). by apply HR. }
  wp_step. wp_step. wp_step.
  apply (Hmal 0%nat); [|rewrite drop_0; unfold h; rewrite <-Hv1; by destruct s1 as [? ? ? ? ? ? ? ? ? ? [] ? ? ?]].
  intros o0 E0. destruct o0 as [x0|]; [|wp_step; apply Hno; [done|left; eapply heap_fails; [by symmetry|lia]|by apply (Hback _ v)]].
  wp_step. apply (Hmal 1%nat); [|done]. intros o1 E1. destruct o1 as [x1|]; [|wp_step; apply Hno; [done|left; eapply heap_fails; [by symmetry|lia]|by apply (Hback _ v)]].
  wp_step. apply (Hmal 2%nat); [|done]. intros o2 E2. wp_step. apply (Hmal 3%nat); [|done]. intros o3 E3.
  destruct o2 as [x2|]; [|wp_step; apply Hno; [done|left; eapply heap_fails; [by symmetry|lia]|by apply (Hback _ v)]].
  destruct o3 as [x3|]; [|wp_step; apply Hno; [done|left; eapply heap_fails; [by symmetry|lia]|by apply (Hback _ v)]].
  unfold add_pipe, new_end. do 3 (wp_step; apply wp_zoom; wp_step; wp_step; wp_step; wp_step; wp_step). cbn [sc_vfs put_vfs vf_next set_heap set_next set_nodes set_pipes].
  match goal with |- wp _ _ ?st => set (w := sc_vfs st); change st with (put_vfs w s1) end.
  assert (piped (sc_vfs s1) (vf_next v) w) as Hpd by (rewrite Hv1; split; [done|by exists x1|done]).
  eapply wp_pipe_fds; [rewrite Hfl; exact Hr1|done|done|exact Hpd|by rewrite Hv1..| |]; rewrite Hfl.
  - intros s' Hf Hr'. apply Hno; [done|by right|done].
  - intros rfd wfd g0 g1 s' Hg0 Hg1 Hu0 Hu1 Hr' Hw Hfst. apply Hyes; [done|]. split; [by exists g0, g1|done|]. rewrite Hw. by rewrite Hv1 in Hpd.
Qed.

(** ** Theorems *)

Section theorems.
Context {env : VfsEnv} {senv : SchedEnv} {free_local : InodeFree}.


(** [sys_close] of an open descriptor clears exactly that slot and releases
    what it held; the counts still are those of the open descriptors. *)
Theorem sys_close_exact s l zs t a1 :
  system s l zs → threads s !! current s = Some t → proc_ok t →
  ∃ r s', sys_close a1 s = Ok (r, s') ∧ close_result s l (std_table (fds t)) (int a1) r s' ∧ system s' l zs.
Proof.
  intros Hsy Ht Hp. assert (wp (sys_close a1) (close_result s l (std_table (fds t)) (int a1)) s) as Hwp by (eapply wp_sys_close; [done..|]; auto).
  apply wp_ok in Hwp as (r & s' & Hrun & Hr). exists r, s'. split_and!; [done|done|]. unfold close_result in Hr.
  destruct (open_at _ _); destruct Hr as [_ Hr]; by eapply system_retabled.
Qed.

(** [sys_pipe] returns; unless the result cannot be stored in user memory, an
    allocation fails or fewer than two descriptors are free, the two lowest free
    descriptors become the reading and the writing end of a new empty pipe with
    one reader and one writer; when it fails nothing of the attempt is left. *)
Theorem sys_pipe_exact s l zs t a1 :
  system s l zs → user_space s t → proc_ok t → 0 ≤ a1 < 2 ^ 64 → room 2 (sc_vfs s) → unnamed (sc_vfs s) →
  ∃ r s', sys_pipe a1 s = Ok (r, s') ∧ system s' l zs ∧
    ((¬ user_range s t true a1 8 ∧ r = (neg EFAULT, None) ∧ s' = s) ∨
     (user_range s t true a1 8 ∧ pipe_fails s (std_table (fds t)) ∧ r = (neg 1, None) ∧ retabled s l (std_table (fds t)) s') ∨
     (∃ rfd wfd, user_range s t true a1 8 ∧ r = (0, Some (rfd, wfd)) ∧ pipe_made s l (std_table (fds t)) rfd wfd s')).
Proof.
  intros Hsy Hus Hp Ha Hroom Hun.
  assert (wp (sys_pipe a1) (λ r s', system s' l zs ∧
    ((¬ user_range s t true a1 8 ∧ r = (neg EFAULT, None) ∧ s' = s) ∨
     (user_range s t true a1 8 ∧ pipe_fails s (std_table (fds t)) ∧ r = (neg 1, None) ∧ retabled s l (std_table (fds t)) s') ∨
     (∃ rfd wfd, user_range s t true a1 8 ∧ r = (0, Some (rfd, wfd)) ∧ pipe_made s l (std_table (fds t)) rfd wfd s'))) s) as Hwp.
  { eapply wp_sys_pipe; [exact Hsy|exact Hus|done..| | |].
    - intros Hb. split; [done|]. left. done.
    - intros s' Hur Hf Hr. split; [by eapply system_retabled|]. right. left. done.
    - intros rfd wfd s' Hur Hm. split; [|right; right; by exists rfd, wfd]. destruct (pm_slots _ _ _ _ _ _ Hm) as (g0 & g1 & _ & _ & _ & _ & Hr). by eapply system_retabled. }
  apply wp_ok in Hwp as (r & s' & Hrun & Hr). eauto.
Qed.

(** [vfs_ensure_proc], which every file call runs first, loses a redirected
    standard descriptor: when one of the descriptors 0, 1 and 2 is closed and
    another is the end of a pipe, that end is overwritten without being
    released, and from then on the pipe counts an end nobody has. *)
Theorem ensure_proc_leaks s l zs t i f :
  system s l zs → threads s !! current s = Some t → fs_cwd (t_files t) ≠ [] → std_table (fds t) ≠ fds t →
  (i < 3)%nat → fds t !! i = Some f → f_used f = true → f_kind f = FD_PIPE →
  ∃ s', vfs_ensure_proc s = Ok (tt, s') ∧ sc_vfs s' = sc_vfs s ∧ tables (threads s') = <[current s := std_table (fds t)]> (tables (threads s)) ∧
    ¬ accounted (sc_vfs s') (tables (threads s')).
Proof.
  intros Hsy Ht Hcwd Hst Hi Hf Hu Hk.
  assert (wp vfs_ensure_proc (λ _ s', ensured s (std_table (fds t)) s') s) as Hwp by (eapply wp_ensure_run; [apply Hsy|done|by eapply table_len|done|auto]).
  apply wp_ok in Hwp as ([] & s' & Hrun & [_ HT Hv _]). exists s'. split_and!; [done..|]. rewrite HT, Hv. intros Hac'.
  pose proof (sy_files _ _ _ Hsy) as Hac. pose proof (tables_at _ _ _ Ht) as Hta.
  assert (slot (tables (threads s)) f) as Hsl by (exists (current s), (fds t); split; [done|by eapply list_elem_of_lookup_2]).
  pose proof (ac_open _ _ Hac f Hsl Hu) as Hok. rewrite Hk in Hok. destruct Hok as (n & nd & p & q & Hn & Hnd & Hty & _).
  assert (is_end (vn_type nd) = true) as Hend by (unfold is_end; by destruct Hty as [-> | ->]).
  pose proof (ac_refs _ _ Hac n nd Hnd) as E1. pose proof (ac_refs _ _ Hac' n nd Hnd) as E2.
  rewrite (fd_sum_set (on_node n) _ _ _ (std_table (fds t)) Hta) in E2.
  assert (on_node n f = 1) as H1 by (rewrite (on_node_self f n) by (unfold counts_node; by rewrite ?Hu, ?Hk); by rewrite decide_True).
  destruct (fds t) as [|f0 [|f1 [|f2 r]]] eqn:Hfl; try (by destruct Hst). cbn [std_table] in *.
  destruct (f_used f0 && f_used f1 && f_used f2); [done|]. cbn [zsum foldr] in E2. fold (zsum (on_node n) r) in E2.
  pose proof (on_node_nonneg n f0). pose proof (on_node_nonneg n f1). pose proof (on_node_nonneg n f2).
  assert (∀ k g, k = FD_TTY_IN ∨ k = FD_CONSOLE_OUT → on_node n (std_fd k g) = 0) as Hz by (intros k g [-> | ->]; done).
  rewrite !Hz in E2 by auto. destruct i as [|[|[|i]]]; cbn in Hf; [..|lia]; injection Hf as ->; lia.
Qed.
End theorems.

End accounting.

(** ** A process with a pipe as its standard output *)

#[local] Existing Instance no_others.

#[local] Existing Instance no_respawn.
#[local] Existing Instance no_ext_free.

Definition final {A} (m : M sched A) (s : sched) : sched := match m s with Ok (_, s') => s' | _ => s end.
Definition demo_pipe : sched := final (sys_pipe demo_page) demo_proc.
Definition demo_redirected : sched := final (sys_dup2 4 1) demo_pipe.
Definition demo_closed : sched := final (sys_close 0) demo_redirected.

Definition caller (s : sched) : thread := default zero_thread (threads s !! current s).

Lemma final_wp {A} (m : M sched A) s (Q : sched → Prop) : wp m (λ _ s', Q s') s → Q (final m s).
Proof. intros Hwp. apply (proj1 (wp_ok _ _ _)) in Hwp as (a & s' & Hrun & HQ). unfold final. by rewrite Hrun. Qed.

Lemma caller_at s l zs : system s l zs → threads s !! current s = Some (caller s).
Proof. intros Hsy. destruct (ok_current s l zs (sy_ok _ _ _ Hsy)) as [_ [t Ht]]. unfold caller. by rewrite Ht. Qed.

Lemma proc_ok_demo s : std_table (fds (caller s)) = fds (caller s) → fs_cwd (t_files (caller s)) ≠ [] → proc_ok (caller s).
Proof. intros Hs Hc. split; [by left|done]. Qed.

Lemma demo_proc_ok : proc_ok demo_caller.
Proof.
  split; [right|by vm_compute]. assert (Forall (λ f, counts_node f = false) (fds demo_caller)) as Hall by (apply (bool_decide_unpack _); by vm_compute).
  intros i f _ Hf. exact (Forall_lookup_1 _ _ _ _ Hall Hf).
Qed.

Lemma room_demo v k : bool_decide (map_Forall (λ _ nd, vn_refcount nd + k < 2 ^ 32) (vf_nodes v)) = true →
  bool_decide (map_Forall (λ _ q, p_nreaders q + k < 2 ^ 31 ∧ p_nwriters q + k < 2 ^ 31) (vf_pipes v)) = true → room k v.
Proof.
  intros H1%bool_decide_eq_true H2%bool_decide_eq_true. split; [by apply H1|..]; intros p q Hq; by apply (H2 p q).
Qed.

Lemma demo_fresh : room 2 (sc_vfs demo_proc) ∧ unnamed (sc_vfs demo_proc).
Proof.
  split; [apply room_demo; by vm_compute|]. intros k _. change (sc_vfs demo_proc) with (sc_vfs demo_0).
  assert (sc_vfs demo_0 = vfs_boot [] None) as -> by (by vm_compute). cbn [vf_nodes vf_pipes vfs_boot]. by rewrite !lookup_empty.
Qed.

Lemma sys_pipe_exact_witness :
  ∃ r s', sys_pipe demo_page demo_proc = Ok (r, s') ∧ r = (0, Some (3, 4)) ∧ system s' [] [] ∧
    ∃ rfd wfd, user_range demo_proc demo_caller true demo_page 8 ∧ r = (0, Some (rfd, wfd)) ∧ pipe_made demo_proc [] (std_table (fds demo_caller)) rfd wfd s'.
Proof.
  destruct (sys_pipe_exact demo_proc [] [] demo_caller demo_page demo_proc_system demo_user_space demo_proc_ok ltac:(done) (proj1 demo_fresh) (proj2 demo_fresh))
    as (r & s' & Hrun & Hsy & Hcases).
  assert (r = (0, Some (3, 4))) as Er.
  { assert ((λ x, match x with Ok (r, _) => Some r | _ => None end) (sys_pipe demo_page demo_proc) = Some (0, Some (3, 4))) as E by (by vm_compute).
    rewrite Hrun in E. by injection E. }
  exists r, s'. split_and!; [exact Hrun|exact Er|exact Hsy|]. destruct Hcases as [(_ & E & _)|[(_ & _ & E & _)|H]]; [rewrite Er in E; done..|exact H].
Defined.

Lemma demo_pipe_system : system demo_pipe [] [].
Proof.
  unfold demo_pipe. apply final_wp. eapply wp_sys_pipe; [exact demo_proc_system|exact demo_user_space|exact demo_proc_ok|done|apply demo_fresh|apply demo_fresh|..].
  - intros _. exact demo_proc_system.
  - intros s' _ _ Hr. eapply system_retabled; [exact demo_proc_system|exact Hr].
  - intros rfd wfd s' _ Hm. destruct (pm_slots _ _ _ _ _ _ Hm) as (g0 & g1 & _ & _ & _ & _ & Hr). eapply system_retabled; [exact demo_proc_system|exact Hr].
Qed.

Lemma demo_pipe_ok : proc_ok (caller demo_pipe) ∧ room 1 (sc_vfs demo_pipe).
Proof. split; [apply proc_ok_demo; by vm_compute|apply room_demo; by vm_compute]. Qed.


Lemma demo_redirected_system : system demo_redirected [] [].
Proof.
  unfold demo_redirected. apply final_wp.
  eapply wp_sys_dup2; [exact demo_pipe_system|exact (caller_at _ _ _ demo_pipe_system)|apply demo_pipe_ok|apply demo_pipe_ok|].
  intros r s' Hr. unfold dup_result in Hr.
  destruct (open_at _ _); [destruct (_ || _)|]; destruct Hr as [_ Hr]; (eapply system_retabled; [exact demo_pipe_system|exact Hr]).
Qed.

Lemma demo_redirected_ok : proc_ok (caller demo_redirected).
Proof. apply proc_ok_demo; by vm_compute. Qed.

Lemma sys_close_exact_witness :
  ∃ r s', sys_close 0 demo_redirected = Ok (r, s') ∧ close_result demo_redirected [] (std_table (fds (caller demo_redirected))) 0 r s' ∧ system s' [] [].
Proof. apply (sys_close_exact demo_redirected [] [] (caller demo_redirected) 0 demo_redirected_system (caller_at _ _ _ demo_redirected_system) demo_redirected_ok). Defined.

Lemma demo_closed_system : system demo_closed [] [].
Proof.
  unfold demo_closed. apply final_wp. eapply wp_sys_close; [exact demo_redirected_system|exact (caller_at _ _ _ demo_redirected_system)|exact demo_redirected_ok|].
  intros r s' Hr _. unfold close_result in Hr. destruct (open_at _ _); destruct Hr as [_ Hr]; (eapply system_retabled; [exact demo_redirected_system|exact Hr]).
Qed.

Lemma ensure_proc_leaks_witness :
  ∃ s', vfs_ensure_proc demo_closed = Ok (tt, s') ∧ sc_vfs s' = sc_vfs demo_closed ∧
    tables (threads s') = <[current demo_closed := std_table (fds (caller demo_closed))]> (tables (threads demo_closed)) ∧ ¬ accounted (sc_vfs s') (tables (threads s')).
Proof.
  destruct (fds (caller demo_closed) !! 1%nat) as [f|] eqn:Hf; [|by vm_compute in Hf].
  assert ((λ o, match o with Some f => f_used f && bool_decide (f_kind f = FD_PIPE) | None => false end) (fds (caller demo_closed) !! 1%nat) = true) as E by (by vm_compute).
  rewrite Hf in E. apply andb_true_iff in E as [Hu Hk%bool_decide_eq_true].
  apply (ensure_proc_leaks demo_closed [] [] (caller demo_closed) 1 f demo_closed_system (caller_at _ _ _ demo_closed_system)); [by vm_compute| |lia|exact Hf|exact Hu|exact Hk].
  intros E. apply (f_equal (λ l, match l with f :: _ => f_used f | [] => false end)) in E. by vm_compute in E.
Defined.
