(* ===== verification/SysPipe.v ===== *)
(** * SysPipe: a pipe is a queue of bytes

    [sys_write_pipe] and the pipe branch of [sys_read] of kernel/syscall.c refine
    a first-in first-out queue of bytes: the buffer grows as needed, what is read
    is what was written, in order, and a waiting reader is woken. *)

From Stdlib Require Import String.
From S2P Require Import Prelude BootMap Pmm Mmu Reclaim CString Security VfsPath Vfs Sched SchedQueue Fds SchedSpawn SchedRun Syscall SysUser SysFd.

#[local] Arguments for_up : simpl never.

Section accounting.
Context {oth : Others}.

(** ** The buffer *)

(** The bytes a pipe holds. *)
Definition held (q : pipe) : list Z := take (Z.to_nat (p_count q)) (p_buf q).

Record pipe_ok (q : pipe) : Prop := PipeOk {
  pk_len : strlen (p_buf q) = p_cap q;
  pk_cap : 0 < p_cap q < 2 ^ 64;
  pk_count : 0 ≤ p_count q ≤ p_cap q }.

Lemma held_len q : pipe_ok q → strlen (held q) = p_count q.
Proof. intros [Hl Hc Hn]. unfold held, strlen in *. rewrite length_take. lia. Qed.

(** Doubling reaches the size that is needed, without overflow. *)
Lemma wp_grow_cap cap need s (Q : Z → sched → Prop) :
  0 ≤ cap → need ≤ 2 ^ 63 → cap < need → (∀ ncap, need ≤ ncap < 2 ^ 64 → Q ncap s) → wp (grow_cap cap need) Q s.
Proof.
  intros Hcap Hneed Hlt HQ. unfold grow_cap.
  apply (wp_loop_ghost (λ m n s', s' = s ∧ (need ≤ n ∧ n < 2 ^ 64 ∨ 0 < n < need ∧ 2 ^ 63 < n * 2 ^ Z.of_nat m)) _ _ 64%nat); [| |].
  - split; [done|]. destruct (Z.eqb_spec cap 0) as [->|Hz].
    + destruct (Z.le_gt_cases need 256); [left; lia|right]. split; [lia|]. by vm_compute.
    + right. split; [lia|]. change (Z.of_nat 64) with 64. lia.
  - lia.
  - intros m n s' (-> & Hn). destruct (Z.ltb_spec n need) as [Hlt'|Hge].
    + wp_step. destruct Hn as [?|[Hpos Hm]]; [lia|]. destruct m as [|m]; [rewrite Z.mul_1_r in Hm; lia|]. exists m. split; [lia|]. split; [done|].
      rewrite u64_small by (unfold is_u64; lia). rewrite Nat2Z.inj_succ, Z.pow_succ_r in Hm by lia.
      destruct (Z.le_gt_cases need (n * 2)); [left; lia|right; lia].
    + wp_step. apply HQ. lia.
Qed.

(** Room for [len] more bytes: nothing of what the pipe holds is lost. *)
Lemma wp_pipe_reserve s p q len (Q : bool → sched → Prop) :
  vf_pipes (sc_vfs s) !! p = Some q → pipe_ok q → 0 ≤ len → p_count q + len ≤ 2 ^ 63 →
  (head (vf_heap (sc_vfs s)) = Some None → p_cap q < p_count q + len → Q false (put_vfs (set_heap (tail (vf_heap (sc_vfs s))) (sc_vfs s)) s)) →
  (∀ b cap v, strlen b = cap → 0 < cap < 2 ^ 64 → p_count q + len ≤ cap → take (Z.to_nat (p_count q)) b = held q →
     vf_nodes v = vf_nodes (sc_vfs s) → vf_mounts v = vf_mounts (sc_vfs s) → vf_pipes v = <[p := set_buf b cap (p_count q) q]> (vf_pipes (sc_vfs s)) →
     Q true (put_vfs v s)) →
  wp (pipe_reserve p len) Q s.
Proof.
  intros Hq [Hl Hc Hn] Hlen Hmax Hfail Hok. unfold pipe_reserve. wp_step. apply wp_zoom. eapply wp_get_pipe; [done|].
  replace (put_vfs (sc_vfs s) s) with s by (by destruct s). rewrite u64_small by (unfold is_u64; lia).
  destruct (Z.ltb_spec (p_cap q) (p_count q + len)) as [Hlt|Hge].
  2:{ wp_step. replace s with (put_vfs (sc_vfs s) s) by (by destruct s). eapply (Hok (p_buf q) (p_cap q)); try done; [lia..|]. rewrite insert_id; [done|]. by destruct q. }
  wp_step. eapply wp_grow_cap; [lia|done|done|]. intros ncap Hncap. wp_step. apply wp_zoom, wp_kmalloc_vfs.
  destruct (default (Some 170) (head (vf_heap (sc_vfs s)))) as [g|] eqn:Hg.
  2:{ wp_step. apply Hfail; [|done]. destruct (head (vf_heap (sc_vfs s))); [|done]. cbn in Hg. by subst. }
  wp_step.
  assert (length (take (Z.to_nat (p_count q)) (p_buf q)) = Z.to_nat (p_count q)) as Hlt' by (rewrite length_take; unfold strlen in *; lia).
  rewrite <-(take_drop (Z.to_nat (p_count q)) (replicate (Z.to_nat ncap) g)).
  apply (wp_store_bytes [] (take (Z.to_nat (p_count q)) (replicate (Z.to_nat ncap) g)) (take (Z.to_nat (p_count q)) (p_buf q)));
    [rewrite Hlt', length_take, length_replicate; lia|]. cbn [app].
  wp_step. apply wp_zoom. eapply wp_with_pipe; [done|]. wp_step. cbn [sc_vfs put_vfs].
  match goal with |- Q true (put_vfs ?v (put_vfs _ s)) => change (put_vfs v _) with (put_vfs v s) end.
  eapply (Hok _ ncap); [|lia|lia| |done|done|done].
  - unfold strlen. rewrite length_app, Hlt', length_drop, length_replicate. lia.
  - rewrite take_app_length'; [done|lia].
Qed.

(** ** Writing *)

(** [f] is an end of type [ty] of pipe [p]. *)
Definition end_of (s : sched) (f : vfs_file) (ty : vtype) (p : nat) : Prop :=
  ∃ n nd, f_node f = Some n ∧ vf_nodes (sc_vfs s) !! n = Some nd ∧ vn_type nd = ty ∧ vn_priv nd = Some p.

(** Only pipe [p] changed, from [q] to [q'], and who waits for it. *)
Record repiped (s : sched) (p : nat) (q q' : pipe) (s' : sched) : Prop := Repiped {
  rp_quiet : quiet s s';
  rp_tables : tables (threads s') = tables (threads s);
  rp_nodes : vf_nodes (sc_vfs s') = vf_nodes (sc_vfs s);
  rp_mounts : vf_mounts (sc_vfs s') = vf_mounts (sc_vfs s);
  rp_pipes : vf_pipes (sc_vfs s') = <[p := q']> (vf_pipes (sc_vfs s));
  rp_counts : p_nreaders q' = p_nreaders q ∧ p_nwriters q' = p_nwriters q }.

Lemma system_repiped s l zs p q q' s' :
  system s l zs → vf_pipes (sc_vfs s) !! p = Some q → repiped s p q q' s' → p_wait_reader q' = 0 ∨ p_wait_reader q' ∈ main_thread :: l → system s' l zs.
Proof.
  intros Hsy Hq [Hqu HT Hn Hm Hp [Hr Hw]] Hwt. pose proof (sy_ok _ _ _ Hsy) as Hok. destruct (ok_current s l zs Hok) as [_ [t Ht]].
  eapply (system_retabled s l zs (fds t)); [done|]. split; [done|by rewrite insert_id by (by apply tables_at)|..].
  - rewrite HT. eapply accounted_same; [eapply (accounted_pipe _ _ p q q'); [apply Hsy|done..]|done..].
  - intros r x. rewrite Hp. intros [[<- <-]|[_ Hx]]%lookup_insert_Some; [done|]. by eapply (sy_waiters _ _ _ Hsy).
Qed.

(** The reader that waited can run. *)
Definition awake (s' : sched) (a : Z) : Prop := ∀ t, threads s' !! a = Some t → t_state t ≠ THREAD_BLOCKED.

Lemma wp_wake_reader s l zs p q (Q : unit → sched → Prop) :
  system s l zs → vf_pipes (sc_vfs s) !! p = Some q →
  (∀ s', repiped s p q (no_waiter q) s' → awake s' (p_wait_reader q) → (∀ a, a ≠ p_wait_reader q → threads s' !! a = threads s !! a) → Q tt s') →
  wp (wake_reader p) Q s.
Proof.
  intros Hsy Hq HQ. unfold wake_reader. wp_step. apply wp_zoom. eapply wp_get_pipe; [done|].
  replace (put_vfs (sc_vfs s) s) with s by (by destruct s).
  assert (awake s 0) as H0.
  { intros t Ht. pose proof (q_fresh _ _ _ _ (so_queue _ _ _ (sy_ok _ _ _ Hsy)) 0 ltac:(eauto)). lia. }
  destruct (Z.eqb_spec (p_wait_reader q) 0) as [Hz|Hz]; cbn [negb].
  { wp_step. apply HQ; [|by rewrite Hz|done]. split; try done; [apply quiet_refl|]. rewrite insert_id; [done|]. rewrite Hq. unfold no_waiter. rewrite <-Hz. by destruct q. }
  destruct (sy_waiters _ _ _ Hsy p q Hq) as [?|Hin]; [done|]. destruct (present_ring _ _ _ Hsy _ Hin) as [t Ht].
  wp_step. unfold sched_wake. rewrite (proj2 (Z.eqb_neq _ _)) by done. wp_step. eapply wp_thr; [done|].
  destruct (bool_decide (t_state t = THREAD_BLOCKED)) eqn:Hb.
  - apply bool_decide_eq_true in Hb. eapply wp_upd; [done|]. apply wp_zoom. eapply wp_with_pipe; [done|]. apply HQ.
    + split; try done; cbn [threads sc_vfs put_vfs set_threads].
      * eapply quiet_trans; [|apply quiet_vfs]. eapply quiet_upd; [done|]. by apply calm_wake.
      * by eapply tables_insert.
    + intros u. cbn [threads put_vfs set_threads]. rewrite lookup_insert_eq. by intros [= <-].
    + intros a Ha. cbn [threads put_vfs set_threads]. by rewrite lookup_insert_ne.
  - apply bool_decide_eq_false in Hb. wp_step. apply wp_zoom. eapply wp_with_pipe; [done|]. apply HQ; [split; try done; apply quiet_vfs| |done].
    intros u. cbn [threads put_vfs]. rewrite Ht. by intros [= <-].
Qed.

(** What a successful write leaves. *)
Record written (s : sched) (p : nat) (q : pipe) (bs : list Z) (s' : sched) : Prop := Written {
  wr_pipe : ∃ q', repiped s p q q' s' ∧ pipe_ok q' ∧ held q' = held q ++ bs ∧ p_wait_reader q' = 0;
  wr_awake : awake s' (p_wait_reader q);
  wr_others : ∀ a, a ≠ p_wait_reader q → threads s' !! a = threads s !! a }.

Lemma repiped_trans s p q q1 q2 s1 s2 : repiped s p q q1 s1 → repiped s1 p q1 q2 s2 → repiped s p q q2 s2.
Proof.
  intros [A1 A2 A3 A4 A5 [A6 A7]] [B1 B2 B3 B4 B5 [B6 B7]]. split; [by eapply quiet_trans|congruence|congruence|congruence| |split; congruence].
  rewrite B5, A5. apply insert_insert_eq.
Qed.

Lemma repiped_put s p q q' v :
  vf_nodes v = vf_nodes (sc_vfs s) → vf_mounts v = vf_mounts (sc_vfs s) → vf_pipes v = <[p := q']> (vf_pipes (sc_vfs s)) →
  p_nreaders q' = p_nreaders q → p_nwriters q' = p_nwriters q → repiped s p q q' (put_vfs v s).
Proof. intros. split; try done. apply quiet_vfs. Qed.

Lemma wp_write_pipe s l zs f p q bs (Q : Z → sched → Prop) :
  system s l zs → end_of s f VFS_PIPE_W p → vf_pipes (sc_vfs s) !! p = Some q → pipe_ok q → p_count q + strlen bs ≤ 2 ^ 63 →
  (∀ s', head (vf_heap (sc_vfs s)) = Some None → repiped s p q q s' → Q 0 s') →
  (∀ s', written s p q bs s' → Q (strlen bs) s') → wp (sys_write_pipe f bs) Q s.
Proof.
  intros Hsy (n & nd & Hn & Hnd & Hty & Hp) Hq Hok Hmax Hfail Hdone. unfold sys_write_pipe, node_of, pipe_of. rewrite Hn.
  wp_step. wp_step. wp_step. apply wp_zoom. eapply wp_vnode_deref; [done|]. replace (put_vfs (sc_vfs s) s) with s by (by destruct s).
  rewrite Hty, bool_decide_true by done. cbn [negb]. rewrite Hp. wp_step. wp_step. wp_step.
  eapply wp_pipe_reserve; [done|done|unfold strlen; lia|done|..].
  { intros Hh _. cbn [negb]. wp_step. apply Hfail; [done|]. apply repiped_put; try done. cbn. by rewrite insert_id. }
  intros b cap v Hb Hcap Hroom Hheld Hvn Hvm Hvp. cbn [negb]. set (q1 := set_buf b cap (p_count q) q) in *.
  pose proof (repiped_put s p q q1 v Hvn Hvm Hvp eq_refl eq_refl) as Hr1. destruct Hok as [Hl Hc Hcnt].
  wp_step. unfold pipe_append. wp_step. apply wp_zoom. eapply wp_get_pipe; [cbn; by rewrite Hvp, lookup_insert_eq|].
  change (put_vfs (sc_vfs (put_vfs v s)) (put_vfs v s)) with (put_vfs v s). cbn [p_buf p_count q1 set_buf].
  set (k := Z.to_nat (p_count q)) in *. assert (k + length bs ≤ length b)%nat as Hfit by (unfold strlen in *; lia).
  wp_step. rewrite <-(take_drop k b), <-(take_drop (length bs) (drop k b)).
  replace (p_count q) with (strlen (take k b)) at 1 by (unfold strlen; rewrite length_take; unfold strlen in *; lia).
  apply (wp_store_bytes (take k b) (take (length bs) (drop k b)) bs); [rewrite length_take, length_drop; lia|].
  set (b' := take k b ++ bs ++ drop (length bs) (drop k b)).
  assert (length b' = length b) as Hlb by (unfold b'; rewrite !length_app, length_take, !length_drop; lia).
  apply wp_zoom. eapply wp_with_pipe; [cbn; by rewrite Hvp, lookup_insert_eq|]. cbn beta.
  replace (u64 (p_count q1 + strlen bs)) with (p_count q + strlen bs) by (cbn; rewrite u64_small by (unfold is_u64, strlen in *; lia); done).
  set (q2 := set_buf _ _ _ q1). set (s2 := put_vfs _ (put_vfs v s)).
  assert (repiped s p q q2 s2) as Hr2.
  { eapply repiped_trans; [exact Hr1|]. by apply repiped_put. }
  assert (pipe_ok q2) as Hok2 by (split; unfold q2, q1; cbn [p_buf p_cap p_count set_buf]; unfold strlen in *; rewrite ?Hlb; lia).
  assert (held q2 = held q ++ bs) as Hh2.
  { unfold held. cbn. replace (Z.to_nat (p_count q + strlen bs)) with (k + length bs)%nat by (unfold strlen; lia). unfold b'.
    rewrite (app_assoc (take k b) bs), take_app_length'; [by rewrite Hheld|]. rewrite length_app, length_take. lia. }
  assert (system s2 l zs) as Hsy2 by (eapply system_repiped; [done|done|exact Hr2|]; exact (sy_waiters _ _ _ Hsy p q Hq)).
  wp_step. eapply wp_wake_reader; [done|rewrite (rp_pipes _ _ _ _ _ Hr2); by rewrite lookup_insert_eq|].
  intros s3 Hr3 Haw Hoth. wp_step. apply Hdone. split; [|exact Haw|exact Hoth].
  exists (no_waiter q2). split_and!; [by eapply repiped_trans| |exact Hh2|done]. by destruct Hok2.
Qed.

(** ** Reading *)

Section reading.
Context {env : VfsEnv} {senv : SchedEnv}.

Lemma wp_read_pipe sp s f p q len (Q : option (list Z) → sched → Prop) :
  end_of s f VFS_PIPE_R p → vf_pipes (sc_vfs s) !! p = Some q → pipe_ok q → 0 ≤ len → p_count q ≠ 0 ∨ p_nwriters q = 0 →
  (∀ s' q', repiped s p q q' s' → pipe_ok q' → held q' = drop (Z.to_nat len) (held q) → p_wait_reader q' = p_wait_reader q →
     Q (Some (take (Z.to_nat len) (held q))) s') →
  wp (read_pipe sp f len) Q s.
Proof.
  intros (n & nd & Hn & Hnd & Hty & Hp) Hq Hok Hlen Hnb HQ. unfold read_pipe, node_of, pipe_of. rewrite Hn.
  wp_step. wp_step. wp_step. apply wp_zoom. eapply wp_vnode_deref; [done|]. replace (put_vfs (sc_vfs s) s) with s by (by destruct s).
  rewrite Hp. wp_step. wp_step. wp_step. apply wp_zoom. eapply wp_get_pipe; [done|]. replace (put_vfs (sc_vfs s) s) with s by (by destruct s).
  pose proof (held_len q Hok) as Hh. destruct Hok as [Hl Hc Hcnt]. destruct (Z.eqb_spec (p_count q) 0) as [Hz|Hz].
  { destruct Hnb as [?|Hw]; [done|]. rewrite Hw, Z.eqb_refl. wp_step. assert (held q = []) as He by (apply nil_length_inv; unfold strlen in Hh; lia). rewrite He in *.
    specialize (HQ s q). rewrite take_nil, drop_nil in HQ. apply HQ; [split; try done; [apply quiet_refl|by rewrite insert_id]|by split|done|done]. }
  cbn zeta. set (r := if len <? p_count q then len else p_count q). set (k := Z.to_nat r).
  assert (0 ≤ r ≤ p_count q ∧ r ≤ len) as Hr by (unfold r; destruct (Z.ltb_spec len (p_count q)); lia).
  assert (take k (p_buf q) = take (Z.to_nat len) (held q)) as Htake.
  { unfold held. rewrite take_take. f_equal. unfold k, r. destruct (Z.ltb_spec len (p_count q)); lia. }
  assert (drop k (held q) = drop (Z.to_nat len) (held q)) as Hdrop.
  { unfold k, r. destruct (Z.ltb_spec len (p_count q)); [done|]. rewrite !drop_ge; [done|unfold strlen in Hh; lia..]. }
  fold (held q). set (rest := drop k (held q)). assert (strlen rest = p_count q - r) as Hrest by (unfold rest, strlen in *; rewrite length_drop; unfold k; lia).
  rewrite <-(take_drop (length rest) (p_buf q)). wp_step.
  apply (wp_store_bytes [] (take (length rest) (p_buf q)) rest); [rewrite length_take; unfold strlen in *; lia|]. cbn [app].
  wp_step. apply wp_zoom. eapply wp_with_pipe; [done|]. wp_step. rewrite take_drop, Htake. eapply HQ.
  - by apply repiped_put.
  - split; cbn [p_buf p_cap p_count set_buf]; [|lia|lia]. unfold strlen in *. rewrite length_app, length_drop. lia.
  - unfold held at 1. cbn [p_buf p_count set_buf]. rewrite <-Hrest. unfold strlen. rewrite Nat2Z.id, take_app_length. exact Hdrop.
  - done.
Qed.

(** With nothing to read and a writer left, the call blocks. *)
Lemma read_pipe_parked sp s f p q len :
  end_of s f VFS_PIPE_R p → vf_pipes (sc_vfs s) !! p = Some q → p_count q = 0 → p_nwriters q ≠ 0 →
  read_pipe sp f len s = match sched_suspend sp (put_vfs (set_pipes (insert p (set_waiter (current s) q)) (sc_vfs s)) s) with
    | Ok (_, s') => Ok (None, s') | Fault => Fault | NoFuel => NoFuel end.
Proof.
  intros (n & nd & Hn & Hnd & Hty & Hp) Hq Hz Hw.
  assert (on_vfs (deref n) s = Ok (nd, s)) as H1 by (unfold on_vfs, zoom, deref, gets, mbind, M_bind, mret, M_ret; cbn; rewrite Hnd; by destruct s).
  assert (on_vfs (get_pipe p) s = Ok (q, s)) as H2 by (unfold on_vfs, zoom, get_pipe, gets, mbind, M_bind, mret, M_ret; cbn; rewrite Hq; by destruct s).
  assert (∀ g, on_vfs (with_pipe p g) s = Ok (tt, put_vfs (set_pipes (insert p (g q)) (sc_vfs s)) s)) as H3.
  { intros g. unfold on_vfs, zoom, with_pipe, gets, modify, mbind, M_bind, mret, M_ret. cbn. by rewrite Hq. }
  unfold read_pipe, node_of, pipe_of. rewrite Hn. unfold mbind, M_bind, mret, M_ret, gets. rewrite H1, Hp, H2, Hz.
  rewrite (proj2 (Z.eqb_neq (p_nwriters q) 0)) by done. cbn. rewrite H3. done.
Qed.

Lemma read_pipe_blocks sp s f p q len o s' :
  end_of s f VFS_PIPE_R p → vf_pipes (sc_vfs s) !! p = Some q → p_count q = 0 → p_nwriters q ≠ 0 → read_pipe sp f len s = Ok (o, s') →
  o = None.
Proof.
  intros He Hq Hz Hw Hrun. rewrite (read_pipe_parked sp s f p q len He Hq Hz Hw) in Hrun.
  destruct (sched_suspend sp _) as [[[] s2]| |]; [|done..]. by injection Hrun as <- <-.
Qed.
End reading.

(** ** Theorems *)

(** Bytes accepted by a write, or delivered by a read. *)
Inductive event := In (bs : list Z) | Out (bs : list Z).

Definition ins (evs : list event) : list Z := concat ((λ e, match e with In bs => bs | Out _ => [] end) <$> evs).
Definition outs (evs : list event) : list Z := concat ((λ e, match e with Out bs => bs | In _ => [] end) <$> evs).

Section theorems.
Context {env : VfsEnv} {senv : SchedEnv}.

(** A call on pipe [p] that returned. *)
Inductive pstep (p : nat) (s : sched) : event → sched → Prop :=
| pstep_write f bs r s' q : end_of s f VFS_PIPE_W p → vf_pipes (sc_vfs s) !! p = Some q → p_count q + strlen bs ≤ 2 ^ 63 →
    sys_write_pipe f bs s = Ok (r, s') → pstep p s (In (take (Z.to_nat r) bs)) s'
| pstep_read sp f len bs s' : end_of s f VFS_PIPE_R p → 0 ≤ len → read_pipe sp f len s = Ok (Some bs, s') → pstep p s (Out bs) s'.

Inductive psteps (p : nat) : sched → list event → sched → Prop :=
| psteps_nil s : psteps p s [] s
| psteps_cons s e s1 evs s' : pstep p s e s1 → psteps p s1 evs s' → psteps p s (e :: evs) s'.

(** The pipe [p] of a consistent system. *)
Record pipe_state (s : sched) (l zs : list Z) (p : nat) (q : pipe) : Prop := PipeState {
  ps_system : system s l zs;
  ps_pipe : vf_pipes (sc_vfs s) !! p = Some q;
  ps_ok : pipe_ok q }.

Lemma repiped_state s l zs p q q' s' :
  pipe_state s l zs p q → repiped s p q q' s' → pipe_ok q' → p_wait_reader q' = 0 ∨ p_wait_reader q' = p_wait_reader q → pipe_state s' l zs p q'.
Proof.
  intros [Hsy Hq Hok] Hr Hok' Hw. split; [|rewrite (rp_pipes _ _ _ _ _ Hr); by rewrite lookup_insert_eq|done].
  eapply system_repiped; [done|done|done|]. destruct Hw as [->| ->]; [by left|]. by apply (sy_waiters _ _ _ Hsy p).
Qed.

Lemma pstep_state s l zs p q e s' : pipe_state s l zs p q → pstep p s e s' →
  ∃ q', pipe_state s' l zs p q' ∧ held q ++ ins [e] = outs [e] ++ held q'.
Proof.
  intros Hps Hst. pose proof Hps as [Hsy Hq Hok]. destruct Hst as [f bs r s' q0 He Hq0 Hmax Hrun|sp f len bs s' He Hlen Hrun].
  - assert (q0 = q) as -> by congruence.
    assert (wp (sys_write_pipe f bs) (λ r s', ∃ q', pipe_state s' l zs p q' ∧ held q ++ ins [In (take (Z.to_nat r) bs)] = held q') s) as Hwp.
    { eapply wp_write_pipe; [done..| |].
      - intros s2 _ Hr. exists q. split; [eapply repiped_state; [done|done|done|by right]|]. cbn. by rewrite app_nil_r.
      - intros s2 [(q' & Hr & Hok' & Hh & Hw) _ _]. exists q'. split; [eapply repiped_state; [done|done|done|by left]|]. rewrite Hh. f_equal.
        cbn. rewrite app_nil_r. apply take_ge. unfold strlen. lia. }
    apply wp_ok in Hwp as (r' & s2 & Hrun' & q' & Hps' & Hh). rewrite Hrun in Hrun'. injection Hrun' as <- <-. by exists q'.
  - destruct (decide (p_count q = 0 ∧ p_nwriters q ≠ 0)) as [[Hz Hw]|Hnb].
    { pose proof (read_pipe_blocks sp s f p q len _ _ He Hq Hz Hw Hrun). done. }
    assert (p_count q ≠ 0 ∨ p_nwriters q = 0) as Hnb' by (destruct (decide (p_count q = 0)), (decide (p_nwriters q = 0)); tauto).
    assert (wp (read_pipe sp f len) (λ o s', o = Some (take (Z.to_nat len) (held q)) ∧ ∃ q', pipe_state s' l zs p q' ∧ held q' = drop (Z.to_nat len) (held q)) s) as Hwp.
    { eapply wp_read_pipe; [done..|]. intros s2 q' Hr Hok' Hh Hw. split; [done|]. exists q'. split; [eapply repiped_state; [done|done|done|by right]|done]. }
    apply wp_ok in Hwp as (o & s2 & Hrun' & -> & q' & Hps' & Hh). rewrite Hrun in Hrun'. injection Hrun' as -> <-. exists q'. split; [done|].
    cbn. by rewrite !app_nil_r, Hh, take_drop.
Qed.

(** C10: a pipe is a queue of bytes: over any sequence of writes and reads that
    returned, what was in the pipe followed by what was written is what was read
    followed by what is in it now, in this order and without loss.  In every
    state on the way a write returns, taking all its bytes unless there is no
    memory for the buffer, and a read returns as many of the oldest bytes as it
    asked for when there are any or when no writer is left. *)
Theorem pipe_fifo s l zs p q evs s' :
  pipe_state s l zs p q → psteps p s evs s' → ∃ q', pipe_state s' l zs p q' ∧ held q ++ ins evs = outs evs ++ held q' ∧
    (∀ f bs, end_of s' f VFS_PIPE_W p → p_count q' + strlen bs ≤ 2 ^ 63 →
       ∃ r s'', sys_write_pipe f bs s' = Ok (r, s'') ∧ (r = strlen bs ∨ r = 0 ∧ head (vf_heap (sc_vfs s')) = Some None)) ∧
    (∀ sp f len, end_of s' f VFS_PIPE_R p → 0 ≤ len → held q' ≠ [] ∨ p_nwriters q' = 0 →
       ∃ s'', read_pipe sp f len s' = Ok (Some (take (Z.to_nat len) (held q')), s'')).
Proof.
  intros Hps Hst. assert (∃ q', pipe_state s' l zs p q' ∧ held q ++ ins evs = outs evs ++ held q') as (q' & Hps' & Hh).
  { revert q Hps. induction Hst as [s|s e s1 evs s' H1 _ IH]; intros q Hps; [exists q; split; [done|]; cbn; by rewrite app_nil_r|].
    destruct (pstep_state _ _ _ _ _ _ _ Hps H1) as (q1 & Hps1 & E1). destruct (IH q1 Hps1) as (q' & Hps' & E). exists q'. split; [done|].
    change (e :: evs) with ([e] ++ evs). unfold ins, outs in *. rewrite !fmap_app, !concat_app, app_assoc, E1, <-!app_assoc. by rewrite E. }
  exists q'. split_and!; [done|done|..].
  - intros f bs He Hmax. destruct Hps' as [Hsy Hq Hok].
    assert (wp (sys_write_pipe f bs) (λ r _, r = strlen bs ∨ r = 0 ∧ head (vf_heap (sc_vfs s')) = Some None) s') as Hwp.
    { eapply wp_write_pipe; [done..| |by left]. intros s2 Hf _. by right. }
    apply wp_ok in Hwp as (r & s'' & ? & ?). eauto.
  - intros sp f len He Hlen Hnb. destruct Hps' as [Hsy Hq Hok].
    assert (wp (read_pipe sp f len) (λ o _, o = Some (take (Z.to_nat len) (held q'))) s') as Hwp.
    { eapply wp_read_pipe; [done..| |done]. destruct Hnb as [Hn|?]; [left|by right]. intros Hz. apply Hn, nil_length_inv. pose proof (held_len _ Hok). unfold strlen in *. lia. }
    apply wp_ok in Hwp as (o & s'' & ? & ->). eauto.
Qed.

(** A read from an empty pipe that still has a writer blocks the caller, and
    the next write makes it runnable again - it alone: a reader that was blocked
    on the pipe before is forgotten and stays blocked although there are bytes to
    read. *)
Theorem pipe_wakes_last_reader sp s l zs p q f len :
  pipe_state s l zs p q → end_of s f VFS_PIPE_R p → held q = [] → p_nwriters q ≠ 0 → current s ≠ main_thread →
  ∃ s1 q1 t1, read_pipe sp f len s = Ok (None, s1) ∧ pipe_state s1 l zs p q1 ∧ p_wait_reader q1 = current s ∧
    threads s1 !! current s = Some t1 ∧ t_state t1 = THREAD_BLOCKED ∧
    ∀ f' bs s2, end_of s1 f' VFS_PIPE_W p → strlen bs ≤ 2 ^ 63 → bs ≠ [] → sys_write_pipe f' bs s1 = Ok (strlen bs, s2) →
      awake s2 (current s) ∧ ∀ a, a ≠ current s → threads s2 !! a = threads s1 !! a.
Proof.
  intros Hps He Hh Hw Hnm. pose proof Hps as [Hsy Hq Hok]. pose proof (held_len q Hok) as Hc. rewrite Hh in Hc. unfold strlen in Hc. cbn in Hc.
  set (q1 := set_waiter (current s) q). set (s0 := put_vfs (set_pipes (insert p q1) (sc_vfs s)) s).
  destruct (ok_current s l zs (sy_ok _ _ _ Hsy)) as [Hin _].
  assert (repiped s p q q1 s0) as Hr0 by (by apply repiped_put).
  assert (system s0 l zs) as Hsy0 by (eapply system_repiped; [done|done|exact Hr0|by right]).
  assert (wp (sched_suspend sp) (λ _ s', suspended sp s0 l zs s') s0) as Hwp by (eapply wp_suspended; [done|done|auto]).
  apply wp_ok in Hwp as ([] & s1 & Hsus & [Hsy1 _ _ (t & t1 & _ & Ht1 & Hb & _) _ Hv1]).
  assert (read_pipe sp f len s = Ok (None, s1)) as Hrun by (rewrite (read_pipe_parked sp s f p q len) by (done || lia); fold q1; fold s0; by rewrite Hsus).
  assert (pipe_state s1 l zs p q1) as Hps1 by (split; [done|rewrite Hv1; cbn; by rewrite lookup_insert_eq|by destruct Hok]).
  exists s1, q1, t1. split_and!; [done|done|done|exact Ht1|done|]. intros f' bs s2 He' Hmax Hne Hwr.
  assert (wp (sys_write_pipe f' bs) (λ r s2, r = strlen bs → awake s2 (current s) ∧ ∀ a, a ≠ current s → threads s2 !! a = threads s1 !! a) s1) as Hwp.
  { eapply wp_write_pipe; [done|done|apply Hps1|apply Hps1|cbn; lia| |].
    - intros s3 _ _ E. destruct bs; [done|]. unfold strlen in E. simpl in E. lia.
    - intros s3 [_ Haw Ho] _. done. }
  apply wp_ok in Hwp as (r & s3 & Hrun' & HQ). rewrite Hwr in Hrun'. injection Hrun' as <- <-. by apply HQ.
Qed.
End theorems.

End accounting.

(** ** A pipe at work *)

#[local] Existing Instance no_others.
#[local] Existing Instance no_respawn.
#[local] Existing Instance no_ext_free.

Definition demo_r : vfs_file := end_fd 2 zero_file.
Definition demo_w : vfs_file := end_fd 3 zero_file.
Definition demo_written : sched := final (sys_write_pipe demo_w [104; 105; 33]) demo_pipe.
Definition demo_read : sched := final (read_pipe 0x5000 demo_r 2) demo_written.

Lemma end_of_demo s f n ty p :
  f_node f = Some n → (λ o, match o with Some nd => bool_decide (vn_type nd = ty ∧ vn_priv nd = Some p) | None => false end) (vf_nodes (sc_vfs s) !! n) = true → end_of s f ty p.
Proof. intros Hn Hb. destruct (vf_nodes (sc_vfs s) !! n) as [nd|] eqn:E; [|done]. apply bool_decide_eq_true in Hb as [? ?]. by exists n, nd. Qed.

Definition the_pipe (s : sched) (p : nat) : pipe := default (Pipe [] 0 0 0 0 0 false false) (vf_pipes (sc_vfs s) !! p).

Lemma pipe_state_demo s l zs p :
  system s l zs → is_Some (vf_pipes (sc_vfs s) !! p) →
  (let q := the_pipe s p in (strlen (p_buf q) =? p_cap q) && (0 <? p_cap q) && (p_cap q <? 2 ^ 64) && (0 <=? p_count q) && (p_count q <=? p_cap q)) = true →
  pipe_state s l zs p (the_pipe s p).
Proof.
  intros Hsy [q Hq] Hb. cbn zeta in Hb. assert (the_pipe s p = q) as E by (unfold the_pipe; by rewrite Hq). rewrite E in *. split; [done|done|]. split; lia.
Qed.

Lemma demo_pipe_state : pipe_state demo_pipe [] [] 1 (the_pipe demo_pipe 1).
Proof. apply pipe_state_demo; [exact demo_pipe_system|vm_compute; eauto|by vm_compute]. Qed.

Lemma pipe_fifo_witness :
  ∃ q', pipe_state demo_read [] [] 1 q' ∧ held (the_pipe demo_pipe 1) ++ [104; 105; 33] = [104; 105] ++ held q' ∧ held q' = [33].
Proof.
  assert (psteps 1 demo_pipe [In (take 3 [104; 105; 33]); Out [104; 105]] demo_read) as Hst.
  { apply (psteps_cons _ _ _ demo_written).
    - change 3%nat with (Z.to_nat 3). apply (pstep_write 1 demo_pipe demo_w [104; 105; 33] 3 demo_written (the_pipe demo_pipe 1));
        [by apply (end_of_demo _ _ 3%nat); vm_compute|by vm_compute|by vm_compute|by vm_compute].
    - apply (psteps_cons _ _ _ demo_read); [|apply psteps_nil].
      apply (pstep_read 1 demo_written 0x5000 demo_r 2); [by apply (end_of_demo _ _ 2%nat); vm_compute|lia|by vm_compute]. }
  destruct (pipe_fifo demo_pipe [] [] 1 (the_pipe demo_pipe 1) _ demo_read demo_pipe_state Hst) as (q' & Hps & Hh & _).
  exists q'. split; [exact Hps|]. cbn [ins outs fmap list_fmap concat take app] in Hh. split; [exact Hh|].
  assert (held (the_pipe demo_pipe 1) = []) as E by (by vm_compute). rewrite E in Hh. cbn in Hh. by injection Hh.
Defined.

(** A kernel thread that reads from a pipe of its own. *)
Definition demo_ends : vfs :=
  set_next 4 (set_nodes (λ ns, <[3%nat := end_node VFS_PIPE_W 1]> (<[2%nat := end_node VFS_PIPE_R 1]> ns))
    (set_pipes (insert 1%nat (Pipe (replicate 256 170) 256 0 1 1 0 false false)) (sc_vfs demo_2))).
Definition demo_reader : sched := final (pipe_fds 3 1 2 3) (put_vfs demo_ends demo_2).

Lemma demo_reader_system : system demo_reader [3] [].
Proof.
  assert (current demo_2 = 3) as Ec by (by vm_compute). assert (sc_vfs demo_2 = vfs_boot [] None) as Ev by (by vm_compute).
  unfold demo_reader. apply final_wp. rewrite <-Ec.
  eapply (wp_pipe_fds demo_2 [3] [] demo_2 (caller demo_2)); [|exact demo_system_2|exact (caller_at _ _ _ demo_system_2)|..].
  - eapply retabled_refl; [exact demo_system_2|exact (caller_at _ _ _ demo_system_2)].
  - split; [done|by exists 170|done].
  - rewrite Ev. split; intros ? ?; cbn; by rewrite lookup_empty.
  - rewrite Ev. cbn. by rewrite lookup_empty.
  - rewrite Ev. cbn. by rewrite lookup_empty.
  - rewrite Ev. cbn. by rewrite lookup_empty.
  - intros s' _ Hr. eapply system_retabled; [exact demo_system_2|exact Hr].
  - intros rfd wfd g0 g1 s' _ _ _ _ Hr _ _. eapply system_retabled; [exact demo_system_2|exact Hr].
Qed.

Lemma pipe_wakes_last_reader_witness :
  ∃ s1 q1 t1, read_pipe 0x5000 demo_r 8 demo_reader = Ok (None, s1) ∧ pipe_state s1 [3] [] 1 q1 ∧ p_wait_reader q1 = current demo_reader ∧
    threads s1 !! current demo_reader = Some t1 ∧ t_state t1 = THREAD_BLOCKED.
Proof.
  destruct (pipe_wakes_last_reader 0x5000 demo_reader [3] [] 1 (the_pipe demo_reader 1) demo_r 8) as (s1 & q1 & t1 & H1 & H2 & H3 & H4 & H5 & _).
  - apply pipe_state_demo; [exact demo_reader_system|vm_compute; eauto|by vm_compute].
  - by apply (end_of_demo _ _ 2%nat); vm_compute.
  - by vm_compute.
  - by vm_compute.
  - by vm_compute.
  - exists s1, q1, t1. exact (conj H1 (conj H2 (conj H3 (conj H4 H5)))).
Defined.
