(* ===== verification/Signal.v ===== *)
(** * Signal: signals (kernel/syscall.c, kernel/signal.h)

    Registers of a process are a record [regs].  What the entry code of
    syscall.S and isr.S pushes on the kernel stack is a list of words in the
    order of memory, lowest address first; the C code reads and writes that
    memory through [frame[-13]] to [frame[4]] and through the fields of
    [struct isr_frame].  What is stored on the user stack is part of the
    result. *)

From S2P Require Import Prelude BootMap Pmm Mmu Reclaim CString Security VfsPath Vfs Sched SchedQueue Fds SchedSpawn SchedRun Syscall SysUser.

#[local] Arguments for_up : simpl never.

Definition SIGKILL : Z := 9.
Definition SIGCHLD : Z := 17.
Definition SIGCONT : Z := 18.
Definition SIGSTOP : Z := 19.
Definition SIG_DFL : Z := 0.
Definition SIG_IGN : Z := 1.
Definition ESRCH : Z := 3.

(** ** Registers and the words saved for them *)

Record regs := Regs {
  rg_rax : Z; rg_rbx : Z; rg_rcx : Z; rg_rdx : Z; rg_rsi : Z; rg_rdi : Z; rg_rbp : Z;
  rg_r8 : Z; rg_r9 : Z; rg_r10 : Z; rg_r11 : Z; rg_r12 : Z; rg_r13 : Z; rg_r14 : Z; rg_r15 : Z;
  rg_rip : Z; rg_cs : Z; rg_rflags : Z; rg_rsp : Z; rg_ss : Z }.

(** What [syscall_entry] pushes for a process whose registers are [u], [rg_rip]
    being the instruction after [syscall]. *)
Definition syscall_entry (u : regs) : list Z :=
  [rg_r15 u; rg_r14 u; rg_r13 u; rg_r12 u; rg_rbp u; rg_rbx u; rg_r9 u; rg_r8 u; rg_r10 u; rg_rdx u; rg_rsi u; rg_rdi u; rg_rax u;
   rg_rip u; 0x2B; rg_rflags u; rg_rsp u; 0x33].

(** The way back: the saved rax is skipped, [ret] is what [syscall_dispatch]
    returned; [rcx] and [r11] are what the kernel left in these registers. *)
Definition syscall_exit (ret rcx r11 : Z) (frame : list Z) : option regs :=
  match frame with
  | [r15; r14; r13; r12; rbp; rbx; r9; r8; r10; rdx; rsi; rdi; _; rip; cs; rflags; rsp; ss] =>
    Some (Regs ret rbx rcx rdx rsi rdi rbp r8 r9 r10 r11 r12 r13 r14 r15 rip cs rflags rsp ss)
  | _ => None
  end.

(** What an interrupt pushes: the frame of the processor, the two words of the
    stub and the registers in the order of [isr_common]. *)
Definition isr_entry (int_no err : Z) (u : regs) : list Z :=
  [rg_rax u; rg_rcx u; rg_rdx u; rg_rbx u; rg_rbp u; rg_rsi u; rg_rdi u; rg_r8 u; rg_r9 u; rg_r10 u; rg_r11 u; rg_r12 u; rg_r13 u; rg_r14 u; rg_r15 u;
   int_no; err; rg_rip u; rg_cs u; rg_rflags u; rg_rsp u; rg_ss u].

Definition isr_exit (frame : list Z) : option regs :=
  match frame with
  | [rax; rcx; rdx; rbx; rbp; rsi; rdi; r8; r9; r10; r11; r12; r13; r14; r15; _; _; rip; cs; rflags; rsp; ss] =>
    Some (Regs rax rbx rcx rdx rsi rdi rbp r8 r9 r10 r11 r12 r13 r14 r15 rip cs rflags rsp ss)
  | _ => None
  end.

(** [struct sigframe] *)
Record sigframe := Sigframe {
  sg_rax : Z; sg_rdi : Z; sg_rsi : Z; sg_rdx : Z; sg_r10 : Z; sg_r8 : Z; sg_r9 : Z; sg_rbx : Z; sg_rbp : Z;
  sg_r12 : Z; sg_r13 : Z; sg_r14 : Z; sg_r15 : Z; sg_rip : Z; sg_cs : Z; sg_rflags : Z; sg_rsp : Z; sg_ss : Z; sg_oldmask : Z }.

Definition sigframe_words (f : sigframe) : list Z :=
  [sg_rax f; sg_rdi f; sg_rsi f; sg_rdx f; sg_r10 f; sg_r8 f; sg_r9 f; sg_rbx f; sg_rbp f;
   sg_r12 f; sg_r13 f; sg_r14 f; sg_r15 f; sg_rip f; sg_cs f; sg_rflags f; sg_rsp f; sg_ss f; sg_oldmask f].

Definition words_sigframe (l : list Z) : option sigframe :=
  match l with
  | [a; b; c; d; e; f; g; h; i; j; k; l; m; n; o; p; q; r; s] => Some (Sigframe a b c d e f g h i j k l m n o p q r s)
  | _ => None
  end.

Definition SIGFRAME_SIZE : Z := 152.

(** 64-bit words in memory, least byte first. *)
Definition le64 (w : Z) : list Z := (λ i, u8 (Z.shiftr w (8 * i))) <$> seqZ 0 8.
Definition words_bytes (ws : list Z) : list Z := ws ≫= le64.
Definition of_le (bs : list Z) : Z := foldr (λ b w, b + 256 * w) 0 bs.
Definition bytes_words (n : nat) (bs : list Z) : list Z := (λ i, of_le (take 8 (drop (8 * i) bs))) <$> seq 0 n.

(** ** Sending *)

Definition set_signals (f : signals → signals) (t : thread) : thread :=
  Thread (t_exec t) (t_pid t) (t_parent_pid t) (t_exit_status t) (t_state t) (t_priority t) (t_quantum t)
    (t_next t) (t_prev t) (t_name t) (t_files t) (f (t_signals t)) (t_sleep_deadline_ns t) (t_cred t).

Definition set_pending (p : Z) (g : signals) : signals := Signals p (sig_mask g) (sig_actions g) (sig_ipc g).
Definition set_mask (m : Z) (g : signals) : signals := Signals (sig_pending g) m (sig_actions g) (sig_ipc g).
Definition set_action (i : nat) (a : sigaction) (g : signals) : signals :=
  Signals (sig_pending g) (sig_mask g) (<[i := a]> (sig_actions g)) (sig_ipc g).

(** [t->sig_pending |= (1ULL << sig)] *)
Definition post (sig : Z) (t : thread) : thread :=
  set_signals (λ g, set_pending (Z.lor (sig_pending g) (Z.shiftl 1 sig)) g) t.

Definition kill_fn (sig self t : Z) : M sched unit :=
  x ← thr t;
  if t_pid x =? self then mret tt
  else if sched_is_protected t then mret tt
  else upd t (post sig).

Definition sys_kill (a1 a2 : Z) : M sched Z :=
  let pid := int a1 in
  let sig := int a2 in
  if (sig <=? 0) || (Z.of_nat NSIG <=? sig) then mret (neg 1)
  else
    self ← sched_current;
    if self =? 0 then mret (neg 1)
    else if 0 <? pid then
      t ← sched_find_by_pid pid;
      if t =? 0 then mret (neg ESRCH)
      else
        pr ← sched_protected_kill t self;
        if negb (pr =? 0) then mret (u64 pr)
        else
          x ← thr t;
          y ← thr self;
          if negb (cr_uid (t_cred x) =? cr_euid (t_cred y)) && negb (bool_decide (cr_role (t_cred y) = ROLE_SYSTEM)) &&
             (Z.land (cr_caps_prm (t_cred y)) (Z.lor CAP_KILL_ANY CAP_SIGNAL_OTHER) =? 0)
          then mret (neg EPERM)
          else upd t (post sig) ;; mret 0
    else if pid =? 0 then upd self (post sig) ;; mret 0
    else if pid =? -1 then
      y ← thr self;
      if negb (bool_decide (cr_role (t_cred y) = ROLE_SYSTEM)) && (Z.land (cr_caps_prm (t_cred y)) CAP_KILL_ANY =? 0)
      then mret (neg EPERM)
      else sched_foreach (kill_fn sig (t_pid y)) ;; mret 0
    else mret (neg 1).

(** ** Actions *)

Definition sigaction_words (a : sigaction) : list Z := [sa_handler a; sa_flags a; sa_restorer a; sa_mask a].
Definition words_sigaction (l : list Z) : option sigaction :=
  match l with [h; f; r; m] => Some (Sigaction h f r m) | _ => None end.

Definition sys_sigaction (um : Z → Z) (a1 act oldact : Z) : M sched (Z * stores) :=
  let sig := int a1 in
  if (sig <=? 0) || (Z.of_nat NSIG <=? sig) then mret (neg 1, [])
  else if (sig =? SIGKILL) || (sig =? SIGSTOP) then mret (neg 1, [])
  else
    t ← sched_current;
    if t =? 0 then mret (neg 1, [])
    else
      kact ← (if negb (act =? 0) then
                o ← copy_from_user um act 32;
                match o with
                | None => mret None
                | Some bs => match words_sigaction (bytes_words 4 bs) with Some a => mret (Some (Some a)) | None => fault end
                end
              else mret (Some None));
      match kact with
      | None => mret (neg EFAULT, [])
      | Some kact =>
        x ← thr t;
        old ← load (sig_actions (t_signals x)) sig;
        '(r, st) ← (if negb (oldact =? 0) then copy_to_user oldact (words_bytes (sigaction_words old)) else mret (0, []));
        if r <? 0 then mret (neg EFAULT, st)
        else
          match kact with
          | Some a => upd t (set_signals (set_action (Z.to_nat sig) a)) ;; mret (0, st)
          | None => mret (0, st)
          end
      end.

(** ** Delivery *)

(** What [deliver_signal_ctx] does: 0 is returned and nothing changed; 1 is
    returned, with the context and what was stored on the user stack; or the
    thread was torn down and another one runs. *)
Inductive delivery := NotDelivered | Delivered (ctx : sigframe) (st : stores) | TornDown.

Definition enter_handler (h rsp sig : Z) (c : sigframe) : sigframe :=
  Sigframe (sg_rax c) sig (sg_rsi c) (sg_rdx c) (sg_r10 c) (sg_r8 c) (sg_r9 c) (sg_rbx c) (sg_rbp c)
    (sg_r12 c) (sg_r13 c) (sg_r14 c) (sg_r15 c) h (sg_cs c) (sg_rflags c) rsp (sg_ss c) (sg_oldmask c).

Definition set_oldmask (m : Z) (c : sigframe) : sigframe :=
  Sigframe (sg_rax c) (sg_rdi c) (sg_rsi c) (sg_rdx c) (sg_r10 c) (sg_r8 c) (sg_r9 c) (sg_rbx c) (sg_rbp c)
    (sg_r12 c) (sg_r13 c) (sg_r14 c) (sg_r15 c) (sg_rip c) (sg_cs c) (sg_rflags c) (sg_rsp c) (sg_ss c) m.

Section delivery.
Context {env : VfsEnv} {senv : SchedEnv}.

(** The first pending signal, 0 when there is none. *)
Definition first_signal (pending : Z) : M sched Z :=
  o ← for_ret (NSIG - 1) 1 (λ i, mret (if negb (Z.land pending (Z.shiftl 1 i) =? 0) then Some i else None));
  mret (default 0 o).

(** The frame on the user stack and the jump to the handler. *)
Definition push_frame (sp t sig : Z) (sa : sigaction) (ctx : sigframe) : M sched delivery :=
  let new_rsp := u64 (sg_rsp ctx - SIGFRAME_SIZE - 8) in
  ok ← user_range_ok new_rsp (SIGFRAME_SIZE + 8) true;
  if negb ok then sched_exit sp 139 ;; mret TornDown
  else
    x ← thr t;
    let mask := sig_mask (t_signals x) in
    upd t (set_signals (set_mask (Z.lor mask (Z.shiftl 1 sig)))) ;;
    mret (Delivered (enter_handler (sa_handler sa) new_rsp sig ctx)
      [(u64 (new_rsp + 8), words_bytes (sigframe_words (set_oldmask mask ctx))); (new_rsp, le64 (sa_restorer sa))]).

Definition deliver_signal_ctx (sp t : Z) (ctx : sigframe) : M sched delivery :=
  x ← thr t;
  let pending := Z.land (sig_pending (t_signals x)) (u64 (Z.lnot (sig_mask (t_signals x)))) in
  if pending =? 0 then mret NotDelivered
  else
    sig ← first_signal pending;
    if sig =? 0 then mret NotDelivered
    else
      upd t (set_signals (λ g, set_pending (Z.land (sig_pending g) (u64 (Z.lnot (Z.shiftl 1 sig)))) g)) ;;
      sa ← load (sig_actions (t_signals x)) sig;
      if sig =? SIGKILL then sched_exit sp 137 ;; mret TornDown
      else if sa_handler sa =? SIG_DFL then
        if negb (sig =? SIGCHLD) && negb (sig =? SIGCONT) then sched_exit sp (128 + sig) ;; mret TornDown
        else mret (Delivered ctx [])
      else if sa_handler sa =? SIG_IGN then mret (Delivered ctx [])
      else if sa_restorer sa =? 0 then mret (Delivered ctx [])
      else push_frame sp t sig sa ctx.

(** The context of the words saved at a system call and back; [oldmask] is not
    set by the caller. *)
Definition frame_ctx (frame : list Z) : option sigframe :=
  match frame with
  | [r15; r14; r13; r12; rbp; rbx; r9; r8; r10; rdx; rsi; rdi; rax; rip; cs; rflags; rsp; ss] =>
    Some (Sigframe rax rdi rsi rdx r10 r8 r9 rbx rbp r12 r13 r14 r15 rip cs rflags rsp ss 0)
  | _ => None
  end.

Definition ctx_frame (c : sigframe) : list Z :=
  [sg_r15 c; sg_r14 c; sg_r13 c; sg_r12 c; sg_rbp c; sg_rbx c; sg_r9 c; sg_r8 c; sg_r10 c; sg_rdx c; sg_rsi c; sg_rdi c; sg_rax c;
   sg_rip c; sg_cs c; sg_rflags c; sg_rsp c; sg_ss c].

Definition set_frame (f : list Z) (t : thread) : thread :=
  set_exec (λ e, Exec (x_rsp e) (x_kstack_top e) (x_mmu e) (x_user_rsp e) (x_stack_base e) (x_func e) (x_arg e) (Some f)) t.

Definition syscall_set_frame (f : list Z) : M sched unit :=
  t ← sched_current;
  if t =? 0 then mret tt else upd t (set_frame f).

(** [None] when the thread was torn down. *)
Definition syscall_deliver_signals (sp : Z) : M sched (option stores) :=
  t ← sched_current;
  if t =? 0 then mret (Some [])
  else
    x ← thr t;
    match x_syscall_iret (t_exec x) with
    | None => mret (Some [])
    | Some frame =>
      match frame_ctx frame with
      | None => fault
      | Some ctx =>
        d ← deliver_signal_ctx sp t ctx;
        match d with
        | NotDelivered => mret (Some [])
        | Delivered ctx st => upd t (set_frame (ctx_frame ctx)) ;; mret (Some st)
        | TornDown => mret None
        end
      end
    end.

(** The words of an interrupt, read and written through the fields of [struct
    isr_frame]. *)
Definition kernel_deliver_signals_user (sp : Z) (f : list Z) : M sched (option (list Z * stores)) :=
  match f with
  | [r15; r14; r13; r12; r11; r10; r9; r8; rdi; rsi; rbp; rbx; rdx; rcx; rax; int_no; err; rip; cs; rflags; rsp; ss] =>
    t ← sched_current;
    if t =? 0 then mret (Some (f, []))
    else if Z.land cs 3 =? 0 then mret (Some (f, []))
    else
      d ← deliver_signal_ctx sp t (Sigframe rax rdi rsi rdx r10 r8 r9 rbx rbp r12 r13 r14 r15 rip cs rflags rsp ss 0);
      mret (match d with
            | NotDelivered => Some (f, [])
            | Delivered c st =>
              Some ([sg_r15 c; sg_r14 c; sg_r13 c; sg_r12 c; r11; sg_r10 c; sg_r9 c; sg_r8 c; sg_rdi c; sg_rsi c; sg_rbp c; sg_rbx c; sg_rdx c; rcx; sg_rax c;
                     int_no; err; sg_rip c; sg_cs c; sg_rflags c; sg_rsp c; sg_ss c], st)
            | TornDown => None
            end)
  | _ => fault
  end.
End delivery.

(** ** Returning from a handler *)

Definition sys_sigreturn (um : Z → Z) : M sched Z :=
  t ← sched_current;
  if t =? 0 then mret (neg 1)
  else
    x ← thr t;
    match x_syscall_iret (t_exec x) with
    | None => mret (neg 1)
    | Some frame =>
      user_rsp ← load frame (FRAME_RIP + 3);
      ok ← user_range_ok user_rsp SIGFRAME_SIZE false;
      if negb ok then mret (neg EFAULT)
      else
        match words_sigframe (bytes_words 19 (user_bytes um user_rsp SIGFRAME_SIZE)) with
        | None => fault
        | Some sf => upd t (λ x, set_signals (set_mask (sg_oldmask sf)) (set_frame (ctx_frame sf) x)) ;; mret 0
        end
    end.

(** ** Words in memory *)

Lemma of_le_le64 w : is_u64 w → of_le (le64 w) = w.
Proof.
  intros Hw. unfold le64. cbn [seqZ fmap list_fmap]. change (seqZ 0 8) with [0; 1; 2; 3; 4; 5; 6; 7]. cbn [fmap list_fmap of_le foldr].
  unfold u8. rewrite !Z.shiftr_div_pow2 by lia. unfold is_u64 in Hw. Z.to_euclidean_division_equations. lia.
Qed.

Lemma le64_length w : length (le64 w) = 8%nat.
Proof. done. Qed.

Lemma words_bytes_cons w ws : words_bytes (w :: ws) = le64 w ++ words_bytes ws.
Proof. done. Qed.

Lemma words_bytes_length ws : length (words_bytes ws) = (8 * length ws)%nat.
Proof. induction ws as [|w ws IH]; [done|]. rewrite words_bytes_cons, length_app, le64_length, IH. simpl. lia. Qed.

Lemma bytes_words_bytes ws : Forall is_u64 ws → bytes_words (length ws) (words_bytes ws) = ws.
Proof.
  unfold bytes_words. induction 1 as [|w ws Hw _ IH]; [done|]. cbn [length seq fmap list_fmap]. f_equal.
  - rewrite words_bytes_cons, Nat.mul_0_r, drop_0, take_app_length' by done. by apply of_le_le64.
  - rewrite <-IH at 2. rewrite <-seq_shift, <-list_fmap_compose. apply list_fmap_ext. intros i j Hj. cbn [compose].
    do 2 f_equal. rewrite words_bytes_cons. replace (8 * S j)%nat with (8 + 8 * j)%nat by lia. rewrite <-drop_drop.
    by rewrite drop_app_length'.
Qed.

(** ** The pending signals *)

Lemma land_bit x i : 0 ≤ i → negb (Z.land x (Z.shiftl 1 i) =? 0) = Z.testbit x i.
Proof.
  intros Hi. destruct (Z.testbit x i) eqn:E.
  - apply negb_true_iff, Z.eqb_neq. intros H. assert (Z.testbit (Z.land x (Z.shiftl 1 i)) i = false) as Hf by (rewrite H; apply Z.bits_0).
    by rewrite Z.land_spec, E, Z.shiftl_spec, Z.sub_diag in Hf.
  - apply negb_false_iff, Z.eqb_eq. apply Z.bits_inj_0. intros j. rewrite Z.land_spec. destruct (Z.lt_ge_cases j 0); [by rewrite Z.testbit_neg_r|].
    rewrite Z.shiftl_spec by done. destruct (decide (j = i)) as [->|]; [by rewrite E|].
    replace (Z.testbit 1 (j - i)) with false; [by rewrite andb_false_r|]. symmetry.
    destruct (Z.lt_ge_cases j i); [rewrite Z.testbit_neg_r by lia; done|]. apply (Z.bits_above_log2 1); simpl; lia.
Qed.

Lemma not64_bit x i : 0 ≤ i < 64 → Z.testbit (u64 (Z.lnot x)) i = negb (Z.testbit x i).
Proof. intros Hi. unfold u64. rewrite Z.mod_pow2_bits_low, Z.lnot_spec by lia. done. Qed.

(** Signal [i] waits and is not masked. *)
Definition waiting (t : thread) (i : Z) : bool :=
  Z.testbit (sig_pending (t_signals t)) i && negb (Z.testbit (sig_mask (t_signals t)) i).

Lemma pending_bit t i : 0 ≤ i < 64 →
  Z.testbit (Z.land (sig_pending (t_signals t)) (u64 (Z.lnot (sig_mask (t_signals t))))) i = waiting t i.
Proof. intros Hi. by rewrite Z.land_spec, not64_bit. Qed.

Lemma wp_first_signal p s (Q : Z → sched → Prop) :
  (∀ i, 0 < i < 32 → Z.testbit p i = true → (∀ j, 0 < j < i → Z.testbit p j = false) → Q i s) →
  ((∀ j, 0 < j < 32 → Z.testbit p j = false) → Q 0 s) → wp (first_signal p) Q s.
Proof.
  intros Hi H0. unfold first_signal. wp_step. assert (1 + Z.of_nat (NSIG - 1) = 32) as E32 by done.
  apply (wp_for_ret (λ i s', s' = s ∧ ∀ j, 0 < j < i → Z.testbit p j = false)).
  - split; [done|]. lia.
  - intros i s' Hr [-> Hno]. rewrite E32 in Hr. wp_step. rewrite land_bit by lia.
    destruct (Z.testbit p i) eqn:E; [wp_step; apply (Hi i); [lia|done|exact Hno]|]. split; [done|]. intros j Hj. destruct (decide (j = i)) as [->|]; [done|]. apply Hno. lia.
  - intros s' [-> Hno]. wp_step. apply H0. intros j Hj. apply Hno. rewrite E32. lia.
Qed.

(** The search finds [sig] when it is the first bit of [w]. *)
Lemma wp_next_signal p (w : Z → bool) sig s (Q : Z → sched → Prop) :
  (∀ i, 0 < i < 32 → Z.testbit p i = w i) → 0 < sig < 32 → w sig = true → (∀ i, 0 < i < sig → w i = false) →
  Q sig s → wp (first_signal p) Q s.
Proof.
  intros Hbit Hsig Hw Hf HQ. apply wp_first_signal.
  2:{ intros Hno. specialize (Hno sig Hsig). by rewrite Hbit, Hw in Hno. }
  intros i Hi Hpi Hno. destruct (Z.lt_trichotomy i sig) as [Hlt|[->|Hgt]]; [|done|].
  - rewrite Hbit, Hf in Hpi by lia. done.
  - specialize (Hno sig ltac:(lia)). by rewrite Hbit, Hw in Hno.
Qed.

Lemma bits_nonzero p (w : Z → bool) sig : (∀ i, 0 < i < 32 → Z.testbit p i = w i) → 0 < sig < 32 → w sig = true → p ≠ 0.
Proof. intros Hbit Hsig Hw ->. specialize (Hbit sig Hsig). by rewrite Hw, Z.bits_0 in Hbit. Qed.

(** ** The address space when only signals change *)

Lemma user_space_upd s t t' :
  user_space s t → x_mmu (t_exec t') = x_mmu (t_exec t) → user_space (set_threads (insert (current s) t') s) t'.
Proof.
  intros [Hc Ht Ha Ho] E. assert (caller_root (set_threads (insert (current s) t') s) t' = caller_root s t) as Er by (unfold caller_root; by rewrite E).
  split; [done|cbn; by rewrite lookup_insert_eq|by rewrite Er|by rewrite Er].
Qed.

Lemma user_range_upd s t t' w a n :
  x_mmu (t_exec t') = x_mmu (t_exec t) → user_range (set_threads (insert (current s) t') s) t' w a n ↔ user_range s t w a n.
Proof. intros E. unfold user_range, accessible. assert (caller_root (set_threads (insert (current s) t') s) t' = caller_root s t) as Er by (unfold caller_root; by rewrite E). by rewrite Er. Qed.

(** ** Rules *)

(** [sig] is the signal of the running thread [t] to be delivered next and has
    a handler. *)
Record handled (s : sched) (t : thread) (sig : Z) (sa : sigaction) : Prop := Handled {
  hd_user : user_space s t;
  hd_sig : 0 < sig < 32;
  hd_waiting : waiting t sig = true;
  hd_first : ∀ i, 0 < i < sig → waiting t i = false;
  hd_kill : sig ≠ SIGKILL;
  hd_action : sig_actions (t_signals t) !! Z.to_nat sig = Some sa;
  hd_handler : sa_handler sa ≠ SIG_DFL ∧ sa_handler sa ≠ SIG_IGN;
  hd_restorer : sa_restorer sa ≠ 0 }.

(** The thread while its handler runs. *)
Definition in_handler (sig : Z) (t : thread) : thread :=
  set_signals (λ g, set_mask (Z.lor (sig_mask g) (Z.shiftl 1 sig))
    (set_pending (Z.land (sig_pending g) (u64 (Z.lnot (Z.shiftl 1 sig)))) g)) t.

Lemma set_threads_insert2 s a t t' : set_threads (insert a t') (set_threads (insert a t) s) = set_threads (insert a t') s.
Proof. unfold set_threads. cbn. by rewrite insert_insert_eq. Qed.

Section rules.
Context {env : VfsEnv} {senv : SchedEnv}.

Lemma wp_deliver_handled sp s t sig sa ctx (Q : delivery → sched → Prop) :
  let a := sg_rsp ctx - 160 in
  handled s t sig sa → 0 ≤ a → sg_rsp ctx < 2 ^ 64 → user_range s t true a 160 →
  Q (Delivered (enter_handler (sa_handler sa) a sig ctx)
       [(a + 8, words_bytes (sigframe_words (set_oldmask (sig_mask (t_signals t)) ctx))); (a, le64 (sa_restorer sa))])
    (set_threads (insert (current s) (in_handler sig t)) s) →
  wp (deliver_signal_ctx sp (current s) ctx) Q s.
Proof.
  intros a [Hus Hsig Hwt Hfst Hnk Hact [Hdfl Hign] Hre] Ha Hlt Hst HQ. pose proof (us_thread _ _ Hus) as Ht.
  unfold deliver_signal_ctx. wp_step. eapply wp_thr; [exact Ht|].
  set (p := Z.land _ _). assert (∀ i, 0 < i < 32 → Z.testbit p i = waiting t i) as Hbit by (intros i Hi; apply pending_bit; lia).
  rewrite (proj2 (Z.eqb_neq p 0)) by (by apply (bits_nonzero p (waiting t) sig)).
  wp_step. eapply (wp_next_signal p (waiting t) sig); [done|done|done|done|].
  rewrite (proj2 (Z.eqb_neq sig 0)) by lia. wp_step. eapply wp_upd; [exact Ht|]. wp_step. eapply wp_load; [lia|exact Hact|].
  rewrite (proj2 (Z.eqb_neq _ _) Hnk), (proj2 (Z.eqb_neq _ _) Hdfl), (proj2 (Z.eqb_neq _ _) Hign), (proj2 (Z.eqb_neq _ _) Hre).
  set (t1 := set_signals _ t). set (s1 := set_threads _ s). assert (user_space s1 t1) as Hus1 by (by apply (user_space_upd s t)).
  unfold push_frame. change (SIGFRAME_SIZE + 8) with 160. assert (u64 (sg_rsp ctx - SIGFRAME_SIZE - 8) = a) as ->.
  { unfold SIGFRAME_SIZE. rewrite u64_small; unfold is_u64; lia. }
  wp_step. apply (wp_user_range s1 t1); [done|lia|lia|]. intros b Hb. assert (b = true) as ->.
  { apply Hb. by apply (user_range_upd s t). }
  cbn [negb]. wp_step. eapply wp_thr; [apply Hus1|]. wp_step. eapply wp_upd; [apply Hus1|]. wp_step.
  rewrite (u64_small (a + 8)) by (unfold is_u64; lia). unfold s1. rewrite set_threads_insert2. exact HQ.
Qed.

(** ** Returning *)

Lemma wp_sigreturn um s t frame sf (Q : Z → sched → Prop) :
  user_space s t → x_syscall_iret (t_exec t) = Some frame → ∀ a, frame !! 16%nat = Some a → 0 ≤ a → a + 152 < 2 ^ 64 →
  user_range s t false a 152 → Forall is_u64 (sigframe_words sf) → user_bytes um a 152 = words_bytes (sigframe_words sf) →
  Q 0 (set_threads (insert (current s) (set_signals (set_mask (sg_oldmask sf)) (set_frame (ctx_frame sf) t))) s) →
  wp (sys_sigreturn um) Q s.
Proof.
  intros Hus Hf a Ha Ha0 Ha1 Hr Hw Hb HQ. unfold sys_sigreturn, sched_current. wp_step. wp_step. rewrite (proj2 (Z.eqb_neq _ _)) by apply Hus.
  wp_step. eapply wp_thr; [apply Hus|]. rewrite Hf. wp_step. eapply wp_load; [done|exact Ha|]. wp_step.
  change SIGFRAME_SIZE with 152. apply (wp_user_range s t); [done|lia|lia|]. intros b Hbb. rewrite (proj2 Hbb Hr). cbn [negb].
  rewrite Hb. change 19%nat with (length (sigframe_words sf)). rewrite bytes_words_bytes by done. destruct sf. cbn [words_sigframe sigframe_words]. wp_step.
  eapply wp_upd; [apply Hus|]. by wp_step.
Qed.
End rules.

(** ** Every thread once *)

Section foreach.
Context (s : sched) (l zs : list Z) (Hok : sched_ok s l zs) (g : Z → thread → thread) (fn : Z → M sched unit).
Context (Hnext : ∀ a t, t_next (g a t) = t_next t).
Context (Hfn : ∀ s' a t (Q : unit → sched → Prop), threads s' !! a = Some t → Q tt (set_threads (insert a (g a t)) s') → wp (fn a) Q s').

(** The threads of [T] have been visited. *)
Definition visited (T : list Z) (s' : sched) : Prop :=
  s' = set_threads (λ _, threads s') s ∧ ∀ a, threads s' !! a = (λ t, if decide (a ∈ T) then g a t else t) <$> threads s !! a.

Lemma visited_ext T T' s' : (∀ a, a ∈ T ↔ a ∈ T') → visited T s' → visited T' s'.
Proof.
  intros HT [E H]. split; [done|]. intros a. rewrite H. destruct (threads s !! a); [|done]. cbn. f_equal.
  destruct (decide (a ∈ T)), (decide (a ∈ T')); naive_solver.
Qed.

Lemma visited_next T s' a t' : visited T s' → threads s' !! a = Some t' → ∃ t, threads s !! a = Some t ∧ t_next t' = t_next t.
Proof. intros [_ H] Ht'. rewrite H in Ht'. destruct (threads s !! a) as [t|]; [|done]. exists t. split; [done|]. injection Ht' as <-. case_decide; [apply Hnext|done]. Qed.

Lemma visited_at T s' a : visited T s' → is_Some (threads s !! a) → is_Some (threads s' !! a).
Proof. intros [_ ->] [t ->]. by eexists. Qed.

Lemma wp_visit T s' a (Q : unit → sched → Prop) :
  visited T s' → a ∉ T → is_Some (threads s !! a) → (∀ s'', visited (a :: T) s'' → Q tt s'') → wp (fn a) Q s'.
Proof.
  intros [E H] Ha [t Ht] HQ. apply (Hfn _ _ t).
  - rewrite H, Ht. cbn. by rewrite decide_False.
  - apply HQ. split; [cbn; by rewrite E|]. intros b. cbn. destruct (decide (b = a)) as [->|Hne].
    + rewrite lookup_insert_eq, Ht. cbn. by rewrite decide_True by (by left).
    + rewrite lookup_insert_ne, H by done. destruct (threads s !! b); [|done]. cbn. f_equal.
      destruct (decide (b ∈ T)), (decide (b ∈ a :: T)); set_solver.
Qed.

Let base : list Z := [idle_thread; main_thread; current s].

Lemma wp_foreach_loop s1 (Q : unit → sched → Prop) :
  visited base s1 → (∀ s', visited (idle_thread :: main_thread :: l) s' → Q tt s') →
  wp (loop_fuel (walk_fuel s) (λ t,
      c ← gets current;
      (if (t =? c) || (t =? main_thread) || (t =? idle_thread) then mret tt else fn t) ;;
      x ← thr t;
      h' ← gets ready_head;
      mret (if t_next x =? h' then inr tt else inl (t_next x))) main_thread) Q s1.
Proof.
  intros Hv HQ. pose proof (so_queue _ _ _ Hok) as Hq. pose proof (q_ring_nodup _ _ _ _ Hq) as Hnd. destruct (ok_current s l zs Hok) as [Hcin _].
  apply (wp_loop_ghost (λ k p s', ∃ pre suf, main_thread :: l = pre ++ p :: suf ∧ k = length suf ∧ seg (threads s) p suf main_thread ∧
    visited (pre ++ base) s') _ _ (length l)); [|pose proof (q_fuel _ _ _ _ Hq); simpl in *; lia|].
  { exists [], l. by split_and!; [..|apply (q_ring _ _ _ _ Hq)|]. }
  intros k p s' (pre & suf & Heq & -> & Hseg & Hv'). wp_step. wp_step. rewrite (proj1 Hv'). cbn [current set_threads]. rewrite <-(proj1 Hv').
  assert (p ∈ main_thread :: l) as Hp by (rewrite Heq; set_solver).
  assert (∀ s'', visited ((pre ++ [p]) ++ base) s'' → wp (x ← thr p; h' ← gets ready_head; mret (if t_next x =? h' then inr tt else inl (t_next x)))
    (λ r s0, match r with inl b => ∃ m', (m' < length suf)%nat ∧ ∃ pre suf, main_thread :: l = pre ++ b :: suf ∧ m' = length suf ∧
       seg (threads s) b suf main_thread ∧ visited (pre ++ base) s0 | inr v => Q v s0 end) s'') as Hgo.
  { intros s'' Hv''. destruct (visited_at _ _ p Hv'' (q_member _ _ _ _ Hq p Hp)) as [t' Ht']. wp_step. eapply wp_thr; [exact Ht'|].
    destruct (visited_next _ _ _ _ Hv'' Ht') as (t & Ht & ->). wp_step. wp_step. rewrite (proj1 Hv''). cbn [ready_head set_threads]. rewrite <-(proj1 Hv''), (q_head _ _ _ _ Hq).
    destruct suf as [|y suf]; cbn [seg] in Hseg.
    - destruct Hseg as [(u & Hu & Hn) _]. rewrite Ht in Hu. injection Hu as ->. rewrite Hn, Z.eqb_refl. wp_step. apply HQ.
      eapply visited_ext; [|exact Hv'']. intros a. rewrite <-Heq. set_unfold. naive_solver.
    - destruct Hseg as [[(u & Hu & Hn) _] Hseg]. rewrite Ht in Hu. injection Hu as ->. rewrite Hn.
      assert (y ≠ main_thread) as Hy.
      { intros ->. destruct pre as [|h' pre]; simplify_eq/=; apply NoDup_cons in Hnd as [Hnd _]; apply Hnd; set_solver. }
      rewrite (proj2 (Z.eqb_neq _ _)) by done. wp_step. exists (length suf). split; [simpl; lia|]. exists (pre ++ [p]), suf. rewrite <-app_assoc. by split_and!. }
  wp_step. destruct ((p =? current s) || (p =? main_thread) || (p =? idle_thread)) eqn:Hb.
  - wp_step. apply Hgo. eapply visited_ext; [|exact Hv']. intros a. assert (p ∈ base); [|set_solver].
    unfold base. apply orb_true_iff in Hb as [[Hb|Hb]%orb_true_iff|Hb]; apply Z.eqb_eq in Hb as ->; set_solver.
  - apply orb_false_iff in Hb as [[H1 H2]%orb_false_iff H3]. apply Z.eqb_neq in H1, H2, H3.
    eapply (wp_visit (pre ++ base)); [exact Hv'| |apply (q_member _ _ _ _ Hq p Hp)|].
    + rewrite elem_of_app. intros [Hin|Hin]; [|unfold base in Hin; set_solver]. rewrite Heq in Hnd. apply NoDup_app in Hnd as (_ & Hd & _).
      apply (Hd p Hin). by left.
    + intros s'' Hv''. apply Hgo. eapply visited_ext; [|exact Hv'']. set_solver.
Qed.

Lemma wp_foreach (Q : unit → sched → Prop) :
  (∀ s', visited (idle_thread :: main_thread :: l) s' → Q tt s') → wp (sched_foreach fn) Q s.
Proof.
  intros HQ. pose proof (so_queue _ _ _ Hok) as Hq. destruct (ok_current s l zs Hok) as [Hcin Hcur].
  assert (visited [] s) as H0 by (split; [by destruct s|intros a; by destruct (threads s !! a)]).
  assert (∀ T s', visited T s' → current s' = current s ∧ ready_head s' = main_thread ∧ walk_fuel s' = walk_fuel s) as Hsame.
  { intros T s' [E H]. rewrite E. cbn. split_and!; [done|apply (q_head _ _ _ _ Hq)|]. unfold walk_fuel. cbn. do 2 f_equal. rewrite <-!size_dom. f_equal.
    apply set_eq. intros a. rewrite !elem_of_dom, H, fmap_is_Some. done. }
  unfold sched_foreach. wp_step. wp_step. wp_step. rewrite (proj2 (Z.eqb_neq _ _)) by apply (so_current _ _ _ Hok).
  eapply (wp_visit []); [exact H0|set_solver|exact Hcur|]. intros s1 H1. wp_step. wp_step. rewrite (proj1 (Hsame _ _ H1)). wp_step.
  assert (∀ s2, visited [main_thread; current s] s2 → wp (c ← gets current;
    (if c =? idle_thread then mret tt else fn idle_thread) ;;
    h ← gets ready_head;
    if h =? 0 then mret tt
    else
      n ← gets walk_fuel;
      loop_fuel n (λ t,
        c ← gets current;
        (if (t =? c) || (t =? main_thread) || (t =? idle_thread) then mret tt else fn t) ;;
        x ← thr t;
        h' ← gets ready_head;
        mret (if t_next x =? h' then inr tt else inl (t_next x))) h) Q s2) as Hgo.
  { intros s2 H2. pose proof (ring_not_idle _ _ _ _ Hq _ Hcin) as Hni. wp_step. wp_step. rewrite (proj1 (Hsame _ _ H2)), (proj2 (Z.eqb_neq _ _)) by done. wp_step.
    eapply (wp_visit [main_thread; current s]); [exact H2|set_unfold; naive_solver|apply (q_thread _ _ _ _ Hq); by left|]. intros s3 H3.
    wp_step. wp_step. destruct (Hsame _ _ H3) as (_ & -> & Hfuel). change (main_thread =? 0) with false. cbn iota. wp_step. wp_step. rewrite Hfuel.
    by apply wp_foreach_loop. }
  destruct (Z.eqb_spec (current s) main_thread) as [E|E].
  - wp_step. apply Hgo. eapply visited_ext; [|exact H1]. rewrite E. set_solver.
  - eapply (wp_visit [current s]); [exact H1|set_solver|apply (q_member _ _ _ _ Hq); by left|]. exact Hgo.
Qed.
End foreach.

(** ** Theorems *)

(** All words of a frame fit. *)
Ltac words_u64 :=
  unfold sigframe_words, set_oldmask;
  cbn [sg_rax sg_rdi sg_rsi sg_rdx sg_r10 sg_r8 sg_r9 sg_rbx sg_rbp sg_r12 sg_r13 sg_r14 sg_r15 sg_rip sg_cs sg_rflags sg_rsp sg_ss sg_oldmask];
  rewrite !Forall_cons.

Definition regs_u64 (u : regs) : Prop :=
  Forall is_u64 [rg_rax u; rg_rbx u; rg_rcx u; rg_rdx u; rg_rsi u; rg_rdi u; rg_rbp u; rg_r8 u; rg_r9 u; rg_r10 u; rg_r11 u; rg_r12 u; rg_r13 u;
    rg_r14 u; rg_r15 u; rg_rip u; rg_cs u; rg_rflags u; rg_rsp u; rg_ss u].

(** The registers after a system call that returned [ret]. *)
Definition after_call (ret c e : Z) (u : regs) : regs :=
  Regs ret (rg_rbx u) c (rg_rdx u) (rg_rsi u) (rg_rdi u) (rg_rbp u) (rg_r8 u) (rg_r9 u) (rg_r10 u) e (rg_r12 u) (rg_r13 u) (rg_r14 u) (rg_r15 u)
    (rg_rip u) 0x2B (rg_rflags u) (rg_rsp u) 0x33.

(** The same with the process about to run [h] on signal [sig]. *)
Definition entering (h sig rsp : Z) (u : regs) : regs :=
  Regs (rg_rax u) (rg_rbx u) (rg_rcx u) (rg_rdx u) (rg_rsi u) sig (rg_rbp u) (rg_r8 u) (rg_r9 u) (rg_r10 u) (rg_r11 u) (rg_r12 u) (rg_r13 u) (rg_r14 u) (rg_r15 u)
    h (rg_cs u) (rg_rflags u) rsp (rg_ss u).

(** The registers when the timer delivered the signal, and after the return. *)
Definition handler_via_timer (h sig rsp : Z) (u : regs) : regs :=
  Regs (rg_rax u) (rg_rbx u) (rg_rcx u) (rg_rdx u) (rg_rsi u) (rg_rdi u) (rg_rbp u) (rg_r8 u) sig (rg_r10 u) (rg_r11 u) (rg_r12 u) (rg_r13 u) (rg_r14 u) (rg_r15 u)
    h (rg_cs u) (rg_rflags u) rsp (rg_ss u).

Definition scrambled (c e : Z) (u : regs) : regs :=
  Regs 0 (rg_r12 u) c (rg_r13 u) (rg_r10 u) (rg_r9 u) (rg_r11 u) (rg_r8 u) (rg_rdi u) (rg_rsi u) e (rg_rbx u) (rg_rdx u) (rg_rcx u) (rg_rax u)
    (rg_rip u) (rg_cs u) (rg_rflags u) (rg_rsp u) (rg_ss u).

(** User memory holds what was stored there. *)
Definition holds (um : Z → Z) (st : stores) : Prop := ∀ a bs, (a, bs) ∈ st → user_bytes um a (strlen bs) = bs.

(** The handler has returned into the restorer, which calls [sigreturn] with the
    stack pointer at [a] and the frame as it was stored. *)
Record returning (um : Z → Z) (st : stores) (a : Z) (s : sched) (t : thread) : Prop := Returning {
  rt_user : user_space s t;
  rt_frame : ∃ u, x_syscall_iret (t_exec t) = Some (syscall_entry u) ∧ rg_rsp u = a;
  rt_range : user_range s t false a 152;
  rt_memory : holds um st }.

Lemma sigreturn_restores um st a s t sf :
  returning um st a s t → 0 ≤ a → a + 152 < 2 ^ 64 → Forall is_u64 (sigframe_words sf) → (a, words_bytes (sigframe_words sf)) ∈ st →
  ∃ t', sys_sigreturn um s = Ok (0, set_threads (insert (current s) t') s) ∧ sig_mask (t_signals t') = sg_oldmask sf ∧
    x_syscall_iret (t_exec t') = Some (ctx_frame sf).
Proof.
  intros [Hus (u & Hf & Hu) Hr Hm] Ha Ha1 Hw Hin.
  exists (set_signals (set_mask (sg_oldmask sf)) (set_frame (ctx_frame sf) t)). split; [|done].
  apply wp_exact. eapply (wp_sigreturn um s t); [done|exact Hf|simpl; by rewrite Hu|done|done|done|exact Hw| |done].
  pose proof (Hm _ _ Hin) as E. unfold strlen in E. by rewrite words_bytes_length in E.
Qed.

Section theorems.
Context {env : VfsEnv} {senv : SchedEnv}.

(** C15: a signal delivered when a system call returns enters the handler of the
    process with the signal number as its argument and its return address at the
    restorer; when the handler returns, [sys_sigreturn] restores the signal mask
    and resumes the process after its system call with every register as the
    call left it, except rax: the result of the interrupted call is lost, the
    process sees 0. *)
Theorem signal_roundtrip sp s t u sig sa :
  handled s t sig sa → x_syscall_iret (t_exec t) = Some (syscall_entry u) → regs_u64 u → is_u64 (sig_mask (t_signals t)) →
  160 ≤ rg_rsp u → user_range s t true (rg_rsp u - 160) 160 →
  ∃ st t1 f1, syscall_deliver_signals sp s = Ok (Some st, set_threads (insert (current s) t1) s) ∧
    x_syscall_iret (t_exec t1) = Some f1 ∧
    (∀ ret c e, syscall_exit ret c e f1 = Some (entering (sa_handler sa) sig (rg_rsp u - 160) (after_call ret c e u))) ∧
    (rg_rsp u - 160, le64 (sa_restorer sa)) ∈ st ∧
    ∀ um s2 t2, returning um st (rg_rsp u - 152) s2 t2 →
      ∃ t3 f3, sys_sigreturn um s2 = Ok (0, set_threads (insert (current s2) t3) s2) ∧ sig_mask (t_signals t3) = sig_mask (t_signals t) ∧
        x_syscall_iret (t_exec t3) = Some f3 ∧ ∀ c e, syscall_exit 0 c e f3 = Some (after_call 0 c e u).
Proof.
  intros Hh Hf Hu Hm Ha Hr. pose proof (hd_user _ _ _ _ Hh) as Hus. unfold regs_u64 in Hu. rewrite !Forall_cons in Hu.
  destruct Hu as (?&?&?&?&?&?&?&?&?&?&?&?&?&?&?&?&?&?&Hsp&?&_). assert (rg_rsp u < 2 ^ 64) as Hlt by apply Hsp.
  destruct (frame_ctx (syscall_entry u)) as [ctx|] eqn:Hctx; [|done]. injection Hctx as Hctx.
  set (sf := set_oldmask (sig_mask (t_signals t)) ctx).
  set (st := [(rg_rsp u - 160 + 8, words_bytes (sigframe_words sf)); (rg_rsp u - 160, le64 (sa_restorer sa))]).
  exists st, (set_frame (ctx_frame (enter_handler (sa_handler sa) (rg_rsp u - 160) sig ctx)) (in_handler sig t)), (ctx_frame (enter_handler (sa_handler sa) (rg_rsp u - 160) sig ctx)).
  split_and!.
  - apply wp_exact. unfold syscall_deliver_signals, sched_current. wp_step. wp_step. rewrite (proj2 (Z.eqb_neq _ _)) by apply Hus.
    wp_step. eapply wp_thr; [apply Hus|]. rewrite Hf. cbn [frame_ctx syscall_entry]. rewrite Hctx. wp_step. subst ctx.
    eapply wp_deliver_handled; [exact Hh|simpl; lia|done|exact Hr|]. wp_step. eapply wp_upd; [cbn; by rewrite lookup_insert_eq|].
    rewrite set_threads_insert2. by wp_step.
  - done.
  - subst ctx. done.
  - by right; left.
  - intros um s2 t2 Hret. destruct (sigreturn_restores um st (rg_rsp u - 152) s2 t2 sf Hret) as (t3 & Hrun & Hmask & Hf3).
    + lia.
    + lia.
    + subst sf ctx. by words_u64.
    + unfold st. replace (rg_rsp u - 160 + 8) with (rg_rsp u - 152) by lia. by left.
    + exists t3, (ctx_frame sf). split_and!; [done|subst sf ctx; done|done|]. subst sf ctx. done.
Qed.

(** A signal that interrupts a process in user mode through the timer enters
    the handler with the signal number in r9 instead of rdi, and when the handler
    returns the process continues with its registers permuted and rax 0: the
    fields of [struct isr_frame] are in the reverse order of what isr.S pushes. *)
Theorem timer_signal_scrambled sp s t u n e sig sa :
  handled s t sig sa → regs_u64 u → is_u64 (sig_mask (t_signals t)) → Z.land (rg_cs u) 3 ≠ 0 →
  160 ≤ rg_rsp u → user_range s t true (rg_rsp u - 160) 160 →
  ∃ st f1 s1, kernel_deliver_signals_user sp (isr_entry n e u) s = Ok (Some (f1, st), s1) ∧
    isr_exit f1 = Some (handler_via_timer (sa_handler sa) sig (rg_rsp u - 160) u) ∧
    ∀ um s2 t2, returning um st (rg_rsp u - 152) s2 t2 →
      ∃ t3 f3, sys_sigreturn um s2 = Ok (0, set_threads (insert (current s2) t3) s2) ∧
        x_syscall_iret (t_exec t3) = Some f3 ∧ ∀ c e, syscall_exit 0 c e f3 = Some (scrambled c e u).
Proof.
  intros Hh Hu Hm Hcs Ha Hr. pose proof (hd_user _ _ _ _ Hh) as Hus. pose proof Hu as Hu'. unfold regs_u64 in Hu'. rewrite !Forall_cons in Hu'.
  assert (rg_rsp u < 2 ^ 64) as Hlt by apply Hu'.
  set (ctx := Sigframe (rg_r15 u) (rg_r9 u) (rg_r10 u) (rg_r13 u) (rg_rsi u) (rg_r8 u) (rg_rdi u) (rg_r12 u) (rg_r11 u) (rg_rbx u) (rg_rdx u) (rg_rcx u) (rg_rax u)
    (rg_rip u) (rg_cs u) (rg_rflags u) (rg_rsp u) (rg_ss u) 0).
  set (sf := set_oldmask (sig_mask (t_signals t)) ctx).
  set (st := [(rg_rsp u - 160 + 8, words_bytes (sigframe_words sf)); (rg_rsp u - 160, le64 (sa_restorer sa))]).
  eexists st, _, (set_threads (insert (current s) (in_handler sig t)) s). split_and!.
  - apply wp_exact. unfold kernel_deliver_signals_user, isr_entry, sched_current. wp_step. wp_step. rewrite (proj2 (Z.eqb_neq _ _)) by apply Hus.
    rewrite (proj2 (Z.eqb_neq _ _)) by done. wp_step. fold ctx. eapply wp_deliver_handled; [exact Hh|simpl; lia|done|exact Hr|]. wp_step. split; [|done]. reflexivity.
  - done.
  - intros um s2 t2 Hret. destruct (sigreturn_restores um st (rg_rsp u - 152) s2 t2 sf Hret) as (t3 & Hrun & Hmask & Hf3); [lia|lia|..].
    + unfold sf. words_u64. tauto.
    + unfold st. replace (rg_rsp u - 160 + 8) with (rg_rsp u - 152) by lia. by left.
    + exists t3, (ctx_frame sf). by split_and!.
Qed.

(** [sys_sigreturn] installs whatever the process left on its stack: the
    segment selectors, the flags and the instruction pointer it returns with are
    not checked, and neither is the signal mask, so that a process can block
    every signal, SIGKILL among them, for ever. *)
Theorem sigreturn_unchecked um s t u sf :
  user_space s t → x_syscall_iret (t_exec t) = Some (syscall_entry u) → 0 ≤ rg_rsp u → rg_rsp u + 152 < 2 ^ 64 → user_range s t false (rg_rsp u) 152 →
  Forall is_u64 (sigframe_words sf) → user_bytes um (rg_rsp u) 152 = words_bytes (sigframe_words sf) →
  ∃ t1 f1, sys_sigreturn um s = Ok (0, set_threads (insert (current s) t1) s) ∧ x_syscall_iret (t_exec t1) = Some f1 ∧
    (∀ c e, ∃ u1, syscall_exit 0 c e f1 = Some u1 ∧ rg_cs u1 = sg_cs sf ∧ rg_ss u1 = sg_ss sf ∧ rg_rflags u1 = sg_rflags sf ∧ rg_rip u1 = sg_rip sf ∧ rg_rsp u1 = sg_rsp sf) ∧
    (sg_oldmask sf = 2 ^ 64 - 1 → ∀ sp sig, let s2 := set_threads (insert (current s) (post sig t1)) s in
       syscall_deliver_signals sp s2 = Ok (Some [], s2)).
Proof.
  intros Hus Hf Ha Ha1 Hr Hw Hb. set (t1 := set_signals (set_mask (sg_oldmask sf)) (set_frame (ctx_frame sf) t)).
  exists t1, (ctx_frame sf). split_and!.
  - apply wp_exact. by eapply (wp_sigreturn um s t).
  - done.
  - intros c e. eexists. by split_and!.
  - intros Hm sp sig s2. apply wp_exact. unfold syscall_deliver_signals, sched_current. wp_step. wp_step. rewrite (proj2 (Z.eqb_neq _ _)) by apply Hus.
    wp_step. eapply wp_thr; [cbn; by rewrite lookup_insert_eq|]. cbn [x_syscall_iret t_exec post set_signals t1 set_frame set_exec frame_ctx ctx_frame]. wp_step.
    unfold deliver_signal_ctx. wp_step. eapply wp_thr; [cbn; by rewrite lookup_insert_eq|].
    cbn [t_signals post set_signals t1 set_frame set_exec set_pending set_mask sig_mask sig_pending]. rewrite Hm.
    change (u64 (Z.lnot (2 ^ 64 - 1))) with 0. rewrite Z.land_0_r, Z.eqb_refl. wp_step. by wp_step.
Qed.
End theorems.

(** ** Sending a signal *)

Definition may_signal (c x : thread) : bool :=
  (cr_uid (t_cred x) =? cr_euid (t_cred c)) || bool_decide (cr_role (t_cred c) = ROLE_SYSTEM) ||
  negb (Z.land (cr_caps_prm (t_cred c)) (Z.lor CAP_KILL_ANY CAP_SIGNAL_OTHER) =? 0).
Definition may_signal_all (c : thread) : bool :=
  bool_decide (cr_role (t_cred c) = ROLE_SYSTEM) || negb (Z.land (cr_caps_prm (t_cred c)) CAP_KILL_ANY =? 0).

(** The result of [kill] for a signal [sig] and which threads get it. *)
Inductive kill_result (s : sched) (l : list Z) (c : thread) (pid sig : Z) : Z → (Z → thread → bool) → Prop :=
| kill_bad_signal : ¬ 0 < sig < 32 → kill_result s l c pid sig (neg 1) (λ _ _, false)
| kill_none : 0 < sig < 32 → 0 < pid → (∀ a x, a ∈ idle_thread :: main_thread :: l → threads s !! a = Some x → t_pid x ≠ pid) →
    kill_result s l c pid sig (neg ESRCH) (λ _ _, false)
| kill_denied a x : 0 < sig < 32 → 0 < pid → threads s !! a = Some x → t_pid x = pid → sched_is_protected a = true ∨ may_signal c x = false →
    kill_result s l c pid sig (neg EPERM) (λ _ _, false)
| kill_one a x : 0 < sig < 32 → 0 < pid → threads s !! a = Some x → t_pid x = pid → sched_is_protected a = false → may_signal c x = true →
    kill_result s l c pid sig 0 (λ b _, b =? a)
| kill_self : 0 < sig < 32 → pid = 0 → kill_result s l c pid sig 0 (λ b _, b =? current s)
| kill_all : 0 < sig < 32 → pid = -1 → may_signal_all c = true →
    kill_result s l c pid sig 0 (λ b x, bool_decide (b ∈ l) && negb (t_pid x =? t_pid c))
| kill_all_denied : 0 < sig < 32 → pid = -1 → may_signal_all c = false → kill_result s l c pid sig (neg EPERM) (λ _ _, false)
| kill_group : 0 < sig < 32 → pid < -1 → kill_result s l c pid sig (neg 1) (λ _ _, false).

(** The boot and the idle thread cannot be killed: when a thread with
    ROLE_SYSTEM asks for it, the kernel panics. *)
Definition kill_panics (s : sched) (c : thread) (pid sig : Z) : Prop :=
  0 < sig < 32 ∧ 0 < pid ∧ cr_role (t_cred c) = ROLE_SYSTEM ∧
  ∃ a x, sched_is_protected a = true ∧ threads s !! a = Some x ∧ t_pid x = pid.

(** The threads that [hit] picks have signal [sig] pending; nothing else changed. *)
Definition signalled (sig : Z) (hit : Z → thread → bool) (s s' : sched) : Prop :=
  s' = set_threads (λ _, threads s') s ∧ ∀ a, threads s' !! a = (λ x, if hit a x then post sig x else x) <$> threads s !! a.

Lemma signalled_none sig s : signalled sig (λ _ _, false) s s.
Proof. split; [by destruct s|]. intros a. by destruct (threads s !! a). Qed.

Lemma signalled_one sig s a t : threads s !! a = Some t → signalled sig (λ b _, b =? a) s (set_threads (insert a (post sig t)) s).
Proof.
  intros Ht. split; [done|]. intros b. cbn. rewrite lookup_insert. case_decide as E.
  - subst b. by rewrite Ht, <-(fmap_Some_2 _ _ _ eq_refl), Z.eqb_refl.
  - rewrite (proj2 (Z.eqb_neq b a)) by done. by destruct (threads s !! b).
Qed.

Lemma wp_kill_fn sig self s a t (Q : unit → sched → Prop) :
  threads s !! a = Some t →
  Q tt (set_threads (insert a (if (t_pid t =? self) || sched_is_protected a then t else post sig t)) s) → wp (kill_fn sig self a) Q s.
Proof.
  intros Ht HQ. unfold kill_fn. wp_step. eapply wp_thr; [done|].
  assert (set_threads (insert a t) s = s) as E by (unfold set_threads; rewrite insert_id by done; by destruct s).
  destruct (t_pid t =? self), (sched_is_protected a); cbn [orb] in HQ; rewrite ?E in HQ; try by wp_step.
  by eapply wp_upd.
Qed.

Lemma may_signal_test c x :
  negb (cr_uid (t_cred x) =? cr_euid (t_cred c)) && negb (bool_decide (cr_role (t_cred c) = ROLE_SYSTEM)) &&
  (Z.land (cr_caps_prm (t_cred c)) (Z.lor CAP_KILL_ANY CAP_SIGNAL_OTHER) =? 0) = negb (may_signal c x).
Proof. unfold may_signal. by rewrite !negb_orb, negb_involutive. Qed.

Lemma may_signal_all_test c :
  negb (bool_decide (cr_role (t_cred c) = ROLE_SYSTEM)) && (Z.land (cr_caps_prm (t_cred c)) CAP_KILL_ANY =? 0) = negb (may_signal_all c).
Proof. unfold may_signal_all. by rewrite negb_orb, negb_involutive. Qed.

Lemma visited_signalled s l zs sig c s' :
  sched_ok s l zs → visited s (λ a t, if (t_pid t =? t_pid c) || sched_is_protected a then t else post sig t) (idle_thread :: main_thread :: l) s' →
  signalled sig (λ b x, bool_decide (b ∈ l) && negb (t_pid x =? t_pid c)) s s'.
Proof.
  intros Hok [E H]. pose proof (so_queue _ _ _ Hok) as Hq. split; [done|]. intros a. rewrite H. destruct (threads s !! a) as [t|] eqn:Ht; [|done]. cbn. f_equal.
  assert (sched_is_protected a = true ↔ a = idle_thread ∨ a = main_thread) as Hpr by (unfold sched_is_protected; rewrite orb_true_iff, !Z.eqb_eq; tauto).
  pose proof (q_ring_nodup _ _ _ _ Hq) as Hnd. apply NoDup_cons in Hnd as [Hnd _].
  case_decide as Hin; case_bool_decide as Hl; destruct (t_pid t =? t_pid c), (sched_is_protected a) eqn:Hp; cbn; try done; exfalso.
  - apply proj1 in Hpr. destruct (Hpr eq_refl) as [-> | ->]; [|done]. by apply (ring_not_idle _ _ _ _ Hq idle_thread); [right|].
  - apply elem_of_cons in Hin as [->|Hin]; [done|]. by apply elem_of_cons in Hin as [->|Hin].
  - apply Hin. by do 2 right.
  - apply Hin. by do 2 right.
Qed.

(** What the search for a pid finds: 0 when no thread of the queue has it. *)
Definition found_pid (s : sched) (l : list Z) (pid a : Z) : Prop :=
  sched_find_by_pid pid s = Ok (a, s) ∧
  ((a = 0 ∧ ∀ b x, b ∈ idle_thread :: main_thread :: l → threads s !! b = Some x → t_pid x ≠ pid) ∨
   (0 < a ∧ ∃ x, threads s !! a = Some x ∧ t_pid x = pid)).

Lemma find_pid s l zs pid : sched_ok s l zs → 0 < pid → ∃ a, found_pid s l pid a.
Proof.
  intros Hok Hpid. pose proof (so_queue _ _ _ Hok) as Hq. destruct (ok_current s l zs Hok) as [Hcin _].
  assert (wp (sched_find_by_pid pid) (λ a s', s' = s ∧
    ((a = 0 ∧ ∀ b x, b ∈ idle_thread :: main_thread :: l → threads s !! b = Some x → t_pid x ≠ pid) ∨
     (0 < a ∧ ∃ x, threads s !! a = Some x ∧ t_pid x = pid))) s) as Hwp.
  { unfold sched_find_by_pid. eapply (wp_find_by_pid s l zs); [done|set_unfold; tauto|done|..].
    - intros a x Ha Hx Ep. split; [done|]. right. split; [|by exists x].
      apply (q_pos _ _ _ _ Hq). set_unfold. naive_solver.
    - intros Hno. split; [done|]. left. split; [done|]. intros b x Hb. apply Hno. by right. }
  apply wp_ok in Hwp as (a & s' & Hrun & -> & Hf). by exists a.
Qed.

Lemma wp_returns {A} (m : M sched A) s a s' (Q : A → sched → Prop) : m s = Ok (a, s') → Q a s' → wp m Q s.
Proof. intros Hrun HQ. apply wp_ok. eauto. Qed.

Lemma kill_refused a1 a2 s : ¬ 0 < int a2 < 32 → sys_kill a1 a2 s = Ok (neg 1, s).
Proof.
  intros Hn. unfold sys_kill. cbn zeta. change (Z.of_nat NSIG) with 32.
  destruct (Z.leb_spec (int a2) 0), (Z.leb_spec 32 (int a2)); first [done|lia].
Qed.

Lemma kill_panic s l c a1 a2 a :
  0 < int a2 < 32 → 0 < int a1 → current s ≠ 0 → threads s !! current s = Some c → found_pid s l (int a1) a →
  sched_is_protected a = true → cr_role (t_cred c) = ROLE_SYSTEM → sys_kill a1 a2 s = Fault.
Proof.
  intros Hsig Hpid Hcur Hc [Hrun _] Hpr Hrole. assert (a ≠ 0) as Ha by (by intros ->).
  unfold sys_kill, sched_current, gets, mbind, M_bind. cbn zeta. change (Z.of_nat NSIG) with 32.
  rewrite (proj2 (Z.leb_gt _ _)), (proj2 (Z.leb_gt 32 _)) by lia. cbn [orb].
  rewrite (proj2 (Z.eqb_neq (current s) 0)) by done. rewrite (proj2 (Z.ltb_lt 0 _)) by done. rewrite Hrun. rewrite (proj2 (Z.eqb_neq a 0)) by done.
  unfold sched_protected_kill, thr, gets, mbind, M_bind. rewrite Hpr. cbn [negb]. rewrite (proj2 (Z.eqb_neq (current s) 0)) by done. rewrite Hc.
  unfold mret, M_ret. by rewrite Hrole.
Qed.

Lemma wp_sys_kill s l zs c a1 a2 :
  let pid := int a1 in let sig := int a2 in
  sched_ok s l zs → threads s !! current s = Some c → 0 < sig < 32 →
  (0 < pid → ∃ a, found_pid s l pid a ∧ (sched_is_protected a = true → cr_role (t_cred c) ≠ ROLE_SYSTEM)) →
  wp (sys_kill a1 a2) (λ r s', ∃ hit, kill_result s l c pid sig r hit ∧ signalled sig hit s s') s.
Proof.
  intros pid sig Hok Hc Hsig Hpanic. pose proof (so_queue _ _ _ Hok) as Hq. destruct (ok_current s l zs Hok) as [Hcin _].
  unfold sys_kill. fold pid sig. rewrite (proj2 (orb_false_iff _ _)).
  2:{ split; [apply Z.leb_gt; lia|]. apply Z.leb_gt. change (Z.of_nat NSIG) with 32. lia. }
  unfold sched_current. wp_step. wp_step. rewrite (proj2 (Z.eqb_neq _ _)) by apply (so_current _ _ _ Hok).
  destruct (Z.ltb_spec 0 pid) as [Hpid|Hpid]; [|destruct (Z.eqb_spec pid 0) as [Hp0|Hp0]; [|destruct (Z.eqb_spec pid (-1)) as [Hp1|Hp1]]].
  - destruct (Hpanic Hpid) as (a & [Hrun Hfound] & Hnp). wp_step. eapply wp_returns; [exact Hrun|]. destruct Hfound as [[-> Hno]|(Ha & x & Hx & Ep)].
    { rewrite Z.eqb_refl. wp_step. exists (λ _ _, false). split; [by apply kill_none|apply signalled_none]. }
    rewrite (proj2 (Z.eqb_neq a 0)) by lia. wp_step. unfold sched_protected_kill. destruct (sched_is_protected a) eqn:Hpr; cbn [negb].
    + wp_step. rewrite (proj2 (Z.eqb_neq _ _)) by apply (so_current _ _ _ Hok). wp_step. eapply wp_thr; [exact Hc|]. wp_step.
      rewrite bool_decide_true. 2:{ by apply Hnp. }
      wp_step. change (negb (- EPERM =? 0)) with true. cbn iota. wp_step. exists (λ _ _, false). split; [|apply signalled_none]. by eapply kill_denied; [done| | | |left].
    + wp_step. rewrite Z.eqb_refl. cbn [negb]. wp_step. eapply wp_thr; [exact Hx|]. wp_step. eapply wp_thr; [exact Hc|].
      rewrite may_signal_test. destruct (may_signal c x) eqn:Hmay; cbn [negb].
      * wp_step. eapply wp_upd; [exact Hx|]. wp_step. exists (λ b _, b =? a). split; [by eapply kill_one|by apply signalled_one].
      * wp_step. exists (λ _ _, false). split; [|apply signalled_none]. by eapply kill_denied; [done| | | |right].
  - wp_step. eapply wp_upd; [exact Hc|]. wp_step. exists (λ b _, b =? current s). split; [by apply kill_self|by apply signalled_one].
  - wp_step. eapply wp_thr; [exact Hc|]. rewrite may_signal_all_test. destruct (may_signal_all c) eqn:Hmay; cbn [negb].
    + wp_step. eapply (wp_foreach s l zs Hok (λ a t, if (t_pid t =? t_pid c) || sched_is_protected a then t else post sig t)).
      { intros a t. by destruct (_ || _). }
      { intros s' a t Q Ht HQ. by eapply wp_kill_fn. }
      intros s' Hv. wp_step. eexists. split; [by apply kill_all|by apply (visited_signalled s l zs)].
    + wp_step. exists (λ _ _, false). split; [by apply kill_all_denied|apply signalled_none].
  - wp_step. exists (λ _ _, false). split; [apply kill_group; lia|apply signalled_none].
Qed.

(** C19: [sys_kill] gives one of the results of [kill_result] or, in the one case
    [kill_panics], panics.  A signal number outside of 1 to 31 is refused.  Else
    the signal is made pending for exactly the threads the caller may signal: the
    one with the given pid when it exists (else ESRCH), is not one of the two
    kernel threads and belongs to the caller or the caller has ROLE_SYSTEM,
    CAP_KILL_ANY or CAP_SIGNAL_OTHER (else EPERM); the caller itself for pid 0;
    every thread of the run queue but the kernel threads and the caller's for pid
    -1, when the caller has ROLE_SYSTEM or CAP_KILL_ANY (else EPERM); other
    negative pids are refused.  Nothing else changes: a thread that sleeps or
    waits stays blocked. *)
Theorem sys_kill_exact s l zs c a1 a2 :
  let sig := int a2 in
  sched_ok s l zs → threads s !! current s = Some c →
  (∃ r hit s', sys_kill a1 a2 s = Ok (r, s') ∧ kill_result s l c (int a1) sig r hit ∧ signalled sig hit s s') ∨
  (kill_panics s c (int a1) sig ∧ sys_kill a1 a2 s = Fault).
Proof.
  intros sig Hok Hc. set (pid := int a1) in *.
  destruct (decide (0 < sig < 32)) as [Hsig|Hsig].
  2:{ left. exists (neg 1), (λ _ _, false), s. split_and!; [|by apply kill_bad_signal|apply signalled_none]. by apply kill_refused. }
  assert ((∃ r hit s', sys_kill a1 a2 s = Ok (r, s') ∧ kill_result s l c pid sig r hit ∧ signalled sig hit s s') ∨
    ∃ a, 0 < pid ∧ found_pid s l pid a ∧ sched_is_protected a = true ∧ cr_role (t_cred c) = ROLE_SYSTEM) as [?|(a & Hpid & Hf & Hpr & Hrole)]; [|by left|].
  - enough ((0 < pid → ∃ a, found_pid s l pid a ∧ (sched_is_protected a = true → cr_role (t_cred c) ≠ ROLE_SYSTEM)) ∨
      ∃ a, 0 < pid ∧ found_pid s l pid a ∧ sched_is_protected a = true ∧ cr_role (t_cred c) = ROLE_SYSTEM) as [Hnp|?]; [left|by right|].
    + pose proof (wp_sys_kill s l zs c a1 a2 Hok Hc Hsig Hnp) as Hwp. apply wp_ok in Hwp as (r & s1 & Hrun & hit & Hk & Hs). by exists r, hit, s1.
    + destruct (decide (0 < pid)) as [Hpid|]; [|by left]. destruct (find_pid s l zs pid Hok Hpid) as [a Hf].
      destruct (sched_is_protected a) eqn:Hpr; [|left; intros _; exists a; by rewrite Hpr].
      destruct (decide (cr_role (t_cred c) = ROLE_SYSTEM)) as [Hr|Hr]; [right; by exists a|left; intros _; by exists a].
  - right. split; [|by apply (kill_panic s l c a1 a2 a); [..|apply (so_current _ _ _ Hok)| | | |]].
    destruct Hf as [_ [[-> _]|(_ & x & Hx & Hp)]]; [done|]. split_and!; [lia..|done|done|by exists a, x].
Qed.

(** ** A process that takes a signal *)

#[local] Existing Instance no_respawn.
#[local] Existing Instance no_ext_free.

Lemma user_range_accepted s t a n write s' :
  user_space s t → 0 ≤ a < 2 ^ 64 → 0 ≤ n < 2 ^ 64 → user_range_ok a n write s = Ok (true, s') → user_range s t write a n.
Proof.
  intros Hus Ha Hn Hrun. assert (wp (user_range_ok a n write) (λ b _, b = true → user_range s t write a n) s) as Hwp.
  { apply (wp_user_range s t); [done..|]. intros b [Hb _]. exact Hb. }
  apply wp_ok in Hwp as (b & s1 & Hrun' & Hb). rewrite Hrun in Hrun'. injection Hrun' as <- _. by apply Hb.
Qed.

(** SIGTERM is pending, handled at address 0x10000000100 with a restorer. *)
Definition demo_user : regs :=
  Regs 9 11 12 13 14 15 16 17 18 19 20 21 22 23 24 (demo_page + 64) 0x2B 0x202 (demo_page + 1024) 0x33.
Definition demo_action : sigaction := Sigaction (demo_page + 256) 8 (demo_page + 512) 0.
Definition demo_target (f : list Z) : thread :=
  set_frame f (set_signals (λ g, Signals (2 ^ 15) 4 (<[15%nat := demo_action]> (sig_actions g)) (sig_ipc g)) demo_caller).
Definition demo_sig : sched := set_threads (insert (current demo_proc) (demo_target (syscall_entry demo_user))) demo_proc.

Lemma demo_sig_space f : user_space (set_threads (insert (current demo_proc) (demo_target f)) demo_proc) (demo_target f).
Proof. apply (user_space_upd demo_proc demo_caller); [apply demo_user_space|done]. Qed.

Lemma demo_handled : handled demo_sig (demo_target (syscall_entry demo_user)) 15 demo_action.
Proof.
  split; [apply demo_sig_space|done|by vm_compute| |done|by vm_compute|done|done].
  intros i Hi. assert (Forall (λ i, waiting (demo_target (syscall_entry demo_user)) i = false) (seqZ 1 14)) as Hall by (apply (bool_decide_unpack _); by vm_compute).
  rewrite Forall_forall in Hall. apply Hall, elem_of_seqZ. lia.
Qed.

Lemma demo_sig_range f w a n : 0 ≤ a < 2 ^ 64 → 0 ≤ n < 2 ^ 64 →
  (match user_range_ok a n w (set_threads (insert (current demo_proc) (demo_target f)) demo_proc) with Ok (b, _) => b | _ => false end) = true →
  user_range (set_threads (insert (current demo_proc) (demo_target f)) demo_proc) (demo_target f) w a n.
Proof.
  intros Ha Hn Hb. destruct (user_range_ok a n w _) as [[b s']| |] eqn:E; [|done..]. subst b. by eapply user_range_accepted; [apply demo_sig_space|..|exact E].
Qed.

Definition demo_frame_words : list Z := sigframe_words (Sigframe 9 15 14 13 19 17 18 11 16 21 22 23 24 (demo_page + 64) 0x2B 0x202 (demo_page + 1024) 0x33 4).

(** User memory as the delivery leaves it. *)
Definition demo_um (v : Z) : Z :=
  nth (Z.to_nat (v - (demo_page + 864))) (le64 (demo_page + 512) ++ words_bytes demo_frame_words) 0.

Definition demo_stores : stores := [(demo_page + 872, words_bytes demo_frame_words); (demo_page + 864, le64 (demo_page + 512))].

Definition demo_restorer : regs := Regs 25 0 0 0 0 0 0 0 0 0 0 0 0 0 0 (demo_page + 520) 0x2B 0x202 (demo_page + 872) 0x33.
Definition demo_back : sched := set_threads (insert (current demo_proc) (demo_target (syscall_entry demo_restorer))) demo_proc.

Lemma demo_in_memory : holds demo_um demo_stores.
Proof.
  assert (Forall (λ x, user_bytes demo_um x.1 (strlen x.2) = x.2) demo_stores) as Hall by (apply (bool_decide_unpack _); by vm_compute).
  intros a bs Hin. rewrite Forall_forall in Hall. exact (Hall _ Hin).
Qed.

Lemma signal_roundtrip_witness :
  ∃ st t1 f1, syscall_deliver_signals 0 demo_sig = Ok (Some st, set_threads (insert (current demo_sig) t1) demo_sig) ∧ x_syscall_iret (t_exec t1) = Some f1 ∧
    (∀ c e, syscall_exit 7 c e f1 = Some (entering (demo_page + 256) 15 (demo_page + 864) (after_call 7 c e demo_user))) ∧
    ∃ t3 f3, sys_sigreturn demo_um demo_back = Ok (0, set_threads (insert (current demo_back) t3) demo_back) ∧ sig_mask (t_signals t3) = 4 ∧
      x_syscall_iret (t_exec t3) = Some f3 ∧ ∀ c e, syscall_exit 0 c e f3 = Some (after_call 0 c e demo_user).
Proof.
  destruct (signal_roundtrip 0 demo_sig (demo_target (syscall_entry demo_user)) demo_user 15 demo_action) as (st & t1 & f1 & Hrun & Hf1 & Hin & _ & Hret).
  - apply demo_handled.
  - done.
  - apply (bool_decide_unpack _). by vm_compute.
  - by vm_compute.
  - done.
  - apply demo_sig_range; [by vm_compute..|]. by vm_compute.
  - assert ((λ x, match x with Ok (Some st, _) => Some st | _ => None end) (syscall_deliver_signals 0 demo_sig)
      = Some demo_stores) as E by (by vm_compute).
    rewrite Hrun in E. apply (inj Some) in E. subst st. exists demo_stores, t1, f1. split_and!; [exact Hrun|exact Hf1|intros c e; exact (Hin 7 c e)|].
    apply (Hret demo_um demo_back (demo_target (syscall_entry demo_restorer))). split.
    + apply demo_sig_space.
    + by exists demo_restorer.
    + apply demo_sig_range; [by vm_compute..|]. by vm_compute.
    + apply demo_in_memory.
Defined.

Lemma timer_signal_scrambled_witness :
  ∃ st f1 s1, kernel_deliver_signals_user 0 (isr_entry 0x20 0 demo_user) demo_sig = Ok (Some (f1, st), s1) ∧
    isr_exit f1 = Some (handler_via_timer (demo_page + 256) 15 (demo_page + 864) demo_user).
Proof.
  destruct (timer_signal_scrambled 0 demo_sig (demo_target (syscall_entry demo_user)) demo_user 0x20 0 15 demo_action) as (st & f1 & s1 & Hrun & Hf1 & _).
  - apply demo_handled.
  - apply (bool_decide_unpack _). by vm_compute.
  - by vm_compute.
  - done.
  - done.
  - apply demo_sig_range; [by vm_compute..|]. by vm_compute.
  - exists st, f1, s1. split; [exact Hrun|exact Hf1].
Defined.

(** A forged frame that returns to ring 0 with every signal blocked. *)
Definition demo_forged : sigframe := Sigframe 0 0 0 0 0 0 0 0 0 0 0 0 0 (demo_page + 64) 0x08 0x202 (demo_page + 1024) 0x10 (2 ^ 64 - 1).
Definition demo_forged_um (v : Z) : Z := nth (Z.to_nat (v - (demo_page + 1024))) (words_bytes (sigframe_words demo_forged)) 0.

Lemma sigreturn_unchecked_witness :
  ∃ t1 f1, sys_sigreturn demo_forged_um demo_sig = Ok (0, set_threads (insert (current demo_sig) t1) demo_sig) ∧ x_syscall_iret (t_exec t1) = Some f1 ∧
    (∃ u1, syscall_exit 0 0 0 f1 = Some u1 ∧ rg_cs u1 = 0x08) ∧
    (let s2 := set_threads (insert (current demo_sig) (post SIGKILL t1)) demo_sig in syscall_deliver_signals 0 s2 = Ok (Some [], s2)).
Proof.
  destruct (sigreturn_unchecked demo_forged_um demo_sig (demo_target (syscall_entry demo_user)) demo_user demo_forged) as (t1 & f1 & Hrun & Hf1 & Hcs & Hk).
  - apply demo_sig_space.
  - done.
  - done.
  - done.
  - apply demo_sig_range; [by vm_compute..|]. by vm_compute.
  - apply (bool_decide_unpack _). by vm_compute.
  - by vm_compute.
  - exists t1, f1. split_and!; [exact Hrun|exact Hf1| |exact (Hk eq_refl 0 SIGKILL)]. destruct (Hcs 0 0) as (u1 & ? & ? & _). by exists u1.
Defined.

(** The boot thread of [demo_1] signals the thread it spawned. *)
Definition demo_boss : thread := match threads demo_1 !! main_thread with Some t => t | None => zero_thread end.

Lemma sys_kill_exact_witness :
  ∃ r hit s', sys_kill (u64 (-1)) 15 demo_1 = Ok (r, s') ∧ kill_result demo_1 [3] demo_boss (-1) 15 r hit ∧ signalled 15 hit demo_1 s'.
Proof.
  destruct (sys_kill_exact demo_1 [3] [] demo_boss (u64 (-1)) 15) as [H|[(_ & H & _) _]].
  - apply (sy_ok _ _ _ demo_system_1).
  - by vm_compute.
  - exact H.
  - by vm_compute in H.
Defined.

(** ** Signals without a handler *)

(** A change of one thread that neither the queue nor the files see. *)
Lemma system_upd {oth : Others} s l zs a t t' :
  system s l zs → threads s !! a = Some t → same_view t t' → same_own t t' → t_files t' = t_files t →
  system (set_threads (insert a t') s) l zs.
Proof.
  intros Hsy Ht Hvw Hown Hfs. pose proof (sy_ok _ _ _ Hsy) as [Hq Hm Hc Hi Hd].
  assert (threads_rel same_view (threads s) (<[a := t']> (threads s))) as Hv by (by apply (threads_rel_insert _ _ _ t)).
  eapply system_shrink; [exact Hsy| |done|done|done|].
  - split; [|by eapply machine_insert|done| |done].
    + by eapply (queue_view s).
    + unfold is_ready in *. cbn. rewrite lookup_insert. case_decide as E; [|done]. subst a. rewrite Ht in Hi. by destruct Hvw as (_ & _ & ->).
  - intros b u. cbn. rewrite lookup_insert_Some. intros [[<- <-]|[_ Hb]]; [by exists t|by exists u].
Qed.

(** [sig] is the next signal of the running thread [t] and ends it. *)
Record fatal (s : sched) (t : thread) (sig : Z) : Prop := Fatal {
  ft_thread : threads s !! current s = Some t;
  ft_sig : 0 < sig < 32;
  ft_waiting : waiting t sig = true;
  ft_first : ∀ i, 0 < i < sig → waiting t i = false;
  ft_action : ∃ sa, sig_actions (t_signals t) !! Z.to_nat sig = Some sa ∧
    (sig = SIGKILL ∨ sa_handler sa = SIG_DFL ∧ sig ≠ SIGCHLD ∧ sig ≠ SIGCONT) }.

(** The signal is taken off the pending set. *)
Definition taken (sig : Z) (t : thread) : thread :=
  set_signals (λ g, set_pending (Z.land (sig_pending g) (u64 (Z.lnot (Z.shiftl 1 sig)))) g) t.

Section fatal.
Context {oth : Others} {env : VfsEnv} {senv : SchedEnv} {free_local : InodeFree}.

Lemma wp_deliver_fatal sp s t sig ctx (Q : delivery → sched → Prop) :
  fatal s t sig → wp (sched_exit sp (128 + sig)) (λ _ s', Q TornDown s') (set_threads (insert (current s) (taken sig t)) s) →
  wp (deliver_signal_ctx sp (current s) ctx) Q s.
Proof.
  intros [Ht Hsig Hwt Hfst (sa & Hact & Hend)] HQ. unfold deliver_signal_ctx. wp_step. eapply wp_thr; [exact Ht|].
  set (p := Z.land _ _). assert (∀ i, 0 < i < 32 → Z.testbit p i = waiting t i) as Hbit by (intros i Hi; apply pending_bit; lia).
  rewrite (proj2 (Z.eqb_neq p 0)) by (by apply (bits_nonzero p (waiting t) sig)).
  wp_step. eapply (wp_next_signal p (waiting t) sig); [done|done|done|done|]. rewrite (proj2 (Z.eqb_neq sig 0)) by lia.
  wp_step. eapply wp_upd; [exact Ht|]. wp_step. eapply wp_load; [lia|exact Hact|]. change (set_threads _ s) with (set_threads (insert (current s) (taken sig t)) s).
  destruct (Z.eqb_spec sig SIGKILL) as [->|Hnk]; [wp_step; eapply wp_mono; [exact HQ|]; intros [] s' HQ'; by wp_step|].
  destruct Hend as [?|(Hd & H1 & H2)]; [done|]. rewrite Hd, (proj2 (Z.eqb_neq _ _) H1), (proj2 (Z.eqb_neq _ _) H2). cbn [negb andb].
  change (SIG_DFL =? SIG_DFL) with true. cbn iota. wp_step. eapply wp_mono; [exact HQ|]. intros [] s' HQ'. by wp_step.
Qed.

(** C16: a process whose next pending signal is SIGKILL, or one it has no handler
    for and that is not ignored by default, does not return from its system
    call: it becomes a zombie with status 128 plus the signal, its descriptors
    are closed with exactly their references dropped, and the boot thread runs;
    once the zombie is reaped exactly the frames of its kernel stack and its
    address space are free again.  The next signal is the lowest pending one that
    is not blocked: a blocked SIGKILL waits like any other.  The boot thread and
    init are excluded, and so is a thread that a pipe records as its reader. *)
Theorem fatal_signal_ends sp s t sig u l1 l2 zs :
  fatal s t sig → x_syscall_iret (t_exec t) = Some (syscall_entry u) →
  system s (l1 ++ current s :: l2) zs → current s ≠ main_thread → current s ≠ g_init_thread s → waiters (sc_vfs s) (main_thread :: l1 ++ l2) →
  ∃ s', syscall_deliver_signals sp s = Ok (None, s') ∧
    exited (128 + sig) (set_threads (insert (current s) (taken sig t)) s) l1 l2 zs s' ∧
    ∃ x s'', threads s' !! current s = Some x ∧ sched_reap_zombie (current s) s' = Ok (tt, s'') ∧ gone (l1 ++ l2) [] (current s) zs x s' s''.
Proof.
  intros Hf Hfr Hsy Hnm Hni Hw. pose proof (ft_thread _ _ _ Hf) as Ht. set (s1 := set_threads _ s).
  assert (system s1 (l1 ++ current s1 :: l2) zs) as Hsy1 by (by apply (system_upd s _ _ _ t)).
  assert (wp (syscall_deliver_signals sp) (λ o s', o = None ∧ exited (128 + sig) s1 l1 l2 zs s') s) as Hwp.
  { unfold syscall_deliver_signals, sched_current. wp_step. wp_step. rewrite (proj2 (Z.eqb_neq _ _)) by apply (so_current _ _ _ (sy_ok _ _ _ Hsy)).
    wp_step. eapply wp_thr; [exact Ht|]. rewrite Hfr. cbn [frame_ctx syscall_entry]. wp_step. eapply wp_deliver_fatal; [exact Hf|]. fold s1.
    eapply wp_exited; [exact Hsy1|done|done|exact Hw|]. intros s' Hex. by wp_step. }
  apply wp_ok in Hwp as (o & s' & Hrun & -> & Hex). exists s'. split_and!; [done|done|].
  pose proof (ex_status _ _ _ _ _ _ Hex) as Hst. change (current s1) with (current s) in Hst.
  destruct (threads s' !! current s) as [x|] eqn:Hx; [|done].
  assert (wp (sched_reap_zombie (current s)) (λ _ s'', gone (l1 ++ l2) [] (current s) zs x s' s'') s') as Hwp.
  { eapply (wp_sched_reap_zombie s' (l1 ++ l2) [] (current s) zs); [exact (ex_system _ _ _ _ _ _ Hex)|exact Hx|].
    intros s'' H1 H2 _ H3. by split. }
  apply wp_ok in Hwp as ([] & s'' & ? & ?). by exists x, s''.
Qed.
End fatal.

#[local] Existing Instance no_others.

(** Thread 3 of [demo_2] has SIGKILL pending when its call returns. *)
Definition demo_victim : thread :=
  let t := match threads demo_2 !! 3 with Some t => t | None => zero_thread end in
  set_frame (syscall_entry demo_user) (set_signals (λ g, set_pending (2 ^ 9) g) t).
Definition demo_killed : sched := set_threads (insert 3 demo_victim) demo_2.

Lemma demo_killed_system : system demo_killed [3] [].
Proof.
  destruct (threads demo_2 !! 3) as [t|] eqn:Ht; [|by vm_compute in Ht].
  assert (demo_victim = set_frame (syscall_entry demo_user) (set_signals (λ g, set_pending (2 ^ 9) g) t)) as E by (unfold demo_victim; by rewrite Ht).
  unfold demo_killed. rewrite E. refine (system_upd demo_2 [3] [] 3 t _ _ _ _ _ _).
  - exact demo_system_2.
  - exact Ht.
  - split; [done|]. by split.
  - by split.
  - done.
Qed.

Lemma fatal_signal_ends_witness :
  ∃ s', syscall_deliver_signals 0x5000 demo_killed = Ok (None, s') ∧
    exited (128 + 9) (set_threads (insert (current demo_killed) (taken 9 demo_victim)) demo_killed) [] [] [] s' ∧
    ∃ x s'', threads s' !! current demo_killed = Some x ∧ sched_reap_zombie (current demo_killed) s' = Ok (tt, s'') ∧ gone [] [] (current demo_killed) [] x s' s''.
Proof.
  assert (current demo_killed = 3) as Ec by (by vm_compute). assert (threads demo_killed !! 3 = Some demo_victim) as Hv by (by vm_compute).
  assert (waiting demo_victim 9 = true) as Hwt by (by vm_compute).
  apply (fatal_signal_ends 0x5000 demo_killed demo_victim 9 demo_user [] [] []).
  - split; [rewrite Ec; exact Hv|lia|exact Hwt| |].
    + intros i Hi. assert (Forall (λ i, waiting demo_victim i = false) (seqZ 1 8)) as Hall by (apply (bool_decide_unpack _); by vm_compute).
      rewrite Forall_forall in Hall. apply Hall, elem_of_seqZ. lia.
    + exists zero_sigaction. split; [by vm_compute|by left].
  - by vm_compute.
  - rewrite Ec. apply demo_killed_system.
  - by rewrite Ec.
  - rewrite Ec. by vm_compute.
  - intros p q Hq. left. assert (map_Forall (λ _ q, p_wait_reader q = 0) (vf_pipes (sc_vfs demo_killed))) as Hall by (apply (bool_decide_unpack _); by vm_compute).
    by apply (Hall p).
Defined.
