(* ===== verification/Ipc.v ===== *)
(** * Ipc: message channels and shared memory (kernel/syscall.c)

    The tables [g_ipc] and [g_shm] over the state of the scheduler.  A thread
    names a channel by an index into its own table [t->ipc]. *)

From S2P Require Import Prelude BootMap Pmm Mmu Reclaim CString Security VfsPath Vfs Sched SchedQueue Fds SchedSpawn SchedRun Syscall SysUser SysFd SysPipe Signal.

#[local] Arguments for_up : simpl never.

Definition IPC_CHANS : nat := 16.
Definition IPC_MSG_MAX : Z := 32.
Definition IPC_MSG_LEN : Z := 256.
Definition SHM_MAX : nat := 16.
Definition SHM_BASE : Z := 0x50000000000.
Definition SHM_SLOT : Z := 0x200000.

(** [struct ipc_msg], [struct ipc_chan], [struct shm_obj] *)
Record ipc_msg := IpcMsg { im_data : list Z; im_len : Z }.
Record ipc_chan := IpcChan {
  ic_id : Z; ic_used : bool; ic_msgs : list ipc_msg; ic_count : Z; ic_head : Z; ic_wait_recv : Z }.
Record shm_obj := ShmObj { sh_id : Z; sh_used : bool; sh_phys : Z; sh_pages : Z }.

(** The statics and the rest of the machine. *)
Record ipc := Ipc {
  g_ipc : list ipc_chan; g_ipc_next_id : Z; g_shm : list shm_obj; g_shm_next_id : Z; ip_sched : sched }.

Definition set_chan (c : nat) (ch : ipc_chan) (s : ipc) : ipc :=
  Ipc (<[c := ch]> (g_ipc s)) (g_ipc_next_id s) (g_shm s) (g_shm_next_id s) (ip_sched s).
Definition set_shm (i : nat) (o : shm_obj) (s : ipc) : ipc :=
  Ipc (g_ipc s) (g_ipc_next_id s) (<[i := o]> (g_shm s)) (g_shm_next_id s) (ip_sched s).
Definition put_sched (x : sched) (s : ipc) : ipc := Ipc (g_ipc s) (g_ipc_next_id s) (g_shm s) (g_shm_next_id s) x.

Definition on_sched {A} (m : M sched A) : M ipc A := zoom ip_sched put_sched m.

(** [++x] of an [int]: undefined when it overflows. *)
Definition int_succ {St} (x : Z) : M St Z := if x =? 2 ^ 31 - 1 then fault else mret (x + 1).

(** ** Channels *)

(** The handle table of a thread. *)
Definition set_handle (i : nat) (c : Z) (t : thread) : thread :=
  set_signals (λ g, Signals (sig_pending g) (sig_mask g) (sig_actions g) (<[i := c]> (sig_ipc g))) t.

Definition sys_ipc_create : M ipc Z :=
  t ← on_sched sched_current;
  if t =? 0 then mret (neg 1)
  else
    c ← for_ret IPC_CHANS 0 (λ i, l ← gets g_ipc; ch ← load l i; mret (if negb (ic_used ch) then Some i else None));
    match c with
    | None => mret (neg 1)
    | Some c =>
      id ← gets g_ipc_next_id;
      id ← int_succ id;
      modify (λ s, Ipc (g_ipc s) id (g_shm s) (g_shm_next_id s) (ip_sched s)) ;;
      l ← gets g_ipc;
      ch ← load l c;
      modify (set_chan (Z.to_nat c) (IpcChan id true (ic_msgs ch) 0 0 0)) ;;
      x ← on_sched (thr t);
      h ← for_ret IPC_MAX 0 (λ i, c ← load (sig_ipc (t_signals x)) i; mret (if c <? 0 then Some i else None));
      match h with
      | None => modify (set_chan (Z.to_nat c) (IpcChan id false (ic_msgs ch) 0 0 0)) ;; mret (neg 1)
      | Some h => on_sched (upd t (set_handle (Z.to_nat h) c)) ;; mret (u64 h)
      end
    end.

(** The channel of a handle of the running thread, or none. *)
Definition chan_of (handle : Z) : M ipc (option Z) :=
  t ← on_sched sched_current;
  if (t =? 0) || (handle <? 0) || (Z.of_nat IPC_MAX <=? handle) then mret None
  else
    x ← on_sched (thr t);
    c ← load (sig_ipc (t_signals x)) handle;
    if (c <? 0) || (Z.of_nat IPC_CHANS <=? c) then mret None
    else
      l ← gets g_ipc;
      ch ← load l c;
      mret (if ic_used ch then Some c else None).

(** The message goes in at the tail; [bs] is the kernel's copy. *)
Definition enqueue (c : Z) (bs : list Z) : M ipc unit :=
  l ← gets g_ipc;
  ch ← load l c;
  let tail := (ic_head ch + ic_count ch) mod IPC_MSG_MAX in
  m ← load (ic_msgs ch) tail;
  d ← store_bytes (im_data m) 0 bs;
  modify (set_chan (Z.to_nat c)
    (IpcChan (ic_id ch) (ic_used ch) (<[Z.to_nat tail := IpcMsg d (strlen bs)]> (ic_msgs ch)) (ic_count ch + 1) (ic_head ch) (ic_wait_recv ch))).

Definition set_wait (w : Z) (ch : ipc_chan) : ipc_chan := IpcChan (ic_id ch) (ic_used ch) (ic_msgs ch) (ic_count ch) (ic_head ch) w.

Definition wake_recv (c : Z) : M ipc unit :=
  l ← gets g_ipc;
  ch ← load l c;
  if negb (ic_wait_recv ch =? 0) then
    on_sched (sched_wake (ic_wait_recv ch)) ;;
    modify (set_chan (Z.to_nat c) (set_wait 0 ch))
  else mret tt.

Definition sys_ipc_send (um : Z → Z) (a1 ubuf len : Z) : M ipc Z :=
  o ← chan_of (int a1);
  match o with
  | None => mret (neg 1)
  | Some c =>
    l ← gets g_ipc;
    ch ← load l c;
    let n := if IPC_MSG_LEN <? len then IPC_MSG_LEN else len in
    if IPC_MSG_MAX <=? ic_count ch then mret (neg 1)
    else
      tmp ← (if n =? 0 then mret (Some []) else on_sched (copy_from_user um ubuf n));
      match tmp with
      | None => mret (neg EFAULT)
      | Some tmp => enqueue c tmp ;; wake_recv c ;; mret n
      end
  end.

Section recv.
Context {env : VfsEnv} {senv : SchedEnv}.

(** [None] when the thread was suspended; it starts again from the test of the
    loop. *)
Definition sys_ipc_recv (sp a1 ubuf max : Z) : M ipc (option (Z * stores)) :=
  o ← chan_of (int a1);
  match o with
  | None => mret (Some (neg 1, []))
  | Some c =>
    l ← gets g_ipc;
    ch ← load l c;
    if 0 <? ic_count ch then
      m ← load (ic_msgs ch) (ic_head ch);
      let n := if im_len m <? max then im_len m else max in
      '(r, st) ← on_sched (copy_to_user ubuf (take (Z.to_nat n) (im_data m)));
      if r <? 0 then mret (Some (u64 r, st))
      else
        modify (set_chan (Z.to_nat c)
          (IpcChan (ic_id ch) (ic_used ch) (ic_msgs ch) (ic_count ch - 1) ((ic_head ch + 1) mod IPC_MSG_MAX) (ic_wait_recv ch))) ;;
        mret (Some (n, st))
    else
      t ← on_sched sched_current;
      modify (set_chan (Z.to_nat c) (set_wait t ch)) ;;
      on_sched (upd t (set_state THREAD_BLOCKED) ;; sched_suspend sp) ;;
      mret None
  end.
End recv.

(** ** Shared memory *)

Definition sys_shm_create (bytes : Z) : M ipc Z :=
  if bytes =? 0 then mret (neg 1)
  else
    let pages := u64 (bytes + PAGE_SIZE - 1) / PAGE_SIZE in
    s ← for_ret SHM_MAX 0 (λ i, l ← gets g_shm; o ← load l i; mret (if negb (sh_used o) then Some i else None));
    match s with
    | None => mret (neg 1)
    | Some s =>
      phys ← on_sched (on_pmm (pmm_alloc_frames pages));
      if phys =? 0 then mret (neg 1)
      else
        id ← gets g_shm_next_id;
        id ← int_succ id;
        modify (λ s, Ipc (g_ipc s) (g_ipc_next_id s) (g_shm s) id (ip_sched s)) ;;
        modify (set_shm (Z.to_nat s) (ShmObj id true phys pages)) ;;
        mret (u64 id)
    end.

Definition sys_shm_attach (a1 : Z) : M ipc Z :=
  let id := int a1 in
  t ← on_sched sched_current;
  if t =? 0 then mret (neg 1)
  else
    s ← for_ret SHM_MAX 0 (λ i, l ← gets g_shm; o ← load l i; mret (if sh_used o && (sh_id o =? id) then Some i else None));
    match s with
    | None => mret (neg 1)
    | Some s =>
      let va := u64 (SHM_BASE + u64 (id - 1) * SHM_SLOT) in
      l ← gets g_shm;
      o ← load l s;
      x ← on_sched (thr t);
      r ← for_ret (Z.to_nat (sh_pages o)) 0 (λ p,
            r ← on_sched (on_mmu (vmm_map_page_in (x_mmu (t_exec x)) (u64 (va + p * PAGE_SIZE)) (u64 (sh_phys o + p * PAGE_SIZE)) (Z.lor MMU_USER MMU_WRITE)));
            mret (if r <? 0 then Some tt else None));
      match r with Some _ => mret (neg 1) | None => mret va end
    end.

(** ** A channel as a queue *)

#[global] Instance ipc_msg_inhabited : Inhabited ipc_msg := populate (IpcMsg [] 0).

Definition text (m : ipc_msg) : list Z := take (Z.to_nat (im_len m)) (im_data m).
Definition msg_ok (m : ipc_msg) : Prop := strlen (im_data m) = IPC_MSG_LEN ∧ 0 ≤ im_len m ≤ IPC_MSG_LEN.

Record chan_ok (ch : ipc_chan) : Prop := ChanOk {
  co_len : Z.of_nat (length (ic_msgs ch)) = IPC_MSG_MAX;
  co_msgs : Forall msg_ok (ic_msgs ch);
  co_count : 0 ≤ ic_count ch ≤ IPC_MSG_MAX;
  co_head : 0 ≤ ic_head ch < IPC_MSG_MAX }.

(** Slot [i] of the ring counted from the head. *)
Definition slot (ch : ipc_chan) (i : Z) : nat := Z.to_nat ((ic_head ch + i) mod IPC_MSG_MAX).

(** The messages that wait in the channel, oldest first. *)
Definition queued (ch : ipc_chan) : list (list Z) := (λ i, text (ic_msgs ch !!! slot ch i)) <$> seqZ 0 (ic_count ch).

Lemma slot_lt ch i : chan_ok ch → (slot ch i < length (ic_msgs ch))%nat.
Proof. intros [Hl _ _ _]. unfold slot. pose proof (Z.mod_pos_bound (ic_head ch + i) IPC_MSG_MAX). unfold IPC_MSG_MAX in *. lia. Qed.

Lemma slot_msg ch i : chan_ok ch → ic_msgs ch !! slot ch i = Some (ic_msgs ch !!! slot ch i) ∧ msg_ok (ic_msgs ch !!! slot ch i).
Proof.
  intros Hok. destruct (lookup_lt_is_Some_2 _ _ (slot_lt ch i Hok)) as [m Hm]. rewrite (list_lookup_total_correct _ _ _ Hm). split; [done|].
  pose proof (co_msgs _ Hok) as Hall. rewrite Forall_lookup in Hall. by eapply Hall.
Qed.

Lemma slots_differ ch i j : 0 ≤ ic_head ch → 0 ≤ i < j → j < IPC_MSG_MAX → slot ch i ≠ slot ch j.
Proof. intros Hh Hi Hj. unfold slot, IPC_MSG_MAX in *. intros E. Z.to_euclidean_division_equations. lia. Qed.

Lemma queued_length ch : chan_ok ch → Z.of_nat (length (queued ch)) = ic_count ch.
Proof. intros [_ _ Hc _]. unfold queued. rewrite length_fmap, length_seqZ. lia. Qed.

(** The channel after a message [m] came in. *)
Definition pushed (m : ipc_msg) (ch : ipc_chan) : ipc_chan :=
  IpcChan (ic_id ch) (ic_used ch) (<[slot ch (ic_count ch) := m]> (ic_msgs ch)) (ic_count ch + 1) (ic_head ch) (ic_wait_recv ch).

Lemma pushed_ok m ch : chan_ok ch → ic_count ch < IPC_MSG_MAX → msg_ok m → chan_ok (pushed m ch).
Proof.
  intros [Hl Hm Hc Hh] Hlt Hmo. split; cbn; [by rewrite length_insert|by apply Forall_insert|unfold IPC_MSG_MAX in *; lia|done].
Qed.

Lemma pushed_queued m ch : chan_ok ch → ic_count ch < IPC_MSG_MAX → queued (pushed m ch) = queued ch ++ [text m].
Proof.
  intros Hok Hlt. pose proof (co_count _ Hok) as Hc. unfold queued. cbn [ic_count pushed]. rewrite seqZ_app, fmap_app by lia. f_equal.
  - apply list_fmap_ext. intros k i [-> Hk]%lookup_seqZ. cbn [ic_msgs pushed]. f_equal. change (slot (pushed m ch) (0 + Z.of_nat k)) with (slot ch (0 + Z.of_nat k)).
    apply list_lookup_total_insert_ne. apply not_eq_sym, slots_differ; [apply Hok|lia|done].
  - assert (seqZ (0 + ic_count ch) 1 = [ic_count ch]) as -> by (unfold seqZ; cbn; f_equal; lia). cbn [fmap list_fmap ic_msgs pushed]. do 2 f_equal.
    change (slot (pushed m ch) (ic_count ch)) with (slot ch (ic_count ch)). apply list_lookup_total_insert_eq. by apply slot_lt.
Qed.

(** The channel after its oldest message was taken. *)
Definition popped (ch : ipc_chan) : ipc_chan :=
  IpcChan (ic_id ch) (ic_used ch) (ic_msgs ch) (ic_count ch - 1) ((ic_head ch + 1) mod IPC_MSG_MAX) (ic_wait_recv ch).

Lemma popped_ok ch : chan_ok ch → 0 < ic_count ch → chan_ok (popped ch).
Proof.
  intros [Hl Hm Hc Hh] Hlt. split; cbn; [done|done|lia|]. apply Z.mod_pos_bound. done.
Qed.

Lemma popped_queued ch : chan_ok ch → 0 < ic_count ch → queued ch = text (ic_msgs ch !!! slot ch 0) :: queued (popped ch).
Proof.
  intros Hok Hlt. unfold queued. cbn [ic_count popped]. rewrite (seqZ_cons 0 (ic_count ch)) by lia. cbn [fmap list_fmap]. f_equal.
  change (Z.succ 0) with (0 + 1). change (Z.pred (ic_count ch)) with (ic_count ch - 1) || replace (Z.pred (ic_count ch)) with (ic_count ch - 1) by lia.
  apply list_eq. intros k. rewrite !list_lookup_fmap. destruct (decide (Z.of_nat k < ic_count ch - 1)).
  - rewrite !lookup_seqZ_lt by lia. cbn. do 3 f_equal. unfold slot. cbn [ic_head popped]. f_equal. rewrite Zplus_mod_idemp_l. f_equal. lia.
  - by rewrite !lookup_seqZ_ge by lia.
Qed.

(** ** Rules *)

(** Handle [h] of the running thread [t] names channel [ch] in slot [c]. *)
Record at_chan (s : ipc) (t : thread) (h c : Z) (ch : ipc_chan) : Prop := AtChan {
  ac_user : user_space (ip_sched s) t;
  ac_handle : 0 ≤ h < 16 ∧ sig_ipc (t_signals t) !! Z.to_nat h = Some c;
  ac_slot : 0 ≤ c < 16 ∧ g_ipc s !! Z.to_nat c = Some ch;
  ac_used : ic_used ch = true;
  ac_ok : chan_ok ch;
  ac_waiter : ic_wait_recv ch = 0 ∨ is_Some (threads (ip_sched s) !! ic_wait_recv ch) }.

Lemma put_sched_id s : put_sched (ip_sched s) s = s.
Proof. by destruct s. Qed.

Section rules.
Context (s : ipc) (t : thread) (h c : Z) (ch : ipc_chan) (Hat : at_chan s t h c ch).

Lemma wp_chan_of (Q : option Z → ipc → Prop) : Q (Some c) s → wp (chan_of h) Q s.
Proof.
  intros HQ. destruct Hat as [Hus [Hh Hhc] [Hc Hch] Hu _ _]. unfold chan_of, sched_current. wp_step. apply wp_zoom. wp_step. rewrite put_sched_id.
  rewrite (proj2 (Z.eqb_neq _ _)) by apply Hus. rewrite (proj2 (Z.ltb_ge h 0)) by lia. rewrite (proj2 (Z.leb_gt _ h)) by (change (Z.of_nat IPC_MAX) with 16; lia).
  cbn [orb]. wp_step. apply wp_zoom. eapply wp_thr; [apply Hus|]. rewrite put_sched_id. wp_step. eapply wp_load; [lia|exact Hhc|].
  rewrite (proj2 (Z.ltb_ge c 0)) by lia. rewrite (proj2 (Z.leb_gt _ c)) by (change (Z.of_nat IPC_CHANS) with 16; lia). cbn [orb].
  wp_step. wp_step. wp_step. eapply wp_load; [lia|exact Hch|]. rewrite Hu. by wp_step.
Qed.

Lemma wp_get_chan (Q : ipc_chan → ipc → Prop) : Q ch s → wp (l ← gets g_ipc; load l c) Q s.
Proof. intros HQ. wp_step. wp_step. eapply wp_load; [apply (ac_slot _ _ _ _ _ Hat)|apply (ac_slot _ _ _ _ _ Hat)|done]. Qed.

Lemma wp_ipc_enqueue bs (Q : unit → ipc → Prop) :
  ic_count ch < IPC_MSG_MAX → strlen bs ≤ IPC_MSG_LEN →
  (∀ m, msg_ok m → text m = bs → Q tt (set_chan (Z.to_nat c) (pushed m ch) s)) → wp (enqueue c bs) Q s.
Proof.
  intros Hlt Hbs HQ. pose proof (ac_ok _ _ _ _ _ Hat) as Hok. pose proof (ac_slot _ _ _ _ _ Hat) as [Hc Hch].
  unfold enqueue. wp_step. wp_step. wp_step. eapply wp_load; [lia|exact Hch|].
  destruct (slot_msg ch (ic_count ch) Hok) as [Hm [Hd _]]. set (m := ic_msgs ch !!! slot ch (ic_count ch)) in *.
  pose proof (Z.mod_pos_bound (ic_head ch + ic_count ch) IPC_MSG_MAX ltac:(done)) as Hb.
  wp_step. eapply wp_load; [lia|exact Hm|]. wp_step. rewrite <-(take_drop (length bs) (im_data m)). change 0 with (strlen (@nil Z)) at 1.
  apply (wp_store_bytes [] (take (length bs) (im_data m)) bs); [rewrite length_take; unfold strlen in *; lia|].
  wp_step. change ([] ++ bs ++ drop (length bs) (im_data m)) with (bs ++ drop (length bs) (im_data m)).
  apply (HQ (IpcMsg (bs ++ drop (length bs) (im_data m)) (strlen bs))).
  - split; cbn; [unfold strlen in *; rewrite length_app, length_drop; lia|unfold strlen in *; lia].
  - unfold text. cbn. unfold strlen. by rewrite Nat2Z.id, take_app_length.
Qed.
End rules.

Lemma wp_wake_recv s c ch (Q : unit → ipc → Prop) :
  0 ≤ c → g_ipc s !! Z.to_nat c = Some ch → ic_wait_recv ch = 0 ∨ is_Some (threads (ip_sched s) !! ic_wait_recv ch) →
  (∀ x, quiet (ip_sched s) x → (ic_wait_recv ch ≠ 0 → awake x (ic_wait_recv ch)) → Q tt (put_sched x (set_chan (Z.to_nat c) (set_wait 0 ch) s))) →
  wp (wake_recv c) Q s.
Proof.
  intros Hc Hch Hw HQ. unfold wake_recv. wp_step. wp_step. wp_step. eapply wp_load; [lia|exact Hch|].
  destruct (Z.eqb_spec (ic_wait_recv ch) 0) as [E|E]; cbn [negb].
  - wp_step. assert (put_sched (ip_sched s) (set_chan (Z.to_nat c) (set_wait 0 ch) s) = s) as Es.
    { unfold put_sched, set_chan, set_wait. cbn. rewrite list_insert_id; [by destruct s|]. rewrite Hch. f_equal. destruct ch. cbn in *. by rewrite E. }
    specialize (HQ (ip_sched s) (quiet_refl _) ltac:(done)). by rewrite Es in HQ.
  - destruct Hw as [?|[t Ht]]; [done|]. wp_step. apply wp_zoom. unfold sched_wake. rewrite (proj2 (Z.eqb_neq _ _)) by done. wp_step. eapply wp_thr; [exact Ht|].
    assert (∀ x, quiet (ip_sched s) x → awake x (ic_wait_recv ch) → wp (modify (set_chan (Z.to_nat c) (set_wait 0 ch))) Q (put_sched x s)) as Hgo.
    { intros x Hq Ha. wp_step. apply (HQ x Hq). done. }
    destruct (bool_decide (t_state t = THREAD_BLOCKED)) eqn:Hb.
    + apply bool_decide_eq_true in Hb. eapply wp_upd; [exact Ht|]. apply Hgo; [by eapply quiet_upd; [exact Ht|apply calm_wake]|].
      intros u. cbn. rewrite lookup_insert_eq. by intros [= <-].
    + apply bool_decide_eq_false in Hb. wp_step. apply Hgo; [apply quiet_refl|]. intros u Hu. rewrite Ht in Hu. by injection Hu as <-.
Qed.

(** ** Theorems *)

Definition sent (c : Z) (ch : ipc_chan) (bs : list Z) (s s' : ipc) : Prop :=
  ∃ ch', g_ipc s' = <[Z.to_nat c := ch']> (g_ipc s) ∧ chan_ok ch' ∧ queued ch' = queued ch ++ [bs] ∧
    quiet (ip_sched s) (ip_sched s') ∧ (ic_wait_recv ch ≠ 0 → awake (ip_sched s') (ic_wait_recv ch)).

Definition received (c : Z) (ch : ipc_chan) (rest : list (list Z)) (s s' : ipc) : Prop :=
  ∃ ch', g_ipc s' = <[Z.to_nat c := ch']> (g_ipc s) ∧ chan_ok ch' ∧ queued ch' = rest ∧ ip_sched s' = ip_sched s.

Section theorems.
Context {env : VfsEnv} {senv : SchedEnv}.
Context (s : ipc) (t : thread) (a1 c : Z) (ch : ipc_chan) (Hat : at_chan s t (int a1) c ch).
Context (buf len : Z) (Hbuf : 0 ≤ buf < 2 ^ 64) (Hlen : 0 ≤ len < 2 ^ 64).

Lemma wp_send um (Q : Z → ipc → Prop) :
  let n := Z.min len IPC_MSG_LEN in
  (Z.of_nat (length (queued ch)) = IPC_MSG_MAX → Q (neg 1) s) →
  (Z.of_nat (length (queued ch)) < IPC_MSG_MAX → ¬ user_range (ip_sched s) t false buf n → Q (neg EFAULT) s) →
  (Z.of_nat (length (queued ch)) < IPC_MSG_MAX → user_range (ip_sched s) t false buf n → ∀ s', sent c ch (user_bytes um buf n) s s' → Q n s') →
  wp (sys_ipc_send um a1 buf len) Q s.
Proof.
  intros n Hfull Hbad Hgood. pose proof (ac_ok _ _ _ _ _ Hat) as Hok. rewrite (queued_length ch Hok) in *. pose proof (ac_slot _ _ _ _ _ Hat) as [Hc Hch].
  unfold sys_ipc_send. wp_step. eapply wp_chan_of; [exact Hat|]. wp_step. wp_step. wp_step. eapply wp_load; [lia|exact Hch|].
  assert ((if IPC_MSG_LEN <? len then IPC_MSG_LEN else len) = n) as -> by (unfold n; destruct (Z.ltb_spec IPC_MSG_LEN len); lia).
  destruct (Z.leb_spec IPC_MSG_MAX (ic_count ch)) as [Hf|Hf]; [wp_step; apply Hfull; pose proof (co_count _ Hok); lia|].
  assert (0 ≤ n ≤ IPC_MSG_LEN) as Hn by (unfold n, IPC_MSG_LEN; lia).
  assert (user_range (ip_sched s) t false buf n → wp (enqueue c (user_bytes um buf n) ;; wake_recv c ;; mret n) Q s) as Hgo.
  { intros Hr. wp_step. eapply wp_ipc_enqueue; [exact Hat|done|unfold strlen; rewrite user_bytes_length; lia|]. intros m Hm Htx.
    wp_step. eapply (wp_wake_recv _ _ (pushed m ch)); [lia| |apply (ac_waiter _ _ _ _ _ Hat)|].
    { cbn. apply list_lookup_insert_eq. by eapply lookup_lt_Some. }
    intros x Hx Hw. wp_step. apply (Hgood Hf Hr). exists (set_wait 0 (pushed m ch)). cbn. rewrite list_insert_insert_eq. split_and!; [done| | |done|done].
    - destruct (pushed_ok m ch Hok Hf Hm) as [A B C D]. by split.
    - rewrite <-Htx. by apply pushed_queued. }
  destruct (Z.eqb_spec n 0) as [E|E].
  - wp_step. assert (user_bytes um buf n = []) as Eb by (rewrite E; done). rewrite Eb in Hgo. apply Hgo. by left.
  - wp_step. apply wp_zoom. unfold copy_from_user. rewrite (proj2 (Z.eqb_neq n 0)) by done. wp_step.
    apply (wp_user_range (ip_sched s) t); [apply (ac_user _ _ _ _ _ Hat)|done|unfold IPC_MSG_LEN in *; lia|]. intros b Hb. wp_step. rewrite put_sched_id. destruct b.
    + apply Hgo, Hb. done.
    + wp_step. apply (Hbad Hf). intros Hr. by apply Hb in Hr.
Qed.

Lemma wp_recv sp m rest (Q : option (Z * stores) → ipc → Prop) :
  let n := Z.min (strlen m) len in
  queued ch = m :: rest →
  (¬ user_range (ip_sched s) t true buf n → Q (Some (neg EFAULT, [])) s) →
  (user_range (ip_sched s) t true buf n → ∀ s', received c ch rest s s' →
     Q (Some (n, if n =? 0 then [] else [(buf, take (Z.to_nat n) m)])) s') →
  wp (sys_ipc_recv sp a1 buf len) Q s.
Proof.
  intros n Hqd Hbad Hgood. pose proof (ac_ok _ _ _ _ _ Hat) as Hok. pose proof (ac_slot _ _ _ _ _ Hat) as [Hc Hch].
  assert (0 < ic_count ch) as Hpos. { pose proof (queued_length ch Hok) as Hl. rewrite Hqd in Hl. simpl in Hl. lia. }
  pose proof (popped_queued ch Hok Hpos) as Hpq. rewrite Hqd in Hpq. injection Hpq as Hm Hrest.
  destruct (slot_msg ch 0 Hok) as [Hs [Hd Hl]]. assert (slot ch 0 = Z.to_nat (ic_head ch)) as Es.
  { unfold slot. rewrite Z.add_0_r, Z.mod_small by apply Hok. done. }
  set (x := ic_msgs ch !!! slot ch 0) in *. rewrite Es in Hs. assert (strlen m = im_len x) as Elen.
  { rewrite Hm. unfold text, strlen in *. rewrite length_take. lia. }
  unfold sys_ipc_recv. wp_step. eapply wp_chan_of; [exact Hat|]. wp_step. wp_step. wp_step. eapply wp_load; [lia|exact Hch|].
  rewrite (proj2 (Z.ltb_lt _ _)) by done. wp_step. eapply wp_load; [apply Hok|exact Hs|].
  assert ((if im_len x <? len then im_len x else len) = n) as -> by (unfold n; rewrite Elen; destruct (Z.ltb_spec (im_len x) len); lia).
  assert (take (Z.to_nat n) (im_data x) = take (Z.to_nat n) m) as ->.
  { rewrite Hm. unfold text. rewrite take_take. f_equal. unfold n in *. lia. }
  assert (strlen (take (Z.to_nat n) m) = n) as En by (unfold n, strlen in *; rewrite length_take; lia).
  wp_step. apply wp_zoom. unfold copy_to_user. rewrite En. fold (popped ch).
  assert (∀ st, user_range (ip_sched s) t true buf n → st = (if n =? 0 then [] else [(buf, take (Z.to_nat n) m)]) →
    wp (modify (set_chan (Z.to_nat c) (popped ch)) ;; mret (Some (n, st))) Q s) as Hgo.
  { intros st Hr ->. wp_step. wp_step. wp_step. apply (Hgood Hr). exists (popped ch). split_and!; [done|by apply popped_ok|by symmetry|done]. }
  destruct (Z.eqb_spec n 0) as [E|E].
  - wp_step. rewrite put_sched_id. apply Hgo; [by left|done].
  - wp_step. apply (wp_user_range (ip_sched s) t); [apply (ac_user _ _ _ _ _ Hat)|done|unfold n, IPC_MSG_LEN in *; lia|].
    intros b Hb. wp_step. rewrite put_sched_id. destruct b.
    + apply Hgo; [by apply Hb|done].
    + change (- EFAULT <? 0) with true. cbn iota. wp_step. apply Hbad. intros Hr. by apply Hb in Hr.
Qed.

(** C18: a channel is a queue of at most 32 messages of at most 256 bytes: a send
    appends the first 256 bytes of the message, or returns -1 when the queue is
    full, or EFAULT when the bytes are not readable by the caller; a receive
    returns the oldest message, cut to the size of the buffer, and takes it off
    the queue, or returns EFAULT and leaves it there when the buffer is not
    writable.  A send wakes the receiver that waits; the other channels and the
    threads do not change. *)
Theorem ipc_channel_queue um sp :
  (∃ r s', sys_ipc_send um a1 buf len s = Ok (r, s') ∧
     let n := Z.min len IPC_MSG_LEN in
     (Z.of_nat (length (queued ch)) = IPC_MSG_MAX ∧ r = neg 1 ∧ s' = s ∨
      Z.of_nat (length (queued ch)) < IPC_MSG_MAX ∧ ¬ user_range (ip_sched s) t false buf n ∧ r = neg EFAULT ∧ s' = s ∨
      Z.of_nat (length (queued ch)) < IPC_MSG_MAX ∧ user_range (ip_sched s) t false buf n ∧ r = n ∧ sent c ch (user_bytes um buf n) s s')) ∧
  ∀ m rest, queued ch = m :: rest →
    ∃ r s', sys_ipc_recv sp a1 buf len s = Ok (Some r, s') ∧
      let n := Z.min (strlen m) len in
      (¬ user_range (ip_sched s) t true buf n ∧ r = (neg EFAULT, []) ∧ s' = s ∨
       user_range (ip_sched s) t true buf n ∧ r = (n, if n =? 0 then [] else [(buf, take (Z.to_nat n) m)]) ∧ received c ch rest s s').
Proof.
  split.
  - apply wp_ok, wp_send; intros; naive_solver.
  - intros m rest Hqd. set (n := Z.min (strlen m) len).
    assert (wp (sys_ipc_recv sp a1 buf len) (λ o s', ∃ r, o = Some r ∧
      (¬ user_range (ip_sched s) t true buf n ∧ r = (neg EFAULT, []) ∧ s' = s ∨
       user_range (ip_sched s) t true buf n ∧ r = (n, if n =? 0 then [] else [(buf, take (Z.to_nat n) m)]) ∧ received c ch rest s s')) s) as Hwp.
    { eapply wp_recv; [exact Hqd|intros Hr|intros Hr s' Hs']; eexists; (split; [done|]); [left|right]; by split_and!. }
    apply wp_ok in Hwp as (o & s' & Hrun & r & -> & Hr). by exists r, s'.
Qed.
End theorems.

(** ** New channels *)

(** A search through a table for the first entry that [f] accepts. *)
Lemma wp_scan {St A} (l : list A) (f : A → bool) (body : Z → M St (option Z)) (s : St) (Q : option Z → St → Prop) n :
  length l = n →
  (∀ i x (R : option Z → St → Prop), 0 ≤ i → l !! Z.to_nat i = Some x → R (if f x then Some i else None) s → wp (body i) R s) →
  (∀ i x, 0 ≤ i → l !! Z.to_nat i = Some x → f x = true → Q (Some i) s) → (Forall (λ x, f x = false) l → Q None s) →
  wp (for_ret n 0 body) Q s.
Proof.
  intros Hl Hb Hs Hn. apply (wp_for_ret (λ i s', s' = s ∧ 0 ≤ i ∧ Forall (λ x, f x = false) (take (Z.to_nat i) l))).
  - split_and!; [done|done|]. rewrite take_0. constructor.
  - intros i s' Hi (-> & Hi0 & Hall). destruct (lookup_lt_is_Some_2 l (Z.to_nat i)) as [x Hx]; [lia|].
    apply (Hb i x); [done|done|]. destruct (f x) eqn:Hf; [by eapply Hs|]. split_and!; [done|lia|].
    replace (Z.to_nat (i + 1)) with (S (Z.to_nat i)) by lia. rewrite (take_S_r _ _ _ Hx). apply Forall_app. split; [done|]. by constructor.
  - intros s' (-> & _ & Hall). apply Hn. rewrite take_ge in Hall by lia. done.
Qed.

(** A channel is named by at most one handle of one thread; the two static
    kernel threads, which make no system calls, do not count: their tables hold
    zeros. *)
Record private (s : ipc) : Prop := Private {
  pv_table : length (g_ipc s) = IPC_CHANS;
  pv_used : ∀ a t i c, sched_is_protected a = false → threads (ip_sched s) !! a = Some t → sig_ipc (t_signals t) !! i = Some c → 0 ≤ c →
    ∃ ch, g_ipc s !! Z.to_nat c = Some ch ∧ ic_used ch = true;
  pv_one : ∀ a b t u i j c, sched_is_protected a = false → sched_is_protected b = false → threads (ip_sched s) !! a = Some t → threads (ip_sched s) !! b = Some u →
    sig_ipc (t_signals t) !! i = Some c → sig_ipc (t_signals u) !! j = Some c → 0 ≤ c → a = b ∧ i = j }.

(** What [sys_ipc_create] by thread [a] leaves: nothing new, or a channel in a
    slot that was unused under a handle that was unused. *)
Definition created (a : Z) (s s' : ipc) (r : Z) : Prop :=
  (r = neg 1 ∧ ip_sched s' = ip_sched s ∧ length (g_ipc s') = length (g_ipc s) ∧
    ∀ c ch, g_ipc s !! c = Some ch → ∃ ch', g_ipc s' !! c = Some ch' ∧ ic_used ch' = ic_used ch ∧ (ic_used ch = true → ch' = ch)) ∨
  (∃ c ch t, 0 ≤ c < 16 ∧ 0 ≤ r < 16 ∧ g_ipc s !! Z.to_nat c = Some ch ∧ ic_used ch = false ∧
    g_ipc s' = <[Z.to_nat c := IpcChan (g_ipc_next_id s + 1) true (ic_msgs ch) 0 0 0]> (g_ipc s) ∧
    threads (ip_sched s) !! a = Some t ∧ (∃ o, sig_ipc (t_signals t) !! Z.to_nat r = Some o ∧ o < 0) ∧
    ip_sched s' = set_threads (insert a (set_handle (Z.to_nat r) c t)) (ip_sched s)).

Lemma wp_create s t (Q : Z → ipc → Prop) :
  private s → current (ip_sched s) ≠ 0 → threads (ip_sched s) !! current (ip_sched s) = Some t → length (sig_ipc (t_signals t)) = IPC_MAX →
  g_ipc_next_id s < 2 ^ 31 - 1 → (∀ r s', created (current (ip_sched s)) s s' r → Q r s') → wp sys_ipc_create Q s.
Proof.
  intros [Hlen _ _] Hc0 Ht Hli Hid HQ. unfold sys_ipc_create, sched_current. wp_step. apply wp_zoom. wp_step. rewrite put_sched_id.
  rewrite (proj2 (Z.eqb_neq _ _)) by done. wp_step.
  apply (wp_scan (g_ipc s) (λ ch, negb (ic_used ch))); [done| | |].
  { intros i x R Hi Hx HR. wp_step. wp_step. wp_step. eapply wp_load; [done|exact Hx|]. by wp_step. }
  2:{ intros _. wp_step. apply HQ. left. split_and!; try done. intros c ch Hch. by exists ch. }
  intros c ch Hc Hch Hu%negb_true_iff. assert (c < 16) as Hc16. { apply lookup_lt_Some in Hch. rewrite Hlen in Hch. unfold IPC_CHANS in Hch. lia. }
  wp_step. wp_step. wp_step. unfold int_succ. rewrite (proj2 (Z.eqb_neq _ _)) by lia. wp_step. wp_step. wp_step. wp_step. wp_step. wp_step.
  eapply wp_load; [done|exact Hch|]. wp_step. wp_step. wp_step. apply wp_zoom. eapply wp_thr; [exact Ht|].
  wp_step. apply (wp_scan (sig_ipc (t_signals t)) (λ c, c <? 0)); [done| | |].
  { intros i x R Hi Hx HR. wp_step. eapply wp_load; [done|exact Hx|]. by wp_step. }
  - intros i x Hi Hx Hneg%Z.ltb_lt. assert (i < 16) as Hi16. { apply lookup_lt_Some in Hx. rewrite Hli in Hx. unfold IPC_MAX in Hx. lia. }
    wp_step. apply wp_zoom. eapply wp_upd; [exact Ht|]. wp_step. apply HQ. right. exists c, ch, t. rewrite (u64_small i) by (unfold is_u64; lia).
    split_and!; try done. by exists x.
  - intros _. wp_step. wp_step. wp_step. apply HQ. left. split_and!; [done|done|cbn; by rewrite !length_insert|]. cbn. intros b cb Hb. rewrite list_insert_insert_eq.
    destruct (decide (b = Z.to_nat c)) as [->|Hne].
    + rewrite list_lookup_insert_eq by (by eapply lookup_lt_Some). rewrite Hch in Hb. injection Hb as <-. eexists. split; [done|]. cbn. rewrite Hu. done.
    + rewrite list_lookup_insert_ne by done. by exists cb.
Qed.

Lemma private_created a s s' r : private s → created a s s' r → private s'.
Proof.
  intros [Hlen Hused Hone] [(_ & Es & El & Hmap)|(c & ch & t & Hc & Hr & Hch & Hu & Eg & Ht & (o & Ho & Hneg) & Es)].
  - split; rewrite ?Es, ?El; [done| |exact Hone]. intros b u i c Hpb Hb Hi Hc0. destruct (Hused b u i c Hpb Hb Hi Hc0) as (ch & Hch & Hu).
    destruct (Hmap _ _ Hch) as (ch' & ? & ? & _). exists ch'. split; [done|congruence].
  - set (k := Z.to_nat r) in *.
    assert (∀ b u i d, sched_is_protected b = false → threads (ip_sched s') !! b = Some u → sig_ipc (t_signals u) !! i = Some d → 0 ≤ d →
      b = a ∧ i = k ∧ d = c ∨ d ≠ c ∧ ∃ u', threads (ip_sched s) !! b = Some u' ∧ sig_ipc (t_signals u') !! i = Some d) as Hcase.
    { intros b u i d Hpb Hb Hi Hd. assert (∀ u', threads (ip_sched s) !! b = Some u' → sig_ipc (t_signals u') !! i = Some d → d ≠ c) as Hne.
      { intros u' Hu' Hi' ->. destruct (Hused b u' i c Hpb Hu' Hi' Hd) as (ch' & Hch' & Hu''). rewrite Hch in Hch'. injection Hch' as <-. congruence. }
      rewrite Es in Hb. cbn in Hb. apply lookup_insert_Some in Hb as [[<- <-]|[Hne' Hb]]; [|right; eauto].
      cbn in Hi. apply list_lookup_insert_Some in Hi as [(<- & <- & _)|[Hik Hi]]; [by left|]. right. eauto. }
    split.
    + by rewrite Eg, length_insert.
    + intros b u i d Hpb Hb Hi Hd. rewrite Eg. destruct (Hcase b u i d Hpb Hb Hi Hd) as [(_ & _ & ->)|(Hne & u' & Hu' & Hi')].
      * eexists. split; [apply list_lookup_insert_eq; by eapply lookup_lt_Some|done].
      * destruct (Hused b u' i d Hpb Hu' Hi' Hd) as (ch' & Hch' & ?). exists ch'. split; [|done]. rewrite list_lookup_insert_ne; [done|]. lia.
    + intros b b' u u' i j d Hpb Hpb' Hb Hb' Hi Hj Hd.
      destruct (Hcase b u i d Hpb Hb Hi Hd) as [(-> & -> & Ed)|(Hne & v & Hv & Hvi)], (Hcase b' u' j d Hpb' Hb' Hj Hd) as [(-> & -> & Ed')|(Hne' & v' & Hv' & Hvj)]; try done.
      by apply (Hone b b' v v' i j d).
Qed.

(** [sys_ipc_create] returns a fresh handle of the caller for an unused
    channel, which it leaves empty, or -1 with every channel and thread as it
    was; and if every channel was named by at most one handle of one thread, it
    still is: only [fork_process] (elf.c), which copies the table of handles,
    lets two threads name one channel. *)
Theorem ipc_channels_private s t :
  private s → current (ip_sched s) ≠ 0 → threads (ip_sched s) !! current (ip_sched s) = Some t → length (sig_ipc (t_signals t)) = IPC_MAX →
  g_ipc_next_id s < 2 ^ 31 - 1 →
  ∃ r s', sys_ipc_create s = Ok (r, s') ∧ created (current (ip_sched s)) s s' r ∧ private s'.
Proof.
  intros Hpv Hc Ht Hl Hid. apply wp_ok, (wp_create s t); [done..|]. intros r s' Hcr. split; [done|by eapply private_created].
Qed.

(** ** Channels and shared memory at work *)

#[local] Existing Instance no_respawn.
#[local] Existing Instance no_ext_free.

Definition empty_chan : ipc_chan := IpcChan 0 false (replicate 32 (IpcMsg (replicate 256 0) 0)) 0 0 0.
Definition demo_tables (s : sched) : ipc := Ipc (replicate 16 empty_chan) 0 (replicate 16 (ShmObj 0 false 0 0)) 0 s.

(** The process of [demo_proc] holds channel 0 with one message. *)
Definition demo_chan : ipc_chan :=
  IpcChan 1 true (<[0%nat := IpcMsg ([104; 105] ++ replicate 254 0) 2]> (replicate 32 (IpcMsg (replicate 256 0) 0))) 1 0 0.
Definition demo_holder : thread := set_handle 0 0 demo_caller.
Definition demo_ipc : ipc :=
  set_chan 0 demo_chan (demo_tables (set_threads (insert (current demo_proc) demo_holder) demo_proc)).

Lemma demo_at_chan : at_chan demo_ipc demo_holder (int 0) 0 demo_chan.
Proof.
  split.
  - apply (user_space_upd demo_proc demo_caller); [apply demo_user_space|done].
  - split; [by vm_compute|]. by vm_compute.
  - split; [done|]. by vm_compute.
  - done.
  - split; [done| |by vm_compute|by vm_compute]. apply (bool_decide_unpack _). by vm_compute.
  - by left.
Qed.

Lemma ipc_channel_queue_witness :
  queued demo_chan = [[104; 105]] ∧
  ∃ r s', sys_ipc_recv 0 0 demo_page 16 demo_ipc = Ok (Some r, s') ∧
    (¬ user_range (ip_sched demo_ipc) demo_holder true demo_page 2 ∧ r = (neg EFAULT, []) ∧ s' = demo_ipc ∨
     user_range (ip_sched demo_ipc) demo_holder true demo_page 2 ∧ r = (2, [(demo_page, [104; 105])]) ∧ received 0 demo_chan [] demo_ipc s').
Proof.
  assert (queued demo_chan = [[104; 105]]) as Hq by (by vm_compute). split; [exact Hq|].
  destruct (ipc_channel_queue demo_ipc demo_holder 0 0 demo_chan demo_at_chan demo_page 16 ltac:(by vm_compute) ltac:(by vm_compute) (λ _, 0) 0) as [_ Hr].
  exact (Hr [104; 105] [] Hq).
Defined.

Definition demo_fresh : ipc := demo_tables demo_2.

Lemma ipc_channels_private_witness :
  ∃ r s', sys_ipc_create demo_fresh = Ok (r, s') ∧ r = 0 ∧ created (current (ip_sched demo_fresh)) demo_fresh s' r ∧ private s'.
Proof.
  destruct (threads demo_2 !! 3) as [t|] eqn:Ht; [|by vm_compute in Ht].
  assert (current demo_2 = 3) as Ec by (by vm_compute).
  assert (map_Forall (λ a t, sched_is_protected a = false → length (sig_ipc (t_signals t)) = IPC_MAX ∧ Forall (λ c, c = -1) (sig_ipc (t_signals t))) (threads demo_2)) as Hall
    by (apply (bool_decide_unpack _); by vm_compute).
  assert (∀ a t i c, sched_is_protected a = false → threads demo_2 !! a = Some t → sig_ipc (t_signals t) !! i = Some c → c = -1) as Hno.
  { intros a u i c Hp Hu Hi. destruct (Hall a u Hu Hp) as [_ Hf]. rewrite Forall_lookup in Hf. by eapply Hf. }
  destruct (ipc_channels_private demo_fresh t) as (r & s' & Hrun & Hcr & Hpv).
  - split; [done| |].
    + intros a u i c Hp Hu Hi Hc. rewrite (Hno a u i c Hp Hu Hi) in Hc. lia.
    + intros a b u v i j c Hp _ Hu _ Hi _ Hc. rewrite (Hno a u i c Hp Hu Hi) in Hc. lia.
  - change (current demo_2 ≠ 0). by rewrite Ec.
  - change (threads demo_2 !! current demo_2 = Some t). by rewrite Ec.
  - by apply (Hall 3 t).
  - done.
  - exists r, s'. split_and!; [exact Hrun| |exact Hcr|exact Hpv].
    assert ((λ x, match x with Ok (r, _) => Some r | _ => None end) (sys_ipc_create demo_fresh) = Some 0) as E by (by vm_compute).
    rewrite Hrun in E. by injection E.
Defined.

(** The frames of a shared object are freed with the first process that had it
    attached, while the object stays in the table: the next [sys_shm_attach]
    maps free memory. *)
Example shm_freed_with_process :
  let run := (id ← sys_shm_create 8192; va ← sys_shm_attach id; on_sched (on_mmu (vmm_free_root (4 * PAGE_SIZE))) ;; l ← gets g_shm; mret (va, head l)) in
  match run (demo_tables demo_proc) with
  | Ok ((va, Some o), s') => va = SHM_BASE ∧ sh_used o = true ∧ sh_id o = 1 ∧ bool_decide (sh_phys o / PAGE_SIZE ∈ free_set (mm_pmm (sc_mmu (ip_sched s')))) = true
  | _ => False
  end.
Proof. vm_compute. by repeat split. Qed.
