(* ===== verification/SysCred.v ===== *)
(** * SysCred: identity and capability calls (kernel/syscall.c)

    The calls that read and change who a process is and what it may do, and the
    owner and mode of files. *)

From S2P Require Import Prelude BootMap Pmm Mmu Reclaim CString Security VfsPath Vfs Sched SchedQueue Fds SchedSpawn SchedRun Syscall SysUser Signal.

#[local] Arguments for_up : simpl never.

(** A field of the running thread; 0 when there is none. *)
Definition cred_field (f : cred → Z) : M sched Z :=
  t ← sched_current;
  if t =? 0 then mret 0 else x ← thr t; mret (f (t_cred x)).

(** The values of [user_role_t]. *)
Definition role_num (r : user_role) : Z :=
  match r with ROLE_GUEST => 0 | ROLE_USER => 1 | ROLE_ADMIN => 2 | ROLE_SYSTEM => 3 end.

Definition sys_getuid : M sched Z := cred_field cr_uid.
Definition sys_geteuid : M sched Z := cred_field cr_euid.
Definition sys_getgid : M sched Z := cred_field cr_gid.
Definition sys_getegid : M sched Z := cred_field cr_egid.
Definition sys_getrole : M sched Z := cred_field (λ c, role_num (cr_role c)).
Definition sys_getcap : M sched Z := cred_field cr_caps_eff.

(** [t->role != ROLE_SYSTEM && !(t->caps_prm & cap)] *)
Definition lacks (c : cred) (cap : Z) : bool :=
  negb (bool_decide (cr_role c = ROLE_SYSTEM)) && (Z.land (cr_caps_prm c) cap =? 0).

Definition with_uid (uid : Z) (c : cred) : cred :=
  let r := posix_uid_to_role uid in
  Cred uid uid uid (cr_gid c) (cr_egid c) (cr_sgid c) r (role_caps r) (role_caps r) (role_caps r).
Definition with_gid (gid : Z) (c : cred) : cred :=
  Cred (cr_uid c) (cr_euid c) (cr_suid c) gid gid gid (cr_role c) (cr_caps_eff c) (cr_caps_prm c) (cr_caps_inh c).
Definition with_caps (m : Z) (c : cred) : cred :=
  Cred (cr_uid c) (cr_euid c) (cr_suid c) (cr_gid c) (cr_egid c) (cr_sgid c) (cr_role c) m (cr_caps_prm c) (cr_caps_inh c).

(** The shape of the three calls: the right that is needed and the change. *)
Definition change_cred (cap : Z) (f : cred → cred) : M sched Z :=
  t ← sched_current;
  if t =? 0 then mret (neg EPERM)
  else
    x ← thr t;
    if lacks (t_cred x) cap then mret (neg EPERM)
    else upd t (set_cred (f (t_cred x))) ;; mret 0.

Definition sys_setuid (a1 : Z) : M sched Z := change_cred CAP_SETUID (with_uid (u32 a1)).
Definition sys_setgid (a1 : Z) : M sched Z := change_cred CAP_SETGID (with_gid (u32 a1)).
Definition sys_setcap (a1 : Z) : M sched Z := change_cred CAP_SYS_ADMIN (λ c, with_caps (Z.land (u64 a1) (cr_caps_prm c)) c).

Definition module_privileged : M sched bool :=
  t ← sched_current;
  if t =? 0 then mret true
  else
    x ← thr t;
    mret (bool_decide (cr_role (t_cred x) = ROLE_SYSTEM) || negb (Z.land (cr_caps_prm (t_cred x)) CAP_SYS_ADMIN =? 0)).

(** ** Owners and modes *)

Definition edit_attr (f : vattr → vattr) (v : vnode) : vnode :=
  Vnode (vn_name v) (vn_type v) (vn_size v) (vn_sb v) (vn_priv v) (vn_refcount v) (f (vn_attr v)) (vn_data v) (vn_cap v) (vn_children v) (vn_cap_children v) (vn_parent v).

Section files.
Context {env : VfsEnv}.

Definition change_attr (um : Z → Z) (a1 : Z) (f : vattr → vattr) : M sched Z :=
  o ← copy_path um a1;
  match o with
  | None => mret (neg EFAULT)
  | Some path =>
    t ← sched_current;
    if t =? 0 then mret (neg EPERM)
    else
      vfs_ensure_proc ;;
      x ← thr t;
      n ← as_current (vfs_lookup path (cwd_of x));
      match n with
      | None => mret (neg ENOENT)
      | Some n =>
        v ← on_vfs (deref n);
        if negb (v_uid (vn_attr v) =? cr_euid (t_cred x)) && lacks (t_cred x) CAP_SYS_ADMIN
        then on_vfs (vfs_release (Some n)) ;; mret (neg EPERM)
        else
          on_vfs (update n (edit_attr f)) ;;
          on_vfs (vfs_release (Some n)) ;;
          mret 0
      end
  end.

Definition sys_chmod (um : Z → Z) (a1 a2 : Z) : M sched Z :=
  change_attr um a1 (λ a, Vattr (v_uid a) (v_gid a) (Z.land a2 0xFFF)).
Definition sys_chown (um : Z → Z) (a1 a2 a3 : Z) : M sched Z :=
  change_attr um a1 (λ a, Vattr (u32 a2) (u32 a3) (v_mode a)).
End files.

(** ** What the calls can reach *)

Inductive cred_call := CallSetuid (uid : Z) | CallSetgid (gid : Z) | CallSetcap (mask : Z).

Definition run_call (c : cred_call) : M sched Z :=
  match c with CallSetuid u => sys_setuid u | CallSetgid g => sys_setgid g | CallSetcap m => sys_setcap m end.

(** [m] has no right that [n] has not. *)
Definition within (m n : Z) : Prop := Z.land m n = m.

Lemma within_refl m : within m m.
Proof. apply Z.land_diag. Qed.

Lemma within_trans a b c : within a b → within b c → within a c.
Proof. unfold within. intros Hab Hbc. by rewrite <-Hab, <-Z.land_assoc, Hbc. Qed.

Lemma within_land_r m n : within (Z.land m n) n.
Proof. unfold within. by rewrite <-Z.land_assoc, Z.land_diag. Qed.

Lemma within_no_bit m n cap : within m n → Z.land n cap = 0 → Z.land m cap = 0.
Proof. unfold within. intros <- Hn. by rewrite <-Z.land_assoc, Hn, Z.land_0_r. Qed.

(** The rights of a process are those its role grants. *)
Record ranked (c : cred) : Prop := Ranked {
  rk_eff : within (cr_caps_eff c) (cr_caps_prm c);
  rk_prm : within (cr_caps_prm c) (role_caps (cr_role c)) }.

(** How one call may change the role and rights. *)
Definition rank_step (c c' : cred) : Prop :=
  ranked c' ∧ (cr_role c' = ROLE_SYSTEM → cr_role c = ROLE_SYSTEM) ∧ (cr_role c = ROLE_GUEST → c' = c).

Lemma rank_step_refl c : ranked c → rank_step c c.
Proof. intros Hr. split; [done|]. by split. Qed.

Lemma rank_step_trans a b c : rank_step a b → rank_step b c → rank_step a c.
Proof. intros (_ & H1 & H2) (Hr & H3 & H4). split; [done|]. split; [auto|]. intros Hg. specialize (H2 Hg). subst b. auto. Qed.

Lemma guest_lacks c cap : ranked c → cr_role c = ROLE_GUEST → Z.land (role_caps ROLE_GUEST) cap = 0 → lacks c cap = true.
Proof.
  intros [_ Hp] Hg Hcap. unfold lacks. rewrite Hg in *. rewrite bool_decide_false by done. cbn. apply Z.eqb_eq. by eapply within_no_bit.
Qed.

Lemma uid_role_not_system u : posix_uid_to_role u ≠ ROLE_SYSTEM.
Proof. unfold posix_uid_to_role. by repeat case_match. Qed.

Lemma with_uid_step u c : cr_role c ≠ ROLE_GUEST → rank_step c (with_uid u c).
Proof.
  intros Hg. split; [split; apply within_refl|]. split; [intros Hs; by destruct (uid_role_not_system u)|done].
Qed.

Lemma with_gid_step g c : ranked c → cr_role c ≠ ROLE_GUEST → rank_step c (with_gid g c).
Proof. intros [? ?] Hg. split; [by split|]. by split. Qed.

Lemma with_caps_step m c : ranked c → cr_role c ≠ ROLE_GUEST → rank_step c (with_caps (Z.land m (cr_caps_prm c)) c).
Proof. intros [? ?] Hg. split; [split; [apply within_land_r|done]|]. by split. Qed.

Lemma wp_change_cred s t cap f (Q : Z → sched → Prop) :
  current s ≠ 0 → threads s !! current s = Some t →
  (lacks (t_cred t) cap = true → Q (neg EPERM) s) →
  (lacks (t_cred t) cap = false → Q 0 (set_threads (insert (current s) (set_cred (f (t_cred t)) t)) s)) → wp (change_cred cap f) Q s.
Proof.
  intros Hc Ht Hno Hyes. unfold change_cred, sched_current. wp_step. wp_step. rewrite (proj2 (Z.eqb_neq _ _)) by done. wp_step. eapply wp_thr; [exact Ht|].
  destruct (lacks (t_cred t) cap); [wp_step; by apply Hno|]. wp_step. eapply wp_upd; [exact Ht|]. wp_step. by apply Hyes.
Qed.

(** The running thread has changed its credentials, and only those. *)
Definition recred (s s' : sched) (c : cred) : Prop :=
  ∃ t, threads s !! current s = Some t ∧ s' = set_threads (insert (current s) (set_cred c t)) s.

Lemma recred_trans s s1 s2 c1 c2 : recred s s1 c1 → recred s1 s2 c2 → recred s s2 c2.
Proof.
  intros (t & Ht & ->) (t1 & Ht1 & ->). exists t. split; [done|]. cbn in Ht1. rewrite lookup_insert_eq in Ht1. injection Ht1 as <-. cbn [current set_threads].
  by rewrite set_threads_insert2.
Qed.

Lemma wp_call k s t (Q : Z → sched → Prop) :
  current s ≠ 0 → threads s !! current s = Some t → ranked (t_cred t) →
  (∀ r s' c', recred s s' c' → rank_step (t_cred t) c' → Q r s') → wp (run_call k) Q s.
Proof.
  intros Hc Ht Hr HQ. assert (recred s s (t_cred t)) as Hsame.
  { exists t. split; [done|]. replace (set_cred (t_cred t) t) with t by (by destruct t). unfold set_threads. rewrite insert_id by done. by destruct s. }
  assert (∀ cap, Z.land (role_caps ROLE_GUEST) cap = 0 → lacks (t_cred t) cap = false → cr_role (t_cred t) ≠ ROLE_GUEST) as Hng.
  { intros cap Hcap Hl Hg. by rewrite (guest_lacks _ _ Hr Hg Hcap) in Hl. }
  destruct k as [u|g|m]; (eapply wp_change_cred; [done|exact Ht|intros _; apply (HQ _ _ (t_cred t)); [done|by apply rank_step_refl]|]);
    intros Hl; (eapply HQ; [exists t; split; [done|reflexivity]|]).
  - apply with_uid_step, (Hng CAP_SETUID); done.
  - apply with_gid_step, (Hng CAP_SETGID); done.
  - apply with_caps_step; [done|]. apply (Hng CAP_SYS_ADMIN); done.
Qed.

(** A history of calls by one process. *)
Inductive calls : sched → list cred_call → sched → Prop :=
| calls_nil s : calls s [] s
| calls_cons s k ks r s1 s2 : run_call k s = Ok (r, s1) → calls s1 ks s2 → calls s (k :: ks) s2.

Lemma calls_rank s ks s' t :
  calls s ks s' → current s ≠ 0 → threads s !! current s = Some t → ranked (t_cred t) → ∃ c', recred s s' c' ∧ rank_step (t_cred t) c'.
Proof.
  intros Hcs. revert t. induction Hcs as [s|s k ks r s1 s2 Hrun Hcs IH]; intros t Hc Ht Hr.
  - exists (t_cred t). split; [|by apply rank_step_refl]. exists t. split; [done|].
    replace (set_cred (t_cred t) t) with t by (by destruct t). unfold set_threads. rewrite insert_id by done. by destruct s.
  - assert (wp (run_call k) (λ _ s1, ∃ c1, recred s s1 c1 ∧ rank_step (t_cred t) c1) s) as Hwp by (eapply wp_call; [done|exact Ht|done|eauto]).
    apply wp_ok in Hwp as (r' & s1' & Hrun' & c1 & Hre & Hst). rewrite Hrun in Hrun'. injection Hrun' as <- <-.
    pose proof Hre as (t0 & Ht0 & E). rewrite Ht in Ht0. injection Ht0 as <-.
    destruct (IH (set_cred c1 t)) as (c2 & Hre2 & Hst2); [by rewrite E|by rewrite E; cbn; rewrite lookup_insert_eq|apply Hst|].
    exists c2. split; [by eapply recred_trans|by eapply rank_step_trans].
Qed.

(** C20: over any history of [sys_setuid], [sys_setgid] and [sys_setcap] calls
    by a process, every call returns and changes nothing but the credentials of
    the process; its effective rights stay within the permitted ones and those
    within what its role grants; it never becomes ROLE_SYSTEM unless it was, and
    a guest stays exactly what it is.  That a process cannot become ROLE_SYSTEM
    is what docs/user-rank-system-spec.md says in 2 and 9.4 and posix.c does:
    [posix_uid_to_role] gives uid 0 the role ROLE_ADMIN.  The listing in 9.1 of
    the same document, and docs/users.md, give it ROLE_SYSTEM. *)
Theorem cred_rank_bounded s ks t :
  current s ≠ 0 → threads s !! current s = Some t → ranked (t_cred t) →
  (∀ s' k, calls s ks s' → ∃ r s2, run_call k s' = Ok (r, s2)) ∧
  ∀ s', calls s ks s' → ∃ c', recred s s' c' ∧ ranked c' ∧
    (cr_role c' = ROLE_SYSTEM → cr_role (t_cred t) = ROLE_SYSTEM) ∧ (cr_role (t_cred t) = ROLE_GUEST → c' = t_cred t).
Proof.
  intros Hc Ht Hr. split.
  - intros s' k Hcs. destruct (calls_rank _ _ _ _ Hcs Hc Ht Hr) as (c' & (t0 & Ht0 & ->) & Hst & _).
    assert (wp (run_call k) (λ _ _, True) (set_threads (insert (current s) (set_cred c' t0)) s)) as Hwp.
    { eapply (wp_call k _ (set_cred c' t0)); [done|cbn; by rewrite lookup_insert_eq|done|done]. }
    apply wp_ok in Hwp as (r & s2 & Hrun & _). eauto.
  - intros s' Hcs. destruct (calls_rank _ _ _ _ Hcs Hc Ht Hr) as (c' & Hre & Hrk & Hsys & Hg). by exists c'.
Qed.

(** Every ordinary user can become an administrator: [sys_setuid] needs only
    CAP_SETUID, which ROLE_USER grants, asks for no password and accepts any uid;
    uid 0 gives the process the role and all the rights of ROLE_ADMIN. *)
Theorem setuid_escalates s t :
  current s ≠ 0 → threads s !! current s = Some t → cr_role (t_cred t) = ROLE_USER → cr_caps_prm (t_cred t) = role_caps ROLE_USER →
  ∃ c', sys_setuid 0 s = Ok (0, set_threads (insert (current s) (set_cred c' t)) s) ∧
    cr_uid c' = 0 ∧ cr_euid c' = 0 ∧ cr_role c' = ROLE_ADMIN ∧ cr_caps_eff c' = role_caps ROLE_ADMIN ∧
    within (role_caps ROLE_USER) (cr_caps_eff c') ∧ Z.land (cr_caps_eff c') CAP_SYS_ADMIN ≠ 0 ∧ Z.land (role_caps ROLE_USER) CAP_SYS_ADMIN = 0.
Proof.
  intros Hc Ht Hr Hp. exists (with_uid 0 (t_cred t)). split.
  - apply wp_exact. eapply wp_change_cred; [done|exact Ht| |intros _; by split].
    unfold lacks. rewrite Hr, Hp. by rewrite bool_decide_false.
  - by split_and!.
Qed.

(** ** A user process *)

Definition demo_user_thread : thread :=
  let t := match threads demo_2 !! 3 with Some t => t | None => zero_thread end in
  set_cred (Cred 1000 1000 1000 1000 1000 1000 ROLE_USER (role_caps ROLE_USER) (role_caps ROLE_USER) (role_caps ROLE_USER)) t.
Definition demo_login : sched := set_threads (insert 3 demo_user_thread) demo_2.

Lemma setuid_escalates_witness :
  ∃ c', sys_setuid 0 demo_login = Ok (0, set_threads (insert (current demo_login) (set_cred c' demo_user_thread)) demo_login) ∧ cr_role c' = ROLE_ADMIN.
Proof.
  assert (current demo_login = 3) as Ec by (by vm_compute).
  destruct (setuid_escalates demo_login demo_user_thread) as (c' & Hrun & _ & _ & Hr & _).
  - by rewrite Ec.
  - by vm_compute.
  - done.
  - done.
  - exists c'. split; [exact Hrun|exact Hr].
Defined.

Lemma cred_rank_bounded_witness :
  ∃ s' c', calls demo_login [CallSetgid 7; CallSetuid 65534; CallSetuid 0] s' ∧ recred demo_login s' c' ∧ ranked c' ∧ cr_role c' ≠ ROLE_SYSTEM.
Proof.
  assert (current demo_login = 3) as Ec by (by vm_compute).
  destruct (cred_rank_bounded demo_login [CallSetgid 7; CallSetuid 65534; CallSetuid 0] demo_user_thread) as [_ Hall].
  - by rewrite Ec.
  - by vm_compute.
  - split; by vm_compute.
  - set (run := λ k s, match run_call k s with Ok (_, s') => s' | _ => s end).
    assert (calls demo_login [CallSetgid 7; CallSetuid 65534; CallSetuid 0] (run (CallSetuid 0) (run (CallSetuid 65534) (run (CallSetgid 7) demo_login)))) as Hcs.
    { apply (calls_cons _ _ _ 0 (run (CallSetgid 7) demo_login)); [by vm_compute|].
      apply (calls_cons _ _ _ 0 (run (CallSetuid 65534) (run (CallSetgid 7) demo_login))); [by vm_compute|].
      apply (calls_cons _ _ _ (neg EPERM) (run (CallSetuid 0) (run (CallSetuid 65534) (run (CallSetgid 7) demo_login)))); [by vm_compute|]. constructor. }
    destruct (Hall _ Hcs) as (c' & Hre & Hrk & Hs & _). eexists _, c'. split_and!; [exact Hcs|exact Hre|exact Hrk|]. intros E. by apply Hs in E.
Defined.
