(* ===== verification/SysFile.v ===== *)
(** * SysFile: the other file and process calls (kernel/syscall.c) *)

From Stdlib Require Import String.
From S2P Require Import Prelude BootMap Pmm Mmu Reclaim CString Security VfsPath Vfs Sched SchedQueue Fds SchedSpawn SchedRun Syscall SysUser SysFd Signal.

#[local] Arguments for_up : simpl never.

Definition SEEK_SET : Z := 0.
Definition SEEK_CUR : Z := 1.
Definition SEEK_END : Z := 2.
Definition S_IFDIR : Z := 0x4000.
Definition S_IFREG : Z := 0x8000.

(** A [long] of a 64-bit word, and a signed result that must not overflow. *)
Definition i64 (x : Z) : Z := let y := u64 x in if y <? 2 ^ 63 then y else y - 2 ^ 64.
Definition long {St} (x : Z) : M St Z := if (x <? - 2 ^ 63) || (2 ^ 63 <=? x) then fault else mret x.

(** [struct stat] without its padding, [struct vfs_dirent] by its size. *)
Record stat := Stat { st_size : Z; st_mode : Z; st_nlink : Z; st_ino : Z }.
Definition STAT_SIZE : Z := 24.
Definition DIRENT_SIZE : Z := Z.of_nat MAX_NAME + 2.

Section calls.
Context {env : VfsEnv} {senv : SchedEnv}.

(** ** Processes *)

Definition sys_yield (sp : Z) : M sched Z := sched_yield sp ;; mret 0.
Definition sys_exit (sp a1 : Z) : M sched unit := sched_exit sp (int a1).

Definition sys_getpid : M sched Z :=
  t ← sched_current;
  if t =? 0 then mret 0 else x ← thr t; mret (u64 (t_pid x)).

(** [None] when the thread was suspended; the loop starts again when it runs.
    The status is the [int] stored at [status_out]. *)
Definition wait_round (sp self_pid pid_filter status_out : Z) : M sched (option (Z * option Z)) :=
  z ← sched_child_zombie self_pid pid_filter;
  if negb (z =? 0) then
    x ← thr z;
    sched_reap_zombie z ;;
    mret (Some (u64 (t_pid x), if status_out =? 0 then None else Some (t_exit_status x)))
  else
    h ← sched_has_child self_pid;
    if h =? 0 then mret (Some (neg 1, None))
    else sched_suspend sp ;; mret None.

Definition sys_waitpid (sp a1 status_out : Z) : M sched (option (Z * option Z)) :=
  t ← sched_current;
  self_pid ← (if t =? 0 then mret 0 else x ← thr t; mret (t_pid x));
  ok ← (if status_out =? 0 then mret true else user_range_ok status_out 4 true);
  if negb ok then mret (Some (neg EFAULT, None))
  else wait_round sp self_pid (int a1) status_out.

(** ** Positions *)

(** The descriptor checks shared by the calls below, after [vfs_ensure_proc]. *)
Definition open_fd (fd : Z) : M sched (Z * option vfs_file) :=
  vfs_ensure_proc ;;
  t ← gets current;
  if t =? 0 then mret (t, None)
  else f ← get_fd t fd; mret (t, f).

Definition set_off (o : Z) (f : vfs_file) : vfs_file := VfsFile (f_used f) (f_kind f) (f_node f) o (f_flags f).

Definition sys_lseek (a1 a2 a3 : Z) : M sched Z :=
  let fd := int a1 in
  let offset := i64 a2 in
  let whence := int a3 in
  if negb (whence =? SEEK_SET) && negb (whence =? SEEK_CUR) && negb (whence =? SEEK_END) then mret (neg EINVAL)
  else
    '(t, o) ← open_fd fd;
    match o with
    | None => mret (neg EBADF)
    | Some f =>
      if bool_decide (f_kind f = FD_VNODE) then
        base ← (if whence =? SEEK_SET then mret 0
                else if whence =? SEEK_CUR then mret (i64 (f_off f))
                else n ← node_of f; v ← on_vfs (deref n); mret (i64 (vn_size v)));
        pos ← long (base + offset);
        if pos <? 0 then mret (neg EINVAL)
        else put_fd t fd (set_off pos f) ;; mret pos
      else mret (neg ESPIPE)
    end.

Definition sys_pread (a1 buf len a4 : Z) : M sched (Z * list Z) :=
  let fd := int a1 in
  let off := i64 a4 in
  if off <? 0 then mret (neg EINVAL, [])
  else
    ok ← (if len =? 0 then mret true else user_range_ok buf len true);
    if negb ok then mret (neg EFAULT, [])
    else
      '(t, o) ← open_fd fd;
      match o with
      | None => mret (neg EBADF, [])
      | Some f =>
        match f_kind f, f_node f with
        | FD_VNODE, Some n =>
          r ← check_current n VFS_MAY_READ;
          if negb (r =? 0) then mret (neg EACCES, [])
          else bs ← as_current (vfs_read (Some n) off len); mret (strlen bs, bs)
        | _, _ => mret (neg ESPIPE, [])
        end
      end.

Definition sys_pwrite (um : Z → Z) (a1 a2 len a4 : Z) : M sched Z :=
  let fd := int a1 in
  let off := i64 a4 in
  if off <? 0 then mret (neg EINVAL)
  else
    ok ← (if len =? 0 then mret true else user_range_ok a2 len false);
    if negb ok then mret (neg EFAULT)
    else
      '(t, o) ← open_fd fd;
      match o with
      | None => mret (neg EBADF)
      | Some f =>
        match f_kind f, f_node f with
        | FD_VNODE, Some n => w ← as_current (vfs_write (Some n) off (user_bytes um a2 len)); mret (u64 w)
        | _, _ => mret (neg ESPIPE)
        end
      end.

Definition sys_mmap (a1 off virt len : Z) : M sched Z :=
  vfs_ensure_proc ;;
  t ← gets current;
  o ← get_fd t (int a1);
  match o with
  | None => mret (neg 1)
  | Some f =>
    match f_kind f, f_node f with
    | FD_VNODE, Some n => r ← as_current (vfs_mmap (Some n) off virt len 0); mret (u64 r)
    | _, _ => mret (neg 1)
    end
  end.

(** ** Paths *)

(** The calls on a path: [EFAULT] when it cannot be read, then the call with the
    path, the running thread and its directory. *)
Definition with_path {A} (um : Z → Z) (a1 : Z) (bad : A) (k : list Z → Z → list Z → M sched A) : M sched A :=
  o ← copy_path um a1;
  match o with
  | None => mret bad
  | Some path =>
    vfs_ensure_proc ;;
    t ← gets current;
    x ← thr t;
    k path t (cwd_of x)
  end.

Definition release (n : nat) : M sched unit := on_vfs (vfs_release (Some n)).
Definition node_type (n : nat) : M sched vtype := v ← on_vfs (deref n); mret (vn_type v).

Definition sys_mkdir (um : Z → Z) (a1 : Z) : M sched Z :=
  with_path um a1 (neg EFAULT) (λ path _ cwd,
    n ← as_current (vfs_lookup path cwd);
    match n with
    | Some n => release n ;; mret (neg EEXIST)
    | None =>
      c ← as_current (vfs_create path VFS_DIR cwd);
      mret (if negb (c =? 0) then neg EACCES else 0)
    end).

Definition sys_mkfifo (um : Z → Z) (a1 : Z) : M sched Z :=
  with_path um a1 (neg EFAULT) (λ path _ cwd,
    n ← as_current (vfs_lookup path cwd);
    match n with
    | Some n => release n ;; mret (neg EEXIST)
    | None =>
      c ← as_current (vfs_create path VFS_FIFO cwd);
      mret (if negb (c =? 0) then neg EACCES else 0)
    end).

Definition sys_unlink (um : Z → Z) (a1 : Z) : M sched Z :=
  with_path um a1 (neg EFAULT) (λ path _ cwd,
    n ← as_current (vfs_lookup path cwd);
    match n with
    | None => mret (neg ENOENT)
    | Some n =>
      ty ← node_type n;
      if bool_decide (ty = VFS_DIR) then release n ;; mret (neg EISDIR)
      else
        release n ;;
        r ← as_current (vfs_remove path cwd);
        mret (if negb (r =? 0) then neg EACCES else 0)
    end).

(** [nm] is "." or "..". *)
Definition is_dot (nm : list Z) : bool := bool_decide (cut0 nm = [46] ∨ cut0 nm = [46; 46]).

Definition sys_rmdir (um : Z → Z) (a1 : Z) : M sched Z :=
  with_path um a1 (neg EFAULT) (λ path _ cwd,
    n ← as_current (vfs_lookup path cwd);
    match n with
    | None => mret (neg ENOENT)
    | Some n =>
      ty ← node_type n;
      if negb (bool_decide (ty = VFS_DIR)) then release n ;; mret (neg ENOTDIR)
      else
        '(ents, cnt) ← as_current (vfs_list path cwd 8);
        release n ;;
        if cnt <? 0 then mret (neg EIO)
        else
          full ← for_ret (Z.to_nat cnt) 0 (λ i, e ← load ents i; mret (if is_dot e.2 then None else Some tt));
          match full with
          | Some _ => mret (neg ENOTEMPTY)
          | None =>
            r ← as_current (vfs_remove path cwd);
            mret (if negb (r =? 0) then neg EACCES else 0)
          end
    end).

(** The entries are returned as stored at [uents]. *)
Definition sys_readdir (um : Z → Z) (a1 uents a3 : Z) : M sched (Z * list vfs_dirent) :=
  with_path um a1 (neg EFAULT, []) (λ path _ cwd,
    let max := int a3 in
    dn ← as_current (vfs_lookup path cwd);
    match dn with
    | None => mret (neg ENOENT, [])
    | Some dn =>
      ty ← node_type dn;
      if negb (bool_decide (ty = VFS_DIR)) then release dn ;; mret (neg ENOTDIR, [])
      else
        release dn ;;
        let cap := Z.min (Z.max max 1) 1024 in
        b ← on_vfs kmalloc;
        match b with
        | None => mret (neg ENOMEM, [])
        | Some _ =>
          '(ents, count) ← as_current (vfs_list path cwd cap);
          if count <? 0 then mret (neg EIO, [])
          else
            let tocopy := Z.min (Z.min count max) cap in
            if 0 <? tocopy then
              ok ← user_range_ok uents (tocopy * DIRENT_SIZE) true;
              if ok : bool then mret (count, take (Z.to_nat tocopy) ents) else mret (neg EFAULT, [])
            else mret (count, [])
        end
    end).

(** [make_abs] into a buffer of [outsz] bytes, before the aliases. *)
Definition make_abs_path (path cwd : list Z) (outsz : nat) : list Z :=
  let room := (outsz - 1)%nat in
  let out :=
    if bool_decide (head path = Some 47) then take room path
    else
      let c := take room cwd in
      let c := if bool_decide (c ≠ [] ∧ last c ≠ Some 47) && bool_decide (length c < room)%nat then c ++ [47] else c in
      c ++ take (room - length c) path in
  if bool_decide (1 < length out)%nat && bool_decide (last out = Some 47) then take (length out - 1) out else out.

Definition make_abs (path cwd : list Z) : M sched (list Z) :=
  let s := make_abs_path path cwd 1024 in
  out ← vfs_apply_aliases (s ++ replicate (1024 - length s) 0);
  mret (cut0 out).

Definition set_cwd (c : list Z) (t : thread) : thread := set_files (λ f, Files (fs_fds f) c) t.

Definition sys_chdir (um : Z → Z) (a1 : Z) : M sched Z :=
  with_path um a1 (neg EFAULT) (λ path t cwd,
    n ← as_current (vfs_lookup path cwd);
    match n with
    | None => mret (neg ENOENT)
    | Some n =>
      ty ← node_type n;
      if negb (bool_decide (ty = VFS_DIR)) then release n ;; mret (neg ENOTDIR)
      else
        abs ← make_abs path cwd;
        upd t (λ x, set_cwd (copy_string 255 abs (fs_cwd (t_files x))) x) ;;
        release n ;;
        mret 0
    end).

Definition sys_getcwd (ubuf sz : Z) : M sched (Z * stores) :=
  vfs_ensure_proc ;;
  t ← gets current;
  x ← thr t;
  let c := cwd_of x in
  if sz <? strlen c + 1 then mret (neg 1, [])
  else '(r, st) ← copy_to_user ubuf (c ++ [0]); mret (u64 r, st).

(** ** Status *)

(** [st_ino] is the private pointer cut to 32 bits; [ino] gives pointers their
    addresses. *)
Definition stat_of (ino : option nat → Z) (v : vnode) : stat :=
  Stat (vn_size v) (if bool_decide (vn_type v = VFS_DIR) then S_IFDIR else S_IFREG) 1 (u32 (ino (vn_priv v))).

Definition store_stat (ust : Z) (st : stat) : M sched (Z * option stat) :=
  ok ← user_range_ok ust STAT_SIZE true;
  mret (if ok : bool then (0, Some st) else (neg EFAULT, None)).

Definition sys_fstat (ino : option nat → Z) (a1 ust : Z) : M sched (Z * option stat) :=
  if ust =? 0 then mret (neg EFAULT, None)
  else
    vfs_ensure_proc ;;
    t ← gets current;
    o ← get_fd t (int a1);
    match o with
    | None => mret (neg EBADF, None)
    | Some f =>
      match f_kind f, f_node f with
      | FD_VNODE, Some n => v ← on_vfs (deref n); store_stat ust (stat_of ino v)
      | _, _ => mret (neg EBADF, None)
      end
    end.

Definition sys_stat (ino : option nat → Z) (um : Z → Z) (a1 ust : Z) : M sched (Z * option stat) :=
  o ← copy_path um a1;
  match o with
  | None => mret (neg EFAULT, None)
  | Some path =>
    if ust =? 0 then mret (neg EFAULT, None)
    else
      vfs_ensure_proc ;;
      t ← gets current;
      x ← thr t;
      n ← as_current (vfs_lookup path (cwd_of x));
      match n with
      | None => mret (neg ENOENT, None)
      | Some n =>
        r ← check_current n VFS_MAY_READ;
        if negb (r =? 0) then release n ;; mret (neg EACCES, None)
        else
          v ← on_vfs (deref n);
          release n ;;
          store_stat ust (stat_of ino v)
      end
  end.

Definition sys_umount (um : Z → Z) (a1 : Z) : M sched Z :=
  o ← copy_path um a1;
  match o with
  | None => mret (neg 1)
  | Some mp => vfs_ensure_proc ;; r ← as_current (vfs_umount mp); mret (u64 r)
  end.

(** ** Time *)

(** [None] while the thread sleeps; [now] is the clock. *)
Definition sys_nanosleep (um : Z → Z) (sp now a1 : Z) : M sched (option Z) :=
  if a1 =? 0 then mret (Some (neg 1))
  else
    o ← copy_from_user um a1 16;
    match o with
    | None => mret (Some (neg EFAULT))
    | Some bs =>
      match bytes_words 2 bs with
      | [sec; nsec] =>
        let sec := i64 sec in
        let nsec := i64 nsec in
        if (sec <? 0) || (nsec <? 0) || (1000000000 <=? nsec) then mret (Some (neg 1))
        else sched_sleep_ns sp now (u64 (sec * 1000000000 + nsec)) ;; mret None
      | _ => fault
      end
    end.

Definition sys_ps (ubuf a2 : Z) : M sched (Z * list proc_info) :=
  let max := Z.min (int a2) 64 in
  if (max <=? 0) || (ubuf =? 0) then mret (0, [])
  else
    l ← sched_enum_procs max;
    let n := Z.of_nat (length l) in
    if 0 <? n then
      ok ← user_range_ok ubuf (n * 32) true;
      mret (if ok : bool then (n, l) else (neg EFAULT, []))
    else mret (0, l).
End calls.

(** ** Waiting for children *)

(** The caller has a child, alive or not. *)
Definition has_child (s : sched) (l zs : list Z) (pid : Z) : bool :=
  existsb (λ a, match threads s !! a with Some x => t_parent_pid x =? pid | None => false end) ((main_thread :: l) ++ zs).

Lemma child_of s a x pid : threads s !! a = Some x → (match threads s !! a with Some x => t_parent_pid x =? pid | None => false end) = (t_parent_pid x =? pid).
Proof. by intros ->. Qed.

(** The second loop of [sched_has_child]. *)
Lemma wp_zombie_child s l zs run pid (Q : Z → sched → Prop) :
  queue s l zs run →
  Q (Z.b2z (existsb (λ a, match threads s !! a with Some x => t_parent_pid x =? pid | None => false end) zs)) s →
  wp (loop_fuel (walk_fuel s) (λ z,
      if z =? 0 then mret (inr 0)
      else
        x ← thr z;
        if t_parent_pid x =? pid then mret (inr 1) else mret (inl (t_next x))) (zombie_head s)) Q s.
Proof.
  intros Hq HQ. assert (NoDup zs) as Hnd.
  { pose proof (q_nodup _ _ _ _ Hq) as Hnd. apply NoDup_cons in Hnd as [_ Hnd]. apply NoDup_cons in Hnd as [_ Hnd]. by apply NoDup_app in Hnd as (_ & _ & ?). }
  apply (wp_loop_ghost (λ m p s', s' = s ∧ ∃ rs, m = length rs ∧ chain (threads s) p rs ∧ (∀ z, z ∈ rs → 0 < z) ∧
    Q (Z.b2z (existsb (λ a, match threads s !! a with Some x => t_parent_pid x =? pid | None => false end) rs)) s) _ _ (length zs)).
  - split; [done|]. exists zs. split_and!; [done|apply (q_zombies _ _ _ _ Hq)| |done]. intros z Hz. apply (q_pos _ _ _ _ Hq). set_unfold. tauto.
  - unfold walk_fuel. assert (length zs ≤ size (threads s))%nat; [|lia]. apply dom_length; [done|].
    intros a Ha. apply (q_all _ _ _ _ Hq). set_unfold. tauto.
  - intros m p s' (-> & rs & -> & Hch & Hpos & HQr). destruct rs as [|z rs].
    { simpl in Hch. subst p. change (0 =? 0) with true. cbn iota. by wp_step. }
    destruct Hch as (-> & x & Hx & Hch). rewrite (proj2 (Z.eqb_neq z 0)) by (pose proof (Hpos z ltac:(by left)); lia).
    wp_step. eapply wp_thr; [done|]. cbn [existsb] in HQr. rewrite Hx in HQr. destruct (t_parent_pid x =? pid).
    + by wp_step.
    + wp_step. exists (length rs). split; [simpl; lia|]. split; [done|]. exists rs. split_and!; [done|done|intros y Hy; apply Hpos; by right|exact HQr].
Qed.

Lemma wp_has_child s l zs run pid (Q : Z → sched → Prop) :
  queue s l zs run → Q (Z.b2z (has_child s l zs pid)) s → wp (sched_has_child pid) Q s.
Proof.
  intros Hq HQ. unfold sched_has_child. wp_step. wp_step. wp_step. wp_step. wp_step. rewrite (q_head _ _ _ _ Hq). change (main_thread =? 0) with false. cbn iota.
  eapply (wp_ext_loop _ (λ t, x ← thr t;
    match (if t_parent_pid x =? pid then Some 1 else None) with
    | Some v => mret (inr v)
    | None => mret (if t_next x =? main_thread then inr 0 else inl (t_next x))
    end)).
  { intros b s'. unfold mbind, M_bind. destruct (thr b s') as [[x s'']| |]; [|done..]. by destruct (t_parent_pid x =? pid). }
  apply (wp_ring_scan s main_thread l); [apply (q_ring _ _ _ _ Hq)|apply (q_ring_nodup _ _ _ _ Hq)|apply (q_fuel _ _ _ _ Hq)| |].
  - intros a x v Ha Hx. destruct (t_parent_pid x =? pid) eqn:E; [|done]. intros [= <-]. cbn. wp_step.
    replace (has_child s l zs pid) with true in HQ; [done|]. symmetry. apply existsb_exists. exists a. split; [|by rewrite Hx].
    apply in_or_app. left. by apply list_elem_of_In.
  - intros Hno. cbn. wp_step. wp_step. eapply wp_zombie_child; [exact Hq|].
    unfold has_child in HQ. rewrite existsb_app in HQ. replace (existsb _ (main_thread :: l)) with false in HQ; [exact HQ|]. symmetry.
    apply not_true_is_false. intros (a & Ha & Hx)%existsb_exists. destruct (threads s !! a) as [x|] eqn:Ht; [|done].
    apply list_elem_of_In in Ha. specialize (Hno a x Ha Ht). by rewrite Hx in Hno.
Qed.

Section theorems.
Context {oth : Others} {env : VfsEnv} {senv : SchedEnv} {free_local : InodeFree}.

(** The outcome of [sys_waitpid] for a caller [c]. *)
Definition wait_result (sp : Z) (s : sched) (l zs : list Z) (c : thread) (pid ptr : Z) (o : option (Z * option Z)) (s' : sched) : Prop :=
  match list_find (λ z, waited_for (threads s) (t_pid c) pid z = true) zs with
  | Some (k, z) => ∃ x, threads s !! z = Some x ∧ o = Some (u64 (t_pid x), if ptr =? 0 then None else Some (t_exit_status x)) ∧
      system s' l (take k zs ++ drop (S k) zs) ∧ gave (sc_mmu s) (owns (sc_mmu s) x) (sc_mmu s') ∧ current s' = current s
  | None => if has_child s l zs (t_pid c) then o = None ∧ suspended sp s l zs s' else o = Some (neg 1, None) ∧ s' = s
  end.

(** The boot thread never blocks. *)
Definition may_block (s : sched) (l zs : list Z) (c : thread) (pid : Z) : Prop :=
  list_find (λ z, waited_for (threads s) (t_pid c) pid z = true) zs = None → has_child s l zs (t_pid c) = true → current s ≠ main_thread.

Lemma wp_waitpid sp s l zs c a1 ptr (Q : option (Z * option Z) → sched → Prop) :
  system s l zs → threads s !! current s = Some c → may_block s l zs c (int a1) → ptr = 0 ∨ user_space s c → 0 ≤ ptr < 2 ^ 64 →
  (ptr ≠ 0 → ¬ user_range s c true ptr 4 → Q (Some (neg EFAULT, None)) s) →
  (ptr = 0 ∨ user_range s c true ptr 4 → ∀ o s', wait_result sp s l zs c (int a1) ptr o s' → Q o s') → wp (sys_waitpid sp a1 ptr) Q s.
Proof.
  intros Hsy Hc Hnm Hus Hp Hbad Hgood. pose proof (sy_ok _ _ _ Hsy) as Hok. pose proof (so_queue _ _ _ Hok) as Hq.
  assert (ptr = 0 ∨ user_range s c true ptr 4 → wp (wait_round sp (t_pid c) (int a1) ptr) Q s) as Hgo.
  { intros Hr. specialize (Hgood Hr). unfold wait_round, wait_result in *. wp_step. eapply wp_child_zombie; [exact Hq|].
    destruct (list_find _ zs) as [[k z]|] eqn:Hf.
    - apply list_find_Some in Hf as (Hk & Hw & _). destruct (threads s !! z) as [x|] eqn:Hx; [|unfold waited_for in Hw; by rewrite Hx in Hw].
      assert (z ∈ zs) as Hz by (by eapply list_elem_of_lookup_2). rewrite (proj2 (Z.eqb_neq z 0)) by (pose proof (q_pos _ _ _ _ Hq z ltac:(set_unfold; tauto)); lia).
      cbn [negb]. wp_step. eapply wp_thr; [exact Hx|]. wp_step. rewrite <-(take_drop_middle _ _ _ Hk) in Hsy.
      eapply wp_sched_reap_zombie; [exact Hsy|exact Hx|]. intros s' Hsy' Hg Hcur _. wp_step. apply Hgood. by exists x.
    - change (0 =? 0) with true. cbn [negb]. wp_step. eapply wp_has_child; [exact Hq|]. destruct (has_child s l zs (t_pid c)) eqn:Hch.
      + change (Z.b2z true =? 0) with false. cbn iota. wp_step. eapply wp_suspended; [exact Hsy|by apply Hnm|]. intros s' Hs'. wp_step. by apply Hgood.
      + change (Z.b2z false =? 0) with true. cbn iota. wp_step. by apply Hgood. }
  unfold sys_waitpid, sched_current. wp_step. wp_step. wp_step. rewrite (proj2 (Z.eqb_neq _ _)) by apply (so_current _ _ _ Hok). wp_step. eapply wp_thr; [exact Hc|]. wp_step. wp_step.
  destruct (Z.eqb_spec ptr 0) as [E|E].
  - wp_step. cbn [negb]. apply Hgo. by left.
  - destruct Hus as [?|Hus]; [done|]. apply (wp_user_range s c); [done|done|done|]. intros b Hb. destruct b; cbn [negb].
    + apply Hgo. right. by apply Hb.
    + wp_step. apply (Hbad E). intros Hr. by apply Hb in Hr.
Qed.

(** C17: [sys_waitpid] returns the pid and, where asked, the exit status of the
    first zombie that is a child of the caller and matches the filter, and gives
    its memory back; with no such zombie it blocks the caller as long as it has a
    child, and returns -1 otherwise; it reports EFAULT when the status cannot be
    stored, before it touches any child. *)
Theorem waitpid_exact sp s l zs c a1 ptr :
  system s l zs → threads s !! current s = Some c → may_block s l zs c (int a1) → ptr = 0 ∨ user_space s c → 0 ≤ ptr < 2 ^ 64 →
  ∃ o s', sys_waitpid sp a1 ptr s = Ok (o, s') ∧
    (ptr ≠ 0 ∧ ¬ user_range s c true ptr 4 ∧ o = Some (neg EFAULT, None) ∧ s' = s ∨
     (ptr = 0 ∨ user_range s c true ptr 4) ∧ wait_result sp s l zs c (int a1) ptr o s').
Proof.
  intros Hsy Hc Hnm Hus Hp. apply wp_ok. eapply wp_waitpid; [exact Hsy|exact Hc|exact Hnm|exact Hus|exact Hp| |].
  - intros Hz Hr. left. by split_and!.
  - intros Hr o s' Hw. right. by split.
Qed.

(** ** Positions *)

Definition seek_base (v : vfs) (f : vfs_file) (whence : Z) : Z :=
  if whence =? SEEK_SET then 0
  else if whence =? SEEK_CUR then i64 (f_off f)
  else match f_node f with Some n => match vf_nodes v !! n with Some nd => i64 (vn_size nd) | None => 0 end | None => 0 end.

Definition seek_result (v : vfs) (fl : list vfs_file) (fd off whence r : Z) (fl' : list vfs_file) : Prop :=
  match open_at fl fd with
  | None => r = neg EBADF ∧ fl' = fl
  | Some f =>
    if bool_decide (f_kind f = FD_VNODE) then
      let pos := seek_base v f whence + off in
      if pos <? 0 then r = neg EINVAL ∧ fl' = fl else r = pos ∧ fl' = <[Z.to_nat fd := set_off pos f]> fl
    else r = neg ESPIPE ∧ fl' = fl
  end.

Lemma wp_seek_to s t pos0 off fd f (Q : Z → sched → Prop) :
  - 2 ^ 63 ≤ pos0 + off < 2 ^ 63 → threads s !! current s = Some t →
  (∀ r fl' s', tables (threads s') = <[current s := fl']> (tables (threads s)) → sc_vfs s' = sc_vfs s → quiet s s' →
     (let pos := pos0 + off in if pos <? 0 then r = neg EINVAL ∧ fl' = fds t else r = pos ∧ fl' = <[Z.to_nat fd := set_off pos f]> (fds t)) → Q r s') →
  wp (pos ← long (pos0 + off); if pos <? 0 then mret (neg EINVAL) else put_fd (current s) fd (set_off pos f) ;; mret pos) Q s.
Proof.
  intros Hfit Ht HQ. set (pos := pos0 + off) in *. unfold long. wp_step.
  rewrite (proj2 (Z.ltb_ge _ _)), (proj2 (Z.leb_gt _ _)) by lia. cbn [orb]. wp_step. cbn zeta in HQ. destruct (pos <? 0).
  - wp_step. apply (HQ _ (fds t)); [by rewrite insert_id by (by apply tables_at)|done|apply quiet_refl|done].
  - unfold put_fd. wp_step. eapply wp_upd; [exact Ht|]. wp_step. eapply (HQ pos (<[Z.to_nat fd := set_off pos f]> (fds t))); [cbn [threads set_threads]; by rewrite tables_put|done|by apply quiet_put|done].
Qed.

(** [sys_lseek] returns and moves the position of a file to the offset
    counted from the start, the position or the end, which it returns, unless the
    result is negative; it changes nothing but that position.  Provided the sum
    fits a [long]: the code adds without a check. *)
Theorem sys_lseek_exact s l zs t a1 a2 a3 :
  system s l zs → threads s !! current s = Some t → proc_ok t → int a3 = SEEK_SET ∨ int a3 = SEEK_CUR ∨ int a3 = SEEK_END →
  (∀ f, open_at (std_table (fds t)) (int a1) = Some f → f_kind f = FD_VNODE → - 2 ^ 63 ≤ seek_base (sc_vfs s) f (int a3) + i64 a2 < 2 ^ 63) →
  ∃ r s' fl, sys_lseek a1 a2 a3 s = Ok (r, s') ∧ seek_result (sc_vfs s) (std_table (fds t)) (int a1) (i64 a2) (int a3) r fl ∧
    tables (threads s') = <[current s := fl]> (tables (threads s)) ∧ sc_vfs s' = sc_vfs s ∧ quiet s s'.
Proof.
  intros Hsy Ht Hpo Hwh Hfit. set (fl := std_table (fds t)) in *. set (fd := int a1) in *. set (wh := int a3) in *.
  assert (wp (sys_lseek a1 a2 a3) (λ r s', ∃ fl', seek_result (sc_vfs s) fl fd (i64 a2) wh r fl' ∧
    tables (threads s') = <[current s := fl']> (tables (threads s)) ∧ sc_vfs s' = sc_vfs s ∧ quiet s s') s) as Hwp.
  2:{ apply wp_ok in Hwp as (r & s' & Hrun & fl' & ? & ? & ? & ?). by exists r, s', fl'. }
  unfold sys_lseek. fold fd wh. replace (_ && _ && _) with false by (destruct Hwh as [-> |[-> | ->]]; reflexivity).
  unfold open_fd. wp_step. wp_step. eapply wp_ensure_proc; [exact Hsy|exact Ht|done|]. intros s1 Hr Hv _.
  destruct (retabled_thread _ _ _ _ Hr) as (t1 & Ht1 & Hfl1). pose proof (rt_quiet _ _ _ _ Hr) as Hqu. pose proof (quiet_current _ _ Hqu) as Hcur.
  assert (length (fds t1) = MAX_FD) as Hlen by (eapply (ac_len _ _ (rt_acc _ _ _ _ Hr)); by apply tables_at).
  wp_step. wp_step. rewrite (proj2 (Z.eqb_neq _ _)) by (rewrite Hcur; apply (so_current _ _ _ (sy_ok _ _ _ Hsy))).
  cbn iota. wp_step. eapply wp_get_fd; [exact Ht1|done|]. rewrite Hfl1. fold fl. wp_step.
  assert (tables (threads s1) = <[current s := fl]> (tables (threads s))) as HT by apply Hr.
  unfold seek_result. destruct (open_at fl fd) as [f|] eqn:Hopen; [|wp_step; by exists fl].
  destruct (open_at_some _ _ _ Hopen) as (Hfd & Hf & Hu).
  destruct (decide (f_kind f = FD_VNODE)) as [Hk|Hk]; [rewrite !bool_decide_true by done|rewrite !bool_decide_false by done; wp_step; by exists fl].
  assert (fd_ok (sc_vfs s1) f) as Hfo.
  { apply (ac_open _ _ (rt_acc _ _ _ _ Hr)). exists (current s), fl. split; [by rewrite HT, lookup_insert_eq|by eapply list_elem_of_lookup_2]. }
  specialize (Hfo Hu). rewrite Hk in Hfo. destruct Hfo as (n & nd & Hn & Hnd). specialize (Hfit f eq_refl Hk).
  assert (∀ base, base = seek_base (sc_vfs s) f wh → wp (pos ← long (base + i64 a2);
    if pos <? 0 then mret (neg EINVAL) else put_fd (current s1) fd (set_off pos f) ;; mret pos) (λ r s', ∃ fl',
      (let pos := seek_base (sc_vfs s) f wh + i64 a2 in if pos <? 0 then r = neg EINVAL ∧ fl' = fl else r = pos ∧ fl' = <[Z.to_nat fd := set_off pos f]> fl) ∧
      tables (threads s') = <[current s := fl']> (tables (threads s)) ∧ sc_vfs s' = sc_vfs s ∧ quiet s s') s1) as Hgo.
  { intros base ->. eapply wp_seek_to; [done|exact Ht1|]. intros r fl' s' HT' Hv' Hq' Hcase. exists fl'. rewrite Hfl1 in Hcase. split; [exact Hcase|]. split_and!.
    - by rewrite HT', HT, Hcur, insert_insert_eq.
    - by rewrite Hv'.
    - by eapply quiet_trans. }
  wp_step. destruct (wh =? SEEK_SET) eqn:E1; [wp_step; apply Hgo; unfold seek_base; by rewrite E1|].
  destruct (wh =? SEEK_CUR) eqn:E2; [wp_step; apply Hgo; unfold seek_base; by rewrite E1, E2|].
  unfold node_of. rewrite Hn. wp_step. wp_step. wp_step. apply wp_zoom. eapply wp_vnode_deref; [exact Hnd|].
  replace (put_vfs (sc_vfs s1) s1) with s1 by (by destruct s1). wp_step. apply Hgo. unfold seek_base. by rewrite E1, E2, Hn, <-Hv, Hnd.
Qed.
End theorems.

(** ** Examples *)

#[local] Existing Instance no_others.
#[local] Existing Instance no_respawn.
#[local] Existing Instance no_ext_free.

(** The thread that exited in [demo_3], as a child of the boot thread with exit
    status 7, and the boot thread waits for it. *)
Definition demo_dead_thread : thread :=
  let t := match threads demo_3 !! 3 with Some t => t | None => zero_thread end in
  Thread (t_exec t) (t_pid t) 1 7 (t_state t) (t_priority t) (t_quantum t) (t_next t) (t_prev t) (t_name t) (t_files t) (t_signals t) (t_sleep_deadline_ns t) (t_cred t).
Definition demo_dead : sched := set_threads (insert 3 demo_dead_thread) demo_3.
Definition demo_parent : thread := match threads demo_3 !! main_thread with Some t => t | None => zero_thread end.

Lemma demo_dead_system : system demo_dead [] [3].
Proof.
  destruct (threads demo_3 !! 3) as [t|] eqn:Ht; [|by vm_compute in Ht].
  assert (demo_dead_thread = Thread (t_exec t) (t_pid t) 1 7 (t_state t) (t_priority t) (t_quantum t) (t_next t) (t_prev t) (t_name t) (t_files t)
    (t_signals t) (t_sleep_deadline_ns t) (t_cred t)) as E by (unfold demo_dead_thread; by rewrite Ht).
  unfold demo_dead. rewrite E. refine (system_upd demo_3 [] [3] 3 t _ _ _ _ _ _).
  - exact demo_system_3.
  - exact Ht.
  - split; [done|]. by split.
  - by split.
  - done.
Qed.

Lemma waitpid_exact_witness :
  ∃ s', sys_waitpid 0x7000 (u64 (-1)) 0 demo_dead = Ok (Some (3, None), s') ∧ system s' [] [].
Proof.
  assert (threads demo_dead !! current demo_dead = Some demo_parent) as Hp by (by vm_compute).
  assert (threads demo_dead !! 3 = Some demo_dead_thread) as H3 by (by vm_compute).
  assert (waited_for (threads demo_dead) (t_pid demo_parent) (int (u64 (-1))) 3 = true) as Hw3 by (by vm_compute).
  assert (list_find (λ z, waited_for (threads demo_dead) (t_pid demo_parent) (int (u64 (-1))) z = true) [3] = Some (0%nat, 3)) as Ef by (cbn [list_find]; by rewrite decide_True).
  assert (may_block demo_dead [] [3] demo_parent (int (u64 (-1)))) as Hm by (intros Hn _; exfalso; pose proof (eq_trans (eq_sym Ef) Hn) as E; discriminate E).
  destruct (waitpid_exact 0x7000 demo_dead [] [3] demo_parent (u64 (-1)) 0 demo_dead_system Hp Hm (or_introl eq_refl) (conj (Z.le_refl 0) eq_refl)) as (o & s' & Hrun & [(H & _)|(_ & Hw)]).
  - exfalso. exact (H eq_refl).
  - unfold wait_result in Hw. rewrite Ef in Hw. destruct Hw as (x & Hx & Eo & Hsy & _). pose proof (eq_trans (eq_sym H3) Hx) as Ex. injection Ex as Ex.
    assert (u64 (t_pid demo_dead_thread) = 3) as Ep by (by vm_compute).
    exists s'. split; [|exact Hsy]. refine (eq_trans Hrun _). rewrite Eo, <-Ex, Ep. exact eq_refl.
Defined.

(** The writing end of the pipe of [demo_pipe] has no position. *)
Lemma sys_lseek_exact_witness :
  ∃ r s' fl, sys_lseek 4 8 0 demo_pipe = Ok (r, s') ∧ seek_result (sc_vfs demo_pipe) (std_table (fds (caller demo_pipe))) 4 8 0 r fl.
Proof.
  assert (open_at (std_table (fds (caller demo_pipe))) 4 = Some (VfsFile true FD_PIPE (Some 3%nat) 0 0)) as Ho by (by vm_compute).
  pose proof (sys_lseek_exact demo_pipe [] [] (caller demo_pipe) 4 8 0 demo_pipe_system (caller_at _ _ _ demo_pipe_system) (proj1 demo_pipe_ok) (or_introl eq_refl)) as H.
  destruct H as (r & s' & fl & Hrun & Hr & _).
  - intros f Hf Hk. exfalso. change (int 4) with 4 in Hf. pose proof (eq_trans (eq_sym Ho) Hf) as Ef. injection Ef as Ef. rewrite <-Ef in Hk. discriminate Hk.
  - exists r, s', fl. split; [exact Hrun|exact Hr].
Defined.

(** A file of five bytes is open as descriptor 5. *)
Definition demo_file : sched :=
  let nd := Vnode [102] VFS_FILE 5 None None 1 (Vattr 0 0 0x1A4) (Some [1; 2; 3; 4; 5]) 5 [] 0 None in
  let s := put_vfs (set_nodes (insert 7%nat nd) (sc_vfs demo_proc)) demo_proc in
  set_threads (insert (current s) (set_fd 5 (VfsFile true FD_VNODE (Some 7%nat) 2 0) demo_caller)) s.
Definition seek (a2 a3 : Z) (s : sched) : option Z := match sys_lseek 5 a2 a3 s with Ok (r, _) => Some r | _ => None end.

Example lseek_positions : (seek 1 0 demo_file, seek 1 1 demo_file, seek (u64 (-1)) 2 demo_file, seek (u64 (-3)) 1 demo_file) = (Some 1, Some 3, Some 4, Some (neg EINVAL)).
Proof. by vm_compute. Qed.

(** The sum of a position and an offset can overflow, which C does not define. *)
Example lseek_overflows : sys_lseek 5 (2 ^ 63 - 1) 1 demo_file = Fault.
Proof. by vm_compute. Qed.

(** [sys_chdir] does not resolve "..", so that the directory of a process grows
    with every step up and back. *)
Example chdir_keeps_dots :
  match make_abs (cstr "../mnt") (cstr "/mnt") demo_proc with Ok (c, _) => c = cstr "/mnt/../mnt" | _ => False end.
Proof. by vm_compute. Qed.
