(* ===== verification/Packet.v ===== *)
(** * Packet: bytes in arrays and packets

    What the readers and writers of packets share: a run of bytes at an index of
    an array, the array after a store, and big-endian fields. *)

From S2P Require Import Prelude NetUtil CString.

Ltac slia := unfold strlen in *; simpl length in *; rewrite ?length_app in *; simpl length in *; lia.

(** An array with [bs] written at [i]. *)
Definition written (q : list Z) (i : Z) (bs : list Z) : list Z :=
  take (Z.to_nat i) q ++ bs ++ drop (Z.to_nat i + length bs) q.

Lemma written_app q i bs cs :
  0 ≤ i → i + strlen bs + strlen cs ≤ strlen q → written (written q i bs) (i + strlen bs) cs = written q i (bs ++ cs).
Proof.
  unfold written, strlen. intros Hi Hl. assert (length (take (Z.to_nat i) q ++ bs) = Z.to_nat (i + Z.of_nat (length bs))) as Hlen.
  { rewrite length_app, length_take. lia. }
  rewrite (app_assoc (take _ q) bs), take_app_length' by (by rewrite Hlen). rewrite <-!app_assoc. do 3 f_equal.
  rewrite !app_assoc, drop_app_ge by (rewrite Hlen; lia). rewrite Hlen, drop_drop. f_equal. rewrite length_app. lia.
Qed.

Lemma strlen_written q i bs : 0 ≤ i → i + strlen bs ≤ strlen q → strlen (written q i bs) = strlen q.
Proof. unfold written, strlen. intros. rewrite !length_app, length_take, length_drop. lia. Qed.

Lemma wp_write_bytes {St} q i bs (Q : list Z → St → Prop) s :
  0 ≤ i → i + strlen bs ≤ strlen q → Q (written q i bs) s → wp (store_bytes q i bs) Q s.
Proof.
  unfold strlen. intros Hi Hl HQ. apply wp_ok. exists (written q i bs), s. split; [|done].
  pose proof (store_bytes_spec (take (Z.to_nat i) q) (take (length bs) (drop (Z.to_nat i) q)) bs (drop (Z.to_nat i + length bs) q) s) as Hs.
  rewrite <-drop_drop, take_drop, take_drop in Hs. replace (Z.of_nat (length (take (Z.to_nat i) q))) with i in Hs by (rewrite length_take; lia). rewrite Hs.
  - unfold written. by rewrite drop_drop.
  - rewrite length_take, length_drop. lia.
Qed.

Lemma written_nil q i : written q i [] = q.
Proof. unfold written. simpl. rewrite Nat.add_0_r. apply take_drop. Qed.

(** The bytes [bs] are in [buf] from index [i] on. *)
Definition bytes_at (buf : list Z) (i : Z) (bs : list Z) : Prop :=
  0 ≤ i ∧ ∀ k b, bs !! k = Some b → buf !! (Z.to_nat i + k)%nat = Some b.

Lemma bytes_at_app buf i bs cs : bytes_at buf i (bs ++ cs) ↔ bytes_at buf i bs ∧ bytes_at buf (i + strlen bs) cs.
Proof.
  unfold bytes_at, strlen. split.
  - intros [Hi H]. split; (split; [lia|]); intros k b Hk.
    + apply H. by apply lookup_app_l_Some.
    + rewrite <-(H (length bs + k)%nat b); [f_equal; lia|]. rewrite lookup_app_r by lia. rewrite <-Hk. f_equal. lia.
  - intros [[Hi H1] [_ H2]]. split; [done|]. intros k b [Hk|[Hl Hk]]%lookup_app_Some; [by apply H1|].
    rewrite <-(H2 _ b Hk). f_equal. lia.
Qed.

Lemma bytes_at_cons buf i b bs : bytes_at buf i (b :: bs) ↔ 0 ≤ i ∧ buf !! Z.to_nat i = Some b ∧ bytes_at buf (i + 1) bs.
Proof.
  change (b :: bs) with ([b] ++ bs). rewrite bytes_at_app. change (strlen [b]) with 1. split.
  - intros [[Hi H] ?]. split_and!; [done| |done]. specialize (H 0%nat b eq_refl). by rewrite Nat.add_0_r in H.
  - intros (Hi & H & ?). split; [|done]. split; [done|]. intros [|k] c Hk; [|done]. injection Hk as <-. by rewrite Nat.add_0_r.
Qed.

Lemma bytes_at_slice buf i m : 0 ≤ i → bytes_at buf i (take m (drop (Z.to_nat i) buf)).
Proof. intros Hi. split; [done|]. intros k b Hk. apply lookup_take_Some in Hk as [Hk _]. by rewrite lookup_drop in Hk. Qed.

Lemma bytes_at_length buf i bs : bytes_at buf i bs → bs ≠ [] → i + strlen bs ≤ strlen buf.
Proof.
  intros [Hi H] Hne. destruct (exists_last Hne) as (l & x & ->). unfold strlen in *.
  specialize (H (length l) x). rewrite lookup_app_r, Nat.sub_diag in H by lia. specialize (H eq_refl).
  apply lookup_lt_Some in H. rewrite length_app. simpl. lia.
Qed.

Lemma wp_load_at {St} buf i bs b (Q : Z → St → Prop) s : bytes_at buf i (b :: bs) → Q b s → wp (load buf i) Q s.
Proof. intros (Hi & Hb & _)%bytes_at_cons HQ. by eapply wp_load. Qed.

Lemma byte_at buf n pos : Forall is_u8 buf → n ≤ strlen buf → 0 ≤ pos < n → ∃ b, buf !! Z.to_nat pos = Some b ∧ is_u8 b.
Proof.
  intros Hu Hn Hp. destruct (lookup_lt_is_Some_2 buf (Z.to_nat pos)) as [b Hb]; [unfold strlen in Hn; lia|].
  exists b. split; [done|]. by eapply Forall_lookup_1.
Qed.

Lemma bytes_at_written q i bs : 0 ≤ i → i + strlen bs ≤ strlen q → bytes_at (written q i bs) i bs.
Proof.
  intros Hi Hl. split; [done|]. intros k b Hk. unfold written, strlen in *.
  rewrite lookup_app_r; rewrite length_take; [|lia]. rewrite lookup_app_l_Some with (x := b); [done|]. rewrite <-Hk. f_equal. lia.
Qed.

Lemma written_u8 q i bs : Forall is_u8 q → Forall is_u8 bs → Forall is_u8 (written q i bs).
Proof. intros. unfold written. rewrite !Forall_app. split_and!; [by apply Forall_take|done|by apply Forall_drop]. Qed.

(** The result of a run that has a specification is the specified one. *)
Lemma wp_result {St A} (m : M St A) a s : wp m (λ b s', b = a ∧ s' = s) s → m s = Ok (a, s).
Proof. intros (b & s' & Hrun & -> & ->)%wp_ok. exact Hrun. Qed.

(** ** Big-endian fields *)

(** A big-endian field: [be16toh] of the 16-bit word at [buf + pos]. *)
Definition load_be16 {St} (buf : list Z) (pos : Z) : M St Z :=
  a ← load buf pos;
  b ← load buf (pos + 1);
  mret (be16toh (Z.lor a (Z.shiftl b 8))).

Definition be16_bytes (v : Z) : list Z := [v / 256; v mod 256].

Lemma wp_load_be16 {St} buf pos a b (Q : Z → St → Prop) s :
  bytes_at buf pos [a; b] → is_u8 a → is_u8 b → Q (a * 256 + b) s → wp (load_be16 buf pos) Q s.
Proof.
  intros Hb Ha Hb' HQ. unfold load_be16. pose proof Hb as (_ & _ & Hb2)%bytes_at_cons.
  wp_step. eapply wp_load_at; [exact Hb|]. wp_step. eapply wp_load_at; [exact Hb2|]. wp_step.
  unfold be16toh. rewrite word_add by done. rewrite htobe16_bytes by (unfold is_u16, is_u8 in *; lia).
  rewrite Z_mod_plus_full, Z_div_plus_full, Z.mod_small, Z.div_small by (unfold is_u8 in *; lia). by rewrite Z.add_0_l.
Qed.

Lemma be16_split v : is_u16 v → is_u8 (v / 256) ∧ is_u8 (v mod 256) ∧ v / 256 * 256 + v mod 256 = v.
Proof. unfold is_u16, is_u8. intros Hv. pose proof (Z.div_mod v 256). pose proof (Z.mod_pos_bound v 256). split_and!; lia. Qed.

Lemma be16_pair a b x y : is_u8 a → is_u8 b → is_u8 x → is_u8 y → a * 256 + b = x * 256 + y → a = x ∧ b = y.
Proof. unfold is_u8. lia. Qed.
