(* ===== verification/Dns.v ===== *)
(** * Dns: names, replies and lookups of the resolver (kernel/dns.c)

    The encoding of a host name, the parser of dotted quads, the walk over the
    names of a reply and [dns_resolve] over the UDP layer. *)

From Stdlib Require Import String.
From S2P Require Import Prelude NetUtil NetBuf Net Link Arp Ip CString Packet Udp.

Definition DNS_PORT : Z := 53.
Definition DNS_TYPE_A : Z := 1.
Definition DNS_CLASS_IN : Z := 1.
Definition DNS_FLAG_RD : Z := 0x0100.
Definition DNS_FLAG_QR : Z := 0x8000.
Definition DNS_HDR_LEN : Z := 12.

(** The static of dns.c over the network stack. *)
Record dns := Dns { g_dns_id : Z; dn_net : net }.
Definition put_net (x : net) (s : dns) : dns := Dns (g_dns_id s) x.
Definition on_net {A} (m : M net A) : M dns A := zoom dn_net put_net m.

(** ** Names *)

(** The label before the first dot and the rest from the dot on. *)
Fixpoint upto_dot (p : list Z) : list Z * list Z :=
  match p with
  | [] => ([], [])
  | c :: p' => if c =? 46 then ([], p) else let '(l, r) := upto_dot p' in (c :: l, r)
  end.

(** One label; [out] points to byte [base] of the array [q].  The result of the
    function: the array and [total], or none for -1. *)
Definition encode_label {St} (base : Z) (st : list Z * Z * list Z) : M St (list Z * Z * list Z + option (list Z * Z)) :=
  let '(q, total, p) := st in
  match p with
  | [] => mret (inr (Some (q, total)))
  | _ :: _ =>
    let '(lab, rest) := upto_dot p in
    let len := strlen lab in
    if (len =? 0) || (63 <? len) then mret (inr None)
    else
      q ← store_bytes q (base + total) [u8 len];
      let total := total + 1 in
      if 255 <? total + len then mret (inr None)
      else
        q ← store_bytes q (base + total) lab;
        mret (inl (q, total + len, match rest with _ :: r => r | [] => [] end))
  end.

Definition dns_encode_name {St} (q : list Z) (base : Z) (name : list Z) : M St (option (list Z * Z)) :=
  r ← loop_fuel (S (length name)) (encode_label base) (q, 0, name);
  match r with
  | None => mret None
  | Some (q, total) => q ← store_bytes q (base + total) [0]; mret (Some (q, total + 1))
  end.

(** The loop of [dns_parse_dot4] with [parts[0..np)], [v] and [any]. *)
Fixpoint dot4_loop (p parts : list Z) (v : Z) (any : bool) : option (list Z * Z * bool) :=
  match p with
  | [] => Some (parts, v, any)
  | c :: p' =>
    if (48 <=? c) && (c <=? 57) then
      let v := u32 (v * 10 + (c - 48)) in
      if 255 <? v then None else dot4_loop p' parts v true
    else if c =? 46 then
      if negb any || (3 <=? length parts)%nat then None else dot4_loop p' (parts ++ [v]) 0 false
    else None
  end.

Definition dns_parse_dot4 (s : list Z) : option Z :=
  match dot4_loop s [] 0 false with
  | Some ([p0; p1; p2], v, true) => Some (ip4_make p0 p1 p2 v)
  | _ => None
  end.

(** ** Replies

    [buf] holds the bytes received: a read at [n] or behind faults. *)

Fixpoint skip_loop {St} (guard : nat) (buf : list Z) (n pos off : Z) (jumped : bool) : M St Z :=
  match guard with
  | O => mret (-1)
  | S guard =>
    if (pos <? 0) || (n <=? pos) then mret (-1)
    else
      len ← load buf pos;
      if len =? 0 then mret (if jumped then off else pos + 1)
      else if Z.land len 0xC0 =? 0xC0 then
        if n <=? pos + 1 then mret (-1)
        else
          lo ← load buf (pos + 1);
          skip_loop guard buf n (Z.lor (Z.shiftl (Z.land len 0x3F) 8) lo) (if jumped then off else pos + 2) true
      else if Z.land len 0xC0 =? 0 then
        if n <=? pos + 1 + len then mret (-1) else skip_loop guard buf n (pos + 1 + len) off jumped
      else mret (-1)
  end.

Definition dns_skip_name {St} (buf : list Z) (n off : Z) : M St Z := skip_loop 64 buf n off off false.

(** The questions; none for [goto done]. *)
Fixpoint skip_questions {St} (nq : nat) (resp : list Z) (n pos : Z) : M St (option Z) :=
  match nq with
  | O => mret (Some pos)
  | S nq =>
    pos ← dns_skip_name resp n pos;
    if pos <? 0 then mret None else skip_questions nq resp n (pos + 4)
  end.

(** The answers: the address of the first record of type A. *)
Fixpoint find_answer {St} (na : nat) (resp : list Z) (n pos : Z) : M St (option Z) :=
  match na with
  | O => mret None
  | S na =>
    pos ← dns_skip_name resp n pos;
    if pos <? 0 then mret None
    else if n <? pos + 10 then mret None
    else
      type ← load_be16 resp pos;
      cls ← load_be16 resp (pos + 2);
      rdlen ← load_be16 resp (pos + 8);
      let pos := pos + 10 in
      if (type =? DNS_TYPE_A) && (cls =? DNS_CLASS_IN) && (rdlen =? 4) && (pos + 4 <=? n) then
        a ← load resp pos;
        b ← load resp (pos + 1);
        c ← load resp (pos + 2);
        d ← load resp (pos + 3);
        mret (Some (ip4_make a b c d))
      else find_answer na resp n (pos + rdlen)
  end.

(** What the loop of [dns_resolve] does with a datagram: none to [continue],
    or its result. *)
Definition dns_response {St} (id : Z) (resp : list Z) (n : Z) : M St (option (option Z)) :=
  if n <? DNS_HDR_LEN then mret None
  else
    rid ← load_be16 resp 0;
    flags ← load_be16 resp 2;
    if negb (rid =? id) || (Z.land flags DNS_FLAG_QR =? 0) then mret None
    else if negb (Z.land flags 0x000F =? 0) then mret (Some None)
    else
      nq ← load_be16 resp 4;
      pos ← skip_questions (Z.to_nat nq) resp n DNS_HDR_LEN;
      match pos with
      | None => mret (Some None)
      | Some pos =>
        na ← load_be16 resp 6;
        r ← find_answer (Z.to_nat na) resp n pos;
        mret (Some r)
      end.

(** ** Lookups *)

(** The header of a query. *)
Definition dns_query_hdr (id : Z) : list Z :=
  put16 (htobe16 id) ++ put16 (htobe16 DNS_FLAG_RD) ++ put16 (htobe16 1) ++ put16 0 ++ put16 0 ++ put16 0.

(** The query in [q]: the array and its length, or none for -1. *)
Definition dns_build_query {St} (id : Z) (name : list Z) : M St (option (list Z * Z)) :=
  q ← store_bytes (replicate 512 0) 0 (dns_query_hdr id);
  r ← dns_encode_name q DNS_HDR_LEN name;
  match r with
  | None => mret None
  | Some (q, r) =>
    let off := DNS_HDR_LEN + r in
    if 512 <? off + 4 then mret None
    else q ← store_bytes q off [0; DNS_TYPE_A; 0; DNS_CLASS_IN]; mret (Some (q, off + 4))
  end.

Section resolve.
Context `{NetEnv}.

(** One turn of the loop that waits for the reply. *)
Definition dns_poll (fuel : nat) (sock id deadline : Z) : M dns (unit + option Z) :=
  now ← on_net clock_mono_ns;
  if now <? deadline then
    ready ← on_net (on_udp (udp_datagram_ready sock));
    if negb (ready =? 0) then
      '(n, resp, _) ← on_net (udp_recvfrom fuel sock 1024);
      r ← dns_response id resp n;
      mret (match r with None => inl tt | Some r => inr r end)
    else on_net sched_yield ;; mret (inl tt)
  else mret (inr None).

(** The return value and the address stored at [ip_out], which is not null.
    [fuel] bounds the waits, which the clock ends. *)
Definition dns_resolve (fuel : nat) (dev : option nat) (name : option (list Z)) : M dns (Z * option Z) :=
  match name with
  | None => mret (-1, None)
  | Some name =>
    match dns_parse_dot4 name with
    | Some ip => mret (0, Some ip)
    | None =>
      match dev with
      | None => mret (-1, None)
      | Some d =>
        v ← on_net (dev_get d);
        let server := if nd_dns_server v =? 0 then ip4_make 10 0 2 3 else nd_dns_server v in
        if (strlen name =? 0) || (255 <? strlen name) then mret (-1, None)
        else
          id ← gets g_dns_id;
          let id := u16 (id + 1) in
          modify (λ s, Dns id (dn_net s)) ;;
          q ← dns_build_query id name;
          match q with
          | None => mret (-1, None)
          | Some (q, off) =>
            sock ← on_net (on_udp udp_socket);
            if sock <? 0 then mret (-1, None)
            else
              r ← on_net (udp_sendto sock server DNS_PORT (take (Z.to_nat off) q));
              if r <? 0 then on_net (udp_close sock) ;; mret (-1, None)
              else
                now ← on_net clock_mono_ns;
                r ← loop_fuel fuel (λ _, dns_poll fuel sock id (u64 (now + 5 * 1000000000))) tt;
                on_net (udp_close sock) ;;
                mret (match r with None => (-1, None) | Some ip => (0, Some ip) end)
          end
      end
    end
  end.
End resolve.

(** ** The wire format of names *)

(** The labels of a dotted name; a dot at the end adds none. *)
Fixpoint split_dots (p : list Z) : list (list Z) :=
  match p with
  | [] => [[]]
  | c :: p' =>
    if c =? 46 then [] :: split_dots p'
    else match split_dots p' with l :: ls => (c :: l) :: ls | [] => [[c]] end
  end.
Definition labels (name : list Z) : list (list Z) :=
  let ls := split_dots name in
  if bool_decide (last ls = Some []) then take (length ls - 1) ls else ls.

Definition wire1 (l : list Z) : list Z := strlen l :: l.
Definition wire_labels (ls : list (list Z)) : list Z := ls ≫= wire1.
Definition wire (ls : list (list Z)) : list Z := wire_labels ls ++ [0].
Definition label_ok (l : list Z) : Prop := 1 ≤ strlen l ≤ 63.
#[export] Instance label_ok_dec l : Decision (label_ok l) := _.
Definition encodable (ls : list (list Z)) : Prop := Forall label_ok ls ∧ strlen (wire ls) ≤ 256.
#[export] Instance encodable_dec ls : Decision (encodable ls) := _.

Lemma split_dots_nonempty p : split_dots p ≠ [].
Proof. destruct p as [|c p]; simpl; [done|]. destruct (c =? 46); [done|]. by destruct (split_dots p). Qed.

Lemma upto_dot_split p lab rest :
  upto_dot p = (lab, rest) →
  split_dots p = lab :: match rest with [] => [] | _ :: r => split_dots r end ∧ (length lab + length rest = length p)%nat.
Proof.
  revert lab rest. induction p as [|c p IH]; intros lab rest; simpl; [by intros [= <- <-]|].
  destruct (c =? 46); [by intros [= <- <-]|]. destruct (upto_dot p) as [l r]. intros [= <- <-].
  destruct (IH l r eq_refl) as [-> Hl]. split; [done|]. simpl. lia.
Qed.

Lemma labels_step p lab rest :
  p ≠ [] → upto_dot p = (lab, rest) → labels p = lab :: labels (match rest with _ :: r => r | [] => [] end).
Proof.
  intros Hp Hu. destruct (upto_dot_split _ _ _ Hu) as [Hs Hl]. unfold labels. rewrite Hs. destruct rest as [|c r].
  - simpl. destruct lab as [|x lab]; [destruct p; simpl in *; [done|lia]|]. by rewrite bool_decide_false by done.
  - pose proof (split_dots_nonempty r) as Hne. destruct (split_dots r) as [|a ls]; [done|].
    change (last (lab :: a :: ls)) with (last (a :: ls)). case_bool_decide; simpl; [|done].
    by replace (length ls - 0)%nat with (length ls) by lia.
Qed.

Definition encoded (q : list Z) (base total : Z) (ls : list (list Z)) : option (list Z * Z) :=
  if bool_decide (Forall label_ok ls ∧ total + strlen (wire_labels ls) ≤ 255)
  then Some (written q (base + total) (wire_labels ls), total + strlen (wire_labels ls)) else None.

Lemma strlen_wire1 l ls : strlen (wire_labels (l :: ls)) = 1 + strlen l + strlen (wire_labels ls).
Proof. unfold strlen. change (wire_labels (l :: ls)) with (wire1 l ++ wire_labels ls). rewrite length_app. unfold wire1. simpl length. lia. Qed.

Lemma wp_encode_labels {St} fuel q base total p (Q : option (list Z * Z) → St → Prop) s :
  (length p < fuel)%nat → 0 ≤ base → 0 ≤ total ≤ 255 → base + 256 ≤ strlen q →
  Q (encoded q base total (labels p)) s → wp (loop_fuel fuel (encode_label base) (q, total, p)) Q s.
Proof.
  revert q total p. induction fuel as [|fuel IH]; intros q total p Hf Hb Ht Hq HQ; [lia|].
  assert (∀ x : list Z, strlen x = Z.of_nat (length x)) as Hsl by done.
  cbn [loop_fuel]. apply wp_bind. unfold encode_label. destruct p as [|c p0]; [|set (p := c :: p0) in *].
  { wp_step. wp_step. unfold encoded in HQ. change (wire_labels (labels [])) with (@nil Z) in HQ. change (strlen []) with 0 in HQ.
    rewrite written_nil, bool_decide_true in HQ by (split; [done|lia]). by rewrite Z.add_0_r in HQ. }
  destruct (upto_dot p) as [lab rest] eqn:Hu. destruct (upto_dot_split _ _ _ Hu) as [_ Hlen]. rewrite (labels_step p lab rest) in HQ by done.
  set (p' := match rest with _ :: r => r | [] => [] end) in *. assert (length p' < fuel)%nat as Hf'.
  { subst p p'. destruct rest; simpl in *; lia. }
  destruct ((strlen lab =? 0) || (63 <? strlen lab)) eqn:E1.
  { wp_step. wp_step. unfold encoded in HQ. rewrite bool_decide_false in HQ; [done|]. intros [Hl _]. apply Forall_cons in Hl as [Hl _].
    unfold label_ok in Hl. apply orb_true_iff in E1 as [E%Z.eqb_eq|E%Z.ltb_lt]; lia. }
  apply orb_false_iff in E1 as [E1%Z.eqb_neq E2%Z.ltb_ge]. assert (0 ≤ strlen lab) by (rewrite Hsl; lia).
  unfold u8. rewrite Z.mod_small by lia. wp_step. apply wp_write_bytes; [lia|slia|].
  destruct (255 <? total + 1 + strlen lab) eqn:E3.
  { wp_step. wp_step. unfold encoded in HQ. rewrite bool_decide_false in HQ; [done|]. intros [_ Hl]. rewrite strlen_wire1 in Hl.
    pose proof (Hsl (wire_labels (labels p'))). lia. }
  apply Z.ltb_ge in E3. wp_step. change (base + (total + 1)) with (base + (total + strlen [strlen lab])).
  assert (base + total + 1 + strlen lab ≤ strlen q) by lia.
  apply wp_write_bytes; [slia|rewrite strlen_written by slia; slia|].
  rewrite Z.add_assoc, written_app by slia. wp_step. apply IH; [done|done|lia|rewrite strlen_written; [lia|lia|slia]|].
  unfold encoded in *. rewrite strlen_wire1 in HQ. change ([strlen lab] ++ lab) with (wire1 lab).
  destruct (decide (Forall label_ok (labels p') ∧ total + 1 + strlen lab + strlen (wire_labels (labels p')) ≤ 255)) as [[Hl1 Hl2]|Hno].
  - rewrite bool_decide_true in HQ by (split; [apply Forall_cons; split; [unfold label_ok; lia|done]|lia]). rewrite bool_decide_true by (by split).
    replace (base + (total + 1 + strlen lab)) with (base + total + strlen (wire1 lab)) by slia.
    rewrite written_app; [by replace (total + 1 + strlen lab + strlen (wire_labels (labels p'))) with (total + (1 + strlen lab + strlen (wire_labels (labels p')))) by lia|lia|].
    unfold wire1. rewrite !Hsl in *. simpl. lia.
  - rewrite bool_decide_false by done. rewrite bool_decide_false in HQ; [done|]. intros [Hl1 Hl2]. apply Hno. apply Forall_cons in Hl1 as [_ Hl1]. split; [done|lia].
Qed.

Lemma wp_encode_name {St} q base name (Q : option (list Z * Z) → St → Prop) s :
  0 ≤ base → base + 256 ≤ strlen q →
  Q (if bool_decide (encodable (labels name)) then Some (written q base (wire (labels name)), strlen (wire (labels name))) else None) s →
  wp (dns_encode_name q base name) Q s.
Proof.
  intros Hb Hq HQ. unfold dns_encode_name. wp_step. apply wp_encode_labels; [lia|done|lia|done|].
  assert (∀ x : list Z, strlen x = Z.of_nat (length x)) as Hsl by done.
  assert (strlen (wire (labels name)) = strlen (wire_labels (labels name)) + 1) as Hw by (unfold wire; rewrite !Hsl, length_app; simpl; lia).
  unfold encoded. rewrite Z.add_0_r, Z.add_0_l.
  destruct (decide (Forall label_ok (labels name) ∧ strlen (wire_labels (labels name)) ≤ 255)) as [[H1 H2]|Hno].
  - rewrite bool_decide_true, Hw in HQ by (split; [done|lia]). rewrite bool_decide_true by done.
    assert (0 ≤ strlen (wire_labels (labels name))) by (rewrite Hsl; lia).
    wp_step. apply wp_write_bytes; [lia|rewrite strlen_written by lia; slia|]. wp_step. by rewrite written_app by slia.
  - rewrite bool_decide_false in HQ; [rewrite bool_decide_false by done; by wp_step|]. intros [H1 H2]. apply Hno. split; [done|lia].
Qed.

(** ** Names in a packet *)

(** A name of [k] steps starts at [pos] of the first [n] bytes and ends before
    [e] (RFC 1035, 4.1.4): labels, then the root or a pointer to a name. *)
Inductive name_at (buf : list Z) (n : Z) : nat → Z → Z → Prop :=
  | name_root pos : pos < n → bytes_at buf pos [0] → name_at buf n 1 pos (pos + 1)
  | name_label pos l k e : label_ok l → bytes_at buf pos (wire1 l) → name_at buf n k (pos + 1 + strlen l) e → name_at buf n (S k) pos e
  | name_pointer pos h lo k e : 0 ≤ h < 64 → is_u8 lo → pos + 1 < n → bytes_at buf pos [0xC0 + h; lo] → name_at buf n k (h * 256 + lo) e →
    name_at buf n (S k) pos (pos + 2).

(** The two top bits of a length byte. *)
Lemma length_byte b : is_u8 b →
  b = 0 ∨ 1 ≤ b ≤ 63 ∧ Z.land b 0xC0 = 0 ∨ (∃ h, b = 0xC0 + h ∧ 0 ≤ h < 64 ∧ Z.land b 0xC0 = 0xC0 ∧ Z.land b 0x3F = h) ∨
  64 ≤ b < 192 ∧ Z.land b 0xC0 ≠ 0 ∧ Z.land b 0xC0 ≠ 0xC0.
Proof.
  intros Hb. pose (f b := (b =? 0) || ((1 <=? b) && (b <=? 63) && (Z.land b 0xC0 =? 0)) ||
    ((0xC0 <=? b) && (b <? 0x100) && (Z.land b 0xC0 =? 0xC0) && (Z.land b 0x3F =? b - 0xC0)) ||
    ((64 <=? b) && (b <? 192) && negb (Z.land b 0xC0 =? 0) && negb (Z.land b 0xC0 =? 0xC0))).
  assert (f b = true) as Hf.
  { assert (forallb f (seqZ 0 256) = true) as Hall by (by vm_compute). rewrite forallb_forall in Hall. apply Hall, list_elem_of_In, elem_of_seqZ. unfold is_u8 in Hb. lia. }
  unfold f in Hf. rewrite !orb_true_iff, !andb_true_iff, !negb_true_iff, !Z.eqb_eq, !Z.eqb_neq, !Z.leb_le, !Z.ltb_lt in Hf.
  destruct Hf as [[[?|?]|?]|?]; [by left|right; left; tauto| |right; right; right; tauto].
  right; right; left. exists (b - 0xC0). split_and!; lia.
Qed.

Lemma pointer_target h lo : 0 ≤ h < 64 → is_u8 lo → Z.lor (Z.shiftl h 8) lo = h * 256 + lo.
Proof. intros Hh Hl. rewrite Z.lor_comm. rewrite (lor_low_high lo h 8) by (unfold is_u8 in *; lia). lia. Qed.

Lemma name_at_pos buf n k pos e : name_at buf n k pos e → 0 ≤ pos < n.
Proof.
  induction 1 as [pos Hn [Hi _]|pos l k e Hl [Hi _] _ IH|pos h lo k e Hh Hl Hn [Hi _] _ IH]; [done| |lia].
  unfold label_ok, strlen in *. lia.
Qed.

Section skip.
Context (buf : list Z) (n : Z).
Hypothesis Hbuf : Forall is_u8 buf.
Hypothesis Hn : n ≤ strlen buf.

(** The loop finds the end of the name, unless it has too many steps. *)
Lemma wp_skip_loop {St} guard pos off (jumped : bool) (Q : Z → St → Prop) s :
  (∀ k e, (k ≤ guard)%nat → name_at buf n k pos e → Q (if jumped then off else e) s) →
  ((∀ k e, name_at buf n k pos e → (guard < k)%nat) → Q (-1) s) →
  wp (skip_loop guard buf n pos off jumped) Q s.
Proof.
  revert pos off jumped. induction guard as [|guard IH]; intros pos off jumped Hyes Hno; cbn [skip_loop].
  { wp_step. apply Hno. intros k e Hk. destruct Hk; lia. }
  destruct ((pos <? 0) || (n <=? pos)) eqn:E.
  { wp_step. apply Hno. intros k e Hk. apply name_at_pos in Hk. lia. }
  assert (0 ≤ pos < n) as Hp by lia. destruct (byte_at buf n pos Hbuf Hn Hp) as (b & Hb & Hu). wp_step. eapply wp_load; [lia|exact Hb|].
  assert (∀ c l, bytes_at buf pos (c :: l) → c = b) as Hsame by (intros c l (_ & Hc & _)%bytes_at_cons; congruence).
  destruct (length_byte b Hu) as [->|[[Hr Hz]|[(h & Eb & Hh & Hz & Hz')|(Hr & Hz & Hz')]]].
  - change (0 =? 0) with true. cbn iota. wp_step. apply (Hyes 1%nat); [lia|]. constructor; [lia|].
    apply bytes_at_cons. split_and!; [lia|done|]. by split; [lia|].
  - rewrite (proj2 (Z.eqb_neq b 0)) by lia. rewrite Hz. change (0 =? 0xC0) with false. change (0 =? 0) with true. cbn iota.
    assert (∀ k e, name_at buf n k pos e → ∃ k', k = S k' ∧ name_at buf n k' (pos + 1 + b) e) as Hinv.
    { intros k e Hk. inversion Hk as [? ? Hbs|? l k' ? Hl Hbs Hk'|? h lo k' e' Hh ? ? Hbs]; subst; apply Hsame in Hbs.
      - lia.
      - exists k'. split; [done|]. by rewrite <-Hbs.
      - lia. }
    destruct (Z.leb_spec n (pos + 1 + b)).
    + wp_step. apply Hno. intros k e Hk. destruct (Hinv _ _ Hk) as (k' & -> & Hk'). apply name_at_pos in Hk'. lia.
    + apply IH; [|intros Hlt; apply Hno; intros k e Hk; destruct (Hinv _ _ Hk) as (k' & -> & Hk'); specialize (Hlt _ _ Hk'); lia].
      intros k e Hle Hk. apply (Hyes (S k)); [lia|]. pose (l := take (Z.to_nat b) (drop (Z.to_nat (pos + 1)) buf)).
      assert (strlen l = b) as Hsl by (unfold l, strlen in *; rewrite length_take, length_drop; lia).
      apply (name_label _ _ _ l); [unfold label_ok; lia| |by rewrite Hsl]. unfold wire1. rewrite Hsl. apply bytes_at_cons. split_and!; [lia|done|].
      apply bytes_at_slice. lia.
  - rewrite (proj2 (Z.eqb_neq b 0)) by lia. rewrite Hz. change (0xC0 =? 0xC0) with true. cbn iota.
    assert (∀ k e, name_at buf n k pos e → ∃ lo k' e', k = S k' ∧ e = pos + 2 ∧ is_u8 lo ∧ pos + 1 < n ∧ buf !! Z.to_nat (pos + 1) = Some lo ∧
      name_at buf n k' (h * 256 + lo) e') as Hinv.
    { intros k e Hk. inversion Hk as [? ? Hbs|? l k' ? Hl Hbs Hk'|? h' lo k' e' Hh' Hlo Hlt Hbs Hk']; subst; pose proof (Hsame _ _ Hbs) as Hbe.
      - lia.
      - unfold label_ok in Hl. lia.
      - exists lo, k', e'. assert (h' = h) as -> by lia. split_and!; try done. apply bytes_at_cons in Hbs as (_ & _ & Hbs). by apply bytes_at_cons in Hbs as (_ & ? & _). }
    destruct (Z.leb_spec n (pos + 1)).
    { wp_step. apply Hno. intros k e Hk. destruct (Hinv _ _ Hk) as (? & ? & ? & ? & ? & ? & ? & _). lia. }
    destruct (byte_at buf n (pos + 1) Hbuf Hn) as (lo & Hlo & Hlou); [lia|]. wp_step. eapply wp_load; [lia|exact Hlo|]. rewrite Hz', pointer_target by done.
    apply IH.
    + intros k e Hle Hk. specialize (Hyes (S k) (pos + 2) ltac:(lia)). destruct jumped; apply Hyes; (eapply name_pointer; [done|done|lia| |exact Hk]);
        rewrite Eb in Hb; rewrite !bytes_at_cons; (split_and!; [lia|done|lia|done|]); by split; [lia|].
    + intros Hlt. apply Hno. intros k e Hk. destruct (Hinv _ _ Hk) as (lo' & k' & e' & -> & _ & _ & _ & Hlo' & Hk').
      rewrite Hlo in Hlo'. injection Hlo' as <-. specialize (Hlt _ _ Hk'). lia.
  - rewrite (proj2 (Z.eqb_neq b 0)) by lia. rewrite (proj2 (Z.eqb_neq _ 0xC0)), (proj2 (Z.eqb_neq _ 0)) by done. wp_step. apply Hno.
    intros k e Hk. exfalso. inversion Hk as [? ? Hbs|? l k' ? Hl Hbs Hk'|? h' lo k' e' Hh' Hlo Hlt Hbs Hk']; subst; apply Hsame in Hbs; unfold label_ok in *; lia.
Qed.

Lemma wp_skip_name {St} off (Q : Z → St → Prop) s :
  (∀ k e, (k ≤ 64)%nat → name_at buf n k off e → off < e ≤ n → Q e s) →
  ((∀ k e, name_at buf n k off e → (64 < k)%nat) → Q (-1) s) → wp (dns_skip_name buf n off) Q s.
Proof.
  intros Hyes Hno. apply wp_skip_loop; [|done]. intros k e Hk Hat. apply (Hyes k); [done..|].
  clear -Hat. induction Hat as [pos Hlt _|pos l k e Hl _ Hat IH|pos h lo k e Hh Hl Hlt _ Hat IH]; [lia| |lia]. unfold label_ok in Hl. lia.
Qed.
End skip.

(** [dns_skip_name] returns for every packet, reads nothing outside of what
    was received, and its result is the end of the name as RFC 1035 defines it,
    through any compression pointers; -1 means that there is no name at the
    offset, or one of more than 64 steps. *)
Theorem dns_skip_name_exact {St} buf n off (s : St) :
  Forall is_u8 buf → n ≤ strlen buf →
  ∃ r, dns_skip_name buf n off s = Ok (r, s) ∧
    ((∃ k, (k ≤ 64)%nat ∧ name_at buf n k off r ∧ off < r ≤ n) ∨ r = -1 ∧ ∀ k e, name_at buf n k off e → (64 < k)%nat).
Proof.
  intros Hb Hn. assert (wp (dns_skip_name buf n off) (λ r s', s' = s ∧
    ((∃ k, (k ≤ 64)%nat ∧ name_at buf n k off r ∧ off < r ≤ n) ∨ r = -1 ∧ ∀ k e, name_at buf n k off e → (64 < k)%nat)) s) as Hwp.
  { apply wp_skip_name; [done|done|intros k e Hk Hat Hr|intros Hno]; (split; [done|]); [left; by exists k|by right]. }
  apply wp_ok in Hwp as (r & s' & Hrun & -> & Hr). by exists r.
Qed.

(** Labels in a row, then whatever ends the name. *)
Lemma name_labels buf n pos ls k e tl :
  Forall label_ok ls → bytes_at buf pos (wire_labels ls ++ tl) → name_at buf n k (pos + strlen (wire_labels ls)) e →
  name_at buf n (length ls + k) pos e.
Proof.
  revert pos. induction ls as [|l ls IH]; intros pos Hls Hb Hk.
  - change (strlen (wire_labels [])) with 0 in Hk. by rewrite Z.add_0_r in Hk.
  - apply Forall_cons in Hls as [Hl Hls]. change (wire_labels (l :: ls)) with (wire1 l ++ wire_labels ls) in Hb. rewrite <-app_assoc in Hb.
    apply bytes_at_app in Hb as [Hb1 Hb2]. replace (pos + strlen (wire1 l)) with (pos + 1 + strlen l) in Hb2 by (unfold wire1, strlen; simpl; lia).
    rewrite strlen_wire1 in Hk. apply (name_label _ _ _ l); [done..|]. apply IH; [done|done|].
    by replace (pos + 1 + strlen l + strlen (wire_labels ls)) with (pos + (1 + strlen l + strlen (wire_labels ls))) by lia.
Qed.

Lemma name_wire buf n pos ls :
  Forall label_ok ls → bytes_at buf pos (wire ls) → pos + strlen (wire ls) ≤ n → name_at buf n (S (length ls)) pos (pos + strlen (wire ls)).
Proof.
  intros Hls Hb Hn. assert (strlen (wire ls) = strlen (wire_labels ls) + 1) as Hw by (unfold wire, strlen; rewrite length_app; simpl; lia).
  rewrite <-Nat.add_1_r. eapply name_labels; [done|exact Hb|]. apply bytes_at_app in Hb as [_ Hb].
  rewrite Hw, Z.add_assoc. constructor; [lia|done].
Qed.

Lemma strlen_wire_nonneg ls : 0 ≤ strlen (wire ls).
Proof. unfold strlen. lia. Qed.

(** A position is the start of at most one name. *)
Lemma name_at_det buf n k pos e : name_at buf n k pos e → ∀ k' e', name_at buf n k' pos e' → k' = k ∧ e' = e.
Proof.
  induction 1 as [pos Hn Hb|pos l k e Hl Hb Hk IH|pos h lo k e Hh Hlo Hn Hb Hk IH]; intros k' e' Hk'; apply bytes_at_cons in Hb as (Hp & Hb & Hb');
    inversion Hk' as [? Hn2 Hb2|? l2 k2 ? Hl2 Hb2 Hk2|? h2 lo2 k2 e2 Hh2 Hlo2 Hn2 Hb2 Hk2]; subst; apply bytes_at_cons in Hb2 as (_ & Hb2 & Hb2'); rewrite Hb in Hb2;
    try (injection Hb2 as Hb2); unfold label_ok in *; try lia.
  - rewrite <-Hb2 in Hk2. by destruct (IH _ _ Hk2) as [-> ->].
  - assert (h2 = h) as -> by lia. apply bytes_at_cons in Hb' as (_ & Hb' & _), Hb2' as (_ & Hb2' & _). rewrite Hb' in Hb2'. injection Hb2' as <-.
    by destruct (IH _ _ Hk2) as [-> _].
Qed.

Lemma wp_skip_name_at {St} buf n off k e (Q : Z → St → Prop) s :
  Forall is_u8 buf → n ≤ strlen buf → name_at buf n k off e → (k ≤ 64)%nat → Q e s → wp (dns_skip_name buf n off) Q s.
Proof.
  intros Hb Hn Hat Hk HQ. apply wp_skip_name; [done|done| |].
  - intros k' e' _ Hat' _. by destruct (name_at_det _ _ _ _ _ Hat _ _ Hat') as [-> ->].
  - intros Hno. specialize (Hno _ _ Hat). lia.
Qed.

Lemma split_dots_forall (P : Z → Prop) p : Forall P p → Forall (Forall P) (split_dots p).
Proof.
  induction 1 as [|c p Hc Hp IH]; simpl; [by repeat constructor|]. destruct (c =? 46); [by constructor|].
  destruct (split_dots p); [by repeat constructor|]. inversion IH; subst. by repeat constructor.
Qed.

Lemma wire_u8 ls : Forall label_ok ls → Forall (Forall is_u8) ls → Forall is_u8 (wire ls).
Proof.
  intros Hls Hu. unfold wire. apply Forall_app. split; [|by repeat constructor].
  induction Hls as [|l ls Hl _ IH]; [constructor|]. apply Forall_cons in Hu as [Hl' Hu]. change (wire_labels (l :: ls)) with (wire1 l ++ wire_labels ls).
  apply Forall_app. split; [|by apply IH]. constructor; [|done]. unfold label_ok, is_u8 in *. lia.
Qed.

Lemma labels_u8 name : Forall is_u8 name → Forall (Forall is_u8) (labels name).
Proof. intros Hn%split_dots_forall. unfold labels. case_bool_decide; [by apply Forall_take|done]. Qed.

(** C33: [dns_encode_name] writes the labels of a name in wire format when each
    has 1 to 63 bytes and all of it fits 256 bytes, inside the space it is given,
    and returns -1 otherwise; and a name of at most 63 labels that was written is
    read back: [dns_skip_name] stops right behind it. *)
Theorem dns_name_roundtrip {St} q base name (s : St) :
  0 ≤ base → base + 256 ≤ strlen q → Forall is_u8 q → Forall is_u8 name →
  dns_encode_name q base name s = Ok (if bool_decide (encodable (labels name))
    then Some (written q base (wire (labels name)), strlen (wire (labels name))) else None, s) ∧
  (encodable (labels name) → (length (labels name) ≤ 63)%nat →
    ∀ n, base + strlen (wire (labels name)) ≤ n ≤ strlen q →
      dns_skip_name (written q base (wire (labels name))) n base s = Ok (base + strlen (wire (labels name)), s)).
Proof.
  intros Hb Hq Hqu Hnu. split.
  - apply wp_result. by apply wp_encode_name.
  - intros [Hls Hl] Hlen n Hn. apply wp_result. pose proof (labels_u8 _ Hnu) as Hlu.
    apply (wp_skip_name_at _ _ _ (S (length (labels name))) (base + strlen (wire (labels name)))); [|rewrite strlen_written; lia| |lia|done].
    + apply written_u8; [done|]. by apply wire_u8.
    + apply name_wire; [done|apply bytes_at_written; lia|lia].
Qed.

Lemma dns_name_roundtrip_witness :
  let name := cstr "www.example.com." in
  dns_encode_name (replicate 512 0) 12 name tt = Ok (Some (written (replicate 512 0) 12 (3 :: cstr "www" ++ 7 :: cstr "example" ++ 3 :: cstr "com" ++ [0]), 17), tt) ∧
  dns_skip_name (written (replicate 512 0) 12 (wire (labels name))) 512 12 tt = Ok (29, tt).
Proof.
  assert (encodable (labels (cstr "www.example.com."))) as He by (apply (bool_decide_unpack _); by vm_compute).
  destruct (dns_name_roundtrip (replicate 512 0) 12 (cstr "www.example.com.") tt) as [H1 H2].
  - lia.
  - by vm_compute.
  - apply (bool_decide_unpack _); by vm_compute.
  - apply (bool_decide_unpack _); by vm_compute.
  - split.
    + rewrite H1, bool_decide_true by exact He. reflexivity.
    + apply (H2 He); [vm_compute; lia|]. split; by vm_compute.
Defined.

Lemma dns_skip_name_exact_witness :
  let buf := [3; 119; 119; 119; 0; 0xC0; 0] in
  ∃ r, dns_skip_name buf 7 5 tt = Ok (r, tt) ∧ ((∃ k, (k ≤ 64)%nat ∧ name_at buf 7 k 5 r ∧ 5 < r ≤ 7) ∨ r = -1 ∧ ∀ k e, name_at buf 7 k 5 e → (64 < k)%nat).
Proof. apply dns_skip_name_exact; [apply (bool_decide_unpack _); by vm_compute|by vm_compute]. Defined.

Example pointer_skipped : dns_skip_name [3; 119; 119; 119; 0; 0xC0; 0] 7 5 tt = Ok (7, tt).
Proof. by vm_compute. Qed.

(** A pointer to itself is a name without end. *)
Example pointer_loop : dns_skip_name [0xC0; 0] 2 0 tt = Ok (-1, tt).
Proof. by vm_compute. Qed.

(** A name of 64 labels, which RFC 1035 allows, is taken for malformed. *)
Example many_labels : dns_skip_name (wire (replicate 64 [97])) 129 0 tt = Ok (-1, tt).
Proof. by vm_compute. Qed.

(** ** Replies *)

(** A record of type A of the Internet class, behind its name, holds [ip]. *)
Definition record_a (resp : list Z) (n pos ip : Z) : Prop :=
  pos + 14 ≤ n ∧ bytes_at resp pos [0; 1; 0; 1] ∧ bytes_at resp (pos + 8) [0; 4] ∧
  ∃ a b c d, bytes_at resp (pos + 10) [a; b; c; d] ∧ ip = ip4_make a b c d.

Section responses.
Context (resp : list Z) (n : Z).
Hypothesis Hresp : Forall is_u8 resp.
Hypothesis Hn : n ≤ strlen resp.

Lemma pair_at pos : 0 ≤ pos → pos + 2 ≤ n → ∃ a b, bytes_at resp pos [a; b] ∧ is_u8 a ∧ is_u8 b.
Proof.
  intros Hp Hl. destruct (byte_at resp n pos Hresp Hn) as (a & Ha & Hau); [lia|].
  destruct (byte_at resp n (pos + 1) Hresp Hn) as (b & Hb & Hbu); [lia|].
  exists a, b. split; [|done]. rewrite !bytes_at_cons. split_and!; [lia|done|lia|done|]. by split; [lia|].
Qed.

Lemma wp_skip_questions {St} nq pos (Q : option Z → St → Prop) s :
  0 ≤ pos → Q None s → (∀ e, pos ≤ e → Q (Some e) s) → wp (skip_questions nq resp n pos) Q s.
Proof.
  revert pos. induction nq as [|nq IH]; intros pos Hp Hno Hyes; cbn [skip_questions]; [wp_step; by apply Hyes|].
  wp_step. apply wp_skip_name; [done|done| |intros _; by wp_step].
  intros k e _ _ He. rewrite (proj2 (Z.ltb_ge e 0)) by lia. apply IH; [lia|done|]. intros e' He'. apply Hyes. lia.
Qed.

Lemma wp_find_answer {St} na pos (Q : option Z → St → Prop) s :
  0 ≤ pos → Q None s → (∀ p ip, pos ≤ p → record_a resp n p ip → Q (Some ip) s) → wp (find_answer na resp n pos) Q s.
Proof.
  revert pos. induction na as [|na IH]; intros pos Hp Hno Hyes; cbn [find_answer]; [by wp_step|].
  wp_step. apply wp_skip_name; [done|done| |intros _; by wp_step].
  intros k e _ _ He. rewrite (proj2 (Z.ltb_ge e 0)) by lia. destruct (Z.ltb_spec n (e + 10)); [by wp_step|].
  destruct (pair_at e) as (t1 & t0 & Ht & Ht1 & Ht0); [lia..|]. destruct (pair_at (e + 2)) as (c1 & c0 & Hc & Hc1 & Hc0); [lia..|].
  destruct (pair_at (e + 8)) as (l1 & l0 & Hl & Hl1 & Hl0); [lia..|].
  wp_step. eapply wp_load_be16; [done..|]. wp_step. eapply wp_load_be16; [done..|]. wp_step. eapply wp_load_be16; [done..|].
  destruct (_ && _) eqn:E.
  - rewrite !andb_true_iff, !Z.eqb_eq, Z.leb_le in E. destruct E as [[[Et Ec] El] Hle].
    destruct (be16_pair t1 t0 0 1) as [-> ->]; [done..|by rewrite Et|]. destruct (be16_pair c1 c0 0 1) as [-> ->]; [done..|by rewrite Ec|].
    destruct (be16_pair l1 l0 0 4) as [-> ->]; [done..|by rewrite El|].
    destruct (pair_at (e + 10)) as (a & b & Hab & Ha & Hb); [lia..|]. destruct (pair_at (e + 12)) as (c & d & Hcd & Hcu & Hd); [lia..|].
    assert (bytes_at resp (e + 10) ([a; b] ++ [c; d])) as Habcd.
    { apply bytes_at_app. split; [done|]. by replace (e + 10 + strlen [a; b]) with (e + 12) by (unfold strlen; simpl; lia). }
    pose proof Habcd as Hx. simpl app in Hx. do 3 (apply bytes_at_cons in Hx as (_ & ? & Hx)). apply bytes_at_cons in Hx as (_ & ? & _).
    wp_step. eapply wp_load; [lia|done|]. wp_step. eapply wp_load; [lia|done|]. wp_step. eapply wp_load; [lia|by replace (e + 10 + 2) with (e + 10 + 1 + 1) by lia|].
    wp_step. eapply wp_load; [lia|by replace (e + 10 + 3) with (e + 10 + 1 + 1 + 1) by lia|]. wp_step. apply (Hyes e); [lia|]. split_and!; [lia| |done|by exists a, b, c, d].
    change [0; 1; 0; 1] with ([0; 1] ++ [0; 1]). apply bytes_at_app. by split.
  - apply IH; [unfold is_u8 in *; lia|done|]. intros p ip Hp'. apply Hyes. unfold is_u8 in *. lia.
Qed.
End responses.

(** C32: whatever bytes arrive, the resolver returns from looking at them, reads
    nothing behind what was received and follows no endless chain; an address it
    accepts is the data of a record of type A inside the packet, behind a header
    with the id of the query, the response flag and no error code. *)
Theorem dns_response_safe {St} id resp n (s : St) :
  is_u16 id → Forall is_u8 resp → n ≤ strlen resp →
  ∃ r, dns_response id resp n s = Ok (r, s) ∧
    ∀ ip, r = Some (Some ip) → bytes_at resp 0 (be16_bytes id) ∧
      (∃ hi lo, bytes_at resp 2 [hi; lo] ∧ Z.land (hi * 256 + lo) DNS_FLAG_QR ≠ 0 ∧ Z.land (hi * 256 + lo) 15 = 0) ∧
      ∃ pos, DNS_HDR_LEN ≤ pos ∧ record_a resp n pos ip.
Proof.
  intros Hid Hu Hn. assert (wp (dns_response id resp n) (λ r s', s' = s ∧ ∀ ip, r = Some (Some ip) → bytes_at resp 0 (be16_bytes id) ∧
    (∃ hi lo, bytes_at resp 2 [hi; lo] ∧ Z.land (hi * 256 + lo) DNS_FLAG_QR ≠ 0 ∧ Z.land (hi * 256 + lo) 15 = 0) ∧
    ∃ pos, DNS_HDR_LEN ≤ pos ∧ record_a resp n pos ip) s) as Hwp.
  2:{ apply wp_ok in Hwp as (r & s' & Hrun & -> & Hr). by exists r. }
  unfold dns_response, DNS_HDR_LEN. destruct (Z.ltb_spec n 12); [by wp_step|].
  destruct (pair_at resp n Hu Hn 0) as (i1 & i0 & Hi & Hi1 & Hi0); [lia..|]. destruct (pair_at resp n Hu Hn 2) as (f1 & f0 & Hf & Hf1 & Hf0); [lia..|].
  destruct (pair_at resp n Hu Hn 4) as (q1 & q0 & Hq & Hq1 & Hq0); [lia..|]. destruct (pair_at resp n Hu Hn 6) as (a1 & a0 & Ha & Ha1 & Ha0); [lia..|].
  wp_step. eapply wp_load_be16; [done..|]. wp_step. eapply wp_load_be16; [done..|].
  destruct (_ || _) eqn:E; [by wp_step|]. apply orb_false_iff in E as [E1%negb_false_iff%Z.eqb_eq E2%Z.eqb_neq].
  destruct (negb _) eqn:E3; [by wp_step|]. apply negb_false_iff, Z.eqb_eq in E3.
  wp_step. eapply wp_load_be16; [done..|]. wp_step. apply (wp_skip_questions resp n Hu Hn); [done|by wp_step|]. intros e He.
  wp_step. eapply wp_load_be16; [done..|]. wp_step. apply (wp_find_answer resp n Hu Hn); [lia|by wp_step|]. intros p ip Hp Hr. wp_step.
  split; [done|]. intros ip' [= <-]. split_and!; [|by exists f1, f0|exists p; split; [lia|done]].
  unfold be16_bytes. rewrite <-E1. by rewrite Z.div_add_l, Z.div_small, Z.add_0_r, Z.add_comm, Z_mod_plus_full, Z.mod_small by (unfold is_u8 in *; lia).
Qed.

(** ** Well-formed replies *)

(** A name in full, or labels before a pointer to another name of the reply. *)
Inductive reply_name := NameFull (ls : list (list Z)) | NamePointer (ls : list (list Z)) (off : Z).
Definition name_bytes (x : reply_name) : list Z :=
  match x with NameFull ls => wire ls | NamePointer ls off => wire_labels ls ++ [0xC0 + off / 256; off mod 256] end.

Record record := Rr { rr_name : reply_name; rr_type : Z; rr_class : Z; rr_ttl : list Z; rr_data : list Z }.
Definition rr_rest (r : record) : list Z := be16_bytes (rr_type r) ++ be16_bytes (rr_class r) ++ rr_ttl r ++ be16_bytes (strlen (rr_data r)) ++ rr_data r.
Definition rr_bytes (r : record) : list Z := name_bytes (rr_name r) ++ rr_rest r.

(** The questions are pairs of a name and of four bytes. *)
Definition question_bytes (q : list (list Z) * list Z) : list Z := wire q.1 ++ q.2.

Definition reply (id flags : Z) (qs : list (list (list Z) * list Z)) (rs : list record) (more : list Z) : list Z :=
  (be16_bytes id ++ be16_bytes flags ++ be16_bytes (Z.of_nat (length qs)) ++ be16_bytes (Z.of_nat (length rs)) ++ [0; 0; 0; 0]) ++
  (qs ≫= question_bytes) ++ (rs ≫= rr_bytes) ++ more.

(** The address of the first record of type A. *)
Fixpoint first_a (rs : list record) : option Z :=
  match rs with
  | [] => None
  | r :: rs =>
    match rr_data r with
    | [a; b; c; d] => if (rr_type r =? DNS_TYPE_A) && (rr_class r =? DNS_CLASS_IN) then Some (ip4_make a b c d) else first_a rs
    | _ => first_a rs
    end
  end.

(** The names of a reply of the [n] bytes [buf]: a pointer leads to any name in
    it, itself with pointers or not, as long as there are at most 64 steps. *)
Definition name_ok (buf : list Z) (n : Z) (x : reply_name) : Prop :=
  match x with
  | NameFull ls => Forall label_ok ls ∧ (length ls ≤ 63)%nat
  | NamePointer ls off => Forall label_ok ls ∧ 0 ≤ off < 2 ^ 14 ∧ ∃ k e, name_at buf n k off e ∧ (length ls + k ≤ 63)%nat
  end.
Definition record_ok (buf : list Z) (n : Z) (r : record) : Prop :=
  name_ok buf n (rr_name r) ∧ is_u16 (rr_type r) ∧ is_u16 (rr_class r) ∧ length (rr_ttl r) = 4%nat ∧ is_u16 (strlen (rr_data r)).
Definition question_ok (q : list (list Z) * list Z) : Prop := Forall label_ok q.1 ∧ (length q.1 ≤ 63)%nat ∧ length q.2 = 4%nat.

Section replies.
Context (buf : list Z) (n : Z).
Hypothesis Hbuf : Forall is_u8 buf.
Hypothesis Hlen : n ≤ strlen buf.

Lemma wp_load_be16_value {St} pos v tl (Q : Z → St → Prop) s :
  bytes_at buf pos (be16_bytes v ++ tl) → is_u16 v → Q v s → wp (load_be16 buf pos) Q s.
Proof.
  intros [Hb _]%bytes_at_app Hv HQ. destruct (be16_split v Hv) as (H1 & H0 & E). eapply wp_load_be16; [exact Hb|done|done|]. by rewrite E.
Qed.

Lemma reply_name_at x pos tl :
  name_ok buf n x → bytes_at buf pos (name_bytes x ++ tl) → pos + strlen (name_bytes x) ≤ n →
  ∃ k, (k ≤ 64)%nat ∧ name_at buf n k pos (pos + strlen (name_bytes x)).
Proof.
  intros Hx [Hb _]%bytes_at_app Hn. destruct x as [ls|ls off]; simpl in *.
  - destruct Hx as [Hls Hk]. exists (S (length ls)). split; [lia|]. by apply name_wire.
  - destruct Hx as (Hls & Hoff & k & e & Hat & Hk). exists (length ls + S k)%nat. split; [lia|]. pose proof Hb as [_ Hb2]%bytes_at_app.
    set (h := off / 256) in *. set (lo := off mod 256) in *. assert (off = h * 256 + lo ∧ 0 ≤ h < 64 ∧ 0 ≤ lo < 256) as (Eo & Hh & Hlo).
    { unfold h, lo. Z.to_euclidean_division_equations. lia. }
    assert (strlen (wire_labels ls ++ [0xC0 + h; lo]) = strlen (wire_labels ls) + 2) as E by slia. rewrite E in *. rewrite Z.add_assoc.
    eapply name_labels; [done|exact Hb|]. apply (name_pointer _ _ _ h lo _ e); [done|by unfold is_u8|lia|done|]. by rewrite <-Eo.
Qed.

Lemma wp_questions {St} qs pos tl (Q : option Z → St → Prop) s :
  Forall question_ok qs → bytes_at buf pos ((qs ≫= question_bytes) ++ tl) → pos + strlen (qs ≫= question_bytes) ≤ n →
  Q (Some (pos + strlen (qs ≫= question_bytes))) s → wp (skip_questions (length qs) buf n pos) Q s.
Proof.
  intros Hqs. revert pos. induction Hqs as [|[ls x] qs (Hls & Hk & Hx) _ IH]; intros pos Hb Hn HQ; cbn [skip_questions length].
  { wp_step. by rewrite Z.add_0_r in HQ. }
  cbn [fst snd] in *. change (((ls, x) :: qs) ≫= question_bytes) with ((wire ls ++ x) ++ (qs ≫= question_bytes)) in *. rewrite <-!app_assoc in Hb.
  assert (strlen ((wire ls ++ x) ++ (qs ≫= question_bytes)) = strlen (wire ls) + 4 + strlen (qs ≫= question_bytes)) as E by slia. rewrite E in *.
  apply bytes_at_app in Hb as [Hb1 Hb2]. apply bytes_at_app in Hb2 as [_ Hb2]. pose proof (strlen_wire_nonneg ls). assert (0 ≤ pos) by apply Hb1.
  assert (0 ≤ strlen (qs ≫= question_bytes)) by (unfold strlen; lia). wp_step. eapply wp_skip_name_at; [done|done|apply name_wire; [done|exact Hb1|lia]|lia|].
  rewrite (proj2 (Z.ltb_ge _ 0)) by lia. apply IH; [|lia|].
  - by replace (pos + strlen (wire ls) + 4) with (pos + strlen (wire ls) + strlen x) by (unfold strlen; lia).
  - by replace (pos + strlen (wire ls) + 4 + strlen (qs ≫= question_bytes)) with (pos + (strlen (wire ls) + 4 + strlen (qs ≫= question_bytes))) by lia.
Qed.

Lemma wp_records {St} rs pos tl (Q : option Z → St → Prop) s :
  Forall (record_ok buf n) rs → bytes_at buf pos ((rs ≫= rr_bytes) ++ tl) → pos + strlen (rs ≫= rr_bytes) ≤ n →
  Q (first_a rs) s → wp (find_answer (length rs) buf n pos) Q s.
Proof.
  intros Hrs. revert pos. induction Hrs as [|r rs (Hnm & Ht & Hc & Httl & Hd) _ IH]; intros pos Hb Hn HQ; cbn [find_answer length]; [by wp_step|].
  change ((r :: rs) ≫= rr_bytes) with ((name_bytes (rr_name r) ++ rr_rest r) ++ (rs ≫= rr_bytes)) in *. rewrite <-!app_assoc in Hb.
  set (L := strlen (rr_data r)) in *. set (m := strlen (name_bytes (rr_name r))).
  assert (strlen ((name_bytes (rr_name r) ++ rr_rest r) ++ (rs ≫= rr_bytes)) = m + 10 + L + strlen (rs ≫= rr_bytes)) as E.
  { unfold rr_rest, m, L, be16_bytes. unfold strlen. rewrite ?length_app. simpl length. rewrite ?length_app. simpl length. lia. }
  rewrite E in *. assert (0 ≤ m ∧ 0 ≤ L ∧ 0 ≤ strlen (rs ≫= rr_bytes)) as (Hm0 & HL0 & Hr0) by (unfold m, L, strlen; lia).
  assert (0 ≤ pos) by apply Hb. destruct (reply_name_at _ _ _ Hnm Hb) as (k & Hk & Hnat); [fold m; lia|]. fold m in Hnat.
  wp_step. eapply wp_skip_name_at; [done|done|exact Hnat|done|]. rewrite (proj2 (Z.ltb_ge _ 0)), (proj2 (Z.ltb_ge n _)) by lia.
  apply bytes_at_app in Hb as [_ Hb]. fold m in Hb. set (e := pos + m) in *. unfold rr_rest in Hb. rewrite <-!app_assoc in Hb.
  pose proof Hb as Hb1. apply bytes_at_app in Hb as [_ Hb]. change (strlen (be16_bytes _)) with 2 in Hb. pose proof Hb as Hb2.
  apply bytes_at_app in Hb as [_ Hb]. change (strlen (be16_bytes _)) with 2 in Hb. apply bytes_at_app in Hb as [_ Hb].
  replace (e + 2 + 2 + strlen (rr_ttl r)) with (e + 8) in Hb by (unfold strlen; lia). pose proof Hb as Hb3. apply bytes_at_app in Hb as [_ Hb].
  change (strlen (be16_bytes _)) with 2 in Hb. replace (e + 8 + 2) with (e + 10) in Hb by lia.
  wp_step. eapply wp_load_be16_value; [exact Hb1|done|]. wp_step. eapply wp_load_be16_value; [exact Hb2|done|]. wp_step. eapply wp_load_be16_value; [exact Hb3|done|].
  assert (wp (find_answer (length rs) buf n (e + 10 + L)) Q s ∨ first_a (r :: rs) ≠ first_a rs) as Hrest.
  { destruct (decide (first_a (r :: rs) = first_a rs)) as [Hf|]; [left|by right]. apply bytes_at_app in Hb as [_ Hb].
    apply IH; [exact Hb|lia|by rewrite Hf in HQ]. }
  destruct (_ && _) eqn:Ec.
  - rewrite !andb_true_iff in Ec. destruct Ec as [[[Et Ec] El%Z.eqb_eq] _]. assert (∃ a b c d, rr_data r = [a; b; c; d]) as (a & b & c & d & Ed).
    { unfold L, strlen in El. destruct (rr_data r) as [|a [|b [|c [|d [|]]]]]; simpl in El; try lia. by exists a, b, c, d. }
    rewrite Ed in Hb. apply bytes_at_app in Hb as [Hb _]. cbn [first_a] in HQ. rewrite Ed, Et, Ec in HQ. cbn [andb] in HQ.
    pose proof Hb as (_ & Ha & Hx)%bytes_at_cons. apply bytes_at_cons in Hx as (_ & Hb' & Hx). apply bytes_at_cons in Hx as (_ & Hc' & Hx). apply bytes_at_cons in Hx as (_ & Hd' & _).
    wp_step. eapply wp_load; [lia|done|]. wp_step. eapply wp_load; [lia|done|]. wp_step. eapply wp_load; [lia|by replace (e + 10 + 2) with (e + 10 + 1 + 1) by lia|].
    wp_step. eapply wp_load; [lia|by replace (e + 10 + 3) with (e + 10 + 1 + 1 + 1) by lia|]. by wp_step.
  - destruct Hrest as [Hrest|Hne]; [exact Hrest|]. exfalso. apply Hne. cbn [first_a].
    destruct (rr_data r) as [|a [|b [|c [|d [|]]]]] eqn:Ed; try done. destruct ((rr_type r =? DNS_TYPE_A) && (rr_class r =? DNS_CLASS_IN)) eqn:E2; [|done]. exfalso.
    cbn [andb] in Ec. unfold L in *. change (strlen [a; b; c; d]) with 4 in *. change (4 =? 4) with true in Ec.
    cbn [andb] in Ec. apply Z.leb_gt in Ec. lia.
Qed.
End replies.

(** C34: from a well-formed reply to the query the resolver takes the address of
    the first record of type A, whatever records (of other types, CNAME chains)
    come before it and whether names are written in full or compressed, with
    pointers to any names of the reply, and fails when there is none. *)
Theorem dns_response_answer {St} id flags qs rs more (s : St) :
  let resp := reply id flags qs rs more in
  is_u16 id → is_u16 flags → Z.land flags DNS_FLAG_QR ≠ 0 → Z.land flags 15 = 0 → is_u16 (Z.of_nat (length qs)) → is_u16 (Z.of_nat (length rs)) →
  Forall question_ok qs → Forall (record_ok resp (strlen resp)) rs → Forall is_u8 resp →
  dns_response id resp (strlen resp) s = Ok (Some (first_a rs), s).
Proof.
  intros resp Hid Hfl Hqr Hrc Hnq Hnr Hqs Hrs Hu. apply wp_result. set (n := strlen resp).
  set (hdr := be16_bytes id ++ be16_bytes flags ++ be16_bytes (Z.of_nat (length qs)) ++ be16_bytes (Z.of_nat (length rs)) ++ [0; 0; 0; 0]).
  set (Q := qs ≫= question_bytes). set (R := rs ≫= rr_bytes).
  assert (bytes_at resp 0 resp) as Hall by (split; [done|]; intros k b Hk; by rewrite Nat.add_0_l).
  assert (resp = hdr ++ Q ++ R ++ more) as Er by done. rewrite Er in Hall at 2.
  assert (strlen hdr = 12) as Hh by done. assert (n = 12 + strlen Q + strlen R + strlen more) as Hn by (unfold n; rewrite Er; slia).
  assert (0 ≤ strlen Q ∧ 0 ≤ strlen R ∧ 0 ≤ strlen more) as (HQ0 & HR0 & Hm0) by (unfold strlen; lia).
  pose proof Hall as [Hb Hbq]%bytes_at_app. rewrite Hh, Z.add_0_l in Hbq.
  unfold hdr in Hb. pose proof Hb as Hb0. apply bytes_at_app in Hb as [_ Hb]. pose proof Hb as Hb2. apply bytes_at_app in Hb as [_ Hb]. pose proof Hb as Hb4. apply bytes_at_app in Hb as [_ Hb].
  unfold dns_response, DNS_HDR_LEN. rewrite (proj2 (Z.ltb_ge n 12)) by lia.
  wp_step. eapply wp_load_be16_value; [exact Hb0|done|]. wp_step. eapply wp_load_be16_value; [exact Hb2|done|].
  rewrite Z.eqb_refl, (proj2 (Z.eqb_neq _ 0)), Hrc by done. cbn [negb orb]. change (0 =? 0) with true. cbn [negb].
  wp_step. eapply wp_load_be16_value; [exact Hb4|done|]. wp_step. rewrite Nat2Z.id.
  assert (n ≤ strlen resp) as Hle by done. eapply (wp_questions resp n Hu Hle); [exact Hqs|exact Hbq|fold Q; lia|].
  wp_step. eapply wp_load_be16_value; [exact Hb|done|]. wp_step. rewrite Nat2Z.id.
  apply bytes_at_app in Hbq as [_ Hbr]. eapply (wp_records resp n Hu Hle); [exact Hrs|exact Hbr|fold Q R; lia|].
  by wp_step.
Qed.

Lemma dns_response_safe_witness :
  ∃ r, dns_response 7 [0; 7; 0x80; 0; 0; 1; 0; 1; 0; 0; 0; 0; 0xC0; 12] 14 tt = Ok (r, tt) ∧
    ∀ ip, r = Some (Some ip) → bytes_at [0; 7; 0x80; 0; 0; 1; 0; 1; 0; 0; 0; 0; 0xC0; 12] 0 (be16_bytes 7) ∧
      (∃ hi lo, bytes_at [0; 7; 0x80; 0; 0; 1; 0; 1; 0; 0; 0; 0; 0xC0; 12] 2 [hi; lo] ∧ Z.land (hi * 256 + lo) DNS_FLAG_QR ≠ 0 ∧ Z.land (hi * 256 + lo) 15 = 0) ∧
      ∃ pos, DNS_HDR_LEN ≤ pos ∧ record_a [0; 7; 0x80; 0; 0; 1; 0; 1; 0; 0; 0; 0; 0xC0; 12] 14 pos ip.
Proof. apply dns_response_safe; [by unfold is_u16|apply (bool_decide_unpack _); by vm_compute|by vm_compute]. Defined.

(** A query for www.ax.org is answered by an alias and the address of the
    alias; all names are compressed, that of the second record is a pointer to
    the data of the first, which ends in a pointer into the question. *)
Definition demo_question : list (list Z) * list Z := (labels (cstr "www.ax.org"), [0; 1; 0; 1]).
Definition demo_records : list record :=
  [Rr (NamePointer [] 12) 5 1 [0; 0; 0; 60] [3; 119; 101; 98; 0xC0; 16];
   Rr (NamePointer [] 40) 1 1 [0; 0; 0; 60] [93; 184; 216; 34]].

Lemma bytes_at_take buf i bs : 0 ≤ i → take (length bs) (drop (Z.to_nat i) buf) = bs → bytes_at buf i bs.
Proof.
  intros Hi E. split; [done|]. intros k b Hk. rewrite <-E in Hk. assert (k < length bs)%nat as Hlt by (apply lookup_lt_Some in Hk; rewrite E in Hk; done).
  by rewrite lookup_take_lt, lookup_drop in Hk.
Qed.

Lemma dns_response_answer_witness :
  dns_response 7 (reply 7 0x8180 [demo_question] demo_records [1; 2; 3]) (strlen (reply 7 0x8180 [demo_question] demo_records [1; 2; 3])) tt =
  Ok (Some (Some (ip4_make 93 184 216 34)), tt).
Proof.
  refine (dns_response_answer 7 0x8180 [demo_question] demo_records [1; 2; 3] tt _ _ _ _ _ _ _ _ _).
  - by unfold is_u16.
  - by unfold is_u16.
  - by vm_compute.
  - by vm_compute.
  - by unfold is_u16.
  - by unfold is_u16.
  - constructor; [|constructor]. split_and!; [apply (bool_decide_unpack _); by vm_compute|vm_compute; lia|done].
  - set (buf := reply _ _ _ _ _). assert (Forall label_ok (labels (cstr "www.ax.org")) ∧ Forall label_ok [cstr "web"]) as [Hq Hw].
    { split; apply (bool_decide_unpack _); by vm_compute. }
    assert (name_at buf (strlen buf) 4 12 24) as Hn1.
    { exact (name_wire buf (strlen buf) 12 (labels (cstr "www.ax.org")) Hq ltac:(apply bytes_at_take; [lia|by vm_compute]) ltac:(by vm_compute)). }
    assert (name_at buf (strlen buf) 3 16 24) as Hn2.
    { exact (name_wire buf (strlen buf) 16 (labels (cstr "ax.org")) ltac:(apply (bool_decide_unpack _); by vm_compute) ltac:(apply bytes_at_take; [lia|by vm_compute]) ltac:(by vm_compute)). }
    constructor; [|constructor; [|constructor]].
    + split_and!; [|by unfold is_u16|by unfold is_u16|done|by vm_compute]. split_and!; [constructor|lia|lia|]. exists 4%nat, 24. split; [exact Hn1|simpl; lia].
    + split_and!; [|by unfold is_u16|by unfold is_u16|done|by vm_compute]. split_and!; [constructor|lia|lia|]. exists 5%nat, 46. split; [|simpl; lia].
      apply (name_label _ _ _ (cstr "web")); [by inversion Hw|apply bytes_at_take; [lia|by vm_compute]|].
      exact (name_pointer buf (strlen buf) 44 0 16 3 24 ltac:(lia) ltac:(by unfold is_u8) ltac:(by vm_compute) ltac:(apply bytes_at_take; [lia|by vm_compute]) Hn2).
  - apply (bool_decide_unpack _); by vm_compute.
Defined.

(** ** Dotted quads *)

(** A number below 256 in decimal. *)
Definition decimal (v : Z) : list Z :=
  if v <? 10 then [48 + v] else if v <? 100 then [48 + v / 10; 48 + v mod 10] else [48 + v / 100; 48 + v / 10 mod 10; 48 + v mod 10].

Lemma dot4_digit d p parts v any :
  0 ≤ d ≤ 9 → 0 ≤ v → v * 10 + d ≤ 255 → dot4_loop ((48 + d) :: p) parts v any = dot4_loop p parts (v * 10 + d) true.
Proof.
  intros Hd Hv Hle. cbn [dot4_loop]. rewrite (proj2 (Z.leb_le 48 _)), (proj2 (Z.leb_le _ 57)) by lia. cbn [andb].
  unfold u32. rewrite Z.mod_small by lia. rewrite (proj2 (Z.ltb_ge 255 _)) by lia. f_equal. lia.
Qed.

Lemma dot4_decimal v p parts : 0 ≤ v ≤ 255 → dot4_loop (decimal v ++ p) parts 0 false = dot4_loop p parts v true.
Proof.
  intros Hv. unfold decimal. destruct (Z.ltb_spec v 10); [|destruct (Z.ltb_spec v 100)]; cbn [app].
  - rewrite dot4_digit by lia. done.
  - Z.to_euclidean_division_equations. rewrite !dot4_digit by lia. f_equal. lia.
  - assert (0 ≤ v / 100 ≤ 9 ∧ 0 ≤ v / 10 mod 10 ≤ 9 ∧ 0 ≤ v mod 10 ≤ 9 ∧ (v / 100 * 10 + v / 10 mod 10) * 10 + v mod 10 = v) as (? & ? & ? & E) by (Z.to_euclidean_division_equations; lia).
    rewrite !dot4_digit by lia. by rewrite Z.mul_0_l, Z.add_0_l, E.
Qed.

(** An address written as a dotted quad is read back. *)
Theorem dot4_roundtrip a b c d :
  0 ≤ a ≤ 255 → 0 ≤ b ≤ 255 → 0 ≤ c ≤ 255 → 0 ≤ d ≤ 255 →
  dns_parse_dot4 (decimal a ++ 46 :: decimal b ++ 46 :: decimal c ++ 46 :: decimal d) = Some (ip4_make a b c d).
Proof.
  intros Ha Hb Hc Hd. unfold dns_parse_dot4. rewrite dot4_decimal by done. cbn. rewrite dot4_decimal by done. cbn. rewrite dot4_decimal by done. cbn.
  rewrite <-(app_nil_r (decimal d)), dot4_decimal by done. done.
Qed.

Example dot4_examples :
  (dns_parse_dot4 (cstr "10.0.2.3"), dns_parse_dot4 (cstr "10.0.2"), dns_parse_dot4 (cstr "10.0.2.256"), dns_parse_dot4 (cstr "1.2.3.4."), dns_parse_dot4 (cstr "www.ax.org")) =
  (Some (ip4_make 10 0 2 3), None, None, None, None).
Proof. by vm_compute. Qed.
