(* ===== verification/Dhcp.v ===== *)
(** * Dhcp: the address client (kernel/dhcp.c)

    Building a message, parsing a reply, waiting for replies and the thread that
    configures a device, over the UDP layer. *)

From S2P Require Import Prelude NetUtil NetBuf Net Link Arp Ip CString Packet Udp.

Definition DHCP_PORT_SERVER : Z := 67.
Definition DHCP_PORT_CLIENT : Z := 68.
Definition BOOTP_HDR_LEN : Z := 240.
Definition DHCP_MAGIC : Z := 0x63825363.
Definition DHCP_MSG_DISCOVER : Z := 1.
Definition DHCP_MSG_OFFER : Z := 2.
Definition DHCP_MSG_REQUEST : Z := 3.
Definition DHCP_MSG_ACK : Z := 5.
Definition OPT_PAD : Z := 0.
Definition OPT_SUBNET : Z := 1.
Definition OPT_ROUTER : Z := 3.
Definition OPT_DNS : Z := 6.
Definition OPT_DOMAIN : Z := 15.
Definition OPT_REQ_IP : Z := 50.
Definition OPT_LEASE : Z := 51.
Definition OPT_MSG_TYPE : Z := 53.
Definition OPT_SERVER_ID : Z := 54.
Definition OPT_PARAM_REQ : Z := 55.
Definition OPT_END : Z := 255.

(** The offsets of [struct bootp]. *)
Definition BP_XID : Z := 4.
Definition BP_FLAGS : Z := 10.
Definition BP_YIADDR : Z := 16.
Definition BP_CHADDR : Z := 28.
Definition BP_MAGIC : Z := 236.

(** The statics of dhcp.c over the network stack. *)
Record dhcp := Dhcp {
  g_dhcp_dev : option nat;
  g_dhcp_running : bool;
  g_dhcp_xid : Z;
  sock_dhcp : Z;
  dh_net : net }.
Definition put_net (x : net) (s : dhcp) : dhcp := Dhcp (g_dhcp_dev s) (g_dhcp_running s) (g_dhcp_xid s) (sock_dhcp s) x.
Definition on_net {A} (m : M net A) : M dhcp A := zoom dh_net put_net m.
Definition set_sock (k : Z) (s : dhcp) : dhcp := Dhcp (g_dhcp_dev s) (g_dhcp_running s) (g_dhcp_xid s) k (dh_net s).

(** [x ^= (uint32_t)mac[i] << (i * 4)] for the six bytes. *)
Fixpoint mix_mac {St} (n : nat) (i : Z) (mac : list Z) (x : Z) : M St Z :=
  match n with
  | O => mret x
  | S n => b ← load mac i; mix_mac n (i + 1) mac (Z.lxor x (u32 (Z.shiftl b (i * 4))))
  end.

(** ** Messages *)

(** An option with a value. *)
Definition put_option {St} (pkt : list Z) (o code : Z) (v : list Z) : M St (list Z * Z) :=
  pkt ← store_bytes pkt o (code :: strlen v :: v);
  mret (pkt, o + 2 + strlen v).

Definition dhcp_build_msg {St} (xid : Z) (mac pkt : list Z) (type req_ip server_id : Z) : M St (list Z * Z) :=
  pkt ← store_bytes pkt 0 (replicate 240 0);
  pkt ← store_bytes pkt 0 [1; 1; 6; 0];
  pkt ← store_bytes pkt BP_XID (put32 xid);
  pkt ← store_bytes pkt BP_FLAGS (put16 (htobe16 0x8000));
  pkt ← store_bytes pkt BP_CHADDR (take 6 mac);
  pkt ← store_bytes pkt BP_MAGIC (put32 (htobe32 DHCP_MAGIC));
  '(pkt, o) ← put_option pkt BOOTP_HDR_LEN OPT_MSG_TYPE [type];
  '(pkt, o) ← (if negb (req_ip =? 0) then put_option pkt o OPT_REQ_IP (put32 req_ip) else mret (pkt, o));
  '(pkt, o) ← (if negb (server_id =? 0) then put_option pkt o OPT_SERVER_ID (put32 server_id) else mret (pkt, o));
  '(pkt, o) ← (if type =? DHCP_MSG_DISCOVER then put_option pkt o OPT_PARAM_REQ [OPT_SUBNET; OPT_ROUTER; OPT_DNS; OPT_DOMAIN] else mret (pkt, o));
  pkt ← store_bytes pkt o [OPT_END];
  let n := o + 1 in
  if n <? 300 then
    pkt ← store_bytes pkt n (replicate (Z.to_nat (300 - n)) OPT_PAD);
    mret (pkt, 300)
  else mret (pkt, n).

(** ** Replies *)

(** What [dhcp_parse_reply] stores through its pointers. *)
Record lease := Lease { le_yiaddr : Z; le_lease : Z; le_netmask : Z; le_router : Z; le_dns : Z }.

Definition load_word {St} (buf : list Z) (pos : Z) : M St Z :=
  a ← load buf pos;
  b ← load buf (pos + 1);
  c ← load buf (pos + 2);
  d ← load buf (pos + 3);
  mret (Z.lor (Z.lor a (Z.shiftl b 8)) (Z.shiftl (Z.lor c (Z.shiftl d 8)) 16)).

(** The [switch] over an option of [l] bytes at [v]. *)
Definition take_option {St} (pkt : list Z) (code l v : Z) (st : Z * lease) : M St (Z * lease) :=
  let '(msg_type, le) := st in
  if code =? OPT_MSG_TYPE then
    if l =? 1 then t ← load pkt v; mret (t, le) else mret st
  else if code =? OPT_LEASE then
    if l =? 4 then x ← load_word pkt v; mret (msg_type, Lease (le_yiaddr le) (be32toh x) (le_netmask le) (le_router le) (le_dns le)) else mret st
  else if code =? OPT_SUBNET then
    if l =? 4 then x ← load_word pkt v; mret (msg_type, Lease (le_yiaddr le) (le_lease le) x (le_router le) (le_dns le)) else mret st
  else if code =? OPT_ROUTER then
    if 4 <=? l then x ← load_word pkt v; mret (msg_type, Lease (le_yiaddr le) (le_lease le) (le_netmask le) x (le_dns le)) else mret st
  else if code =? OPT_DNS then
    if 4 <=? l then x ← load_word pkt v; mret (msg_type, Lease (le_yiaddr le) (le_lease le) (le_netmask le) (le_router le) x) else mret st
  else mret st.

(** One turn of the loop over the options, from [o] on. *)
Definition option_step {St} (pkt : list Z) (len : Z) (st : Z * (Z * lease)) : M St (Z * (Z * lease) + Z * lease) :=
  let '(o, r) := st in
  if o <? len then
    code ← load pkt o;
    let o := o + 1 in
    if code =? OPT_END then mret (inr r)
    else if code =? OPT_PAD then mret (inl (o, r))
    else if len <=? o then mret (inr r)
    else
      l ← load pkt o;
      let o := o + 1 in
      if len <? o + l then mret (inr r)
      else
        r ← take_option pkt code l o r;
        mret (inl (o + l, r))
  else mret (inr r).

(** The return value and what the pointers, none of them null, point to
    afterwards. *)
Definition dhcp_parse_reply {St} (xid : Z) (pkt : list Z) (len : Z) (le : lease) : M St (Z * lease) :=
  if len <? BOOTP_HDR_LEN then mret (-1, le)
  else
    op ← load pkt 0;
    x ← load_word pkt BP_XID;
    if negb (op =? 2) || negb (x =? xid) then mret (-1, le)
    else
      magic ← load_word pkt BP_MAGIC;
      if negb (be32toh magic =? DHCP_MAGIC) then mret (-1, le)
      else
        y ← load_word pkt BP_YIADDR;
        loop_fuel (S (Z.to_nat (len - BOOTP_HDR_LEN))) (option_step pkt len)
          (BOOTP_HDR_LEN, (0, Lease y (le_lease le) (le_netmask le) (le_router le) (le_dns le))).

(** ** The client *)

(** The variables [dhcp_thread] passes to [dhcp_wait_reply]. *)
Record offer := Offer { of_ip : Z; of_server : Z; of_netmask : Z; of_router : Z; of_dns : Z; of_lease : Z }.

Section client.
Context `{NetEnv}.

(** [g_dhcp_dev] as [dhcp_build_msg] uses it. *)
Definition dhcp_send (type req_ip server_id : Z) : M dhcp Z :=
  dev ← gets g_dhcp_dev;
  match dev with
  | None => mret (-1)
  | Some d =>
    v ← on_net (dev_get d);
    xid ← gets g_dhcp_xid;
    '(pkt, n) ← dhcp_build_msg xid (nd_mac v) (replicate 320 0) type req_ip server_id;
    k ← gets sock_dhcp;
    r ← on_net (udp_send_direct k (Some d) ETH_BROADCAST 0 0xFFFFFFFF DHCP_PORT_SERVER (take (Z.to_nat n) pkt));
    mret (if r <? 0 then -1 else 0)
  end.

(** One turn of the loop: [sid], the server, stays 0. *)
Definition wait_turn (fuel : nat) (deadline : Z) (st : Z * offer) : M dhcp (Z * offer + Z * offer) :=
  now ← on_net clock_mono_ns;
  if now <? deadline then
    k ← gets sock_dhcp;
    rdy ← on_net (on_udp (udp_datagram_ready k));
    if 0 <? rdy then
      '(n, buf, _) ← on_net (udp_recvfrom fuel k 400);
      if n <? BOOTP_HDR_LEN then mret (inl st)
      else
        xid ← gets g_dhcp_xid;
        '(t, le) ← dhcp_parse_reply xid buf n (Lease 0 0 0 0 0);
        if t <? 0 then mret (inl st)
        else if (t =? DHCP_MSG_ACK) || (t =? DHCP_MSG_OFFER) then
          let o := Offer (le_yiaddr le) 0 (le_netmask le) (le_router le) (le_dns le) (le_lease le) in
          if t =? DHCP_MSG_ACK then mret (inr (t, o))
          else on_net sched_yield ;; mret (inl (t, o))
        else on_net sched_yield ;; mret (inl st)
    else on_net sched_yield ;; mret (inl st)
  else mret (inr st).

Definition dhcp_wait_reply (fuel : nat) (o : offer) (ms : Z) : M dhcp (Z * offer) :=
  now ← on_net clock_mono_ns;
  loop_fuel fuel (wait_turn fuel (u64 (now + u64 (ms * 1000000)))) (0, o).

Definition dhcp_make_xid (d : nat) : M dhcp Z :=
  now ← on_net clock_mono_ns;
  v ← on_net (dev_get d);
  mix_mac 6 0 (nd_mac v) (Z.lxor (u32 now) 0x9E3779B9).

(** The fields of [dev] that are not zero in the offer. *)
Definition configure (o : offer) (v : netdev) : netdev :=
  Netdev (nd_name v) (nd_mac v) (of_ip o) (if of_netmask o =? 0 then nd_netmask v else of_netmask o)
    (if of_router o =? 0 then nd_gateway v else of_router o) (if of_dns o =? 0 then nd_dns_server v else of_dns o) (nd_mtu v).

Definition dev_update (d : nat) (f : netdev → netdev) : M dhcp unit :=
  v ← on_net (dev_get d);
  on_net (on_link (modify (λ l, Link (<[d := f v]> (l_devs l)) (g_netdevs l) (g_net_poll l) (g_eth_handlers l)))).

(** The label [out] of [dhcp_thread]; the thread ends there. *)
Definition dhcp_out : M dhcp unit :=
  k ← gets sock_dhcp;
  (if 0 <=? k then on_net (udp_close k) ;; modify (set_sock (-1)) else mret tt) ;;
  modify (λ s, Dhcp (g_dhcp_dev s) false (g_dhcp_xid s) (sock_dhcp s) (dh_net s)).

(** The exchange with the server: the offer to configure, none for [goto out]. *)
Definition dhcp_exchange (fuel : nat) : M dhcp (option offer) :=
  sr ← dhcp_send DHCP_MSG_DISCOVER 0 0;
  if negb (sr =? 0) then mret None
  else
    '(t, o) ← dhcp_wait_reply fuel (Offer 0 0 0 0 0 0) 8000;
    if t =? 0 then mret None
    else
      r ← dhcp_send DHCP_MSG_REQUEST (of_ip o) (of_server o);
      o ← (if r =? 0 then
             '(a, k) ← dhcp_wait_reply fuel o 4000;
             mret (if negb (a =? 0) then k else o)
           else mret o);
      mret (if of_ip o =? 0 then None else Some o).

Definition dhcp_thread (fuel : nat) (d : nat) : M dhcp unit :=
  xid ← dhcp_make_xid d;
  k ← on_net (on_udp udp_socket);
  modify (λ s, Dhcp (Some d) (g_dhcp_running s) xid k (dh_net s)) ;;
  r ← (if k <? 0 then mret (-1) else on_net (on_udp (udp_bind k DHCP_PORT_CLIENT)));
  (if (k <? 0) || negb (r =? 0) then mret tt
   else
     o ← dhcp_exchange fuel;
     match o with
     | None => mret tt
     | Some o => dev_update d (configure o)
     end) ;;
  dhcp_out.

(** The device of the thread that is spawned, if any. *)
Definition dhcp_start (dev : option nat) : M dhcp (Z * option nat) :=
  running ← gets g_dhcp_running;
  match dev with
  | Some d =>
    if running : bool then mret (0, None)
    else modify (λ s, Dhcp (Some d) true (g_dhcp_xid s) (-1) (dh_net s)) ;; mret (0, Some d)
  | None => mret (0, None)
  end.
End client.

(** ** What a reply says *)

Definition word_at (pkt : list Z) (pos v : Z) : Prop := ∃ a b c d, bytes_at pkt pos [a; b; c; d] ∧ get32 [a; b; c; d] 0 = v.

(** The header of a reply to the transaction [xid]. *)
Record genuine (xid : Z) (pkt : list Z) : Prop := Genuine {
  gn_op : bytes_at pkt 0 [2];
  gn_xid : word_at pkt BP_XID xid;
  gn_magic : ∃ w, word_at pkt BP_MAGIC w ∧ be32toh w = DHCP_MAGIC }.

Inductive dhcp_opt := Pad | Opt (code : Z) (v : list Z).
Definition opt_bytes (o : dhcp_opt) : list Z := match o with Pad => [OPT_PAD] | Opt c v => c :: strlen v :: v end.
Definition opt_ok (o : dhcp_opt) : Prop := match o with Pad => True | Opt c v => 1 ≤ c ≤ 254 ∧ strlen v ≤ 255 end.
Definition options (os : list dhcp_opt) : list Z := os ≫= opt_bytes.

(** The first four bytes of a value as an address. *)
Definition addr_of (v : list Z) : option Z := match v with a :: b :: c :: d :: _ => Some (get32 [a; b; c; d] 0) | _ => None end.
Definition addr4_of (v : list Z) : option Z := if (length v =? 4)%nat then addr_of v else None.

(** What one option adds to what is known. *)
Definition learn (st : Z * lease) (o : dhcp_opt) : Z * lease :=
  let '(t, Lease y ls nm rt dn) := st in
  match o with
  | Pad => st
  | Opt c v =>
    if c =? OPT_MSG_TYPE then match v with [x] => (x, Lease y ls nm rt dn) | _ => st end
    else if c =? OPT_LEASE then (t, Lease y (match addr4_of v with Some x => be32toh x | None => ls end) nm rt dn)
    else if c =? OPT_SUBNET then (t, Lease y ls (default nm (addr4_of v)) rt dn)
    else if c =? OPT_ROUTER then (t, Lease y ls nm (default rt (addr_of v)) dn)
    else if c =? OPT_DNS then (t, Lease y ls nm rt (default dn (addr_of v)))
    else st
  end.

Lemma wp_load32 {St} pkt pos a b c d tl (Q : Z → St → Prop) s :
  bytes_at pkt pos (a :: b :: c :: d :: tl) → Q (get32 [a; b; c; d] 0) s → wp (load_word pkt pos) Q s.
Proof.
  intros Hb HQ. pose proof Hb as (Hp & Ha & Hx)%bytes_at_cons. apply bytes_at_cons in Hx as (_ & Hb' & Hx). apply bytes_at_cons in Hx as (_ & Hc & Hx). apply bytes_at_cons in Hx as (_ & Hd & _).
  unfold load_word. wp_step. eapply wp_load; [lia|done|]. wp_step. eapply wp_load; [lia|done|]. wp_step. eapply wp_load; [lia|by replace (pos + 2) with (pos + 1 + 1) by lia|].
  wp_step. eapply wp_load; [lia|by replace (pos + 3) with (pos + 1 + 1 + 1) by lia|]. by wp_step.
Qed.

Lemma wp_word {St} pkt pos v (Q : Z → St → Prop) s : word_at pkt pos v → Q v s → wp (load_word pkt pos) Q s.
Proof. intros (a & b & c & d & Hb & <-) HQ. by eapply wp_load32. Qed.

Lemma wp_take_option {St} pkt code v pos st (Q : Z * lease → St → Prop) s :
  bytes_at pkt pos v → 0 ≤ code → Q (learn st (Opt code v)) s → wp (take_option pkt code (strlen v) pos st) Q s.
Proof.
  intros Hb Hc HQ. destruct st as [t [y ls nm rt dn]]. unfold take_option, learn in *.
  assert ((strlen v =? 4) = (length v =? 4)%nat) as E4 by (unfold strlen; destruct (Nat.eqb_spec (length v) 4), (Z.eqb_spec (Z.of_nat (length v)) 4); lia).
  destruct (code =? OPT_MSG_TYPE).
  { destruct v as [|x [|]]; [by wp_step| |].
    - change (strlen [x] =? 1) with true. cbn iota. wp_step. eapply wp_load_at; [exact Hb|]. by wp_step.
    - rewrite (proj2 (Z.eqb_neq _ 1)) by (unfold strlen; simpl length; lia). by wp_step. }
  assert (∀ (k : Z → Z * lease) (old : Z * lease), Q (match addr_of v with Some x => k x | None => old end) s →
    wp (if 4 <=? strlen v then x ← load_word pkt pos; mret (k x) else mret old) Q s) as Hany.
  { intros k old Hk. destruct (Z.leb_spec 4 (strlen v)) as [Hl|Hl].
    - unfold strlen in Hl. destruct v as [|a [|b [|c [|d v]]]]; simpl length in Hl; try lia. wp_step. eapply wp_load32; [exact Hb|]. by wp_step.
    - unfold strlen in Hl. destruct v as [|a [|b [|c [|d v]]]]; simpl length in Hl; try lia; by wp_step. }
  assert (∀ (k : Z → Z * lease) (old : Z * lease), Q (match addr4_of v with Some x => k x | None => old end) s →
    wp (if strlen v =? 4 then x ← load_word pkt pos; mret (k x) else mret old) Q s) as Hfour.
  { intros k old Hk. rewrite E4. unfold addr4_of in Hk. destruct (Nat.eqb_spec (length v) 4) as [Hl|Hl]; [|by wp_step].
    destruct v as [|a [|b [|c [|d v]]]]; simpl length in Hl; try lia. wp_step. eapply wp_load32; [exact Hb|]. by wp_step. }
  destruct (code =? OPT_LEASE); [|destruct (code =? OPT_SUBNET); [|destruct (code =? OPT_ROUTER); [|destruct (code =? OPT_DNS); [|by wp_step]]]]; cbn [le_yiaddr le_lease le_netmask le_router le_dns].
  - apply Hfour. by destruct (addr4_of v).
  - apply Hfour. by destruct (addr4_of v).
  - apply Hany. by destruct (addr_of v).
  - apply Hany. by destruct (addr_of v).
Qed.

Section options.
Context (pkt : list Z) (len : Z).
Hypothesis Hlen : len ≤ strlen pkt.

(** The loop over options that are laid out as RFC 2132 says. *)
Lemma wp_options {St} fuel os o st more (Q : Z * lease → St → Prop) s :
  Forall opt_ok os → bytes_at pkt o (options os ++ OPT_END :: more) → o + strlen (options os) < len → (length os < fuel)%nat →
  Q (fold_left learn os st) s → wp (loop_fuel fuel (option_step pkt len) (o, st)) Q s.
Proof.
  intros Hos. revert fuel o st. induction Hos as [|x os Hx Hos IH]; intros fuel o st Hb Hl Hf HQ; (destruct fuel as [|fuel]; [simpl in Hf; lia|]); cbn [loop_fuel].
  { change (strlen (options [])) with 0 in Hl. apply wp_bind. unfold option_step. rewrite (proj2 (Z.ltb_lt o len)) by lia. cbn iota.
    wp_step. eapply wp_load_at; [exact Hb|]. change (OPT_END =? OPT_END) with true. cbn iota. wp_step. by wp_step. }
  assert (0 ≤ o) as Ho by apply Hb. assert (0 ≤ strlen (options os)) by (unfold strlen; lia).
  change (options (x :: os)) with (opt_bytes x ++ options os) in *. rewrite <-app_assoc in Hb.
  assert (strlen (opt_bytes x ++ options os) = strlen (opt_bytes x) + strlen (options os)) as E by slia. rewrite E in Hl.
  assert (1 ≤ strlen (opt_bytes x)) by (destruct x; slia). simpl in Hf. apply wp_bind. unfold option_step at 1. rewrite (proj2 (Z.ltb_lt o len)) by lia.
  cbn iota. destruct x as [|c v].
  - wp_step. eapply wp_load_at; [exact Hb|]. change (OPT_PAD =? OPT_END) with false. change (OPT_PAD =? OPT_PAD) with true. cbn iota. wp_step.
    apply bytes_at_app in Hb as [_ Hb]. apply IH; [exact Hb|change (strlen (opt_bytes Pad)) with 1 in Hl; lia|lia|]. by destruct st as [t []].
  - simpl in Hx. destruct Hx as [Hc Hv]. assert (strlen (opt_bytes (Opt c v)) = 2 + strlen v) as Ex by slia. assert (0 ≤ strlen v) by (unfold strlen; lia).
    pose proof Hb as (_ & Hb0 & Hb1)%bytes_at_cons. pose proof Hb1 as (_ & Hb2 & Hb3)%bytes_at_cons.
    wp_step. eapply wp_load; [lia|exact Hb0|]. rewrite (proj2 (Z.eqb_neq c _)), (proj2 (Z.eqb_neq c _)) by (unfold OPT_END, OPT_PAD; lia).
    rewrite (proj2 (Z.leb_gt len _)) by lia. wp_step. eapply wp_load; [lia|exact Hb2|]. rewrite (proj2 (Z.ltb_ge len _)) by lia.
    apply bytes_at_app in Hb3 as [Hb3 Hb4]. wp_step. eapply wp_take_option; [exact Hb3|lia|]. wp_step.
    apply IH; [exact Hb4|lia|lia|done].
Qed.

(** The loop over any bytes ends, without a read behind the packet. *)
Lemma wp_any_options {St} fuel o st (Q : Z * lease → St → Prop) s :
  Forall is_u8 pkt → 0 ≤ o → 0 ≤ st.1 → (0 < fuel)%nat → len - o < Z.of_nat fuel → (∀ r, 0 ≤ r.1 → Q r s) → wp (loop_fuel fuel (option_step pkt len) (o, st)) Q s.
Proof.
  intros Hu. revert o st. induction fuel as [|fuel IH]; intros o st Ho Hst H0 Hf HQ; [lia|]; cbn [loop_fuel].
  assert (∀ i, 0 ≤ i < len → ∃ b, pkt !! Z.to_nat i = Some b ∧ is_u8 b) as Hbyte by (intros i; by apply byte_at).
  assert (∀ r, 0 ≤ r.1 → wp (mret r) Q s) as Hend by (intros r Hr; wp_step; by apply HQ).
  apply wp_bind. unfold option_step at 1. destruct (Z.ltb_spec o len); [|wp_step; by apply Hend].
  destruct (Hbyte o) as (c & Hc & Hcu); [lia|]. wp_step. eapply wp_load; [lia|exact Hc|].
  destruct (c =? OPT_END); [wp_step; by apply Hend|]. destruct (c =? OPT_PAD); [wp_step; apply IH; [lia|done|lia|lia|done]|].
  destruct (Z.leb_spec len (o + 1)); [wp_step; by apply Hend|]. destruct (Hbyte (o + 1)) as (l & Hl & Hlu); [lia|]. wp_step. eapply wp_load; [lia|exact Hl|].
  destruct (Z.ltb_spec len (o + 1 + 1 + l)); [wp_step; by apply Hend|]. unfold is_u8 in Hlu, Hcu.
  set (v := take (Z.to_nat l) (drop (Z.to_nat (o + 1 + 1)) pkt)). assert (strlen v = l) as Ev by (unfold v, strlen in *; rewrite length_take, length_drop; lia).
  assert (bytes_at pkt (o + 1 + 1) v) as Hv by (apply bytes_at_slice; lia).
  assert (Forall is_u8 v) as Hvu by (by apply Forall_take, Forall_drop).
  wp_step. rewrite <-Ev at 1. apply wp_take_option; [exact Hv|lia|]. wp_step. apply IH; [lia| |lia|lia|done].
  destruct st as [t [y ls nm rt dn]]. unfold learn. destruct (c =? OPT_MSG_TYPE).
  - destruct v as [|x [|]]; [done| |done]. apply Forall_cons in Hvu as [Hx _]. unfold is_u8 in Hx. simpl. lia.
  - by repeat case_match.
Qed.
End options.

Lemma pair4_at pkt len pos : Forall is_u8 pkt → len ≤ strlen pkt → 0 ≤ pos → pos + 4 ≤ len → ∃ v, word_at pkt pos v.
Proof.
  intros Hu Hn Hp Hl. assert (∀ i, 0 ≤ i < len → ∃ b, pkt !! Z.to_nat i = Some b ∧ is_u8 b) as Hb by (intros i; by apply byte_at).
  destruct (Hb pos) as (a & Ha & _); [lia|]. destruct (Hb (pos + 1)) as (b & Hb1 & _); [lia|]. destruct (Hb (pos + 1 + 1)) as (c & Hc & _); [lia|]. destruct (Hb (pos + 1 + 1 + 1)) as (d & Hd & _); [lia|].
  exists (get32 [a; b; c; d] 0), a, b, c, d. split; [|done]. rewrite !bytes_at_cons. split_and!; try lia; try done. by split; [lia|].
Qed.

Lemma word_at_fun pkt pos v w : word_at pkt pos v → word_at pkt pos w → v = w.
Proof.
  intros (a & b & c & d & Hb & <-) (a' & b' & c' & d' & Hb' & <-). rewrite !bytes_at_cons in Hb, Hb'.
  destruct Hb as (_ & Ha & _ & Hb & _ & Hc & _ & Hd & _), Hb' as (_ & Ha' & _ & Hb' & _ & Hc' & _ & Hd' & _). by simplify_eq.
Qed.

(** The reply before its options. *)
Lemma wp_parse_reply {St} xid pkt len le (Q : Z * lease → St → Prop) s :
  Forall is_u8 pkt → len ≤ strlen pkt →
  (¬ (BOOTP_HDR_LEN ≤ len ∧ genuine xid pkt) → Q (-1, le) s) →
  (∀ y, BOOTP_HDR_LEN ≤ len → genuine xid pkt → word_at pkt BP_YIADDR y →
     wp (loop_fuel (S (Z.to_nat (len - BOOTP_HDR_LEN))) (option_step pkt len)
       (BOOTP_HDR_LEN, (0, Lease y (le_lease le) (le_netmask le) (le_router le) (le_dns le)))) Q s) →
  wp (dhcp_parse_reply xid pkt len le) Q s.
Proof.
  intros Hu Hn Hbad Hgood. unfold dhcp_parse_reply, BOOTP_HDR_LEN, BP_XID, BP_MAGIC, BP_YIADDR in *. destruct (Z.ltb_spec len 240); [wp_step; apply Hbad; lia|].
  destruct (byte_at pkt len 0 Hu Hn) as (op & Hop & _); [lia|]. destruct (pair4_at pkt len 4 Hu Hn) as (x & Hx); [lia..|].
  destruct (pair4_at pkt len 236 Hu Hn) as (w & Hw); [lia..|]. destruct (pair4_at pkt len 16 Hu Hn) as (y & Hy); [lia..|].
  wp_step. eapply wp_load; [lia|exact Hop|]. wp_step. eapply wp_word; [exact Hx|].
  destruct (Z.eqb_spec op 2) as [->|Eop]; cbn [negb orb].
  2:{ wp_step. apply Hbad. intros [_ [(_ & H2 & _)%bytes_at_cons _ _]]. congruence. }
  destruct (Z.eqb_spec x xid) as [->|Ex]; cbn [negb].
  2:{ wp_step. apply Hbad. intros [_ [_ H2 _]]. by pose proof (word_at_fun _ _ _ _ Hx H2). }
  wp_step. eapply wp_word; [exact Hw|]. destruct (Z.eqb_spec (be32toh w) DHCP_MAGIC) as [Ew|Ew]; cbn [negb].
  2:{ wp_step. apply Hbad. intros [_ [_ _ (w' & H2 & E2)]]. rewrite (word_at_fun _ _ _ _ Hw H2) in Ew. done. }
  wp_step. eapply wp_word; [exact Hy|]. apply Hgood; [done| |done]. split; [|done|by exists w].
  rewrite bytes_at_cons. split_and!; [lia|done|by split].
Qed.

(** C35: [dhcp_parse_reply] returns for every packet and reads nothing behind its
    end; it returns -1 and stores nothing exactly when the packet is not a reply
    of the transaction; otherwise the address offered, and from options laid out
    as RFC 2132 says, pads and unknown ones included, each value of the last
    option that holds it and the type of the message, which is the return value
    (2 for an OFFER, 5 for an ACK; the comment in dhcp.c says 0 on success, and
    its callers compare with the types). *)
Theorem dhcp_parse_reply_exact {St} xid pkt len le (s : St) :
  Forall is_u8 pkt → len ≤ strlen pkt →
  ∃ r le', dhcp_parse_reply xid pkt len le s = Ok ((r, le'), s) ∧
    (¬ (BOOTP_HDR_LEN ≤ len ∧ genuine xid pkt) → r = -1 ∧ le' = le) ∧
    (BOOTP_HDR_LEN ≤ len ∧ genuine xid pkt → 0 ≤ r) ∧
    ∀ y os more, BOOTP_HDR_LEN ≤ len ∧ genuine xid pkt → word_at pkt BP_YIADDR y → Forall opt_ok os →
      bytes_at pkt BOOTP_HDR_LEN (options os ++ OPT_END :: more) → BOOTP_HDR_LEN + strlen (options os) < len →
      (r, le') = fold_left learn os (0, Lease y (le_lease le) (le_netmask le) (le_router le) (le_dns le)).
Proof.
  intros Hu Hn. set (run := dhcp_parse_reply xid pkt len le).
  assert (wp run (λ r s', s' = s ∧ (¬ (BOOTP_HDR_LEN ≤ len ∧ genuine xid pkt) → r = (-1, le)) ∧ (BOOTP_HDR_LEN ≤ len ∧ genuine xid pkt → 0 ≤ r.1)) s) as Hwp.
  { apply wp_parse_reply; [done|done|intros Hno; by split_and!|]. intros y Hl Hg _. apply wp_any_options; [done|done|done|done|lia|lia|].
    intros r Hr. split_and!; [done|intros Hno; by destruct Hno|done]. }
  apply wp_ok in Hwp as ([r le'] & s' & Hrun & -> & Hno & Hyes). exists r, le'. split; [exact Hrun|]. split; [|split; [exact Hyes|]].
  - intros Hg. by injection (Hno Hg) as -> ->.
  - intros y os more Hg Hy Hos Hb Hl. assert (run s = Ok (fold_left learn os (0, Lease y (le_lease le) (le_netmask le) (le_router le) (le_dns le)), s)) as Hrun2.
    { apply wp_result. apply wp_parse_reply; [done|done|by intros Hg'|]. intros y' _ _ Hy'. rewrite (word_at_fun _ _ _ _ Hy' Hy).
      eapply wp_options; [exact Hos|exact Hb|exact Hl| |done]. assert (length os ≤ length (options os))%nat; [|unfold strlen in Hl; lia].
      clear. induction os as [|x os IH]; [done|]. change (options (x :: os)) with (opt_bytes x ++ options os). rewrite length_app. destruct x; simpl; lia. }
    rewrite Hrun in Hrun2. by injection Hrun2 as <-.
Qed.

(** ** What a message says *)

Definition request_options (type req_ip server_id : Z) : list dhcp_opt :=
  Opt OPT_MSG_TYPE [type] ::
  (if req_ip =? 0 then [] else [Opt OPT_REQ_IP (put32 req_ip)]) ++
  (if server_id =? 0 then [] else [Opt OPT_SERVER_ID (put32 server_id)]) ++
  (if type =? DHCP_MSG_DISCOVER then [Opt OPT_PARAM_REQ [OPT_SUBNET; OPT_ROUTER; OPT_DNS; OPT_DOMAIN]] else []).

(** The header of a request: op, htype, hlen and hops, xid, secs and flags,
    four addresses, chaddr, sname and file, magic. *)
Definition request_header (xid : Z) (mac : list Z) : list Z :=
  [1; 1; 6; 0] ++ put32 xid ++ [0; 0] ++ put16 (htobe16 0x8000) ++ replicate 16 0 ++ mac ++ replicate 202 0 ++ put32 (htobe32 DHCP_MAGIC).

Definition request (xid : Z) (mac : list Z) (os : list dhcp_opt) : list Z :=
  let m := request_header xid mac ++ options os ++ [OPT_END] in
  m ++ replicate (300 - length m) OPT_PAD.

(** Stores inside and right behind the part [H] of an array that is known. *)
Lemma wp_store_prefix {St} H R i bs (Q : list Z → St → Prop) s :
  0 ≤ i → i + strlen bs ≤ strlen H → Q (written H i bs ++ R) s → wp (store_bytes (H ++ R) i bs) Q s.
Proof.
  intros Hi Hl HQ. apply wp_write_bytes; [done|slia|]. unfold written, strlen in *.
  by rewrite take_app_le, drop_app_le, <-!app_assoc in * by lia.
Qed.

Lemma wp_store_next {St} H R i bs (Q : list Z → St → Prop) s :
  i = strlen H → strlen bs ≤ strlen R → Q ((H ++ bs) ++ drop (length bs) R) s → wp (store_bytes (H ++ R) i bs) Q s.
Proof.
  intros -> Hl HQ. apply wp_write_bytes; [slia|slia|]. unfold written, strlen in *. rewrite Nat2Z.id.
  rewrite take_app_length, drop_app_ge by lia. replace (length H + length bs - length H)%nat with (length bs) by lia. by rewrite <-app_assoc in HQ.
Qed.

(** The options written so far behind a header [H], the old bytes [R] behind. *)
Definition laid (H R : list Z) (os : list dhcp_opt) : list Z := (H ++ options os) ++ drop (length (options os)) R.

Lemma options_app l l' : options (l ++ l') = options l ++ options l'.
Proof. apply bind_app. Qed.

Lemma wp_put_option {St} H R os o code v (Q : list Z * Z → St → Prop) s :
  o = strlen (H ++ options os) → strlen (options (os ++ [Opt code v])) ≤ strlen R →
  Q (laid H R (os ++ [Opt code v]), strlen (H ++ options (os ++ [Opt code v]))) s → wp (put_option (laid H R os) o code v) Q s.
Proof.
  intros -> Hl HQ. assert (options (os ++ [Opt code v]) = options os ++ code :: strlen v :: v) as E by (rewrite options_app; unfold options at 2; simpl; by rewrite app_nil_r).
  rewrite E in Hl, HQ. unfold put_option, laid in *. rewrite E in HQ. wp_step. apply wp_store_next; [done|unfold strlen in *; rewrite length_drop, length_app in *; lia|].
  wp_step. rewrite drop_drop. rewrite app_assoc, !length_app in HQ. replace (strlen (H ++ options os) + 2 + strlen v) with (strlen ((H ++ options os) ++ code :: strlen v :: v)) by slia. exact HQ.
Qed.

(** The option is only written when the condition [b] holds. *)
Lemma wp_put_option_if {St} (b : bool) H R os o code v (Q : list Z * Z → St → Prop) s :
  o = strlen (H ++ options os) → strlen (options (os ++ [Opt code v])) ≤ strlen R →
  Q (laid H R (os ++ (if b then [Opt code v] else [])), strlen (H ++ options (os ++ (if b then [Opt code v] else [])))) s →
  wp (if b then put_option (laid H R os) o code v else mret (laid H R os, o)) Q s.
Proof. intros Ho Hl HQ. destruct b; [by apply wp_put_option|]. wp_step. rewrite app_nil_r in HQ. by rewrite Ho. Qed.

Lemma put32_four v : ∃ a b c d, put32 v = [a; b; c; d].
Proof. by do 4 eexists. Qed.

Lemma request_header_written xid mac : length mac = 6%nat →
  written (written (written (written (written (replicate 240 0) 0 [1; 1; 6; 0]) BP_XID (put32 xid)) BP_FLAGS (put16 (htobe16 0x8000))) BP_CHADDR (take 6 mac))
    BP_MAGIC (put32 (htobe32 DHCP_MAGIC)) = request_header xid mac.
Proof.
  intros Hm. unfold request_header. destruct (put32_four xid) as (a & b & c & d & ->).
  destruct mac as [|m0 [|m1 [|m2 [|m3 [|m4 [|m5 [|]]]]]]]; done.
Qed.

Lemma request_options_short type req_ip server_id : (length (options (request_options type req_ip server_id)) ≤ 21)%nat.
Proof. unfold request_options. destruct (req_ip =? 0), (server_id =? 0), (type =? DHCP_MSG_DISCOVER); unfold options; simpl; lia. Qed.

(** [dhcp_build_msg] fills exactly the first 300 bytes of its buffer with a
    request of RFC 2131: the BOOTP header with the transaction, the broadcast
    flag and the hardware address, the message type, the requested address and
    the server if there are any, what a DISCOVER asks for, the end and padding;
    no byte of what the buffer held before is sent. *)
Theorem dhcp_build_msg_layout {St} xid mac pkt type req_ip server_id (s : St) :
  length mac = 6%nat → length pkt = 320%nat →
  dhcp_build_msg xid mac pkt type req_ip server_id s =
    Ok ((request xid mac (request_options type req_ip server_id) ++ drop 300 pkt, 300), s).
Proof.
  intros Hm Hp. apply wp_result. unfold dhcp_build_msg. assert (pkt = [] ++ pkt) as Ep by done. rewrite Ep at 1.
  wp_step. apply wp_store_next; [done|unfold strlen; rewrite length_replicate; lia|]. rewrite length_replicate, app_nil_l.
  set (R := drop 240 pkt). assert (length R = 80%nat) as HR by (unfold R; rewrite length_drop; lia).
  destruct (put32_four xid) as (a & b & c & d & Ex). pose proof (request_header_written xid mac Hm) as Hw. rewrite Ex in Hw |- *.
  assert (∃ m0 m1 m2 m3 m4 m5, take 6 mac = [m0; m1; m2; m3; m4; m5]) as (m0 & m1 & m2 & m3 & m4 & m5 & Em).
  { destruct mac as [|m0 [|m1 [|m2 [|m3 [|m4 [|m5 [|]]]]]]]; try done. by do 6 eexists. }
  rewrite Em in Hw |- *. do 5 (wp_step; apply wp_store_prefix; [done|by vm_compute|]). rewrite Hw. set (H := request_header xid mac).
  assert (strlen H = 240) as HH by (unfold H, request_header; rewrite Ex; unfold strlen; rewrite !length_app, !length_replicate; simpl length; lia).
  set (os := request_options type req_ip server_id). pose proof (request_options_short type req_ip server_id) as Hos.
  assert (laid H R [] = H ++ R) as E0 by (unfold laid; change (options []) with (@nil Z); by rewrite app_nil_r). rewrite <-E0.
  assert (strlen R = 80) as HR' by (unfold strlen; lia).
  wp_step. apply wp_put_option; [change (options []) with (@nil Z); by rewrite app_nil_r, HH|rewrite HR'; by vm_compute|]. cbn [app].
  wp_step. apply wp_put_option_if; [done|rewrite HR'; by vm_compute|].
  assert (∀ b (x y : list dhcp_opt), (if negb b then x else y) = (if b then y else x)) as Hneg by (by intros []). rewrite Hneg.
  wp_step. apply wp_put_option_if; [done|rewrite HR'; destruct (req_ip =? 0); by vm_compute|]. rewrite Hneg.
  wp_step. apply wp_put_option_if; [done|rewrite HR'; destruct (req_ip =? 0), (server_id =? 0); by vm_compute|].
  rewrite <-!app_assoc. cbn [app]. fold (request_options type req_ip server_id). fold os. fold os in Hos.
  match goal with |- context [options ?x] => replace x with os by done end. clearbody os.
  assert (request xid mac os = (H ++ options os ++ [OPT_END]) ++ replicate (300 - length (H ++ options os ++ [OPT_END])) OPT_PAD) as Ereq by done. clearbody H.
  unfold laid. set (A := H ++ options os). assert (strlen A = 240 + strlen (options os)) as HA by (unfold A; slia).
  wp_step. apply wp_store_next; [done|unfold strlen in *; rewrite length_drop; simpl length; lia|]. rewrite drop_drop.
  rewrite (proj2 (Z.ltb_lt _ 300)) by (unfold strlen in *; lia). wp_step.
  apply wp_store_next; [slia|unfold strlen in *; rewrite length_drop, length_replicate; simpl length; lia|]. wp_step.
  split; [|done]. f_equal. rewrite length_replicate, drop_drop. unfold R. rewrite drop_drop. rewrite Ereq, <-!app_assoc.
  assert (Z.of_nat (length H) = 240) as HHn by done. assert (Z.to_nat (300 - (strlen A + 1)) = (59 - length (options os))%nat) as -> by (unfold strlen in *; lia).
  unfold A. rewrite <-app_assoc. do 3 f_equal. rewrite !length_app. simpl length. f_equal; [f_equal|f_equal]; lia.
Qed.

Definition demo_mac : list Z := [0x52; 0x54; 0; 0x12; 0x34; 0x56].

Lemma dhcp_build_msg_layout_witness :
  dhcp_build_msg 0x1234 demo_mac (replicate 320 7) 1 0 0 tt =
    Ok ((request 0x1234 demo_mac (request_options 1 0 0) ++ replicate 20 7, 300), tt).
Proof. exact (dhcp_build_msg_layout 0x1234 demo_mac (replicate 320 7) 1 0 0 tt eq_refl eq_refl). Defined.

(** A packet from a server: an OFFER of 10.0.2.15 with a server identifier. *)
Definition demo_offer : list Z :=
  [2; 1; 6; 0] ++ put32 0x1234 ++ replicate 8 0 ++ put32 (ip4_make 10 0 2 15) ++ replicate 216 0 ++ put32 (htobe32 DHCP_MAGIC) ++
  options [Opt OPT_MSG_TYPE [2]; Pad; Opt OPT_SERVER_ID [10; 0; 2; 2]; Opt OPT_SUBNET [255; 255; 255; 0]; Opt OPT_ROUTER [10; 0; 2; 2]; Opt OPT_LEASE [0; 1; 81; 128]] ++ [OPT_END; 9].

Lemma dhcp_parse_reply_exact_witness :
  dhcp_parse_reply 0x1234 demo_offer (strlen demo_offer) (Lease 0 0 0 0 0) tt =
    Ok ((2, Lease (ip4_make 10 0 2 15) 86400 (ip4_make 255 255 255 0) (ip4_make 10 0 2 2) 0), tt).
Proof.
  destruct (dhcp_parse_reply_exact 0x1234 demo_offer (strlen demo_offer) (Lease 0 0 0 0 0) tt) as (r & le & Hrun & _ & _ & Hopt).
  - apply (bool_decide_unpack _); by vm_compute.
  - done.
  - assert (∀ i bs, 0 ≤ i → bs = take (length bs) (drop (Z.to_nat i) demo_offer) → bytes_at demo_offer i bs) as Hat.
    { intros i bs Hi ->. by apply bytes_at_slice. }
    assert (∀ i v a b c d, 0 ≤ i → [a; b; c; d] = take 4 (drop (Z.to_nat i) demo_offer) → get32 [a; b; c; d] 0 = v → word_at demo_offer i v) as Hw.
    { intros i v a b c d Hi Hb Hv. exists a, b, c, d. split; [by apply Hat|done]. }
    rewrite Hrun. specialize (Hopt (ip4_make 10 0 2 15)
      [Opt OPT_MSG_TYPE [2]; Pad; Opt OPT_SERVER_ID [10; 0; 2; 2]; Opt OPT_SUBNET [255; 255; 255; 0]; Opt OPT_ROUTER [10; 0; 2; 2]; Opt OPT_LEASE [0; 1; 81; 128]] [9]).
    f_equal. f_equal. rewrite Hopt; [by vm_compute|split; [by vm_compute|]|..].
    + split; [by apply Hat|by eapply Hw|]. exists (htobe32 DHCP_MAGIC). split; [by eapply Hw|by vm_compute].
    + by eapply Hw.
    + repeat constructor; by vm_compute.
    + by apply Hat.
    + by vm_compute.
Defined.

(** The request that follows names no server, because the server identifier of
    the offer is read over; RFC 2131 requires it. *)
Example request_without_server :
  request_options DHCP_MSG_REQUEST (ip4_make 10 0 2 15) (of_server (Offer 0 0 0 0 0 0)) = [Opt OPT_MSG_TYPE [3]; Opt OPT_REQ_IP [10; 0; 2; 15]].
Proof. by vm_compute. Qed.
