(* ===== verification/Dynlink.v ===== *)
(** * Dynlink: the dynamic linker core (kernel/dynlink.c, elf.h)

    Parsing the dynamic section of an ELF image, looking symbols up in a scope of
    images and applying relocations.  The bytes of an image are a list; a read
    outside of it faults.  What [place] is called with is the state. *)

From Stdlib Require Import String.
From S2P Require Import Prelude CString Packet.

Definition ELF_MAGIC : Z := 0x464C457F.
Definition PT_LOAD : Z := 1.
Definition PT_DYNAMIC : Z := 2.
Definition DT_NULL : Z := 0.
Definition DT_NEEDED : Z := 1.
Definition DT_PLTRELSZ : Z := 2.
Definition DT_HASH : Z := 4.
Definition DT_STRTAB : Z := 5.
Definition DT_SYMTAB : Z := 6.
Definition DT_RELA : Z := 7.
Definition DT_RELASZ : Z := 8.
Definition DT_RELAENT : Z := 9.
Definition DT_STRSZ : Z := 10.
Definition DT_JMPREL : Z := 23.
Definition SHN_UNDEF : Z := 0.
Definition SHT_DYNSYM : Z := 11.
Definition R_X86_64_64 : Z := 1.
Definition R_X86_64_GLOB_DAT : Z := 6.
Definition R_X86_64_JUMP_SLOT : Z := 7.
Definition R_X86_64_RELATIVE : Z := 8.
Definition DYNLINK_MAX_DEPS : nat := 8.

(** The sizes of the structures of elf.h. *)
Definition EHDR_SIZE : Z := 64.
Definition PHDR_SIZE : Z := 56.
Definition SHDR_SIZE : Z := 64.
Definition SYM_SIZE : Z := 24.
Definition RELA_SIZE : Z := 24.
Definition DYN_SIZE : Z := 16.

(** ** Structures in the file *)

(** A little-endian field of [n] bytes. *)
Fixpoint load_le {St} (n : nat) (buf : list Z) (pos : Z) : M St Z :=
  match n with
  | O => mret 0
  | S n => b ← load buf pos; w ← load_le n buf (pos + 1); mret (b + 256 * w)
  end.

Record elf64_ehdr := Ehdr {
  ei_magic : Z; ei_class : Z; ei_data : Z; e_machine : Z; e_entry : Z; e_phoff : Z; e_shoff : Z;
  e_phentsize : Z; e_phnum : Z; e_shentsize : Z; e_shnum : Z }.

Definition load_ehdr {St} (buf : list Z) : M St elf64_ehdr :=
  magic ← load_le 4 buf 0;
  class ← load_le 1 buf 4;
  data ← load_le 1 buf 5;
  machine ← load_le 2 buf 18;
  entry ← load_le 8 buf 24;
  phoff ← load_le 8 buf 32;
  shoff ← load_le 8 buf 40;
  phentsize ← load_le 2 buf 54;
  phnum ← load_le 2 buf 56;
  shentsize ← load_le 2 buf 58;
  shnum ← load_le 2 buf 60;
  mret (Ehdr magic class data machine entry phoff shoff phentsize phnum shentsize shnum).

Record elf64_phdr := Phdr { p_type : Z; p_flags : Z; p_offset : Z; p_vaddr : Z; p_filesz : Z; p_memsz : Z }.

Definition load_phdr {St} (buf : list Z) (pos : Z) : M St elf64_phdr :=
  type ← load_le 4 buf pos;
  flags ← load_le 4 buf (pos + 4);
  offset ← load_le 8 buf (pos + 8);
  vaddr ← load_le 8 buf (pos + 16);
  filesz ← load_le 8 buf (pos + 32);
  memsz ← load_le 8 buf (pos + 40);
  mret (Phdr type flags offset vaddr filesz memsz).

(** The table [ph[0..n)]. *)
Fixpoint load_phdrs {St} (n : nat) (buf : list Z) (pos : Z) : M St (list elf64_phdr) :=
  match n with
  | O => mret []
  | S n => ph ← load_phdr buf pos; l ← load_phdrs n buf (pos + PHDR_SIZE); mret (ph :: l)
  end.

Record elf64_sym := Sym { st_name : Z; st_shndx : Z; st_value : Z }.
Definition load_sym {St} (buf : list Z) (pos : Z) : M St elf64_sym :=
  name ← load_le 4 buf pos;
  shndx ← load_le 2 buf (pos + 6);
  value ← load_le 8 buf (pos + 8);
  mret (Sym name shndx value).

Record elf64_rela := Rela { r_offset : Z; r_info : Z; r_addend : Z }.
Definition load_rela {St} (buf : list Z) (pos : Z) : M St elf64_rela :=
  offset ← load_le 8 buf pos;
  info ← load_le 8 buf (pos + 8);
  addend ← load_le 8 buf (pos + 16);
  mret (Rela offset info addend).

Definition R_SYM (i : Z) : Z := Z.shiftr i 32.
Definition R_TYPE (i : Z) : Z := Z.land i 0xffffffff.

(** ** The parsed view *)

Record elf_dyninfo := Dyninfo {
  has_dynamic : bool;
  di_base : Z;
  di_entry : Z;
  seg_lo : Z;
  seg_hi : Z;
  dynsym_off : Z;
  dynsym_count : Z;
  dynstr_off : Z;
  dynstr_size : Z;
  rela_off : Z;
  rela_count : Z;
  jmprel_off : Z;
  jmprel_count : Z;
  needed_off : list Z }.

Record elf_object := Object { eo_buf : list Z; eo_info : elf_dyninfo }.

Definition info0 : elf_dyninfo := Dyninfo false 0 0 0 0 0 0 0 0 0 0 0 0 [].

(** [va_to_off] over the program headers. *)
Fixpoint va_to_off (ph : list elf64_phdr) (va : Z) : option Z :=
  match ph with
  | [] => None
  | p :: ph =>
    if (p_type p =? PT_LOAD) && (p_vaddr p <=? va) && (va <? u64 (p_vaddr p + p_filesz p))
    then Some (u64 (p_offset p + (va - p_vaddr p)))
    else va_to_off ph va
  end.

(** The loop of [dynsym_count_from_sections]. *)
Fixpoint count_in_sections {St} (n : nat) (buf : list Z) (pos symtab_va : Z) : M St Z :=
  match n with
  | O => mret 0
  | S n =>
    type ← load_le 4 buf (pos + 4);
    addr ← load_le 8 buf (pos + 16);
    if negb (type =? SHT_DYNSYM) || negb (addr =? symtab_va) then count_in_sections n buf (pos + SHDR_SIZE) symtab_va
    else
      entsize ← load_le 8 buf (pos + 56);
      sh_size ← load_le 8 buf (pos + 32);
      mret (sh_size / (if entsize =? 0 then 24 else entsize))
  end.

Definition dynsym_count_from_sections {St} (buf : list Z) (symtab_va : Z) : M St Z :=
  let size := strlen buf in
  if size <? EHDR_SIZE then mret 0
  else
    h ← load_ehdr buf;
    if negb (e_shentsize h =? SHDR_SIZE) || (e_shoff h =? 0) then mret 0
    else if size <? e_shoff h then mret 0
    else
      let room := (size - e_shoff h) / SHDR_SIZE in
      count_in_sections (Z.to_nat (Z.min (e_shnum h) room)) buf (e_shoff h) symtab_va.

(** The loop over the program headers: the loaded span and the dynamic header,
    or none for -1. *)
Fixpoint scan_phdrs (size : Z) (ph : list elf64_phdr) (lo hi : Z) (dyn : option elf64_phdr) : option (Z * Z * option elf64_phdr) :=
  match ph with
  | [] => Some (lo, hi, dyn)
  | p :: ph =>
    if negb (p_type p =? PT_LOAD) then scan_phdrs size ph lo hi (if p_type p =? PT_DYNAMIC then Some p else dyn)
    else if (size <? p_offset p) || (size - p_offset p <? p_filesz p) then None
    else if p_memsz p <? p_filesz p then None
    else if u64 (p_vaddr p + p_filesz p) <? p_vaddr p then None
    else
      let lo := if (p_vaddr p <? lo) || (lo =? 0) then p_vaddr p else lo in
      let hi := if hi <? u64 (p_vaddr p + p_memsz p) then u64 (p_vaddr p + p_memsz p) else hi in
      scan_phdrs size ph lo hi dyn
  end.

(** The values of the dynamic array. *)
Record tags := Tags {
  tg_needed : list Z; tg_strtab : Z; tg_strsz : Z; tg_symtab : Z; tg_rela : Z; tg_relasz : Z; tg_relaent : Z; tg_jmprel : Z; tg_pltrelsz : Z; tg_hash : Z }.

Definition take_tag (t : tags) (tag v : Z) : tags :=
  let 'Tags needed strtab strsz symtab rela relasz relaent jmprel pltrelsz hash := t in
  if tag =? DT_NEEDED then
    Tags (if (length needed <? DYNLINK_MAX_DEPS)%nat then needed ++ [u32 v] else needed) strtab strsz symtab rela relasz relaent jmprel pltrelsz hash
  else if tag =? DT_STRTAB then Tags needed v strsz symtab rela relasz relaent jmprel pltrelsz hash
  else if tag =? DT_STRSZ then Tags needed strtab v symtab rela relasz relaent jmprel pltrelsz hash
  else if tag =? DT_SYMTAB then Tags needed strtab strsz v rela relasz relaent jmprel pltrelsz hash
  else if tag =? DT_RELA then Tags needed strtab strsz symtab v relasz relaent jmprel pltrelsz hash
  else if tag =? DT_RELASZ then Tags needed strtab strsz symtab rela v relaent jmprel pltrelsz hash
  else if tag =? DT_RELAENT then Tags needed strtab strsz symtab rela relasz v jmprel pltrelsz hash
  else if tag =? DT_JMPREL then Tags needed strtab strsz symtab rela relasz relaent v pltrelsz hash
  else if tag =? DT_PLTRELSZ then Tags needed strtab strsz symtab rela relasz relaent jmprel v hash
  else if tag =? DT_HASH then Tags needed strtab strsz symtab rela relasz relaent jmprel pltrelsz v
  else t.

(** One turn of the loop over the dynamic array.  An entry outside of the file
    faults, so that as many turns as the file has bytes are enough. *)
Definition dyn_step {St} (buf : list Z) (d_off d_cnt : Z) (st : Z * tags) : M St (Z * tags + tags) :=
  let '(i, t) := st in
  if i <? d_cnt then
    tag ← load_le 8 buf (d_off + i * DYN_SIZE);
    if tag =? DT_NULL then mret (inr t)
    else
      v ← load_le 8 buf (d_off + i * DYN_SIZE + 8);
      mret (inl (i + 1, take_tag t tag v))
  else mret (inr t).

(** A table at [va] with [n] entries of [ent] bytes, cut to the file: offset
    and count. *)
Definition table (size : Z) (ph : list elf64_phdr) (va n ent : Z) : Z * Z :=
  match va_to_off ph va with
  | Some off => if off <? size then (off, Z.min n ((size - off) / ent)) else (0, 0)
  | None => (0, 0)
  end.

(** The number of symbols: [nchain] of the hash table, or the section header. *)
Definition sym_count {St} (buf : list Z) (ph : list elf64_phdr) (symt hash : Z) : M St Z :=
  let size := strlen buf in
  n ← (if hash =? 0 then mret 0
       else match va_to_off ph hash with
            | Some hoff => if (hoff <=? size) && (8 <=? size - hoff) then load_le 4 buf (hoff + 4) else mret 0
            | None => mret 0
            end);
  if n =? 0 then dynsym_count_from_sections buf symt else mret n.

(** What is stored about the tables the tags point to. *)
Definition parse_tables {St} (buf : list Z) (ph : list elf64_phdr) (entry lo hi : Z) (t : tags) : M St elf_dyninfo :=
  let size := strlen buf in
  let '(dstr, strsz) := if tg_strtab t =? 0 then (0, 0) else table size ph (tg_strtab t) (tg_strsz t) 1 in
  '(dsym, nsym) ← (if tg_symtab t =? 0 then mret (0, 0)
                   else match va_to_off ph (tg_symtab t) with
                        | Some off =>
                          if off <? size then n ← sym_count buf ph (tg_symtab t) (tg_hash t); mret (off, Z.min n ((size - off) / SYM_SIZE))
                          else mret (0, 0)
                        | None => mret (0, 0)
                        end);
  let '(rela, nrela) := if (tg_rela t =? 0) || (tg_relaent t =? 0) then (0, 0) else table size ph (tg_rela t) (tg_relasz t / tg_relaent t) RELA_SIZE in
  let '(jmp, njmp) := if tg_jmprel t =? 0 then (0, 0) else table size ph (tg_jmprel t) (tg_pltrelsz t / RELA_SIZE) RELA_SIZE in
  mret (Dyninfo true 0 entry lo hi dsym nsym dstr strsz rela nrela jmp njmp (tg_needed t)).

(** The return value and [obj->info].  After -1 the code leaves what it has filled
    in so far and no caller reads it; here it is [info0].  The fields [dyn_off]
    and [dyn_count], which are stored and never read, are left out. *)
Definition elf_parse_dynamic {St} (buf : list Z) : M St (Z * elf_dyninfo) :=
  let size := strlen buf in
  if size <? EHDR_SIZE then mret (-1, info0)
  else
    h ← load_ehdr buf;
    if negb (ei_magic h =? ELF_MAGIC) then mret (-1, info0)
    else if negb (e_phentsize h =? PHDR_SIZE) || (e_phnum h =? 0) then mret (-1, info0)
    else if (size <? e_phoff h) || ((size - e_phoff h) / PHDR_SIZE <? e_phnum h) then mret (-1, info0)
    else
      ph ← load_phdrs (Z.to_nat (e_phnum h)) buf (e_phoff h);
      match scan_phdrs size ph 0 0 None with
      | None => mret (-1, info0)
      | Some (lo, hi, None) => mret (0, Dyninfo false 0 (e_entry h) lo hi 0 0 0 0 0 0 0 0 [])
      | Some (lo, hi, Some dynph) =>
        match va_to_off ph (p_vaddr dynph) with
        | None => mret (-1, info0)
        | Some d_off =>
          if size <=? d_off then mret (-1, info0)
          else
            let d_cnt := p_filesz dynph / DYN_SIZE in
            let d_cnt := if size <? u64 (d_off + d_cnt * DYN_SIZE) then (size - d_off) / DYN_SIZE else d_cnt in
            t ← loop_fuel (S (S (length buf))) (dyn_step buf d_off d_cnt) (0, Tags [] 0 0 0 0 0 0 0 0 0);
            info ← parse_tables buf ph (e_entry h) lo hi t;
            mret (0, info)
        end
      end.

(** ** Symbols *)

Definition dl_strcmp {St} (a : list Z) (i : Z) (b : list Z) (j : Z) : M St Z :=
  loop_fuel (S (length a)) (λ k,
    x ← load a (i + k);
    y ← load b (j + k);
    mret (if negb (x =? 0) && (x =? y) then inl (k + 1) else inr (x - y))) 0.

(** The loop over the symbols of one image from [i] on. *)
Fixpoint find_in {St} (n : nat) (o : elf_object) (i : Z) (nb : list Z) (nm : Z) : M St (option Z) :=
  match n with
  | O => mret None
  | S n =>
    let di := eo_info o in
    s ← load_sym (eo_buf o) (dynsym_off di + i * SYM_SIZE);
    if st_shndx s =? SHN_UNDEF then find_in n o (i + 1) nb nm
    else if dynstr_size di <=? st_name s then find_in n o (i + 1) nb nm
    else
      c ← dl_strcmp (eo_buf o) (dynstr_off di + st_name s) nb nm;
      if c =? 0 then mret (Some (u64 (di_base di + st_value s))) else find_in n o (i + 1) nb nm
  end.

(** The symbol whose name is at [nm] of the bytes [nb]; none when it is not
    found. *)
Fixpoint elf_resolve_symbol {St} (scope : list elf_object) (nb : list Z) (nm : Z) : M St (option Z) :=
  match scope with
  | [] => mret None
  | o :: scope =>
    let di := eo_info o in
    if (dynsym_off di =? 0) || (dynstr_off di =? 0) || (dynsym_count di =? 0) then elf_resolve_symbol scope nb nm
    else
      r ← find_in (Z.to_nat (dynsym_count di - 1)) o 1 nb nm;
      match r with Some v => mret (Some v) | None => elf_resolve_symbol scope nb nm end
  end.

(** ** Relocations *)

(** [place(target_va, value, ctx)] *)
Definition place (target value : Z) : M (list (Z * Z)) unit := modify (λ w, w ++ [(target, value)]).

Definition apply_one (o : elf_object) (rel : elf64_rela) (scope : list elf_object) : M (list (Z * Z)) Z :=
  let di := eo_info o in
  let target := u64 (di_base di + r_offset rel) in
  if (target <? seg_lo di) || (seg_hi di <=? target) then mret (-1)
  else
    let type := u32 (R_TYPE (r_info rel)) in
    let symi := u32 (R_SYM (r_info rel)) in
    if (symi =? 0) && negb (type =? R_X86_64_64) then place target (u64 (di_base di + r_addend rel)) ;; mret 0
    else if type =? R_X86_64_RELATIVE then place target (u64 (di_base di + r_addend rel)) ;; mret 0
    else if (type =? R_X86_64_GLOB_DAT) || (type =? R_X86_64_JUMP_SLOT) || (type =? R_X86_64_64) then
      if (dynsym_count di <=? symi) || (dynsym_off di =? 0) || (dynstr_off di =? 0) then mret (-1)
      else
        s ← load_sym (eo_buf o) (dynsym_off di + symi * SYM_SIZE);
        if dynstr_size di <=? st_name s then mret (-1)
        else
          r ← elf_resolve_symbol scope (eo_buf o) (dynstr_off di + st_name s);
          match r with
          | None => mret (-1)
          | Some val => place target (if type =? R_X86_64_64 then u64 (val + r_addend rel) else val) ;; mret 0
          end
    else mret (-1).

(** One table from entry [i] on, with [*applied]. *)
Fixpoint apply_table (n : nat) (o : elf_object) (off : Z) (scope : list elf_object) (applied : Z) : M (list (Z * Z)) (Z * Z) :=
  match n with
  | O => mret (0, applied)
  | S n =>
    rel ← load_rela (eo_buf o) off;
    if R_TYPE (r_info rel) =? 0 then apply_table n o (off + RELA_SIZE) scope applied
    else
      r ← apply_one o rel scope;
      if r <? 0 then mret (-1, applied) else apply_table n o (off + RELA_SIZE) scope (applied + 1)
  end.

(** The return value and [*applied]. *)
Definition elf_apply_relocations (o : elf_object) (scope : list elf_object) : M (list (Z * Z)) (Z * Z) :=
  let di := eo_info o in
  if negb (has_dynamic di) then mret (0, 0)
  else
    '(r, applied) ← (if negb (rela_off di =? 0) && negb (rela_count di =? 0)
                     then apply_table (Z.to_nat (rela_count di)) o (rela_off di) scope 0 else mret (0, 0));
    if r <? 0 then mret (-1, applied)
    else if negb (jmprel_off di =? 0) && negb (jmprel_count di =? 0)
    then apply_table (Z.to_nat (jmprel_count di)) o (jmprel_off di) scope applied else mret (0, applied).

(** ** Fields *)

(** The value of the [n] bytes from [pos] on. *)
Fixpoint le_val (n : nat) (buf : list Z) (pos : nat) : Z :=
  match n with O => 0 | S n => nth pos buf 0 + 256 * le_val n buf (S pos) end.

Definition field (n : nat) (buf : list Z) (pos : Z) : Z := le_val n buf (Z.to_nat pos).

Lemma le_val_range n buf pos : Forall is_u8 buf → 0 ≤ le_val n buf pos < 256 ^ Z.of_nat n.
Proof.
  intros Hu. revert pos. induction n as [|n IH]; intros pos; [simpl; lia|]. cbn [le_val]. specialize (IH (S pos)).
  replace (Z.of_nat (S n)) with (1 + Z.of_nat n) by lia. rewrite Z.pow_add_r by lia. change (256 ^ 1) with 256.
  assert (0 ≤ nth pos buf 0 < 256); [|lia]. destruct (nth_in_or_default pos buf 0) as [Hin| ->]; [|lia].
  apply list_elem_of_In in Hin. rewrite Forall_forall in Hu. by apply Hu.
Qed.

Lemma field_u64 buf pos : Forall is_u8 buf → is_u64 (field 8 buf pos).
Proof. intros Hu. apply (le_val_range 8 buf _ Hu). Qed.

Lemma field_u32 buf pos : Forall is_u8 buf → is_u32 (field 4 buf pos).
Proof. intros Hu. apply (le_val_range 4 buf _ Hu). Qed.

Lemma field_u16 buf pos : Forall is_u8 buf → is_u16 (field 2 buf pos).
Proof. intros Hu. apply (le_val_range 2 buf _ Hu). Qed.

Lemma wp_load_le {St} n buf pos (Q : Z → St → Prop) s :
  0 ≤ pos → pos + Z.of_nat n ≤ strlen buf → Q (field n buf pos) s → wp (load_le n buf pos) Q s.
Proof.
  revert pos Q. induction n as [|n IH]; intros pos Q Hp Hl HQ; cbn [load_le]; [by wp_step|].
  destruct (lookup_lt_is_Some_2 buf (Z.to_nat pos)) as [b Hb]; [unfold strlen in Hl; lia|].
  wp_step. eapply wp_load; [done|exact Hb|]. wp_step. apply IH; [lia|lia|]. wp_step.
  unfold field in *. cbn [le_val] in HQ. replace (Z.to_nat (pos + 1)) with (S (Z.to_nat pos)) by lia.
  by rewrite (nth_lookup_Some _ _ 0 _ Hb) in HQ.
Qed.

Definition ehdr_of (buf : list Z) : elf64_ehdr :=
  Ehdr (field 4 buf 0) (field 1 buf 4) (field 1 buf 5) (field 2 buf 18) (field 8 buf 24) (field 8 buf 32) (field 8 buf 40)
    (field 2 buf 54) (field 2 buf 56) (field 2 buf 58) (field 2 buf 60).
Definition phdr_at (buf : list Z) (pos : Z) : elf64_phdr :=
  Phdr (field 4 buf pos) (field 4 buf (pos + 4)) (field 8 buf (pos + 8)) (field 8 buf (pos + 16)) (field 8 buf (pos + 32)) (field 8 buf (pos + 40)).
Fixpoint phdrs_at (n : nat) (buf : list Z) (pos : Z) : list elf64_phdr :=
  match n with O => [] | S n => phdr_at buf pos :: phdrs_at n buf (pos + PHDR_SIZE) end.
Definition sym_at (buf : list Z) (pos : Z) : elf64_sym := Sym (field 4 buf pos) (field 2 buf (pos + 6)) (field 8 buf (pos + 8)).
Definition rela_at (buf : list Z) (pos : Z) : elf64_rela := Rela (field 8 buf pos) (field 8 buf (pos + 8)) (field 8 buf (pos + 16)).

Ltac wp_fields := repeat (wp_step; apply wp_load_le; [lia|lia|]); wp_step.

Lemma wp_load_ehdr {St} buf (Q : elf64_ehdr → St → Prop) s : EHDR_SIZE ≤ strlen buf → Q (ehdr_of buf) s → wp (load_ehdr buf) Q s.
Proof. unfold EHDR_SIZE. intros Hl HQ. unfold load_ehdr. wp_fields. exact HQ. Qed.

Lemma wp_load_phdr {St} buf pos (Q : elf64_phdr → St → Prop) s :
  0 ≤ pos → pos + PHDR_SIZE ≤ strlen buf → Q (phdr_at buf pos) s → wp (load_phdr buf pos) Q s.
Proof. unfold PHDR_SIZE. intros Hp Hl HQ. unfold load_phdr. wp_fields. exact HQ. Qed.

Lemma wp_load_phdrs {St} n buf pos (Q : list elf64_phdr → St → Prop) s :
  0 ≤ pos → pos + Z.of_nat n * PHDR_SIZE ≤ strlen buf → Q (phdrs_at n buf pos) s → wp (load_phdrs n buf pos) Q s.
Proof.
  revert pos Q. induction n as [|n IH]; intros pos Q Hp Hl HQ; cbn [load_phdrs]; [by wp_step|]. unfold PHDR_SIZE in *.
  wp_step. apply wp_load_phdr; [done|unfold PHDR_SIZE; lia|]. wp_step. apply IH; [unfold PHDR_SIZE; lia|unfold PHDR_SIZE; lia|]. wp_step. exact HQ.
Qed.

Lemma wp_load_sym {St} buf pos (Q : elf64_sym → St → Prop) s :
  0 ≤ pos → pos + SYM_SIZE ≤ strlen buf → Q (sym_at buf pos) s → wp (load_sym buf pos) Q s.
Proof. unfold SYM_SIZE. intros Hp Hl HQ. unfold load_sym. wp_fields. exact HQ. Qed.

Lemma wp_load_rela {St} buf pos (Q : elf64_rela → St → Prop) s :
  0 ≤ pos → pos + RELA_SIZE ≤ strlen buf → Q (rela_at buf pos) s → wp (load_rela buf pos) Q s.
Proof. unfold RELA_SIZE. intros Hp Hl HQ. unfold load_rela. wp_fields. exact HQ. Qed.

(** ** Parsing *)

(** Every table of an image lies in its file. *)
Record info_ok (size : Z) (di : elf_dyninfo) : Prop := InfoOk {
  io_sym : 0 ≤ dynsym_off di ∧ 0 ≤ dynsym_count di ∧ dynsym_off di + dynsym_count di * SYM_SIZE ≤ size;
  io_str : 0 ≤ dynstr_off di ∧ 0 ≤ dynstr_size di ∧ dynstr_off di + dynstr_size di ≤ size;
  io_rela : 0 ≤ rela_off di ∧ 0 ≤ rela_count di ∧ rela_off di + rela_count di * RELA_SIZE ≤ size;
  io_jmprel : 0 ≤ jmprel_off di ∧ 0 ≤ jmprel_count di ∧ jmprel_off di + jmprel_count di * RELA_SIZE ≤ size;
  io_needed : (length (needed_off di) ≤ DYNLINK_MAX_DEPS)%nat }.

(** The headers of loaded segments stay inside the file. *)
Definition loads_ok (size : Z) (ph : list elf64_phdr) : Prop :=
  Forall (λ p, p_type p = PT_LOAD → 0 ≤ p_offset p ∧ 0 ≤ p_filesz p ∧ p_offset p + p_filesz p ≤ size) ph.

Definition phdr_u64 (p : elf64_phdr) : Prop := is_u64 (p_offset p) ∧ is_u64 (p_vaddr p) ∧ is_u64 (p_filesz p) ∧ is_u64 (p_memsz p).

Lemma phdrs_u64 n buf pos : Forall is_u8 buf → Forall phdr_u64 (phdrs_at n buf pos).
Proof. intros Hu. revert pos. induction n as [|n IH]; intros pos; constructor; [|apply IH]. by repeat split; apply field_u64. Qed.

Lemma scan_phdrs_ok size ph lo hi dyn r : Forall phdr_u64 ph → scan_phdrs size ph lo hi dyn = Some r → loads_ok size ph.
Proof.
  intros Hu. revert lo hi dyn. induction Hu as [|p ph (Ho & Hv & Hf & Hm) Hu IH]; intros lo hi dyn; [constructor|]. cbn [scan_phdrs]. unfold is_u64 in *.
  destruct (Z.eqb_spec (p_type p) PT_LOAD) as [Et|Et]; cbn [negb].
  - destruct (Z.ltb_spec size (p_offset p)), (Z.ltb_spec (size - p_offset p) (p_filesz p)); cbn [orb]; try done.
    destruct (p_memsz p <? p_filesz p); [done|]. destruct (_ <? p_vaddr p); [done|]. intros Hr. constructor; [intros _; lia|by eapply IH].
  - intros Hr. constructor; [done|by eapply IH].
Qed.

Lemma va_to_off_bound size ph va off : loads_ok size ph → Forall phdr_u64 ph → size < 2 ^ 64 → va_to_off ph va = Some off → 0 ≤ off < size.
Proof.
  intros Hl Hu Hs. induction Hu as [|p ph (Ho & Hv & Hf & Hm) Hu IH]; [done|]. apply Forall_cons in Hl as [Hp Hl]. cbn [va_to_off]. unfold is_u64 in *.
  destruct (Z.eqb_spec (p_type p) PT_LOAD) as [Et|Et]; cbn [andb]; [|by apply IH]. specialize (Hp Et).
  destruct (Z.leb_spec (p_vaddr p) va); cbn [andb]; [|by apply IH]. destruct (Z.ltb_spec va (u64 (p_vaddr p + p_filesz p))) as [Hlt|]; [|by apply IH].
  intros [= <-]. assert (va - p_vaddr p < p_filesz p).
  { unfold u64 in Hlt. pose proof (Z.mod_le (p_vaddr p + p_filesz p) (2 ^ 64)). lia. }
  unfold u64. rewrite Z.mod_small by lia. lia.
Qed.

Lemma table_ok size ph va n ent : loads_ok size ph → Forall phdr_u64 ph → size < 2 ^ 64 → 0 ≤ size → 0 ≤ n → 0 < ent →
  let '(off, k) := table size ph va n ent in 0 ≤ off ∧ 0 ≤ k ∧ off + k * ent ≤ size.
Proof.
  intros Hl Hu Hs H0 Hn He. unfold table. destruct (va_to_off ph va) as [off|] eqn:Hv; [|lia].
  destruct (va_to_off_bound _ _ _ _ Hl Hu Hs Hv). rewrite (proj2 (Z.ltb_lt _ _)) by lia.
  assert (0 ≤ (size - off) / ent) by (apply Z.div_pos; lia). pose proof (Z.mul_div_le (size - off) ent ltac:(lia)). split_and!; [lia|lia|nia].
Qed.

Record tags_ok (t : tags) : Prop := TagsOk {
  to_needed : (length (tg_needed t) ≤ DYNLINK_MAX_DEPS)%nat;
  to_strsz : 0 ≤ tg_strsz t; to_relasz : 0 ≤ tg_relasz t; to_relaent : 0 ≤ tg_relaent t; to_pltrelsz : 0 ≤ tg_pltrelsz t }.

Lemma take_tag_ok t tag v : tags_ok t → 0 ≤ v → tags_ok (take_tag t tag v).
Proof.
  intros [Hn H1 H2 H3 H4] Hv. destruct t as [needed st sz sy ra rs re jm pl ha]. unfold take_tag. cbn in *.
  assert (length (if (length needed <? DYNLINK_MAX_DEPS)%nat then needed ++ [u32 v] else needed) ≤ DYNLINK_MAX_DEPS)%nat as Hle.
  { destruct (Nat.ltb_spec (length needed) DYNLINK_MAX_DEPS); [rewrite length_app; simpl; lia|done]. }
  repeat (match goal with |- context [if tag =? ?x then _ else _] => destruct (tag =? x); [by split|] end). by split.
Qed.

Section parse.
Context (buf : list Z).
Hypothesis Hbuf : Forall is_u8 buf.
Hypothesis Hsize : strlen buf < 2 ^ 63.

Lemma wp_dyn_loop {St} fuel d_off d_cnt i t (Q : tags → St → Prop) s :
  0 ≤ d_off → 0 ≤ i → d_off + d_cnt * DYN_SIZE ≤ strlen buf → d_cnt - i < Z.of_nat fuel → (0 < fuel)%nat → tags_ok t → (∀ t', tags_ok t' → Q t' s) →
  wp (loop_fuel fuel (dyn_step buf d_off d_cnt) (i, t)) Q s.
Proof.
  intros Ho Hi Hc Hf H0 Ht HQ. revert i t Hi Hf H0 Ht. induction fuel as [|fuel IH]; intros i t Hi Hf H0 Ht; [lia|]. cbn [loop_fuel]. apply wp_bind. unfold dyn_step at 1.
  destruct (Z.ltb_spec i d_cnt); [|wp_step; wp_step; by apply HQ]. unfold DYN_SIZE in *.
  wp_step. apply wp_load_le; [lia|lia|]. destruct (_ =? DT_NULL); [wp_step; wp_step; by apply HQ|].
  wp_step. apply wp_load_le; [lia|lia|]. wp_step. apply IH; [lia|lia|lia|]. apply take_tag_ok; [done|]. apply field_u64, Hbuf.
Qed.

Lemma wp_count_in_sections {St} n pos va (Q : Z → St → Prop) s :
  0 ≤ pos → pos + Z.of_nat n * SHDR_SIZE ≤ strlen buf → (∀ k, 0 ≤ k → Q k s) → wp (count_in_sections n buf pos va) Q s.
Proof.
  intros Hp Hl HQ. revert pos Hp Hl. induction n as [|n IH]; intros pos Hp Hl; cbn [count_in_sections]; [wp_step; by apply HQ|]. unfold SHDR_SIZE in *.
  wp_step. apply wp_load_le; [lia|lia|]. wp_step. apply wp_load_le; [lia|lia|]. destruct (_ || _); [apply IH; lia|].
  wp_step. apply wp_load_le; [lia|lia|]. wp_step. apply wp_load_le; [lia|lia|]. wp_step. apply HQ.
  pose proof (field_u64 buf (pos + 32) Hbuf) as H1. pose proof (field_u64 buf (pos + 56) Hbuf) as H2. unfold is_u64 in *.
  apply Z.div_pos; [lia|]. destruct (Z.eqb_spec (field 8 buf (pos + 56)) 0); lia.
Qed.

Lemma wp_from_sections {St} va (Q : Z → St → Prop) s : (∀ k, 0 ≤ k → Q k s) → wp (dynsym_count_from_sections buf va) Q s.
Proof.
  intros HQ. unfold dynsym_count_from_sections. destruct (Z.ltb_spec (strlen buf) EHDR_SIZE); [wp_step; by apply HQ|].
  wp_step. apply wp_load_ehdr; [lia|]. destruct (_ || _); [wp_step; by apply HQ|].
  pose proof (field_u64 buf 40 Hbuf) as Hsh. pose proof (field_u16 buf 60 Hbuf) as Hnum. cbn [e_shoff e_shnum ehdr_of]. unfold is_u64, is_u16 in *.
  destruct (Z.ltb_spec (strlen buf) (field 8 buf 40)); [wp_step; by apply HQ|].
  unfold SHDR_SIZE in *. pose proof (Z.mul_div_le (strlen buf - field 8 buf 40) 64 ltac:(lia)).
  assert (0 ≤ (strlen buf - field 8 buf 40) / 64) by (apply Z.div_pos; lia).
  apply wp_count_in_sections; [lia| |done]. unfold SHDR_SIZE. rewrite Z2Nat.id by lia. lia.
Qed.

Lemma wp_sym_count {St} ph symt hash (Q : Z → St → Prop) s : loads_ok (strlen buf) ph → Forall phdr_u64 ph → (∀ k, 0 ≤ k → Q k s) → wp (sym_count buf ph symt hash) Q s.
Proof.
  intros Hl Hu HQ. unfold sym_count. assert (∀ k, 0 ≤ k → wp (if k =? 0 then dynsym_count_from_sections buf symt else mret k) Q s) as Hk.
  { intros k Hk. destruct (k =? 0); [by apply wp_from_sections|]. wp_step. by apply HQ. }
  wp_step. destruct (hash =? 0); [wp_step; by apply Hk|]. destruct (va_to_off ph hash) as [hoff|] eqn:Hv; [|wp_step; by apply Hk].
  destruct (va_to_off_bound _ _ _ _ Hl Hu ltac:(lia) Hv). destruct (Z.leb_spec hoff (strlen buf)), (Z.leb_spec 8 (strlen buf - hoff)); cbn [andb]; try (wp_step; by apply Hk).
  apply wp_load_le; [lia|lia|]. apply Hk. apply field_u32, Hbuf.
Qed.

Lemma wp_parse_tables {St} ph entry lo hi t (Q : elf_dyninfo → St → Prop) s :
  loads_ok (strlen buf) ph → Forall phdr_u64 ph → tags_ok t →
  (∀ di, info_ok (strlen buf) di → di_base di = 0 → di_entry di = entry → seg_lo di = lo → seg_hi di = hi → Q di s) → wp (parse_tables buf ph entry lo hi t) Q s.
Proof.
  intros Hl Hu [Hn H1 H2 H3 H4] HQ. assert (0 ≤ strlen buf) as H0 by (unfold strlen; lia). assert (strlen buf < 2 ^ 64) as H64 by lia. unfold parse_tables.
  pose proof (table_ok (strlen buf) ph (tg_strtab t) (tg_strsz t) 1 Hl Hu H64 H0 H1 ltac:(lia)) as Hstr.
  assert (∀ va n (b : bool), 0 ≤ n → let '(off, k) := if b then (0, 0) else table (strlen buf) ph va n RELA_SIZE in 0 ≤ off ∧ 0 ≤ k ∧ off + k * RELA_SIZE ≤ strlen buf) as Htab.
  { intros va n b Hn0. destruct b; [unfold RELA_SIZE; lia|]. apply table_ok; [done|done|done|done|done|by unfold RELA_SIZE]. }
  assert (0 ≤ tg_relasz t / tg_relaent t) as Hra by (by apply Z_div_nonneg_nonneg).
  assert (0 ≤ tg_pltrelsz t / RELA_SIZE) as Hjm by (apply Z.div_pos; unfold RELA_SIZE; lia).
  pose proof (Htab (tg_rela t) (tg_relasz t / tg_relaent t) ((tg_rela t =? 0) || (tg_relaent t =? 0)) Hra) as Hrela. pose proof (Htab (tg_jmprel t) (tg_pltrelsz t / RELA_SIZE) (tg_jmprel t =? 0) Hjm) as Hjmp.
  assert (let '(off, k) := if tg_strtab t =? 0 then (0, 0) else table (strlen buf) ph (tg_strtab t) (tg_strsz t) 1 in 0 ≤ off ∧ 0 ≤ k ∧ off + k ≤ strlen buf) as Hst.
  { destruct (tg_strtab t =? 0); [lia|]. destruct (table _ _ _ _ 1). lia. }
  destruct (if tg_strtab t =? 0 then _ else _) as [dstr strsz]. wp_step.
  assert (∀ k n, 0 ≤ k → 0 ≤ n → k + n * SYM_SIZE ≤ strlen buf → wp (
    let '(rela, nrela) := if (tg_rela t =? 0) || (tg_relaent t =? 0) then (0, 0) else table (strlen buf) ph (tg_rela t) (tg_relasz t / tg_relaent t) RELA_SIZE in
    let '(jmp, njmp) := if tg_jmprel t =? 0 then (0, 0) else table (strlen buf) ph (tg_jmprel t) (tg_pltrelsz t / RELA_SIZE) RELA_SIZE in
    mret (Dyninfo true 0 entry lo hi k n dstr strsz rela nrela jmp njmp (tg_needed t))) Q s) as Hfin.
  { intros k n Hk0 Hn0 Hkn. destruct (if _ || _ then _ else _) as [rela nrela]. destruct (if tg_jmprel t =? 0 then _ else _) as [jmp njmp]. wp_step. apply HQ; [|done..].
    by split. }
  destruct (tg_symtab t =? 0); [wp_step; apply Hfin; unfold SYM_SIZE; lia|].
  destruct (va_to_off ph (tg_symtab t)) as [off|] eqn:Hv; [|wp_step; apply Hfin; unfold SYM_SIZE; lia].
  destruct (va_to_off_bound _ _ _ _ Hl Hu H64 Hv). rewrite (proj2 (Z.ltb_lt _ _)) by lia. wp_step. apply wp_sym_count; [done|done|]. intros k Hk. wp_step.
  assert (0 ≤ (strlen buf - off) / SYM_SIZE) by (apply Z.div_pos; unfold SYM_SIZE; lia). pose proof (Z.mul_div_le (strlen buf - off) SYM_SIZE ltac:(done)).
  unfold SYM_SIZE in *. apply Hfin; unfold SYM_SIZE; lia.
Qed.

(** The size of the dynamic segment is not so large that its end wraps. *)
Definition dynamic_fits : Prop :=
  Forall (λ p, p_type p = PT_DYNAMIC → p_filesz p < 2 ^ 63) (phdrs_at (Z.to_nat (e_phnum (ehdr_of buf))) buf (e_phoff (ehdr_of buf))).

Lemma scan_phdrs_dyn size ph lo hi dyn lo' hi' d : scan_phdrs size ph lo hi dyn = Some (lo', hi', Some d) → dyn = Some d ∨ d ∈ ph ∧ p_type d = PT_DYNAMIC.
Proof.
  revert lo hi dyn. induction ph as [|p ph IH]; intros lo hi dyn; cbn [scan_phdrs]; [intros [= _ _ ->]; by left|].
  assert (∀ lo hi dyn, scan_phdrs size ph lo hi dyn = Some (lo', hi', Some d) → dyn = Some d ∨ d ∈ p :: ph ∧ p_type d = PT_DYNAMIC) as IH'.
  { intros lo0 hi0 dyn0 [?|[? ?]]%IH; [by left|right; split; [by right|done]]. }
  destruct (p_type p =? PT_LOAD); cbn [negb].
  - destruct (_ || _); [done|]. destruct (_ <? p_filesz p); [done|]. destruct (_ <? p_vaddr p); [done|]. apply IH'.
  - intros [Hd|?]%IH'; [|by right]. destruct (Z.eqb_spec (p_type p) PT_DYNAMIC); [|by left]. injection Hd as ->. right. split; [by left|done].
Qed.

Lemma wp_parse_dynamic {St} (Q : Z * elf_dyninfo → St → Prop) s :
  dynamic_fits → (∀ r di, r = -1 ∨ r = 0 ∧ info_ok (strlen buf) di ∧ di_base di = 0 ∧ di_entry di = e_entry (ehdr_of buf) → Q (r, di) s) →
  wp (elf_parse_dynamic buf) Q s.
Proof.
  intros Hfit HQ. assert (∀ di, wp (mret (-1, di)) Q s) as Hbad by (intros di; wp_step; apply HQ; by left).
  unfold elf_parse_dynamic. destruct (Z.ltb_spec (strlen buf) EHDR_SIZE); [apply Hbad|]. wp_step. apply wp_load_ehdr; [lia|]. unfold dynamic_fits in Hfit. set (h := ehdr_of buf) in *.
  destruct (negb _); [apply Hbad|]. destruct (_ || _); [apply Hbad|]. assert (is_u64 (e_phoff h)) as Hpo by apply field_u64, Hbuf. assert (is_u16 (e_phnum h)) as Hpn by apply field_u16, Hbuf.
  unfold is_u64, is_u16 in *. destruct (_ || _) eqn:E; [apply Hbad|]. apply orb_false_iff in E as [E1%Z.ltb_ge E2%Z.ltb_ge].
  pose proof (Z.mul_div_le (strlen buf - e_phoff h) PHDR_SIZE ltac:(done)). unfold PHDR_SIZE in *.
  wp_step. apply wp_load_phdrs; [lia|unfold PHDR_SIZE; rewrite Z2Nat.id by lia; lia|]. set (ph := phdrs_at _ _ _) in *.
  assert (Forall phdr_u64 ph) as Hu by (by apply phdrs_u64).
  destruct (scan_phdrs (strlen buf) ph 0 0 None) as [[[lo hi] dyn]|] eqn:Hs; [|apply Hbad]. pose proof (scan_phdrs_ok _ _ _ _ _ _ Hu Hs) as Hl.
  destruct dyn as [dynph|].
  2:{ wp_step. apply HQ. right. split_and!; [done| |done|done]. assert (0 ≤ strlen buf) by (unfold strlen; lia). unfold EHDR_SIZE in *. split; cbn; unfold SYM_SIZE, RELA_SIZE, DYNLINK_MAX_DEPS; lia. }
  destruct (va_to_off ph (p_vaddr dynph)) as [d_off|] eqn:Hv; [|apply Hbad]. destruct (va_to_off_bound _ _ _ _ Hl Hu ltac:(lia) Hv).
  rewrite (proj2 (Z.leb_gt _ _)) by lia. destruct (scan_phdrs_dyn _ _ _ _ _ _ _ _ Hs) as [?|[Hin Ht]]; [done|].
  rewrite Forall_forall in Hfit, Hu. specialize (Hfit _ Hin Ht). pose proof (Hu _ Hin) as (_ & _ & Hf & _). unfold is_u64 in Hf.
  set (n := p_filesz dynph / DYN_SIZE). assert (0 ≤ n ∧ n * DYN_SIZE ≤ p_filesz dynph) as [Hn0 Hn1].
  { unfold n, DYN_SIZE. split; [apply Z.div_pos; lia|]. pose proof (Z.mul_div_le (p_filesz dynph) 16). lia. }
  unfold u64. rewrite Z.mod_small by (unfold DYN_SIZE in *; lia). set (d_cnt := if _ <? _ then _ else n).
  assert (0 ≤ d_cnt ∧ d_off + d_cnt * DYN_SIZE ≤ strlen buf) as [Hc0 Hc1].
  { unfold d_cnt. destruct (Z.ltb_spec (strlen buf) (d_off + n * DYN_SIZE)); [|unfold DYN_SIZE in *; lia]. unfold DYN_SIZE. pose proof (Z.mul_div_le (strlen buf - d_off) 16). split; [apply Z.div_pos; lia|lia]. }
  wp_step. apply wp_dyn_loop; [lia|lia|done|unfold strlen, DYN_SIZE in *; lia|lia|split; cbn; unfold DYNLINK_MAX_DEPS; lia|]. intros t Ht'. wp_step.
  apply wp_parse_tables; [done|by apply Forall_forall|done|]. intros di Hdi Hb He _ _. wp_step. apply HQ. right. by split_and!.
Qed.
End parse.

(** C36: whatever the bytes of a file are, [elf_parse_dynamic] returns without
    reading outside of them, and every table it accepts (symbols, strings, both
    relocation tables) lies inside the file; provided the size the header gives
    for the dynamic segment does not wrap around, see [dynamic_size_wraps]. *)
Theorem elf_parse_dynamic_safe {St} buf (s : St) :
  Forall is_u8 buf → strlen buf < 2 ^ 63 → dynamic_fits buf →
  ∃ r di, elf_parse_dynamic buf s = Ok ((r, di), s) ∧ (r = -1 ∨ r = 0 ∧ info_ok (strlen buf) di ∧ di_base di = 0 ∧ di_entry di = e_entry (ehdr_of buf)).
Proof.
  intros Hu Hs Hf. assert (wp (elf_parse_dynamic buf) (λ p s', s' = s ∧ (p.1 = -1 ∨ p.1 = 0 ∧ info_ok (strlen buf) p.2 ∧ di_base p.2 = 0 ∧ di_entry p.2 = e_entry (ehdr_of buf))) s) as Hwp.
  { by apply wp_parse_dynamic. }
  apply wp_ok in Hwp as ([r di] & s' & Hrun & -> & Hr). by exists r, di.
Qed.

(** ** Strings of the file *)

(** The string at [pos] is [nm], terminated inside the array. *)
Definition has_string (buf : list Z) (pos : Z) (nm : list Z) : Prop := nul_free nm ∧ bytes_at buf pos (nm ++ [0]).

Lemma wp_strcmp_loop {St} fuel a i b j s1 s2 k (Q : Z → St → Prop) s :
  0 ≤ i → 0 ≤ j → 0 ≤ k → (length s1 < fuel)%nat → has_string a (i + k) s1 → has_string b (j + k) s2 → (∀ c, (c = 0 ↔ s1 = s2) → Q c s) →
  wp (loop_fuel fuel (λ k, x ← load a (i + k); y ← load b (j + k); mret (if negb (x =? 0) && (x =? y) then inl (k + 1) else inr (x - y))) k) Q s.
Proof.
  intros Hi Hj. revert s1 s2 k. induction fuel as [|fuel IH]; intros s1 s2 k Hk Hf [Hn1 H1] [Hn2 H2] HQ; [lia|]. cbn [loop_fuel]. apply wp_bind.
  destruct s1 as [|x s1], s2 as [|y s2]; cbn [app] in H1, H2; wp_step; (eapply wp_load_at; [exact H1|]); wp_step; (eapply wp_load_at; [exact H2|]); wp_step.
  - change (negb (0 =? 0) && (0 =? 0)) with false. cbn iota. wp_step. by apply HQ.
  - apply Forall_cons in Hn2 as [Hy _]. change (negb (0 =? 0)) with false. cbn [andb]. wp_step. apply HQ. split; [lia|done].
  - apply Forall_cons in Hn1 as [Hx _]. rewrite (proj2 (Z.eqb_neq x 0)) by done. cbn [negb andb]. wp_step. apply HQ. split; [lia|done].
  - apply Forall_cons in Hn1 as [Hx Hn1], Hn2 as [Hy Hn2]. rewrite (proj2 (Z.eqb_neq x 0)) by done. cbn [negb andb].
    destruct (Z.eqb_spec x y) as [->|Hxy].
    + apply bytes_at_cons in H1 as (_ & _ & H1), H2 as (_ & _ & H2). simpl in Hf. apply (IH s1 s2); [lia|lia|split; [done|]|split; [done|]|].
      * by rewrite Z.add_assoc.
      * by rewrite Z.add_assoc.
      * intros c Hc. apply HQ. rewrite Hc. naive_solver.
    + wp_step. apply HQ. split; [lia|]. intros [= -> _]. done.
Qed.

Lemma wp_dl_strcmp {St} a i b j s1 s2 (Q : Z → St → Prop) s :
  has_string a i s1 → has_string b j s2 → (∀ c, (c = 0 ↔ s1 = s2) → Q c s) → wp (dl_strcmp a i b j) Q s.
Proof.
  intros H1 H2 HQ. assert (0 ≤ i ∧ 0 ≤ j) as [Hi Hj] by (split; [apply H1|apply H2]). unfold dl_strcmp.
  apply (wp_strcmp_loop _ _ _ _ _ s1 s2); [done|done|done| |by rewrite Z.add_0_r|by rewrite Z.add_0_r|done].
  destruct H1 as [_ H1]. apply bytes_at_length in H1; [|by destruct s1]. unfold strlen in H1. rewrite length_app in H1. simpl in H1. lia.
Qed.

Lemma cut0_split l : 0 ∈ l → nul_free (cut0 l) ∧ ∃ r, l = cut0 l ++ 0 :: r.
Proof.
  induction l as [|c l IH]; [by intros ?%elem_of_nil|]. intros Hin. simpl. destruct (Z.eqb_spec c 0) as [->|Hc].
  - split; [by constructor|]. by exists l.
  - apply elem_of_cons in Hin as [?|Hin]; [done|]. destruct (IH Hin) as [Hn (r & Hr)]. split; [by constructor|]. exists r. simpl. by rewrite <-Hr.
Qed.

Definition string_at (buf : list Z) (pos : Z) : list Z := cut0 (drop (Z.to_nat pos) buf).

Lemma has_string_at buf pos last : 0 ≤ pos ≤ last → buf !! Z.to_nat last = Some 0 → has_string buf pos (string_at buf pos).
Proof.
  intros Hp Hl. assert (0 ∈ drop (Z.to_nat pos) buf) as Hin.
  { apply list_elem_of_lookup. exists (Z.to_nat (last - pos)). rewrite lookup_drop, <-Hl. f_equal. lia. }
  destruct (cut0_split _ Hin) as [Hn (r & Hr)]. split; [done|]. split; [lia|]. intros k b Hk. rewrite <-lookup_drop. rewrite Hr.
  change (0 :: r) with ([0] ++ r). rewrite app_assoc. by apply lookup_app_l_Some.
Qed.

(** ** Symbol lookup *)

(** An image whose tables lie in its file and whose string table ends with a
    NUL, as linkers write it. *)
Record object_ok (o : elf_object) : Prop := ObjectOk {
  ob_info : info_ok (strlen (eo_buf o)) (eo_info o);
  ob_string : 0 < dynstr_size (eo_info o) → eo_buf o !! Z.to_nat (dynstr_off (eo_info o) + dynstr_size (eo_info o) - 1) = Some 0 }.

Definition symbol (o : elf_object) (i : Z) : elf64_sym := sym_at (eo_buf o) (dynsym_off (eo_info o) + i * SYM_SIZE).
Definition symbol_name (o : elf_object) (s : elf64_sym) : list Z := string_at (eo_buf o) (dynstr_off (eo_info o) + st_name s).

(** A symbol that defines a name. *)
Definition defines (o : elf_object) (nm : list Z) (s : elf64_sym) : bool :=
  negb (st_shndx s =? SHN_UNDEF) && (st_name s <? dynstr_size (eo_info o)) && bool_decide (symbol_name o s = nm).

Definition lookup_image (o : elf_object) (nm : list Z) : option Z :=
  let di := eo_info o in
  if (dynsym_off di =? 0) || (dynstr_off di =? 0) then None
  else (λ s, u64 (di_base di + st_value s)) <$> (snd <$> list_find (λ s, Is_true (defines o nm s)) (symbol o <$> seqZ 1 (dynsym_count di - 1))).

(** The first definition in the order of the scope. *)
Fixpoint lookup_scope (scope : list elf_object) (nm : list Z) : option Z :=
  match scope with
  | [] => None
  | o :: scope => match lookup_image o nm with Some v => Some v | None => lookup_scope scope nm end
  end.

Lemma st_name_nonneg o i : Forall is_u8 (eo_buf o) → 0 ≤ st_name (symbol o i).
Proof. intros Hu. apply (field_u32 (eo_buf o) _ Hu). Qed.

Lemma name_has_string o sy : object_ok o → 0 ≤ st_name sy < dynstr_size (eo_info o) → has_string (eo_buf o) (dynstr_off (eo_info o) + st_name sy) (symbol_name o sy).
Proof.
  intros [Hi Hs] Hn. destruct (io_str _ _ Hi) as (H0 & _ & _). eapply has_string_at; [|apply Hs; lia]. lia.
Qed.

Lemma wp_find_in {St} n o i nb nm name (Q : option Z → St → Prop) s :
  object_ok o → Forall is_u8 (eo_buf o) → has_string nb nm name → 0 ≤ i → i + Z.of_nat n ≤ dynsym_count (eo_info o) →
  Q ((λ s, u64 (di_base (eo_info o) + st_value s)) <$> (snd <$> list_find (λ s, Is_true (defines o name s)) (symbol o <$> seqZ i (Z.of_nat n)))) s →
  wp (find_in n o i nb nm) Q s.
Proof.
  intros Hok Hu Hnm. pose proof (io_sym _ _ (ob_info _ Hok)) as (Hso & Hsc & Hsz). revert i. induction n as [|n IH]; intros i Hi Hl HQ; cbn [find_in]; [by wp_step|].
  unfold SYM_SIZE in *. wp_step. apply wp_load_sym; [lia|unfold SYM_SIZE; lia|].
  replace (seqZ i (Z.of_nat (S n))) with (i :: seqZ (i + 1) (Z.of_nat n)) in HQ by (rewrite (seqZ_cons i) by lia; by replace (Z.pred (Z.of_nat (S n))) with (Z.of_nat n) by lia).
  rewrite fmap_cons in HQ. cbn [list_find] in HQ. change (sym_at _ _) with (symbol o i). set (sy := symbol o i) in *.
  assert (Is_true (defines o name sy) → Q (Some (u64 (di_base (eo_info o) + st_value sy))) s) as Hyes by (intros Hd; by rewrite decide_True in HQ by done).
  assert (¬ Is_true (defines o name sy) → wp (find_in n o (i + 1) nb nm) Q s) as Hno.
  { intros Hd. rewrite decide_False in HQ by done. apply IH; [lia|lia|].
    destruct (list_find _ (symbol o <$> seqZ (i + 1) (Z.of_nat n))) as [[]|]; exact HQ. }
  unfold defines in Hyes, Hno. destruct (st_shndx sy =? SHN_UNDEF); cbn [negb andb] in *; [apply Hno; by intros []|].
  pose proof (st_name_nonneg o i Hu) as Hn0. fold sy in Hn0.
  destruct (Z.leb_spec (dynstr_size (eo_info o)) (st_name sy)) as [Hle|Hlt].
  { rewrite (proj2 (Z.ltb_ge _ _)) in Hno by done. apply Hno. by intros []. }
  rewrite (proj2 (Z.ltb_lt _ _)) in Hyes, Hno by done. cbn [andb] in *. wp_step.
  eapply wp_dl_strcmp; [by apply name_has_string|exact Hnm|]. intros c Hc. destruct (Z.eqb_spec c 0) as [Ec|Ec].
  - wp_step. apply Hyes. apply bool_decide_pack. by apply Hc.
  - apply Hno. intros Hd. apply bool_decide_unpack in Hd. by apply Ec, Hc.
Qed.

Definition scope_ok (scope : list elf_object) : Prop := Forall (λ o, object_ok o ∧ Forall is_u8 (eo_buf o)) scope.

Lemma wp_resolve {St} scope nb nm name (Q : option Z → St → Prop) s :
  scope_ok scope → has_string nb nm name → Q (lookup_scope scope name) s → wp (elf_resolve_symbol scope nb nm) Q s.
Proof.
  intros Hsc Hnm. induction Hsc as [|o scope [Hok Hu] _ IH]; intros HQ; cbn [elf_resolve_symbol]; [by wp_step|]. cbn [lookup_scope] in HQ. unfold lookup_image in HQ.
  pose proof (io_sym _ _ (ob_info _ Hok)) as (Hso & Hsc & Hsz).
  destruct (_ || (dynstr_off (eo_info o) =? 0)) eqn:E; cbn [orb]; [by apply IH|].
  destruct (Z.eqb_spec (dynsym_count (eo_info o)) 0) as [Ec|Ec].
  { rewrite Ec in HQ. change (0 - 1) with (-1) in HQ. replace (seqZ 1 (-1)) with (@nil Z) in HQ by done. by apply IH. }
  wp_step. apply (wp_find_in _ _ _ _ _ name); [done|done|done|lia|lia|]. rewrite Z2Nat.id by lia.
  destruct (_ <$> _); [by wp_step|by apply IH].
Qed.

(** [elf_resolve_symbol] returns, reads only the bytes of the images, and
    finds the first symbol, in the order of the scope and of the symbol tables,
    that is defined and has exactly the name; provided the string tables end
    with a NUL. *)
Theorem elf_resolve_symbol_exact {St} scope nb nm name (s : St) :
  scope_ok scope → has_string nb nm name → elf_resolve_symbol scope nb nm s = Ok (lookup_scope scope name, s).
Proof. intros Hsc Hnm. apply wp_result. by eapply wp_resolve. Qed.

(** ** Relocation *)

(** What one entry writes where, or none when it is refused. *)
Definition relocation (o : elf_object) (scope : list elf_object) (rel : elf64_rela) : option (Z * Z) :=
  let di := eo_info o in
  let target := u64 (di_base di + r_offset rel) in
  let type := u32 (R_TYPE (r_info rel)) in
  let symi := u32 (R_SYM (r_info rel)) in
  let sy := symbol o symi in
  if (seg_lo di <=? target) && (target <? seg_hi di) then
    if ((symi =? 0) && negb (type =? R_X86_64_64)) || (type =? R_X86_64_RELATIVE) then Some (target, u64 (di_base di + r_addend rel))
    else if bool_decide (type ∈ [R_X86_64_GLOB_DAT; R_X86_64_JUMP_SLOT; R_X86_64_64]) && (symi <? dynsym_count di) && negb (dynsym_off di =? 0) &&
            negb (dynstr_off di =? 0) && (st_name sy <? dynstr_size di) then
      (λ v, (target, if type =? R_X86_64_64 then u64 (v + r_addend rel) else v)) <$> lookup_scope scope (symbol_name o sy)
    else None
  else None.

(** The entries of a table in order, up to the first that is refused. *)
Fixpoint relocate (o : elf_object) (scope : list elf_object) (rels : list elf64_rela) : Z * list (Z * Z) :=
  match rels with
  | [] => (0, [])
  | rel :: rels =>
    if R_TYPE (r_info rel) =? 0 then relocate o scope rels
    else match relocation o scope rel with
         | None => (-1, [])
         | Some p => let '(r, w) := relocate o scope rels in (r, p :: w)
         end
  end.

Definition relas (o : elf_object) (off n : Z) : list elf64_rela := (λ i, rela_at (eo_buf o) (off + i * RELA_SIZE)) <$> seqZ 0 n.

(** The entries of both tables, if there are any. *)
Definition all_relas (o : elf_object) : list elf64_rela :=
  let di := eo_info o in
  if has_dynamic di then
    (if (rela_off di =? 0) || (rela_count di =? 0) then [] else relas o (rela_off di) (rela_count di)) ++
    (if (jmprel_off di =? 0) || (jmprel_count di =? 0) then [] else relas o (jmprel_off di) (jmprel_count di))
  else [].

Lemma relocate_app o scope l l' :
  relocate o scope (l ++ l') = (let '(r, w) := relocate o scope l in if r <? 0 then (r, w) else let '(r', w') := relocate o scope l' in (r', w ++ w')).
Proof.
  induction l as [|rel l IH]; cbn [relocate app]; [by destruct (relocate o scope l')|]. destruct (_ =? 0); [done|].
  destruct (relocation o scope rel); [|done]. rewrite IH. destruct (relocate o scope l) as [r w]. destruct (r <? 0); [done|]. by destruct (relocate o scope l').
Qed.

Lemma relocate_range o scope l : Forall (λ p, seg_lo (eo_info o) ≤ p.1 < seg_hi (eo_info o)) (relocate o scope l).2.
Proof.
  induction l as [|rel l IH]; cbn [relocate]; [constructor|]. destruct (_ =? 0); [done|]. destruct (relocation o scope rel) as [p|] eqn:Hr; [|constructor].
  destruct (relocate o scope l) as [r w]. constructor; [|done]. unfold relocation in Hr. set (target := u64 _) in Hr.
  destruct (Z.leb_spec (seg_lo (eo_info o)) target), (Z.ltb_spec target (seg_hi (eo_info o))); cbn [andb] in Hr; try done.
  destruct (_ || _); [by injection Hr as <-|]. destruct (_ && _); [|done]. destruct (lookup_scope _ _); [|done]. by injection Hr as <-.
Qed.

Lemma relocate_result o scope l : (relocate o scope l).1 = 0 ∨ (relocate o scope l).1 = -1.
Proof. induction l as [|rel l IH]; cbn [relocate]; [by left|]. destruct (_ =? 0); [done|]. destruct (relocation o scope rel); [|by right]. by destruct (relocate o scope l). Qed.

Section relocations.
Context (o : elf_object) (scope : list elf_object).
Hypothesis Hok : object_ok o.
Hypothesis Hu : Forall is_u8 (eo_buf o).
Hypothesis Hscope : scope_ok scope.

Lemma wp_apply_one rel w (Q : Z → list (Z * Z) → Prop) :
  match relocation o scope rel with Some p => Q 0 (w ++ [p]) | None => Q (-1) w end → wp (apply_one o rel scope) Q w.
Proof.
  intros HQ. unfold apply_one, place, relocation in *. set (target := u64 _) in *. set (symi := u32 (R_SYM _)) in *. set (type := u32 (R_TYPE _)) in *.
  replace ((target <? seg_lo (eo_info o)) || (seg_hi (eo_info o) <=? target)) with (negb ((seg_lo (eo_info o) <=? target) && (target <? seg_hi (eo_info o))))
    by (by rewrite negb_andb, <-Z.ltb_antisym, <-Z.leb_antisym).
  destruct (_ && (target <? seg_hi (eo_info o))); cbn [negb]; [|by wp_step].
  destruct ((symi =? 0) && negb (type =? R_X86_64_64)); cbn [orb] in HQ; [wp_step; wp_step; by wp_step|].
  destruct (type =? R_X86_64_RELATIVE); [wp_step; wp_step; by wp_step|].
  assert (bool_decide (type ∈ [R_X86_64_GLOB_DAT; R_X86_64_JUMP_SLOT; R_X86_64_64]) = (type =? R_X86_64_GLOB_DAT) || (type =? R_X86_64_JUMP_SLOT) || (type =? R_X86_64_64)) as Et.
  { apply eq_iff_eq_true. rewrite bool_decide_eq_true, !orb_true_iff, !Z.eqb_eq. set_unfold. tauto. }
  rewrite Et in HQ. destruct (_ || (type =? R_X86_64_64)); cbn [andb] in HQ; [|by wp_step].
  rewrite (Z.ltb_antisym (dynsym_count (eo_info o)) symi) in HQ.
  destruct (dynsym_count (eo_info o) <=? symi) eqn:Ec; cbn [negb andb orb] in *; [by wp_step|]. destruct (dynsym_off (eo_info o) =? 0); cbn [negb andb orb] in *; [by wp_step|].
  destruct (dynstr_off (eo_info o) =? 0); cbn [negb andb] in *; [by wp_step|]. apply Z.leb_gt in Ec.
  pose proof (io_sym _ _ (ob_info _ Hok)) as (Hso & Hsc & Hsz). assert (0 ≤ symi) by (unfold symi, u32; apply Z.mod_pos_bound; lia).
  unfold SYM_SIZE in *. wp_step. apply wp_load_sym; [lia|unfold SYM_SIZE; lia|]. change (sym_at _ _) with (symbol o symi). set (sy := symbol o symi) in *.
  rewrite (Z.ltb_antisym (dynstr_size (eo_info o))) in HQ. destruct (dynstr_size (eo_info o) <=? st_name sy) eqn:En; cbn [negb] in *; [by wp_step|]. apply Z.leb_gt in En.
  pose proof (st_name_nonneg o symi Hu) as Hn0. fold sy in Hn0. wp_step. eapply wp_resolve; [done|by apply name_has_string|].
  destruct (lookup_scope _ _) as [v|]; [|by wp_step]. cbn in HQ. wp_step. wp_step. by wp_step.
Qed.

Lemma wp_apply_table n off k applied w (Q : Z * Z → list (Z * Z) → Prop) :
  0 ≤ off → 0 ≤ k → off + (k + Z.of_nat n) * RELA_SIZE ≤ strlen (eo_buf o) →
  (let '(r, w') := relocate o scope ((λ i, rela_at (eo_buf o) (off + i * RELA_SIZE)) <$> seqZ k (Z.of_nat n)) in Q (r, applied + Z.of_nat (length w')) (w ++ w')) →
  wp (apply_table n o (off + k * RELA_SIZE) scope applied) Q w.
Proof.
  intros Ho. revert k applied w. induction n as [|n IH]; intros k applied w Hk Hl HQ; cbn [apply_table].
  { replace (seqZ k (Z.of_nat 0)) with (@nil Z) in HQ by done. wp_step. cbn in HQ. by rewrite app_nil_r, Z.add_0_r in HQ. }
  replace (seqZ k (Z.of_nat (S n))) with (k :: seqZ (k + 1) (Z.of_nat n)) in HQ by (rewrite (seqZ_cons k) by lia; by replace (Z.pred (Z.of_nat (S n))) with (Z.of_nat n) by lia).
  rewrite fmap_cons in HQ. cbn [relocate] in HQ. unfold RELA_SIZE in *. wp_step. apply wp_load_rela; [lia|unfold RELA_SIZE; lia|]. set (rel := rela_at _ _) in *.
  replace (off + k * 24 + 24) with (off + (k + 1) * 24) by lia. destruct (R_TYPE (r_info rel) =? 0); [apply IH; [lia|lia|exact HQ]|].
  wp_step. apply wp_apply_one. destruct (relocation o scope rel) as [p|].
  - change (0 <? 0) with false. cbn iota. apply IH; [lia|lia|]. destruct (relocate o scope _) as [r w']. simpl length in HQ. rewrite <-app_assoc. cbn [app].
    by replace (applied + 1 + Z.of_nat (length w')) with (applied + Z.of_nat (S (length w'))) by lia.
  - change (-1 <? 0) with true. cbn iota. wp_step. cbn in HQ. by rewrite app_nil_r, Z.add_0_r in HQ.
Qed.

Lemma wp_table off count applied w (Q : Z * Z → list (Z * Z) → Prop) :
  0 ≤ off → 0 ≤ count → off + count * RELA_SIZE ≤ strlen (eo_buf o) →
  (let '(r, w') := relocate o scope (relas o off count) in Q (r, applied + Z.of_nat (length w')) (w ++ w')) →
  wp (apply_table (Z.to_nat count) o off scope applied) Q w.
Proof.
  intros Ho Hc Hl HQ. replace off with (off + 0 * RELA_SIZE) at 1 by lia. apply wp_apply_table; [done|done|by rewrite Z2Nat.id|]. rewrite Z2Nat.id by done. exact HQ.
Qed.
End relocations.

(** C37: [elf_apply_relocations] returns, reads only the bytes of the images, and
    writes exactly what the relocation entries say, in order and up to the first
    it refuses: relative ones get the base and their addend, the others the
    definition of their symbol found by the scope, plus the addend for
    R_X86_64_64.  No address outside of the span of the image is written to. *)
Theorem elf_apply_relocations_exact o scope w :
  object_ok o → Forall is_u8 (eo_buf o) → scope_ok scope →
  let '(r, w') := relocate o scope (all_relas o) in
  elf_apply_relocations o scope w = Ok ((r, Z.of_nat (length w')), w ++ w') ∧ (r = 0 ∨ r = -1) ∧
  Forall (λ p, seg_lo (eo_info o) ≤ p.1 < seg_hi (eo_info o)) w'.
Proof.
  intros Hok Hu Hsc. pose proof (relocate_range o scope (all_relas o)) as Hr. pose proof (relocate_result o scope (all_relas o)) as Hz.
  destruct (relocate o scope (all_relas o)) as [r w'] eqn:E. split; [|by split]. apply wp_exact. unfold elf_apply_relocations, all_relas in *.
  destruct (has_dynamic (eo_info o)); cbn [negb]; [|cbn in E; injection E as <- <-; wp_step; by rewrite app_nil_r].
  rewrite relocate_app in E. pose proof (io_rela _ _ (ob_info _ Hok)) as (H1 & H2 & H3). pose proof (io_jmprel _ _ (ob_info _ Hok)) as (H4 & H5 & H6). rewrite <-!negb_orb.
  assert (∀ r1 w1, (if r1 <? 0 then (r1, w1) else let '(r', w'0) := relocate o scope (if (jmprel_off (eo_info o) =? 0) || (jmprel_count (eo_info o) =? 0) then []
      else relas o (jmprel_off (eo_info o)) (jmprel_count (eo_info o))) in (r', w1 ++ w'0)) = (r, w') → (r1 = 0 ∨ r1 = -1) →
    wp (if r1 <? 0 then mret (-1, Z.of_nat (length w1)) else if negb ((jmprel_off (eo_info o) =? 0) || (jmprel_count (eo_info o) =? 0))
        then apply_table (Z.to_nat (jmprel_count (eo_info o))) o (jmprel_off (eo_info o)) scope (Z.of_nat (length w1)) else mret (0, Z.of_nat (length w1)))
      (λ b t, b = (r, Z.of_nat (length w')) ∧ t = w ++ w') (w ++ w1)) as Hfin.
  { intros r1 w1 E1 Hr1. destruct (r1 <? 0) eqn:En.
    - injection E1 as <- <-. wp_step. destruct Hr1 as [-> | ->]; done.
    - destruct ((jmprel_off (eo_info o) =? 0) || (jmprel_count (eo_info o) =? 0)); cbn [negb]; [cbn [relocate] in E1; rewrite app_nil_r in E1; injection E1 as <- <-; wp_step; done|].
      apply wp_table; [done..|]. destruct (relocate o scope (relas o (jmprel_off _) _)) as [r2 w2]. injection E1 as <- <-. rewrite length_app, app_assoc. split; [f_equal; lia|done]. }
  wp_step. destruct ((rela_off (eo_info o) =? 0) || (rela_count (eo_info o) =? 0)); cbn [negb].
  - wp_step. cbn [relocate] in E. specialize (Hfin 0 []). rewrite app_nil_r in Hfin. apply Hfin; [exact E|by left].
  - apply wp_table; [done..|]. pose proof (relocate_result o scope (relas o (rela_off (eo_info o)) (rela_count (eo_info o)))) as Hr1.
    destruct (relocate o scope (relas o (rela_off _) _)) as [r1 w1]. rewrite Z.add_0_l. apply Hfin; [|done]. exact E.
Qed.

(** ** An example image *)

Fixpoint le_bytes (n : nat) (v : Z) : list Z := match n with O => [] | S n => v mod 256 :: le_bytes n (v / 256) end.

Definition demo_ehdr (phnum : Z) : list Z :=
  le_bytes 4 ELF_MAGIC ++ [2; 1; 1; 0; 0] ++ replicate 7 0 ++ le_bytes 2 3 ++ le_bytes 2 62 ++ le_bytes 4 1 ++ le_bytes 8 0x400010 ++ le_bytes 8 64 ++ le_bytes 8 0 ++
  le_bytes 4 0 ++ le_bytes 2 64 ++ le_bytes 2 56 ++ le_bytes 2 phnum ++ le_bytes 2 0 ++ le_bytes 2 0 ++ le_bytes 2 0.
Definition demo_phdr (type offset vaddr filesz memsz : Z) : list Z :=
  le_bytes 4 type ++ le_bytes 4 7 ++ le_bytes 8 offset ++ le_bytes 8 vaddr ++ le_bytes 8 vaddr ++ le_bytes 8 filesz ++ le_bytes 8 memsz ++ le_bytes 8 4096.
Definition demo_dyn (tag v : Z) : list Z := le_bytes 8 tag ++ le_bytes 8 v.

(** The tables of the image: the dynamic array, a hash table, the string "foo",
    its symbol and a relocation of its slot at 0x400188. *)
Definition demo_tables (r_off : Z) : list Z :=
  demo_dyn DT_HASH 0x400130 ++ demo_dyn DT_STRTAB 0x400138 ++ demo_dyn DT_STRSZ 5 ++ demo_dyn DT_SYMTAB 0x400140 ++ demo_dyn DT_RELA 0x400170 ++
  demo_dyn DT_RELASZ 24 ++ demo_dyn DT_RELAENT 24 ++ demo_dyn DT_NULL 0 ++
  le_bytes 4 1 ++ le_bytes 4 2 ++ [0; 102; 111; 111; 0; 0; 0; 0] ++ replicate 24 0 ++
  (le_bytes 4 1 ++ [0x12; 0] ++ le_bytes 2 1 ++ le_bytes 8 0x400020 ++ le_bytes 8 0) ++ (le_bytes 8 r_off ++ le_bytes 8 (2 ^ 32 + R_X86_64_GLOB_DAT) ++ le_bytes 8 0).
Definition demo_image (dynsz r_off : Z) : list Z :=
  demo_ehdr 2 ++ demo_phdr PT_LOAD 0 0x400000 392 0x1000 ++ demo_phdr PT_DYNAMIC 176 0x4000B0 dynsz dynsz ++ demo_tables r_off.

Definition demo_info : elf_dyninfo := Dyninfo true 0 0x400010 0x400000 0x401000 320 2 312 5 368 1 0 0 [].
Definition demo_object (r_off : Z) : elf_object := Object (demo_image 128 r_off) demo_info.

Example demo_parsed : elf_parse_dynamic (demo_image 128 0x400188) tt = Ok ((0, demo_info), tt).
Proof. by vm_compute. Qed.

Lemma elf_parse_dynamic_safe_witness :
  ∃ r di, elf_parse_dynamic (demo_image 128 0x400188) tt = Ok ((r, di), tt) ∧
    (r = -1 ∨ r = 0 ∧ info_ok (strlen (demo_image 128 0x400188)) di ∧ di_base di = 0 ∧ di_entry di = e_entry (ehdr_of (demo_image 128 0x400188))).
Proof.
  apply elf_parse_dynamic_safe.
  - apply (bool_decide_unpack _); by vm_compute.
  - by vm_compute.
  - unfold dynamic_fits. apply (bool_decide_unpack _); by vm_compute.
Defined.

(** The end of the dynamic array is computed with wrap-around: a header that
    claims 2^64 - 16 bytes passes, and the loop reads behind the file. *)
Definition runaway : list Z :=
  demo_ehdr 2 ++ demo_phdr PT_LOAD 0 0x400000 192 0x1000 ++ demo_phdr PT_DYNAMIC 176 0x4000B0 (2 ^ 64 - 16) (2 ^ 64 - 16) ++ demo_dyn DT_STRSZ 5.

Example dynamic_size_wraps : Forall is_u8 runaway ∧ strlen runaway = 192 ∧ elf_parse_dynamic runaway tt = Fault.
Proof. split; [apply (bool_decide_unpack _); by vm_compute|by vm_compute]. Qed.

Lemma demo_object_ok r_off : is_u64 r_off → object_ok (demo_object r_off) ∧ strlen (demo_image 128 r_off) = 392.
Proof.
  intros Hr. assert (strlen (demo_image 128 r_off) = 392) as Hl by done. split; [|done]. split; [|done].
  unfold demo_object. cbn [eo_buf eo_info]. rewrite Hl. split; cbn; unfold SYM_SIZE, RELA_SIZE, DYNLINK_MAX_DEPS; lia.
Qed.

Lemma elf_resolve_symbol_exact_witness :
  elf_resolve_symbol [demo_object 0x400188] (cstr "foo" ++ [0]) 0 tt = Ok (Some 0x400020, tt).
Proof.
  rewrite (elf_resolve_symbol_exact [demo_object 0x400188] (cstr "foo" ++ [0]) 0 (cstr "foo") tt).
  - by vm_compute.
  - constructor; [|constructor]. split; [by apply (demo_object_ok 0x400188)|]. apply (bool_decide_unpack _); by vm_compute.
  - split; [apply (bool_decide_unpack _); by vm_compute|]. split; [done|]. intros k b Hk. exact Hk.
Defined.

Lemma elf_apply_relocations_exact_witness :
  elf_apply_relocations (demo_object 0x400188) [demo_object 0x400188] [] = Ok ((0, 1), [(0x400188, 0x400020)]).
Proof.
  assert (object_ok (demo_object 0x400188)) as Hok by (by apply (demo_object_ok 0x400188)).
  assert (Forall is_u8 (eo_buf (demo_object 0x400188))) as Hu by (apply (bool_decide_unpack _); by vm_compute).
  pose proof (elf_apply_relocations_exact (demo_object 0x400188) [demo_object 0x400188] [] Hok Hu (Forall_cons_2 _ _ _ (conj Hok Hu) (Forall_nil_2 _))) as H.
  assert (relocate (demo_object 0x400188) [demo_object 0x400188] (all_relas (demo_object 0x400188)) = (0, [(0x400188, 0x400020)])) as E by (by vm_compute).
  rewrite E in H. exact (proj1 H).
Defined.

(** A relocation of eight bytes is accepted at the last byte of the span, so
    that seven of them land behind the image. *)
Example relocation_overhangs :
  elf_apply_relocations (demo_object 0x400FFF) [demo_object 0x400FFF] [] = Ok ((0, 1), [(0x400FFF, 0x400020)]) ∧ seg_hi demo_info = 0x401000.
Proof. by vm_compute. Qed.

(** A string table that is not terminated: the comparison of names reads behind
    the file. *)
Example unterminated_name :
  elf_resolve_symbol [Object (demo_image 128 0 ++ [102; 111]) (Dyninfo true 0 0 0 0 320 2 391 3 0 0 0 0 [])] (cstr "foo" ++ [0]) 0 tt = Fault.
Proof. by vm_compute. Qed.
