(* ===== verification/Elf.v ===== *)
(** * Elf: loading programs (kernel/elf.c)

    The segments, libraries and stack of a new program are put into an address
    space of Mmu.v while that is active: Umem.v.  The bytes of the files are
    lists, as in Dynlink.v.  The coverage bytes and the file buffers of the
    loader are values of the model; freeing them leaves no trace in it. *)

From Stdlib Require Import String.
From S2P Require Import Prelude BootMap Pmm Mmu Kmem Umem CString Packet Security VfsPath Vfs Sched SchedQueue Fds SchedSpawn SchedRun Syscall Dynlink.

#[local] Arguments for_up : simpl never.
#[local] Arguments for_ret : simpl never.

Definition ELFCLASS64 : Z := 2.
Definition ELFDATA2LSB : Z := 1.
Definition EM_X86_64 : Z := 62.
Definition PF_X : Z := 1.
Definition PF_W : Z := 2.

Definition ELF_MAX_SEG_PAGES : Z := Z.shiftl 1 20.
Definition SEG_COVER_W : Z := 1.
Definition SEG_COVER_X : Z := 2.
Definition ELF_MAX_IMAGES : nat := 8.
Definition ELF_MAX_DEP_NAME : nat := 64.
Definition elf_lib_dirs : list (list Z) := cstr <$> ["/Libraries/"; "/Binaries/"; "/bin/"; "/"]%string.

(** [struct elf_image], without the name, which is only printed. *)
Record elf_image := Image {
  im_span_lo : Z; im_span_pages : Z; im_cover : list Z; im_highest : Z; im_owns_buf : bool; im_dyn : elf_object }.

(** [x & ~0xFFFULL] *)
Definition page_floor (x : Z) : Z := Z.land x (u64 (Z.lnot 0xFFF)).

Definition elf_valid (h : elf64_ehdr) : bool :=
  (ei_magic h =? ELF_MAGIC) && (ei_class h =? ELFCLASS64) && (ei_data h =? ELFDATA2LSB) && (e_machine h =? EM_X86_64) && negb (e_phnum h =? 0).

(** ** Mapping an image *)

Definition is_load (p : elf64_phdr) : bool := p_type p =? PT_LOAD.

(** The page range of a segment. *)
Definition seg_start (p : elf64_phdr) : Z := page_floor (p_vaddr p).
Definition seg_stop (p : elf64_phdr) : Z := page_floor (u64 (p_vaddr p + p_memsz p + 0xFFF)).

Definition entry_ok (entry : Z) (ph : list elf64_phdr) : bool :=
  existsb (λ p, is_load p && flag (p_flags p) PF_X && (p_vaddr p <=? entry) && (entry <? u64 (p_vaddr p + p_memsz p))) ph.

(** The program headers, [None] when they are not valid. *)
Definition image_headers {St} (data : list Z) (require_entry : bool) : M St (option (list elf64_phdr)) :=
  let size := strlen data in
  if size <? EHDR_SIZE then mret None
  else
    h ← load_ehdr data;
    if negb (elf_valid h) then mret None
    else if negb (e_phentsize h =? PHDR_SIZE) || (size <? e_phoff h) || ((size - e_phoff h) / PHDR_SIZE <? e_phnum h) then mret None
    else
      ph ← load_phdrs (Z.to_nat (e_phnum h)) data (e_phoff h);
      mret (if require_entry && negb (entry_ok (e_entry h) ph) then None else Some ph).

(** The checks of the segments and the span [span_lo], [span_hi] of their pages. *)
Fixpoint seg_span (size : Z) (ph : list elf64_phdr) (lo hi : Z) : option (Z * Z) :=
  match ph with
  | [] => Some (lo, hi)
  | p :: ph =>
    if negb (is_load p) then seg_span size ph lo hi
    else if (p_memsz p <? p_filesz p) || (size <? p_offset p) || (size - p_offset p <? p_filesz p) || (u64 (p_vaddr p + p_memsz p) <? p_vaddr p) then None
    else seg_span size ph (if seg_start p <? lo then seg_start p else lo) (if hi <? seg_stop p then seg_stop p else hi)
  end.

(** The coverage bits of the pages of one segment. *)
Definition cover_bits (p : elf64_phdr) : Z :=
  Z.lor (if flag (p_flags p) PF_W then SEG_COVER_W else 0) (if flag (p_flags p) PF_X then SEG_COVER_X else 0).

Definition cover_page {St} (lo : Z) (p : elf64_phdr) (va : Z) (cover : list Z) : M St (list Z) :=
  let idx := u64 (va - lo) / PAGE_SIZE in
  if cover_bits p =? 0 then mret cover
  else c ← load cover idx; mret (<[Z.to_nat idx := Z.lor c (cover_bits p)]> cover).

Fixpoint cover_pages {St} (n : nat) (lo : Z) (p : elf64_phdr) (va : Z) (cover : list Z) : M St (list Z) :=
  match n with
  | O => mret cover
  | S n => cover ← cover_page lo p va cover; cover_pages n lo p (va + PAGE_SIZE) cover
  end.

(** The loop over the pages from [vstart] below [vend]. *)
Fixpoint cover_segs {St} (lo : Z) (ph : list elf64_phdr) (cover : list Z) : M St (list Z) :=
  match ph with
  | [] => mret cover
  | p :: ph =>
    cover ← (if is_load p then cover_pages (Z.to_nat ((seg_stop p - seg_start p) / PAGE_SIZE)) lo p (seg_start p) cover else mret cover);
    cover_segs lo ph cover
  end.

(** [memcpy] of [len] bytes of the file at [off] to the user address [va]. *)
Definition copy_file (va : Z) (data : list Z) (off len : Z) : M mmu unit :=
  if (off <? 0) || (strlen data <? off + len) then fault else ustore va (take (Z.to_nat len) (drop (Z.to_nat off) data)).

Definition zero_bytes (n : Z) : list Z := replicate (Z.to_nat n) 0.

(** The bytes of the page at [va] of a segment. *)
Definition fill_page (data : list Z) (p : elf64_phdr) (va : Z) : M mmu unit :=
  let copy_off := u64 (va - p_vaddr p) in
  let file_off := u64 (p_offset p + copy_off) in
  let file_end := u64 (p_offset p + p_filesz p) in
  if file_off <? file_end then
    let copy_len := if file_end <? u64 (file_off + PAGE_SIZE) then u64 (file_end - file_off) else PAGE_SIZE in
    copy_file va data file_off copy_len ;;
    (if copy_len <? PAGE_SIZE then ustore (u64 (va + copy_len)) (zero_bytes (PAGE_SIZE - copy_len)) else mret tt)
  else ustore va (zero_bytes PAGE_SIZE).

(** [false] when the image cannot be mapped. *)
Definition map_seg_page (root : Z) (data : list Z) (p : elf64_phdr) (va : Z) : M mmu bool :=
  x ← vmm_virt_to_phys_in root va;
  if negb (x =? 0) then mret true
  else
    ok ← new_page root va (Z.lor MMU_USER MMU_WRITE);
    if negb ok then mret false else fill_page data p va ;; mret true.

Fixpoint map_seg_pages (n : nat) (root : Z) (data : list Z) (p : elf64_phdr) (va : Z) : M mmu bool :=
  match n with
  | O => mret true
  | S n =>
    ok ← map_seg_page root data p va;
    if negb ok then mret false else map_seg_pages n root data p (u64 (va + PAGE_SIZE))
  end.

(** The segments in turn; the result is the end of the highest. *)
Fixpoint map_segs (root : Z) (data : list Z) (ph : list elf64_phdr) (highest : Z) : M mmu (option Z) :=
  match ph with
  | [] => mret (Some highest)
  | p :: ph =>
    if negb (is_load p) then map_segs root data ph highest
    else
      ok ← map_seg_pages (Z.to_nat (u64 (seg_stop p - seg_start p) / PAGE_SIZE)) root data p (seg_start p);
      if negb ok then mret None
      else
        let e := u64 (p_vaddr p + p_memsz p) in
        map_segs root data ph (if highest <? e then e else highest)
  end.

(** [elf_map_image]; [None] is the result -1, after which the image is not used. *)
Definition elf_map_image (root : Z) (data : list Z) (require_entry : bool) : M sched (option elf_image) :=
  ph ← image_headers data require_entry;
  match ph with
  | None => mret None
  | Some ph =>
    match seg_span (strlen data) ph (2 ^ 64 - 1) 0 with
    | None => mret None
    | Some (lo, hi) =>
      let pages := u64 (hi - lo) / PAGE_SIZE in
      if ELF_MAX_SEG_PAGES <? pages then mret None
      else
        m ← on_vfs kmalloc;
        match m with
        | None => mret None
        | Some _ =>
          cover ← cover_segs lo ph (zero_bytes (if pages =? 0 then 1 else pages));
          r ← on_mmu (map_segs root data ph 0);
          match r with
          | None => mret None
          | Some highest =>
            '(ret, info) ← elf_parse_dynamic data;
            mret (if ret <? 0 then None else Some (Image lo pages cover highest false (Object data info)))
          end
        end
    end
  end.

(** ** Libraries *)

(** The name of a dependency, at most [n] bytes of it. *)
Fixpoint dep_name {St} (n : nat) (buf : list Z) (pos : Z) : M St (list Z) :=
  match n with
  | O => mret []
  | S n => c ← load buf pos; if c =? 0 then mret [] else r ← dep_name n buf (pos + 1); mret (c :: r)
  end.

Section load.
Context {env : VfsEnv}.

(** One name tried in the directories; [None] is the result -1. *)
Fixpoint find_library (root : Z) (dirs : list (list Z)) (name : list Z) (imgs : list elf_image) : M sched (option (list elf_image)) :=
  match dirs with
  | [] => mret None
  | dir :: dirs =>
    if 128 <=? strlen dir + strlen name then mret None
    else
      f ← as_current (vfs_read_file (dir ++ name));
      match f with
      | None => find_library root dirs name imgs
      | Some buf =>
        if (ELF_MAX_IMAGES <=? length imgs)%nat then mret None
        else
          dep ← elf_map_image root buf false;
          match dep with
          | None => mret None
          | Some d => mret (Some (imgs ++ [Image (im_span_lo d) (im_span_pages d) (im_cover d) (im_highest d) true (im_dyn d)]))
          end
      end
  end.

Fixpoint load_needed (root : Z) (main : elf_object) (offs : list Z) (imgs : list elf_image) : M sched (option (list elf_image)) :=
  match offs with
  | [] => mret (Some imgs)
  | off :: offs =>
    if dynstr_size (eo_info main) <=? off then mret None
    else
      name ← dep_name (ELF_MAX_DEP_NAME - 1) (eo_buf main) (dynstr_off (eo_info main) + off);
      if bool_decide (name = []) || (ELF_MAX_DEP_NAME - 1 <=? length name)%nat then mret None
      else
        r ← find_library root elf_lib_dirs name imgs;
        match r with None => mret None | Some imgs => load_needed root main offs imgs end
  end.

Definition elf_load_dependencies (root : Z) (main : elf_image) : M sched (option (list elf_image)) :=
  let di := eo_info (im_dyn main) in
  if negb (has_dynamic di) then mret (Some [main])
  else if (dynstr_off di =? 0) && negb (bool_decide (needed_off di = [])) then mret None
  else load_needed root (im_dyn main) (needed_off di) [main].

(** ** Relocation and protection *)

Definition elf_place_reloc (target value : Z) : M mmu unit := ustore64 target value.

(** The relocations of one image; the slots are written in the order in which
    they are handed over, up to the first relocation that fails. *)
Definition relocate_image (scope : list elf_object) (o : elf_object) : M sched bool :=
  match elf_apply_relocations o scope [] with
  | Ok ((ret, _), ws) => on_mmu (for_list ws (λ w, elf_place_reloc w.1 w.2)) ;; mret (negb (ret <? 0))
  | Fault => fault
  | NoFuel => λ _, NoFuel
  end.

(** [all] stops at the first [false]. *)
Fixpoint each {St A} (f : A → M St bool) (l : list A) : M St bool :=
  match l with
  | [] => mret true
  | x :: l => ok ← f x; if negb ok then mret false else each f l
  end.

Definition final_flags (c : Z) : Z :=
  let flags := MMU_USER in
  let flags := if flag c SEG_COVER_W then Z.lor flags MMU_WRITE else flags in
  if flag c SEG_COVER_W || negb (flag c SEG_COVER_X) then Z.lor flags MMU_NX else flags.

Definition elf_image_readonly (root : Z) (img : elf_image) : M mmu bool :=
  r ← for_ret (Z.to_nat (im_span_pages img)) 0 (λ idx,
    let va := u64 (im_span_lo img + idx * PAGE_SIZE) in
    x ← vmm_virt_to_phys_in root va;
    if x =? 0 then mret None
    else
      c ← load (im_cover img) idx;
      p ← vmm_protect_page root va (final_flags c);
      mret (if p <? 0 then Some tt else None));
  mret (match r with None => true | Some _ => false end).

(** ** The stack *)

(** The strings go below [sp]; the result is the new [sp] and where each went. *)
Fixpoint push_strings (sp : Z) (strs : list (list Z)) : M mmu (Z * list Z) :=
  match strs with
  | [] => mret (sp, [])
  | s :: strs =>
    let sp := u64 (sp - (strlen s + 1)) in
    ustore sp (s ++ [0]) ;;
    '(sp', ptrs) ← push_strings sp strs;
    mret (sp', sp :: ptrs)
  end.

(** Words from [w] downwards. *)
Fixpoint store_down (w : Z) (ws : list Z) : M mmu unit :=
  match ws with
  | [] => mret tt
  | x :: ws => ustore64 w x ;; store_down (u64 (w - 8)) ws
  end.

(** [x & ~0xFUL] *)
Definition align16 (x : Z) : Z := Z.land x (u64 (Z.lnot 0xF)).

(** [argc] is the length of [argv], whose pointers are not null; [None] is the
    result -1. *)
Definition setup_user_stack (stack_base stack_pages : Z) (argv envp : list (list Z)) : M mmu (option Z) :=
  let top := u64 (stack_base + stack_pages * PAGE_SIZE) in
  let sp := align16 top in
  let argv := take 32 argv in
  let envp := take 32 envp in
  let argc := Z.of_nat (length argv) in
  let envc := Z.of_nat (length envp) in
  '(sp, str_ptrs) ← push_strings sp argv;
  '(sp, env_ptrs) ← push_strings sp envp;
  let str_lo := align16 sp in
  let base := align16 (u64 (str_lo - 8 * (argc + envc + 3))) in
  if base <? stack_base then mret None
  else
    store_down (u64 (base + 8 * (argc + envc + 2))) ([0] ++ reverse env_ptrs ++ [0] ++ reverse str_ptrs) ;;
    ustore64 base argc ;;
    mret (Some base).

(** ** The whole load *)

Definition stack_pages : Z := 32.

Definition map_stack (root stack : Z) : M mmu bool :=
  r ← for_ret (Z.to_nat stack_pages) 0 (λ p,
    ok ← new_page root (u64 (stack + p * PAGE_SIZE)) (Z.lor (Z.lor MMU_USER MMU_WRITE) MMU_NX);
    mret (if negb ok then Some tt else None));
  mret (match r with None => true | Some _ => false end).

(** From [stack_base] on, where [highest] is the end of the images. *)
Definition load_stack (root highest : Z) (argv envp : list (list Z)) : M mmu (option Z) :=
  let stack_base := page_floor (u64 (highest + 0x10000 + 0xFFF)) in
  let stack := u64 (stack_base + PAGE_SIZE) in
  ok ← map_stack root stack;
  if negb ok then mret None else setup_user_stack stack stack_pages argv envp.

(** What happens while the new address space is active; [None] is [goto fail]. *)
Definition load_program (root : Z) (data : list Z) (argv envp : list (list Z)) : M sched (option (Z * Z)) :=
  main ← elf_map_image root data true;
  match main with
  | None => mret None
  | Some main =>
    imgs ← elf_load_dependencies root main;
    match imgs with
    | None => mret None
    | Some imgs =>
      let scope := im_dyn <$> imgs in
      ok ← each (relocate_image scope) scope;
      if negb ok then mret None
      else
        ok ← each (λ i, on_mmu (elf_image_readonly root i)) imgs;
        if negb ok then mret None
        else
          h ← load_ehdr data;
          let highest := foldl (λ m i, if m <? im_highest i then im_highest i else m) 0 imgs in
          sp ← on_mmu (load_stack root highest argv envp);
          mret ((λ sp, (e_entry h, sp)) <$> sp)
    end
  end.

(** [elf_load]: the entry point and the stack pointer. *)
Definition elf_load (root : Z) (data : list Z) (argv envp : list (list Z)) : M sched (option (Z * Z)) :=
  saved ← on_mmu vmm_current_root;
  on_mmu (vmm_switch root) ;;
  r ← load_program root data argv envp;
  on_mmu (vmm_switch saved) ;;
  mret r.
End load.

(** ** What a segment puts into a page *)

(** The bytes of the page at [va] of segment [p] of a file. *)
Definition page_content (data : list Z) (p : elf64_phdr) (va : Z) : list Z :=
  let off := u64 (p_offset p + u64 (va - p_vaddr p)) in
  let n := Z.min (p_offset p + p_filesz p - off) PAGE_SIZE in
  if off <? p_offset p + p_filesz p then take (Z.to_nat n) (drop (Z.to_nat off) data) ++ zero_bytes (PAGE_SIZE - n)
  else zero_bytes PAGE_SIZE.

(** The fields of a segment that [seg_span] has let through. *)
Record seg_ok (size : Z) (p : elf64_phdr) : Prop := SegOk {
  so_file : 0 ≤ p_offset p ∧ 0 ≤ p_filesz p ∧ p_offset p + p_filesz p ≤ size;
  so_mem : 0 ≤ p_vaddr p ∧ p_filesz p ≤ p_memsz p ∧ p_vaddr p + p_memsz p < 2 ^ 64 }.

Lemma seg_span_ok size ph lo hi r :
  Forall phdr_u64 ph → seg_span size ph lo hi = Some r → Forall (λ p, is_load p = true → seg_ok size p) ph.
Proof.
  intros Hu. revert lo hi. induction Hu as [|p ph (Ho & Hv & Hf & Hm) Hu IH]; intros lo hi; [constructor|]. cbn [seg_span]. unfold is_u64 in *.
  destruct (is_load p) eqn:El; cbn [negb]; [|intros Hr; constructor; [congruence|by eapply IH]].
  destruct (Z.ltb_spec (p_memsz p) (p_filesz p)), (Z.ltb_spec size (p_offset p)), (Z.ltb_spec (size - p_offset p) (p_filesz p)); cbn [orb]; try done.
  destruct (Z.ltb_spec (u64 (p_vaddr p + p_memsz p)) (p_vaddr p)) as [|Hw]; [done|]. intros Hr. constructor; [|by eapply IH].
  intros _. split; [lia|]. split_and!; [lia|done|]. unfold u64 in Hw.
  destruct (Z.lt_ge_cases (p_vaddr p + p_memsz p) (2 ^ 64)) as [|Hge]; [done|].
  replace (p_vaddr p + p_memsz p) with (p_vaddr p + p_memsz p - 2 ^ 64 + 1 * 2 ^ 64) in Hw by lia.
  rewrite Z.mod_add, Z.mod_small in Hw by lia. lia.
Qed.

Lemma page_content_length size data p va : seg_ok size p → strlen data = size → length (page_content data p va) = Z.to_nat PAGE_SIZE.
Proof.
  intros [(Ho & Hf & Hs) _] Hl. unfold page_content, zero_bytes. pose proof (u64_range (p_offset p + u64 (va - p_vaddr p))) as Hr.
  set (off := u64 _) in *. clearbody off. unfold is_u64, PAGE_SIZE in *.
  destruct (Z.ltb_spec off (p_offset p + p_filesz p)); [|by rewrite length_replicate].
  rewrite length_app, length_take, length_drop, length_replicate. unfold strlen in Hl. lia.
Qed.

Lemma zero_u8 : is_u8 0.
Proof. unfold is_u8. lia. Qed.

Section map.
Context (r : Z) (h : nat) (Hh : private [h]) (Hlow : (h < 256)%nat).

(** A page that may be written, as a whole and in part. *)
Lemma page_writable U va p k : va mod PAGE_SIZE = 0 → U !! va = Some p → p_w (up_perm p) = true → 0 ≤ k < PAGE_SIZE → writable U (va + k).
Proof. intros Hal Hp Hw Hk. destruct (page_base_offset va k Hal Hk) as [E _]. exists p. by rewrite E. Qed.

Lemma wp_fill_page s U data p va q (Q : unit → mmu → Prop) :
  umem s r h U → U !! va = Some q → p_w (up_perm q) = true → seg_ok (strlen data) p → Forall is_u8 data → strlen data < 2 ^ 63 →
  (∀ s', umove r h s U s' (<[va := Upage (up_frame q) (up_perm q) (page_content data p va)]> U) → Q tt s') →
  wp (fill_page data p va) Q s.
Proof.
  intros Hu Hq Hw Hok Hbytes Hsz HQ. destruct (um_page _ _ _ _ Hu va q Hq) as (Hin & Hal & _).
  pose proof (um_length r h s U va q Hu Hq) as Hlen. pose proof (page_content_length _ data p va Hok eq_refl) as Hcl.
  pose proof (in_entry_range h Hlow va Hin) as Hva. destruct Hok as [(Ho & Hf & Hs) _].
  assert (∀ bs zs s1, umove r h s U s1 (puts (va + Z.of_nat (length bs)) zs (puts va bs U)) → page_content data p va = bs ++ zs →
    Q tt s1) as Hfin.
  { intros bs zs s1 Hm E. apply HQ. rewrite E in *. rewrite <-puts_app, (puts_page U va q) in Hm by done. exact Hm. }
  unfold fill_page. rewrite (u64_small (p_offset p + p_filesz p)) by (unfold is_u64; lia). unfold page_content in *.
  pose proof (u64_range (p_offset p + u64 (va - p_vaddr p))) as Hr. set (off := u64 (p_offset p + u64 (va - p_vaddr p))) in *. clearbody off.
  set (fe := p_offset p + p_filesz p) in *. unfold is_u64 in Hr. destruct (Z.ltb_spec off fe) as [Hoff|Hoff].
  - set (n := Z.min (fe - off) PAGE_SIZE) in *.
    assert ((if fe <? u64 (off + PAGE_SIZE) then u64 (fe - off) else PAGE_SIZE) = n) as ->.
    { unfold n. rewrite !u64_small by (unfold is_u64, PAGE_SIZE in *; lia). destruct (Z.ltb_spec fe (off + PAGE_SIZE)); lia. }
    unfold copy_file. replace ((off <? 0) || (strlen data <? off + n)) with false by (unfold PAGE_SIZE in *; lia).
    set (bs := take (Z.to_nat n) (drop (Z.to_nat off) data)) in *.
    assert (Z.of_nat (length bs) = n) as Hbs by (unfold bs, strlen, PAGE_SIZE in *; rewrite length_take, length_drop; lia).
    wp_step. apply (wp_ustore r h Hlow s U); [done|by apply Forall_take, Forall_drop| |].
    { intros k Hk. eapply page_writable; [done..|]. unfold PAGE_SIZE in *. lia. }
    intros s1 Hm1. rewrite u64_small by (unfold is_u64, PAGE_SIZE in *; lia).
    destruct (Z.ltb_spec n PAGE_SIZE) as [Hn|Hn].
    + pose proof Hm1 as [Hu1 _]. apply (wp_ustore r h Hlow s1 (puts va bs U)); [done|apply Forall_replicate, zero_u8| |].
      { intros k Hk. unfold zero_bytes in Hk. rewrite length_replicate in Hk. apply puts_writable.
        rewrite <-Z.add_assoc. eapply page_writable; [done..|]. lia. }
      intros s2 Hm2. apply (Hfin bs (zero_bytes (PAGE_SIZE - n))); [|done]. rewrite Hbs. by eapply umove_trans.
    + wp_step. apply (Hfin bs []); [done|]. unfold zero_bytes. by replace (Z.to_nat (PAGE_SIZE - n)) with 0%nat by lia.
  - apply (wp_ustore r h Hlow s U); [done|apply Forall_replicate, zero_u8| |].
    { intros k Hk. unfold zero_bytes in Hk. rewrite length_replicate in Hk. eapply page_writable; [done..|]. lia. }
    intros s1 Hm1. apply (Hfin [] (zero_bytes PAGE_SIZE)); [|symmetry; apply app_nil_l].
    change (Z.of_nat (length [])) with 0. rewrite Z.add_0_r. exact Hm1.
Qed.
End map.

(** ** A program loaded *)

Definition load_frames : Z := 96.
Definition load_mem : gmap Z (list Z) :=
  <[1 * PAGE_SIZE := Mmu.demo_root]> (list_to_map ((λ f, (f * PAGE_SIZE, demo_table)) <$> seqZ 0 load_frames)).
Definition load_mmu : mmu := Mmu (Pmm (0x0F :: replicate 11 0) load_frames 92 4) load_mem (1 * PAGE_SIZE) (1 * PAGE_SIZE) 0 4 true true 0 0.
Definition load_boot : sched := put_mmu load_mmu demo_boot.

Definition exe_phdr (flags offset vaddr filesz memsz : Z) : list Z :=
  le_bytes 4 PT_LOAD ++ le_bytes 4 flags ++ le_bytes 8 offset ++ le_bytes 8 vaddr ++ le_bytes 8 vaddr ++ le_bytes 8 filesz ++ le_bytes 8 memsz ++ le_bytes 8 4096.
Definition exe_ehdr (entry phnum : Z) : list Z :=
  le_bytes 4 ELF_MAGIC ++ [2; 1; 1; 0; 0] ++ replicate 7 0 ++ le_bytes 2 2 ++ le_bytes 2 62 ++ le_bytes 4 1 ++ le_bytes 8 entry ++ le_bytes 8 64 ++ le_bytes 8 0 ++
  le_bytes 4 0 ++ le_bytes 2 64 ++ le_bytes 2 56 ++ le_bytes 2 phnum ++ le_bytes 2 0 ++ le_bytes 2 0 ++ le_bytes 2 0.
Definition exe : list Z :=
  exe_ehdr 0x100000000B0 2 ++ exe_phdr 5 0 0x10000000000 0xB8 0xB8 ++ exe_phdr 6 0xB4 0x100000010B4 4 0x100 ++ [144; 144; 144; 144; 1; 2; 3; 4].

Definition load_exe : M sched (Z * option (Z * Z)) :=
  root ← on_mmu vmm_new_user_root;
  match root with
  | Some r => x ← elf_load (env := no_ext) r exe [cstr "sh"] []; mret (r, x)
  | None => fault
  end.

(** What user mode finds: the byte at an address and what it may do there. *)
Definition seen (r : Z) (s : sched) (v : Z) : option (Z * perm) :=
  match (vmm_switch r ;; uload8 v) (sc_mmu s), translate (sc_mmu s) r v with
  | Ok (b, _), Some x => Some (b, x_perm x)
  | _, _ => None
  end.

(** The code may be run and not written, the data and the stack may be written
    and not run; [argc] is 1 and [argv[0]] points to the string, and the page
    below the stack is not mapped. *)
Example exe_loaded :
  match load_exe load_boot with
  | Ok ((r, Some (entry, sp)), s) =>
    entry = 0x100000000B0 ∧ sp mod 16 = 0 ∧ mm_cr3 (sc_mmu s) = mm_cr3 load_mmu ∧
    seen r s 0x100000000B0 = Some (144, Perm false true false) ∧ seen r s 0x100000010B7 = Some (4, Perm true true true) ∧
    seen r s 0x100000010B8 = Some (0, Perm true true true) ∧ seen r s sp = Some (1, Perm true true true) ∧
    seen r s (page_floor sp - 32 * PAGE_SIZE) = None
  | _ => False
  end.
Proof. vm_compute. by repeat split. Qed.
