(* ===== verification/ElfMap.v ===== *)
(** * ElfMap: what loading an image does to user memory

    The pages [elf_map_image] adds and their bytes, and the permissions
    [elf_image_readonly] leaves, over the view of Umem.v. *)

From S2P Require Import Prelude BootMap Pmm Mmu Kmem Umem CString Packet Security VfsPath Vfs Sched SchedQueue Fds SchedSpawn SchedRun Syscall Dynlink Elf.

#[local] Arguments for_up : simpl never.
#[local] Arguments for_ret : simpl never.

(** ** Pages that are added *)

(** Pages that were not there before may be written until the last step. *)
Definition fresh_perm : perm := flags_perm (Z.lor MMU_USER MMU_WRITE).

(** [U'] is [U] and, where [c] gives the bytes of a page that [U] does not
    have, that page. *)
Definition grows (c : Z → option (list Z)) (U U' : upages) : Prop :=
  ∀ v, match U !! v with
       | Some p => U' !! v = Some p
       | None => match c v with Some bs => ∃ f, U' !! v = Some (Upage f fresh_perm bs) | None => U' !! v = None end
       end.

Definition first_of (c1 c2 : Z → option (list Z)) (v : Z) : option (list Z) :=
  match c1 v with Some bs => Some bs | None => c2 v end.

Lemma grows_refl U : grows (λ _, None) U U.
Proof. intros v. by destruct (U !! v). Qed.

Lemma grows_ext c c' U U' : (∀ v, c v = c' v) → grows c U U' → grows c' U U'.
Proof. intros Hc HU v. rewrite <-Hc. apply HU. Qed.

Lemma grows_trans c1 c2 U1 U2 U3 : grows c1 U1 U2 → grows c2 U2 U3 → grows (first_of c1 c2) U1 U3.
Proof.
  intros H12 H23 v. specialize (H12 v). specialize (H23 v). unfold first_of. destruct (U1 !! v) as [p|].
  - by rewrite H12 in H23.
  - destruct (c1 v) as [bs|].
    + destruct H12 as [f Hf]. rewrite Hf in H23. eauto.
    + by rewrite H12 in H23.
Qed.

Lemma grows_old c U U' v p : grows c U U' → U !! v = Some p → U' !! v = Some p.
Proof. intros HU Hp. specialize (HU v). by rewrite Hp in HU. Qed.

(** ** The pages of a segment *)

(** Page [v] is one of the [n] pages from [va] on. *)
Definition in_run (va : Z) (n : nat) (v : Z) : bool := (v mod PAGE_SIZE =? 0) && (va <=? v) && (v <? va + Z.of_nat n * PAGE_SIZE).
Definition run_content (data : list Z) (p : elf64_phdr) (va : Z) (n : nat) (v : Z) : option (list Z) :=
  if in_run va n v then Some (page_content data p v) else None.

(** How many pages the mapping loop visits. *)
Definition seg_count (p : elf64_phdr) : nat := Z.to_nat (u64 (seg_stop p - seg_start p) / PAGE_SIZE).
Definition seg_content (data : list Z) (p : elf64_phdr) (v : Z) : option (list Z) :=
  if is_load p then run_content data p (seg_start p) (seg_count p) v else None.

(** The first segment that has the page. *)
Fixpoint image_content (data : list Z) (ph : list elf64_phdr) : Z → option (list Z) :=
  match ph with
  | [] => λ _, None
  | p :: ph => first_of (seg_content data p) (image_content data ph)
  end.

(** A segment inside the addresses of one root entry. *)
Definition seg_within (h : nat) (p : elf64_phdr) : Prop :=
  Z.of_nat h * 2 ^ 39 ≤ p_vaddr p ∧ p_vaddr p + p_memsz p ≤ (Z.of_nat h + 1) * 2 ^ 39.

Lemma page_floor_base x : 0 ≤ x < 2 ^ 64 → page_floor x = page_base x.
Proof.
  intros Hx. unfold page_floor, page_base, PAGE_SIZE. change (u64 (Z.lnot 0xFFF)) with (Z.ldiff (Z.ones 64) (Z.ones 12)).
  rewrite Z.land_comm. rewrite <-Z.shiftl_mul_pow2 with (n := 12), <-Z.shiftr_div_pow2 with (n := 12) by done.
  apply Z.bits_inj'. intros i Hi. rewrite Z.land_spec, Z.ldiff_spec, !Z.testbit_ones by done.
  destruct (Z.ltb_spec i 12) as [Hlt|Hge].
  - rewrite Z.shiftl_spec_low by done. replace (0 <=? i) with true by lia. by rewrite andb_false_r.
  - rewrite Z.shiftl_spec, Z.shiftr_spec by lia. replace (i - 12 + 12) with i by lia. rewrite andb_false_r, andb_true_r.
    destruct (Z.ltb_spec i 64); [by replace (0 <=? i) with true by lia|]. rewrite (testbit_small x 64) by lia. by rewrite andb_false_r.
Qed.

Lemma seg_pages h p size :
  (h < 256)%nat → seg_ok size p → seg_within h p →
  seg_start p = page_base (p_vaddr p) ∧ seg_stop p = page_base (p_vaddr p + p_memsz p + 0xFFF) ∧
  seg_start p mod PAGE_SIZE = 0 ∧ Z.of_nat h * 2 ^ 39 ≤ seg_start p ∧ seg_start p + Z.of_nat (seg_count p) * PAGE_SIZE = seg_stop p ∧ seg_stop p ≤ (Z.of_nat h + 1) * 2 ^ 39.
Proof.
  intros Hh [(_ & Hf & _) (Hv & Hfm & Hm)] [Hlo Hhi]. unfold seg_count, seg_start, seg_stop.
  rewrite u64_small by (unfold is_u64; lia). rewrite !page_floor_base by lia.
  assert (∀ x y, x ≤ y → page_base x ≤ page_base y) as Hmono.
  { intros x y Hxy. unfold page_base, PAGE_SIZE. pose proof (Z.div_le_mono x y 4096). lia. }
  pose proof (page_base_mod (p_vaddr p)) as Hal. pose proof (page_base_mod (p_vaddr p + p_memsz p + 0xFFF)) as Hal'.
  pose proof (Hmono (p_vaddr p) (p_vaddr p + p_memsz p + 0xFFF) ltac:(lia)) as H1.
  pose proof (Hmono (Z.of_nat h * 2 ^ 39) (p_vaddr p) Hlo) as H2.
  pose proof (Hmono (p_vaddr p + p_memsz p + 0xFFF) ((Z.of_nat h + 1) * 2 ^ 39 + 0xFFF) ltac:(lia)) as H3.
  assert (page_base (Z.of_nat h * 2 ^ 39) = Z.of_nat h * 2 ^ 39) as E2.
  { apply page_base_aligned. unfold PAGE_SIZE. replace (Z.of_nat h * 2 ^ 39) with (Z.of_nat h * 2 ^ 27 * 4096) by lia. apply Z.mod_mul. done. }
  assert (page_base ((Z.of_nat h + 1) * 2 ^ 39 + 0xFFF) = (Z.of_nat h + 1) * 2 ^ 39) as E3.
  { apply page_base_offset; [|unfold PAGE_SIZE; lia]. unfold PAGE_SIZE.
    replace ((Z.of_nat h + 1) * 2 ^ 39) with ((Z.of_nat h + 1) * 2 ^ 27 * 4096) by lia. apply Z.mod_mul. done. }
  set (a := page_base (p_vaddr p)) in *. set (b := page_base (p_vaddr p + p_memsz p + 0xFFF)) in *. clearbody a b.
  split_and!; try done; [lia| |lia]. rewrite u64_small by (unfold is_u64; lia). unfold PAGE_SIZE in *.
  assert ((b - a) mod 4096 = 0) as Hd by (rewrite Zminus_mod, Hal, Hal'; done).
  pose proof (Z.div_mod (b - a) 4096). assert (0 ≤ (b - a) / 4096) by (apply Z.div_pos; lia). lia.
Qed.

Section map.
Context (r : Z) (h : nat) (Hh : private [h]) (Hlow : (h < 256)%nat).
Context (data : list Z) (Hbytes : Forall is_u8 data) (Hsize : strlen data < 2 ^ 63).

Lemma wp_map_seg_page s U p va (Q : bool → mmu → Prop) :
  umem s r h U → seg_ok (strlen data) p → in_entry h va → va mod PAGE_SIZE = 0 →
  (∀ s', umove r h s U s' U → starved s' → Q false s') →
  (∀ s' U', umove r h s U s' U' → grows (run_content data p va 1) U U' → Q true s') →
  wp (map_seg_page r data p va) Q s.
Proof.
  intros Hu Hok Hin Hal HQf HQt. unfold map_seg_page. wp_step. apply (wp_query r h Hh Hlow s U); [done..|].
  intros s1 Hm1. pose proof Hm1 as [Hu1 _]. rewrite page_base_aligned by done.
  assert (∀ v, in_run va 1 v = true ↔ v = va) as Hrun.
  { intros v. unfold in_run, PAGE_SIZE in *. split; [intros Hv|intros ->].
    2:{ rewrite Hal, (proj2 (Z.leb_le _ _)), (proj2 (Z.ltb_lt _ _)) by lia. done. }
    apply andb_true_iff in Hv as [[Hm%Z.eqb_eq Hl%Z.leb_le]%andb_true_iff Hr%Z.ltb_lt].
    pose proof (Z.div_mod v 4096). pose proof (Z.div_mod va 4096). lia. }
  destruct (U !! va) as [q|] eqn:Hq.
  - destruct (um_page _ _ _ _ Hu va q Hq) as (_ & _ & x & l & _ & _ & _ & Hl & _). pose proof (he_range _ _ _ _ Hl).
    change 0xFFF with (2 ^ 12 - 1). rewrite land_ones_mod by done. change (2 ^ 12) with PAGE_SIZE. rewrite Hal, Z.lor_0_r.
    rewrite (proj2 (Z.eqb_neq _ _)) by (unfold PAGE_SIZE; lia). cbn [negb]. wp_step. apply (HQt s1 U); [done|].
    intros v. destruct (U !! v) eqn:Hv; [done|]. unfold run_content. destruct (in_run va 1 v) eqn:E; [|done].
    apply Hrun in E as ->. congruence.
  - cbn [negb Z.eqb]. wp_step. apply (wp_new_page r h Hh Hlow s1 U); [done..| |].
    { intros s2 Hm2 Hst. cbn [negb]. wp_step. apply HQf; [by eapply umove_trans|done]. }
    intros f bs s2 Hbs Hm2. cbn [negb]. wp_step. pose proof Hm2 as [Hu2 _].
    eapply (wp_fill_page r h Hlow s2); [exact Hu2|by rewrite lookup_insert_eq|done|done|done|done|].
    intros s3 Hm3. wp_step. rewrite insert_insert_eq in Hm3. eapply HQt; [eapply umove_trans; [|exact Hm3]; by eapply umove_trans|].
    intros v. destruct (decide (v = va)) as [->|Hne].
    + rewrite Hq. unfold run_content. rewrite (proj2 (Hrun va) eq_refl), lookup_insert_eq. by exists f.
    + rewrite lookup_insert_ne by done. unfold run_content. destruct (in_run va 1 v) eqn:E; [by apply Hrun in E|]. by destruct (U !! v).
Qed.

(** A run of pages. *)
Lemma wp_map_seg_pages n s U p va (Q : bool → mmu → Prop) :
  umem s r h U → seg_ok (strlen data) p → va mod PAGE_SIZE = 0 → Z.of_nat h * 2 ^ 39 ≤ va → va + Z.of_nat n * PAGE_SIZE ≤ (Z.of_nat h + 1) * 2 ^ 39 →
  (∀ s' U', umove r h s U s' U' → starved s' → Q false s') →
  (∀ s' U', umove r h s U s' U' → grows (run_content data p va n) U U' → Q true s') →
  wp (map_seg_pages n r data p va) Q s.
Proof.
  revert s U va. induction n as [|n IH]; intros s U va Hu Hok Hal Hlo Hhi HQf HQt; cbn [map_seg_pages].
  - wp_step. apply (HQt s U); [by apply umove_refl|]. eapply grows_ext; [|apply grows_refl]. intros v. unfold run_content, in_run. change (Z.of_nat 0 * PAGE_SIZE) with 0.
    destruct ((va <=? v) && (v <? va + 0)) eqn:E; [lia|]. rewrite <-andb_assoc, E. by rewrite andb_false_r.
  - wp_step. apply (wp_map_seg_page s U); [done|done|unfold in_entry, PAGE_SIZE in *; lia|done| |].
    { intros s1 Hm1 Hst. cbn [negb]. wp_step. by eapply HQf. }
    intros s1 U1 Hm1 Hg1. cbn [negb]. rewrite u64_small by (unfold is_u64, PAGE_SIZE in *; lia). pose proof Hm1 as [Hu1 _].
    apply (IH s1 U1); [done|done| |unfold PAGE_SIZE in *; lia|unfold PAGE_SIZE in *; lia| |].
    + rewrite <-Z.add_mod_idemp_l, Hal by done. done.
    + intros s2 U2 Hm2 Hst. eapply HQf; [by eapply umove_trans|done].
    + intros s2 U2 Hm2 Hg2. eapply HQt; [by eapply umove_trans|]. eapply grows_ext; [|by eapply grows_trans].
      intros v. unfold first_of, run_content.
      assert (in_run va (S n) v = in_run va 1 v || in_run (va + PAGE_SIZE) n v) as ->.
      { unfold in_run, PAGE_SIZE in *. destruct (Z.eqb_spec (v mod 4096) 0) as [Hv|]; [|done]. cbn [andb].
        apply eq_true_iff_eq. rewrite orb_true_iff, !andb_true_iff, !Z.leb_le, !Z.ltb_lt. lia. }
      by destruct (in_run va 1 v).
Qed.

Lemma wp_map_segs s U ph hi (Q : option Z → mmu → Prop) :
  umem s r h U → Forall (λ p, is_load p = true → seg_ok (strlen data) p ∧ seg_within h p) ph →
  (∀ s' U', umove r h s U s' U' → starved s' → Q None s') →
  (∀ s' U', umove r h s U s' U' → grows (image_content data ph) U U' →
     Q (Some (foldl (λ m p, if is_load p then Z.max m (p_vaddr p + p_memsz p) else m) hi ph)) s') →
  wp (map_segs r data ph hi) Q s.
Proof.
  intros Hu Hph. revert s U hi Q Hu. induction Hph as [|p ph Hp Hph IH]; intros s U hi Q Hu HQf HQt; cbn [map_segs].
  { wp_step. apply (HQt s U); [by apply umove_refl|apply grows_refl]. }
  cbn [foldl image_content] in HQt. unfold seg_content in HQt. destruct (is_load p) eqn:El; cbn [negb].
  - destruct (Hp eq_refl) as [Hok Hw]. destruct (seg_pages h p _ Hlow Hok Hw) as (_ & _ & Hal & Hlo & Hsum & Hhi). fold (seg_count p).
    wp_step. apply (wp_map_seg_pages _ s U); [done..|lia| |].
    { intros s1 U1 Hm1 Hst. cbn [negb]. wp_step. by eapply HQf. }
    intros s1 U1 Hm1 Hg1. cbn [negb]. pose proof Hm1 as [Hu1 _]. pose proof Hok as [_ (Hv & Hfm & Hm)].
    rewrite u64_small by (unfold is_u64; destruct Hok as [(_ & Hf & _) _]; lia).
    replace (if hi <? p_vaddr p + p_memsz p then p_vaddr p + p_memsz p else hi) with (Z.max hi (p_vaddr p + p_memsz p)) by (destruct (Z.ltb_spec hi (p_vaddr p + p_memsz p)); lia).
    apply (IH s1 U1); [done| |].
    + intros s2 U2 Hm2 Hst. eapply HQf; [by eapply umove_trans|done].
    + intros s2 U2 Hm2 Hg2. eapply HQt; [by eapply umove_trans|]. by eapply grows_trans.
  - apply (IH s U); [done|done|]. intros s2 U2 Hm2 Hg2. eapply HQt; [done|]. eapply grows_ext; [|exact Hg2]. done.
Qed.
End map.

(** ** The span and the coverage of the pages *)

(** The program headers of a file. *)
Definition phdrs (data : list Z) : list elf64_phdr := phdrs_at (Z.to_nat (e_phnum (ehdr_of data))) data (e_phoff (ehdr_of data)).

(** Every loaded segment lies inside the addresses of one root entry. *)
Definition image_within (h : nat) (data : list Z) : Prop := Forall (λ p, is_load p = true → seg_within h p) (phdrs data).

(** What the flags of the segments on page [v] add up to. *)
Fixpoint cover_at (ph : list elf64_phdr) (v c : Z) : Z :=
  match ph with
  | [] => c
  | p :: ph => cover_at ph v (if is_load p && in_run (seg_start p) (seg_count p) v then Z.lor c (cover_bits p) else c)
  end.

(** Some segment with flag [f] has page [v]. *)
Definition covered (ph : list elf64_phdr) (f v : Z) : bool :=
  existsb (λ p, is_load p && in_run (seg_start p) (seg_count p) v && flag (p_flags p) f) ph.

Lemma cover_bits_flags p : flag (cover_bits p) SEG_COVER_W = flag (p_flags p) PF_W ∧ flag (cover_bits p) SEG_COVER_X = flag (p_flags p) PF_X.
Proof. unfold cover_bits. by destruct (flag (p_flags p) PF_W), (flag (p_flags p) PF_X). Qed.

Lemma cover_at_flags ph v c :
  flag (cover_at ph v c) SEG_COVER_W = flag c SEG_COVER_W || covered ph PF_W v ∧
  flag (cover_at ph v c) SEG_COVER_X = flag c SEG_COVER_X || covered ph PF_X v.
Proof.
  revert c. induction ph as [|p ph IH]; intros c; cbn [cover_at covered existsb]; [by rewrite !orb_false_r|].
  destruct (cover_bits_flags p) as [Ew Ex]. fold (covered ph PF_W v). fold (covered ph PF_X v). destruct (IH (if is_load p && in_run (seg_start p) (seg_count p) v then Z.lor c (cover_bits p) else c)) as [-> ->].
  destruct (is_load p && _); cbn [andb]; [|done]. by rewrite !flag_lor, Ew, Ex, !orb_assoc.
Qed.

Section cover.
Context (h : nat) (Hlow : (h < 256)%nat) (size : Z).

Definition placed (lo n : Z) (p : elf64_phdr) : Prop := lo ≤ seg_start p ∧ seg_stop p ≤ lo + n * PAGE_SIZE.

Lemma wp_cover_page {St} lo p va i cover (Q : list Z → St → Prop) s :
  lo mod PAGE_SIZE = 0 → va = lo + Z.of_nat i * PAGE_SIZE → (i < length cover)%nat → Z.of_nat (length cover) < 2 ^ 40 →
  Q (alter (λ c, Z.lor c (cover_bits p)) i cover) s → wp (cover_page lo p va cover) Q s.
Proof.
  intros Hal -> Hi Hlen HQ. unfold cover_page. replace (lo + Z.of_nat i * PAGE_SIZE - lo) with (Z.of_nat i * PAGE_SIZE) by lia.
  rewrite u64_small by (unfold is_u64, PAGE_SIZE; lia). rewrite Z.div_mul by done.
  destruct (lookup_lt_is_Some_2 cover i Hi) as [c Hc]. destruct (Z.eqb_spec (cover_bits p) 0) as [E|_].
  - wp_step. rewrite E in HQ. replace (alter (λ c, Z.lor c 0) i cover) with cover in HQ; [done|].
    apply list_eq. intros j. destruct (decide (i = j)) as [<-|]; [rewrite list_lookup_alter_eq, Hc; simpl; by rewrite Z.lor_0_r|by rewrite list_lookup_alter_ne].
  - wp_step. eapply wp_load; [lia|by rewrite Nat2Z.id|]. wp_step. rewrite Nat2Z.id.
    replace (alter (λ c, Z.lor c (cover_bits p)) i cover) with (<[i := Z.lor c (cover_bits p)]> cover) in HQ; [done|].
    apply list_eq. intros j. destruct (decide (i = j)) as [<-|]; [rewrite list_lookup_alter_eq, Hc, list_lookup_insert_eq by done; done|by rewrite list_lookup_alter_ne, list_lookup_insert_ne].
Qed.

(** The coverage list and, for page [i], what it says. *)
Lemma wp_cover_pages {St} n lo p va k cover (Q : list Z → St → Prop) s :
  lo mod PAGE_SIZE = 0 → va = lo + Z.of_nat k * PAGE_SIZE → (k + n ≤ length cover)%nat → Z.of_nat (length cover) < 2 ^ 40 →
  (∀ cover', length cover' = length cover →
     (∀ i c, cover !! i = Some c → cover' !! i = Some (if in_run va n (lo + Z.of_nat i * PAGE_SIZE) then Z.lor c (cover_bits p) else c)) → Q cover' s) →
  wp (cover_pages n lo p va cover) Q s.
Proof.
  intros Hal. revert va k cover. induction n as [|n IH]; intros va k cover -> Hk Hlen HQ; cbn [cover_pages].
  - wp_step. apply HQ; [done|]. intros i c Hi. rewrite Hi. f_equal. unfold in_run. change (Z.of_nat 0 * PAGE_SIZE) with 0.
    destruct ((lo + Z.of_nat k * PAGE_SIZE <=? lo + Z.of_nat i * PAGE_SIZE) && (lo + Z.of_nat i * PAGE_SIZE <? lo + Z.of_nat k * PAGE_SIZE + 0)) eqn:E; [lia|].
    by rewrite <-andb_assoc, E, andb_false_r.
  - wp_step. apply (wp_cover_page lo p _ k); [done|done|lia|done|]. apply (IH _ (S k)); [unfold PAGE_SIZE; lia|rewrite length_alter; lia|by rewrite length_alter|].
    intros cover' Hl Hc. apply HQ; [by rewrite Hl, length_alter|]. intros i c Hi.
    destruct (decide (i = k)) as [->|Hne].
    + rewrite (Hc k (Z.lor c (cover_bits p))); [|by rewrite list_lookup_alter_eq, Hi]. f_equal.
      assert (in_run (lo + Z.of_nat k * PAGE_SIZE + PAGE_SIZE) n (lo + Z.of_nat k * PAGE_SIZE) = false) as ->.
      { unfold in_run, PAGE_SIZE. apply andb_false_iff. left. apply andb_false_iff. right. lia. }
      assert (in_run (lo + Z.of_nat k * PAGE_SIZE) (S n) (lo + Z.of_nat k * PAGE_SIZE) = true) as ->; [|done].
      unfold in_run. rewrite Z.mod_add, Hal by done. unfold PAGE_SIZE.
      rewrite !andb_true_iff, Z.leb_le, Z.ltb_lt. split_and!; [done|lia|lia].
    + rewrite (Hc i c) by (by rewrite list_lookup_alter_ne). f_equal.
      assert (in_run (lo + Z.of_nat k * PAGE_SIZE + PAGE_SIZE) n (lo + Z.of_nat i * PAGE_SIZE) = in_run (lo + Z.of_nat k * PAGE_SIZE) (S n) (lo + Z.of_nat i * PAGE_SIZE)) as ->; [|done].
      unfold in_run. rewrite Z.mod_add, Hal by done. change (0 =? 0) with true. cbn [andb]. unfold PAGE_SIZE. apply eq_true_iff_eq.
      rewrite !andb_true_iff, !Z.leb_le, !Z.ltb_lt. lia.
Qed.

Lemma wp_cover_segs {St} ph lo cover (Q : list Z → St → Prop) s :
  Z.of_nat (length cover) < 2 ^ 40 →
  Forall (λ p, is_load p = true → lo mod PAGE_SIZE = 0 ∧ seg_ok size p ∧ seg_within h p ∧ placed lo (Z.of_nat (length cover)) p) ph →
  (∀ cover', length cover' = length cover →
     (∀ i c, cover !! i = Some c → cover' !! i = Some (cover_at ph (lo + Z.of_nat i * PAGE_SIZE) c)) → Q cover' s) →
  wp (cover_segs lo ph cover) Q s.
Proof.
  intros Hlen Hph. revert cover Hlen Hph. induction ph as [|p ph IH]; intros cover Hlen Hph HQ; cbn [cover_segs].
  { wp_step. by apply HQ. }
  apply Forall_cons in Hph as [Hp Hph]. wp_step. destruct (is_load p) eqn:El.
  - destruct (Hp eq_refl) as (Hal & Hok & Hw & Hlo & Hhi). destruct (seg_pages h p _ Hlow Hok Hw) as (_ & _ & Hsal & Hs0 & Hsum & Hs1).
    assert ((seg_stop p - seg_start p) / PAGE_SIZE = Z.of_nat (seg_count p)) as -> by (rewrite <-Hsum, Z.add_simpl_l, Z.div_mul by done; done).
    rewrite Nat2Z.id. set (k := Z.to_nat ((seg_start p - lo) / PAGE_SIZE)).
    assert (seg_start p = lo + Z.of_nat k * PAGE_SIZE) as Hk.
    { unfold k. rewrite Z2Nat.id by (apply Z.div_pos; [lia|done]). pose proof (Z.div_mod (seg_start p - lo) PAGE_SIZE ltac:(done)) as Hd.
      rewrite Zminus_mod, Hal, Hsal in Hd. change ((0 - 0) mod PAGE_SIZE) with 0 in Hd. lia. }
    apply (wp_cover_pages _ lo p _ k); [done|done|unfold PAGE_SIZE in *; lia|done|]. intros c1 Hl1 Hc1.
    apply IH; [by rewrite Hl1|by rewrite Hl1|]. intros c2 Hl2 Hc2. apply HQ; [by rewrite Hl2|]. intros i c Hi.
    cbn [cover_at]. rewrite El. cbn [andb]. by apply Hc2, Hc1.
  - wp_step. apply IH; [done|done|]. intros c2 Hl2 Hc2. apply HQ; [done|]. intros i c Hi. cbn [cover_at]. rewrite El. by apply Hc2.
Qed.
End cover.

Lemma seg_span_bounds h size ph lo hi lo' hi' :
  (h < 256)%nat → Forall (λ p, is_load p = true → seg_ok size p ∧ seg_within h p) ph →
  seg_span size ph lo hi = Some (lo', hi') →
  lo' ≤ lo ∧ hi ≤ hi' ∧ Forall (λ p, is_load p = true → lo' ≤ seg_start p ∧ seg_stop p ≤ hi') ph ∧
  ((∀ p, p ∈ ph → is_load p = false) ∧ lo' = lo ∧ hi' = hi ∨
   (lo' = lo ∨ lo' mod PAGE_SIZE = 0 ∧ Z.of_nat h * 2 ^ 39 ≤ lo') ∧ (hi' = hi ∨ hi' mod PAGE_SIZE = 0 ∧ hi' ≤ (Z.of_nat h + 1) * 2 ^ 39) ∧
   ∃ p, p ∈ ph ∧ is_load p = true).
Proof.
  intros Hlow. revert lo hi. induction ph as [|p ph IH]; intros lo hi Hph; cbn [seg_span].
  { intros [= -> ->]. split_and!; [lia|lia|constructor|]. left. split_and!; try done. intros p Hp. by apply not_elem_of_nil in Hp. }
  apply Forall_cons in Hph as [Hp Hph]. destruct (is_load p) eqn:El; cbn [negb].
  - destruct (_ || _); [done|]. destruct (Hp eq_refl) as [Hok Hw]. destruct (seg_pages h p _ Hlow Hok Hw) as (_ & _ & Hal & Hs0 & Hsum & Hs1).
    intros Hs. destruct (IH _ _ Hph Hs) as (H1 & H2 & H3 & H4). assert (seg_stop p mod PAGE_SIZE = 0) as Hal2 by (rewrite <-Hsum, Z.mod_add by done; done).
    assert (lo' ≤ lo ∧ lo' ≤ seg_start p) as [L1 L2] by (destruct (Z.ltb_spec (seg_start p) lo); lia).
    assert (hi ≤ hi' ∧ seg_stop p ≤ hi') as [L3 L4] by (destruct (Z.ltb_spec hi (seg_stop p)); lia).
    split_and!; [done|done|constructor; [done|exact H3]|]. right.
    assert (lo' = lo ∨ lo' mod PAGE_SIZE = 0 ∧ Z.of_nat h * 2 ^ 39 ≤ lo').
    { destruct H4 as [(_ & -> & _)|([->|?] & _)]; [| |by right]; (destruct (Z.ltb_spec (seg_start p) lo); [by right|by left]). }
    assert (hi' = hi ∨ hi' mod PAGE_SIZE = 0 ∧ hi' ≤ (Z.of_nat h + 1) * 2 ^ 39).
    { destruct H4 as [(_ & _ & ->)|(_ & [->|?] & _)]; [| |by right]; (destruct (Z.ltb_spec hi (seg_stop p)); [by right|by left]). }
    split_and!; [done|done|]. exists p. split; [by left|done].
  - intros Hs. destruct (IH _ _ Hph Hs) as (H1 & H2 & H3 & H4). split_and!; [done|done|constructor; [congruence|exact H3]|].
    destruct H4 as [(Hn & -> & ->)|(? & ? & q & Hq & Hlq)]; [left|right].
    + split_and!; try done. intros q [->|Hq]%elem_of_cons; [done|by apply Hn].
    + split_and!; try done. exists q. split; [by right|done].
Qed.

(** ** Whether a file can be loaded *)

(** The checks of the header. *)
Definition headers_ok (data : list Z) (require_entry : bool) : bool :=
  let h := ehdr_of data in
  (EHDR_SIZE <=? strlen data) && elf_valid h && (e_phentsize h =? PHDR_SIZE) && (e_phoff h <=? strlen data) &&
  (e_phnum h <=? (strlen data - e_phoff h) / PHDR_SIZE) && (negb require_entry || entry_ok (e_entry h) (phdrs data)).

Definition span_of (data : list Z) : option (Z * Z) := seg_span (strlen data) (phdrs data) (2 ^ 64 - 1) 0.

(** The header and the segments are accepted. *)
Definition valid_image (data : list Z) (require_entry : bool) : bool :=
  headers_ok data require_entry &&
  match span_of data with Some (lo, hi) => u64 (hi - lo) / PAGE_SIZE <=? ELF_MAX_SEG_PAGES | None => false end.

(** No dynamic segment: nothing to link. *)
Definition static (data : list Z) : Prop := Forall (λ p, p_type p ≠ PT_DYNAMIC) (phdrs data).

Lemma wp_image_headers {St} data req (Q : option (list elf64_phdr) → St → Prop) s :
  Forall is_u8 data → strlen data < 2 ^ 63 → Q (if headers_ok data req then Some (phdrs data) else None) s →
  wp (image_headers data req) Q s.
Proof.
  intros Hbytes Hsize. unfold image_headers, headers_ok.
  destruct (Z.ltb_spec (strlen data) EHDR_SIZE) as [|Hl]; [rewrite (proj2 (Z.leb_gt _ _)) by done; intros HQ; by wp_step|].
  rewrite (proj2 (Z.leb_le _ _)) by done. intros HQ. wp_step. apply wp_load_ehdr; [done|]. cbn [andb] in HQ.
  destruct (elf_valid _); cbn [negb andb] in *; [|by wp_step]. destruct (e_phentsize _ =? _); cbn [negb andb orb] in *; [|by wp_step].
  assert (is_u64 (e_phoff (ehdr_of data))) as Hpo by apply field_u64, Hbytes. assert (is_u16 (e_phnum (ehdr_of data))) as Hpn by apply field_u16, Hbytes.
  unfold is_u64, is_u16 in *. destruct (Z.ltb_spec (strlen data) (e_phoff (ehdr_of data))) as [|Ho]; [rewrite (proj2 (Z.leb_gt _ _)) in HQ by done; by wp_step|].
  rewrite (proj2 (Z.leb_le (e_phoff _) _)) in HQ by done. cbn [orb andb] in *.
  destruct (Z.ltb_spec ((strlen data - e_phoff (ehdr_of data)) / PHDR_SIZE) (e_phnum (ehdr_of data))) as [|Hn]; [rewrite (proj2 (Z.leb_gt _ _)) in HQ by done; by wp_step|].
  rewrite (proj2 (Z.leb_le (e_phnum _) _)) in HQ by done. cbn [orb andb] in *.
  pose proof (Z.mul_div_le (strlen data - e_phoff (ehdr_of data)) PHDR_SIZE ltac:(done)). unfold PHDR_SIZE in *.
  wp_step. apply wp_load_phdrs; [lia|unfold PHDR_SIZE; rewrite Z2Nat.id by lia; lia|]. fold (phdrs data). wp_step.
  by destruct req, (entry_ok _ _).
Qed.

(** Segments the loader accepts are accepted again. *)
Lemma scan_phdrs_static size ph lo hi :
  Forall (λ p, is_load p = true → seg_ok size p) ph → Forall (λ p, p_type p ≠ PT_DYNAMIC) ph → ∃ lo' hi', scan_phdrs size ph lo hi None = Some (lo', hi', None).
Proof.
  intros Hok Hst. revert lo hi. induction Hst as [|p ph Hp Hst IH]; intros lo hi; [by eexists _, _|].
  apply Forall_cons in Hok as [Hseg Hok]. cbn [scan_phdrs]. unfold is_load in Hseg. destruct (p_type p =? PT_LOAD) eqn:El; cbn [negb].
  - destruct (Hseg eq_refl) as [(Ho & Hf & Hs) (Hv & Hm & Ht)].
    replace ((size <? p_offset p) || (size - p_offset p <? p_filesz p)) with false by lia.
    rewrite (proj2 (Z.ltb_ge (p_memsz p) _)) by lia. rewrite (u64_small (p_vaddr p + p_filesz p)) by (unfold is_u64; lia).
    rewrite (proj2 (Z.ltb_ge (p_vaddr p + p_filesz p) _)) by lia. by apply IH.
  - rewrite (proj2 (Z.eqb_neq _ _)) by done. by apply IH.
Qed.

Lemma wp_parse_static {St} data req (Q : Z * elf_dyninfo → St → Prop) s :
  Forall is_u8 data → strlen data < 2 ^ 63 → headers_ok data req = true → Forall (λ p, is_load p = true → seg_ok (strlen data) p) (phdrs data) →
  static data → (∀ di, has_dynamic di = false → info_ok (strlen data) di → Q (0, di) s) → wp (elf_parse_dynamic data) Q s.
Proof.
  intros Hbytes Hsize Hh Hok Hst HQ. unfold headers_ok in Hh. rewrite !andb_true_iff, !Z.leb_le, Z.eqb_eq in Hh. destruct Hh as [[[[[Hl Hv] He] Ho] Hn] _].
  unfold elf_parse_dynamic. rewrite (proj2 (Z.ltb_ge _ _)) by done. wp_step. apply wp_load_ehdr; [done|].
  unfold elf_valid in Hv. rewrite !andb_true_iff, negb_true_iff in Hv. destruct Hv as [[[[Hm _] _] _] Hz].
  rewrite Hm, Hz, (proj2 (Z.eqb_eq _ _) He). cbn [negb orb]. rewrite (proj2 (Z.ltb_ge _ (e_phoff _))), (proj2 (Z.ltb_ge _ (e_phnum _))) by done. cbn [orb].
  assert (is_u64 (e_phoff (ehdr_of data))) as Hpo by apply field_u64, Hbytes. assert (is_u16 (e_phnum (ehdr_of data))) as Hpn by apply field_u16, Hbytes.
  unfold is_u64, is_u16 in *. pose proof (Z.mul_div_le (strlen data - e_phoff (ehdr_of data)) PHDR_SIZE ltac:(done)). unfold PHDR_SIZE in *.
  wp_step. apply wp_load_phdrs; [lia|unfold PHDR_SIZE; rewrite Z2Nat.id by lia; lia|]. fold (phdrs data).
  destruct (scan_phdrs_static _ _ 0 0 Hok Hst) as (lo & hi & ->). wp_step. apply HQ; [done|].
  assert (0 ≤ strlen data) by (unfold strlen; lia). unfold EHDR_SIZE in *. split; cbn; unfold SYM_SIZE, RELA_SIZE, DYNLINK_MAX_DEPS; lia.
Qed.

(** ** The whole image *)

Section image.
Context (r : Z) (h : nat) (Hh : private [h]) (Hlow : (h < 256)%nat).

(** The view moves; of the rest of the kernel only files and their memory do. *)
Record smove (x : sched) (U : upages) (x' : sched) (U' : upages) : Prop := Smove {
  sm_mem : umove r h (sc_mmu x) U (sc_mmu x') U';
  sm_rest : ∃ v, x' = put_mmu (sc_mmu x') (put_vfs v x) }.

Lemma smove_trans x1 U1 x2 U2 x3 U3 : smove x1 U1 x2 U2 → smove x2 U2 x3 U3 → smove x1 U1 x3 U3.
Proof.
  intros [H1 [v1 E1]] [H2 [v2 E2]]. split; [by eapply umove_trans|]. exists v2. rewrite E2 at 1. rewrite E1 at 1. done.
Qed.

Lemma smove_mmu x U m U' : umove r h (sc_mmu x) U m U' → smove x U (put_mmu m x) U'.
Proof. intros Hm. split; [done|]. exists (sc_vfs x). by destruct x. Qed.

Lemma smove_vfs x U v : umem (sc_mmu x) r h U → smove x U (put_vfs v x) U.
Proof. intros Hu. split; [by apply umove_refl|]. exists v. by destruct x. Qed.

Lemma smove_refl x U : umem (sc_mmu x) r h U → smove x U x U.
Proof. intros Hu. split; [by apply umove_refl|]. exists (sc_vfs x). by destruct x. Qed.

(** A file the loader can read: bytes, and what Dynlink.v asks for. *)
Record file_ok (data : list Z) : Prop := FileOk {
  fo_bytes : Forall is_u8 data;
  fo_size : strlen data < 2 ^ 63;
  fo_dynamic : dynamic_fits data;
  fo_within : image_within h data }.

(** What is known of an image that was mapped. *)
Record image_ok (data : list Z) (img : elf_image) : Prop := ImageOk {
  io_pages : 0 ≤ im_span_pages img;
  io_span : im_span_pages img = 0 ∨
    im_span_lo img mod PAGE_SIZE = 0 ∧ Z.of_nat h * 2 ^ 39 ≤ im_span_lo img ∧ im_span_lo img + im_span_pages img * PAGE_SIZE ≤ (Z.of_nat h + 1) * 2 ^ 39;
  io_segs : Forall (λ p, is_load p = true → seg_ok (strlen data) p ∧ im_span_lo img ≤ seg_start p ∧ seg_stop p ≤ im_span_lo img + im_span_pages img * PAGE_SIZE) (phdrs data);
  io_cover : ∀ i, 0 ≤ i < im_span_pages img → im_cover img !! Z.to_nat i = Some (cover_at (phdrs data) (im_span_lo img + i * PAGE_SIZE) 0);
  io_highest : im_highest img = foldl (λ m p, if is_load p then Z.max m (p_vaddr p + p_memsz p) else m) 0 (phdrs data);
  io_dyn : eo_buf (im_dyn img) = data ∧ info_ok (strlen data) (eo_info (im_dyn img)) }.

Lemma phdrs_seg_ok data lo hi res :
  file_ok data → seg_span (strlen data) (phdrs data) lo hi = Some res → Forall (λ p, is_load p = true → seg_ok (strlen data) p ∧ seg_within h p) (phdrs data).
Proof.
  intros [Hb _ _ Hw] Hs. pose proof (seg_span_ok _ _ _ _ _ (phdrs_u64 _ _ _ Hb) Hs) as Hok. unfold image_within in Hw.
  rewrite Forall_forall in *. intros p Hp El. split; [by apply Hok|by apply Hw].
Qed.

(** The span as it is computed. *)
Lemma span_facts data lo hi :
  file_ok data → span_of data = Some (lo, hi) →
  let pages := u64 (hi - lo) / PAGE_SIZE in
  (pages = 0 ∨ lo mod PAGE_SIZE = 0 ∧ Z.of_nat h * 2 ^ 39 ≤ lo ∧ lo + pages * PAGE_SIZE ≤ (Z.of_nat h + 1) * 2 ^ 39) ∧ 0 ≤ pages ∧
  Forall (λ p, is_load p = true → lo mod PAGE_SIZE = 0 ∧ seg_ok (strlen data) p ∧ lo ≤ seg_start p ∧ seg_stop p ≤ lo + pages * PAGE_SIZE) (phdrs data).
Proof.
  intros Hf Hs pages. pose proof (phdrs_seg_ok data _ _ _ Hf Hs) as Hok.
  destruct (seg_span_bounds h _ _ _ _ _ _ Hlow Hok Hs) as (_ & _ & Hin & [(Hno & -> & ->)|(Hlo & Hhi & p & Hp & El)]).
  - split_and!; [by left|done|]. apply Forall_forall. intros p Hp El. by rewrite Hno in El.
  - rewrite Forall_forall in Hok, Hin. destruct (Hok p Hp El) as [Hpo Hpw]. destruct (Hin p Hp El) as [Hl Hr].
    destruct (seg_pages h p _ Hlow Hpo Hpw) as (_ & _ & _ & Hs0 & Hsum & Hs1).
    assert (0 < h)%nat as Hpos by (destruct Hh; lia).
    destruct Hlo as [->|[Hal Hl0]]; [unfold PAGE_SIZE in *; lia|]. destruct Hhi as [->|[Hal' Hh0]]; [unfold PAGE_SIZE in *; lia|].
    assert (lo + pages * PAGE_SIZE = hi ∧ 0 ≤ pages) as [E Hp0].
    { unfold pages. rewrite u64_small by (unfold is_u64, PAGE_SIZE in *; lia).
      assert ((hi - lo) mod PAGE_SIZE = 0) as Hd by (rewrite Zminus_mod, Hal, Hal'; done).
      pose proof (Z.div_mod (hi - lo) PAGE_SIZE ltac:(done)). split; [lia|]. apply Z.div_pos; [unfold PAGE_SIZE in *; lia|done]. }
    split_and!; [right; split_and!; [done|done|by rewrite E]|done|]. apply Forall_forall. intros q Hq Eq. rewrite E. split_and!; [done|by apply Hok|by apply Hin..].
Qed.

(** Why an image may not be mapped. *)
Definition refused (data : list Z) (req : bool) (x x' : sched) : Prop :=
  valid_image data req = false ∨ None ∈ vf_heap (sc_vfs x) ∨ starved (sc_mmu x') ∨ ¬ static data.

Lemma wp_elf_map_image x U data req (Q : option elf_image → sched → Prop) :
  umem (sc_mmu x) r h U → file_ok data →
  (∀ x' U', smove x U x' U' → refused data req x x' → Q None x') →
  (∀ x' U' img, smove x U x' U' → grows (image_content data (phdrs data)) U U' → image_ok data img → valid_image data req = true →
     (static data → has_dynamic (eo_info (im_dyn img)) = false) → Q (Some img) x') →
  wp (elf_map_image r data req) Q x.
Proof.
  intros Hu Hf HQn HQs. pose proof Hf as [Hbytes Hsize Hdyn Hw]. pose proof (smove_refl x U Hu) as Hid.
  assert (valid_image data req = false → wp (mret None) Q x) as Hinv by (intros Hv; wp_step; eapply HQn; [exact Hid|by left]).
  unfold elf_map_image. wp_step. apply wp_image_headers; [done|done|]. unfold valid_image in Hinv, HQs.
  destruct (headers_ok data req) eqn:Hhd; [|by apply Hinv]. cbn [andb] in Hinv, HQs. fold (span_of data).
  destruct (span_of data) as [[lo hi]|] eqn:Hs; [|by apply Hinv].
  pose proof (span_facts data lo hi Hf Hs) as Hspan. cbv zeta in Hspan. set (pages := u64 (hi - lo) / PAGE_SIZE) in *.
  destruct Hspan as (Hspan & Hp0 & Hsegs). destruct (Z.ltb_spec ELF_MAX_SEG_PAGES pages) as [|Hmax]; [apply Hinv; lia|].
  rewrite (proj2 (Z.leb_le _ _)) in HQs by done. change ELF_MAX_SEG_PAGES with 1048576 in Hmax. clear Hinv.
  wp_step. apply wp_zoom, wp_kmalloc. intros a hp Ha _. set (x1 := put_vfs _ x). assert (smove x U x1 U) as Hm1 by (by apply smove_vfs).
  destruct a as [g|]; [|wp_step; eapply HQn; [exact Hm1|right; left; by apply Ha]]. wp_step.
  pose proof (phdrs_seg_ok data _ _ _ Hf Hs) as Hok.
  set (cover0 := zero_bytes _). assert (pages ≤ Z.of_nat (length cover0) < 2 ^ 40) as Hc0.
  { unfold cover0, zero_bytes. rewrite length_replicate. destruct (Z.eqb_spec pages 0); lia. }
  assert (∀ i, 0 ≤ i < pages → cover0 !! Z.to_nat i = Some 0) as Hc00.
  { intros i Hi. unfold cover0, zero_bytes. rewrite (proj2 (Z.eqb_neq pages 0)) by lia. apply lookup_replicate_2. lia. }
  clearbody cover0. apply (wp_cover_segs h Hlow (strlen data)); [lia| |].
  { rewrite Forall_forall in Hok, Hsegs |- *. intros p Hp El. destruct (Hsegs p Hp El) as (? & ? & ? & ?), (Hok p Hp El).
    split_and!; [done..|]. split; [done|]. unfold PAGE_SIZE in *. lia. }
  intros cover Hcl Hc. wp_step. apply wp_zoom. destruct Hm1 as [Hmm1 Hr1]. pose proof Hmm1 as [Hu1 _].
  apply (wp_map_segs r h Hh Hlow data Hbytes Hsize (sc_mmu x1) U); [done|done| |].
  { intros m U' Hm Hst. wp_step. eapply HQn; [eapply smove_trans; [by split|by apply smove_mmu]|]. right; right; by left. }
  intros m U' Hm Hg. assert (smove x U (put_mmu m x1) U') as Hm2 by (eapply smove_trans; [by split|by apply smove_mmu]).
  assert (∀ di, info_ok (strlen data) di → image_ok data (Image lo pages cover (foldl (λ m p, if is_load p then Z.max m (p_vaddr p + p_memsz p) else m) 0 (phdrs data)) false (Object data di))) as Himg.
  { intros di Hdi. split; cbn [im_span_pages im_span_lo im_cover im_highest im_dyn eo_buf eo_info]; [done|exact Hspan| | |done|done].
    - rewrite Forall_forall in Hsegs |- *. intros p Hp El. by destruct (Hsegs p Hp El) as (_ & ? & ? & ?).
    - intros i Hi. rewrite (Hc (Z.to_nat i) 0) by (by apply Hc00). by rewrite Z2Nat.id by lia. }
  wp_step. destruct (decide (static data)) as [Hst|Hst].
  - apply (wp_parse_static data req); [done..| |done|].
    { rewrite Forall_forall in Hok |- *. intros p Hp El. by destruct (Hok p Hp El). }
    intros di Hdi Hio. wp_step. cbn [Z.ltb Z.compare]. eapply HQs; [exact Hm2|exact Hg|by apply Himg|done|by intros _].
  - apply wp_parse_dynamic; [done..|]. intros ret di Hdi. wp_step. destruct (Z.ltb_spec ret 0) as [|Hret].
    { eapply HQn; [exact Hm2|]. right; right; by right. }
    destruct Hdi as [->|(-> & Hio & _ & _)]; [lia|]. eapply HQs; [exact Hm2|exact Hg|by apply Himg|done|done].
Qed.
End image.

(** ** Protection *)

(** The permissions of coverage [c]: never both writable and executable. *)
Definition cover_perm (c : Z) : perm := Perm (flag c SEG_COVER_W) true (flag c SEG_COVER_W || negb (flag c SEG_COVER_X)).

Lemma final_flags_perm c : flags_perm (final_flags c) = cover_perm c ∧ flag (final_flags c) MMU_HUGE = false.
Proof. unfold final_flags, cover_perm. by destruct (flag c SEG_COVER_W), (flag c SEG_COVER_X). Qed.

(** The first [n] pages of the span have their final permissions. *)
Definition protected (ph : list elf64_phdr) (lo : Z) (n : nat) (U : upages) : upages :=
  map_imap (λ v p, Some (if in_run lo n v then Upage (up_frame p) (cover_perm (cover_at ph v 0)) (up_bytes p) else p)) U.

Lemma protected_0 ph lo U : protected ph lo 0 U = U.
Proof.
  apply map_eq. intros v. unfold protected. rewrite map_lookup_imap. destruct (U !! v) as [p|]; [|done]. cbn.
  replace (in_run lo 0 v) with false; [done|]. unfold in_run. change (Z.of_nat 0 * PAGE_SIZE) with 0. lia.
Qed.

Lemma in_run_S lo n v :
  lo mod PAGE_SIZE = 0 → in_run lo (S n) v = in_run lo n v || bool_decide (v = lo + Z.of_nat n * PAGE_SIZE).
Proof.
  intros Hal. apply eq_true_iff_eq. unfold in_run, PAGE_SIZE in *. rewrite orb_true_iff, !andb_true_iff, bool_decide_eq_true, !Z.leb_le, !Z.ltb_lt, !Z.eqb_eq.
  pose proof (Z.div_mod v 4096 ltac:(done)). pose proof (Z.div_mod lo 4096 ltac:(done)). split; [intros ((Hv & H1) & H2)|].
  - destruct (Z.lt_ge_cases v (lo + Z.of_nat n * 4096)); [left; lia|right; lia].
  - intros [((Hv & H1) & H2)| ->]; [lia|]. rewrite Z.mod_add by done. lia.
Qed.

Lemma protected_S ph lo n U :
  lo mod PAGE_SIZE = 0 → let va := lo + Z.of_nat n * PAGE_SIZE in
  protected ph lo (S n) U = match U !! va with
    | Some p => <[va := Upage (up_frame p) (cover_perm (cover_at ph va 0)) (up_bytes p)]> (protected ph lo n U)
    | None => protected ph lo n U
    end.
Proof.
  intros Hal va. apply map_eq. intros v.
  assert (protected ph lo (S n) U !! v = (p ← U !! v; Some (if in_run lo n v || bool_decide (v = va) then Upage (up_frame p) (cover_perm (cover_at ph v 0)) (up_bytes p) else p))) as ->.
  { unfold protected. rewrite map_lookup_imap. by rewrite in_run_S. }
  assert (protected ph lo n U !! v = (p ← U !! v; Some (if in_run lo n v then Upage (up_frame p) (cover_perm (cover_at ph v 0)) (up_bytes p) else p))) as Hn.
  { unfold protected. by rewrite map_lookup_imap. }
  destruct (decide (v = va)) as [->|Hne].
  - rewrite bool_decide_true, orb_true_r by done. destruct (U !! va) as [p|] eqn:Hp; [by rewrite lookup_insert_eq|]. by rewrite Hn.
  - rewrite bool_decide_false, orb_false_r by done. destruct (U !! va) as [p|]; [rewrite lookup_insert_ne by done|]; by rewrite Hn.
Qed.

Section protect.
Context (r : Z) (h : nat) (Hh : private [h]) (Hlow : (h < 256)%nat).

Lemma wp_image_readonly s U data img (Q : bool → mmu → Prop) :
  umem s r h U → image_ok h data img →
  (∀ s', umove r h s U s' (protected (phdrs data) (im_span_lo img) (Z.to_nat (im_span_pages img)) U) → Q true s') →
  wp (elf_image_readonly r img) Q s.
Proof.
  intros Hu [Hp0 Hspan _ Hcov _ _] HQ. set (lo := im_span_lo img) in *. set (n := im_span_pages img) in *. set (ph := phdrs data) in *.
  unfold elf_image_readonly. fold lo n. wp_step.
  apply (wp_for_ret (λ i s', 0 ≤ i ∧ umove r h s U s' (protected ph lo (Z.to_nat i) U))).
  - split; [done|]. change (Z.to_nat 0) with 0%nat. rewrite protected_0. by apply umove_refl.
  - intros i s1 Hi (Hi0 & Hm1). pose proof Hm1 as [Hu1 _]. rewrite Z2Nat.id in Hi by done.
    destruct Hspan as [Hz|(Hal & Hl & Hr)]; [lia|]. set (va := lo + i * PAGE_SIZE).
    assert (in_entry h va) as Hin by (unfold in_entry, va, PAGE_SIZE in *; lia).
    assert (va mod PAGE_SIZE = 0) as Hva by (unfold va; by rewrite Z.mod_add).
    pose proof (in_entry_range h Hlow va Hin). rewrite u64_small by (unfold is_u64; lia).
    pose proof (protected_S ph lo (Z.to_nat i) U Hal) as HS. cbv zeta in HS. rewrite Z2Nat.id in HS by done. fold va in HS.
    replace (Z.to_nat (i + 1)) with (S (Z.to_nat i)) by lia.
    assert (protected ph lo (Z.to_nat i) U !! va = U !! va) as Hsame.
    { unfold protected. rewrite map_lookup_imap. destruct (U !! va) as [p|]; [|done]. cbn. replace (in_run lo (Z.to_nat i) va) with false; [done|].
      symmetry. unfold in_run. apply andb_false_iff. right. unfold va. rewrite Z2Nat.id by done. lia. }
    wp_step. apply (wp_query r h Hh Hlow s1 _ va _ Hu1 Hin). intros s2 Hm2. rewrite page_base_aligned, Hsame by done.
    destruct (U !! va) as [p|] eqn:Hp.
    + destruct (um_page _ _ _ _ Hu va p Hp) as (_ & _ & y & l & _ & _ & _ & Hl' & _). pose proof (he_range _ _ _ _ Hl').
      change 0xFFF with (2 ^ 12 - 1). rewrite land_ones_mod by done. change (2 ^ 12) with PAGE_SIZE. rewrite Hva, Z.lor_0_r.
      rewrite (proj2 (Z.eqb_neq _ _)) by (unfold PAGE_SIZE; lia). wp_step. eapply wp_load; [done|apply Hcov; lia|]. fold va.
      destruct (final_flags_perm (cover_at ph va 0)) as [Hfp Hfh]. wp_step. pose proof Hm2 as [Hu2 _].
      eapply (wp_protect r h Hh Hlow s2 _ va); [exact Hu2|exact Hsame|exact Hfh|]. intros s3 Hm3. cbn [Z.ltb Z.compare]. wp_step.
      split; [lia|]. rewrite HS, <-Hfp. eapply umove_trans; [|exact Hm3]. by eapply umove_trans.
    + cbn [Z.eqb]. wp_step. split; [lia|]. rewrite HS. by eapply umove_trans.
  - intros s1 (_ & Hm). wp_step. apply HQ. replace (Z.to_nat (0 + Z.of_nat (Z.to_nat n))) with (Z.to_nat n) in Hm by lia. exact Hm.
Qed.
End protect.
