(* ===== verification/ElfStack.v ===== *)
(** * ElfStack: the stack a program starts on

    [setup_user_stack] of kernel/elf.c over the view of Umem.v: where the
    strings and the vectors go, and that user code reads them back. *)

From S2P Require Import Prelude BootMap Pmm Mmu Kmem Umem CString Packet Security VfsPath Vfs Sched SchedQueue Fds SchedSpawn SchedRun Syscall Dynlink Elf.

#[local] Arguments for_up : simpl never.
#[local] Arguments for_ret : simpl never.

(** ** Bytes in user memory *)

(** The bytes [bs] are at [v]. *)
Definition holds (U : upages) (v : Z) (bs : list Z) : Prop :=
  ∀ k, 0 ≤ k < Z.of_nat (length bs) → ubyte U (v + k) = bs !! Z.to_nat k.

(** The same pages, and the same bytes except from [lo] to [hi]. *)
Record changed (lo hi : Z) (U U' : upages) : Prop := Changed {
  ch_pages : ∀ v, (λ p, (up_frame p, up_perm p)) <$> U' !! v = (λ p, (up_frame p, up_perm p)) <$> U !! v;
  ch_bytes : ∀ v, v < lo ∨ hi ≤ v → ubyte U' v = ubyte U v }.

Lemma changed_refl lo hi U : changed lo hi U U.
Proof. by split. Qed.

Lemma changed_trans lo hi U1 U2 U3 : changed lo hi U1 U2 → changed lo hi U2 U3 → changed lo hi U1 U3.
Proof. intros [Hp1 Hb1] [Hp2 Hb2]. split; intros v; [by rewrite Hp2|]. intros Hv. by rewrite Hb2, Hb1. Qed.

Lemma changed_mono lo hi lo' hi' U U' : lo' ≤ lo → hi ≤ hi' → changed lo hi U U' → changed lo' hi' U U'.
Proof. intros ? ? [Hp Hb]. split; [done|]. intros v Hv. apply Hb. lia. Qed.

Lemma changed_writable lo hi U U' v : changed lo hi U U' → writable U v → writable U' v.
Proof.
  intros [Hp _] (p & Hv & Hw). specialize (Hp (page_base v)). rewrite Hv in Hp. cbn in Hp.
  destruct (U' !! page_base v) as [q|] eqn:Hq; [|done]. injection Hp as _ Hq'. exists q. split; [done|congruence].
Qed.

Lemma holds_changed lo hi U U' v bs : changed lo hi U U' → v + Z.of_nat (length bs) ≤ lo ∨ hi ≤ v → holds U v bs → holds U' v bs.
Proof. intros [_ Hb] Hr Hh k Hk. rewrite Hb by lia. by apply Hh. Qed.

Lemma holds_app U v bs cs : holds U v bs → holds U (v + Z.of_nat (length bs)) cs → holds U v (bs ++ cs).
Proof.
  intros Hb Hc k Hk. rewrite length_app in Hk. destruct (Z.lt_ge_cases k (Z.of_nat (length bs))).
  - rewrite lookup_app_l by lia. apply Hb. lia.
  - rewrite lookup_app_r by lia. replace (v + k) with (v + Z.of_nat (length bs) + (k - Z.of_nat (length bs))) by lia.
    rewrite Hc by lia. f_equal. lia.
Qed.

Lemma puts_pages v bs U w : (λ p, (up_frame p, up_perm p)) <$> puts v bs U !! w = (λ p, (up_frame p, up_perm p)) <$> U !! w.
Proof.
  revert v U. induction bs as [|b bs IH]; intros v U; cbn [puts]; [done|]. rewrite IH. unfold put.
  destruct (decide (w = page_base v)) as [->|Hne]; [|by rewrite lookup_alter_ne].
  rewrite lookup_alter_eq. by destruct (U !! page_base v).
Qed.

Lemma um_ubyte s r h U v : umem s r h U → writable U v → is_Some (ubyte U v).
Proof.
  intros Hu (p & Hp & _). unfold ubyte. rewrite Hp. simpl. apply lookup_lt_is_Some. rewrite (um_length r h s U _ p Hu Hp).
  pose proof (Z.mod_pos_bound v PAGE_SIZE ltac:(done)). lia.
Qed.

Lemma forall2_impl_in {A B} (P Q : A → B → Prop) l k : Forall2 P l k → (∀ x y, x ∈ l → P x y → Q x y) → Forall2 Q l k.
Proof. induction 1; intros HQ; constructor; [apply HQ; [by left|done]|]. apply IHForall2. intros. apply HQ; [by right|done]. Qed.

(** Pages out of the range are the same. *)
Lemma changed_page lo hi s s' r h U U' v :
  changed lo hi U U' → umem s r h U → umem s' r h U' → v mod PAGE_SIZE = 0 → v + PAGE_SIZE ≤ lo ∨ hi ≤ v → U' !! v = U !! v.
Proof.
  intros [Hp Hb] Hu Hu' Hal Hr. specialize (Hp v). destruct (U' !! v) as [p'|] eqn:E', (U !! v) as [p|] eqn:E; [|done..].
  injection Hp as Hf Hpm. f_equal. assert (up_bytes p' = up_bytes p) as Hbs; [|destruct p, p'; cbn in *; congruence].
  apply list_eq. intros k. destruct (decide (k < Z.to_nat PAGE_SIZE)%nat) as [Hk|Hk].
  - destruct (page_base_offset v (Z.of_nat k) Hal) as [Eb Em]; [lia|]. pose proof (Hb (v + Z.of_nat k)) as Hub. unfold ubyte in Hub.
    rewrite Eb, Em, E, E', Nat2Z.id in Hub. apply Hub. unfold PAGE_SIZE in *. lia.
  - rewrite !lookup_ge_None_2; [done|rewrite (um_length r h s U v p Hu E); lia|rewrite (um_length r h s' U' v p' Hu' E'); lia].
Qed.

(** ** Where things go *)

(** Each string ends where the one before it begins. *)
Fixpoint string_ptrs (sp : Z) (strs : list (list Z)) : list Z :=
  match strs with
  | [] => []
  | s :: strs => sp - (strlen s + 1) :: string_ptrs (sp - (strlen s + 1)) strs
  end.
Definition strings_size (strs : list (list Z)) : Z := foldr (λ s n, strlen s + 1 + n) 0 strs.

Lemma strings_size_nonneg strs : 0 ≤ strings_size strs.
Proof. induction strs as [|s strs IH]; simpl; unfold strlen in *; lia. Qed.

Lemma string_ptrs_length sp strs : length (string_ptrs sp strs) = length strs.
Proof. revert sp. induction strs as [|s strs IH]; intros sp; simpl; [done|]. by rewrite IH. Qed.

Lemma string_ptrs_range sp strs : Forall (λ p, sp - strings_size strs ≤ p < sp) (string_ptrs sp strs).
Proof.
  revert sp. induction strs as [|s strs IH]; intros sp; simpl; [constructor|]. pose proof (strings_size_nonneg strs).
  assert (0 ≤ strlen s) by (unfold strlen; lia). constructor; [lia|]. eapply Forall_impl; [apply IH|]. simpl. lia.
Qed.

Lemma align16_spec x : 0 ≤ x < 2 ^ 64 → align16 x = x / 16 * 16.
Proof.
  intros Hx. unfold align16. change (u64 (Z.lnot 0xF)) with (Z.ldiff (Z.ones 64) (Z.ones 4)). rewrite Z.land_comm.
  change 16 with (2 ^ 4). rewrite <-Z.shiftl_mul_pow2, <-Z.shiftr_div_pow2 by done. apply Z.bits_inj'. intros i Hi.
  rewrite Z.land_spec, Z.ldiff_spec, !Z.testbit_ones by done. destruct (Z.ltb_spec i 4) as [Hlt|Hge].
  - rewrite Z.shiftl_spec_low by done. replace (0 <=? i) with true by lia. by rewrite andb_false_r.
  - rewrite Z.shiftl_spec, Z.shiftr_spec by lia. replace (i - 4 + 4) with i by lia. rewrite andb_false_r, andb_true_r.
    destruct (Z.ltb_spec i 64); [by replace (0 <=? i) with true by lia|]. rewrite (testbit_small x 64) by lia. by rewrite andb_false_r.
Qed.

(** What [crt0] expects at [base]: the count, the argument pointers, a null,
    the environment pointers, a null; every pointer leads to its string. *)
Definition start_stack (U : upages) (base top : Z) (argv envp : list (list Z)) : Prop :=
  base mod 16 = 0 ∧ base < top ∧ ∃ ps es,
    holds U base (bytes_of ([Z.of_nat (length argv)] ++ ps ++ [0] ++ es ++ [0])) ∧
    Forall2 (λ p s, holds U p (s ++ [0])) ps argv ∧ Forall2 (λ p s, holds U p (s ++ [0])) es envp ∧
    Forall (λ p, base < p < top) (ps ++ es).

Section stack.
Context (r : Z) (h : nat) (Hlow : (h < 256)%nat).

(** One run of bytes in a range that may be written. *)
Lemma wp_ustore_range s U v bs lo hi (Q : unit → mmu → Prop) :
  umem s r h U → Forall is_u8 bs → (∀ w, lo ≤ w < hi → writable U w) → lo ≤ v → v + Z.of_nat (length bs) ≤ hi →
  (∀ s' U', umove r h s U s' U' → changed v (v + Z.of_nat (length bs)) U U' → holds U' v bs → Q tt s') → wp (ustore v bs) Q s.
Proof.
  intros Hu Hbs Hw Hlo Hhi HQ. assert (∀ k, 0 ≤ k < Z.of_nat (length bs) → is_Some (ubyte U (v + k))) as Hs.
  { intros k Hk. eapply um_ubyte; [done|]. apply Hw. lia. }
  apply (wp_ustore r h Hlow s U); [done|done|intros k Hk; apply Hw; lia|]. intros s' Hm. apply (HQ s' _ Hm).
  - split; [apply puts_pages|]. intros w Hr. rewrite ubyte_puts by done. by rewrite decide_False by lia.
  - intros k Hk. rewrite ubyte_puts by done. rewrite decide_True by lia. do 2 f_equal. lia.
Qed.

Lemma wp_push_strings strs s U sp lo (Q : Z * list Z → mmu → Prop) :
  umem s r h U → Forall (Forall is_u8) strs → (∀ w, lo ≤ w < sp → writable U w) → 0 ≤ lo → lo ≤ sp - strings_size strs → sp < 2 ^ 64 →
  (∀ s' U', umove r h s U s' U' → changed (sp - strings_size strs) sp U U' →
     Forall2 (λ p x, holds U' p (x ++ [0])) (string_ptrs sp strs) strs → Q (sp - strings_size strs, string_ptrs sp strs) s') →
  wp (push_strings sp strs) Q s.
Proof.
  intros Hu Hstrs. revert s U sp Q Hu. induction Hstrs as [|x strs Hx Hstrs IH]; intros s U sp Q Hu Hw Hlo Hsz Hsp HQ; cbn [push_strings].
  { wp_step. simpl in HQ. rewrite Z.sub_0_r in HQ. eapply HQ; [by apply umove_refl|apply changed_refl|constructor]. }
  cbn [strings_size string_ptrs foldr] in *. fold (strings_size strs) in *. pose proof (strings_size_nonneg strs) as Hn.
  assert (0 ≤ strlen x) as Hl by (unfold strlen; lia). rewrite u64_small by (unfold is_u64; lia). set (sp1 := sp - (strlen x + 1)) in *.
  assert (Z.of_nat (length (x ++ [0])) = strlen x + 1) as El by (rewrite length_app; unfold strlen; simpl; lia).
  wp_step. apply (wp_ustore_range s U _ _ lo sp); [done| |done|unfold sp1; lia|unfold sp1; lia|].
  { apply Forall_app. split; [done|]. by repeat constructor. }
  intros s1 U1 Hm1 Hc1 Hh1. rewrite El in Hc1. replace (sp1 + (strlen x + 1)) with sp in Hc1 by (unfold sp1; lia). pose proof Hm1 as [Hu1 _]. wp_step. apply (IH s1 U1 sp1); [done| |done|unfold sp1; lia|unfold sp1; lia|].
  { intros w Hr. eapply changed_writable; [exact Hc1|]. apply Hw. unfold sp1 in Hr. lia. }
  intros s2 U2 Hm2 Hc2 Hf2. wp_step. replace (sp - (strlen x + 1 + strings_size strs)) with (sp1 - strings_size strs) in HQ by (unfold sp1; lia).
  apply (HQ s2 U2); [by eapply umove_trans| |].
  - eapply changed_trans; [eapply changed_mono; [| |exact Hc1]|eapply changed_mono; [| |exact Hc2]]; unfold sp1; lia.
  - constructor; [|exact Hf2]. eapply holds_changed; [exact Hc2|right; lia|exact Hh1].
Qed.

Lemma wp_store_down ws s U w lo hi (Q : unit → mmu → Prop) :
  umem s r h U → (∀ v, lo ≤ v < hi → writable U v) → 8 ≤ lo → hi < 2 ^ 64 → w + 8 ≤ hi → lo ≤ w - 8 * (Z.of_nat (length ws) - 1) →
  (∀ s' U', umove r h s U s' U' → changed (w - 8 * (Z.of_nat (length ws) - 1)) (w + 8) U U' →
     holds U' (w - 8 * (Z.of_nat (length ws) - 1)) (bytes_of (reverse ws)) → Q tt s') →
  wp (store_down w ws) Q s.
Proof.
  revert s U w Q. induction ws as [|x ws IH]; intros s U w Q Hu Hw Hlo Hhi Hwh Hwl HQ; cbn [store_down].
  { wp_step. apply (HQ s U); [by apply umove_refl|apply changed_refl|]. intros k Hk. cbn in Hk. lia. }
  cbn [length] in *. rewrite Nat2Z.inj_succ in *. set (n := Z.of_nat (length ws)) in *.
  replace (w - 8 * (Z.succ n - 1)) with (w - 8 - 8 * (n - 1)) in * by lia. assert (0 ≤ n) as Hn by (unfold n; lia).
  wp_step. apply (wp_ustore_range s U _ _ lo hi); [done| |done|lia|rewrite word_bytes_length; lia|].
  { apply Forall_fmap, Forall_true. intros k. apply get_byte_u8. }
  rewrite word_bytes_length. intros s1 U1 Hm1 Hc1 Hh1. pose proof Hm1 as [Hu1 _].
  destruct ws as [|y ws].
  { cbn [store_down]. wp_step. replace (w - 8 - 8 * (n - 1)) with w in HQ by (unfold n; simpl; lia). apply (HQ s1 U1); [done|done|]. exact Hh1. }
  assert (1 ≤ n) by (unfold n; simpl; lia). rewrite u64_small by (unfold is_u64; lia).
  apply (IH s1 U1 (w - 8)); [done| |done|done|lia|fold n; lia|fold n].
  { intros v Hv. eapply changed_writable; [exact Hc1|by apply Hw]. }
  intros s2 U2 Hm2 Hc2 Hh2. replace (w - 8 + 8) with w in Hc2 by lia. apply (HQ s2 U2); [by eapply umove_trans| |].
  - eapply changed_trans; [eapply changed_mono; [| |exact Hc1]|eapply changed_mono; [| |exact Hc2]]; lia.
  - rewrite reverse_cons. unfold bytes_of in *. rewrite bind_app. apply holds_app; [exact Hh2|].
    fold (bytes_of (reverse (y :: ws))). rewrite bytes_of_length, length_reverse, Nat2Z.inj_mul. fold n. cbn [mbind list_bind]. rewrite app_nil_r.
    replace (w - 8 - 8 * (n - 1) + Z.of_nat 8 * n) with w by lia. eapply holds_changed; [exact Hc2|right; lia|exact Hh1].
Qed.

(** Strings and vectors fit the stack. *)
Definition args_fit (argv envp : list (list Z)) : Prop :=
  (length argv ≤ 32)%nat ∧ (length envp ≤ 32)%nat ∧ Forall (Forall is_u8) argv ∧ Forall (Forall is_u8) envp ∧
  strings_size argv + strings_size envp + 8 * (Z.of_nat (length argv) + Z.of_nat (length envp) + 3) + 32 ≤ stack_pages * PAGE_SIZE.

Lemma wp_setup_user_stack s U stack argv envp (Q : option Z → mmu → Prop) :
  umem s r h U → stack mod PAGE_SIZE = 0 → (∀ w, stack ≤ w < stack + stack_pages * PAGE_SIZE → writable U w) →
  8 ≤ stack → stack + stack_pages * PAGE_SIZE < 2 ^ 64 → args_fit argv envp →
  (∀ s' U' base, umove r h s U s' U' → changed stack (stack + stack_pages * PAGE_SIZE) U U' → stack ≤ base →
     start_stack U' base (stack + stack_pages * PAGE_SIZE) argv envp → Q (Some base) s') →
  wp (setup_user_stack stack stack_pages argv envp) Q s.
Proof.
  intros Hu Hal Hw Hst Htop (Ha32 & He32 & Hab & Heb & Hfit) HQ. unfold setup_user_stack. rewrite !take_ge by done.
  set (top := stack + stack_pages * PAGE_SIZE) in *. pose proof (strings_size_nonneg argv) as Hsa. pose proof (strings_size_nonneg envp) as Hse.
  set (na := Z.of_nat (length argv)) in *. set (ne := Z.of_nat (length envp)) in *. assert (0 ≤ na ∧ 0 ≤ ne) as [Hna Hne] by lia.
  assert (top mod 16 = 0) as Ht16.
  { unfold top, stack_pages, PAGE_SIZE in *. pose proof (Z.div_mod stack 4096). replace (stack + 32 * 4096) with ((stack / 4096 * 256 + 8192) * 16) by lia. by apply Z.mod_mul. }
  assert (stack_pages * PAGE_SIZE = 131072) as Esz by done. rewrite Esz in *.
  rewrite (u64_small top) by (unfold is_u64; lia). rewrite (align16_spec top) by lia.
  replace (top / 16 * 16) with top by (pose proof (Z.div_mod top 16); lia).
  wp_step. apply (wp_push_strings argv s U top stack); [done|done|done|lia|lia|done|]. intros s1 U1 Hm1 Hc1 Hf1. set (sp1 := top - strings_size argv) in *.
  pose proof Hm1 as [Hu1 _]. wp_step. apply (wp_push_strings envp s1 U1 sp1 stack); [done|done| |lia|lia|lia|].
  { intros w Hr. eapply changed_writable; [exact Hc1|]. apply Hw. lia. }
  intros s2 U2 Hm2 Hc2 Hf2. set (sp2 := sp1 - strings_size envp) in *. pose proof Hm2 as [Hu2 _].
  set (ps := string_ptrs top argv) in *. set (es := string_ptrs sp1 envp) in *.
  rewrite (align16_spec sp2) by lia. set (str_lo := sp2 / 16 * 16).
  assert (sp2 - 15 ≤ str_lo ≤ sp2 ∧ str_lo mod 16 = 0) as [Hlo Hlo16].
  { unfold str_lo. split; [pose proof (Z.div_mod sp2 16 ltac:(done)); pose proof (Z.mod_pos_bound sp2 16 ltac:(done)); lia|by apply Z.mod_mul]. }
  rewrite (u64_small (str_lo - _)) by (unfold is_u64; lia). rewrite align16_spec by lia. set (x := str_lo - 8 * (na + ne + 3)). set (base := x / 16 * 16).
  assert (x - 15 ≤ base ≤ x ∧ base mod 16 = 0) as [Hb Hb16].
  { unfold base. split; [pose proof (Z.div_mod x 16 ltac:(done)); pose proof (Z.mod_pos_bound x 16 ltac:(done)); lia|by apply Z.mod_mul]. }
  clearbody base. unfold x in Hb. clear x. rewrite (proj2 (Z.ltb_ge _ _)) by lia. rewrite u64_small by (unfold is_u64; lia).
  assert (length ([0] ++ reverse es ++ [0] ++ reverse ps) = (length argv + length envp + 2)%nat) as Elen.
  { rewrite !length_app, !length_reverse. unfold es, ps. rewrite !string_ptrs_length. simpl. lia. }
  assert (changed stack top U U2) as Hc02.
  { eapply changed_trans; [eapply changed_mono; [| |exact Hc1]|eapply changed_mono; [| |exact Hc2]]; lia. }
  wp_step. apply (wp_store_down _ s2 U2 _ stack top); [done| |done|done|lia|rewrite Elen; lia|].
  { intros w Hr. eapply changed_writable; [exact Hc02|by apply Hw]. }
  rewrite Elen. replace (base + 8 * (na + ne + 2) - 8 * (Z.of_nat (length argv + length envp + 2) - 1)) with (base + 8) by lia.
  replace (base + 8 * (na + ne + 2) + 8) with (base + 8 * (na + ne + 3)) by lia.
  intros s3 U3 Hm3 Hc3 Hh3. pose proof Hm3 as [Hu3 _]. assert (changed stack top U U3) as Hc03 by (eapply changed_trans; [exact Hc02|]; eapply changed_mono; [| |exact Hc3]; lia).
  wp_step. apply (wp_ustore_range s3 U3 _ _ stack top); [done| | |lia|rewrite word_bytes_length; lia|].
  { apply Forall_fmap, Forall_true. intros k. apply get_byte_u8. }
  { intros w Hr. eapply changed_writable; [exact Hc03|by apply Hw]. }
  rewrite word_bytes_length. intros s4 U4 Hm4 Hc4 Hh4. wp_step.
  assert (∀ p s, sp2 ≤ p → holds U2 p s → holds U4 p s) as Hkeep.
  { intros p y Hp Hy. eapply holds_changed; [exact Hc4|right; lia|]. eapply holds_changed; [exact Hc3|right; lia|exact Hy]. }
  pose proof (string_ptrs_range top argv) as Hr1. pose proof (string_ptrs_range sp1 envp) as Hr2. fold ps in Hr1. fold es in Hr2. fold sp1 in Hr1. fold sp2 in Hr2.
  apply (HQ s4 U4 base); [eapply umove_trans; [|exact Hm4]; eapply umove_trans; [|exact Hm3]; by eapply umove_trans| |lia|].
  { eapply changed_trans; [exact Hc03|]. eapply changed_mono; [| |exact Hc4]; lia. }
  split; [done|]. split; [lia|]. exists ps, es. split_and!.
  - change (bytes_of ([na] ++ ?l)) with (word_bytes na ++ bytes_of l). apply holds_app; [exact Hh4|]. rewrite word_bytes_length.
    eapply holds_changed; [exact Hc4|right; lia|]. replace (ps ++ [0] ++ es ++ [0]) with (reverse ([0] ++ reverse es ++ [0] ++ reverse ps)); [exact Hh3|].
    rewrite !reverse_app, !reverse_involutive, <-!app_assoc. done.
  - rewrite Forall_forall in Hr1. eapply forall2_impl_in; [exact Hf1|].
    intros p y Hp Hy. specialize (Hr1 p Hp). apply Hkeep; [lia|]. eapply holds_changed; [exact Hc2|right; lia|exact Hy].
  - rewrite Forall_forall in Hr2. eapply forall2_impl_in; [exact Hf2|].
    intros p y Hp Hy. specialize (Hr2 p Hp). apply Hkeep; [lia|exact Hy].
  - apply Forall_app. split; [eapply Forall_impl; [exact Hr1|]|eapply Forall_impl; [exact Hr2|]]; simpl; lia.
Qed.
End stack.
