(* ===== verification/ElfLoad.v ===== *)
(** * ElfLoad: what a loaded program finds in its memory

    [elf_load] of kernel/elf.c as a whole, for programs without a dynamic
    segment: the segments with their bytes ([segs_loaded], byte by byte, with the
    two exceptions of the code) and permissions, the stack with its arguments,
    and nothing else. *)

From Stdlib Require Import String.
From S2P Require Import Prelude BootMap Pmm Mmu Kmem Umem CString Packet Security VfsPath Vfs Sched SchedQueue Fds SchedSpawn SchedRun Syscall Dynlink Elf ElfMap ElfStack.

#[local] Arguments for_up : simpl never.
#[local] Arguments for_ret : simpl never.

(** ** Where the parts are *)

(** The end of the highest segment. *)
Definition image_end (data : list Z) : Z := foldl (λ m p, if is_load p then Z.max m (p_vaddr p + p_memsz p) else m) 0 (phdrs data).

(** The page that stays unmapped, and the stack above it. *)
Definition guard_page (data : list Z) : Z := page_floor (u64 (image_end data + 0x10000 + 0xFFF)).
Definition stack_start (data : list Z) : Z := u64 (guard_page data + PAGE_SIZE).

Definition stack_perm : perm := flags_perm (Z.lor (Z.lor MMU_USER MMU_WRITE) MMU_NX).
Definition stack_count : nat := Z.to_nat stack_pages.

(** The memory of a program that starts with stack pointer [sp]. *)
Record program (data : list Z) (argv envp : list (list Z)) (U : upages) (sp : Z) : Prop := Program {
  pg_image : ∀ v bs, image_content data (phdrs data) v = Some bs → ∃ f, U !! v = Some (Upage f (cover_perm (cover_at (phdrs data) v 0)) bs);
  pg_stack : ∀ v, in_run (stack_start data) stack_count v = true → ∃ f bs, U !! v = Some (Upage f stack_perm bs);
  pg_only : ∀ v, is_Some (U !! v) → is_Some (image_content data (phdrs data) v) ∨ in_run (stack_start data) stack_count v = true;
  pg_guard : U !! guard_page data = None;
  pg_args : stack_start data ≤ sp ∧ start_stack U sp (stack_start data + stack_pages * PAGE_SIZE) argv envp }.

(** ** Segments and pages *)

Lemma in_run_spec va n v : in_run va n v = true ↔ v mod PAGE_SIZE = 0 ∧ va ≤ v < va + Z.of_nat n * PAGE_SIZE.
Proof. unfold in_run. rewrite !andb_true_iff, Z.eqb_eq, Z.leb_le, Z.ltb_lt. tauto. Qed.

Lemma in_run_out va n v : v < va ∨ va + Z.of_nat n * PAGE_SIZE ≤ v → in_run va n v = false.
Proof. intros Hv. destruct (in_run va n v) eqn:E; [|done]. apply in_run_spec in E. lia. Qed.

Lemma page_in_run stack n w :
  stack mod PAGE_SIZE = 0 → stack ≤ w < stack + Z.of_nat n * PAGE_SIZE → in_run stack n (page_base w) = true.
Proof.
  intros Hal Hw. unfold in_run. rewrite page_base_mod. cbn [andb Z.eqb]. pose proof (page_base_le w).
  unfold page_base, PAGE_SIZE in *. pose proof (Z.div_mod stack 4096 ltac:(done)). rewrite andb_true_iff, Z.leb_le, Z.ltb_lt. split; [|lia].
  pose proof (Z.div_le_mono stack w 4096). lia.
Qed.

(** A page of the image belongs to a segment. *)
Lemma image_content_seg data ph v bs :
  image_content data ph v = Some bs → ∃ p, p ∈ ph ∧ is_load p = true ∧ in_run (seg_start p) (seg_count p) v = true.
Proof.
  induction ph as [|p ph IH]; [done|]. cbn [image_content]. unfold first_of, seg_content, run_content.
  destruct (is_load p) eqn:El; [destruct (in_run _ _ _) eqn:E|].
  - intros _. exists p. split_and!; [by left|done|done].
  - intros (q & ? & ? & ?)%IH. exists q. split_and!; [by right|done|done].
  - intros (q & ? & ? & ?)%IH. exists q. split_and!; [by right|done|done].
Qed.

Lemma image_end_fold m ph :
  m ≤ foldl (λ m p, if is_load p then Z.max m (p_vaddr p + p_memsz p) else m) m ph ∧
  ∀ p, p ∈ ph → is_load p = true → p_vaddr p + p_memsz p ≤ foldl (λ m p, if is_load p then Z.max m (p_vaddr p + p_memsz p) else m) m ph.
Proof.
  revert m. induction ph as [|q ph IH]; intros m; simpl; [split; [done|intros p Hp; by apply not_elem_of_nil in Hp]|].
  destruct (IH (if is_load q then Z.max m (p_vaddr q + p_memsz q) else m)) as [H1 H2].
  split; [destruct (is_load q); lia|]. intros p [->|Hp]%elem_of_cons El; [rewrite El in *; lia|by apply H2].
Qed.

(** A file the loader runs in root entry [h]: [file_ok], nothing to link, and
    room for the stack behind it. *)
Record exe_ok (h : nat) (data : list Z) : Prop := ExeOk {
  xo_file : file_ok h data;
  xo_static : static data;
  xo_room : image_end data + 2 ^ 18 ≤ (Z.of_nat h + 1) * 2 ^ 39 }.

Section layout.
Context (h : nat) (Hlow : (h < 256)%nat) (data : list Z) (Hx : exe_ok h data) (Hv : valid_image data true = true).

Lemma exe_segs : Forall (λ p, is_load p = true → seg_ok (strlen data) p ∧ seg_within h p) (phdrs data).
Proof.
  unfold valid_image in Hv. destruct (headers_ok data true); [|done]. destruct (span_of data) as [[lo hi]|] eqn:Hs; [|done].
  eapply phdrs_seg_ok; [apply (xo_file _ _ Hx)|exact Hs].
Qed.

Lemma exe_end : Z.of_nat h * 2 ^ 39 ≤ image_end data.
Proof.
  pose proof Hv as Hv'. unfold valid_image in Hv'. apply andb_true_iff in Hv' as [Hh _]. unfold headers_ok in Hh. apply andb_true_iff in Hh as [_ He].
  cbn [negb orb] in He. unfold entry_ok in He. apply existsb_exists in He as (p & Hin & Hp). rewrite !andb_true_iff in Hp. destruct Hp as [[[El _] _] _].
  pose proof exe_segs as Hseg. rewrite Forall_forall in Hseg. apply list_elem_of_In in Hin. destruct (Hseg p Hin El) as [[(_ & Hf & _) (_ & Hm & _)] [Hw _]].
  pose proof (proj2 (image_end_fold 0 (phdrs data)) p Hin El). unfold image_end. lia.
Qed.

Lemma exe_layout :
  guard_page data mod PAGE_SIZE = 0 ∧ image_end data + 0x10000 ≤ guard_page data ∧ stack_start data = guard_page data + PAGE_SIZE ∧
  stack_start data + stack_pages * PAGE_SIZE ≤ (Z.of_nat h + 1) * 2 ^ 39.
Proof.
  pose proof exe_end as He. destruct Hx as [_ _ Hr]. unfold stack_start, guard_page. rewrite (u64_small (image_end data + _ + _)) by (unfold is_u64; lia).
  rewrite page_floor_base by lia. set (y := image_end data + 0x10000 + 0xFFF). pose proof (page_base_le y) as Hb. pose proof (page_base_mod y) as Hm.
  change (stack_pages * PAGE_SIZE) with 131072. unfold y, PAGE_SIZE in *. rewrite u64_small by (unfold is_u64; lia). split_and!; [done|lia|done|lia].
Qed.

(** The image lies below the guard page. *)
Lemma image_below v bs : image_content data (phdrs data) v = Some bs → v mod PAGE_SIZE = 0 ∧ v < guard_page data.
Proof.
  intros (p & Hin & El & Hr)%image_content_seg. pose proof exe_segs as Hseg. rewrite Forall_forall in Hseg. destruct (Hseg p Hin El) as [Hok Hw].
  destruct (seg_pages h p _ Hlow Hok Hw) as (_ & E & _ & _ & Hsum & _). destruct exe_layout as (_ & Hg & _).
  pose proof (proj2 (image_end_fold 0 (phdrs data)) p Hin El) as He. unfold image_end in Hg.
  pose proof (page_base_le (p_vaddr p + p_memsz p + 0xFFF)). unfold in_run in Hr. rewrite !andb_true_iff, Z.ltb_lt, Z.eqb_eq in Hr. split; [tauto|].
  rewrite Hsum, E in Hr. lia.
Qed.
End layout.

(** ** The bytes of the segments *)

(** The loader maps page [v] for segment [p]. *)
Definition touches (p : elf64_phdr) (v : Z) : Prop := p_vaddr p < v + PAGE_SIZE ∧ v < p_vaddr p + p_memsz p.

(** Every address of every segment, apart from those on a page that an earlier
    segment has too, and those on a first page the segment enters further than
    its bytes are into the file: there is the byte of the file, or a zero behind
    the bytes of the file. *)
Definition segs_loaded (data : list Z) (U : upages) : Prop :=
  ∀ i p k, phdrs data !! i = Some p → is_load p = true → 0 ≤ k < p_memsz p →
    let a := p_vaddr p + k in
    (∀ j q, (j < i)%nat → phdrs data !! j = Some q → is_load q = true → ¬ touches q (page_base a)) →
    p_vaddr p - page_base a ≤ p_offset p →
    ubyte U a = if k <? p_filesz p then data !! Z.to_nat (p_offset p + k) else Some 0.

(** The first segment that touches a page gives its bytes. *)
Lemma image_content_first data ph i p v :
  ph !! i = Some p → is_load p = true → in_run (seg_start p) (seg_count p) v = true →
  (∀ j q, (j < i)%nat → ph !! j = Some q → is_load q = true → in_run (seg_start q) (seg_count q) v = false) →
  image_content data ph v = Some (page_content data p v).
Proof.
  revert i. induction ph as [|q ph IH]; intros i Hi El Hr Hne; [done|]. cbn [image_content]. unfold first_of, seg_content at 1, run_content.
  destruct i as [|i]; [injection Hi as ->; by rewrite El, Hr|].
  assert ((if is_load q then if in_run (seg_start q) (seg_count q) v then Some (page_content data q v) else None else None) = None) as ->.
  { destruct (is_load q) eqn:Eq; [|done]. by rewrite (Hne 0%nat q ltac:(lia) eq_refl Eq). }
  apply (IH i); [done..|]. intros j q' Hj Hq'. apply (Hne (S j)); [lia|done].
Qed.

Lemma page_content_byte data p v d :
  seg_ok (strlen data) p → strlen data < 2 ^ 63 → p_memsz p ≤ 2 ^ 39 → 0 ≤ v → 0 ≤ d < PAGE_SIZE → p_vaddr p ≤ v + d < p_vaddr p + p_memsz p → p_vaddr p - v ≤ p_offset p →
  page_content data p v !! Z.to_nat d = if v + d - p_vaddr p <? p_filesz p then data !! Z.to_nat (p_offset p + (v + d - p_vaddr p)) else Some 0.
Proof.
  intros [(Ho & Hf & Hs) (Hv & Hfm & Hm)] Hsz Hmm Hv0 Hd Hin Hoff. unfold page_content.
  assert (u64 (p_offset p + u64 (v - p_vaddr p)) = p_offset p + (v - p_vaddr p) ∨
    p_offset p + p_filesz p ≤ u64 (p_offset p + u64 (v - p_vaddr p)) ∧ p_filesz p ≤ v - p_vaddr p) as Hu.
  { destruct (Z.lt_ge_cases v (p_vaddr p)) as [Hlt|Hge].
    - left. unfold u64. rewrite Z.add_mod_idemp_r by done. apply Z.mod_small. lia.
    - rewrite (u64_small (v - p_vaddr p)) by (unfold is_u64; lia). unfold u64.
      destruct (Z.lt_ge_cases (p_offset p + (v - p_vaddr p)) (2 ^ 64)); [left; apply Z.mod_small; lia|exfalso].
      unfold PAGE_SIZE in *. lia. }
  set (off := u64 _) in *. clearbody off. unfold zero_bytes. destruct (Z.ltb_spec off (p_offset p + p_filesz p)) as [Hlo|Hhi].
  - destruct Hu as [->|[? _]]; [|lia]. set (n := Z.min _ PAGE_SIZE). unfold strlen in *.
    destruct (Z.ltb_spec (v + d - p_vaddr p) (p_filesz p)).
    + rewrite lookup_app_l by (rewrite length_take, length_drop; lia). rewrite lookup_take_lt by lia. rewrite lookup_drop. f_equal. lia.
    + rewrite lookup_app_r by (rewrite length_take, length_drop; lia). apply lookup_replicate. split; [done|]. rewrite length_take, length_drop. lia.
  - rewrite (proj2 (Z.ltb_ge _ _)) by lia. apply lookup_replicate. split; [done|lia].
Qed.

Section bytes.
Context (h : nat) (Hlow : (h < 256)%nat) (data : list Z) (Hx : exe_ok h data) (Hv : valid_image data true = true).

Lemma touches_run p v : seg_ok (strlen data) p → seg_within h p → v mod PAGE_SIZE = 0 → in_run (seg_start p) (seg_count p) v = true ↔ touches p v.
Proof.
  intros Hok Hw Hal. destruct (seg_pages h p _ Hlow Hok Hw) as (Es & Ee & _ & _ & Hsum & _). rewrite in_run_spec, Hsum, Es, Ee. unfold touches.
  pose proof (page_base_le (p_vaddr p)). pose proof (page_base_le (p_vaddr p + p_memsz p + 0xFFF)).
  pose proof (page_base_mod (p_vaddr p)). pose proof (page_base_mod (p_vaddr p + p_memsz p + 0xFFF)).
  set (a := page_base (p_vaddr p)) in *. set (b := page_base (p_vaddr p + p_memsz p + 0xFFF)) in *. clearbody a b. unfold PAGE_SIZE in *.
  pose proof (Z.div_mod v 4096). pose proof (Z.div_mod a 4096). pose proof (Z.div_mod b 4096). lia.
Qed.

Lemma program_bytes argv envp U sp : program data argv envp U sp → segs_loaded data U.
Proof.
  intros [Himg _ _ _ _] i p k Hi El Hk a Hfirst Hoff. pose proof (exe_segs h data Hx Hv) as Hseg. rewrite Forall_forall in Hseg.
  destruct (Hseg p ltac:(by eapply list_elem_of_lookup_2) El) as [Hok Hw]. set (v := page_base a) in *.
  pose proof (page_base_le a) as Ha. pose proof (page_base_mod a) as Hal. fold v in Ha, Hal.
  assert (image_content data (phdrs data) v = Some (page_content data p v)) as Hc.
  { apply (image_content_first data (phdrs data) i); [done|done| |].
    - apply touches_run; [done..|]. unfold touches, a in *. lia.
    - intros j q Hj Hq Eq. apply not_true_iff_false. intros Hr. destruct (Hseg q ltac:(by eapply list_elem_of_lookup_2) Eq) as [Hokq Hwq].
      apply (Hfirst j q Hj Hq Eq). by apply touches_run. }
  destruct (Himg v _ Hc) as [f Hf]. assert (a mod PAGE_SIZE = a - v) as Hmod.
  { unfold v, page_base, PAGE_SIZE. pose proof (Z.div_mod a 4096). lia. }
  unfold ubyte. fold v. rewrite Hf, Hmod. cbn [up_bytes mbind option_bind].
  destruct (xo_file _ _ Hx) as [? ? ?]. destruct Hok as [Hok1 Hok2]. rewrite (page_content_byte data p v (a - v)); [|by split|done|destruct Hw; lia|unfold v, page_base, PAGE_SIZE; pose proof (Z.div_pos a 4096); lia|lia|unfold a; lia|done].
  replace (v + (a - v) - p_vaddr p) with k by (unfold a; lia). done.
Qed.
End bytes.

(** ** The stack pages *)

Definition added (U : upages) (base : Z) (n : nat) (U' : upages) : Prop :=
  ∀ v, if in_run base n v then ∃ f bs, U' !! v = Some (Upage f stack_perm bs) else U' !! v = U !! v.

Section load.
Context (r : Z) (h : nat) (Hh : private [h]) (Hlow : (h < 256)%nat).

Lemma wp_map_stack s U stack (Q : bool → mmu → Prop) :
  umem s r h U → stack mod PAGE_SIZE = 0 → Z.of_nat h * 2 ^ 39 ≤ stack → stack + stack_pages * PAGE_SIZE ≤ (Z.of_nat h + 1) * 2 ^ 39 →
  (∀ v, in_run stack stack_count v = true → U !! v = None) →
  (∀ s' U', umove r h s U s' U' → starved s' → Q false s') →
  (∀ s' U', umove r h s U s' U' → added U stack stack_count U' → Q true s') →
  wp (map_stack r stack) Q s.
Proof.
  intros Hu Hal Hlo Hhi Hno HQf HQt. unfold map_stack. wp_step. fold stack_count.
  apply (wp_for_ret (λ i s', 0 ≤ i ∧ ∃ U', umove r h s U s' U' ∧ added U stack (Z.to_nat i) U')).
  - split; [done|]. exists U. split; [by apply umove_refl|]. intros v. replace (in_run stack (Z.to_nat 0) v) with false; [done|].
    unfold in_run. change (Z.of_nat (Z.to_nat 0) * PAGE_SIZE) with 0. lia.
  - intros i s1 Hi (Hi0 & U1 & Hm1 & Ha1). change (Z.of_nat stack_count) with 32 in Hi. change (stack_pages * PAGE_SIZE) with 131072 in Hhi.
    pose proof Hm1 as [Hu1 _]. set (va := stack + i * PAGE_SIZE). assert (in_entry h va) as Hin by (unfold in_entry, va, PAGE_SIZE; lia).
    assert (va mod PAGE_SIZE = 0) as Hva by (unfold va; by rewrite Z.mod_add). pose proof (in_entry_range h Hlow va Hin).
    rewrite u64_small by (unfold is_u64; lia). pose proof (λ v, in_run_S stack (Z.to_nat i) v Hal) as HS. rewrite Z2Nat.id in HS by done. fold va in HS.
    assert (in_run stack (Z.to_nat i) va = false) as Hout.
    { unfold in_run. apply andb_false_iff. right. unfold va. rewrite Z2Nat.id by done. lia. }
    assert (U1 !! va = None) as Hfree.
    { pose proof (Ha1 va) as H1. rewrite Hout in H1. rewrite H1. apply Hno. unfold in_run. rewrite Hva. change (Z.of_nat stack_count) with 32. unfold va, PAGE_SIZE. lia. }
    wp_step. apply (wp_new_page r h Hh Hlow s1 U1); [done|done|done|done|done| |].
    + intros s2 Hm2 Hst. cbn [negb]. wp_step. wp_step. eapply HQf; [eapply umove_trans; [exact Hm1|exact Hm2]|done].
    + intros f bs s2 _ Hm2. cbn [negb]. wp_step. split; [lia|]. eexists. split; [eapply umove_trans; [exact Hm1|exact Hm2]|].
      intros v. replace (Z.to_nat (i + 1)) with (S (Z.to_nat i)) by lia. rewrite HS. destruct (decide (v = va)) as [->|Hne].
      * rewrite bool_decide_true, orb_true_r, lookup_insert_eq by done. eauto.
      * rewrite bool_decide_false, orb_false_r, lookup_insert_ne by done. apply Ha1.
  - intros s1 (_ & U1 & Hm1 & Ha1). wp_step. by eapply HQt.
Qed.

(** ** From an empty entry to a program *)


(** ** From an empty entry to a program *)

(** Why a program may not be loaded: the file, or too little memory. *)
Definition load_refused (data : list Z) (x x' : sched) : Prop :=
  valid_image data true = false ∨ None ∈ vf_heap (sc_vfs x) ∨ starved (sc_mmu x').

(** The image as [elf_image_readonly] leaves it. *)
Definition image_only (data : list Z) (U : upages) : Prop :=
  (∀ v bs, image_content data (phdrs data) v = Some bs → ∃ f, U !! v = Some (Upage f (cover_perm (cover_at (phdrs data) v 0)) bs)) ∧
  (∀ v, is_Some (U !! v) → is_Some (image_content data (phdrs data) v)).

Lemma wp_load_stack s U data argv envp (Q : option Z → mmu → Prop) :
  umem s r h U → exe_ok h data → valid_image data true = true → args_fit argv envp → image_only data U →
  (∀ s' U', umove r h s U s' U' → starved s' → Q None s') →
  (∀ s' U' sp, umove r h s U s' U' → program data argv envp U' sp → Q (Some sp) s') →
  wp (load_stack r (image_end data) argv envp) Q s.
Proof.
  intros Hu Hx Hv Hfit [Himg Honly] HQf HQt. unfold load_stack. fold (guard_page data). fold (stack_start data).
  destruct (exe_layout h Hlow data Hx Hv) as (Hga & Hge & Hst & Htop). pose proof (exe_end h Hlow data Hx Hv) as He.
  pose proof (image_below h Hlow data Hx Hv) as Hbelow. assert (0 < h)%nat as Hpos by (destruct Hh; lia).
  assert (stack_start data mod PAGE_SIZE = 0) as Hsa by (rewrite Hst, <-Z.add_mod_idemp_l, Hga by done; done).
  assert (∀ v, is_Some (U !! v) → v < guard_page data) as Hlt by (intros v [bs Hc]%Honly; by apply (Hbelow v bs)).
  assert (∀ v, guard_page data ≤ v → U !! v = None) as Hnone.
  { intros v Hgv. destruct (U !! v) eqn:E; [|done]. specialize (Hlt v ltac:(by eexists)). lia. }
  assert (stack_pages * PAGE_SIZE = Z.of_nat stack_count * PAGE_SIZE) as Esz by done. assert (Z.of_nat stack_count * PAGE_SIZE = 131072) as Ec by done.
  rewrite Esz in Htop. assert (guard_page data < stack_start data ∧ stack_start data + Z.of_nat stack_count * PAGE_SIZE < 2 ^ 63) as [Hgs Hs63] by (unfold PAGE_SIZE in *; lia).
  wp_step. apply (wp_map_stack s U); [done|done|lia|by rewrite Esz| | |].
  { intros v [_ Hr]%in_run_spec. apply Hnone. unfold PAGE_SIZE in *. lia. }
  { intros s1 U1 Hm1 Hsv. cbn [negb]. wp_step. by eapply HQf. }
  intros s1 U1 Hm1 Ha1. cbn [negb]. pose proof Hm1 as [Hu1 _].
  assert (∀ v, in_run (stack_start data) stack_count v = true → ∃ f bs, U1 !! v = Some (Upage f stack_perm bs)) as Hin by (intros v Hr; pose proof (Ha1 v) as H1; by rewrite Hr in H1).
  apply (wp_setup_user_stack r h Hlow s1 U1); [done|done| |lia|rewrite Esz; lia|done|].
  { intros w Hw. rewrite Esz in Hw. destruct (Hin (page_base w)) as (f & bs & Hp); [by apply page_in_run|by exists (Upage f stack_perm bs)]. }
  intros s2 U2 sp Hm2 Hc2 Hsp Hargs. pose proof Hm2 as [Hu2 _]. rewrite Esz in Hc2.
  assert (∀ v, v mod PAGE_SIZE = 0 → v + PAGE_SIZE ≤ stack_start data → U2 !! v = U !! v) as Hkeep.
  { intros v Hal Hv'. rewrite (changed_page _ _ _ _ _ _ _ _ v Hc2 Hu1 Hu2) by (done || by left). pose proof (Ha1 v) as H1.
    rewrite in_run_out in H1; [done|]. unfold PAGE_SIZE in *. lia. }
  apply (HQt s2 U2 sp); [by eapply umove_trans|]. split.
  - intros v bs Hc. destruct (Hbelow v bs Hc) as [Hal Hlt']. destruct (Himg v bs Hc) as [f Hf]. exists f. rewrite <-Hf. apply Hkeep; [done|].
    unfold PAGE_SIZE in *. pose proof (Z.div_mod v 4096). pose proof (Z.div_mod (guard_page data) 4096). lia.
  - intros v Hr. destruct (Hin v Hr) as (f & bs & Hp). pose proof (ch_pages _ _ _ _ Hc2 v) as Hpg. rewrite Hp in Hpg.
    destruct (U2 !! v) as [[f' π' bs']|]; [|done]. injection Hpg as -> ->. eauto.
  - intros v [p Hp]. destruct (in_run (stack_start data) stack_count v) eqn:Hr; [by right|left]. apply Honly.
    pose proof (Ha1 v) as H1. rewrite Hr in H1. rewrite <-H1. pose proof (ch_pages _ _ _ _ Hc2 v) as Hpg. rewrite Hp in Hpg. by destruct (U1 !! v).
  - rewrite Hkeep by (done || lia). by apply Hnone.
  - by split.
Qed.

Context {env : VfsEnv}.

Lemma wp_each_one {St A} (f : A → M St bool) y (Q : bool → St → Prop) s : wp (f y) Q s → wp (each f [y]) Q s.
Proof. intros Hf. cbn [each]. wp_step. eapply wp_mono; [exact Hf|]. intros [] s' HQ; cbn [negb]; by wp_step. Qed.

Lemma wp_relocate_static scope o (Q : bool → sched → Prop) s :
  has_dynamic (eo_info o) = false → Q true s → wp (relocate_image scope o) Q s.
Proof.
  intros Hd HQ. unfold relocate_image. replace (elf_apply_relocations o scope []) with (Ok ((0, 0), @nil (Z * Z))) by (unfold elf_apply_relocations; by rewrite Hd).
  wp_step. apply wp_zoom. cbn [for_list]. wp_step. wp_step. cbn. destruct s. exact HQ.
Qed.

Lemma wp_load_program x data argv envp (Q : option (Z * Z) → sched → Prop) :
  umem (sc_mmu x) r h ∅ → exe_ok h data → args_fit argv envp →
  (∀ x' U', smove r h x ∅ x' U' → load_refused data x x' → Q None x') →
  (∀ x' U' sp, smove r h x ∅ x' U' → valid_image data true = true → program data argv envp U' sp → Q (Some (e_entry (ehdr_of data), sp)) x') →
  wp (load_program r data argv envp) Q x.
Proof.
  intros Hu Hx Hfit HQf HQt. pose proof (xo_file _ _ Hx) as Hf. pose proof (xo_static _ _ Hx) as Hs. unfold load_program. wp_step.
  apply (wp_elf_map_image r h Hh Hlow x ∅); [done|done| |].
  { intros x1 U1 Hm1 [?|[?|[?|?]]]; [..|done]; wp_step; eapply HQf; [exact Hm1|by left|exact Hm1|right; by left|exact Hm1|by right; right]. }
  intros x1 U1 img Hm1 Hg1 Hio Hv Hdyn. specialize (Hdyn Hs). pose proof Hm1 as [Hmm1 Hr1]. pose proof Hmm1 as [Hu1 _].
  unfold elf_load_dependencies. rewrite Hdyn. cbn [negb]. wp_step. wp_step. cbn [fmap list_fmap].
  wp_step. apply wp_each_one, wp_relocate_static; [done|]. cbn [negb]. wp_step. apply wp_each_one, wp_zoom.
  apply (wp_image_readonly r h Hh Hlow (sc_mmu x1) U1 data img); [done|done|]. intros m2 Hm2. cbn [negb].
  set (U2 := protected _ _ _ _) in *. assert (smove r h x ∅ (put_mmu m2 x1) U2) as Hm02 by (eapply smove_trans; [exact Hm1|by apply smove_mmu]).
  unfold valid_image in Hv. pose proof Hv as [Hhd _]%andb_true_iff. unfold headers_ok in Hhd. rewrite !andb_true_iff, Z.leb_le in Hhd.
  wp_step. apply wp_load_ehdr; [tauto|]. wp_step. apply wp_zoom. fold (valid_image data true) in Hv.
  assert (foldl (λ m i, if m <? im_highest i then im_highest i else m) 0 [img] = image_end data) as ->.
  { cbn [foldl]. rewrite (io_highest _ _ _ Hio). fold (image_end data). pose proof (proj1 (image_end_fold 0 (phdrs data))) as He.
    fold (image_end data) in He. destruct (Z.ltb_spec 0 (image_end data)); lia. }
  assert (∀ v bs, image_content data (phdrs data) v = Some bs → in_run (im_span_lo img) (Z.to_nat (im_span_pages img)) v = true) as Hspan.
  { intros v bs (p & Hin & El & Hr)%image_content_seg. apply in_run_spec in Hr as [Hal Hr]. pose proof (io_segs _ _ _ Hio) as Hseg.
    rewrite Forall_forall in Hseg. destruct (Hseg p Hin El) as (_ & Hl & Hh'). pose proof (exe_segs h data Hx Hv) as Hok. rewrite Forall_forall in Hok.
    destruct (Hok p Hin El) as [Ho Hw]. destruct (seg_pages h p _ Hlow Ho Hw) as (_ & _ & _ & _ & Hsum & _). apply in_run_spec.
    rewrite Z2Nat.id by apply (io_pages _ _ _ Hio). split; [done|lia]. }
  assert (image_only data U2) as Himg.
  { split.
    - intros v bs Hc. pose proof (Hg1 v) as Hgv. rewrite lookup_empty, Hc in Hgv. destruct Hgv as [f Hf'].
      exists f. unfold U2, protected. by rewrite map_lookup_imap, Hf', (Hspan v bs Hc).
    - intros v [p Hp]. unfold U2, protected in Hp. rewrite map_lookup_imap in Hp. pose proof (Hg1 v) as Hgv. rewrite lookup_empty in Hgv.
      destruct (image_content data (phdrs data) v); [done|]. by rewrite Hgv in Hp. }
  apply (wp_load_stack m2 U2); [by destruct Hm2|done|done|done|done| |].
  - intros m3 U3 Hm3 Hsv. wp_step. eapply HQf; [eapply smove_trans; [exact Hm02|by apply (smove_mmu r h (put_mmu m2 x1))]|by right; right].
  - intros m3 U3 sp Hm3 Hp. wp_step. eapply HQt; [eapply smove_trans; [exact Hm02|by apply (smove_mmu r h (put_mmu m2 x1))]|done|done].
Qed.
End load.

(** ** The loader as a whole *)

Lemma aspace_cr3 s r c : aspace s r → aspace (set_cr3 c s) r.
Proof. intros [[] ? ? ? ? ?]. by split. Qed.

Lemma umem_cr3 s r h U c : umem s r h U → addr_of c = r → umem (set_cr3 c s) r h U.
Proof.
  intros [Has Hact Hop Hsm Hpage Hnone Hinj] Hc. split; try done; [by apply aspace_cr3|].
  intros v p Hv. destruct (Hpage v p Hv) as (? & ? & x & l & ? & ? & ? & [] & ?). split_and!; [done..|]. exists x, l. by split_and!.
Qed.

Lemma umem_switch s r h U c : umem s r h U → addr_of r = r → umem (set_cr3 r (set_cr3 c s)) r h U.
Proof. intros Hu Hr. pose proof (umem_cr3 s r h U r Hu Hr) as [Has ? ? ? Hpage ? ?]. split; try done.
  - destruct Has as [[] ? ? ? ? ?]. by split.
  - intros v p Hv. destruct (Hpage v p Hv) as (? & ? & x & l & ? & ? & ? & [] & ?). split_and!; [done..|]. exists x, l. by split_and!.
Qed.

Lemma wp_exists {St A X} (m : M St A) (Q : A → St → X → Prop) s : wp m (λ a s', ∃ u, Q a s' u) s → ∃ a s' u, m s = Ok (a, s') ∧ Q a s' u.
Proof. intros (a & s' & Hm & u & HQ)%wp_ok. by exists a, s', u. Qed.

Lemma wp_elf_load {env : VfsEnv} x r h e data argv envp (Q : option (Z * Z) → sched → Prop) :
  private [h] → (h < 256)%nat → aspace (sc_mmu x) r → addr_of r = r →
  entry (mm_mem (sc_mmu x)) r h = Some e → flag e X86_PTE_PRESENT = false → exe_ok h data → args_fit argv envp →
  (∀ res x' U, umem (set_cr3 r (sc_mmu x')) r h U → confined r h (set_cr3 r (sc_mmu x)) ∅ (set_cr3 r (sc_mmu x')) U →
    mm_cr3 (sc_mmu x') = root_of (sc_mmu x) (addr_of (mm_cr3 (sc_mmu x))) → (∃ v, x' = put_mmu (sc_mmu x') (put_vfs v x)) →
    match res with
    | Some (entry, sp) => valid_image data true = true ∧ entry = e_entry (ehdr_of data) ∧ program data argv envp U sp
    | None => load_refused data x x'
    end → Q res x') →
  wp (elf_load r data argv envp) Q x.
Proof.
  intros Hh Hlow Has Hr He Hp Hx Hfit HQ.
  assert (root_of (sc_mmu x) r = r) as Hroot by (unfold root_of; destruct (as_root _ _ Has) as [Hr0 _]; by rewrite (proj2 (Z.eqb_neq _ _))).
  unfold elf_load, vmm_current_root, mmu_current_root, vmm_switch, mmu_switch, read_cr3, write_cr3.
  wp_step. apply wp_zoom. wp_step. wp_step. wp_step. wp_step. apply wp_zoom. replace (put_mmu (sc_mmu x) x) with x by (by destruct x).
  wp_step. apply wp_or_kernel. rewrite Hroot. wp_step. wp_step. set (c := Z.land (mm_cr3 (sc_mmu x)) X86_PTE_ADDR_MASK).
  set (x1 := put_mmu (set_cr3 r (sc_mmu x)) x). assert (umem (sc_mmu x1) r h ∅) as Hu by (apply (umem_empty _ r h e); [done|done|by apply aspace_cr3|exact Hr|exact He|exact Hp]).
  match goal with |- wp _ (λ res, wp (_ ≫= _) ?Q) _ => assert (∀ res x' U', smove r h x1 ∅ x' U' →
    match res with
    | Some (entry, sp) => valid_image data true = true ∧ entry = e_entry (ehdr_of data) ∧ program data argv envp U' sp
    | None => load_refused data x x'
    end → wp (on_mmu (or_kernel c ≫= λ root, modify (set_cr3 root)) ;; mret res) Q x') as Hend end.
  { intros res x' U' [[Hu' Hc'] [v Hv]] Hres. assert (mm_cr3 (sc_mmu x') = r) as Hr' by apply (cf_cr3 _ _ _ _ _ _ Hc').
    wp_step. apply wp_zoom. wp_step. apply wp_or_kernel. wp_step. wp_step. apply (HQ res _ U'); cbn [sc_mmu put_mmu].
    - by apply umem_switch.
    - destruct Hc' as [H1 H2 H3 H4 H5 H6]. by split.
    - assert (kernel_root (sc_mmu x') = kernel_root (sc_mmu x)) as Hk by apply (cf_kernel _ _ _ _ _ _ Hc'). cbn. unfold root_of. by rewrite Hk.
    - exists v. generalize (set_cr3 (root_of (sc_mmu x') c) (sc_mmu x')). intros m. rewrite Hv. by destruct x.
    - destruct res as [[? ?]|]; done. }
  apply (wp_load_program r h Hh Hlow x1); [done|done|done| |].
  - intros x' U' Hm Href. apply (Hend None x' U'); [done|exact Href].
  - intros x' U' sp Hm Hv Hpr. apply (Hend (Some (e_entry (ehdr_of data), sp)) x' U'); [done|by split_and!].
Qed.

(** The program after a load that succeeded. *)
Lemma loaded_program {env : VfsEnv} x r h e data argv envp en sp x' :
  private [h] → (h < 256)%nat → aspace (sc_mmu x) r → addr_of r = r →
  entry (mm_mem (sc_mmu x)) r h = Some e → flag e X86_PTE_PRESENT = false → exe_ok h data → args_fit argv envp →
  elf_load r data argv envp x = Ok (Some (en, sp), x') → ∃ U, umem (set_cr3 r (sc_mmu x')) r h U ∧ program data argv envp U sp.
Proof.
  intros Hh Hlow Has Hr He Hp Hx Hfit Hrun.
  assert (wp (elf_load r data argv envp) (λ res x', ∀ en sp, res = Some (en, sp) → ∃ U, umem (set_cr3 r (sc_mmu x')) r h U ∧ program data argv envp U sp) x) as Hwp.
  { apply (wp_elf_load x r h e); [done..|]. intros res y U Hu _ _ _ Hres en' sp' ->. exists U. split; [done|]. by destruct Hres as (_ & _ & ?). }
  apply wp_ok in Hwp as (res & y & Hrun' & Hres). rewrite Hrun in Hrun'. injection Hrun' as <- <-. by eapply Hres.
Qed.

(** C13: [elf_load] of a program without a dynamic segment, into an address
    space whose entry [h] is unused and in which the program and its stack fit
    below the end of that entry: it returns, makes the address space active
    that was active before, and changes nothing but the tables, pages and free
    frames of entry [h] and the file system.  Either the program is there:
    every address of a segment holds its byte of the file, or zero behind the
    bytes of the file, with two exceptions the code makes ([segs_loaded]): on a
    page that an earlier segment has too, only the earlier one is loaded, and a
    segment whose offset in the file is smaller than its offset in its first page
    gets zeros on that page; every page of a segment may be written exactly if a
    writable segment covers it, and executed only if it may not be written; the stack begins above an unmapped page, holds the
    argument count, the pointers and the strings where [crt0] looks for them;
    nothing else is mapped; the entry point is the one of the header.  Or the
    file is not valid, or memory ran out. *)
Theorem elf_load_static {env : VfsEnv} x r h e data argv envp :
  private [h] → (h < 256)%nat → aspace (sc_mmu x) r → addr_of r = r →
  entry (mm_mem (sc_mmu x)) r h = Some e → flag e X86_PTE_PRESENT = false → exe_ok h data → args_fit argv envp →
  ∃ res x' U, elf_load r data argv envp x = Ok (res, x') ∧
    umem (set_cr3 r (sc_mmu x')) r h U ∧ confined r h (set_cr3 r (sc_mmu x)) ∅ (set_cr3 r (sc_mmu x')) U ∧
    mm_cr3 (sc_mmu x') = root_of (sc_mmu x) (addr_of (mm_cr3 (sc_mmu x))) ∧ (∃ v, x' = put_mmu (sc_mmu x') (put_vfs v x)) ∧
    match res with
    | Some (entry, sp) => valid_image data true = true ∧ entry = e_entry (ehdr_of data) ∧ program data argv envp U sp ∧ segs_loaded data U
    | None => load_refused data x x'
    end.
Proof.
  intros Hh Hlow Has Hr He Hp Hx Hfit. apply wp_exists. apply (wp_elf_load x r h e); [done..|]. intros res x' U Hu Hc Hk Hv Hres. exists U. split_and!; try done.
  destruct res as [[en sp]|]; [|done]. destruct Hres as (Hval & He' & Hpr). split_and!; try done. by eapply program_bytes.
Qed.

(** C38: [elf_image_readonly] gives every page of an image its final permissions
    and changes no byte: a page may be written exactly if a writable segment
    covers it, it may be executed exactly if an executable segment covers it and
    no writable one does, and so never both; pages out of the span of the image
    stay as they are. *)
Theorem elf_image_readonly_wx s r h U data img :
  private [h] → (h < 256)%nat → umem s r h U → image_ok h data img →
  ∃ s' U', elf_image_readonly r img s = Ok (true, s') ∧ umove r h s U s' U' ∧
    ∀ v, let w := covered (phdrs data) PF_W v in let x := covered (phdrs data) PF_X v in
      U' !! v = (λ p, if in_run (im_span_lo img) (Z.to_nat (im_span_pages img)) v
                      then Upage (up_frame p) (Perm w true (w || negb x)) (up_bytes p) else p) <$> U !! v.
Proof.
  intros Hh Hlow Hu Hio. assert (wp (elf_image_readonly r img) (λ ok s', ok = true ∧ ∃ U', umove r h s U s' U' ∧ U' = protected (phdrs data) (im_span_lo img) (Z.to_nat (im_span_pages img)) U) s) as Hwp.
  { apply (wp_image_readonly r h Hh Hlow s U data img); [done|done|]. eauto. }
  apply wp_ok in Hwp as (ok & s' & Hrun & -> & U' & Hm & HU). exists s', U'. split_and!; [done|done|]. intros v w x. rewrite HU.
  unfold protected. rewrite map_lookup_imap. destruct (U !! v) as [p|]; [|done]. cbn. unfold cover_perm.
  destruct (cover_at_flags (phdrs data) v 0) as [-> ->]. done.
Qed.

(** C39: [setup_user_stack] on a stack that may be written and that the arguments
    fit: it returns an entry stack pointer in the stack, aligned to 16 bytes, at
    which the argument count, the argument pointers, a null, the environment
    pointers and a null are found, every pointer leading to the terminated
    string it stands for; no byte outside of the stack changes. *)
Theorem setup_user_stack_layout s r h U stack argv envp :
  (h < 256)%nat → umem s r h U → stack mod PAGE_SIZE = 0 → 8 ≤ stack → stack + stack_pages * PAGE_SIZE < 2 ^ 64 →
  (∀ w, stack ≤ w < stack + stack_pages * PAGE_SIZE → writable U w) → args_fit argv envp →
  ∃ base s' U', setup_user_stack stack stack_pages argv envp s = Ok (Some base, s') ∧ umove r h s U s' U' ∧
    changed stack (stack + stack_pages * PAGE_SIZE) U U' ∧ stack ≤ base ∧ start_stack U' base (stack + stack_pages * PAGE_SIZE) argv envp.
Proof.
  intros Hlow Hu Hal H8 Htop Hw Hfit. assert (wp (setup_user_stack stack stack_pages argv envp) (λ b s', ∃ base, b = Some base ∧ ∃ U', umove r h s U s' U' ∧
    changed stack (stack + stack_pages * PAGE_SIZE) U U' ∧ stack ≤ base ∧ start_stack U' base (stack + stack_pages * PAGE_SIZE) argv envp) s) as Hwp.
  { apply (wp_setup_user_stack r h Hlow s U); [done..|]. eauto 10. }
  apply wp_ok in Hwp as (b & s' & Hrun & base & -> & U' & Hrest). by exists base, s', U'.
Qed.

(** ** A concrete machine *)

Lemma load_entry i e : entry load_mem (1 * PAGE_SIZE) i = Some e → (i = 508%nat ∧ e = 2 * PAGE_SIZE + 3) ∨ e = 0.
Proof.
  intros He. unfold entry, load_mem in He. rewrite lookup_insert_eq in He. cbn [mbind option_bind] in He. unfold Mmu.demo_root in He.
  destruct (decide (i = 508%nat)) as [->|Hne].
  - rewrite list_lookup_insert_eq in He by (unfold demo_table; rewrite length_replicate; lia). left. naive_solver.
  - rewrite list_lookup_insert_ne in He by done. right. unfold demo_table in He. by apply lookup_replicate in He as [-> _].
Qed.

Lemma load_table f : 0 ≤ f < load_frames → f ≠ 1 → load_mem !! (f * PAGE_SIZE) = Some demo_table.
Proof.
  intros Hf Hne. unfold load_mem. rewrite lookup_insert_ne by (unfold PAGE_SIZE; lia). apply elem_of_list_to_map_1.
  - rewrite <-list_fmap_compose. apply NoDup_fmap_2_strong; [|apply NoDup_seqZ]. intros x y _ _. cbn. unfold PAGE_SIZE. lia.
  - apply list_elem_of_fmap. exists f. split; [done|]. apply elem_of_seqZ. lia.
Qed.

Lemma load_page f : 0 ≤ f < load_frames → is_page load_mem (f * PAGE_SIZE).
Proof.
  intros Hf. destruct (decide (f = 1)) as [->|Hne].
  - exists Mmu.demo_root. unfold load_mem. rewrite lookup_insert_eq. split; [done|]. unfold Mmu.demo_root, demo_table. by rewrite length_insert, length_replicate.
  - exists demo_table. split; [by apply load_table|]. apply length_replicate.
Qed.

Lemma load_down p a π : down load_mem (1 * PAGE_SIZE) ptop p = Some (a, π) → (p = [] ∧ a = 1 * PAGE_SIZE) ∨ (p = [508%nat] ∧ a = 2 * PAGE_SIZE).
Proof.
  destruct p as [|i p]; [intros [= <- <-]; by left|]. cbn [down]. destruct (entry load_mem (1 * PAGE_SIZE) i) as [e|] eqn:He; [|done].
  destruct (load_entry i e He) as [[-> ->]| ->]; [|done]. change (flag _ X86_PTE_PRESENT && _) with true. cbn iota. change (addr_of _) with (2 * PAGE_SIZE).
  destruct p as [|j p]; [intros [= <- <-]; by right|]. cbn [down]. unfold entry. rewrite load_table by done. cbn [mbind option_bind].
  destruct (demo_table !! j) as [e|] eqn:He2; [|done]. apply lookup_replicate in He2 as [-> _]. done.
Qed.

Lemma load_free f : f ∈ free_set (mm_pmm load_mmu) ↔ 4 ≤ f < load_frames.
Proof.
  replace (free_set (mm_pmm load_mmu)) with (list_to_set (seqZ 4 92) : gset Z) by (by vm_compute).
  rewrite elem_of_list_to_set, elem_of_seqZ. unfold load_frames. lia.
Qed.

Lemma load_aspace : aspace load_mmu (1 * PAGE_SIZE).
Proof.
  split.
  - split; [split; by vm_compute|intros H0%load_free; lia|by vm_compute|]. intros f Hf%load_free. apply load_page. lia.
  - done.
  - intros p a π _ [[-> ->]|[-> ->]]%load_down; (split; [by apply load_page|]); unfold frame_of; rewrite Z.div_mul by done; intros ?%load_free; lia.
  - intros p q a π π' _ _ _ H1%load_down H2%load_down. destruct H1 as [[-> ->]|[-> ->]], H2 as [[-> ?]|[-> ?]]; done.
  - intros p a π i e _ _ H1%load_down He. destruct H1 as [[-> ->]|[-> ->]].
    + by destruct (load_entry i e He) as [[-> ->]| ->].
    + unfold entry in He. cbn [mm_mem load_mmu] in He. rewrite load_table in He by done. by apply lookup_replicate in He as [-> _].
  - intros p a π i e Hl _ H1%load_down. by destruct H1 as [[-> _]|[-> _]].
Qed.

(** A new address space of a kernel. *)
Lemma new_space s h e :
  aspace s (kernel_root s) → free_set (mm_pmm s) ≠ ∅ → (h < 512)%nat → entry (mm_mem s) (kernel_root s) h = Some e →
  ∃ d s', vmm_new_user_root s = Ok (Some d, s') ∧ aspace s' d ∧ addr_of d = d ∧ entry (mm_mem s') d h = Some (shared_entry e).
Proof.
  intros Has Hne Hh He. pose proof (as_table _ _ Has [] (kernel_root s) ptop ltac:(simpl; lia) eq_refl) as [Hpg Hnf].
  assert (wp vmm_new_user_root (λ r s', ∃ d, r = Some d ∧ aspace s' d ∧ addr_of d = d ∧ entry (mm_mem s') d h = Some (shared_entry e)) s) as Hwp.
  { apply wp_new_user_root; [apply (as_ram _ _ Has)|done|done|by intros ?|].
    intros d s' Hc. exists d. split; [done|]. split; [eapply new_aspace; [exact Has|exact Hc]|].
    destruct (cr_fresh _ _ _ _ Hc) as (f & -> & Hf0 & Hf). pose proof (ro_total _ (as_ram _ _ Has)). apply elem_of_free_set in Hf as [Hr _].
    split; [apply addr_of_page; lia|]. by rewrite (cr_entry _ _ _ _ Hc), He by done. }
  apply wp_ok in Hwp as (x & s' & Hrun & d & -> & Hrest). by exists d, s'.
Qed.

Lemma load_new_root : ∃ d s', vmm_new_user_root load_mmu = Ok (Some d, s') ∧ aspace s' d ∧ addr_of d = d ∧ entry (mm_mem s') d 2 = Some 0.
Proof.
  apply (new_space load_mmu 2 0); [exact load_aspace| |lia|].
  - intros Hf. assert (4 ∈ free_set (mm_pmm load_mmu)) as Hin by (by apply load_free). rewrite Hf in Hin. by apply not_elem_of_empty in Hin.
  - change (entry load_mem (1 * PAGE_SIZE) 2 = Some 0). unfold entry, load_mem. by rewrite lookup_insert_eq.
Qed.

Lemma exe_fits : exe_ok 2 exe.
Proof.
  split; [split|..].
  - apply (bool_decide_unpack _); by vm_compute.
  - by vm_compute.
  - unfold dynamic_fits. apply (bool_decide_unpack _); by vm_compute.
  - unfold image_within, seg_within. apply (bool_decide_unpack _); by vm_compute.
  - unfold static. apply (bool_decide_unpack _); by vm_compute.
  - by vm_compute.
Qed.

Definition exe_argv : list (list Z) := [cstr "sh"%string].

Lemma exe_args : args_fit exe_argv [].
Proof. split_and!; [simpl; lia|simpl; lia|apply (bool_decide_unpack _); by vm_compute|constructor|by vm_compute]. Qed.

Lemma load_exe_runs x0 d s' :
  vmm_new_user_root (sc_mmu x0) = Ok (Some d, s') →
  load_exe x0 = (x ← elf_load (env := no_ext) d exe exe_argv []; mret (d, x)) (put_mmu s' x0).
Proof. intros Hr. unfold load_exe, on_mmu, zoom. unfold mbind at 1, M_bind at 1. by rewrite Hr. Qed.

Lemma load_exe_some : match load_exe load_boot with Ok ((_, Some _), _) => true | _ => false end = true.
Proof. by vm_compute. Qed.

Lemma two_private : private [2%nat] ∧ (2 < 256)%nat.
Proof. split; [by vm_compute|lia]. Qed.

Lemma elf_load_static_witness :
  ∃ d s' entry sp x' U, vmm_new_user_root load_mmu = Ok (Some d, s') ∧
    elf_load (env := no_ext) d exe exe_argv [] (put_mmu s' load_boot) = Ok (Some (entry, sp), x') ∧
    umem (set_cr3 d (sc_mmu x')) d 2 U ∧ program exe exe_argv [] U sp ∧ segs_loaded exe U.
Proof.
  destruct load_new_root as (d & s' & Hr & Has & Hd & He).
  assert (aspace (sc_mmu (put_mmu s' load_boot)) d) as Has' by exact Has.
  assert (entry (mm_mem (sc_mmu (put_mmu s' load_boot))) d 2 = Some 0) as He' by exact He.
  pose proof (elf_load_static (env := no_ext) (put_mmu s' load_boot) d 2 0 exe exe_argv [] (proj1 two_private) (proj2 two_private) Has' Hd He' eq_refl exe_fits exe_args) as Hload.
  destruct Hload as (res & x' & U & Hrun & Hu & _ & _ & _ & Hres).
  pose proof load_exe_some as Hsome. rewrite (load_exe_runs load_boot d s' Hr) in Hsome. unfold mbind, M_bind in Hsome. rewrite Hrun in Hsome.
  destruct res as [[en sp]|]; [|discriminate Hsome]. exists d, s', en, sp, x', U. split; [exact Hr|]. split; [exact Hrun|]. split; [exact Hu|]. apply Hres.
Defined.

(** The program in the active address space. *)
Lemma exe_in_memory : ∃ s d U sp, umem s d 2 U ∧ program exe exe_argv [] U sp.
Proof.
  destruct load_new_root as (d & s' & Hr & Has & Hd & He).
  assert (aspace (sc_mmu (put_mmu s' load_boot)) d) as Has' by exact Has.
  assert (entry (mm_mem (sc_mmu (put_mmu s' load_boot))) d 2 = Some 0) as He' by exact He.
  pose proof load_exe_some as Hsome. rewrite (load_exe_runs load_boot d s' Hr) in Hsome. unfold mbind, M_bind in Hsome.
  pose proof (λ en sp x', loaded_program (env := no_ext) (put_mmu s' load_boot) d 2 0 exe exe_argv [] en sp x' (proj1 two_private) (proj2 two_private) Has' Hd He' eq_refl exe_fits exe_args) as Hl.
  destruct (elf_load d exe exe_argv [] (put_mmu s' load_boot)) as [[[[en sp]|] x']| |]; [|discriminate Hsome..].
  destruct (Hl en sp x' eq_refl) as (U & Hu & Hp). exists (set_cr3 d (sc_mmu x')), d, U, sp. exact (conj Hu Hp).
Qed.

(** The image of it. *)
Definition exe_image : elf_image :=
  Image 0x10000000000 2 [2; 1] 0x100000011B4 false (Object exe (Dyninfo false 0 0x100000000B0 0x10000000000 0x100000011B4 0 0 0 0 0 0 0 0 [])).

Lemma exe_image_ok : image_ok 2 exe exe_image.
Proof.
  split; cbn [exe_image im_span_pages im_span_lo im_cover im_highest im_dyn].
  - done.
  - right. by vm_compute.
  - assert (∀ p, seg_ok (strlen exe) p ↔ (0 ≤ p_offset p ∧ 0 ≤ p_filesz p ∧ p_offset p + p_filesz p ≤ strlen exe) ∧ 0 ≤ p_vaddr p ∧ p_filesz p ≤ p_memsz p ∧ p_vaddr p + p_memsz p < 2 ^ 64) as Hiff
      by (intros p; split; [by intros []|by intros []]).
    assert (Forall (λ p, is_load p = true → ((0 ≤ p_offset p ∧ 0 ≤ p_filesz p ∧ p_offset p + p_filesz p ≤ strlen exe) ∧ 0 ≤ p_vaddr p ∧ p_filesz p ≤ p_memsz p ∧ p_vaddr p + p_memsz p < 2 ^ 64) ∧
      0x10000000000 ≤ seg_start p ∧ seg_stop p ≤ 0x10000000000 + 2 * PAGE_SIZE) (phdrs exe)) as Hall by (apply (bool_decide_unpack _); by vm_compute).
    eapply Forall_impl; [exact Hall|]. intros p Hp El. destruct (Hp El) as [Ho Hr]. split; [by apply Hiff|exact Hr].
  - intros i Hi. assert (i = 0 ∨ i = 1) as [->| ->] by lia; by vm_compute.
  - by vm_compute.
  - split; [done|]. assert (strlen exe = 184) as -> by (by vm_compute). unfold SYM_SIZE, RELA_SIZE, DYNLINK_MAX_DEPS. split; cbn; lia.
Qed.

Lemma elf_image_readonly_wx_witness :
  ∃ s r U s' U', umem s r 2 U ∧ elf_image_readonly r exe_image s = Ok (true, s') ∧
    up_perm <$> U' !! 0x10000000000 = Some (Perm false true false) ∧ up_perm <$> U' !! 0x10000001000 = Some (Perm true true true) ∧ umem s' r 2 U'.
Proof.
  destruct exe_in_memory as (s & d & U & sp & Hu & Hpr). destruct two_private as [Hp Hl].
  destruct (elf_image_readonly_wx s d 2 U exe exe_image Hp Hl Hu exe_image_ok) as (s' & U' & Hrun & [Hu' _] & HU).
  exists s, d, U, s', U'. split; [exact Hu|]. split; [exact Hrun|].
  destruct (image_content exe (phdrs exe) 0x10000000000) as [bs0|] eqn:E0; [|by vm_compute in E0].
  destruct (image_content exe (phdrs exe) 0x10000001000) as [bs1|] eqn:E1; [|by vm_compute in E1].
  destruct (pg_image _ _ _ _ _ Hpr _ _ E0) as [f0 H0]. destruct (pg_image _ _ _ _ _ Hpr _ _ E1) as [f1 H1].
  pose proof (HU 0x10000000000) as HU0. pose proof (HU 0x10000001000) as HU1. cbv zeta in HU0, HU1. rewrite H0 in HU0. rewrite H1 in HU1. rewrite HU0, HU1.
  split; [by vm_compute|]. split; [by vm_compute|exact Hu'].
Defined.

Lemma setup_user_stack_layout_witness :
  ∃ s r U base s' U', umem s r 2 U ∧ setup_user_stack (stack_start exe) stack_pages [cstr "ls"%string; cstr "-l"%string] [cstr "HOME=/"%string] s = Ok (Some base, s') ∧
    start_stack U' base (stack_start exe + stack_pages * PAGE_SIZE) [cstr "ls"%string; cstr "-l"%string] [cstr "HOME=/"%string] ∧ umem s' r 2 U'.
Proof.
  destruct exe_in_memory as (s & d & U & sp & Hu & Hpr). destruct two_private as [Hp Hl].
  assert (args_fit [cstr "ls"%string; cstr "-l"%string] [cstr "HOME=/"%string]) as Hfit.
  { split_and!; [simpl; clear; lia|simpl; clear; lia|apply (bool_decide_unpack _); by vm_compute|apply (bool_decide_unpack _); by vm_compute|by vm_compute]. }
  assert (∀ w, stack_start exe ≤ w < stack_start exe + stack_pages * PAGE_SIZE → writable U w) as Hw.
  { intros w Hr. destruct (pg_stack _ _ _ _ _ Hpr (page_base w)) as (f & bs & Hpg); [apply page_in_run; [by vm_compute|exact Hr]|by eexists]. }
  destruct (setup_user_stack_layout s d 2 U (stack_start exe) [cstr "ls"%string; cstr "-l"%string] [cstr "HOME=/"%string] Hl Hu) as (base & s' & U' & Hrun & [Hu' _] & _ & _ & Hst);
    [by vm_compute|by vm_compute|by vm_compute|exact Hw|exact Hfit|].
  exists s, d, U, base, s', U'. split; [exact Hu|]. split; [exact Hrun|]. split; [exact Hst|exact Hu'].
Defined.
