(* ===== verification/Exec.v ===== *)
(** * Exec: starting programs (kernel/elf.c, kernel/syscall.c, kernel/kernel.c)

    fork, exec and spawn: the three functions of elf.c that start threads, the
    system calls over them with the vectors and commands they copy from the
    caller, and the start of init. *)

From Stdlib Require Import String.
From S2P Require Import Prelude BootMap Pmm Mmu Kmem Umem CString Packet Security VfsPath Vfs Sched SchedQueue Fds SchedSpawn SchedRun Syscall SysUser Signal Dynlink Elf ElfStack.

Definition EXEC_MAX_ARGS : nat := 32.
Definition EXEC_MAX_ENVS : nat := 32.
Definition EXEC_STR_MAX : nat := 256.
Definition kpath_dirs : list (list Z) := cstr <$> ["/"; "/bin"; "/Binaries"]%string.

(** The user registers a system call saves; the six that are kept over calls
    are [uregs]. *)
Record syscall_uregs := SyscallUregs { su_rip : Z; su_rsp : Z; su_rflags : Z; su_regs : uregs }.

Definition no_regs : uregs := Uregs 0 0 0 0 0 0.

(** ** Vectors of strings *)

Definition user_word (um : Z → Z) (a : Z) : Z := of_le (user_bytes um a 8).

(** The loop of [copy_user_vec] from entry [count] on, at most [n] entries. *)
Fixpoint user_vec (n : nat) (um : Z → Z) (uvec count : Z) : M sched (option (list (list Z))) :=
  match n with
  | O => mret (Some [])
  | S n =>
    let pp := u64 (uvec + count * 8) in
    ok ← user_range_ok pp 8 false;
    if negb ok then mret None
    else
      let us := user_word um pp in
      if us =? 0 then mret (Some [])
      else
        '(k, buf) ← copy_user_str um us (replicate EXEC_STR_MAX 204);
        if k <? 0 then mret None
        else
          rest ← user_vec n um uvec (count + 1);
          mret ((λ l, cut0 buf :: l) <$> rest)
  end.

(** The strings that [out] points to; [None] is the result -1. *)
Definition copy_user_vec (um : Z → Z) (uvec : Z) (max : nat) : M sched (option (list (list Z))) :=
  if uvec =? 0 then mret (Some []) else user_vec max um uvec 0.

(** ** Commands *)

Definition is_blank (c : Z) : bool := (c =? 32) || (c =? 9).

(** The first offset from [p] on whose byte is not one of [f]. *)
Definition skip_while {St} (f : Z → bool) (buf : list Z) (p : Z) : M St Z :=
  loop_fuel (S (length buf)) (λ p, c ← load buf p; mret (if f c then inl (p + 1) else inr p)) p.

Definition is_word (c : Z) : bool := negb (c =? 0) && negb (is_blank c).
Definition skip_blanks {St} (buf : list Z) (p : Z) : M St Z := skip_while is_blank buf p.
Definition skip_word {St} (buf : list Z) (p : Z) : M St Z := skip_while is_word buf p.

(** The loop that cuts the command into words: the offsets of the words and the
    buffer, in which a NUL ends every word. *)
Fixpoint cut_words {St} (n : nat) (buf : list Z) (p : Z) : M St (list Z * list Z) :=
  match n with
  | O => mret ([], buf)
  | S n =>
    c ← load buf p;
    if c =? 0 then mret ([], buf)
    else
      p ← skip_blanks buf p;
      c ← load buf p;
      if c =? 0 then mret ([], buf)
      else
        q ← skip_word buf p;
        c ← load buf q;
        '(ps, buf) ← (if c =? 0 then cut_words n buf q else cut_words n (<[Z.to_nat q := 0]> buf) (q + 1));
        mret (p :: ps, buf)
  end.

(** The strings the entries of [argv] point to. *)
Definition spawn_args {St} (cmd : list Z) : M St (list (list Z)) :=
  '(ps, buf) ← cut_words 16 cmd 0;
  mret ((λ p, cut0 (drop (Z.to_nat p) buf)) <$> ps).

(** ** Processes *)

Section exec.
Context {env : VfsEnv} (sy : symbols).

(** A new address space with the program of [elf]: its root, the entry point
    and the stack pointer. *)
Definition new_image (elf : list Z) (argv envp : list (list Z)) : M sched (option (Z * Z * Z)) :=
  mmu ← on_mmu vmm_new_user_root;
  match mmu with
  | None => mret None
  | Some mmu =>
    r ← elf_load mmu elf argv envp;
    match r with
    | None => on_mmu (vmm_free_root mmu) ;; mret None
    | Some (entry, stack_top) => mret (Some (mmu, entry, stack_top))
    end
  end.

Definition exec_user_program (elf name : list Z) : M sched Z :=
  i ← new_image elf [name] [];
  match i with
  | None => mret (-1)
  | Some (mmu, entry, stack_top) =>
    t ← sched_spawn_user_in sy mmu entry stack_top 0x202 name no_regs;
    (if t =? 0 then mret tt else sched_mark_init t) ;;
    mret 0
  end.

Definition spawn_process_with_args (elf name : list Z) (argv : list (list Z)) : M sched Z :=
  i ← new_image elf argv [];
  match i with
  | None => mret (-1)
  | Some (mmu, entry, stack_top) =>
    t ← sched_spawn_user_in sy mmu entry stack_top 0x202 name no_regs;
    if t =? 0 then mret (-1) else x ← thr t; mret (t_pid x)
  end.

(** The child inherits actions, mask and channels; nothing is pending. *)
Definition inherit_signals (c t : thread) : thread :=
  set_signals (λ _, Signals 0 (sig_mask (t_signals c)) (sig_actions (t_signals c)) (sig_ipc (t_signals c))) t.

Definition fork_process (u : syscall_uregs) : M sched Z :=
  cur ← sched_current;
  if cur =? 0 then mret (-1)
  else
    c ← thr cur;
    mmu ← on_mmu (vmm_clone_root (x_mmu (t_exec c)));
    match mmu with
    | None => mret (-1)
    | Some mmu =>
      t ← sched_spawn_user_in sy mmu (su_rip u) (su_rsp u) (su_rflags u) (cut0 (t_name c)) (su_regs u);
      if t =? 0 then mret (-1)
      else
        c ← thr cur;
        upd t (inherit_signals c) ;;
        x ← thr t;
        mret (t_pid x)
    end.

Definition sys_fork (u : syscall_uregs) : M sched Z := r ← fork_process u; mret (u64 r).

(** ** exec *)

(** The file of a program that the caller may execute. *)
Definition read_exec_file (path cwd : list Z) : M sched (option (list Z)) :=
  n ← as_current (vfs_lookup path cwd);
  match n with
  | None => mret None
  | Some n =>
    v ← on_vfs (deref n);
    let quit := on_vfs (vfs_release (Some n)) ;; mret None in
    if negb (bool_decide (vn_type v = VFS_FILE)) then quit
    else
      p ← check_current n VFS_MAY_EXEC;
      if negb (p =? 0) then quit
      else if vn_size v =? 0 then quit
      else
        m ← on_vfs kmalloc;
        match m with
        | None => quit
        | Some _ =>
          bs ← on_vfs (read_all n (vn_size v));
          on_vfs (vfs_release (Some n)) ;;
          mret (if strlen bs =? vn_size v then Some bs else None)
        end
  end.

Definition reset_action (a : sigaction) : sigaction := Sigaction (if sa_handler a =? SIG_IGN then SIG_IGN else SIG_DFL) 0 0 0.
Definition reset_signals (g : signals) : signals := Signals 0 (sig_mask g) (reset_action <$> sig_actions g) (sig_ipc g).

Definition sys_execve (um : Z → Z) (u : syscall_uregs) (a1 a2 a3 : Z) : M sched Z :=
  path ← copy_path um a1;
  match path with
  | None => mret (neg 1)
  | Some path =>
    argv ← copy_user_vec um a2 EXEC_MAX_ARGS;
    envp ← copy_user_vec um a3 EXEC_MAX_ENVS;
    match argv, envp with
    | Some argv, Some envp =>
      let argv := if bool_decide (argv = []) then [take (EXEC_STR_MAX - 1) path] else argv in
      vfs_ensure_proc ;;
      t ← gets current;
      if t =? 0 then mret (neg 1)
      else
        x ← thr t;
        buf ← read_exec_file path (cwd_of x);
        match buf with
        | None => mret (neg 1)
        | Some buf =>
          i ← new_image buf argv envp;
          match i with
          | None => mret (neg 1)
          | Some (mmu, entry, stack_top) =>
            upd t (set_signals reset_signals) ;;
            r ← sched_set_current_image mmu entry stack_top (su_rflags u) path;
            if negb (r =? 0) then on_mmu (vmm_free_root mmu) ;; mret (neg 1) else mret 0
          end
        end
    | _, _ => mret (neg EFAULT)
    end
  end.

(** ** spawn *)

Definition try_exec_path (path : list Z) (argv : list (list Z)) : M sched Z :=
  f ← as_current (vfs_read_file path);
  match f with
  | None => mret (-1)
  | Some buf => spawn_process_with_args buf path argv
  end.

(** The directories in turn, from the first whose program starts. *)
Fixpoint search_path (dirs : list (list Z)) (name : list Z) (argv : list (list Z)) : M sched Z :=
  match dirs with
  | [] => mret (-1)
  | dir :: dirs =>
    if 256 <=? strlen dir + 1 + strlen name then search_path dirs name argv
    else
      let full := dir ++ (if (0 <? strlen dir) && negb (bool_decide (last dir = Some 47)) then [47] else []) ++ name in
      pid ← try_exec_path full argv;
      if 0 <=? pid then mret pid else search_path dirs name argv
  end.

Definition sys_spawn_cmd (um : Z → Z) (u_cmd len : Z) : M sched Z :=
  let len := if 255 <? len then 255 else len in
  ok ← (if len =? 0 then mret true else user_range_ok u_cmd len false);
  if negb ok then mret (neg EFAULT)
  else
    argv ← spawn_args (user_bytes um u_cmd len ++ [0]);
    match argv with
    | [] => mret (neg 1)
    | name :: _ =>
      pid ← (if bool_decide (47 ∈ name) then try_exec_path name argv else search_path kpath_dirs name argv);
      mret (if 0 <=? pid then u64 pid else neg 1)
    end.

(** ** init *)

Definition exec_init_from_disk : M sched unit :=
  f ← as_current (vfs_read_file (cstr "/bin/init"));
  match f with
  | None => mret tt
  | Some buf => exec_user_program buf (cstr "init") ;; mret tt
  end.

(** What [sched_check_init] calls. *)
Definition kernel_respawn_init : SchedEnv := {| respawn_init := exec_init_from_disk |}.
End exec.

(** ** The words of a command *)

(** The maximal runs of bytes that are not blank. *)
Fixpoint words (s : list Z) : list (list Z) :=
  match s with
  | [] => []
  | c :: s =>
    if is_blank c then words s
    else match head s with
         | None => [[c]]
         | Some d => if is_blank d then [c] :: words s else match words s with w :: ws => (c :: w) :: ws | [] => [[c]] end
         end
  end.

Lemma words_blanks a b : Forall (λ c, is_blank c = true) a → words (a ++ b) = words b.
Proof. induction 1 as [|c a Hc _ IH]; [done|]. simpl. by rewrite Hc. Qed.

Lemma words_word c w b :
  Forall (λ c, is_blank c = false) (c :: w) → (∀ d, head b = Some d → is_blank d = true) → words ((c :: w) ++ b) = (c :: w) :: words b.
Proof.
  intros Hw Hb. apply Forall_cons in Hw as [Hc Hw]. revert c Hc. induction Hw as [|d w Hd Hw IH]; intros c Hc.
  - simpl. rewrite Hc. destruct b as [|e b]; [done|]. cbn [head app]. by rewrite (Hb e eq_refl).
  - specialize (IH d Hd). change ((c :: d :: w) ++ b) with (c :: (d :: w) ++ b). cbn [words]. rewrite Hc. change ((d :: w) ++ b) with (d :: (w ++ b)) in *.
    cbn [head]. by rewrite Hd, IH.
Qed.

(** A list is cut at the first byte that is not one of [f]. *)
Lemma span_exists (f : Z → bool) l : ∃ a b, l = a ++ b ∧ Forall (λ c, f c = true) a ∧ ∀ d, head b = Some d → f d = false.
Proof.
  induction l as [|c l (a & b & -> & Ha & Hb)]; [by exists [], []|]. destruct (f c) eqn:Hc.
  - exists (c :: a), b. split_and!; [done|by constructor|done].
  - exists [], (c :: a ++ b). split_and!; [done|constructor|]. by intros d [= <-].
Qed.

Lemma wp_skip_while {St} f buf p a b (Q : Z → St → Prop) s :
  0 ≤ p → drop (Z.to_nat p) buf = a ++ b → b ≠ [] → Forall (λ c, f c = true) a → (∀ d, head b = Some d → f d = false) →
  Q (p + strlen a) s → wp (skip_while f buf p) Q s.
Proof.
  intros Hp Hd Hb Ha Hf HQ. unfold skip_while. assert (length buf = (Z.to_nat p + length a + length b)%nat ∨ (length buf < Z.to_nat p)%nat) as Hlen.
  { apply (f_equal length) in Hd. rewrite length_drop, length_app in Hd. lia. }
  assert (length b ≠ 0%nat) as Hb0 by (by destruct b).
  assert (length buf = (Z.to_nat p + length a + length b)%nat) as Hl.
  { destruct Hlen as [?|?]; [done|]. apply (f_equal length) in Hd. rewrite length_drop, length_app in Hd. lia. }
  apply (wp_loop_fuel (λ q s', s' = s ∧ p ≤ q ≤ p + strlen a) (λ q, p + strlen a - q)); unfold strlen in *.
  - split; [done|lia].
  - lia.
  - intros q s' [_ Hq]. lia.
  - intros q s' [-> Hq]. assert (buf !! Z.to_nat q = (a ++ b) !! (Z.to_nat (q - p))) as Hlook by (rewrite <-Hd, lookup_drop; f_equal; lia).
    wp_step. destruct (decide (q = p + Z.of_nat (length a))) as [->|Hne].
    + rewrite lookup_app_r in Hlook by lia. replace (Z.to_nat _ - length a)%nat with 0%nat in Hlook by lia. rewrite <-head_lookup in Hlook.
      destruct b as [|d b]; [done|]. apply (wp_load buf _ d); [lia|done|]. wp_step. by rewrite (Hf d).
    + rewrite lookup_app_l in Hlook by lia. destruct (lookup_lt_is_Some_2 a (Z.to_nat (q - p))) as [c Hc]; [lia|]. rewrite Hc in Hlook.
      apply (wp_load buf _ c); [lia|done|]. wp_step. rewrite Forall_lookup in Ha. rewrite (Ha _ _ Hc). split; [split; [done|lia]|lia].
Qed.

(** [buf] from [p] on is the string [s], terminated. *)
Definition rest_is (buf : list Z) (p : Z) (s : list Z) : Prop := 0 ≤ p ∧ nul_free s ∧ ∃ junk, drop (Z.to_nat p) buf = s ++ 0 :: junk.

Lemma rest_load {St} buf p s (Q : Z → St → Prop) x :
  rest_is buf p s → Q (default 0 (head s)) x → wp (load buf p) Q x.
Proof.
  intros (Hp & _ & junk & Hd) HQ. apply (wp_load buf p (default 0 (head s))); [done| |done].
  rewrite <-(Nat.add_0_r (Z.to_nat p)), <-lookup_drop, Hd. by destruct s.
Qed.

Lemma rest_drop buf p a s : rest_is buf p (a ++ s) → rest_is buf (p + strlen a) s.
Proof.
  intros (Hp & Hn & junk & Hd). unfold strlen. split; [lia|]. split; [by apply Forall_app in Hn as [_ ?]|]. exists junk.
  replace (Z.to_nat (p + Z.of_nat (length a))) with (Z.to_nat p + length a)%nat by lia. by rewrite <-drop_drop, Hd, <-app_assoc, drop_app_length.
Qed.

Lemma nul_free_word s : nul_free s → Forall (λ c, (c =? 0) = false) s.
Proof. intros Hs. eapply Forall_impl; [exact Hs|]. intros c. by apply Z.eqb_neq. Qed.

Lemma wp_cut_nothing {St} n buf p (Q : list Z * list Z → St → Prop) x : rest_is buf p [] → Q ([], buf) x → wp (cut_words n buf p) Q x.
Proof. intros Hr HQ. destruct n as [|n]; cbn [cut_words]; [by wp_step|]. wp_step. eapply rest_load; [exact Hr|]. cbn. by wp_step. Qed.

(** A word and the NUL that ends it stay. *)
Lemma word_kept buf buf' p w c b junk :
  nul_free w → drop p buf = w ++ c :: b ++ junk → take (S (p + length w)) buf' = take (S (p + length w)) (<[(p + length w)%nat := 0]> buf) → cut0 (drop p buf') = w.
Proof.
  intros Hw Hd Ht. assert (p ≤ length buf)%nat as Hl. { destruct (le_lt_dec p (length buf)); [done|]. rewrite drop_ge in Hd by lia. by destruct w. }
  assert (buf = take p buf ++ w ++ c :: b ++ junk) as E by (by rewrite <-Hd, take_drop). assert (length (take p buf) = p) as Hp by (rewrite length_take; lia).
  set (pre := take p buf) in *. clearbody pre. subst buf p. clear Hd Hl.
  assert (<[(length pre + length w)%nat := 0]> (pre ++ w ++ c :: b ++ junk) = (pre ++ w ++ [0]) ++ b ++ junk) as E.
  { rewrite !app_assoc, <-length_app, <-!app_assoc, (app_assoc pre). by rewrite <-(Nat.add_0_r (length _)), insert_app_r, <-!app_assoc. }
  rewrite E in Ht. replace (S (length pre + length w)) with (length (pre ++ w ++ [0])) in Ht by (rewrite !length_app; simpl; lia).
  rewrite take_app_length in Ht. rewrite <-(take_drop (length (pre ++ w ++ [0])) buf'), Ht, <-!app_assoc, drop_app_length. by apply cut0_app.
Qed.

Lemma wp_cut_words {St} n buf p s (Q : list Z * list Z → St → Prop) x :
  rest_is buf p s →
  (∀ ps buf', take (Z.to_nat p) buf' = take (Z.to_nat p) buf → (λ q, cut0 (drop (Z.to_nat q) buf')) <$> ps = take n (words s) → Q (ps, buf') x) →
  wp (cut_words n buf p) Q x.
Proof.
  revert buf p s Q. induction n as [|n IH]; intros buf p s Q Hr HQ; cbn [cut_words]; [wp_step; by apply HQ|].
  wp_step. eapply rest_load; [exact Hr|]. destruct s as [|c0 s0]; [cbn; wp_step; by apply HQ|]. set (s := c0 :: s0) in *.
  pose proof Hr as (Hp & Hnf & _). assert (c0 ≠ 0) as Hc0 by (unfold s in Hnf; by apply Forall_cons in Hnf as [? _]).
  replace (default 0 (head s) =? 0) with false by (symmetry; by apply Z.eqb_neq). clearbody s. clear c0 s0 Hc0.
  destruct (span_exists is_blank s) as (a & b & -> & Ha & Hb). pose proof (rest_drop _ _ _ _ Hr) as Hr1. pose proof Hr as (_ & _ & junk & Hd).
  apply Forall_app in Hnf as [_ Hnfb]. rewrite words_blanks in HQ by done.
  wp_step. unfold skip_blanks. apply (wp_skip_while is_blank buf p a (b ++ 0 :: junk)); [done|by rewrite Hd, <-app_assoc|by destruct b|done|by destruct b; [intros d [= <-]|]|].
  wp_step. eapply rest_load; [exact Hr1|]. destruct b as [|c0 b0]; [cbn; wp_step; by apply HQ|].
  pose proof (Hb c0 eq_refl) as Hc0. pose proof Hnfb as [Hz _]%Forall_cons. cbn. rewrite (proj2 (Z.eqb_neq c0 0) Hz).
  set (p1 := p + strlen a) in *. destruct (span_exists is_word (c0 :: b0)) as (w & b & Eb & Hw & Hbb).
  destruct w as [|c1 w]; [cbn in Eb; subst b; specialize (Hbb c0 eq_refl); unfold is_word in Hbb; by rewrite Hc0, (proj2 (Z.eqb_neq c0 0) Hz) in Hbb|].
  rewrite Eb in *. clear Eb c0 b0 Hc0 Hz. pose proof (rest_drop _ _ _ _ Hr1) as Hr2. pose proof Hr1 as (Hp1 & _ & junk1 & Hd1).
  apply Forall_app in Hnfb as [Hnw Hnb].
  assert (∀ d, head b = Some d → is_blank d = true) as Hbl.
  { intros d Hdd. specialize (Hbb d Hdd). unfold is_word in Hbb. destruct b as [|d' b]; [done|]. injection Hdd as ->. apply Forall_cons in Hnb as [Hnd _].
    rewrite (proj2 (Z.eqb_neq d 0) Hnd) in Hbb. cbn in Hbb. by destruct (is_blank d). }
  assert (words ((c1 :: w) ++ b) = (c1 :: w) :: words b) as Ew.
  { apply words_word; [|done]. eapply Forall_impl; [exact Hw|]. intros d. unfold is_word. by destruct (is_blank d); rewrite ?andb_false_r. }
  rewrite Ew in HQ. clear Ew. set (v := c1 :: w) in *. clearbody v. clear c1 w.
  wp_step. unfold skip_word. apply (wp_skip_while is_word buf p1 v (b ++ 0 :: junk1)); [done|by rewrite Hd1, <-app_assoc|by destruct b|done|by destruct b; [intros d [= <-]|]|].
  set (q := p1 + strlen v) in *. assert (Z.to_nat q = (Z.to_nat p1 + length v)%nat) as Eq by (unfold q, strlen; lia).
  assert (Z.to_nat p ≤ Z.to_nat q)%nat as Hpq by (unfold q, p1, strlen; lia).
  wp_step. eapply rest_load; [exact Hr2|]. destruct b as [|c b].
  - change (default 0 (head []) =? 0) with true. cbn iota. wp_step. apply wp_cut_nothing; [done|]. wp_step. apply HQ; [done|]. cbn [fmap list_fmap words]. destruct n; cbn [take]; f_equal; rewrite Hd1, app_nil_r; by apply cut0_app.
  - pose proof Hnb as [Hc Hnb']%Forall_cons. change (default 0 (head (c :: b))) with c. rewrite (proj2 (Z.eqb_neq c 0) Hc). wp_step.
    assert (rest_is (<[Z.to_nat q := 0]> buf) (q + 1) b) as Hr3.
    { replace (c :: b) with ([c] ++ b) in Hr2 by done. apply rest_drop in Hr2. destruct Hr2 as (Hq & Hn & junk2 & Hd2). change (strlen [c]) with 1 in *.
      split; [done|]. split; [done|]. exists junk2. rewrite drop_insert_lt; [done|]. destruct Hr1 as (? & _). unfold q, strlen. lia. }
    apply (IH _ (q + 1) b); [done|]. intros ps buf' Ht Hps. wp_step. replace (Z.to_nat (q + 1)) with (S (Z.to_nat q)) in Ht by (unfold q, strlen; lia). apply HQ.
    + assert (take (Z.to_nat p) (take (S (Z.to_nat q)) buf') = take (Z.to_nat p) (take (S (Z.to_nat q)) (<[Z.to_nat q := 0]> buf))) as E by (by rewrite Ht).
      rewrite !take_take, !Nat.min_l in E by lia. by rewrite take_insert_ge in E by lia.
    + cbn [fmap list_fmap take words]. rewrite (Hbl c eq_refl), Hps. f_equal. rewrite Eq in Ht. rewrite <-app_assoc in Hd1. eapply word_kept; [exact Hnw|exact Hd1|exact Ht].
Qed.

(** ** The vectors of a caller *)

Section vectors.
Context (um : Z → Z) (s : sched) (t : thread) (uvec : Z) (max : nat).

(** The pointer in slot [i]; whether it and its string may be read. *)
Definition slot (i : Z) : Z := user_word um (uvec + i * 8).
Definition slot_read (i : Z) : Prop := user_range s t false (uvec + i * 8) 8.
Definition arg_reach (i : Z) : Z := string_reach um (slot i) (Z.of_nat EXEC_STR_MAX - 1).
Definition arg_at (i : Z) (str : list Z) : Prop :=
  slot_read i ∧ slot i ≠ 0 ∧ user_range s t false (slot i) (arg_reach i) ∧ str = user_string um (slot i) (Z.of_nat EXEC_STR_MAX - 1).

(** Entries [i], ... are the strings [l], and then comes a null pointer or the
    end of the vector. *)
Definition vec_holds (i : Z) (n : nat) (l : list (list Z)) : Prop :=
  (length l ≤ n)%nat ∧ (∀ j str, l !! j = Some str → arg_at (i + Z.of_nat j) str) ∧
  (length l = n ∨ slot_read (i + Z.of_nat (length l)) ∧ slot (i + Z.of_nat (length l)) = 0).

(** Some entry before the end cannot be read. *)
Definition vec_bad (i : Z) (n : nat) : Prop :=
  ∃ j, (j < n)%nat ∧ (∀ k, (k < j)%nat → ∃ str, arg_at (i + Z.of_nat k) str) ∧
    (¬ slot_read (i + Z.of_nat j) ∨ slot_read (i + Z.of_nat j) ∧ slot (i + Z.of_nat j) ≠ 0 ∧ ¬ user_range s t false (slot (i + Z.of_nat j)) (arg_reach (i + Z.of_nat j))).

Context (Hus : user_space s t) (Hum : ∀ v, is_u8 (um v)).
Context (Hvec : 0 < uvec) (Hend : uvec + Z.of_nat max * 8 < 2 ^ 64) (Hslots : ∀ i, 0 ≤ i < Z.of_nat max → slot i + Z.of_nat EXEC_STR_MAX < 2 ^ 64).

Lemma slot_nonneg i : 0 ≤ slot i.
Proof.
  unfold slot, user_word. assert (Forall is_u8 (user_bytes um (uvec + i * 8) 8)) as Hall by (apply Forall_fmap, Forall_true; intros ?; apply Hum).
  induction Hall as [|b l Hb _ IH]; simpl; [done|]. unfold is_u8 in Hb. lia.
Qed.

Lemma vec_holds_nil i n : n = 0%nat ∨ slot_read i ∧ slot i = 0 → vec_holds i n [].
Proof. intros Hn. split; [simpl; lia|]. split; [done|]. simpl. rewrite Z.add_0_r. destruct Hn; auto. Qed.

Lemma vec_holds_cons i n str l : arg_at i str → vec_holds (i + 1) n l → vec_holds i (S n) (str :: l).
Proof.
  intros Ha (Hl & Hall & He). split; [simpl; lia|]. split.
  - intros [|j] x Hx; [injection Hx as <-; by rewrite Z.add_0_r|]. replace (i + Z.of_nat (S j)) with (i + 1 + Z.of_nat j) by lia. by apply Hall.
  - cbn [length]. replace (i + Z.of_nat (S (length l))) with (i + 1 + Z.of_nat (length l)) by lia. destruct He as [->|?]; auto.
Qed.

Lemma vec_bad_cons i n str : arg_at i str → vec_bad (i + 1) n → vec_bad i (S n).
Proof.
  intros Ha (j & Hj & Hk & Hb). exists (S j). split; [lia|]. replace (i + Z.of_nat (S j)) with (i + 1 + Z.of_nat j) by lia. split; [|done].
  intros [|k] Hlt; [exists str; by rewrite Z.add_0_r|]. replace (i + Z.of_nat (S k)) with (i + 1 + Z.of_nat k) by lia. apply Hk. lia.
Qed.

Lemma vec_bad_here i n : ¬ slot_read i ∨ slot_read i ∧ slot i ≠ 0 ∧ ¬ user_range s t false (slot i) (arg_reach i) → vec_bad i (S n).
Proof. intros Hb. exists 0%nat. split; [lia|]. split; [lia|]. by rewrite Z.add_0_r. Qed.

Lemma wp_user_vec n i (Q : option (list (list Z)) → sched → Prop) :
  0 ≤ i → i + Z.of_nat n ≤ Z.of_nat max →
  (∀ l, vec_holds i n l → Q (Some l) s) → (vec_bad i n → Q None s) → wp (user_vec n um uvec i) Q s.
Proof.
  revert i Q. induction n as [|n IH]; intros i Q Hi Hn HQ HQb; cbn [user_vec]; [wp_step; apply HQ, vec_holds_nil; by left|].
  rewrite (u64_small (uvec + i * 8)) by (unfold is_u64; lia). fold (slot i). wp_step. eapply wp_user_range; [exact Hus|lia|lia|]. intros b Hb. fold (slot_read i) in Hb.
  destruct b; cbn [negb]; [|wp_step; apply HQb, vec_bad_here; left; intros Hr; by apply Hb in Hr].
  assert (slot_read i) as Hr by (by apply Hb). destruct (Z.eqb_spec (slot i) 0) as [Hz|Hz]; [wp_step; apply HQ, vec_holds_nil; by right|].
  pose proof (slot_nonneg i) as Hs0. specialize (Hslots i ltac:(lia)). assert (strlen (replicate EXEC_STR_MAX 204) = Z.of_nat EXEC_STR_MAX) as El by (unfold strlen; by rewrite length_replicate).
  wp_step. apply (wp_copy_user_str um s t Hus (slot i) (replicate EXEC_STR_MAX 204)); rewrite ?El; fold (arg_reach i); [lia|done|done| |].
  - intros [k buf] Hrd (Hk & _ & junk & Hbuf). cbn [fst snd] in *. rewrite El in *. rewrite (proj2 (Z.ltb_ge k 0)).
    2:{ rewrite Hk. unfold string_reach, strlen, EXEC_STR_MAX. lia. }
    assert (arg_at i (cut0 buf)) as Ha.
    { split_and!; [done|done|done|]. rewrite Hbuf. apply cut0_app, cut0_nul_free. }
    wp_step. apply (IH (i + 1)); [lia|lia| |].
    + intros l Hl. wp_step. by apply HQ, vec_holds_cons.
    + intros Hbad. wp_step. by eapply HQb, vec_bad_cons.
  - intros buf Hbad _. change (- EFAULT <? 0) with true. cbn iota. wp_step. apply HQb, vec_bad_here. by right.
Qed.
End vectors.

(** Strings that were copied are short, so that two vectors fit the stack. *)
Definition short_arg (str : list Z) : Prop := strlen str < Z.of_nat EXEC_STR_MAX ∧ Forall is_u8 str.

Lemma vec_short um s t uvec i n l : (∀ v, is_u8 (um v)) → vec_holds um s t uvec i n l → Forall short_arg l.
Proof.
  intros Hum (_ & Hall & _). apply Forall_lookup. intros j str Hj. destruct (Hall j str Hj) as (_ & _ & _ & ->). unfold short_arg, user_string.
  assert (Forall is_u8 (user_bytes um (slot um uvec (i + Z.of_nat j)) (Z.of_nat EXEC_STR_MAX - 1))) as Hb by (apply Forall_fmap, Forall_true; intros ?; apply Hum).
  pose proof (user_bytes_length um (slot um uvec (i + Z.of_nat j)) (Z.of_nat EXEC_STR_MAX - 1)) as Hl. set (bs := user_bytes _ _ _) in *. clearbody bs.
  assert (length (cut0 bs) ≤ length bs ∧ Forall is_u8 (cut0 bs))%nat as [Hc Hu].
  { clear Hl. induction Hb as [|c bs Hc Hb [IH1 IH2]]; simpl; [by split|]. destruct (c =? 0); simpl; [split; [lia|constructor]|]. split; [lia|by constructor]. }
  split; [unfold strlen, EXEC_STR_MAX in *; lia|done].
Qed.

Lemma short_size l : Forall short_arg l → strings_size l ≤ Z.of_nat EXEC_STR_MAX * Z.of_nat (length l).
Proof. induction 1 as [|x l [Hx _] _ IH]; [done|]. cbn [strings_size foldr length]. fold (strings_size l). lia. Qed.

Lemma short_fit argv envp :
  (length argv ≤ EXEC_MAX_ARGS)%nat → (length envp ≤ EXEC_MAX_ENVS)%nat → Forall short_arg argv → Forall short_arg envp → args_fit argv envp.
Proof.
  intros Ha He Hsa Hse. pose proof (short_size _ Hsa). pose proof (short_size _ Hse). unfold args_fit, EXEC_MAX_ARGS, EXEC_MAX_ENVS, EXEC_STR_MAX in *.
  change (stack_pages * PAGE_SIZE) with 131072. split_and!; [lia|lia|eapply Forall_impl; [exact Hsa|]|eapply Forall_impl; [exact Hse|]|lia]; by intros ? [_ ?].
Qed.

(** ** Theorems *)

(** C40: [spawn_args], the parser of [sys_spawn_cmd], never leaves its buffer and
    passes on the first 16 words of the command, a word being a maximal run of
    bytes before the first NUL that are neither blank nor tab. *)
Theorem spawn_args_exact {St} cmd (s : St) : spawn_args (cmd ++ [0]) s = Ok (take 16 (words (cut0 cmd)), s).
Proof.
  apply wp_exact. unfold spawn_args. wp_step. apply (wp_cut_words 16 _ 0 (cut0 cmd)).
  - split; [done|]. split; [apply cut0_nul_free|]. destruct (cut0_split (cmd ++ [0])) as (_ & junk & Hj); [apply elem_of_app; right; by left|].
    assert (cut0 (cmd ++ [0]) = cut0 cmd) as <-; [|by exists junk].
    clear. induction cmd as [|c cmd IH]; [done|]. simpl. destruct (c =? 0); [done|]. by rewrite IH.
  - intros ps buf' _ Hps. wp_step. by rewrite Hps.
Qed.

(** C14: [copy_user_vec] of a vector of a process returns: the strings its
    pointers lead to, in order, up to the first null pointer or the maximum,
    each cut at 255 bytes, or the error exactly when a pointer before the end or
    the string it leads to cannot be read in user mode.  Two vectors copied like
    this fit the stack that [elf_load] builds. *)
Theorem copy_user_vec_exact um s t uvec max :
  user_space s t → (∀ v, is_u8 (um v)) → 0 < uvec → uvec + Z.of_nat max * 8 < 2 ^ 64 →
  (∀ i, 0 ≤ i < Z.of_nat max → slot um uvec i + Z.of_nat EXEC_STR_MAX < 2 ^ 64) →
  ∃ r, copy_user_vec um uvec max s = Ok (r, s) ∧
    match r with
    | Some l => vec_holds um s t uvec 0 max l ∧
        (∀ l', (max ≤ EXEC_MAX_ARGS)%nat → (length l' ≤ EXEC_MAX_ENVS)%nat → Forall short_arg l' → args_fit l l' ∧ args_fit l' l)
    | None => vec_bad um s t uvec 0 max
    end.
Proof.
  intros Hus Hum Hv He Hsl. assert (wp (copy_user_vec um uvec max) (λ r s', s' = s ∧
    match r with Some l => vec_holds um s t uvec 0 max l | None => vec_bad um s t uvec 0 max end) s) as Hwp.
  { unfold copy_user_vec. rewrite (proj2 (Z.eqb_neq _ _)) by lia. apply (wp_user_vec um s t uvec max); [done..|lia| |]; auto. }
  apply wp_ok in Hwp as (r & s' & Hrun & -> & Hr). exists r. split; [done|]. destruct r as [l|]; [|done]. split; [done|]. intros l' Hm Hl' Hsh.
  pose proof (vec_short _ _ _ _ _ _ _ Hum Hr) as Hsl'. destruct Hr as (Hlen & _). unfold EXEC_MAX_ARGS, EXEC_MAX_ENVS in *. split; apply short_fit; done || (unfold EXEC_MAX_ARGS, EXEC_MAX_ENVS; lia).
Qed.

(** A vector in the page of [demo_proc]: a pointer to a string and a null. *)
Definition demo_vec : list Z := le64 (demo_page + 16) ++ le64 0 ++ cstr "sh"%string ++ [0].
Definition demo_vec_um (v : Z) : Z := nth (Z.to_nat (v - demo_page)) demo_vec 0.

Lemma copy_user_vec_exact_witness :
  ∃ r, copy_user_vec demo_vec_um demo_page 32 demo_proc = Ok (r, demo_proc) ∧ r = Some [cstr "sh"%string] ∧ vec_holds demo_vec_um demo_proc demo_caller demo_page 0 32 [cstr "sh"%string].
Proof.
  assert (Forall is_u8 demo_vec) as Hu by (apply (bool_decide_unpack _); by vm_compute).
  destruct (copy_user_vec_exact demo_vec_um demo_proc demo_caller demo_page 32) as (r & Hrun & Hr).
  - exact demo_user_space.
  - intros v. unfold demo_vec_um. destruct (nth_in_or_default (Z.to_nat (v - demo_page)) demo_vec 0) as [Hin| ->]; [|done].
    rewrite Forall_forall in Hu. apply Hu. by apply list_elem_of_In.
  - by vm_compute.
  - by vm_compute.
  - assert (Forall (λ i, slot demo_vec_um demo_page i + Z.of_nat EXEC_STR_MAX < 2 ^ 64) (seqZ 0 32)) as Hs by (apply (bool_decide_unpack _); by vm_compute).
    intros i Hi. rewrite Forall_forall in Hs. apply Hs, elem_of_seqZ. exact Hi.
  - exists r. split; [exact Hrun|].
    assert (match copy_user_vec demo_vec_um demo_page 32 demo_proc with Ok (Some [x], _) => bool_decide (x = cstr "sh"%string) | _ => false end = true) as E by (by vm_compute).
    rewrite Hrun in E. destruct r as [[|x [|]]|]; [discriminate E| |discriminate E|discriminate E]. apply bool_decide_eq_true in E. subst x. split; [reflexivity|apply Hr].
Defined.
