(* ===== verification/Journal.v ===== *)
(** * Journal: the kernel log

    Models [kernel/journal.c]: the ring buffer that captures log bytes, in
    interrupt context too, and the flush that appends what is not yet stored to
    the log file.  The file is known through the class [LogFile], the part of
    [struct vfs_fops] the journal uses; the ramfs is an instance of it.  The
    abstract journal is a list of pending bytes and the content of the file,
    and every operation is proved to refine it. *)

From S2P Require Import Prelude CString VfsPath Vfs.

(** ** The log file *)

(** [sb->ops->write], the size field, and [size = 0]. *)
Class LogFile (F : Type) := {
  lf_write : F → Z → list Z → outcome (Z * F);
  lf_size : F → Z;
  lf_truncate : F → F;
}.

(** What the journal relies on: a write at the end of a file that is in order
    stores a prefix of its bytes, as many as it says.  The prefix is all of them
    as long as the file is [lf_roomy], for the ramfs that no allocation fails. *)
Class LogFileSpec (F : Type) `{LogFile F} := {
  lf_ok : F → Prop;
  lf_content : F → list Z;
  lf_roomy : F → Prop;
  lf_size_content : ∀ f, lf_ok f → lf_size f = Z.of_nat (length (lf_content f));
  lf_append : ∀ f bs, lf_ok f → Z.of_nat (length (lf_content f)) + Z.of_nat (length bs) ≤ 2 ^ 63 →
    ∃ w f', lf_write f (Z.of_nat (length (lf_content f))) bs = Ok (Z.of_nat w, f') ∧
          (w ≤ length bs)%nat ∧ lf_ok f' ∧ lf_content f' = lf_content f ++ take w bs ∧
          (lf_roomy f → w = length bs ∧ lf_roomy f');
  lf_truncate_ok : ∀ f, lf_ok f → lf_ok (lf_truncate f) ∧ lf_content (lf_truncate f) = [] ∧ (lf_roomy f → lf_roomy (lf_truncate f));
}.

Definition JOURNAL_RING : Z := 65536.

Section journal.
Context {F : Type} `{LogFile F}.

(** The statics of journal.c, with [g_in_irq] and the state of the spin lock. *)
Record journal := Journal {
  journal_ring : list Z;
  ring_prod : Z;
  ring_flushed : Z;
  journal_file : option F;
  journal_off : Z;
  journal_ready : bool;
  journal_lock : bool;
  g_in_irq : bool;
}.

Definition set_ring (r : list Z) (p : Z) (j : journal) : journal :=
  Journal r p (ring_flushed j) (journal_file j) (journal_off j) (journal_ready j) (journal_lock j) (g_in_irq j).
Definition set_flushed (f : Z) (j : journal) : journal :=
  Journal (journal_ring j) (ring_prod j) f (journal_file j) (journal_off j) (journal_ready j) (journal_lock j) (g_in_irq j).
Definition set_file (f : option F) (off : Z) (rdy : bool) (j : journal) : journal :=
  Journal (journal_ring j) (ring_prod j) (ring_flushed j) f off rdy (journal_lock j) (g_in_irq j).
Definition set_lock (l : bool) (j : journal) : journal :=
  Journal (journal_ring j) (ring_prod j) (ring_flushed j) (journal_file j) (journal_off j) (journal_ready j) l (g_in_irq j).

Definition spin_forever {A} : M journal A := λ _, NoFuel.

(** [spin_lock_irq]: with the lock taken, on the one processor, it spins for
    ever. *)
Definition spin_lock : M journal unit :=
  l ← gets journal_lock;
  if (l : bool) then spin_forever else modify (set_lock true).
Definition spin_unlock : M journal unit := modify (set_lock false).

(** [static void ring_append(const char *s, size_t len)] *)
Definition ring_put (c : Z) : M journal unit :=
  modify (λ j, set_ring (<[Z.to_nat (Z.land (ring_prod j) (JOURNAL_RING - 1)) := c]> (journal_ring j))
                        (u64 (ring_prod j + 1)) j).
Definition ring_append (s : list Z) : M journal unit := for_list s ring_put.

(** [write] at [journal_off], and [journal_off += w]. *)
Definition file_write (bs : list Z) : M journal Z :=
  f ← gets journal_file;
  off ← gets journal_off;
  match f with
  | None => fault
  | Some f =>
    match lf_write f off bs with
    | Ok (w, f') => modify (λ j, set_file (Some f') (u64 (off + w)) (journal_ready j) j) ;; mret w
    | Fault => fault
    | NoFuel => spin_forever
    end
  end.

(** The one or two writes of a flush of [pending] bytes. *)
Definition write_pending (pending : Z) : M journal unit :=
  flushed ← gets ring_flushed;
  let start := Z.land flushed (JOURNAL_RING - 1) in
  let first := if JOURNAL_RING <? start + pending then JOURNAL_RING - start else pending in
  ring ← gets journal_ring;
  w1 ← file_write (take (Z.to_nat first) (drop (Z.to_nat start) ring));
  (if (first <? pending) && (w1 =? first)
   then file_write (take (Z.to_nat (pending - first)) ring) ;; mret tt
   else mret tt) ;;
  modify (set_flushed (u64 (flushed + pending))).

(** [static void journal_flush_locked(void)] *)
Definition journal_flush_locked : M journal unit :=
  j ← gets id;
  if negb (journal_ready j) || bool_decide (journal_file j = None) then mret tt
  else
    let pending0 := u64 (ring_prod j - ring_flushed j) in
    pending ← (if JOURNAL_RING <? pending0
               then modify (set_flushed (u64 (ring_prod j - JOURNAL_RING))) ;; mret JOURNAL_RING
               else mret pending0);
    if pending =? 0 then mret tt else write_pending pending.

(** [void journal_emit(const char *s, size_t len)] *)
Definition journal_emit (s : list Z) : M journal unit :=
  match s with
  | [] => mret tt
  | _ =>
    irq ← gets g_in_irq;
    if (irq : bool) then
      l ← gets journal_lock;
      if (l : bool) then mret tt
      else modify (set_lock true) ;; ring_append s ;; spin_unlock
    else spin_lock ;; ring_append s ;; journal_flush_locked ;; spin_unlock
  end.

(** [void journal_flush(void)] *)
Definition journal_flush : M journal unit := spin_lock ;; journal_flush_locked ;; spin_unlock.

(** [void journal_init_late(void)]; [n] is what the lookup of
    /etc/journal.log finds. *)
Definition journal_init_late (n : option F) : M journal unit :=
  spin_lock ;;
  f ← gets journal_file;
  (match f, n with
   | None, Some n => modify (set_file (Some n) (lf_size n) true) ;; journal_flush_locked
   | _, _ => mret tt
   end) ;;
  spin_unlock.

(** [void journal_clear(void)] *)
Definition journal_clear : M journal unit :=
  spin_lock ;;
  modify (λ j, set_flushed 0 (set_ring (journal_ring j) 0 j)) ;;
  f ← gets journal_file;
  (match f with
   | Some f => modify (λ j, set_file (Some (lf_truncate f)) 0 (journal_ready j) j)
   | None => mret tt
   end) ;;
  spin_unlock.

(** At boot, in or out of an interrupt. *)
Definition journal_boot (irq : bool) : journal :=
  Journal (replicate (Z.to_nat JOURNAL_RING) 0) 0 0 None 0 false false irq.
End journal.

Arguments journal F : clear implicits.

(** ** The abstract journal *)

(** Bytes not yet stored, and the stored ones once there is a file. *)
Record alog := ALog { a_pend : list Z; a_file : option (list Z) }.

(** The last [n] elements. *)
Definition lastn (n : nat) (l : list Z) : list Z := drop (length l - n) l.

(** Storing what the ring still holds, of which the file takes at most [k]
    bytes; nothing is pending after, so the others are lost. *)
Definition a_flush (k : nat) (a : alog) : alog :=
  match a_file a with
  | None => a
  | Some f => ALog [] (Some (f ++ take k (lastn (Z.to_nat JOURNAL_RING) (a_pend a))))
  end.
(** A flush that stores everything. *)
Definition all : nat := Z.to_nat JOURNAL_RING.
Definition a_append (s : list Z) (a : alog) : alog := ALog (a_pend a ++ s) (a_file a).
Definition a_emit (k : nat) (irq : bool) (s : list Z) (a : alog) : alog :=
  match s with
  | [] => a
  | _ => if irq then a_append s a else a_flush k (a_append s a)
  end.
Definition a_init (k : nat) (content : option (list Z)) (a : alog) : alog :=
  match a_file a, content with
  | None, Some c => a_flush k (ALog (a_pend a) (Some c))
  | _, _ => a
  end.
Definition a_clear (a : alog) : alog := ALog [] ((λ _, []) <$> a_file a).

Section refinement.
Context {F : Type} `{LogFileSpec F}.
Implicit Types j : journal F.

(** The slot of the [i]th byte from the end. *)
Definition ring_slot (p : Z) (i : nat) : nat := Z.to_nat ((p - 1 - Z.of_nat i) mod JOURNAL_RING).

(** The ring holds the pending bytes, as many as fit. *)
Record ring_rep (r : list Z) (prod flushed : Z) (pend : list Z) : Prop := {
  rr_len : Z.of_nat (length r) = JOURNAL_RING;
  rr_prod : is_u64 prod;
  rr_flushed : is_u64 flushed;
  rr_fits : Z.of_nat (length pend) < 2 ^ 64;
  rr_count : u64 (prod - flushed) = Z.of_nat (length pend);
  rr_bytes : ∀ i, (i < length pend)%nat → Z.of_nat i < JOURNAL_RING →
    r !! ring_slot prod i = pend !! (length pend - 1 - i)%nat;
}.

(** The journal, its lock aside, implements the abstract one. *)
Record refines (j : journal F) (a : alog) : Prop := {
  rf_ring : ring_rep (journal_ring j) (ring_prod j) (ring_flushed j) (a_pend a);
  rf_file : match journal_file j, a_file a with
            | None, None => True
            | Some f, Some c => lf_ok f ∧ lf_content f = c ∧ journal_ready j = true ∧
                                journal_off j = Z.of_nat (length c)
            | _, _ => False
            end;
}.

Lemma ring_mod x : x mod 2 ^ 64 mod JOURNAL_RING = x mod JOURNAL_RING.
Proof. apply Z.mod_mod_divide. by exists (2 ^ 48). Qed.

Lemma ring_mask x : Z.land x (JOURNAL_RING - 1) = x mod JOURNAL_RING.
Proof. unfold JOURNAL_RING. by apply (land_ones_mod x 16). Qed.

Lemma ring_slot_lt p i : (ring_slot p i < Z.to_nat JOURNAL_RING)%nat.
Proof. unfold ring_slot, JOURNAL_RING. pose proof (Z.mod_pos_bound (p - 1 - Z.of_nat i) 65536). lia. Qed.

(** Slots of different bytes that fit differ. *)
Lemma ring_slot_inj p i k :
  Z.of_nat i < JOURNAL_RING → Z.of_nat k < JOURNAL_RING → ring_slot p i = ring_slot p k → i = k.
Proof.
  unfold ring_slot, JOURNAL_RING. intros Hi Hk Heq.
  pose proof (Z.mod_pos_bound (p - 1 - Z.of_nat i) 65536).
  pose proof (Z.mod_pos_bound (p - 1 - Z.of_nat k) 65536).
  assert ((p - 1 - Z.of_nat i) mod 65536 = (p - 1 - Z.of_nat k) mod 65536) as E by lia.
  Z.to_euclidean_division_equations; lia.
Qed.

(** The position of a byte counted from a wrapped index. *)
Lemma ring_slot_wrap x k : ring_slot (u64 x) k = ring_slot x k.
Proof.
  unfold ring_slot, u64. f_equal.
  rewrite <-(ring_mod (x mod 2 ^ 64 - 1 - _)), <-(ring_mod (x - 1 - _)). f_equal.
  rewrite <-!Z.sub_add_distr. by rewrite Zminus_mod_idemp_l.
Qed.

Lemma ring_rep_put r prod flushed pend c :
  ring_rep r prod flushed pend → Z.of_nat (length pend) + 1 < 2 ^ 64 →
  ring_rep (<[Z.to_nat (Z.land prod (JOURNAL_RING - 1)) := c]> r) (u64 (prod + 1)) flushed (pend ++ [c]).
Proof.
  intros [Hlen Hp Hf Hfit Hcnt Hb] Hroom. split.
  - by rewrite length_insert.
  - apply u64_range.
  - done.
  - rewrite length_app. simpl. lia.
  - rewrite length_app, Nat2Z.inj_add, <-Hcnt. unfold u64 in *. rewrite Zminus_mod_idemp_l.
    replace (prod + 1 - flushed) with (prod - flushed + 1) by lia.
    rewrite <-Zplus_mod_idemp_l, Hcnt. simpl length. rewrite Z.mod_small; lia.
  - intros i Hi Hir. rewrite length_app in Hi. simpl in Hi. rewrite ring_slot_wrap.
    assert (∀ k, ring_slot (prod + 1) (S k) = ring_slot prod k) as Hshift.
    { intros k. unfold ring_slot. do 2 f_equal. lia. }
    assert (ring_slot (prod + 1) 0 = Z.to_nat (Z.land prod (JOURNAL_RING - 1))) as Hzero.
    { rewrite ring_mask. unfold ring_slot. do 2 f_equal. lia. }
    rewrite length_app. simpl length. rewrite <-Hzero. destruct i as [|i].
    + rewrite list_lookup_insert_eq.
      * replace (length pend + 1 - 1 - 0)%nat with (length pend) by lia. by rewrite list_lookup_middle.
      * pose proof (ring_slot_lt (prod + 1) 0). lia.
    + rewrite list_lookup_insert_ne.
      * rewrite Hshift, Hb by lia. replace (length pend + 1 - 1 - S i)%nat with (length pend - 1 - i)%nat by lia.
        symmetry. apply lookup_app_l. lia.
      * intros E. apply ring_slot_inj in E; lia.
Qed.

(** The two parts of the ring that a flush writes are the last pending bytes. *)
Lemma ring_slice r prod flushed pend k start first :
  ring_rep r prod flushed pend →
  k = Z.min (Z.of_nat (length pend)) JOURNAL_RING → start = (prod - k) mod JOURNAL_RING →
  first = (if JOURNAL_RING <? start + k then JOURNAL_RING - start else k) →
  take (Z.to_nat first) (drop (Z.to_nat start) r) ++ take (Z.to_nat (k - first)) r =
  lastn (Z.to_nat JOURNAL_RING) pend ∧ 0 ≤ first ≤ k ∧
  Z.of_nat (length (take (Z.to_nat first) (drop (Z.to_nat start) r))) = first.
Proof.
  intros [Hlen Hp Hf Hfit Hcnt Hb] Hk Hstart Hfirst. unfold JOURNAL_RING in *.
  pose proof (Z.mod_pos_bound (prod - k) 65536 ltac:(lia)) as Hs. rewrite <-Hstart in Hs.
  assert (0 ≤ first ≤ k ∧ start + first ≤ 65536 ∧ (first < k → start + first = 65536)) as (Hf1 & Hf2 & Hf3).
  { destruct (Z.ltb_spec 65536 (start + k)); lia. }
  assert (length (take (Z.to_nat first) (drop (Z.to_nat start) r)) = Z.to_nat first) as Hl1
    by (rewrite length_take, length_drop; lia).
  split_and!; [|lia|lia|lia]. apply list_eq. intros i. unfold lastn. rewrite lookup_drop.
  destruct (decide (i < Z.to_nat k)%nat) as [Hi|Hi].
  - assert (pend !! (length pend - Z.to_nat 65536 + i)%nat = r !! ring_slot prod (Z.to_nat k - 1 - i)) as ->.
    { rewrite Hb by lia. f_equal. lia. }
    unfold ring_slot, JOURNAL_RING.
    replace (prod - 1 - Z.of_nat (Z.to_nat k - 1 - i)) with (prod - k + Z.of_nat i) by lia.
    rewrite <-Zplus_mod_idemp_l, <-Hstart.
    destruct (decide (i < Z.to_nat first)%nat).
    + rewrite lookup_app_l by lia. rewrite lookup_take_lt, lookup_drop by lia.
      rewrite Z.mod_small by lia. f_equal. lia.
    + rewrite lookup_app_r, Hl1 by lia. rewrite lookup_take_lt by lia.
      rewrite <-(Z.mod_unique_pos (start + Z.of_nat i) 65536 1 (start + Z.of_nat i - 65536)) by lia.
      f_equal. lia.
  - rewrite (lookup_ge_None_2 pend) by lia. apply lookup_ge_None_2.
    rewrite length_app, Hl1, length_take. lia.
Qed.

Lemma wp_file_write j f c bs (Q : Z → journal F → Prop) :
  journal_file j = Some f → lf_ok f → lf_content f = c → journal_off j = Z.of_nat (length c) →
  Z.of_nat (length c) + Z.of_nat (length bs) ≤ 2 ^ 63 →
  (∀ w f', (w ≤ length bs)%nat → lf_ok f' → lf_content f' = c ++ take w bs → (lf_roomy f → w = length bs ∧ lf_roomy f') →
     Q (Z.of_nat w) (set_file (Some f') (Z.of_nat (length (c ++ take w bs))) (journal_ready j) j)) →
  wp (file_write bs) Q j.
Proof.
  intros Hf Hok Hc Hoff Hfit HQ. unfold file_write. do 4 wp_step. rewrite Hf, Hoff. subst c.
  destruct (lf_append f bs Hok Hfit) as (w & f' & -> & Hw & Hok' & Hc' & Hroom). wp_step. wp_step. wp_step.
  rewrite u64_small by (unfold is_u64; lia). specialize (HQ w f' Hw Hok' Hc' Hroom).
  by rewrite length_app, length_take_le, Nat2Z.inj_add in HQ.
Qed.

(** The file, if there is one, stores everything from now on. *)
Definition roomy j : Prop := match journal_file j with Some f => lf_roomy f | None => True end.

(** The writes store a prefix of the last pending bytes, and nothing is pending
    after. *)
Lemma wp_write_pending j f c pend fl k (Q : unit → journal F → Prop) :
  ring_rep (journal_ring j) (ring_prod j) fl pend →
  k = Z.min (Z.of_nat (length pend)) JOURNAL_RING → u64 (ring_flushed j + k) = ring_prod j →
  journal_file j = Some f → lf_ok f → lf_content f = c → journal_off j = Z.of_nat (length c) →
  journal_ready j = true → Z.of_nat (length c) + JOURNAL_RING ≤ 2 ^ 63 →
  (∀ j' n, refines j' (ALog [] (Some (c ++ take n (lastn (Z.to_nat JOURNAL_RING) pend)))) →
     (lf_roomy f → n = all ∧ roomy j') → journal_lock j' = journal_lock j → g_in_irq j' = g_in_irq j → Q tt j') →
  wp (write_pending k) Q j.
Proof.
  intros Hring Hk Hmod Hf Hok Hc Hoff Hrdy Hfit HQ. unfold write_pending. do 4 wp_step.
  set (start := Z.land _ _). set (first := if _ <? _ then _ else _).
  assert (start = (ring_prod j - k) mod JOURNAL_RING) as Hstart.
  { unfold start. rewrite ring_mask, <-Hmod. unfold u64.
    rewrite <-(ring_mod (_ mod _ - k)), Zminus_mod_idemp_l, ring_mod. f_equal. lia. }
  destruct (ring_slice _ _ _ _ k start first Hring Hk Hstart eq_refl) as (Hslice & Hfirst & Hlen1).
  set (s1 := take (Z.to_nat first) _) in *. set (s2 := take (Z.to_nat (k - first)) _) in *.
  assert (Z.of_nat (length s1) + Z.of_nat (length s2) ≤ JOURNAL_RING) as Hlen.
  { rewrite <-Nat2Z.inj_add, <-length_app, Hslice. unfold lastn. rewrite length_drop.
    unfold JOURNAL_RING in *. lia. }
  assert (∀ j1 f1 m, lf_ok f1 → lf_content f1 = c ++ take m (s1 ++ s2) →
    (lf_roomy f → m = length (s1 ++ s2) ∧ lf_roomy f1) →
    j1 = set_file (Some f1) (Z.of_nat (length (c ++ take m (s1 ++ s2)))) (journal_ready j) j →
    Q tt (set_flushed (u64 (ring_flushed j + k)) j1)) as Hdone.
  { intros j1 f1 m Hok1 Hc1 Hroom ->.
    assert (refines (set_flushed (u64 (ring_flushed j + k)) (set_file (Some f1) (Z.of_nat (length (c ++ take m (s1 ++ s2)))) (journal_ready j) j))
      (ALog [] (Some (c ++ take m (s1 ++ s2))))) as Hr.
    { split; simpl; [|done]. destruct Hring. rewrite Hmod. split; simpl; [done|done|done|done| |].
      - unfold u64. by rewrite Z.sub_diag.
      - intros i Hi. lia. }
    rewrite Hslice in *. set (pe := lastn _ pend) in *. destruct (decide (m = length pe)) as [->|Hm].
    - apply (HQ _ all); [|intros Hrm; split; [done|by apply Hroom]|done|done].
      assert (take all pe = take (length pe) pe) as ->; [|done]. rewrite !take_ge; [done|lia|].
      unfold pe, lastn, all. rewrite length_drop. unfold JOURNAL_RING. lia.
    - apply (HQ _ m); [done|intros Hrm; by destruct (Hroom Hrm)|done|done]. }
  wp_step. eapply wp_file_write; [done..|lia|]. intros w1 f1 Hw1 Hok1 Hc1 Hroom1. wp_step.
  destruct ((first <? k) && (Z.of_nat w1 =? first)) eqn:E.
  - apply andb_true_iff in E as [Hlt%Z.ltb_lt E1%Z.eqb_eq]. assert (w1 = length s1) as -> by lia. rewrite take_ge in * by done.
    wp_step. eapply wp_file_write; [done..| |].
    { rewrite length_app, Nat2Z.inj_add. unfold JOURNAL_RING in *. lia. }
    intros w2 f2 Hw2 Hok2 Hc2 Hroom2. wp_step. wp_step. apply (Hdone _ f2 (length s1 + w2)%nat); [done|..].
    + by rewrite Hc2, take_app_add, <-(assoc_L (++)).
    + intros Hrm. destruct (Hroom1 Hrm) as [_ Hrm1]. destruct (Hroom2 Hrm1) as [-> ?]. by rewrite length_app.
    + rewrite take_app_add. unfold set_file. simpl. by rewrite <-(assoc_L (++)).
  - assert (lf_roomy f → s2 = []) as Hnil.
    { intros [-> _]%Hroom1. rewrite Hlen1, Z.eqb_refl, andb_true_r in E. unfold s2. apply Z.ltb_ge in E.
      by replace (Z.to_nat (k - first)) with O by lia. }
    assert (take w1 (s1 ++ s2) = take w1 s1) as Et by (by rewrite take_app_le).
    wp_step. wp_step. apply (Hdone _ f1 w1); [done|by rewrite Et| |by rewrite Et].
    intros Hrm. rewrite (Hnil Hrm), app_nil_r. by apply Hroom1.
Qed.

(** The flush implements the abstract one. *)
Lemma wp_flush j a (Q : unit → journal F → Prop) :
  refines j a →
  (∀ c, a_file a = Some c → Z.of_nat (length c) + JOURNAL_RING ≤ 2 ^ 63) →
  (∀ j' n, refines j' (a_flush n a) → (roomy j → n = all ∧ roomy j') → journal_lock j' = journal_lock j → g_in_irq j' = g_in_irq j → Q tt j') →
  wp journal_flush_locked Q j.
Proof.
  intros [Hring Hfile] Hfit HQ. unfold journal_flush_locked. wp_step. wp_step. cbn [id].
  destruct (journal_file j) as [f|] eqn:Hf, (a_file a) as [c|] eqn:Ha; try done.
  2:{ rewrite bool_decide_eq_true_2, orb_true_r by done. apply wp_ret. apply (HQ j all); [|done|done|done].
      unfold a_flush. rewrite Ha. split; [done|]. by rewrite Hf, Ha. }
  destruct Hfile as (Hok & Hc & Hrdy & Hoff). rewrite Hrdy, bool_decide_eq_false_2 by done. cbn [negb orb].
  unfold a_flush in HQ. rewrite Ha in HQ. unfold roomy at 1 in HQ. rewrite Hf in HQ. specialize (Hfit c eq_refl).
  pose proof (rr_count _ _ _ _ Hring) as Hcnt. rewrite Hcnt.
  assert (is_u64 (ring_prod j)) as Hp by apply Hring.
  destruct (Z.ltb_spec JOURNAL_RING (Z.of_nat (length (a_pend a)))).
  - do 4 wp_step. decide_cmps. unfold JOURNAL_RING in *. cbn iota.
    eapply wp_write_pending; simpl; [done|unfold JOURNAL_RING; lia| |done..].
    unfold u64. rewrite Zplus_mod_idemp_l. replace (ring_prod j - 65536 + 65536) with (ring_prod j) by lia.
    by apply Z.mod_small.
  - wp_step. wp_step. destruct (Z.eqb_spec (Z.of_nat (length (a_pend a))) 0) as [E|E].
    + apply wp_ret. apply (HQ j all); [| |done|done]; [|intros Hrm; split; [done|]; unfold roomy; by rewrite Hf].
      destruct (a_pend a); [|done].
      split; simpl; [done|]. rewrite Hf. by rewrite app_nil_r.
    + eapply wp_write_pending; [done|lia| |done..]. rewrite <-Hcnt. unfold u64. rewrite Zplus_mod_idemp_r.
      replace (ring_flushed j + (ring_prod j - ring_flushed j)) with (ring_prod j) by lia.
      by apply Z.mod_small.
Qed.

Lemma wp_ring_append j a s (Q : unit → journal F → Prop) :
  refines j a → Z.of_nat (length (a_pend a)) + Z.of_nat (length s) < 2 ^ 64 →
  (∀ j', refines j' (a_append s a) → journal_file j' = journal_file j → journal_lock j' = journal_lock j → g_in_irq j' = g_in_irq j → Q tt j') →
  wp (ring_append s) Q j.
Proof.
  intros Hr Hfit HQ. unfold ring_append.
  apply (wp_for_list (λ done j', (length done ≤ length s)%nat → refines j' (a_append done a) ∧
    journal_file j' = journal_file j ∧ journal_lock j' = journal_lock j ∧ g_in_irq j' = g_in_irq j)).
  - intros _. unfold a_append. rewrite app_nil_r. by destruct a.
  - intros pre c j' _ IH. unfold ring_put. wp_step. intros Hle. rewrite length_app in Hle. simpl in Hle.
    destruct IH as ([Hring Hfile] & Hf & Hl & Hi); [lia|]. split_and!; [|done|done|done]. split; simpl in *; [|done].
    rewrite (assoc_L (++)). apply ring_rep_put; [done|]. rewrite length_app. lia.
  - intros j' IH. destruct IH as (? & ? & ? & ?); [done|]. by apply HQ.
Qed.

(** ** Histories *)

(** The calls of the journal; an emission says whether it comes from an
    interrupt, an initialisation what the lookup of the file found. *)
Inductive jop :=
  | JEmit (irq : bool) (s : list Z)
  | JFlush
  | JInit (n : option F)
  | JClear.

Definition set_irq (b : bool) (j : journal F) : journal F :=
  Journal (journal_ring j) (ring_prod j) (ring_flushed j) (journal_file j) (journal_off j)
          (journal_ready j) (journal_lock j) b.

Definition jstep (op : jop) : M (journal F) unit :=
  match op with
  | JEmit irq s => modify (set_irq irq) ;; journal_emit s
  | JFlush => journal_flush
  | JInit n => journal_init_late n
  | JClear => journal_clear
  end.

(** A call whose flush, if it makes one, stores at most [k] bytes. *)
Definition astep (k : nat) (op : jop) (a : alog) : alog :=
  match op with
  | JEmit irq s => a_emit k irq s a
  | JFlush => a_flush k a
  | JInit n => a_init k (lf_content <$> n) a
  | JClear => a_clear a
  end.
Definition arun (a : alog) (l : list (jop * nat)) : alog := foldl (λ a op, astep op.2 op.1 a) a l.

(** Bytes in the abstract journal, and those an operation may add. *)
Definition asize (a : alog) : Z :=
  Z.of_nat (length (a_pend a)) + match a_file a with Some c => Z.of_nat (length c) | None => 0 end.
Definition opsize (op : jop) : Z :=
  match op with
  | JEmit _ s => Z.of_nat (length s)
  | JInit (Some n) => Z.of_nat (length (lf_content n))
  | _ => 0
  end.
Definition op_ok (op : jop) : Prop := match op with JInit (Some n) => lf_ok n | _ => True end.
Definition op_roomy (op : jop) : Prop := match op with JInit (Some n) => lf_roomy n | _ => True end.

Lemma asize_flush k a : asize (a_flush k a) ≤ asize a.
Proof.
  unfold asize, a_flush. destruct (a_file a) eqn:E; simpl; [|rewrite E; lia].
  rewrite length_app, length_take. unfold lastn. rewrite length_drop. lia.
Qed.

Lemma asize_step k op a : asize (astep k op a) ≤ asize a + opsize op.
Proof.
  destruct op as [irq s| |n|]; simpl.
  - unfold a_emit. destruct s as [|x s]; [simpl; lia|].
    assert (asize (a_append (x :: s) a) = asize a + Z.of_nat (length (x :: s))) as E.
    { unfold asize, a_append. cbn [a_pend a_file]. rewrite length_app. lia. }
    destruct irq; [lia|]. pose proof (asize_flush k (a_append (x :: s) a)). lia.
  - pose proof (asize_flush k a). lia.
  - unfold a_init. destruct (a_file a) eqn:Ha, n as [n|]; simpl; try lia.
    pose proof (asize_flush k (ALog (a_pend a) (Some (lf_content n)))) as Hf.
    assert (asize (ALog (a_pend a) (Some (lf_content n))) = asize a + Z.of_nat (length (lf_content n))) as E;
      [|lia]. unfold asize. rewrite Ha. simpl. lia.
  - unfold asize, a_clear. simpl. destruct (a_file a); simpl; lia.
Qed.

Lemma refines_lock j a b : refines j a → refines (set_lock b j) a.
Proof. intros [? ?]. by split. Qed.

Lemma refines_irq j a b : refines j a → refines (set_irq b j) a.
Proof. intros [? ?]. by split. Qed.

(** One call: it returns with the lock free, and implements the abstract one. *)
Lemma wp_jstep op j a :
  refines j a → journal_lock j = false → op_ok op → asize a + opsize op ≤ 2 ^ 62 →
  wp (jstep op) (λ _ j', ∃ k, refines j' (astep k op a) ∧ journal_lock j' = false ∧ (roomy j → op_roomy op → k = all ∧ roomy j')) j.
Proof.
  intros Hr Hl Hop Hsz.
  assert (∀ c, a_file a = Some c → Z.of_nat (length c) + JOURNAL_RING ≤ 2 ^ 63) as Hfit.
  { intros c Hc. unfold asize in Hsz. rewrite Hc in Hsz. unfold JOURNAL_RING.
    assert (0 ≤ opsize op) by (destruct op as [| |[]|]; simpl; lia). lia. }
  destruct op as [irq s| |n|]; simpl in *.
  - wp_step. wp_step. apply (refines_irq _ _ irq) in Hr. unfold journal_emit, a_emit.
    destruct s as [|x s]; [apply wp_ret; by exists all|]. set (bs := x :: s) in *. clearbody bs. wp_step. wp_step.
    assert (Z.of_nat (length (a_pend a)) + Z.of_nat (length bs) < 2 ^ 64) as Hroom.
    { unfold asize in Hsz. destruct (a_file a); lia. }
    cbn [g_in_irq set_irq]. destruct irq.
    + wp_step. wp_step. cbn [journal_lock set_irq]. rewrite Hl. wp_step. wp_step. wp_step.
      eapply wp_ring_append; [by apply refines_lock|done|]. intros j1 Hr1 Hf1 Hl1 _.
      unfold spin_unlock. wp_step. exists all. split_and!; [by apply refines_lock|done|].
      intros Hrm _. split; [done|]. unfold roomy. cbn. by rewrite Hf1.
    + wp_step. unfold spin_lock. wp_step. wp_step. cbn [journal_lock set_irq]. rewrite Hl. wp_step. wp_step.
      eapply wp_ring_append; [by apply refines_lock|done|]. intros j1 Hr1 Hf1 Hl1 _. wp_step.
      eapply wp_flush; [done|by intros c Hc; apply Hfit|]. intros j2 k Hr2 Hk _ _.
      unfold spin_unlock. wp_step. exists k. split_and!; [by apply refines_lock|done|].
      intros Hrm _. apply Hk. unfold roomy. by rewrite Hf1.
  - unfold journal_flush, spin_lock. wp_step. wp_step. wp_step. rewrite Hl. wp_step. wp_step.
    eapply wp_flush; [by apply refines_lock|done|]. intros j2 k Hr2 Hk _ _.
    unfold spin_unlock. wp_step. exists k. split_and!; [by apply refines_lock|done|]. intros Hrm _. by apply Hk.
  - unfold journal_init_late, spin_lock. wp_step. wp_step. wp_step. rewrite Hl. wp_step. wp_step. wp_step. wp_step.
    cbn [journal_file set_lock]. unfold a_init.
    destruct (journal_file j) as [f|] eqn:Hf, (a_file a) as [c|] eqn:Ha;
      try (destruct Hr as [_ Hfile]; by rewrite Hf, Ha in Hfile).
    + wp_step. unfold spin_unlock. exists all. split_and!; [by do 2 apply refines_lock|done|].
      intros Hrm _. split; [done|]. unfold roomy in *. cbn. by rewrite Hf in *.
    + destruct n as [n|]; simpl.
      * wp_step. wp_step. eapply (wp_flush _ (ALog (a_pend a) (Some (lf_content n)))).
        -- split; simpl; [apply Hr|]. by rewrite lf_size_content.
        -- intros c [= <-]. unfold asize in Hsz. rewrite Ha in Hsz. unfold JOURNAL_RING. simpl in Hsz. lia.
        -- intros j2 k Hr2 Hk _ _. unfold spin_unlock. wp_step. exists k. split_and!; [by apply refines_lock|done|].
           intros _ Hrm. by apply Hk.
      * wp_step. unfold spin_unlock. exists all. split_and!; [by do 2 apply refines_lock|done|].
        intros Hrm _. split; [done|]. unfold roomy in *. cbn. by rewrite Hf in *.
  - unfold journal_clear, spin_lock. wp_step. wp_step. wp_step. rewrite Hl. do 5 wp_step.
    cbn [journal_file set_flushed set_ring set_lock]. destruct Hr as [Hring Hfile].
    assert (ring_rep (journal_ring j) 0 0 []) as Hempty.
    { destruct Hring. split; simpl; [done|done|done|done|done|]. intros i Hi. lia. }
    wp_step. unfold a_clear, spin_unlock.
    destruct (journal_file j) as [f|] eqn:Hf, (a_file a) as [c|] eqn:Ha; try done.
    + destruct Hfile as (Hok & _ & Hrdy & _). destruct (lf_truncate_ok f Hok) as (Hok' & Hc' & Hrm'). do 2 wp_step.
      exists all. split_and!; [|done|]; [split; simpl; [done|]; by rewrite Hc'|].
      intros Hrm _. split; [done|]. unfold roomy in *. cbn. rewrite Hf in Hrm. by apply Hrm'.
    + do 2 wp_step. exists all. split_and!; [|done|]; [split; simpl; [done|]; by rewrite Hf|].
      intros _ _. split; [done|]. unfold roomy. cbn. by rewrite Hf.
Qed.
End refinement.

Arguments jop F : clear implicits.

(** ** The ramfs as a log file *)

(** A file of the ramfs: the file system and a node of it. *)
Definition ram_file : Type := vfs * nat.

Definition ram_node (f : ram_file) : option vnode := vf_nodes (fst f) !! (snd f).

#[global] Instance ram_log_file : LogFile ram_file := {
  lf_write f off bs :=
    match ramfs_write f.2 off bs f.1 with
    | Ok (w, s) => Ok (w, (s, f.2))
    | Fault => Fault
    | NoFuel => NoFuel
    end;
  lf_size f := (match ram_node f with Some v => vn_size v | None => 0 end);
  lf_truncate f :=
    match ram_node f with
    | Some v => (set_nodes (insert f.2 (with_data (vn_data v) (vn_cap v) 0 v)) f.1, f.2)
    | None => f
    end;
}.

Definition ram_ok (f : ram_file) : Prop :=
  vfs_ok f.1 ∧ ∃ v, ram_node f = Some v ∧ vn_type v = VFS_FILE ∧ vn_cap v < 2 ^ 64.

(** No allocation fails. *)
Definition ram_roomy (f : ram_file) : Prop := None ∉ vf_heap f.1.

Definition ram_content (f : ram_file) : list Z :=
  match ram_node f with Some v => content v | None => [] end.

Lemma content_length v : data_ok v → Z.of_nat (length (content v)) = vn_size v.
Proof.
  unfold data_ok, content. destruct (vn_data v); [|by intros [_ ->]]. intros (? & ? & ?).
  rewrite length_take. lia.
Qed.

Lemma ram_append f bs :
  ram_ok f → Z.of_nat (length (ram_content f)) + Z.of_nat (length bs) ≤ 2 ^ 63 →
  ∃ w f', lf_write f (Z.of_nat (length (ram_content f))) bs = Ok (Z.of_nat w, f') ∧
        (w ≤ length bs)%nat ∧ ram_ok f' ∧ ram_content f' = ram_content f ++ take w bs ∧
        (ram_roomy f → w = length bs ∧ ram_roomy f').
Proof.
  destruct f as [s n]. intros (Hok & v & Hv & Hty & Hcap) Hfit. unfold ram_content in *.
  rewrite Hv in *. unfold ram_node in Hv. simpl in Hok, Hv.
  pose proof (no_data _ (tr_node _ (vo_tree _ Hok) _ _ Hv)) as Hd.
  assert (wp (ramfs_write n (Z.of_nat (length (content v))) bs) (λ z s', ∃ w, z = Z.of_nat w ∧ (w ≤ length bs)%nat ∧
    ram_ok (s', n) ∧ ram_content (s', n) = content v ++ take w bs ∧ (ram_roomy (s, n) → w = length bs ∧ ram_roomy (s', n))) s) as Hw.
  { eapply wp_ramfs_write; [done..|lia|unfold strlen; lia| |].
    { intros h Hmem Hh. exists 0%nat. split_and!; [done|lia| | |done].
      - split; [by apply ok_set_heap|by exists v].
      - unfold ram_content, ram_node. simpl. by rewrite Hv, app_nil_r. }
    intros s' v' pre Hok' Hn' Hty' Hpl Hpre Hc' Hcap' Hheap'. exists (length bs). rewrite (take_ge bs) by done.
    assert (ram_node (s', n) = Some v') as Hrn by (unfold ram_node; simpl; by rewrite Hn', lookup_insert_eq).
    split_and!; [done|done|split; [done|by exists v']| |].
    2:{ unfold ram_roomy. simpl. intros Hmem. split; [done|set_solver]. }
    - unfold ram_content. rewrite Hrn, Hc', Nat2Z.id, drop_ge, app_nil_r by lia. f_equal.
      rewrite Nat2Z.id in *. rewrite <-content_length, Nat2Z.id in Hpre by done.
      by rewrite !take_ge in Hpre by lia. }
  apply wp_ok in Hw as (z & s' & Hrun & w & -> & Hw & Hok' & Hc' & Hrm). exists w, (s', n). simpl. by rewrite Hrun.
Qed.

Lemma ram_truncate f : ram_ok f → ram_ok (lf_truncate f) ∧ ram_content (lf_truncate f) = [] ∧ (ram_roomy f → ram_roomy (lf_truncate f)).
Proof.
  destruct f as [s n]. intros (Hok & v & Hv & Hty & Hcap). simpl. rewrite Hv.
  unfold ram_node in Hv. simpl in *. pose proof (tr_node _ (vo_tree _ Hok) _ _ Hv) as Hnode.
  set (v0 := with_data _ _ _ _).
  assert (vf_nodes (set_nodes (insert n v0) s) !! n = Some v0) as Hn0 by (simpl; apply lookup_insert_eq).
  split_and!; [| |done].
  - split; simpl; [|exists v0; by unfold ram_node]. eapply ok_touch; try done.
    destruct Hnode. split; simpl; [done| |done|done].
    unfold data_ok in *. simpl. destruct (vn_data v); lia.
  - unfold ram_content, ram_node. simpl. rewrite lookup_insert_eq. unfold content. simpl.
    by destruct (vn_data v).
Qed.

Lemma ram_size f : ram_ok f → lf_size f = Z.of_nat (length (ram_content f)).
Proof.
  destruct f as [s n]. intros (Hok & v & Hv & _). unfold ram_content. simpl. rewrite Hv.
  unfold ram_node in Hv. simpl in Hv. symmetry. apply content_length. apply (tr_node _ (vo_tree _ Hok) _ _ Hv).
Qed.

#[global] Instance ram_log_spec : LogFileSpec ram_file := {
  lf_ok := ram_ok;
  lf_content := ram_content;
  lf_roomy := ram_roomy;
  lf_size_content := ram_size;
  lf_append := ram_append;
  lf_truncate_ok := ram_truncate;
}.

(** ** Properties *)

(** C21: the journal refines its abstract specification over every history of
    calls, from thread and interrupt context.  Each call returns with the lock
    free, and after it the log file holds exactly the bytes the abstract
    journal has stored: between two clears, which empty the file, every flush
    appends, in order and once, the bytes emitted since the last one that are
    left of it: of more than 65536 pending bytes the oldest are lost, and when
    the file takes only some bytes of a write (the numbers [ks]) those behind
    them are lost.  As long as the file takes whole writes nothing else is
    lost.  The counters may wrap around. *)
Theorem journal_refines {F} `{LogFileSpec F} (ops : list (jop F)) (j : journal F) a :
  refines j a → journal_lock j = false → Forall op_ok ops →
  asize a + foldr Z.add 0 (opsize <$> ops) ≤ 2 ^ 62 →
  ∃ j' ks, for_list ops jstep j = Ok (tt, j') ∧ length ks = length ops ∧ refines j' (arun a (zip ops ks)) ∧
        journal_lock j' = false ∧ (roomy j → Forall op_roomy ops → Forall (λ k, k = all) ks).
Proof.
  intros Hr Hl Hops. revert j a Hr Hl. induction Hops as [|op ops Hop Hops IH]; intros j a Hr Hl Hsz.
  - by exists j, [].
  - assert (∀ l : list (jop F), 0 ≤ foldr Z.add 0 (opsize <$> l)) as Hpos.
    { intros l. induction l as [|o l IHl]; [done|]. rewrite fmap_cons. cbn [foldr].
      assert (0 ≤ opsize o) by (destruct o as [| |[]|]; simpl; lia). lia. }
    rewrite fmap_cons in Hsz. cbn [foldr foldl for_list] in *.
    pose proof (wp_jstep op j a Hr Hl Hop ltac:(pose proof (Hpos ops); lia)) as Hw.
    apply wp_ok in Hw as ([] & j1 & Hrun & k & Hr1 & Hl1 & Hrm1). unfold mbind, M_bind. rewrite Hrun.
    destruct (IH j1 (astep k op a) Hr1 Hl1) as (j' & ks & Hrun' & Hlen & Hr' & Hl' & Hrm').
    { pose proof (asize_step k op a). lia. }
    exists j', (k :: ks). split_and!; [done|by simpl; rewrite Hlen|done|done|].
    intros Hrm [Hrmo Hrms]%Forall_cons. destruct (Hrm1 Hrm Hrmo) as [-> Hrmj]. constructor; [done|by apply Hrm'].
Qed.

(** ** Concrete instances *)

Lemma journal_boot_refines {F} `{LogFileSpec F} irq : refines (@journal_boot F irq) (ALog [] None).
Proof.
  split; [|done]. unfold journal_boot. cbn [journal_ring ring_prod ring_flushed a_pend].
  split; [by rewrite length_replicate|done|done|done|done|]. intros i Hi. simpl in Hi. lia.
Qed.

Lemma demo_log_ok : ram_ok (demo_file, 2%nat).
Proof.
  split; [apply demo_file_ok|]. eexists. split; [vm_compute; reflexivity|]. split; [reflexivity|]. vm_compute. reflexivity.
Qed.

(** Bytes logged before the file system is up, the file found, one more line. *)
Definition demo_ops : list (jop ram_file) :=
  [JEmit false [98; 111]; JEmit true [111; 116]; JInit (Some (demo_file, 2%nat)); JEmit false [33]].

(** The file ends up with all the bytes. *)
Lemma journal_refines_witness :
  ∃ j', for_list demo_ops jstep (journal_boot false) = Ok (tt, j') ∧
        refines j' (ALog [] (Some [98; 111; 111; 116; 33])) ∧ journal_lock j' = false.
Proof.
  destruct (journal_refines demo_ops (journal_boot false) (ALog [] None)) as (j' & ks & Hrun & Hlen & Hr & Hl & Hall).
  - apply journal_boot_refines.
  - reflexivity.
  - constructor; [exact I|]. constructor; [exact I|]. constructor; [apply demo_log_ok|].
    constructor; [exact I|constructor].
  - vm_compute. discriminate.
  - exists j'. split; [exact Hrun|]. split; [|exact Hl].
    assert (ks = replicate 4 all) as Hks.
    { symmetry. apply replicate_as_Forall. split; [exact Hlen|]. eapply Forall_impl; [apply Hall|].
      - exact I.
      - repeat constructor. vm_compute. intros Hn. inversion Hn.
      - intros k Hk. symmetry. exact Hk. }
    rewrite Hks in Hr.
    assert (arun (ALog [] None) (zip demo_ops (replicate 4 all)) = ALog [] (Some [98; 111; 111; 116; 33])) as E.
    { vm_compute. reflexivity. }
    rewrite E in Hr. exact Hr.
Defined.

(** A file that stores at most [3] bytes a write. *)
Definition short_file : LogFile (list Z) := {|
  lf_write f off bs := Ok (Z.of_nat (length (take 3 bs)), f ++ take 3 bs);
  lf_size f := Z.of_nat (length f);
  lf_truncate _ := [];
|}.

#[local] Existing Instance short_file.

(** It keeps the law of the class, without ever being roomy. *)
Definition short_spec : LogFileSpec (list Z).
Proof.
  refine {| lf_ok _ := True; lf_content f := f; lf_roomy _ := False |}.
  - done.
  - intros f bs _ _. exists (length (take 3 bs)), (f ++ take 3 bs). split_and!; [done|rewrite length_take; lia|done| |done].
    f_equal. rewrite length_take. destruct (decide (3 ≤ length bs)%nat); [by rewrite Nat.min_l|].
    rewrite Nat.min_r by lia. by rewrite !take_ge by lia.
  - done.
Defined.

(** A short write loses bytes: they are counted as stored. *)
Example journal_short_write_loses :
  match for_list [JInit (Some []); JEmit false [1; 2; 3; 4; 5]; JFlush] (@jstep _ short_file)
          (journal_boot false) with
  | Ok (_, j) => journal_file j = Some [1; 2; 3] ∧ ring_prod j = ring_flushed j
  | _ => False
  end.
Proof. vm_compute. done. Qed.
