(* ===== verification/Softirq.v ===== *)
(** * Softirq: deferred interrupt work

    Models [kernel/softirq.c]: a ring of [MAX_PENDING] work items that
    interrupt handlers fill and [softirq_poll] runs, in order.  The handlers
    are other code: a handler is known here by the work items it schedules when
    it runs.  The ring is proved to implement a bounded first-in first-out
    queue. *)

From S2P Require Import Prelude.

Definition MAX_PENDING : Z := 64.

(** [struct work]: a handler (0 is the null pointer) and its argument. *)
Definition work : Type := Z * Z.

(** The statics [queue], [head] and [tail], the spin lock being free between
    the calls; [ran] lists the handler calls made so far. *)
Record softirq := Softirq {
  queue : list work;
  head : Z;
  tail : Z;
  ran : list work;
}.

Definition softirq_boot : softirq := Softirq (replicate 64 (0, 0)) 0 0 [].

(** [void softirq_schedule(void ( *handler)(void * ), void *arg)] *)
Definition softirq_schedule (w : work) : M softirq unit :=
  if w.1 =? 0 then mret tt
  else
    s ← gets id;
    let next := (head s + 1) mod MAX_PENDING in
    if next =? tail s then mret tt
    else
      _ ← load (queue s) (head s);
      modify (λ s, Softirq (<[Z.to_nat (head s) := w]> (queue s)) next (tail s) (ran s)).

Section poll.
(** The items a handler schedules when it is called. *)
Context (spawns : work → list work).

(** [if (h) h(a);] *)
Definition run_work (w : work) : M softirq unit :=
  if w.1 =? 0 then mret tt
  else
    modify (λ s, Softirq (queue s) (head s) (tail s) (ran s ++ [w])) ;;
    for_list (spawns w) softirq_schedule.

(** [void softirq_poll(void)]; each round takes one item out, so the fuel bounds
    the number of items run. *)
Definition softirq_poll (fuel : nat) : M softirq unit :=
  loop_fuel fuel (λ _ : unit,
    s ← gets id;
    if tail s =? head s then mret (inr tt)
    else
      w ← load (queue s) (tail s);
      modify (λ s, Softirq (queue s) (head s) ((tail s + 1) mod MAX_PENDING) (ran s)) ;;
      run_work w ;;
      mret (inl tt)) tt.

(** ** The abstract queue *)

(** Enqueue, if fewer than 63 items wait. *)
Definition a_schedule (q : list work) (w : work) : list work :=
  if w.1 =? 0 then q else if Z.of_nat (length q) <? MAX_PENDING - 1 then q ++ [w] else q.

(** Run the items in order, those they schedule behind the ones that wait: the
    calls made, if [fuel] items were enough. *)
Fixpoint a_poll (fuel : nat) (q : list work) : option (list work) :=
  match fuel with
  | O => None
  | S fuel' =>
    match q with
    | [] => Some []
    | w :: q' => cons w <$> a_poll fuel' (foldl a_schedule q' (spawns w))
    end
  end.

(** The ring holds the queue. *)
Record queue_rep (s : softirq) (q : list work) : Prop := {
  qr_len : length (queue s) = 64%nat;
  qr_head : 0 ≤ head s < 64;
  qr_tail : 0 ≤ tail s < 64;
  qr_count : (head s - tail s) mod 64 = Z.of_nat (length q);
  qr_items : ∀ i, (i < length q)%nat → queue s !! Z.to_nat ((tail s + Z.of_nat i) mod 64) = q !! i;
  qr_real : Forall (λ w, w.1 ≠ 0) q;
}.

Lemma mod64_head h t n : 0 ≤ h < 64 → 0 ≤ t < 64 → (h - t) mod 64 = n → (t + n) mod 64 = h.
Proof. intros. Z.to_euclidean_division_equations; lia. Qed.

(** Scheduling implements the bounded enqueue. *)
Lemma wp_schedule s q w (Q : unit → softirq → Prop) :
  queue_rep s q →
  (∀ s', queue_rep s' (a_schedule q w) → ran s' = ran s → Q tt s') → wp (softirq_schedule w) Q s.
Proof.
  intros Hr HQ. destruct (Hr) as [Hlen Hh Ht Hcnt Hit Hreal]. unfold softirq_schedule, a_schedule, MAX_PENDING in *.
  destruct (Z.eqb_spec w.1 0); [apply wp_ret; by apply HQ|].
  pose proof (mod64_head _ _ _ Hh Ht Hcnt) as Hslot.
  wp_step. wp_step. cbn [id]. destruct (Z.eqb_spec ((head s + 1) mod 64) (tail s)) as [Hfull|Hroom].
  - apply wp_ret. rewrite (proj2 (Z.ltb_ge _ _)) in HQ by (clear -Hh Ht Hcnt Hfull; Z.to_euclidean_division_equations; lia).
    by apply HQ.
  - rewrite (proj2 (Z.ltb_lt _ _)) in HQ by (clear -Hh Ht Hcnt Hroom; Z.to_euclidean_division_equations; lia).
    destruct (lookup_lt_is_Some_2 (queue s) (Z.to_nat (head s))) as [x Hx]; [lia|].
    wp_step. eapply wp_load; [lia|done|]. wp_step. apply HQ; [|done].
    assert ((length q < 63)%nat) as Hq by (clear -Hh Ht Hcnt Hroom; Z.to_euclidean_division_equations; lia).
    split; simpl.
    + by rewrite length_insert.
    + apply Z.mod_pos_bound. lia.
    + done.
    + rewrite length_app. simpl. clear -Hh Ht Hcnt Hroom Hq. Z.to_euclidean_division_equations; lia.
    + intros i Hi. rewrite length_app in Hi. simpl in Hi. destruct (decide (i = length q)) as [->|Hne].
      * rewrite Hslot, list_lookup_insert_eq by lia. by rewrite list_lookup_middle.
      * assert (head s ≠ (tail s + Z.of_nat i) mod 64) as Hd.
        { clear -Hh Ht Hcnt Hi Hne Hq. Z.to_euclidean_division_equations; lia. }
        pose proof (Z.mod_pos_bound (tail s + Z.of_nat i) 64 ltac:(lia)).
        rewrite list_lookup_insert_ne, Hit by lia. symmetry. apply lookup_app_l. lia.
    + apply Forall_app. split; [done|by repeat constructor].
Qed.

Lemma wp_schedule_all s q ws (Q : unit → softirq → Prop) :
  queue_rep s q →
  (∀ s', queue_rep s' (foldl a_schedule q ws) → ran s' = ran s → Q tt s') →
  wp (for_list ws softirq_schedule) Q s.
Proof.
  revert s q Q. induction ws as [|w ws IH]; intros s q Q Hr HQ; cbn [for_list foldl] in *.
  - apply wp_ret. by apply HQ.
  - wp_step. eapply wp_schedule; [done|]. intros s1 Hr1 Hran1.
    eapply IH; [done|]. intros s2 Hr2 Hran2. apply HQ; [done|congruence].
Qed.

(** Taking the oldest item out. *)
Lemma queue_rep_pop s w q :
  queue_rep s (w :: q) →
  tail s ≠ head s ∧ queue s !! Z.to_nat (tail s) = Some w ∧
  queue_rep (Softirq (queue s) (head s) ((tail s + 1) mod 64) (ran s)) q.
Proof.
  intros [Hlen Hh Ht Hcnt Hit Hreal]. cbn [length] in *.
  assert (Z.of_nat (S (length q)) < 64) as Hq.
  { rewrite <-Hcnt. apply Z.mod_pos_bound. lia. }
  split_and!.
  - intros E. rewrite E, Z.sub_diag in Hcnt. change (0 mod 64) with 0 in Hcnt. lia.
  - specialize (Hit 0%nat ltac:(lia)). rewrite Z.add_0_r, Z.mod_small in Hit by lia. done.
  - split; simpl; [done|done| | | |by inversion Hreal].
    + apply Z.mod_pos_bound. lia.
    + clear -Hh Ht Hcnt Hq. Z.to_euclidean_division_equations; lia.
    + intros i Hi. specialize (Hit (S i) ltac:(lia)). simpl in Hit. rewrite <-Hit. f_equal. f_equal.
      rewrite Zplus_mod_idemp_l. f_equal. lia.
Qed.

Lemma queue_rep_run s q c : queue_rep s q → queue_rep (Softirq (queue s) (head s) (tail s) c) q.
Proof. intros []. by split. Qed.

Lemma wp_poll fuel s q calls (Q : unit → softirq → Prop) :
  queue_rep s q → a_poll fuel q = Some calls →
  (∀ s', queue_rep s' [] → ran s' = ran s ++ calls → Q tt s') → wp (softirq_poll fuel) Q s.
Proof.
  unfold softirq_poll. revert s q calls. induction fuel as [|fuel IH]; intros s q calls Hr Hp HQ; [done|].
  cbn [loop_fuel a_poll] in *. wp_step. wp_step. wp_step. cbn [id]. destruct q as [|w q].
  - injection Hp as <-. assert (tail s = head s) as E.
    { destruct Hr. simpl in *. clear -qr_head0 qr_tail0 qr_count0. Z.to_euclidean_division_equations; lia. }
    rewrite (proj2 (Z.eqb_eq _ _) E). wp_step. wp_step. apply HQ; [done|by rewrite app_nil_r].
  - destruct (queue_rep_pop _ _ _ Hr) as (Hne & Hw & Hr1). rewrite (proj2 (Z.eqb_neq _ _) Hne).
    apply fmap_Some in Hp as (rest & Hrest & ->).
    assert (w.1 ≠ 0) as Hreal by (destruct Hr; by inversion qr_real0).
    wp_step. eapply wp_load; [apply Hr|done|]. wp_step. wp_step. wp_step. unfold run_work.
    rewrite (proj2 (Z.eqb_neq _ _) Hreal). wp_step. wp_step.
    eapply wp_schedule_all; [by eapply queue_rep_run in Hr1|]. intros s2 Hr2 Hran2. simpl in Hran2.
    wp_step. eapply IH; [done|done|]. intros s3 Hr3 Hran3. apply HQ; [done|].
    rewrite Hran3, Hran2, <-(assoc_L (++)). done.
Qed.

(** With handlers that schedule nothing, one item more of fuel than there are
    items is enough. *)
Lemma a_poll_plain q fuel :
  (∀ w, spawns w = []) → (length q < fuel)%nat → a_poll fuel q = Some q.
Proof.
  intros Hs. revert q. induction fuel as [|fuel IH]; intros [|w q] Hf; simpl in *; try lia; [done|].
  rewrite Hs. simpl. rewrite IH by lia. done.
Qed.

(** The softirq ring is a bounded queue.  From a ring that holds the queue
    [q], any sequence of [softirq_schedule] calls adds the items in order (null
    handlers and items beyond the 63rd are dropped), and [softirq_poll] then
    runs every item once, oldest first, those that handlers schedule meanwhile
    after the waiting ones, and leaves the ring empty. *)
Theorem softirq_fifo fuel ws s q calls :
  queue_rep s q → a_poll fuel (foldl a_schedule q ws) = Some calls →
  ∃ s', (for_list ws softirq_schedule ;; softirq_poll fuel) s = Ok (tt, s') ∧
        queue_rep s' [] ∧ ran s' = ran s ++ calls.
Proof.
  intros Hr Hp.
  assert (wp (for_list ws softirq_schedule ;; softirq_poll fuel)
    (λ _ s', queue_rep s' [] ∧ ran s' = ran s ++ calls) s) as Hw.
  { wp_step. eapply wp_schedule_all; [done|]. intros s1 Hr1 Hran1.
    eapply wp_poll; [done|done|]. intros s2 Hr2 Hran2. split; [done|congruence]. }
  apply wp_ok in Hw as ([] & s' & Hrun & ?). by exists s'.
Qed.

(** Handlers that schedule nothing are all run by one poll, whatever the
    fuel beyond their number. *)
Theorem softirq_drains fuel s q :
  queue_rep s q → (∀ w, spawns w = []) → (length q < fuel)%nat →
  ∃ s', softirq_poll fuel s = Ok (tt, s') ∧ queue_rep s' [] ∧ ran s' = ran s ++ q.
Proof.
  intros Hr Hs Hf.
  assert (wp (softirq_poll fuel) (λ _ s', queue_rep s' [] ∧ ran s' = ran s ++ q) s) as Hw.
  { eapply wp_poll; [done|by apply a_poll_plain|done]. }
  apply wp_ok in Hw as ([] & s' & Hrun & ?). by exists s'.
Qed.
End poll.

(** ** Concrete instances *)

Lemma softirq_boot_rep : queue_rep softirq_boot [].
Proof. split; simpl; try done. intros i Hi. lia. Qed.

(** Handler 1 schedules handler 2, which schedules nothing. *)
Definition demo_spawns (w : work) : list work := if w.1 =? 1 then [(2, w.2)] else [].

Lemma softirq_fifo_witness :
  ∃ s', (for_list [(1, 7); (0, 5); (3, 8)] softirq_schedule ;; softirq_poll demo_spawns 10) softirq_boot =
        Ok (tt, s') ∧ queue_rep s' [] ∧ ran s' = [] ++ [(1, 7); (3, 8); (2, 7)].
Proof.
  apply (softirq_fifo demo_spawns 10 [(1, 7); (0, 5); (3, 8)] softirq_boot []).
  - apply softirq_boot_rep.
  - vm_compute. reflexivity.
Defined.

Lemma softirq_drains_witness :
  ∃ s', softirq_poll (λ _, []) 1 softirq_boot = Ok (tt, s') ∧ queue_rep s' [] ∧ ran s' = [] ++ [].
Proof.
  apply (softirq_drains (λ _, []) 1 softirq_boot []); [apply softirq_boot_rep|reflexivity|simpl; lia].
Defined.
